(* ===== verification/_CoqProject ===== *)
-Q . S2P
Prelude.v
Memory.v
Ofpbuf.v
Csum.v
Crc32.v
PortArray.v
PortArrayCorrect.v
OpenFlow.v
MatchStd.v
ActionSet.v
Buffers.v
PacketActions.v
PushPop.v
HeaderEdit.v
LinkedList.v
MacTable.v
TcpTable.v
ArpPath.v
Group.v
GroupTable.v
Meter.v
Ports.v
PortsCorrect.v
Network.v
Rconn.v
RconnCorrect.v
RateLimit.v
RateLimitCorrect.v
Controllers.v
ControllersCorrect.v
Wire.v
Secchan.v
SecchanCorrect.v
Stp.v
StpInvariant.v
Vconn.v
WireCorrect.v
VconnCorrect.v
VconnNegotiate.v
StpCorrect.v
StpNetwork.v
Oxm.v
OxmWire.v
OxmWireCorrect.v
StatsWire.v
StatsWireCorrect.v
Experimenter.v
TcpPath.v
FlowTable.v
Features.v
Messages.v
MessagesCorrect.v
MessagesSafe.v
Pipeline.v
Stats.v
Execute.v
Ownership.v
ExecuteSafe.v
ExecuteRun.v
Processing.v
Forwarding.v
Hello.v
Repair.v
MessagesRange.v
ExecuteKeeps.v
ForwardingCorrect.v
HelloCorrect.v
RepairCorrect.v
Control.v
Datapath.v
Startup.v
ControlCorrect.v
DatapathCorrect.v
