(* ===== verification/Prelude.v ===== *)
(** The TCP-Path / ARP-Path software switch: a verification library.

    The program (src/mininet) is the CPqD OpenFlow 1.3 software switch extended
    with two path protocols.  The switch process ([dp_run], udatapath/datapath.c) reads
    frames from its ports (dp_ports.c), decodes them with the NetBee library, runs
    them through its flow tables (pipeline.c, flow_table.c, match_std.c), which apply
    actions, groups and meters, and gives what the tables leave to ARP-Path and TCP-Path
    (pipeline.c, dp_ports.c).  Controllers, over reliable connections (lib/rconn.c), send
    messages that are unpacked (oflib) and dispatched (dp_control.c) to the tables,
    groups, meters, ports and buffers; answers and asynchronous messages are packed and go
    back.  Timers age the tables, refill the meters and send hellos to the neighbours.  The
    secure channel (secchan) is a process of its own that relays between switch and controller.
    The library (lib) also has virtual connections, sparse arrays and a spanning tree.

    * Files and what they model

    Shared:
    - Prelude: machine integers ([wrap], [u8] .. [u64]), bytes, bits, list and option
      lemmas, hints and tactics.
    - Memory: blocks of bytes with bounds-checked reading, writing and moving.
    - Ofpbuf: lib/ofpbuf.c, the buffers packets live in.  Csum: lib/csum.c.  Crc32:
      udatapath/crc32.c.
    - LinkedList: heap lists with head and tail pointers and the relation [repr] to
      lists of entries.

    Packets:
    - OpenFlow: OXM matches with the constructors of oflib/ofl-structs-match.c, actions,
      instructions, error codes.  MatchStd: udatapath/match_std.c.  ActionSet:
      udatapath/action_set.c.
    - Buffers: udatapath/packet.c, packet_handle_std.c and dp_buffers.c, the heap of
      packets and the ring of packets kept for controllers.
    - PacketActions, PushPop, HeaderEdit: the actions of udatapath/dp_actions.c on the
      bytes of a frame, and their correctness.

    Path protocols:
    - MacTable, TcpTable: the [mac_to_port_*] and [table_tcp_*] functions of dp_ports.c.
    - ArpPath: [pipeline_arp_path].  TcpPath: [pipeline_tcp_path] and the path request
      frames.  Network: networks of such switches, as a step relation on frames in flight.
    - Forwarding, ForwardingCorrect: [pipeline_process_Uah] and [process_buffer], from the
      bytes of a frame to the frames sent.  Hello, HelloCorrect: the discovery of neighbours.
    - Repair, RepairCorrect: the same with path repair, for either value of [recuperacion].

    Tables and ports:
    - Group, GroupTable: udatapath/group_entry.c, group_table.c, action validation.
      Meter: meter_entry.c, meter_table.c.  FlowTable: flow_entry.c, flow_table.c.
    - Ports, PortsCorrect: ports, queues, receiving and sending, dp_ports.c, and the
      broadcast orders of udatapath.c.
    - Pipeline: flow_mod, group_mod and meter_mod messages and timeouts over all tables.
    - Execute: a packet through tables, instructions, groups and meters
      ([pipeline_process_packet]), PACKET_OUT.  Ownership, ExecuteSafe, ExecuteRun,
      Processing: that it ends and is memory-safe.  ExecuteKeeps: that it keeps the
      invariants whatever the program.
    - Features: table_mod and table features, in fragments.  Stats: statistics.
    - Datapath, DatapathCorrect: the whole state of the process, [dp_run] and the main loop of
      udatapath.c.

    Controllers:
    - Rconn, RconnCorrect: lib/rconn.c.  Controllers, ControllersCorrect: remotes, roles,
      asynchronous configuration, sending, the turns over the connections (datapath.c).
    - Oxm: the table of OXM fields.  Wire, OxmWire, StatsWire, Messages: oflib packing and
      unpacking of actions, instructions, buckets and bands, of matches, of statistics
      and descriptions, of messages.  Experimenter: oflib-exp.  WireCorrect, OxmWireCorrect,
      StatsWireCorrect, MessagesCorrect: round trips.  MessagesSafe: termination and bounds
      of unpacking.  MessagesRange: what unpacking guarantees to handlers.
    - Control: dp_control.c, dp_exp.c and the loop body of [remote_rconn_run]: from the bytes
      of a message to the new state and the bytes of the answers.  Startup: [dp_new].
      ControlCorrect: the whole of it.

    Secure channel and library:
    - RateLimit, RateLimitCorrect: secchan/ratelimit.c.  Secchan, SecchanCorrect: the relay of
      secchan.c with its hooks, failover.c, the status hook of status.c.
    - Vconn: lib/vconn.c over a class of connections, and stream sockets (vconn-stream.c) as
      such a class.  VconnCorrect: streams.  VconnNegotiate: the version negotiation.
    - PortArray, PortArrayCorrect: lib/port-array.c.
    - Stp: lib/stp.c.  StpInvariant, StpCorrect: one bridge.  StpNetwork: networks of bridges.

    Definitions have the names of the C functions.  A loop of a function is a
    definition of its own ([lookup_scan], [hard_timeout_loop], ...).

    * Interfaces

    The loop over the connections is written against [handler], a record of what the rest
    of the datapath does with a message, and proved against the class [HandlerOk], what it
    must promise; ControlCorrect gives the instance for the switch ([control_ok]).  Memory
    that [malloc] returns is a class too ([Malloc]): nothing is known of its contents.
    Virtual connections are written against [vconn_class], the operations of [struct vconn_class],
    and proved against [carries], what they must promise; [stream_carries] gives the instance for
    streams.  The relay is written against [hooks], the callbacks of [struct hook_class], and proved against [hooks_ok], what they
    must promise; [hooks_both_ok], [rate_limit_hooks_ok] and [status_hooks_ok] give it for the hooks that are modelled.

    * Modelling

    C integers are [Z] with wrap-around written out.  Heap objects that the code
    shares or frees (list nodes, packets, flow entries, connections) live in finite maps
    from pointers; following a NULL or freed pointer, reading outside of a block, and
    freeing twice are [None] or [Undef], so that a theorem that an operation returns is a
    memory-safety theorem.  Unpacking has four outcomes ([res]): a value, an error code,
    undefined behaviour, and a loop that does not end.  The arrays of instructions of flows are values: each has one owner
    but after a modify that selects several flows, which the code gives one array, so that such a modify is [None].  So
    is the deletion of all groups or meters when there are several and flows use them, as the code then searches the freed
    nodes ([walks_freed]).  Hash maps are finite maps, or
    lists in iteration order where the order matters.  The clock is an argument, the
    network and the devices answer arbitrarily (records [vconn] and [netdev]).  Messages and
    frames sent are outputs.  NetBee (nbee_link/nbee_link.cpp) is not C code of the
    repository's own: decoding is a parameter [parse].

    * Fuel

    Loops over linked lists take one unit of fuel per heap node ([fuel]), enough by
    [repr_fuel].  [is_loop_free] has twice the number of group ids in play, enough by
    [is_loop_free_exact].  The weighted round robin has the guard of the source;
    [wrr_fair] shows that a bucket is always found.  [gcd] has fuel for its second argument.
    [rconn_run] has [RUN_TURNS] turns, enough by [rconn_reliable].  The counting loops of
    oflib have more turns than the message has bytes; [unpack_ends] shows that running out is
    a loop that never ends.  Processing takes the depth of resubmissions, the length of
    chains of groups and the number of tables as arguments; [pipeline_process_safe] says
    how much is enough, [goto_own_table_loops] when none is.
    The relay has the 50 turns of the source, and so has the rate limiter.  [vconn_connect] has a turn
    for each state it can go through, receiving before the version is known one for each message of the
    peer; [vconn_negotiates] says that both are enough.  The loops of spanning tree, port
    arrays and the main loop are bounded by the sizes of the source or by the list of events.

    * What is proved

    - Path protocols: the first port wins, for ARP-Path addresses during the lock time
      and, at a switch whose ports in use exist, for TCP-Path connections until the table is aged; in any network that does
      not know its sender, a broadcast arrives at most once over each direction of a link within the lock time, and leaves a tree of
      locks to its sender.  The same of the
      whole switch, on the bytes of frames ([switch_first_port_wins], [switch_forwards_exact]);
      neighbours find each other ([hello_exchange]); with [recuperacion] 0 path repair does nothing
      ([recuperacion_off]), and what it does with 1 ([repair_exchange], [request_storm]).
    - Flow tables: lookup finds an entry of the highest priority that matches; add,
      delete and timeouts change exactly the entries they should, and so does a modify of at most one; errors change
      nothing.  [pipeline_safe]: for any messages, timeouts and lookups no pointer to a
      freed flow is followed, and flows, tables, groups and meters stay consistent, up to the first message of three
      kinds, named there, that the code carries out wrongly.
    - Packets: [pipeline_process_safe], processing ends, follows no bad pointer and neither
      leaks nor double frees; pushing and popping headers, TTLs, checksums, CRC.
    - Groups, meters, ports: loop checks, fairness, conformance, exact outputs, replies.
    - The wire: messages, matches and statistics come back from their bytes; unpacking
      arbitrary bytes ends unless an instruction of length 0 is counted, and stays inside of messages of fixed
      layout with the three exceptions named.
    - Connections: no message is lost, doubled or reordered unless the connection is
      dropped; connections come back, the wait doubling at each refusal; one master at most; broadcasts reach whom they should.
    - The whole control plane: [control_invariant], for any bytes from any controllers;
      [slave_read_only]; [echo_exact] from bytes to bytes; the statistics replies are exact.
    - The whole process: [main_loop_invariant], for any frames, messages, answers and times.
    - Secure channel: the relay hands on every message once and in order ([relay_in_order]), with any hooks that
      return and only send ([hooks_ok]; the rate limiter with room in its queue and the status hook are such), the
      rate that gets through is bounded ([rate_limit_conformance]), controllers are tried in
      turn ([failover_rotates]).
    - Virtual connections: streams keep messages whole and in order however [read] and [write]
      cut them ([stream_in_order]); the version negotiation refines its specification
      ([vconn_negotiates]) and two ends agree ([vconn_ends_agree]).  Sparse arrays are finite
      maps ([port_array_refines]).
    - Spanning tree: an invariant, the exact choice of root and designated ports, no
      forwarding without learning, no loops once the network has settled ([settled_loop_free]).

    Where the code does not do what it means to, the theorem states what it does
    ([unpack_ends], [unpack_inside], [reply_defined_iff], [aggregate_exact],
    [group_meter_stats_exact], [refused_fragment_freed_twice], [push_frames],
    [output_random_exact], [goto_own_table_loops], [masked_comparisons_wrong],
    [delete_timeout_behaviour], [tcp_delete_port_wrong], [meter_rate_wraps], [ageing_stops_switch],
    [neighbor_table_grows], [flow_table_modify_exact], [clock_drift], [topology_flags_lost], [repair_requests_exact],
    [request_storm], [rate_limiter_leaves] and others).

    * What is not modelled

    Sockets and devices, which answer arbitrarily; freeing at shutdown and printing; the
    third-party decoder; the hardware platform; the command line tools and options; SSL, netlink
    and passive connections; the other hooks of the secure channel (discovery, in-band control,
    port watcher, spanning tree); MAC learning, DHCP and the hash map code of lib, of which the
    switch uses only the hash maps, modelled by what their users see; repair by the controller
    ([RECOVERY_DIST] 0). *)

From Stdlib Require Export ZArith Lia.
From stdpp Require Export base gmap list list_numbers sorting fin_maps numbers.

#[export] Set Default Goal Selector "!".

(** * Machine integers

    An unsigned w-bit C integer is a [Z] in [0, 2^w); [wrap w] is the
    truncation a C assignment or cast to such a type performs. *)

Open Scope Z_scope.

Declare Scope cint_scope.
Delimit Scope cint_scope with cint.

Definition wrap (w x : Z) : Z := x mod 2 ^ w.
Definition u8 (x : Z) : Z := wrap 8 x.
Definition u16 (x : Z) : Z := wrap 16 x.
Definition u32 (x : Z) : Z := wrap 32 x.
Definition u64 (x : Z) : Z := wrap 64 x.

(** [x] is representable in w bits. *)
Definition fits (w x : Z) : Prop := 0 <= x < 2 ^ w.

Notation "x ∈u w" := (fits w x) (at level 70) : cint_scope.
Notation "x +[ w ] y" := (wrap w (x + y)) (at level 50, left associativity) : cint_scope.
Notation "x -[ w ] y" := (wrap w (x - y)) (at level 50, left associativity) : cint_scope.
Notation "x *[ w ] y" := (wrap w (x * y)) (at level 40, left associativity) : cint_scope.
Open Scope cint_scope.

#[global] Instance fits_dec w x : Decision (fits w x).
Proof. unfold fits. apply _. Defined.

(** Discharge a closed decidable fact by evaluating its decision procedure. *)
Ltac by_eval := apply (bool_decide_unpack _); vm_compute; exact I.

(** Bitwise complement of a w-bit value. *)
Definition unot (w x : Z) : Z := wrap w (Z.lnot x).

(** A C condition: an integer is true when it is not zero. *)
Definition truthy (x : Z) : bool := negb (x =? 0).

(** * Memory

    A byte array is a list of byte values, a pointer into it the suffix that
    starts there; [*(uintN_t * )p] is a little-endian read, as on the x86 hosts
    the switch is built for. *)

Definition bytes (l : list Z) : Prop := Forall (fits 8) l.

Fixpoint le_read (bs : list Z) : Z :=
  match bs with
  | [] => 0
  | b :: bs => b + Z.shiftl (le_read bs) 8
  end.

(** The [n] bytes of a little-endian integer in memory ([memcpy] from it). *)
Fixpoint le_bytes (n : nat) (v : Z) : list Z :=
  match n with
  | O => []
  | S n => Z.land v 0xff :: le_bytes n (Z.shiftr v 8)
  end.

(** [htons], [ntohs] on a little-endian host. *)
Definition bswap16 (x : Z) : Z := Z.lor (Z.shiftl (Z.land x 0xff) 8) (Z.land (Z.shiftr x 8) 0xff).

Definition rd8 (p : list Z) : Z := le_read (take 1 p).
Definition rd16 (p : list Z) : Z := le_read (take 2 p).
Definition rd32 (p : list Z) : Z := le_read (take 4 p).
Definition rd64 (p : list Z) : Z := le_read (take 8 p).

(** The sum of a list. *)
Definition zsum (l : list Z) : Z := foldr Z.add 0 l.

Create HintDb cint.
Create Rewrite HintDb cint_norm.

Lemma wrap_fits w x : 0 <= w → fits w (wrap w x).
Proof. intros Hw. apply Z.mod_pos_bound. by apply Z.pow_pos_nonneg. Qed.

Lemma wrap_small w x : fits w x → wrap w x = x.
Proof. apply Z.mod_small. Qed.

Lemma wrap_wrap w x : wrap w (wrap w x) = wrap w x.
Proof. apply Zmod_mod. Qed.

Lemma unot_eq w x : 0 <= w → fits w x → unot w x = 2 ^ w - 1 - x.
Proof.
  unfold unot, wrap, fits. intros Hw Hx.
  replace (Z.lnot x) with (2 ^ w - 1 - x + (-1) * 2 ^ w).
  - rewrite Z_mod_plus_full. apply Z.mod_small. lia.
  - pose proof (Z.add_lnot_diag x). lia.
Qed.

Lemma fits_bits w x :
  0 <= w → fits w x ↔ 0 <= x ∧ ∀ l, w <= l → Z.testbit x l = false.
Proof.
  intros Hw. unfold fits. split.
  - intros [H0 H1]. split; [done|]. by apply Z.bounded_iff_bits_nonneg.
  - intros [H0 H1]. split; [done|]. by apply Z.bounded_iff_bits_nonneg.
Qed.

(** Bits of a w-bit value above the width are clear. *)
Lemma fits_high w x l : 0 <= w → fits w x → w <= l → Z.testbit x l = false.
Proof. intros Hw Hx Hl. apply (fits_bits w x Hw) in Hx as [_ Hx]. auto. Qed.

Lemma fits_land_l w x y : 0 <= w → fits w x → fits w (Z.land x y).
Proof.
  intros Hw [H0 Hb]%fits_bits; [|done]. apply fits_bits; [done|].
  split; [apply Z.land_nonneg; by left|]. intros l Hl.
  rewrite Z.land_spec, Hb by done. done.
Qed.

Lemma fits_lor w x y : 0 <= w → fits w x → fits w y → fits w (Z.lor x y).
Proof.
  intros Hw [H0 Hb]%fits_bits [H1 Hc]%fits_bits; [|done..]. apply fits_bits; [done|].
  split; [by apply Z.lor_nonneg|]. intros l Hl. by rewrite Z.lor_spec, Hb, Hc.
Qed.

Lemma fits_lxor w x y : 0 <= w → fits w x → fits w y → fits w (Z.lxor x y).
Proof.
  intros Hw [H0 Hb]%fits_bits [H1 Hc]%fits_bits; [|done..]. apply fits_bits; [done|].
  split; [by apply Z.lxor_nonneg|]. intros l Hl. by rewrite Z.lxor_spec, Hb, Hc.
Qed.

(** [x & 0xff..f] is the truncation to w bits. *)
Lemma land_ones_wrap w x : 0 <= w → Z.land x (2 ^ w - 1) = wrap w x.
Proof. intros Hw. unfold wrap. rewrite <- Z.land_ones, Z.ones_equiv by done. f_equal; lia. Qed.

(** * Sums *)

Lemma zsum_cons x l : zsum (x :: l) = x + zsum l.
Proof. done. Qed.

Lemma zsum_app l k : zsum (l ++ k) = zsum l + zsum k.
Proof. induction l as [|x l IH]; [done|]. unfold zsum in *. simpl. lia. Qed.

#[export] Instance zsum_perm : Proper (Permutation ==> eq) zsum.
Proof. unfold zsum. intros l k. induction 1; simpl; lia. Qed.

#[export] Hint Resolve wrap_fits wrap_small fits_land_l fits_lor fits_lxor : cint.
#[export] Hint Rewrite wrap_wrap : cint_norm.

(** * Little-endian reads, bit by bit *)

Lemma le_read_bound bs : bytes bs → 0 <= le_read bs < 2 ^ (8 * Z.of_nat (length bs)).
Proof.
  induction 1 as [|b bs Hb _ IH]; [done|]. cbn [le_read length].
  rewrite Z.shiftl_mul_pow2 by lia. unfold fits in Hb.
  replace (8 * Z.of_nat (S (length bs))) with (8 + 8 * Z.of_nat (length bs)) by lia.
  rewrite Z.pow_add_r by lia. change (2 ^ 8) with 256 in *. nia.
Qed.

Lemma le_read_inj bs cs :
  bytes bs → bytes cs → length bs = length cs → le_read bs = le_read cs → bs = cs.
Proof.
  intros Hb. revert cs. induction Hb as [|b bs Hb _ IH]; intros [|c cs] Hc Hl; try done.
  apply Forall_cons_1 in Hc as [Hc Hcs]. cbn [le_read].
  rewrite !Z.shiftl_mul_pow2 by lia. unfold fits in *. change (2 ^ 8) with 256 in *.
  intros H. assert (b = c) as -> by lia. f_equal. apply IH; [done|simpl in Hl; lia|lia].
Qed.

(** Writing an integer to memory and reading it back truncates it. *)
Lemma le_read_le_bytes n v : le_read (le_bytes n v) = wrap (8 * Z.of_nat n) v.
Proof.
  unfold wrap. revert v. induction n as [|n IH]; intros v; [by rewrite Z.mod_1_r|].
  cbn [le_bytes le_read]. rewrite IH. change 0xff with (Z.ones 8).
  rewrite Z.land_ones, Z.shiftl_mul_pow2, Z.shiftr_div_pow2 by lia.
  replace (8 * Z.of_nat (S n)) with (8 + 8 * Z.of_nat n) by lia.
  rewrite Z.pow_add_r, Z.rem_mul_r by lia. lia.
Qed.

Lemma rd32_le_bytes v : fits 32 v → rd32 (le_bytes 4 v) = v.
Proof.
  intros. unfold rd32. change (take 4 (le_bytes 4 v)) with (le_bytes 4 v).
  rewrite le_read_le_bytes. by apply wrap_small.
Qed.

(** A byte-wise operation on two arrays is the word-wise operation on the
    integers they hold, for an operation that works bit by bit. *)
Section bitwise.
  Context (op : Z → Z → Z) (f : bool → bool → bool).
  Context (op_spec : ∀ a b i, 0 <= i → Z.testbit (op a b) i = f (Z.testbit a i) (Z.testbit b i)).
  Context (f_ff : f false false = false).
  Context (op_nonneg : ∀ a b, 0 <= a → 0 <= b → 0 <= op a b).

Lemma op_fits w a b : 0 <= w → fits w a → fits w b → fits w (op a b).
Proof using op_spec f_ff op_nonneg.
  intros Hw [Ha Ha']%fits_bits [Hb Hb']%fits_bits; [|done..].
  apply fits_bits; [done|]. split; [auto|]. intros l Hl.
  rewrite op_spec, Ha', Hb' by lia. done.
Qed.

Lemma testbit_cons b r i : fits 8 b → 0 <= r → 0 <= i →
  Z.testbit (b + Z.shiftl r 8) i = if i <? 8 then Z.testbit b i else Z.testbit r (i - 8).
Proof.
  intros Hb Hr Hi.
  assert (Z.land b (Z.shiftl r 8) = 0) as Hd.
  { apply Z.bits_inj'. intros n Hn. rewrite Z.land_spec, Z.shiftl_spec, Z.bits_0 by done.
    destruct (Z.lt_ge_cases n 8).
    - rewrite (Z.testbit_neg_r r) by lia. by rewrite andb_false_r.
    - by rewrite (fits_high 8 b). }
  rewrite (Z.add_nocarry_lxor _ _ Hd), Z.lxor_spec, Z.shiftl_spec by done.
  destruct (Z.ltb_spec i 8).
  - rewrite (Z.testbit_neg_r r) by lia. apply xorb_false_r.
  - rewrite (fits_high 8 b) by (done || lia). by rewrite xorb_false_l.
Qed.

Lemma le_read_op bs cs :
  bytes bs → bytes cs → length bs = length cs →
  le_read (zip_with op bs cs) = op (le_read bs) (le_read cs).
Proof using op_spec f_ff op_nonneg.
  intros Hb. revert cs. induction Hb as [|b bs Hb Hbs IH]; intros [|c cs] Hc Hl; try done.
  { cbn. apply Z.bits_inj'. intros n Hn. rewrite op_spec, !Z.bits_0 by done. done. }
  apply Forall_cons_1 in Hc as [Hc Hcs]. cbn [zip_with le_read].
  rewrite IH by (done || (simpl in Hl; lia)).
  pose proof (le_read_bound _ Hbs). pose proof (le_read_bound _ Hcs).
  apply Z.bits_inj'. intros n Hn. rewrite op_spec by done.
  rewrite !testbit_cons by (done || lia || (apply op_nonneg; lia) || (apply op_fits; done || lia)).
  destruct (Z.ltb_spec n 8); by rewrite op_spec by lia.
Qed.
End bitwise.
