(* ===== verification/Memory.v ===== *)
(** Memory blocks as the packet code uses them.

    A block that malloc returned is a list of bytes; a pointer into it is an
    offset from its start.  Loads, stores and [memmove] are partial: [None] is
    an access outside of the block.  Integers are stored in the byte order of the
    x86 hosts the switch is built for, and [bswap16], [bswap32] are the [htons]
    and [htonl] of such a host. *)

From S2P Require Import Prelude.

Definition bswap32 (x : Z) : Z :=
  Z.lor (Z.lor (Z.land (Z.shiftr x 24) 0xff) (Z.land (Z.shiftl x 8) 0xff0000))
        (Z.lor (Z.land (Z.shiftr x 8) 0xff00) (Z.land (Z.shiftl x 24) 0xff000000)).

(** Overwriting bytes. *)
Definition set_bytes (off : nat) (bs data : list Z) : list Z :=
  take off data ++ bs ++ drop (off + length bs) data.

Definition mread (mem : list Z) (p n : nat) : option (list Z) :=
  if (p + n <=? length mem)%nat then Some (take n (drop p mem)) else None.

Definition mwrite (mem : list Z) (p : nat) (bs : list Z) : option (list Z) :=
  if (p + length bs <=? length mem)%nat then Some (set_bytes p bs mem) else None.

(** [*(uintN_t * )p], N = 8 w, and the assignment to it. *)
Definition ld (w : nat) (mem : list Z) (p : nat) : option Z := le_read <$> mread mem p w.
Definition st (w : nat) (mem : list Z) (p : nat) (v : Z) : option (list Z) := mwrite mem p (le_bytes w v).

Definition memmove (mem : list Z) (dst src n : nat) : option (list Z) :=
  bs ← mread mem src n; mwrite mem dst bs.

(** * Lemmas *)

Lemma length_set_bytes off bs data :
  (off + length bs <= length data)%nat → length (set_bytes off bs data) = length data.
Proof. intros H. unfold set_bytes. rewrite !length_app, length_take, length_drop. lia. Qed.

Lemma lookup_set_bytes off bs data i :
  (off + length bs <= length data)%nat →
  set_bytes off bs data !! i =
  if decide (off <= i < off + length bs)%nat then bs !! (i - off)%nat else data !! i.
Proof.
  intros H. unfold set_bytes. destruct (decide (i < off)%nat) as [Hi|Hi].
  { rewrite decide_False by lia. rewrite lookup_app_l by (rewrite length_take; lia). by rewrite lookup_take_lt. }
  rewrite lookup_app_r by (rewrite length_take; lia). rewrite length_take, Nat.min_l by lia.
  destruct (decide (i < off + length bs)%nat) as [Hj|Hj].
  - rewrite decide_True by lia. rewrite lookup_app_l by lia. done.
  - rewrite decide_False by lia. rewrite lookup_app_r by lia. rewrite lookup_drop. f_equal. lia.
Qed.

Lemma set_bytes_app off bs x y :
  (off + length bs <= length x)%nat → set_bytes off bs (x ++ y) = set_bytes off bs x ++ y.
Proof.
  intros H. unfold set_bytes. rewrite take_app_le, drop_app_le by lia. by rewrite <- !app_assoc.
Qed.

(** ** Blocks cut into pieces *)

Lemma set_bytes_mid pre old new post :
  length old = length new → set_bytes (length pre) new (pre ++ old ++ post) = pre ++ new ++ post.
Proof.
  intros Hl. unfold set_bytes. rewrite take_app_length, <- Hl.
  by rewrite <- length_app, (app_assoc pre old), drop_app_length.
Qed.

Lemma mread_mid pre bs post n :
  length bs = n → mread (pre ++ bs ++ post) (length pre) n = Some bs.
Proof.
  intros <-. unfold mread. rewrite !length_app. rewrite (proj2 (Nat.leb_le _ _)) by lia.
  by rewrite drop_app_length, take_app_length.
Qed.

Lemma mwrite_mid pre old new post :
  length old = length new → mwrite (pre ++ old ++ post) (length pre) new = Some (pre ++ new ++ post).
Proof.
  intros Hl. unfold mwrite. rewrite !length_app. rewrite (proj2 (Nat.leb_le _ _)) by lia.
  by rewrite set_bytes_mid.
Qed.

Lemma mread_Some mem p n bs : mread mem p n = Some bs ↔ (p + n <= length mem)%nat ∧ bs = take n (drop p mem).
Proof. unfold mread. destruct (Nat.leb_spec (p + n) (length mem)); [|split; [done|lia]]. naive_solver. Qed.

Lemma mwrite_Some mem p bs m :
  mwrite mem p bs = Some m ↔ (p + length bs <= length mem)%nat ∧ m = set_bytes p bs mem.
Proof. unfold mwrite. destruct (Nat.leb_spec (p + length bs) (length mem)); [|split; [done|lia]]. naive_solver. Qed.

Lemma mwrite_length mem p bs m : mwrite mem p bs = Some m → length m = length mem.
Proof. intros [? ->]%mwrite_Some. by apply length_set_bytes. Qed.

Lemma le_bytes_length n v : length (le_bytes n v) = n.
Proof. revert v. induction n as [|n IH]; intros v; [done|]. cbn [le_bytes length]. by rewrite IH. Qed.

Lemma le_bytes_bytes n v : bytes (le_bytes n v).
Proof.
  revert v. induction n as [|n IH]; intros v; [constructor|]. cbn [le_bytes]. constructor; [|apply IH].
  change 0xff with (2 ^ 8 - 1). rewrite land_ones_wrap by lia. apply wrap_fits. lia.
Qed.

(** Storing what memory holds already. *)
Lemma le_bytes_le_read bs : bytes bs → le_bytes (length bs) (le_read bs) = bs.
Proof.
  intros Hb. apply le_read_inj; [apply le_bytes_bytes|done|by rewrite le_bytes_length|].
  rewrite le_read_le_bytes. apply wrap_small. by apply le_read_bound.
Qed.


Ltac lens := rewrite ?length_app, ?length_take, ?length_drop, ?length_replicate, ?le_bytes_length in *; cbn [length] in *; lia.

(** ** Checking all bytes *)

Lemma forallb_range (n : nat) (P : Z → bool) x :
  forallb P (seqZ 0 (Z.of_nat n)) = true → 0 <= x < Z.of_nat n → P x = true.
Proof.
  intros H Hx. rewrite forallb_forall in H. apply H. apply list_elem_of_In, elem_of_seqZ. lia.
Qed.

Lemma bswap16_bytes v t : fits 8 v → fits 8 t → bswap16 (u16 (Z.shiftl v 8 + t)) = v + 256 * t.
Proof.
  intros Hv Ht. apply Z.eqb_eq.
  apply (forallb_range 256 (λ t, bswap16 (u16 (Z.shiftl v 8 + t)) =? v + 256 * t) t); [|done].
  apply (forallb_range 256 (λ v, forallb (λ t, bswap16 (u16 (Z.shiftl v 8 + t)) =? v + 256 * t) (seqZ 0 256)) v);
    [by vm_compute|done].
Qed.

Lemma lor_disjoint a b : Z.land a b = 0 → Z.lor a b = a + b.
Proof. intros H. rewrite <- Z.lxor_lor by done. by rewrite Z.add_nocarry_lxor. Qed.

Lemma bswap16_eq x : fits 16 x → bswap16 x = x / 256 + 256 * (x mod 256).
Proof.
  intros Hx. rewrite <- bswap16_bytes by (unfold fits in *; Z.div_mod_to_equations; lia).
  f_equal. unfold u16. rewrite Z.shiftl_mul_pow2 by lia. rewrite wrap_small; unfold fits in *; Z.div_mod_to_equations; lia.
Qed.

Lemma bswap16_fits x : fits 16 x → fits 16 (bswap16 x).
Proof. intros Hx. rewrite bswap16_eq by done. unfold fits in *. Z.div_mod_to_equations. lia. Qed.

Lemma bswap16_twice x : fits 16 x → bswap16 (bswap16 x) = x.
Proof.
  intros Hx. rewrite (bswap16_eq (bswap16 x)) by (by apply bswap16_fits). rewrite bswap16_eq by done.
  unfold fits in *. Z.div_mod_to_equations. lia.
Qed.

(** Inside the block, loads and stores succeed. *)
Lemma ld_in w mem p : (p + w <= length mem)%nat → is_Some (ld w mem p).
Proof. intros Hp. unfold ld, mread. destruct (Nat.leb_spec (p + w) (length mem)); [by eexists|lia]. Qed.

Lemma st_in w mem p v : (p + w <= length mem)%nat → ∃ mem', st w mem p v = Some mem' ∧ length mem' = length mem.
Proof.
  intros Hp. unfold st. destruct (mwrite mem p (le_bytes w v)) as [m|] eqn:E; [exists m; split; [done|by eapply mwrite_length]|].
  unfold mwrite in E. rewrite le_bytes_length in E. destruct (Nat.leb_spec (p + w) (length mem)); [done|lia].
Qed.
