(* ===== verification/Ofpbuf.v ===== *)
(** Packet buffers: lib/ofpbuf.c.

    An [ofpbuf] is a block of memory with a window of bytes in use: [ob_data] bytes
    of headroom, [ob_size] bytes of data, the rest is tailroom.  [base] and
    [allocated] are the block itself and its length.  A failed assertion is [None].
    The bytes of fresh memory are arbitrary: [Malloc] gives them.  Pointers into the
    block are offsets, so that [ofpbuf_rebase__] moves them all with the block; the
    operations that may reallocate say so with [moved], because a pointer that the
    caller computed before is then not to be followed any more.

    The specification is a byte sequence with a headroom: [ofpbuf_refines]. *)

From S2P Require Import Prelude Memory.

(** What memory holds after [xmalloc] or beyond the old end after [xrealloc]. *)
Class Malloc := malloc_byte : nat → Z.
Definition xmalloc `{Malloc} (n : nat) : list Z := malloc_byte <$> seq 0 n.
Definition xrealloc `{Malloc} (mem : list Z) (n : nat) : list Z := take n mem ++ xmalloc (n - length mem).

Record ofpbuf := Ofpbuf { ob_mem : list Z; ob_data : nat; ob_size : nat }.

#[global] Instance ofpbuf_eq : EqDecision ofpbuf.
Proof. solve_decision. Defined.

Definition set_mem (b : ofpbuf) (mem : list Z) : ofpbuf := Ofpbuf mem (ob_data b) (ob_size b).

Section ofpbuf.
  Context `{Malloc}.

Definition ofpbuf_use (base : list Z) : ofpbuf := Ofpbuf base 0 0.
Definition ofpbuf_init (size : nat) : ofpbuf := ofpbuf_use (if (size =? 0)%nat then [] else xmalloc size).
Definition ofpbuf_new (size : nat) : ofpbuf := ofpbuf_init size.

Definition ofpbuf_headroom (b : ofpbuf) : nat := ob_data b.
Definition ofpbuf_tail (b : ofpbuf) : nat := (ob_data b + ob_size b)%nat.
Definition ofpbuf_end (b : ofpbuf) : nat := length (ob_mem b).
Definition ofpbuf_tailroom (b : ofpbuf) : nat := (ofpbuf_end b - ofpbuf_tail b)%nat.

Definition ofpbuf_resize_tailroom__ (b : ofpbuf) (new_tailroom : nat) : ofpbuf :=
  set_mem b (xrealloc (ob_mem b) (ofpbuf_headroom b + ob_size b + new_tailroom)).

(** Whether making room for [size] bytes at the tail reallocates the block. *)
Definition moved (b : ofpbuf) (size : nat) : bool := (ofpbuf_tailroom b <? size)%nat.

Definition ofpbuf_prealloc_tailroom (b : ofpbuf) (size : nat) : ofpbuf :=
  if moved b size then ofpbuf_resize_tailroom__ b (Nat.max size 64) else b.

Definition ofpbuf_prealloc_headroom (b : ofpbuf) (size : nat) : option ofpbuf :=
  if (size <=? ofpbuf_headroom b)%nat then Some b else None.

Definition ofpbuf_trim (b : ofpbuf) : ofpbuf :=
  if (0 <? ofpbuf_tailroom b)%nat then ofpbuf_resize_tailroom__ b 0 else b.

(** The second result is the pointer to the new bytes. *)
Definition ofpbuf_put_uninit (b : ofpbuf) (size : nat) : ofpbuf * nat :=
  let b := ofpbuf_prealloc_tailroom b size in
  (Ofpbuf (ob_mem b) (ob_data b) (ob_size b + size), ofpbuf_tail b).

Definition ofpbuf_put (b : ofpbuf) (p : list Z) : option ofpbuf :=
  let '(b, dst) := ofpbuf_put_uninit b (length p) in
  mem ← mwrite (ob_mem b) dst p; Some (set_mem b mem).

Definition ofpbuf_put_zeros (b : ofpbuf) (size : nat) : option ofpbuf :=
  let '(b, dst) := ofpbuf_put_uninit b size in
  mem ← mwrite (ob_mem b) dst (replicate size 0); Some (set_mem b mem).

Definition ofpbuf_reserve (b : ofpbuf) (size : nat) : option ofpbuf :=
  if (ob_size b =? 0)%nat then
    let b := ofpbuf_prealloc_tailroom b size in
    Some (Ofpbuf (ob_mem b) (ob_data b + size) (ob_size b))
  else None.

Definition ofpbuf_push_uninit (b : ofpbuf) (size : nat) : option ofpbuf :=
  b ← ofpbuf_prealloc_headroom b size;
  Some (Ofpbuf (ob_mem b) (ob_data b - size) (ob_size b + size)).

Definition ofpbuf_push (b : ofpbuf) (p : list Z) : option ofpbuf :=
  b ← ofpbuf_push_uninit b (length p);
  mem ← mwrite (ob_mem b) (ob_data b) p; Some (set_mem b mem).

Definition ofpbuf_push_zeros (b : ofpbuf) (size : nat) : option ofpbuf :=
  b ← ofpbuf_push_uninit b size;
  mem ← mwrite (ob_mem b) (ob_data b) (replicate size 0); Some (set_mem b mem).

(** NULL, or a pointer. *)
Definition ofpbuf_at (b : ofpbuf) (offset size : nat) : option nat :=
  if (offset + size <=? ob_size b)%nat then Some (ob_data b + offset)%nat else None.

(** [None]: the assertion fails. *)
Definition ofpbuf_at_assert (b : ofpbuf) (offset size : nat) : option nat :=
  if (offset + size <=? ob_size b)%nat then Some (ob_data b + offset)%nat else None.

Definition ofpbuf_clear (b : ofpbuf) : ofpbuf := Ofpbuf (ob_mem b) 0 0.

Definition ofpbuf_pull (b : ofpbuf) (size : nat) : option (ofpbuf * nat) :=
  if (size <=? ob_size b)%nat
  then Some (Ofpbuf (ob_mem b) (ob_data b + size) (ob_size b - size), ob_data b) else None.

Definition ofpbuf_try_pull (b : ofpbuf) (size : nat) : option (ofpbuf * option nat) :=
  if (size <=? ob_size b)%nat then '(b, p) ← ofpbuf_pull b size; Some (b, Some p) else Some (b, None).

Definition ofpbuf_new_with_headroom (size headroom : nat) : option ofpbuf :=
  ofpbuf_reserve (ofpbuf_new (size + headroom)) headroom.

Definition ofpbuf_clone_data (data : list Z) : option ofpbuf := ofpbuf_put (ofpbuf_new (length data)) data.

(** The [size] bytes at [data]. *)
Definition contents (b : ofpbuf) : list Z := take (ob_size b) (drop (ob_data b) (ob_mem b)).

Definition ofpbuf_clone (b : ofpbuf) : option ofpbuf := ofpbuf_clone_data (contents b).

Definition ofpbuf_clone_with_headroom (b : ofpbuf) (headroom : nat) : option ofpbuf :=
  b' ← ofpbuf_new_with_headroom (ob_size b) headroom; ofpbuf_put b' (contents b).
End ofpbuf.

(** * Specification *)

(** The window lies in the block. *)
Definition ofpbuf_wf (b : ofpbuf) : Prop := (ob_data b + ob_size b <= length (ob_mem b))%nat.

#[global] Instance ofpbuf_wf_dec b : Decision (ofpbuf_wf b).
Proof. unfold ofpbuf_wf. apply _. Defined.

Inductive ofpbuf_op :=
  | BufPut (p : list Z) | BufPutZeros (size : nat) | BufPush (p : list Z) | BufPushZeros (size : nat)
  | BufPull (size : nat) | BufTryPull (size : nat) | BufPrealloc (size : nat) | BufTrim | BufClear
  | BufReserve (size : nat) | BufClone | BufCloneHeadroom (headroom : nat).

Definition ofpbuf_step `{Malloc} (b : ofpbuf) (op : ofpbuf_op) : option ofpbuf :=
  match op with
  | BufPut p => ofpbuf_put b p
  | BufPutZeros n => ofpbuf_put_zeros b n
  | BufPush p => ofpbuf_push b p
  | BufPushZeros n => ofpbuf_push_zeros b n
  | BufPull n => fst <$> ofpbuf_pull b n
  | BufTryPull n => fst <$> ofpbuf_try_pull b n
  | BufPrealloc n => Some (ofpbuf_prealloc_tailroom b n)
  | BufTrim => Some (ofpbuf_trim b)
  | BufClear => Some (ofpbuf_clear b)
  | BufReserve n => ofpbuf_reserve b n
  | BufClone => ofpbuf_clone b
  | BufCloneHeadroom n => ofpbuf_clone_with_headroom b n
  end.

(** A byte sequence with room for [h] more bytes in front. *)
Definition seq_step (s : nat * list Z) (op : ofpbuf_op) : option (nat * list Z) :=
  let '(h, c) := s in
  let push p := if (length p <=? h)%nat then Some ((h - length p)%nat, p ++ c) else None in
  match op with
  | BufPut p => Some (h, c ++ p)
  | BufPutZeros n => Some (h, c ++ replicate n 0)
  | BufPush p => push p
  | BufPushZeros n => push (replicate n 0)
  | BufPull n => if (n <=? length c)%nat then Some ((h + n)%nat, drop n c) else None
  | BufTryPull n => if (n <=? length c)%nat then Some ((h + n)%nat, drop n c) else Some (h, c)
  | BufPrealloc _ | BufTrim => Some (h, c)
  | BufClear => Some (0%nat, [])
  | BufReserve n => match c with [] => Some ((h + n)%nat, []) | _ => None end
  | BufClone => Some (0%nat, c)
  | BufCloneHeadroom n => Some (n, c)
  end.

Definition abs (b : ofpbuf) : nat * list Z := (ofpbuf_headroom b, contents b).

Fixpoint steps {A B : Type} (step : A → B → option A) (s : A) (ops : list B) : option A :=
  match ops with
  | [] => Some s
  | op :: ops => s ← step s op; steps step s ops
  end.

(** * Lemmas *)

(** A buffer given by its three parts. *)
Definition parts (head c tail : list Z) : ofpbuf := Ofpbuf (head ++ c ++ tail) (length head) (length c).

Lemma wf_parts b : ofpbuf_wf b → ∃ head tail, b = parts head (contents b) tail ∧ length head = ob_data b.
Proof.
  unfold ofpbuf_wf. destruct b as [mem d n]. cbn. intros Hw.
  exists (take d mem), (drop (d + n) mem). split; [|by rewrite length_take; lia].
  unfold parts, contents. cbn [ob_data ob_size ob_mem]. f_equal.
  - by rewrite <- drop_drop, !take_drop.
  - rewrite length_take. lia.
  - rewrite length_take, length_drop. lia.
Qed.

Lemma contents_length b : ofpbuf_wf b → length (contents b) = ob_size b.
Proof. unfold ofpbuf_wf, contents. intros. rewrite length_take, length_drop. lia. Qed.

Section lemmas.
  Context `{Malloc}.
  Implicit Types head c tail p : list Z.

Lemma parts_wf head c tail : ofpbuf_wf (parts head c tail).
Proof. unfold ofpbuf_wf, parts. cbn. rewrite !length_app. lia. Qed.

Lemma parts_contents head c tail : contents (parts head c tail) = c.
Proof. unfold contents, parts. cbn. by rewrite drop_app_length, take_app_length. Qed.

Lemma parts_tailroom head c tail : ofpbuf_tailroom (parts head c tail) = length tail.
Proof. unfold ofpbuf_tailroom, ofpbuf_end, ofpbuf_tail, parts. cbn. rewrite !length_app. lia. Qed.

Lemma xmalloc_length n : length (xmalloc n) = n.
Proof. unfold xmalloc. by rewrite length_fmap, length_seq. Qed.

(** Reallocation keeps the headroom and the data. *)
Lemma resize_parts head c tail n :
  ofpbuf_resize_tailroom__ (parts head c tail) n = parts head c (take n tail ++ xmalloc (n - length tail)).
Proof.
  unfold ofpbuf_resize_tailroom__, set_mem, parts, xrealloc, ofpbuf_headroom. cbn. f_equal.
  rewrite (app_assoc head c tail), <- length_app, take_app_add, <- !app_assoc.
  unfold xmalloc. do 5 f_equal. rewrite !length_app. lia.
Qed.

Lemma prealloc_parts head c tail n :
  ∃ tail', ofpbuf_prealloc_tailroom (parts head c tail) n = parts head c tail' ∧ (n <= length tail')%nat ∧
    tail' = if moved (parts head c tail) n then take (Nat.max n 64) tail ++ xmalloc (Nat.max n 64 - length tail) else tail.
Proof.
  unfold ofpbuf_prealloc_tailroom, moved. rewrite parts_tailroom.
  destruct (Nat.ltb_spec (length tail) n) as [Hn|Hn]; [|by exists tail].
  rewrite resize_parts. eexists. split; [done|]. split; [|done].
  rewrite length_app, length_take, xmalloc_length. lia.
Qed.

(** Appending [n] bytes: they are the first bytes of the tailroom. *)
Lemma put_uninit_parts head c tail n :
  ∃ p tail', ofpbuf_put_uninit (parts head c tail) n = (parts head (c ++ p) tail', (length head + length c)%nat) ∧
    length p = n.
Proof.
  unfold ofpbuf_put_uninit. destruct (prealloc_parts head c tail n) as (t & -> & Hl & _).
  exists (take n t), (drop n t). split; [|rewrite length_take; lia].
  unfold parts, ofpbuf_tail. cbn. f_equal. f_equal.
  - by rewrite <- !app_assoc, take_drop.
  - rewrite length_app, length_take. lia.
Qed.

Lemma put_parts head c tail p :
  ∃ tail', ofpbuf_put (parts head c tail) p = Some (parts head (c ++ p) tail').
Proof.
  unfold ofpbuf_put. destruct (put_uninit_parts head c tail (length p)) as (q & t & -> & Hq). exists t.
  unfold parts, set_mem. cbn. rewrite <- app_assoc, app_assoc, <- length_app, mwrite_mid by done.
  cbn. rewrite <- !app_assoc, !length_app, Hq. done.
Qed.

Lemma push_parts head q c tail p :
  length q = length p → ofpbuf_push (parts (head ++ q) c tail) p = Some (parts head (p ++ c) tail).
Proof.
  intros Hq. unfold ofpbuf_push, ofpbuf_push_uninit, ofpbuf_prealloc_headroom, ofpbuf_headroom, parts. cbn.
  rewrite length_app, Hq, (proj2 (Nat.leb_le _ _)) by lia. cbn.
  replace (length head + length p - length p)%nat with (length head) by lia.
  rewrite <- (app_assoc head), mwrite_mid by done. unfold set_mem. cbn. rewrite <- !app_assoc, !length_app.
  do 2 f_equal. lia.
Qed.

Lemma new_parts n : ofpbuf_new n = parts [] [] (xmalloc n).
Proof. unfold ofpbuf_new, ofpbuf_init, ofpbuf_use, parts. by destruct n. Qed.

Lemma reserve_parts head tail n :
  ∃ head' tail', ofpbuf_reserve (parts head [] tail) n = Some (parts (head ++ head') [] tail') ∧ length head' = n.
Proof.
  unfold ofpbuf_reserve. cbn. destruct (prealloc_parts head [] tail n) as (t & -> & Hl & _).
  exists (take n t), (drop n t). unfold parts. cbn. rewrite <- app_assoc, take_drop, length_app, length_take.
  split; [|lia]. repeat f_equal. lia.
Qed.

Lemma clone_parts c : ∃ tail, ofpbuf_clone_data c = Some (parts [] c tail).
Proof. unfold ofpbuf_clone_data. rewrite new_parts. apply put_parts. Qed.

Lemma put_zeros_put b n : ofpbuf_put_zeros b n = ofpbuf_put b (replicate n 0).
Proof. unfold ofpbuf_put_zeros, ofpbuf_put. by rewrite length_replicate. Qed.

Lemma push_zeros_push b n : ofpbuf_push_zeros b n = ofpbuf_push b (replicate n 0).
Proof. unfold ofpbuf_push_zeros, ofpbuf_push. by rewrite length_replicate. Qed.

Definition refines (b : option ofpbuf) (s : option (nat * list Z)) : Prop :=
  match b, s with
  | Some b, Some s => ofpbuf_wf b ∧ abs b = s
  | None, None => True
  | _, _ => False
  end.

Lemma parts_refines head c tail h : length head = h → refines (Some (parts head c tail)) (Some (h, c)).
Proof. intros <-. split; [apply parts_wf|]. unfold abs. by rewrite parts_contents. Qed.

Lemma push_refines head c tail p :
  refines (ofpbuf_push (parts head c tail) p)
    (if (length p <=? length head)%nat then Some ((length head - length p)%nat, p ++ c) else None).
Proof.
  destruct (Nat.leb_spec (length p) (length head)) as [Hl|Hl].
  - rewrite <- (take_drop (length head - length p) head) at 1. rewrite push_parts by (rewrite length_drop; lia).
    apply parts_refines. rewrite length_take. lia.
  - unfold ofpbuf_push, ofpbuf_push_uninit, ofpbuf_prealloc_headroom, ofpbuf_headroom, parts. cbn.
    by rewrite (proj2 (Nat.leb_gt _ _)) by lia.
Qed.

Lemma pull_parts head c tail n :
  (n <= length c)%nat →
  ofpbuf_pull (parts head c tail) n = Some (parts (head ++ take n c) (drop n c) tail, length head).
Proof.
  intros Hn. unfold ofpbuf_pull, parts. cbn. rewrite (proj2 (Nat.leb_le _ _)) by done.
  rewrite length_app, length_take, length_drop, Nat.min_l by done.
  by rewrite <- (app_assoc head), (app_assoc (take n c)), take_drop.
Qed.

Lemma step_refines b op : ofpbuf_wf b → refines (ofpbuf_step b op) (seq_step (abs b) op).
Proof.
  intros (head & tail & Hb & _)%wf_parts. set (c := contents b) in *. clearbody c. subst b.
  unfold abs, ofpbuf_headroom. rewrite parts_contents. cbn [ob_data parts].
  destruct op as [p|n|p|n|n|n|n| | |n| |n]; cbn [ofpbuf_step seq_step].
  - destruct (put_parts head c tail p) as [t ->]. by apply parts_refines.
  - rewrite put_zeros_put. destruct (put_parts head c tail (replicate n 0)) as [t ->]. by apply parts_refines.
  - apply push_refines.
  - rewrite push_zeros_push. apply push_refines.
  - destruct (Nat.leb_spec n (length c)) as [Hn|Hn].
    + rewrite pull_parts by done. apply parts_refines. rewrite length_app, length_take. lia.
    + unfold ofpbuf_pull, parts. cbn. by rewrite (proj2 (Nat.leb_gt _ _)) by done.
  - unfold ofpbuf_try_pull. cbn [ob_size parts]. fold (parts head c tail). destruct (Nat.leb_spec n (length c)) as [Hn|Hn].
    + rewrite pull_parts by done. apply parts_refines. rewrite length_app, length_take. lia.
    + by apply parts_refines.
  - destruct (prealloc_parts head c tail n) as (t & -> & _). by apply parts_refines.
  - unfold ofpbuf_trim. destruct (0 <? _)%nat; [rewrite resize_parts|]; by apply parts_refines.
  - unfold ofpbuf_clear, parts. cbn. split; [unfold ofpbuf_wf; cbn; lia|done].
  - destruct c as [|x c].
    + destruct (reserve_parts head tail n) as (h' & t' & -> & Hl). apply parts_refines. rewrite length_app. lia.
    + done.
  - unfold ofpbuf_clone. rewrite parts_contents. destruct (clone_parts c) as [t ->]. by apply parts_refines.
  - unfold ofpbuf_clone_with_headroom, ofpbuf_new_with_headroom. rewrite new_parts, parts_contents.
    destruct (reserve_parts [] (xmalloc (length c + n)) n) as (h' & t' & Hr & Hl). cbn [ob_size parts]. rewrite Hr. cbn [mbind option_bind].
    destruct (put_parts ([] ++ h') [] t' c) as [t ->]. by apply parts_refines.
Qed.
End lemmas.

(** A packet buffer is a byte sequence with some headroom.  Any sequence of
    [ofpbuf] operations started on a well-formed buffer does to its contents and
    headroom what the operations on sequences do, whatever fresh memory holds;
    the window stays in the block; and the operations stop in a failed assertion
    exactly when the sequence has not that many bytes to pull, no headroom for a
    push, or data in the way of a reservation. *)
Theorem ofpbuf_refines `{Malloc} (b : ofpbuf) (ops : list ofpbuf_op) :
  ofpbuf_wf b → refines (steps ofpbuf_step b ops) (steps seq_step (abs b) ops).
Proof.
  revert b. induction ops as [|op ops IH]; intros b Hw; [done|]. cbn [steps].
  pose proof (step_refines b op Hw) as Hs. destruct (ofpbuf_step b op) as [b'|], (seq_step (abs b) op) as [s|]; cbn; try done.
  destruct Hs as [Hw' <-]. by apply IH.
Qed.

Lemma ofpbuf_refines_witness :
  ∃ b, steps (@ofpbuf_step (λ _, 0xAA)) (@ofpbuf_new (λ _, 0xAA) 4)
         [BufReserve 3; BufPut [1; 2; 3]; BufPush [9]; BufPull 2; BufTrim] = Some b ∧ abs b = (4%nat, [2; 3]).
Proof.
  pose proof (@ofpbuf_refines (λ _, 0xAA) (@ofpbuf_new (λ _, 0xAA) 4)
    [BufReserve 3; BufPut [1; 2; 3]; BufPush [9]; BufPull 2; BufTrim] ltac:(by_eval)) as Hr.
  destruct (steps ofpbuf_step _ _) as [b|]; [|destruct Hr]. exists b. split; [reflexivity|]. apply Hr.
Defined.
