(* ===== verification/Csum.v ===== *)
(** Internet checksums: lib/csum.c.

    [csum_add16], [csum_add32], [csum_continue], [csum_finish] and [csum]
    compute a checksum from data; [recalc_csum16] .. [recalc_csum128] update
    one incrementally when a header field changes, which is what the set-field
    and TTL actions of udatapath/dp_actions.c do.  Data is a list of bytes;
    [uint16_t] reads of it are little-endian, as on the x86 hosts the switch is
    built for (the theorems do not depend on the order).

    A checksum is right when the 16-bit words it covers, itself included, add
    up to a multiple of 65535 ([csum_valid]): that is what a receiver checks. *)

From S2P Require Import Prelude.

Module Csum.

Definition csum_add16 (partial new : Z) : Z := u32 (partial + new).

Definition csum_add32 (partial new : Z) : Z :=
  u32 (partial + Z.shiftr new 16 + Z.land new 0xffff).

Fixpoint csum_continue (partial : Z) (data : list Z) : Z :=
  match data with
  | b0 :: b1 :: rest => csum_continue (csum_add16 partial (b0 + Z.shiftl b1 8)) rest
  | [b] => u32 (partial + b)
  | [] => partial
  end.

Definition csum_finish (partial : Z) : Z :=
  u16 (Z.lnot (u32 (Z.land partial 0xffff + Z.shiftr partial 16))).

Definition csum (data : list Z) : Z := csum_finish (csum_continue 0 data).

Definition recalc_csum16 (old_csum old_u16 new_u16 : Z) : Z :=
  let hc_complement := u16 (Z.lnot old_csum) in
  let m_complement := u16 (Z.lnot old_u16) in
  let m_prime := new_u16 in
  let sum := u32 (hc_complement + m_complement + m_prime) in
  let hc_prime_complement := u16 (sum + Z.shiftr sum 16) in
  u16 (Z.lnot hc_prime_complement).

Definition recalc_csum32 (old_csum old_u32 new_u32 : Z) : Z :=
  recalc_csum16 (recalc_csum16 old_csum (u16 old_u32) (u16 new_u32))
                (u16 (Z.shiftr old_u32 16)) (u16 (Z.shiftr new_u32 16)).

Definition recalc_csum64 (old_csum old_u64 new_u64 : Z) : Z :=
  recalc_csum32 (recalc_csum32 old_csum (u32 old_u64) (u32 new_u64))
                (u32 (Z.shiftr old_u64 32)) (u32 (Z.shiftr new_u64 32)).

Definition recalc_csum128 (old_csum : Z) (old_u128 new_u128 : list Z) : Z :=
  let old_right := le_read (take 8 (drop 8 old_u128)) in
  let new_right := le_read (take 8 (drop 8 new_u128)) in
  let old_left := le_read (take 8 old_u128) in
  let new_left := le_read (take 8 new_u128) in
  recalc_csum64 (recalc_csum64 old_csum old_right new_right) old_left new_left.

(** ** Specification *)

(** The checksum [c] is valid for a packet whose other 16-bit words add up to
    [total]: the ones'-complement sum of everything is zero. *)
Definition csum_valid (total c : Z) : Prop := (total + c) mod 65535 = 0.

(** The 16-bit words a checksum over [data] covers. *)
Fixpoint words (data : list Z) : list Z :=
  match data with
  | b0 :: b1 :: rest => (b0 + Z.shiftl b1 8) :: words rest
  | [b] => [b]
  | [] => []
  end.

(** The two halves of a 32-bit field. *)
Definition lo16 (x : Z) : Z := u16 x.
Definition hi16 (x : Z) : Z := u16 (Z.shiftr x 16).

(** ** Lemmas *)

Lemma unot16 x : fits 16 x → u16 (Z.lnot x) = 65535 - x.
Proof. intros Hx. pose proof (unot_eq 16 x ltac:(lia) Hx). unfold unot in *. unfold u16. lia. Qed.

Lemma u16_lnot s : u16 (Z.lnot s) = 65535 - s mod 65536.
Proof.
  unfold u16, wrap. change (2 ^ 16) with 65536.
  replace (Z.lnot s) with (-1 - s) by (pose proof (Z.add_lnot_diag s); lia).
  Z.div_mod_to_equations. lia.
Qed.

Lemma finish_eq partial :
  fits 32 partial →
  csum_finish partial = 65535 - (partial mod 65536 + partial / 65536) mod 65536.
Proof.
  intros Hp. unfold csum_finish. rewrite u16_lnot.
  change 0xffff with (2 ^ 16 - 1). rewrite land_ones_wrap by lia.
  rewrite Z.shiftr_div_pow2 by lia. unfold fits in Hp. unfold u32, wrap.
  change (2 ^ 16) with 65536. change (2 ^ 32) with 4294967296 in *.
  rewrite (Z.mod_small _ 4294967296); [done|]. Z.div_mod_to_equations. lia.
Qed.

(** One fold of the carries is the ones'-complement residue exactly when the
    fold itself does not carry. *)
Lemma finish_valid partial :
  fits 32 partial →
  csum_valid partial (csum_finish partial) ↔
  partial mod 65536 + partial / 65536 <= 65535.
Proof.
  intros Hp. rewrite finish_eq by done. unfold csum_valid, fits in *.
  change (2 ^ 32) with 4294967296 in *. Z.div_mod_to_equations. lia.
Qed.

Lemma words_bound data :
  bytes data → Forall (fits 16) (words data).
Proof.
  induction data as [data IH] using (induction_ltof1 _ (@length Z)); unfold ltof in IH.
  destruct data as [|b0 [|b1 rest]]; intros Hb; simpl.
  - constructor.
  - inversion_clear Hb as [|?? H0]. repeat constructor; unfold fits in *; lia.
  - inversion_clear Hb as [|?? H0 Hb']. inversion_clear Hb' as [|?? H1 Hr].
    constructor; [|apply IH; [simpl; lia|done]].
    unfold fits in *. rewrite Z.shiftl_mul_pow2 by lia. lia.
Qed.

Lemma zsum_bound l : Forall (fits 16) l → 0 <= zsum l <= 65535 * Z.of_nat (length l).
Proof.
  induction 1 as [|x l Hx _ IH]; [unfold zsum; simpl; lia|].
  unfold zsum, fits in *. simpl foldr. simpl length. lia.
Qed.

Lemma words_length data : 2 * Z.of_nat (length (words data)) <= Z.of_nat (length data) + 1.
Proof.
  induction data as [data IH] using (induction_ltof1 _ (@length Z)); unfold ltof in IH.
  destruct data as [|b0 [|b1 rest]]; simpl; [lia..|].
  specialize (IH rest ltac:(simpl; lia)). lia.
Qed.

Lemma continue_eq data partial :
  fits 32 partial → bytes data → csum_continue partial data = u32 (partial + zsum (words data)).
Proof.
  revert partial. induction data as [data IH] using (induction_ltof1 _ (@length Z)); unfold ltof in IH.
  intros partial Hp Hb. destruct data as [|b0 [|b1 rest]]; cbn [csum_continue words zsum foldr].
  - unfold zsum. simpl. rewrite Z.add_0_r. unfold u32. by rewrite wrap_small.
  - unfold zsum. simpl. by rewrite Z.add_0_r.
  - inversion_clear Hb as [|?? _ Hb']. inversion_clear Hb' as [|?? _ Hr].
    rewrite IH; [|simpl; lia|unfold csum_add16, u32; apply wrap_fits; lia|done].
    unfold csum_add16, zsum, u32, wrap. simpl foldr.
    rewrite Z.add_mod_idemp_l by lia. f_equal. lia.
Qed.

(** The sum of fewer than 2^17 bytes does not overflow the accumulator. *)
Lemma continue_small data :
  bytes data → Z.of_nat (length data) <= 131072 →
  csum_continue 0 data = zsum (words data) ∧ fits 32 (zsum (words data)).
Proof.
  intros Hb Hl. pose proof (zsum_bound _ (words_bound _ Hb)) as Hs.
  pose proof (words_length data).
  assert (fits 32 (zsum (words data))) as Hf.
  { unfold fits. change (2 ^ 32) with 4294967296. lia. }
  split; [|done]. rewrite continue_eq by (done || (unfold fits; lia)).
  unfold u32. by apply wrap_small.
Qed.

Lemma recalc16_eq c o n :
  fits 16 c → fits 16 o → fits 16 n →
  let sum := (65535 - c) + (65535 - o) + n in
  recalc_csum16 c o n = 65535 - (sum + sum / 65536) mod 65536.
Proof.
  intros Hc Ho Hn sum. unfold recalc_csum16. rewrite !u16_lnot.
  unfold fits in *. change (2 ^ 16) with 65536 in *.
  rewrite (Z.mod_small c), (Z.mod_small o) by lia.
  replace (u32 _) with sum by (symmetry; apply wrap_small; unfold fits; subst sum; lia).
  rewrite Z.shiftr_div_pow2 by lia. unfold u16, wrap. change (2 ^ 16) with 65536.
  by rewrite Z.mod_mod by lia.
Qed.

Lemma recalc16_fits c o n : fits 16 (recalc_csum16 c o n).
Proof. unfold recalc_csum16, u16. apply wrap_fits. lia. Qed.

(** The update adds the difference of the field, unless the folded sum is
    exactly 0x1ffff. *)
Lemma recalc16_residue c o n :
  fits 16 c → fits 16 o → fits 16 n →
  (n + recalc_csum16 c o n) mod 65535 = (o + c) mod 65535 ↔ n ≠ o + c + 1.
Proof.
  intros Hc Ho Hn. rewrite recalc16_eq by done.
  unfold fits in *. change (2 ^ 16) with 65536 in *. cbv zeta.
  set (sum := _ + n) in *.
  assert (sum = 131070 - c - o + n) as Hs by (subst sum; lia). clearbody sum.
  Z.div_mod_to_equations. lia.
Qed.

Lemma residue_valid rest a b : a mod 65535 = b mod 65535 → (rest + a) mod 65535 = (rest + b) mod 65535.
Proof. intros H. rewrite (Z.add_mod rest a), (Z.add_mod rest b), H; lia. Qed.

Lemma recalc16_valid rest c o n :
  fits 16 c → fits 16 o → fits 16 n → n ≠ o + c + 1 →
  csum_valid (rest + o) c → csum_valid (rest + n) (recalc_csum16 c o n).
Proof.
  intros Hc Ho Hn Hne Hv. unfold csum_valid in *.
  rewrite <- Z.add_assoc. rewrite <- Hv, <- Z.add_assoc. apply residue_valid.
  by apply recalc16_residue.
Qed.

(** ** Properties *)

(** The incremental checksum update of an IP, TCP or UDP header
    ([recalc_csum16], RFC 1624).  For a packet whose checksum [c] was valid when
    the field held [o], the checksum returned for the new field value [n] is
    valid again, for every value of the three 16-bit words but one: the update
    is wrong exactly when [n = o + c + 1], where the folded sum is 0x1ffff and
    its own carry is lost. *)
Theorem recalc_csum16_correct (rest c o n : Z)
    (Hc : fits 16 c) (Ho : fits 16 o) (Hn : fits 16 n) (Hv : csum_valid (rest + o) c) :
  fits 16 (recalc_csum16 c o n) ∧
  (csum_valid (rest + n) (recalc_csum16 c o n) ↔ n ≠ o + c + 1).
Proof.
  split; [apply recalc16_fits|]. split; [|intros; by apply recalc16_valid].
  intros Hv'. apply recalc16_residue; [done..|]. unfold csum_valid in *.
  Z.div_mod_to_equations. lia.
Qed.

Lemma recalc_csum16_witness :
  csum_valid (0xfe00 + 0x0040) (recalc_csum16 0x01ff 0x0000 0x0040) ∧
  ¬ csum_valid (65535 + 1) (recalc_csum16 0 0 1).
Proof.
  split.
  - apply (recalc_csum16_correct 0xfe00 0x01ff 0x0000 0x0040); vm_compute; intuition congruence.
  - intros H. eapply (recalc_csum16_correct 65535 0 0 1); [vm_compute; intuition congruence..|exact H|done].
Defined.

(** Updating a 32-bit field (an IPv4 address) keeps a valid checksum valid,
    its two 16-bit halves counted as the checksum counts them, when neither
    half-update is the exceptional 16-bit one. *)
Theorem recalc_csum32_correct (rest c o n : Z)
    (Hc : fits 16 c) (Ho : fits 32 o) (Hn : fits 32 n)
    (Hv : csum_valid (rest + (lo16 o + hi16 o)) c)
    (Hlo : lo16 n ≠ lo16 o + c + 1)
    (Hhi : hi16 n ≠ hi16 o + recalc_csum16 c (lo16 o) (lo16 n) + 1) :
  csum_valid (rest + (lo16 n + hi16 n)) (recalc_csum32 c o n).
Proof.
  unfold recalc_csum32. fold (lo16 o) (lo16 n) (hi16 o) (hi16 n).
  assert (∀ x, fits 16 (u16 x)) as Hu by (intros; apply wrap_fits; lia).
  rewrite Z.add_assoc. apply recalc16_valid; [apply recalc16_fits|apply Hu|apply Hu|done|].
  replace (rest + lo16 n + hi16 o) with (rest + hi16 o + lo16 n) by lia.
  apply recalc16_valid; [done|apply Hu|apply Hu|done|].
  by replace (rest + hi16 o + lo16 o) with (rest + (lo16 o + hi16 o)) by lia.
Qed.

Lemma recalc_csum32_witness :
  csum_valid (0xffff - 0xc0a8 - 1 + (lo16 0x0a000001 + hi16 0x0a000001))
             (recalc_csum32 0 0xc0a80001 0x0a000001).
Proof.
  apply (recalc_csum32_correct (0xffff - 0xc0a8 - 1) 0 0xc0a80001 0x0a000001);
    vm_compute; intuition congruence.
Defined.

(** A checksum computed from scratch ([csum], over at most 128 KiB) is
    valid for the data it covers if and only if adding the carries back into
    the low half once is enough; [csum_finish] does not fold a second time. *)
Theorem csum_correct (data : list Z)
    (Hb : bytes data) (Hl : Z.of_nat (length data) <= 131072) :
  csum_valid (zsum (words data)) (csum data) ↔
  zsum (words data) mod 65536 + zsum (words data) / 65536 <= 65535.
Proof.
  destruct (continue_small data Hb Hl) as [Heq Hf].
  unfold csum. rewrite Heq. by apply finish_valid.
Qed.

Lemma csum_witness :
  csum_valid (zsum (words [0x45; 0; 0; 0x54; 0x40; 0x11])) (csum [0x45; 0; 0; 0x54; 0x40; 0x11]) ∧
  ¬ csum_valid (zsum (words [0xff; 0xff; 0xff; 0xff; 0x01; 0x00])) (csum [0xff; 0xff; 0xff; 0xff; 0x01; 0x00]).
Proof.
  split.
  - apply csum_correct; [repeat constructor; vm_compute; intuition congruence|vm_compute; congruence|].
    vm_compute. congruence.
  - intros H. apply csum_correct in H;
      [|repeat constructor; vm_compute; intuition congruence|vm_compute; congruence].
    vm_compute in H. by apply H.
Defined.

End Csum.
