(* ===== verification/Crc32.v ===== *)
(** CRC-32C, the checksum of SCTP: udatapath/crc32.c and crc32.h.

    The code works a byte at a time with a table of 256 entries ([crc_update]); the
    reference is the shift register that works a bit at a time with the reflected
    Castagnoli polynomial ([crc_bitwise]). *)

From S2P Require Import Prelude.

Definition crc_table : list Z := [
  0x00000000; 0xf26b8303; 0xe13b70f7; 0x1350f3f4; 0xc79a971f; 0x35f1141c; 0x26a1e7e8; 0xd4ca64eb;
  0x8ad958cf; 0x78b2dbcc; 0x6be22838; 0x9989ab3b; 0x4d43cfd0; 0xbf284cd3; 0xac78bf27; 0x5e133c24;
  0x105ec76f; 0xe235446c; 0xf165b798; 0x030e349b; 0xd7c45070; 0x25afd373; 0x36ff2087; 0xc494a384;
  0x9a879fa0; 0x68ec1ca3; 0x7bbcef57; 0x89d76c54; 0x5d1d08bf; 0xaf768bbc; 0xbc267848; 0x4e4dfb4b;
  0x20bd8ede; 0xd2d60ddd; 0xc186fe29; 0x33ed7d2a; 0xe72719c1; 0x154c9ac2; 0x061c6936; 0xf477ea35;
  0xaa64d611; 0x580f5512; 0x4b5fa6e6; 0xb93425e5; 0x6dfe410e; 0x9f95c20d; 0x8cc531f9; 0x7eaeb2fa;
  0x30e349b1; 0xc288cab2; 0xd1d83946; 0x23b3ba45; 0xf779deae; 0x05125dad; 0x1642ae59; 0xe4292d5a;
  0xba3a117e; 0x4851927d; 0x5b016189; 0xa96ae28a; 0x7da08661; 0x8fcb0562; 0x9c9bf696; 0x6ef07595;
  0x417b1dbc; 0xb3109ebf; 0xa0406d4b; 0x522bee48; 0x86e18aa3; 0x748a09a0; 0x67dafa54; 0x95b17957;
  0xcba24573; 0x39c9c670; 0x2a993584; 0xd8f2b687; 0x0c38d26c; 0xfe53516f; 0xed03a29b; 0x1f682198;
  0x5125dad3; 0xa34e59d0; 0xb01eaa24; 0x42752927; 0x96bf4dcc; 0x64d4cecf; 0x77843d3b; 0x85efbe38;
  0xdbfc821c; 0x2997011f; 0x3ac7f2eb; 0xc8ac71e8; 0x1c661503; 0xee0d9600; 0xfd5d65f4; 0x0f36e6f7;
  0x61c69362; 0x93ad1061; 0x80fde395; 0x72966096; 0xa65c047d; 0x5437877e; 0x4767748a; 0xb50cf789;
  0xeb1fcbad; 0x197448ae; 0x0a24bb5a; 0xf84f3859; 0x2c855cb2; 0xdeeedfb1; 0xcdbe2c45; 0x3fd5af46;
  0x7198540d; 0x83f3d70e; 0x90a324fa; 0x62c8a7f9; 0xb602c312; 0x44694011; 0x5739b3e5; 0xa55230e6;
  0xfb410cc2; 0x092a8fc1; 0x1a7a7c35; 0xe811ff36; 0x3cdb9bdd; 0xceb018de; 0xdde0eb2a; 0x2f8b6829;
  0x82f63b78; 0x709db87b; 0x63cd4b8f; 0x91a6c88c; 0x456cac67; 0xb7072f64; 0xa457dc90; 0x563c5f93;
  0x082f63b7; 0xfa44e0b4; 0xe9141340; 0x1b7f9043; 0xcfb5f4a8; 0x3dde77ab; 0x2e8e845f; 0xdce5075c;
  0x92a8fc17; 0x60c37f14; 0x73938ce0; 0x81f80fe3; 0x55326b08; 0xa759e80b; 0xb4091bff; 0x466298fc;
  0x1871a4d8; 0xea1a27db; 0xf94ad42f; 0x0b21572c; 0xdfeb33c7; 0x2d80b0c4; 0x3ed04330; 0xccbbc033;
  0xa24bb5a6; 0x502036a5; 0x4370c551; 0xb11b4652; 0x65d122b9; 0x97baa1ba; 0x84ea524e; 0x7681d14d;
  0x2892ed69; 0xdaf96e6a; 0xc9a99d9e; 0x3bc21e9d; 0xef087a76; 0x1d63f975; 0x0e330a81; 0xfc588982;
  0xb21572c9; 0x407ef1ca; 0x532e023e; 0xa145813d; 0x758fe5d6; 0x87e466d5; 0x94b49521; 0x66df1622;
  0x38cc2a06; 0xcaa7a905; 0xd9f75af1; 0x2b9cd9f2; 0xff56bd19; 0x0d3d3e1a; 0x1e6dcdee; 0xec064eed;
  0xc38d26c4; 0x31e6a5c7; 0x22b65633; 0xd0ddd530; 0x0417b1db; 0xf67c32d8; 0xe52cc12c; 0x1747422f;
  0x49547e0b; 0xbb3ffd08; 0xa86f0efc; 0x5a048dff; 0x8ecee914; 0x7ca56a17; 0x6ff599e3; 0x9d9e1ae0;
  0xd3d3e1ab; 0x21b862a8; 0x32e8915c; 0xc083125f; 0x144976b4; 0xe622f5b7; 0xf5720643; 0x07198540;
  0x590ab964; 0xab613a67; 0xb831c993; 0x4a5a4a90; 0x9e902e7b; 0x6cfbad78; 0x7fab5e8c; 0x8dc0dd8f;
  0xe330a81a; 0x115b2b19; 0x020bd8ed; 0xf0605bee; 0x24aa3f05; 0xd6c1bc06; 0xc5914ff2; 0x37faccf1;
  0x69e9f0d5; 0x9b8273d6; 0x88d28022; 0x7ab90321; 0xae7367ca; 0x5c18e4c9; 0x4f48173d; 0xbd23943e;
  0xf36e6f75; 0x0105ec76; 0x12551f82; 0xe03e9c81; 0x34f4f86a; 0xc69f7b69; 0xd5cf889d; 0x27a40b9e;
  0x79b737ba; 0x8bdcb4b9; 0x988c474d; 0x6ae7c44e; 0xbe2da0a5; 0x4c4623a6; 0x5f16d052; 0xad7d5351
].

Definition crc_init : Z := 0xffffffff.
Definition crc_finalize (crc : Z) : Z := Z.lxor crc 0xffffffff.

(** [crc_t] is 64 bits wide on the hosts of the switch; the masks keep 32 bits. *)
Definition crc_update_byte (crc byte : Z) : option Z :=
  let tbl_idx := Z.land (Z.lxor crc byte) 0xff in
  t ← crc_table !! Z.to_nat tbl_idx;
  Some (Z.land (Z.lxor t (Z.shiftr crc 8)) 0xffffffff).

Fixpoint crc_update_loop (crc : Z) (data : list Z) : option Z :=
  match data with
  | [] => Some crc
  | byte :: data => crc ← crc_update_byte crc byte; crc_update_loop crc data
  end.

Definition crc_update (crc : Z) (data : list Z) : option Z :=
  crc ← crc_update_loop crc data; Some (Z.land crc 0xffffffff).

(** The loop of [crc_reflect]: [n] more bits. *)
Fixpoint crc_reflect_loop (n : nat) (data ret : Z) : Z :=
  match n with
  | O => ret
  | S n => let data := Z.shiftr data 1 in
           crc_reflect_loop n data (Z.lor (Z.shiftl ret 1) (Z.land data 1))
  end.

Definition crc_reflect (data : Z) (data_len : nat) : Z := crc_reflect_loop (data_len - 1) data (Z.land data 1).

(** * Reference *)

Definition POLY := 0x82f63b78.

Definition crc_step (c : Z) : Z :=
  Z.lxor (Z.shiftr c 1) (if Z.testbit c 0 then POLY else 0).

Definition crc_bitwise (crc : Z) (data : list Z) : Z :=
  foldl (λ c b, Nat.iter 8 crc_step (Z.lxor c b)) crc data.

(** ** Lemmas *)

Lemma crc_step_lxor x y : crc_step (Z.lxor x y) = Z.lxor (crc_step x) (crc_step y).
Proof.
  unfold crc_step. rewrite Z.shiftr_lxor, Z.lxor_spec. apply Z.bits_inj'. intros n _. rewrite !Z.lxor_spec.
  destruct (Z.testbit x 0), (Z.testbit y 0); cbn [xorb]; rewrite ?Z.bits_0;
    destruct (Z.testbit (Z.shiftr x 1) n), (Z.testbit (Z.shiftr y 1) n), (Z.testbit POLY n); done.
Qed.

Lemma iter_lxor n x y :
  Nat.iter n crc_step (Z.lxor x y) = Z.lxor (Nat.iter n crc_step x) (Nat.iter n crc_step y).
Proof. induction n as [|n IH]; [done|]. by rewrite !Nat.iter_succ, IH, crc_step_lxor. Qed.

(** Eight steps of a value with a zero low byte only shift it. *)
Lemma iter_shiftl n y : Nat.iter n crc_step (Z.shiftl y (Z.of_nat n)) = y.
Proof.
  revert y. induction n as [|n IH]; intros y; [apply Z.shiftl_0_r|]. rewrite Nat.iter_succ_r.
  rewrite <- (IH y) at 2. f_equal. unfold crc_step.
  rewrite Z.shiftl_spec_low, Z.lxor_0_r, Z.shiftr_shiftl_l by lia. f_equal. lia.
Qed.

Lemma table_entry i : 0 <= i < 256 → crc_table !! Z.to_nat i = Some (Nat.iter 8 crc_step i).
Proof.
  intros Hi. assert (crc_table = (λ i, Nat.iter 8 crc_step i) <$> seqZ 0 256) as -> by (vm_compute; done).
  rewrite list_lookup_fmap, lookup_seqZ_lt by lia. cbn [fmap option_fmap option_map]. do 2 f_equal. lia.
Qed.

Lemma split_byte x : x = Z.lxor (Z.land x 0xff) (Z.shiftl (Z.shiftr x 8) 8).
Proof.
  apply Z.bits_inj'. intros n Hn. rewrite Z.lxor_spec, Z.land_spec, Z.shiftl_spec by done.
  change 0xff with (Z.ones 8). destruct (Z.lt_ge_cases n 8).
  - rewrite Z.ones_spec_low, (Z.testbit_neg_r _ (n - 8)) by lia. by rewrite andb_true_r, xorb_false_r.
  - rewrite Z.ones_spec_high, Z.shiftr_spec by lia. rewrite andb_false_r, xorb_false_l. f_equal. lia.
Qed.

Lemma iter8_split x :
  Nat.iter 8 crc_step x = Z.lxor (Nat.iter 8 crc_step (Z.land x 0xff)) (Z.shiftr x 8).
Proof. rewrite (split_byte x) at 1. by rewrite iter_lxor, (iter_shiftl 8). Qed.

Lemma crc_step_fits c : fits 32 c → fits 32 (crc_step c).
Proof.
  intros Hc. unfold crc_step. apply fits_lxor; [lia| |].
  - unfold fits in *. rewrite Z.shiftr_div_pow2 by lia. Z.div_mod_to_equations. lia.
  - destruct (Z.testbit c 0); unfold fits, POLY; lia.
Qed.

Lemma iter_fits n c : fits 32 c → fits 32 (Nat.iter n crc_step c).
Proof. intros Hc. induction n as [|n IH]; [done|]. by apply crc_step_fits. Qed.

Lemma shiftr_byte b : fits 8 b → Z.shiftr b 8 = 0.
Proof. unfold fits. intros. rewrite Z.shiftr_div_pow2 by lia. apply Z.div_small. lia. Qed.

Lemma mask32 x : fits 32 x → Z.land x 0xffffffff = x.
Proof. intros. change 0xffffffff with (2 ^ 32 - 1). rewrite land_ones_wrap by lia. by apply wrap_small. Qed.

Lemma update_byte c b :
  fits 32 c → fits 8 b → crc_update_byte c b = Some (Nat.iter 8 crc_step (Z.lxor c b)).
Proof.
  intros Hc Hb. unfold crc_update_byte. rewrite table_entry.
  2:{ change 0xff with (2 ^ 8 - 1). rewrite land_ones_wrap by lia. apply (wrap_fits 8). lia. }
  cbn [mbind option_bind]. rewrite (iter8_split (Z.lxor c b)), Z.shiftr_lxor, (shiftr_byte b) by done.
  rewrite Z.lxor_0_r. f_equal. apply mask32. apply fits_lxor; [lia| |].
  - apply iter_fits. change 0xff with (2 ^ 8 - 1). rewrite land_ones_wrap by lia.
    pose proof (wrap_fits 8 (Z.lxor c b) ltac:(lia)). unfold fits in *. lia.
  - unfold fits in *. rewrite Z.shiftr_div_pow2 by lia. Z.div_mod_to_equations. lia.
Qed.

(** The table-driven CRC is the bit-by-bit CRC-32C.  For any frame and any
    32-bit start value [crc_update] stays inside its table and returns what the
    shift register with the reflected polynomial 0x82f63b78 computes; the result
    has 32 bits. *)
Theorem crc_update_correct (crc : Z) (data : list Z) :
  fits 32 crc → bytes data →
  crc_update crc data = Some (crc_bitwise crc data) ∧ fits 32 (crc_bitwise crc data).
Proof.
  unfold crc_update, crc_bitwise. intros Hc Hb. revert crc Hc. induction Hb as [|b data Hb _ IH]; intros crc Hc.
  - cbn. by rewrite mask32.
  - cbn [crc_update_loop foldl]. rewrite update_byte by done. cbn [mbind option_bind]. apply IH.
    apply iter_fits, fits_lxor; [lia|done|]. unfold fits in *. lia.
Qed.

(** The check value of CRC-32C. *)
Lemma crc_update_witness :
  (crc ← crc_update crc_init [0x31; 0x32; 0x33; 0x34; 0x35; 0x36; 0x37; 0x38; 0x39]; Some (crc_finalize crc))
  = Some 0xe3069283.
Proof.
  destruct (crc_update_correct crc_init [0x31; 0x32; 0x33; 0x34; 0x35; 0x36; 0x37; 0x38; 0x39]) as [-> _];
    [by_eval|unfold bytes; by_eval|]. reflexivity.
Defined.

(** Reflection reverses the low [data_len] bits. *)
Lemma reflect_loop_spec n data ret k :
  0 <= data → 0 <= ret → 0 <= k →
  Z.testbit (crc_reflect_loop n data ret) k =
  if k <? Z.of_nat n then Z.testbit data (Z.of_nat n - k) else Z.testbit ret (k - Z.of_nat n).
Proof.
  revert data ret. induction n as [|n IH]; intros data ret Hd Hr Hk.
  { cbn [crc_reflect_loop]. destruct (Z.ltb_spec k (Z.of_nat 0)); [lia|]. f_equal. lia. }
  cbn [crc_reflect_loop]. rewrite IH; [|by apply Z.shiftr_nonneg|apply Z.lor_nonneg; split; [by apply Z.shiftl_nonneg|by apply Z.land_nonneg; right]|done].
  destruct (Z.ltb_spec k (Z.of_nat n)), (Z.ltb_spec k (Z.of_nat (S n))); try lia.
  - rewrite Z.shiftr_spec by lia. f_equal. lia.
  - replace (k - Z.of_nat n) with 0 by lia. rewrite Z.lor_spec, Z.shiftl_spec_low, Z.land_spec, Z.shiftr_spec by lia.
    cbn [orb]. rewrite andb_true_r. f_equal. lia.
  - rewrite Z.lor_spec, Z.shiftl_spec, Z.land_spec by lia. rewrite (Z.bits_above_log2 1) by (cbn; lia).
    rewrite andb_false_r, orb_false_r. f_equal. lia.
Qed.

Lemma crc_reflect_correct (data : Z) (n : nat) (k : Z) :
  0 <= data → (0 < n)%nat → 0 <= k →
  Z.testbit (crc_reflect data n) k = (k <? Z.of_nat n) && Z.testbit data (Z.of_nat n - 1 - k).
Proof.
  intros Hd Hn Hk. unfold crc_reflect. rewrite reflect_loop_spec by (done || by apply Z.land_nonneg; right).
  destruct (Z.ltb_spec k (Z.of_nat (n - 1))), (Z.ltb_spec k (Z.of_nat n)); try lia; cbn [andb].
  - f_equal. lia.
  - rewrite Z.land_spec. replace (k - Z.of_nat (n - 1)) with 0 by lia.
    rewrite andb_true_r. f_equal. lia.
  - rewrite Z.land_spec, (Z.bits_above_log2 1) by (cbn; lia). apply andb_false_r.
Qed.
