(* ===== verification/PortArray.v ===== *)
(** Sparse arrays of 65536 elements: lib/port-array.c and lib/port-array.h.

    An array is a tree of three levels.  What is empty shares two static blocks, one for the second level and one for the
    third, among all arrays; [port_array_set] copies a shared block before it writes.  Blocks live in a heap, by their
    addresses; [None] is a bad or NULL pointer that is followed, or a block freed twice. *)

From S2P Require Import Prelude.

Definition PORT_ARRAY_L1_SIZE : nat := 32.
Definition PORT_ARRAY_L2_SIZE : nat := 32.
Definition PORT_ARRAY_L3_SIZE : nat := 64.
Definition PORT_ARRAY_SIZE : Z := 65536.

Definition extract_bits (data start count : Z) : nat := Z.to_nat (Z.land (Z.shiftr (u16 data) start) (2 ^ count - 1)).
Definition L1 (idx : Z) : nat := extract_bits idx 11 5.
Definition L2 (idx : Z) : nat := extract_bits idx 6 5.
Definition L3 (idx : Z) : nat := extract_bits idx 0 6.

(** The static blocks. *)
Definition l2_sentinel : positive := 1.
Definition l3_sentinel : positive := 1.

Section array.
  Context {V : Type}.

(** The blocks of the second and third level, and the static flag [inited]. *)
Record pa_heap := PaHeap { ph_l2 : gmap positive (list (option positive)); ph_l3 : gmap positive (list (option V)); ph_inited : bool }.

(** [struct port_array] is the list of its pointers to the second level. *)

(** Static memory is zero before the program starts. *)
Definition pa_start : pa_heap := PaHeap {[l2_sentinel := replicate PORT_ARRAY_L2_SIZE None]} {[l3_sentinel := replicate PORT_ARRAY_L3_SIZE None]} false.

Definition port_array_init (h : pa_heap) : pa_heap * list positive :=
  (if ph_inited h then h else PaHeap (<[l2_sentinel := replicate PORT_ARRAY_L2_SIZE (Some l3_sentinel)]> (ph_l2 h)) (ph_l3 h) true,
   replicate PORT_ARRAY_L1_SIZE l2_sentinel).

Definition free_l3 (h : pa_heap) (l3 : positive) : option pa_heap :=
  _ ← ph_l3 h !! l3; Some (PaHeap (ph_l2 h) (delete l3 (ph_l3 h)) (ph_inited h)).
Definition free_l2 (h : pa_heap) (l2 : positive) : option pa_heap :=
  _ ← ph_l2 h !! l2; Some (PaHeap (delete l2 (ph_l2 h)) (ph_l3 h) (ph_inited h)).

(** The inner loop of [port_array_destroy]. *)
Fixpoint free_block (h : pa_heap) (l2 : list (option positive)) : option pa_heap :=
  match l2 with
  | [] => Some h
  | p :: l2 => l3 ← p; h ← (if bool_decide (l3 = l3_sentinel) then Some h else free_l3 h l3); free_block h l2
  end.

Fixpoint port_array_destroy (h : pa_heap) (pa : list positive) : option pa_heap :=
  match pa with
  | [] => Some h
  | l2 :: pa =>
    h ← (if bool_decide (l2 = l2_sentinel) then Some h else b ← ph_l2 h !! l2; h ← free_block h b; free_l2 h l2);
    port_array_destroy h pa
  end.

Definition port_array_clear (h : pa_heap) (pa : list positive) : option (pa_heap * list positive) :=
  h ← port_array_destroy h pa; Some (port_array_init h).

(** The pointer of level 1, to a block of its own. *)
Definition own_l2 (h : pa_heap) (pa : list positive) (i : nat) : option (pa_heap * list positive * positive) :=
  l2 ← pa !! i;
  if bool_decide (l2 = l2_sentinel) then
    b ← ph_l2 h !! l2;
    let p := fresh (dom (ph_l2 h)) in
    Some (PaHeap (<[p := b]> (ph_l2 h)) (ph_l3 h) (ph_inited h), <[i := p]> pa, p)
  else Some (h, pa, l2).

Definition own_l3 (h : pa_heap) (l2 : positive) (j : nat) : option (pa_heap * positive) :=
  b ← ph_l2 h !! l2;
  l3 ← mjoin (b !! j);
  if bool_decide (l3 = l3_sentinel) then
    c ← ph_l3 h !! l3;
    let p := fresh (dom (ph_l3 h)) in
    Some (PaHeap (<[l2 := <[j := Some p]> b]> (ph_l2 h)) (<[p := c]> (ph_l3 h)) (ph_inited h), p)
  else Some (h, l3).

Definition port_array_set (h : pa_heap) (pa : list positive) (idx : Z) (v : option V) : option (pa_heap * list positive) :=
  '(h, pa, l2) ← own_l2 h pa (L1 idx);
  '(h, l3) ← own_l3 h l2 (L2 idx);
  c ← ph_l3 h !! l3;
  Some (PaHeap (ph_l2 h) (<[l3 := <[L3 idx := v]> c]> (ph_l3 h)) (ph_inited h), pa).

Definition port_array_get (h : pa_heap) (pa : list positive) (idx : Z) : option (option V) :=
  l2 ← pa !! L1 idx;
  b ← ph_l2 h !! l2;
  l3 ← mjoin (b !! L2 idx);
  c ← ph_l3 h !! l3;
  c !! L3 idx.

(** The loops of [next], each from its index on; [n] turns are left.  The inner ones give where they stopped, if at an element. *)
Fixpoint next_l3 (n : nat) (c : list (option V)) (k : nat) : option (option (nat * V)) :=
  match n with
  | O => Some None
  | S n => p ← c !! k; match p with Some v => Some (Some (k, v)) | None => next_l3 n c (S k) end
  end.

Fixpoint next_l2 (h : pa_heap) (n : nat) (b : list (option positive)) (j k : nat) : option (option (nat * nat * V)) :=
  match n with
  | O => Some None
  | S n =>
    l3 ← mjoin (b !! j);
    r ← (if bool_decide (l3 = l3_sentinel) then Some None else c ← ph_l3 h !! l3; next_l3 (PORT_ARRAY_L3_SIZE - k) c k);
    match r with Some (k, v) => Some (Some (j, k, v)) | None => next_l2 h n b (S j) 0 end
  end.

Fixpoint next_l1 (h : pa_heap) (n : nat) (pa : list positive) (i j k : nat) : option (option V * Z) :=
  match n with
  | O => Some (None, PORT_ARRAY_SIZE)
  | S n =>
    l2 ← pa !! i;
    r ← (if bool_decide (l2 = l2_sentinel) then Some None else b ← ph_l2 h !! l2; next_l2 h (PORT_ARRAY_L2_SIZE - j) b j k);
    match r with
    | Some (j, k, v) => Some (Some v, Z.lor (Z.lor (Z.shiftl (Z.of_nat i) 11) (Z.shiftl (Z.of_nat j) 6)) (Z.shiftl (Z.of_nat k) 0))
    | None => next_l1 h n pa (S i) 0 0
    end
  end.

Definition next (h : pa_heap) (pa : list positive) (idx : Z) : option (option V * Z) :=
  let l1_idx := Z.to_nat (Z.shiftr idx 11) in
  next_l1 h (PORT_ARRAY_L1_SIZE - l1_idx) pa l1_idx (L2 idx) (L3 idx).

Definition port_array_first (h : pa_heap) (pa : list positive) : option (option V * Z) := next h pa 0.
Definition port_array_next (h : pa_heap) (pa : list positive) (idx : Z) : option (option V * Z) := next h pa (u32 (idx + 1)).
End array.
