(* ===== verification/PortArrayCorrect.v ===== *)
(** Theorems about PortArray.v: any number of arrays, sharing their static blocks, are finite maps. *)

From S2P Require Import Prelude Memory PortArray.

Section correct.
  Context {V : Type}.
  Implicit Types (h : @pa_heap V) (pa : list positive) (pas : list (list positive)).

(** * The tree *)

(** The pointer of array [k] at [i]; that of block [p] at [j]; the element of block [q] at [m]. *)
Definition at1 (pas : list (list positive)) (k i : nat) : option positive := pa ← pas !! k; pa !! i.
Definition at2 (h : @pa_heap V) (p : positive) (j : nat) : option positive := b ← ph_l2 h !! p; mjoin (b !! j).
Definition at3 (h : @pa_heap V) (q : positive) (m : nat) : option (option V) := c ← ph_l3 h !! q; c !! m.

(** The element of an array at three indexes. *)
Definition cell (h : @pa_heap V) (pa : list positive) (i j m : nat) : option (option V) :=
  p ← pa !! i; q ← at2 h p j; at3 h q m.

(** All arrays of the program: the static blocks are empty, all pointers are good, no block but the static ones is shared, and every block
    is used. *)
Record pa_ok h pas : Prop := PaOk {
  po_l2_sentinel : ph_l2 h !! l2_sentinel = Some (replicate PORT_ARRAY_L2_SIZE (Some l3_sentinel));
  po_l3_sentinel : ph_l3 h !! l3_sentinel = Some (replicate PORT_ARRAY_L3_SIZE None);
  po_inited : ph_inited h = true;
  po_arrays k pa : pas !! k = Some pa → length pa = PORT_ARRAY_L1_SIZE;
  po_l1 k i p : at1 pas k i = Some p → is_Some (ph_l2 h !! p);
  po_l2 p b j : ph_l2 h !! p = Some b → length b = PORT_ARRAY_L2_SIZE ∧ ((j < PORT_ARRAY_L2_SIZE)%nat → ∃ q, at2 h p j = Some q ∧ is_Some (ph_l3 h !! q));
  po_l3 q c : ph_l3 h !! q = Some c → length c = PORT_ARRAY_L3_SIZE;
  po_own_l2 k i k' i' p : p ≠ l2_sentinel → at1 pas k i = Some p → at1 pas k' i' = Some p → k = k' ∧ i = i';
  po_own_l3 p j p' j' q : q ≠ l3_sentinel → at2 h p j = Some q → at2 h p' j' = Some q → p = p' ∧ j = j';
  po_used_l2 p : p ≠ l2_sentinel → is_Some (ph_l2 h !! p) → ∃ k i, at1 pas k i = Some p;
  po_used_l3 q : q ≠ l3_sentinel → is_Some (ph_l3 h !! q) → ∃ p j, at2 h p j = Some q }.

Definition val h pas (k i j m : nat) : option (option V) := p ← at1 pas k i; q ← at2 h p j; at3 h q m.

Lemma at1_insert pas k pa k' i : (k < length pas)%nat → at1 (<[k := pa]> pas) k' i = if decide (k' = k) then pa !! i else at1 pas k' i.
Proof. intros Hk. unfold at1. destruct (decide (k' = k)) as [->|]; [by rewrite list_lookup_insert_eq|by rewrite list_lookup_insert_ne]. Qed.

Lemma at1_set pas k pa i l2 k' i' : pas !! k = Some pa → (i < length pa)%nat →
  at1 (<[k := <[i := l2]> pa]> pas) k' i' = if decide (k' = k ∧ i' = i) then Some l2 else at1 pas k' i'.
Proof.
  intros Hk Hi. rewrite at1_insert by by eapply lookup_lt_Some. destruct (decide (k' = k)) as [->|]; [|rewrite decide_False by naive_solver; done].
  destruct (decide (i' = i)) as [->|].
  - rewrite decide_True by done. by apply list_lookup_insert_eq.
  - rewrite decide_False, list_lookup_insert_ne by naive_solver. unfold at1. by rewrite Hk.
Qed.

(** ** Blocks of one's own *)

Section own.
  Context h pas (H : pa_ok h pas).

Lemma l2_sentinel_at j : (j < PORT_ARRAY_L2_SIZE)%nat → at2 h l2_sentinel j = Some l3_sentinel.
Proof using H. intros Hj. unfold at2. rewrite (po_l2_sentinel _ _ H). cbn [mbind option_bind]. by rewrite lookup_replicate_2. Qed.

Lemma at2_range p j q : at2 h p j = Some q → (j < PORT_ARRAY_L2_SIZE)%nat ∧ is_Some (ph_l3 h !! q).
Proof using H.
  unfold at2. intros E. destruct (ph_l2 h !! p) as [b|] eqn:Eb; [|done]. cbn [mbind option_bind] in E. destruct (b !! j) as [q'|] eqn:Ej; [|done]. cbn in E. subst q'.
  apply lookup_lt_Some in Ej as Hj. destruct (po_l2 _ _ H p b j Eb) as [Hl Hq]. rewrite Hl in Hj. split; [done|]. destruct (Hq Hj) as (q' & E & ?).
  unfold at2 in E. rewrite Eb in E. cbn [mbind option_bind] in E. rewrite Ej in E. cbn in E. by simplify_eq.
Qed.

Lemma at1_range k i p : at1 pas k i = Some p → (i < PORT_ARRAY_L1_SIZE)%nat.
Proof using H. unfold at1. intros E. destruct (pas !! k) as [pa|] eqn:Ek; [|done]. cbn in E. apply lookup_lt_Some in E. by rewrite <- (po_arrays _ _ H k pa). Qed.

Lemma own_l2_ok k pa i : pas !! k = Some pa → (i < PORT_ARRAY_L1_SIZE)%nat → ∃ h' pa' l2, own_l2 h pa i = Some (h', pa', l2) ∧
  pa_ok h' (<[k := pa']> pas) ∧ at1 (<[k := pa']> pas) k i = Some l2 ∧ l2 ≠ l2_sentinel ∧ ∀ k' i' j m, val h' (<[k := pa']> pas) k' i' j m = val h pas k' i' j m.
Proof using H.
  intros Hk Hi. pose proof (po_arrays _ _ H k pa Hk) as Hlen. destruct (lookup_lt_is_Some_2 pa i) as [p0 Ep0]; [by rewrite Hlen|].
  assert (at1 pas k i = Some p0) as E1 by (unfold at1; by rewrite Hk). unfold own_l2. rewrite Ep0; cbn [mbind option_bind]. case_bool_decide as Es.
  2:{ exists h, pa, p0. rewrite list_insert_id by done. done. }
  subst p0. rewrite (po_l2_sentinel _ _ H); cbn [mbind option_bind]. set (p := fresh (dom (ph_l2 h))).
  assert (ph_l2 h !! p = None) as Hp by (apply not_elem_of_dom, is_fresh).
  assert (p ≠ l2_sentinel) as Hps by (intros Ep; rewrite Ep, (po_l2_sentinel _ _ H) in Hp; done).
  set (h' := PaHeap _ _ _). assert (∀ p' j, at2 h' p' j = if decide (p' = p) then (if decide (j < PORT_ARRAY_L2_SIZE)%nat then Some l3_sentinel else None) else at2 h p' j) as E2.
  { intros p' j. unfold at2, h'. cbn [ph_l2]. destruct (decide (p' = p)) as [->|]; [rewrite lookup_insert_eq|by rewrite lookup_insert_ne]. cbn [mbind option_bind].
    destruct (decide _); [by rewrite lookup_replicate_2|]. rewrite lookup_ge_None_2 by (rewrite length_replicate; lia). done. }
  assert (∀ k' i', at1 pas k' i' ≠ Some p) as Hn by (intros k' i' E; destruct (po_l1 _ _ H k' i' p E) as [? E']; congruence).
  assert (∀ k' i', at1 (<[k := <[i := p]> pa]> pas) k' i' = if decide (k' = k ∧ i' = i) then Some p else at1 pas k' i') as E3 by (intros; apply at1_set; [done|lia]).
  exists h', (<[i := p]> pa), p. split; [done|]. split; [|split; [rewrite E3, decide_True by done; done|split; [done|]]].
  - split.
    + unfold h'. cbn [ph_l2]. rewrite lookup_insert_ne by done. apply H.
    + apply H.
    + apply H.
    + intros k' pa' E. apply list_lookup_insert_Some in E as [(-> & <- & _)|[_ E]]; [by rewrite length_insert|by eapply H].
    + intros k' i' p' E. unfold h'. cbn [ph_l2]. rewrite E3 in E. destruct (decide (p' = p)) as [->|]; [rewrite lookup_insert_eq; by eexists|rewrite lookup_insert_ne by done].
      case_decide; [by simplify_eq|]. by eapply H.
    + intros p' b j Eb. unfold h' in Eb. cbn [ph_l2] in Eb. destruct (decide (p' = p)) as [->|Hpp].
      * rewrite lookup_insert_eq in Eb. apply (inj Some) in Eb as <-. rewrite length_replicate. split; [done|]. intros Hj. exists l3_sentinel. rewrite E2, !decide_True by done. split; [done|].
        unfold h'. cbn [ph_l3]. rewrite (po_l3_sentinel _ _ H). by eexists.
      * rewrite lookup_insert_ne in Eb by done. rewrite E2, decide_False by done. by apply (po_l2 _ _ H).
    + apply H.
    + intros k1 i1 k2 i2 p' Hp' A B. rewrite E3 in A, B.
      destruct (decide (k1 = k ∧ i1 = i)) as [[-> ->]|], (decide (k2 = k ∧ i2 = i)) as [[-> ->]|]; [done| | |by eapply H].
      * apply (inj Some) in A as <-. by destruct (Hn _ _ B).
      * apply (inj Some) in B as <-. by destruct (Hn _ _ A).
    + intros p1 j1 p2 j2 q Hq A B. rewrite E2 in A, B. repeat case_decide; simplify_eq; try done. by eapply H.
    + intros p' Hp' Hs. unfold h' in Hs. cbn [ph_l2] in Hs. destruct (decide (p' = p)) as [->|]; [exists k, i; by rewrite E3, decide_True|].
      rewrite lookup_insert_ne in Hs by done. destruct (po_used_l2 _ _ H p' Hp' Hs) as (k' & i' & E). exists k', i'. rewrite E3. case_decide as D; [|done].
      destruct D as [-> ->]. congruence.
    + intros q Hq Hs. destruct (po_used_l3 _ _ H q Hq Hs) as (p' & j & E). exists p', j. rewrite E2. case_decide as D; [|done]. subst p'. unfold at2 in E. by rewrite Hp in E.
  - intros k' i' j m. unfold val. rewrite E3. case_decide as D; cbn [mbind option_bind].
    + destruct D as [-> ->]. rewrite E1. cbn [mbind option_bind]. rewrite E2, decide_True by done. case_decide; [by rewrite l2_sentinel_at|].
      cbn [mbind option_bind]. destruct (at2 h l2_sentinel j) eqn:E; [|done]. by apply at2_range in E as [? _].
    + destruct (at1 pas k' i') as [p'|] eqn:E; [|done]. cbn [mbind option_bind]. rewrite E2. case_decide; [subst; by destruct (Hn _ _ E)|]. done.
Qed.

Lemma own_l3_ok l2 j : l2 ≠ l2_sentinel → is_Some (ph_l2 h !! l2) → (j < PORT_ARRAY_L2_SIZE)%nat → ∃ h' l3, own_l3 h l2 j = Some (h', l3) ∧
  pa_ok h' pas ∧ at2 h' l2 j = Some l3 ∧ l3 ≠ l3_sentinel ∧ ∀ k i j m, val h' pas k i j m = val h pas k i j m.
Proof using H.
  intros Hl2 [b Eb] Hj. destruct (po_l2 _ _ H l2 b j Eb) as [Hlen Hq]. destruct (Hq Hj) as (q0 & E0 & _). unfold own_l3. rewrite Eb; cbn [mbind option_bind].
  assert (mjoin (b !! j) = Some q0) as E1 by (unfold at2 in E0; by rewrite Eb in E0). rewrite E1; cbn [mbind option_bind]. case_bool_decide as Es.
  2:{ by exists h, q0. }
  subst q0. rewrite (po_l3_sentinel _ _ H); cbn [mbind option_bind]. set (q := fresh (dom (ph_l3 h))).
  assert (ph_l3 h !! q = None) as Hqn by (apply not_elem_of_dom, is_fresh).
  assert (q ≠ l3_sentinel) as Hqs by (intros Ep; rewrite Ep, (po_l3_sentinel _ _ H) in Hqn; done).
  set (h' := PaHeap _ _ _). assert (∀ p' j', at2 h' p' j' = if decide (p' = l2 ∧ j' = j) then Some q else at2 h p' j') as E2.
  { intros p' j'. unfold at2, h'. cbn [ph_l2]. destruct (decide (p' = l2)) as [->|]; [rewrite lookup_insert_eq|rewrite lookup_insert_ne, decide_False by naive_solver; done]. cbn [mbind option_bind].
    rewrite Eb. cbn [mbind option_bind]. destruct (decide (j' = j)) as [->|]; [rewrite list_lookup_insert_eq, decide_True by (done || lia); done|].
    by rewrite list_lookup_insert_ne, decide_False by naive_solver. }
  assert (∀ p' j', at2 h p' j' ≠ Some q) as Hn by (intros p' j' E; apply at2_range in E as [_ [? E']]; congruence).
  assert (∀ q', is_Some (ph_l3 h !! q') → is_Some (ph_l3 h' !! q')) as Hmore by (intros q' ?; unfold h'; cbn [ph_l3]; apply lookup_insert_is_Some'; auto).
  exists h', q. split; [done|]. split; [|split; [rewrite E2, decide_True by done; done|split; [done|]]].
  - split.
    + unfold h'. cbn [ph_l2]. rewrite lookup_insert_ne by done. apply H.
    + unfold h'. cbn [ph_l3]. rewrite lookup_insert_ne by done. apply H.
    + apply H.
    + apply H.
    + intros k i p E. unfold h'. cbn [ph_l2]. apply lookup_insert_is_Some'. right. by eapply H.
    + intros p' b' j' Eb'. unfold h' in Eb'. cbn [ph_l2] in Eb'. rewrite E2.
      assert (length b' = PORT_ARRAY_L2_SIZE ∧ ((j' < PORT_ARRAY_L2_SIZE)%nat → ∃ q', at2 h p' j' = Some q' ∧ is_Some (ph_l3 h !! q'))) as [Hlen' Hq'].
      { apply lookup_insert_Some in Eb' as [[<- <-]|[_ E]]; [rewrite length_insert; split; [done|apply (po_l2 _ _ H l2 b j' Eb)]|by apply (po_l2 _ _ H)]. }
      split; [done|]. intros Hj'. case_decide; [exists q; split; [done|]; unfold h'; cbn [ph_l3]; rewrite lookup_insert_eq; by eexists|].
      destruct (Hq' Hj') as (q' & ? & ?). exists q'. auto.
    + intros q' c E. unfold h' in E. cbn [ph_l3] in E. apply lookup_insert_Some in E as [[<- <-]|[_ E]]; [by rewrite length_replicate|by eapply H].
    + apply H.
    + intros p1 j1 p2 j2 q' Hq' A B. rewrite E2 in A, B.
      destruct (decide (p1 = l2 ∧ j1 = j)) as [[-> ->]|], (decide (p2 = l2 ∧ j2 = j)) as [[-> ->]|]; [done| | |by eapply H].
      * apply (inj Some) in A as <-. by destruct (Hn _ _ B).
      * apply (inj Some) in B as <-. by destruct (Hn _ _ A).
    + intros p Hp Hs. unfold h' in Hs. cbn [ph_l2] in Hs. apply lookup_insert_is_Some' in Hs as [<-|Hs]; [|by eapply H]. apply (po_used_l2 _ _ H); [done|by eexists].
    + intros q' Hq' Hs. unfold h' in Hs. cbn [ph_l3] in Hs. apply lookup_insert_is_Some' in Hs as [<-|Hs]; [exists l2, j; by rewrite E2, decide_True|].
      destruct (po_used_l3 _ _ H q' Hq' Hs) as (p & j' & E). exists p, j'. rewrite E2. case_decide as D; [|done]. destruct D as [-> ->]. congruence.
  - intros k i j' m. unfold val. destruct (at1 pas k i) as [p|]; [|done]. cbn [mbind option_bind]. rewrite E2. case_decide as D.
    + destruct D as [-> ->]. rewrite E0. cbn [mbind option_bind]. unfold at3, h'. cbn [ph_l3]. by rewrite lookup_insert_eq, (po_l3_sentinel _ _ H).
    + destruct (at2 h p j') as [q'|] eqn:E; [|done]. cbn [mbind option_bind]. unfold at3, h'. cbn [ph_l3]. by rewrite lookup_insert_ne by (intros <-; by destruct (Hn _ _ E)).
Qed.

(** Writing to a block of one's own changes one element of one array. *)
Lemma write_one_ok k i p j q m c v : at1 pas k i = Some p → p ≠ l2_sentinel → at2 h p j = Some q → q ≠ l3_sentinel → ph_l3 h !! q = Some c → (m < PORT_ARRAY_L3_SIZE)%nat →
  pa_ok (PaHeap (ph_l2 h) (<[q := <[m := v]> c]> (ph_l3 h)) (ph_inited h)) pas ∧
  ∀ k' i' j' m', val (PaHeap (ph_l2 h) (<[q := <[m := v]> c]> (ph_l3 h)) (ph_inited h)) pas k' i' j' m' =
    if decide (k' = k ∧ i' = i ∧ j' = j ∧ m' = m) then Some v else val h pas k' i' j' m'.
Proof using H.
  intros E1 Hp E2 Hq Ec Hm. set (h' := PaHeap _ _ _). assert (∀ p j, at2 h' p j = at2 h p j) as E2' by done.
  assert (length c = PORT_ARRAY_L3_SIZE) as Hlen by (by eapply po_l3).
  split.
  - split; try apply H.
    + unfold h'. cbn [ph_l3]. rewrite lookup_insert_ne by done. apply H.
    + intros p' b j' Eb. destruct (po_l2 _ _ H p' b j' Eb) as [? Hq']. split; [done|]. intros Hj'. destruct (Hq' Hj') as (q' & ? & ?). exists q'. split; [done|].
      unfold h'. cbn [ph_l3]. apply lookup_insert_is_Some'. auto.
    + intros q' c' E. unfold h' in E. cbn [ph_l3] in E. apply lookup_insert_Some in E as [[<- <-]|[_ E]]; [by rewrite length_insert|by eapply H].
    + intros q' Hq' Hs. unfold h' in Hs. cbn [ph_l3] in Hs. apply lookup_insert_is_Some' in Hs as [<-|Hs]; [by exists p, j|by apply (po_used_l3 _ _ H)].
  - intros k' i' j' m'. unfold val. destruct (at1 pas k' i') as [p'|] eqn:E1'; cbn [mbind option_bind]; [|rewrite decide_False; [done|intros (-> & -> & _); congruence]].
    rewrite E2'. destruct (at2 h p' j') as [q'|] eqn:Eq'; cbn [mbind option_bind]; [|rewrite decide_False; [done|intros (-> & -> & -> & _); congruence]].
    unfold at3, h'. cbn [ph_l3]. destruct (decide (q' = q)) as [->|Hqq].
    + rewrite lookup_insert_eq, Ec. cbn [mbind option_bind]. destruct (po_own_l3 _ _ H p j p' j' q Hq E2 Eq') as [<- <-]. destruct (po_own_l2 _ _ H k i k' i' p Hp E1 E1') as [<- <-].
      destruct (decide (m' = m)) as [->|]; [rewrite decide_True by done; apply list_lookup_insert_eq; lia|rewrite decide_False by naive_solver; by apply list_lookup_insert_ne].
    + rewrite lookup_insert_ne by done. rewrite decide_False; [done|]. intros (-> & -> & -> & _). congruence.
Qed.

(** ** Freeing *)

(** A block of the third level is freed, and its place in the second level counts as empty. *)
Lemma drop_l3 l2 b j q : l2 ≠ l2_sentinel → ph_l2 h !! l2 = Some b → at2 h l2 j = Some q → q ≠ l3_sentinel →
  pa_ok (PaHeap (<[l2 := <[j := Some l3_sentinel]> b]> (ph_l2 h)) (delete q (ph_l3 h)) (ph_inited h)) pas ∧
  ∀ k i j' m, at1 pas k i ≠ Some l2 → val (PaHeap (<[l2 := <[j := Some l3_sentinel]> b]> (ph_l2 h)) (delete q (ph_l3 h)) (ph_inited h)) pas k i j' m = val h pas k i j' m.
Proof using H.
  intros Hl2 Eb E2 Hq. set (h' := PaHeap _ _ _). destruct (at2_range l2 j q E2) as [Hj _]. destruct (po_l2 _ _ H l2 b j Eb) as [Hlen _].
  assert (∀ p' j', at2 h' p' j' = if decide (p' = l2 ∧ j' = j) then Some l3_sentinel else at2 h p' j') as E2'.
  { intros p' j'. unfold at2, h'. cbn [ph_l2]. destruct (decide (p' = l2)) as [->|]; [rewrite lookup_insert_eq|rewrite lookup_insert_ne, decide_False by naive_solver; done]. cbn [mbind option_bind].
    rewrite Eb. cbn [mbind option_bind]. destruct (decide (j' = j)) as [->|]; [rewrite list_lookup_insert_eq, decide_True by (done || lia); done|].
    by rewrite list_lookup_insert_ne, decide_False by naive_solver. }
  assert (∀ p' j', at2 h' p' j' ≠ Some q) as Hn.
  { intros p' j' E. rewrite E2' in E. case_decide as D; [congruence|]. destruct (po_own_l3 _ _ H l2 j p' j' q Hq E2 E) as [-> ->]. naive_solver. }
  assert (∀ p' j' q', at2 h' p' j' = Some q' → ph_l3 h' !! q' = ph_l3 h !! q') as Hsame.
  { intros p' j' q' E. unfold h'. cbn [ph_l3]. apply lookup_delete_ne. intros ->. by destruct (Hn _ _ E). }
  split.
  - split.
    + unfold h'. cbn [ph_l2]. rewrite lookup_insert_ne by done. apply H.
    + unfold h'. cbn [ph_l3]. rewrite lookup_delete_ne by done. apply H.
    + apply H.
    + apply H.
    + intros k i p E. unfold h'. cbn [ph_l2]. apply lookup_insert_is_Some'. right. by eapply H.
    + intros p' b' j' Eb'. unfold h' in Eb'. cbn [ph_l2] in Eb'.
      assert (length b' = PORT_ARRAY_L2_SIZE ∧ ((j' < PORT_ARRAY_L2_SIZE)%nat → ∃ q', at2 h p' j' = Some q' ∧ is_Some (ph_l3 h !! q'))) as [Hlen' Hq'].
      { apply lookup_insert_Some in Eb' as [[<- <-]|[_ E]]; [rewrite length_insert; split; [done|apply (po_l2 _ _ H l2 b j' Eb)]|by apply (po_l2 _ _ H)]. }
      split; [done|]. intros Hj'. destruct (Hq' Hj') as (q' & Ea & Hs). destruct (at2 h' p' j') as [q1|] eqn:E; [|rewrite E2' in E; case_decide; congruence].
      exists q1. split; [done|]. rewrite (Hsame _ _ _ E). rewrite E2' in E. case_decide; [|congruence]. apply (inj Some) in E as <-. rewrite (po_l3_sentinel _ _ H). by eexists.
    + intros q' c E. unfold h' in E. cbn [ph_l3] in E. apply lookup_delete_Some in E as [_ E]. by eapply H.
    + apply H.
    + intros p1 j1 p2 j2 q' Hq' A B. rewrite E2' in A, B. do 2 (case_decide; [congruence|]). by eapply H.
    + intros p Hp Hs. unfold h' in Hs. cbn [ph_l2] in Hs. apply lookup_insert_is_Some' in Hs as [<-|Hs]; [|by eapply H]. apply (po_used_l2 _ _ H); [done|by eexists].
    + intros q' Hq' Hs. unfold h' in Hs. cbn [ph_l3] in Hs. apply lookup_delete_is_Some in Hs as [Hqq Hs].
      destruct (po_used_l3 _ _ H q' Hq' Hs) as (p & j' & E). exists p, j'. rewrite E2'. case_decide as D; [|done]. destruct D as [-> ->]. congruence.
  - intros k i j' m Hk. unfold val. destruct (at1 pas k i) as [p|]; [|done]. cbn [mbind option_bind]. rewrite E2', decide_False by (intros [-> _]; done).
    destruct (at2 h p j') as [q'|] eqn:E; [|done]. cbn [mbind option_bind]. unfold at3. rewrite (Hsame p j' q'); [done|]. rewrite E2', decide_False by (intros [-> _]; done). done.
Qed.

(** A block of the second level that is empty is freed. *)
Lemma drop_l2 k pa i l2 : pas !! k = Some pa → pa !! i = Some l2 → l2 ≠ l2_sentinel → ph_l2 h !! l2 = Some (replicate PORT_ARRAY_L2_SIZE (Some l3_sentinel)) →
  pa_ok (PaHeap (delete l2 (ph_l2 h)) (ph_l3 h) (ph_inited h)) (<[k := <[i := l2_sentinel]> pa]> pas) ∧
  ∀ k' i' j m, k' ≠ k → val (PaHeap (delete l2 (ph_l2 h)) (ph_l3 h) (ph_inited h)) (<[k := <[i := l2_sentinel]> pa]> pas) k' i' j m = val h pas k' i' j m.
Proof using H.
  intros Hk Ep Hl2 Eb. set (h' := PaHeap _ _ _). assert (at1 pas k i = Some l2) as E1 by (unfold at1; by rewrite Hk).
  assert (∀ k' i', at1 (<[k := <[i := l2_sentinel]> pa]> pas) k' i' = if decide (k' = k ∧ i' = i) then Some l2_sentinel else at1 pas k' i') as E3
    by (intros; apply at1_set; [done|by eapply lookup_lt_Some]).
  assert (∀ k' i', at1 (<[k := <[i := l2_sentinel]> pa]> pas) k' i' ≠ Some l2) as Hn.
  { intros k' i' E. rewrite E3 in E. case_decide as D; [congruence|]. destruct (po_own_l2 _ _ H k i k' i' l2 Hl2 E1 E) as [-> ->]. naive_solver. }
  assert (∀ p, p ≠ l2 → ph_l2 h' !! p = ph_l2 h !! p) as Hsame by (intros p Hp; unfold h'; cbn [ph_l2]; by apply lookup_delete_ne).
  assert (∀ p j, p ≠ l2 → at2 h' p j = at2 h p j) as E2 by (intros p j Hp; unfold at2; by rewrite Hsame).
  assert (∀ p j q, at2 h' p j = Some q → at2 h p j = Some q) as E2'.
  { intros p j q. destruct (decide (p = l2)) as [->|]; [|by rewrite E2]. unfold at2, h'. cbn [ph_l2]. by rewrite lookup_delete_eq. }
  split.
  - split.
    + rewrite Hsame by done. apply H.
    + apply H.
    + apply H.
    + intros k' pa' E. apply list_lookup_insert_Some in E as [(-> & <- & _)|[_ E]]; [rewrite length_insert|]; by eapply H.
    + intros k' i' p E. rewrite Hsame by (intros ->; by destruct (Hn _ _ E)). rewrite E3 in E. case_decide; [apply (inj Some) in E as <-; rewrite (po_l2_sentinel _ _ H); by eexists|]. by eapply H.
    + intros p b j E. assert (p ≠ l2) as Hp by (intros ->; unfold h' in E; cbn [ph_l2] in E; by rewrite lookup_delete_eq in E). rewrite Hsame in E by done. rewrite E2 by done. by apply (po_l2 _ _ H).
    + apply H.
    + intros k1 i1 k2 i2 p Hp A B. rewrite E3 in A, B. do 2 (case_decide; [congruence|]). by eapply H.
    + intros p1 j1 p2 j2 q Hq A B. apply E2' in A, B. by eapply H.
    + intros p Hp Hs. assert (p ≠ l2) as Hpl by (intros ->; unfold h' in Hs; cbn [ph_l2] in Hs; rewrite lookup_delete_eq in Hs; by destruct Hs). rewrite Hsame in Hs by done.
      destruct (po_used_l2 _ _ H p Hp Hs) as (k' & i' & E). exists k', i'. rewrite E3. case_decide as D; [|done]. destruct D as [-> ->]. congruence.
    + intros q Hq Hs. destruct (po_used_l3 _ _ H q Hq Hs) as (p & j & E). exists p, j. rewrite E2; [done|]. intros ->. unfold at2 in E. rewrite Eb in E. cbn [mbind option_bind] in E.
      destruct (replicate PORT_ARRAY_L2_SIZE (Some l3_sentinel) !! j) eqn:Ej; [|done]. apply lookup_replicate in Ej as [-> _]. cbn in E. congruence.
  - intros k' i' j m Hkk. unfold val. rewrite E3, decide_False by naive_solver. destruct (at1 pas k' i') as [p|] eqn:E; [|done]. cbn [mbind option_bind].
    rewrite E2; [done|]. intros ->. destruct (po_own_l2 _ _ H k i k' i' l2 Hl2 E1 E) as [<- _]. done.
Qed.
End own.

Lemma insert_next {A} n (x y : A) rest : <[n := x]> (replicate n x ++ y :: rest) = replicate (S n) x ++ rest.
Proof. rewrite insert_app_r_alt by (rewrite length_replicate; lia). rewrite length_replicate, Nat.sub_diag. cbn [insert list_insert]. by rewrite replicate_S_end, <- app_assoc. Qed.

Lemma lookup_next {A} n (x y : A) rest : (replicate n x ++ y :: rest) !! n = Some y.
Proof. rewrite lookup_app_r by (rewrite length_replicate; lia). by rewrite length_replicate, Nat.sub_diag. Qed.

(** The loop over a block of the second level, of which the first [n] places count as empty already. *)
Lemma free_block_ok pas l2 rest : l2 ≠ l2_sentinel → ∀ n h, pa_ok (PaHeap (<[l2 := replicate n (Some l3_sentinel) ++ rest]> (ph_l2 h)) (ph_l3 h) (ph_inited h)) pas →
  ∃ l3s, free_block h rest = Some (PaHeap (ph_l2 h) l3s (ph_inited h)) ∧
    pa_ok (PaHeap (<[l2 := replicate (n + length rest) (Some l3_sentinel)]> (ph_l2 h)) l3s (ph_inited h)) pas ∧
    ∀ k i j m, at1 pas k i ≠ Some l2 → val (PaHeap (<[l2 := replicate (n + length rest) (Some l3_sentinel)]> (ph_l2 h)) l3s (ph_inited h)) pas k i j m =
      val (PaHeap (<[l2 := replicate n (Some l3_sentinel) ++ rest]> (ph_l2 h)) (ph_l3 h) (ph_inited h)) pas k i j m.
Proof.
  intros Hl2. induction rest as [|p rest IH]; intros n h H; cbn [free_block].
  { exists (ph_l3 h). rewrite app_nil_r in *. rewrite Nat.add_0_r. split; [by destruct h|]. done. }
  set (h0 := PaHeap _ _ _) in H. assert (ph_l2 h0 !! l2 = Some (replicate n (Some l3_sentinel) ++ p :: rest)) as Eb by (unfold h0; cbn [ph_l2]; apply lookup_insert_eq).
  destruct (po_l2 _ _ H l2 _ n Eb) as [Hlen Hq]. destruct Hq as (q & E2 & c & Ec); [rewrite <- Hlen, length_app, length_replicate; cbn [length]; lia|].
  assert (p = Some q) as -> by (unfold at2 in E2; rewrite Eb in E2; cbn [mbind option_bind] in E2; by rewrite lookup_next in E2). cbn [mbind option_bind].
  cbn [length]. rewrite <- Nat.add_succ_comm. case_bool_decide as Es; cbn [mbind option_bind].
  - subst q. unfold h0 in *. clear h0.
    assert (replicate n (Some l3_sentinel) ++ Some l3_sentinel :: rest = replicate (S n) (Some l3_sentinel) ++ rest) as El by (by rewrite replicate_S_end, <- app_assoc).
    rewrite El in *. by apply IH.
  - unfold free_l3. change (ph_l3 h0 !! q = Some c) in Ec. unfold h0 in Ec. cbn [ph_l3] in Ec. rewrite Ec; cbn [mbind option_bind].
    destruct (drop_l3 h0 pas H l2 _ n q Hl2 Eb E2 Es) as [H1 V1]. rewrite insert_next in H1, V1. unfold h0 in H1, V1. cbn [ph_l2 ph_l3 ph_inited] in H1, V1. rewrite insert_insert_eq in H1, V1.
    destruct (IH (S n) (PaHeap (ph_l2 h) (delete q (ph_l3 h)) (ph_inited h)) H1) as (l3s & E & H2 & V2). exists l3s. split; [exact E|]. split; [exact H2|].
    intros k i j m Hk. cbn [ph_l2 ph_l3 ph_inited] in V2. rewrite V2 by done. by apply V1.
Qed.

Lemma destroy_loop pas k rest : (k < length pas)%nat → ∀ n h, pa_ok h (<[k := replicate n l2_sentinel ++ rest]> pas) →
  ∃ h', port_array_destroy h rest = Some h' ∧ pa_ok h' (<[k := replicate (n + length rest) l2_sentinel]> pas) ∧
    ∀ k' i j m, k' ≠ k → val h' (<[k := replicate (n + length rest) l2_sentinel]> pas) k' i j m = val h (<[k := replicate n l2_sentinel ++ rest]> pas) k' i j m.
Proof.
  intros Hk. induction rest as [|l2 rest IH]; intros n h H; cbn [port_array_destroy].
  { exists h. rewrite app_nil_r in *. by rewrite Nat.add_0_r. }
  set (pa0 := replicate n l2_sentinel ++ l2 :: rest) in *. assert (<[k := pa0]> pas !! k = Some pa0) as Hk0 by (by apply list_lookup_insert_eq).
  assert (pa0 !! n = Some l2) as Hn by apply lookup_next. assert (at1 (<[k := pa0]> pas) k n = Some l2) as E1 by (unfold at1; by rewrite Hk0).
  cbn [length]. rewrite <- Nat.add_succ_comm. case_bool_decide as Es; cbn [mbind option_bind].
  - subst l2. assert (pa0 = replicate (S n) l2_sentinel ++ rest) as El by (unfold pa0; by rewrite replicate_S_end, <- app_assoc). rewrite El in *. by apply IH.
  - destruct (po_l1 _ _ H k n l2 E1) as [b Eb]. rewrite Eb; cbn [mbind option_bind].
    destruct (free_block_ok (<[k := pa0]> pas) l2 b Es 0 h) as (l3s & E & H1 & V1); [cbn [replicate app]; rewrite insert_id by done; by destruct h|].
    rewrite E; cbn [mbind option_bind]. unfold free_l2. cbn [ph_l2 ph_l3 ph_inited]. rewrite Eb; cbn [mbind option_bind].
    rewrite (proj1 (po_l2 _ _ H l2 b 0%nat Eb)) in H1, V1. cbn [Nat.add] in H1, V1.
    destruct (drop_l2 _ _ H1 k pa0 n l2 Hk0 Hn Es (lookup_insert_eq _ _ _)) as [H2 V2]. unfold pa0 in H2, V2. rewrite list_insert_insert_eq, insert_next in H2, V2.
    cbn [ph_l2 ph_l3 ph_inited] in H2, V2. rewrite delete_insert_eq in H2, V2.
    destruct (IH (S n) _ H2) as (h' & E' & H' & V'). exists h'. split; [exact E'|]. split; [exact H'|]. intros k' i j m Hkk. rewrite V', V2 by done. fold pa0. rewrite V1.
    + cbn [replicate app]. rewrite insert_id by done. by destruct h.
    + intros Ea. by destruct (po_own_l2 _ _ H k n k' i l2 Es E1 Ea) as [<- _].
Qed.

(** * The operations *)

Lemma index_bounds idx : (L1 idx < PORT_ARRAY_L1_SIZE)%nat ∧ (L2 idx < PORT_ARRAY_L2_SIZE)%nat ∧ (L3 idx < PORT_ARRAY_L3_SIZE)%nat.
Proof.
  unfold L1, L2, L3, extract_bits, PORT_ARRAY_L1_SIZE, PORT_ARRAY_L2_SIZE, PORT_ARRAY_L3_SIZE. change (2 ^ 5 - 1) with (Z.ones 5). change (2 ^ 6 - 1) with (Z.ones 6).
  rewrite !Z.land_ones by lia. change (2 ^ 5) with 32. change (2 ^ 6) with 64.
  pose proof (Z.mod_pos_bound (Z.shiftr (u16 idx) 11) 32). pose proof (Z.mod_pos_bound (Z.shiftr (u16 idx) 6) 32). pose proof (Z.mod_pos_bound (Z.shiftr (u16 idx) 0) 64). lia.
Qed.

Lemma set_ok h pas k pa idx v : pa_ok h pas → pas !! k = Some pa → ∃ h' pa', port_array_set h pa idx v = Some (h', pa') ∧ pa_ok h' (<[k := pa']> pas) ∧
  ∀ k' i j m, val h' (<[k := pa']> pas) k' i j m = if decide (k' = k ∧ i = L1 idx ∧ j = L2 idx ∧ m = L3 idx) then Some v else val h pas k' i j m.
Proof.
  intros H Hk. destruct (index_bounds idx) as (B1 & B2 & B3). unfold port_array_set.
  destruct (own_l2_ok h pas H k pa (L1 idx) Hk B1) as (h1 & pa1 & l2 & -> & H1 & E1 & Hl2 & V1). cbn [mbind option_bind].
  destruct (own_l3_ok h1 _ H1 l2 (L2 idx) Hl2 (po_l1 _ _ H1 _ _ _ E1) B2) as (h2 & l3 & -> & H2 & E2 & Hl3 & V2). cbn [mbind option_bind].
  destruct (at2_range _ _ H2 _ _ _ E2) as [_ [c Ec]]. rewrite Ec; cbn [mbind option_bind].
  destruct (write_one_ok h2 _ H2 k (L1 idx) l2 (L2 idx) l3 (L3 idx) c v E1 Hl2 E2 Hl3 Ec B3) as [H3 V3].
  eexists _, pa1. split; [done|]. split; [exact H3|]. intros k' i j m. rewrite V3, V2, V1. done.
Qed.

Lemma val_total h pas k pa i j m : pa_ok h pas → pas !! k = Some pa → (i < PORT_ARRAY_L1_SIZE)%nat → (j < PORT_ARRAY_L2_SIZE)%nat → (m < PORT_ARRAY_L3_SIZE)%nat →
  ∃ p b q c o, pa !! i = Some p ∧ ph_l2 h !! p = Some b ∧ mjoin (b !! j) = Some q ∧ ph_l3 h !! q = Some c ∧ c !! m = Some o ∧ val h pas k i j m = Some o.
Proof.
  intros H Hk Hi Hj Hm. destruct (lookup_lt_is_Some_2 pa i) as [p Ep]; [by rewrite (po_arrays _ _ H k pa Hk)|]. assert (at1 pas k i = Some p) as E1 by (unfold at1; by rewrite Hk).
  destruct (po_l1 _ _ H k i p E1) as [b Eb]. destruct (po_l2 _ _ H p b j Eb) as [_ Hq]. destruct (Hq Hj) as (q & E2 & c & Ec).
  destruct (lookup_lt_is_Some_2 c m) as [o Eo]; [by rewrite (po_l3 _ _ H q c Ec)|].
  assert (mjoin (b !! j) = Some q) by (unfold at2 in E2; by rewrite Eb in E2).
  exists p, b, q, c, o. split_and!; try done. unfold val. rewrite E1. cbn [mbind option_bind]. rewrite E2. cbn [mbind option_bind]. unfold at3. by rewrite Ec.
Qed.

Lemma get_val h pas k pa idx : pa_ok h pas → pas !! k = Some pa → port_array_get h pa idx = val h pas k (L1 idx) (L2 idx) (L3 idx).
Proof.
  intros H Hk. destruct (index_bounds idx) as (B1 & B2 & B3). destruct (val_total h pas k pa _ _ _ H Hk B1 B2 B3) as (p & b & q & c & o & E1 & E2 & E3 & E4 & E5 & ->).
  unfold port_array_get. rewrite E1; cbn [mbind option_bind]. rewrite E2; cbn [mbind option_bind]. rewrite E3; cbn [mbind option_bind]. by rewrite E4.
Qed.

Lemma val_empty h pas k i j m : pa_ok h pas → at1 pas k i = Some l2_sentinel → (j < PORT_ARRAY_L2_SIZE)%nat → (m < PORT_ARRAY_L3_SIZE)%nat → val h pas k i j m = Some None.
Proof.
  intros H E Hj Hm. unfold val. rewrite E. cbn [mbind option_bind]. rewrite (l2_sentinel_at h pas H) by done. cbn [mbind option_bind]. unfold at3. rewrite (po_l3_sentinel _ _ H).
  cbn [mbind option_bind]. by apply lookup_replicate_2.
Qed.

(** ** Indexes *)

Lemma shiftl_lor x n y : 0 <= n → 0 <= y < 2 ^ n → Z.lor (Z.shiftl x n) y = x * 2 ^ n + y.
Proof.
  intros Hn Hy. rewrite lor_disjoint; [by rewrite Z.shiftl_mul_pow2|]. apply Z.bits_inj'. intros b Hb. rewrite Z.land_spec, Z.bits_0.
  destruct (Z.ltb_spec b n); [by rewrite Z.shiftl_spec_low|]. rewrite <- (Z.mod_small y (2 ^ n)) by done. rewrite Z.mod_pow2_bits_high by lia. apply andb_false_r.
Qed.

Definition num (i j m : nat) : nat := i * 2048 + j * 64 + m.

Lemma index_lor i j m : (j < PORT_ARRAY_L2_SIZE)%nat → (m < PORT_ARRAY_L3_SIZE)%nat →
  Z.lor (Z.lor (Z.shiftl (Z.of_nat i) 11) (Z.shiftl (Z.of_nat j) 6)) (Z.shiftl (Z.of_nat m) 0) = Z.of_nat (num i j m).
Proof.
  unfold PORT_ARRAY_L2_SIZE, PORT_ARRAY_L3_SIZE, num. intros Hj Hm. rewrite Z.shiftl_0_r. change 11 with (5 + 6). rewrite <- Z.shiftl_shiftl by lia. rewrite <- Z.shiftl_lor.
  rewrite (shiftl_lor (Z.of_nat i) 5), shiftl_lor by lia. lia.
Qed.

Lemma index_num idx : 0 <= idx < PORT_ARRAY_SIZE → idx = Z.of_nat (num (L1 idx) (L2 idx) (L3 idx)) ∧ L1 idx = Z.to_nat (Z.shiftr idx 11).
Proof.
  unfold PORT_ARRAY_SIZE. intros H. unfold num, L1, L2, L3, extract_bits. change (2 ^ 5 - 1) with (Z.ones 5). change (2 ^ 6 - 1) with (Z.ones 6).
  rewrite !Z.land_ones by lia. unfold u16, wrap. rewrite (Z.mod_small idx) by lia. rewrite !Z.shiftr_div_pow2 by lia. change (2 ^ 5) with 32. change (2 ^ 6) with 64. change (2 ^ 11) with 2048. change (2 ^ 0) with 1.
  split; [|f_equal]; Z.div_mod_to_equations; lia.
Qed.

Lemma num_inj i j m i' j' m' : (j < PORT_ARRAY_L2_SIZE)%nat → (m < PORT_ARRAY_L3_SIZE)%nat → (j' < PORT_ARRAY_L2_SIZE)%nat → (m' < PORT_ARRAY_L3_SIZE)%nat →
  num i j m = num i' j' m' → i = i' ∧ j = j' ∧ m = m'.
Proof. unfold num, PORT_ARRAY_L2_SIZE, PORT_ARRAY_L3_SIZE. lia. Qed.

(** ** Searching *)

Lemma next_l3_ok (c : list (option V)) n k : length c = PORT_ARRAY_L3_SIZE → (n + k)%nat = PORT_ARRAY_L3_SIZE →
  ∃ r, next_l3 n c k = Some r ∧
    match r with
    | Some (k', v) => (k <= k' < PORT_ARRAY_L3_SIZE)%nat ∧ c !! k' = Some (Some v) ∧ ∀ x, (k <= x < k')%nat → c !! x = Some None
    | None => ∀ x, (k <= x < PORT_ARRAY_L3_SIZE)%nat → c !! x = Some None
    end.
Proof.
  intros Hl. revert k. induction n as [|n IH]; intros k Hn; cbn [next_l3]; [exists None; split; [done|lia]|].
  destruct (lookup_lt_is_Some_2 c k) as [o Eo]; [lia|]. rewrite Eo; cbn [mbind option_bind]. destruct o as [v|].
  - exists (Some (k, v)). split; [done|]. split; [lia|]. split; [done|lia].
  - destruct (IH (S k)) as (r & E & Hr); [lia|]. exists r. split; [done|]. assert (∀ x, x = k → c !! x = Some None) as H0 by (by intros ? ->).
    destruct r as [[k' v]|].
    + destruct Hr as (? & ? & Hx). split; [lia|]. split; [done|]. intros x ?. destruct (decide (x = k)); [by apply H0|apply Hx; lia].
    + intros x ?. destruct (decide (x = k)); [by apply H0|apply Hr; lia].
Qed.

Definition cell2 h (p : positive) (j m : nat) : option (option V) := q ← at2 h p j; at3 h q m.

Section search.
  Context h pas (H : pa_ok h pas).

Lemma next_l2_ok p b n j k : ph_l2 h !! p = Some b → (n + j)%nat = PORT_ARRAY_L2_SIZE → (k <= PORT_ARRAY_L3_SIZE)%nat →
  ∃ r, next_l2 h n b j k = Some r ∧
    match r with
    | Some (j', k', v) => (j' < PORT_ARRAY_L2_SIZE)%nat ∧ (k' < PORT_ARRAY_L3_SIZE)%nat ∧ (num 0 j k <= num 0 j' k')%nat ∧ cell2 h p j' k' = Some (Some v) ∧
        ∀ y z, (z < PORT_ARRAY_L3_SIZE)%nat → (num 0 j k <= num 0 y z < num 0 j' k')%nat → cell2 h p y z = Some None
    | None => ∀ y z, (y < PORT_ARRAY_L2_SIZE)%nat → (z < PORT_ARRAY_L3_SIZE)%nat → (num 0 j k <= num 0 y z)%nat → cell2 h p y z = Some None
    end.
Proof using H.
  intros Eb. revert j k. induction n as [|n IH]; intros j k Hn Hk; cbn [next_l2].
  { exists None. split; [done|]. unfold num, PORT_ARRAY_L2_SIZE, PORT_ARRAY_L3_SIZE in *. lia. }
  destruct (po_l2 _ _ H p b j Eb) as [_ Hq]. destruct Hq as (q & E2 & c & Ec); [lia|]. assert (mjoin (b !! j) = Some q) as Ej by (unfold at2 in E2; by rewrite Eb in E2).
  rewrite Ej; cbn [mbind option_bind]. pose proof (po_l3 _ _ H q c Ec) as Hlen.
  assert (∀ z, cell2 h p j z = c !! z) as Hcell by (intros z; unfold cell2, at3; rewrite E2; cbn [mbind option_bind]; by rewrite Ec).
  assert (∃ r, (if bool_decide (q = l3_sentinel) then Some None else c ← ph_l3 h !! q; next_l3 (PORT_ARRAY_L3_SIZE - k) c k) = Some r ∧
    match r with
    | Some (k', v) => (k <= k' < PORT_ARRAY_L3_SIZE)%nat ∧ c !! k' = Some (Some v) ∧ ∀ x, (k <= x < k')%nat → c !! x = Some None
    | None => ∀ x, (k <= x < PORT_ARRAY_L3_SIZE)%nat → c !! x = Some None
    end) as (r & -> & Hr).
  { case_bool_decide as Es; [|rewrite Ec; apply next_l3_ok; [done|lia]]. exists None. split; [done|]. intros x [_ Hx]. subst q. rewrite (po_l3_sentinel _ _ H) in Ec.
    apply (inj Some) in Ec as <-. by apply lookup_replicate_2. }
  cbn [mbind option_bind]. unfold num, PORT_ARRAY_L2_SIZE, PORT_ARRAY_L3_SIZE in *. destruct r as [[k' v]|].
  - exists (Some (j, k', v)). split; [done|]. destruct Hr as (? & ? & Hx). rewrite Hcell. split; [lia|]. split; [lia|]. split; [lia|]. split; [done|]. intros y z ? ?.
    assert (y = j) as -> by lia. rewrite Hcell. apply Hx. lia.
  - destruct (IH (S j) 0%nat) as (r & E & Hr'); [lia|lia|]. exists r. split; [done|]. destruct r as [[[j' k'] v]|].
    + destruct Hr' as (? & ? & ? & ? & Hx). split; [done|]. split; [done|]. split; [lia|]. split; [done|]. intros y z ? ?.
      destruct (decide (y = j)) as [->|]; [rewrite Hcell; apply Hr; lia|apply Hx; lia].
    + intros y z ? ? ?. destruct (decide (y = j)) as [->|]; [rewrite Hcell; apply Hr; lia|apply Hr'; lia].
Qed.

Lemma next_l1_ok ka pa n i j k : pas !! ka = Some pa → (n + i)%nat = PORT_ARRAY_L1_SIZE → (j < PORT_ARRAY_L2_SIZE)%nat → (k < PORT_ARRAY_L3_SIZE)%nat →
  ∃ o x, next_l1 h n pa i j k = Some (o, x) ∧
    match o with
    | Some v => ∃ i' j' k', x = Z.of_nat (num i' j' k') ∧ (i' < PORT_ARRAY_L1_SIZE)%nat ∧ (j' < PORT_ARRAY_L2_SIZE)%nat ∧ (k' < PORT_ARRAY_L3_SIZE)%nat ∧ (num i j k <= num i' j' k')%nat ∧
        val h pas ka i' j' k' = Some (Some v) ∧
        ∀ y z w, (z < PORT_ARRAY_L2_SIZE)%nat → (w < PORT_ARRAY_L3_SIZE)%nat → (num i j k <= num y z w < num i' j' k')%nat → val h pas ka y z w = Some None
    | None => x = PORT_ARRAY_SIZE ∧ ∀ y z w, (y < PORT_ARRAY_L1_SIZE)%nat → (z < PORT_ARRAY_L2_SIZE)%nat → (w < PORT_ARRAY_L3_SIZE)%nat → (num i j k <= num y z w)%nat → val h pas ka y z w = Some None
    end.
Proof using H.
  intros Hka. revert i j k. induction n as [|n IH]; intros i j k Hn Hj Hk; cbn [next_l1].
  { exists None, PORT_ARRAY_SIZE. split; [done|]. split; [done|]. unfold num, PORT_ARRAY_L1_SIZE, PORT_ARRAY_L2_SIZE, PORT_ARRAY_L3_SIZE in *. lia. }
  destruct (lookup_lt_is_Some_2 pa i) as [p Ep]; [rewrite (po_arrays _ _ H ka pa Hka); lia|]. rewrite Ep; cbn [mbind option_bind].
  assert (at1 pas ka i = Some p) as E1 by (unfold at1; by rewrite Hka). destruct (po_l1 _ _ H ka i p E1) as [b Eb].
  assert (∀ z w, val h pas ka i z w = cell2 h p z w) as Hval by (intros; unfold val; by rewrite E1).
  assert (∃ r, (if bool_decide (p = l2_sentinel) then Some None else b ← ph_l2 h !! p; next_l2 h (PORT_ARRAY_L2_SIZE - j) b j k) = Some r ∧
    match r with
    | Some (j', k', v) => (j' < PORT_ARRAY_L2_SIZE)%nat ∧ (k' < PORT_ARRAY_L3_SIZE)%nat ∧ (num 0 j k <= num 0 j' k')%nat ∧ cell2 h p j' k' = Some (Some v) ∧
        ∀ y z, (z < PORT_ARRAY_L3_SIZE)%nat → (num 0 j k <= num 0 y z < num 0 j' k')%nat → cell2 h p y z = Some None
    | None => ∀ y z, (y < PORT_ARRAY_L2_SIZE)%nat → (z < PORT_ARRAY_L3_SIZE)%nat → (num 0 j k <= num 0 y z)%nat → cell2 h p y z = Some None
    end) as (r & -> & Hr).
  { case_bool_decide as Es; [|rewrite Eb; cbn [mbind option_bind]; apply next_l2_ok; [done|lia|lia]]. exists None. split; [done|]. intros y z Hy Hz _. subst p. rewrite <- Hval. by apply val_empty. }
  cbn [mbind option_bind]. destruct r as [[[j' k'] v]|].
  - destruct Hr as (Hj' & Hk' & Hle & Hc & Hx). eexists (Some v), _. split; [done|]. exists i, j', k'. rewrite index_lor by done. split; [done|].
    unfold num, PORT_ARRAY_L1_SIZE, PORT_ARRAY_L2_SIZE, PORT_ARRAY_L3_SIZE in *. split; [lia|]. split; [done|]. split; [done|]. split; [lia|]. split; [by rewrite Hval|].
    intros y z w ? ? ?. assert (y = i) as -> by lia. rewrite Hval. apply Hx; lia.
  - destruct (IH (S i) 0%nat 0%nat) as (o & x & E & Ho); [lia|unfold PORT_ARRAY_L2_SIZE; lia|unfold PORT_ARRAY_L3_SIZE; lia|]. exists o, x. split; [done|]. destruct o as [v|].
    + destruct Ho as (i' & j' & k' & -> & Hi' & Hj' & Hk' & Hle & Hv & Hx). exists i', j', k'. split; [done|]. split; [done|]. split; [done|]. split; [done|].
      unfold num, PORT_ARRAY_L1_SIZE, PORT_ARRAY_L2_SIZE, PORT_ARRAY_L3_SIZE in *. split; [lia|]. split; [done|]. intros y z w ? ? ?.
      destruct (decide (y = i)) as [->|]; [rewrite Hval; apply Hr; lia|apply Hx; lia].
    + destruct Ho as [-> Hx]. split; [done|]. unfold num, PORT_ARRAY_L1_SIZE, PORT_ARRAY_L2_SIZE, PORT_ARRAY_L3_SIZE in *. intros y z w ? ? ? ?.
      destruct (decide (y = i)) as [->|]; [rewrite Hval; apply Hr; lia|apply Hx; lia].
Qed.
End search.

(** * Any number of arrays *)

Definition UINT32_MAX : Z := 2 ^ 32 - 1.

Inductive pa_op := PaInit | PaSet (k : nat) (idx : Z) (v : option V) | PaClear (k : nat).

Definition pa_step (o : pa_op) h pas : option (@pa_heap V * list (list positive)) :=
  match o with
  | PaInit => let '(h, pa) := port_array_init h in Some (h, pas ++ [pa])
  | PaSet k idx v => pa ← pas !! k; '(h, pa) ← port_array_set h pa idx v; Some (h, <[k := pa]> pas)
  | PaClear k => pa ← pas !! k; '(h, pa) ← port_array_clear h pa; Some (h, <[k := pa]> pas)
  end.
Fixpoint pa_run (ops : list pa_op) h pas : option (@pa_heap V * list (list positive)) :=
  match ops with [] => Some (h, pas) | o :: ops => '(h, pas) ← pa_step o h pas; pa_run ops h pas end.

(** The specification: finite maps.  An operation names an array that there is, and an index below 65536. *)
Definition map_step (o : pa_op) (ms : list (gmap Z V)) : option (list (gmap Z V)) :=
  match o with
  | PaInit => Some (ms ++ [∅])
  | PaSet k idx v => m ← ms !! k; if (0 <=? idx) && (idx <? PORT_ARRAY_SIZE) then Some (<[k := partial_alter (λ _, v) idx m]> ms) else None
  | PaClear k => _ ← ms !! k; Some (<[k := ∅]> ms)
  end.
Fixpoint map_run (ops : list pa_op) (ms : list (gmap Z V)) : option (list (gmap Z V)) :=
  match ops with [] => Some ms | o :: ops => ms ← map_step o ms; map_run ops ms end.

Definition implements h pas (ms : list (gmap Z V)) : Prop :=
  pa_ok h pas ∧ length pas = length ms ∧
  ∀ k m idx, ms !! k = Some m → 0 <= idx < PORT_ARRAY_SIZE → val h pas k (L1 idx) (L2 idx) (L3 idx) = Some (m !! idx).

(** The element with the least index from [idx] on; or none, and 65536. *)
Definition least (m : gmap Z V) (idx : Z) (r : option V * Z) : Prop :=
  match r.1 with
  | Some v => idx <= r.2 < PORT_ARRAY_SIZE ∧ m !! r.2 = Some v ∧ ∀ y, idx <= y < r.2 → m !! y = None
  | None => r.2 = PORT_ARRAY_SIZE ∧ ∀ y, idx <= y < PORT_ARRAY_SIZE → m !! y = None
  end.

Lemma at1_app pas pa k i : at1 (pas ++ [pa]) k i = if decide (k = length pas) then pa !! i else at1 pas k i.
Proof.
  unfold at1. destruct (decide (k = length pas)) as [->|]; [by rewrite list_lookup_middle|]. destruct (decide (k < length pas)%nat).
  - by rewrite lookup_app_l.
  - rewrite !lookup_ge_None_2 by (rewrite ?length_app; cbn [length]; lia). done.
Qed.

Lemma at1_new pas i p : at1 (pas ++ [replicate PORT_ARRAY_L1_SIZE l2_sentinel]) (length pas) i = Some p → p = l2_sentinel.
Proof. rewrite at1_app, decide_True by done. by intros [-> _]%lookup_replicate. Qed.

(** Another array costs no block. *)
Lemma another_ok h pas : pa_ok h pas → pa_ok h (pas ++ [replicate PORT_ARRAY_L1_SIZE l2_sentinel]).
Proof.
  intros H. split; try apply H.
  - intros k pa E. apply lookup_app_Some in E as [E|[_ E]]; [by eapply H|]. apply list_lookup_singleton_Some in E as [_ <-]. apply length_replicate.
  - intros k i p E. destruct (decide (k = length pas)) as [->|Hk]; [apply at1_new in E as ->; rewrite (po_l2_sentinel _ _ H); by eexists|].
    rewrite at1_app, decide_False in E by done. by eapply H.
  - intros k i k' i' p Hp A B. destruct (decide (k = length pas)) as [->|Hk]; [by apply at1_new in A|]. destruct (decide (k' = length pas)) as [->|Hk']; [by apply at1_new in B|].
    rewrite at1_app, decide_False in A by done. rewrite at1_app, decide_False in B by done. by eapply H.
  - intros p Hp Hs. destruct (po_used_l2 _ _ H p Hp Hs) as (k & i & E). exists k, i. rewrite at1_app, decide_False; [done|]. intros ->. unfold at1 in E. by rewrite lookup_ge_None_2 in E.
Qed.

Lemma init_implements h pas ms : implements h pas ms → implements h (pas ++ [replicate PORT_ARRAY_L1_SIZE l2_sentinel]) (ms ++ [∅]).
Proof.
  intros (H & Hl & Hv). split; [by apply another_ok|]. split; [by rewrite !length_app, Hl|]. intros k m idx E Hi. destruct (index_bounds idx) as (B1 & B2 & B3).
  destruct (decide (k = length pas)) as [->|Hk].
  - rewrite Hl, list_lookup_middle in E by done. apply (inj Some) in E as <-. rewrite lookup_empty. eapply val_empty; [by apply another_ok|rewrite at1_app, decide_True by done; by apply lookup_replicate_2|done|done].
  - apply lookup_app_Some in E as [E|[Hk' E]]; [|apply list_lookup_singleton_Some in E; lia]. rewrite <- (Hv k m idx E Hi). unfold val. by rewrite at1_app, decide_False.
Qed.

Lemma set_implements h pas ms k pa m idx v : implements h pas ms → pas !! k = Some pa → ms !! k = Some m → 0 <= idx < PORT_ARRAY_SIZE →
  ∃ h' pa', port_array_set h pa idx v = Some (h', pa') ∧ implements h' (<[k := pa']> pas) (<[k := partial_alter (λ _, v) idx m]> ms).
Proof.
  intros (H & Hl & Hv) Hk Hm Hi. destruct (set_ok h pas k pa idx v H Hk) as (h' & pa' & E & H' & V'). exists h', pa'. split; [done|]. split; [done|]. split; [by rewrite !length_insert|].
  intros k' m' idx' E' Hi'. rewrite V'. apply list_lookup_insert_Some in E' as [(-> & <- & _)|[Hkk E']].
  - destruct (decide (idx' = idx)) as [->|Hne]; [by rewrite decide_True, lookup_partial_alter_eq|]. rewrite lookup_partial_alter_ne by done.
    rewrite decide_False; [by apply Hv|]. intros (_ & E1 & E2 & E3). destruct (index_num idx Hi) as [Ea _], (index_num idx' Hi') as [Eb _]. congruence.
  - rewrite decide_False by naive_solver. by apply Hv.
Qed.

Lemma clear_implements h pas ms k pa : implements h pas ms → pas !! k = Some pa →
  ∃ h', port_array_clear h pa = Some (h', replicate PORT_ARRAY_L1_SIZE l2_sentinel) ∧ implements h' (<[k := replicate PORT_ARRAY_L1_SIZE l2_sentinel]> pas) (<[k := ∅]> ms).
Proof.
  intros (H & Hl & Hv) Hk. pose proof (lookup_lt_Some _ _ _ Hk) as Hlt.
  destruct (destroy_loop pas k pa Hlt 0 h) as (h' & E & H' & V'); [cbn [replicate app]; by rewrite list_insert_id|]. rewrite (po_arrays _ _ H k pa Hk) in H', V'. cbn [Nat.add] in H', V'.
  exists h'. unfold port_array_clear. rewrite E; cbn [mbind option_bind]. unfold port_array_init. rewrite (po_inited _ _ H'). split; [done|]. split; [done|]. split; [by rewrite !length_insert|].
  intros k' m idx E' Hi. destruct (index_bounds idx) as (B1 & B2 & B3). apply list_lookup_insert_Some in E' as [(-> & <- & _)|[Hkk E']].
  - rewrite lookup_empty. eapply val_empty; [done|rewrite at1_insert, decide_True by done; by apply lookup_replicate_2|done|done].
  - rewrite V' by done. cbn [replicate app]. rewrite list_insert_id by done. by apply Hv.
Qed.

Lemma step_implements o h pas ms ms' : implements h pas ms → map_step o ms = Some ms' → ∃ h' pas', pa_step o h pas = Some (h', pas') ∧ implements h' pas' ms'.
Proof.
  intros H E. assert (∀ k m, ms !! k = Some m → ∃ pa, pas !! k = Some pa) as Hpa.
  { intros k m Hm. apply lookup_lt_is_Some_2. destruct H as (_ & -> & _). by eapply lookup_lt_Some. }
  destruct o as [|k idx v|k]; cbn [pa_step map_step] in *.
  - unfold port_array_init. rewrite (po_inited _ _ (proj1 H)). apply (inj Some) in E as <-. eexists _, _. split; [done|]. by apply init_implements.
  - destruct (ms !! k) as [m|] eqn:Em; [|done]. cbn [mbind option_bind] in E. destruct (_ && _) eqn:Eb; [|done]. apply (inj Some) in E as <-. destruct (Hpa k m Em) as [pa Ep]. rewrite Ep; cbn [mbind option_bind].
    destruct (set_implements h pas ms k pa m idx v H Ep Em) as (h' & pa' & -> & H'); [lia|]. by exists h', (<[k := pa']> pas).
  - destruct (ms !! k) as [m|] eqn:Em; [|done]. apply (inj Some) in E as <-. destruct (Hpa k m Em) as [pa Ep]. rewrite Ep; cbn [mbind option_bind].
    destruct (clear_implements h pas ms k pa H Ep) as (h' & -> & H'). by eexists _, _.
Qed.

Lemma run_implements ops h pas ms ms' : implements h pas ms → map_run ops ms = Some ms' → ∃ h' pas', pa_run ops h pas = Some (h', pas') ∧ implements h' pas' ms'.
Proof.
  revert h pas ms. induction ops as [|o ops IH]; intros h pas ms H E; cbn [pa_run map_run] in *; [apply (inj Some) in E as <-; by exists h, pas|].
  destruct (map_step o ms) as [ms1|] eqn:E1; [|done]. destruct (step_implements o h pas ms ms1 H E1) as (h1 & pas1 & -> & H1). cbn [mbind option_bind] in *. by eapply IH.
Qed.

Lemma first_implements : ∃ h pas, pa_step PaInit pa_start [] = Some (h, pas) ∧ implements h pas [∅].
Proof.
  eexists _, _. split; [reflexivity|]. apply (init_implements _ [] []). split; [|split; [done|done]]. split; cbn [pa_start ph_l2 ph_l3 ph_inited]; try done.
  - intros p b j E. apply lookup_insert_Some in E as [[<- <-]|[Hp E]]; [|by apply lookup_singleton_Some in E as [<- _]]. rewrite length_replicate. split; [done|]. intros Hj. exists l3_sentinel.
    unfold at2. cbn [ph_l2]. rewrite lookup_insert_eq. cbn [mbind option_bind]. rewrite lookup_replicate_2 by done. by rewrite lookup_singleton_eq.
  - intros q c E. apply lookup_singleton_Some in E as [_ <-]. by rewrite length_replicate.
  - intros p j p' j' q Hq A _. unfold at2 in A. cbn [ph_l2] in A. destruct (decide (p = l2_sentinel)) as [->|]; [|by rewrite lookup_insert_ne, lookup_singleton_ne in A].
    rewrite lookup_insert_eq in A. cbn [mbind option_bind] in A. destruct (replicate PORT_ARRAY_L2_SIZE (Some l3_sentinel) !! j) eqn:Ej; [|done].
    apply lookup_replicate in Ej as [-> _]. cbn in A. congruence.
  - intros p Hp Hs. rewrite lookup_insert_ne, lookup_singleton_ne in Hs by done. by destruct Hs.
  - intros q Hq Hs. rewrite lookup_singleton_ne in Hs by done. by destruct Hs.
Qed.

Lemma next_least h pas ms k pa m idx : implements h pas ms → pas !! k = Some pa → ms !! k = Some m → 0 <= idx < 2 ^ 32 → ∃ r, next h pa idx = Some r ∧ least m idx r.
Proof.
  intros (H & Hl & Hv) Hk Hm Hi. unfold next. destruct (Z.ltb_spec idx PORT_ARRAY_SIZE) as [Hs|Hs].
  - destruct (index_num idx ltac:(lia)) as [En E1]. rewrite <- E1. destruct (index_bounds idx) as (B1 & B2 & B3).
    destruct (next_l1_ok h pas H k pa (PORT_ARRAY_L1_SIZE - L1 idx) (L1 idx) (L2 idx) (L3 idx) Hk) as (o & x & E & Ho); [lia|done|done|]. exists (o, x). split; [done|]. unfold least. cbn [fst snd].
    assert (∀ y, idx <= y < PORT_ARRAY_SIZE → (num (L1 idx) (L2 idx) (L3 idx) <= num (L1 y) (L2 y) (L3 y))%nat) as Hmono by (intros y Hy; destruct (index_num y) as [Ey _]; [lia|]; rewrite En, Ey in Hy at 1; lia).
    destruct o as [v|].
    + destruct Ho as (i' & j' & k' & -> & Hi' & Hj' & Hk' & Hle & Hval & Hx). assert (0 <= Z.of_nat (num i' j' k') < PORT_ARRAY_SIZE) as Hr.
      { unfold num, PORT_ARRAY_L1_SIZE, PORT_ARRAY_L2_SIZE, PORT_ARRAY_L3_SIZE, PORT_ARRAY_SIZE in *. lia. }
      destruct (index_num _ Hr) as [Er _]. apply Nat2Z.inj in Er. destruct (index_bounds (Z.of_nat (num i' j' k'))) as (C1 & C2 & C3).
      apply num_inj in Er as (Ei & Ej & Ek); [|done..]. split; [lia|]. split.
      * apply (inj Some). by rewrite <- (Hv k m _ Hm Hr), <- Ei, <- Ej, <- Ek.
      * intros y Hy. destruct (index_bounds y) as (D1 & D2 & D3). apply (inj Some). rewrite <- (Hv k m y Hm) by lia. apply Hx; [done|done|]. split; [apply Hmono; lia|].
        destruct (index_num y) as [Ey _]; [lia|]. lia.
    + destruct Ho as [-> Hx]. split; [done|]. intros y Hy. destruct (index_bounds y) as (D1 & D2 & D3). apply (inj Some). rewrite <- (Hv k m y Hm) by lia. by apply Hx, Hmono.
  - assert (PORT_ARRAY_L1_SIZE - Z.to_nat (Z.shiftr idx 11) = 0)%nat as ->.
    { rewrite Z.shiftr_div_pow2 by lia. unfold PORT_ARRAY_L1_SIZE, PORT_ARRAY_SIZE in *. change (2 ^ 11) with 2048. Z.div_mod_to_equations. lia. }
    exists (None, PORT_ARRAY_SIZE). split; [done|]. split; [done|]. cbn [snd]. lia.
Qed.

(** C35: sparse arrays are finite maps.  Any number of arrays, which share their empty blocks, behave like as many finite maps
    under any operations: none follows a bad pointer or frees a block twice, an array is changed by its own operations only, every
    lookup gives what the map holds, and [port_array_first] and [port_array_next] give the element of the least index (after the
    given one), or none and 65536.  No block is shared or lost ([pa_ok]). *)
Theorem port_array_refines (ops : list pa_op) (ms : list (gmap Z V)) (Hops : map_run (PaInit :: ops) [] = Some ms) :
  ∃ h pas, pa_run (PaInit :: ops) pa_start [] = Some (h, pas) ∧ pa_ok h pas ∧ length pas = length ms ∧
    ∀ k pa m, pas !! k = Some pa → ms !! k = Some m →
      (∀ idx, 0 <= idx < PORT_ARRAY_SIZE → port_array_get h pa idx = Some (m !! idx)) ∧
      (∃ r, port_array_first h pa = Some r ∧ least m 0 r) ∧
      (∀ idx, 0 <= idx < UINT32_MAX → ∃ r, port_array_next h pa idx = Some r ∧ least m (idx + 1) r).
Proof.
  destruct first_implements as (h0 & pas0 & E0 & H0). destruct (run_implements ops h0 pas0 [∅] ms H0 Hops) as (h & pas & E & H).
  exists h, pas. cbn [pa_run]. rewrite E0; cbn [mbind option_bind]. split; [exact E|]. split; [apply H|]. split; [apply H|]. intros k pa m Hk Hm. split_and!.
  - intros idx Hi. rewrite (get_val h pas k) by (done || apply H). by apply H.
  - by eapply next_least.
  - intros idx Hi. unfold port_array_next, UINT32_MAX in *. unfold u32, wrap. rewrite Z.mod_small by lia. eapply next_least; [done..|lia].
Qed.
End correct.

(** * Examples *)

(** Two arrays; the first one is used and cleared, and then used again. *)
Definition ex_pa_ops : list (@pa_op Z) :=
  [PaInit; PaSet 0 5 (Some 50); PaSet 1 5 (Some 51); PaSet 1 65535 (Some 52); PaSet 1 2048 (Some 53); PaSet 1 5 None; PaClear 0; PaSet 0 64 (Some 54)].

Lemma port_array_refines_witness :
  ∃ h pa0 pa1, pa_run (PaInit :: ex_pa_ops) pa_start [] = Some (h, [pa0; pa1]) ∧ pa_ok h [pa0; pa1] ∧
    port_array_first h pa0 = Some (Some 54, 64) ∧ port_array_next h pa0 64 = Some (None, 65536) ∧
    port_array_first h pa1 = Some (Some 53, 2048) ∧ port_array_next h pa1 2048 = Some (Some 52, 65535).
Proof.
  destruct (map_run (PaInit :: ex_pa_ops) []) as [ms|] eqn:Em; [|by vm_compute in Em].
  destruct (port_array_refines ex_pa_ops ms Em) as (h & pas & E & Hok & _).
  vm_compute in E. injection E as <- <-. eexists _, _, _. split; [vm_compute; reflexivity|]. split; [exact Hok|]. by repeat split.
Defined.
