(* ===== verification/OpenFlow.v ===== *)
(** OpenFlow data as the switch keeps it in memory: the OXM TLVs of a match
    (oflib/ofl-structs.h, oflib/ofl-structs-match.c, oflib/oxm-match.c), the
    actions and instructions of a flow entry (oflib/ofl-actions.h,
    oflib/ofl-structs.h), the protocol constants the datapath tests for
    (include/openflow/openflow.h) and the error codes its handlers return.

    A match keeps its TLVs in a hash map; here [match_fields] lists them in the
    order HMAP_FOR_EACH visits them.  [match_equiv] relates two matches that
    differ in that order only, and [oxm_match_lookup] respects it. *)

From S2P Require Import Prelude.

(** * OXM headers *)

Definition OXM_HASMASK (header : Z) : bool := truthy (Z.land (Z.shiftr header 8) 1).
Definition OXM_LENGTH (header : Z) : Z := Z.land header 0xff.
Definition OXM_FIELD (header : Z) : Z := Z.land (Z.shiftr header 9) 0x7f.

Definition OXM_HEADER__ (class field hasmask length : Z) : Z :=
  Z.lor (Z.lor (Z.lor (Z.shiftl class 16) (Z.shiftl field 9)) (Z.shiftl hasmask 8)) length.
Definition OXM_HEADER (class field length : Z) : Z := OXM_HEADER__ class field 0 length.
Definition OXM_HEADER_W (class field length : Z) : Z := OXM_HEADER__ class field 1 (length * 2).

Definition OXM_OF_IN_PORT := OXM_HEADER 0x8000 0 4.
Definition OXM_OF_METADATA := OXM_HEADER 0x8000 2 8.
Definition OXM_OF_ETH_DST := OXM_HEADER 0x8000 3 6.
Definition OXM_OF_ETH_SRC := OXM_HEADER 0x8000 4 6.
Definition OXM_OF_ETH_TYPE := OXM_HEADER 0x8000 5 2.
Definition OXM_OF_VLAN_VID := OXM_HEADER 0x8000 6 2.
Definition OXM_OF_IP_PROTO := OXM_HEADER 0x8000 10 1.
Definition OXM_OF_IPV4_SRC := OXM_HEADER 0x8000 11 4.
Definition OXM_OF_IPV4_SRC_W := OXM_HEADER_W 0x8000 11 4.
Definition OXM_OF_IPV4_DST := OXM_HEADER 0x8000 12 4.
Definition OXM_OF_IPV4_DST_W := OXM_HEADER_W 0x8000 12 4.
Definition OXM_OF_TUNNEL_ID := OXM_HEADER 0x8000 38 8.
Definition OXM_OF_IPV6_EXTHDR := OXM_HEADER 0x8000 39 2.

Definition OXM_OF_VLAN_PCP := OXM_HEADER 0x8000 7 1.
Definition OXM_OF_IP_DSCP := OXM_HEADER 0x8000 8 1.
Definition OXM_OF_IP_ECN := OXM_HEADER 0x8000 9 1.
Definition OXM_OF_TCP_SRC := OXM_HEADER 0x8000 13 2.
Definition OXM_OF_TCP_DST := OXM_HEADER 0x8000 14 2.
Definition OXM_OF_UDP_SRC := OXM_HEADER 0x8000 15 2.
Definition OXM_OF_UDP_DST := OXM_HEADER 0x8000 16 2.
Definition OXM_OF_SCTP_SRC := OXM_HEADER 0x8000 17 2.
Definition OXM_OF_SCTP_DST := OXM_HEADER 0x8000 18 2.
Definition OXM_OF_ICMPV4_TYPE := OXM_HEADER 0x8000 19 1.
Definition OXM_OF_ICMPV4_CODE := OXM_HEADER 0x8000 20 1.
Definition OXM_OF_ARP_OP := OXM_HEADER 0x8000 21 2.
Definition OXM_OF_ARP_SPA := OXM_HEADER 0x8000 22 4.
Definition OXM_OF_ARP_TPA := OXM_HEADER 0x8000 23 4.
Definition OXM_OF_ARP_SHA := OXM_HEADER 0x8000 24 6.
Definition OXM_OF_ARP_THA := OXM_HEADER 0x8000 25 6.
Definition OXM_OF_IPV6_SRC := OXM_HEADER 0x8000 26 16.
Definition OXM_OF_IPV6_DST := OXM_HEADER 0x8000 27 16.
Definition OXM_OF_IPV6_FLABEL := OXM_HEADER 0x8000 28 4.
Definition OXM_OF_ICMPV6_TYPE := OXM_HEADER 0x8000 29 1.
Definition OXM_OF_ICMPV6_CODE := OXM_HEADER 0x8000 30 1.
Definition OXM_OF_IPV6_ND_TARGET := OXM_HEADER 0x8000 31 16.
Definition OXM_OF_IPV6_ND_SLL := OXM_HEADER 0x8000 32 6.
Definition OXM_OF_IPV6_ND_TLL := OXM_HEADER 0x8000 33 6.
Definition OXM_OF_MPLS_LABEL := OXM_HEADER 0x8000 34 4.
Definition OXM_OF_MPLS_TC := OXM_HEADER 0x8000 35 1.
Definition OXM_OF_MPLS_BOS := OXM_HEADER 0x8000 36 1.
Definition OXM_OF_PBB_ISID := OXM_HEADER 0x8000 37 3.
Definition OXM_OF_PATH_OP := OXM_HEADER 0x8000 40 1.
Definition OXM_OF_PATH_MAC_DST := OXM_HEADER 0x8000 41 6.
Definition OXM_OF_PATH_TCP_SRC := OXM_HEADER 0x8000 43 2.
Definition OXM_OF_PATH_TCP_DST := OXM_HEADER 0x8000 44 2.
Definition OXM_OF_ARPPATH_OP := OXM_HEADER 0x8000 45 2.
Definition OXM_OF_ARPPATH_SPA := OXM_HEADER 0x8000 46 4.
Definition OXM_OF_ARPPATH_TPA := OXM_HEADER 0x8000 47 4.
Definition OXM_OF_ARPPATH_SHA := OXM_HEADER 0x8000 48 6.
Definition OXM_OF_ARPPATH_THA := OXM_HEADER 0x8000 49 6.
Definition OXM_OF_ARPPATH_SW1 := OXM_HEADER 0x8000 50 4.
Definition OXM_OF_ARPPATH_SW2 := OXM_HEADER 0x8000 51 4.
Definition OXM_OF_ARPPATH_SW3 := OXM_HEADER 0x8000 52 4.
Definition OXM_OF_ARPPATH_SW4 := OXM_HEADER 0x8000 53 4.
Definition OXM_OF_ARPPATH_SW5 := OXM_HEADER 0x8000 54 4.
Definition OXM_OF_ARPPATH_SW6 := OXM_HEADER 0x8000 55 4.
Definition OXM_OF_ARPPATH_SW7 := OXM_HEADER 0x8000 56 4.
Definition OXM_OF_ARPPATH_SW8 := OXM_HEADER 0x8000 57 4.
Definition OXM_OF_ARPPATH_SW9 := OXM_HEADER 0x8000 58 4.
Definition OXM_OF_ARPPATH_SW10 := OXM_HEADER 0x8000 59 4.
Definition OXM_OF_ARP_REP_OP := OXM_HEADER 0x8000 60 2.
Definition OXM_OF_ARP_REP_SCR := OXM_HEADER 0x8000 61 6.
Definition OXM_OF_ARP_REP_DST := OXM_HEADER 0x8000 62 6.
Definition OXM_OF_PATH_ID_SWITCH := OXM_HEADER 0x8000 63 2.
Definition OXM_OF_PATH_SECUENCE := OXM_HEADER 0x8000 64 4.
Definition OXM_OF_PATH_SALTOS := OXM_HEADER 0x8000 65 1.

Definition OFPXMT_OFB_IPV4_SRC := 11.
Definition OFPXMT_OFB_IPV4_DST := 12.
Definition OFPXMT_OFB_ARP_SPA := 22.
Definition OFPXMT_OFB_ARP_TPA := 23.

Definition OFPVID_PRESENT := 0x1000.
Definition OFPVID_NONE := 0x0000.
Definition VLAN_VID_MASK := 0x0fff.

(** * Matches *)

Record ofl_match_tlv := Tlv { tlv_header : Z; tlv_value : list Z }.

#[global] Instance ofl_match_tlv_eq : EqDecision ofl_match_tlv.
Proof. solve_decision. Defined.

(** [length] is [header.length]: the wire length of the TLVs. *)
Record ofl_match := Match { match_length : Z; match_fields : list ofl_match_tlv }.

#[global] Instance ofl_match_eq : EqDecision ofl_match.
Proof. solve_decision. Defined.

Definition ofl_structs_match_init : ofl_match := Match 0 [].

(** The common tail of every [ofl_structs_match_put*]: link a new TLV and add
    [added] (the bytes of the value, four for the header) to the 16-bit length. *)
Definition match_put (m : ofl_match) (header : Z) (value : list Z) : ofl_match :=
  Match (u16 (match_length m + (Z.of_nat (length value) + 4)))
        (Tlv header value :: match_fields m).

Definition ofl_structs_match_put8 m header value := match_put m header (le_bytes 1 value).
Definition ofl_structs_match_put8m m header value mask :=
  match_put m header (le_bytes 1 value ++ le_bytes 1 mask).
Definition ofl_structs_match_put16 m header value := match_put m header (le_bytes 2 value).
Definition ofl_structs_match_put16m m header value mask :=
  match_put m header (le_bytes 2 value ++ le_bytes 2 mask).
Definition ofl_structs_match_put32 m header value := match_put m header (le_bytes 4 value).
Definition ofl_structs_match_put32m m header value mask :=
  match_put m header (le_bytes 4 value ++ le_bytes 4 mask).
Definition ofl_structs_match_put64 m header value := match_put m header (le_bytes 8 value).
Definition ofl_structs_match_put64m m header value mask :=
  match_put m header (le_bytes 8 value ++ le_bytes 8 mask).
(** The caller passes pointers into the message; [OXM_LENGTH header] bytes are
    copied from each. *)
Definition ofl_structs_match_put_pbb_isid m header (value : list Z) :=
  match_put m header (take (Z.to_nat (OXM_LENGTH header)) value).
Definition ofl_structs_match_put_pbb_isidm m header (value mask : list Z) :=
  match_put m header (take (Z.to_nat (OXM_LENGTH header)) value ++
                      take (Z.to_nat (OXM_LENGTH header)) mask).
Definition ofl_structs_match_put_eth m header (value : list Z) := match_put m header (take 6 value).
Definition ofl_structs_match_put_eth_m m header (value mask : list Z) :=
  match_put m header (take 6 value ++ take 6 mask).
Definition ofl_structs_match_put_ipv6 m header (value : list Z) := match_put m header (take 16 value).
Definition ofl_structs_match_put_ipv6m m header (value mask : list Z) :=
  match_put m header (take 16 value ++ take 16 mask).

Definition oxm_match_lookup (header : Z) (omt : ofl_match) : option ofl_match_tlv :=
  snd <$> list_find (λ f, tlv_header f = header) (match_fields omt).

(** A TLV as the unpacking code builds it: as many value bytes as the header
    says, an even number when there is a mask. *)
Definition tlv_wf (f : ofl_match_tlv) : Prop :=
  fits 32 (tlv_header f) ∧ bytes (tlv_value f) ∧
  Z.of_nat (length (tlv_value f)) = OXM_LENGTH (tlv_header f) ∧
  (OXM_HASMASK (tlv_header f) = true → OXM_LENGTH (tlv_header f) mod 2 = 0).

Definition tlv_size (f : ofl_match_tlv) : Z := OXM_LENGTH (tlv_header f) + 4.

(** A well-formed match: distinct headers, well-formed TLVs and the length that
    belongs to them. *)
Record match_wf (m : ofl_match) : Prop := {
  match_wf_nodup : NoDup (tlv_header <$> match_fields m);
  match_wf_tlv : Forall tlv_wf (match_fields m);
  match_wf_length : match_length m = zsum (tlv_size <$> match_fields m) }.

#[global] Instance tlv_wf_dec f : Decision (tlv_wf f).
Proof. unfold tlv_wf, bytes. apply _. Defined.

#[global] Instance match_wf_dec m : Decision (match_wf m).
Proof.
  destruct (decide (NoDup (tlv_header <$> match_fields m) ∧ Forall tlv_wf (match_fields m) ∧
                    match_length m = zsum (tlv_size <$> match_fields m))) as [(?&?&?)|Hn].
  - by left.
  - right. intros [? ? ?]. by apply Hn.
Defined.

(** Two matches that differ in the order of their hash map only. *)
Definition match_equiv (a b : ofl_match) : Prop :=
  match_length a = match_length b ∧ match_fields a ≡ₚ match_fields b ∧
  NoDup (tlv_header <$> match_fields a).

(** * Ports, groups, meters *)

Definition OFPP_MAX := 0xffffff00.
Definition OFPP_RANDOM := 0xfffffff7.
Definition OFPP_IN_PORT := 0xfffffff8.
Definition OFPP_TABLE := 0xfffffff9.
Definition OFPP_NORMAL := 0xfffffffa.
Definition OFPP_FLOOD := 0xfffffffb.
Definition OFPP_ALL := 0xfffffffc.
Definition OFPP_CONTROLLER := 0xfffffffd.
Definition OFPP_LOCAL := 0xfffffffe.
Definition OFPP_ANY := 0xffffffff.
Definition OFPG_MAX := 0xffffff00.
Definition OFPG_ALL := 0xfffffffc.
Definition OFPG_ANY := 0xffffffff.
Definition OFPM_ALL := 0xffffffff.

(** * Actions and instructions *)

Inductive ofl_action :=
| ActOutput (port max_len : Z)
| ActCopyTtlOut
| ActCopyTtlIn
| ActSetMplsTtl (mpls_ttl : Z)
| ActDecMplsTtl
| ActPushVlan (ethertype : Z)
| ActPopVlan
| ActPushMpls (ethertype : Z)
| ActPopMpls (ethertype : Z)
| ActSetQueue (queue_id : Z)
| ActGroup (group_id : Z)
| ActSetNwTtl (nw_ttl : Z)
| ActDecNwTtl
| ActSetField (field : ofl_match_tlv)
| ActPushPbb (ethertype : Z)
| ActPopPbb
| ActExperimenter (experimenter_id : Z).

#[global] Instance ofl_action_eq : EqDecision ofl_action.
Proof. solve_decision. Defined.

Definition act_type (a : ofl_action) : Z :=
  match a with
  | ActOutput _ _ => 0
  | ActCopyTtlOut => 11
  | ActCopyTtlIn => 12
  | ActSetMplsTtl _ => 15
  | ActDecMplsTtl => 16
  | ActPushVlan _ => 17
  | ActPopVlan => 18
  | ActPushMpls _ => 19
  | ActPopMpls _ => 20
  | ActSetQueue _ => 21
  | ActGroup _ => 22
  | ActSetNwTtl _ => 23
  | ActDecNwTtl => 24
  | ActSetField _ => 25
  | ActPushPbb _ => 26
  | ActPopPbb => 27
  | ActExperimenter _ => 0xffff
  end.

Inductive ofl_instruction :=
| InstGotoTable (table_id : Z)
| InstWriteMetadata (metadata metadata_mask : Z)
| InstWriteActions (actions : list ofl_action)
| InstApplyActions (actions : list ofl_action)
| InstClearActions
| InstMeter (meter_id : Z)
| InstExperimenter (experimenter_id : Z).

#[global] Instance ofl_instruction_eq : EqDecision ofl_instruction.
Proof. solve_decision. Defined.

Definition inst_type (i : ofl_instruction) : Z :=
  match i with
  | InstGotoTable _ => 1
  | InstWriteMetadata _ _ => 2
  | InstWriteActions _ => 3
  | InstApplyActions _ => 4
  | InstClearActions => 5
  | InstMeter _ => 6
  | InstExperimenter _ => 0xffff
  end.

(** * Errors *)

(** [ofl_error type code]: the encoded error a handler returns; success is 0. *)
Definition ofl_error (type code : Z) : Z :=
  Z.lor (Z.lor 0x80000000 (Z.shiftl type 16)) code.

Definition OFPET_BAD_REQUEST := 1.
Definition OFPET_BAD_ACTION := 2.
Definition OFPET_BAD_MATCH := 4.
Definition OFPET_FLOW_MOD_FAILED := 5.
Definition OFPET_GROUP_MOD_FAILED := 6.
Definition OFPET_ROLE_REQUEST_FAILED := 11.
Definition OFPET_METER_MOD_FAILED := 12.

(** ** Lemmas *)

Lemma lookup_some header m f :
  oxm_match_lookup header m = Some f → f ∈ match_fields m ∧ tlv_header f = header.
Proof.
  unfold oxm_match_lookup. intros H.
  apply fmap_Some in H as ([i g] & Hg & ->). simpl.
  apply list_find_Some in Hg as (Hi & Hh & _).
  split; [by eapply list_elem_of_lookup_2|done].
Qed.

Lemma lookup_none header m :
  oxm_match_lookup header m = None ↔ header ∉ (tlv_header <$> match_fields m).
Proof.
  unfold oxm_match_lookup. rewrite fmap_None, list_find_None, list.Forall_forall.
  rewrite list_elem_of_fmap. split.
  - intros H (f & -> & Hf). exact (H f Hf eq_refl).
  - intros H f Hf Hh. apply H. by exists f.
Qed.

Lemma nodup_header_inj l f g :
  NoDup (tlv_header <$> l) → f ∈ l → g ∈ l → tlv_header f = tlv_header g → f = g.
Proof.
  intros Hnd [i Hi]%list_elem_of_lookup [j Hj]%list_elem_of_lookup Hh.
  assert (i = j) as ->; [|congruence].
  eapply (NoDup_lookup _ _ _ (tlv_header f) Hnd); rewrite list_lookup_fmap.
  - by rewrite Hi.
  - rewrite Hj. simpl. congruence.
Qed.

(** With distinct headers a lookup finds a TLV exactly when the match has it. *)
Lemma lookup_iff header m f :
  NoDup (tlv_header <$> match_fields m) →
  oxm_match_lookup header m = Some f ↔ f ∈ match_fields m ∧ tlv_header f = header.
Proof.
  intros Hnd. split; [apply lookup_some|]. intros [Hf Hh].
  destruct (oxm_match_lookup header m) as [g|] eqn:E.
  - apply lookup_some in E as [Hg Hhg]. f_equal.
    eapply nodup_header_inj; [done..|congruence].
  - apply lookup_none in E. destruct E. rewrite <- Hh. by apply list_elem_of_fmap_2.
Qed.

#[export] Instance oxm_match_lookup_proper h : Proper (match_equiv ==> eq) (oxm_match_lookup h).
Proof.
  intros a b (_ & Hp & Hnd). apply option_eq. intros f.
  rewrite !lookup_iff by (done || by rewrite <- Hp). by rewrite Hp.
Qed.

#[export] Instance match_equiv_sym : Symmetric match_equiv.
Proof. intros a b (? & Hp & Hnd). split_and!; [done|done|by rewrite <- Hp]. Qed.

#[export] Instance match_equiv_trans : Transitive match_equiv.
Proof. intros a b c (? & Hp & Hnd) (? & Hq & _). split_and!; [congruence|by rewrite Hp|done]. Qed.
