(* ===== verification/MatchStd.v ===== *)
(** Flow matching: udatapath/match_std.c.

    [packet_match] decides whether a flow entry's match accepts a packet's
    fields; [match_std_strict], [match_std_nonstrict] and [match_std_overlap]
    compare two flow matches for the flow_mod commands.  Values are byte
    arrays; a 24-, 48- or 128-bit comparison is two word comparisons, as in the
    source.  [field_ok] is the reference definition of a matching field, byte by
    byte; the word-wise code is shown equal to it. *)

From S2P Require Import Prelude OpenFlow.

(** * Word comparisons *)

Definition match_8 (a b : list Z) : bool := rd8 a =? rd8 b.
Definition match_mask8 (a am b : list Z) : bool := Z.land (rd8 am) (Z.lxor (rd8 a) (rd8 b)) =? 0.
Definition match_16 (a b : list Z) : bool := rd16 a =? rd16 b.
Definition match_mask16 (a am b : list Z) : bool := Z.land (rd16 am) (Z.lxor (rd16 a) (rd16 b)) =? 0.
Definition match_24 (a b : list Z) : bool := match_16 a b && match_8 (drop 2 a) (drop 2 b).
Definition match_mask24 (a am b : list Z) : bool :=
  match_mask16 a am b && match_mask8 (drop 2 a) (drop 2 am) (drop 2 b).
Definition match_32 (a b : list Z) : bool := rd32 a =? rd32 b.
Definition match_mask32 (a am b : list Z) : bool := Z.land (rd32 am) (Z.lxor (rd32 a) (rd32 b)) =? 0.
Definition match_48 (a b : list Z) : bool := match_32 a b && match_16 (drop 4 a) (drop 4 b).
Definition match_mask48 (a am b : list Z) : bool :=
  match_mask32 a am b && match_mask16 (drop 4 a) (drop 4 am) (drop 4 b).
Definition match_64 (a b : list Z) : bool := rd64 a =? rd64 b.
Definition match_mask64 (a am b : list Z) : bool := Z.land (rd64 am) (Z.lxor (rd64 a) (rd64 b)) =? 0.
Definition match_128 (a b : list Z) : bool := match_64 a b && match_64 (drop 8 a) (drop 8 b).
Definition match_mask128 (a am b : list Z) : bool :=
  match_mask64 a am b && match_mask64 (drop 8 a) (drop 8 am) (drop 8 b).

(** * Matching a packet *)

Definition val_len (f : ofl_match_tlv) : Z :=
  if OXM_HASMASK (tlv_header f) then OXM_LENGTH (tlv_header f) / 2 else OXM_LENGTH (tlv_header f).

Definition flow_mask (f : ofl_match_tlv) : list Z := drop (Z.to_nat (val_len f)) (tlv_value f).

(** The header under which the packet carries the field: no mask bit, half the
    length. *)
Definition packet_header (f : ofl_match_tlv) : Z :=
  if OXM_HASMASK (tlv_header f)
  then Z.lor (Z.land (tlv_header f) 0xfffffe00) (val_len f)
  else tlv_header f.

(** The [case 2] arm, with its VLAN and IPv6 extension header exceptions. *)
Definition packet_match_2 (header : Z) (has_mask : bool) (flow_val flow_mask packet_val : list Z) : bool :=
  if header =? OXM_OF_VLAN_VID then
    let flow_vlan_id := rd16 flow_val in
    if flow_vlan_id =? OFPVID_NONE then false
    else if flow_vlan_id =? OFPVID_PRESENT then true
    else
      let flow_vlan_id := le_bytes 2 (Z.land flow_vlan_id VLAN_VID_MASK) in
      if has_mask then match_mask16 flow_vlan_id flow_mask packet_val
      else match_16 flow_vlan_id packet_val
  else if header =? OXM_OF_IPV6_EXTHDR then
    let flow_eh := rd16 flow_val in
    let packet_eh := rd16 packet_val in
    Z.land flow_eh packet_eh =? flow_eh
  else if has_mask then match_mask16 flow_val flow_mask packet_val
  else match_16 flow_val packet_val.

(** One turn of the loop over the flow entry's fields; [false] is [return false]. *)
Definition packet_match_field (packet : ofl_match) (f : ofl_match_tlv) : bool :=
  let has_mask := OXM_HASMASK (tlv_header f) in
  let field_len := val_len f in
  let flow_val := tlv_value f in
  let flow_mask := flow_mask f in
  match oxm_match_lookup (packet_header f) packet with
  | None => (tlv_header f =? OXM_OF_VLAN_VID) && (rd16 (tlv_value f) =? OFPVID_NONE)
  | Some packet_f =>
    let packet_val := tlv_value packet_f in
    if field_len =? 1 then
      if has_mask then match_mask8 flow_val flow_mask packet_val else match_8 flow_val packet_val
    else if field_len =? 2 then
      packet_match_2 (packet_header f) has_mask flow_val flow_mask packet_val
    else if field_len =? 3 then
      if has_mask then match_mask24 flow_val flow_mask packet_val else match_24 flow_val packet_val
    else if field_len =? 4 then
      if has_mask then match_mask32 flow_val flow_mask packet_val else match_32 flow_val packet_val
    else if field_len =? 6 then
      if has_mask then match_mask48 flow_val flow_mask packet_val else match_48 flow_val packet_val
    else if field_len =? 8 then
      if has_mask then match_mask64 flow_val flow_mask packet_val else match_64 flow_val packet_val
    else if field_len =? 16 then
      if has_mask then match_mask128 flow_val flow_mask packet_val else match_128 flow_val packet_val
    else true
  end.

Definition packet_match (flow_match packet : ofl_match) : bool :=
  if match_length flow_match =? 0 then true
  else forallb (packet_match_field packet) (match_fields flow_match).

(** * Strict comparison *)

(** [((am == bm) && ((a ^ b) & am)) == 0] *)
Definition strict_word (a b am bm : Z) : bool :=
  negb ((am =? bm) && truthy (Z.land (Z.lxor a b) am)).

Definition strict_mask8 (a b am bm : list Z) : bool := strict_word (rd8 a) (rd8 b) (rd8 am) (rd8 bm).
Definition strict_mask16 (a b am bm : list Z) : bool := strict_word (rd16 a) (rd16 b) (rd16 am) (rd16 bm).
Definition strict_mask24 (a b am bm : list Z) : bool :=
  strict_mask16 a b am bm && strict_mask8 (drop 2 a) (drop 2 b) (drop 2 am) (drop 2 bm).
Definition strict_mask32 (a b am bm : list Z) : bool := strict_word (rd32 a) (rd32 b) (rd32 am) (rd32 bm).
Definition strict_mask_ip (a b am bm : list Z) : bool := strict_word (rd32 a) (rd32 b) (rd32 am) (rd32 bm).
Definition strict_mask48 (a b am bm : list Z) : bool :=
  strict_mask32 a b am bm && strict_mask16 (drop 4 a) (drop 4 b) (drop 4 am) (drop 4 bm).
Definition strict_mask64 (a b am bm : list Z) : bool := strict_word (rd64 a) (rd64 b) (rd64 am) (rd64 bm).
Definition strict_mask128 (a b am bm : list Z) : bool :=
  strict_mask64 a b am bm && strict_mask64 (drop 8 a) (drop 8 b) (drop 8 am) (drop 8 bm).

Definition is_ip_field (oxm_field : Z) : bool :=
  (oxm_field =? OFPXMT_OFB_IPV4_SRC) || (oxm_field =? OFPXMT_OFB_IPV4_DST) ||
  (oxm_field =? OFPXMT_OFB_ARP_SPA) || (oxm_field =? OFPXMT_OFB_ARP_TPA).

Definition strict_field (b : ofl_match) (f : ofl_match_tlv) : bool :=
  match oxm_match_lookup (tlv_header f) b with
  | None => false
  | Some e =>
    let has_mask := OXM_HASMASK (tlv_header f) in
    let field_len := val_len f in
    let mv := tlv_value f in let ev := tlv_value e in
    let mm := flow_mask f in let em := drop (Z.to_nat field_len) (tlv_value e) in
    if field_len =? 1 then
      if has_mask then strict_mask8 mv ev mm em else match_8 mv ev
    else if field_len =? 2 then
      if has_mask then strict_mask16 mv ev mm em else match_16 mv ev
    else if field_len =? 3 then
      if has_mask then strict_mask24 mv ev mm em else match_24 mv ev
    else if field_len =? 4 then
      if has_mask then
        (if is_ip_field (OXM_FIELD (tlv_header f)) then strict_mask_ip mv ev mm em else true) &&
        strict_mask32 mv ev mm em
      else match_32 mv ev
    else if field_len =? 6 then
      if has_mask then strict_mask48 mv ev mm em else match_48 mv ev
    else if field_len =? 8 then
      if has_mask then strict_mask64 mv ev mm em else match_64 mv ev
    else if field_len =? 16 then
      if has_mask then strict_mask128 mv ev mm em else match_128 mv ev
    else true
  end.

Definition match_std_strict (a b : ofl_match) : bool :=
  if (match_length a =? 0) && (match_length b =? 0) then true
  else if negb (match_length a =? match_length b) then false
  else forallb (strict_field b) (match_fields a).

(** * Non-strict comparison *)

(** [(~am & (~a | ~b | bm) & (a | b | bm)) == 0] on w-bit operands. *)
Definition nonstrict_word (w a b am bm : Z) : bool :=
  Z.land (Z.land (unot w am) (Z.lor (Z.lor (unot w a) (unot w b)) bm)) (Z.lor (Z.lor a b) bm) =? 0.

(** The 8- and 16-bit operands are promoted to [int] before [~]; the bits above
    their width are cleared by the last operand. *)
Definition nonstrict_mask8 (a b am bm : list Z) : bool :=
  nonstrict_word 32 (rd8 a) (rd8 b) (rd8 am) (rd8 bm).
Definition nonstrict_mask16 (a b am bm : list Z) : bool :=
  nonstrict_word 32 (rd16 a) (rd16 b) (rd16 am) (rd16 bm).
Definition nonstrict_mask24 (a b am bm : list Z) : bool :=
  nonstrict_mask16 a b am bm && nonstrict_mask8 (drop 2 a) (drop 2 b) (drop 2 am) (drop 2 bm).
Definition nonstrict_mask32 (a b am bm : list Z) : bool :=
  nonstrict_word 32 (rd32 a) (rd32 b) (rd32 am) (rd32 bm).
Definition nonstrict_mask48 (a b am bm : list Z) : bool :=
  nonstrict_mask32 a b am bm && nonstrict_mask16 (drop 4 a) (drop 4 b) (drop 4 am) (drop 4 bm).
Definition nonstrict_mask64 (a b am bm : list Z) : bool :=
  nonstrict_word 64 (rd64 a) (rd64 b) (rd64 am) (rd64 bm).
Definition nonstrict_mask128 (a b am bm : list Z) : bool :=
  nonstrict_mask64 a b am bm && nonstrict_mask64 (drop 8 a) (drop 8 b) (drop 8 am) (drop 8 bm).

Definition nonstrict_field (b : ofl_match) (f : ofl_match_tlv) : bool :=
  match oxm_match_lookup (tlv_header f) b with
  | None => false
  | Some e =>
    let has_mask := OXM_HASMASK (tlv_header f) in
    let field_len := val_len f in
    let mv := tlv_value f in let ev := tlv_value e in
    let mm := flow_mask f in let em := drop (Z.to_nat field_len) (tlv_value e) in
    if field_len =? 1 then
      if has_mask then nonstrict_mask8 mv ev mm em else match_8 mv ev
    else if field_len =? 2 then
      if has_mask then nonstrict_mask16 mv ev mm em else match_16 mv ev
    else if field_len =? 3 then
      if has_mask then nonstrict_mask24 mv ev mm em else match_24 mv ev
    else if field_len =? 4 then
      if has_mask then nonstrict_mask32 mv ev mm em else match_32 mv ev
    else if field_len =? 6 then
      if has_mask then nonstrict_mask48 mv ev mm em else match_48 mv ev
    else if field_len =? 8 then
      if has_mask then nonstrict_mask64 mv ev mm em else match_64 mv ev
    else if field_len =? 16 then
      if has_mask then nonstrict_mask128 mv ev mm em else match_128 mv ev
    else true
  end.

Definition match_std_nonstrict (a b : ofl_match) : bool :=
  if match_length a =? 0 then true
  else forallb (nonstrict_field b) (match_fields a).

(** * Overlap *)

Definition incompatible_8 (a b am bm : list Z) : bool :=
  truthy (Z.lxor (Z.land (rd8 am) (rd8 a)) (Z.land (rd8 bm) (rd8 b))).
Definition incompatible_16 (a b am bm : list Z) : bool :=
  truthy (Z.lxor (Z.land (rd16 am) (rd16 a)) (Z.land (rd16 bm) (rd16 b))).
Definition incompatible_32 (a b am bm : list Z) : bool :=
  truthy (Z.lxor (Z.land (rd32 am) (rd32 a)) (Z.land (rd32 bm) (rd32 b))).
Definition incompatible_48 (a b am bm : list Z) : bool :=
  incompatible_32 a b am bm || incompatible_16 (drop 4 a) (drop 4 b) (drop 4 am) (drop 4 bm).
Definition incompatible_64 (a b am bm : list Z) : bool :=
  truthy (Z.lxor (Z.land (rd64 am) (rd64 a)) (Z.land (rd64 bm) (rd64 b))).
Definition incompatible_128 (a b am bm : list Z) : bool :=
  incompatible_64 a b am bm || incompatible_64 (drop 8 a) (drop 8 b) (drop 8 am) (drop 8 bm).

Definition all_mask : list Z := replicate 16 0xff.

(** The header of the masked variant of the field. *)
Definition masked_header (f : ofl_match_tlv) : Z :=
  if OXM_HASMASK (tlv_header f) then tlv_header f
  else Z.lor (Z.lor (Z.land (tlv_header f) 0xfffffe00) 0x100) (Z.shiftl (val_len f) 1).

Definition overlap_field (b : ofl_match) (f_a : ofl_match_tlv) : bool :=
  let field_len := val_len f_a in
  let mask_a := if OXM_HASMASK (tlv_header f_a) then flow_mask f_a else all_mask in
  let f_b := match oxm_match_lookup (packet_header f_a) b with
             | Some f => Some f
             | None => oxm_match_lookup (masked_header f_a) b
             end in
  match f_b with
  | None => true
  | Some f_b =>
    let val_a := tlv_value f_a in let val_b := tlv_value f_b in
    let mask_b := if OXM_HASMASK (tlv_header f_b)
                  then drop (Z.to_nat field_len) (tlv_value f_b) else all_mask in
    negb (if field_len =? 1 then incompatible_8 val_a val_b mask_a mask_b
          else if field_len =? 2 then incompatible_16 val_a val_b mask_a mask_b
          else if field_len =? 4 then incompatible_32 val_a val_b mask_a mask_b
          else if field_len =? 6 then incompatible_48 val_a val_b mask_a mask_b
          else if field_len =? 8 then incompatible_64 val_a val_b mask_a mask_b
          else if field_len =? 16 then incompatible_128 val_a val_b mask_a mask_b
          else false)
  end.

Definition match_std_overlap (a b : ofl_match) : bool :=
  forallb (overlap_field b) (match_fields a).

(** * Reference definitions *)

(** The field widths the comparison code has a case for. *)
Definition known_len (n : Z) : Prop := n ∈ [1; 2; 3; 4; 6; 8; 16].

#[global] Instance known_len_dec n : Decision (known_len n).
Proof. unfold known_len. apply _. Defined.

(** Ternary match of two byte strings: they agree on every bit of the mask. *)
Definition masked_eq (mask a b : list Z) : bool :=
  forallb (λ x, x =? 0) (zip_with Z.land mask (zip_with Z.lxor a b)).

Definition val_ok (has_mask : bool) (n : nat) (v mask p : list Z) : bool :=
  if has_mask then masked_eq (take n mask) (take n v) (take n p)
  else bool_decide (take n v = take n p).

(** A 16-bit VLAN field of the flow entry against the packet's VLAN tag: no tag
    wanted, any tag wanted, or the 12-bit identifier. *)
Definition vlan_ok (has_mask : bool) (v mask p : list Z) : bool :=
  match v with
  | 0 :: 0 :: _ => false
  | 0 :: 0x10 :: _ => true
  | b0 :: b1 :: _ => val_ok has_mask 2 [b0; Z.land b1 0x0f] mask p
  | _ => false
  end.

(** A flow entry's field accepts a packet. *)
Definition field_ok (packet : ofl_match) (f : ofl_match_tlv) : bool :=
  let n := Z.to_nat (val_len f) in
  let has_mask := OXM_HASMASK (tlv_header f) in
  match oxm_match_lookup (packet_header f) packet with
  | None => bool_decide (tlv_header f = OXM_OF_VLAN_VID ∧ tlv_value f = [0; 0])
  | Some p =>
    if decide (packet_header f = OXM_OF_VLAN_VID) then
      vlan_ok has_mask (tlv_value f) (flow_mask f) (tlv_value p)
    else if decide (packet_header f = OXM_OF_IPV6_EXTHDR) then
      bool_decide (zip_with Z.land (take 2 (tlv_value f)) (take 2 (tlv_value p)) = take 2 (tlv_value f))
    else val_ok has_mask n (tlv_value f) (flow_mask f) (tlv_value p)
  end.

(** ** Word comparisons are byte comparisons *)

Lemma bytes_take n l : bytes l → bytes (take n l).
Proof. apply Forall_take. Qed.
Lemma bytes_drop n l : bytes l → bytes (drop n l).
Proof. apply Forall_drop. Qed.
#[local] Hint Resolve bytes_take bytes_drop : cint.

Lemma land_op : ∀ a b i, 0 <= i → Z.testbit (Z.land a b) i = Z.testbit a i && Z.testbit b i.
Proof. intros. apply Z.land_spec. Qed.
Lemma lxor_op : ∀ a b i, 0 <= i → Z.testbit (Z.lxor a b) i = xorb (Z.testbit a i) (Z.testbit b i).
Proof. intros. apply Z.lxor_spec. Qed.

Lemma bytes_zip_land a b : bytes a → bytes b → bytes (zip_with Z.land a b).
Proof.
  intros Ha Hb. apply Forall_zip_with_fst with (P:=fits 8).
  { done. }
  apply Forall_forall. intros. apply fits_land_l; [lia|done].
Qed.

Lemma bytes_zip_lxor a b : bytes a → bytes b → bytes (zip_with Z.lxor a b).
Proof.
  revert b. induction a as [|x a IH]; intros [|y b] Ha Hb; try constructor.
  - inversion Ha; inversion Hb; subst. apply fits_lxor; [lia|done..].
  - inversion Ha; inversion Hb; subst. by apply IH.
Qed.

Lemma le_read_zero l : bytes l → (le_read l =? 0) = forallb (λ x, x =? 0) l.
Proof.
  induction 1 as [|b l Hb Hl IH]; [done|]. cbn [le_read forallb]. rewrite <- IH.
  pose proof (le_read_bound _ Hl) as [H0 _]. rewrite Z.shiftl_mul_pow2 by lia.
  unfold fits in Hb. apply eq_bool_prop_intro. rewrite andb_True, !Is_true_true, !Z.eqb_eq. lia.
Qed.

Lemma mask_word_spec m a b :
  bytes m → bytes a → bytes b → length m = length a → length a = length b →
  (Z.land (le_read m) (Z.lxor (le_read a) (le_read b)) =? 0) = masked_eq m a b.
Proof.
  intros Hm Ha Hb Hma Hab. unfold masked_eq.
  rewrite <- (le_read_op _ _ lxor_op eq_refl (λ a b Ha Hb, proj2 (Z.lxor_nonneg a b) (conj (λ _, Hb) (λ _, Ha))))
    by done.
  rewrite <- (le_read_op _ _ land_op eq_refl (λ a b Ha Hb, proj2 (Z.land_nonneg a b) (or_introl Ha)))
    by (try apply bytes_zip_lxor; try rewrite length_zip_with; done || lia).
  apply le_read_zero, bytes_zip_land; [done|by apply bytes_zip_lxor].
Qed.

Lemma word_eq_spec a b :
  bytes a → bytes b → length a = length b → (le_read a =? le_read b) = bool_decide (a = b).
Proof.
  intros Ha Hb Hl. apply eq_bool_prop_intro. rewrite bool_decide_spec, Is_true_true, Z.eqb_eq.
  split; [by apply le_read_inj|by intros ->].
Qed.

(** A comparison of [n + m] bytes as one of [n] and one of the next [m]. *)
Lemma val_ok_split hm n m v mask p :
  (n + m ≤ length v)%nat → (hm = true → (n + m ≤ length mask)%nat) → (n + m ≤ length p)%nat →
  val_ok hm (n + m) v mask p =
  val_ok hm n v mask p && val_ok hm m (drop n v) (drop n mask) (drop n p).
Proof.
  intros Hv Hm Hp. unfold val_ok. rewrite <- !take_take_drop. destruct hm.
  - specialize (Hm eq_refl). unfold masked_eq.
    rewrite !zip_with_app by (rewrite ?length_zip_with, !length_take; lia).
    by rewrite forallb_app.
  - apply eq_bool_prop_intro. rewrite andb_True, !bool_decide_spec. split.
    + intros [? ?]%app_inj_1; [done|rewrite !length_take; lia].
    + by intros [-> ->].
Qed.

Lemma val_ok_word hm n v mask p :
  bytes v → bytes mask → bytes p →
  (n ≤ length v)%nat → (hm = true → (n ≤ length mask)%nat) → (n ≤ length p)%nat →
  val_ok hm n v mask p =
  if hm then Z.land (le_read (take n mask)) (Z.lxor (le_read (take n v)) (le_read (take n p))) =? 0
  else le_read (take n v) =? le_read (take n p).
Proof.
  intros Hv Hm Hp Hlv Hlm Hlp. unfold val_ok. destruct hm.
  - specialize (Hlm eq_refl).
    rewrite mask_word_spec by (by apply bytes_take || (rewrite !length_take; lia)). done.
  - rewrite word_eq_spec by (by apply bytes_take || (rewrite !length_take; lia)). done.
Qed.

(** The comparison the code selects for a field of [n] bytes. *)
Definition cmp (hm : bool) (n : Z) (v mask p : list Z) : bool :=
  if n =? 1 then if hm then match_mask8 v mask p else match_8 v p
  else if n =? 2 then if hm then match_mask16 v mask p else match_16 v p
  else if n =? 3 then if hm then match_mask24 v mask p else match_24 v p
  else if n =? 4 then if hm then match_mask32 v mask p else match_32 v p
  else if n =? 6 then if hm then match_mask48 v mask p else match_48 v p
  else if n =? 8 then if hm then match_mask64 v mask p else match_64 v p
  else if n =? 16 then if hm then match_mask128 v mask p else match_128 v p
  else true.

Lemma cmp_spec hm n v mask p :
  known_len n → bytes v → bytes mask → bytes p →
  n <= Z.of_nat (length v) → (hm = true → n <= Z.of_nat (length mask)) → n <= Z.of_nat (length p) →
  cmp hm n v mask p = val_ok hm (Z.to_nat n) v mask p.
Proof.
  intros Hn Hv Hm Hp Hlv Hlm Hlp. unfold known_len in Hn.
  assert (∀ k j : nat, n = Z.of_nat (k + j) → val_ok hm (Z.to_nat n) v mask p =
    val_ok hm k v mask p && val_ok hm j (drop k v) (drop k mask) (drop k p)) as Hs.
  { intros k j ->. rewrite Nat2Z.id. apply val_ok_split; [lia|intros ?%Hlm; lia|lia]. }
  rewrite !elem_of_cons in Hn.
  destruct Hn as [->|[->|[->|[->|[->|[->|[->|[]%not_elem_of_nil]]]]]]].
  all: try (rewrite (Hs 2 1)%nat by lia).
  all: try (rewrite (Hs 4 2)%nat by lia).
  all: try (rewrite (Hs 8 8)%nat by lia).
  all: rewrite !val_ok_word by (rewrite ?length_drop; auto with cint; try (intros ?%Hlm); lia).
  all: by destruct hm.
Qed.

(** ** The packet's header *)

Lemma packet_header_length f : tlv_wf f → OXM_LENGTH (packet_header f) = val_len f.
Proof.
  intros (Hh & _ & Hl & Hev). unfold packet_header, val_len.
  destruct (OXM_HASMASK (tlv_header f)); [|done]. specialize (Hev eq_refl).
  unfold OXM_LENGTH in *. rewrite !Z.land_lor_distr_l, <- Z.land_assoc.
  change (Z.land 0xfffffe00 0xff) with 0. rewrite Z.land_0_r, Z.lor_0_l.
  change 0xff with (Z.ones 8). rewrite !Z.land_ones by lia.
  apply Z.mod_small. pose proof (Z.mod_pos_bound (tlv_header f) (2 ^ 8) ltac:(lia)).
  Z.div_mod_to_equations. lia.
Qed.

Lemma val_len_bound f :
  tlv_wf f → val_len f <= Z.of_nat (length (tlv_value f)) ∧
  (OXM_HASMASK (tlv_header f) = true → val_len f <= Z.of_nat (length (flow_mask f))).
Proof.
  intros (Hh & _ & Hl & Hev). unfold flow_mask, val_len. rewrite length_drop, Hl.
  split; [destruct (OXM_HASMASK _)|intros Hm; rewrite Hm; specialize (Hev Hm)];
    rewrite <- Hl in *; Z.div_mod_to_equations; lia.
Qed.

Lemma lookup_length f packet p :
  Forall tlv_wf (match_fields packet) → tlv_wf f →
  oxm_match_lookup (packet_header f) packet = Some p →
  bytes (tlv_value p) ∧ Z.of_nat (length (tlv_value p)) = val_len f.
Proof.
  intros Hwf Hf [Hp Hh]%lookup_some. rewrite list.Forall_forall in Hwf.
  destruct (Hwf p Hp) as (_ & Hb & Hl & _). split; [done|].
  by rewrite Hl, Hh, packet_header_length.
Qed.

Lemma rd16_cons b0 b1 r : rd16 (b0 :: b1 :: r) = b0 + 256 * b1.
Proof. unfold rd16. simpl. rewrite !Z.shiftl_mul_pow2 by lia. lia. Qed.

Lemma vlan_id_bytes b0 b1 :
  fits 8 b0 → fits 8 b1 → le_bytes 2 (Z.land (b0 + 256 * b1) VLAN_VID_MASK) = [b0; Z.land b1 0x0f].
Proof.
  intros H0 H1. unfold VLAN_VID_MASK. cbn [le_bytes].
  change 0x0fff with (Z.ones 12). change 0xff with (Z.ones 8). change 0x0f with (Z.ones 4).
  rewrite Z.shiftr_div_pow2, !Z.land_ones by lia. unfold fits in *.
  f_equal; [|f_equal]; Z.div_mod_to_equations; lia.
Qed.

Lemma packet_match_2_vlan hm v mask p :
  bytes v → bytes mask → bytes p → (2 ≤ length v)%nat → (hm = true → (2 ≤ length mask)%nat) →
  (2 ≤ length p)%nat → packet_match_2 OXM_OF_VLAN_VID hm v mask p = vlan_ok hm v mask p.
Proof.
  intros Hv Hm Hp Hlv Hlm Hlp. destruct v as [|b0 [|b1 r]]; [simpl in Hlv; lia..|].
  apply Forall_cons_1 in Hv as [H0 [H1 _]%Forall_cons_1].
  unfold packet_match_2. rewrite Z.eqb_refl, rd16_cons, vlan_id_bytes by done.
  unfold OFPVID_NONE, OFPVID_PRESENT.
  assert (bytes [b0; Z.land b1 0x0f]) as Hb.
  { constructor; [done|]. constructor; [apply fits_land_l; [lia|done]|constructor]. }
  assert ((if hm then match_mask16 [b0; Z.land b1 0x0f] mask p else match_16 [b0; Z.land b1 0x0f] p) =
          val_ok hm 2 [b0; Z.land b1 0x0f] mask p) as ->.
  { rewrite val_ok_word by done. by destruct hm. }
  unfold fits in *. unfold vlan_ok.
  destruct (Z.eqb_spec (b0 + 256 * b1) 0).
  { assert (b0 = 0) as -> by lia. assert (b1 = 0) as -> by lia. done. }
  destruct (Z.eqb_spec (b0 + 256 * b1) 0x1000).
  { assert (b0 = 0) as -> by lia. assert (b1 = 0x10) as -> by lia. done. }
  destruct (decide (b0 = 0)) as [->|]; [|by destruct b0].
  destruct (decide (b1 = 0)) as [->|]; [lia|]. destruct (decide (b1 = 0x10)) as [->|]; [lia|].
  destruct b1 as [|q|]; try done. do 5 (destruct q; try done).
Qed.

Lemma exthdr_spec v p :
  bytes v → bytes p → (2 ≤ length v)%nat → (2 ≤ length p)%nat →
  (Z.land (rd16 v) (rd16 p) =? rd16 v) = bool_decide (zip_with Z.land (take 2 v) (take 2 p) = take 2 v).
Proof.
  intros Hv Hp Hlv Hlp. unfold rd16.
  rewrite <- (le_read_op _ _ land_op eq_refl (λ a b Ha Hb, proj2 (Z.land_nonneg a b) (or_introl Ha)))
    by (by apply bytes_take || (rewrite !length_take; lia)).
  apply word_eq_spec; [apply bytes_zip_land; by apply bytes_take|by apply bytes_take|].
  rewrite length_zip_with, !length_take. lia.
Qed.

(** One turn of the loop decides the reference definition. *)
Lemma packet_match_field_spec packet f :
  Forall tlv_wf (match_fields packet) → tlv_wf f → known_len (val_len f) →
  packet_match_field packet f = field_ok packet f.
Proof.
  intros Hpk Hf Hn. destruct (val_len_bound f Hf) as [Hlv Hlm].
  assert (bytes (tlv_value f)) as Hb by apply Hf.
  assert (bytes (flow_mask f)) as Hbm by by apply bytes_drop.
  unfold packet_match_field, field_ok.
  destruct (oxm_match_lookup _ packet) as [p|] eqn:Hlk.
  - destruct (lookup_length f packet p Hpk Hf Hlk) as [Hbp Hlp].
    pose proof (cmp_spec (OXM_HASMASK (tlv_header f)) (val_len f) (tlv_value f) (flow_mask f) (tlv_value p)
                  Hn Hb Hbm Hbp Hlv Hlm ltac:(lia)) as Hcmp.
    pose proof (packet_header_length f Hf) as Hph.
    destruct (decide (packet_header f = OXM_OF_VLAN_VID)) as [Hvl|Hvl];
      [|destruct (decide (packet_header f = OXM_OF_IPV6_EXTHDR)) as [He|He]].
    + rewrite Hvl in *. change (OXM_LENGTH OXM_OF_VLAN_VID) with 2 in Hph. rewrite <- Hph in *.
      simpl. apply packet_match_2_vlan; try done; try lia. intros ?%Hlm; lia.
    + rewrite He in *. change (OXM_LENGTH OXM_OF_IPV6_EXTHDR) with 2 in Hph. rewrite <- Hph in *.
      simpl. apply exthdr_spec; done || lia.
    + rewrite <- Hcmp. unfold cmp, packet_match_2.
      by rewrite (proj2 (Z.eqb_neq _ _) Hvl), (proj2 (Z.eqb_neq _ _) He).
  - apply eq_bool_prop_intro. rewrite andb_True, !Is_true_true, !Z.eqb_eq, bool_decide_eq_true.
    split; intros [Hh Hv]; split; try done.
    + destruct Hf as (_ & _ & Hl & _). rewrite Hh in Hl. change (OXM_LENGTH OXM_OF_VLAN_VID) with 2 in Hl.
      destruct (tlv_value f) as [|b0 [|b1 [|]]]; try (simpl in Hl; lia).
      rewrite rd16_cons in Hv. apply Forall_cons_1 in Hb as [H0 [H1 _]%Forall_cons_1].
      unfold fits, OFPVID_NONE in *. do 2 f_equal; [lia|f_equal; lia].
    + by rewrite Hv.
Qed.

Lemma zsum_sizes_pos l : Forall tlv_wf l → 0 <= zsum (tlv_size <$> l) ∧ (zsum (tlv_size <$> l) = 0 → l = []).
Proof.
  induction 1 as [|f l (_ & _ & Hl & _) _ IH]; [done|]. destruct IH as [IH _].
  rewrite fmap_cons. unfold zsum in *. cbn [foldr]. unfold tlv_size at 1 3. split; lia.
Qed.

Lemma wf_length_0 m : match_wf m → (match_length m =? 0) = true → match_fields m = [].
Proof.
  intros [_ Hf Hl] H0. apply Z.eqb_eq in H0. apply (zsum_sizes_pos _ Hf). congruence.
Qed.

Lemma forallb_ext_in {A} (P Q : A → bool) l :
  (∀ x, x ∈ l → P x = Q x) → forallb P l = forallb Q l.
Proof.
  induction l as [|x l IH]; intros H; [done|]. simpl.
  rewrite (H x) by left. f_equal. apply IH. intros y Hy. apply H. by right.
Qed.

Lemma packet_match_ref fm packet :
  match_wf fm → Forall tlv_wf (match_fields packet) →
  Forall (λ f, known_len (val_len f)) (match_fields fm) →
  packet_match fm packet = forallb (field_ok packet) (match_fields fm).
Proof.
  intros Hwf Hp Hk. unfold packet_match. destruct (match_length fm =? 0) eqn:E.
  - by rewrite (wf_length_0 _ Hwf E).
  - apply forallb_ext_in. intros f Hf. apply packet_match_field_spec; [done| |].
    + by eapply list.Forall_forall in Hf; [|apply (match_wf_tlv _ Hwf)].
    + by eapply list.Forall_forall in Hf; [|apply Hk].
Qed.

(** ** The order of the hash map does not matter *)

Lemma forallb_perm {A} (P : A → bool) l k : l ≡ₚ k → forallb P l = forallb P k.
Proof. induction 1; simpl; try congruence. by rewrite !andb_assoc, (andb_comm (P y)). Qed.

#[export] Instance packet_match_proper : Proper (match_equiv ==> match_equiv ==> eq) packet_match.
Proof.
  intros a b Hab p q Hpq. pose proof Hab as (Hl & Hf & _). unfold packet_match.
  rewrite Hl, (forallb_perm _ _ _ Hf). destruct (_ =? 0); [done|].
  apply forallb_ext_in. intros f _. unfold packet_match_field. by rewrite Hpq.
Qed.

#[export] Instance match_std_strict_proper : Proper (match_equiv ==> match_equiv ==> eq) match_std_strict.
Proof.
  intros a b Hab p q Hpq. pose proof Hab as (Hl & Hf & _). pose proof Hpq as (Hl' & _).
  unfold match_std_strict. rewrite Hl, Hl', (forallb_perm _ _ _ Hf).
  destruct (_ && _); [done|]. destruct (negb _); [done|].
  apply forallb_ext_in. intros f _. unfold strict_field. by rewrite Hpq.
Qed.

(** ** Exact (unmasked) fields *)

Definition unmasked (m : ofl_match) : Prop :=
  Forall (λ f, OXM_HASMASK (tlv_header f) = false ∧ known_len (val_len f)) (match_fields m).

#[global] Instance unmasked_dec m : Decision (unmasked m).
Proof. unfold unmasked. apply _. Defined.

Lemma unmasked_field m f :
  match_wf m → unmasked m → f ∈ match_fields m →
  tlv_wf f ∧ OXM_HASMASK (tlv_header f) = false ∧ known_len (val_len f) ∧
  Z.of_nat (length (tlv_value f)) = val_len f.
Proof.
  intros [_ Hw _] Hu Hf. unfold unmasked in Hu. rewrite list.Forall_forall in Hw, Hu.
  destruct (Hu f Hf) as [Hm Hk]. split_and!; [by apply Hw|done..|].
  destruct (Hw f Hf) as (_ & _ & Hl & _). unfold val_len. by rewrite Hm.
Qed.

Lemma same_header_val f g : tlv_header f = tlv_header g → val_len f = val_len g.
Proof. unfold val_len. by intros ->. Qed.

(** On an exact field the comparison with a field of the same header is equality. *)
Lemma cmp_exact f g :
  tlv_wf f → tlv_wf g → OXM_HASMASK (tlv_header f) = false → known_len (val_len f) →
  tlv_header f = tlv_header g →
  cmp false (val_len f) (tlv_value f) [] (tlv_value g) = true ↔ f = g.
Proof.
  intros (_ & Hb & Hl & _) (_ & Hb' & Hl' & _) Hm Hk Hh.
  assert (val_len f = OXM_LENGTH (tlv_header f)) as Hv by (unfold val_len; by rewrite Hm).
  rewrite <- Hh in Hl'. rewrite cmp_spec by (done || lia || constructor).
  unfold val_ok. rewrite bool_decide_eq_true. rewrite !take_ge by lia.
  destruct f, g; simpl in *. split; [intros ->; by subst|by intros [= _ ->]].
Qed.

Lemma strict_field_exact a b f :
  match_wf a → unmasked a → match_wf b → f ∈ match_fields a →
  strict_field b f = true ↔ f ∈ match_fields b.
Proof.
  intros Hwa Hu Hwb Hf. destruct (unmasked_field a f Hwa Hu Hf) as (Hw & Hm & Hk & _).
  unfold strict_field. rewrite Hm.
  destruct (oxm_match_lookup _ b) as [e|] eqn:E; [apply lookup_some in E as [He Hh]|].
  - pose proof (match_wf_tlv _ Hwb) as Hwe. rewrite list.Forall_forall in Hwe.
    pose proof (cmp_exact f e Hw (Hwe e He) Hm Hk (eq_sym Hh)) as Hc.
    change (cmp false (val_len f) (tlv_value f) [] (tlv_value e) = true ↔ f ∈ match_fields b).
    rewrite Hc. split; [by intros ->|]. intros Hfb.
    eapply nodup_header_inj; [apply Hwb|done|done|done].
  - apply lookup_none in E. split; [done|]. intros Hfb. destruct E. by apply list_elem_of_fmap_2.
Qed.

(** On exact fields the non-strict comparison is the same code. *)
Lemma nonstrict_field_exact a b f :
  match_wf a → unmasked a → match_wf b → f ∈ match_fields a →
  nonstrict_field b f = true ↔ f ∈ match_fields b.
Proof.
  intros Hwa Hu Hwb Hf. rewrite <- (strict_field_exact a b f) by done.
  destruct (unmasked_field a f Hwa Hu Hf) as (_ & Hm & _).
  unfold nonstrict_field, strict_field. by rewrite Hm.
Qed.

Lemma forallb_elem {A} (P : A → bool) l : forallb P l = true ↔ ∀ x, x ∈ l → P x = true.
Proof. rewrite forallb_forall. by setoid_rewrite list_elem_of_In. Qed.

Lemma nodup_fields m : match_wf m → NoDup (match_fields m).
Proof. intros [H _ _]. by eapply NoDup_fmap_1. Qed.

(** A subset of TLVs of the same total length is all of them. *)
Lemma subset_same_length a b :
  match_wf a → match_wf b → match_length a = match_length b →
  (∀ f, f ∈ match_fields a → f ∈ match_fields b) → match_fields a ≡ₚ match_fields b.
Proof.
  intros Ha Hb Hl Hsub.
  destruct (submseteq_Permutation _ _ (NoDup_submseteq _ _ (nodup_fields a Ha) Hsub)) as [k Hk].
  pose proof (match_wf_tlv _ Hb) as Hw. rewrite Hk in Hw. apply Forall_app in Hw as [_ Hw].
  rewrite (match_wf_length _ Ha), (match_wf_length _ Hb), Hk, fmap_app, zsum_app in Hl.
  assert (k = []) as -> by (apply (zsum_sizes_pos _ Hw); lia).
  by rewrite Hk, app_nil_r.
Qed.

(** ** Overlap of exact matches *)

(** An exact match over fields that [packet_match] and [match_std_overlap]
    compare without exceptions. *)
Definition plain (m : ofl_match) : Prop :=
  unmasked m ∧
  Forall (λ f, val_len f ≠ 3 ∧ tlv_header f ≠ OXM_OF_VLAN_VID ∧ tlv_header f ≠ OXM_OF_IPV6_EXTHDR)
    (match_fields m).

#[global] Instance plain_dec m : Decision (plain m).
Proof. unfold plain. apply _. Defined.

Lemma truthy_lxor x y : truthy (Z.lxor x y) = negb (x =? y).
Proof.
  unfold truthy. f_equal. apply eq_bool_prop_intro. rewrite !Is_true_true, !Z.eqb_eq.
  split; [apply Z.lxor_eq|intros ->; apply Z.lxor_nilpotent].
Qed.

Lemma land_all_mask n l :
  bytes l → Z.land (2 ^ (8 * Z.of_nat n) - 1) (le_read (take n l)) = le_read (take n l).
Proof.
  intros Hl. rewrite Z.land_comm, land_ones_wrap by lia. apply wrap_small. unfold fits.
  pose proof (le_read_bound _ (bytes_take n l Hl)) as [H0 H1]. split; [done|].
  eapply Z.lt_le_trans; [done|]. apply Z.pow_le_mono_r; [lia|].
  pose proof (length_take l n) as Ht. rewrite Ht. lia.
Qed.

(** With the dummy masks, incompatible means different. *)
Lemma incompatible_cmp n a b :
  bytes a → bytes b → known_len n → n ≠ 3 →
  negb (if n =? 1 then incompatible_8 a b all_mask all_mask
        else if n =? 2 then incompatible_16 a b all_mask all_mask
        else if n =? 4 then incompatible_32 a b all_mask all_mask
        else if n =? 6 then incompatible_48 a b all_mask all_mask
        else if n =? 8 then incompatible_64 a b all_mask all_mask
        else if n =? 16 then incompatible_128 a b all_mask all_mask
        else false) = cmp false n a [] b.
Proof.
  intros Ha Hb Hn H3. unfold known_len in Hn. rewrite !elem_of_cons in Hn.
  assert (∀ k l, bytes l → bytes (drop k l)) as Hd by (intros; by apply bytes_drop).
  destruct Hn as [->|[->|[->|[->|[->|[->|[->|[]%not_elem_of_nil]]]]]]]; try done.
  all: simpl (_ =? _); cbv iota.
  all: unfold incompatible_48, incompatible_128, incompatible_8, incompatible_16, incompatible_32,
    incompatible_64, cmp, match_48, match_128, match_8, match_16, match_32, match_64.
  all: change (rd8 all_mask) with (2 ^ (8 * Z.of_nat 1) - 1);
       change (rd16 all_mask) with (2 ^ (8 * Z.of_nat 2) - 1);
       change (rd32 all_mask) with (2 ^ (8 * Z.of_nat 4) - 1);
       change (rd64 all_mask) with (2 ^ (8 * Z.of_nat 8) - 1);
       change (rd16 (drop 4 all_mask)) with (2 ^ (8 * Z.of_nat 2) - 1);
       change (rd64 (drop 8 all_mask)) with (2 ^ (8 * Z.of_nat 8) - 1).
  all: unfold rd8, rd16, rd32, rd64; rewrite !land_all_mask by auto.
  all: rewrite !truthy_lxor; try rewrite negb_orb; by rewrite !negb_involutive.
Qed.

Lemma masked_header_mask f : OXM_HASMASK (masked_header f) = true.
Proof.
  unfold masked_header. destruct (OXM_HASMASK (tlv_header f)) eqn:E; [done|].
  unfold OXM_HASMASK, truthy. apply negb_true_iff, Z.eqb_neq. intros H.
  assert (Z.testbit (Z.land (Z.shiftr (Z.lor (Z.lor (Z.land (tlv_header f) 0xfffffe00) 0x100)
            (Z.shiftl (val_len f) 1)) 8) 1) 0 = true) as Hb; [|by rewrite H in Hb].
  rewrite Z.land_spec, Z.shiftr_spec, !Z.lor_spec by lia. simpl (Z.testbit 0x100 _).
  by rewrite orb_true_r.
Qed.

Lemma plain_field m f :
  match_wf m → plain m → f ∈ match_fields m →
  tlv_wf f ∧ OXM_HASMASK (tlv_header f) = false ∧ known_len (val_len f) ∧ packet_header f = tlv_header f ∧
  val_len f ≠ 3 ∧ tlv_header f ≠ OXM_OF_VLAN_VID ∧ tlv_header f ≠ OXM_OF_IPV6_EXTHDR.
Proof.
  intros Hw [Hu Hp] Hf. destruct (unmasked_field m f Hw Hu Hf) as (? & Hm & ? & _).
  rewrite list.Forall_forall in Hp. destruct (Hp f Hf) as (? & ? & ?).
  split_and!; try done. unfold packet_header. by rewrite Hm.
Qed.

Lemma overlap_field_exact a b f :
  match_wf a → match_wf b → plain a → plain b → f ∈ match_fields a →
  overlap_field b f = true ↔ ∀ e, e ∈ match_fields b → tlv_header e = tlv_header f → e = f.
Proof.
  intros Hwa Hwb Hpa Hpb Hf. destruct (plain_field a f Hwa Hpa Hf) as (Hw & Hm & Hk & Hph & H3 & _).
  unfold overlap_field. rewrite Hm, Hph.
  assert (oxm_match_lookup (masked_header f) b = None) as Hmk.
  { apply lookup_none. intros (e & He & Heb)%list_elem_of_fmap.
    destruct (plain_field b e Hwb Hpb Heb) as (_ & Hme & _).
    rewrite <- He, masked_header_mask in Hme. done. }
  destruct (oxm_match_lookup (tlv_header f) b) as [e|] eqn:E.
  - apply lookup_some in E as [He Hh]. destruct (plain_field b e Hwb Hpb He) as (Hwe & Hme & _).
    rewrite Hme, incompatible_cmp by (done || apply Hw || apply Hwe).
    rewrite cmp_exact by done. split; [|intros H; symmetry; by apply H].
    intros -> g Hg Hgh. symmetry. by eapply nodup_header_inj; [apply Hwb| | |].
  - rewrite Hmk. split; [|done]. intros _ e He Hh. apply lookup_none in E. destruct E.
    rewrite <- Hh. by apply list_elem_of_fmap_2.
Qed.

Lemma field_ok_exact m p f :
  match_wf m → plain m → f ∈ match_fields m → Forall tlv_wf (match_fields p) →
  field_ok p f = true ↔ oxm_match_lookup (tlv_header f) p = Some f.
Proof.
  intros Hwm Hpm Hf Hp. destruct (plain_field m f Hwm Hpm Hf) as (Hw & Hm & Hk & Hph & H3 & Hv & He).
  unfold field_ok. rewrite Hm, Hph.
  destruct (oxm_match_lookup (tlv_header f) p) as [q|] eqn:E.
  - rewrite decide_False by done. rewrite decide_False by done.
    apply lookup_some in E as [Hq Hh]. rewrite list.Forall_forall in Hp.
    pose proof (cmp_exact f q Hw (Hp q Hq) Hm Hk (eq_sym Hh)) as Hc.
    destruct (Hp q Hq) as (_ & Hbq & Hlq & _). destruct (val_len_bound f Hw) as [Hl _].
    rewrite cmp_spec in Hc; [|done|apply Hw|constructor|done|done|done|].
    + change (val_ok false (Z.to_nat (val_len f)) (tlv_value f) (flow_mask f) (tlv_value q))
        with (val_ok false (Z.to_nat (val_len f)) (tlv_value f) [] (tlv_value q)).
      rewrite Hc. split; congruence.
    + rewrite Hlq, Hh. unfold val_len. rewrite Hm. lia.
  - rewrite bool_decide_eq_true. split; [by intros [? _]|done].
Qed.

(** The packet that has the fields of both matches. *)
Definition joint (a b : ofl_match) : ofl_match :=
  Match 0 (match_fields a ++ filter (λ e, tlv_header e ∉ (tlv_header <$> match_fields a)) (match_fields b)).

Lemma joint_nodup a b : match_wf a → match_wf b → NoDup (tlv_header <$> match_fields (joint a b)).
Proof.
  intros Ha Hb. simpl. rewrite fmap_app. apply list.NoDup_app. split_and!; [apply Ha| |].
  - intros h Hh (e & -> & He)%list_elem_of_fmap. by apply list_elem_of_filter in He as [Hn _].
  - pose proof (match_wf_nodup _ Hb) as Hn. induction (match_fields b) as [|e l IH]; [constructor|].
    rewrite fmap_cons in Hn. apply list.NoDup_cons in Hn as [Hn Hl]. rewrite filter_cons.
    destruct (decide _); [|by apply IH]. rewrite fmap_cons. apply list.NoDup_cons. split; [|by apply IH].
    intros (x & Hx & Hxl)%list_elem_of_fmap. apply list_elem_of_filter in Hxl as [_ Hxl].
    destruct Hn. rewrite Hx. by apply list_elem_of_fmap_2.
Qed.

Lemma joint_wf a b : match_wf a → match_wf b → Forall tlv_wf (match_fields (joint a b)).
Proof.
  intros [_ Ha _] [_ Hb _]. apply Forall_app. split; [done|].
  rewrite list.Forall_forall in Hb |- *. intros e [_ He]%list_elem_of_filter. by apply Hb.
Qed.

Lemma plain_known m : plain m → Forall (λ f, known_len (val_len f)) (match_fields m).
Proof. intros [Hu _]. unfold unmasked in Hu. rewrite list.Forall_forall in *. intros f Hf. by apply Hu. Qed.

(** * Properties *)

(** C17: [packet_match] decides, for a well-formed match, exactly the reference
    matching of its fields: the packet has each field, and agrees with it byte by
    byte on the bits of the mask (or altogether without one), with the two
    exceptions the OpenFlow rules make (a VLAN field may ask for no tag or for any
    tag; an IPv6 extension-header field asks for a subset).  The 16/32/64-bit
    loads, and the way 24-, 48- and 128-bit fields are split, do not change the
    result, and neither does the order of the hash map. *)
Theorem packet_match_correct (fm packet : ofl_match)
    (Hfm : match_wf fm) (Hp : Forall tlv_wf (match_fields packet))
    (Hk : Forall (λ f, known_len (val_len f)) (match_fields fm)) :
  packet_match fm packet = true ↔ ∀ f, f ∈ match_fields fm → field_ok packet f = true.
Proof. rewrite packet_match_ref by done. apply forallb_elem. Qed.

(** TCP to 10.0.0.0/8 and a packet to 10.1.2.3 from port 3. *)
Definition ex_flow : ofl_match :=
  ofl_structs_match_put32m (ofl_structs_match_put8 ofl_structs_match_init OXM_OF_IP_PROTO 6)
    OXM_OF_IPV4_DST_W 0x0000000a 0x000000ff.
Definition ex_packet : ofl_match :=
  ofl_structs_match_put32 (ofl_structs_match_put8 (ofl_structs_match_put32 ofl_structs_match_init
    OXM_OF_IN_PORT 3) OXM_OF_IP_PROTO 6) OXM_OF_IPV4_DST 0x0302010a.

Lemma packet_match_correct_witness :
  packet_match ex_flow ex_packet = true ∧ ∀ f, f ∈ match_fields ex_flow → field_ok ex_packet f = true.
Proof.
  assert (packet_match ex_flow ex_packet = true) as H by (vm_compute; reflexivity).
  split; [exact H|]. apply (packet_match_correct ex_flow ex_packet); [by_eval..|exact H].
Defined.

(** For matches without masks, [match_std_strict] is equality of the two
    sets of TLVs, whatever the order of the hash maps: comparing the total length
    and then looking up the fields of one match only is enough. *)
Theorem match_std_strict_exact (a b : ofl_match)
    (Ha : match_wf a) (Hb : match_wf b) (Hu : unmasked a) :
  match_std_strict a b = true ↔ match_fields a ≡ₚ match_fields b.
Proof.
  assert (match_length a = match_length b →
          forallb (strict_field b) (match_fields a) = true ↔ match_fields a ≡ₚ match_fields b) as Hmain.
  { intros Hl. rewrite forallb_elem. split.
    - intros H. apply subset_same_length; [done..|]. intros f Hf. by apply (strict_field_exact a b f), H.
    - intros Hp f Hf. apply (strict_field_exact a b f); [done..|]. by rewrite <- Hp. }
  assert (match_fields a ≡ₚ match_fields b → match_length a = match_length b) as Hlen.
  { intros Hp. by rewrite (match_wf_length _ Ha), (match_wf_length _ Hb), Hp. }
  unfold match_std_strict.
  destruct (match_length a =? 0) eqn:E0, (match_length b =? 0) eqn:E1; simpl.
  1: by rewrite (wf_length_0 _ Ha E0), (wf_length_0 _ Hb E1).
  all: destruct (Z.eqb_spec (match_length a) (match_length b)); simpl; [by apply Hmain|].
  all: split; [done|intros ?%Hlen; done].
Qed.

Definition ex_exact : ofl_match :=
  ofl_structs_match_put32 (ofl_structs_match_put8 ofl_structs_match_init OXM_OF_IP_PROTO 6)
    OXM_OF_IPV4_DST 0x0302010a.
Definition ex_exact' : ofl_match :=
  ofl_structs_match_put8 (ofl_structs_match_put32 ofl_structs_match_init OXM_OF_IPV4_DST 0x0302010a)
    OXM_OF_IP_PROTO 6.

Lemma match_std_strict_exact_witness :
  match_std_strict ex_exact ex_exact' = true ∧ match_fields ex_exact ≡ₚ match_fields ex_exact'.
Proof.
  assert (match_std_strict ex_exact ex_exact' = true) as H by (vm_compute; reflexivity).
  split; [exact H|]. apply (match_std_strict_exact ex_exact ex_exact'); [by_eval..|exact H].
Defined.

(** For a flow_mod match without masks, the non-strict comparison has the
    meaning its comment states: when [match_std_nonstrict a b] holds, [a] matches
    every packet that [b] matches. *)
Theorem match_std_nonstrict_sound (a b packet : ofl_match)
    (Ha : match_wf a) (Hb : match_wf b) (Hu : unmasked a)
    (Hns : match_std_nonstrict a b = true) (Hm : packet_match b packet = true) :
  packet_match a packet = true.
Proof.
  unfold match_std_nonstrict in Hns. unfold packet_match at 1.
  destruct (match_length a =? 0) eqn:E; [done|]. rewrite forallb_elem in Hns |- *.
  intros f Hf. assert (f ∈ match_fields b) as Hfb by (apply (nonstrict_field_exact a b f), Hns; done).
  unfold packet_match in Hm. destruct (match_length b =? 0) eqn:E'.
  - rewrite (wf_length_0 _ Hb E') in Hfb. by apply not_elem_of_nil in Hfb.
  - by eapply forallb_elem in Hm.
Qed.

Lemma match_std_nonstrict_sound_witness :
  packet_match (ofl_structs_match_put8 ofl_structs_match_init OXM_OF_IP_PROTO 6) ex_packet = true.
Proof.
  apply (match_std_nonstrict_sound _ ex_exact ex_packet); [by_eval..|vm_compute; reflexivity|vm_compute; reflexivity].
Defined.

(** For exact matches the overlap test is what its comment promises: it
    answers true exactly when some packet is matched by both. *)
Theorem match_std_overlap_exact (a b : ofl_match)
    (Ha : match_wf a) (Hb : match_wf b) (Hpa : plain a) (Hpb : plain b) :
  match_std_overlap a b = true ↔
  ∃ packet, Forall tlv_wf (match_fields packet) ∧
            packet_match a packet = true ∧ packet_match b packet = true.
Proof.
  unfold match_std_overlap. rewrite forallb_elem. split.
  - intros Ho. pose proof (joint_nodup a b Ha Hb) as Hnd. pose proof (joint_wf a b Ha Hb) as Hjw.
    exists (joint a b). split; [done|].
    rewrite !packet_match_ref by (done || by apply plain_known). rewrite !forallb_elem.
    split; intros f Hf.
    + apply (field_ok_exact a); [done..|]. apply lookup_iff; [done|].
      split; [|done]. apply elem_of_app. by left.
    + apply (field_ok_exact b); [done..|]. apply lookup_iff; [done|]. split; [|done].
      apply elem_of_app. destruct (decide (tlv_header f ∈ (tlv_header <$> match_fields a))) as [Hin|];
        [left|by right; apply list_elem_of_filter].
      apply list_elem_of_fmap in Hin as (g & Hh & Hg).
      by rewrite (proj1 (overlap_field_exact a b g Ha Hb Hpa Hpb Hg) (Ho g Hg) f Hf Hh).
  - intros (p & Hp & Hma & Hmb) f Hf.
    rewrite packet_match_ref in Hma, Hmb by (done || by apply plain_known).
    rewrite forallb_elem in Hma, Hmb. apply (overlap_field_exact a b); [done..|]. intros e He Hh.
    pose proof (proj1 (field_ok_exact a p f Ha Hpa Hf Hp) (Hma f Hf)).
    pose proof (proj1 (field_ok_exact b p e Hb Hpb He Hp) (Hmb e He)). congruence.
Qed.

Lemma match_std_overlap_exact_witness :
  match_std_overlap ex_exact (ofl_structs_match_put32 ofl_structs_match_init OXM_OF_IN_PORT 3) = true ∧
  ∃ packet, Forall tlv_wf (match_fields packet) ∧ packet_match ex_exact packet = true ∧
    packet_match (ofl_structs_match_put32 ofl_structs_match_init OXM_OF_IN_PORT 3) packet = true.
Proof.
  split; [vm_compute; reflexivity|].
  apply (match_std_overlap_exact ex_exact (ofl_structs_match_put32 ofl_structs_match_init OXM_OF_IN_PORT 3));
    [by_eval..|vm_compute; reflexivity].
Defined.

(** A match on one masked IPv4 destination. *)
Definition ipv4_dst_m (value mask : Z) : ofl_match :=
  ofl_structs_match_put32m ofl_structs_match_init OXM_OF_IPV4_DST_W value mask.

(** Masked fields break the three flow_mod comparisons.  (1) The strict
    comparison accepts two matches on [v/m] and [v'/m'] whenever the masks
    differ.  (2) The non-strict comparison reads masks in the inverse sense: a
    flow_mod on an exact address [v/32] covers every masked destination.
    (3) 10.0.0.0/8 and 10.1.0.0/16 both match 10.1.0.1, yet are declared not to
    overlap. *)
Theorem masked_comparisons_wrong :
  (∀ v v' m m', fits 32 m → fits 32 m' → m ≠ m' →
     match_std_strict (ipv4_dst_m v m) (ipv4_dst_m v' m') = true) ∧
  (∀ v v' m', match_std_nonstrict (ipv4_dst_m v 0xffffffff) (ipv4_dst_m v' m') = true) ∧
  (∃ packet, packet_match (ipv4_dst_m 0x0000000a 0x000000ff) packet = true ∧
             packet_match (ipv4_dst_m 0x0000010a 0x0000ffff) packet = true ∧
             match_std_overlap (ipv4_dst_m 0x0000000a 0x000000ff) (ipv4_dst_m 0x0000010a 0x0000ffff) = false).
Proof.
  split_and!.
  - intros v v' m m' Hm Hm' Hne.
    change ((strict_mask_ip (le_bytes 4 v ++ le_bytes 4 m) (le_bytes 4 v' ++ le_bytes 4 m')
              (le_bytes 4 m) (le_bytes 4 m') &&
            strict_mask32 (le_bytes 4 v ++ le_bytes 4 m) (le_bytes 4 v' ++ le_bytes 4 m')
              (le_bytes 4 m) (le_bytes 4 m')) && true = true).
    unfold strict_mask_ip, strict_mask32, strict_word.
    rewrite !rd32_le_bytes by done. by rewrite (proj2 (Z.eqb_neq _ _) Hne).
  - intros v v' m'.
    change (nonstrict_mask32 (le_bytes 4 v ++ le_bytes 4 0xffffffff) (le_bytes 4 v' ++ le_bytes 4 m')
              (le_bytes 4 0xffffffff) (le_bytes 4 m') && true = true).
    unfold nonstrict_mask32, nonstrict_word.
    change (unot 32 (rd32 (le_bytes 4 0xffffffff))) with 0. by rewrite !Z.land_0_l.
  - exists (ofl_structs_match_put32 ofl_structs_match_init OXM_OF_IPV4_DST 0x0100010a).
    vm_compute. auto.
Qed.
