(* ===== verification/ActionSet.v ===== *)
(** The action set of a packet: udatapath/action_set.c.

    A set is the list of its entries in the order they are executed.  Writing
    an action replaces the entry of the same kind or inserts a new entry at its
    place in the order of precedence; the scan stops at the first entry that
    decides, as in the source.  The abstract specification is a finite map from
    action kinds to actions ([set_map]); an action kind is the action type, and
    for set-field actions also the field. *)

From S2P Require Import Prelude OpenFlow.

Definition action_set_order (act : ofl_action) : Z :=
  match act with
  | ActCopyTtlOut => 40
  | ActCopyTtlIn => 10
  | ActSetField _ => 60
  | ActSetMplsTtl _ => 60
  | ActDecMplsTtl => 50
  | ActPushPbb _ => 30
  | ActPopPbb => 20
  | ActPushVlan _ => 30
  | ActPopVlan => 20
  | ActPushMpls _ => 30
  | ActPopMpls _ => 20
  | ActSetQueue _ => 70
  | ActGroup _ => 80
  | ActSetNwTtl _ => 60
  | ActDecNwTtl => 50
  | ActOutput _ _ => 90
  | ActExperimenter _ => 75
  end.

Record action_set_entry := AEntry { ae_action : ofl_action; ae_order : Z }.

Definition action_set := list action_set_entry.

Definition action_set_create : action_set := [].

Definition action_set_create_entry (act : ofl_action) : action_set_entry :=
  AEntry act (action_set_order act).

Definition action_set_clone (set : action_set) : action_set :=
  (λ entry, action_set_create_entry (ae_action entry)) <$> set.

(** Both are set-field actions and their fields differ: [continue]. *)
Definition other_field (entry new_entry : action_set_entry) : bool :=
  match ae_action entry, ae_action new_entry with
  | ActSetField act, ActSetField new_act => negb (tlv_header act =? tlv_header new_act)
  | _, _ => false
  end.

(** The LIST_FOR_EACH loop from some entry on. *)
Fixpoint write_scan (new_entry : action_set_entry) (set : action_set) : action_set :=
  match set with
  | [] => [new_entry]
  | entry :: rest =>
    if act_type (ae_action entry) =? act_type (ae_action new_entry) then
      if other_field entry new_entry then entry :: write_scan new_entry rest
      else new_entry :: rest
    else if ae_order new_entry <? ae_order entry then new_entry :: entry :: rest
    else entry :: write_scan new_entry rest
  end.

Definition action_set_write_action (set : action_set) (act : ofl_action) : action_set :=
  write_scan (action_set_create_entry act) set.

Definition action_set_write_actions (set : action_set) (actions : list ofl_action) : action_set :=
  foldl action_set_write_action set actions.

Definition action_set_clear_actions (set : action_set) : action_set := [].

(** * Specification *)

(** The kind of an action: a set holds at most one action of a kind. *)
Definition act_key (a : ofl_action) : Z * Z :=
  (act_type a, match a with ActSetField f => tlv_header f | _ => 0 end).

Definition e_key (e : action_set_entry) : Z * Z := act_key (ae_action e).

Definition set_map (set : action_set) : gmap (Z * Z) ofl_action :=
  list_to_map ((λ e, (e_key e, ae_action e)) <$> set).

(** Entries in order of precedence, one of each kind, with their own order. *)
Record set_inv (set : action_set) : Prop := {
  si_sorted : StronglySorted Z.le (ae_order <$> set);
  si_keys : NoDup (e_key <$> set);
  si_order : Forall (λ e, ae_order e = action_set_order (ae_action e)) set }.

(** ** Lemmas *)

Lemma type_order a b : act_type a = act_type b → action_set_order a = action_set_order b.
Proof. by destruct a, b. Qed.

Lemma key_type a b : act_key a = act_key b → act_type a = act_type b.
Proof. by intros [=]. Qed.

(** The two tests of the loop that lead to a replacement are equality of kinds. *)
Lemma replace_test e n :
  (act_type (ae_action e) =? act_type (ae_action n)) && negb (other_field e n) = true ↔
  act_key (ae_action e) = act_key (ae_action n).
Proof.
  rewrite andb_true_iff, negb_true_iff, Z.eqb_eq. unfold act_key, other_field.
  destruct (ae_action e), (ae_action n); simpl; try (split; [by intros [? _]|by intros [=]]); try done.
  rewrite negb_false_iff, Z.eqb_eq. split; [by intros [_ ->]|intros [=]; done].
Qed.

Lemma scan_cons n e rest :
  write_scan n (e :: rest) =
  if decide (act_key (ae_action e) = act_key (ae_action n)) then n :: rest
  else if decide (act_type (ae_action e) ≠ act_type (ae_action n) ∧ ae_order n < ae_order e)
       then n :: e :: rest else e :: write_scan n rest.
Proof.
  simpl. pose proof (replace_test e n) as Hr.
  destruct (Z.eqb_spec (act_type (ae_action e)) (act_type (ae_action n))) as [Ht|Ht],
    (other_field e n), (Z.ltb_spec (ae_order n) (ae_order e)); simpl in Hr;
    repeat case_decide; naive_solver lia.
Qed.

Lemma set_inv_cons e rest :
  set_inv (e :: rest) ↔
  ae_order e = action_set_order (ae_action e) ∧ Forall (λ x, ae_order e <= ae_order x) rest ∧
  (e_key e ∉ (e_key <$> rest)) ∧ set_inv rest.
Proof.
  split.
  - intros [Hs Hk Ho]. rewrite !fmap_cons in *. apply StronglySorted_inv in Hs as [Hs Hf].
    apply list.NoDup_cons in Hk as [Hk Hk']. apply Forall_cons_1 in Ho as [Ho Ho'].
    rewrite Forall_fmap in Hf. by repeat split.
  - intros (Ho & Hf & Hk & [Hs Hk' Ho']). split.
    + rewrite fmap_cons. constructor; [done|by rewrite Forall_fmap].
    + rewrite fmap_cons. by apply list.NoDup_cons.
    + by constructor.
Qed.

(** Past an entry that comes later in the order there is no entry of the kind. *)
Lemma later_key n (set : action_set) :
  Forall (λ e, ae_order e = action_set_order (ae_action e)) set →
  ae_order n = action_set_order (ae_action n) →
  Forall (λ x, ae_order n < ae_order x) set → e_key n ∉ (e_key <$> set).
Proof.
  intros Ho Hn Hl (x & Hk & Hx)%list_elem_of_fmap. rewrite list.Forall_forall in Ho, Hl.
  specialize (Ho x Hx). specialize (Hl x Hx). simpl in *.
  pose proof (type_order _ _ (key_type _ _ Hk)). lia.
Qed.

Lemma elem_of_scan n set x : x ∈ write_scan n set → x = n ∨ x ∈ set.
Proof.
  induction set as [|e rest IH]; [intros ?%list_elem_of_singleton; auto|].
  rewrite scan_cons. repeat case_decide; set_solver.
Qed.

Lemma scan_keys n set k :
  k ∈ (e_key <$> write_scan n set) → k = e_key n ∨ k ∈ (e_key <$> set).
Proof.
  intros (x & -> & [->|Hx]%elem_of_scan)%list_elem_of_fmap; [by left|right].
  by apply list_elem_of_fmap_2.
Qed.

Lemma scan_inv n set :
  ae_order n = action_set_order (ae_action n) → set_inv set → set_inv (write_scan n set).
Proof.
  intros Hn. induction set as [|e rest IH].
  { intros _. apply set_inv_cons. split_and!; [done|constructor|by apply not_elem_of_nil|split; constructor]. }
  intros Hi. pose proof Hi as (Ho & Hf & Hk & Hr)%set_inv_cons. rewrite scan_cons.
  destruct (decide _) as [Heq|Hne]; [|destruct (decide _) as [[Ht Hlt]|Hge]].
  - assert (ae_order n = ae_order e) as Hoe
      by (rewrite Hn, Ho; symmetry; apply type_order, key_type, Heq).
    apply set_inv_cons. split_and!; [done|by rewrite Hoe| |done].
    unfold e_key in *. by rewrite <- Heq.
  - assert (Forall (λ x, ae_order n < ae_order x) (e :: rest)) as Hl.
    { constructor; [done|]. eapply Forall_impl; [|exact Hf]. simpl. lia. }
    apply set_inv_cons. split_and!; [done| |by apply later_key; [apply Hi| |]|done].
    eapply Forall_impl; [|exact Hl]. simpl. lia.
  - apply set_inv_cons. split_and!; [done| | |by apply IH].
    + rewrite list.Forall_forall in Hf |- *. intros x [->|Hx]%elem_of_scan; [|by apply Hf].
      destruct (decide (act_type (ae_action e) = act_type (ae_action n))) as [Ht|Ht].
      * rewrite Ho, Hn, (type_order _ _ Ht). lia.
      * destruct (Z.lt_ge_cases (ae_order n) (ae_order e)); [|done]. by destruct Hge.
    + intros [?|?]%scan_keys; [by apply Hne|done].
Qed.

Lemma set_map_cons e rest : set_map (e :: rest) = <[e_key e := ae_action e]> (set_map rest).
Proof. done. Qed.

Lemma set_map_none set k : k ∉ (e_key <$> set) → set_map set !! k = None.
Proof.
  intros Hk. apply not_elem_of_list_to_map. rewrite <- list_fmap_compose. done.
Qed.

Lemma scan_map n set :
  ae_order n = action_set_order (ae_action n) → set_inv set →
  set_map (write_scan n set) = <[e_key n := ae_action n]> (set_map set).
Proof.
  intros Hn. induction set as [|e rest IH]; [done|].
  intros Hi. pose proof Hi as (Ho & Hf & Hk & Hr)%set_inv_cons. rewrite scan_cons.
  destruct (decide _) as [Heq|Hne]; [|destruct (decide _) as [[Ht Hlt]|Hge]]; rewrite !set_map_cons.
  - unfold e_key. rewrite Heq. by rewrite insert_insert_eq.
  - done.
  - rewrite IH by done. apply insert_insert_ne. done.
Qed.

Lemma create_entry_order act :
  ae_order (action_set_create_entry act) = action_set_order (ae_action (action_set_create_entry act)).
Proof. done. Qed.

(** The last action of each kind in a list of writes. *)
Definition writes (m : gmap (Z * Z) ofl_action) (actions : list ofl_action) : gmap (Z * Z) ofl_action :=
  foldl (λ m a, <[act_key a := a]> m) m actions.

Lemma write_actions_refine actions set :
  set_inv set →
  set_inv (action_set_write_actions set actions) ∧
  set_map (action_set_write_actions set actions) = writes (set_map set) actions.
Proof.
  revert set. induction actions as [|a actions IH]; intros set Hi; [done|]. simpl.
  destruct (IH (action_set_write_action set a)) as [Hi' Hm].
  - by apply scan_inv.
  - split; [done|]. rewrite Hm. unfold action_set_write_action. by rewrite scan_map.
Qed.

Lemma clone_eq set :
  Forall (λ e, ae_order e = action_set_order (ae_action e)) set → action_set_clone set = set.
Proof.
  induction 1 as [|[a o] set He _ IH]; [done|]. unfold action_set_clone in *. rewrite fmap_cons, IH.
  unfold action_set_create_entry. simpl in *. by rewrite <- He.
Qed.

(** * Properties *)

(** Writing an action to a well-formed action set keeps it well-formed
    (entries in the order of precedence, at most one of each kind) and is the
    insertion of the action under its kind: the previous action of the kind, if
    any, is replaced and all others stay. *)
Theorem action_set_write_action_refines (set : action_set) (act : ofl_action) (Hi : set_inv set) :
  set_inv (action_set_write_action set act) ∧
  set_map (action_set_write_action set act) = <[act_key act := act]> (set_map set).
Proof. split; [by apply scan_inv|by apply (scan_map (action_set_create_entry act))]. Qed.

Lemma action_set_write_action_witness :
  set_map (action_set_write_action
    (action_set_write_actions action_set_create [ActOutput 1 0; ActDecNwTtl]) (ActOutput 7 0))
  !! (0, 0) = Some (ActOutput 7 0).
Proof.
  destruct (action_set_write_action_refines
    (action_set_write_actions action_set_create [ActOutput 1 0; ActDecNwTtl]) (ActOutput 7 0)) as [_ ->].
  - apply write_actions_refine. split; constructor.
  - vm_compute. reflexivity.
Defined.

(** A clear-actions instruction followed by any write-actions instructions
    leaves, for each kind of action, exactly the last action written of that kind
    (whatever the set held before), sorted by the order of precedence; cloning the
    set gives an equal set. *)
Theorem action_set_contents (set : action_set) (actions : list ofl_action) :
  let s := action_set_write_actions (action_set_clear_actions set) actions in
  set_inv s ∧ set_map s = writes ∅ actions ∧ action_set_clone s = s.
Proof.
  intros s. destruct (write_actions_refine actions (action_set_clear_actions set)) as [Hi Hm].
  { split; constructor. }
  split_and!; [done|done|]. apply clone_eq, Hi.
Qed.
