(* ===== verification/Buffers.v ===== *)
(** Packets and the packet buffers that controllers refer to by id:
    udatapath/packet.c, udatapath/packet_handle_std.c, udatapath/dp_buffers.c.

    Packets live on a heap ([heap], from pointers to packets); the buffers are an
    array of 256 slots that point to packets.  An operation returns [None] when
    the C code would follow a pointer to a freed packet.  The clock is an
    argument: [time_now] returns a cached second count.

    Header decoding is done by the NetBee library through nblink_packet_parse:
    it is the parameter [parse], a function from the frame to the match fields and
    the headers it found. *)

From S2P Require Import Prelude Memory Ofpbuf OpenFlow MatchStd ActionSet.

Definition NO_BUFFER := 0xffffffff.
Definition PKT_BUFFER_BITS := 8.
Definition PKT_COOKIE_BITS := 32 - PKT_BUFFER_BITS.
Definition N_PKT_BUFFERS : nat := 256.
Definition PKT_BUFFER_MASK := 0xff.
Definition OVERWRITE_SECS := 1.

(** * Packets *)

(** Where decoding found the headers: offsets from the start of the frame. *)
Record protocols_std := Proto {
  pr_eth : option nat;
  pr_eth_snap : option nat;
  pr_vlan : option nat;
  pr_vlan_last : option nat;
  pr_mpls : option nat;
  pr_pbb : option nat;
  pr_ipv4 : option nat;
  pr_ipv6 : option nat;
  pr_arp : option nat;
  pr_tcp : option nat;
  pr_udp : option nat;
  pr_sctp : option nat;
  pr_icmp : option nat;
  pr_path : option nat;
  pr_arppath : option nat;
  pr_arppath_repair : option nat }.

Definition protocol_reset : protocols_std :=
  Proto None None None None None None None None None None None None None None None None.

(** [table_miss] is not set until the packet matches a flow entry. *)
Record packet_handle_std := Handle {
  ph_proto : protocols_std;
  ph_match : ofl_match;
  ph_valid : bool;
  ph_table_miss : option bool }.

Record packet := Packet {
  pk_buffer : ofpbuf;
  pk_in_port : Z;
  pk_action_set : action_set;
  pk_packet_out : bool;
  pk_out_group : Z;
  pk_out_port : Z;
  pk_out_port_max_len : Z;
  pk_out_queue : Z;
  pk_table_id : Z;
  pk_buffer_id : Z;
  pk_handle_std : packet_handle_std }.

Definition set_buffer_id (p : packet) (id : Z) : packet :=
  Packet (pk_buffer p) (pk_in_port p) (pk_action_set p) (pk_packet_out p) (pk_out_group p)
    (pk_out_port p) (pk_out_port_max_len p) (pk_out_queue p) (pk_table_id p) id (pk_handle_std p).
Definition set_packet_out (p : packet) (b : bool) : packet :=
  Packet (pk_buffer p) (pk_in_port p) (pk_action_set p) b (pk_out_group p)
    (pk_out_port p) (pk_out_port_max_len p) (pk_out_queue p) (pk_table_id p) (pk_buffer_id p) (pk_handle_std p).

(** The value of a 64-bit field of a match, 0 when it is not there.  The loops
    over the nodes with the field's hash see at most one node of the field. *)
Definition get64 (header : Z) (m : ofl_match) : Z :=
  match oxm_match_lookup header m with Some f => rd64 (tlv_value f) | None => 0 end.

Section packet.
  Context `{Malloc}.
  Context (parse : list Z → option (ofl_match * protocols_std)).

Definition packet_handle_std_validate (data : list Z) (in_port : Z) (h : packet_handle_std) : packet_handle_std :=
  if ph_valid h then h else
  let metadata := get64 OXM_OF_METADATA (ph_match h) in
  let tunnel_id := get64 OXM_OF_TUNNEL_ID (ph_match h) in
  match parse data with
  | None => Handle protocol_reset ofl_structs_match_init false (ph_table_miss h)
  | Some (m, proto) =>
    let m := ofl_structs_match_put32 m OXM_OF_IN_PORT in_port in
    let m := ofl_structs_match_put64 m OXM_OF_METADATA metadata in
    let m := ofl_structs_match_put64 m OXM_OF_TUNNEL_ID tunnel_id in
    Handle proto m true (ph_table_miss h)
  end.

Definition packet_handle_std_create (data : list Z) (in_port : Z) : packet_handle_std :=
  packet_handle_std_validate data in_port (Handle protocol_reset ofl_structs_match_init false None).

Definition packet_handle_std_clone (data : list Z) (in_port : Z) : packet_handle_std :=
  packet_handle_std_validate data in_port (Handle protocol_reset ofl_structs_match_init false None).

(** The handle after the check, and the answer: no when the MPLS TTL is 0 or 1 or
    the IPv4 TTL is 0. *)
Definition packet_handle_std_is_ttl_valid (data : list Z) (in_port : Z) (h : packet_handle_std) :
    option (packet_handle_std * bool) :=
  let h := packet_handle_std_validate data in_port h in
  mpls_ok ← match pr_mpls (ph_proto h) with
            | Some mpls => fields ← ld 4 data mpls; Some (negb (Z.land (bswap32 fields) 0xff <=? 1))
            | None => Some true
            end;
  if negb mpls_ok then Some (h, false)
  else match pr_ipv4 (ph_proto h) with
       | Some ipv4 => ttl ← ld 1 data (ipv4 + 8); Some (h, negb (ttl <? 1))
       | None => Some (h, true)
       end.

Definition packet_handle_std_match (data : list Z) (in_port : Z) (h : packet_handle_std) (m : ofl_match) :
    packet_handle_std * bool :=
  let h := packet_handle_std_validate data in_port h in
  (h, if ph_valid h then packet_match m (ph_match h) else false).

Definition packet_create (in_port : Z) (buf : ofpbuf) (packet_out : bool) : packet :=
  Packet buf in_port action_set_create packet_out OFPG_ANY OFPP_ANY 0 0 0 NO_BUFFER
    (packet_handle_std_create (contents buf) in_port).

(** A clone has a copy of the frame and a fresh handle, and no action set. *)
Definition packet_clone (pkt : packet) : option packet :=
  buf ← ofpbuf_clone (pk_buffer pkt);
  Some (Packet buf (pk_in_port pkt) action_set_create (pk_packet_out pkt) OFPG_ANY OFPP_ANY 0 0
    (pk_table_id pkt) NO_BUFFER (packet_handle_std_clone (contents buf) (pk_in_port pkt))).

End packet.

(** * Buffers *)

Record packet_buffer := PBuf { pb_pkt : option positive; pb_cookie : Z; pb_timeout : Z }.

Record dp_buffers := DpBuffers {
  buffer_idx : Z;
  buffers : list packet_buffer;
  heap : gmap positive packet }.

Definition dp_buffers_create (h : gmap positive packet) : dp_buffers :=
  DpBuffers (2 ^ 64 - 1) (replicate N_PKT_BUFFERS (PBuf None 0xffffffff 0)) h.

Definition dp_buffers_size (dpb : dp_buffers) : nat := N_PKT_BUFFERS.

Definition slot_of (id : Z) : nat := Z.to_nat (Z.land id PKT_BUFFER_MASK).
Definition cookie_of (id : Z) : Z := Z.shiftr id PKT_BUFFER_BITS.
Definition make_id (i : nat) (cookie : Z) : Z := Z.lor (Z.of_nat i) (Z.shiftl cookie PKT_BUFFER_BITS).

Definition dp_buffers_is_alive (dpb : dp_buffers) (now id : Z) : bool :=
  match buffers dpb !! slot_of id with
  | Some p => (pb_cookie p =? cookie_of id) && (now <? pb_timeout p)
  | None => false
  end.

(** [destroy] is false in every call. *)
Definition dp_buffers_discard (dpb : dp_buffers) (id : Z) : dp_buffers :=
  match buffers dpb !! slot_of id with
  | Some p => if pb_cookie p =? cookie_of id
              then DpBuffers (buffer_idx dpb)
                     (<[slot_of id := PBuf None (pb_cookie p) (pb_timeout p)]> (buffers dpb)) (heap dpb)
              else dpb
  | None => dpb
  end.

Definition packet_destroy (dpb : dp_buffers) (now : Z) (ptr : positive) : option dp_buffers :=
  match heap dpb !! ptr with
  | None => None
  | Some pkt =>
    if negb (pk_buffer_id pkt =? NO_BUFFER) && dp_buffers_is_alive dpb now (pk_buffer_id pkt) then Some dpb
    else
      let dpb := if pk_buffer_id pkt =? NO_BUFFER then dpb else dp_buffers_discard dpb (pk_buffer_id pkt) in
      Some (DpBuffers (buffer_idx dpb) (buffers dpb) (delete ptr (heap dpb)))
  end.

Definition next_cookie (cookie : Z) : Z :=
  let c := u32 (cookie + 1) in
  if Z.shiftl 1 PKT_COOKIE_BITS - 1 <=? c then 0 else c.

Definition dp_buffers_save (dpb : dp_buffers) (now : Z) (ptr : positive) : option (dp_buffers * Z) :=
  match heap dpb !! ptr with
  | None => None
  | Some pkt =>
    if negb (pk_buffer_id pkt =? NO_BUFFER) && dp_buffers_is_alive dpb now (pk_buffer_id pkt)
    then Some (dpb, pk_buffer_id pkt)
    else
      let idx := Z.land (u64 (buffer_idx dpb + 1)) PKT_BUFFER_MASK in
      let i := Z.to_nat idx in
      let dpb := DpBuffers idx (buffers dpb) (heap dpb) in
      match buffers dpb !! i with
      | None => None
      | Some p =>
        (* the occupant of the slot: refuse, or evict it *)
        let evict :=
          match pb_pkt p with
          | None => Some (Some dpb)
          | Some q =>
            if now <? pb_timeout p then Some None
            else match heap dpb !! q with
                 | None => None
                 | Some qk =>
                   Some <$> packet_destroy
                     (DpBuffers idx (buffers dpb) (<[q := set_buffer_id qk NO_BUFFER]> (heap dpb))) now q
                 end
          end in
        match evict with
        | None => None
        | Some None => Some (dpb, NO_BUFFER)
        | Some (Some dpb) =>
          let cookie := next_cookie (pb_cookie p) in
          let id := make_id i cookie in
          match heap dpb !! ptr with
          | None => None
          | Some pkt =>
            Some (DpBuffers idx (<[i := PBuf (Some ptr) cookie (now + OVERWRITE_SECS)]> (buffers dpb))
                    (<[ptr := set_buffer_id pkt id]> (heap dpb)), id)
          end
        end
      end
  end.

Definition dp_buffers_retrieve (dpb : dp_buffers) (id : Z) : option (dp_buffers * option positive) :=
  match buffers dpb !! slot_of id with
  | None => None
  | Some p =>
    if pb_cookie p =? cookie_of id then
      match pb_pkt p with
      | None => Some (dpb, None)
      | Some q =>
        match heap dpb !! q with
        | None => None
        | Some qk =>
          Some (DpBuffers (buffer_idx dpb)
                  (<[slot_of id := PBuf None (pb_cookie p) (pb_timeout p)]> (buffers dpb))
                  (<[q := set_packet_out (set_buffer_id qk NO_BUFFER) false]> (heap dpb)), Some q)
        end
      end
    else Some (dpb, None)
  end.

(** * Specification *)

(** The cookies in use leave the all-ones id free. *)
Definition good_cookie (c : Z) : Prop := 0 <= c < 2 ^ 24 - 1.

(** Slots and packets point to each other; a packet is in one slot at most. *)
Record buf_inv (dpb : dp_buffers) : Prop := {
  bi_len : length (buffers dpb) = N_PKT_BUFFERS;
  bi_cookie : ∀ i p, buffers dpb !! i = Some p → good_cookie (pb_cookie p) ∨
                (pb_cookie p = 0xffffffff ∧ pb_pkt p = None);
  bi_slot : ∀ i p q, buffers dpb !! i = Some p → pb_pkt p = Some q →
              ∃ pk, heap dpb !! q = Some pk ∧ pk_buffer_id pk = make_id i (pb_cookie p);
  bi_pkt : ∀ q pk, heap dpb !! q = Some pk → pk_buffer_id pk ≠ NO_BUFFER →
              ∃ i p, buffers dpb !! i = Some p ∧ pb_pkt p = Some q ∧
                     pk_buffer_id pk = make_id i (pb_cookie p) }.

(** The packet [q] waits in the buffer under [id] until [timeout]. *)
Definition held (dpb : dp_buffers) (id : Z) (q : positive) (timeout : Z) : Prop :=
  buffers dpb !! slot_of id = Some (PBuf (Some q) (cookie_of id) timeout).

(** The requests the rest of the switch makes. *)
Inductive buf_op := BSave (ptr : positive) | BRetrieve (id : Z) | BDestroy (ptr : positive) | BCreate (ptr : positive) (pk : packet).

Definition buf_step (dpb : dp_buffers) (now : Z) (op : buf_op) : option dp_buffers :=
  match op with
  | BSave ptr => fst <$> dp_buffers_save dpb now ptr
  | BRetrieve id => fst <$> dp_buffers_retrieve dpb id
  | BDestroy ptr => packet_destroy dpb now ptr
  | BCreate ptr pk => Some (DpBuffers (buffer_idx dpb) (buffers dpb) (<[ptr := pk]> (heap dpb)))
  end.

(** What a caller owes: live pointers; no second save of a packet whose
    buffer has expired (the NOTE of dp_buffers.c); new packets are unbuffered. *)
Definition op_ok (dpb : dp_buffers) (now : Z) (op : buf_op) : Prop :=
  match op with
  | BSave ptr => ∃ pk, heap dpb !! ptr = Some pk ∧
      (pk_buffer_id pk = NO_BUFFER ∨ dp_buffers_is_alive dpb now (pk_buffer_id pk) = true)
  | BRetrieve id => fits 32 id
  | BDestroy ptr => is_Some (heap dpb !! ptr)
  | BCreate ptr pk => heap dpb !! ptr = None ∧ pk_buffer_id pk = NO_BUFFER
  end.

(** Steps taken up to time [until], none of them asking for [id]. *)
Inductive buf_steps (id until : Z) : dp_buffers → dp_buffers → Prop :=
| buf_done dpb : buf_steps id until dpb dpb
| buf_more dpb op now dpb' dpb'' :
    now < until → op_ok dpb now op → op ≠ BRetrieve id → buf_step dpb now op = Some dpb' →
    buf_steps id until dpb' dpb'' → buf_steps id until dpb dpb''.

(** ** Ids *)

Lemma make_id_eq i c : (i < 256)%nat → make_id i c = Z.of_nat i + 256 * c.
Proof.
  intros Hi. unfold make_id, PKT_BUFFER_BITS.
  assert (Z.land (Z.of_nat i) (Z.shiftl c 8) = 0) as Hd.
  { apply Z.bits_inj'. intros n Hn. rewrite Z.land_spec, Z.shiftl_spec, Z.bits_0 by done.
    destruct (Z.lt_ge_cases n 8); [by rewrite (Z.testbit_neg_r c), andb_false_r by lia|].
    by rewrite (fits_high 8) by (done || (unfold fits; lia)). }
  rewrite <- (Z.lxor_lor _ _ Hd), <- (Z.add_nocarry_lxor _ _ Hd), Z.shiftl_mul_pow2 by lia. lia.
Qed.

Lemma slot_of_eq id : slot_of id = Z.to_nat (id mod 256).
Proof. unfold slot_of, PKT_BUFFER_MASK. change 0xff with (Z.ones 8). by rewrite Z.land_ones by lia. Qed.

Lemma cookie_of_eq id : cookie_of id = id / 256.
Proof. unfold cookie_of, PKT_BUFFER_BITS. by rewrite Z.shiftr_div_pow2 by lia. Qed.

Lemma slot_of_lt id : (slot_of id < 256)%nat.
Proof. rewrite slot_of_eq. pose proof (Z.mod_pos_bound id 256). lia. Qed.

Lemma slot_make i c : (i < 256)%nat → slot_of (make_id i c) = i.
Proof.
  intros. rewrite slot_of_eq, make_id_eq by done. rewrite Z.mul_comm, Z_mod_plus_full, Z.mod_small; lia.
Qed.

Lemma cookie_make i c : (i < 256)%nat → cookie_of (make_id i c) = c.
Proof. intros. rewrite cookie_of_eq, make_id_eq by done. rewrite Z.mul_comm, Z_div_plus_full, Z.div_small; lia. Qed.

Lemma make_id_split id : make_id (slot_of id) (cookie_of id) = id.
Proof.
  rewrite make_id_eq by apply slot_of_lt. rewrite slot_of_eq, cookie_of_eq.
  pose proof (Z.mod_pos_bound id 256). rewrite Z2Nat.id by lia. pose proof (Z.div_mod id 256). lia.
Qed.

Lemma make_id_no_buffer i c : (i < 256)%nat → good_cookie c → make_id i c ≠ NO_BUFFER.
Proof. intros Hi Hc. rewrite make_id_eq by done. unfold good_cookie, NO_BUFFER in *. lia. Qed.

Lemma next_cookie_good c : good_cookie c ∨ c = 0xffffffff → good_cookie (next_cookie c).
Proof.
  unfold next_cookie, good_cookie, PKT_COOKIE_BITS, PKT_BUFFER_BITS.
  change (Z.shiftl 1 (32 - 8) - 1) with (2 ^ 24 - 1). intros [Hc| ->]; [|vm_compute; intuition congruence].
  unfold u32. rewrite wrap_small by (unfold fits; lia).
  destruct (Z.leb_spec (2 ^ 24 - 1) (c + 1)); lia.
Qed.

(** ** The invariant *)

Lemma slot_lt dpb i p : buf_inv dpb → buffers dpb !! i = Some p → (i < 256)%nat.
Proof. intros Hi Hl. apply lookup_lt_Some in Hl. by rewrite (bi_len _ Hi) in Hl. Qed.

Lemma make_id_inj i j c d : (i < 256)%nat → (j < 256)%nat → make_id i c = make_id j d → i = j.
Proof. intros Hi Hj H. rewrite <- (slot_make i c), <- (slot_make j d) by done. by rewrite H. Qed.

(** A packet is in at most one slot. *)
Lemma slot_unique dpb i j p p' q :
  buf_inv dpb → buffers dpb !! i = Some p → buffers dpb !! j = Some p' →
  pb_pkt p = Some q → pb_pkt p' = Some q → i = j.
Proof.
  intros Hi Hp Hp' Hq Hq'.
  destruct (bi_slot _ Hi _ _ _ Hp Hq) as (pk & Hk & Hid).
  destruct (bi_slot _ Hi _ _ _ Hp' Hq') as (pk' & Hk' & Hid').
  eapply make_id_inj; [by eapply slot_lt|by eapply slot_lt|]. simplify_eq. by rewrite <- Hid.
Qed.

(** A slot that is occupied has a good cookie, so its id is a real id. *)
Lemma slot_id dpb i p q :
  buf_inv dpb → buffers dpb !! i = Some p → pb_pkt p = Some q →
  good_cookie (pb_cookie p) ∧ make_id i (pb_cookie p) ≠ NO_BUFFER.
Proof.
  intros Hi Hp Hq. destruct (bi_cookie _ Hi _ _ Hp) as [Hc|[_ ?]]; [|congruence].
  split; [done|]. apply make_id_no_buffer; [by eapply slot_lt|done].
Qed.

(** Taking the packet out of its slot, whether it is then freed or kept. *)
Lemma inv_clear dpb i p q idx h :
  buf_inv dpb → buffers dpb !! i = Some p → pb_pkt p = Some q →
  (∀ q', q' ≠ q → h !! q' = heap dpb !! q') →
  (∀ pk, h !! q = Some pk → pk_buffer_id pk = NO_BUFFER) →
  buf_inv (DpBuffers idx (<[i := PBuf None (pb_cookie p) (pb_timeout p)]> (buffers dpb)) h).
Proof.
  intros Hi Hp Hq Hh Hno. pose proof (slot_lt _ _ _ Hi Hp).
  assert (i < length (buffers dpb))%nat as Hlt by by eapply lookup_lt_Some.
  split; simpl.
  - rewrite length_insert. apply Hi.
  - intros j p' [(-> & <- & _)|[Hne Hj]]%list_lookup_insert_Some; [|by apply (bi_cookie _ Hi j)].
    simpl. destruct (slot_id _ _ _ _ Hi Hp Hq). by left.
  - intros j p' q' [(-> & <- & _)|[Hne Hj]]%list_lookup_insert_Some Hq'; [done|].
    assert (q' ≠ q) as Hqq. { intros ->. apply Hne. by eapply slot_unique. }
    rewrite Hh by done. by apply (bi_slot _ Hi j).
  - intros q' pk Hk Hid. assert (q' ≠ q) as Hqq. { intros ->. by apply Hid, Hno. }
    rewrite Hh in Hk by done. destruct (bi_pkt _ Hi _ _ Hk Hid) as (j & p' & Hj & Hq' & Hid').
    exists j, p'. split; [|done]. rewrite list_lookup_insert_ne; [done|]. intros ->. congruence.
Qed.

(** Putting an unbuffered packet into an empty slot. *)
Lemma inv_fill dpb i p ptr pk c t idx :
  buf_inv dpb → buffers dpb !! i = Some p → pb_pkt p = None → good_cookie c →
  heap dpb !! ptr = Some pk → pk_buffer_id pk = NO_BUFFER →
  buf_inv (DpBuffers idx (<[i := PBuf (Some ptr) c t]> (buffers dpb))
             (<[ptr := set_buffer_id pk (make_id i c)]> (heap dpb))).
Proof.
  intros Hi Hp Hn Hc Hk Hno. pose proof (slot_lt _ _ _ Hi Hp).
  assert (i < length (buffers dpb))%nat as Hlt by by eapply lookup_lt_Some.
  assert (∀ j p' q, buffers dpb !! j = Some p' → pb_pkt p' = Some q → q ≠ ptr) as Hptr.
  { intros j p' q Hj Hq ->. destruct (bi_slot _ Hi _ _ _ Hj Hq) as (pk' & Hk' & Hid).
    destruct (slot_id _ _ _ _ Hi Hj Hq) as [_ Hne]. congruence. }
  split; simpl.
  - rewrite length_insert. apply Hi.
  - intros j p' [(-> & <- & _)|[Hne Hj]]%list_lookup_insert_Some; [by left|by apply (bi_cookie _ Hi j)].
  - intros j p' q [(-> & <- & _)|[Hne Hj]]%list_lookup_insert_Some Hq.
    + simplify_eq/=. eexists. by rewrite lookup_insert_eq.
    + rewrite lookup_insert_ne by (symmetry; by eapply Hptr). by apply (bi_slot _ Hi j).
  - intros q pk' [[<- <-]|[Hne Hk']]%lookup_insert_Some Hid.
    + exists i. eexists. rewrite list_lookup_insert_eq by done. by split_and!.
    + destruct (bi_pkt _ Hi _ _ Hk' Hid) as (j & p' & Hj & Hq & Hid'). exists j, p'. split; [|done].
      rewrite list_lookup_insert_ne; [done|]. intros ->. congruence.
Qed.

(** ** Operations *)

(** What an operation at time [now] must leave alone: the invariant, and every
    packet that waits in a buffer under an id other than [except]. *)
Definition preserves (now : Z) (except : option Z) (dpb dpb' : dp_buffers) : Prop :=
  buf_inv dpb' ∧
  ∀ id q t, held dpb id q t → now < t → except ≠ Some id → held dpb' id q t.

Lemma preserves_idx now e dpb idx :
  buf_inv dpb → preserves now e dpb (DpBuffers idx (buffers dpb) (heap dpb)).
Proof. intros Hi. split; [|done]. destruct Hi. by split. Qed.

(** Changing a slot whose packet, if any, has expired. *)
Lemma held_other dpb idx h i p x now id q t :
  buffers dpb !! i = Some p → (pb_pkt p = None ∨ pb_timeout p <= now) → now < t →
  held dpb id q t → held (DpBuffers idx (<[i := x]> (buffers dpb)) h) id q t.
Proof.
  unfold held. simpl. intros Hp Ho Ht Hh. rewrite list_lookup_insert_ne; [done|].
  intros ->. rewrite Hh in Hp. destruct Ho; simplify_eq/=; lia.
Qed.

Lemma alive_slot dpb now i p :
  buf_inv dpb → buffers dpb !! i = Some p →
  dp_buffers_is_alive dpb now (make_id i (pb_cookie p)) = (now <? pb_timeout p).
Proof.
  intros Hi Hp. pose proof (slot_lt _ _ _ Hi Hp). unfold dp_buffers_is_alive.
  rewrite slot_make, Hp, cookie_make by done. by rewrite Z.eqb_refl.
Qed.

Lemma destroy_ok dpb now ptr e :
  buf_inv dpb → is_Some (heap dpb !! ptr) →
  ∃ dpb', packet_destroy dpb now ptr = Some dpb' ∧ preserves now e dpb dpb'.
Proof.
  intros Hi [pk Hk]. unfold packet_destroy. rewrite Hk.
  destruct (Z.eqb_spec (pk_buffer_id pk) NO_BUFFER) as [Hno|Hno]; simpl.
  - eexists. split; [done|]. split; [|done]. split; simpl; [apply Hi|apply Hi| |].
    + intros i p q Hp Hq. destruct (bi_slot _ Hi _ _ _ Hp Hq) as (pk' & Hk' & Hid).
      exists pk'. rewrite lookup_delete_ne; [done|]. intros ->.
      destruct (slot_id _ _ _ _ Hi Hp Hq). congruence.
    + intros q pk' [Hne Hk']%lookup_delete_Some. by apply (bi_pkt _ Hi).
  - destruct (bi_pkt _ Hi _ _ Hk Hno) as (i & p & Hp & Hq & Hid).
    rewrite Hid, alive_slot by done. destruct (Z.ltb_spec now (pb_timeout p)) as [Hlt|Hge].
    { eexists. split; [done|]. by split. }
    pose proof (slot_lt _ _ _ Hi Hp). eexists. split; [done|].
    unfold dp_buffers_discard. rewrite slot_make, Hp, cookie_make, Z.eqb_refl by done. simpl. split.
    + eapply inv_clear; [done..| |]; simpl.
      * intros q' Hne. by rewrite lookup_delete_ne.
      * intros pk'. by rewrite lookup_delete_eq.
    + intros id q t Hh Ht _. eapply held_other; [exact Hp|right; exact Hge|exact Ht|exact Hh].
Qed.

Lemma retrieve_ok dpb now id :
  buf_inv dpb →
  ∃ dpb' r, dp_buffers_retrieve dpb id = Some (dpb', r) ∧ preserves now (Some id) dpb dpb' ∧
    (∀ q t, held dpb id q t → r = Some q).
Proof.
  intros Hi. unfold dp_buffers_retrieve, held.
  destruct (lookup_lt_is_Some_2 (buffers dpb) (slot_of id)) as [p Hp].
  { rewrite (bi_len _ Hi). apply slot_of_lt. }
  rewrite Hp. destruct (Z.eqb_spec (pb_cookie p) (cookie_of id)) as [Hc|Hc].
  2:{ eexists _, _. split_and!; [done|by split|]. intros q t [= ->]. done. }
  destruct (pb_pkt p) as [q|] eqn:Hq.
  2:{ eexists _, _. split_and!; [done|by split|]. intros q t [= ->]. done. }
  destruct (bi_slot _ Hi _ _ _ Hp Hq) as (pk & Hk & Hid). rewrite Hk.
  eexists _, _. split_and!; [done| |]; [split|].
  - eapply inv_clear; [done..| |]; simpl.
    + intros q' Hne. by rewrite lookup_insert_ne.
    + intros pk'. rewrite lookup_insert_eq. by intros [= <-].
  - intros id' q' t Hh Ht Hne. unfold held in *. simpl. rewrite list_lookup_insert_ne; [done|].
    intros Heq. apply Hne. f_equal. rewrite <- (make_id_split id), <- (make_id_split id'), Heq.
    rewrite <- Heq, Hp in Hh. simplify_eq/=. congruence.
  - intros q' t [= ->]. simpl in Hq. congruence.
Qed.

Lemma idx_lt x : (Z.to_nat (Z.land x PKT_BUFFER_MASK) < 256)%nat.
Proof. apply (slot_of_lt x). Qed.

(** A save finds the packet buffered, is refused, or buffers it. *)
Lemma save_ok dpb now ptr :
  buf_inv dpb → op_ok dpb now (BSave ptr) →
  ∃ dpb' id, dp_buffers_save dpb now ptr = Some (dpb', id) ∧ preserves now None dpb dpb' ∧
    (id ≠ NO_BUFFER → ∃ t, held dpb' id ptr t ∧ now < t).
Proof.
  intros Hi (pk & Hk & Hpre). unfold dp_buffers_save. rewrite Hk.
  destruct (Z.eqb_spec (pk_buffer_id pk) NO_BUFFER) as [Hno|Hno]; simpl.
  2:{ destruct Hpre as [?|Ha]; [done|]. rewrite Ha. eexists _, _. split_and!; [done|by split|].
      intros _. destruct (bi_pkt _ Hi _ _ Hk Hno) as (i & p & Hp & Hq & Hid).
      pose proof (slot_lt _ _ _ Hi Hp). rewrite Hid, alive_slot in Ha by done. exists (pb_timeout p).
      unfold held. rewrite Hid, slot_make, cookie_make, Hp, <- Hq by done. destruct p.
      split; [done|]. by apply Z.ltb_lt in Ha. }
  set (idx := Z.land _ _). pose proof (idx_lt (u64 (buffer_idx dpb + 1))) as Hlt. fold idx in Hlt.
  set (i := Z.to_nat idx) in *.
  destruct (lookup_lt_is_Some_2 (buffers dpb) i) as [p Hp]; [by rewrite (bi_len _ Hi)|]. rewrite Hp.
  set (c := next_cookie (pb_cookie p)). assert (good_cookie c) as Hc.
  { apply next_cookie_good. destruct (bi_cookie _ Hi _ _ Hp) as [?|[? _]]; auto. }
  destruct (pb_pkt p) as [q|] eqn:Hq; simpl.
  - destruct (Z.ltb_spec now (pb_timeout p)) as [|Hge].
    { eexists _, _. split_and!; [done|by apply preserves_idx|done]. }
    destruct (bi_slot _ Hi _ _ _ Hp Hq) as (qk & Hqk & Hid). rewrite Hqk.
    assert (q ≠ ptr) as Hne. { intros ->. destruct (slot_id _ _ _ _ Hi Hp Hq). congruence. }
    unfold packet_destroy. simpl. rewrite lookup_insert_eq. simpl.
    rewrite lookup_delete_ne, lookup_insert_ne, Hk by done.
    eexists _, _. split_and!; [done| |]; [split|].
    + assert (buf_inv (DpBuffers idx (<[i:=PBuf None (pb_cookie p) (pb_timeout p)]> (buffers dpb))
                (delete q (heap dpb)))) as Hi'.
      { eapply inv_clear; [done..| |].
        - intros q' Hq'. by rewrite lookup_delete_ne.
        - intros pk'. by rewrite lookup_delete_eq. }
      rewrite delete_insert_eq, <- (list_insert_insert_eq _ i _ (PBuf None (pb_cookie p) (pb_timeout p))).
      eapply (inv_fill (DpBuffers _ _ _)); [exact Hi'| | |done| |done]; cbn [buffers heap].
      * apply list_lookup_insert_eq. by rewrite (bi_len _ Hi).
      * done.
      * change (delete q (heap dpb) !! ptr = Some pk). by rewrite lookup_delete_ne.
    + intros id' q' t Hh Ht _. eapply held_other; [exact Hp|right; exact Hge|exact Ht|exact Hh].
    + intros _. exists (now + OVERWRITE_SECS). unfold held, OVERWRITE_SECS. simpl.
      rewrite slot_make, cookie_make by done. rewrite list_lookup_insert_eq by (by rewrite (bi_len _ Hi)).
      split; [done|lia].
  - rewrite Hk. eexists _, _. split_and!; [done| |]; [split|].
    + by eapply inv_fill.
    + intros id' q' t Hh Ht _. eapply held_other; [exact Hp|by left|exact Ht|exact Hh].
    + intros _. exists (now + OVERWRITE_SECS). unfold held, OVERWRITE_SECS. simpl.
      rewrite slot_make, cookie_make by done. rewrite list_lookup_insert_eq by (by rewrite (bi_len _ Hi)).
      split; [done|lia].
Qed.

Lemma step_ok dpb now op :
  buf_inv dpb → op_ok dpb now op →
  ∃ dpb', buf_step dpb now op = Some dpb' ∧
    preserves now (match op with BRetrieve id => Some id | _ => None end) dpb dpb'.
Proof.
  intros Hi Hok. destruct op as [ptr|id|ptr|ptr pk]; simpl.
  - destruct (save_ok dpb now ptr Hi Hok) as (dpb' & id & -> & Hp & _). by exists dpb'.
  - destruct (retrieve_ok dpb now id Hi) as (dpb' & r & -> & Hp & _). by exists dpb'.
  - by apply destroy_ok.
  - destruct Hok as [Hn Hid]. eexists. split; [done|]. split; [|done].
    split; simpl; [apply Hi|apply Hi| |].
    + intros i p q Hp Hq. destruct (bi_slot _ Hi _ _ _ Hp Hq) as (qk & Hk & Hq').
      exists qk. rewrite lookup_insert_ne; [done|congruence].
    + intros q pk' [[<- <-]|[Hne Hk]]%lookup_insert_Some; [done|]. by apply (bi_pkt _ Hi).
Qed.

Lemma steps_held id until dpb dpb' q t :
  buf_steps id until dpb dpb' → until <= t → buf_inv dpb → held dpb id q t →
  buf_inv dpb' ∧ held dpb' id q t.
Proof.
  intros Hs Ht. induction Hs as [|dpb op now dpb' dpb'' Hn Hok Hne Hstep _ IH]; [done|].
  intros Hi Hh. destruct (step_ok dpb now op Hi Hok) as (d & Hd & Hi' & Hp).
  rewrite Hstep in Hd. simplify_eq. apply IH; [done|]. apply Hp; [done|lia|].
  destruct op; congruence.
Qed.

Lemma create_inv h : map_Forall (λ _ pk, pk_buffer_id pk = NO_BUFFER) h → buf_inv (dp_buffers_create h).
Proof.
  intros Hh. split; cbn [buffers heap dp_buffers_create].
  - apply length_replicate.
  - intros i p [-> _]%lookup_replicate. by right.
  - intros i p q [-> _]%lookup_replicate. done.
  - intros q pk Hk. by rewrite (Hh _ _ Hk).
Qed.

(** * Properties *)

(** The buffers never lead to a dangling pointer or to two owners.  From a
    state where slots and packets point to each other (which holds initially),
    every sequence of operations its callers may make succeeds and keeps that
    invariant: in particular no operation touches a freed packet, and an evicted
    or expired packet is freed only when its slot no longer points to it. *)
Theorem buffers_invariant (dpb : dp_buffers) (now : Z) (op : buf_op)
    (Hi : buf_inv dpb) (Hok : op_ok dpb now op) :
  ∃ dpb', buf_step dpb now op = Some dpb' ∧ buf_inv dpb' ∧
    ∀ i j p p' q, buffers dpb' !! i = Some p → buffers dpb' !! j = Some p' →
      pb_pkt p = Some q → pb_pkt p' = Some q → i = j.
Proof.
  destruct (step_ok dpb now op Hi Hok) as (dpb' & Hs & Hi' & _).
  exists dpb'. split_and!; [done|done|]. intros. by eapply slot_unique.
Qed.

Definition ex_pkt : packet := packet_create (λ _, None) 3 (ofpbuf_use []) false.
Definition ex_bufs : dp_buffers := dp_buffers_create {[ 1%positive := ex_pkt ]}.

Lemma buffers_invariant_witness :
  ∃ dpb', buf_step ex_bufs 10 (BSave 1%positive) = Some dpb' ∧ buf_inv dpb' ∧
    ∀ i j p p' q, buffers dpb' !! i = Some p → buffers dpb' !! j = Some p' →
      pb_pkt p = Some q → pb_pkt p' = Some q → i = j.
Proof.
  apply (buffers_invariant ex_bufs 10 (BSave 1%positive)).
  - apply create_inv. intros q pk [<- <-]%lookup_singleton_Some. reflexivity.
  - exists ex_pkt. split; [reflexivity|]. left. reflexivity.
Defined.

(** A packet sent to the controller can be called back.  When a save at time
    [now] returns an id (other than the "no buffer" value), then after any other
    operations made within the second that follows, on any packets including this
    one, retrieving the id gives the very same packet; other packets never take
    its slot in that time. *)
Theorem save_then_retrieve (dpb dpb' dpb'' : dp_buffers) (now id : Z) (ptr : positive)
    (Hi : buf_inv dpb) (Hf : ∃ pk, heap dpb !! ptr = Some pk ∧ pk_buffer_id pk = NO_BUFFER)
    (Hs : dp_buffers_save dpb now ptr = Some (dpb', id)) (Hid : id ≠ NO_BUFFER)
    (Hsteps : buf_steps id (now + 1) dpb' dpb'') :
  ∃ dpb''', dp_buffers_retrieve dpb'' id = Some (dpb''', Some ptr).
Proof.
  destruct Hf as (pk & Hk & Hno).
  destruct (save_ok dpb now ptr Hi ltac:(by exists pk; auto)) as (d & i & Hs' & [Hi' _] & Hh).
  rewrite Hs in Hs'. simplify_eq. destruct (Hh Hid) as (t & Hheld & Ht).
  assert (now + 1 <= t) as Hle by lia.
  destruct (steps_held _ _ _ _ _ _ Hsteps Hle Hi' Hheld) as [Hi'' Hheld'].
  destruct (retrieve_ok dpb'' now i Hi'') as (d' & r & Hr & _ & Hq).
  exists d'. by rewrite Hr, (Hq _ _ Hheld').
Qed.

Lemma save_then_retrieve_witness :
  ∃ dpb' id dpb''', dp_buffers_save ex_bufs 10 1 = Some (dpb', id) ∧
    dp_buffers_retrieve dpb' id = Some (dpb''', Some 1%positive).
Proof.
  destruct (dp_buffers_save ex_bufs 10 1) as [[dpb' id]|] eqn:E; [|vm_compute in E; discriminate].
  exists dpb', id.
  destruct (save_then_retrieve ex_bufs dpb' dpb' 10 id 1) as [d Hd]; [| |exact E| |constructor|].
  - apply create_inv. intros q pk [<- <-]%lookup_singleton_Some. reflexivity.
  - exists ex_pkt. split; reflexivity.
  - vm_compute in E. injection E as _ <-. discriminate.
  - exists d. split; [reflexivity|exact Hd].
Defined.
