(* ===== verification/PacketActions.v ===== *)
(** The actions that edit a packet: udatapath/dp_actions.c.

    A packet's frame is the window of its [ofpbuf]; the header pointers are where
    decoding found the headers.  Every load and store is checked against the block
    of the buffer, and a header that is not there is a NULL pointer: an action
    returns [None] when the C code would follow NULL or leave the block.  Field
    values are in memory order, as in the frame.

    [set_field] is a switch over the OXM header of the field; here it is the table
    [set_field_cases] of the cases with the code of each. *)

From S2P Require Import Prelude Memory Csum Crc32 Ofpbuf OpenFlow MatchStd ActionSet Buffers.

(** * Layout of the headers (lib/packets.h) *)

Definition ETH_HEADER_LEN : nat := 14.
Definition LLC_HEADER_LEN : nat := 3.
Definition SNAP_HEADER_LEN : nat := 5.
Definition VLAN_HEADER_LEN : nat := 4.
Definition MPLS_HEADER_LEN : nat := 4.
Definition PBB_HEADER_LEN : nat := 18.
Definition IP_HEADER_LEN : nat := 20.
Definition IPV6_HEADER_LEN : nat := 40.

(** Offsets of the members used. *)
Definition o_eth_dst : nat := 0.
Definition o_eth_src : nat := 6.
Definition o_eth_type : nat := 12.
Definition o_snap_type : nat := 3.
Definition o_vlan_tci : nat := 0.
Definition o_vlan_next_type : nat := 2.
Definition o_ip_ihl_ver : nat := 0.
Definition o_ip_tos : nat := 1.
Definition o_ip_ttl : nat := 8.
Definition o_ip_proto : nat := 9.
Definition o_ip_csum : nat := 10.
Definition o_ip_src : nat := 12.
Definition o_ip_dst : nat := 16.
Definition o_ipv6_ver_tc_fl : nat := 0.
Definition o_ipv6_hop_limit : nat := 7.
Definition o_ipv6_src : nat := 8.
Definition o_ipv6_dst : nat := 24.
Definition o_icmp_type : nat := 0.
Definition o_icmp_code : nat := 1.
Definition o_icmp_csum : nat := 2.
Definition o_udp_csum : nat := 6.
Definition o_tcp_csum : nat := 16.
Definition o_sctp_csum : nat := 8.
Definition o_pbb_id : nat := 0.
Definition o_c_eth_dst : nat := 4.
Definition o_pbb_next_type : nat := 16.
Definition o_path_op : nat := 20.
Definition o_path_mac_dst : nat := 21.
Definition o_path_id_dp : nat := 27.
Definition o_path_secuence : nat := 29.
Definition o_ar_op : nat := 6.
Definition o_ar_sha : nat := 8.
Definition o_ar_spa : nat := 14.
Definition o_ar_tha : nat := 18.
Definition o_ar_tpa : nat := 24.
Definition o_arpt_sw1 : nat := 28.

Definition VLAN_PCP_MASK := 0xe000.
Definition IP_DSCP_MASK := 0xfc.
Definition IP_ECN_MASK := 0x03.
Definition IPV6_DSCP_MASK := 0x0fc00000.
Definition IPV6_ECN_MASK := 0x0003.
Definition IPV6_FLABEL_MASK := 0x000fffff.
Definition MPLS_TTL_MASK := 0x000000ff.
Definition MPLS_S_MASK := 0x00000100.
Definition MPLS_TC_MASK := 0x00000e00.
Definition MPLS_LABEL_MASK := 0xfffff000.
Definition ND_OPT_SLL := 1.
Definition ND_OPT_TLL := 2.

(** [htons], [ntohs], [htonl], [ntohl]: the argument is converted to the width. *)
Definition htons (x : Z) : Z := bswap16 (u16 x).
Definition htonl (x : Z) : Z := bswap32 (u32 x).

(** Replacing the bits of [mask] in a w-bit word. *)
Definition put_bits (w x mask v : Z) : Z := Z.lor (Z.land x (unot w mask)) v.

(** * Setting a field *)


Section setters.
  Context (P : (protocols_std → option nat) → option nat) (tail : nat).
  Context (len : nat) (value : list Z) (mem : list Z).

(** [memcpy(h->f, act->field->value, OXM_LENGTH(act->field->header))] *)
Definition set_copy (h : protocols_std → option nat) (off : nat) : option (list Z) :=
  p ← P h; bs ← mread value 0 len; mwrite mem (p + off) bs.

(** [h->f = htons( *(uint16_t * ) value)]; [w] is the width of the member. *)
Definition set_net16 (h : protocols_std → option nat) (off w : nat) : option (list Z) :=
  p ← P h; v ← ld 2 value 0; st w mem (p + off) (htons v).

(** [h->f = *(uint32_t * ) value] *)
Definition set_word32 (h : protocols_std → option nat) (off : nat) : option (list Z) :=
  p ← P h; v ← ld 4 value 0; st 4 mem (p + off) v.

Definition set_vlan_vid : option (list Z) :=
  match P pr_vlan with
  | None => Some mem
  | Some vlan =>
    v ← ld 2 value 0; tci ← ld 2 mem (vlan + o_vlan_tci);
    st 2 mem (vlan + o_vlan_tci) (htons (put_bits 16 (htons tci) VLAN_VID_MASK (Z.land v VLAN_VID_MASK)))
  end.

(** A new type of service, and the checksum for it. *)
Definition set_tos (ipv4 : nat) (tos : Z) : option (list Z) :=
  ihl_ver ← ld 1 mem (ipv4 + o_ip_ihl_ver); old ← ld 1 mem (ipv4 + o_ip_tos); csum ← ld 2 mem (ipv4 + o_ip_csum);
  let old_val := htons (Z.shiftl ihl_ver 8 + old) in
  let new_val := htons (Z.shiftl ihl_ver 8 + tos) in
  mem ← st 2 mem (ipv4 + o_ip_csum) (Csum.recalc_csum16 csum old_val new_val);
  st 1 mem (ipv4 + o_ip_tos) tos.

Definition set_ip_dscp : option (list Z) :=
  match P pr_ipv4, P pr_ipv6 with
  | Some ipv4, _ =>
    v ← ld 1 value 0; old ← ld 1 mem (ipv4 + o_ip_tos);
    set_tos ipv4 (u8 (put_bits 8 old IP_DSCP_MASK (Z.shiftl v 2)))
  | None, Some ipv6 =>
    v ← ld 1 value 0; w ← ld 4 mem (ipv6 + o_ipv6_ver_tc_fl);
    st 4 mem (ipv6 + o_ipv6_ver_tc_fl) (put_bits 32 w (htonl IPV6_DSCP_MASK) (htonl (Z.shiftl v 22)))
  | None, None => Some mem
  end.

(** Without a VLAN tag the case runs on into the next one. *)
Definition set_vlan_pcp : option (list Z) :=
  match P pr_vlan with
  | None => set_ip_dscp
  | Some vlan =>
    v ← ld 1 value 0; tci ← ld 2 mem (vlan + o_vlan_tci);
    st 2 mem (vlan + o_vlan_tci) (put_bits 16 tci (htons VLAN_PCP_MASK) (htons (Z.shiftl v 13)))
  end.

Definition set_ip_ecn : option (list Z) :=
  match P pr_ipv4, P pr_ipv6 with
  | Some ipv4, _ =>
    v ← ld 1 value 0; old ← ld 1 mem (ipv4 + o_ip_tos);
    set_tos ipv4 (put_bits 8 old IP_ECN_MASK (Z.land v IP_ECN_MASK))
  | None, Some ipv6 =>
    v ← ld 1 value 0; w ← ld 4 mem (ipv6 + o_ipv6_ver_tc_fl);
    st 4 mem (ipv6 + o_ipv6_ver_tc_fl) (put_bits 32 w (htonl IPV6_ECN_MASK) (htonl (Z.shiftl v 20)))
  | None, None => Some mem
  end.

Definition set_ip_proto : option (list Z) :=
  ipv4 ← P pr_ipv4; proto ← ld 1 value 0;
  ttl ← ld 1 mem (ipv4 + o_ip_ttl); old ← ld 1 mem (ipv4 + o_ip_proto); csum ← ld 2 mem (ipv4 + o_ip_csum);
  let old_val := htons (Z.shiftl ttl 8 + old) in
  let new_val := htons (Z.shiftl ttl 8 + proto) in
  mem ← st 2 mem (ipv4 + o_ip_csum) (Csum.recalc_csum16 csum old_val new_val);
  st 1 mem (ipv4 + o_ip_proto) proto.

(** The checksum of the TCP or UDP header, which covers the addresses too. *)
Definition l4_csum : option nat :=
  match P pr_tcp, P pr_udp with
  | Some tcp, _ => Some (tcp + o_tcp_csum)%nat
  | None, Some udp => Some (udp + o_udp_csum)%nat
  | None, None => None
  end.

Definition set_ipv4_addr (off : nat) : option (list Z) :=
  ipv4 ← P pr_ipv4; v ← ld 4 value 0; old ← ld 4 mem (ipv4 + off);
  mem ← match l4_csum with
        | Some p => c ← ld 2 mem p; st 2 mem p (Csum.recalc_csum32 c old v)
        | None => Some mem
        end;
  old ← ld 4 mem (ipv4 + off); csum ← ld 2 mem (ipv4 + o_ip_csum);
  mem ← st 2 mem (ipv4 + o_ip_csum) (Csum.recalc_csum32 csum old v);
  st 4 mem (ipv4 + off) v.

(** A TCP or UDP port; the path header starts like a TCP header. *)
Definition set_port (h : protocols_std → option nat) (csum_off off : nat) : option (list Z) :=
  p ← P h; v ← ld 2 value 0; old ← ld 2 mem (p + off); csum ← ld 2 mem (p + csum_off);
  let v := htons v in
  mem ← st 2 mem (p + csum_off) (Csum.recalc_csum16 csum old v);
  st 2 mem (p + off) v.

Definition set_sctp_port (off : nat) : option (list Z) :=
  sctp ← P pr_sctp; v ← ld 2 value 0;
  mem ← st 4 mem (sctp + o_sctp_csum) 0;
  mem ← st 2 mem (sctp + off) (htons v);
  data ← mread mem sctp (tail - sctp);
  crc ← crc_update crc_init data;
  st 4 mem (sctp + o_sctp_csum) (crc_finalize crc).

Definition set_icmp (is_type : bool) : option (list Z) :=
  icmp ← P pr_icmp; v ← ld 1 value 0;
  type ← ld 1 mem (icmp + o_icmp_type); code ← ld 1 mem (icmp + o_icmp_code); csum ← ld 2 mem (icmp + o_icmp_csum);
  let old_val := htons (Z.shiftl type 8 + code) in
  let new_val := if is_type then htons (Z.shiftl v 8 + code) else htons (Z.shiftl type 8 + v) in
  mem ← st 2 mem (icmp + o_icmp_csum) (Csum.recalc_csum16 csum old_val new_val);
  st 1 mem (icmp + (if is_type then o_icmp_type else o_icmp_code)) v.

Definition set_path_secuence : option (list Z) :=
  path ← P pr_path; v ← ld 4 value 0; st 4 mem (path + o_path_secuence) (htons v).

Definition set_ipv6_addr (off : nat) : option (list Z) :=
  ipv6 ← P pr_ipv6;
  mem ← match l4_csum with
        | Some p =>
          c ← ld 2 mem p; old ← mread mem (ipv6 + off) 16; v ← mread value 0 16;
          st 2 mem p (Csum.recalc_csum128 c old v)
        | None => Some mem
        end;
  bs ← mread value 0 len; mwrite mem (ipv6 + off) bs.

Definition set_ipv6_flabel : option (list Z) :=
  ipv6 ← P pr_ipv6; v ← ld 4 value 0; w ← ld 4 mem (ipv6 + o_ipv6_ver_tc_fl);
  st 4 mem (ipv6 + o_ipv6_ver_tc_fl) (put_bits 32 w (htonl IPV6_FLABEL_MASK) (htonl (Z.land v IPV6_FLABEL_MASK))).

Definition set_nd_target : option (list Z) :=
  icmp ← P pr_icmp; old ← mread mem (icmp + 8) len; bs ← mread value 0 len;
  mem ← mwrite mem (icmp + 8) bs;
  csum ← ld 2 mem (icmp + o_icmp_csum); v ← mread value 0 16;
  st 2 mem (icmp + o_icmp_csum) (Csum.recalc_csum128 csum old v).

Definition set_nd_ll : option (list Z) :=
  icmp ← P pr_icmp;
  let opt := (icmp + 4 + 20)%nat in
  type ← ld 1 mem opt;
  if (type =? ND_OPT_SLL) || (type =? ND_OPT_TLL) then
    old16 ← ld 2 mem (opt + 2); old32 ← ld 4 mem (opt + 4);
    bs ← mread value 0 len; mem ← mwrite mem (opt + 2) bs;
    new16 ← ld 2 value 0; new32 ← ld 4 value 2;
    csum ← ld 2 mem (icmp + o_icmp_csum);
    st 2 mem (icmp + o_icmp_csum) (Csum.recalc_csum32 (Csum.recalc_csum16 csum old16 new16) old32 new32)
  else Some mem.

Definition set_mpls_bits (mask v : Z) : option (list Z) :=
  mpls ← P pr_mpls; w ← ld 4 mem mpls; st 4 mem mpls (put_bits 32 w (htonl mask) (htonl (Z.land v mask))).

Definition set_mpls_label : option (list Z) := v ← ld 4 value 0; set_mpls_bits MPLS_LABEL_MASK (u32 (Z.shiftl v 12)).
Definition set_mpls_tc : option (list Z) := v ← ld 1 value 0; set_mpls_bits MPLS_TC_MASK (Z.shiftl v 9).
Definition set_mpls_bos : option (list Z) := v ← ld 1 value 0; set_mpls_bits MPLS_S_MASK (Z.shiftl v 8).

(** The second byte is used twice. *)
Definition set_pbb_isid : option (list Z) :=
  pbb ← P pr_pbb; w ← ld 4 mem (pbb + o_pbb_id); b1 ← ld 1 value 1; b2 ← ld 1 value 2;
  st 4 mem (pbb + o_pbb_id)
    (Z.lor (Z.land w 0xff) (Z.lor (Z.lor (Z.shiftl b2 24) (Z.shiftl b1 16)) (Z.shiftl b1 8))).
End setters.

(** The cases of the switch: what each does to the block. *)
Definition set_field_cases (P : (protocols_std → option nat) → option nat) (tail len : nat) (value : list Z) :
    list (Z * (list Z → option (list Z))) :=
  let copy h off := λ mem, set_copy P len value mem h off in
  let net16 h off w := λ mem, set_net16 P value mem h off w in
  let word32 h off := λ mem, set_word32 P value mem h off in
  let port h csum off := λ mem, set_port P value mem h csum off in
  [ (OXM_OF_ETH_DST, copy pr_eth o_eth_dst);
    (OXM_OF_ETH_SRC, copy pr_eth o_eth_src);
    (OXM_OF_ETH_TYPE, net16 pr_eth o_eth_type 2%nat);
    (OXM_OF_VLAN_VID, set_vlan_vid P value);
    (OXM_OF_VLAN_PCP, set_vlan_pcp P value);
    (OXM_OF_IP_DSCP, set_ip_dscp P value);
    (OXM_OF_IP_ECN, set_ip_ecn P value);
    (OXM_OF_IP_PROTO, set_ip_proto P value);
    (OXM_OF_IPV4_SRC, λ mem, set_ipv4_addr P value mem o_ip_src);
    (OXM_OF_IPV4_DST, λ mem, set_ipv4_addr P value mem o_ip_dst);
    (OXM_OF_TCP_SRC, port pr_tcp o_tcp_csum 0%nat);
    (OXM_OF_TCP_DST, port pr_tcp o_tcp_csum 2%nat);
    (OXM_OF_UDP_SRC, port pr_udp o_udp_csum 0%nat);
    (OXM_OF_UDP_DST, port pr_udp o_udp_csum 2%nat);
    (OXM_OF_SCTP_SRC, λ mem, set_sctp_port P tail value mem 0);
    (OXM_OF_SCTP_DST, λ mem, set_sctp_port P tail value mem 2);
    (OXM_OF_ICMPV4_TYPE, λ mem, set_icmp P value mem true);
    (OXM_OF_ICMPV6_TYPE, λ mem, set_icmp P value mem true);
    (OXM_OF_ICMPV4_CODE, λ mem, set_icmp P value mem false);
    (OXM_OF_ICMPV6_CODE, λ mem, set_icmp P value mem false);
    (OXM_OF_PATH_OP, net16 pr_path o_path_op 1%nat);
    (OXM_OF_PATH_MAC_DST, copy pr_path o_path_mac_dst);
    (OXM_OF_PATH_TCP_SRC, port pr_path o_tcp_csum 0%nat);
    (OXM_OF_PATH_TCP_DST, port pr_path o_tcp_csum 2%nat);
    (OXM_OF_PATH_ID_SWITCH, net16 pr_path o_path_id_dp 2%nat);
    (OXM_OF_PATH_SECUENCE, set_path_secuence P value);
    (OXM_OF_PATH_SALTOS, net16 pr_path o_path_secuence 4%nat);
    (OXM_OF_ARPPATH_OP, net16 pr_arppath o_ar_op 2%nat);
    (OXM_OF_ARPPATH_SPA, word32 pr_arppath o_ar_spa);
    (OXM_OF_ARPPATH_TPA, word32 pr_arppath o_ar_tpa);
    (OXM_OF_ARPPATH_SHA, copy pr_arppath o_ar_sha);
    (OXM_OF_ARPPATH_THA, copy pr_arppath o_ar_tha);
    (OXM_OF_ARPPATH_SW1, word32 pr_arppath o_arpt_sw1);
    (OXM_OF_ARPPATH_SW2, word32 pr_arppath (o_arpt_sw1 + 4)%nat);
    (OXM_OF_ARPPATH_SW3, word32 pr_arppath (o_arpt_sw1 + 8)%nat);
    (OXM_OF_ARPPATH_SW4, word32 pr_arppath (o_arpt_sw1 + 12)%nat);
    (OXM_OF_ARPPATH_SW5, word32 pr_arppath (o_arpt_sw1 + 16)%nat);
    (OXM_OF_ARPPATH_SW6, word32 pr_arppath (o_arpt_sw1 + 20)%nat);
    (OXM_OF_ARPPATH_SW7, word32 pr_arppath (o_arpt_sw1 + 24)%nat);
    (OXM_OF_ARPPATH_SW8, word32 pr_arppath (o_arpt_sw1 + 28)%nat);
    (OXM_OF_ARPPATH_SW9, word32 pr_arppath (o_arpt_sw1 + 32)%nat);
    (OXM_OF_ARPPATH_SW10, word32 pr_arppath (o_arpt_sw1 + 36)%nat);
    (OXM_OF_ARP_REP_OP, net16 pr_arppath_repair 0%nat 2%nat);
    (OXM_OF_ARP_REP_SCR, copy pr_arppath_repair 2%nat);
    (OXM_OF_ARP_REP_DST, copy pr_arppath_repair 8%nat);
    (OXM_OF_ARP_OP, net16 pr_arp o_ar_op 2%nat);
    (OXM_OF_ARP_SPA, word32 pr_arp o_ar_spa);
    (OXM_OF_ARP_TPA, word32 pr_arp o_ar_tpa);
    (OXM_OF_ARP_SHA, copy pr_arp o_ar_sha);
    (OXM_OF_ARP_THA, copy pr_arp o_ar_tha);
    (OXM_OF_IPV6_SRC, λ mem, set_ipv6_addr P len value mem o_ipv6_src);
    (OXM_OF_IPV6_DST, λ mem, set_ipv6_addr P len value mem o_ipv6_dst);
    (OXM_OF_IPV6_FLABEL, set_ipv6_flabel P value);
    (OXM_OF_IPV6_ND_TARGET, set_nd_target P len value);
    (OXM_OF_IPV6_ND_SLL, set_nd_ll P len value);
    (OXM_OF_IPV6_ND_TLL, set_nd_ll P len value);
    (OXM_OF_MPLS_LABEL, set_mpls_label P value);
    (OXM_OF_MPLS_TC, set_mpls_tc P value);
    (OXM_OF_MPLS_BOS, set_mpls_bos P value);
    (OXM_OF_PBB_ISID, set_pbb_isid P value) ].

(** * Packets *)

Definition set_handle (p : packet) (h : packet_handle_std) : packet :=
  Packet (pk_buffer p) (pk_in_port p) (pk_action_set p) (pk_packet_out p) (pk_out_group p)
    (pk_out_port p) (pk_out_port_max_len p) (pk_out_queue p) (pk_table_id p) (pk_buffer_id p) h.
Definition set_buffer (p : packet) (b : ofpbuf) : packet :=
  Packet b (pk_in_port p) (pk_action_set p) (pk_packet_out p) (pk_out_group p)
    (pk_out_port p) (pk_out_port_max_len p) (pk_out_queue p) (pk_table_id p) (pk_buffer_id p) (pk_handle_std p).
Definition set_out_port (p : packet) (port max_len : Z) : packet :=
  Packet (pk_buffer p) (pk_in_port p) (pk_action_set p) (pk_packet_out p) (pk_out_group p)
    port max_len (pk_out_queue p) (pk_table_id p) (pk_buffer_id p) (pk_handle_std p).
Definition set_out_queue (p : packet) (queue : Z) : packet :=
  Packet (pk_buffer p) (pk_in_port p) (pk_action_set p) (pk_packet_out p) (pk_out_group p)
    (pk_out_port p) (pk_out_port_max_len p) queue (pk_table_id p) (pk_buffer_id p) (pk_handle_std p).
Definition set_out_group (p : packet) (group : Z) : packet :=
  Packet (pk_buffer p) (pk_in_port p) (pk_action_set p) (pk_packet_out p) group
    (pk_out_port p) (pk_out_port_max_len p) (pk_out_queue p) (pk_table_id p) (pk_buffer_id p) (pk_handle_std p).

Definition set_valid (h : packet_handle_std) (valid : bool) : packet_handle_std :=
  Handle (ph_proto h) (ph_match h) valid (ph_table_miss h).

(** A packet with an edited buffer whose headers must be decoded again. *)
Definition edited (p : packet) (b : ofpbuf) : packet := set_handle (set_buffer p b) (set_valid (pk_handle_std p) false).

(** Overwriting the 64-bit value of a field of the match. *)
Definition match_set64 (header v : Z) (m : ofl_match) : ofl_match :=
  Match (match_length m)
    ((λ f, if tlv_header f =? header then Tlv header (le_bytes 8 v ++ drop 8 (tlv_value f)) else f) <$> match_fields m).

(** * Actions *)

Definition output (pkt : packet) (port max_len : Z) : packet :=
  set_out_port pkt port (if port =? OFPP_CONTROLLER then max_len else pk_out_port_max_len pkt).

Definition set_queue (pkt : packet) (queue_id : Z) : packet := set_out_queue pkt queue_id.
Definition group (pkt : packet) (group_id : Z) : packet := set_out_group pkt group_id.

(** [a - b] on [size_t] values and pointers, where a wrap would be an error. *)
Definition usub (a b : nat) : option nat := if (b <=? a)%nat then Some (a - b)%nat else None.

Section actions.
  Context `{Malloc}.
  Context (parse : list Z → option (ofl_match * protocols_std)).

(** [packet_handle_std_validate(pkt->handle_std)] *)
Definition validate (pkt : packet) : packet :=
  set_handle pkt (packet_handle_std_validate parse (contents (pk_buffer pkt)) (pk_in_port pkt) (pk_handle_std pkt)).

(** A member of [pkt->handle_std->proto], as a pointer into the block. *)
Definition ptr (pkt : packet) (h : protocols_std → option nat) : option nat :=
  (λ off, (ob_data (pk_buffer pkt) + off)%nat) <$> h (ph_proto (pk_handle_std pkt)).

Definition set_field_mem (pkt : packet) (field : ofl_match_tlv) : option (list Z) :=
  let b := pk_buffer pkt in
  let len := Z.to_nat (OXM_LENGTH (tlv_header field)) in
  match list_find (λ c, c.1 = tlv_header field) (set_field_cases (ptr pkt) (ofpbuf_tail b) len (tlv_value field)) with
  | Some (_, (_, f)) => f (ob_mem b)
  | None => Some (ob_mem b)
  end.

Definition set_field_match (h : packet_handle_std) (field : ofl_match_tlv) : option packet_handle_std :=
  if tlv_header field =? OXM_OF_TUNNEL_ID then
    match oxm_match_lookup OXM_OF_TUNNEL_ID (ph_match h) with
    | Some _ => v ← ld 8 (tlv_value field) 0;
                Some (Handle (ph_proto h) (match_set64 OXM_OF_TUNNEL_ID v (ph_match h)) (ph_valid h) (ph_table_miss h))
    | None => Some h
    end
  else Some h.

Definition set_field (pkt : packet) (field : ofl_match_tlv) : option packet :=
  let pkt := validate pkt in
  if ph_valid (pk_handle_std pkt) then
    h ← set_field_match (pk_handle_std pkt) field;
    mem ← set_field_mem pkt field;
    Some (edited (set_handle pkt h) (set_mem (pk_buffer pkt) mem))
  else Some pkt.

(** A TTL action edits the frame in place and leaves the handle valid. *)
Definition in_place (pkt : packet) (r : option (list Z)) : option packet :=
  mem ← r; Some (set_buffer pkt (set_mem (pk_buffer pkt) mem)).

(** There may be an IP header after the label: the size test of the TTL actions. *)
Definition room_for_ip (b : ofpbuf) : bool :=
  (ETH_HEADER_LEN + MPLS_HEADER_LEN + IP_HEADER_LEN <=? ob_size b)%nat ||
  (ETH_HEADER_LEN + MPLS_HEADER_LEN + IPV6_HEADER_LEN <=? ob_size b)%nat.

Definition copy_ttl_out (pkt : packet) : option packet :=
  let pkt := validate pkt in
  let mem := ob_mem (pk_buffer pkt) in
  match ptr pkt pr_mpls with
  | None => Some pkt
  | Some mpls => in_place pkt (
    fields ← ld 4 mem mpls;
    let next := (mpls + MPLS_HEADER_LEN)%nat in
    let put ttl := st 4 mem mpls (put_bits 32 fields (htonl MPLS_TTL_MASK) ttl) in
    if Z.land (htonl fields) MPLS_S_MASK =? 0 then
      inner ← ld 4 mem next; put (Z.land inner (htonl MPLS_TTL_MASK))
    else if room_for_ip (pk_buffer pkt) then
      first ← ld 1 mem next;
      if Z.shiftr first 4 =? 4 then ttl ← ld 1 mem (next + o_ip_ttl); put (htonl (Z.land ttl MPLS_TTL_MASK))
      else if Z.shiftr first 4 =? 6 then
        ttl ← ld 1 mem (next + o_ipv6_hop_limit); put (htonl (Z.land ttl MPLS_TTL_MASK))
      else Some mem
    else Some mem)
  end.

(** A new IPv4 TTL, with the checksum of the word it shares with the protocol. *)
Definition set_ipv4_ttl (mem : list Z) (ipv4 : nat) (new_ttl : Z) : option (list Z) :=
  proto ← ld 1 mem (ipv4 + o_ip_proto); ttl ← ld 1 mem (ipv4 + o_ip_ttl); csum ← ld 2 mem (ipv4 + o_ip_csum);
  let old_val := htons (proto + Z.shiftl ttl 8) in
  let new_val := htons (proto + Z.shiftl new_ttl 8) in
  mem ← st 2 mem (ipv4 + o_ip_csum) (Csum.recalc_csum16 csum old_val new_val);
  st 1 mem (ipv4 + o_ip_ttl) new_ttl.

Definition copy_ttl_in (pkt : packet) : option packet :=
  let pkt := validate pkt in
  let mem := ob_mem (pk_buffer pkt) in
  match ptr pkt pr_mpls with
  | None => Some pkt
  | Some mpls => in_place pkt (
    fields ← ld 4 mem mpls;
    let next := (mpls + MPLS_HEADER_LEN)%nat in
    let new_ttl := Z.land (htonl fields) MPLS_TTL_MASK in
    if Z.land (htonl fields) MPLS_S_MASK =? 0 then
      inner ← ld 4 mem next;
      st 4 mem next (put_bits 32 inner (htonl MPLS_TTL_MASK) (Z.land fields (htonl MPLS_TTL_MASK)))
    else if room_for_ip (pk_buffer pkt) then
      first ← ld 1 mem next;
      if Z.shiftr first 4 =? 4 then set_ipv4_ttl mem next new_ttl
      else if Z.shiftr first 4 =? 6 then st 1 mem (next + o_ipv6_hop_limit) new_ttl
      else Some mem
    else Some mem)
  end.

Definition set_mpls_ttl (pkt : packet) (mpls_ttl : Z) : option packet :=
  let pkt := validate pkt in
  match ptr pkt pr_mpls with
  | None => Some pkt
  | Some _ => in_place pkt (set_mpls_bits (ptr pkt) (ob_mem (pk_buffer pkt)) MPLS_TTL_MASK mpls_ttl)
  end.

Definition dec_mpls_ttl (pkt : packet) : option packet :=
  let pkt := validate pkt in
  let mem := ob_mem (pk_buffer pkt) in
  match ptr pkt pr_mpls with
  | None => Some pkt
  | Some mpls => in_place pkt (
    fields ← ld 4 mem mpls;
    let ttl := Z.land (htonl fields) MPLS_TTL_MASK in
    let ttl := if 0 <? ttl then ttl - 1 else ttl in
    st 4 mem mpls (put_bits 32 fields (htonl MPLS_TTL_MASK) (htonl ttl)))
  end.

Definition set_nw_ttl (pkt : packet) (nw_ttl : Z) : option packet :=
  let pkt := validate pkt in
  let mem := ob_mem (pk_buffer pkt) in
  match ptr pkt pr_ipv4, ptr pkt pr_ipv6 with
  | Some ipv4, _ => in_place pkt (set_ipv4_ttl mem ipv4 nw_ttl)
  | None, Some ipv6 => in_place pkt (st 1 mem (ipv6 + o_ipv6_hop_limit) nw_ttl)
  | None, None => Some pkt
  end.

Definition dec_nw_ttl (pkt : packet) : option packet :=
  let pkt := validate pkt in
  let mem := ob_mem (pk_buffer pkt) in
  match ptr pkt pr_ipv4, ptr pkt pr_ipv6 with
  | Some ipv4, _ => in_place pkt (
    ttl ← ld 1 mem (ipv4 + o_ip_ttl); if 0 <? ttl then set_ipv4_ttl mem ipv4 (ttl - 1) else Some mem)
  | None, Some ipv6 => in_place pkt (
    ttl ← ld 1 mem (ipv6 + o_ipv6_hop_limit);
    if 0 <? ttl then st 1 mem (ipv6 + o_ipv6_hop_limit) (ttl - 1) else Some mem)
  | None, None => Some pkt
  end.

(** * Pushing and popping headers *)

Definition eth_size (snap : option nat) : nat :=
  match snap with None => ETH_HEADER_LEN | Some _ => (ETH_HEADER_LEN + LLC_HEADER_LEN + SNAP_HEADER_LEN)%nat end.

(** Room for [n] bytes after the first [off] bytes of the frame: in the headroom,
    by moving those bytes back; otherwise at the tail, by moving the rest of the
    frame up.  [from] is where the bytes moved back start. *)
Definition open_front (b : ofpbuf) (from off n : nat) : option ofpbuf :=
  let b := Ofpbuf (ob_mem b) (ob_data b - n) (ob_size b + n) in
  mem ← memmove (ob_mem b) (ob_data b) from off; Some (set_mem b mem).
Definition open_back (b : ofpbuf) (off n : nat) : option ofpbuf :=
  let b := (ofpbuf_put_uninit b n).1 in
  rest ← usub (ob_size b) off;
  mem ← memmove (ob_mem b) (ob_data b + off + n) (ob_data b + off) rest; Some (set_mem b mem).

(** The 802.3 length, [d] more. *)
Definition add_length (mem : list Z) (eth : nat) (d : Z) : option (list Z) :=
  t ← ld 2 mem (eth + o_eth_type); st 2 mem (eth + o_eth_type) (htons (htons t + d)).

(** The new tag: the second half of [push_vlan], after the gap was opened. *)
Definition fill_vlan (b : ofpbuf) (snap : option nat) (size : nat) (new_vlan : option nat) (ethertype : Z) :
    option (list Z) :=
  let mem := ob_mem b in
  let new_eth := ob_data b in
  let push_vlan := (new_eth + size)%nat in
  tci ← match new_vlan with None => Some 0 | Some v => ld 2 mem (v + o_vlan_tci) end;
  mem ← st 2 mem (push_vlan + o_vlan_tci) tci;
  match snap with
  | Some _ =>
    let new_snap := (new_eth + ETH_HEADER_LEN + LLC_HEADER_LEN)%nat in
    t ← ld 2 mem (new_snap + o_snap_type);
    mem ← st 2 mem (push_vlan + o_vlan_next_type) t;
    mem ← st 2 mem (new_snap + o_snap_type) (htons ethertype);
    add_length mem new_eth (Z.of_nat VLAN_HEADER_LEN)
  | None =>
    t ← ld 2 mem (new_eth + o_eth_type);
    mem ← st 2 mem (push_vlan + o_vlan_next_type) t;
    st 2 mem (new_eth + o_eth_type) (htons ethertype)
  end.

Definition push_vlan (pkt : packet) (ethertype : Z) : option packet :=
  let pkt := validate pkt in
  let b := pk_buffer pkt in
  let snap := ptr pkt pr_eth_snap in
  let vlan := ptr pkt pr_vlan in
  let size := eth_size snap in
  match ptr pkt pr_eth with
  | None => Some pkt
  | Some eth =>
    '(b, new_vlan) ← (if (VLAN_HEADER_LEN <=? ofpbuf_headroom b)%nat
                      then b ← open_front b eth size VLAN_HEADER_LEN; Some (b, vlan)
                      else b ← open_back b size VLAN_HEADER_LEN;
                           Some (b, (λ _, (ob_data b + size + VLAN_HEADER_LEN)%nat) <$> vlan));
    mem ← fill_vlan b snap size new_vlan ethertype;
    Some (edited pkt (set_mem b mem))
  end.

(** The bytes [eth .. eth + move_size) go up by [n]: the [n] bytes after them go. *)
Definition close_gap (b : ofpbuf) (mem : list Z) (eth move_size n : nat) : option ofpbuf :=
  size ← usub (ob_size b) n;
  let b := Ofpbuf mem (ob_data b + n) size in
  mem ← memmove mem (ob_data b) eth move_size; Some (set_mem b mem).

Definition pop_vlan (pkt : packet) : option packet :=
  let pkt := validate pkt in
  let b := pk_buffer pkt in
  let mem := ob_mem b in
  match ptr pkt pr_eth, ptr pkt pr_vlan with
  | Some eth, Some vlan =>
    next ← ld 2 mem (vlan + o_vlan_next_type);
    mem ← match ptr pkt pr_eth_snap with
          | Some snap => mem ← st 2 mem (snap + o_snap_type) next; add_length mem eth (- Z.of_nat VLAN_HEADER_LEN)
          | None => st 2 mem (eth + o_eth_type) next
          end;
    move_size ← usub vlan eth;
    b ← close_gap b mem eth move_size VLAN_HEADER_LEN;
    Some (edited pkt b)
  | _, _ => Some pkt
  end.

(** The label of a new header: a copy of the outermost label without the bottom of
    stack bit, or the TTL of the IP header and the bottom of stack bit. *)
Definition new_label (mem : list Z) (mpls ipv4 ipv6 : option nat) : option Z :=
  match mpls, ipv4, ipv6 with
  | Some p, _, _ => w ← ld 4 mem p; Some (Z.land w (unot 32 (htonl MPLS_S_MASK)))
  | None, Some p, _ => ttl ← ld 1 mem (p + o_ip_ttl);
                       Some (Z.lor (htonl (Z.land ttl MPLS_TTL_MASK)) (htonl MPLS_S_MASK))
  | None, None, Some p => ttl ← ld 1 mem (p + o_ipv6_hop_limit);
                          Some (Z.lor (htonl (Z.land ttl MPLS_TTL_MASK)) (htonl MPLS_S_MASK))
  | None, None, None => Some (htonl MPLS_S_MASK)
  end.

(** The type of what follows the Ethernet header and its tags. *)
Definition set_next_type (mem : list Z) (vlan snap : option nat) (eth : nat) (ethertype : Z) : option (list Z) :=
  match vlan, snap with
  | Some v, _ => st 2 mem (v + o_vlan_next_type) (htons ethertype)
  | None, Some s => st 2 mem (s + o_snap_type) (htons ethertype)
  | None, None => st 2 mem (eth + o_eth_type) (htons ethertype)
  end.

(** A NULL pointer stays NULL; [None] when the shift is an error. *)
Definition shift (p : option nat) (f : nat → option nat) : option (option nat) :=
  match p with None => Some None | Some p => p ← f p; Some (Some p) end.

Definition push_mpls (pkt : packet) (ethertype : Z) : option packet :=
  let pkt := validate pkt in
  let b := pk_buffer pkt in
  let snap := ptr pkt pr_eth_snap in
  let vlan := ptr pkt pr_vlan_last in
  match ptr pkt pr_eth with
  | None => Some pkt
  | Some eth =>
    head_offset ← match vlan with
                  | None => Some (eth_size snap)
                  | Some v => d ← usub v eth; Some (d + VLAN_HEADER_LEN)%nat
                  end;
    '(b, new_snap, new_vlan, (new_mpls, new_ipv4, new_ipv6)) ←
      (if (MPLS_HEADER_LEN <=? ofpbuf_headroom b)%nat then
         b ← open_front b eth head_offset MPLS_HEADER_LEN;
         new_snap ← shift snap (λ p, usub p MPLS_HEADER_LEN);
         new_vlan ← shift vlan (λ p, usub p MPLS_HEADER_LEN);
         Some (b, new_snap, new_vlan, (ptr pkt pr_mpls, ptr pkt pr_ipv4, ptr pkt pr_ipv6))
       else
         b ← open_back b head_offset MPLS_HEADER_LEN;
         let up := λ p, d ← usub p eth; Some (ob_data b + d)%nat in
         let next := λ _ : nat, (ob_data b + head_offset + MPLS_HEADER_LEN)%nat in
         new_snap ← shift snap up;
         new_vlan ← shift vlan up;
         Some (b, new_snap, new_vlan, (next <$> ptr pkt pr_mpls, next <$> ptr pkt pr_ipv4, next <$> ptr pkt pr_ipv6)));
    let new_eth := ob_data b in
    label ← new_label (ob_mem b) new_mpls new_ipv4 new_ipv6;
    mem ← st 4 (ob_mem b) (new_eth + head_offset) label;
    mem ← set_next_type mem new_vlan new_snap new_eth ethertype;
    mem ← match new_snap with Some _ => add_length mem new_eth (Z.of_nat MPLS_HEADER_LEN) | None => Some mem end;
    Some (edited pkt (set_mem b mem))
  end.

Definition pop_mpls (pkt : packet) (ethertype : Z) : option packet :=
  let pkt := validate pkt in
  let b := pk_buffer pkt in
  let snap := ptr pkt pr_eth_snap in
  match ptr pkt pr_eth, ptr pkt pr_mpls with
  | Some eth, Some mpls =>
    mem ← set_next_type (ob_mem b) (ptr pkt pr_vlan_last) snap eth ethertype;
    move_size ← usub mpls eth;
    b ← close_gap b mem eth move_size MPLS_HEADER_LEN;
    mem ← match snap with
          | Some _ => add_length (ob_mem b) (ob_data b) (Z.of_nat MPLS_HEADER_LEN)
          | None => Some (ob_mem b)
          end;
    Some (edited pkt (set_mem b mem))
  | _, _ => Some pkt
  end.

(** The old pointers to the Ethernet and VLAN headers are used after the buffer may
    have been reallocated. *)
Definition push_pbb (pkt : packet) (ethertype : Z) : option packet :=
  let pkt := validate pkt in
  let b0 := pk_buffer pkt in
  let snap := ptr pkt pr_eth_snap in
  let size := eth_size snap in
  match ptr pkt pr_eth with
  | None => Some pkt
  | Some eth =>
    let front := (PBB_HEADER_LEN <=? ofpbuf_headroom b0)%nat in
    '(b, push_pbb, new_pbb) ←
      (if front then b ← open_front b0 eth size PBB_HEADER_LEN; Some (b, (ob_data b + size)%nat, ptr pkt pr_pbb)
       else b ← open_back b0 ETH_HEADER_LEN PBB_HEADER_LEN;
            let push := (ob_data b + ETH_HEADER_LEN)%nat in
            Some (b, push, (λ _, (push + PBB_HEADER_LEN)%nat) <$> ptr pkt pr_pbb));
    let new_eth := ob_data b in
    id ← match new_pbb with None => Some 0 | Some p => ld 4 (ob_mem b) (p + o_pbb_id) end;
    mem ← st 4 (ob_mem b) (push_pbb + o_pbb_id) id;
    if negb front && moved b0 PBB_HEADER_LEN then None else
    mem ← match ptr pkt pr_vlan with
          | None => Some mem
          | Some vlan =>
            id ← ld 4 mem (push_pbb + o_pbb_id); tci ← ld 2 mem (vlan + o_vlan_tci);
            st 4 mem (push_pbb + o_pbb_id)
              (Z.land id (u32 (Z.shiftl (Z.land tci (unot 32 (htonl VLAN_PCP_MASK))) 16)))
          end;
    mem ← memmove mem (push_pbb + o_c_eth_dst) eth ETH_HEADER_LEN;
    mem ← match snap with
          | Some _ =>
            let new_snap := (new_eth + ETH_HEADER_LEN + PBB_HEADER_LEN + LLC_HEADER_LEN)%nat in
            t ← ld 2 mem (new_snap + o_snap_type);
            mem ← st 2 mem (push_pbb + o_pbb_next_type) t;
            mem ← st 2 mem (new_snap + o_snap_type) (htons ethertype);
            add_length mem new_eth (Z.of_nat PBB_HEADER_LEN)
          | None =>
            t ← ld 2 mem (new_eth + o_eth_type);
            mem ← st 2 mem (push_pbb + o_pbb_next_type) t;
            st 2 mem (new_eth + o_eth_type) (htons ethertype)
          end;
    Some (edited pkt (set_mem b mem))
  end.

Definition pop_pbb (pkt : packet) : option packet :=
  let pkt := validate pkt in
  let b := pk_buffer pkt in
  match ptr pkt pr_eth, ptr pkt pr_pbb with
  | Some eth, Some pbb =>
    move_size ← usub (pbb + o_c_eth_dst) eth;
    rest ← usub (ob_size b) move_size;
    mem ← memmove (ob_mem b) (ob_data b) (pbb + o_c_eth_dst) rest;
    Some (edited pkt (Ofpbuf mem (ob_data b) rest))
  | _, _ => Some pkt
  end.

(** Unknown experimenter actions are logged. *)
Definition dp_execute_action (pkt : packet) (action : ofl_action) : option packet :=
  match action with
  | ActSetField field => set_field pkt field
  | ActOutput port max_len => Some (output pkt port max_len)
  | ActCopyTtlOut => copy_ttl_out pkt
  | ActCopyTtlIn => copy_ttl_in pkt
  | ActSetMplsTtl ttl => set_mpls_ttl pkt ttl
  | ActDecMplsTtl => dec_mpls_ttl pkt
  | ActPushVlan ethertype => push_vlan pkt ethertype
  | ActPopVlan => pop_vlan pkt
  | ActPushMpls ethertype => push_mpls pkt ethertype
  | ActPopMpls ethertype => pop_mpls pkt ethertype
  | ActSetQueue queue_id => Some (set_queue pkt queue_id)
  | ActGroup group_id => Some (group pkt group_id)
  | ActSetNwTtl ttl => set_nw_ttl pkt ttl
  | ActDecNwTtl => dec_nw_ttl pkt
  | ActPushPbb ethertype => push_pbb pkt ethertype
  | ActPopPbb => pop_pbb pkt
  | ActExperimenter _ => Some pkt
  end.
End actions.
