(* ===== verification/PushPop.v ===== *)
(** What pushing and popping headers does to a frame: the push and pop actions of
    udatapath/dp_actions.c.

    A push opens a gap after the first bytes of the frame, in the headroom of the
    buffer or at its tail, and fills it; a pop closes it again.  Both ways of
    opening the gap give the same frame; the second one writes past the end of the
    block when the tailroom is at least one and less than two headers. *)

From S2P Require Import Prelude Memory Ofpbuf OpenFlow MatchStd ActionSet Buffers PacketActions.

(** The frame of a packet. *)
Definition frame (pkt : packet) : list Z := contents (pk_buffer pkt).

(** * The frame as memory

    A pointer [ob_data + off] into the frame is the offset [off] of the frame. *)

Lemma mread_app_r h x p n : mread (h ++ x) (length h + p) n = mread x p n.
Proof.
  unfold mread. rewrite length_app. destruct (Nat.leb_spec (p + n) (length x)).
  - rewrite (proj2 (Nat.leb_le _ _)) by lia. by rewrite drop_app_add.
  - by rewrite (proj2 (Nat.leb_gt _ _)) by lia.
Qed.

Lemma mread_app_l x t p n : (p + n <= length x)%nat → mread (x ++ t) p n = mread x p n.
Proof.
  intros Hl. unfold mread. rewrite length_app, !(proj2 (Nat.leb_le _ _)) by lia.
  rewrite drop_app_le, take_app_le by (rewrite ?length_drop; lia). done.
Qed.

Lemma mwrite_app_r h x p bs : mwrite (h ++ x) (length h + p) bs = (h ++.) <$> mwrite x p bs.
Proof.
  unfold mwrite. rewrite length_app. destruct (Nat.leb_spec (p + length bs) (length x)).
  - rewrite (proj2 (Nat.leb_le _ _)) by lia. cbn. f_equal. unfold set_bytes.
    rewrite take_app_add, <- Nat.add_assoc, drop_app_add. by rewrite <- app_assoc.
  - by rewrite (proj2 (Nat.leb_gt _ _)) by lia.
Qed.

Lemma mwrite_app_l x t p bs : (p + length bs <= length x)%nat → mwrite (x ++ t) p bs = (.++ t) <$> mwrite x p bs.
Proof.
  intros Hl. unfold mwrite. rewrite length_app, !(proj2 (Nat.leb_le _ _)) by lia. cbn. f_equal. by apply set_bytes_app.
Qed.

Section frame.
  Implicit Types h c t : list Z.

Lemma ld_frame w h c t off :
  (off + w <= length c)%nat → ld w (ob_mem (parts h c t)) (length h + off) = ld w c off.
Proof. intros. unfold ld, parts. cbn [ob_mem]. by rewrite mread_app_r, mread_app_l. Qed.

Lemma mread_frame h c t off n :
  (off + n <= length c)%nat → mread (ob_mem (parts h c t)) (length h + off) n = mread c off n.
Proof. intros. unfold parts. cbn [ob_mem]. by rewrite mread_app_r, mread_app_l. Qed.

Lemma mwrite_frame h c t off bs :
  (off + length bs <= length c)%nat →
  mwrite (ob_mem (parts h c t)) (length h + off) bs = Some (ob_mem (parts h (set_bytes off bs c) t)).
Proof.
  intros Hl. unfold parts. cbn [ob_mem]. rewrite mwrite_app_r, mwrite_app_l by done.
  unfold mwrite. by rewrite (proj2 (Nat.leb_le _ _)).
Qed.

Lemma st_frame w h c t off v :
  (off + w <= length c)%nat →
  st w (ob_mem (parts h c t)) (length h + off) v = Some (ob_mem (parts h (set_bytes off (le_bytes w v) c) t)).
Proof. intros. unfold st. apply mwrite_frame. by rewrite le_bytes_length. Qed.

Lemma set_mem_parts h c c' t :
  length c' = length c → set_mem (parts h c t) (ob_mem (parts h c' t)) = parts h c' t.
Proof. intros Hl. unfold set_mem, parts. cbn. by rewrite Hl. Qed.

Lemma le_bytes_read n bs : length bs = n → bytes bs → le_bytes n (le_read bs) = bs.
Proof. intros <-. apply le_bytes_le_read. Qed.

(** Loads and stores at a cut of the frame. *)
Lemma ld_at w h a o r t p :
  p = (length h + length a)%nat → length o = w → ld w (ob_mem (parts h (a ++ o ++ r) t)) p = Some (le_read o).
Proof.
  intros -> <-. rewrite ld_frame by (rewrite !length_app; lia). unfold ld. by rewrite mread_mid.
Qed.

Lemma st_at w h a o r t p v :
  p = (length h + length a)%nat → length o = w →
  st w (ob_mem (parts h (a ++ o ++ r) t)) p v = Some (ob_mem (parts h (a ++ le_bytes w v ++ r) t)).
Proof.
  intros -> <-. rewrite st_frame by (rewrite !length_app; lia).
  by rewrite set_bytes_mid by (by rewrite le_bytes_length).
Qed.
End frame.

(** * Opening a gap *)

Section gap.
  Context `{Malloc}.

Lemma open_front_parts h q x y t :
  ∃ z, open_front (parts (h ++ q) (x ++ y) t) (length h + length q) (length x) (length q) = Some (parts h (x ++ z ++ y) t) ∧
    length z = length q ∧ ((length x <= length q)%nat → ∃ z0, z = z0 ++ x).
Proof.
  unfold open_front, parts. cbn [ob_mem ob_data ob_size]. rewrite length_app.
  replace (length h + length q - length q)%nat with (length h) by lia.
  unfold memmove. rewrite <- (length_app h q), <- (app_assoc x), mread_mid by done.
  cbn [mbind option_bind]. exists (drop (length x) (q ++ x)).
  split_and!; [|rewrite length_drop, length_app; lia|intros Hl; exists (drop (length x) q); by rewrite drop_app_le].
  replace ((h ++ q) ++ x ++ y ++ t) with (h ++ take (length x) (q ++ x) ++ drop (length x) (q ++ x) ++ y ++ t)
    by (rewrite (app_assoc (take _ _)), take_drop; by rewrite <- !app_assoc).
  rewrite mwrite_mid by (rewrite length_take, length_app; lia). cbn [set_mem mbind option_bind ob_data ob_size].
  unfold set_mem. cbn. f_equal. f_equal; [by rewrite <- !app_assoc|]. rewrite !length_app, length_drop, length_app. lia.
Qed.

Lemma mwrite_over_end x p bs : (length x < p + length bs)%nat → mwrite x p bs = None.
Proof. intros. unfold mwrite. by rewrite (proj2 (Nat.leb_gt _ _)) by lia. Qed.

(** [tailroom] bytes are free at the tail: the move stays in the block unless
    they are at least [n] and less than [2 n]. *)
Lemma open_back_parts h x y t n :
  (length t < n ∧ n <= 32 ∨ n + n <= length t)%nat →
  ∃ z t', open_back (parts h (x ++ y) t) (length x) n = Some (parts h (x ++ z ++ y) t') ∧ length z = n.
Proof.
  intros Hroom. unfold open_back, ofpbuf_put_uninit.
  destruct (prealloc_parts h (x ++ y) t n) as (t1 & -> & Hl & Ht1).
  assert (n + n <= length t1)%nat as Hl2.
  { unfold moved in Ht1. rewrite parts_tailroom in Ht1. destruct (Nat.ltb_spec (length t) n) as [Hlt|Hge].
    - rewrite Ht1, length_app, length_take, xmalloc_length. lia.
    - subst t1. lia. }
  clear Ht1. unfold parts. cbn [fst ob_mem ob_data ob_size]. unfold usub. rewrite !length_app.
  rewrite (proj2 (Nat.leb_le _ _)) by lia. cbn [mbind option_bind].
  replace (length x + length y + n - length x)%nat with (length y + n)%nat by lia.
  assert (∃ u v r, t1 = u ++ v ++ r ∧ length u = n ∧ length v = n) as (u & v & r & -> & Hu & Hv).
  { exists (take n t1), (take n (drop n t1)), (drop (n + n) t1).
    rewrite <- drop_drop, !take_drop, !length_take, length_drop. split_and!; [done|lia..]. }
  unfold memmove.
  replace (h ++ (x ++ y) ++ u ++ v ++ r) with ((h ++ x) ++ (y ++ u) ++ v ++ r) by (by rewrite <- !app_assoc).
  rewrite <- !length_app, mread_mid by (rewrite !length_app; lia). cbn [mbind option_bind].
  set (z := take n (y ++ u ++ v)). set (w := drop n (y ++ u ++ v)).
  assert (y ++ u ++ v = z ++ w) as Hzw by (subst z w; by rewrite take_drop).
  assert (length z = n) as Hz by (subst z; rewrite length_take, !length_app; lia).
  assert (length w = length (y ++ u)) as Hw by (subst w; rewrite length_drop, !length_app; lia).
  replace ((h ++ x) ++ (y ++ u) ++ v ++ r) with (((h ++ x) ++ z) ++ w ++ r)
    by (rewrite <- !app_assoc, (app_assoc z w), <- Hzw; by rewrite <- !app_assoc).
  replace (length (h ++ x) + n)%nat with (length ((h ++ x) ++ z)) by (rewrite length_app; lia).
  rewrite mwrite_mid by done. cbn [mbind option_bind]. exists z, (u ++ r). split; [|done].
  unfold set_mem. cbn. f_equal. f_equal; [by rewrite <- !app_assoc|]. rewrite !length_app. lia.
Qed.

Lemma open_back_overrun h x y t n :
  (n <= length t < n + n)%nat → open_back (parts h (x ++ y) t) (length x) n = None.
Proof.
  intros Hroom. unfold open_back, ofpbuf_put_uninit, ofpbuf_prealloc_tailroom, moved. rewrite parts_tailroom.
  rewrite (proj2 (Nat.ltb_ge _ _)) by lia. unfold parts. cbn [fst ob_mem ob_data ob_size]. unfold usub. rewrite !length_app.
  rewrite (proj2 (Nat.leb_le _ _)) by lia. cbn [mbind option_bind]. unfold memmove.
  replace (length x + length y + n - length x)%nat with (length y + n)%nat by lia.
  destruct (mread _ _ _) as [bs|] eqn:E; [|done]. cbn [mbind option_bind].
  apply mread_Some in E as [_ ->]. rewrite mwrite_over_end; [done|].
  rewrite length_take, length_drop, !length_app. lia.
Qed.

(** Closing a gap. *)
Lemma close_gap_parts b h x z y t n :
  length z = n → ob_data b = length h → ob_size b = length (x ++ z ++ y) →
  ∃ h', close_gap b (ob_mem (parts h (x ++ z ++ y) t)) (length h) (length x) n =
        Some (parts h' (x ++ y) t) ∧ length h' = (length h + n)%nat.
Proof.
  intros Hz Hd Hs. unfold close_gap, usub. rewrite Hd, Hs. cbn [parts ob_size ob_data ob_mem]. rewrite !length_app.
  rewrite (proj2 (Nat.leb_le _ _)) by lia. cbn [mbind option_bind ob_data]. unfold memmove.
  rewrite <- (app_assoc x), mread_mid by done. cbn [mbind option_bind].
  set (u := take n (x ++ z)). set (v := drop n (x ++ z)).
  assert (x ++ z = u ++ v) as Huv by (subst u v; by rewrite take_drop).
  assert (length u = n ∧ length v = length x) as [Hu Hv].
  { subst u v. rewrite length_take, length_drop, length_app. lia. }
  replace (h ++ x ++ (z ++ y) ++ t) with ((h ++ u) ++ v ++ y ++ t)
    by (rewrite <- !app_assoc, (app_assoc u v), <- Huv; by rewrite <- !app_assoc).
  replace (length h + n)%nat with (length (h ++ u)) by (rewrite length_app; lia).
  rewrite mwrite_mid by done. cbn [mbind option_bind]. exists (h ++ u). split; [|done].
  unfold set_mem, parts. cbn. f_equal. f_equal; [by rewrite <- !app_assoc|rewrite length_app; lia].
Qed.
End gap.

(** * VLAN tags *)

(** Four bytes to write, of type [t]: where the tag goes into the frame. *)
Definition vlan_pushed (t : Z) (vlan : option nat) (f : list Z) : list Z :=
  take 12 f ++ le_bytes 2 (htons t) ++
  match vlan with None => [0; 0] | Some v => take 2 (drop v f) end ++ drop 12 f.

(** The buffer has room for [n] bytes more in front, or its tailroom is not in the
    range where the move at the tail runs over the end of the block. *)
Definition room (b : ofpbuf) (n : nat) : Prop :=
  (n <= ofpbuf_headroom b)%nat ∨ (ofpbuf_tailroom b < n)%nat ∨ (n + n <= ofpbuf_tailroom b)%nat.

Lemma cut (l : list Z) n : (n <= length l)%nat → ∃ x y, l = x ++ y ∧ length x = n.
Proof. intros. exists (take n l), (drop n l). rewrite take_drop, length_take. split; [done|lia]. Qed.

Lemma fill_vlan_plain h a ty z y t ethertype (tag : option (list Z)) r :
  length a = 12%nat → length ty = 2%nat → length z = 4%nat → bytes ty →
  match tag with None => True | Some tci => y = tci ++ r ∧ length tci = 2%nat ∧ bytes tci end →
  fill_vlan (parts h ((a ++ ty) ++ z ++ y) t) None 14 ((λ _, (length h + 14 + 4)%nat) <$> tag) ethertype =
  Some (ob_mem (parts h (a ++ le_bytes 2 (htons ethertype) ++ default [0; 0] tag ++ ty ++ y) t)).
Proof.
  intros Ha Hty Hz Hbty Htag. unfold fill_vlan. cbn [ob_data parts]. fold (parts h ((a ++ ty) ++ z ++ y) t).
  destruct (cut z 2) as (z1 & z2 & -> & Hz1); [lia|]. rewrite length_app in Hz.
  assert ((match (λ _, (length h + 14 + 4)%nat) <$> tag with
           | None => Some 0 | Some v => ld 2 (ob_mem (parts h ((a ++ ty) ++ (z1 ++ z2) ++ y) t)) (v + o_vlan_tci) end)
          = Some (le_read (default [0; 0] tag))) as ->.
  { destruct tag as [tci|]; [|done]. destruct Htag as (-> & Htci & _). cbn [fmap option_fmap option_map default].
    rewrite (app_assoc (a ++ ty)), ld_at; [done| |done]. unfold o_vlan_tci. rewrite !length_app. lia. }
  cbn [mbind option_bind]. rewrite <- (app_assoc z1), st_at by (unfold o_vlan_tci; rewrite ?length_app; lia).
  cbn [mbind option_bind]. rewrite <- (app_assoc a), ld_at by (unfold o_eth_type; lia). cbn [mbind option_bind].
  replace (a ++ ty ++ le_bytes 2 (le_read (default [0; 0] tag)) ++ z2 ++ y)
    with ((a ++ ty ++ le_bytes 2 (le_read (default [0; 0] tag))) ++ z2 ++ y) by (by rewrite <- !app_assoc).
  rewrite st_at by (unfold o_vlan_next_type; rewrite ?length_app, ?le_bytes_length; lia). cbn [mbind option_bind].
  rewrite <- !app_assoc, st_at by (unfold o_eth_type; lia).
  rewrite (le_bytes_read 2 ty), (le_bytes_read 2 (default [0; 0] tag)); [done| | |done..].
  - destruct tag; [naive_solver|done].
  - destruct tag; [naive_solver|]. cbn. unfold bytes. by_eval.
Qed.

Section opened.
  Context `{Malloc}.

Lemma opened_front b x y n :
  ofpbuf_wf b → contents b = x ++ y → (n <= ofpbuf_headroom b)%nat →
  ∃ h z t, open_front b (ob_data b) (length x) n = Some (parts h (x ++ z ++ y) t) ∧ length z = n ∧
    (length h + n = ob_data b)%nat ∧ ((length x <= n)%nat → ∃ z0, z = z0 ++ x).
Proof.
  intros (head & t & Hb & Hlh)%wf_parts Hc Hn. rewrite Hc in Hb.
  destruct (cut head (length head - n)) as (h & q & -> & Hh); [lia|]. unfold ofpbuf_headroom in Hn. rewrite length_app in *.
  destruct (open_front_parts h q x y t) as (z & Hz & Hlz & Hzx).
  exists h, z, t. replace (ob_data b) with (length h + length q)%nat by lia. rewrite Hb.
  replace n with (length q) by lia. rewrite Hz. split_and!; [done|lia|lia|done].
Qed.

Lemma opened_back b x y n :
  ofpbuf_wf b → contents b = x ++ y → (n <= 32)%nat → (ofpbuf_tailroom b < n ∨ n + n <= ofpbuf_tailroom b)%nat →
  ∃ h z t, open_back b (length x) n = Some (parts h (x ++ z ++ y) t) ∧ length z = n ∧ length h = ob_data b.
Proof.
  intros (head & t & Hb & Hl)%wf_parts Hc Hn Hroom. rewrite Hc in Hb. rewrite Hb, parts_tailroom in Hroom.
  destruct (open_back_parts head x y t n) as (z & t' & Ho & Hz); [lia|]. rewrite <- Hb in Ho. by exists head, z, t'.
Qed.

Lemma opened_overrun b x y n :
  ofpbuf_wf b → contents b = x ++ y → (n <= ofpbuf_tailroom b < n + n)%nat → open_back b (length x) n = None.
Proof.
  intros (head & t & Hb & _)%wf_parts Hc Hroom. rewrite Hc in Hb. rewrite Hb, parts_tailroom in Hroom. rewrite Hb.
  by apply open_back_overrun.
Qed.
End opened.

(** What an action on the frame leaves alone. *)
Definition same_but_frame (pkt pkt' : packet) : Prop :=
  pk_in_port pkt' = pk_in_port pkt ∧ pk_action_set pkt' = pk_action_set pkt ∧ pk_packet_out pkt' = pk_packet_out pkt ∧
  pk_out_group pkt' = pk_out_group pkt ∧ pk_out_port pkt' = pk_out_port pkt ∧
  pk_out_port_max_len pkt' = pk_out_port_max_len pkt ∧ pk_out_queue pkt' = pk_out_queue pkt ∧
  pk_table_id pkt' = pk_table_id pkt ∧ pk_buffer_id pkt' = pk_buffer_id pkt.

(** The headers decoding finds, offsets from the start of the frame. *)
Definition protos (parse : list Z → option (ofl_match * protocols_std)) (pkt : packet) : protocols_std :=
  ph_proto (pk_handle_std (validate parse pkt)).

(** The outcome of an edit: the new frame, in a well-formed buffer, to be decoded again. *)
Definition edit (pkt : packet) (r : option packet) (f : list Z) : Prop :=
  ∃ pkt', r = Some pkt' ∧ frame pkt' = f ∧ ofpbuf_wf (pk_buffer pkt') ∧
    ph_valid (pk_handle_std pkt') = false ∧ same_but_frame pkt pkt'.

Lemma edited_edit parse pkt h c t :
  edit pkt (Some (edited (validate parse pkt) (parts h c t))) c.
Proof. eexists. split; [done|]. split_and!; [apply parts_contents|apply parts_wf|done..]. Qed.

Lemma ptr_eq parse pkt h :
  ptr (validate parse pkt) h = (λ off, (ob_data (pk_buffer pkt) + off)%nat) <$> h (protos parse pkt).
Proof. done. Qed.

(** Ethernet without LLC, and a VLAN tag right after it if there is one. *)
Definition plain_eth (p : protocols_std) (f : list Z) : Prop :=
  (14 <= length f)%nat ∧ pr_eth p = Some 0%nat ∧ pr_eth_snap p = None ∧
  (pr_vlan p = None ∨ pr_vlan p = Some 14%nat ∧ (18 <= length f)%nat).

Section push_vlan.
  Context `{Malloc} (parse : list Z → option (ofl_match * protocols_std)).

Lemma vlan_pushed_cut t a ty y (tag : option (list Z)) r :
  length a = 12%nat → length ty = 2%nat →
  match tag with None => True | Some tci => y = tci ++ r ∧ length tci = 2%nat end →
  vlan_pushed t ((λ _, 14%nat) <$> tag) ((a ++ ty) ++ y) =
  a ++ le_bytes 2 (htons t) ++ default [0; 0] tag ++ ty ++ y.
Proof.
  intros Ha Hty Htag. unfold vlan_pushed. rewrite <- !app_assoc, take_app_length', drop_app_length' by done.
  do 3 f_equal. destruct tag as [tci|]; [|done]. destruct Htag as (-> & Htci). cbn [fmap option_fmap option_map default].
  rewrite (app_assoc a ty), drop_app_length' by (rewrite length_app; lia). by rewrite take_app_length'.
Qed.

Lemma push_vlan_lemma pkt t :
  ofpbuf_wf (pk_buffer pkt) → bytes (frame pkt) → plain_eth (protos parse pkt) (frame pkt) →
  (room (pk_buffer pkt) 4 → edit pkt (push_vlan parse pkt t) (vlan_pushed t (pr_vlan (protos parse pkt)) (frame pkt))) ∧
  (¬ room (pk_buffer pkt) 4 → push_vlan parse pkt t = None).
Proof.
  intros Hw Hb (Hlen & Heth & Hsnap & Hvlan). unfold push_vlan. rewrite !ptr_eq, Heth, Hsnap.
  cbn [fmap option_fmap option_map eth_size]. change ETH_HEADER_LEN with 14%nat. rewrite Nat.add_0_r.
  destruct (cut (frame pkt) 14) as (x & y & Hf & Hx); [lia|]. destruct (cut x 12) as (a & ty & -> & Ha); [lia|].
  rewrite length_app in Hx. change (pk_buffer (validate parse pkt)) with (pk_buffer pkt).
  assert (∃ tag r, pr_vlan (protos parse pkt) = (λ _, 14%nat) <$> tag ∧
      match tag with None => True | Some tci => y = tci ++ r ∧ length tci = 2%nat ∧ bytes tci end) as (tag & r & Hv & Htag).
  { destruct Hvlan as [->|[-> Hl]]; [by exists None, []|]. rewrite Hf, length_app in Hl.
    rewrite length_app in Hl. destruct (cut y 2) as (tci & r & -> & Htci); [lia|]. exists (Some tci), r. split_and!; [done..|].
    rewrite Hf in Hb. apply Forall_app in Hb as [_ Hb]. by apply Forall_app in Hb as [Hb _]. }
  assert (bytes ty) as Hbt.
  { rewrite Hf in Hb. apply Forall_app in Hb as [Hb _]. by apply Forall_app in Hb as [_ Hb]. }
  assert (length (default [0; 0] tag) = 2%nat) as Hd by (destruct tag; cbn; [naive_solver|done]).
  rewrite Hv, Hf. rewrite (vlan_pushed_cut t a ty y tag r) by (lia || (destruct tag; naive_solver)).
  assert (length (a ++ ty) = 14%nat) as H14 by (rewrite length_app; lia).
  destruct (Nat.leb_spec VLAN_HEADER_LEN (ofpbuf_headroom (pk_buffer pkt))) as [Hh|Hh]; unfold VLAN_HEADER_LEN in *.
  - split; [intros _|intros Hn; destruct Hn; by left].
    destruct (opened_front (pk_buffer pkt) (a ++ ty) y 4 Hw Hf Hh) as (h & z & tl & Ho & Hz & Hlh & _).
    rewrite H14 in Ho. rewrite Ho. cbn [mbind option_bind].
    replace ((λ off, (ob_data (pk_buffer pkt) + off)%nat) <$> ((λ _, 14%nat) <$> tag)) with
      ((λ _, (length h + 14 + 4)%nat) <$> tag) by (destruct tag; cbn; [f_equal; lia|done]).
    rewrite (fill_vlan_plain h a ty z y tl t tag r) by (done || lia). cbn [mbind option_bind].
    rewrite set_mem_parts; [apply edited_edit|].
    rewrite !length_app, !le_bytes_length, Hz, Hd. lia.
  - split; intros Hr.
    + destruct Hr as [Hr|Hr]; [lia|].
      destruct (opened_back (pk_buffer pkt) (a ++ ty) y 4 Hw Hf ltac:(lia) Hr) as (h & z & tl & Ho & Hz & _).
      rewrite H14 in Ho. rewrite Ho. cbn [mbind option_bind].
      replace ((λ _, (ob_data (parts h ((a ++ ty) ++ z ++ y) tl) + 14 + 4)%nat) <$> _) with
        ((λ _, (length h + 14 + 4)%nat) <$> tag) by (destruct tag; done).
      rewrite (fill_vlan_plain h a ty z y tl t tag r) by (done || lia). cbn [mbind option_bind].
      rewrite set_mem_parts; [apply edited_edit|].
      rewrite !length_app, !le_bytes_length, Hz, Hd. lia.
    + pose proof (opened_overrun (pk_buffer pkt) (a ++ ty) y 4 Hw Hf) as Ho. rewrite H14 in Ho.
      rewrite Ho; [done|]. unfold room in Hr. lia.
Qed.
End push_vlan.

(** The cuts of the actions' frames. *)
Lemma cut3 (f : list Z) i w : (i + w <= length f)%nat →
  ∃ a o r, f = a ++ o ++ r ∧ length a = i ∧ length o = w.
Proof.
  intros Hl. destruct (cut f i) as (a & g & -> & Ha); [lia|]. rewrite length_app in Hl.
  destruct (cut g w) as (o & r & -> & Ho); [lia|]. by exists a, o, r.
Qed.

(** A piece of a frame of bytes consists of bytes. *)
Ltac by_pieces Hf Hb := rewrite Hf in Hb; unfold bytes in *; rewrite !Forall_app in Hb; naive_solver.

Section pop.
  Context `{Malloc} (parse : list Z → option (ofl_match * protocols_std)).

Lemma parts_of b f : ofpbuf_wf b → contents b = f → ∃ h t, b = parts h f t ∧ ob_data b = length h.
Proof. intros (h & t & Hb & Hl)%wf_parts <-. exists h, t. split; [done|lia]. Qed.

Lemma pop_vlan_lemma pkt :
  ofpbuf_wf (pk_buffer pkt) → bytes (frame pkt) → plain_eth (protos parse pkt) (frame pkt) →
  is_Some (pr_vlan (protos parse pkt)) →
  edit pkt (pop_vlan parse pkt) (take 12 (frame pkt) ++ drop 16 (frame pkt)).
Proof.
  intros Hw Hb (Hlen & Heth & Hsnap & Hvlan) Hsome.
  destruct Hvlan as [Hv|[Hv Hl]]; [rewrite Hv in Hsome; by destruct Hsome|].
  unfold pop_vlan. rewrite !ptr_eq, Heth, Hsnap, Hv. cbn [fmap option_fmap option_map]. rewrite Nat.add_0_r.
  destruct (cut3 (frame pkt) 12 4) as (a & o & g & Hf & Ha & Ho); [lia|].
  rewrite Hf, !length_app in Hl. destruct (cut o 2) as (ty & tci & -> & Hty); [lia|]. rewrite length_app in Ho.
  destruct (cut g 2) as (next & y & -> & Hn); [lens|].
  rewrite Hf. change (pk_buffer (validate parse pkt)) with (pk_buffer pkt).
  destruct (parts_of (pk_buffer pkt) _ Hw Hf) as (h & t & Hbuf & Hd). rewrite Hd, Hbuf.
  assert (bytes next) as Hbn by by_pieces Hf Hb.
  replace (a ++ (ty ++ tci) ++ next ++ y) with ((a ++ ty ++ tci) ++ next ++ y) by (by rewrite <- !app_assoc).
  rewrite ld_at by (unfold o_vlan_next_type; rewrite ?length_app; lia). cbn [mbind option_bind].
  rewrite <- !app_assoc, st_at by (unfold o_eth_type; lia). cbn [mbind option_bind].
  unfold usub. rewrite (proj2 (Nat.leb_le _ _)) by lia. cbn [mbind option_bind].
  replace (length h + 14 - length h)%nat with (length (a ++ ty)) by (rewrite length_app; lia).
  rewrite (le_bytes_read 2 next) by done.
  replace (a ++ next ++ tci ++ next ++ y) with ((a ++ next) ++ (tci ++ next) ++ y) by (by rewrite <- !app_assoc).
  replace (length (a ++ ty)) with (length (a ++ next)) by (rewrite !length_app; lia).
  edestruct (close_gap_parts (parts h (a ++ ty ++ tci ++ next ++ y) t) h (a ++ next) (tci ++ next) y t 4) as (h' & Hc & _);
    [lens|done|cbn [parts ob_size]; lens|].
  unfold VLAN_HEADER_LEN. rewrite Hc. cbn [mbind option_bind].
  rewrite take_app_length' by done. rewrite drop_app_ge by lia. rewrite (app_assoc ty tci).
  rewrite drop_app_length' by (rewrite length_app; lia). rewrite <- app_assoc. apply edited_edit.
Qed.
End pop.

(** * MPLS labels *)

(** Where a label goes: after the Ethernet header and the VLAN tags. *)
Definition l2_end (p : protocols_std) : nat := match pr_vlan_last p with None => 14 | Some v => v + 4 end.

Definition at_off (h : option nat) (off n : nat) (f : list Z) : Prop :=
  h = None ∨ h = Some off ∧ (off + n <= length f)%nat.

(** Ethernet without LLC; what follows the tags is MPLS, IPv4, IPv6 or not known. *)
Record l2_plain (p : protocols_std) (f : list Z) : Prop := {
  lp_eth : pr_eth p = Some 0%nat;
  lp_snap : pr_eth_snap p = None;
  lp_vlan : match pr_vlan_last p with None => True | Some v => (10 <= v)%nat end;
  lp_len : (l2_end p <= length f)%nat;
  lp_mpls : at_off (pr_mpls p) (l2_end p) 4 f;
  lp_ipv4 : at_off (pr_ipv4 p) (l2_end p) 20 f;
  lp_ipv6 : at_off (pr_ipv6 p) (l2_end p) 40 f }.

(** The frame with the label [l], its type [t] before it. *)
Definition mpls_pushed (off : nat) (t l : Z) (f : list Z) : list Z :=
  take (off - 2) f ++ le_bytes 2 (htons t) ++ le_bytes 4 l ++ drop off f.

Lemma l2_end_ge p f : l2_plain p f → (14 <= l2_end p)%nat.
Proof. intros [_ _ Hv _ _ _ _]. unfold l2_end. destruct (pr_vlan_last p); lia. Qed.

Lemma at_off_cut m off n f x y :
  f = x ++ y → length x = off → at_off m off n f → ∀ q, m = Some q → q = length x ∧ (n <= length y)%nat.
Proof. intros -> <- Hat q ->. unfold at_off in Hat. rewrite length_app in Hat. destruct Hat as [?|[[= ->] ?]]; [done|lia]. Qed.

Section push_mpls.
  Context `{Malloc} (parse : list Z → option (ofl_match * protocols_std)).

(** The label is computed from the bytes after the gap, which are those of the frame. *)
Lemma ld_gap w h x z y t k :
  (k + w <= length y)%nat →
  ld w (ob_mem (parts h (x ++ z ++ y) t)) (length h + length x + length z + k) = ld w (x ++ y) (length x + k).
Proof.
  intros Hk. rewrite <- !Nat.add_assoc, ld_frame by (rewrite !length_app; lia). unfold ld.
  by rewrite !mread_app_r.
Qed.

Lemma new_label_gap h x z y t (m i j : option nat) :
  (∀ q, m = Some q → q = length x ∧ 4 <= length y)%nat → (∀ q, i = Some q → q = length x ∧ 20 <= length y)%nat →
  (∀ q, j = Some q → q = length x ∧ 40 <= length y)%nat →
  let up := λ _ : nat, (length h + length x + length z)%nat in
  new_label (ob_mem (parts h (x ++ z ++ y) t)) (up <$> m) (up <$> i) (up <$> j) = new_label (x ++ y) m i j ∧
  is_Some (new_label (x ++ y) m i j).
Proof.
  intros Hm Hi Hj up.
  assert (∀ w k, (k + w <= length y)%nat → is_Some (ld w (x ++ y) (length x + k))) as Hsome.
  { intros w k Hk. unfold ld. rewrite mread_app_r. unfold mread. rewrite (proj2 (Nat.leb_le _ _)) by lia. by eexists. }
  unfold new_label. destruct m as [q|]; cbn [fmap option_fmap option_map].
  { destruct (Hm q eq_refl) as [-> Hl]. subst up. cbv beta.
    pose proof (ld_gap 4 h x z y t 0 ltac:(lia)) as E. rewrite !Nat.add_0_r in E. rewrite E.
    destruct (Hsome 4%nat 0%nat) as [v Hv]; [lia|]. rewrite Nat.add_0_r in Hv. rewrite Hv. by split; [|eexists]. }
  destruct i as [q|]; cbn [fmap option_fmap option_map].
  { destruct (Hi q eq_refl) as [-> Hl]. subst up. cbv beta. unfold o_ip_ttl. rewrite ld_gap by lia.
    destruct (Hsome 1%nat 8%nat) as [v Hv]; [lia|]. rewrite Hv. by split; [|eexists]. }
  destruct j as [q|]; cbn [fmap option_fmap option_map]; [|by split; [|eexists]].
  destruct (Hj q eq_refl) as [-> Hl]. subst up. cbv beta. unfold o_ipv6_hop_limit. rewrite ld_gap by lia.
  destruct (Hsome 1%nat 7%nat) as [v Hv]; [lia|]. rewrite Hv. by split; [|eexists].
Qed.

(** Writing the type of what follows: two bytes before [off] in all cases. *)
Lemma set_next_type_at (p : protocols_std) f h a ty r t ethertype v :
  l2_plain p f → (length a + 2 = l2_end p)%nat → length ty = 2%nat →
  v = (λ o, (length h + o)%nat) <$> pr_vlan_last p →
  set_next_type (ob_mem (parts h (a ++ ty ++ r) t)) v None (length h) ethertype =
  Some (ob_mem (parts h (a ++ le_bytes 2 (htons ethertype) ++ r) t)).
Proof.
  intros Hp Ha Hty ->. unfold set_next_type. unfold l2_end in Ha. destruct Hp as [_ _ Hv _ _ _ _].
  destruct (pr_vlan_last p) as [o|]; cbn [fmap option_fmap option_map].
  - apply st_at; [unfold o_vlan_next_type; lia|done].
  - apply st_at; [unfold o_eth_type; lia|done].
Qed.

(** The end of a push, the same for both ways of opening the gap. *)
Lemma fill_mpls pkt t l h a ty z y tl :
  let p := protos parse pkt in
  let up := λ _ : nat, (length h + length (a ++ ty) + length z)%nat in
  l2_plain p (frame pkt) → frame pkt = (a ++ ty) ++ y → length (a ++ ty) = l2_end p → length a = (l2_end p - 2)%nat →
  length z = 4%nat → new_label (frame pkt) (pr_mpls p) (pr_ipv4 p) (pr_ipv6 p) = Some l →
  edit pkt (label ← new_label (ob_mem (parts h ((a ++ ty) ++ z ++ y) tl)) (up <$> pr_mpls p) (up <$> pr_ipv4 p) (up <$> pr_ipv6 p);
            mem ← st 4 (ob_mem (parts h ((a ++ ty) ++ z ++ y) tl)) (length h + l2_end p) label;
            mem ← set_next_type mem ((λ o, (length h + o)%nat) <$> pr_vlan_last p) None (length h) t;
            Some (edited (validate parse pkt) (set_mem (parts h ((a ++ ty) ++ z ++ y) tl) mem)))
    (mpls_pushed (l2_end p) t l (frame pkt)).
Proof.
  intros p up Hp Hf Hx Ha Hz Hl. pose proof (l2_end_ge _ _ Hp) as Hge. pose proof Hp as [_ _ _ Hlen Hm Hi Hj].
  pose proof Hx as Hx'. rewrite length_app in Hx'. unfold up.
  destruct (new_label_gap h (a ++ ty) z y tl _ _ _ (at_off_cut _ _ _ _ _ _ Hf Hx Hm)
    (at_off_cut _ _ _ _ _ _ Hf Hx Hi) (at_off_cut _ _ _ _ _ _ Hf Hx Hj)) as [-> _].
  rewrite <- Hf, Hl. cbn [mbind option_bind]. rewrite st_at by (rewrite ?length_app; lia). cbn [mbind option_bind].
  rewrite <- (app_assoc a ty (le_bytes 4 l ++ y)), (set_next_type_at p (frame pkt)) by (done || lia). cbn [mbind option_bind].
  rewrite set_mem_parts by (rewrite !length_app, !le_bytes_length; lia).
  unfold mpls_pushed. rewrite Hf, <- (app_assoc a), take_app_length' by done.
  rewrite (app_assoc a ty), drop_app_length' by (rewrite length_app; lia). apply edited_edit.
Qed.

Lemma push_mpls_lemma pkt t :
  ofpbuf_wf (pk_buffer pkt) → l2_plain (protos parse pkt) (frame pkt) →
  let p := protos parse pkt in
  (room (pk_buffer pkt) 4 →
    ∃ l, new_label (frame pkt) (pr_mpls p) (pr_ipv4 p) (pr_ipv6 p) = Some l ∧
      edit pkt (push_mpls parse pkt t) (mpls_pushed (l2_end p) t l (frame pkt))) ∧
  (¬ room (pk_buffer pkt) 4 → push_mpls parse pkt t = None).
Proof.
  intros Hw Hp p. change (protos parse pkt) with p in Hp.
  pose proof (l2_end_ge _ _ Hp) as Hge. pose proof Hp as [Heth Hsnap Hv Hlen Hm Hi Hj].
  unfold push_mpls. rewrite !ptr_eq. fold p. rewrite Heth, Hsnap. cbn [fmap option_fmap option_map shift eth_size].
  rewrite Nat.add_0_r. change (pk_buffer (validate parse pkt)) with (pk_buffer pkt).
  set (d := ob_data (pk_buffer pkt)).
  assert (match (λ off, (d + off)%nat) <$> pr_vlan_last p with
          | None => Some ETH_HEADER_LEN | Some v => k ← usub v d; Some (k + VLAN_HEADER_LEN)%nat end = Some (l2_end p)) as ->.
  { unfold l2_end. destruct (pr_vlan_last p) as [v|]; cbn [fmap option_fmap option_map]; [|done].
    unfold usub. rewrite (proj2 (Nat.leb_le _ _)) by lia. cbn [mbind option_bind]. f_equal. unfold VLAN_HEADER_LEN. lia. }
  cbn [mbind option_bind].
  destruct (cut (frame pkt) (l2_end p)) as (x & y & Hf & Hx); [done|].
  assert (∃ l, new_label (frame pkt) (pr_mpls p) (pr_ipv4 p) (pr_ipv6 p) = Some l) as [l Hl].
  { rewrite Hf. destruct (new_label_gap [] x [] y [] _ _ _ (at_off_cut _ _ _ _ _ _ Hf Hx Hm)
      (at_off_cut _ _ _ _ _ _ Hf Hx Hi) (at_off_cut _ _ _ _ _ _ Hf Hx Hj)) as [_ [l Hl]]. by exists l. }
  destruct (cut x (l2_end p - 2)) as (a & ty & -> & Ha); [lia|]. pose proof Hx as Hxl. rewrite length_app in Hx.
  destruct (Nat.leb_spec MPLS_HEADER_LEN (ofpbuf_headroom (pk_buffer pkt))) as [Hh|Hh]; unfold MPLS_HEADER_LEN in *.
  - split; [intros _|intros Hn; destruct Hn; by left].
    destruct (opened_front (pk_buffer pkt) (a ++ ty) y 4 Hw Hf Hh) as (h & z & tl & Ho & Hz & Hlh & _).
    replace (length (a ++ ty)) with (l2_end p) in Ho by (rewrite length_app; lia). fold d in Ho, Hlh. rewrite Ho.
    exists l. split; [done|]. cbn [mbind option_bind].
    assert (shift ((λ off, (d + off)%nat) <$> pr_vlan_last p) (λ q, usub q 4) =
            Some ((λ o, (length h + o)%nat) <$> pr_vlan_last p)) as ->.
    { destruct (pr_vlan_last p) as [v|]; cbn [shift fmap option_fmap option_map]; [|done]. unfold usub.
      rewrite (proj2 (Nat.leb_le _ _)) by lia. cbn [mbind option_bind]. do 2 f_equal. lia. }
    cbn [mbind option_bind]. cbn [ob_data parts]. fold (parts h ((a ++ ty) ++ z ++ y) tl).
    pose proof (fill_mpls pkt t l h a ty z y tl Hp Hf Hxl Ha Hz Hl) as Hend. fold p in Hend.
    assert (∀ m n, at_off m (l2_end p) n (frame pkt) →
      (λ _, (length h + length (a ++ ty) + length z)%nat) <$> m = (λ off, (d + off)%nat) <$> m) as Heq.
    { intros m n [->|[-> _]]; [done|]. cbn. f_equal. rewrite length_app. lia. }
    rewrite (Heq _ _ Hm), (Heq _ _ Hi), (Heq _ _ Hj) in Hend. exact Hend.
  - split; intros Hr.
    + destruct Hr as [Hr|Hr]; [lia|].
      destruct (opened_back (pk_buffer pkt) (a ++ ty) y 4 Hw Hf ltac:(lia) Hr) as (h & z & tl & Ho & Hz & _).
      replace (length (a ++ ty)) with (l2_end p) in Ho by (rewrite length_app; lia). rewrite Ho.
      exists l. split; [done|]. cbn [mbind option_bind]. cbn [ob_data parts]. fold (parts h ((a ++ ty) ++ z ++ y) tl).
      assert (shift ((λ off, (d + off)%nat) <$> pr_vlan_last p) (λ q, k ← usub q d; Some (length h + k)%nat) =
              Some ((λ o, (length h + o)%nat) <$> pr_vlan_last p)) as ->.
      { destruct (pr_vlan_last p) as [v|]; cbn [shift fmap option_fmap option_map]; [|done]. unfold usub.
        rewrite (proj2 (Nat.leb_le _ _)) by lia. cbn [mbind option_bind]. do 2 f_equal. lia. }
      cbn [mbind option_bind]. pose proof (fill_mpls pkt t l h a ty z y tl Hp Hf Hxl Ha Hz Hl) as Hend. fold p in Hend.
      assert (∀ m : option nat, (λ _, (length h + length (a ++ ty) + length z)%nat) <$> m =
        (λ _, (length h + l2_end p + 4)%nat) <$> ((λ off, (d + off)%nat) <$> m)) as Heq.
      { intros [q|]; [|done]. cbn. f_equal. rewrite length_app. lia. }
      rewrite !Heq in Hend. exact Hend.
    + pose proof (opened_overrun (pk_buffer pkt) (a ++ ty) y 4 Hw Hf) as Ho.
      replace (length (a ++ ty)) with (l2_end p) in Ho by (rewrite length_app; lia).
      rewrite Ho; [done|]. unfold room in Hr. lia.
Qed.
End push_mpls.

(** * Popping a label, pushing and popping a service tag *)

Section pbb.
  Context `{Malloc} (parse : list Z → option (ofl_match * protocols_std)).

Lemma pop_mpls_lemma pkt t :
  let p := protos parse pkt in
  ofpbuf_wf (pk_buffer pkt) → l2_plain p (frame pkt) → is_Some (pr_mpls p) →
  edit pkt (pop_mpls parse pkt t) (take (l2_end p - 2) (frame pkt) ++ le_bytes 2 (htons t) ++ drop (l2_end p + 4) (frame pkt)).
Proof.
  intros p Hw Hp Hsome. pose proof (l2_end_ge _ _ Hp) as Hge. pose proof Hp as [Heth Hsnap _ Hlen Hm _ _].
  destruct Hm as [Hm|[Hm Hl]]; [rewrite Hm in Hsome; by destruct Hsome|].
  unfold pop_mpls. rewrite !ptr_eq. fold p. rewrite Heth, Hsnap, Hm. cbn [fmap option_fmap option_map]. rewrite Nat.add_0_r.
  change (pk_buffer (validate parse pkt)) with (pk_buffer pkt).
  destruct (cut3 (frame pkt) (l2_end p - 2) 6) as (a & o & y & Hf & Ha & Ho); [lia|].
  destruct (cut o 2) as (ty & l & -> & Hty); [lia|]. rewrite length_app in Ho.
  destruct (parts_of (pk_buffer pkt) _ Hw Hf) as (h & tl & Hbuf & Hd). rewrite Hd, Hbuf, <- (app_assoc ty).
  rewrite (set_next_type_at p (frame pkt)) by (done || lia). cbn [mbind option_bind].
  unfold usub. rewrite (proj2 (Nat.leb_le _ _)) by lia. cbn [mbind option_bind].
  replace (length h + l2_end p - length h)%nat with (length (a ++ le_bytes 2 (htons t))) by lens.
  rewrite (app_assoc a (le_bytes _ _)).
  edestruct (close_gap_parts (parts h (a ++ ty ++ l ++ y) tl) h (a ++ le_bytes 2 (htons t)) l y tl 4) as (h' & Hc & _);
    [lia|done|cbn [parts ob_size]; lens|].
  unfold MPLS_HEADER_LEN. rewrite Hc. cbn [mbind option_bind]. rewrite Hf, take_app_length' by done.
  rewrite (app_assoc a (ty ++ l)), drop_app_length' by lens.
  rewrite set_mem_parts, <- !app_assoc by done. apply edited_edit.
Qed.

Lemma memmove_frame h c t i j n :
  (i + n <= length c)%nat → (j + n <= length c)%nat →
  memmove (ob_mem (parts h c t)) (length h + i) (length h + j) n =
  Some (ob_mem (parts h (set_bytes i (take n (drop j c)) c) t)).
Proof.
  intros Hi Hj. unfold memmove. rewrite mread_frame by done. unfold mread. rewrite (proj2 (Nat.leb_le _ _)) by done.
  cbn [mbind option_bind]. apply mwrite_frame. rewrite length_take, length_drop. lia.
Qed.

(** Ethernet without LLC and VLAN tags, perhaps a service tag after it. *)
Definition pbb_plain (p : protocols_std) (f : list Z) : Prop :=
  (14 <= length f)%nat ∧ pr_eth p = Some 0%nat ∧ pr_eth_snap p = None ∧ pr_vlan p = None ∧ at_off (pr_pbb p) 14 18 f.

(** The customer's frame follows the new header unchanged. *)
Definition pbb_pushed (t : Z) (pbb : option nat) (f : list Z) : list Z :=
  take 12 f ++ le_bytes 2 (htons t) ++ match pbb with None => [0; 0; 0; 0] | Some v => take 4 (drop v f) end ++ f.

(** The end of a push: [src] is where the old pointer finds the Ethernet header. *)
Lemma fill_pbb h a ty z0 z1 y tl t src :
  length a = 12%nat → length ty = 2%nat → bytes ty → length z0 = 4%nat → length z1 = 14%nat →
  (src = length h ∨ src = length h + 18 ∧ z1 = a ++ ty)%nat →
  let c := a ++ ty ++ z0 ++ z1 ++ y in
  (mem ← memmove (ob_mem (parts h c tl)) (length h + 14 + o_c_eth_dst) src 14;
   v ← ld 2 mem (length h + o_eth_type);
   mem ← st 2 mem (length h + 14 + o_pbb_next_type) v;
   st 2 mem (length h + o_eth_type) (htons t)) =
  Some (ob_mem (parts h (a ++ le_bytes 2 (htons t) ++ z0 ++ a ++ ty ++ y) tl)).
Proof.
  intros Ha Hty Hb Hz0 Hz1 Hsrc c.
  assert (memmove (ob_mem (parts h c tl)) (length h + 14 + o_c_eth_dst) src 14 =
          Some (ob_mem (parts h (a ++ ty ++ z0 ++ (a ++ ty) ++ y) tl))) as ->.
  { unfold o_c_eth_dst. rewrite <- Nat.add_assoc.
    replace c with ((a ++ ty ++ z0) ++ z1 ++ y) by (subst c; by rewrite <- !app_assoc).
    replace (a ++ ty ++ z0 ++ (a ++ ty) ++ y) with ((a ++ ty ++ z0) ++ (a ++ ty) ++ y) by (by rewrite <- !app_assoc).
    assert (∃ j, src = (length h + j)%nat ∧ (j + 14 <= length ((a ++ ty ++ z0) ++ z1 ++ y))%nat ∧
      take 14 (drop j ((a ++ ty ++ z0) ++ z1 ++ y)) = a ++ ty) as (j & -> & Hj & Ht).
    { destruct Hsrc as [->|[-> ->]].
      - exists 0%nat. split_and!; [lia|lens|]. rewrite drop_0, !(app_assoc a), <- !(app_assoc (a ++ ty)).
        rewrite take_app_length'; [done|lens].
      - exists 18%nat. split_and!; [lia|lens|]. rewrite drop_app_length' by lens. rewrite take_app_length'; [done|lens]. }
    rewrite memmove_frame by lens. rewrite Ht. replace (14 + 4)%nat with (length (a ++ ty ++ z0)) by lens.
    rewrite set_bytes_mid by lens. done. }
  cbn [mbind option_bind]. rewrite ld_at by (unfold o_eth_type; lia). cbn [mbind option_bind].
  replace (a ++ ty ++ z0 ++ (a ++ ty) ++ y) with ((a ++ ty ++ z0 ++ a) ++ ty ++ y) by (by rewrite <- !app_assoc).
  rewrite st_at by (unfold o_pbb_next_type; lens). cbn [mbind option_bind]. rewrite (le_bytes_read 2 ty) by done.
  rewrite <- !app_assoc, st_at by (unfold o_eth_type; lia). done.
Qed.

(** Whether the old pointers can still be used after the gap was opened: when it is
    at the tail, the block must not have been reallocated. *)
Definition pbb_room (b : ofpbuf) : Prop := (18 <= ofpbuf_headroom b)%nat ∨ (36 <= ofpbuf_tailroom b)%nat.

Lemma pbb_id h x z y tl (p : protocols_std) f :
  f = x ++ y → length x = 14%nat → at_off (pr_pbb p) 14 18 f → length z = 18%nat →
  match (λ _, (length h + 14 + 18)%nat) <$> pr_pbb p with
  | None => Some 0 | Some q => ld 4 (ob_mem (parts h (x ++ z ++ y) tl)) (q + o_pbb_id) end =
  Some (le_read (match pr_pbb p with None => [0; 0; 0; 0] | Some v => take 4 (drop v f) end)).
Proof.
  intros Hf Hx Hp Hz. destruct Hp as [->|[-> Hl]]; cbn [fmap option_fmap option_map]; [done|].
  rewrite Hf, length_app in Hl. destruct (cut y 4) as (i & r & -> & Hi); [lia|].
  rewrite (app_assoc x), ld_at by (unfold o_pbb_id; lens). by rewrite Hf, drop_app_length', take_app_length' by lens.
Qed.

(** The end of a push, given what the gap was opened with. *)
Lemma end_pbb pkt t h a ty id z0 z1 y tl src :
  length a = 12%nat → length ty = 2%nat → bytes ty → length id = 4%nat → bytes id →
  length z0 = 4%nat → length z1 = 14%nat → (src = length h ∨ src = length h + 18 ∧ z1 = a ++ ty)%nat →
  edit pkt (mem ← st 4 (ob_mem (parts h ((a ++ ty) ++ (z0 ++ z1) ++ y) tl)) (length h + 14 + o_pbb_id) (le_read id);
            mem ← memmove mem (length h + 14 + o_c_eth_dst) src 14;
            mem ← (v ← ld 2 mem (length h + o_eth_type);
                   mem ← st 2 mem (length h + 14 + o_pbb_next_type) v;
                   st 2 mem (length h + o_eth_type) (htons t));
            Some (edited (validate parse pkt) (set_mem (parts h ((a ++ ty) ++ (z0 ++ z1) ++ y) tl) mem)))
    (a ++ le_bytes 2 (htons t) ++ id ++ a ++ ty ++ y).
Proof.
  intros Ha Hty Hbt Hid Hbid Hz0 Hz1 Hsrc. rewrite <- (app_assoc z0), st_at by (unfold o_pbb_id; lens).
  cbn [mbind option_bind]. rewrite (le_bytes_read 4 id) by done. rewrite <- (app_assoc a ty (id ++ z1 ++ y)).
  pose proof (fill_pbb h a ty id z1 y tl t src Ha Hty Hbt Hid Hz1 Hsrc) as Hfill. cbv zeta in Hfill.
  destruct (memmove _ _ src 14) as [m1|]; [|done]. cbn [mbind option_bind] in *.
  rewrite Hfill. cbn [mbind option_bind]. rewrite set_mem_parts by lens. apply edited_edit.
Qed.

Lemma push_pbb_lemma pkt t :
  let p := protos parse pkt in
  ofpbuf_wf (pk_buffer pkt) → bytes (frame pkt) → pbb_plain p (frame pkt) →
  (pbb_room (pk_buffer pkt) → edit pkt (push_pbb parse pkt t) (pbb_pushed t (pr_pbb p) (frame pkt))) ∧
  (¬ pbb_room (pk_buffer pkt) → push_pbb parse pkt t = None).
Proof.
  intros p Hw Hb (Hlen & Heth & Hsnap & Hvlan & Hpbb). unfold push_pbb. rewrite !ptr_eq. fold p.
  rewrite Heth, Hsnap, Hvlan. cbn [fmap option_fmap option_map eth_size]. change ETH_HEADER_LEN with 14%nat. rewrite Nat.add_0_r.
  change (pk_buffer (validate parse pkt)) with (pk_buffer pkt).
  destruct (cut3 (frame pkt) 12 2) as (a & ty & y & Hf & Ha & Hty); [lia|].
  assert (bytes ty) as Hbt by by_pieces Hf Hb.
  assert (frame pkt = (a ++ ty) ++ y) as Hf' by (by rewrite <- app_assoc).
  assert (length (a ++ ty) = 14%nat) as H14 by lens.
  set (id := match pr_pbb p with None => [0; 0; 0; 0] | Some v => take 4 (drop v (frame pkt)) end).
  assert (length id = 4%nat ∧ bytes id) as [Hid Hbid].
  { subst id. destruct Hpbb as [->|[-> Hl]]; [split; [done|unfold bytes; by_eval]|].
    split; [lens|]. by apply Forall_take, Forall_drop. }
  assert (pbb_pushed t (pr_pbb p) (frame pkt) = a ++ le_bytes 2 (htons t) ++ id ++ a ++ ty ++ y) as ->.
  { unfold pbb_pushed. fold id. rewrite Hf. by rewrite take_app_length'. }
  destruct (Nat.leb_spec PBB_HEADER_LEN (ofpbuf_headroom (pk_buffer pkt))) as [Hh|Hh]; unfold PBB_HEADER_LEN in *.
  - split; [intros _|intros Hn; destruct Hn; by left]. cbn [negb andb].
    destruct (opened_front (pk_buffer pkt) (a ++ ty) y 18 Hw Hf' Hh) as (h & z & tl & Ho & Hz & Hlh & Hzx).
    destruct Hzx as [z0 ->]; [lia|]. rewrite H14 in Ho. rewrite Ho. cbn [mbind option_bind]. cbn [ob_data parts].
    fold (parts h ((a ++ ty) ++ (z0 ++ a ++ ty) ++ y) tl).
    pose proof (pbb_id h (a ++ ty) (z0 ++ a ++ ty) y tl p _ Hf' H14 Hpbb Hz) as Hpid. fold id in Hpid.
    replace ((λ _, (length h + 14 + 18)%nat) <$> pr_pbb p) with ((λ off, (ob_data (pk_buffer pkt) + off)%nat) <$> pr_pbb p) in Hpid
      by (destruct Hpbb as [->|[-> _]]; cbn; [done|f_equal; lia]).
    rewrite Hpid. cbn [mbind option_bind].
    pose proof (end_pbb pkt t h a ty id z0 (a ++ ty) y tl (ob_data (pk_buffer pkt)) Ha Hty Hbt Hid Hbid ltac:(lens) H14
      ltac:(right; split; [lia|done])) as Hend.
    destruct (st 4 _ _ (le_read id)) as [m|]; [|done]. exact Hend.
  - split; intros Hr.
    + destruct Hr as [Hr|Hr]; [lia|].
      destruct (opened_back (pk_buffer pkt) (a ++ ty) y 18 Hw Hf' ltac:(lia) ltac:(lia)) as (h & z & tl & Ho & Hz & Hlh).
      rewrite H14 in Ho. rewrite Ho. cbn [mbind option_bind]. cbn [ob_data parts].
      destruct (cut z 4) as (z0 & z1 & -> & Hz0); [lia|]. fold (parts h ((a ++ ty) ++ (z0 ++ z1) ++ y) tl).
      pose proof (pbb_id h (a ++ ty) (z0 ++ z1) y tl p _ Hf' H14 Hpbb Hz) as Hpid. fold id in Hpid.
      replace ((λ _, (length h + 14 + 18)%nat) <$> pr_pbb p) with
        ((λ _, (length h + 14 + 18)%nat) <$> ((λ off, (ob_data (pk_buffer pkt) + off)%nat) <$> pr_pbb p)) in Hpid
        by (destruct (pr_pbb p); done).
      rewrite Hpid. cbn [mbind option_bind]. unfold moved. rewrite (proj2 (Nat.ltb_ge _ _)), andb_false_r by lia.
      pose proof (end_pbb pkt t h a ty id z0 z1 y tl (ob_data (pk_buffer pkt)) Ha Hty Hbt Hid Hbid Hz0 ltac:(lens)
        ltac:(left; lia)) as Hend.
      destruct (st 4 _ _ (le_read id)) as [m|]; [|done]. exact Hend.
    + unfold pbb_room in Hr. destruct (Nat.lt_ge_cases (ofpbuf_tailroom (pk_buffer pkt)) 18) as [Ht|Ht].
      * unfold moved. rewrite (proj2 (Nat.ltb_lt _ _)) by lia. cbn [negb andb].
        destruct (open_back _ _ _); cbn [mbind option_bind]; [|done].
        destruct (match _ <$> _ with None => _ | Some _ => _ end); cbn [mbind option_bind]; [|done]. by destruct (st _ _ _ _).
      * pose proof (opened_overrun (pk_buffer pkt) (a ++ ty) y 18 Hw Hf') as Ho. rewrite H14 in Ho. rewrite Ho by lia. done.
Qed.
End pbb.

(** * Properties *)

(** Pushing a VLAN tag, an MPLS label or a service (PBB) tag changes the frame
    as it should, whichever way the buffer makes room, and leaves everything else of
    the packet alone.  The new tag repeats the VLAN tag that was outermost (else 0);
    the new label repeats the outermost label without its bottom of stack bit, or
    takes the TTL of the IP header; the customer's frame follows a service tag
    unchanged.  The actions are safe exactly when the buffer has headroom for the
    header, or a tailroom that is too small for it (the buffer is then enlarged) or
    large enough for two: otherwise the move runs over the end of the block.  The
    service tag needs headroom or tailroom for two: it uses pointers to the old
    block after enlarging it. *)
Theorem push_frames `{Malloc} parse pkt t
    (Hw : ofpbuf_wf (pk_buffer pkt)) (Hb : bytes (frame pkt)) :
  let p := protos parse pkt in
  let b := pk_buffer pkt in
  (plain_eth p (frame pkt) →
    (room b 4 → edit pkt (push_vlan parse pkt t) (vlan_pushed t (pr_vlan p) (frame pkt))) ∧
    (¬ room b 4 → push_vlan parse pkt t = None)) ∧
  (l2_plain p (frame pkt) →
    (room b 4 → ∃ l, new_label (frame pkt) (pr_mpls p) (pr_ipv4 p) (pr_ipv6 p) = Some l ∧
                     edit pkt (push_mpls parse pkt t) (mpls_pushed (l2_end p) t l (frame pkt))) ∧
    (¬ room b 4 → push_mpls parse pkt t = None)) ∧
  (pbb_plain p (frame pkt) →
    (pbb_room b → edit pkt (push_pbb parse pkt t) (pbb_pushed t (pr_pbb p) (frame pkt))) ∧
    (¬ pbb_room b → push_pbb parse pkt t = None)).
Proof. split_and!; [by apply push_vlan_lemma|by apply push_mpls_lemma|by apply push_pbb_lemma]. Qed.

Lemma htons_twice x : fits 16 x → htons (htons x) = x.
Proof.
  intros Hx. unfold htons, u16. rewrite (wrap_small 16 x), wrap_small by (done || by apply bswap16_fits). by apply bswap16_twice.
Qed.

Section roundtrip.
  Context `{Malloc} (parse : list Z → option (ofl_match * protocols_std)).

(** After an edit the headers are decoded again. *)
Lemma protos_edit pkt r f m p :
  edit pkt r f → parse f = Some (m, p) → ∃ pkt', r = Some pkt' ∧ frame pkt' = f ∧ ofpbuf_wf (pk_buffer pkt') ∧ protos parse pkt' = p.
Proof.
  intros (pkt' & -> & Hf & Hw & Hv & _) Hp. exists pkt'. split_and!; [done..|].
  unfold protos, validate, packet_handle_std_validate. fold (frame pkt'). rewrite Hv, Hf, Hp. done.
Qed.

Lemma edit_frame pkt r f : edit pkt r f → ∃ pkt', r = Some pkt' ∧ frame pkt' = f.
Proof. intros (pkt' & -> & Hf & _). by exists pkt'. Qed.

Lemma pop_pbb_lemma pkt :
  let p := protos parse pkt in
  ofpbuf_wf (pk_buffer pkt) → pr_eth p = Some 0%nat → pr_pbb p = Some 14%nat → (18 <= length (frame pkt))%nat →
  edit pkt (pop_pbb parse pkt) (drop 18 (frame pkt)).
Proof.
  intros p Hw Heth Hpbb Hl. unfold pop_pbb. rewrite !ptr_eq. fold p. rewrite Heth, Hpbb.
  cbn [fmap option_fmap option_map]. rewrite Nat.add_0_r. change (pk_buffer (validate parse pkt)) with (pk_buffer pkt).
  destruct (cut (frame pkt) 18) as (x & y & Hf & Hx); [done|]. rewrite Hf, drop_app_length' by done.
  destruct (parts_of (pk_buffer pkt) _ Hw Hf) as (h & tl & Hbuf & Hd). rewrite Hd, Hbuf. cbn [ob_size ob_data parts].
  fold (parts h (x ++ y) tl). unfold usub, o_c_eth_dst. rewrite (proj2 (Nat.leb_le _ _)) by lia. cbn [mbind option_bind].
  rewrite (proj2 (Nat.leb_le _ _)) by lens. cbn [mbind option_bind].
  replace (length (x ++ y) - (length h + 14 + 4 - length h))%nat with (length y) by lens.
  rewrite <- (Nat.add_0_r (length h)) at 1. rewrite <- Nat.add_assoc, memmove_frame by lens.
  cbn [mbind option_bind]. rewrite drop_app_length' by lia. rewrite firstn_all.
  unfold set_bytes. rewrite take_0, app_nil_l, Nat.add_0_l. set (r := drop (length y) (x ++ y)).
  exists (edited (validate parse pkt) (parts h y (r ++ tl))). split.
  - unfold edited, parts. cbn [ob_mem]. by rewrite <- (app_assoc y r tl).
  - split_and!; [apply parts_contents|apply parts_wf|done..].
Qed.

Lemma vlan_roundtrip pkt t m p1 (Hw : ofpbuf_wf (pk_buffer pkt)) (Hb : bytes (frame pkt)) :
  let p := protos parse pkt in
  let f := frame pkt in
  plain_eth p f → room (pk_buffer pkt) 4 → parse (vlan_pushed t (pr_vlan p) f) = Some (m, p1) →
    plain_eth p1 (vlan_pushed t (pr_vlan p) f) → pr_vlan p1 = Some 14%nat →
    ∃ pkt1 pkt2, push_vlan parse pkt t = Some pkt1 ∧ pop_vlan parse pkt1 = Some pkt2 ∧ frame pkt2 = f.
Proof.
  intros p f.
  intros Hp Hr Hparse Hp1 Hv1. destruct (push_vlan_lemma parse pkt t Hw Hb Hp) as [He _]. specialize (He Hr).
  destruct (protos_edit _ _ _ _ _ He Hparse) as (pkt1 & Hpush & Hf1 & Hw1 & <-).
  pose proof Hp as (Hlen & _). fold f in Hlen, Hf1, Hparse, Hp1, He. fold p in Hf1, Hp1.
  destruct (cut3 f 12 2) as (a & ty & y & Hf & Ha & Hty); [lia|].
  set (tci := match pr_vlan p with None => [0; 0] | Some v => take 2 (drop v f) end) in *.
  assert (length tci = 2%nat) as Htci.
  { subst tci. destruct Hp as (_ & _ & _ & [->|[-> Hl]]); [done|]. lens. }
  assert (bytes (frame pkt1)) as Hb1.
  { rewrite Hf1. unfold vlan_pushed, bytes. fold tci. rewrite !Forall_app. fold bytes. split_and!.
    - by apply Forall_take.
    - apply le_bytes_bytes.
    - subst tci. destruct (pr_vlan p); [by apply Forall_take, Forall_drop|by repeat constructor].
    - by apply Forall_drop. }
  rewrite <- Hf1 in Hp1.
  destruct (edit_frame _ _ _ (pop_vlan_lemma parse pkt1 Hw1 Hb1 Hp1 ltac:(by rewrite Hv1))) as (pkt2 & Hpop & Hf2).
  assert (frame pkt1 = a ++ (le_bytes 2 (htons t) ++ tci) ++ ty ++ y) as Hf1'.
  { rewrite Hf1. unfold vlan_pushed. fold tci. clearbody tci. rewrite Hf, take_app_length', drop_app_length' by done.
    by rewrite <- !app_assoc. }
  exists pkt1, pkt2. split_and!; [done..|]. rewrite Hf2, Hf1', Hf, take_app_length' by done.
  rewrite (app_assoc a), drop_app_length' by lens. done.
Qed.

Lemma mpls_roundtrip pkt t m p1 (Hw : ofpbuf_wf (pk_buffer pkt)) (Hb : bytes (frame pkt)) :
  let p := protos parse pkt in
  let f := frame pkt in
  ∀ l, l2_plain p f → room (pk_buffer pkt) 4 → new_label f (pr_mpls p) (pr_ipv4 p) (pr_ipv6 p) = Some l →
    parse (mpls_pushed (l2_end p) t l f) = Some (m, p1) → l2_plain p1 (mpls_pushed (l2_end p) t l f) →
    l2_end p1 = l2_end p → is_Some (pr_mpls p1) →
    ∃ pkt1 pkt2 old, ld 2 f (l2_end p - 2) = Some old ∧ push_mpls parse pkt t = Some pkt1 ∧
      pop_mpls parse pkt1 (htons old) = Some pkt2 ∧ frame pkt2 = f.
Proof.
  intros p f.
  intros l Hp Hr Hl Hparse Hp1 He1 Hm1. destruct (push_mpls_lemma parse pkt t Hw Hp) as [He _].
  destruct (He Hr) as (l' & Hl' & He'). fold p f in Hl', He'. rewrite Hl in Hl'. simplify_eq. clear He.
  destruct (protos_edit _ _ _ _ _ He' Hparse) as (pkt1 & Hpush & Hf1 & Hw1 & <-). rewrite <- Hf1 in Hp1.
  pose proof (l2_end_ge _ _ Hp) as Hge. pose proof (lp_len _ _ Hp) as Hlen. fold p f in Hge, Hlen.
  destruct (cut3 f (l2_end p - 2) 2) as (a & ty & y & Hf & Ha & Hty); [lia|].
  destruct (edit_frame _ _ _ (pop_mpls_lemma parse pkt1 (htons (le_read ty)) Hw1 Hp1 Hm1)) as (pkt2 & Hpop & Hf2).
  exists pkt1, pkt2, (le_read ty). split_and!; [|done..|].
  + rewrite Hf, <- Ha. unfold ld. by rewrite mread_mid.
  + assert (frame pkt1 = a ++ (le_bytes 2 (htons t) ++ le_bytes 4 l') ++ y) as Hf1'.
    { rewrite Hf1. unfold mpls_pushed. rewrite Hf, take_app_length' by done.
      rewrite (app_assoc a ty y), drop_app_length' by lens. by rewrite <- !app_assoc. }
    change (frame pkt) with f in Hb. assert (bytes ty) as Hbt by by_pieces Hf Hb. pose proof (le_read_bound ty Hbt) as Hbd. rewrite Hty in Hbd.
    rewrite Hf2, Hf1', He1, take_app_length' by done. rewrite htons_twice, (le_bytes_read 2 ty) by done.
    rewrite (app_assoc a (_ ++ _)), drop_app_length' by lens. done.
Qed.

Lemma pbb_roundtrip pkt t m p1 (Hw : ofpbuf_wf (pk_buffer pkt)) (Hb : bytes (frame pkt)) :
  let p := protos parse pkt in
  let f := frame pkt in
  pbb_plain p f → pbb_room (pk_buffer pkt) → parse (pbb_pushed t (pr_pbb p) f) = Some (m, p1) →
    pr_eth p1 = Some 0%nat → pr_pbb p1 = Some 14%nat →
    ∃ pkt1 pkt2, push_pbb parse pkt t = Some pkt1 ∧ pop_pbb parse pkt1 = Some pkt2 ∧ frame pkt2 = f.
Proof.
  intros p f.
  intros Hp Hr Hparse He1 Hp1. destruct (push_pbb_lemma parse pkt t Hw Hb Hp) as [He _]. specialize (He Hr).
  destruct (protos_edit _ _ _ _ _ He Hparse) as (pkt1 & Hpush & Hf1 & Hw1 & <-). fold f p in Hf1.
  destruct Hp as (Hlen & _ & _ & _ & Hpbb). fold f p in Hlen, Hpbb.
  assert (∃ x, frame pkt1 = x ++ f ∧ length x = 18%nat) as (x & Hx & Hlx).
  { rewrite Hf1. unfold pbb_pushed. eexists. rewrite !(app_assoc (take 12 f)), (app_assoc (_ ++ _)). split; [done|].
    destruct Hpbb as [->|[-> Hl]]; lens. }
  destruct (edit_frame _ _ _ (pop_pbb_lemma pkt1 Hw1 He1 Hp1 ltac:(rewrite Hx, length_app; lia))) as (pkt2 & Hpop & Hf2).
  exists pkt1, pkt2. split_and!; [done..|]. by rewrite Hf2, Hx, drop_app_length'.
Qed.

End roundtrip.

(** Popping undoes pushing.  When there is room for the header and the decoder
    finds the new header where it was put, popping it gives back the frame that was
    there before the push, byte by byte: for a VLAN tag, for a service tag, and for
    an MPLS label that is popped with the type the frame had before. *)
Theorem push_pop_roundtrip `{Malloc} parse pkt t m p1
    (Hw : ofpbuf_wf (pk_buffer pkt)) (Hb : bytes (frame pkt)) :
  let p := protos parse pkt in
  let f := frame pkt in
  (plain_eth p f → room (pk_buffer pkt) 4 → parse (vlan_pushed t (pr_vlan p) f) = Some (m, p1) →
    plain_eth p1 (vlan_pushed t (pr_vlan p) f) → pr_vlan p1 = Some 14%nat →
    ∃ pkt1 pkt2, push_vlan parse pkt t = Some pkt1 ∧ pop_vlan parse pkt1 = Some pkt2 ∧ frame pkt2 = f) ∧
  (∀ l, l2_plain p f → room (pk_buffer pkt) 4 → new_label f (pr_mpls p) (pr_ipv4 p) (pr_ipv6 p) = Some l →
    parse (mpls_pushed (l2_end p) t l f) = Some (m, p1) → l2_plain p1 (mpls_pushed (l2_end p) t l f) →
    l2_end p1 = l2_end p → is_Some (pr_mpls p1) →
    ∃ pkt1 pkt2 old, ld 2 f (l2_end p - 2) = Some old ∧ push_mpls parse pkt t = Some pkt1 ∧
      pop_mpls parse pkt1 (htons old) = Some pkt2 ∧ frame pkt2 = f) ∧
  (pbb_plain p f → pbb_room (pk_buffer pkt) → parse (pbb_pushed t (pr_pbb p) f) = Some (m, p1) →
    pr_eth p1 = Some 0%nat → pr_pbb p1 = Some 14%nat →
    ∃ pkt1 pkt2, push_pbb parse pkt t = Some pkt1 ∧ pop_pbb parse pkt1 = Some pkt2 ∧ frame pkt2 = f).
Proof. intros p f. split_and!; [by apply vlan_roundtrip|by apply mpls_roundtrip|by apply pbb_roundtrip]. Qed.

(** ** An example decoder: Ethernet, at most one VLAN tag, then what the type says. *)

Definition be16 (f : list Z) (off : nat) : Z := bswap16 (rd16 (drop off f)).

Definition ex_decode (f : list Z) : option (ofl_match * protocols_std) :=
  if (length f <? 14)%nat then None else
  let vlan := if be16 f 12 =? 0x8100 then Some 14%nat else None in
  let off := match vlan with Some _ => 18%nat | None => 14%nat end in
  let here ty := if be16 f (off - 2) =? ty then Some off else None in
  Some (Match 0 [], Proto (Some 0%nat) None vlan vlan (here 0x8847) (here 0x88e7) (here 0x0800) (here 0x86dd)
                      None None None None None None None None).

(** An IPv4 frame in a buffer with the given headroom and tailroom. *)
Definition ex_ipv4 : list Z :=
  [2; 0; 0; 0; 0; 1; 2; 0; 0; 0; 0; 2; 0x08; 0x00] ++
  [0x45; 0; 0; 24; 0; 0; 0; 0; 64; 17; 0x66; 0xd3; 10; 0; 0; 1; 10; 0; 0; 2; 1; 2; 3; 4].
Definition ex_packet (headroom tailroom : nat) : packet :=
  packet_create ex_decode 1 (parts (replicate headroom 0xAA) ex_ipv4 (replicate tailroom 0xBB)) false.

#[local] Instance ex_malloc : Malloc := λ _, 0xCC.

(** The premises of the theorems, checked by evaluation. *)
Ltac by_eval_conj := unfold plain_eth, pbb_plain, at_off, room, pbb_room, bytes; by_eval.

Lemma push_frames_witness :
  let p h t := protos ex_decode (ex_packet h t) in
  edit (ex_packet 4 0) (push_vlan ex_decode (ex_packet 4 0) 0x8100)
    (vlan_pushed 0x8100 (pr_vlan (p 4 0)%nat) (frame (ex_packet 4 0))) ∧
  push_vlan ex_decode (ex_packet 0 6) 0x8100 = None ∧
  (∃ l, edit (ex_packet 0 0) (push_mpls ex_decode (ex_packet 0 0) 0x8847)
          (mpls_pushed (l2_end (p 0 0)%nat) 0x8847 l (frame (ex_packet 0 0))) ∧ l = 0x40010000) ∧
  edit (ex_packet 130 0) (push_pbb ex_decode (ex_packet 130 0) 0x88e7)
    (pbb_pushed 0x88e7 (pr_pbb (p 130 0)%nat) (frame (ex_packet 130 0))) ∧
  push_pbb ex_decode (ex_packet 0 0) 0x88e7 = None.
Proof.
  cbv zeta. split_and!.
  - destruct (push_frames ex_decode (ex_packet 4 0) 0x8100 ltac:(by_eval) ltac:(by_eval_conj)) as (Hv & _ & _).
    destruct (Hv ltac:(by_eval_conj)) as [H1 _]. exact (H1 ltac:(by_eval_conj)).
  - destruct (push_frames ex_decode (ex_packet 0 6) 0x8100 ltac:(by_eval) ltac:(by_eval_conj)) as (Hv & _ & _).
    destruct (Hv ltac:(by_eval_conj)) as [_ H2]. exact (H2 ltac:(by_eval_conj)).
  - destruct (push_frames ex_decode (ex_packet 0 0) 0x8847 ltac:(by_eval) ltac:(by_eval_conj)) as (_ & Hm & _).
    destruct (Hm ltac:(split; by_eval_conj)) as [H1 _]. destruct (H1 ltac:(by_eval_conj)) as (l & Hl & He).
    exists l. split; [exact He|]. vm_compute in Hl. injection Hl as <-. reflexivity.
  - destruct (push_frames ex_decode (ex_packet 130 0) 0x88e7 ltac:(by_eval) ltac:(by_eval_conj)) as (_ & _ & Hp).
    destruct (Hp ltac:(by_eval_conj)) as [H1 _]. exact (H1 ltac:(by_eval_conj)).
  - destruct (push_frames ex_decode (ex_packet 0 0) 0x88e7 ltac:(by_eval) ltac:(by_eval_conj)) as (_ & _ & Hp).
    destruct (Hp ltac:(by_eval_conj)) as [_ H2]. exact (H2 ltac:(by_eval_conj)).
Defined.

Definition ex_proto (vlan mpls pbb ipv4 : option nat) : protocols_std :=
  Proto (Some 0%nat) None vlan vlan mpls pbb ipv4 None None None None None None None None None.

Lemma push_pop_roundtrip_witness :
  (∃ pkt1 pkt2, push_vlan ex_decode (ex_packet 0 0) 0x8100 = Some pkt1 ∧ pop_vlan ex_decode pkt1 = Some pkt2 ∧
     frame pkt2 = frame (ex_packet 0 0)) ∧
  (∃ pkt1 pkt2, push_mpls ex_decode (ex_packet 0 0) 0x8847 = Some pkt1 ∧ pop_mpls ex_decode pkt1 0x0800 = Some pkt2 ∧
     frame pkt2 = frame (ex_packet 0 0)) ∧
  (∃ pkt1 pkt2, push_pbb ex_decode (ex_packet 20 0) 0x88e7 = Some pkt1 ∧ pop_pbb ex_decode pkt1 = Some pkt2 ∧
     frame pkt2 = frame (ex_packet 20 0)).
Proof.
  split_and!.
  - destruct (push_pop_roundtrip ex_decode (ex_packet 0 0) 0x8100 (Match 0 [])
      (ex_proto (Some 14%nat) None None (Some 18%nat)) ltac:(by_eval) ltac:(by_eval_conj)) as (Hv & _ & _).
    exact (Hv ltac:(by_eval_conj) ltac:(by_eval_conj) ltac:(vm_compute; reflexivity) ltac:(by_eval_conj) ltac:(reflexivity)).
  - destruct (push_pop_roundtrip ex_decode (ex_packet 0 0) 0x8847 (Match 0 [])
      (ex_proto None (Some 14%nat) None None) ltac:(by_eval) ltac:(by_eval_conj)) as (_ & Hm & _).
    destruct (Hm 0x40010000 ltac:(split; by_eval_conj) ltac:(by_eval_conj) ltac:(vm_compute; reflexivity) ltac:(vm_compute; reflexivity)
      ltac:(split; by_eval_conj) ltac:(reflexivity) ltac:(by eexists)) as (pkt1 & pkt2 & old & Hold & H1 & H2 & H3).
    vm_compute in Hold. injection Hold as <-. exists pkt1, pkt2. split; [exact H1|]. split; [exact H2|exact H3].
  - destruct (push_pop_roundtrip ex_decode (ex_packet 20 0) 0x88e7 (Match 0 [])
      (ex_proto None None (Some 14%nat) None) ltac:(by_eval) ltac:(by_eval_conj)) as (_ & _ & Hp).
    exact (Hp ltac:(by_eval_conj) ltac:(by_eval_conj) ltac:(vm_compute; reflexivity) ltac:(reflexivity) ltac:(reflexivity)).
Defined.
