(* ===== verification/HeaderEdit.v ===== *)
(** What the actions that rewrite IPv4 headers do to a frame: [set_nw_ttl],
    [dec_nw_ttl], [copy_ttl_in] and the IPv4 cases of [set_field], of
    udatapath/dp_actions.c.

    The byte or word asked for changes, the header checksum changes with it, and
    nothing else does; a checksum that was right stays right, except for the one
    value of the field where [recalc_csum16] is wrong. *)

From S2P Require Import Prelude Memory Csum Ofpbuf OpenFlow MatchStd ActionSet Buffers PacketActions PushPop.

(** * Sums of headers *)

Lemma words_app a b : Nat.even (length a) = true → Csum.words (a ++ b) = Csum.words a ++ Csum.words b.
Proof.
  induction a as [a IH] using (induction_ltof1 _ (@length Z)); unfold ltof in IH. intros He.
  destruct a as [|b0 [|b1 a]]; [done|done|]. cbn [app Csum.words]. rewrite IH by (simpl; lia || done). done.
Qed.

(** The sum of a header that has the 16-bit word [w] at an even place. *)
Lemma sum_cut a w b :
  Nat.even (length a) = true → length w = 2%nat →
  zsum (Csum.words (a ++ w ++ b)) = zsum (Csum.words a) + le_read w + zsum (Csum.words b).
Proof.
  intros Ha Hw. destruct w as [|b0 [|b1 [|? ?]]]; try done. rewrite words_app by done.
  cbn [app Csum.words le_read]. rewrite zsum_app, zsum_cons, Z.shiftl_0_l, Z.add_0_r. lia.
Qed.

(** The IPv4 header of [hl] bytes at [ip] has a right checksum. *)
Definition ip_header_ok (f : list Z) (ip hl : nat) : Prop :=
  zsum (Csum.words (take hl (drop ip f))) mod 65535 = 0.

#[global] Instance ip_header_ok_dec f ip hl : Decision (ip_header_ok f ip hl).
Proof. unfold ip_header_ok. apply _. Defined.

Lemma header_cut (x hdr y : list Z) : take (length hdr) (drop (length x) (x ++ hdr ++ y)) = hdr.
Proof. by rewrite drop_app_length, take_app_length. Qed.

(** Replacing the word [o] of a header with the checksum [c], in either order. *)
Lemma header_recalc rest o c n :
  fits 16 c → fits 16 o → fits 16 n → (rest + o + c) mod 65535 = 0 →
  (rest + n + Csum.recalc_csum16 c o n) mod 65535 = 0 ↔ n ≠ o + c + 1.
Proof.
  intros Hc Ho Hn Hv. split.
  - intros Hv'. apply Csum.recalc16_residue; [done..|]. Z.div_mod_to_equations. lia.
  - intros Hne. pose proof (Csum.recalc16_valid rest c o n Hc Ho Hn Hne) as H. unfold Csum.csum_valid in H. auto.
Qed.

(** The words of the header that share a 16-bit field with a byte. *)
Lemma read2 a b : fits 8 a → fits 8 b → le_read [a; b] = a + 256 * b ∧ fits 16 (le_read [a; b]).
Proof.
  intros Ha Hb. cbn [le_read]. rewrite Z.shiftl_0_l, Z.add_0_r, Z.shiftl_mul_pow2 by lia.
  unfold fits in *. split; lia.
Qed.

Lemma htons_pair a b : fits 8 a → fits 8 b → htons (Z.shiftl a 8 + b) = le_read [a; b].
Proof. intros Ha Hb. unfold htons. rewrite bswap16_bytes by done. by destruct (read2 a b Ha Hb) as [-> _]. Qed.

Lemma le_read2_fits w : length w = 2%nat → bytes w → fits 16 (le_read w).
Proof. intros Hl Hb. pose proof (le_read_bound w Hb) as H. rewrite Hl in H. exact H. Qed.

Lemma le_read1 b : le_read [b] = b.
Proof. cbn [le_read]. rewrite Z.shiftl_0_l. lia. Qed.

Lemma le_bytes1 b : fits 8 b → le_bytes 1 b = [b].
Proof.
  intros Hb. cbn [le_bytes]. f_equal. change 0xff with (2 ^ 8 - 1). rewrite land_ones_wrap by lia. by apply wrap_small.
Qed.

(** Cutting a frame differently. *)
Ltac recut a b := replace a with b by (by rewrite <- !app_assoc).

Lemma ld_list w a o r p : p = length a → length o = w → ld w (a ++ o ++ r) p = Some (le_read o).
Proof. intros -> <-. unfold ld. by rewrite mread_mid. Qed.

(** * TTL *)

Section ttl.
  Implicit Types h x a cs r tl : list Z.

Lemma set_ipv4_ttl_at h x a ttl proto cs r tl t ip :
  ip = (length h + length x)%nat → length a = 8%nat → length cs = 2%nat → fits 8 ttl → fits 8 proto → fits 8 t →
  set_ipv4_ttl (ob_mem (parts h (x ++ a ++ [ttl; proto] ++ cs ++ r) tl)) ip t =
  Some (ob_mem (parts h (x ++ a ++ [t; proto] ++
    le_bytes 2 (Csum.recalc_csum16 (le_read cs) (le_read [ttl; proto]) (le_read [t; proto])) ++ r) tl)).
Proof.
  intros -> Ha Hc Httl Hpr Ht. unfold set_ipv4_ttl, o_ip_proto, o_ip_ttl, o_ip_csum.
  set (f := x ++ a ++ [ttl; proto] ++ cs ++ r). set (ip := (length h + length x)%nat).
  assert (ld 1 (ob_mem (parts h f tl)) (ip + 9) = Some proto) as ->.
  { replace f with ((x ++ a ++ [ttl]) ++ [proto] ++ cs ++ r) by (subst f; by rewrite <- !app_assoc).
    rewrite ld_at by lens. by rewrite le_read1. }
  assert (ld 1 (ob_mem (parts h f tl)) (ip + 8) = Some ttl) as ->.
  { replace f with ((x ++ a) ++ [ttl] ++ [proto] ++ cs ++ r) by (subst f; by rewrite <- !app_assoc).
    rewrite ld_at by lens. by rewrite le_read1. }
  replace f with ((x ++ a ++ [ttl; proto]) ++ cs ++ r) by (subst f; by rewrite <- !app_assoc). clear f.
  cbn [mbind option_bind]. rewrite ld_at by lens. cbn [mbind option_bind].
  rewrite !(Z.add_comm proto), !htons_pair by done. rewrite st_at by lens. cbn [mbind option_bind].
  match goal with |- st _ (ob_mem (parts _ (_ ++ ?c ++ _) _)) _ _ = _ => set (c' := c) end.
  recut ((x ++ a ++ [ttl; proto]) ++ c' ++ r) ((x ++ a) ++ [ttl] ++ [proto] ++ c' ++ r).
  rewrite st_at by lens. by rewrite le_bytes1, <- !app_assoc by done.
Qed.

(** The header stays right unless the checksum word is exactly [t - ttl - 1]. *)
Lemma ttl_header_ok a ttl proto cs r t :
  length a = 8%nat → length cs = 2%nat → bytes cs → fits 8 ttl → fits 8 proto → fits 8 t →
  let c := le_read cs in
  zsum (Csum.words (a ++ [ttl; proto] ++ cs ++ r)) mod 65535 = 0 →
  zsum (Csum.words (a ++ [t; proto] ++ le_bytes 2 (Csum.recalc_csum16 c (le_read [ttl; proto]) (le_read [t; proto])) ++ r))
    mod 65535 = 0 ↔ t ≠ ttl + c + 1.
Proof.
  intros Ha Hc Hb Httl Hpr Ht c. rewrite (sum_cut a [ttl; proto]), (sum_cut a [t; proto]) by (by rewrite ?Ha).
  rewrite <- (app_nil_l (cs ++ r)), <- (app_nil_l (le_bytes _ _ ++ r)).
  rewrite (sum_cut [] cs), (sum_cut [] (le_bytes _ _)) by (done || apply le_bytes_length). cbn [Csum.words zsum foldr].
  rewrite le_read_le_bytes. rewrite (wrap_small (8 * Z.of_nat 2)) by apply Csum.recalc16_fits. fold c.
  destruct (read2 ttl proto Httl Hpr) as [E1 F1], (read2 t proto Ht Hpr) as [E2 F2].
  set (A := zsum (Csum.words a)) in *. set (R := zsum (Csum.words r)) in *. intros Hv.
  pose proof (header_recalc (A + R) (le_read [ttl; proto]) c (le_read [t; proto]) (le_read2_fits cs Hc Hb) F1 F2) as Hrec.
  replace (A + le_read [t; proto] + (0 + Csum.recalc_csum16 c (le_read [ttl; proto]) (le_read [t; proto]) + R))
    with (A + R + le_read [t; proto] + Csum.recalc_csum16 c (le_read [ttl; proto]) (le_read [t; proto])) by lia.
  rewrite Hrec by (rewrite <- Hv; f_equal; lia). rewrite E1, E2. lia.
Qed.
End ttl.

(** An IPv4 header of [hl] bytes at [ip], with its fields. *)
Definition ipv4_at (p : protocols_std) (f : list Z) (ip hl : nat) : Prop :=
  pr_ipv4 p = Some ip ∧ (20 <= hl)%nat ∧ (ip + hl <= length f)%nat.

(** The outcome of an edit in place: the frame with some bytes changed ([only]),
    the rest of the packet and its decoded headers as they were. *)
Definition rewritten (parse : list Z → option (ofl_match * protocols_std)) (pkt : packet) (r : option packet)
    (only : nat → Prop) (post : list Z → Prop) : Prop :=
  ∃ pkt', r = Some pkt' ∧ length (frame pkt') = length (frame pkt) ∧ ofpbuf_wf (pk_buffer pkt') ∧
    (∀ i, ¬ only i → frame pkt' !! i = frame pkt !! i) ∧ post (frame pkt') ∧
    same_but_frame pkt pkt' ∧ pk_handle_std pkt' = pk_handle_std (validate parse pkt).

Lemma lookup_mid (x o o' y : list Z) i :
  length o' = length o → ¬ (length x <= i < length x + length o)%nat → (x ++ o' ++ y) !! i = (x ++ o ++ y) !! i.
Proof.
  intros Hl Hi. destruct (decide (i < length x)%nat) as [?|?]; [by rewrite !lookup_app_l by done|].
  rewrite !(lookup_app_r x) by lia. rewrite !(lookup_app_r _ y) by lia. by rewrite Hl.
Qed.

Lemma rewritten_intro parse pkt h c tl only (post : list Z → Prop) :
  length c = length (frame pkt) → (∀ i, ¬ only i → c !! i = frame pkt !! i) → post c →
  rewritten parse pkt (Some (set_buffer (validate parse pkt) (parts h c tl))) only post.
Proof.
  intros Hl Hi Hp. eexists. split; [done|]. unfold frame in *. cbn [pk_buffer set_buffer]. rewrite !parts_contents.
  split_and!; [done|apply parts_wf|done..].
Qed.

Section nw_ttl.
  Context `{Malloc} (parse : list Z → option (ofl_match * protocols_std)).

(** The TTL of the header at [ip] becomes [t]. *)
Definition ttl_post (f : list Z) (ip hl : nat) (t : Z) (f' : list Z) : Prop :=
  ∃ ttl c, ld 1 f (ip + 8) = Some ttl ∧ ld 2 f (ip + 10) = Some c ∧ ld 1 f' (ip + 8) = Some t ∧
    (ip_header_ok f ip hl → ip_header_ok f' ip hl ↔ t ≠ ttl + c + 1).

Definition ttl_bytes (ip i : nat) : Prop := i = (ip + 8)%nat ∨ i = (ip + 10)%nat ∨ i = (ip + 11)%nat.

(** The header at [ip] cut at the TTL. *)
Lemma cut_ttl f ip : (ip + 20 <= length f)%nat →
  ∃ (x a : list Z) (ttl proto : Z) (cs r : list Z), f = x ++ a ++ [ttl; proto] ++ cs ++ r ∧ length x = ip ∧ length a = 8%nat ∧ length cs = 2%nat.
Proof.
  intros Hl. destruct (cut f ip) as (x & f1 & -> & Hx); [lia|]. rewrite length_app in Hl.
  destruct (cut f1 8) as (a & f2 & -> & Ha); [lia|]. rewrite length_app in Hl. destruct f2 as [|ttl [|proto f3]]; [simpl in Hl; lia..|].
  cbn [length] in Hl. destruct (cut f3 2) as (cs & r & -> & Hc); [lia|]. by exists x, a, ttl, proto, cs, r.
Qed.

Lemma take_header (x : list Z) a b r hl :
  (length (a ++ b) <= hl)%nat →
  take hl (drop (length x) (x ++ a ++ b ++ r)) = a ++ b ++ take (hl - length (a ++ b)) r.
Proof.
  intros Hl. rewrite drop_app_length, (app_assoc a), take_app_ge by done. by rewrite <- app_assoc.
Qed.

Lemma set_ttl_lemma pkt ip hl t :
  ofpbuf_wf (pk_buffer pkt) → bytes (frame pkt) → fits 8 t → (20 <= hl)%nat → (ip + hl <= length (frame pkt))%nat →
  rewritten parse pkt (in_place (validate parse pkt) (set_ipv4_ttl (ob_mem (pk_buffer pkt)) (ob_data (pk_buffer pkt) + ip) t))
    (ttl_bytes ip) (ttl_post (frame pkt) ip hl t).
Proof.
  intros Hw Hb Ht Hhl Hlen. destruct (cut_ttl (frame pkt) ip) as (x & a & ttl & proto & cs & r & Hf & Hx & Ha & Hc); [lia|].
  destruct (parts_of (pk_buffer pkt) _ Hw Hf) as (h & tl & Hbuf & Hd). rewrite Hd, Hbuf.
  assert (fits 8 ttl ∧ fits 8 proto ∧ bytes cs) as (Httl & Hpr & Hbc).
  { rewrite Hf in Hb. unfold bytes in *. rewrite !Forall_app, !list.Forall_cons in Hb. naive_solver. }
  rewrite set_ipv4_ttl_at by (done || lia). cbn [in_place mbind option_bind].
  match goal with |- context [le_bytes 2 ?v] => set (c' := v) end.
  change (pk_buffer (validate parse pkt)) with (pk_buffer pkt). rewrite Hbuf, set_mem_parts by lens.
  apply rewritten_intro; [rewrite Hf; lens| |].
  - intros i Hi. rewrite Hf. unfold ttl_bytes in Hi.
    recut (x ++ a ++ [t; proto] ++ le_bytes 2 c' ++ r) ((x ++ a) ++ [t] ++ [proto] ++ le_bytes 2 c' ++ r).
    rewrite (lookup_mid (x ++ a) [ttl] [t]) by (done || lens).
    recut ((x ++ a) ++ [ttl] ++ [proto] ++ le_bytes 2 c' ++ r) ((x ++ a ++ [ttl; proto]) ++ le_bytes 2 c' ++ r).
    rewrite (lookup_mid _ cs) by lens. by rewrite <- !app_assoc.
  - exists ttl, (le_read cs).
    rewrite Hf. split_and!.
    + recut (x ++ a ++ [ttl; proto] ++ cs ++ r) ((x ++ a) ++ [ttl] ++ [proto] ++ cs ++ r).
      rewrite ld_list by lens. by rewrite le_read1.
    + recut (x ++ a ++ [ttl; proto] ++ cs ++ r) ((x ++ a ++ [ttl; proto]) ++ cs ++ r).
      by rewrite ld_list by lens.
    + recut (x ++ a ++ [t; proto] ++ le_bytes 2 c' ++ r) ((x ++ a) ++ [t] ++ [proto] ++ le_bytes 2 c' ++ r).
      rewrite ld_list by lens. by rewrite le_read1.
    + unfold ip_header_ok. rewrite <- Hx.
      recut (x ++ a ++ [ttl; proto] ++ cs ++ r) (x ++ (a ++ [ttl; proto]) ++ cs ++ r).
      recut (x ++ a ++ [t; proto] ++ le_bytes 2 c' ++ r) (x ++ (a ++ [t; proto]) ++ le_bytes 2 c' ++ r).
      rewrite !take_header by lens. rewrite <- !(app_assoc a).
      replace (length (a ++ [t; proto] ++ le_bytes 2 c')) with (length (a ++ [ttl; proto] ++ cs)) by lens.
      by apply ttl_header_ok.
Qed.

Lemma ptr_ipv4 pkt ip : pr_ipv4 (protos parse pkt) = Some ip → ptr (validate parse pkt) pr_ipv4 = Some (ob_data (pk_buffer pkt) + ip)%nat.
Proof. intros Hp. by rewrite ptr_eq, Hp. Qed.

Lemma ld_packet pkt w off :
  ofpbuf_wf (pk_buffer pkt) → (off + w <= length (frame pkt))%nat →
  ld w (ob_mem (pk_buffer pkt)) (ob_data (pk_buffer pkt) + off) = ld w (frame pkt) off.
Proof.
  intros Hw Hl. destruct (parts_of (pk_buffer pkt) (frame pkt) Hw eq_refl) as (h & tl & Hbuf & Hd).
  rewrite Hd. rewrite Hbuf at 1. by apply ld_frame.
Qed.

Lemma ld_Some f off w : (off + w <= length f)%nat → bytes f → ∃ v, ld w f off = Some v ∧ fits (8 * Z.of_nat w) v.
Proof.
  intros Hl Hb. unfold ld, mread. rewrite (proj2 (Nat.leb_le _ _)) by done. eexists. split; [done|].
  pose proof (le_read_bound (take w (drop off f)) ltac:(by apply Forall_take, Forall_drop)) as H'.
  rewrite length_take, length_drop, Nat.min_l in H' by lia. exact H'.
Qed.

(** Nothing changes. *)
Lemma in_place_same pkt : in_place (validate parse pkt) (Some (ob_mem (pk_buffer pkt))) = Some (validate parse pkt).
Proof. unfold in_place. cbn. unfold set_mem, set_buffer, validate, set_handle. cbn. by destruct pkt as [[] ? ? ? ? ? ? ? ? ? ?]. Qed.
End nw_ttl.

(** The network TTL actions.  On an IPv4 packet, set-TTL writes the TTL and
    decrement-TTL takes one off a TTL above 0 (a TTL of 0 stays: it never wraps);
    besides the TTL only the header checksum changes.  A header checksum that was
    right stays right after every decrement; after set-TTL it does too, except
    when the checksum word is exactly the new TTL less the old one less 1. *)
Theorem nw_ttl_correct `{Malloc} parse pkt ip hl t
    (Hw : ofpbuf_wf (pk_buffer pkt)) (Hb : bytes (frame pkt)) (Hip : ipv4_at (protos parse pkt) (frame pkt) ip hl)
    (Ht : fits 8 t) :
  rewritten parse pkt (set_nw_ttl parse pkt t) (ttl_bytes ip) (ttl_post (frame pkt) ip hl t) ∧
  ∃ ttl, ld 1 (frame pkt) (ip + 8) = Some ttl ∧
    (ttl = 0 → dec_nw_ttl parse pkt = Some (validate parse pkt)) ∧
    (0 < ttl → rewritten parse pkt (dec_nw_ttl parse pkt) (ttl_bytes ip)
                 (λ f', ld 1 f' (ip + 8) = Some (ttl - 1) ∧ (ip_header_ok (frame pkt) ip hl → ip_header_ok f' ip hl))).
Proof.
  destruct Hip as (Hpr & Hhl & Hlen). unfold set_nw_ttl, dec_nw_ttl. rewrite !(ptr_ipv4 parse pkt ip Hpr).
  change (pk_buffer (validate parse pkt)) with (pk_buffer pkt). split.
  { by apply set_ttl_lemma. }
  destruct (ld_Some (frame pkt) (ip + 8) 1 ltac:(lia) Hb) as (ttl & Httl & Hfit). exists ttl. split; [done|].
  unfold o_ip_ttl. rewrite <- Nat.add_assoc, ld_packet, Httl by (done || lia). cbn [mbind option_bind].
  split; [intros ->; cbn [Z.ltb Z.compare]; apply in_place_same|].
  intros Hpos. rewrite (proj2 (Z.ltb_lt _ _)) by done.
  destruct (set_ttl_lemma parse pkt ip hl (ttl - 1) Hw Hb ltac:(unfold fits in *; lia) Hhl Hlen)
    as (pkt' & Hr & Hl & Hw' & Hi & (ttl' & c & Httl' & Hc & Hnew & Hok) & Hs & Hh). exists pkt'.
  split; [done|]. split; [done|]. split; [done|]. split; [done|]. split; [split; [done|]|done]. intros Hv. apply Hok; [done|].
  destruct (ld_Some (frame pkt) (ip + 10) 2 ltac:(lia) Hb) as (c' & Hc' & Hfc). unfold fits in *.
  rewrite Httl in Httl'. rewrite Hc in Hc'. simplify_eq. lia.
Qed.

Lemma nw_ttl_witness :
  ip_header_ok (frame (ex_packet 0 0)) 14 20 ∧
  rewritten ex_decode (ex_packet 0 0) (set_nw_ttl ex_decode (ex_packet 0 0) 7) (ttl_bytes 14)
    (ttl_post (frame (ex_packet 0 0)) 14 20 7) ∧
  rewritten ex_decode (ex_packet 0 0) (dec_nw_ttl ex_decode (ex_packet 0 0)) (ttl_bytes 14)
    (λ f', ld 1 f' 22 = Some 63 ∧ (ip_header_ok (frame (ex_packet 0 0)) 14 20 → ip_header_ok f' 14 20)).
Proof.
  split; [by_eval|].
  destruct (@nw_ttl_correct ex_malloc ex_decode (ex_packet 0 0) 14 20 7 ltac:(by_eval) ltac:(by_eval_conj)
    ltac:(unfold ipv4_at; by_eval) ltac:(by_eval)) as (H1 & ttl & Httl & _ & H2).
  vm_compute in Httl. injection Httl as <-. split; [exact H1|]. exact (H2 ltac:(reflexivity)).
Defined.
