(* ===== verification/LinkedList.v ===== *)
(** Singly linked lists on the heap, as the MAC and TCP tables of ARP-Path keep
    them (udatapath/dp_ports.h): nodes with a [next] pointer, head ([inicio]) and
    tail ([fin]) pointers and a counter.

    The operations work on the pointers, as the C code does; [None] is a NULL or
    dangling pointer being followed.  [repr] says which list of entries a heap
    represents.  Loops follow [next] pointers with one unit of fuel per node of
    the heap; running out of it would also be [None], and the lemmas show that it
    does not happen on a represented list ([repr_fuel]).

    The MAC tables keep [fin] at the last node; the TCP table leaves it NULL until
    a lookup moves its last node.  [repr_at] takes the discipline as a parameter
    ([strict]). *)

From S2P Require Import Prelude.

(** [struct mac_port_time], [struct table_tcp_time] *)
Record node (E : Type) := Node { nd_entry : E; nd_next : option positive }.
Arguments Node {E} _ _.
Arguments nd_entry {E} _.
Arguments nd_next {E} _.

(** [struct mac_to_port], [struct table_tcp] *)
Record llist (E : Type) := LList {
  nodes : gmap positive (node E);
  inicio : option positive;
  fin : option positive;
  num_element : Z }.
Arguments LList {E} _ _ _ _.
Arguments nodes {E} _.
Arguments inicio {E} _.
Arguments fin {E} _.
Arguments num_element {E} _.

Section linked_list.
  Context {E : Type}.

(** [p->next], with p possibly NULL *)
Definition next_of (h : gmap positive (node E)) (p : option positive) : option (option positive) :=
  match p with
  | None => None
  | Some a => nd_next <$> h !! a
  end.

(** [p->next = q] *)
Definition set_next (h : gmap positive (node E)) (p q : option positive) :
    option (gmap positive (node E)) :=
  match p with
  | None => None
  | Some a => match h !! a with
              | None => None
              | Some n => Some (<[a := Node (nd_entry n) q]> h)
              end
  end.

Definition fuel (t : llist E) : nat := S (size (nodes t)).

(** [xmalloc] of a node *)
Definition new_node (h : gmap positive (node E)) : positive := fresh (dom h : gset positive).

(** Append at the tail: [mac_to_port_add] and [mac_to_port_add_hello]. *)
Definition add_tail (t : llist E) (e : E) : option (llist E) :=
  let actual := fin t in
  let p := new_node (nodes t) in
  let h := <[p := Node e None]> (nodes t) in
  match inicio t with
  | None => Some (LList h (Some p) (Some p) (num_element t + 1))
  | Some _ =>
    h ← set_next h actual (Some p);
    Some (LList h (inicio t) (Some p) (num_element t + 1))
  end.

(** Walk to the first node whose entry satisfies [P]; the result is the node and
    its predecessor, and how many nodes were passed. *)
Fixpoint walk (h : gmap positive (node E)) (P : E → bool) (n : nat)
    (ant aux : option positive) (pos : Z) : option (option positive * option (positive * node E) * Z) :=
  match n with
  | O => None
  | S n =>
    match aux with
    | None => Some (ant, None, pos)
    | Some a =>
      match h !! a with
      | None => None
      | Some nd => if P (nd_entry nd) then Some (ant, Some (a, nd), pos)
                   else walk h P n (Some a) (nd_next nd) (pos + 1)
      end
    end
  end.

(** Moving the node [a] with predecessor [ant] to the front:
    [ant->next = a->next; if (ant->next == NULL) fin = ant; a->next = inicio; inicio = a]. *)
Definition move_to_front (t : llist E) (ant : option positive) (a : positive) (nd : node E) : option (llist E) :=
  h ← set_next (nodes t) ant (nd_next nd);
  an ← next_of h ant;
  let fin' := match an with None => ant | Some _ => fin t end in
  h ← set_next h (Some a) (inicio t);
  Some (LList h (Some a) fin' (num_element t)).

(** Unlinking [a], common to the two delete loops: the table and the new [aux]. *)
Definition unlink (t : llist E) (aux : option positive) (a : positive) (nd : node E) :
    option (llist E * option positive) :=
  if bool_decide (inicio t = Some a) then
    let t' := if num_element t =? 1 then LList (nodes t) None None (num_element t)
              else LList (nodes t) (nd_next nd) (fin t) (num_element t) in
    Some (LList (delete a (nodes t')) (inicio t') (fin t') (num_element t' - 1), inicio t')
  else if bool_decide (fin t = Some a) then
    h ← set_next (nodes t) aux None;
    Some (LList (delete a h) (inicio t) aux (num_element t - 1), aux)
  else
    h ← set_next (nodes t) aux (nd_next nd);
    Some (LList (delete a h) (inicio t) (fin t) (num_element t - 1), aux).

(** * Specification *)

(** The heap segment from [p] to [q] holds the nodes [l], in order. *)
Fixpoint seg (h : gmap positive (node E)) (p : option positive)
    (l : list (positive * E)) (q : option positive) : Prop :=
  match l with
  | [] => p = q
  | (a, e) :: l => p = Some a ∧ ∃ n, h !! a = Some (Node e n) ∧ seg h n l q
  end.

(** [fin] is the last node; unless [strict] it may also be NULL. *)
Definition fin_ok (strict : bool) (f : option positive) (l : list (positive * E)) : Prop :=
  f = list.last l.*1 ∨ (strict = false ∧ f = None).

Record repr_at (strict : bool) (t : llist E) (l : list (positive * E)) : Prop := {
  ra_nodup : NoDup l.*1;
  ra_seg : seg (nodes t) (inicio t) l None;
  ra_fin : fin_ok strict (fin t) l;
  ra_num : num_element t = Z.of_nat (length l) }.

Arguments ra_nodup {strict t l} _.
Arguments ra_seg {strict t l} _.
Arguments ra_fin {strict t l} _.
Arguments ra_num {strict t l} _.

(** The table holds the entries [es]. *)
Definition repr (strict : bool) (t : llist E) (es : list E) : Prop :=
  ∃ l, repr_at strict t l ∧ l.*2 = es.

(** Split a list at the first element that satisfies [P]. *)
Fixpoint find_first {A} (P : A → bool) (l : list A) : option (list A * A * list A) :=
  match l with
  | [] => None
  | x :: l => if P x then Some ([], x, l)
              else match find_first P l with
                   | Some (pre, y, post) => Some (x :: pre, y, post)
                   | None => None
                   end
  end.

Definition update_spec (f : E → E) (P : E → bool) (es : list E) : list E :=
  match find_first P es with
  | Some (pre, e, post) => pre ++ f e :: post
  | None => es
  end.

(** ** Segments *)

Lemma seg_app h p l1 l2 q : seg h p (l1 ++ l2) q ↔ ∃ r, seg h p l1 r ∧ seg h r l2 q.
Proof.
  revert p. induction l1 as [|[a e] l1 IH]; intros p; simpl.
  - split; [eauto|]. by intros (r & -> & ?).
  - setoid_rewrite IH. naive_solver.
Qed.

Lemma seg_ext h h' p l q : (∀ a, a ∈ l.*1 → h !! a = h' !! a) → seg h p l q → seg h' p l q.
Proof.
  revert p. induction l as [|[a e] l IH]; intros p Hx; [done|]. simpl.
  intros (-> & n & Hn & Hs). split; [done|]. exists n. rewrite <- Hx by (simpl; set_solver).
  split; [done|]. apply IH; [|done]. intros b Hb. apply Hx. simpl. set_solver.
Qed.

Lemma seg_head h p l : seg h p l None → p = head l.*1.
Proof. destruct l as [|[a e] l]; [done|]. by intros [-> _]. Qed.

(** The node of a represented entry. *)
Lemma seg_node h p d a e rest :
  seg h p (d ++ (a, e) :: rest) None → h !! a = Some (Node e (head rest.*1)).
Proof.
  intros (r & _ & -> & n & Hn & Hs)%seg_app. by rewrite Hn, (seg_head _ _ _ Hs).
Qed.

Lemma seg_dom h p l q a : seg h p l q → a ∈ l.*1 → a ∈ dom h.
Proof.
  revert p. induction l as [|[b e] l IH]; intros p; simpl; [by intros _ ?%not_elem_of_nil|].
  intros (_ & n & Hn & Hs) [->|Ha]%elem_of_cons; [by apply elem_of_dom_2 in Hn|by eapply IH].
Qed.

(** A represented list is no longer than the heap, so the fuel is enough. *)
Lemma repr_fuel {s} t l : repr_at s t l → (length l < fuel t)%nat.
Proof.
  intros [Hnd Hs _ _]. unfold fuel. rewrite <- (length_fmap fst l). apply Nat.lt_succ_r.
  rewrite <- size_dom, <- (size_list_to_set (C:=gset positive) l.*1) by done.
  apply subseteq_size. intros a Ha%elem_of_list_to_set. by eapply seg_dom.
Qed.

Lemma repr_ins {s} t d a e e' rest :
  repr_at s t (d ++ (a, e) :: rest) →
  repr_at s (LList (<[a := Node e' (head rest.*1)]> (nodes t)) (inicio t) (fin t) (num_element t))
    (d ++ (a, e') :: rest).
Proof.
  intros [Hnd Hs Hf Hn]. assert ((d ++ (a, e') :: rest).*1 = (d ++ (a, e) :: rest).*1) as Heq
    by (by rewrite !fmap_app).
  split; simpl; [by rewrite Heq| |unfold fin_ok in *; by rewrite Heq|].
  - rewrite fmap_app, fmap_cons in Hnd. apply list.NoDup_app in Hnd as (_ & Hd & [Ha _]%list.NoDup_cons).
    apply seg_app in Hs as (r & Hs1 & -> & n & Hn' & Hs2). apply seg_app. exists (Some a). split.
    + eapply seg_ext; [|exact Hs1]. intros b Hb. rewrite lookup_insert_ne; [done|].
      intros <-. apply (Hd a Hb). simpl. set_solver.
    + split; [done|]. exists n. rewrite lookup_insert_eq, <- (seg_head _ _ _ Hs2). split; [done|].
      eapply seg_ext; [|exact Hs2]. intros b Hb. rewrite lookup_insert_ne; [done|]. by intros ->.
  - rewrite Hn, !length_app. done.
Qed.

(** ** Walking *)

Lemma walk_spec h P n ant p l pos :
  seg h p l None → (length l < n)%nat →
  walk h P n ant p pos =
  match find_first (λ x, P x.2) l with
  | Some (pre, (a, e), post) =>
      Some (from_option Some ant (list.last pre.*1), Some (a, Node e (head post.*1)), pos + Z.of_nat (length pre))
  | None => Some (from_option Some ant (list.last l.*1), None, pos + Z.of_nat (length l))
  end.
Proof.
  revert n ant p pos. induction l as [|[a e] l IH]; intros [|n] ant p pos Hs Hl; try (simpl in Hl; lia).
  - simpl in Hs. subst. simpl. by rewrite Z.add_0_r.
  - rewrite fmap_cons, last_cons. simpl in Hs. destruct Hs as (-> & m & Hm & Hs). simpl. rewrite Hm. simpl.
    destruct (P e); [by rewrite Z.add_0_r, <- (seg_head _ _ _ Hs)|].
    rewrite (IH n (Some a) m) by (done || (simpl in Hl; lia)).
    destruct (find_first _ l) as [[[pre [b f]] post]|]; simpl length.
    + replace (pos + 1 + Z.of_nat (length pre)) with (pos + Z.of_nat (S (length pre))) by lia.
      rewrite fmap_cons, last_cons. by destruct (list.last pre.*1).
    + replace (pos + 1 + Z.of_nat (length l)) with (pos + Z.of_nat (S (length l))) by lia.
      by destruct (list.last l.*1).
Qed.

Lemma find_first_split {A} (P : A → bool) l pre x post :
  find_first P l = Some (pre, x, post) → l = pre ++ x :: post ∧ P x = true ∧ Forall (λ y, P y = false) pre.
Proof.
  revert pre. induction l as [|y l IH]; intros pre; simpl; [done|].
  destruct (P y) eqn:Eq; [intros [= <- <- <-]; auto|].
  destruct (find_first P l) as [[[pre' z] post']|]; [|done]. intros [= <- <- <-].
  destruct (IH pre' eq_refl) as (-> & ? & ?). auto.
Qed.

Lemma find_first_none {A} (P : A → bool) l : find_first P l = None ↔ Forall (λ y, P y = false) l.
Proof.
  induction l as [|y l IH]; simpl; [done|]. rewrite Forall_cons_iff. destruct (P y); [naive_solver|].
  rewrite <- IH. destruct (find_first P l) as [[[? ?] ?]|]; naive_solver.
Qed.

Lemma find_first_snd (P : E → bool) (l : list (positive * E)) :
  find_first P l.*2 =
  match find_first (λ x, P x.2) l with
  | Some (pre, x, post) => Some (pre.*2, x.2, post.*2)
  | None => None
  end.
Proof.
  induction l as [|[a e] l IH]; [done|]. rewrite fmap_cons. cbn [find_first snd]. destruct (P e); [done|].
  rewrite IH. by destruct (find_first _ l) as [[[pre x] post]|].
Qed.

Lemma walk_repr {s} t l P :
  repr_at s t l →
  walk (nodes t) P (fuel t) (inicio t) (inicio t) 1 =
  match find_first (λ x, P x.2) l with
  | Some (pre, (a, e), post) =>
      Some (from_option Some (inicio t) (list.last pre.*1), Some (a, Node e (head post.*1)), 1 + Z.of_nat (length pre))
  | None => Some (from_option Some (inicio t) (list.last l.*1), None, 1 + Z.of_nat (length l))
  end.
Proof. intros Hr. apply walk_spec; [apply Hr|by eapply repr_fuel]. Qed.

(** ** Unlinking *)

Lemma repr_nodup_mid {s} t d a e rest :
  repr_at s t (d ++ (a, e) :: rest) → (a ∉ d.*1) ∧ (a ∉ rest.*1) ∧ ∀ b, b ∈ d.*1 → b ∉ rest.*1.
Proof.
  intros [Hnd _ _ _]. rewrite fmap_app, fmap_cons in Hnd.
  apply list.NoDup_app in Hnd as (_ & Hd & [Ha _]%list.NoDup_cons). simpl in *.
  split_and!; [|done|]; [intros Hin; apply (Hd a Hin); set_solver|].
  intros b Hb Hr. apply (Hd b Hb). set_solver.
Qed.

Lemma unlink_head {s} t a e rest aux :
  repr_at s t ((a, e) :: rest) →
  ∃ t', unlink t aux a (Node e (head rest.*1)) = Some (t', head rest.*1) ∧ repr_at s t' rest.
Proof.
  intros Hr. pose proof Hr as [Hnd Hs Hf Hn]. destruct (repr_nodup_mid t [] a e rest Hr) as (_ & Ha & _).
  unfold unlink. pose proof (seg_head _ _ _ Hs) as Hi. simpl in Hi.
  rewrite bool_decide_eq_true_2 by done. simpl in Hs. destruct Hs as (_ & m & Hm & Hs).
  assert (seg (delete a (nodes t)) m rest None) as Hs'.
  { eapply seg_ext; [|exact Hs]. intros b Hb. rewrite lookup_delete_ne; [done|]. by intros ->. }
  apply list.NoDup_cons in Hnd as [_ Hnd]. pose proof (seg_head _ _ _ Hs) as ->.
  destruct rest as [|[b f] rest].
  - rewrite Hn. simpl. eexists. split; [done|]. split; [constructor|done|by left|done].
  - rewrite (proj2 (Z.eqb_neq _ 1)) by (rewrite Hn; simpl; lia). eexists. split; [done|].
    split; [done|done|exact Hf|]. simpl in *. lia.
Qed.

Lemma unlink_mid {s} t d b eb a e rest :
  repr_at s t (d ++ (b, eb) :: (a, e) :: rest) →
  ∃ t', unlink t (Some b) a (Node e (head rest.*1)) = Some (t', Some b) ∧
        repr_at s t' (d ++ (b, eb) :: rest).
Proof.
  intros Hr. pose proof Hr as [Hnd Hs Hf Hn].
  destruct (repr_nodup_mid t d b eb _ Hr) as (Hbd & Hba & Hd).
  pose proof Hr as Hr'. replace (d ++ (b, eb) :: (a, e) :: rest) with ((d ++ [(b, eb)]) ++ (a, e) :: rest) in Hr'
    by (by rewrite <- app_assoc).
  destruct (repr_nodup_mid t _ a e rest Hr') as (Had & Har & Hdr).
  rewrite fmap_app in Had. apply not_elem_of_app in Had as [Had Hab].
  assert (a ≠ b) as Hne by (simpl in Hab; set_solver).
  assert (inicio t ≠ Some a) as Hin.
  { rewrite (seg_head _ _ _ Hs). destruct d as [|[c g] d]; simpl; [congruence|]. simpl in Had. set_solver. }
  pose proof (seg_node _ _ _ _ _ _ Hs) as Hnb.
  unfold unlink. rewrite bool_decide_eq_false_2 by done. unfold set_next. rewrite Hnb. simpl.
  assert (∀ n, n = head rest.*1 → seg (delete a (<[b:=Node eb n]> (nodes t))) (inicio t) (d ++ (b, eb) :: rest) None) as Hseg.
  { intros n ->. apply seg_app in Hs as (r & Hs1 & -> & m & Hm & -> & m' & Hm' & Hs2).
    apply seg_app. exists (Some b). split; [|split; [done|]].
    - eapply seg_ext; [|exact Hs1]. intros c Hc. rewrite lookup_delete_ne, lookup_insert_ne; set_solver.
    - exists m'. rewrite lookup_delete_ne, lookup_insert_eq by done. rewrite (seg_head _ _ _ Hs2).
      split; [done|]. rewrite <- (seg_head _ _ _ Hs2). eapply seg_ext; [|exact Hs2].
      intros c Hc. rewrite lookup_delete_ne, lookup_insert_ne; [done| |]; intros ->; [|done].
      apply Hba. simpl. set_solver. }
  assert (NoDup (d ++ (b, eb) :: rest).*1) as Hnd'.
  { rewrite !fmap_app in Hnd |- *. simpl in *.
    apply list.NoDup_app in Hnd as (H1 & H2 & [H3 [_ H4]%list.NoDup_cons]%list.NoDup_cons).
    apply list.NoDup_app. split_and!; [done| |apply list.NoDup_cons; set_solver].
    intros x Hx Hx'. apply (H2 x Hx). set_solver. }
  assert (Z.of_nat (length (d ++ (b, eb) :: rest)) = num_element t - 1) as Hlen.
  { rewrite Hn, !length_app. simpl. lia. }
  destruct (decide (fin t = Some a)) as [Hfa|Hfa].
  - rewrite bool_decide_eq_true_2 by done. eexists. split; [done|].
    assert (rest = []) as ->.
    { destruct rest as [|[c g] rest]; [done|]. exfalso. apply Har, last_Some_elem_of.
      destruct Hf as [Hf|[_ Hf]]; [|congruence].
      rewrite Hf, fmap_app, !fmap_cons, last_app_cons in Hfa. exact Hfa. }
    split; [done|by apply Hseg| |done]. left. simpl. rewrite fmap_app, last_app. done.
  - rewrite bool_decide_eq_false_2 by done. eexists. split; [done|].
    split; [done|by apply Hseg| |done]. destruct Hf as [Hf|Hf]; [left|by right].
    simpl. rewrite Hf, !fmap_app, !last_app. simpl.
    destruct rest as [|[c g] rest]; [|done]. rewrite Hf, fmap_app, last_app in Hfa. by simpl in Hfa.
Qed.

Lemma next_of_repr {s} t d b eb rest :
  repr_at s t (d ++ (b, eb) :: rest) → next_of (nodes t) (Some b) = Some (head rest.*1).
Proof. intros Hr. simpl. by rewrite (seg_node _ _ _ _ _ _ (ra_seg Hr)). Qed.

Lemma repr_next_node {s} t d b eb a e rest :
  repr_at s t (d ++ (b, eb) :: (a, e) :: rest) → nodes t !! a = Some (Node e (head rest.*1)).
Proof.
  intros [_ Hs _ _]. replace (d ++ (b, eb) :: (a, e) :: rest) with ((d ++ [(b, eb)]) ++ (a, e) :: rest) in Hs
    by (by rewrite <- app_assoc).
  by apply seg_node in Hs.
Qed.

Lemma snoc_cons {A} (d : list A) x y rest : d ++ x :: y :: rest = (d ++ [x]) ++ y :: rest.
Proof. by rewrite <- app_assoc. Qed.

Lemma repr_cons_inv {s} t e es :
  repr s t (e :: es) → ∃ a l, repr_at s t ((a, e) :: l) ∧ l.*2 = es.
Proof. intros ([|[a e'] l] & Hr & Hl); [done|]. simpl in Hl. simplify_eq. by exists a, l. Qed.

Lemma repr_nil_inv {s} t : repr s t [] → repr_at s t [].
Proof. intros (l & Hr & Hl). by apply fmap_nil_inv in Hl as ->. Qed.

Lemma update_first {s} t es P f :
  repr s t es →
  ∃ r, walk (nodes t) P (fuel t) (inicio t) (inicio t) 1 = Some r ∧
  match r with
  | (_, None, _) => find_first P es = None
  | (_, Some (a, nd), _) =>
      (∃ pre post, find_first P es = Some (pre, nd_entry nd, post)) ∧
      repr s (LList (<[a := Node (f (nd_entry nd)) (nd_next nd)]> (nodes t)) (inicio t) (fin t) (num_element t))
           (update_spec f P es)
  end.
Proof.
  intros (l & Hr & <-). rewrite (walk_repr t l P Hr). unfold update_spec. rewrite find_first_snd.
  destruct (find_first _ l) as [[[pre [a e]] post]|] eqn:Eq; eexists; (split; [done|]); simpl; [|done].
  split; [eauto|]. apply find_first_split in Eq as (-> & _ & _).
  exists (pre ++ (a, f e) :: post). split; [by apply repr_ins with (e := e)|]. by rewrite fmap_app.
Qed.

Lemma add_tail_refines t es e : repr true t es → ∃ t', add_tail t e = Some t' ∧ repr true t' (es ++ [e]).
Proof.
  intros (l & Hr & <-). pose proof Hr as [Hnd Hs [Hf|[? _]] Hn]; [|done]. unfold add_tail.
  set (p := new_node (nodes t)). pose proof (is_fresh (dom (nodes t) : gset positive)) as Hp. fold (new_node (nodes t)) in Hp. fold p in Hp.
  assert (p ∉ l.*1) as Hpl by (intros ?; apply Hp; by eapply seg_dom).
  destruct (inicio t) as [a0|] eqn:Hin.
  - assert (∃ d b eb, l = d ++ [(b, eb)]) as (d & b & eb & ->).
    { destruct l as [|[x ex] l' _] using rev_ind; [done|]. by exists l', x, ex. }
    rewrite Hf, fmap_app. change ([(b, eb)].*1) with [b]. rewrite last_snoc.
    pose proof (seg_node _ _ _ _ _ _ Hs) as Hb. rewrite fmap_app in Hpl.
    apply not_elem_of_app in Hpl as [Hpd Hpb]. simpl in Hpb.
    assert (p ≠ b) as Hne by set_solver.
    unfold set_next. rewrite lookup_insert_ne, Hb by done. simpl. eexists. split; [done|].
    exists (d ++ [(b, eb); (p, e)]). split; [|by rewrite !fmap_app, <- app_assoc].
    pose proof Hr as (Hbd & _)%repr_nodup_mid. rewrite fmap_app in Hnd.
    split; simpl.
    + rewrite fmap_app. simpl. apply list.NoDup_app in Hnd as (H1 & H2 & _).
      apply list.NoDup_app. split_and!; [done| |repeat constructor; set_solver].
      intros x Hx Hx'. specialize (H2 x Hx). set_solver.
    + apply seg_app in Hs as (r & Hs1 & -> & m & Hm & ->). apply seg_app. exists (Some b). split.
      * eapply seg_ext; [|exact Hs1]. intros x Hx. rewrite !lookup_insert_ne; [done| |]; set_solver.
      * simpl. split; [done|]. exists (Some p). rewrite lookup_insert_eq. split; [done|]. split; [done|].
        exists None. rewrite lookup_insert_ne, lookup_insert_eq by done. done.
    + left. by rewrite fmap_app, last_app.
    + rewrite Hn, !length_app. simpl. lia.
  - assert (l = []) as ->. { destruct l as [|[x ex] l]; [done|]. by destruct Hs as [? _]. }
    eexists. split; [done|]. exists [(p, e)]. split; [|done]. split; simpl.
    + repeat constructor. set_solver.
    + split; [done|]. exists None. by rewrite lookup_insert_eq.
    + by left.
    + rewrite Hn. done.
Qed.

Lemma list_snoc_or_nil {A} (l : list A) : l = [] ∨ ∃ d x, l = d ++ [x].
Proof. destruct l as [|x l _] using rev_ind; [by left|right]. by exists l, x. Qed.

(** Moving a node to the front. *)
Lemma move_front {s} t d b eb a e post :
  repr_at s t (d ++ (b, eb) :: (a, e) :: post) →
  ∃ t', move_to_front t (Some b) a (Node e (head post.*1)) = Some t' ∧
    repr_at s t' ((a, e) :: d ++ (b, eb) :: post).
Proof.
  intros Hr. pose proof Hr as [Hnd Hs Hf Hn].
  pose proof Hr as Hr'. rewrite snoc_cons in Hr'.
  destruct (repr_nodup_mid _ _ _ _ _ Hr) as (Hbd & Hba & Hd).
  destruct (repr_nodup_mid _ _ _ _ _ Hr') as (Had & Hap & Hdp).
  rewrite fmap_app in Had. apply not_elem_of_app in Had as [Had Hab]. simpl in Hab, Hba.
  assert (a ≠ b) as Hne by set_solver.
  pose proof (seg_node _ _ _ _ _ _ Hs) as Hnb. pose proof (repr_next_node _ _ _ _ _ _ _ Hr) as Hna.
  unfold move_to_front, set_next, next_of. rewrite Hnb. cbn [mbind option_bind nd_entry nd_next].
  rewrite lookup_insert_eq. cbn [mbind option_bind fmap option_fmap option_map nd_next].
  rewrite lookup_insert_ne, Hna by done. eexists. split; [done|].
  split; cbn [nodes inicio fin num_element].
  - rewrite fmap_cons, fmap_app in *. apply list.NoDup_app in Hnd as (H1 & H2 & H3).
    rewrite !fmap_cons in *. apply list.NoDup_cons in H3 as [H3 [H4 H5]%list.NoDup_cons].
    cbn [fst] in *. apply list.NoDup_cons. split; [set_solver|]. apply list.NoDup_app. split_and!; [done| |].
    + intros x Hx Hx'. apply (H2 x Hx). set_solver.
    + apply list.NoDup_cons. set_solver.
  - split; [done|]. exists (inicio t). rewrite lookup_insert_eq. split; [done|].
    apply seg_app in Hs as (r & Hs1 & -> & m & Hm & -> & m' & Hm' & Hs2). apply seg_app. exists (Some b). split.
    + eapply seg_ext; [|exact Hs1]. intros x Hx. rewrite !lookup_insert_ne; [done| |]; set_solver.
    + split; [done|]. exists m'. rewrite lookup_insert_ne, lookup_insert_eq by done.
      rewrite (seg_head _ _ _ Hs2). split; [done|]. rewrite <- (seg_head _ _ _ Hs2).
      eapply seg_ext; [|exact Hs2]. intros x Hx. rewrite !lookup_insert_ne; [done| |]; set_solver.
  - unfold fin_ok in *. rewrite fmap_app, !fmap_cons, last_app_cons in Hf.
    rewrite fmap_cons, fmap_app, fmap_cons, app_comm_cons, last_app_cons. cbn [fst] in *.
    destruct post as [|[c g] post]; [by left|exact Hf].
  - rewrite Hn. simpl. rewrite !length_app. simpl. lia.
Qed.

(** Moving the first usable entry of an address to the front changes no lookup. *)
Lemma find_first_skip {A} (P : A → bool) pre l :
  Forall (λ y, P y = false) pre →
  find_first P (pre ++ l) =
  match find_first P l with Some (p, x, q) => Some (pre ++ p, x, q) | None => None end.
Proof.
  induction 1 as [|y pre Hy _ IH]; simpl; [by destruct (find_first P l) as [[[? ?] ?]|]|].
  rewrite Hy, IH. by destruct (find_first P l) as [[[? ?] ?]|].
Qed.

End linked_list.

Arguments ra_nodup {E strict t l} _.
Arguments ra_seg {E strict t l} _.
Arguments ra_fin {E strict t l} _.
Arguments ra_num {E strict t l} _.
