(* ===== verification/MacTable.v ===== *)
(** The MAC tables of ARP-Path: udatapath/dp_ports.c, the [mac_to_port_*]
    functions ([mac_port], [neighbor_table] and [recovery_table] of
    udatapath/udatapath.c are such tables).

    A table is a singly linked list of heap nodes with head ([inicio]) and tail
    ([fin]) pointers and a counter.  The operations below work on the pointers, as
    the C code does; [None] is a NULL or dangling pointer being followed.  [repr]
    says which list of entries a heap represents; each operation is shown to
    refine a function on that list.  The loops follow [next] pointers, with one
    unit of fuel per node of the heap; running out of it would also be [None], and
    the refinement theorems show that it does not happen. *)

From S2P Require Import Prelude OpenFlow LinkedList.

Record mac_entry := MacEntry {
  me_mac : list Z;
  me_port_in : Z;
  me_vecino : Z;
  me_time_entry : Z }.

#[global] Instance mac_entry_eq : EqDecision mac_entry.
Proof. solve_decision. Defined.

Definition mac_to_port := llist mac_entry.

Definition set_time (e : mac_entry) (t : Z) : mac_entry :=
  MacEntry (me_mac e) (me_port_in e) (me_vecino e) t.
Definition set_port (e : mac_entry) (p : Z) : mac_entry :=
  MacEntry (me_mac e) p (me_vecino e) (me_time_entry e).

Definition mac_to_port_new : mac_to_port := LList ∅ None None 0.

Definition expiry (now time : Z) : Z := u64 (now + time * 1000).

Definition mac_to_port_add_hello (t : mac_to_port) (now : Z) (eth_src : list Z) (last_byte : Z)
    (port_in time : Z) : option mac_to_port :=
  add_tail t (MacEntry eth_src (u16 port_in) last_byte (expiry now time)).

Definition mac_to_port_add (t : mac_to_port) (now : Z) (Mac : list Z) (port_in time : Z) : option mac_to_port :=
  add_tail t (MacEntry Mac (u16 port_in) 0 (expiry now time)).

(** Insert at the head; [vecino] is what [is_neighbor] returned for the packet. *)
Definition mac_to_port_add_arp_table (t : mac_to_port) (now : Z) (Mac : list Z) (port_in time vecino : Z) :
    mac_to_port :=
  let actual := inicio t in
  let p := new_node (nodes t) in
  let e := MacEntry Mac (u16 port_in) vecino (expiry now time) in
  if num_element t =? 0
  then LList (<[p := Node e None]> (nodes t)) (Some p) (Some p) (num_element t + 1)
  else LList (<[p := Node e actual]> (nodes t)) (Some p) (fin t) (num_element t + 1).

Definition mac_is (Mac : list Z) (e : mac_entry) : bool := bool_decide (me_mac e = Mac).

(** Raise an expiry time; it is never lowered. *)
Definition raise_time (e : mac_entry) (marca : Z) : mac_entry :=
  if me_time_entry e <? marca then set_time e marca else e.

Definition mac_to_port_update (t : mac_to_port) (now : Z) (Mac : list Z) (port_in time : Z) :
    option (mac_to_port * Z) :=
  let marca_tiempo_msec := expiry now time in
  r ← walk (nodes t) (mac_is Mac) (fuel t) (inicio t) (inicio t) 1;
  match r with
  | (_, None, _) => Some (t, 1)
  | (_, Some (a, nd), _) =>
    Some (LList (<[a := Node (raise_time (set_port (nd_entry nd) (u16 port_in)) marca_tiempo_msec) (nd_next nd)]> (nodes t))
            (inicio t) (fin t) (num_element t), 0)
  end.

Definition mac_to_port_time_refresh (t : mac_to_port) (now : Z) (Mac : list Z) (time : Z) :
    option (mac_to_port * Z) :=
  let marca_tiempo_msec := expiry now time in
  r ← walk (nodes t) (mac_is Mac) (fuel t) (inicio t) (inicio t) 1;
  match r with
  | (_, None, _) => Some (t, -1)
  | (_, Some (a, nd), _) =>
    Some (LList (<[a := Node (raise_time (nd_entry nd) marca_tiempo_msec) (nd_next nd)]> (nodes t))
            (inicio t) (fin t) (num_element t), 0)
  end.

(** A usable entry for the address: not expired, or of a neighbour. *)
Definition usable (now : Z) (Mac : list Z) (e : mac_entry) : bool :=
  mac_is Mac e && ((now <? me_time_entry e) || (me_vecino e =? 1)).

(** The port of the address; an entry found beyond the second place moves to
    the front. *)
Definition mac_to_port_found_port (t : mac_to_port) (now : Z) (Mac : list Z) : option (mac_to_port * Z) :=
  r ← walk (nodes t) (usable (u64 now) Mac) (fuel t) (inicio t) (inicio t) 1;
  match r with
  | (_, None, _) => Some (t, -1)
  | (ant, Some (a, nd), pos) =>
    let port_select := me_port_in (nd_entry nd) in
    if (2 <? pos) && (0 <? port_select) then
      t ← move_to_front t ant a nd;
      Some (t, port_select)
    else Some (t, port_select)
  end.

Definition stale (now : Z) (e : mac_entry) : bool :=
  (me_time_entry e <? now) && (me_vecino e =? 0).

(** 0: valid, 1: expired, 2: not in the table *)
Definition mac_to_port_check_timeout (t : mac_to_port) (now : Z) (Mac : list Z) : option Z :=
  r ← walk (nodes t) (mac_is Mac) (fuel t) (inicio t) (inicio t) 1;
  match r with
  | (_, None, _) => Some 2
  | (_, Some (_, nd), _) => Some (if stale (u64 now) (nd_entry nd) then 1 else 0)
  end.

Fixpoint delete_timeout_loop (n : nat) (now : Z) (t : mac_to_port) (aux actual : option positive) :
    option mac_to_port :=
  match actual with
  | None => Some t
  | Some a =>
    match n with
    | O => None
    | S n =>
      nd ← nodes t !! a;
      if stale now (nd_entry nd) then
        '(t, aux) ← unlink t aux a nd;
        (* [actual = aux], then [actual = aux->next] *)
        actual ← next_of (nodes t) aux;
        delete_timeout_loop n now t aux actual
      else
        aux ← next_of (nodes t) aux;
        actual ← next_of (nodes t) aux;
        delete_timeout_loop n now t aux actual
    end
  end.

Definition mac_to_port_delete_timeout (t : mac_to_port) (now : Z) : option mac_to_port :=
  delete_timeout_loop (fuel t) (u64 now) t (inicio t) (inicio t).

Definition on_port (port : Z) (e : mac_entry) : bool := (me_port_in e =? port) && (me_vecino e =? 0).

Fixpoint delete_port_loop (n : nat) (port : Z) (t : mac_to_port) (aux actual : option positive) :
    option mac_to_port :=
  match actual with
  | None => Some t
  | Some a =>
    match n with
    | O => None
    | S n =>
      nd ← nodes t !! a;
      if on_port port (nd_entry nd) then
        '(t, actual) ← unlink t aux a nd;
        match actual with
        | None => Some t
        | Some _ => next ← next_of (nodes t) actual; delete_port_loop n port t actual next
        end
      else delete_port_loop n port t (Some a) (nd_next nd)
    end
  end.

Definition mac_to_port_delete_port (t : mac_to_port) (port : Z) : option mac_to_port :=
  delete_port_loop (fuel t) port t (inicio t) (inicio t).

(** [is_neighbor]: 0 when a neighbour switch was heard on the packet's port. *)
Definition is_neighbor (neighbor_table : mac_to_port) (in_port : Z) : option Z :=
  r ← walk (nodes neighbor_table) (λ e, me_port_in e =? in_port) (fuel neighbor_table)
        (inicio neighbor_table) (inicio neighbor_table) 1;
  Some (match r with (_, Some _, _) => 0 | (_, None, _) => 1 end).

Definition port_is_in_table (t : mac_to_port) (port : Z) : option Z :=
  r ← walk (nodes t) (λ e, me_port_in e =? port) (fuel t) (inicio t) (inicio t) 1;
  Some (match r with (_, Some _, _) => 1 | (_, None, _) => 0 end).

(** [src_is_neighbor] and the table part of [dst_is_neighbor]: the [vecino] mark
    of the address's first entry. *)
Definition mac_vecino (t : mac_to_port) (Mac : list Z) : option Z :=
  r ← walk (nodes t) (mac_is Mac) (fuel t) (inicio t) (inicio t) 1;
  Some (match r with (_, Some (_, nd), _) => me_vecino (nd_entry nd) | (_, None, _) => 0 end).

Definition tipo_switch_port (neighbor_table : mac_to_port) (port : Z) : option Z :=
  r ← walk (nodes neighbor_table) (λ e, me_port_in e =? port) (fuel neighbor_table)
        (inicio neighbor_table) (inicio neighbor_table) 1;
  Some (match r with (_, Some (_, nd), _) => me_vecino (nd_entry nd) | (_, None, _) => 0 end).

(** * Specification: lists of entries *)

(** Move-to-front lookup. *)
Definition found_spec (now : Z) (Mac : list Z) (es : list mac_entry) : list mac_entry * Z :=
  match find_first (usable (u64 now) Mac) es with
  | None => (es, -1)
  | Some (pre, e, post) =>
    (if (2 <=? Z.of_nat (length pre)) && (0 <? me_port_in e) then e :: pre ++ post else es, me_port_in e)
  end.

(** The second entry is never examined, and a table of one entry makes the loop
    follow a NULL pointer. *)
Definition delete_timeout_spec (now : Z) (es : list mac_entry) : option (list mac_entry) :=
  match es with
  | [] => Some []
  | [_] => None
  | e0 :: e1 :: es =>
    Some ((if stale now e0 then [] else [e0]) ++ e1 :: filter (λ e, stale now e = false) es)
  end.

(** When the first entry goes, the one after it is kept unexamined. *)
Definition delete_port_spec (port : Z) (es : list mac_entry) : list mac_entry :=
  match es with
  | [] => []
  | e0 :: es =>
    if on_port port e0 then
      match es with
      | [] => []
      | e1 :: es => e1 :: filter (λ e, on_port port e = false) es
      end
    else e0 :: filter (λ e, on_port port e = false) es
  end.

(** ** The delete loops, past the head *)

Lemma delete_timeout_rest n now t d b eb rest :
  repr_at true t (d ++ (b, eb) :: rest) → (length rest ≤ n)%nat →
  ∃ t' l', delete_timeout_loop n now t (Some b) (head rest.*1) = Some t' ∧
    repr_at true t' (d ++ (b, eb) :: l') ∧ l'.*2 = filter (λ e, stale now e = false) rest.*2.
Proof.
  revert t d b eb rest. induction n as [|n IH]; intros t d b eb rest Hr Hl;
    (destruct rest as [|[a e] rest]; [by exists t, []|simpl in Hl; try lia]).
  change (head ((a, e) :: rest).*1) with (Some a). change (((a, e) :: rest).*2) with (e :: rest.*2).
  cbn [delete_timeout_loop]. rewrite (repr_next_node _ _ _ _ _ _ _ Hr). cbn [mbind option_bind nd_entry].
  rewrite filter_cons.
  destruct (stale now e) eqn:E.
  - destruct (unlink_mid _ _ _ _ _ _ _ Hr) as (t1 & Hu & Hr1). rewrite Hu. cbn [mbind option_bind].
    rewrite (next_of_repr _ _ _ _ _ Hr1). cbn [mbind option_bind].
    destruct (IH t1 d b eb rest Hr1 ltac:(lia)) as (t' & l' & Hd & Hr' & Hl'). exists t', l'.
    rewrite decide_False by done. done.
  - rewrite (next_of_repr _ _ _ _ _ Hr). change (head ((a, e) :: rest).*1) with (Some a).
    cbn [mbind option_bind]. rewrite snoc_cons in Hr. rewrite (next_of_repr _ _ _ _ _ Hr). cbn [mbind option_bind].
    destruct (IH t _ a e rest Hr ltac:(lia)) as (t' & l' & Hd & Hr' & Hl').
    exists t', ((a, e) :: l'). rewrite snoc_cons, decide_True by done. split_and!; [done|done|].
    rewrite fmap_cons. by f_equal.
Qed.

Lemma delete_port_rest n port t d b eb rest :
  repr_at true t (d ++ (b, eb) :: rest) → (length rest ≤ n)%nat →
  ∃ t' l', delete_port_loop n port t (Some b) (head rest.*1) = Some t' ∧
    repr_at true t' (d ++ (b, eb) :: l') ∧ l'.*2 = filter (λ e, on_port port e = false) rest.*2.
Proof.
  revert t d b eb rest. induction n as [|n IH]; intros t d b eb rest Hr Hl;
    (destruct rest as [|[a e] rest]; [by exists t, []|simpl in Hl; try lia]).
  change (head ((a, e) :: rest).*1) with (Some a). change (((a, e) :: rest).*2) with (e :: rest.*2).
  cbn [delete_port_loop]. rewrite (repr_next_node _ _ _ _ _ _ _ Hr). cbn [mbind option_bind nd_entry nd_next].
  rewrite filter_cons.
  destruct (on_port port e) eqn:E.
  - destruct (unlink_mid _ _ _ _ _ _ _ Hr) as (t1 & Hu & Hr1). rewrite Hu. cbn [mbind option_bind].
    rewrite (next_of_repr _ _ _ _ _ Hr1). cbn [mbind option_bind].
    destruct (IH t1 d b eb rest Hr1 ltac:(lia)) as (t' & l' & Hd & Hr' & Hl'). exists t', l'.
    rewrite decide_False by done. done.
  - rewrite snoc_cons in Hr.
    destruct (IH t _ a e rest Hr ltac:(lia)) as (t' & l' & Hd & Hr' & Hl').
    exists t', ((a, e) :: l'). rewrite snoc_cons, decide_True by done. split_and!; [done|done|].
    rewrite fmap_cons. by f_equal.
Qed.

(** ** Refinement of each operation *)

Lemma add_head_refines t es Mac port time vecino now :
  repr true t es →
  repr true (mac_to_port_add_arp_table t now Mac port time vecino)
       (MacEntry Mac (u16 port) vecino (expiry now time) :: es).
Proof.
  intros (l & Hr & <-). pose proof Hr as [Hnd Hs Hf Hn]. unfold mac_to_port_add_arp_table.
  set (p := new_node (nodes t)). set (e := MacEntry _ _ _ _).
  pose proof (is_fresh (dom (nodes t) : gset positive)) as Hp. fold (new_node (nodes t)) in Hp. fold p in Hp.
  assert (p ∉ l.*1) as Hpl by (intros ?; apply Hp; by eapply seg_dom).
  exists ((p, e) :: l). split; [|done].
  assert (∀ n, n = inicio t → seg (<[p:=Node e n]> (nodes t)) (Some p) ((p, e) :: l) None) as Hseg.
  { intros n ->. split; [done|]. exists (inicio t). rewrite lookup_insert_eq. split; [done|].
    eapply seg_ext; [|exact Hs]. intros x Hx. rewrite lookup_insert_ne; [done|]. by intros ->. }
  rewrite Hn. destruct l as [|x l].
  - split; [apply NoDup_singleton|by apply Hseg|by left|done].
  - rewrite (proj2 (Z.eqb_neq _ 0)) by (simpl; lia).
    split; [by apply list.NoDup_cons|by apply Hseg|exact Hf|simpl; lia].
Qed.

Lemma found_refines t es now Mac :
  repr true t es →
  ∃ t', mac_to_port_found_port t now Mac = Some (t', (found_spec now Mac es).2) ∧
        repr true t' (found_spec now Mac es).1.
Proof.
  intros (l & Hr & <-). unfold mac_to_port_found_port, found_spec.
  rewrite (walk_repr t l _ Hr), find_first_snd.
  destruct (find_first _ l) as [[[pre [a e]] post]|] eqn:E; cbn [mbind option_bind].
  2:{ exists t. split; [done|]. by exists l. }
  apply find_first_split in E as (-> & _ & _). cbn [snd nd_entry fst].
  rewrite length_fmap. replace (2 <? 1 + Z.of_nat (length pre)) with (2 <=? Z.of_nat (length pre))
    by (destruct (Z.ltb_spec 2 (1 + Z.of_nat (length pre))), (Z.leb_spec 2 (Z.of_nat (length pre))); lia).
  destruct (_ && _) eqn:Eb.
  2:{ exists t. split; [done|]. eexists. split; [exact Hr|done]. }
  destruct (list_snoc_or_nil pre) as [->|(d & [b eb] & ->)]; [done|].
  rewrite <- app_assoc in Hr. destruct (move_front _ _ _ _ _ _ _ Hr) as (t' & Hm & Hr').
  rewrite fmap_app. change ([(b, eb)].*1) with [b]. rewrite last_snoc. cbn [from_option].
  rewrite Hm. cbn [mbind option_bind]. exists t'. split; [done|]. eexists. split; [exact Hr'|].
  rewrite fmap_cons, !fmap_app, fmap_cons. by rewrite <- app_assoc.
Qed.

Lemma delete_timeout_ref t es now :
  repr true t es →
  match delete_timeout_spec (u64 now) es with
  | Some es' => ∃ t', mac_to_port_delete_timeout t now = Some t' ∧ repr true t' es'
  | None => mac_to_port_delete_timeout t now = None
  end.
Proof.
  intros Hre. unfold mac_to_port_delete_timeout. set (w := u64 now).
  destruct es as [|e0 [|e1 es]]; cbn [delete_timeout_spec].
  - apply repr_nil_inv in Hre. exists t. unfold fuel. rewrite (seg_head _ _ _ (ra_seg Hre)).
    split; [done|]. by exists [].
  - apply repr_cons_inv in Hre as (a & l & Hr & ->%fmap_nil_inv). unfold fuel.
    rewrite (seg_head _ _ _ (ra_seg Hr)). cbn [head fmap list_fmap fst delete_timeout_loop].
    rewrite (seg_node _ _ [] _ _ _ (ra_seg Hr)). cbn [mbind option_bind nd_entry].
    destruct (stale w e0).
    + destruct (unlink_head t a e0 [] (Some a) Hr) as (t' & -> & _). done.
    + rewrite (next_of_repr t [] a e0 [] Hr). done.
  - apply repr_cons_inv in Hre as (a & l & Hr & Hl). destruct l as [|[b e1'] l]; [done|].
    rewrite fmap_cons in Hl. cbn [snd] in Hl. simplify_eq. pose proof (repr_fuel _ _ Hr) as Hfuel.
    unfold fuel in *. rewrite (seg_head _ _ _ (ra_seg Hr)). change (head _) with (Some a).
    cbn [delete_timeout_loop]. rewrite (seg_node _ _ [] _ _ _ (ra_seg Hr)). cbn [mbind option_bind nd_entry].
    simpl length in Hfuel. destruct (stale w e0).
    + destruct (unlink_head t a e0 _ (Some a) Hr) as (t1 & -> & Hr1). cbn [mbind option_bind].
      change (head ((b, e1) :: l).*1) with (Some b). rewrite (next_of_repr t1 [] b e1 l Hr1). cbn [mbind option_bind].
      destruct (delete_timeout_rest (size (nodes t)) w t1 [] b e1 l Hr1 ltac:(lia)) as (t' & l' & Hd & Hr' & <-).
      exists t'. split; [exact Hd|]. by exists ((b, e1) :: l').
    + rewrite (next_of_repr t [] a e0 _ Hr). cbn [mbind option_bind].
      change (head ((b, e1) :: l).*1) with (Some b). rewrite (next_of_repr t [(a, e0)] b e1 l Hr). cbn [mbind option_bind].
      destruct (delete_timeout_rest (size (nodes t)) w t [(a, e0)] b e1 l Hr ltac:(lia)) as (t' & l' & Hd & Hr' & <-).
      exists t'. split; [exact Hd|]. by exists ((a, e0) :: (b, e1) :: l').
Qed.

Lemma delete_port_ref t es port :
  repr true t es → ∃ t', mac_to_port_delete_port t port = Some t' ∧ repr true t' (delete_port_spec port es).
Proof.
  intros Hre. unfold mac_to_port_delete_port. destruct es as [|e0 es]; cbn [delete_port_spec].
  - apply repr_nil_inv in Hre. exists t. unfold fuel. rewrite (seg_head _ _ _ (ra_seg Hre)).
    split; [done|]. by exists [].
  - apply repr_cons_inv in Hre as (a & l & Hr & <-). pose proof (repr_fuel _ _ Hr) as Hfuel.
    unfold fuel in *. rewrite (seg_head _ _ _ (ra_seg Hr)). change (head _) with (Some a).
    cbn [delete_port_loop]. rewrite (seg_node _ _ [] _ _ _ (ra_seg Hr)). cbn [mbind option_bind nd_entry nd_next].
    simpl length in Hfuel. destruct (on_port port e0).
    + destruct (unlink_head t a e0 _ (Some a) Hr) as (t1 & -> & Hr1). cbn [mbind option_bind].
      destruct l as [|[b e1] l]; [exists t1; split; [done|by exists []]|].
      change (head ((b, e1) :: l).*1) with (Some b). rewrite (next_of_repr t1 [] b e1 l Hr1). cbn [mbind option_bind].
      simpl length in Hfuel.
      destruct (delete_port_rest (size (nodes t)) port t1 [] b e1 l Hr1 ltac:(lia)) as (t' & l' & Hd & Hr' & Hl).
      exists t'. split; [exact Hd|]. exists ((b, e1) :: l'). split; [done|].
      rewrite !fmap_cons. cbn [snd]. by rewrite Hl.
    + destruct (delete_port_rest (size (nodes t)) port t [] a e0 l Hr ltac:(lia)) as (t' & l' & Hd & Hr' & Hl).
      exists t'. split; [exact Hd|]. exists ((a, e0) :: l'). split; [done|].
      rewrite !fmap_cons. cbn [snd]. by rewrite Hl.
Qed.

Lemma found_app now Mac l1 l2 :
  (found_spec now Mac (l1 ++ l2)).2 =
  match find_first (usable (u64 now) Mac) l1 with
  | Some (_, e, _) => me_port_in e
  | None => (found_spec now Mac l2).2
  end.
Proof.
  unfold found_spec. destruct (find_first _ l1) as [[[pre e] post]|] eqn:E.
  - apply find_first_split in E as (-> & He & Hpre). rewrite <- app_assoc, find_first_skip by done.
    simpl. by rewrite He.
  - apply find_first_none in E. rewrite find_first_skip by done.
    by destruct (find_first _ l2) as [[[? ?] ?]|].
Qed.

Lemma usable_mac now Mac Mac' e : usable now Mac e = true → usable now Mac' e = true → Mac' = Mac.
Proof.
  unfold usable, mac_is. rewrite !andb_true_iff, !bool_decide_eq_true. by intros [<- _] [<- _].
Qed.

Lemma found_transparent now Mac Mac' es :
  (found_spec now Mac' (found_spec now Mac es).1).2 = (found_spec now Mac' es).2.
Proof.
  destruct (find_first (usable (u64 now) Mac) es) as [[[pre e] post]|] eqn:E;
    unfold found_spec at 2; rewrite E; [|done]. cbn [fst].
  destruct (_ && _); [|done]. apply find_first_split in E as (-> & He & Hpre).
  rewrite found_app. change (e :: pre ++ post) with ([e] ++ pre ++ post). rewrite found_app.
  change (e :: post) with ([e] ++ post). rewrite !found_app. simpl.
  destruct (usable (u64 now) Mac' e) eqn:E'; [|done].
  rewrite (usable_mac _ _ _ _ He E'). by rewrite (proj2 (find_first_none _ _) Hpre).
Qed.

(** * Properties *)

(** Looking up a port.  On a table that holds the entries [es], the lookup
    terminates, follows no bad pointer and returns the port of the first usable
    entry of the address (not expired, or marked as a neighbour), or -1.  The
    table afterwards holds the same entries, possibly with the one found moved to
    the front, and every later lookup gives the same answer as before the move. *)
Theorem found_port_correct (t : mac_to_port) (es : list mac_entry) (now : Z) (Mac : list Z)
    (Hr : repr true t es) :
  ∃ t' es', mac_to_port_found_port t now Mac =
      Some (t', match find_first (usable (u64 now) Mac) es with
                | Some (_, e, _) => me_port_in e
                | None => -1
                end) ∧
    repr true t' es' ∧ es' ≡ₚ es ∧
    ∀ Mac', (found_spec now Mac' es').2 = (found_spec now Mac' es).2.
Proof.
  destruct (found_refines t es now Mac Hr) as (t' & Hf & Hr').
  exists t', (found_spec now Mac es).1. split_and!; [|done| |intros; apply found_transparent].
  - rewrite Hf. unfold found_spec. by destruct (find_first _ es) as [[[? ?] ?]|].
  - unfold found_spec. destruct (find_first _ es) as [[[pre e] post]|] eqn:E; [|done]. cbn [fst].
    apply find_first_split in E as (-> & _ & _). destruct (_ && _); [|done]. apply Permutation_middle.
Qed.

Lemma mac_new_repr : repr true mac_to_port_new [].
Proof. exists []. split; [|reflexivity]. split; [constructor|reflexivity|by left|reflexivity]. Qed.

Definition ex_entry (m port exp : Z) : mac_entry := MacEntry [0; 0; 0; 0; 0; m] port 0 exp.
Definition ex_table : mac_to_port :=
  LList {[ 1%positive := Node (ex_entry 1 4 9000) (Some 2%positive);
               2%positive := Node (ex_entry 2 5 1000) (Some 3%positive);
               3%positive := Node (ex_entry 3 6 9000) None ]}
    (Some 1%positive) (Some 3%positive) 3.

Lemma ex_table_repr : repr true ex_table [ex_entry 1 4 9000; ex_entry 2 5 1000; ex_entry 3 6 9000].
Proof.
  exists [(1%positive, ex_entry 1 4 9000); (2%positive, ex_entry 2 5 1000); (3%positive, ex_entry 3 6 9000)].
  split; [|reflexivity]. split; [by_eval| |left; reflexivity|reflexivity].
  split; [reflexivity|]. exists (Some 2%positive). split; [reflexivity|].
  split; [reflexivity|]. exists (Some 3%positive). split; [reflexivity|].
  split; [reflexivity|]. exists None. split; reflexivity.
Qed.

Lemma found_port_correct_witness :
  ∃ t' es', mac_to_port_found_port ex_table 5000 [0; 0; 0; 0; 0; 3] = Some (t', 6) ∧ repr true t' es' ∧
    es' ≡ₚ [ex_entry 1 4 9000; ex_entry 2 5 1000; ex_entry 3 6 9000] ∧
    ∀ Mac', (found_spec 5000 Mac' es').2 =
            (found_spec 5000 Mac' [ex_entry 1 4 9000; ex_entry 2 5 1000; ex_entry 3 6 9000]).2.
Proof. exact (found_port_correct ex_table _ 5000 [0; 0; 0; 0; 0; 3] ex_table_repr). Defined.

(** Learning and refreshing.  On a table that holds [es]: adding puts the
    new entry last ([mac_to_port_add]) or first ([mac_to_port_add_arp_table]);
    updating changes the port of the address's first entry and refreshing its
    expiry time, which neither of them ever lowers; [mac_to_port_check_timeout]
    answers 2 for an unknown address and otherwise whether its first entry has
    expired.  None of them follows a bad pointer. *)
Theorem mac_table_ops_refine (t : mac_to_port) (es : list mac_entry) (now : Z) (Mac : list Z)
    (port time vecino : Z) (Hr : repr true t es) :
  (∃ t', mac_to_port_add t now Mac port time = Some t' ∧
     repr true t' (es ++ [MacEntry Mac (u16 port) 0 (expiry now time)])) ∧
  repr true (mac_to_port_add_arp_table t now Mac port time vecino)
       (MacEntry Mac (u16 port) vecino (expiry now time) :: es) ∧
  (∃ t' r, mac_to_port_update t now Mac port time = Some (t', r) ∧
     repr true t' (update_spec (λ e, raise_time (set_port e (u16 port)) (expiry now time)) (mac_is Mac) es)) ∧
  (∃ t' r, mac_to_port_time_refresh t now Mac time = Some (t', r) ∧
     repr true t' (update_spec (λ e, raise_time e (expiry now time)) (mac_is Mac) es)) ∧
  mac_to_port_check_timeout t now Mac =
    Some (match find_first (mac_is Mac) es with
          | None => 2
          | Some (_, e, _) => if stale (u64 now) e then 1 else 0
          end).
Proof.
  split_and!.
  - by apply add_tail_refines.
  - by apply add_head_refines.
  - unfold mac_to_port_update.
    destruct (update_first t es (mac_is Mac) (λ e, raise_time (set_port e (u16 port)) (expiry now time)) Hr)
      as ([[ant [[a nd]|]] pos] & -> & Hs); cbn [mbind option_bind]; eexists _, _; (split; [done|]).
    + apply Hs.
    + unfold update_spec. by rewrite Hs.
  - unfold mac_to_port_time_refresh.
    destruct (update_first t es (mac_is Mac) (λ e, raise_time e (expiry now time)) Hr)
      as ([[ant [[a nd]|]] pos] & -> & Hs); cbn [mbind option_bind]; eexists _, _; (split; [done|]).
    + apply Hs.
    + unfold update_spec. by rewrite Hs.
  - unfold mac_to_port_check_timeout.
    destruct (update_first t es (mac_is Mac) (λ e, e) Hr)
      as ([[ant [[a nd]|]] pos] & -> & Hs); cbn [mbind option_bind].
    + by destruct Hs as [(pre & post & ->) _].
    + by rewrite Hs.
Qed.

Lemma mac_table_ops_witness : mac_to_port_check_timeout ex_table 5000 [0; 0; 0; 0; 0; 2] = Some 1.
Proof.
  exact (proj2 (proj2 (proj2 (proj2 (mac_table_ops_refine ex_table _ 5000 [0; 0; 0; 0; 0; 2] 1 1 0 ex_table_repr))))).
Defined.

(** Ageing.  The periodic [mac_to_port_delete_timeout] removes expired
    entries without corrupting the list, but not as its name says: the second
    entry is never looked at and stays however old it is, and on a table that
    holds exactly one entry the loop follows a NULL pointer. *)
Theorem delete_timeout_behaviour (t : mac_to_port) (es : list mac_entry) (now : Z) (Hr : repr true t es) :
  match es with
  | [] => ∃ t', mac_to_port_delete_timeout t now = Some t' ∧ repr true t' []
  | [_] => mac_to_port_delete_timeout t now = None
  | e0 :: e1 :: rest =>
      ∃ t', mac_to_port_delete_timeout t now = Some t' ∧
        repr true t' ((if stale (u64 now) e0 then [] else [e0]) ++ e1 ::
                 filter (λ e, stale (u64 now) e = false) rest)
  end.
Proof. pose proof (delete_timeout_ref t es now Hr) as H. by destruct es as [|e0 [|e1 rest]]. Qed.

Lemma delete_timeout_witness :
  ∃ t', mac_to_port_delete_timeout ex_table 5000 = Some t' ∧
    repr true t' [ex_entry 1 4 9000; ex_entry 2 5 1000; ex_entry 3 6 9000].
Proof. exact (delete_timeout_behaviour ex_table _ 5000 ex_table_repr). Defined.

(** Forgetting a port.  [mac_to_port_delete_port] removes the entries learnt
    on the port that are not of neighbours, except that when the first entry goes
    the entry right after it is kept unexamined. *)
Theorem delete_port_behaviour (t : mac_to_port) (es : list mac_entry) (port : Z) (Hr : repr true t es) :
  ∃ t', mac_to_port_delete_port t port = Some t' ∧ repr true t' (delete_port_spec port es) ∧
    (∀ e0 rest, es = e0 :: rest → on_port port e0 = false →
       delete_port_spec port es = filter (λ e, on_port port e = false) es).
Proof.
  destruct (delete_port_ref t es port Hr) as (t' & H1 & H2). exists t'. split_and!; [done|done|].
  intros e0 rest -> H0. cbn [delete_port_spec]. by rewrite H0, filter_cons, decide_True.
Qed.

Lemma delete_port_witness :
  ∃ t', mac_to_port_delete_port ex_table 5 = Some t' ∧
    repr true t' [ex_entry 1 4 9000; ex_entry 3 6 9000] ∧
    (∀ e0 rest, [ex_entry 1 4 9000; ex_entry 2 5 1000; ex_entry 3 6 9000] = e0 :: rest → on_port 5 e0 = false →
       delete_port_spec 5 [ex_entry 1 4 9000; ex_entry 2 5 1000; ex_entry 3 6 9000] =
       filter (λ e, on_port 5 e = false) [ex_entry 1 4 9000; ex_entry 2 5 1000; ex_entry 3 6 9000]).
Proof. exact (delete_port_behaviour ex_table _ 5 ex_table_repr). Defined.
