(* ===== verification/TcpTable.v ===== *)
(** The TCP connection table of TCP-Path: udatapath/dp_ports.c, the
    [table_tcp_*] functions.

    An entry records, for the connection opened by a SYN, the port it came from
    ([port_in]) and, once the SYN+ACK has passed, the port towards the other end
    ([port_out]).  The table is a linked list on the heap (LinkedList.v); each
    operation is shown to refine a function on the list of entries.  The
    comparisons [memcmp(aux, directo, 16)] compare both addresses and both TCP
    ports. *)

From S2P Require Import Prelude OpenFlow LinkedList.

Record tcp_entry := TcpEntry {
  te_mac_src : list Z;
  te_mac_dst : list Z;
  te_port_src : Z;
  te_port_dst : Z;
  te_port_in : Z;
  te_port_out : Z;
  te_time_entry : Z }.

#[global] Instance tcp_entry_eq : EqDecision tcp_entry.
Proof. solve_decision. Defined.

Definition table_tcp := llist tcp_entry.

(** [struct cmp_table_tcp]: source and destination address, source and
    destination TCP port. *)
Definition cmp_table_tcp : Type := list Z * list Z * Z * Z.

Definition inverso (k : cmp_table_tcp) : cmp_table_tcp :=
  match k with (src, dst, ps, pd) => (dst, src, pd, ps) end.

Definition tcp_key (e : tcp_entry) : cmp_table_tcp :=
  (te_mac_src e, te_mac_dst e, te_port_src e, te_port_dst e).

Definition is_key (k : cmp_table_tcp) (e : tcp_entry) : bool := bool_decide (tcp_key e = k).
Definition is_conn (k : cmp_table_tcp) (e : tcp_entry) : bool := is_key k e || is_key (inverso k) e.

Definition tcp_set_time (e : tcp_entry) (t : Z) : tcp_entry :=
  TcpEntry (te_mac_src e) (te_mac_dst e) (te_port_src e) (te_port_dst e) (te_port_in e) (te_port_out e) t.
Definition tcp_set_out (e : tcp_entry) (p t : Z) : tcp_entry :=
  TcpEntry (te_mac_src e) (te_mac_dst e) (te_port_src e) (te_port_dst e) (te_port_in e) p t.

Definition table_tcp_new : table_tcp := LList ∅ None None 0.

Definition tcp_expiry (now time : Z) : Z := u64 (now + time * 1000).

(** Insert at the head.  On an empty table [fin] is set to the [next] of the new
    node, that is NULL. *)
Definition table_tcp_add (t : table_tcp) (now : Z) (k : cmp_table_tcp) (port_in TCP_TIME : Z) : table_tcp :=
  match k with
  | (src, dst, ps, pd) =>
    let p := new_node (nodes t) in
    let e := TcpEntry src dst ps pd (u16 port_in) 0 (tcp_expiry now TCP_TIME) in
    match inicio t with
    | None => LList (<[p := Node e None]> (nodes t)) (Some p) None (num_element t + 1)
    | Some _ => LList (<[p := Node e (inicio t)]> (nodes t)) (Some p) (fin t) (num_element t + 1)
    end
  end.

(** The walk of the table, under the [num_element != 0] guard. *)
Definition tcp_walk (t : table_tcp) (P : tcp_entry → bool) : option (option positive * option (positive * node tcp_entry) * Z) :=
  if num_element t =? 0 then Some (None, None, 0)
  else walk (nodes t) P (fuel t) (inicio t) (inicio t) 1.

Definition tcp_store (t : table_tcp) (a : positive) (e : tcp_entry) (nd : node tcp_entry) : table_tcp :=
  LList (<[a := Node e (nd_next nd)]> (nodes t)) (inicio t) (fin t) (num_element t).

Definition table_tcp_update_time (t : table_tcp) (now : Z) (k : cmp_table_tcp) (TCP_TIME : Z) :
    option (table_tcp * Z) :=
  r ← tcp_walk t (is_conn k);
  match r with
  | (_, None, _) => Some (t, 1)
  | (_, Some (a, nd), _) => Some (tcp_store t a (tcp_set_time (nd_entry nd) (tcp_expiry now TCP_TIME)) nd, 0)
  end.

(** A SYN+ACK: record the port it came from in the entry of the SYN, and return
    the port of the SYN (0 when there is none). *)
Definition table_tcp_update_port (t : table_tcp) (now : Z) (k : cmp_table_tcp) (in_port TCP_TIME : Z) :
    option (table_tcp * Z) :=
  r ← tcp_walk t (is_key (inverso k));
  match r with
  | (_, None, _) => Some (t, 0)
  | (_, Some (a, nd), _) =>
    Some (tcp_store t a (tcp_set_out (nd_entry nd) (u16 in_port) (tcp_expiry now TCP_TIME)) nd,
          te_port_in (nd_entry nd))
  end.

(** The port towards the destination: [port_out] of the connection's own entry,
    [port_in] of the entry of the reverse direction. *)
Definition conn_port (k : cmp_table_tcp) (e : tcp_entry) : Z :=
  if is_key k e then te_port_out e else te_port_in e.

Definition table_tcp_found_port (t : table_tcp) (k : cmp_table_tcp) : option (table_tcp * Z) :=
  r ← tcp_walk t (is_conn k);
  match r with
  | (_, None, _) => Some (t, -1)
  | (ant, Some (a, nd), pos) =>
    let port_select := conn_port k (nd_entry nd) in
    if (2 <? pos) && (0 <? port_select) then
      t ← move_to_front t ant a nd;
      Some (t, port_select)
    else Some (t, port_select)
  end.

Definition table_tcp_found_port_in (t : table_tcp) (k : cmp_table_tcp) : option Z :=
  r ← tcp_walk t (is_key k);
  match r with
  | (_, None, _) => Some (-1)
  | (_, Some (_, nd), _) => Some (te_port_in (nd_entry nd))
  end.

Definition table_tcp_check_timeout (t : table_tcp) (now : Z) (k : cmp_table_tcp) : option Z :=
  r ← tcp_walk t (is_conn k);
  match r with
  | (_, None, _) => Some (-1)
  | (_, Some (_, nd), _) => Some (if te_time_entry (nd_entry nd) <? u64 now then 1 else 0)
  end.

Fixpoint tcp_timeout_loop (n : nat) (now : Z) (t : table_tcp) (aux actual : option positive) : option table_tcp :=
  match actual with
  | None => Some t
  | Some a =>
    match n with
    | O => None
    | S n =>
      if 2 <? num_element t then
        nd ← nodes t !! a;
        if te_time_entry (nd_entry nd) <=? now then
          '(t, aux) ← unlink t aux a nd;
          actual ← next_of (nodes t) aux;
          tcp_timeout_loop n now t aux actual
        else tcp_timeout_loop n now t (Some a) (nd_next nd)
      else Some t
    end
  end.

Definition table_tcp_delete_timeout (t : table_tcp) (now : Z) : option table_tcp :=
  tcp_timeout_loop (fuel t) (u64 now) t (inicio t) (inicio t).

(** The loop compares [aux], the node before [actual] after the first turn, and
    unlinks [actual]. *)
Fixpoint tcp_delete_port_loop (n : nat) (k : cmp_table_tcp) (t : table_tcp) (aux actual : option positive) :
    option (table_tcp * Z) :=
  match actual with
  | None => Some (t, 0)
  | Some a =>
    match n with
    | O => None
    | S n =>
      x ← aux;
      nx ← nodes t !! x;
      nd ← nodes t !! a;
      if is_key k (nd_entry nx) then
        '(t, _) ← unlink t aux a nd;
        Some (t, 1)
      else tcp_delete_port_loop n k t (Some a) (nd_next nd)
    end
  end.

Definition tcp_delete_port (t : table_tcp) (k : cmp_table_tcp) : option (table_tcp * Z) :=
  tcp_delete_port_loop (fuel t) k t (inicio t) (inicio t).

(** * Specification *)

Definition tcp_repr := repr (E:=tcp_entry) false.

(** Expired entries go, from the first examined on, while more than two are
    left. *)
Fixpoint tdel (now : Z) (num : Z) (es : list tcp_entry) : list tcp_entry :=
  match es with
  | [] => []
  | e :: rest =>
    if 2 <? num then
      if te_time_entry e <=? now then tdel now (num - 1) rest else e :: tdel now num rest
    else e :: rest
  end.

Definition tcp_timeout_spec (now : Z) (es : list tcp_entry) : list tcp_entry :=
  let num := Z.of_nat (length es) in
  match es with
  | e0 :: e1 :: rest =>
    if (2 <? num) && (te_time_entry e0 <=? now) then e1 :: tdel now (num - 1) rest
    else e0 :: tdel now num (e1 :: rest)
  | es => es
  end.

(** Past the first entry it is the entry after the one that matches that goes. *)
Fixpoint tcp_delete_rest (k : cmp_table_tcp) (aux : tcp_entry) (es : list tcp_entry) : list tcp_entry * Z :=
  match es with
  | [] => ([], 0)
  | e :: rest => if is_key k aux then (rest, 1)
                 else let '(l, r) := tcp_delete_rest k e rest in (e :: l, r)
  end.

Definition tcp_delete_spec (k : cmp_table_tcp) (es : list tcp_entry) : list tcp_entry * Z :=
  match es with
  | [] => ([], 0)
  | e0 :: rest => if is_key k e0 then (rest, 1)
                  else let '(l, r) := tcp_delete_rest k e0 rest in (e0 :: l, r)
  end.

(** ** Lemmas *)

Lemma tcp_walk_eq t es P : tcp_repr t es → es ≠ [] →
  tcp_walk t P = walk (nodes t) P (fuel t) (inicio t) (inicio t) 1.
Proof.
  intros (l & Hr & <-) Hne. unfold tcp_walk. rewrite (ra_num Hr). destruct l; [done|].
  by rewrite (proj2 (Z.eqb_neq _ 0)) by (simpl; lia).
Qed.

(** Every lookup: which entry it finds, and that an update of it in place is an
    update of the list. *)
Lemma tcp_update_first t es P f :
  tcp_repr t es →
  ∃ r, tcp_walk t P = Some r ∧
  match r with
  | (_, None, _) => find_first P es = None
  | (_, Some (a, nd), _) =>
      (∃ pre post, find_first P es = Some (pre, nd_entry nd, post)) ∧
      tcp_repr (tcp_store t a (f (nd_entry nd)) nd) (update_spec f P es)
  end.
Proof.
  intros Hr. destruct (decide (es = [])) as [->|Hne].
  - destruct Hr as (l & Hr & ->%fmap_nil_inv). unfold tcp_walk. rewrite (ra_num Hr). simpl. by eexists.
  - rewrite (tcp_walk_eq _ es) by done. by apply update_first.
Qed.

Lemma tcp_add_repr t es now k port time :
  tcp_repr t es →
  tcp_repr (table_tcp_add t now k port time)
    (TcpEntry k.1.1.1 k.1.1.2 k.1.2 k.2 (u16 port) 0 (tcp_expiry now time) :: es).
Proof.
  intros (l & Hr & <-). pose proof Hr as [Hnd Hs Hf Hn]. destruct k as [[[src dst] ps] pd].
  unfold table_tcp_add. cbn [fst snd]. set (p := new_node (nodes t)). set (e := TcpEntry _ _ _ _ _ _ _).
  pose proof (is_fresh (dom (nodes t) : gset positive)) as Hp. fold (new_node (nodes t)) in Hp. fold p in Hp.
  assert (p ∉ l.*1) as Hpl by (intros ?; apply Hp; by eapply seg_dom).
  exists ((p, e) :: l). split; [|done]. pose proof (seg_head _ _ _ Hs) as Hin.
  assert (∀ n, n = inicio t → seg (<[p:=Node e n]> (nodes t)) (Some p) ((p, e) :: l) None) as Hseg.
  { intros n ->. split; [done|]. exists (inicio t). rewrite lookup_insert_eq. split; [done|].
    eapply seg_ext; [|exact Hs]. intros x Hx. rewrite lookup_insert_ne; [done|]. by intros ->. }
  destruct (inicio t) as [a|] eqn:E.
  - destruct l as [|x l]; [done|]. split; [by apply list.NoDup_cons|by apply Hseg|exact Hf|].
    cbn [num_element]. rewrite Hn. simpl. lia.
  - destruct l as [|x l]; [|done]. split; [apply NoDup_singleton|by apply Hseg|by right|].
    cbn [num_element]. by rewrite Hn.
Qed.

Lemma tcp_found_repr t es k :
  tcp_repr t es →
  ∃ t' es', table_tcp_found_port t k =
      Some (t', match find_first (is_conn k) es with Some (_, e, _) => conn_port k e | None => -1 end) ∧
    tcp_repr t' es' ∧ es' ≡ₚ es.
Proof.
  intros Hre. destruct (decide (es = [])) as [->|Hne].
  { exists t, []. destruct (tcp_update_first t [] (is_conn k) (λ e, e) Hre) as ([[? [[? ?]|]] ?] & Hw & Hs);
      [by destruct Hs as [(? & ? & ?) _]|]. unfold table_tcp_found_port. by rewrite Hw. }
  pose proof (tcp_walk_eq t es (is_conn k) Hre Hne) as Hw. destruct Hre as (l & Hr & <-).
  unfold table_tcp_found_port. rewrite Hw, (walk_repr t l _ Hr), find_first_snd.
  destruct (find_first _ l) as [[[pre [a e]] post]|] eqn:E; cbn [mbind option_bind].
  2:{ exists t. eexists. split; [done|]. split; [by exists l|done]. }
  apply find_first_split in E as (-> & _ & _). cbn [snd nd_entry fst].
  destruct (_ && _) eqn:Eb.
  2:{ exists t. eexists. split; [done|]. split; [by eexists|done]. }
  destruct (list_snoc_or_nil pre) as [->|(d & [b eb] & ->)]; [done|].
  rewrite <- app_assoc in Hr. destruct (move_front _ _ _ _ _ _ _ Hr) as (t' & Hm & Hr').
  rewrite fmap_app. change ([(b, eb)].*1) with [b]. rewrite last_snoc. cbn [from_option].
  rewrite Hm. cbn [mbind option_bind]. eexists t', _. split; [done|]. split; [by eexists|].
  rewrite fmap_cons, !fmap_app, !fmap_cons. cbn [snd]. rewrite <- app_assoc. simpl.
  rewrite Permutation_middle. apply Permutation_app_head. constructor.
Qed.

Lemma tcp_timeout_rest n now t d b eb rest :
  repr_at false t (d ++ (b, eb) :: rest) → (length rest ≤ n)%nat →
  ∃ t' l', tcp_timeout_loop n now t (Some b) (head rest.*1) = Some t' ∧
    repr_at false t' (d ++ (b, eb) :: l') ∧ l'.*2 = tdel now (num_element t) rest.*2.
Proof.
  revert t d b eb rest. induction n as [|n IH]; intros t d b eb rest Hr Hl;
    (destruct rest as [|[a e] rest]; [by exists t, []|simpl in Hl; try lia]).
  change (head ((a, e) :: rest).*1) with (Some a). change (((a, e) :: rest).*2) with (e :: rest.*2).
  cbn [tcp_timeout_loop tdel]. destruct (2 <? num_element t) eqn:En.
  2:{ exists t, ((a, e) :: rest). done. }
  rewrite (repr_next_node _ _ _ _ _ _ _ Hr). cbn [mbind option_bind nd_entry nd_next].
  destruct (te_time_entry e <=? now).
  - destruct (unlink_mid _ _ _ _ _ _ _ Hr) as (t1 & Hu & Hr1). rewrite Hu. cbn [mbind option_bind].
    rewrite (next_of_repr _ _ _ _ _ Hr1). cbn [mbind option_bind].
    destruct (IH t1 d b eb rest Hr1 ltac:(lia)) as (t' & l' & Hd & Hr' & Hl'). exists t', l'.
    split_and!; [done|done|]. rewrite Hl'. f_equal. rewrite (ra_num Hr), (ra_num Hr1), !length_app. simpl. lia.
  - rewrite snoc_cons in Hr. destruct (IH t _ a e rest Hr ltac:(lia)) as (t' & l' & Hd & Hr' & Hl').
    exists t', ((a, e) :: l'). rewrite snoc_cons. split_and!; [done|done|].
    rewrite fmap_cons. by f_equal.
Qed.

Lemma tcp_delete_rest_ref n k t d b eb rest :
  repr_at false t (d ++ (b, eb) :: rest) → (length rest ≤ n)%nat →
  ∃ t' l', tcp_delete_port_loop n k t (Some b) (head rest.*1) = Some (t', (tcp_delete_rest k eb rest.*2).2) ∧
    repr_at false t' (d ++ (b, eb) :: l') ∧ l'.*2 = (tcp_delete_rest k eb rest.*2).1.
Proof.
  revert t d b eb rest. induction n as [|n IH]; intros t d b eb rest Hr Hl;
    (destruct rest as [|[a e] rest]; [by exists t, []|simpl in Hl; try lia]).
  change (head ((a, e) :: rest).*1) with (Some a). change (((a, e) :: rest).*2) with (e :: rest.*2).
  cbn [tcp_delete_port_loop tcp_delete_rest mbind option_bind].
  rewrite (seg_node _ _ _ _ _ _ (ra_seg Hr)). cbn [mbind option_bind nd_entry].
  rewrite (repr_next_node _ _ _ _ _ _ _ Hr). cbn [mbind option_bind nd_entry nd_next].
  destruct (is_key k eb).
  - destruct (unlink_mid _ _ _ _ _ _ _ Hr) as (t1 & Hu & Hr1). rewrite Hu. cbn [mbind option_bind].
    by exists t1, rest.
  - rewrite snoc_cons in Hr. destruct (IH t _ a e rest Hr ltac:(lia)) as (t' & l' & Hd & Hr' & Hl').
    destruct (tcp_delete_rest k e rest.*2) as [l r] eqn:E. exists t', ((a, e) :: l'). rewrite snoc_cons.
    split_and!; [done|done|]. rewrite fmap_cons. cbn [fst snd] in *. by rewrite Hl'.
Qed.

Lemma tcp_timeout_ref t es now :
  tcp_repr t es →
  ∃ t', table_tcp_delete_timeout t now = Some t' ∧ tcp_repr t' (tcp_timeout_spec (u64 now) es).
Proof.
  intros Hre. unfold table_tcp_delete_timeout. destruct es as [|e0 es].
  { apply repr_nil_inv in Hre. exists t. unfold fuel. rewrite (seg_head _ _ _ (ra_seg Hre)).
    split; [done|]. by exists []. }
  apply repr_cons_inv in Hre as (a & l & Hr & <-). pose proof (repr_fuel _ _ Hr) as Hfuel.
  unfold fuel in *. rewrite (seg_head _ _ _ (ra_seg Hr)). change (head _) with (Some a).
  cbn [tcp_timeout_loop]. pose proof (ra_num Hr) as Hn. rewrite (seg_node _ _ [] _ _ _ (ra_seg Hr)).
  cbn [mbind option_bind nd_entry nd_next]. simpl length in Hn, Hfuel.
  destruct l as [|[b e1] l].
  { rewrite Hn. simpl. exists t. split; [done|]. by exists [(a, e0)]. }
  unfold tcp_timeout_spec. change (((b, e1) :: l).*2) with (e1 :: l.*2). cbn [length]. rewrite length_fmap.
  simpl length in Hn. rewrite <- Hn. destruct (2 <? num_element t) eqn:En; cbn [andb].
  2:{ exists t. split; [done|]. exists ((a, e0) :: (b, e1) :: l). split; [done|].
      cbn [tdel]. by rewrite En. }
  simpl length in Hfuel. destruct (te_time_entry e0 <=? u64 now).
  - destruct (unlink_head t a e0 _ (Some a) Hr) as (t1 & -> & Hr1). cbn [mbind option_bind].
    change (head ((b, e1) :: l).*1) with (Some b). rewrite (next_of_repr t1 [] b e1 l Hr1). cbn [mbind option_bind].
    destruct (tcp_timeout_rest (size (nodes t)) (u64 now) t1 [] b e1 l Hr1 ltac:(lia)) as (t' & l' & Hd & Hr' & Hl).
    exists t'. split; [exact Hd|]. exists ((b, e1) :: l'). split; [done|]. rewrite fmap_cons, Hl.
    rewrite (ra_num Hr1), Hn. simpl length. do 2 f_equal. lia.
  - destruct (tcp_timeout_rest (size (nodes t)) (u64 now) t [] a e0 ((b, e1) :: l) Hr ltac:(simpl; lia))
      as (t' & l' & Hd & Hr' & Hl).
    exists t'. split; [exact Hd|]. exists ((a, e0) :: l'). split; [done|]. by rewrite fmap_cons, Hl.
Qed.

Lemma tcp_delete_ref t es k :
  tcp_repr t es →
  ∃ t', tcp_delete_port t k = Some (t', (tcp_delete_spec k es).2) ∧ tcp_repr t' (tcp_delete_spec k es).1.
Proof.
  intros Hre. unfold tcp_delete_port. destruct es as [|e0 es].
  { apply repr_nil_inv in Hre. exists t. unfold fuel. rewrite (seg_head _ _ _ (ra_seg Hre)).
    split; [done|]. by exists []. }
  apply repr_cons_inv in Hre as (a & l & Hr & <-). pose proof (repr_fuel _ _ Hr) as Hfuel.
  unfold fuel in *. rewrite (seg_head _ _ _ (ra_seg Hr)). change (head _) with (Some a).
  cbn [tcp_delete_port_loop tcp_delete_spec mbind option_bind].
  rewrite (seg_node _ _ [] _ _ _ (ra_seg Hr)). cbn [mbind option_bind nd_entry nd_next].
  destruct (is_key k e0).
  - destruct (unlink_head t a e0 l (Some a) Hr) as (t1 & -> & Hr1). exists t1. split; [done|]. by exists l.
  - simpl length in Hfuel.
    destruct (tcp_delete_rest_ref (size (nodes t)) k t [] a e0 l Hr ltac:(lia)) as (t' & l' & Hd & Hr' & Hl').
    destruct (tcp_delete_rest k e0 l.*2) as [l2 r]. exists t'. split; [exact Hd|].
    exists ((a, e0) :: l'). split; [done|]. rewrite fmap_cons. cbn [fst] in *. by f_equal.
Qed.

Lemma is_key_refl k e : tcp_key e = k → is_key k e = true.
Proof. unfold is_key. by rewrite bool_decide_eq_true. Qed.

Lemma inverso_inv k : inverso (inverso k) = k.
Proof. by destruct k as [[[? ?] ?] ?]. Qed.

Lemma tdel_length now num es :
  2 <= num → num - Z.of_nat (length es) <= 2 →
  2 <= num - Z.of_nat (length es) + Z.of_nat (length (tdel now num es)).
Proof.
  revert num. induction es as [|e es IH]; intros num H2 Hl; cbn [tdel length] in *; [lia|].
  destruct (Z.ltb_spec 2 num); [|simpl; lia].
  destruct (_ <=? now); cbn [length]; [|specialize (IH num); lia].
  specialize (IH (num - 1)). lia.
Qed.

(** * Properties *)

(** A TCP path is set up by its handshake.  When a SYN of the connection [k]
    has been recorded with the port [p] it came from, and the SYN+ACK of the
    reverse direction then arrives on port [q], the SYN+ACK is sent to [p], and
    from then on segments of the connection go to [q] and those of the reverse
    direction to [p]. *)
Theorem tcp_handshake_path (t : table_tcp) (es : list tcp_entry) (k : cmp_table_tcp) (now now' p q T : Z)
    (Hr : tcp_repr t es) (Hk : k ≠ inverso k) (Hp : fits 16 p) (Hq : fits 16 q) :
  ∃ t2, table_tcp_update_port (table_tcp_add t now k p T) now' (inverso k) q T = Some (t2, p) ∧
    (∃ t3, table_tcp_found_port t2 k = Some (t3, q)) ∧
    (∃ t3, table_tcp_found_port t2 (inverso k) = Some (t3, p)) ∧
    table_tcp_found_port_in t2 k = Some p.
Proof.
  set (e := TcpEntry k.1.1.1 k.1.1.2 k.1.2 k.2 (u16 p) 0 (tcp_expiry now T)).
  set (f := λ e, tcp_set_out e (u16 q) (tcp_expiry now' T)).
  pose proof (tcp_add_repr t es now k p T Hr) as Hr1. fold e in Hr1.
  assert (tcp_key e = k) as He by (subst e; by destruct k as [[[? ?] ?] ?]).
  assert (is_key k e = true) as Hke by by apply is_key_refl.
  assert (is_key k (f e) = true) as Hkf by by apply is_key_refl.
  assert (is_key (inverso k) (f e) = false) as Hki.
  { unfold is_key. apply bool_decide_eq_false. change (tcp_key (f e)) with (tcp_key e). congruence. }
  assert (u16 p = p ∧ u16 q = q) as [Hup Huq] by (split; by apply wrap_small).
  unfold table_tcp_update_port. rewrite inverso_inv.
  destruct (tcp_update_first _ _ (is_key k) f Hr1) as ([[ant [[a nd]|]] pos] & -> & Hs).
  2:{ cbn [find_first] in Hs. rewrite Hke in Hs. done. }
  cbn [mbind option_bind]. unfold update_spec in Hs. cbn [find_first] in Hs. rewrite Hke in Hs.
  destruct Hs as [(pre & post & [= <- Hnd <-]) Hr2]. rewrite <- Hnd in *. cbn [app] in Hr2.
  exists (tcp_store (table_tcp_add t now k p T) a (f e) nd). split_and!.
  - change (te_port_in e) with (u16 p). by rewrite Hup.
  - destruct (tcp_found_repr _ _ k Hr2) as (t3 & es3 & Hf & _). exists t3. rewrite Hf.
    cbn [find_first]. unfold is_conn. rewrite Hkf. cbn [orb]. unfold conn_port. rewrite Hkf. simpl. by rewrite Huq.
  - destruct (tcp_found_repr _ _ (inverso k) Hr2) as (t3 & es3 & Hf & _). exists t3. rewrite Hf.
    cbn [find_first]. unfold is_conn. rewrite inverso_inv, Hkf, Hki. cbn [orb]. unfold conn_port. rewrite Hki.
    simpl. by rewrite Hup.
  - unfold table_tcp_found_port_in.
    destruct (tcp_update_first _ _ (is_key k) (λ e, e) Hr2) as ([[ant' [[a' nd']|]] pos'] & -> & Hs).
    + cbn [find_first] in Hs. rewrite Hkf in Hs. destruct Hs as [(? & ? & [= <- Hnd' <-]) _].
      cbn [mbind option_bind]. rewrite <- Hnd'. simpl. by rewrite Hup.
    + cbn [find_first] in Hs. rewrite Hkf in Hs. done.
Qed.

Definition ex_conn : cmp_table_tcp := ([0; 0; 0; 0; 0; 1], [0; 0; 0; 0; 0; 2], 40000, 80).

Lemma table_tcp_new_repr : tcp_repr table_tcp_new [].
Proof. exists []. split; [|reflexivity]. split; [constructor|reflexivity|by left|reflexivity]. Qed.

Lemma tcp_handshake_witness :
  ∃ t2, table_tcp_update_port (table_tcp_add table_tcp_new 1000 ex_conn 3 10) 1200 (inverso ex_conn) 7 10
        = Some (t2, 3) ∧
    (∃ t3, table_tcp_found_port t2 ex_conn = Some (t3, 7)) ∧
    (∃ t3, table_tcp_found_port t2 (inverso ex_conn) = Some (t3, 3)) ∧
    table_tcp_found_port_in t2 ex_conn = Some 3.
Proof.
  apply (tcp_handshake_path table_tcp_new [] ex_conn 1000 1200 3 7 10 table_tcp_new_repr);
    vm_compute; intuition congruence.
Defined.

(** Ageing of connections and lookups.  On a table that holds [es], lookups
    return the port of the connection's first entry and keep the entries (they
    may reorder them); ageing removes expired entries, in order, but stops as
    soon as two entries are left, so the last two connections never expire. *)
Theorem tcp_table_ageing (t : table_tcp) (es : list tcp_entry) (k : cmp_table_tcp) (now : Z)
    (Hr : tcp_repr t es) :
  (∃ t' es', table_tcp_found_port t k =
      Some (t', match find_first (is_conn k) es with Some (_, e, _) => conn_port k e | None => -1 end) ∧
    tcp_repr t' es' ∧ es' ≡ₚ es) ∧
  ∃ t', table_tcp_delete_timeout t now = Some t' ∧ tcp_repr t' (tcp_timeout_spec (u64 now) es) ∧
    (2 <= Z.of_nat (length es) → 2 <= Z.of_nat (length (tcp_timeout_spec (u64 now) es))).
Proof.
  split; [by apply tcp_found_repr|].
  destruct (tcp_timeout_ref t es now Hr) as (t' & H1 & H2). exists t'. split_and!; [done|done|].
  destruct es as [|e0 [|e1 rest]]; [done|done|]. unfold tcp_timeout_spec. cbn [length]. intros Hl.
  destruct (Z.ltb_spec 2 (Z.of_nat (S (S (length rest))))) as [H|H]; cbn [andb].
  - destruct (_ <=? u64 now); cbn [length].
    + pose proof (tdel_length (u64 now) (Z.of_nat (S (S (length rest))) - 1) rest). lia.
    + pose proof (tdel_length (u64 now) (Z.of_nat (S (S (length rest)))) (e1 :: rest)).
      simpl length in *. lia.
  - cbn [tdel]. rewrite (proj2 (Z.ltb_ge _ _)) by lia. cbn [length]. lia.
Qed.

Lemma tcp_table_ageing_witness :
  ∃ t', table_tcp_delete_timeout (table_tcp_add table_tcp_new 1000 ex_conn 3 10) 99000 = Some t' ∧
    tcp_repr t' [TcpEntry [0; 0; 0; 0; 0; 1] [0; 0; 0; 0; 0; 2] 40000 80 3 0 11000] ∧
    (2 <= 1 → 2 <= 1).
Proof.
  exact (proj2 (tcp_table_ageing _ _ ex_conn 99000 (tcp_add_repr table_tcp_new [] 1000 ex_conn 3 10 table_tcp_new_repr))).
Defined.

(** Deleting a connection removes the wrong entry.  [tcp_delete_port]
    compares the node before the one it unlinks: when the connection is not the
    first entry but has one after it, that one is removed and the connection
    stays. *)
Theorem tcp_delete_port_wrong (t : table_tcp) (e0 e1 e2 : tcp_entry) (rest : list tcp_entry)
    (Hr : tcp_repr t (e0 :: e1 :: e2 :: rest)) (Hne : tcp_key e0 ≠ tcp_key e1) :
  ∃ t', tcp_delete_port t (tcp_key e1) = Some (t', 1) ∧ tcp_repr t' (e0 :: e1 :: rest).
Proof.
  destruct (tcp_delete_ref t _ (tcp_key e1) Hr) as (t' & H1 & H2). exists t'.
  assert (is_key (tcp_key e1) e0 = false) as E0 by (unfold is_key; by apply bool_decide_eq_false).
  assert (is_key (tcp_key e1) e1 = true) as E1 by by apply is_key_refl.
  cbn [tcp_delete_spec tcp_delete_rest] in H1, H2. rewrite E0, E1 in H1, H2. by split.
Qed.

Lemma tcp_delete_port_witness :
  let t := table_tcp_add (table_tcp_add (table_tcp_add table_tcp_new 0 ex_conn 3 10)
             0 ([1], [2], 1, 1) 4 10) 0 ([1], [3], 1, 1) 5 10 in
  ∃ t', tcp_delete_port t ([1], [2], 1, 1) = Some (t', 1) ∧
    tcp_repr t' [TcpEntry [1] [3] 1 1 5 0 10000; TcpEntry [1] [2] 1 1 4 0 10000].
Proof.
  apply (tcp_delete_port_wrong _ (TcpEntry [1] [3] 1 1 5 0 10000) (TcpEntry [1] [2] 1 1 4 0 10000) (TcpEntry [0; 0; 0; 0; 0; 1] [0; 0; 0; 0; 0; 2] 40000 80 3 0 10000) []).
  - exact (tcp_add_repr _ _ 0 ([1], [3], 1, 1) 5 10 (tcp_add_repr _ _ 0 ([1], [2], 1, 1) 4 10
             (tcp_add_repr _ _ 0 ex_conn 3 10 table_tcp_new_repr))).
  - vm_compute. congruence.
Defined.
