(* ===== verification/ArpPath.v ===== *)
(** ARP-Path forwarding: [pipeline_arp_path] and [arp_path_send_unicast] of
    udatapath/pipeline.c, as built (TCP_PATH, controlador and recuperacion are 0,
    so the branches they guard are compiled out).

    A broadcast frame locks its source address to the port its first copy came
    from; copies on other ports are dropped while the lock lasts; unicast frames
    follow the locked ports.  The handler is given over the linked tables of
    MacTable.v and shown to refine the same handler over lists of entries
    ([arp_spec]), against which the protocol properties are proved. *)

From S2P Require Import Prelude OpenFlow LinkedList MacTable.

Definition BT_TIME := 15.
Definition LT_TIME := 20.

(** The fields of a frame that ARP-Path reads. *)
Record arp_frame := Frame {
  fr_in_port : Z;
  fr_eth_dst : list Z;
  fr_eth_src : list Z;
  fr_eth_type : Z;          (* as in memory: 1544 is ARP *)
  fr_arp : option Z;        (* ar_op as in memory, when there is an ARP header *)
  fr_arppath : bool }.

(** What happens to the frame: sent out of a port ([OFPP_RANDOM] for a
    broadcast), or destroyed. *)
Inductive arp_out := AOutput (port : Z) | ADestroy.

Definition eth_addr_is_broadcast (ea : list Z) : bool :=
  foldr Z.land 0xff (take 6 ea) =? 0xff.
Definition eth_addr_is_multicast (ea : list Z) : bool :=
  truthy (Z.land (rd8 ea) 1).

(** [ar_op / 256 == 2]: an ARP reply *)
Definition is_arp_reply (arp : option Z) : bool :=
  match arp with Some ar_op => ar_op / 256 =? 2 | None => false end.

(** With [recuperacion == 0]: refresh the destination and send, or do nothing. *)
Definition arp_path_send_unicast (now : Z) (mac_port : mac_to_port) (eth_dst : list Z) (out_port : Z) :
    option (mac_to_port * list arp_out) :=
  if out_port =? -1 then Some (mac_port, [])
  else
    '(mac_port, _) ← mac_to_port_time_refresh mac_port now eth_dst LT_TIME;
    Some (mac_port, [AOutput out_port]).

(** An ARP reply or ARP-Path frame (re)learns its source. *)
Definition learn_unicast (now : Z) (neighbor_table mac_port : mac_to_port) (f : arp_frame) (puerto_mac : Z) :
    option mac_to_port :=
  if puerto_mac =? -1 then
    vecino ← is_neighbor neighbor_table (fr_in_port f);
    Some (mac_to_port_add_arp_table mac_port now (fr_eth_src f) (fr_in_port f) LT_TIME vecino)
  else
    c ← mac_to_port_check_timeout mac_port now (fr_eth_src f);
    if c =? 1
    then '(m, _) ← mac_to_port_update mac_port now (fr_eth_src f) (fr_in_port f) LT_TIME; Some m
    else '(m, _) ← mac_to_port_time_refresh mac_port now (fr_eth_src f) LT_TIME; Some m.

Definition pipeline_arp_path (now : Z) (neighbor_table mac_port : mac_to_port) (f : arp_frame) :
    option (mac_to_port * list arp_out) :=
  '(mac_port, puerto_mac) ← mac_to_port_found_port mac_port now (fr_eth_src f);
  if eth_addr_is_broadcast (fr_eth_dst f) || eth_addr_is_multicast (fr_eth_dst f) then
    if puerto_mac =? -1 then
      vecino ← is_neighbor neighbor_table (fr_in_port f);
      Some (mac_to_port_add_arp_table mac_port now (fr_eth_src f) (fr_in_port f) BT_TIME vecino, [AOutput OFPP_RANDOM])
    else if puerto_mac =? fr_in_port f then
      '(mac_port, _) ← mac_to_port_time_refresh mac_port now (fr_eth_src f) BT_TIME;
      Some (mac_port, [AOutput OFPP_RANDOM])
    else
      c ← mac_to_port_check_timeout mac_port now (fr_eth_src f);
      if negb (c =? 0) then
        '(mac_port, _) ← mac_to_port_update mac_port now (fr_eth_src f) (fr_in_port f) BT_TIME;
        Some (mac_port, [AOutput OFPP_RANDOM])
      else Some (mac_port, [ADestroy])
  else
    mac_port ←
      (if (fr_eth_type f =? 1544) || fr_arppath f then
         match fr_arp f with
         | Some _ => if is_arp_reply (fr_arp f) then learn_unicast now neighbor_table mac_port f puerto_mac
                     else Some mac_port
         | None => if fr_arppath f then learn_unicast now neighbor_table mac_port f puerto_mac
                   else Some mac_port
         end
       else Some mac_port);
    '(mac_port, puerto_mac) ← mac_to_port_found_port mac_port now (fr_eth_dst f);
    arp_path_send_unicast now mac_port (fr_eth_dst f) puerto_mac.

(** * The same handler over lists of entries *)

Definition is_neighbor_spec (nes : list mac_entry) (in_port : Z) : Z :=
  match find_first (λ e, me_port_in e =? in_port) nes with Some _ => 0 | None => 1 end.

Definition refresh_spec (now : Z) (Mac : list Z) (time : Z) : list mac_entry → list mac_entry :=
  update_spec (λ e, raise_time e (expiry now time)) (mac_is Mac).
Definition move_spec (now : Z) (Mac : list Z) (port time : Z) : list mac_entry → list mac_entry :=
  update_spec (λ e, raise_time (set_port e (u16 port)) (expiry now time)) (mac_is Mac).
Definition check_spec (now : Z) (Mac : list Z) (es : list mac_entry) : Z :=
  match find_first (mac_is Mac) es with
  | None => 2
  | Some (_, e, _) => if stale (u64 now) e then 1 else 0
  end.
Definition learn_entry (now : Z) (nes : list mac_entry) (f : arp_frame) (time : Z) : mac_entry :=
  MacEntry (fr_eth_src f) (u16 (fr_in_port f)) (is_neighbor_spec nes (fr_in_port f)) (expiry now time).

Definition unicast_spec (now : Z) (dst : list Z) (es : list mac_entry) (out_port : Z) : list mac_entry * list arp_out :=
  if out_port =? -1 then (es, []) else (refresh_spec now dst LT_TIME es, [AOutput out_port]).

Definition learn_spec (now : Z) (nes es : list mac_entry) (f : arp_frame) (port : Z) : list mac_entry :=
  if port =? -1 then learn_entry now nes f LT_TIME :: es
  else if check_spec now (fr_eth_src f) es =? 1 then move_spec now (fr_eth_src f) (fr_in_port f) LT_TIME es
  else refresh_spec now (fr_eth_src f) LT_TIME es.

Definition learns (f : arp_frame) : bool :=
  ((fr_eth_type f =? 1544) || fr_arppath f) &&
  match fr_arp f with Some _ => is_arp_reply (fr_arp f) | None => fr_arppath f end.

Definition is_bcast (f : arp_frame) : bool :=
  eth_addr_is_broadcast (fr_eth_dst f) || eth_addr_is_multicast (fr_eth_dst f).

Definition arp_spec (now : Z) (nes es : list mac_entry) (f : arp_frame) : list mac_entry * list arp_out :=
  let '(es, port) := found_spec now (fr_eth_src f) es in
  if is_bcast f then
    if port =? -1 then (learn_entry now nes f BT_TIME :: es, [AOutput OFPP_RANDOM])
    else if port =? fr_in_port f then (refresh_spec now (fr_eth_src f) BT_TIME es, [AOutput OFPP_RANDOM])
    else if negb (check_spec now (fr_eth_src f) es =? 0)
         then (move_spec now (fr_eth_src f) (fr_in_port f) BT_TIME es, [AOutput OFPP_RANDOM])
         else (es, [ADestroy])
  else
    let es := if learns f then learn_spec now nes es f port else es in
    let '(es, out) := found_spec now (fr_eth_dst f) es in
    unicast_spec now (fr_eth_dst f) es out.

(** ** Refinement *)

Lemma is_neighbor_ref nt nes p : repr true nt nes → is_neighbor nt p = Some (is_neighbor_spec nes p).
Proof.
  intros Hr. unfold is_neighbor, is_neighbor_spec.
  destruct (update_first nt nes (λ e, me_port_in e =? p) (λ e, e) Hr)
    as ([[ant [[a nd]|]] pos] & -> & Hs); cbn [mbind option_bind].
  - by destruct Hs as [(pre & post & ->) _].
  - by rewrite Hs.
Qed.

Lemma update_ref t es now Mac port time :
  repr true t es → ∃ t' r, mac_to_port_update t now Mac port time = Some (t', r) ∧ repr true t' (move_spec now Mac port time es).
Proof.
  intros Hr. unfold mac_to_port_update.
  destruct (update_first t es (mac_is Mac) (λ e, raise_time (set_port e (u16 port)) (expiry now time)) Hr)
    as ([[ant [[a nd]|]] pos] & -> & Hs); cbn [mbind option_bind]; eexists _, _; (split; [done|]).
  - apply Hs.
  - unfold move_spec, update_spec. by rewrite Hs.
Qed.

Lemma refresh_ref t es now Mac time :
  repr true t es → ∃ t' r, mac_to_port_time_refresh t now Mac time = Some (t', r) ∧ repr true t' (refresh_spec now Mac time es).
Proof.
  intros Hr. unfold mac_to_port_time_refresh.
  destruct (update_first t es (mac_is Mac) (λ e, raise_time e (expiry now time)) Hr)
    as ([[ant [[a nd]|]] pos] & -> & Hs); cbn [mbind option_bind]; eexists _, _; (split; [done|]).
  - apply Hs.
  - unfold refresh_spec, update_spec. by rewrite Hs.
Qed.

Lemma check_ref t es now Mac : repr true t es → mac_to_port_check_timeout t now Mac = Some (check_spec now Mac es).
Proof.
  intros Hr. unfold mac_to_port_check_timeout, check_spec.
  destruct (update_first t es (mac_is Mac) (λ e, e) Hr)
    as ([[ant [[a nd]|]] pos] & -> & Hs); cbn [mbind option_bind].
  - by destruct Hs as [(pre & post & ->) _].
  - by rewrite Hs.
Qed.

Lemma learn_ref nt nes t es now f port :
  repr true nt nes → repr true t es →
  ∃ t', learn_unicast now nt t f port = Some t' ∧ repr true t' (learn_spec now nes es f port).
Proof.
  intros Hn Hr. unfold learn_unicast, learn_spec. destruct (port =? -1).
  - rewrite (is_neighbor_ref nt nes) by done. eexists. split; [done|]. by apply add_head_refines.
  - rewrite (check_ref t es) by done. cbn [mbind option_bind]. destruct (_ =? 1).
    + destruct (update_ref t es now (fr_eth_src f) (fr_in_port f) LT_TIME Hr) as (t' & r & -> & ?). by exists t'.
    + destruct (refresh_ref t es now (fr_eth_src f) LT_TIME Hr) as (t' & r & -> & ?). by exists t'.
Qed.

Lemma send_ref t es now dst port :
  repr true t es →
  ∃ t', arp_path_send_unicast now t dst port = Some (t', (unicast_spec now dst es port).2) ∧
        repr true t' (unicast_spec now dst es port).1.
Proof.
  intros Hr. unfold arp_path_send_unicast, unicast_spec. destruct (port =? -1); [by exists t|].
  destruct (refresh_ref t es now dst LT_TIME Hr) as (t' & r & -> & ?). by exists t'.
Qed.

Lemma arp_ref nt nes t es now f :
  repr true nt nes → repr true t es →
  ∃ t', pipeline_arp_path now nt t f = Some (t', (arp_spec now nes es f).2) ∧
        repr true t' (arp_spec now nes es f).1.
Proof.
  intros Hn Hr. unfold pipeline_arp_path, arp_spec, is_bcast.
  destruct (found_refines t es now (fr_eth_src f) Hr) as (t1 & -> & Hr1).
  destruct (found_spec now (fr_eth_src f) es) as [es1 port]. cbn [mbind option_bind fst snd] in *.
  destruct (_ || eth_addr_is_multicast _).
  - destruct (port =? -1).
    { rewrite (is_neighbor_ref nt nes) by done. eexists. split; [done|]. by apply add_head_refines. }
    destruct (port =? fr_in_port f).
    { destruct (refresh_ref t1 es1 now (fr_eth_src f) BT_TIME Hr1) as (t' & r & -> & ?). by exists t'. }
    rewrite (check_ref t1 es1) by done. cbn [mbind option_bind]. destruct (negb _); [|by exists t1].
    destruct (update_ref t1 es1 now (fr_eth_src f) (fr_in_port f) BT_TIME Hr1) as (t' & r & -> & ?). by exists t'.
  - assert (∃ t2, (if (fr_eth_type f =? 1544) || fr_arppath f then
         match fr_arp f with
         | Some _ => if is_arp_reply (fr_arp f) then learn_unicast now nt t1 f port else Some t1
         | None => if fr_arppath f then learn_unicast now nt t1 f port else Some t1
         end else Some t1) = Some t2 ∧
       repr true t2 (if learns f then learn_spec now nes es1 f port else es1)) as (t2 & -> & Hr2).
    { unfold learns. destruct (_ || fr_arppath f); cbn [andb]; [|by exists t1].
      destruct (fr_arp f); [destruct (is_arp_reply _)|destruct (fr_arppath f)];
        (by apply learn_ref) || (by exists t1). }
    cbn [mbind option_bind]. destruct (found_refines t2 _ now (fr_eth_dst f) Hr2) as (t3 & -> & Hr3).
    destruct (found_spec now (fr_eth_dst f) _) as [es3 out]. cbn [mbind option_bind fst snd] in *.
    by apply send_ref.
Qed.

(** * The path lock *)

(** The first entry of an address. *)
Definition first_of (s : list Z) (es : list mac_entry) : option mac_entry :=
  match find_first (mac_is s) es with Some (_, e, _) => Some e | None => None end.

(** The address [s] is bound to port [p] at least until time [T]. *)
Definition locked (T : Z) (s : list Z) (p : Z) (es : list mac_entry) : Prop :=
  ∃ e, first_of s es = Some e ∧ me_port_in e = p ∧ (me_vecino e = 1 ∨ T <= me_time_entry e).

Lemma first_cons s e es : first_of s (e :: es) = if mac_is s e then Some e else first_of s es.
Proof. unfold first_of. simpl. destruct (mac_is s e); [done|]. by destruct (find_first _ es) as [[[? ?] ?]|]. Qed.

Lemma first_app s l1 l2 :
  first_of s (l1 ++ l2) = match first_of s l1 with Some e => Some e | None => first_of s l2 end.
Proof. induction l1 as [|e l1 IH]; [done|]. simpl app. rewrite !first_cons, IH. by destruct (mac_is s e). Qed.

Lemma first_elem s es e : first_of s es = Some e → e ∈ es ∧ me_mac e = s.
Proof.
  unfold first_of. destruct (find_first _ es) as [[[pre x] post]|] eqn:E; [|done]. intros [= <-].
  apply find_first_split in E as (-> & Hx & _). unfold mac_is in Hx.
  apply bool_decide_eq_true in Hx. split; [set_solver|done].
Qed.

Lemma mac_is_eq s e : mac_is s e = true ↔ me_mac e = s.
Proof. unfold mac_is. apply bool_decide_eq_true. Qed.

Section lock.
  Context (T : Z) (s : list Z) (p now : Z).
  Context (Hnow : fits 64 now) (HT : now < T) (Hp : 0 <= p).

Lemma u64_now : u64 now = now.
Proof. by apply wrap_small. Qed.

(** A lock makes the entry usable and not stale. *)
Lemma locked_usable e : me_mac e = s → (me_vecino e = 1 ∨ T <= me_time_entry e) →
  usable now s e = true ∧ stale now e = false.
Proof.
  intros Hm Hl. unfold usable, stale. rewrite (proj2 (mac_is_eq s e) Hm). destruct Hl as [->|Hl].
  - rewrite orb_true_r, andb_false_r. done.
  - rewrite (proj2 (Z.ltb_lt now _)) by lia. rewrite (proj2 (Z.ltb_ge _ now)) by lia. done.
Qed.

(** The first usable entry is the first entry. *)
Lemma locked_find es : locked T s p es →
  ∃ pre e post, find_first (usable now s) es = Some (pre, e, post) ∧ first_of s es = Some e ∧
    first_of s pre = None ∧ me_port_in e = p ∧ (me_vecino e = 1 ∨ T <= me_time_entry e).
Proof.
  intros (e & He & Hpe & Hl). unfold first_of in He.
  destruct (find_first (mac_is s) es) as [[[pre x] post]|] eqn:E; [|done]. injection He as ->.
  pose proof E as (-> & Hm & Hpre)%find_first_split. apply mac_is_eq in Hm.
  exists pre, e, post. split_and!; [|unfold first_of; by rewrite E| |done|done].
  - rewrite find_first_skip.
    + simpl. destruct (locked_usable e Hm Hl) as [-> _]. by rewrite app_nil_r.
    + eapply Forall_impl; [|exact Hpre]. intros y Hy. unfold usable. by rewrite Hy.
  - unfold first_of. by rewrite (proj2 (find_first_none _ _) Hpre).
Qed.

Lemma locked_found es : locked T s p es → (found_spec now s es).2 = p.
Proof.
  intros (pre & e & post & Hf & _ & _ & Hpe & _)%locked_find. unfold found_spec.
  rewrite u64_now, Hf. done.
Qed.

Lemma locked_check es : locked T s p es → check_spec now s es = 0.
Proof.
  intros (e & He & _ & Hl). pose proof (first_elem _ _ _ He) as [_ Hm].
  unfold first_of in He. unfold check_spec. destruct (find_first (mac_is s) es) as [[[? x] ?]|]; [|done].
  injection He as ->. rewrite u64_now. by destruct (locked_usable e Hm Hl) as [_ ->].
Qed.

(** Lookups keep the lock. *)
Lemma locked_lookup Mac es : locked T s p es → locked T s p (found_spec now Mac es).1.
Proof.
  intros Hl. unfold found_spec. rewrite u64_now.
  destruct (find_first (usable now Mac) es) as [[[pre x] post]|] eqn:E; [|done]. cbn [fst].
  destruct (_ && _); [|done]. destruct (locked_find es Hl) as (pre' & e & post' & Hf & He & _ & Hpe & Hle).
  exists e. split; [|done]. destruct (decide (Mac = s)) as [->|Hne].
  - rewrite E in Hf. injection Hf as -> -> ->. apply find_first_split in E as (_ & Hu & _).
    rewrite first_cons. unfold usable in Hu. apply andb_true_iff in Hu as [-> _]. done.
  - apply find_first_split in E as (-> & Hu & _). unfold usable in Hu. apply andb_true_iff in Hu as [Hm _].
    apply mac_is_eq in Hm. assert (mac_is s x = false) as Hx.
    { apply not_true_iff_false. rewrite mac_is_eq. congruence. }
    rewrite first_app, first_cons, Hx in He. by rewrite first_cons, Hx, first_app.
Qed.

(** Updating the entry of another address keeps the lock. *)
Lemma locked_other f Mac es :
  Mac ≠ s → (∀ e, me_mac (f e) = me_mac e) → locked T s p es →
  locked T s p (update_spec f (mac_is Mac) es).
Proof.
  intros Hne Hf Hl. unfold update_spec.
  destruct (find_first (mac_is Mac) es) as [[[pre x] post]|] eqn:E; [|done].
  apply find_first_split in E as (-> & Hm%mac_is_eq & _). destruct Hl as (e & He & Hl).
  exists e. split; [|done]. assert (∀ y, me_mac y = Mac → mac_is s y = false) as Hs.
  { intros y Hy. apply not_true_iff_false. rewrite mac_is_eq. congruence. }
  rewrite first_app, first_cons, Hs in He by done. rewrite first_app, first_cons, Hs; [done|].
  by rewrite Hf.
Qed.

Lemma raise_mac e m : me_mac (raise_time e m) = me_mac e.
Proof. unfold raise_time. by destruct (_ <? _). Qed.

(** So does raising the expiry time of any address. *)
Lemma locked_refresh Mac time es : locked T s p es → locked T s p (refresh_spec now Mac time es).
Proof.
  intros Hl. unfold refresh_spec. destruct (decide (Mac = s)) as [->|Hne].
  - unfold update_spec. destruct Hl as (e & He & Hpe & Hl).
    destruct (find_first (mac_is s) es) as [[[pre x] post]|] eqn:E; [|by exists e].
    unfold first_of in He. rewrite E in He. injection He as ->.
    apply find_first_split in E as (_ & Hm & Hpre).
    exists (raise_time e (expiry now time)). rewrite first_app.
    assert (first_of s pre = None) as -> by (unfold first_of; by rewrite (proj2 (find_first_none _ _) Hpre)).
    rewrite first_cons. rewrite (proj2 (mac_is_eq s _)) by (rewrite raise_mac; by apply mac_is_eq).
    split; [done|]. unfold raise_time. destruct (Z.ltb_spec (me_time_entry e) (expiry now time)); simpl; [|done].
    split; [done|]. destruct Hl; [by left|right; lia].
  - apply locked_other; [done| |done]. intros. apply raise_mac.
Qed.

Lemma locked_move Mac port time es :
  Mac ≠ s → locked T s p es → locked T s p (move_spec now Mac port time es).
Proof. intros. apply locked_other; [done| |done]. intros. by rewrite raise_mac. Qed.

Lemma locked_learn nes f time es :
  fr_eth_src f ≠ s → locked T s p es → locked T s p (learn_entry now nes f time :: es).
Proof.
  intros Hne (e & He & Hl). exists e. split; [|done]. rewrite first_cons.
  destruct (mac_is s (learn_entry now nes f time)) eqn:E; [|done]. by apply mac_is_eq in E.
Qed.

(** One frame keeps the lock, whatever it is; a broadcast from the address on
    another port is destroyed, and a unicast to the address leaves by its port. *)
Lemma locked_step nes es f :
  locked T s p es →
  locked T s p (arp_spec now nes es f).1 ∧
  (fr_eth_src f = s → is_bcast f = true → fr_in_port f ≠ p → (arp_spec now nes es f).2 = [ADestroy]) ∧
  (fr_eth_dst f = s → is_bcast f = false → (arp_spec now nes es f).2 = [AOutput p]).
Proof.
  intros Hl. unfold arp_spec. pose proof (locked_lookup (fr_eth_src f) es Hl) as Hl1.
  assert (fr_eth_src f = s → (found_spec now (fr_eth_src f) es).2 = p) as Hsrc.
  { intros ->. by apply locked_found. }
  destruct (found_spec now (fr_eth_src f) es) as [es1 port]. cbn [fst snd] in *.
  destruct (is_bcast f).
  - split; [|split; [|done]].
    + destruct (Z.eqb_spec port (-1)) as [->|_].
      { apply locked_learn; [|done]. intros Hs. specialize (Hsrc Hs). lia. }
      destruct (Z.eqb_spec port (fr_in_port f)) as [->|Hne]; [by apply locked_refresh|].
      destruct (decide (fr_eth_src f = s)) as [Hs|Hs].
      * rewrite Hs, locked_check by done. done.
      * destruct (negb _); [by apply locked_move|done].
    + intros Hs _ Hne. rewrite (Hsrc Hs). rewrite (proj2 (Z.eqb_neq p (-1))) by lia.
      rewrite (proj2 (Z.eqb_neq p _)) by congruence. rewrite Hs, locked_check by done. done.
  - assert (locked T s p (if learns f then learn_spec now nes es1 f port else es1)) as Hl2.
    { destruct (learns f); [|done]. unfold learn_spec.
      destruct (Z.eqb_spec port (-1)) as [->|_].
      { apply locked_learn; [|done]. intros Hs. specialize (Hsrc Hs). lia. }
      destruct (decide (fr_eth_src f = s)) as [Hs|Hs].
      - rewrite Hs, locked_check by done. simpl. by apply locked_refresh.
      - destruct (_ =? 1); [by apply locked_move|by apply locked_refresh]. }
    pose proof (locked_lookup (fr_eth_dst f) _ Hl2) as Hl3.
    assert (fr_eth_dst f = s → (found_spec now (fr_eth_dst f)
              (if learns f then learn_spec now nes es1 f port else es1)).2 = p) as Hdst.
    { intros ->. by apply locked_found. }
    destruct (found_spec now (fr_eth_dst f) _) as [es3 out]. cbn [fst snd] in *. unfold unicast_spec.
    split; [destruct (out =? -1); [done|by apply locked_refresh]|split; [done|]].
    intros Hd _. rewrite (Hdst Hd). by rewrite (proj2 (Z.eqb_neq p (-1))) by lia.
Qed.

End lock.

(** A sequence of frames, each with its arrival time. *)
Fixpoint arp_run (nt t : mac_to_port) (evs : list (Z * arp_frame)) : option (mac_to_port * list (list arp_out)) :=
  match evs with
  | [] => Some (t, [])
  | (now, f) :: evs =>
    '(t, out) ← pipeline_arp_path now nt t f;
    '(t, outs) ← arp_run nt t evs;
    Some (t, out :: outs)
  end.

(** What the lock promises about one frame. *)
Definition obeys (s : list Z) (p : Z) (f : arp_frame) (out : list arp_out) : Prop :=
  (fr_eth_src f = s → is_bcast f = true → fr_in_port f ≠ p → out = [ADestroy]) ∧
  (fr_eth_dst f = s → is_bcast f = false → out = [AOutput p]).

Lemma run_locked nt nes T s p evs t es :
  repr true nt nes → repr true t es → locked T s p es → 0 <= p →
  Forall (λ ev, fits 64 ev.1 ∧ ev.1 < T) evs →
  ∃ t' es' outs, arp_run nt t evs = Some (t', outs) ∧ repr true t' es' ∧ locked T s p es' ∧
    Forall2 (λ ev out, obeys s p ev.2 out) evs outs.
Proof.
  intros Hn Hr Hl Hp Hev. revert t es Hr Hl. induction Hev as [|[now f] evs [H64 HT] _ IH]; intros t es Hr Hl.
  { by exists t, es, []. }
  cbn [arp_run fst snd] in *. destruct (arp_ref nt nes t es now f Hn Hr) as (t1 & -> & Hr1).
  destruct (locked_step T s p now H64 HT Hp nes es f Hl) as (Hl1 & Ho).
  cbn [mbind option_bind]. destruct (IH t1 _ Hr1 Hl1) as (t' & es' & outs & -> & Hr' & Hl' & Hf).
  cbn [mbind option_bind]. exists t', es', ((arp_spec now nes es f).2 :: outs). split_and!; try done.
  by constructor.
Qed.

(** A broadcast from an address the table does not know locks it. *)
Lemma first_broadcast nes es now f :
  first_of (fr_eth_src f) es = None → is_bcast f = true → fits 64 (now + BT_TIME * 1000) →
  locked (now + BT_TIME * 1000) (fr_eth_src f) (u16 (fr_in_port f)) (arp_spec now nes es f).1 ∧
  (arp_spec now nes es f).2 = [AOutput OFPP_RANDOM].
Proof.
  intros Hf Hb H64. unfold arp_spec, found_spec.
  assert (find_first (usable (u64 now) (fr_eth_src f)) es = None) as ->.
  { unfold first_of in Hf. destruct (find_first (mac_is (fr_eth_src f)) es) as [[[? ?] ?]|] eqn:E; [done|].
    apply find_first_none in E. apply find_first_none. eapply Forall_impl; [|exact E].
    intros y Hy. unfold usable. by rewrite Hy. }
  rewrite Hb. simpl. split; [|done]. exists (learn_entry now nes f BT_TIME). rewrite first_cons.
  rewrite (proj2 (mac_is_eq _ _)) by done. split; [done|]. split; [done|]. right. simpl. unfold expiry, u64.
  rewrite wrap_small by done. lia.
Qed.

(** * Properties *)

(** C16: the ARP-Path handler over the linked table refines the same handler over
    the list of its entries: for every frame it terminates, follows no bad
    pointer, leaves a well-formed table with exactly the entries that the list
    handler leaves, and treats the frame the same way. *)
Theorem pipeline_arp_path_refines (nt t : mac_to_port) (nes es : list mac_entry) (now : Z) (f : arp_frame)
    (Hn : repr true nt nes) (Hr : repr true t es) :
  ∃ t', pipeline_arp_path now nt t f = Some (t', (arp_spec now nes es f).2) ∧
        repr true t' (arp_spec now nes es f).1.
Proof. by apply arp_ref. Qed.

Definition ex_bcast (src port : Z) : arp_frame :=
  Frame port [0xff; 0xff; 0xff; 0xff; 0xff; 0xff] [0; 0; 0; 0; 0; src] 1544 (Some 256) false.

Lemma pipeline_arp_path_witness :
  ∃ t', pipeline_arp_path 1000 mac_to_port_new mac_to_port_new (ex_bcast 1 3) = Some (t', [AOutput OFPP_RANDOM]) ∧
        repr true t' [MacEntry [0; 0; 0; 0; 0; 1] 3 1 16000].
Proof. exact (pipeline_arp_path_refines _ _ [] [] 1000 (ex_bcast 1 3) mac_new_repr mac_new_repr). Defined.

(** C1: the first copy of a broadcast decides the path.  A broadcast frame of an
    address that is not in the table is flooded and binds the address to the port
    it came from; then, whatever frames the switch handles in the following 15
    seconds, in any number and order, (1) the binding stays, (2) a broadcast of
    that address on any other port is destroyed, so no copy loops back, and (3) a
    unicast frame to the address leaves by the port of the first copy. *)
Theorem arp_path_first_port_wins (nt t : mac_to_port) (nes es : list mac_entry) (now : Z) (f : arp_frame)
    (evs : list (Z * arp_frame))
    (Hn : repr true nt nes) (Hr : repr true t es)
    (Hnew : first_of (fr_eth_src f) es = None) (Hb : is_bcast f = true)
    (H64 : fits 64 (now + BT_TIME * 1000)) (Hport : fits 16 (fr_in_port f))
    (Hev : Forall (λ ev, fits 64 ev.1 ∧ ev.1 < now + BT_TIME * 1000) evs) :
  ∃ t1 t2 es2 outs,
    pipeline_arp_path now nt t f = Some (t1, [AOutput OFPP_RANDOM]) ∧
    arp_run nt t1 evs = Some (t2, outs) ∧ repr true t2 es2 ∧
    locked (now + BT_TIME * 1000) (fr_eth_src f) (fr_in_port f) es2 ∧
    Forall2 (λ ev out, obeys (fr_eth_src f) (fr_in_port f) ev.2 out) evs outs.
Proof.
  destruct (arp_ref nt nes t es now f Hn Hr) as (t1 & H1 & Hr1).
  destruct (first_broadcast nes es now f Hnew Hb H64) as [Hl Ho].
  unfold u16 in Hl. rewrite (wrap_small 16) in Hl by done. rewrite Ho in H1.
  destruct (run_locked nt nes _ _ _ evs t1 _ Hn Hr1 Hl ltac:(unfold fits in *; lia) Hev)
    as (t2 & es2 & outs & H2 & Hr2 & Hl2 & Hf).
  by exists t1, t2, es2, outs.
Qed.

Definition ex_unicast (dst port : Z) : arp_frame :=
  Frame port [0; 0; 0; 0; 0; dst] [0; 0; 0; 0; 0; 9] 8 None false.

Lemma arp_path_first_port_witness :
  ∃ t1 t2 es2 outs,
    pipeline_arp_path 1000 mac_to_port_new mac_to_port_new (ex_bcast 1 3) = Some (t1, [AOutput OFPP_RANDOM]) ∧
    arp_run mac_to_port_new t1 [(1200, ex_bcast 1 5); (1500, ex_unicast 1 7)] = Some (t2, outs) ∧
    repr true t2 es2 ∧ locked 16000 [0; 0; 0; 0; 0; 1] 3 es2 ∧
    Forall2 (λ ev out, obeys [0; 0; 0; 0; 0; 1] 3 ev.2 out) [(1200, ex_bcast 1 5); (1500, ex_unicast 1 7)] outs.
Proof.
  apply (arp_path_first_port_wins _ _ [] [] 1000 (ex_bcast 1 3) _ mac_new_repr mac_new_repr);
    [reflexivity|reflexivity|by_eval|by_eval|].
  repeat constructor; vm_compute; congruence.
Defined.
