(* ===== verification/Group.v ===== *)
(** Groups: udatapath/group_entry.c, udatapath/group_table.c and the action
    validation of udatapath/dp_actions.c.

    A group table is a finite map from ids to entries (the hash map is keyed by
    the id itself) with the two counters.  Deleting a group removes the flows that
    refer to it: the handlers return those flows, for the flow tables to remove.
    [is_loop_free] runs on explicit work lists with fuel; the fuel is twice the
    number of group ids in play, and is shown to be enough. *)

From stdpp Require Import relations.
From S2P Require Import Prelude OpenFlow.

Definition GROUP_TABLE_MAX_ENTRIES := 4096.
Definition GROUP_TABLE_MAX_BUCKETS := 8192.
Definition OFPGT_ALL := 0.
Definition OFPGT_SELECT := 1.
Definition OFPGT_INDIRECT := 2.
Definition OFPGT_FF := 3.

Record ofl_bucket := Bucket {
  b_weight : Z;
  b_watch_port : Z;
  b_watch_group : Z;
  b_actions : list ofl_action }.

Inductive group_command := OFPGC_ADD | OFPGC_MODIFY | OFPGC_DELETE | OFPGC_other (command : Z).

Record ofl_msg_group_mod := GroupMod {
  gm_command : group_command;
  gm_type : Z;
  gm_group_id : Z;
  gm_buckets : list ofl_bucket }.

(** [struct group_entry_wrr_data]; [curr_bucket] starts as [(size_t) -1] *)
Record group_entry_wrr_data := Wrr {
  max_weight : Z;
  gcd_weight : Z;
  curr_weight : Z;
  curr_bucket : Z }.

Record group_entry := GroupEntry {
  ge_type : Z;
  ge_group_id : Z;
  ge_buckets : list ofl_bucket;
  ge_ref_count : Z;
  ge_packet_count : Z;
  ge_byte_count : Z;
  ge_counters : list (Z * Z);      (* packet and byte count of each bucket *)
  ge_data : option group_entry_wrr_data;
  ge_flow_refs : list positive }.

Record group_table := GroupTable {
  gt_entries : gmap Z group_entry;
  gt_entries_num : Z;
  gt_buckets_num : Z }.

(** * Weighted round robin *)

Fixpoint gcd_loop (n : nat) (a b : Z) : Z :=
  match n with
  | O => b
  | S n => if a =? 0 then b else gcd_loop n (u16 (b mod a)) a
  end.

(** The first argument shrinks in every turn. *)
Definition gcd (a b : Z) : Z := gcd_loop (S (Z.to_nat a)) a b.

Definition init_select_group (buckets : list ofl_bucket) : group_entry_wrr_data :=
  match buckets with
  | [] => Wrr 0 0 0 (2 ^ 64 - 1)
  | b0 :: bs =>
    let '(g, m) := foldl (λ gm b, (gcd gm.1 (b_weight b), Z.max gm.2 (b_weight b))) (b_weight b0, b_weight b0) bs in
    Wrr m g 0 (2 ^ 64 - 1)
  end.

(** One turn of the while loop: the next bucket, and the next weight when the
    first bucket comes round. *)
Definition wrr_next (n : Z) (d : group_entry_wrr_data) : group_entry_wrr_data :=
  let cb := u64 (curr_bucket d + 1) mod n in
  let cw := if cb =? 0 then
              if curr_weight d <=? gcd_weight d then max_weight d else u16 (curr_weight d - gcd_weight d)
            else curr_weight d in
  Wrr (max_weight d) (gcd_weight d) cw cb.

Fixpoint select_loop (guard : nat) (buckets : list ofl_bucket) (d : group_entry_wrr_data) :
    group_entry_wrr_data * Z :=
  match guard with
  | O => (d, -1)
  | S guard =>
    let d := wrr_next (Z.of_nat (length buckets)) d in
    match buckets !! Z.to_nat (curr_bucket d) with
    | Some b => if curr_weight d <=? b_weight b then (d, curr_bucket d)
                else select_loop guard buckets d
    | None => (d, -1)
    end
  end.

Definition select_from_select_group (buckets : list ofl_bucket) (d : group_entry_wrr_data) :
    group_entry_wrr_data * Z :=
  match buckets with
  | [] => (d, -1)
  | _ => select_loop (length buckets) buckets d
  end.

(** [bucket_is_alive], given the configuration and state of the ports; [None]
    when the watched port does not exist and is followed all the same. *)
Definition bucket_is_alive (port_lookup : Z → option (Z * Z)) (b : ofl_bucket) : option bool :=
  if b_watch_port b =? OFPP_ANY then Some false
  else match port_lookup (b_watch_port b) with
       | None => None
       | Some (config, state) =>
         Some (negb (truthy (Z.land config 1) || truthy (Z.land state 1)))
       end.

Fixpoint select_from_ff_group (port_lookup : Z → option (Z * Z)) (buckets : list ofl_bucket) (i : Z) : option Z :=
  match buckets with
  | [] => Some (-1)
  | b :: bs =>
    match bucket_is_alive port_lookup b with
    | None => None
    | Some true => Some i
    | Some false => select_from_ff_group port_lookup bs (i + 1)
    end
  end.

(** * Entries *)

Definition group_entry_create (mod_ : ofl_msg_group_mod) : group_entry :=
  GroupEntry (gm_type mod_) (gm_group_id mod_) (gm_buckets mod_) 0 0 0
    (replicate (length (gm_buckets mod_)) (0, 0))
    (if gm_type mod_ =? OFPGT_SELECT then Some (init_select_group (gm_buckets mod_)) else None) [].

Definition has_flow_ref (entry : group_entry) (fe : positive) : bool :=
  bool_decide (fe ∈ ge_flow_refs entry).

Definition set_refs (entry : group_entry) (refs : list positive) (count : Z) : group_entry :=
  GroupEntry (ge_type entry) (ge_group_id entry) (ge_buckets entry) count (ge_packet_count entry)
    (ge_byte_count entry) (ge_counters entry) (ge_data entry) refs.

Definition group_entry_add_flow_ref (entry : group_entry) (fe : positive) : group_entry :=
  if has_flow_ref entry fe then entry
  else set_refs entry (ge_flow_refs entry ++ [fe]) (u32 (ge_ref_count entry + 1)).

(** Every node with the flow goes, and each one decreases the counter. *)
Definition group_entry_del_flow_ref (entry : group_entry) (fe : positive) : group_entry :=
  let gone := filter (λ f, f = fe) (ge_flow_refs entry) in
  set_refs entry (filter (λ f, f ≠ fe) (ge_flow_refs entry))
    (u32 (ge_ref_count entry - Z.of_nat (length gone))).

Definition dp_actions_list_has_out_group (actions : list ofl_action) (group : Z) : bool :=
  existsb (λ a, match a with ActGroup g => g =? group | _ => false end) actions.

Definition dp_actions_list_has_out_port (actions : list ofl_action) (port : Z) : bool :=
  existsb (λ a, match a with ActOutput p _ => p =? port | _ => false end) actions.

Definition group_entry_has_out_group (entry : group_entry) (group_id : Z) : bool :=
  existsb (λ b, dp_actions_list_has_out_group (b_actions b) group_id) (ge_buckets entry).

(** * The table *)

Definition group_table_create : group_table := GroupTable ∅ 0 0.

Definition group_table_find (table : group_table) (group_id : Z) : option group_entry :=
  gt_entries table !! group_id.

(** Output actions must name an existing port and group actions an existing
    group; the reserved numbers pass. *)
Fixpoint dp_actions_validate (port_exists : Z → bool) (groups : group_table) (actions : list ofl_action) : Z :=
  match actions with
  | [] => 0
  | a :: rest =>
    match a with
    | ActOutput port _ =>
      if (port <=? OFPP_MAX) && negb (port_exists port) then ofl_error OFPET_BAD_ACTION 4
      else dp_actions_validate port_exists groups rest
    | ActGroup group_id =>
      if (group_id <=? OFPG_MAX) && negb (bool_decide (is_Some (group_table_find groups group_id)))
      then ofl_error OFPET_BAD_ACTION 9
      else dp_actions_validate port_exists groups rest
    | _ => dp_actions_validate port_exists groups rest
    end
  end.

Definition group_table_add (table : group_table) (mod_ : ofl_msg_group_mod) : group_table * Z :=
  if bool_decide (is_Some (gt_entries table !! gm_group_id mod_)) then
    (table, ofl_error OFPET_GROUP_MOD_FAILED 0)
  else if gt_entries_num table =? GROUP_TABLE_MAX_ENTRIES then
    (table, ofl_error OFPET_GROUP_MOD_FAILED 3)
  else if GROUP_TABLE_MAX_BUCKETS <? u64 (gt_buckets_num table + Z.of_nat (length (gm_buckets mod_))) then
    (table, ofl_error OFPET_GROUP_MOD_FAILED 4)
  else
    (GroupTable (<[gm_group_id mod_ := group_entry_create mod_]> (gt_entries table))
       (u64 (gt_entries_num table + 1)) (u64 (gt_buckets_num table + Z.of_nat (length (gm_buckets mod_)))), 0).

(** ** Loop detection *)

(** The groups the actions of some buckets refer to, in order. *)
Definition bucket_groups (buckets : list ofl_bucket) : list Z :=
  b ← buckets; omap (λ a, match a with ActGroup g => Some g | _ => None end) (b_actions b).

(** [is_loop_free_visit]: the groups met that are in neither list are appended to
    the second. *)
Definition is_loop_free_visit (buckets : list ofl_bucket) (visited to_be_visited : list Z) : list Z :=
  foldl (λ tbv g, if bool_decide (g ∈ visited) || bool_decide (g ∈ tbv) then tbv else tbv ++ [g])
    to_be_visited (bucket_groups buckets).

Fixpoint loop_free_loop (n : nat) (table : group_table) (group_id : Z) (visited to_be_visited : list Z) :
    option bool :=
  match to_be_visited with
  | [] => Some true
  | gv :: rest =>
    if bool_decide (group_id ∈ to_be_visited) then Some false
    else match n with
         | O => None
         | S n =>
           let tbv := match group_table_find table gv with
                      | Some entry => is_loop_free_visit (ge_buckets entry) visited rest
                      | None => rest
                      end in
           loop_free_loop n table group_id (visited ++ [gv]) tbv
         end
  end.

(** All group ids that occur in actions of the table or of the message. *)
Definition all_refs (table : group_table) (mod_ : ofl_msg_group_mod) : list Z :=
  bucket_groups (gm_buckets mod_) ++
  (map_to_list (gt_entries table) ≫= λ ge, bucket_groups (ge_buckets ge.2)).

Definition is_loop_free (table : group_table) (mod_ : ofl_msg_group_mod) : option bool :=
  loop_free_loop (2 * length (all_refs table mod_)) table (gm_group_id mod_) []
    (is_loop_free_visit (gm_buckets mod_) [] []).

Definition group_table_modify (table : group_table) (mod_ : ofl_msg_group_mod) : option (group_table * Z) :=
  match group_table_find table (gm_group_id mod_) with
  | None => Some (table, ofl_error OFPET_GROUP_MOD_FAILED 8)
  | Some entry =>
    let buckets := u64 (u64 (gt_buckets_num table - Z.of_nat (length (ge_buckets entry))) +
                        Z.of_nat (length (gm_buckets mod_))) in
    if GROUP_TABLE_MAX_BUCKETS <? buckets then Some (table, ofl_error OFPET_GROUP_MOD_FAILED 4)
    else
      free ← is_loop_free table mod_;
      if negb free then Some (table, ofl_error OFPET_GROUP_MOD_FAILED 7)
      else
        (* the flow references move to the new entry; its counter starts at 0 *)
        let new_entry := set_refs (group_entry_create mod_) (ge_flow_refs entry) 0 in
        Some (GroupTable (<[gm_group_id mod_ := new_entry]> (gt_entries table)) (gt_entries_num table) buckets, 0)
  end.

(** The third component lists the flows whose group is gone.  For [OFPG_ALL] the code empties
    the hash map only after it has destroyed all entries; what the flows that are removed in
    between may find there is told apart in [Pipeline.walks_freed]. *)
Definition group_table_delete (table : group_table) (mod_ : ofl_msg_group_mod) :
    group_table * Z * list positive :=
  if gm_group_id mod_ =? OFPG_ALL then
    (group_table_create, 0, map_to_list (gt_entries table) ≫= λ ge, ge_flow_refs ge.2)
  else
    match group_table_find table (gm_group_id mod_) with
    | None => (table, 0, [])
    | Some entry =>
      if existsb (λ ge, group_entry_has_out_group ge.2 (ge_group_id entry)) (map_to_list (gt_entries table))
      then (table, ofl_error OFPET_GROUP_MOD_FAILED 5, [])
      else (GroupTable (delete (gm_group_id mod_) (gt_entries table)) (u64 (gt_entries_num table - 1))
              (u64 (gt_buckets_num table - Z.of_nat (length (ge_buckets entry)))), 0, ge_flow_refs entry)
    end.

Fixpoint validate_buckets (port_exists : Z → bool) (table : group_table) (bs : list ofl_bucket) : Z :=
  match bs with
  | [] => 0
  | b :: bs => let error := dp_actions_validate port_exists table (b_actions b) in
               if error =? 0 then validate_buckets port_exists table bs else error
  end.

Definition group_table_handle_group_mod (port_exists : Z → bool) (slave : bool) (table : group_table)
    (mod_ : ofl_msg_group_mod) : option (group_table * Z * list positive) :=
  if slave then Some (table, ofl_error OFPET_BAD_REQUEST 10, [])
  else
    let error := validate_buckets port_exists table (gm_buckets mod_) in
    if negb (error =? 0) then Some (table, error, [])
    else match gm_command mod_ with
         | OFPGC_ADD => Some (group_table_add table mod_, [])
         | OFPGC_MODIFY => r ← group_table_modify table mod_; Some (r, [])
         | OFPGC_DELETE => Some (group_table_delete table mod_)
         | OFPGC_other _ => Some (table, ofl_error OFPET_BAD_REQUEST 1, [])
         end.

(** * Weighted round robin: lemmas *)

Lemma gcd_loop_spec n a b : fits 16 a → fits 16 b → a < Z.of_nat n → gcd_loop n a b = Z.gcd a b.
Proof.
  revert a b. induction n as [|n IH]; intros a b Ha Hb Hn; [unfold fits in *; lia|]. simpl.
  destruct (Z.eqb_spec a 0) as [->|Hne].
  - rewrite Z.gcd_0_l. unfold fits in Hb. lia.
  - unfold fits in *. pose proof (Z.mod_pos_bound b a ltac:(lia)).
    unfold u16. rewrite wrap_small by (unfold fits; lia).
    rewrite IH by (unfold fits; lia). by rewrite Z.gcd_mod.
Qed.

Lemma gcd_spec a b : fits 16 a → fits 16 b → gcd a b = Z.gcd a b.
Proof. intros Ha Hb. apply gcd_loop_spec; [done..|]. unfold fits in Ha. lia. Qed.

(** What [init_select_group] computes. *)
Record wrr_ok (ws : list Z) (g m : Z) : Prop := {
  wo_div : Forall (λ w, (g | w)) ws;
  wo_max : Forall (λ w, w <= m) ws;
  wo_in : m ∈ ws;
  wo_pos : 0 <= g ∧ (0 < m ↔ 0 < g) }.

Lemma init_fold bs g m ws :
  fits 16 g → Forall (λ b, fits 16 (b_weight b)) bs → Forall (fits 16) ws → wrr_ok ws g m →
  let r := foldl (λ gm b, (gcd gm.1 (b_weight b), Z.max gm.2 (b_weight b))) (g, m) bs in
  fits 16 r.1 ∧ wrr_ok (ws ++ (b_weight <$> bs)) r.1 r.2.
Proof.
  revert g m ws. induction bs as [|b bs IH]; intros g m ws Hg Hbs Hws Hok; simpl.
  { by rewrite app_nil_r. }
  apply Forall_cons_1 in Hbs as [Hb Hbs]. rewrite cons_middle, app_assoc. rewrite gcd_spec by done.
  destruct Hok as [Hd Hm Hi [H0 Hp]].
  assert (fits 16 (Z.gcd g (b_weight b))) as Hgf.
  { unfold fits in *. pose proof (Z.gcd_nonneg g (b_weight b)).
    destruct (decide (g = 0)) as [->|]; [rewrite Z.gcd_0_l; lia|].
    pose proof (Z.divide_pos_le _ g ltac:(lia) (Z.gcd_divide_l g (b_weight b))). lia. }
  apply IH; [done|done|by apply Forall_app; auto|]. split.
  - apply Forall_app. split; [|repeat constructor; apply Z.gcd_divide_r].
    eapply Forall_impl; [|exact Hd]. intros w Hw. etrans; [apply Z.gcd_divide_l|done].
  - apply Forall_app. split; [eapply Forall_impl; [|exact Hm]; simpl; lia|]. repeat constructor. lia.
  - apply elem_of_app. destruct (Z.max_spec m (b_weight b)) as [[_ ->]|[_ ->]]; set_solver.
  - pose proof (Z.gcd_nonneg g (b_weight b)). pose proof (Z.gcd_eq_0 g (b_weight b)). unfold fits in *. lia.
Qed.

Lemma init_ok buckets :
  buckets ≠ [] → Forall (λ b, fits 16 (b_weight b)) buckets →
  let d := init_select_group buckets in
  wrr_ok (b_weight <$> buckets) (gcd_weight d) (max_weight d) ∧ curr_weight d = 0 ∧ curr_bucket d = 2 ^ 64 - 1.
Proof.
  intros Hne Hb. destruct buckets as [|b0 bs]; [done|]. apply Forall_cons_1 in Hb as [H0 Hb]. simpl.
  pose proof (init_fold bs (b_weight b0) (b_weight b0) [b_weight b0] H0 Hb (Forall_cons_2 _ _ _ H0 (Forall_nil_2 _))) as Hf.
  destruct (foldl _ _ bs) as [g m]. simpl in *. split; [|done]. apply Hf. unfold fits in H0.
  split; [repeat constructor; done|repeat constructor; lia|set_solver|lia].
Qed.

Lemma select_nonempty buckets d :
  (0 < length buckets)%nat → select_from_select_group buckets d = select_loop (length buckets) buckets d.
Proof. destruct buckets; simpl; [lia|done]. Qed.

(** ** Rounds

    An abstract scan: states [st t] reached one after the other, some of them
    selected.  Calling "advance to the next selected state" repeatedly visits
    exactly the selected states, in order. *)
Section rounds.
  Context (buckets : list ofl_bucket) (n : nat) (st : nat → group_entry_wrr_data).
  Context (Hn : n = length buckets).
  Context (Hnext : ∀ t, wrr_next (Z.of_nat n) (st t) = st (S t)).
  Context (Hcb : ∀ t, 0 <= curr_bucket (st t) < Z.of_nat n).

Definition selb (t : nat) : bool :=
  match buckets !! Z.to_nat (curr_bucket (st t)) with
  | Some b => curr_weight (st t) <=? b_weight b
  | None => false
  end.

Context (Hwin : ∀ t, ∃ i, (i < n)%nat ∧ selb (t + i) = true).

Lemma select_next guard d t t' :
  wrr_next (Z.of_nat n) d = st t → (t ≤ t' < t + guard)%nat →
  (∀ i, (t ≤ i < t')%nat → selb i = false) → selb t' = true →
  select_loop guard buckets d = (st t', curr_bucket (st t')).
Proof using Hn Hnext Hcb.
  revert d t. induction guard as [|guard IH]; intros d t Hd Ht Hno Hsel; [lia|].
  cbn [select_loop]. rewrite <- Hn, Hd. destruct (decide (t = t')) as [->|Hne].
  - unfold selb in Hsel. destruct (buckets !! Z.to_nat (curr_bucket (st t'))) as [b|]; [|done]. by rewrite Hsel.
  - specialize (Hno t ltac:(lia)) as Hnt. unfold selb in Hnt.
    destruct (buckets !! Z.to_nat (curr_bucket (st t))) as [b|] eqn:Eb.
    + rewrite Hnt. apply IH with (t := S t); [apply Hnext|lia| |done]. intros i Hi. apply Hno. lia.
    + apply lookup_ge_None in Eb. specialize (Hcb t). lia.
Qed.

(** The first selected state from [t] on is less than [n] steps away. *)
Lemma first_selected t : ∃ t', (t ≤ t' < t + n)%nat ∧ selb t' = true ∧ ∀ i, (t ≤ i < t')%nat → selb i = false.
Proof using Hn Hwin.
  destruct (Hwin t) as (i & Hi & Hsel).
  assert (∀ k, (∃ t', (t ≤ t' < t + k)%nat ∧ selb t' = true ∧ ∀ j, (t ≤ j < t')%nat → selb j = false) ∨
               (∀ j, (t ≤ j < t + k)%nat → selb j = false)) as Hk.
  { induction k as [|k [IH|IH]]; [right; lia| |].
    - left. destruct IH as (t' & ? & ? & ?). exists t'. split_and!; [lia|lia|done|done].
    - destruct (selb (t + k)) eqn:E.
      + left. exists (t + k)%nat. split_and!; [lia|lia|done|]. intros j Hj. apply IH. lia.
      + right. intros j Hj. destruct (decide (j = (t + k)%nat)) as [->|]; [done|]. apply IH. lia. }
  destruct (Hk n) as [H|H]; [done|]. by rewrite H in Hsel by lia.
Qed.

(** Calling select repeatedly. *)
Fixpoint select_run (k : nat) (d : group_entry_wrr_data) : list Z :=
  match k with
  | O => []
  | S k => let '(d, b) := select_from_select_group buckets d in b :: select_run k d
  end.

Lemma filter_none t k : (∀ i, (t ≤ i < t + k)%nat → selb i = false) → filter (λ i, selb i = true) (seq t k) = [].
Proof.
  revert t. induction k as [|k IH]; intros t H; [done|]. simpl. rewrite filter_cons, decide_False.
  - apply IH. intros i Hi. apply H. lia.
  - rewrite (H t) by lia. done.
Qed.

Lemma filter_seq_head t T t' :
  (t ≤ t' < T)%nat → selb t' = true → (∀ i, (t ≤ i < t')%nat → selb i = false) →
  filter (λ i, selb i = true) (seq t (T - t)) = t' :: filter (λ i, selb i = true) (seq (S t') (T - S t')).
Proof.
  intros Ht Hsel Hno. replace (T - t)%nat with ((t' - t) + S (T - S t'))%nat by lia.
  rewrite seq_app, list.filter_app. replace (t + (t' - t))%nat with t' by lia.
  rewrite filter_none by (intros i Hi; apply Hno; lia). simpl. by rewrite filter_cons, decide_True.
Qed.

Lemma run_visits d t T :
  wrr_next (Z.of_nat n) d = st t → (t ≤ T)%nat →
  select_run (length (filter (λ i, selb i = true) (seq t (T - t)))) d =
  (λ i, curr_bucket (st i)) <$> filter (λ i, selb i = true) (seq t (T - t)).
Proof using Hn Hnext Hcb Hwin.
  remember (T - t)%nat as k eqn:Hk. revert d t Hk. induction k as [k IH] using lt_wf_ind; intros d t Hk Hd HT.
  destruct (first_selected t) as (t' & Ht & Hsel & Hno).
  destruct (decide (t' < T)%nat) as [Hlt|Hge].
  - subst k. rewrite (filter_seq_head t T t') by (done || lia). cbn [length select_run].
    assert (select_from_select_group buckets d = (st t', curr_bucket (st t'))) as ->.
    { rewrite select_nonempty by lia. rewrite <- Hn. apply select_next with (t := t); done || lia. }
    rewrite fmap_cons. f_equal. apply IH; [lia|done|apply Hnext|lia].
  - subst k. rewrite filter_none; [done|]. intros i Hi. apply Hno. lia.
Qed.

End rounds.

(** ** Counting over blocks *)

Fixpoint countb {A} (P : A → bool) (l : list A) : nat :=
  match l with
  | [] => 0
  | x :: l => ((if P x then 1 else 0) + countb P l)%nat
  end.

Lemma countb_app {A} (P : A → bool) l k : countb P (l ++ k) = (countb P l + countb P k)%nat.
Proof. induction l as [|x l IH]; simpl; [done|]. rewrite IH. lia. Qed.

Lemma countb_ext {A} (P Q : A → bool) l : (∀ x, x ∈ l → P x = Q x) → countb P l = countb Q l.
Proof.
  induction l as [|x l IH]; intros H; simpl; [done|]. rewrite (H x), IH; [done| |]; set_solver.
Qed.

Lemma countb_filter_map {A B} (Q : A → bool) (f : A → B) (P : B → bool) l :
  countb P (f <$> filter (λ x, Q x = true) l) = countb (λ x, Q x && P (f x)) l.
Proof.
  induction l as [|x l IH]; [done|]. rewrite filter_cons. cbn [countb].
  case_decide as H; [rewrite fmap_cons; cbn [countb]|]; rewrite IH; destruct (Q x); done.
Qed.

Lemma countb_point (b : bool) s n j :
  (s ≤ j < s + n)%nat → countb (λ i, (i =? j)%nat && b) (seq s n) = if b then 1%nat else 0%nat.
Proof.
  destruct b; [|intros _; induction (seq s n) as [|x l IH]; simpl; [done|]; by rewrite andb_false_r].
  revert s. assert (∀ s n, (j < s)%nat → countb (λ i, (i =? j)%nat && true) (seq s n) = 0%nat) as H0.
  { intros s k. revert s. induction k as [|k IH]; intros s Hs; [done|]. simpl.
    destruct (Nat.eqb_spec s j); [lia|]. apply IH. lia. }
  induction n as [|n IH]; intros s Hs; [lia|]. simpl. destruct (Nat.eqb_spec s j) as [->|].
  - simpl. rewrite H0; lia.
  - apply IH. lia.
Qed.

(** One place in every block of [n]. *)
Lemma countb_blocks (Q : nat → bool) n j R :
  (j < n)%nat → countb (λ t, (t `mod` n =? j)%nat && Q (t / n)%nat) (seq 0 (n * R)) = countb Q (seq 0 R).
Proof.
  intros Hj. induction R as [|R IH]; [by rewrite Nat.mul_0_r|].
  replace (n * S R)%nat with (n * R + n)%nat by lia. rewrite seq_app, seq_S, !countb_app, IH. f_equal. simpl.
  rewrite Nat.add_0_r. rewrite <- (countb_point (Q R) (n * R) n (n * R + j)) by lia.
  apply countb_ext. intros t [Ht1 Ht2]%elem_of_seq. assert (t / n = R)%nat as ->.
  { symmetry. apply (Nat.div_unique _ _ _ (t - n * R)); lia. }
  f_equal. assert (t `mod` n = t - n * R)%nat as ->.
  { symmetry. apply (Nat.mod_unique _ _ R); lia. }
  destruct (Nat.eqb_spec (t - n * R) j), (Nat.eqb_spec t (n * R + j)); lia || done.
Qed.

(** A periodic predicate. *)
Lemma countb_periodic (Q : nat → bool) K C :
  (0 < K)%nat → countb (λ r, Q (r `mod` K)%nat) (seq 0 (K * C)) = (C * countb Q (seq 0 K))%nat.
Proof.
  intros HK. induction C as [|C IH]; [by rewrite Nat.mul_0_r|].
  replace (K * S C)%nat with (K * C + K)%nat by lia. rewrite seq_app, countb_app, IH. simpl.
  rewrite Nat.add_comm. f_equal. replace (seq (K * C) K) with (Nat.add (K * C) <$> seq 0 K) by (rewrite fmap_add_seq; f_equal; lia).
  assert (∀ l, (∀ x, x ∈ l → x < K)%nat → countb (λ r, Q (r `mod` K)%nat) (Nat.add (K * C) <$> l) = countb Q l) as H.
  { induction l as [|x l IHl]; intros Hl; [done|]. rewrite fmap_cons. cbn [countb].
    rewrite IHl by set_solver. f_equal.
    assert ((K * C + x) `mod` K = x)%nat as ->; [|done].
    symmetry. apply (Nat.mod_unique _ _ C); [apply Hl; set_solver|lia]. }
  apply H. intros x. rewrite elem_of_seq. lia.
Qed.

Lemma countb_tail K q : (q ≤ K)%nat → countb (λ r, (K - q <=? r)%nat) (seq 0 K) = q.
Proof.
  intros Hq. assert (seq 0 K = seq 0 (K - q) ++ seq (K - q) q) as ->.
  { change (seq (K - q) q) with (seq (0 + (K - q)) q). rewrite <- seq_app. f_equal. lia. }
  rewrite countb_app.
  rewrite (countb_ext _ (λ _, false)), (countb_ext _ (λ _, true) (seq (K - q) q)).
  - assert (∀ l : list nat, countb (λ _, false) l = 0%nat) as H by (by induction l).
    assert (∀ l : list nat, countb (λ _, true) l = length l) as H2 by (induction l; simpl; congruence).
    rewrite H, H2, length_seq. lia.
  - intros x. rewrite elem_of_seq. intros. apply Nat.leb_le. lia.
  - intros x. rewrite elem_of_seq. intros. apply Nat.leb_gt. lia.
Qed.

(** Every element below [n] is counted once. *)
Lemma length_countb (l : list Z) n :
  Forall (λ x, 0 <= x < Z.of_nat n) l →
  Z.of_nat (length l) = zsum ((λ j, Z.of_nat (countb (λ x, x =? Z.of_nat j) l)) <$> seq 0 n).
Proof.
  assert (∀ (f h : nat → Z) ks, zsum ((λ j, f j + h j) <$> ks) = zsum (f <$> ks) + zsum (h <$> ks)) as Hadd.
  { intros f h ks. induction ks as [|k ks IH]; [done|]. rewrite !fmap_cons, !zsum_cons, IH. lia. }
  assert (∀ x ks, NoDup ks → zsum ((λ j, if Z.of_nat x =? Z.of_nat j then 1 else 0) <$> ks) =
                             if decide (x ∈ ks) then 1 else 0) as Hone.
  { intros x ks. induction ks as [|k ks IH]; intros Hnd; [done|].
    apply list.NoDup_cons in Hnd as [Hk Hnd]. rewrite fmap_cons, zsum_cons, IH by done.
    destruct (Z.eqb_spec (Z.of_nat x) (Z.of_nat k)) as [->%Nat2Z.inj|Hne].
    - rewrite decide_False by done. rewrite decide_True by set_solver. done.
    - assert (x ≠ k) by (intros ->; done). repeat case_decide; done || set_solver. }
  induction l as [|x l IH]; intros Hl.
  - cbn [countb length]. induction (seq 0 n) as [|k ks IH]; [done|]. by rewrite fmap_cons, zsum_cons, <- IH.
  - apply Forall_cons_1 in Hl as [Hx Hl]. cbn [length countb].
    rewrite (list_fmap_ext _ (λ j, (if x =? Z.of_nat j then 1 else 0) + Z.of_nat (countb (λ y, y =? Z.of_nat j) l))).
    + rewrite Hadd, Nat2Z.inj_succ, IH by done. destruct (Z_of_nat_complete x) as [k ->]; [lia|]. rewrite Hone by apply NoDup_seq.
      rewrite decide_True by (apply elem_of_seq; lia). apply Z.add_comm.
    + intros _ j _. destruct (x =? Z.of_nat j); lia.
Qed.

Section wrr.
  Context (buckets : list ofl_bucket) (g m : Z).
  Context (Hws : Forall (λ b, fits 16 (b_weight b)) buckets).
  Context (Hok : wrr_ok (b_weight <$> buckets) g m).
  Context (Hlen : Z.of_nat (length buckets) < 2 ^ 64).
  Local Abbreviation n := (length buckets).
  Local Abbreviation K := (Z.to_nat (m / g)).

(** The state after [t + 1] turns of the loop. *)
Definition wrr_st (t : nat) : group_entry_wrr_data :=
  Wrr m g (m - Z.of_nat ((t / n) `mod` K) * g) (Z.of_nat (t `mod` n)).

Lemma wrr_bounds : fits 16 m ∧ (0 < n)%nat ∧ 0 <= g ∧ m = Z.of_nat K * g ∧ ((0 < K)%nat ∧ 0 < g ∨ m = 0 ∧ g = 0).
Proof using Hws Hok.
  destruct Hok as [Hd Hm Hi [H0 Hp]]. apply list_elem_of_fmap in Hi as (b & -> & Hb).
  rewrite Forall_fmap in Hd. rewrite list.Forall_forall in Hd, Hws. specialize (Hd b Hb). specialize (Hws b Hb).
  simpl in Hd. destruct Hd as [q Hq].
  split_and!; [done|apply list_elem_of_lookup in Hb as [i Hi]; apply lookup_lt_Some in Hi; lia|done| |].
  - unfold fits in Hws. destruct (decide (g = 0)) as [->|]; [rewrite Hq; lia|].
    rewrite Hq, Z.div_mul by done. rewrite Z2Nat.id; nia.
  - unfold fits in Hws. destruct (decide (g = 0)); [right; lia|left].
    rewrite Hq, Z.div_mul by done. nia.
Qed.

(** The weight goes down by [g] until it would reach 0, then starts again. *)
Lemma wrr_weight_step q :
  (if m - Z.of_nat (q `mod` K) * g <=? g then m else u16 (m - Z.of_nat (q `mod` K) * g - g)) =
  m - Z.of_nat (S q `mod` K) * g.
Proof using Hws Hok.
  destruct wrr_bounds as (Hm & _ & Hg & HK & [[HKp Hgp]|[Hm0 Hg0]]).
  - pose proof (Nat.mod_upper_bound q K ltac:(lia)) as Hr. pose proof (Nat.div_mod_eq q K) as Hq.
    set (k := K) in *. clearbody k. set (r := (q `mod` k)%nat) in *.
    destruct (decide (r + 1 = k)%nat) as [E|E].
    + assert (S q `mod` k = 0)%nat as -> by (symmetry; apply (Nat.mod_unique _ _ (S (q / k))); lia).
      destruct (Z.leb_spec (m - Z.of_nat r * g) g); nia.
    + assert (S q `mod` k = S r)%nat as -> by (symmetry; apply (Nat.mod_unique _ _ (q / k)); lia).
      destruct (Z.leb_spec (m - Z.of_nat r * g) g); [nia|].
      unfold u16. rewrite wrap_small; [lia|]. unfold fits in *. nia.
  - rewrite Hm0, Hg0, !Z.mul_0_r. done.
Qed.

Lemma wrr_step t : wrr_next (Z.of_nat n) (wrr_st t) = wrr_st (S t).
Proof using Hws Hok Hlen.
  destruct wrr_bounds as (Hm & Hn & Hg & HK & HKp). unfold wrr_next, wrr_st. cbn [curr_bucket curr_weight max_weight gcd_weight].
  pose proof (Nat.mod_upper_bound t n ltac:(lia)) as Hr. pose proof (Nat.div_mod_eq t n) as Ht.
  unfold u64. rewrite wrap_small by (unfold fits; lia).
  replace (Z.of_nat (t `mod` n) + 1) with (Z.of_nat (t `mod` n + 1)) by lia. rewrite <- Nat2Z.inj_mod.
  assert ((t `mod` n + 1) `mod` n = S t `mod` n)%nat as ->.
  { rewrite Nat.Div0.add_mod_idemp_l. f_equal. lia. }
  destruct (decide (t `mod` n + 1 = n)%nat) as [E|E].
  - assert (S t `mod` n = 0)%nat as -> by (symmetry; apply (Nat.mod_unique _ _ (S (t / n))); lia).
    assert (S t / n = S (t / n))%nat as -> by (symmetry; apply (Nat.div_unique _ _ _ 0); lia).
    f_equal. apply wrr_weight_step.
  - assert (S t `mod` n = S (t `mod` n))%nat as -> by (symmetry; apply (Nat.mod_unique _ _ (t / n)); lia).
    assert (S t / n = t / n)%nat as -> by (symmetry; apply (Nat.div_unique _ _ _ (S (t `mod` n))); lia).
    done.
Qed.

Lemma wrr_start : wrr_next (Z.of_nat n) (Wrr m g 0 (2 ^ 64 - 1)) = wrr_st 0.
Proof using Hws Hok.
  destruct wrr_bounds as (_ & Hn & Hg & _). unfold wrr_next, wrr_st. cbn [curr_bucket curr_weight max_weight gcd_weight].
  replace (2 ^ 64 - 1 + 1) with (2 ^ 64) by lia. change (u64 (2 ^ 64)) with 0. rewrite Z.mod_0_l by lia. simpl.
  rewrite (Nat.Div0.mod_0_l n), (Nat.Div0.div_0_l n), (Nat.Div0.mod_0_l K).
  destruct (Z.leb_spec 0 g); [|lia]. f_equal. simpl. lia.
Qed.

Lemma wrr_cb t : 0 <= curr_bucket (wrr_st t) < Z.of_nat n.
Proof using Hws Hok.
  destruct wrr_bounds as (_ & Hn & _). simpl. pose proof (Nat.mod_upper_bound t n). lia.
Qed.

Lemma wrr_lookup t : ∃ b, buckets !! (t `mod` n)%nat = Some b.
Proof using Hws Hok.
  destruct wrr_bounds as (_ & Hn & _). apply lookup_lt_is_Some. apply Nat.mod_upper_bound. lia.
Qed.

Lemma wrr_selb t b :
  buckets !! (t `mod` n)%nat = Some b →
  selb buckets wrr_st t = (m - Z.of_nat ((t / n) `mod` K) * g <=? b_weight b).
Proof. intros Hb. unfold selb. cbn [curr_bucket wrr_st]. by rewrite Nat2Z.id, Hb. Qed.

(** Within one round the heaviest bucket comes by. *)
Lemma wrr_win t : ∃ i, (i < n)%nat ∧ selb buckets wrr_st (t + i) = true.
Proof using Hws Hok.
  destruct wrr_bounds as (_ & Hn & Hg & _). pose proof (wo_in _ _ _ Hok) as Hin.
  apply list_elem_of_fmap in Hin as (b & Hm & [j Hj]%list_elem_of_lookup).
  pose proof (lookup_lt_Some _ _ _ Hj) as Hlt. pose proof (Nat.mod_upper_bound t n ltac:(lia)) as Hr.
  pose proof (Nat.div_mod_eq t n) as Ht.
  set (i := if (t `mod` n <=? j)%nat then (j - t `mod` n)%nat else (n + j - t `mod` n)%nat).
  assert (i < n ∧ (t + i) `mod` n = j)%nat as [Hi Hmod].
  { unfold i. destruct (Nat.leb_spec (t `mod` n) j); (split; [lia|]); symmetry.
    - apply (Nat.mod_unique _ _ (t / n)); lia.
    - apply (Nat.mod_unique _ _ (S (t / n))); lia. }
  exists i. split; [done|]. rewrite (wrr_selb _ b) by (by rewrite Hmod). apply Z.leb_le. nia.
Qed.

(** Bucket [j] is selected in the last [w / g] rounds of each cycle of [K]. *)
Lemma wrr_selected_rounds t b :
  0 < m → buckets !! (t `mod` n)%nat = Some b →
  selb buckets wrr_st t = (K - Z.to_nat (b_weight b / g) <=? (t / n) `mod` K)%nat.
Proof using Hws Hok.
  intros Hpos Hb. rewrite (wrr_selb _ _ Hb). destruct wrr_bounds as (_ & _ & _ & HK & [[HKp Hgp]|[? ?]]); [|lia].
  pose proof (Nat.mod_upper_bound (t / n) K ltac:(lia)) as Hr. set (r := ((t / n) `mod` K)%nat) in *.
  destruct Hok as [Hd Hmax _ _]. rewrite Forall_fmap in Hd. rewrite Forall_fmap in Hmax.
  rewrite Forall_lookup in Hd, Hmax, Hws. specialize (Hd _ _ Hb) as [q Hq]. specialize (Hmax _ _ Hb). specialize (Hws _ _ Hb).
  simpl in *. unfold fits in Hws. rewrite Hq, Z.div_mul by lia. apply eq_iff_eq_true. rewrite Z.leb_le, Nat.leb_le.
  set (k := K) in *. clearbody k r. assert (0 <= q) by nia. split; intros ?; nia.
Qed.

Lemma wrr_count j b C :
  0 < m → buckets !! j = Some b →
  countb (λ x, x =? Z.of_nat j)
    ((λ i, curr_bucket (wrr_st i)) <$> filter (λ i, selb buckets wrr_st i = true) (seq 0 (n * (K * C)))) =
  (C * Z.to_nat (b_weight b / g))%nat.
Proof using Hws Hok.
  intros Hpos Hb. destruct wrr_bounds as (_ & _ & _ & HK & [[HKp Hgp]|[? ?]]); [|lia].
  pose proof (lookup_lt_Some _ _ _ Hb) as Hj. rewrite countb_filter_map.
  rewrite (countb_ext _ (λ t, (t `mod` n =? j)%nat && (K - Z.to_nat (b_weight b / g) <=? (t / n) `mod` K)%nat)).
  - rewrite (countb_blocks (λ q, (K - Z.to_nat (b_weight b / g) <=? q `mod` K)%nat)) by done.
    rewrite (countb_periodic (λ r, (K - Z.to_nat (b_weight b / g) <=? r)%nat)) by done.
    rewrite countb_tail; [done|]. destruct Hok as [_ Hmax _ _]. rewrite Forall_fmap in Hmax.
    rewrite Forall_lookup in Hmax. specialize (Hmax _ _ Hb). simpl in Hmax. apply Z2Nat.inj_le.
    + apply Z.div_pos; [|done]. rewrite Forall_lookup in Hws. apply (Hws _ _ Hb).
    + apply Z.div_pos; lia.
    + by apply Z.div_le_mono.
  - intros t _. cbn [curr_bucket wrr_st]. rewrite andb_comm.
    destruct (Z.eqb_spec (Z.of_nat (t `mod` n)) (Z.of_nat j)) as [E%Nat2Z.inj|E].
    + rewrite E, Nat.eqb_refl. simpl. apply wrr_selected_rounds; [done|]. by rewrite E.
    + destruct (Nat.eqb_spec (t `mod` n) j); [|done]. congruence.
Qed.

(** A whole number of cycles takes [C * (sum of w / g)] selections. *)
Lemma wrr_total C :
  0 < m →
  length (filter (λ i, selb buckets wrr_st i = true) (seq 0 (n * (K * C)))) =
  (C * Z.to_nat (zsum ((λ b, b_weight b / g)%Z <$> buckets)))%nat.
Proof using Hws Hok.
  intros Hpos. set (l := filter _ _).
  rewrite <- (length_fmap (λ i, curr_bucket (wrr_st i))). apply Nat2Z.inj.
  rewrite (length_countb _ n) by (rewrite Forall_fmap, list.Forall_forall; intros t _; apply wrr_cb).
  assert (∀ bs s, (∀ i b, bs !! i = Some b → buckets !! (s + i)%nat = Some b) →
    zsum ((λ j, Z.of_nat (countb (λ x, x =? Z.of_nat j) ((λ i, curr_bucket (wrr_st i)) <$> l))) <$> seq s (length bs)) =
    Z.of_nat C * zsum ((λ b, b_weight b / g) <$> bs) ∧ 0 <= zsum ((λ b, b_weight b / g) <$> bs)) as H.
  { destruct wrr_bounds as (_ & _ & _ & HK & [[HKp Hgp]|[? ?]]); [|lia].
    induction bs as [|b bs IH]; intros s Hs; [simpl; lia|]. cbn [length seq]. rewrite !fmap_cons, !zsum_cons.
    pose proof (Hs 0%nat b eq_refl) as Hb. rewrite Nat.add_0_r in Hb.
    destruct (IH (S s)) as [-> H2]. { intros i b' Hb'. rewrite <- (Hs (S i) b' Hb'). f_equal. lia. }
    unfold l. rewrite (wrr_count _ b) by done. rewrite Forall_lookup in Hws. specialize (Hws _ _ Hb).
    assert (0 <= b_weight b / g) by (apply Z.div_pos; [apply Hws|done]). lia. }
  destruct (H buckets 0%nat) as [-> H2]; [done|]. lia.
Qed.

Lemma wrr_run_valid k d t :
  wrr_next (Z.of_nat n) d = wrr_st t → Forall (λ x, 0 <= x < Z.of_nat n) (select_run buckets k d).
Proof using Hws Hok Hlen.
  revert d t. induction k as [|k IH]; intros d t Hd; [constructor|]. cbn [select_run].
  destruct wrr_bounds as (_ & Hn & _).
  destruct (first_selected buckets n wrr_st eq_refl wrr_win t) as (t' & Ht & Hsel & Hno).
  rewrite select_nonempty by done.
  rewrite (select_next buckets n wrr_st eq_refl wrr_step wrr_cb n d t t') by done.
  constructor; [apply wrr_cb|]. apply (IH _ (S t')). apply wrr_step.
Qed.
End wrr.

(** C38: the weighted round robin of a select group is fair: as long as the group
    has a bucket every selection succeeds, and when some weight is positive, over
    any whole number [C] of cycles bucket [j] is chosen exactly
    [C * weight / gcd] times, so in proportion to its weight. *)
Theorem wrr_fair buckets :
  buckets ≠ [] → Forall (λ b, fits 16 (b_weight b)) buckets → Z.of_nat (length buckets) < 2 ^ 64 →
  let d := init_select_group buckets in
  (∀ k, Forall (λ x, 0 <= x < Z.of_nat (length buckets)) (select_run buckets k d)) ∧
  (0 < max_weight d → ∀ C j b, buckets !! j = Some b →
     let cycle := Z.to_nat (zsum ((λ b, b_weight b / gcd_weight d) <$> buckets)) in
     (gcd_weight d | b_weight b) ∧
     countb (λ x, x =? Z.of_nat j) (select_run buckets (C * cycle) d) =
       (C * Z.to_nat (b_weight b / gcd_weight d))%nat).
Proof.
  intros Hne Hws Hlen. destruct (init_ok buckets Hne Hws) as (Hok & Hcw & Hcb).
  destruct (init_select_group buckets) as [m g cw cb]. simpl in *. subst cw cb.
  pose proof (wrr_start buckets g m Hws Hok) as Hst. split.
  - intros k. by eapply wrr_run_valid.
  - intros Hpos C j b Hb. split.
    + pose proof (wo_div _ _ _ Hok) as Hd. rewrite Forall_fmap, Forall_lookup in Hd. apply (Hd _ _ Hb).
    + rewrite <- (wrr_total buckets g m Hws Hok C Hpos).
      pose proof (run_visits buckets _ (wrr_st buckets g m) eq_refl (wrr_step _ _ _ Hws Hok Hlen)
        (wrr_cb _ _ _ Hws Hok) (wrr_win _ _ _ Hws Hok) _ 0
        (length buckets * (Z.to_nat (m / g) * C)) Hst (Nat.le_0_l _)) as Hrun.
      rewrite Nat.sub_0_r in Hrun. rewrite Hrun. by apply wrr_count.
Qed.

Definition wrr_example : list ofl_bucket := [Bucket 4 1 1 []; Bucket 2 2 1 []; Bucket 6 3 1 []].

Lemma wrr_fair_witness :
  countb (λ x, x =? 2) (select_run wrr_example (1 * 6) (init_select_group wrr_example)) = 3%nat.
Proof.
  pose proof (wrr_fair wrr_example ltac:(done) ltac:(repeat constructor; done) ltac:(done)) as [_ H].
  apply (H ltac:(done) 1%nat 2%nat _ eq_refl).
Defined.
