(* ===== verification/GroupTable.v ===== *)
(** The group table stays well formed: the loop detection of
    udatapath/group_table.c is exact and terminates, and no sequence of group_mod
    messages makes a dangling or a circular chain of groups. *)

From stdpp Require Import relations.
From S2P Require Import Prelude OpenFlow Group.

(** * Reachability between groups *)

Definition edge (table : group_table) (a b : Z) : Prop :=
  ∃ entry, group_table_find table a = Some entry ∧ b ∈ bucket_groups (ge_buckets entry).

(** A group that the buckets of [mod_] lead to. *)
Definition reachable (table : group_table) (mod_ : ofl_msg_group_mod) (h : Z) : Prop :=
  ∃ s, s ∈ bucket_groups (gm_buckets mod_) ∧ rtc (edge table) s h.

Lemma size_union_le (X Y : gset Z) : (size (X ∪ Y) ≤ size X + size Y)%nat.
Proof.
  rewrite size_union_alt. assert (Y ∖ X ⊆ Y) as H%subseteq_size by set_solver. lia.
Qed.

(** * One visit *)

Lemma visit_elem bs visited tbv x :
  x ∈ is_loop_free_visit bs visited tbv ↔ x ∈ tbv ∨ (x ∈ bucket_groups bs ∧ x ∉ visited).
Proof.
  unfold is_loop_free_visit. generalize (bucket_groups bs). intros l. revert tbv.
  induction l as [|g l IH]; intros tbv; simpl; [set_solver|]. rewrite IH. clear IH.
  destruct (bool_decide_reflect (g ∈ visited)), (bool_decide_reflect (g ∈ tbv)); simpl; set_solver.
Qed.

Lemma visit_NoDup bs visited tbv : NoDup tbv → NoDup (is_loop_free_visit bs visited tbv).
Proof.
  unfold is_loop_free_visit. generalize (bucket_groups bs). intros l. revert tbv.
  induction l as [|g l IH]; intros tbv Hnd; simpl; [done|]. apply IH.
  destruct (bool_decide_reflect (g ∈ visited)), (bool_decide_reflect (g ∈ tbv)); simpl; try done.
  apply list.NoDup_app. split_and!; [done| |apply NoDup_singleton]. set_solver.
Qed.

(** * The search *)

Definition next_tbv (table : group_table) (visited : list Z) (gv : Z) (rest : list Z) : list Z :=
  match group_table_find table gv with
  | Some entry => is_loop_free_visit (ge_buckets entry) visited rest
  | None => rest
  end.

Lemma next_tbv_elem table visited gv rest x :
  x ∈ next_tbv table visited gv rest ↔ x ∈ rest ∨ (edge table gv x ∧ x ∉ visited).
Proof.
  unfold next_tbv, edge. destruct (group_table_find table gv) as [e|].
  - rewrite visit_elem. naive_solver.
  - naive_solver.
Qed.

Lemma next_tbv_NoDup table visited gv rest : NoDup rest → NoDup (next_tbv table visited gv rest).
Proof. intros H. unfold next_tbv. destruct (group_table_find table gv); [by apply visit_NoDup|done]. Qed.

Section search.
  Context (table : group_table) (mod_ : ofl_msg_group_mod).
  Local Abbreviation id := (gm_group_id mod_).

Record search_inv (visited tbv : list Z) : Prop := {
  si_nodup : NoDup tbv;
  si_start : ∀ s, s ∈ bucket_groups (gm_buckets mod_) → s ∈ visited ∨ s ∈ tbv;
  si_closed : ∀ v w, v ∈ visited → edge table v w → w ∈ visited ∨ w ∈ tbv;
  si_id : id ∉ visited;
  si_reach : ∀ x, x ∈ tbv → reachable table mod_ x }.

Lemma search_inv_step visited gv rest :
  search_inv visited (gv :: rest) → id ∉ gv :: rest →
  search_inv (visited ++ [gv]) (next_tbv table visited gv rest).
Proof.
  intros [Hnd Hs Hc Hid Hr] Hni. apply list.NoDup_cons in Hnd as [Hgv Hnd]. split.
  - by apply next_tbv_NoDup.
  - intros s Hs'. rewrite next_tbv_elem, elem_of_app. destruct (Hs s Hs') as [|H]; set_solver.
  - intros v w Hv Hw. rewrite next_tbv_elem, elem_of_app.
    destruct (decide (w ∈ visited)); [auto|]. apply elem_of_app in Hv as [Hv| ->%list_elem_of_singleton]; [|auto].
    destruct (Hc v w Hv Hw); set_solver.
  - set_solver.
  - intros x. rewrite next_tbv_elem. intros [Hx|[Hx _]]; [apply Hr; set_solver|].
    destruct (Hr gv) as (s & ? & ?); [set_solver|]. exists s. split; [done|]. by eapply rtc_r.
Qed.

Lemma search_inv_start : search_inv [] (is_loop_free_visit (gm_buckets mod_) [] []).
Proof.
  split; [by apply visit_NoDup, NoDup_nil_2| | |set_solver|].
  - intros s. rewrite visit_elem. set_solver.
  - set_solver.
  - intros x. rewrite visit_elem. intros [|[? _]]; [set_solver|]. by exists x.
Qed.

Lemma search_done visited : search_inv visited [] → ¬ reachable table mod_ id.
Proof.
  intros [_ Hs Hc Hid _] (s & Hin & Hp). destruct (Hs s Hin) as [Hv|]; [|set_solver].
  apply Hid. clear Hid Hin. induction Hp as [x|x y z Hxy _ IH]; [done|]. apply IH.
  destruct (Hc x y Hv Hxy); [done|set_solver].
Qed.

Lemma search_exact n visited tbv r :
  search_inv visited tbv → loop_free_loop n table id visited tbv = Some r →
  r = true ↔ ¬ reachable table mod_ id.
Proof.
  revert visited tbv. induction n as [|n IH]; intros visited [|gv rest] Hi; cbn [loop_free_loop].
  1,3: intros [= <-]; split; [intros _; by eapply search_done|done].
  all: destruct (bool_decide_reflect (id ∈ gv :: rest)) as [Hin|Hni];
    [intros [= <-]; split; [done|]; intros []; by apply (si_reach _ _ Hi)|].
  - done.
  - intros Hl. by eapply IH; [apply search_inv_step|].
Qed.

(** ** Termination *)

Definition ids : gset Z := list_to_set (all_refs table mod_).

Lemma edge_ids a b : edge table a b → b ∈ ids.
Proof.
  intros (e & He & Hb). unfold ids, all_refs. rewrite elem_of_list_to_set, elem_of_app. right.
  apply list_elem_of_bind. exists (a, e). split; [done|]. by apply elem_of_map_to_list.
Qed.

(** Every turn of the loop makes this smaller. *)
Definition potential (visited tbv : list Z) : nat :=
  2 * size (ids ∖ list_to_set visited) + size (list_to_set tbv ∩ list_to_set visited :> gset Z).

Lemma potential_step visited gv rest :
  NoDup (gv :: rest) → gv ∈ ids →
  (potential (visited ++ [gv]) (next_tbv table visited gv rest) < potential visited (gv :: rest))%nat.
Proof.
  intros [Hgv Hnd]%list.NoDup_cons Hin. unfold potential. set (t := next_tbv table visited gv rest).
  destruct (decide (gv ∈ visited)) as [Hv|Hv].
  - assert (ids ∖ list_to_set (visited ++ [gv]) ≡@{gset Z} ids ∖ list_to_set visited) as -> by set_solver.
    apply Nat.add_lt_mono_l. apply subset_size. split.
    + intros x. unfold t. rewrite !elem_of_intersection, !elem_of_list_to_set, next_tbv_elem. set_solver.
    + intros H. assert (gv ∈ (list_to_set t : gset Z)) as Ht by set_solver.
      unfold t in Ht. rewrite elem_of_list_to_set, next_tbv_elem in Ht. set_solver.
  - assert (size (ids ∖ list_to_set (visited ++ [gv])) < size (ids ∖ list_to_set visited))%nat.
    { apply subset_size. set_solver. }
    assert (list_to_set t ∩ list_to_set (visited ++ [gv]) ⊆@{gset Z} {[gv]} ∪ list_to_set (gv :: rest) ∩ list_to_set visited) as Hsub.
    { intros x. unfold t. rewrite elem_of_intersection, !elem_of_list_to_set, next_tbv_elem. set_solver. }
    apply subseteq_size in Hsub. pose proof (size_union_le {[gv]} (list_to_set (gv :: rest) ∩ list_to_set visited : gset Z)).
    rewrite size_singleton in *. lia.
Qed.

Lemma search_returns n visited tbv :
  NoDup tbv → (∀ x, x ∈ tbv → x ∈ ids) → (potential visited tbv ≤ n)%nat →
  is_Some (loop_free_loop n table id visited tbv).
Proof.
  revert visited tbv. induction n as [|n IH]; intros visited [|gv rest] Hnd Hids Hp; cbn [loop_free_loop];
    try (by eexists).
  all: case_bool_decide; [by eexists|].
  all: pose proof (potential_step visited gv rest Hnd ltac:(set_solver)) as Hlt.
  - lia.
  - apply IH; [by apply next_tbv_NoDup; apply list.NoDup_cons in Hnd as []| |unfold next_tbv in *; lia].
    intros x. fold (next_tbv table visited gv rest). rewrite next_tbv_elem.
    intros [?|[?%edge_ids _]]; [set_solver|done].
Qed.
End search.

Lemma size_list_le (l : list Z) : (size (list_to_set l : gset Z) ≤ length l)%nat.
Proof.
  induction l as [|x l IH]; [done|]. cbn [list_to_set length].
  pose proof (size_union_le {[x]} (list_to_set l : gset Z)). rewrite size_singleton in *. lia.
Qed.

Lemma is_loop_free_spec table mod_ :
  ∃ r, is_loop_free table mod_ = Some r ∧ (r = true ↔ ¬ reachable table mod_ (gm_group_id mod_)).
Proof.
  pose proof (search_inv_start table mod_) as Hi. unfold is_loop_free.
  destruct (search_returns table mod_ (2 * length (all_refs table mod_)) [] (is_loop_free_visit (gm_buckets mod_) [] []))
    as [r Hr].
  - apply Hi.
  - intros x [?|[? _]]%visit_elem; [set_solver|]. unfold ids, all_refs. set_solver.
  - unfold potential. assert (list_to_set (is_loop_free_visit (gm_buckets mod_) [] []) ∩ list_to_set [] ≡@{gset Z} ∅) as -> by set_solver.
    assert (ids table mod_ ∖ list_to_set [] ≡ ids table mod_) as -> by set_solver.
    rewrite size_empty. pose proof (size_list_le (all_refs table mod_)). unfold ids. lia.
  - exists r. split; [done|]. by eapply search_exact.
Qed.

(** * Chains after a change *)

Definition acyclic (R : relation Z) : Prop := ∀ x, ¬ tc R x x.

(** Replacing what [id] leads to. *)
Section replace.
  Context (R R' : relation Z) (id : Z) (S : Z → Prop).
  Context (HR : ∀ a b, R' a b ↔ (a = id ∧ S b) ∨ (a ≠ id ∧ R a b)).

Lemma replace_rtc a : rtc R' a id ↔ rtc R a id.
Proof using HR.
  split; apply (rtc_ind_l (λ x, rtc _ x id)); try done; intros x y Hxy _ IH;
    (destruct (decide (x = id)) as [->|Hne]; [done|]); apply (rtc_l _ x y); try done.
  - apply HR in Hxy. naive_solver.
  - apply HR. auto.
Qed.

Lemma replace_tc x y : tc R' x y → tc R x y ∨ (rtc R' x id ∧ tc R' id y).
Proof using HR.
  induction 1 as [x y Hxy|x y z Hxy Hyz IH].
  - apply HR in Hxy as Hxy'. destruct Hxy' as [[-> _]|[_ ?]].
    + right. split; [done|by apply tc_once].
    + left. by apply tc_once.
  - apply HR in Hxy as Hxy'. destruct Hxy' as [[-> _]|[_ ?]].
    + right. split; [done|by eapply tc_l].
    + destruct IH as [?|[? ?]]; [left; by eapply tc_l|right; split; [by eapply rtc_l|done]].
Qed.

Lemma acyclic_replace : acyclic R → acyclic R' ↔ ¬ ∃ s, S s ∧ rtc R s id.
Proof using HR.
  intros HacR. split.
  - intros Hac (s & Hs & Hp%replace_rtc). apply (Hac id). eapply tc_rtc_r; [|done]. apply tc_once, HR. auto.
  - intros Hno. assert (¬ tc R' id id) as Hid.
    { intros Hc. apply Hno. assert (∃ s, R' id s ∧ rtc R' s id) as (s & Hs & Hp).
      { inversion Hc; subst; eauto using tc_rtc, rtc_refl. }
      apply HR in Hs as [[_ Hs]|[? _]]; [|done]. exists s. split; [done|]. by apply replace_rtc. }
    intros x [?|[Hx Hy]]%replace_tc; [by eapply HacR|]. apply Hid. by eapply tc_rtc_r.
Qed.
End replace.

(** * The table invariant *)

Definition loop_free (table : group_table) : Prop := acyclic (edge table).

Definition buckets_of (entries : gmap Z group_entry) : Z :=
  map_fold (λ _ e acc, Z.of_nat (length (ge_buckets e)) + acc) 0 entries.

Record group_table_ok (table : group_table) : Prop := {
  gto_id : ∀ id e, gt_entries table !! id = Some e → ge_group_id e = id;
  gto_refs : ∀ a b, edge table a b → b <= OFPG_MAX → is_Some (gt_entries table !! b);
  gto_loop_free : loop_free table;
  gto_entries : gt_entries_num table = Z.of_nat (size (gt_entries table));
  gto_buckets : gt_buckets_num table = buckets_of (gt_entries table);
  gto_max : gt_entries_num table <= GROUP_TABLE_MAX_ENTRIES ∧ gt_buckets_num table <= GROUP_TABLE_MAX_BUCKETS }.

(** What unpacking a group_mod message guarantees. *)
Definition group_mod_ok (mod_ : ofl_msg_group_mod) : Prop :=
  (gm_group_id mod_ <= OFPG_MAX ∨ gm_command mod_ = OFPGC_DELETE) ∧
  Z.of_nat (length (gm_buckets mod_)) < 2 ^ 16.

Lemma buckets_of_insert m id e :
  m !! id = None → buckets_of (<[id := e]> m) = Z.of_nat (length (ge_buckets e)) + buckets_of m.
Proof. intros H. unfold buckets_of. rewrite map_fold_insert_L; [done| |done]. intros. lia. Qed.

Lemma buckets_of_delete m id e :
  m !! id = Some e → buckets_of m = Z.of_nat (length (ge_buckets e)) + buckets_of (delete id m).
Proof. intros H. unfold buckets_of. rewrite (map_fold_delete_L _ _ id e); [done| |done]. intros. lia. Qed.

Lemma buckets_of_nonneg m : 0 <= buckets_of m.
Proof.
  induction m as [|id e m Hm IH] using map_ind; [done|]. rewrite buckets_of_insert by done. lia.
Qed.

Lemma edge_insert m n k id e a b :
  edge (GroupTable (<[id := e]> m) n k) a b ↔
  (a = id ∧ b ∈ bucket_groups (ge_buckets e)) ∨ (a ≠ id ∧ ∃ e', m !! a = Some e' ∧ b ∈ bucket_groups (ge_buckets e')).
Proof.
  unfold edge, group_table_find. cbn [gt_entries]. destruct (decide (a = id)) as [->|Hne].
  - rewrite lookup_insert_eq. naive_solver.
  - rewrite lookup_insert_ne by done. naive_solver.
Qed.

(** Replacing one entry keeps the table loop free exactly when the new buckets do
    not lead back to it. *)
Lemma loop_free_insert table n k id e :
  loop_free table →
  loop_free (GroupTable (<[id := e]> (gt_entries table)) n k) ↔
  ¬ ∃ s, s ∈ bucket_groups (ge_buckets e) ∧ rtc (edge table) s id.
Proof.
  intros H. apply (acyclic_replace _ _ id (λ b, b ∈ bucket_groups (ge_buckets e))); [|done].
  intros a b. apply edge_insert.
Qed.

Lemma validate_group port_exists table actions g :
  dp_actions_validate port_exists table actions = 0 → ActGroup g ∈ actions → g <= OFPG_MAX →
  is_Some (gt_entries table !! g).
Proof.
  induction actions as [|a actions IH]; simpl; [set_solver|].
  intros Hv [<-|Hin]%elem_of_cons Hg.
  - unfold group_table_find in Hv. rewrite (proj2 (Z.leb_le _ _) Hg) in Hv.
    by destruct (bool_decide_reflect (is_Some (gt_entries table !! g))).
  - apply IH; [|done..]. destruct a; try done; by case_match.
Qed.

Lemma validate_buckets_refs port_exists table bs g :
  validate_buckets port_exists table bs = 0 → g ∈ bucket_groups bs → g <= OFPG_MAX →
  is_Some (gt_entries table !! g).
Proof.
  induction bs as [|b bs IH]; simpl; [set_solver|].
  destruct (Z.eqb_spec (dp_actions_validate port_exists table (b_actions b)) 0) as [Hv|]; [|done].
  intros Hvs Hin Hg. unfold bucket_groups in Hin. simpl in Hin. apply elem_of_app in Hin as [Hin|Hin]; [|by apply IH].
  apply list_elem_of_omap in Hin as (a & Ha & Hag). destruct a; simplify_eq. by eapply validate_group.
Qed.

Lemma insert_ok table n k id e :
  group_table_ok table → ge_group_id e = id →
  (∀ b, b ∈ bucket_groups (ge_buckets e) → b <= OFPG_MAX → is_Some (gt_entries table !! b)) →
  (¬ ∃ s, s ∈ bucket_groups (ge_buckets e) ∧ rtc (edge table) s id) →
  n = Z.of_nat (size (<[id := e]> (gt_entries table))) → k = buckets_of (<[id := e]> (gt_entries table)) →
  n <= GROUP_TABLE_MAX_ENTRIES → k <= GROUP_TABLE_MAX_BUCKETS →
  group_table_ok (GroupTable (<[id := e]> (gt_entries table)) n k).
Proof.
  intros [Hid Href Hlf _ _ _] He Hb Hno Hn Hk Hn' Hk'. split; cbn [gt_entries gt_entries_num gt_buckets_num]; [| | |done..].
  - intros id' e'. rewrite lookup_insert_Some. intros [[<- <-]|[_ ?]]; [done|by apply Hid].
  - intros a b Hab Hmax. rewrite lookup_insert_is_Some'. right. apply edge_insert in Hab as [[_ ?]|[_ ?]]; [by apply Hb|].
    by apply (Href a b).
  - by apply loop_free_insert.
Qed.

(** No chain of an intact table ends in a group that does not exist. *)
Lemma no_chain_to_missing table s id :
  group_table_ok table → gt_entries table !! id = None → id <= OFPG_MAX → s ≠ id → ¬ rtc (edge table) s id.
Proof.
  intros Hok Hnone Hmax Hne [->|Hp]%rtc_tc; [done|]. apply tc_nsteps in Hp as (n & Hn & Hp).
  destruct n as [|n]; [lia|]. apply nsteps_inv_r in Hp as (y & _ & Hy).
  destruct (gto_refs _ Hok _ _ Hy Hmax) as [e He]. congruence.
Qed.

Lemma add_ok port_exists table mod_ :
  group_table_ok table → gm_group_id mod_ <= OFPG_MAX → Z.of_nat (length (gm_buckets mod_)) < 2 ^ 16 →
  validate_buckets port_exists table (gm_buckets mod_) = 0 →
  let r := group_table_add table mod_ in
  group_table_ok r.1 ∧ (r.2 ≠ 0 → r.1 = table).
Proof.
  intros Hok Hid Hlen Hv. unfold group_table_add.
  destruct (bool_decide_reflect (is_Some (gt_entries table !! gm_group_id mod_))) as [|Hnew%eq_None_not_Some]; [done|].
  pose proof Hok as [_ _ _ Hn Hb [Hmn Hmb]]. unfold GROUP_TABLE_MAX_ENTRIES, GROUP_TABLE_MAX_BUCKETS in *.
  destruct (Z.eqb_spec (gt_entries_num table) 4096); [done|].
  pose proof (buckets_of_nonneg (gt_entries table)). unfold u64. rewrite !wrap_small by (unfold fits; lia).
  destruct (Z.ltb_spec 8192 (gt_buckets_num table + Z.of_nat (length (gm_buckets mod_)))); [done|]. simpl.
  split; [|done].
  pose proof (λ b, validate_buckets_refs port_exists table (gm_buckets mod_) b Hv) as Href.
  apply insert_ok; [done|done|done| | | |unfold GROUP_TABLE_MAX_ENTRIES; lia|unfold GROUP_TABLE_MAX_BUCKETS; lia].
  - intros (s & Hs & Hp). revert Hp. apply no_chain_to_missing; [done..|]. intros ->.
    destruct (Href _ Hs Hid). congruence.
  - rewrite map_size_insert_None by done. lia.
  - rewrite buckets_of_insert by done. simpl. lia.
Qed.

Lemma modify_ok port_exists table mod_ :
  group_table_ok table → Z.of_nat (length (gm_buckets mod_)) < 2 ^ 16 →
  validate_buckets port_exists table (gm_buckets mod_) = 0 →
  ∃ t err, group_table_modify table mod_ = Some (t, err) ∧ group_table_ok t ∧ (err ≠ 0 → t = table).
Proof.
  intros Hok Hlen Hv. unfold group_table_modify, group_table_find.
  destruct (gt_entries table !! gm_group_id mod_) as [entry|] eqn:Hf; [|naive_solver].
  pose proof Hok as [_ _ _ Hn Hb [Hmn Hmb]]. pose proof (buckets_of_delete _ _ _ Hf) as Hd.
  pose proof (buckets_of_nonneg (delete (gm_group_id mod_) (gt_entries table))).
  unfold GROUP_TABLE_MAX_BUCKETS in *. unfold u64. rewrite !wrap_small by (rewrite ?wrap_small; unfold fits; lia).
  case_match; [naive_solver|]. destruct (is_loop_free_spec table mod_) as (r & -> & Hr). simpl.
  destruct r; simpl; [|naive_solver]. eexists _, _. split; [done|split; [|done]].
  apply insert_ok; [done|done| | | | |done|].
  - intros b. by apply (validate_buckets_refs port_exists).
  - by apply Hr.
  - rewrite map_size_insert_Some by done. done.
  - rewrite <- insert_delete_eq, buckets_of_insert by apply lookup_delete_eq. simpl. lia.
  - unfold GROUP_TABLE_MAX_BUCKETS. lia.
Qed.

Lemma has_out_group_spec entry id :
  group_entry_has_out_group entry id = true ↔ id ∈ bucket_groups (ge_buckets entry).
Proof.
  unfold group_entry_has_out_group, bucket_groups, dp_actions_list_has_out_group.
  rewrite existsb_exists, list_elem_of_bind. setoid_rewrite existsb_exists. setoid_rewrite list_elem_of_omap.
  setoid_rewrite <- list_elem_of_In. split.
  - intros (b & Hb & a & Ha & Heq). exists b. split; [|done]. exists a. split; [done|].
    destruct a; try done. apply Z.eqb_eq in Heq. by subst.
  - intros (b & (a & Ha & Heq) & Hb). exists b. split; [done|]. exists a. split; [done|].
    destruct a; simplify_eq. by apply Z.eqb_eq.
Qed.

Lemma edge_delete m n k n' k' id a b :
  edge (GroupTable (delete id m) n k) a b ↔ a ≠ id ∧ edge (GroupTable m n' k') a b.
Proof.
  unfold edge, group_table_find. cbn [gt_entries]. setoid_rewrite lookup_delete_Some. naive_solver.
Qed.

Lemma create_ok : group_table_ok group_table_create.
Proof.
  assert (∀ a b, ¬ edge group_table_create a b) as Hno.
  { intros a b (e & He & _). unfold group_table_find in He. simpl in He. by rewrite lookup_empty in He. }
  split; simpl; [|by intros ?? ?%Hno| |done|done|done].
  - intros id e. by rewrite lookup_empty.
  - intros x Hx. inversion Hx; subst; by eapply Hno.
Qed.

Lemma delete_ok table mod_ :
  group_table_ok table →
  let r := group_table_delete table mod_ in
  group_table_ok r.1.1 ∧ (r.1.2 ≠ 0 → r.1.1 = table ∧ r.2 = []).
Proof.
  intros Hok. unfold group_table_delete, group_table_find. case_match; [split; [apply create_ok|done]|].
  destruct (gt_entries table !! gm_group_id mod_) as [entry|] eqn:Hf; [|done].
  destruct Hok as [Hid Href Hlf Hn Hb [Hmn Hmb]]. rewrite (Hid _ _ Hf).
  destruct (existsb _ _) eqn:Hex.
  { by split; [split|]. }
  set (id := gm_group_id mod_) in *. split; [|done]. cbn [fst snd].
  assert (∀ a, ¬ edge table a id) as Hno.
  { intros a (e & He & Hin). apply not_true_iff_false in Hex. apply Hex. apply existsb_exists.
    exists (a, e). split; [by apply list_elem_of_In, elem_of_map_to_list|]. by apply has_out_group_spec. }
  pose proof (buckets_of_delete _ _ _ Hf) as Hd. pose proof (buckets_of_nonneg (delete id (gt_entries table))).
  pose proof (map_size_delete_Some id (gt_entries table) ltac:(eauto)) as Hs.
  assert (0 < size (gt_entries table))%nat.
  { apply Nat.neq_0_lt_0. intros E%map_size_empty_inv. rewrite E in Hf. done. }
  unfold GROUP_TABLE_MAX_ENTRIES, GROUP_TABLE_MAX_BUCKETS, u64 in *. rewrite !wrap_small by (unfold fits; lia).
  destruct table as [m n k]. simpl in *. split; cbn [gt_entries gt_entries_num gt_buckets_num].
  - intros id' e'. rewrite lookup_delete_Some. intros [_ ?]. by apply Hid.
  - intros a b [_ Hab]%(edge_delete m _ _ n k) Hmax. rewrite lookup_delete_is_Some.
    split; [|by apply (Href a b)]. intros <-. by eapply Hno.
  - intros x Hx. apply (Hlf x). revert Hx. apply (tc_congruence (λ x, x)).
    intros a b. rewrite (edge_delete m _ _ n k). tauto.
  - lia.
  - lia.
  - unfold GROUP_TABLE_MAX_ENTRIES, GROUP_TABLE_MAX_BUCKETS. lia.
Qed.

(** * Properties *)

(** C21: [is_loop_free] always terminates, and its answer is exactly what its
    comment promises: in a loop-free table, whether the table would still be loop
    free with the modified entry in place. *)
Theorem is_loop_free_exact table mod_ :
  loop_free table →
  ∃ r, is_loop_free table mod_ = Some r ∧
    (r = true ↔
     loop_free (GroupTable (<[gm_group_id mod_ := group_entry_create mod_]> (gt_entries table))
                  (gt_entries_num table) (gt_buckets_num table))).
Proof.
  intros Hlf. destruct (is_loop_free_spec table mod_) as (r & Hr & Hiff). exists r. split; [done|].
  rewrite Hiff. symmetry. by apply loop_free_insert.
Qed.

Definition group_to (id g : Z) : ofl_msg_group_mod :=
  GroupMod OFPGC_ADD OFPGT_INDIRECT id [Bucket 0 1 OFPG_ANY [ActGroup g]].
Definition group_leaf (id : Z) : ofl_msg_group_mod :=
  GroupMod OFPGC_ADD OFPGT_INDIRECT id [Bucket 0 1 OFPG_ANY [ActOutput 1 0]].
Definition group_run (mods : list ofl_msg_group_mod) : option group_table :=
  foldl (λ t m, t ← t; r ← group_table_handle_group_mod (λ _, true) false t m; Some r.1.1)
    (Some group_table_create) mods.

Lemma group_mod_handled port_exists slave table mod_ :
  group_table_ok table → group_mod_ok mod_ →
  ∃ t err flows, group_table_handle_group_mod port_exists slave table mod_ = Some (t, err, flows) ∧
    group_table_ok t ∧ (err ≠ 0 → t = table ∧ flows = []).
Proof.
  intros Hok [Hid Hlen]. unfold group_table_handle_group_mod. destruct slave; [naive_solver|].
  destruct (Z.eqb_spec (validate_buckets port_exists table (gm_buckets mod_)) 0) as [Hv|]; [|naive_solver].
  simpl. destruct (gm_command mod_) eqn:Hc.
  - destruct Hid as [Hid|?]; [|done]. destruct (add_ok _ _ _ Hok Hid Hlen Hv) as [H1 H2].
    destruct (group_table_add table mod_) as [t e]. naive_solver.
  - destruct (modify_ok _ _ _ Hok Hlen Hv) as (t & e & -> & H1 & H2). simpl. naive_solver.
  - destruct (delete_ok table mod_ Hok) as [H1 H2].
    destruct (group_table_delete table mod_) as [[t e] f]. naive_solver.
  - naive_solver.
Qed.

(** C20: every group_mod message is handled (the loop detection never runs out of
    fuel) and keeps the table intact: no group refers to a missing group, no chain
    of groups is circular, and the counters say how many groups and buckets there
    are, within their limits; a message answered with an error changes nothing. *)
Theorem group_table_invariant port_exists slave table mod_ :
  group_table_ok table → group_mod_ok mod_ →
  ∃ t err flows, group_table_handle_group_mod port_exists slave table mod_ = Some (t, err, flows) ∧
    group_table_ok t ∧ (err ≠ 0 → t = table ∧ flows = []).
Proof. apply group_mod_handled. Qed.

(** Group 2 leads to group 1, which leads to a port. *)
Definition chain : group_table := (group_table_add (group_table_add group_table_create (group_leaf 1)).1 (group_to 2 1)).1.

Lemma chain_ok : group_table_ok chain.
Proof.
  apply (add_ok (λ _, true)); [|by vm_compute..].
  apply (add_ok (λ _, true)); [apply create_ok|by vm_compute..].
Qed.

(** Pointing group 1 at group 2 would close a loop. *)
Lemma is_loop_free_exact_witness :
  ¬ loop_free (GroupTable (<[1 := group_entry_create (group_to 1 2)]> (gt_entries chain)) 2 2).
Proof.
  destruct (is_loop_free_exact chain (group_to 1 2) (gto_loop_free _ chain_ok)) as (r & Hr & Hiff).
  assert (is_loop_free chain (group_to 1 2) = Some false) as Hf by by vm_compute.
  rewrite Hf in Hr. injection Hr as <-. intros H. by apply Hiff in H.
Defined.

Lemma group_table_invariant_witness :
  ∃ t err flows,
    group_table_handle_group_mod (λ _, true) false chain (GroupMod OFPGC_MODIFY OFPGT_ALL 1 [Bucket 0 1 OFPG_ANY [ActGroup 2]]) =
      Some (t, err, flows) ∧ group_table_ok t ∧ (err ≠ 0 → t = chain ∧ flows = []).
Proof. apply group_table_invariant; [apply chain_ok|]. split; [by left|done]. Defined.

(** ** References from flows *)

Definition refs_ok (entry : group_entry) : Prop :=
  NoDup (ge_flow_refs entry) ∧ ge_ref_count entry = Z.of_nat (length (ge_flow_refs entry)) ∧
  fits 32 (ge_ref_count entry).

Lemma filter_eq_NoDup (x : positive) l :
  NoDup l → length (filter (λ f, f = x) l) = if decide (x ∈ l) then 1%nat else 0%nat.
Proof.
  induction 1 as [|y l Hy Hnd IH]; [done|]. rewrite filter_cons.
  destruct (decide (y = x)) as [->|Hne].
  - simpl. rewrite IH, decide_False by done. rewrite decide_True by set_solver. done.
  - rewrite IH. repeat case_decide; done || set_solver.
Qed.

Lemma length_filter_ne (x : positive) l :
  (length (filter (λ f, f ≠ x) l) + length (filter (λ f, f = x) l))%nat = length l.
Proof. induction l as [|y l IH]; [done|]. rewrite !filter_cons. repeat case_decide; simpl; lia || done. Qed.

Lemma refs_ok_add entry fe :
  refs_ok entry → ge_ref_count entry < 2 ^ 32 - 1 → refs_ok (group_entry_add_flow_ref entry fe).
Proof.
  intros (Hnd & Hc & Hf) Hlt. unfold group_entry_add_flow_ref, has_flow_ref. case_bool_decide; [done|].
  unfold refs_ok. cbn [ge_flow_refs ge_ref_count set_refs]. unfold fits, u32 in *. rewrite wrap_small by (unfold fits; lia).
  rewrite length_app. cbn [length]. split; [|lia].
  apply list.NoDup_app. split_and!; [done|set_solver|apply NoDup_singleton].
Qed.

Lemma refs_ok_del entry fe : refs_ok entry → refs_ok (group_entry_del_flow_ref entry fe).
Proof.
  intros (Hnd & Hc & Hf). unfold group_entry_del_flow_ref, refs_ok. cbn [ge_flow_refs ge_ref_count set_refs].
  pose proof (length_filter_ne fe (ge_flow_refs entry)). unfold fits, u32 in *. rewrite wrap_small by (unfold fits; lia).
  split; [by apply list.NoDup_filter|lia].
Qed.

(** A group counts the flows that refer to it: adding a reference twice
    counts once, removing one forgets it, and the counter stays the number of
    distinct flows. *)
Theorem group_flow_refs_counted entry fe :
  refs_ok entry → ge_ref_count entry < 2 ^ 32 - 1 →
  let added := group_entry_add_flow_ref entry fe in
  let deleted := group_entry_del_flow_ref entry fe in
  refs_ok added ∧ refs_ok deleted ∧
  (∀ f, has_flow_ref added f = has_flow_ref entry f || bool_decide (f = fe)) ∧
  (∀ f, has_flow_ref deleted f = has_flow_ref entry f && negb (bool_decide (f = fe))).
Proof.
  intros Hok Hlt. split; [by apply refs_ok_add|]. split; [by apply refs_ok_del|].
  unfold group_entry_add_flow_ref, group_entry_del_flow_ref, has_flow_ref. split.
  - intros f. apply eq_iff_eq_true. rewrite orb_true_iff, !bool_decide_eq_true. case_bool_decide; simpl; set_solver.
  - intros f. apply eq_iff_eq_true. simpl. rewrite andb_true_iff, negb_true_iff, !bool_decide_eq_true, bool_decide_eq_false.
    rewrite list_elem_of_filter. tauto.
Qed.

Definition fresh_group : group_entry := group_entry_create (group_leaf 1).

Lemma group_flow_refs_counted_witness : refs_ok (group_entry_add_flow_ref fresh_group 7).
Proof.
  apply (group_flow_refs_counted fresh_group 7); [|done].
  split_and!; [apply NoDup_nil_2|done..].
Defined.

(** Modifying a group keeps its flow references but starts its reference
    counter at 0, so that the counter no longer counts them, and wraps around to
    2^32-1 when one of the flows goes. *)
Theorem group_modify_ref_count table mod_ entry fe t :
  group_table_find table (gm_group_id mod_) = Some entry → refs_ok entry → fe ∈ ge_flow_refs entry →
  group_table_modify table mod_ = Some (t, 0) →
  ∃ e, group_table_find t (gm_group_id mod_) = Some e ∧ ge_flow_refs e = ge_flow_refs entry ∧
       ge_ref_count e = 0 ∧ ¬ refs_ok e ∧ ge_ref_count (group_entry_del_flow_ref e fe) = 2 ^ 32 - 1.
Proof.
  intros Hf (Hnd & Hc & _) Hin. unfold group_table_modify. rewrite Hf. case_match; [intros [=]|].
  destruct (is_loop_free table mod_) as [[|]|]; simpl; [|intros [=]..]. intros [= <-].
  exists (set_refs (group_entry_create mod_) (ge_flow_refs entry) 0). split_and!; [|done|done| |].
  - unfold group_table_find. cbn [gt_entries]. apply lookup_insert_eq.
  - intros (_ & Hc' & _). cbn in Hc'. destruct (ge_flow_refs entry); [set_solver|]. simpl in Hc'. lia.
  - unfold group_entry_del_flow_ref. cbn [ge_ref_count ge_flow_refs set_refs].
    rewrite (filter_eq_NoDup fe) by done. by rewrite decide_True.
Qed.

Definition used_group : group_table :=
  GroupTable {[1 := group_entry_add_flow_ref fresh_group 7]} 1 1.

Lemma group_modify_ref_count_witness :
  ∃ t e, group_table_modify used_group (group_leaf 1) = Some (t, 0) ∧ group_table_find t 1 = Some e ∧
         ge_ref_count (group_entry_del_flow_ref e 7) = 2 ^ 32 - 1.
Proof.
  destruct (group_modify_ref_count used_group (group_leaf 1) (group_entry_add_flow_ref fresh_group 7) 7
    (match group_table_modify used_group (group_leaf 1) with Some r => r.1 | None => used_group end))
    as (e & He & _ & _ & _ & Hd).
  - by vm_compute.
  - split_and!; [apply NoDup_singleton|done..].
  - simpl. set_solver.
  - by vm_compute.
  - eexists _, e. split; [by vm_compute|]. split; [exact He|exact Hd].
Defined.
