(* ===== verification/Meter.v ===== *)
(** Meters: udatapath/meter_entry.c and udatapath/meter_table.c.

    A meter has bands, each with a token bucket that is refilled once per second
    ([meter_table_add_tokens], from dp_run) and that every packet of the meter
    takes tokens from; the packet is handled by the exhausted band with the
    highest rate.  Of a packet a meter sees the size and the IP header: the
    fields are those [packet_handle_std_validate] finds. *)

From S2P Require Import Prelude Memory OpenFlow Csum.

Definition DEFAULT_MAX_METER := 256.
Definition METER_TABLE_MAX_BANDS := 1024.
Definition OFPMF_KBPS := 1.
Definition OFPMF_PKTPS := 2.
Definition OFPMF_BURST := 4.

Inductive ofl_meter_band :=
  | BandDrop (rate burst_size : Z)
  | BandDscpRemark (rate burst_size prec_level : Z)
  | BandExperimenter (rate burst_size experimenter : Z).

Definition band_rate (b : ofl_meter_band) : Z :=
  match b with BandDrop r _ | BandDscpRemark r _ _ | BandExperimenter r _ _ => r end.
Definition band_burst_size (b : ofl_meter_band) : Z :=
  match b with BandDrop _ s | BandDscpRemark _ s _ | BandExperimenter _ s _ => s end.

Record ofl_meter_band_stats := BandStats {
  packet_band_count : Z;
  byte_band_count : Z;
  last_fill : Z;
  tokens : Z }.

Inductive meter_command := OFPMC_ADD | OFPMC_MODIFY | OFPMC_DELETE | OFPMC_other (command : Z).

Record ofl_msg_meter_mod := MeterMod {
  mm_command : meter_command;
  mm_flags : Z;
  mm_meter_id : Z;
  mm_bands : list ofl_meter_band }.

Record meter_entry := MeterEntry {
  me_flags : Z;
  me_meter_id : Z;
  me_bands : list ofl_meter_band;
  me_flow_count : Z;
  me_packet_in_count : Z;
  me_byte_in_count : Z;
  me_band_stats : list ofl_meter_band_stats;
  me_created : Z;
  me_flow_refs : list positive }.

Record meter_table := MeterTable {
  mt_entries : gmap Z meter_entry;
  mt_entries_num : Z;
  mt_bands_num : Z }.

Inductive ip_header :=
  | NoIp
  | Ipv4 (ip_ihl_ver ip_tos ip_csum : Z)
  | Ipv6 (ipv6_ver_tc_fl : Z).          (* host order *)

(** * Entries *)

Definition meter_entry_create (now : Z) (mod_ : ofl_msg_meter_mod) : meter_entry :=
  MeterEntry (mm_flags mod_) (mm_meter_id mod_) (mm_bands mod_) 0 0 0
    (replicate (length (mm_bands mod_)) (BandStats 0 0 now 0)) now [].

Definition consume_tokens (band : ofl_meter_band_stats) (meter_flag size : Z) : ofl_meter_band_stats * bool :=
  let take n :=
    if n <=? tokens band then
      (BandStats (packet_band_count band) (byte_band_count band) (last_fill band) (tokens band - n), true)
    else (band, false) in
  if truthy (Z.land meter_flag OFPMF_KBPS) then take (u32 (size * 8))
  else if truthy (Z.land meter_flag OFPMF_PKTPS) then take 1000
  else (band, false).

(** Every band takes its tokens; the index of the chosen band, -1 for none. *)
Fixpoint choose_loop (flags size : Z) (bands : list ofl_meter_band) (stats : list ofl_meter_band_stats)
    (i tmp_rate band_index : Z) : list ofl_meter_band_stats * Z :=
  match bands, stats with
  | b :: bands, s :: stats =>
    let '(s, ok) := consume_tokens s flags size in
    let '(tmp_rate, band_index) :=
      if negb ok && (tmp_rate <? band_rate b) then (band_rate b, i) else (tmp_rate, band_index) in
    let '(stats, r) := choose_loop flags size bands stats (i + 1) tmp_rate band_index in
    (s :: stats, r)
  | _, _ => (stats, band_index)
  end.

Definition choose_band (entry : meter_entry) (size : Z) : list ofl_meter_band_stats * Z :=
  choose_loop (me_flags entry) size (me_bands entry) (me_band_stats entry) 0 0 (-1).

(** Raising the drop precedence; the IPv4 checksum is updated for the 16-bit word
    that holds the version and the type of service. *)
Definition dscp_remark (prec_level : Z) (h : ip_header) : ip_header :=
  match h with
  | Ipv4 ip_ihl_ver ip_tos ip_csum =>
    let old_drop := Z.land ip_tos 0x1C in
    if ((old_drop =? 0x8) && (prec_level <=? 2)) || ((old_drop =? 0x10) && (prec_level <=? 1)) then
      let new_drop := u8 (old_drop + Z.shiftl prec_level 3) in
      let new_tos := u8 (Z.lor new_drop (Z.land ip_tos 0xE3)) in
      let old_val := bswap16 (u16 (Z.shiftl ip_ihl_ver 8 + ip_tos)) in
      let new_val := bswap16 (u16 (Z.shiftl ip_ihl_ver 8 + new_tos)) in
      Ipv4 ip_ihl_ver new_tos (Csum.recalc_csum16 ip_csum old_val new_val)
    else h
  | Ipv6 ver_tc_fl =>
    let old_drop := Z.land ver_tc_fl 0x1C00000 in
    if ((old_drop =? 0x800000) && (prec_level <=? 2)) || ((old_drop =? 0x1000000) && (prec_level <=? 1)) then
      let new_drop := u32 (old_drop + u32 (Z.shiftl prec_level 23)) in
      Ipv6 (Z.lor new_drop (Z.land ver_tc_fl 0xFE3FFFFF))
    else h
  | NoIp => h
  end.

Definition set_band_stats (entry : meter_entry) (stats : list ofl_meter_band_stats) (packets bytes : Z) : meter_entry :=
  MeterEntry (me_flags entry) (me_meter_id entry) (me_bands entry) (me_flow_count entry) packets bytes
    stats (me_created entry) (me_flow_refs entry).

Definition count_band (size : Z) (s : ofl_meter_band_stats) : ofl_meter_band_stats :=
  BandStats (u64 (packet_band_count s + 1)) (u64 (byte_band_count s + size)) (last_fill s) (tokens s).

(** [parsed] tells whether the headers could be decoded.  The packet is gone when
    the result is [None]. *)
Definition meter_entry_apply (entry : meter_entry) (size : Z) (parsed : bool) (h : ip_header) :
    meter_entry * option ip_header :=
  let packets := u64 (me_packet_in_count entry + 1) in
  let bytes := u64 (me_byte_in_count entry + size) in
  let '(stats, b) := choose_band entry size in
  if b =? -1 then (set_band_stats entry stats packets bytes, Some h)
  else
    let res := match me_bands entry !! Z.to_nat b with
               | Some (BandDrop _ _) => None
               | Some (BandDscpRemark _ _ prec) => Some (if parsed then dscp_remark prec h else h)
               | _ => Some h
               end in
    (set_band_stats entry (alter (count_band size) (Z.to_nat b) stats) packets bytes, res).

Definition meter_has_flow_ref (entry : meter_entry) (fe : positive) : bool :=
  bool_decide (fe ∈ me_flow_refs entry).

Definition set_flow_refs (entry : meter_entry) (refs : list positive) (count : Z) : meter_entry :=
  MeterEntry (me_flags entry) (me_meter_id entry) (me_bands entry) count (me_packet_in_count entry)
    (me_byte_in_count entry) (me_band_stats entry) (me_created entry) refs.

Definition meter_entry_add_flow_ref (entry : meter_entry) (fe : positive) : meter_entry :=
  if meter_has_flow_ref entry fe then entry
  else set_flow_refs entry (me_flow_refs entry ++ [fe]) (u32 (me_flow_count entry + 1)).

Definition meter_entry_del_flow_ref (entry : meter_entry) (fe : positive) : meter_entry :=
  let gone := filter (λ f, f = fe) (me_flow_refs entry) in
  set_flow_refs entry (filter (λ f, f ≠ fe) (me_flow_refs entry))
    (u32 (me_flow_count entry - Z.of_nat (length gone))).

Definition refill_band (now flags : Z) (band : ofl_meter_band) (s : ofl_meter_band_stats) : ofl_meter_band_stats :=
  let rate := u32 (band_rate band * 1000) in
  let burst_size := u32 (band_burst_size band * 1000) in
  let t := u64 (u64 (now - last_fill s) * rate + tokens s) in
  let limit := if truthy (Z.land flags OFPMF_BURST) then burst_size else rate in
  let t' := if truthy (Z.land flags OFPMF_KBPS) && (1 <=? t) then Z.min t limit
            else if 1000 <=? t then Z.min t limit else tokens s in
  BandStats (packet_band_count s) (byte_band_count s) now t'.

Definition refill_bucket (now : Z) (entry : meter_entry) : meter_entry :=
  set_band_stats entry (zip_with (refill_band now (me_flags entry)) (me_bands entry) (me_band_stats entry))
    (me_packet_in_count entry) (me_byte_in_count entry).

(** * The table *)

(** The creator leaves [bands_num] as the memory had it. *)
Definition meter_table_create (bands_num : Z) : meter_table := MeterTable ∅ 0 bands_num.

Definition meter_table_find (table : meter_table) (meter_id : Z) : option meter_entry :=
  mt_entries table !! meter_id.

Definition meter_table_apply (table : meter_table) (meter_id size : Z) (parsed : bool) (h : ip_header) :
    meter_table * option ip_header :=
  match meter_table_find table meter_id with
  | None => (table, Some h)
  | Some entry =>
    let '(entry, r) := meter_entry_apply entry size parsed h in
    (MeterTable (<[meter_id := entry]> (mt_entries table)) (mt_entries_num table) (mt_bands_num table), r)
  end.

Definition meter_table_add (now : Z) (table : meter_table) (mod_ : ofl_msg_meter_mod) : meter_table * Z :=
  if bool_decide (is_Some (mt_entries table !! mm_meter_id mod_)) then
    (table, ofl_error OFPET_METER_MOD_FAILED 1)
  else if mt_entries_num table =? DEFAULT_MAX_METER then
    (table, ofl_error OFPET_METER_MOD_FAILED 10)
  else if METER_TABLE_MAX_BANDS <? u64 (mt_bands_num table + Z.of_nat (length (mm_bands mod_))) then
    (table, ofl_error OFPET_METER_MOD_FAILED 11)
  else
    (MeterTable (<[mm_meter_id mod_ := meter_entry_create now mod_]> (mt_entries table))
       (u64 (mt_entries_num table + 1)) (u64 (mt_bands_num table + Z.of_nat (length (mm_bands mod_)))), 0).

Definition meter_table_modify (now : Z) (table : meter_table) (mod_ : ofl_msg_meter_mod) : meter_table * Z :=
  match meter_table_find table (mm_meter_id mod_) with
  | None => (table, ofl_error OFPET_METER_MOD_FAILED 3)
  | Some entry =>
    let bands := u64 (u64 (mt_bands_num table - Z.of_nat (length (me_bands entry))) +
                      Z.of_nat (length (mm_bands mod_))) in
    if METER_TABLE_MAX_BANDS <? bands then (table, ofl_error OFPET_METER_MOD_FAILED 11)
    else
      let new_entry := set_flow_refs (meter_entry_create now mod_) (me_flow_refs entry) 0 in
      (MeterTable (<[mm_meter_id mod_ := new_entry]> (mt_entries table)) (mt_entries_num table) bands, 0)
  end.

(** The third component lists the flows whose meter is gone; for [OFPM_ALL] see
    [Pipeline.walks_freed]. *)
Definition meter_table_delete (table : meter_table) (mod_ : ofl_msg_meter_mod) :
    meter_table * Z * list positive :=
  if mm_meter_id mod_ =? OFPM_ALL then
    (meter_table_create 0, 0, map_to_list (mt_entries table) ≫= λ me, me_flow_refs me.2)
  else
    match meter_table_find table (mm_meter_id mod_) with
    | None => (table, 0, [])
    | Some entry =>
      (MeterTable (delete (mm_meter_id mod_) (mt_entries table)) (u64 (mt_entries_num table - 1))
         (u64 (mt_bands_num table - Z.of_nat (length (me_band_stats entry)))), 0, me_flow_refs entry)
    end.

Definition meter_table_handle_meter_mod (now : Z) (slave : bool) (table : meter_table) (mod_ : ofl_msg_meter_mod) :
    meter_table * Z * list positive :=
  if slave then (table, ofl_error OFPET_BAD_REQUEST 10, [])
  else match mm_command mod_ with
       | OFPMC_ADD => (meter_table_add now table mod_, [])
       | OFPMC_MODIFY => (meter_table_modify now table mod_, [])
       | OFPMC_DELETE => meter_table_delete table mod_
       | OFPMC_other _ => (table, ofl_error OFPET_BAD_REQUEST 1, [])
       end.

Definition meter_table_add_tokens (now : Z) (table : meter_table) : meter_table :=
  MeterTable (refill_bucket now <$> mt_entries table) (mt_entries_num table) (mt_bands_num table).

(** * Lemmas *)

Definition cost (flags size : Z) : Z :=
  if truthy (Z.land flags OFPMF_KBPS) then u32 (size * 8) else 1000.

(** The meter measures packets: one of the two units is set. *)
Definition measures (flags : Z) : bool :=
  truthy (Z.land flags OFPMF_KBPS) || truthy (Z.land flags OFPMF_PKTPS).

Lemma consume_ok flags size s :
  (consume_tokens s flags size).2 = measures flags && (cost flags size <=? tokens s).
Proof.
  unfold consume_tokens, measures, cost. destruct (truthy (Z.land flags OFPMF_KBPS)); simpl.
  - by case_match.
  - destruct (truthy (Z.land flags OFPMF_PKTPS)); [by case_match|done].
Qed.

Lemma consume_tokens_left flags size s :
  tokens (consume_tokens s flags size).1 =
  if (consume_tokens s flags size).2 then tokens s - cost flags size else tokens s.
Proof.
  unfold consume_tokens, cost. destruct (truthy (Z.land flags OFPMF_KBPS)); simpl.
  - by case_match.
  - destruct (truthy (Z.land flags OFPMF_PKTPS)); [by case_match|done].
Qed.

Lemma cost_nonneg flags size : 0 <= cost flags size.
Proof. unfold cost. case_match; [|lia]. unfold u32. apply wrap_fits. lia. Qed.

(** A band is exhausted when it cannot pay for the packet. *)
Definition exhausted (flags size : Z) (s : ofl_meter_band_stats) : bool := negb (consume_tokens s flags size).2.

(** ** The chosen band *)

Definition candidate (flags size : Z) (bands : list ofl_meter_band) (stats : list ofl_meter_band_stats)
    (i : nat) (rate : Z) : Prop :=
  ∃ b s, bands !! i = Some b ∧ stats !! i = Some s ∧ exhausted flags size s = true ∧ rate = band_rate b.

Lemma candidate_cons flags size b bands s stats i rate :
  candidate flags size (b :: bands) (s :: stats) (S i) rate ↔ candidate flags size bands stats i rate.
Proof. done. Qed.

Lemma choose_loop_stats flags size bands stats i rate idx :
  length bands = length stats →
  (choose_loop flags size bands stats i rate idx).1 = (λ s, (consume_tokens s flags size).1) <$> stats.
Proof.
  revert stats i rate idx. induction bands as [|b bands IH]; intros [|s stats] i rate idx Hl; try done.
  rewrite fmap_cons. cbn [choose_loop]. destruct (consume_tokens s flags size) as [s' ok].
  destruct (if negb ok && _ then _ else _) as [rate' idx'].
  rewrite <- (IH stats (i + 1) rate' idx' ltac:(simpl in Hl; lia)).
  by destruct (choose_loop flags size bands stats (i + 1) rate' idx').
Qed.

(** The scan keeps the best candidate so far. *)
Lemma choose_loop_index flags size bands stats i rate idx :
  length bands = length stats →
  let r := (choose_loop flags size bands stats (Z.of_nat i) rate idx).2 in
  (r = idx ∧ ∀ k q, candidate flags size bands stats k q → q <= rate) ∨
  ∃ k q, r = Z.of_nat (i + k) ∧ rate < q ∧ candidate flags size bands stats k q ∧
    (∀ k' q', candidate flags size bands stats k' q' → q' <= q ∧ (q' = q → k <= k')%nat).
Proof.
  revert stats i rate idx. induction bands as [|b bands IH]; intros [|s stats] i rate idx Hl; try done.
  { left. split; [done|]. intros k q (? & ? & ? & _). destruct k; done. }
  simpl in Hl. simpl.
  assert (∀ k q, candidate flags size (b :: bands) (s :: stats) k q ↔
    match k with O => exhausted flags size s = true ∧ q = band_rate b | S k => candidate flags size bands stats k q end) as Hc.
  { intros [|k] q; [|done]. unfold candidate. simpl. naive_solver. }
  unfold exhausted in Hc.
  destruct (consume_tokens s flags size) as [s' ok] eqn:E. simpl in Hc.
  replace (Z.of_nat i + 1) with (Z.of_nat (S i)) by lia.
  destruct (negb ok && (rate <? band_rate b)) eqn:Eb.
  - apply andb_true_iff in Eb as [Hok Hlt%Z.ltb_lt].
    specialize (IH stats (S i) (band_rate b) (Z.of_nat i) ltac:(lia)).
    destruct (choose_loop flags size bands stats (Z.of_nat (S i)) (band_rate b) (Z.of_nat i)) as [st r]. simpl in *.
    right. destruct IH as [[-> Hmax]|(k & q & -> & Hq & Hcand & Hmax)].
    + exists 0%nat, (band_rate b). split_and!; [lia|done|by apply Hc|].
      intros [|k'] q' H%Hc; [destruct H as [_ ->]; lia|]. apply Hmax in H. lia.
    + exists (S k), q. split_and!; [lia|lia|by apply Hc|].
      intros [|k'] q' H%Hc; [destruct H as [_ ->]; lia|]. apply Hmax in H. lia.
  - specialize (IH stats (S i) rate idx ltac:(lia)).
    destruct (choose_loop flags size bands stats (Z.of_nat (S i)) rate idx) as [st r]. simpl in *.
    assert (∀ q, negb ok = true ∧ q = band_rate b → q <= rate) as H0.
    { intros q [Hn ->]. rewrite Hn in Eb. simpl in Eb. by apply Z.ltb_ge. }
    destruct IH as [[-> Hmax]|(k & q & -> & Hq & Hcand & Hmax)].
    + left. split; [done|]. intros [|k] q H%Hc; [by apply H0|by eapply Hmax].
    + right. exists (S k), q. split_and!; [lia|done|by apply Hc|].
      intros [|k'] q' H%Hc; [apply H0 in H; lia|]. apply Hmax in H. lia.
Qed.

Definition meter_ok (entry : meter_entry) : Prop := length (me_bands entry) = length (me_band_stats entry).

Definition band_effect (parsed : bool) (b : ofl_meter_band) (h : ip_header) : option ip_header :=
  match b with
  | BandDrop _ _ => None
  | BandDscpRemark _ _ prec => Some (if parsed then dscp_remark prec h else h)
  | BandExperimenter _ _ _ => Some h
  end.

Lemma meter_apply_cases entry size parsed h :
  meter_ok entry →
  let f := me_flags entry in
  let consumed := (λ s, (consume_tokens s f size).1) <$> me_band_stats entry in
  let packets := u64 (me_packet_in_count entry + 1) in
  let bytes := u64 (me_byte_in_count entry + size) in
  ((∀ k q, candidate f size (me_bands entry) (me_band_stats entry) k q → q <= 0) ∧
   meter_entry_apply entry size parsed h = (set_band_stats entry consumed packets bytes, Some h)) ∨
  ∃ k b, me_bands entry !! k = Some b ∧ 0 < band_rate b ∧
    candidate f size (me_bands entry) (me_band_stats entry) k (band_rate b) ∧
    (∀ k' q', candidate f size (me_bands entry) (me_band_stats entry) k' q' →
       q' <= band_rate b ∧ (q' = band_rate b → k <= k')%nat) ∧
    meter_entry_apply entry size parsed h =
      (set_band_stats entry (alter (count_band size) k consumed) packets bytes, band_effect parsed b h).
Proof.
  intros Hok f consumed packets bytes. unfold meter_entry_apply, choose_band.
  pose proof (choose_loop_stats f size (me_bands entry) (me_band_stats entry) 0 0 (-1) Hok) as Hst.
  pose proof (choose_loop_index f size (me_bands entry) (me_band_stats entry) 0 0 (-1) Hok) as Hix.
  change (Z.of_nat 0) with 0 in Hix. fold f.
  destruct (choose_loop f size (me_bands entry) (me_band_stats entry) 0 0 (-1)) as [st r]. simpl in Hst, Hix. subst st.
  destruct Hix as [[-> Hmax]|(k & q & -> & Hq & Hc & Hmax)]; [left; done|right].
  pose proof Hc as (b & s & Hb & Hs & He & ->). exists k, b. split_and!; [done|done|done|done|].
  destruct (Z.eqb_spec (Z.of_nat k) (-1)); [lia|]. rewrite Nat2Z.id, Hb. by destruct b.
Qed.

(** A meter hands each packet to the exhausted band with the highest rate (the
    first of equals), which drops it, raises its drop precedence or lets it pass,
    and counts it; a packet that every band can pay for passes unchanged.  Either
    way every band that can pay for the packet has paid for it. *)
Theorem meter_band_choice entry size parsed h :
  meter_ok entry →
  let f := me_flags entry in
  let paid := λ s, if exhausted f size s then tokens s else tokens s - cost f size in
  let '(e, r) := meter_entry_apply entry size parsed h in
  tokens <$> me_band_stats e = paid <$> me_band_stats entry ∧
  ((∀ k q, candidate f size (me_bands entry) (me_band_stats entry) k q → q <= 0) ∧ r = Some h ∨
   ∃ k b, me_bands entry !! k = Some b ∧ 0 < band_rate b ∧
     candidate f size (me_bands entry) (me_band_stats entry) k (band_rate b) ∧
     (∀ k' q', candidate f size (me_bands entry) (me_band_stats entry) k' q' →
        q' <= band_rate b ∧ (q' = band_rate b → k <= k')%nat) ∧
     r = band_effect parsed b h).
Proof.
  intros Hok f paid.
  assert (∀ l : list ofl_meter_band_stats, tokens <$> ((λ s, (consume_tokens s f size).1) <$> l) = paid <$> l) as Hpaid.
  { intros l. rewrite <- list_fmap_compose. apply list_fmap_ext. intros _ s _. simpl.
    rewrite consume_tokens_left. unfold paid, exhausted. by destruct (consume_tokens s f size).2. }
  destruct (meter_apply_cases entry size parsed h Hok) as [[Hno ->]|(k & b & Hb & Hr & Hc & Hmax & ->)]; simpl.
  - split; [apply Hpaid|]. left. done.
  - split; [|right; exists k, b; done].
    rewrite (list_fmap_alter tokens _ (λ x, x)) by (by apply list.Forall_forall).
    rewrite list_alter_id by done. apply Hpaid.
Qed.

Definition meter_example : meter_entry :=
  refill_bucket 1000 (meter_entry_create 0 (MeterMod OFPMC_ADD OFPMF_KBPS 1 [BandDrop 1 0; BandDscpRemark 2 0 1])).

Lemma meter_band_choice_witness :
  tokens <$> me_band_stats (meter_entry_apply meter_example 200 true (Ipv4 0x45 0x28 0)).1 = [1000; 400].
Proof.
  pose proof (meter_band_choice meter_example 200 true (Ipv4 0x45 0x28 0) eq_refl) as H. cbv zeta in H.
  destruct (meter_entry_apply meter_example 200 true (Ipv4 0x45 0x28 0)) as [e r].
  destruct H as [H _]. cbn [fst]. rewrite H. by vm_compute.
Defined.

(** ** Conformance *)

Inductive meter_event := Refill (now : Z) | Arrive (size : Z) (h : ip_header).

(** The bits that got through, and how often the buckets were refilled. *)
Fixpoint meter_run (entry : meter_entry) (evs : list meter_event) : Z * Z :=
  match evs with
  | [] => (0, 0)
  | Refill now :: evs => let '(passed, n) := meter_run (refill_bucket now entry) evs in (passed, n + 1)
  | Arrive size h :: evs =>
    let '(entry, r) := meter_entry_apply entry size true h in
    let '(passed, n) := meter_run entry evs in
    (passed + match r with Some _ => size * 8 | None => 0 end, n)
  end.

Definition event_ok (ev : meter_event) : Prop :=
  match ev with Refill _ => True | Arrive size _ => 0 <= size < 2 ^ 29 end.

Definition band_limit (flags : Z) (b : ofl_meter_band) : Z :=
  if truthy (Z.land flags OFPMF_BURST) then u32 (band_burst_size b * 1000) else u32 (band_rate b * 1000).

Definition drop_band (b : ofl_meter_band) : Prop :=
  match b with BandDrop rate _ => 0 <= rate | _ => False end.

Lemma refill_tokens now flags b s : 0 <= tokens s → 0 <= tokens (refill_band now flags b s) <= tokens s + band_limit flags b.
Proof.
  intros Hs. unfold refill_band, band_limit. cbn [tokens].
  pose proof (wrap_fits 32 (band_burst_size b * 1000) ltac:(lia)) as H1.
  pose proof (wrap_fits 32 (band_rate b * 1000) ltac:(lia)) as H2. unfold u32, fits in *.
  repeat case_match; lia.
Qed.

Lemma meter_ok_refill now entry : meter_ok entry → meter_ok (refill_bucket now entry).
Proof. unfold meter_ok. intros H. cbn. rewrite length_zip_with. lia. Qed.

(** A packet gets through a meter of drop bands only if every band with a rate paid for it. *)
Lemma drop_meter_apply entry size parsed h j b s :
  meter_ok entry → Forall drop_band (me_bands entry) → me_bands entry !! j = Some b → 0 < band_rate b → me_band_stats entry !! j = Some s →
  let '(e, r) := meter_entry_apply entry size parsed h in
  meter_ok e ∧ me_bands e = me_bands entry ∧ me_flags e = me_flags entry ∧
  ∃ s', me_band_stats e !! j = Some s' ∧
    (r ≠ None → cost (me_flags entry) size <= tokens s ∧ tokens s' = tokens s - cost (me_flags entry) size) ∧
    (tokens s' = tokens s ∨ cost (me_flags entry) size <= tokens s ∧ tokens s' = tokens s - cost (me_flags entry) size).
Proof.
  intros Hok Hd Hb Hrate Hs. pose proof (consume_ok (me_flags entry) size s) as Hcok. pose proof (consume_tokens_left (me_flags entry) size s) as Hleft.
  assert (∀ c, tokens (count_band size c) = tokens c) as Hcount by done.
  assert (tokens (consume_tokens s (me_flags entry) size).1 = tokens s ∨
          cost (me_flags entry) size <= tokens s ∧
          tokens (consume_tokens s (me_flags entry) size).1 = tokens s - cost (me_flags entry) size) as Hor.
  { rewrite Hleft, Hcok. destruct (measures _); simpl; [|auto].
    destruct (Z.leb_spec (cost (me_flags entry) size) (tokens s)); auto. }
  destruct (meter_apply_cases entry size parsed h Hok) as [[Hno ->]|(k & b' & Hb' & _ & _ & _ & ->)].
  - split_and!; [unfold meter_ok; simpl; by rewrite length_fmap|done|done|].
    exists (consume_tokens s (me_flags entry) size).1. split; [simpl; by rewrite list_lookup_fmap, Hs|].
    split; [|done]. intros _. destruct (consume_tokens s (me_flags entry) size).2 eqn:E.
    + symmetry in Hcok. apply andb_true_iff in Hcok as [_ ?%Z.leb_le]. done.
    + pose proof (Hno j (band_rate b) ltac:(exists b, s; unfold exhausted; by rewrite E)).
      lia.
  - split_and!; [unfold meter_ok; simpl; by rewrite length_alter, length_fmap|done|done|].
    cbn [me_band_stats set_band_stats].
    exists (if decide (k = j) then count_band size (consume_tokens s (me_flags entry) size).1 else (consume_tokens s (me_flags entry) size).1).
    split; [|split].
    + rewrite list_lookup_alter. case_decide; subst; by rewrite list_lookup_fmap, Hs.
    + rewrite Forall_lookup in Hd. specialize (Hd _ _ Hb'). by destruct b'.
    + case_decide; rewrite ?Hcount; done.
Qed.

Lemma drop_meter_conform entry evs j b s :
  meter_ok entry → Forall drop_band (me_bands entry) → truthy (Z.land (me_flags entry) OFPMF_KBPS) = true →
  Forall event_ok evs → me_bands entry !! j = Some b → 0 < band_rate b → me_band_stats entry !! j = Some s → 0 <= tokens s →
  let '(passed, n) := meter_run entry evs in
  passed <= tokens s + n * band_limit (me_flags entry) b.
Proof.
  intros Hok Hd Hf Hev Hb Hrate. revert entry Hok Hd Hf Hb s. induction Hev as [|ev evs Hv _ IH]; intros entry Hok Hd Hf Hb s Hs H0.
  { simpl. lia. }
  destruct ev as [now|size h]; cbn [meter_run].
  - pose proof (refill_tokens now (me_flags entry) b s H0) as Hr.
    specialize (IH (refill_bucket now entry) (meter_ok_refill now entry Hok) Hd Hf Hb (refill_band now (me_flags entry) b s)).
    destruct (meter_run (refill_bucket now entry) evs) as [passed n].
    enough (passed <= tokens (refill_band now (me_flags entry) b s) + n * band_limit (me_flags entry) b) by lia.
    apply IH; [|lia]. simpl. by rewrite lookup_zip_with, Hb; simpl; rewrite Hs.
  - pose proof (drop_meter_apply entry size true h j b s Hok Hd Hb Hrate Hs) as Ha.
    destruct (meter_entry_apply entry size true h) as [e r].
    destruct Ha as (Hok' & Hbs & Hfl & s' & Hs' & Hpass & Hle).
    assert (cost (me_flags entry) size = size * 8) as Hcost.
    { unfold cost. rewrite Hf. unfold u32. apply wrap_small. simpl in Hv. unfold fits. lia. }
    pose proof (cost_nonneg (me_flags entry) size).
    specialize (IH e Hok'). rewrite Hbs, Hfl in IH. specialize (IH Hd Hf Hb s' Hs' ltac:(lia)).
    destruct (meter_run e evs) as [passed n]. destruct r as [h'|]; [|lia].
    destruct (Hpass ltac:(done)) as [? Ht]. lia.
Qed.

Lemma u32_le x : 0 <= x → u32 x <= x.
Proof. intros H. unfold u32, wrap. by apply Z.mod_le. Qed.

Lemma created_stats now mod_ j b :
  mm_bands mod_ !! j = Some b → me_band_stats (meter_entry_create now mod_) !! j = Some (BandStats 0 0 now 0).
Proof. intros Hb. apply lookup_replicate. split; [done|]. by eapply lookup_lt_Some. Qed.

Lemma created_ok now mod_ : meter_ok (meter_entry_create now mod_).
Proof. unfold meter_ok. simpl. by rewrite length_replicate. Qed.

(** The bits of the packets that come. *)
Definition offered (evs : list meter_event) : Z :=
  foldr (λ ev n, match ev with Refill _ => n | Arrive size _ => size * 8 + n end) 0 evs.

Lemma refills_nonneg entry evs : 0 <= (meter_run entry evs).2.
Proof.
  revert entry. induction evs as [|[]]; intros e; simpl; [lia|..].
  - specialize (IHevs (refill_bucket now e)). destruct (meter_run _ evs). simpl in *. lia.
  - destruct (meter_entry_apply e size true h) as [e' r]. specialize (IHevs e'). by destruct (meter_run e' evs).
Qed.

(** Bands of rate 0 are never chosen. *)
Lemma rateless_run entry evs :
  meter_ok entry → Forall (λ b, band_rate b = 0) (me_bands entry) → (meter_run entry evs).1 = offered evs.
Proof.
  revert entry. induction evs as [|[now|size h] evs IH]; intros entry Hok Hz; cbn [meter_run offered foldr]; [done|..].
  - specialize (IH (refill_bucket now entry) (meter_ok_refill now entry Hok) Hz). by destruct (meter_run _ evs).
  - destruct (meter_apply_cases entry size true h Hok) as [[_ ->]|(k & b & Hb & Hr & _)].
    + set (e := set_band_stats _ _ _ _). assert (He : meter_ok e) by (unfold meter_ok, e; simpl; by rewrite length_fmap).
      specialize (IH e He Hz). destruct (meter_run e evs). simpl in *. unfold offered in IH. lia.
    + pose proof (proj1 (Forall_lookup _ _) Hz _ _ Hb) as E. cbn in E. lia.
Qed.

(** C37: a meter in kbit/s made of drop bands keeps to the rate of each band that has one: since it
    was created, at most [1000 * rate] bits per refill have got through (the burst
    size in place of the rate where the meter has the burst flag), whatever the
    packets (of less than 2^29 bytes) and however they come.  A band whose rate is 0 limits nothing: it is never
    chosen, and a meter of such bands lets everything through. *)
Theorem meter_conformance now mod_ evs :
  Forall drop_band (mm_bands mod_) → truthy (Z.land (mm_flags mod_) OFPMF_KBPS) = true → Forall event_ok evs →
  let '(passed, n) := meter_run (meter_entry_create now mod_) evs in
  (∀ j b, mm_bands mod_ !! j = Some b → 0 < band_rate b → 0 <= band_burst_size b →
     passed <= n * (1000 * (if truthy (Z.land (mm_flags mod_) OFPMF_BURST) then band_burst_size b else band_rate b))) ∧
  (Forall (λ b, band_rate b = 0) (mm_bands mod_) → passed = offered evs).
Proof.
  intros Hd Hf Hev. pose proof (refills_nonneg (meter_entry_create now mod_) evs) as Hn.
  pose proof (rateless_run (meter_entry_create now mod_) evs (created_ok now mod_)) as Hz.
  pose proof (λ j b Hb Hr, drop_meter_conform (meter_entry_create now mod_) evs j b _ (created_ok now mod_) Hd Hf Hev Hb Hr
    (created_stats now mod_ j b Hb) ltac:(simpl; lia)) as H.
  destruct (meter_run _ evs) as [passed n]. split; [|exact Hz]. intros j b Hb Hrate Hburst. specialize (H j b Hb Hrate). simpl in *. unfold band_limit in H.
  pose proof (u32_le (band_rate b * 1000) ltac:(lia)). pose proof (u32_le (band_burst_size b * 1000) ltac:(lia)).
  destruct (truthy (Z.land (mm_flags mod_) OFPMF_BURST)); nia.
Qed.

Definition ten_kbps : ofl_msg_meter_mod := MeterMod OFPMC_ADD OFPMF_KBPS 1 [BandDrop 10 0].

Definition zero_kbps : ofl_msg_meter_mod := MeterMod OFPMC_ADD OFPMF_KBPS 1 [BandDrop 0 0].

Lemma meter_conformance_witness :
  meter_run (meter_entry_create 0 ten_kbps)
    [Refill 1000; Arrive 1000 NoIp; Arrive 1000 NoIp; Refill 2000; Arrive 1250 NoIp] = (18000, 2) ∧ 18000 <= 2 * (1000 * 10) ∧
  (meter_run (meter_entry_create 0 zero_kbps) [Refill 1000; Arrive 1000 NoIp; Arrive 1000 NoIp]).1 = 16000.
Proof.
  split; [by vm_compute|]. split.
  - apply (proj1 (meter_conformance 0 ten_kbps
      [Refill 1000; Arrive 1000 NoIp; Arrive 1000 NoIp; Refill 2000; Arrive 1250 NoIp] ltac:(repeat constructor; done) ltac:(done)
      ltac:(repeat constructor; done)) 0%nat (BandDrop 10 0)); done.
  - pose proof (meter_conformance 0 zero_kbps [Refill 1000; Arrive 1000 NoIp; Arrive 1000 NoIp] ltac:(repeat constructor; done) ltac:(done)
      ltac:(repeat constructor; done)) as H.
    destruct (meter_run _ _) as [passed n]. destruct H as [_ H]. cbn [fst]. rewrite (H ltac:(repeat constructor)). reflexivity.
Defined.

(** The rate is multiplied by 1000 in 32 bits, so that rates from 4294968
    kbit/s (about 4.3 Gbit/s) on wrap around: a meter for 4294968 kbit/s lets no
    more than 704 bits through per refill. *)
Theorem meter_rate_wraps now burst evs :
  Forall event_ok evs →
  let '(passed, n) := meter_run (meter_entry_create now (MeterMod OFPMC_ADD OFPMF_KBPS 1 [BandDrop 4294968 burst])) evs in
  passed <= n * 704.
Proof.
  intros Hev. set (mod_ := MeterMod _ _ _ _).
  pose proof (drop_meter_conform (meter_entry_create now mod_) evs 0 (BandDrop 4294968 burst) _ (created_ok now mod_)
    ltac:(repeat constructor; done) ltac:(done) Hev ltac:(done) ltac:(done) (created_stats now mod_ 0 _ eq_refl) ltac:(simpl; lia)) as H.
  by destruct (meter_run _ evs) as [passed n].
Qed.

Lemma meter_rate_wraps_witness :
  meter_run (meter_entry_create 0 (MeterMod OFPMC_ADD OFPMF_KBPS 1 [BandDrop 4294968 0]))
    [Refill 1000; Arrive 88 NoIp; Arrive 88 NoIp; Refill 2000; Arrive 89 NoIp] = (704, 2) ∧ 704 <= 2 * 704.
Proof.
  split; [by vm_compute|].
  apply (meter_rate_wraps 0 0 [Refill 1000; Arrive 88 NoIp; Arrive 88 NoIp; Refill 2000; Arrive 89 NoIp]).
  repeat constructor; done.
Defined.

(** ** Remarking *)

Definition remarkable (drop low medium prec_level : Z) : bool :=
  ((drop =? low) && (prec_level <=? 2)) || ((drop =? medium) && (prec_level <=? 1)).

Lemma tos_remark t prec :
  fits 8 t → 0 <= prec → remarkable (Z.land t 0x1C) 0x8 0x10 prec = true →
  u8 (Z.lor (u8 (Z.land t 0x1C + Z.shiftl prec 3)) (Z.land t 0xE3)) = t + 8 * prec.
Proof.
  intros Ht Hp Hr.
  assert (0 <= prec < 3) as Hp3.
  { split; [done|]. apply orb_true_iff in Hr as [[_ ?%Z.leb_le]%andb_true_iff|[_ ?%Z.leb_le]%andb_true_iff]; lia. }
  pose proof (forallb_range 256 (λ t, forallb (λ p, implb (remarkable (Z.land t 0x1C) 0x8 0x10 p)
    (u8 (Z.lor (u8 (Z.land t 0x1C + Z.shiftl p 3)) (Z.land t 0xE3)) =? t + 8 * p)) (seqZ 0 3)) t
    ltac:(by vm_compute) Ht) as H. cbv beta in H.
  apply (forallb_range 3 _ prec) in H; [|done]. cbv beta in H. rewrite Hr in H. by apply Z.eqb_eq.
Qed.

(** Splitting a word along a mask. *)
Lemma split_mask w : fits 32 w → w = Z.land w 0x1C00000 + Z.land w 0xFE3FFFFF.
Proof.
  intros Hw. rewrite <- lor_disjoint.
  - rewrite <- Z.land_lor_distr_r. change (Z.lor 0x1C00000 0xFE3FFFFF) with (2 ^ 32 - 1).
    rewrite land_ones_wrap by lia. by rewrite wrap_small.
  - rewrite <- Z.land_assoc, (Z.land_assoc _ w), (Z.land_comm _ w), <- Z.land_assoc. 
    change (Z.land 0x1C00000 0xFE3FFFFF) with 0. by rewrite !Z.land_0_r.
Qed.

Lemma word_remark w d prec :
  fits 32 w → Z.land w 0x1C00000 = d → u32 (d + u32 (Z.shiftl prec 23)) = d + prec * 2 ^ 23 →
  Z.land (d + prec * 2 ^ 23) 0xFE3FFFFF = 0 →
  Z.lor (u32 (d + u32 (Z.shiftl prec 23))) (Z.land w 0xFE3FFFFF) = w + prec * 2 ^ 23.
Proof.
  intros Hw Hd -> Hdis. rewrite lor_disjoint.
  - rewrite (split_mask w Hw) at 2. rewrite Hd. lia.
  - rewrite (Z.land_comm w), Z.land_assoc, Hdis. apply Z.land_0_l.
Qed.

(** The DSCP remark raises the drop precedence of an AF class by
    [prec_level] steps and touches nothing else of the type of service / traffic
    class: only when the result is still a valid class, and for IPv4 with a
    checksum that stays right (unless the old one is [2048 * prec_level - 1],
    where the incremental update goes wrong). *)
Theorem dscp_remark_correct prec :
  0 <= prec →
  (∀ v t c, fits 8 v → fits 8 t → fits 16 c →
    if remarkable (Z.land t 0x1C) 0x8 0x10 prec then
      ∃ c', dscp_remark prec (Ipv4 v t c) = Ipv4 v (t + 8 * prec) c' ∧
        ∀ rest, c ≠ 2048 * prec - 1 → Csum.csum_valid (rest + (v + 256 * t)) c →
                Csum.csum_valid (rest + (v + 256 * (t + 8 * prec))) c'
    else dscp_remark prec (Ipv4 v t c) = Ipv4 v t c) ∧
  (∀ w, fits 32 w →
    dscp_remark prec (Ipv6 w) =
      if remarkable (Z.land w 0x1C00000) 0x800000 0x1000000 prec then Ipv6 (w + prec * 2 ^ 23) else Ipv6 w).
Proof.
  intros Hp. split.
  - intros v t c Hv Ht Hc. unfold dscp_remark. fold (remarkable (Z.land t 0x1C) 0x8 0x10 prec).
    destruct (remarkable (Z.land t 0x1C) 0x8 0x10 prec) eqn:Hr; [|done].
    pose proof (tos_remark t prec Ht Hp Hr) as Htos.
    pose proof (wrap_fits 8 (Z.lor (u8 (Z.land t 0x1C + Z.shiftl prec 3)) (Z.land t 0xE3)) ltac:(lia)) as Hf.
    fold (u8 (Z.lor (u8 (Z.land t 0x1C + Z.shiftl prec 3)) (Z.land t 0xE3))) in Hf.
    rewrite Htos in Hf |- *. rewrite !bswap16_bytes by done. eexists. split; [done|]. intros rest Hne Hvalid.
    apply Csum.recalc16_valid; [done|unfold fits in *; lia|unfold fits in *; lia|lia|done].
  - intros w Hw. unfold dscp_remark. fold (remarkable (Z.land w 0x1C00000) 0x800000 0x1000000 prec).
    destruct (remarkable (Z.land w 0x1C00000) 0x800000 0x1000000 prec) eqn:Hr; [|done]. f_equal.
    unfold remarkable in Hr.
    apply orb_true_iff in Hr as [[Hd%Z.eqb_eq Hle%Z.leb_le]%andb_true_iff|[Hd%Z.eqb_eq Hle%Z.leb_le]%andb_true_iff];
      apply word_remark; try done; rewrite Hd.
    1,2: assert (prec = 0 ∨ prec = 1 ∨ prec = 2) as [-> | [-> | ->]] by lia; by vm_compute.
    all: assert (prec = 0 ∨ prec = 1) as [-> | ->] by lia; by vm_compute.
Qed.

Lemma dscp_remark_witness : dscp_remark 1 (Ipv6 0x60a00000) = Ipv6 0x61200000.
Proof. apply (proj2 (dscp_remark_correct 1 ltac:(done)) 0x60a00000). done. Defined.

(** ** The table *)

Definition bands_of (entries : gmap Z meter_entry) : Z :=
  map_fold (λ _ e acc, Z.of_nat (length (me_bands e)) + acc) 0 entries.

Record meter_table_ok (table : meter_table) : Prop := {
  mto_entry : ∀ id e, mt_entries table !! id = Some e → me_meter_id e = id ∧ meter_ok e;
  mto_entries : mt_entries_num table = Z.of_nat (size (mt_entries table));
  mto_bands : mt_bands_num table = bands_of (mt_entries table);
  mto_max : mt_entries_num table <= DEFAULT_MAX_METER ∧ mt_bands_num table <= METER_TABLE_MAX_BANDS }.

Lemma bands_of_insert m id e :
  m !! id = None → bands_of (<[id := e]> m) = Z.of_nat (length (me_bands e)) + bands_of m.
Proof. intros H. unfold bands_of. rewrite map_fold_insert_L; [done| |done]. intros. lia. Qed.

Lemma bands_of_delete m id e :
  m !! id = Some e → bands_of m = Z.of_nat (length (me_bands e)) + bands_of (delete id m).
Proof. intros H. unfold bands_of. rewrite (map_fold_delete_L _ _ id e); [done| |done]. intros. lia. Qed.

Lemma bands_of_nonneg m : 0 <= bands_of m.
Proof. induction m as [|id e m Hm IH] using map_ind; [done|]. rewrite bands_of_insert by done. lia. Qed.

Lemma meter_insert_ok table n k id e :
  meter_table_ok table → me_meter_id e = id → meter_ok e →
  n = Z.of_nat (size (<[id := e]> (mt_entries table))) → k = bands_of (<[id := e]> (mt_entries table)) →
  n <= DEFAULT_MAX_METER → k <= METER_TABLE_MAX_BANDS →
  meter_table_ok (MeterTable (<[id := e]> (mt_entries table)) n k).
Proof.
  intros Hok He Hm Hn Hk Hn' Hk'. split; [|done..]. intros id' e'. cbn [mt_entries]. rewrite lookup_insert_Some.
  intros [[<- <-]|[_ ?]]; [done|]. by apply (mto_entry _ Hok).
Qed.

Lemma bands_of_fmap f m : (∀ e, length (me_bands (f e)) = length (me_bands e)) → bands_of (f <$> m) = bands_of m.
Proof.
  intros Hf. induction m as [|id e m Hm IH] using map_ind; [done|].
  rewrite fmap_insert, !bands_of_insert, IH, Hf; [done|done|]. by rewrite lookup_fmap, Hm.
Qed.

Lemma meter_add_ok now table mod_ :
  meter_table_ok table → Z.of_nat (length (mm_bands mod_)) < 2 ^ 16 →
  let r := meter_table_add now table mod_ in meter_table_ok r.1 ∧ (r.2 ≠ 0 → r.1 = table).
Proof.
  intros Hok Hlen. unfold meter_table_add.
  destruct (bool_decide_reflect (is_Some (mt_entries table !! mm_meter_id mod_))) as [|Hnew%eq_None_not_Some]; [done|].
  pose proof Hok as [_ Hn Hb [Hmn Hmb]]. unfold DEFAULT_MAX_METER, METER_TABLE_MAX_BANDS in *.
  destruct (Z.eqb_spec (mt_entries_num table) 256); [done|].
  pose proof (bands_of_nonneg (mt_entries table)). unfold u64. rewrite !wrap_small by (unfold fits; lia).
  destruct (Z.ltb_spec 1024 (mt_bands_num table + Z.of_nat (length (mm_bands mod_)))); [done|]. cbn [fst snd].
  split; [|done]. apply meter_insert_ok; [done|done|apply created_ok| | |unfold DEFAULT_MAX_METER; lia|done].
  - rewrite map_size_insert_None by done. lia.
  - rewrite bands_of_insert by done. simpl. lia.
Qed.

Lemma meter_modify_ok now table mod_ :
  meter_table_ok table → Z.of_nat (length (mm_bands mod_)) < 2 ^ 16 →
  let r := meter_table_modify now table mod_ in meter_table_ok r.1 ∧ (r.2 ≠ 0 → r.1 = table).
Proof.
  intros Hok Hlen. unfold meter_table_modify, meter_table_find.
  destruct (mt_entries table !! mm_meter_id mod_) as [entry|] eqn:Hf; [|done].
  pose proof Hok as [_ Hn Hb [Hmn Hmb]]. pose proof (bands_of_delete _ _ _ Hf).
  pose proof (bands_of_nonneg (delete (mm_meter_id mod_) (mt_entries table))).
  unfold DEFAULT_MAX_METER, METER_TABLE_MAX_BANDS in *. unfold u64. rewrite !wrap_small by (rewrite ?wrap_small; unfold fits; lia).
  destruct (Z.ltb_spec 1024 (mt_bands_num table - Z.of_nat (length (me_bands entry)) + Z.of_nat (length (mm_bands mod_)))); [done|].
  cbn [fst snd]. split; [|done]. apply meter_insert_ok; [done|done|apply created_ok| | |done|done].
  - by rewrite map_size_insert_Some.
  - rewrite <- insert_delete_eq, bands_of_insert by apply lookup_delete_eq. simpl. lia.
Qed.

Lemma meter_delete_ok table mod_ :
  meter_table_ok table → let r := meter_table_delete table mod_ in meter_table_ok r.1.1 ∧ r.1.2 = 0.
Proof.
  intros Hok. unfold meter_table_delete, meter_table_find. case_match.
  { split; [|done]. split; [|done..]. intros id e. simpl. by rewrite lookup_empty. }
  destruct (mt_entries table !! mm_meter_id mod_) as [entry|] eqn:Hf; [|done].
  pose proof Hok as [He Hn Hb [Hmn Hmb]]. pose proof (bands_of_delete _ _ _ Hf).
  pose proof (bands_of_nonneg (delete (mm_meter_id mod_) (mt_entries table))).
  pose proof (map_size_delete_Some (mm_meter_id mod_) (mt_entries table) ltac:(eauto)).
  assert (0 < size (mt_entries table))%nat.
  { apply Nat.neq_0_lt_0. intros E%map_size_empty_inv. rewrite E in Hf. done. }
  destruct (He _ _ Hf) as [_ Hmk]. unfold meter_ok in Hmk. rewrite <- Hmk.
  unfold DEFAULT_MAX_METER, METER_TABLE_MAX_BANDS, u64 in *. rewrite !wrap_small by (unfold fits; lia).
  cbn [fst snd]. split; [|done]. split; cbn [mt_entries mt_entries_num mt_bands_num].
  - intros id e. rewrite lookup_delete_Some. intros [_ ?]. by apply He.
  - lia.
  - lia.
  - unfold DEFAULT_MAX_METER, METER_TABLE_MAX_BANDS. lia.
Qed.

Lemma meter_apply_ok table id size parsed h : meter_table_ok table → meter_table_ok (meter_table_apply table id size parsed h).1.
Proof.
  intros Hok. unfold meter_table_apply, meter_table_find. destruct (mt_entries table !! id) as [e|] eqn:Hf; [|done].
    destruct (mto_entry _ Hok _ _ Hf) as [Hid Hmk]. pose proof Hok as [He Hn Hb [Hmn Hmb]].
    assert (∃ st p b, (meter_entry_apply e size parsed h).1 = set_band_stats e st p b ∧ length st = length (me_band_stats e))
      as (st & p & b & Hst & Hl).
    { destruct (meter_apply_cases e size parsed h Hmk) as [[_ ->]|(k & bd & _ & _ & _ & _ & ->)]; simpl;
        eexists _, _, _; (split; [done|]); by rewrite ?length_alter, length_fmap. }
    destruct (meter_entry_apply e size parsed h) as [e' r]. cbn [fst] in *. subst e'.
    apply meter_insert_ok; [done|done|unfold meter_ok; simpl; by rewrite Hl| | |done|done].
    - by rewrite map_size_insert_Some.
    - rewrite <- insert_delete_eq, bands_of_insert by apply lookup_delete_eq. rewrite Hb. by rewrite (bands_of_delete _ _ _ Hf).
Qed.

(** The meter table stays intact under every meter_mod message, refill and
    packet: each meter is under its id with one token bucket per band, and the
    counters are the numbers of meters and bands, within their limits; a
    meter_mod that is answered with an error changes nothing. *)
Theorem meter_table_invariant now slave table mod_ id size parsed h :
  meter_table_ok table → Z.of_nat (length (mm_bands mod_)) < 2 ^ 16 →
  let '(t, err, flows) := meter_table_handle_meter_mod now slave table mod_ in
  meter_table_ok t ∧ (err ≠ 0 → t = table ∧ flows = []) ∧
  meter_table_ok (meter_table_add_tokens now table) ∧
  meter_table_ok (meter_table_apply table id size parsed h).1.
Proof.
  intros Hok Hlen.
  assert (meter_table_ok (meter_table_add_tokens now table)) as Htok.
  { destruct Hok as [He Hn Hb Hm]. split; cbn [meter_table_add_tokens mt_entries mt_entries_num mt_bands_num].
    - intros i e. rewrite lookup_fmap_Some. intros (e0 & <- & H0). destruct (He _ _ H0). split; [done|by apply meter_ok_refill].
    - by rewrite map_size_fmap.
    - by rewrite bands_of_fmap.
    - done. }
  pose proof (meter_apply_ok table id size parsed h Hok) as Happ.
  unfold meter_table_handle_meter_mod. destruct slave; [done|]. destruct (mm_command mod_).
  - destruct (meter_add_ok now table mod_ Hok Hlen). destruct (meter_table_add now table mod_). simpl in *. naive_solver.
  - destruct (meter_modify_ok now table mod_ Hok Hlen). destruct (meter_table_modify now table mod_). simpl in *. naive_solver.
  - destruct (meter_delete_ok table mod_ Hok). destruct (meter_table_delete table mod_) as [[t e] f]. simpl in *. naive_solver.
  - naive_solver.
Qed.

Lemma empty_meter_table_ok : meter_table_ok (meter_table_create 0).
Proof. split; [|done..]. intros id e. simpl. by rewrite lookup_empty. Qed.

Lemma meter_table_invariant_witness :
  meter_table_ok (meter_table_handle_meter_mod 0 false (meter_table_create 0) ten_kbps).1.1.
Proof.
  pose proof (meter_table_invariant 0 false (meter_table_create 0) ten_kbps 1 1 true NoIp empty_meter_table_ok ltac:(done)) as H.
  destruct (meter_table_handle_meter_mod 0 false (meter_table_create 0) ten_kbps) as [[t e] f]. apply H.
Defined.
