(* ===== verification/Ports.v ===== *)
(** Ports, queues and the choice of output ports: udatapath/dp_ports.c (from
    [port_speed] to [tipo_switch_port]) and [matriz_aleatoria_gen] of
    udatapath/udatapath.c.

    The port structures are a map from port numbers; the local port is the one
    numbered OFPP_LOCAL.  [port_list] keeps the numbers in the order of the C list.
    Network devices (lib/netdev.c) are outside: whether they accept a frame or a
    class is the parameter [netdev], and the frames handed to them are results. *)

From S2P Require Import Prelude OpenFlow LinkedList MacTable.

Definition DP_MAX_PORTS := 255.
Definition NETDEV_MAX_QUEUES : nat := 8.
Definition OFPPC_PORT_DOWN := 1.
Definition OFPPC_NO_RECV := 4.
Definition OFPPC_NO_FWD := 32.
Definition PORT_HOST := 0.
Definition PORT_CORE := 1.
Definition PORT_TOR := 3.
Definition OFPPS_LINK_DOWN := 1.
Definition OFPPS_LIVE := 4.
Definition OFPQ_ALL := 0xffffffff.
Definition EXFULL := 54.
Definition OFPET_PORT_MOD_FAILED := 7.
Definition OFPET_QUEUE_OP_FAILED := 9.

Record sw_queue := Queue {
  q_class_id : Z;
  q_rate : Z;
  q_tx_packets : Z;
  q_tx_bytes : Z;
  q_created : Z }.

#[global] Instance sw_queue_eq : EqDecision sw_queue.
Proof. solve_decision. Defined.

(** [sp_netdev] is the hardware address of the device, [None] when there is no
    device; a queue is in use when its [port] pointer is set. *)
Record sw_port := SwPort {
  sp_used : bool;
  sp_netdev : option (list Z);
  sp_port_no : Z;
  sp_config : Z;
  sp_state : Z;
  sp_rx_packets : Z;
  sp_rx_bytes : Z;
  sp_tx_packets : Z;
  sp_tx_bytes : Z;
  sp_tx_dropped : Z;
  sp_max_queues : Z;
  sp_num_queues : Z;
  sp_created : Z;
  sp_queues : list (option sw_queue) }.

(** The memory of a port that was not created yet: its [conf], [stats] and [netdev]
    pointers are null together.  The loops over the list of ports follow these pointers; a listed
    port that was not created would make them stop the switch, where the functions below go on with
    this record.  There is none: the list has only created ports ([ports_ok], which
    every operation keeps, [PortsCorrect.ports_invariant]). *)
Definition zero_port : sw_port := SwPort false None 0 0 0 0 0 0 0 0 0 0 0 (replicate NETDEV_MAX_QUEUES None).

Record dp_ports := DpPorts {
  ports : gmap Z sw_port;
  port_list : list Z;
  ports_num : Z;
  max_queues : Z }.

Definition local_port (dp : dp_ports) : bool := bool_decide (is_Some (ports dp !! OFPP_LOCAL)).

Definition set_port_at (dp : dp_ports) (no : Z) (p : sw_port) : dp_ports :=
  DpPorts (<[no := p]> (ports dp)) (port_list dp) (ports_num dp) (max_queues dp).
Definition set_conf (p : sw_port) (config state : Z) : sw_port :=
  SwPort (sp_used p) (sp_netdev p) (sp_port_no p) config state (sp_rx_packets p) (sp_rx_bytes p) (sp_tx_packets p) (sp_tx_bytes p) (sp_tx_dropped p)
    (sp_max_queues p) (sp_num_queues p) (sp_created p) (sp_queues p).
Definition set_rx (p : sw_port) (packets bytes : Z) : sw_port :=
  SwPort (sp_used p) (sp_netdev p) (sp_port_no p) (sp_config p) (sp_state p) packets bytes (sp_tx_packets p) (sp_tx_bytes p)
    (sp_tx_dropped p) (sp_max_queues p) (sp_num_queues p) (sp_created p) (sp_queues p).
Definition set_tx (p : sw_port) (packets bytes dropped : Z) : sw_port :=
  SwPort (sp_used p) (sp_netdev p) (sp_port_no p) (sp_config p) (sp_state p) (sp_rx_packets p) (sp_rx_bytes p) packets bytes dropped
    (sp_max_queues p) (sp_num_queues p) (sp_created p) (sp_queues p).
Definition set_queues (p : sw_port) (num : Z) (qs : list (option sw_queue)) : sw_port :=
  SwPort (sp_used p) (sp_netdev p) (sp_port_no p) (sp_config p) (sp_state p) (sp_rx_packets p) (sp_rx_bytes p)
    (sp_tx_packets p) (sp_tx_bytes p) (sp_tx_dropped p) (sp_max_queues p) num (sp_created p) qs.

Definition port_speed (conf : Z) : Z :=
  let bit i := truthy (Z.land conf (Z.shiftl 1 i)) in
  if bit 9 then 1024 * 1024 * 1024
  else if bit 8 then 100 * 1024 * 1024
  else if bit 7 then 40 * 1024 * 1024
  else if bit 6 then 10 * 1024 * 1024
  else if bit 5 then 1024 * 1024
  else if bit 4 then 1024 * 1024
  else if bit 3 then 100 * 1024
  else if bit 2 then 100 * 1024
  else if bit 1 then 10 * 1024
  else if bit 0 then 10 * 1024
  else 0.

(** What the devices answer. *)
Record netdev := Netdev {
  nd_open : Z → option (list Z);             (* the address, or an error *)
  nd_link_state : Z → option bool;           (* up, down, unknown *)
  nd_recv : Z → option (list Z);             (* a frame, or an error *)
  nd_set_flags : Z → bool;                   (* up and promiscuous *)
  nd_setup_slicing : Z → bool;
  nd_send : Z → Z → list Z → bool;           (* port, class, frame *)
  nd_change_class : Z → Z → Z → bool;
  nd_setup_class : Z → Z → Z → bool }.

(** A frame handed to a device: port, class, bytes. *)
Abbreviation tx := (Z * Z * list Z)%type.

Definition dp_port_live_update (p : sw_port) : sw_port :=
  if truthy (Z.land (sp_state p) OFPPS_LINK_DOWN) || truthy (Z.land (sp_config p) OFPPC_PORT_DOWN)
  then set_conf p (sp_config p) (Z.land (sp_state p) (unot 32 OFPPS_LIVE))
  else set_conf p (sp_config p) (Z.lor (sp_state p) OFPPS_LIVE).

(** An array a reply carries: the length it was allocated with and announces, and the
    pointers stored into it. *)
Record reply (A : Type) := Reply { stats_num : Z; stats : list A }.
Arguments Reply {A} _ _.
Arguments stats_num {A} _.
Arguments stats {A} _.

Section ports.
  Context (nd : netdev).

(** The new port and the number of a port status message to the controllers; or an
    error. *)
Definition new_port (now : Z) (dp : dp_ports) (port_no max_queues_ : Z) : dp_ports + Z :=
  let mq := Z.min max_queues_ (Z.of_nat NETDEV_MAX_QUEUES) in
  match nd_open nd port_no with
  | None => inr 1
  | Some ea =>
    if negb (nd_set_flags nd port_no) then inr 1
    else if (0 <? mq) && negb (nd_setup_slicing nd port_no) then inr 1
    else
      let p := dp_port_live_update
        (SwPort true (Some ea) port_no 0 OFPPS_LIVE 0 0 0 0 0 mq 0 now (replicate NETDEV_MAX_QUEUES None)) in
      inl (DpPorts (<[port_no := p]> (ports dp)) (port_list dp ++ [port_no]) (ports_num dp + 1) (max_queues dp))
  end.

(** The first port from [no] on without a device; [n] numbers are left. *)
Fixpoint add_loop (now : Z) (dp : dp_ports) (n : nat) (no : Z) : dp_ports + Z :=
  match n with
  | O => inr EXFULL
  | S n => match sp_netdev (default zero_port (ports dp !! no)) with
           | None => new_port now dp no (max_queues dp)
           | Some _ => add_loop now dp n (no + 1)
           end
  end.

Definition dp_ports_add (now : Z) (dp : dp_ports) : dp_ports + Z := add_loop now dp (Z.to_nat (DP_MAX_PORTS - 1)) 1.

Definition dp_ports_add_local (now : Z) (dp : dp_ports) : dp_ports + Z :=
  if local_port dp then inr EXFULL else new_port now dp OFPP_LOCAL 0.

Definition dp_ports_lookup (dp : dp_ports) (port_no : Z) : option sw_port :=
  let n := if local_port dp then ports_num dp - 1 else ports_num dp in
  if port_no =? OFPP_LOCAL then ports dp !! OFPP_LOCAL
  else if (port_no <? 1) || (n <? port_no) then None
  else Some (default zero_port (ports dp !! port_no)).

Definition dp_ports_lookup_queue (p : sw_port) (queue_id : Z) : option sw_queue :=
  if queue_id <? sp_max_queues p then mjoin (sp_queues p !! Z.to_nat queue_id) else None.

Definition count_queue (size : Z) (q : sw_queue) : sw_queue :=
  Queue (q_class_id q) (q_rate q) (u64 (q_tx_packets q + 1)) (u64 (q_tx_bytes q + size)) (q_created q).

Definition dp_ports_output (dp : dp_ports) (buffer : list Z) (out_port queue_id : Z) : dp_ports * list tx :=
  match dp_ports_lookup dp out_port with
  | Some p =>
    if bool_decide (sp_netdev p = None) then (dp, [])
    else if truthy (Z.land (sp_config p) OFPPC_PORT_DOWN) then (dp, [])
    else
      let q := if queue_id =? 0 then None else dp_ports_lookup_queue p queue_id in
      match q, queue_id =? 0 with
      | None, false => (dp, [])
      | _, _ =>
        let class_id := match q with Some q => q_class_id q | None => 0 end in
        let size := Z.of_nat (length buffer) in
        let p := if nd_send nd out_port class_id buffer then
                   let p := set_tx p (u64 (sp_tx_packets p + 1)) (u64 (sp_tx_bytes p + size)) (sp_tx_dropped p) in
                   match q with
                   | Some _ => set_queues p (sp_num_queues p) (alter (fmap (count_queue size)) (Z.to_nat queue_id) (sp_queues p))
                   | None => p
                   end
                 else set_tx p (sp_tx_packets p) (sp_tx_bytes p) (u64 (sp_tx_dropped p + 1)) in
        (set_port_at dp out_port p, [(out_port, class_id, buffer)])
      end
  | None => (dp, [])
  end.

(** The LIST_FOR_EACH over the ports from some port on. *)
Fixpoint output_all_loop (dp : dp_ports) (buffer : list Z) (in_port : Z) (flood : bool) (l : list Z) : dp_ports * list tx :=
  match l with
  | [] => (dp, [])
  | no :: l =>
    let p := default zero_port (ports dp !! no) in
    if sp_port_no p =? in_port then output_all_loop dp buffer in_port flood l
    else if flood && truthy (Z.land (sp_config p) OFPPC_NO_FWD) then output_all_loop dp buffer in_port flood l
    else let '(dp, out) := dp_ports_output dp buffer (sp_port_no p) 0 in
         let '(dp, out') := output_all_loop dp buffer in_port flood l in
         (dp, out ++ out')
  end.

Definition dp_ports_output_all (dp : dp_ports) (buffer : list Z) (in_port : Z) (flood : bool) : dp_ports * list tx :=
  output_all_loop dp buffer in_port flood (port_list dp).

(** ** Requests

    A handler that reaches a null [conf], [stats] or [netdev] pointer gives [None]. *)

Record ofl_msg_port_mod := PortMod { pm_port_no : Z; pm_hw_addr : list Z; pm_config : Z; pm_mask : Z; pm_advertise : Z }.

(** The new state, the result, and the ports of the PORT_STATUS messages sent. *)
Definition dp_ports_handle_port_mod (dp : dp_ports) (msg : ofl_msg_port_mod) (slave : bool) :
    option (dp_ports * Z * list sw_port) :=
  if slave then Some (dp, ofl_error OFPET_BAD_REQUEST 10, [])
  else match dp_ports_lookup dp (pm_port_no msg) with
       | None => Some (dp, ofl_error OFPET_PORT_MOD_FAILED 0, [])
       | Some p =>
         ea ← sp_netdev p;
         if bool_decide (pm_hw_addr msg ≠ ea) then Some (dp, ofl_error OFPET_PORT_MOD_FAILED 1, [])
         else
           let p' := if truthy (pm_mask msg) then
                       dp_port_live_update (set_conf p
                         (Z.lor (Z.land (sp_config p) (unot 32 (pm_mask msg))) (Z.land (pm_config msg) (pm_mask msg))) (sp_state p))
                     else p in
           Some (set_port_at dp (pm_port_no msg) p', 0, [p'])
       end.

Record port_stats := PortStats {
  ps_port_no : Z; ps_rx_packets : Z; ps_tx_packets : Z; ps_rx_bytes : Z; ps_tx_bytes : Z; ps_tx_dropped : Z;
  ps_duration_sec : Z; ps_duration_nsec : Z }.

Definition duration_sec (now created : Z) : Z := u32 (u64 (now - created) / 1000).
Definition duration_nsec (now created : Z) : Z := u32 (u64 (now - created) mod 1000 * 1000000).

Definition dp_port_stats_update (now : Z) (p : sw_port) : port_stats :=
  PortStats (sp_port_no p) (sp_rx_packets p) (sp_tx_packets p) (sp_rx_bytes p) (sp_tx_bytes p) (sp_tx_dropped p)
    (duration_sec now (sp_created p)) (duration_nsec now (sp_created p)).

Definition port_at (dp : dp_ports) (no : Z) : sw_port := default zero_port (ports dp !! no).

Definition dp_ports_handle_stats_request_port (now : Z) (dp : dp_ports) (port_no : Z) : reply port_stats :=
  if port_no =? OFPP_ANY then Reply (ports_num dp) (dp_port_stats_update now ∘ port_at dp <$> port_list dp)
  else match dp_ports_lookup dp port_no with
       | Some p => if bool_decide (sp_netdev p = None) then Reply 0 []
                   else Reply 1 [dp_port_stats_update now p]
       | None => Reply 0 []
       end.

Definition dp_ports_handle_port_desc_request (dp : dp_ports) : reply sw_port :=
  Reply (ports_num dp) (port_at dp <$> port_list dp).

Record queue_stats := QueueStats {
  qs_port_no : Z; qs_queue_id : Z; qs_tx_packets : Z; qs_tx_bytes : Z;
  qs_duration_sec : Z; qs_duration_nsec : Z }.

Definition dp_ports_queue_update (now : Z) (p : sw_port) (queue_id : Z) (q : sw_queue) : queue_stats :=
  QueueStats (sp_port_no p) queue_id (q_tx_packets q) (q_tx_bytes q)
    (duration_sec now (q_created q)) (duration_nsec now (q_created q)).

(** The loop over the queues of a port, and the test of one queue of it. *)
Definition queues_of {A} (f : sw_port → Z → sw_queue → A) (p : sw_port) : list A :=
  omap (λ i : nat, f p (Z.of_nat i) <$> mjoin (sp_queues p !! i)) (seq 0 (Z.to_nat (sp_max_queues p))).
Definition queue_of {A} (f : sw_port → Z → sw_queue → A) (queue_id : Z) (p : sw_port) : list A :=
  match dp_ports_lookup_queue p queue_id with Some q => [f p queue_id q] | None => [] end.

Definition dp_ports_handle_stats_request_queue (now : Z) (dp : dp_ports) (port_no queue_id : Z) : reply queue_stats :=
  let upd := dp_ports_queue_update now in
  if port_no =? OFPP_ANY then
    let l := port_at dp <$> port_list dp in
    if queue_id =? OFPQ_ALL then Reply (zsum (sp_num_queues <$> l)) (l ≫= queues_of upd)
    else Reply (zsum ((λ p, Z.of_nat (length (queue_of upd queue_id p))) <$> l)) (l ≫= queue_of upd queue_id)
  else match dp_ports_lookup dp port_no with
       | Some p =>
         if bool_decide (sp_netdev p = None) then Reply 0 []
         else if queue_id =? OFPQ_ALL then Reply (sp_num_queues p) (queues_of upd p)
         else Reply (Z.of_nat (length (queue_of upd queue_id p))) (queue_of upd queue_id p)
       | None => Reply 0 []
       end.

Definition queue_prop (_ : sw_port) (queue_id : Z) (q : sw_queue) : Z * Z := (queue_id, q_rate q).

Definition dp_ports_handle_queue_get_config_request (dp : dp_ports) (port : Z) : option (reply (Z * Z) + Z) :=
  if port =? OFPP_ANY then
    let l := port_at dp <$> port_list dp in
    Some (inl (Reply (zsum (sp_num_queues <$> l)) (l ≫= queues_of queue_prop)))
  else match dp_ports_lookup dp port with
       | None => Some (inr (ofl_error OFPET_QUEUE_OP_FAILED 0))
       | Some p =>
         _ ← sp_netdev p;
         if negb (sp_port_no p =? port) then Some (inr (ofl_error OFPET_QUEUE_OP_FAILED 0))
         else Some (inl (Reply (sp_num_queues p) (queues_of queue_prop p)))
       end.

(** ** Queues *)

Definition new_queue (now : Z) (p : sw_port) (queue_id class_id rate : Z) : sw_port :=
  set_queues p (u16 (sp_num_queues p + 1))
    (<[Z.to_nat queue_id := Some (Queue (u16 class_id) rate 0 0 now)]> (sp_queues p)).

Definition port_add_queue (now : Z) (p : sw_port) (queue_id rate : Z) : sw_port + Z :=
  if sp_max_queues p <=? queue_id then inr EXFULL
  else if bool_decide (is_Some (mjoin (sp_queues p !! Z.to_nat queue_id))) then inr EXFULL
  else inl (new_queue now p queue_id queue_id rate).

Definition port_delete_queue (p : sw_port) (queue_id : Z) : sw_port :=
  set_queues p (u16 (sp_num_queues p - 1)) (<[Z.to_nat queue_id := None]> (sp_queues p)).

Definition set_rate (rate : Z) (q : sw_queue) : sw_queue :=
  Queue (q_class_id q) rate (q_tx_packets q) (q_tx_bytes q) (q_created q).

Definition dp_ports_handle_queue_modify (now : Z) (dp : dp_ports) (port_id queue_id rate : Z) : dp_ports * Z :=
  match dp_ports_lookup dp port_id with
  | Some p =>
    if negb (sp_used p) then (dp, ofl_error OFPET_QUEUE_OP_FAILED 0)
    else match dp_ports_lookup_queue p queue_id with
         | Some q =>
           if negb (nd_change_class nd port_id (q_class_id q) rate) then (dp, ofl_error OFPET_QUEUE_OP_FAILED 2)
           else (set_port_at dp port_id
                   (set_queues p (sp_num_queues p) (alter (fmap (set_rate rate)) (Z.to_nat queue_id) (sp_queues p))), 0)
         | None =>
           match port_add_queue now p queue_id rate with
           | inr _ => (dp, ofl_error OFPET_QUEUE_OP_FAILED 2)
           | inl p' =>
             (set_port_at dp port_id p',
              if nd_setup_class nd port_id (u16 queue_id) rate then 0 else ofl_error OFPET_QUEUE_OP_FAILED 1)
           end
         end
  | None => (dp, ofl_error OFPET_QUEUE_OP_FAILED 0)
  end.

Definition dp_ports_handle_queue_delete (dp : dp_ports) (port_id queue_id : Z) : dp_ports * Z :=
  match dp_ports_lookup dp port_id with
  | Some p =>
    if bool_decide (sp_netdev p = None) then (dp, ofl_error OFPET_QUEUE_OP_FAILED 0)
    else match dp_ports_lookup_queue p queue_id with
         | Some _ => (set_port_at dp port_id (port_delete_queue p queue_id), 0)
         | None => (dp, ofl_error OFPET_QUEUE_OP_FAILED 1)
         end
  | None => (dp, ofl_error OFPET_QUEUE_OP_FAILED 0)
  end.

(** ** Receiving *)

Section run.
  Context {X : Type} (pipeline_process : X → dp_ports → Z → list Z → X * dp_ports).

(** The guard is [config & ((OFPPC_NO_RECV | OFPPC_PORT_DOWN) != 0)]. *)
Definition process_buffer (x : X) (dp : dp_ports) (p : sw_port) (buffer : list Z) : X * dp_ports :=
  if truthy (Z.land (sp_config p) (if truthy (Z.lor OFPPC_NO_RECV OFPPC_PORT_DOWN) then 1 else 0)) then (x, dp)
  else pipeline_process x dp (sp_port_no p) buffer.

Definition check_link (no : Z) (p : sw_port) : sw_port :=
  match nd_link_state nd no with
  | Some true => dp_port_live_update (set_conf p (sp_config p) (Z.land (sp_state p) (unot 32 OFPPS_LINK_DOWN)))
  | Some false => dp_port_live_update (set_conf p (sp_config p) (Z.lor (sp_state p) OFPPS_LINK_DOWN))
  | None => p
  end.

Definition run_port (s : X * dp_ports) (no : Z) : X * dp_ports :=
  let '(x, dp) := s in
  let p := check_link no (port_at dp no) in
  match nd_recv nd no with
  | Some buffer =>
    let p := set_rx p (u64 (sp_rx_packets p + 1)) (u64 (sp_rx_bytes p + Z.of_nat (length buffer))) in
    process_buffer x (set_port_at dp no p) p buffer
  | None => (x, set_port_at dp no p)
  end.

Definition dp_ports_run (x : X) (dp : dp_ports) : X * dp_ports := fold_left run_port (port_list dp) (x, dp).

End run.

(** ** Broadcast in a random order *)

(** Where the frames entering a switch of an identifier at a port of kind [entrada]
    may leave by a port of kind [salida]. *)
Definition layer_forwards (id entrada salida : Z) : bool :=
  if 1000 <=? id then true
  else if (100 <=? id) && ((entrada =? PORT_TOR) || ((entrada =? PORT_CORE) && (salida =? PORT_TOR))) then true
  else (id <? 100) && ((entrada =? PORT_HOST) || (salida =? PORT_HOST)).

Fixpoint output_random_loop (dp : dp_ports) (id : Z) (neighbor_table : mac_to_port) (buffer : list Z) (in_port : Z)
    (flood : bool) (entrada : Z) (row : list Z) : option (dp_ports * list tx) :=
  match row with
  | [] => Some (dp, [])
  | port :: row =>
    if (port =? in_port) || (port =? 0) then output_random_loop dp id neighbor_table buffer in_port flood entrada row
    else if flood && bool_decide (sp_netdev (port_at dp port) = None) then None
    else if flood && truthy (Z.land (sp_config (port_at dp port)) OFPPC_NO_FWD)
    then output_random_loop dp id neighbor_table buffer in_port flood entrada row
    else
      salida ← tipo_switch_port neighbor_table port;
      let '(dp, out) := if layer_forwards id entrada salida then dp_ports_output dp buffer port 0 else (dp, []) in
      '(dp, out') ← output_random_loop dp id neighbor_table buffer in_port flood entrada row;
      Some (dp, out ++ out')
  end.

(** [num_matriz] is [rand() % 16]; the row is read up to the number of ports. *)
Definition dp_ports_output_random (dp : dp_ports) (id : Z) (neighbor_table : mac_to_port) (Matriz_bc : list (list Z))
    (num_matriz : nat) (buffer : list Z) (in_port : Z) (flood : bool) : option (dp_ports * list tx) :=
  entrada ← tipo_switch_port neighbor_table in_port;
  row ← Matriz_bc !! num_matriz;
  if Z.of_nat (length row) <? ports_num dp then None
  else output_random_loop dp id neighbor_table buffer in_port flood entrada (take (Z.to_nat (ports_num dp)) row).

End ports.

(** The rows of the matrix.  [rand] lists the results of [rand()] in order: each turn of
    the do-while loop takes one, and [None] means the loop is still running when they end. *)
Fixpoint draw (num : Z) (row : list Z) (rand : list Z) : option (Z * list Z) :=
  match rand with
  | [] => None
  | r :: rand => let n := u16 (r mod num) in
                 if (n =? num) || bool_decide (n ∈ row) then draw num row rand else Some (n, rand)
  end.

Fixpoint gen_row (num : Z) (todo : nat) (row rand : list Z) : option (list Z * list Z) :=
  match todo with
  | O => Some (row, rand)
  | S todo => '(n, rand) ← draw num row rand; gen_row num todo (row ++ [n]) rand
  end.

Fixpoint gen_rows (num : Z) (todo : nat) (rows : list (list Z)) (rand : list Z) : option (list (list Z) * list Z) :=
  match todo with
  | O => Some (rows, rand)
  | S todo => '(row, rand) ← gen_row num (Z.to_nat num) [] rand; gen_rows num todo (rows ++ [row]) rand
  end.

Definition matriz_aleatoria_gen (dp : dp_ports) (rand : list Z) : option (list (list Z) * list Z) :=
  gen_rows (ports_num dp) 16 [] rand.

(** * Invariant *)

Definition used (qs : list (option sw_queue)) : Z := Z.of_nat (length (omap id qs)).

Record port_ok (no : Z) (p : sw_port) : Prop := {
  po_used : sp_used p = true;
  po_netdev : is_Some (sp_netdev p);
  po_no : sp_port_no p = no;
  po_queues : length (sp_queues p) = NETDEV_MAX_QUEUES;
  po_max : 0 <= sp_max_queues p <= Z.of_nat NETDEV_MAX_QUEUES;
  po_num : sp_num_queues p = used (sp_queues p);
  po_over : ∀ i : nat, sp_max_queues p <= Z.of_nat i → mjoin (sp_queues p !! i) = None;
  po_class : ∀ (i : nat) q, sp_queues p !! i = Some (Some q) → q_class_id q = Z.of_nat i;
  po_live : truthy (Z.land (sp_state p) OFPPS_LIVE) =
            negb (truthy (Z.land (sp_state p) OFPPS_LINK_DOWN) || truthy (Z.land (sp_config p) OFPPC_PORT_DOWN)) }.

(** The physical ports in use are numbered 1 to [phys]. *)
Definition phys (dp : dp_ports) : Z := ports_num dp - (if local_port dp then 1 else 0).

Record ports_ok (dp : dp_ports) : Prop := {
  ok_num : ports_num dp = Z.of_nat (length (port_list dp));
  ok_nodup : NoDup (port_list dp);
  ok_phys : 0 <= phys dp < DP_MAX_PORTS;
  ok_listed : ∀ no, no ∈ port_list dp ↔ is_Some (ports dp !! no);
  ok_range : ∀ no, is_Some (ports dp !! no) ↔ 1 <= no <= phys dp ∨ (no = OFPP_LOCAL ∧ local_port dp = true);
  ok_port : map_Forall port_ok (ports dp) }.

Definition no_ports (queues : Z) : dp_ports := DpPorts ∅ [] 0 queues.

Lemma no_ports_ok mq : ports_ok (no_ports mq).
Proof.
  split; cbn; try done.
  - constructor.
  - intros no; split; [by intros ?%not_elem_of_nil|intros [? Hx]; by rewrite lookup_empty in Hx].
  - intros no; rewrite lookup_empty; split; [intros [? ?]; done|].
    unfold phys, local_port; cbn. rewrite lookup_empty, bool_decide_false by (by intros [? ?]).
    intros [?|[_ ?]]; [lia|done].
Qed.

Lemma lookup_exact dp no : ports_ok dp → dp_ports_lookup dp no = ports dp !! no.
Proof.
  intros H; unfold dp_ports_lookup; case_match eqn:Hl; [by apply Z.eqb_eq in Hl as ->|apply Z.eqb_neq in Hl].
  pose proof (ok_range dp H no) as Hr; unfold phys in Hr.
  destruct (ports dp !! no) as [p|] eqn:Hp.
  - destruct Hr as [[Hr|[? _]] _]; [eauto| |done].
    destruct (local_port dp); case_match eqn:Hc; try done; apply orb_true_iff in Hc; lia.
  - destruct Hr as [_ Hr]; destruct (local_port dp).
    all: case_match eqn:Hc; [done|]; apply orb_false_iff in Hc; destruct Hr as [? ?]; [left; lia|done].
Qed.

Lemma po_at dp no p : ports_ok dp → ports dp !! no = Some p → port_ok no p.
Proof. intros H ?; by apply (ok_port dp H). Qed.

(** Replacing a port by a well-formed one. *)
Lemma set_port_ok dp no p p' : ports_ok dp → ports dp !! no = Some p → port_ok no p' → ports_ok (set_port_at dp no p').
Proof.
  intros H Hp Hp'.
  assert (Hs : ∀ k, is_Some (ports (set_port_at dp no p') !! k) ↔ is_Some (ports dp !! k)).
  { intros k; cbn; destruct (decide (k = no)) as [->|]; [rewrite lookup_insert_eq|by rewrite lookup_insert_ne]; naive_solver. }
  assert (Hl : local_port (set_port_at dp no p') = local_port dp) by (apply bool_decide_ext, Hs).
  assert (Hph : phys (set_port_at dp no p') = phys dp) by (unfold phys; by rewrite Hl).
  split; try apply H.
  - rewrite Hph; apply H.
  - intros k; rewrite Hs; apply H.
  - intros k; rewrite Hs, Hph, Hl; apply H.
  - apply map_Forall_insert_2; [done|apply H].
Qed.

Lemma live_update_ok no p c s :
  port_ok no p → port_ok no (dp_port_live_update (set_conf p c s)).
Proof.
  intros H; unfold dp_port_live_update; case_match eqn:Hc; cbn [sp_state sp_config set_conf] in Hc.
  all: split; try apply H; cbn [sp_state sp_config set_conf] in *.
  - replace (Z.land (Z.land s (unot 32 OFPPS_LIVE)) OFPPS_LIVE) with 0.
    2: { rewrite <- Z.land_assoc; change (Z.land (unot 32 OFPPS_LIVE) OFPPS_LIVE) with 0; by rewrite Z.land_0_r. }
    replace (Z.land (Z.land s (unot 32 OFPPS_LIVE)) OFPPS_LINK_DOWN) with (Z.land s OFPPS_LINK_DOWN) by
      (by rewrite <- Z.land_assoc).
    by rewrite Hc.
  - replace (Z.land (Z.lor s OFPPS_LIVE) OFPPS_LINK_DOWN) with (Z.land s OFPPS_LINK_DOWN) by
      (rewrite Z.land_lor_distr_l; change (Z.land OFPPS_LIVE OFPPS_LINK_DOWN) with 0; by rewrite Z.lor_0_r).
    rewrite Hc, Z.land_lor_distr_l; change (Z.land OFPPS_LIVE OFPPS_LIVE) with OFPPS_LIVE.
    unfold truthy; apply negb_true_iff, Z.eqb_neq; intros E%(f_equal (λ x, Z.testbit x 2)).
    rewrite Z.lor_spec in E; change (Z.testbit OFPPS_LIVE 2) with true in E; by rewrite orb_true_r in E.
Qed.

(** ** Queues *)

Lemma used_insert qs i o o' :
  qs !! i = Some o →
  used (<[i := o']> qs) = used qs - (if decide (o = None) then 0 else 1) + (if decide (o' = None) then 0 else 1).
Proof.
  intros Hi. rewrite <- (take_drop_middle qs i o Hi) at 2; rewrite insert_take_drop by (by eapply lookup_lt_Some).
  unfold used; rewrite !omap_app; cbn. destruct o, o'; repeat case_decide; rewrite ?length_app; cbn; try done; lia.
Qed.

Lemma used_le qs : 0 <= used qs <= Z.of_nat (length qs).
Proof.
  unfold used; split; [lia|]. induction qs as [|[q|] qs IH]; cbn; try (unfold id in *; lia).
Qed.

Lemma lookup_queue_eq no p id :
  port_ok no p → 0 <= id → dp_ports_lookup_queue p id = mjoin (sp_queues p !! Z.to_nat id).
Proof.
  intros H ?; unfold dp_ports_lookup_queue; case_match eqn:E; [done|].
  symmetry; apply (po_over no p H); lia.
Qed.

Lemma mjoin_slot no p (i : nat) :
  port_ok no p → Z.of_nat i < sp_max_queues p → mjoin (sp_queues p !! i) = None → sp_queues p !! i = Some None.
Proof.
  intros H ? Hn. pose proof (po_max no p H). pose proof (po_queues no p H).
  destruct (sp_queues p !! i) as [[q|]|] eqn:E; [done|done|]. apply lookup_ge_None in E; lia.
Qed.

Lemma join_Some {A} (o : option (option A)) x : mjoin o = Some x ↔ o = Some (Some x).
Proof. destruct o as [[?|]|]; naive_solver. Qed.

(** Writing one slot of the queue array and the count with it. *)
Lemma set_slot_ok no p (i : nat) o o' num :
  port_ok no p → sp_queues p !! i = Some o →
  (is_Some o' → Z.of_nat i < sp_max_queues p) → (∀ q, o' = Some q → q_class_id q = Z.of_nat i) →
  num = sp_num_queues p - (if decide (o = None) then 0 else 1) + (if decide (o' = None) then 0 else 1) →
  port_ok no (set_queues p num (<[i := o']> (sp_queues p))).
Proof.
  intros H Hi Hm Hc ->; split; try apply H; cbn [sp_queues sp_num_queues set_queues sp_max_queues].
  - rewrite length_insert; apply H.
  - rewrite (used_insert _ _ o) by done. by rewrite (po_num no p H).
  - intros j Hj; destruct (decide (j = i)) as [->|]; [|rewrite list_lookup_insert_ne by done; by apply (po_over no p H)].
    rewrite list_lookup_insert_eq by (by eapply lookup_lt_Some). destruct o' as [q|]; [|done]. 
    assert (Z.of_nat i < sp_max_queues p) by eauto; lia.
  - intros j q; destruct (decide (j = i)) as [->|]; [|rewrite list_lookup_insert_ne by done; apply (po_class no p H)].
    rewrite list_lookup_insert_eq by (by eapply lookup_lt_Some). intros [= ->]; eauto.
Qed.

Lemma alter_as_insert {A} (f : A → A) (l : list A) i x : l !! i = Some x → alter f i l = <[i := f x]> l.
Proof. intros H; apply list_eq; intros j; destruct (decide (j = i)) as [->|].
  - rewrite list_lookup_alter_eq, list_lookup_insert_eq, H by (by eapply lookup_lt_Some); done.
  - by rewrite list_lookup_alter_ne, list_lookup_insert_ne by done.
Qed.

Lemma num_fits no p : port_ok no p → 0 <= sp_num_queues p <= 8.
Proof.
  intros H; rewrite (po_num no p H). pose proof (used_le (sp_queues p)) as Hu.
  rewrite (po_queues no p H) in Hu; exact Hu.
Qed.

Lemma add_queue_ok no now p id rate p' :
  port_ok no p → 0 <= id → port_add_queue now p id rate = inl p' → port_ok no p'.
Proof.
  intros H Hid; unfold port_add_queue; case_match; [done|]; case_match eqn:Hb; [done|]; intros [= <-].
  assert (Hs : sp_queues p !! Z.to_nat id = Some None).
  { eapply mjoin_slot; [done|lia|]. apply bool_decide_eq_false in Hb. by apply eq_None_not_Some. }
  pose proof (num_fits no p H). assert (sp_max_queues p <= 8) by apply (po_max no p H).
  apply (set_slot_ok no p _ None); [done..|lia| |].
  - intros q [= <-]; cbn [q_class_id]. unfold u16, wrap; rewrite Z.mod_small; lia.
  - repeat case_decide; try done. unfold u16, wrap; rewrite Z.mod_small; lia.
Qed.

Lemma delete_queue_ok no p id q :
  port_ok no p → 0 <= id → dp_ports_lookup_queue p id = Some q → port_ok no (port_delete_queue p id).
Proof.
  intros H Hid; rewrite (lookup_queue_eq no p id) by done; intros Hq%join_Some.
  assert (0 < sp_num_queues p).
  { rewrite (po_num no p H). pose proof (used_insert _ _ _ None Hq) as Hu. 
    pose proof (used_le (<[Z.to_nat id:=None]> (sp_queues p))). repeat case_decide; try done; lia. }
  apply (set_slot_ok no p _ (Some q)); [done..| |done|]; [by intros [? ?]|].
  repeat case_decide; try done. pose proof (num_fits no p H). unfold u16, wrap; rewrite Z.mod_small; lia.
Qed.

Lemma edit_queue_ok no p id q f :
  port_ok no p → dp_ports_lookup_queue p id = Some q → (∀ q, q_class_id (f q) = q_class_id q) →
  port_ok no (set_queues p (sp_num_queues p) (alter (fmap f) (Z.to_nat id) (sp_queues p))).
Proof.
  intros H Hl Hf; unfold dp_ports_lookup_queue in Hl; case_match; [|done].
  assert (Hm : Z.of_nat (Z.to_nat id) < sp_max_queues p).
  { destruct (decide (Z.of_nat (Z.to_nat id) < sp_max_queues p)); [done|]. by rewrite (po_over no p H) in Hl by lia. }
  apply join_Some in Hl. rewrite (alter_as_insert _ _ _ _ Hl). apply (set_slot_ok no p _ (Some q)); [done..| |].
  - intros q' [= <-]; rewrite Hf; apply (po_class no p H); done.
  - repeat case_decide; try done; lia.
Qed.

(** ** Every operation keeps the invariant *)

Lemma used_none n : used (replicate n None) = 0.
Proof. unfold used; induction n; cbn; done. Qed.

Lemma fresh_port_ok nd now no ea mq :
  0 <= mq <= Z.of_nat NETDEV_MAX_QUEUES → nd_open nd no = Some ea →
  port_ok no (dp_port_live_update (SwPort true (Some ea) no 0 OFPPS_LIVE 0 0 0 0 0 mq 0 now (replicate NETDEV_MAX_QUEUES None))).
Proof.
  intros. split; cbn; try done; try lia.
  - intros i _. by do 8 (destruct i; [done|]).
  - intros i q. by do 8 (destruct i; [done|]).
Qed.

(** A new port at a free number that keeps the numbers contiguous. *)
Lemma insert_port_ok dp no p :
  ports_ok dp → port_ok no p → ports dp !! no = None →
  (no = phys dp + 1 ∧ no < DP_MAX_PORTS) ∨ no = OFPP_LOCAL →
  ports_ok (DpPorts (<[no := p]> (ports dp)) (port_list dp ++ [no]) (ports_num dp + 1) (max_queues dp)).
Proof.
  intros H Hp Hn Hno. pose proof (ok_phys dp H) as Hph. unfold DP_MAX_PORTS in *.
  set (dp' := DpPorts _ _ _ _).
  assert (Hs : ∀ k, is_Some (ports dp' !! k) ↔ k = no ∨ is_Some (ports dp !! k)).
  { intros k; cbn; destruct (decide (k = no)) as [->|]; [rewrite lookup_insert_eq|rewrite lookup_insert_ne by done]; naive_solver. }
  assert (Hl : local_port dp' = if no =? OFPP_LOCAL then true else local_port dp).
  { unfold local_port; case_match eqn:E; [apply bool_decide_true, Hs; left; lia|].
    apply bool_decide_ext; rewrite Hs; apply Z.eqb_neq in E; naive_solver. }
  assert (Hnl : no = OFPP_LOCAL → local_port dp = false).
  { intros ->; apply bool_decide_false; rewrite Hn; by intros [? ?]. }
  assert (Hph' : phys dp' = if no =? OFPP_LOCAL then phys dp else no).
  { unfold phys in *; rewrite Hl; cbn; case_match eqn:E; [rewrite Hnl by lia; lia|].
    destruct Hno as [[-> ?]|?]; lia. }
  split.
  - cbn; rewrite length_app, (ok_num dp H); cbn; lia.
  - cbn; apply list.NoDup_app; split; [apply H|split; [|apply list.NoDup_singleton]].
    intros k Hk ->%list_elem_of_singleton. apply (ok_listed dp H) in Hk as [? Hk]; by rewrite Hn in Hk.
  - rewrite Hph'; unfold DP_MAX_PORTS; case_match; [lia|]. unfold OFPP_LOCAL in *; lia.
  - intros k; rewrite Hs; cbn; rewrite elem_of_app, list_elem_of_singleton, (ok_listed dp H k); naive_solver.
  - intros k; rewrite Hs, (ok_range dp H k), Hph', Hl. unfold OFPP_LOCAL in *.
    case_match eqn:E; [apply Z.eqb_eq in E; naive_solver|]. destruct Hno as [[-> ?]|?]; [|lia].
    destruct (local_port dp); split; intros Hx; naive_solver lia.
  - apply map_Forall_insert_2; [done|apply H].
Qed.

Lemma new_port_ok nd now dp no mq dp' :
  ports_ok dp → ports dp !! no = None → 0 <= mq →
  (no = phys dp + 1 ∧ no < DP_MAX_PORTS) ∨ no = OFPP_LOCAL →
  new_port nd now dp no mq = inl dp' → ports_ok dp'.
Proof.
  intros H Hn Hmq Hno; unfold new_port; destruct (nd_open nd no) as [ea|] eqn:Ho; [|done].
  repeat case_match; try done; intros [= <-].
  apply insert_port_ok; [done| |done..]. apply fresh_port_ok with nd; [unfold NETDEV_MAX_QUEUES; lia|done].
Qed.

(** The search stops at the first unused number. *)
Lemma add_loop_eq nd now dp n no :
  ports_ok dp → 1 <= no <= phys dp + 1 → no + Z.of_nat n = DP_MAX_PORTS →
  add_loop nd now dp n no =
    if phys dp + 1 <? DP_MAX_PORTS then new_port nd now dp (phys dp + 1) (max_queues dp) else inr EXFULL.
Proof.
  intros H; revert no; induction n as [|n IH]; intros no Hno Hn.
  - cbn; case_match eqn:E; [lia|done].
  - cbn [add_loop]. destruct (ports dp !! no) as [p|] eqn:Hp.
    + destruct (po_netdev _ _ (po_at dp no p H Hp)) as [ea Hea]; cbn; rewrite Hea.
      apply IH; [|lia]. assert (is_Some (ports dp !! no)) as Hs by eauto.
      apply (ok_range dp H) in Hs as [?|[-> ?]]; [lia|]. pose proof (ok_phys dp H). unfold DP_MAX_PORTS, OFPP_LOCAL in *; lia.
    + cbn. assert (no = phys dp + 1) as ->.
      { destruct (decide (no <= phys dp)); [|lia]. destruct (ok_range dp H no) as [_ Hr].
        destruct Hr as [? Hx]; [left; lia|by rewrite Hp in Hx]. }
      case_match eqn:E; [done|lia].
Qed.

Lemma port_add_ok nd now dp dp' : ports_ok dp → 0 <= max_queues dp → dp_ports_add nd now dp = inl dp' → ports_ok dp'.
Proof.
  intros H Hm; pose proof (ok_phys dp H). unfold dp_ports_add; rewrite add_loop_eq by (done || unfold DP_MAX_PORTS in *; lia).
  case_match eqn:E; [|done]. apply new_port_ok; [done| |done|left; lia].
  destruct (ports dp !! (phys dp + 1)) eqn:Hp; [|done].
  assert (is_Some (ports dp !! (phys dp + 1))) as Hs by eauto.
  apply (ok_range dp H) in Hs as [?|[? ?]]; unfold DP_MAX_PORTS, OFPP_LOCAL in *; lia.
Qed.

Lemma add_local_ok nd now dp dp' : ports_ok dp → dp_ports_add_local nd now dp = inl dp' → ports_ok dp'.
Proof.
  intros H; unfold dp_ports_add_local, local_port; case_bool_decide as Hs; [done|].
  apply new_port_ok; [done| |lia|by right]. by apply eq_None_not_Some.
Qed.

Lemma output_ok nd dp buffer out q : ports_ok dp → ports_ok (dp_ports_output nd dp buffer out q).1.
Proof.
  intros H; unfold dp_ports_output; rewrite lookup_exact by done.
  destruct (ports dp !! out) as [p|] eqn:Hp; [|done]. pose proof (po_at dp out p H Hp) as Hok.
  do 2 (case_match; [done|]).
  assert (∀ a b c p, port_ok out p → port_ok out (set_tx p a b c)) as Htx by (intros ???? []; by split).
  destruct (q =? 0) eqn:Eq; [|destruct (dp_ports_lookup_queue p q) as [qq|] eqn:Hl; [|done]].
  all: cbn [fst]; eapply set_port_ok; [done..|]; case_match; auto.
  apply (edit_queue_ok out _ q qq); [auto|exact Hl|done].
Qed.

(** ** Sending to a list of ports *)

Definition up (dp : dp_ports) (no : Z) : bool :=
  match ports dp !! no with Some p => negb (truthy (Z.land (sp_config p) OFPPC_PORT_DOWN)) | None => false end.
Definition no_fwd (dp : dp_ports) (no : Z) : bool := truthy (Z.land (sp_config (port_at dp no)) OFPPC_NO_FWD).

(** The port after the device took, or refused, a frame on the default class. *)
Definition counted (nd : netdev) (buffer : list Z) (no : Z) (p : sw_port) : sw_port :=
  if nd_send nd no 0 buffer
  then set_tx p (u64 (sp_tx_packets p + 1)) (u64 (sp_tx_bytes p + Z.of_nat (length buffer))) (sp_tx_dropped p)
  else set_tx p (sp_tx_packets p) (sp_tx_bytes p) (u64 (sp_tx_dropped p + 1)).

Fixpoint send_all (nd : netdev) (dp : dp_ports) (buffer : list Z) (l : list Z) : dp_ports * list tx :=
  match l with
  | [] => (dp, [])
  | no :: l => let '(dp, out) := dp_ports_output nd dp buffer no 0 in
               let '(dp, out') := send_all nd dp buffer l in (dp, out ++ out')
  end.

Lemma output_eq nd dp buffer no :
  ports_ok dp →
  dp_ports_output nd dp buffer no 0 =
    if up dp no then (set_port_at dp no (counted nd buffer no (port_at dp no)), [(no, 0, buffer)]) else (dp, []).
Proof.
  intros H; unfold dp_ports_output, up, port_at; rewrite lookup_exact by done.
  destruct (ports dp !! no) as [p|] eqn:Hp; [|done].
  destruct (po_netdev _ _ (po_at dp no p H Hp)) as [ea Hea]. rewrite bool_decide_false by (by rewrite Hea).
  case_match; [done|]. cbn. unfold counted. destruct (nd_send nd no 0 buffer); done.
Qed.

Lemma counted_config nd buffer no p : sp_config (counted nd buffer no p) = sp_config p ∧ sp_netdev (counted nd buffer no p) = sp_netdev p.
Proof. unfold counted; by case_match. Qed.

(** What sending leaves alone. *)
Record same_conf (dp dp' : dp_ports) : Prop := {
  sc_list : port_list dp' = port_list dp;
  sc_num : ports_num dp' = ports_num dp;
  sc_max : max_queues dp' = max_queues dp;
  sc_config : ∀ k, (λ p, (sp_config p, sp_netdev p)) <$> ports dp' !! k = (λ p, (sp_config p, sp_netdev p)) <$> ports dp !! k }.

#[global] Instance same_conf_preorder : PreOrder same_conf.
Proof. split; [by split|]. intros ??? [] []; split; try congruence. Qed.

Lemma same_up dp dp' no : same_conf dp dp' → up dp' no = up dp no.
Proof.
  intros [_ _ _ H]; specialize (H no); unfold up.
  destruct (ports dp' !! no), (ports dp !! no); simplify_eq/=; congruence.
Qed.

Lemma same_no_fwd dp dp' no : same_conf dp dp' → no_fwd dp' no = no_fwd dp no.
Proof.
  intros [_ _ _ H]; specialize (H no); unfold no_fwd, port_at.
  destruct (ports dp' !! no), (ports dp !! no); simplify_eq/=; congruence.
Qed.

Lemma output_same nd dp buffer no q : ports_ok dp → same_conf dp (dp_ports_output nd dp buffer no q).1.
Proof.
  intros H; unfold dp_ports_output; rewrite lookup_exact by done. destruct (ports dp !! no) as [p|] eqn:Hp; [|done].
  repeat (case_match; try done).
  all: split; try done; intros k; cbn; destruct (decide (k = no)) as [->|]; [|by rewrite lookup_insert_ne].
  all: by rewrite lookup_insert_eq, Hp.
Qed.

Lemma send_all_spec nd dp buffer l :
  ports_ok dp → NoDup l →
  let '(dp', out) := send_all nd dp buffer l in
  ports_ok dp' ∧ same_conf dp dp' ∧
  (∀ no, ports dp' !! no = (λ p, if bool_decide (no ∈ l) && up dp no then counted nd buffer no p else p) <$> ports dp !! no) ∧
  out = (λ no, (no, 0, buffer)) <$> base.filter (λ no, up dp no = true) l.
Proof.
  revert dp; induction l as [|a l IH]; intros dp H Hnd.
  - cbn. split_and!; try done. intros no; by destruct (ports dp !! no).
  - apply list.NoDup_cons in Hnd as [Ha Hnd]. cbn [send_all].
    pose proof (output_ok nd dp buffer a 0 H) as H1. pose proof (output_same nd dp buffer a 0 H) as Hs.
    rewrite output_eq in H1, Hs |- * by done. destruct (up dp a) eqn:Hu; cbn [fst] in *.
    all: specialize (IH _ H1 Hnd); destruct (send_all _ _ _ l) as [dp' out]; destruct IH as (H' & Hc & Hp & Ho).
    all: split_and!; [done|by etrans| |].
    + intros no; rewrite Hp, (same_up _ _ no Hs); cbn. destruct (decide (no = a)) as [->|Hne].
      * rewrite lookup_insert_eq, (bool_decide_false (a ∈ l)), (bool_decide_true (a ∈ a :: l)), Hu by (done || set_solver).
        cbn. unfold up, port_at in *. by destruct (ports dp !! a).
      * rewrite lookup_insert_ne by done. by rewrite (bool_decide_ext (no ∈ l) (no ∈ a :: l)) by set_solver.
    + rewrite filter_cons_True by done. rewrite Ho. cbn. f_equal. f_equal.
      apply list_filter_iff; intros k; by rewrite (same_up _ _ k Hs).
    + intros no; rewrite Hp. destruct (decide (no = a)) as [->|Hne].
      * by rewrite Hu, !andb_false_r.
      * by rewrite (bool_decide_ext (no ∈ l) (no ∈ a :: l)) by set_solver.
    + rewrite filter_cons_False by (by rewrite Hu). exact Ho.
Qed.

Lemma output_all_send nd dp buffer in_port flood l :
  ports_ok dp → Forall (λ no, is_Some (ports dp !! no)) l →
  output_all_loop nd dp buffer in_port flood l =
    send_all nd dp buffer (base.filter (λ no, no ≠ in_port ∧ (flood && no_fwd dp no) = false) l).
Proof.
  intros H Hl; revert dp H Hl; induction l as [|a l IH]; intros dp H Hl; [done|].
  apply list.Forall_cons in Hl as [[p Hp] Hl]. cbn [output_all_loop].
  assert (Hno : sp_port_no p = a) by apply (po_no _ _ (po_at dp a p H Hp)).
  assert (Hf : no_fwd dp a = truthy (Z.land (sp_config p) OFPPC_NO_FWD)) by (unfold no_fwd, port_at; by rewrite Hp).
  rewrite Hp; cbn [default from_option id]. rewrite Hno, <- Hf.
  destruct (a =? in_port) eqn:E1; [|destruct (flood && no_fwd dp a) eqn:E2].
  - rewrite filter_cons_False by naive_solver lia. by apply IH.
  - rewrite filter_cons_False by (intros [_ ?]; congruence). by apply IH.
  - rewrite filter_cons_True by (split; [lia|done]). cbn [send_all].
    pose proof (output_ok nd dp buffer a 0 H) as H1. pose proof (output_same nd dp buffer a 0 H) as Hs.
    destruct (dp_ports_output nd dp buffer a 0) as [dp1 o]; cbn [fst] in *. rewrite IH; [|done|].
    + erewrite list_filter_iff; [done|]. intros k; cbn. by rewrite (same_no_fwd _ _ k Hs).
    + eapply Forall_impl; [|exact Hl]. intros k; cbn.
      pose proof (sc_config _ _ Hs k) as Hk. intros [q Hq]; rewrite Hq in Hk. by destruct (ports dp1 !! k); [eauto|].
Qed.

Definition kind (nes : list mac_entry) (port : Z) : Z :=
  match find_first (λ e, me_port_in e =? port) nes with Some (_, e, _) => me_vecino e | None => 0 end.

Lemma tipo_ref nt nes p : repr true nt nes → tipo_switch_port nt p = Some (kind nes p).
Proof.
  intros Hr. unfold tipo_switch_port, kind.
  destruct (update_first nt nes (λ e, me_port_in e =? p) (λ e, e) Hr)
    as ([[ant [[a nd]|]] pos] & -> & Hs); cbn [mbind option_bind].
  - by destruct Hs as [(pre & post & ->) _].
  - by rewrite Hs.
Qed.

Definition random_dest (dp : dp_ports) (id : Z) (nes : list mac_entry) (in_port : Z) (flood : bool) (no : Z) : bool :=
  negb (no =? in_port) && negb (no =? 0) && negb (flood && no_fwd dp no) &&
  layer_forwards id (kind nes in_port) (kind nes no).

Lemma output_random_send nd dp id nt nes buffer in_port flood l :
  ports_ok dp → repr true nt nes → Forall (λ no, no = 0 ∨ is_Some (ports dp !! no)) l →
  output_random_loop nd dp id nt buffer in_port flood (kind nes in_port) l =
    Some (send_all nd dp buffer (base.filter (λ no, random_dest dp id nes in_port flood no = true) l)).
Proof.
  intros H Hr Hl; revert dp H Hl; induction l as [|a l IH]; intros dp H Hl; [done|].
  apply list.Forall_cons in Hl as [Ha Hl]. cbn [output_random_loop].
  destruct (a =? in_port) eqn:E1; cbn [orb].
  { rewrite filter_cons_False by (unfold random_dest; by rewrite E1). by apply IH. }
  destruct (a =? 0) eqn:E2; cbn [orb].
  { rewrite filter_cons_False by (unfold random_dest; by rewrite E1, E2). by apply IH. }
  destruct Ha as [->|[p Hp]]; [done|]. destruct (po_netdev _ _ (po_at dp a p H Hp)) as [ea Hea].
  replace (bool_decide (sp_netdev (port_at dp a) = None)) with false.
  2: { unfold port_at; rewrite Hp; cbn; symmetry; apply bool_decide_false; by rewrite Hea. }
  rewrite andb_false_r; fold (no_fwd dp a). destruct (flood && no_fwd dp a) eqn:E3.
  { rewrite filter_cons_False by (unfold random_dest; by rewrite E1, E2, E3). by apply IH. }
  rewrite (tipo_ref nt nes) by done; cbn [mbind option_bind].
  destruct (layer_forwards id (kind nes in_port) (kind nes a)) eqn:E4.
  - rewrite filter_cons_True by (unfold random_dest; by rewrite E1, E2, E3, E4). cbn [send_all].
    pose proof (output_ok nd dp buffer a 0 H) as H1. pose proof (output_same nd dp buffer a 0 H) as Hs.
    destruct (dp_ports_output nd dp buffer a 0) as [dp1 o]; cbn [fst] in *. rewrite IH; [|done|].
    + cbn [mbind option_bind]. rewrite (list_filter_iff (λ no, random_dest dp1 id nes in_port flood no = true)
        (λ no, random_dest dp id nes in_port flood no = true)) by (intros k; unfold random_dest; by rewrite (same_no_fwd _ _ k Hs)).
      by destruct (send_all nd dp1 _ _).
    + eapply Forall_impl; [|exact Hl]. intros k; cbn. intros [?|[q Hq]]; [by left|right].
      pose proof (sc_config _ _ Hs k) as Hk. rewrite Hq in Hk. by destruct (ports dp1 !! k); [eauto|].
  - rewrite filter_cons_False by (unfold random_dest; by rewrite E1, E2, E3, E4). rewrite IH by done.
    cbn. by destruct (send_all _ _ _ _).
Qed.
