(* ===== verification/PortsCorrect.v ===== *)
(** What the ports promise: the invariant of the port table and its queues, exact
    delivery of [dp_ports_output_all] and [dp_ports_output_random], replies that fit
    their arrays, and the generation of the broadcast orders. *)

From S2P Require Import Prelude OpenFlow LinkedList MacTable Ports.

(** * Operations on the port table *)

Inductive port_op :=
  | AddPort (now : Z)
  | AddLocal (now : Z)
  | Output (buffer : list Z) (out_port queue_id : Z)
  | OutputAll (buffer : list Z) (in_port : Z) (flood : bool)
  | PortModReq (msg : ofl_msg_port_mod) (slave : bool)
  | QueueModify (now port_id queue_id rate : Z)
  | QueueDelete (port_id queue_id : Z)
  | Receive.

(** The frames a receiving round hands on, oldest first. *)
Definition collect (x : list (Z * list Z)) (dp : dp_ports) (no : Z) (buffer : list Z) : list (Z * list Z) * dp_ports :=
  (x ++ [(no, buffer)], dp).

Definition on_error {A E} (dp : A) (r : A + E) : A := match r with inl dp' => dp' | inr _ => dp end.

Definition port_step (nd : netdev) (dp : dp_ports) (op : port_op) : option dp_ports :=
  match op with
  | AddPort now => Some (on_error dp (dp_ports_add nd now dp))
  | AddLocal now => Some (on_error dp (dp_ports_add_local nd now dp))
  | Output buffer out_port queue_id => Some (dp_ports_output nd dp buffer out_port queue_id).1
  | OutputAll buffer in_port flood => Some (dp_ports_output_all nd dp buffer in_port flood).1
  | PortModReq msg slave => '(dp, _, _) ← dp_ports_handle_port_mod dp msg slave; Some dp
  | QueueModify now port_id queue_id rate => Some (dp_ports_handle_queue_modify nd now dp port_id queue_id rate).1
  | QueueDelete port_id queue_id => Some (dp_ports_handle_queue_delete dp port_id queue_id).1
  | Receive => Some (dp_ports_run nd collect [] dp).2
  end.

(** Queue identifiers are unsigned. *)
Definition op_ok (op : port_op) : bool :=
  match op with
  | Output _ _ queue_id | QueueModify _ _ queue_id _ | QueueDelete _ queue_id => 0 <=? queue_id
  | _ => true
  end.

(** The devices may answer differently at every operation. *)
Fixpoint port_steps (dp : dp_ports) (ops : list (netdev * port_op)) : option dp_ports :=
  match ops with
  | [] => Some dp
  | (nd, op) :: ops => dp ← port_step nd dp op; port_steps dp ops
  end.

Lemma listed dp : ports_ok dp → Forall (λ no, is_Some (ports dp !! no)) (port_list dp).
Proof. intros H; apply list.Forall_forall; intros no; apply (ok_listed dp H). Qed.

Lemma filter_nodup {A} (P : A → Prop) `{∀ x, Decision (P x)} (l : list A) : NoDup l → NoDup (base.filter P l).
Proof. apply list.NoDup_filter. Qed.

Lemma output_all_facts nd dp buffer in_port flood :
  ports_ok dp →
  let '(dp', out) := dp_ports_output_all nd dp buffer in_port flood in
  ports_ok dp' ∧ same_conf dp dp' ∧
  let l := base.filter (λ no, no ≠ in_port ∧ (flood && no_fwd dp no) = false) (port_list dp) in
  (∀ no, ports dp' !! no = (λ p, if bool_decide (no ∈ l) && up dp no then counted nd buffer no p else p) <$> ports dp !! no) ∧
  out = (λ no, (no, 0, buffer)) <$> base.filter (λ no, up dp no = true) l.
Proof.
  intros H; unfold dp_ports_output_all; rewrite output_all_send by (done || by apply listed).
  apply send_all_spec; [done|]. apply filter_nodup, H.
Qed.

Lemma queue_modify_ok nd now dp port id rate :
  ports_ok dp → 0 <= id → ports_ok (dp_ports_handle_queue_modify nd now dp port id rate).1.
Proof.
  intros H Hid; unfold dp_ports_handle_queue_modify; rewrite lookup_exact by done.
  destruct (ports dp !! port) as [p|] eqn:Hp; [|done]. pose proof (po_at dp port p H Hp) as Hok.
  case_match; [done|]. destruct (dp_ports_lookup_queue p id) as [q|] eqn:Hq.
  - case_match; [done|]. eapply set_port_ok; [done..|]. by eapply edit_queue_ok.
  - destruct (port_add_queue now p id rate) as [p'|] eqn:Ha; [|done].
    eapply set_port_ok; [done..|]. by eapply add_queue_ok.
Qed.

Lemma queue_delete_ok dp port id : ports_ok dp → 0 <= id → ports_ok (dp_ports_handle_queue_delete dp port id).1.
Proof.
  intros H Hid; unfold dp_ports_handle_queue_delete; rewrite lookup_exact by done.
  destruct (ports dp !! port) as [p|] eqn:Hp; [|done]. pose proof (po_at dp port p H Hp) as Hok.
  case_match; [done|]. destruct (dp_ports_lookup_queue p id) as [q|] eqn:Hq; [|done].
  eapply set_port_ok; [done..|]. by eapply delete_queue_ok.
Qed.

Lemma port_mod_ok dp msg slave :
  ports_ok dp → ∃ dp' e out, dp_ports_handle_port_mod dp msg slave = Some (dp', e, out) ∧ ports_ok dp' ∧ max_queues dp' = max_queues dp.
Proof.
  intros H; unfold dp_ports_handle_port_mod; case_match; [by eexists _, _, _|]. rewrite lookup_exact by done.
  destruct (ports dp !! pm_port_no msg) as [p|] eqn:Hp; [|by eexists _, _, _]. pose proof (po_at dp _ p H Hp) as Hok.
  destruct (po_netdev _ _ Hok) as [ea ->]; cbn [mbind option_bind]. case_match; [by eexists _, _, _|].
  eexists _, _, _; split; [done|]. split; [|done]. eapply set_port_ok; [done..|]. case_match; [|done]. by apply live_update_ok.
Qed.

(** ** Receiving *)

Definition hands_on (nd : netdev) (dp : dp_ports) (no : Z) : option (Z * list Z) :=
  buffer ← nd_recv nd no; if up dp no then Some (no, buffer) else None.

Lemma check_link_ok nd no p : port_ok no p → port_ok no (check_link nd no p) ∧ sp_config (check_link nd no p) = sp_config p.
Proof.
  intros H; unfold check_link; destruct (nd_link_state nd no) as [[]|]; [| |done].
  all: split; [by apply live_update_ok|]; unfold dp_port_live_update; by case_match.
Qed.

Lemma run_port_facts nd x dp no :
  ports_ok dp → is_Some (ports dp !! no) →
  let '(x', dp') := run_port nd collect (x, dp) no in
  ports_ok dp' ∧ (∀ k, sp_config <$> ports dp' !! k = sp_config <$> ports dp !! k) ∧
  max_queues dp' = max_queues dp ∧ x' = x ++ option_list (hands_on nd dp no).
Proof.
  intros H [p Hp]. unfold run_port, process_buffer, port_at, hands_on, up. rewrite Hp; cbn [default from_option id].
  destruct (check_link_ok nd no p (po_at dp no p H Hp)) as [Hok Hc].
  assert (∀ a b p, port_ok no p → port_ok no (set_rx p a b)) as Hrx by (intros ??? []; by split).
  assert (Hk : ∀ p', sp_config p' = sp_config p → ∀ k, sp_config <$> <[no := p']> (ports dp) !! k = sp_config <$> ports dp !! k).
  { intros p' E k; destruct (decide (k = no)) as [->|]; [rewrite lookup_insert_eq, Hp; cbn; by rewrite E|by rewrite lookup_insert_ne]. }
  destruct (nd_recv nd no) as [b|]; cbn [mbind option_bind].
  - change (if truthy (Z.lor OFPPC_NO_RECV OFPPC_PORT_DOWN) then 1 else 0) with OFPPC_PORT_DOWN.
    cbn [sp_config set_rx]. rewrite Hc. destruct (truthy _); cbn [negb].
    + split_and!; [by eapply set_port_ok; auto|by apply Hk|done|by rewrite app_nil_r].
    + cbn. split_and!; [by eapply set_port_ok; auto|by apply Hk|done|]. by rewrite (po_no _ _ Hok).
  - split_and!; [by eapply set_port_ok|by apply Hk|done|by rewrite app_nil_r].
Qed.

Lemma config_up dp dp' no : (∀ k, sp_config <$> ports dp' !! k = sp_config <$> ports dp !! k) → up dp' no = up dp no.
Proof. intros H; specialize (H no); unfold up. destruct (ports dp' !! no), (ports dp !! no); simplify_eq/=; congruence. Qed.

Lemma run_facts nd x dp l :
  ports_ok dp → Forall (λ no, is_Some (ports dp !! no)) l →
  let '(x', dp') := fold_left (run_port nd collect) l (x, dp) in
  ports_ok dp' ∧ (∀ k, sp_config <$> ports dp' !! k = sp_config <$> ports dp !! k) ∧
  max_queues dp' = max_queues dp ∧ x' = x ++ omap (hands_on nd dp) l.
Proof.
  revert x dp; induction l as [|a l IH]; intros x dp H Hl; [by rewrite app_nil_r|].
  apply list.Forall_cons in Hl as [Ha Hl]. cbn [fold_left].
  pose proof (run_port_facts nd x dp a H Ha) as H1. destruct (run_port nd collect (x, dp) a) as [x1 dp1].
  destruct H1 as (H1 & Hc & Hm & ->).
  assert (Hl1 : Forall (λ no, is_Some (ports dp1 !! no)) l).
  { eapply Forall_impl; [|exact Hl]. intros k [p Hp]; specialize (Hc k); rewrite Hp in Hc. by destruct (ports dp1 !! k); [eauto|]. }
  specialize (IH (x ++ option_list (hands_on nd dp a)) dp1 H1 Hl1). destruct (fold_left _ l _) as [x' dp'].
  destruct IH as (H' & Hc' & Hm' & ->). split_and!; [done|by intros k; rewrite Hc'|by rewrite Hm'|].
  rewrite <- app_assoc. f_equal. 
  assert (omap (hands_on nd dp1) l = omap (hands_on nd dp) l) as ->.
  { clear -Hc; induction l as [|k l IH]; [done|]. cbn.
    replace (hands_on nd dp1 k) with (hands_on nd dp k) by (unfold hands_on; by rewrite (config_up _ _ k Hc)).
    by rewrite IH. }
  cbn. by destruct (hands_on nd dp a).
Qed.

(** * Theorems *)

Lemma add_loop_max nd now dp n no dp' : add_loop nd now dp n no = inl dp' → max_queues dp' = max_queues dp.
Proof.
  revert no; induction n as [|n IH]; intros no; cbn [add_loop]; [done|]. case_match; [apply IH|].
  unfold new_port; repeat case_match; intros [= <-]; done.
Qed.

Lemma port_step_ok nd dp op :
  ports_ok dp → 0 <= max_queues dp → op_ok op = true →
  ∃ dp', port_step nd dp op = Some dp' ∧ ports_ok dp' ∧ max_queues dp' = max_queues dp.
Proof.
  intros H Hm Ho; destruct op; cbn [port_step op_ok] in *.
  - destruct (dp_ports_add nd now dp) as [dp'|] eqn:E; eexists; (split; [done|]); [|done].
    split; [by eapply port_add_ok|by eapply add_loop_max].
  - destruct (dp_ports_add_local nd now dp) as [dp'|] eqn:E; eexists; (split; [done|]); [|done].
    split; [by eapply add_local_ok|]. revert E. unfold dp_ports_add_local, new_port; repeat case_match; intros [= <-]; done.
  - eexists; split; [done|]. split; [by apply output_ok|].
    unfold dp_ports_output; repeat case_match; done.
  - pose proof (output_all_facts nd dp buffer in_port flood H) as Hf. destruct (dp_ports_output_all _ _ _ _ _) as [dp' out].
    destruct Hf as (? & [] & _). by eexists.
  - destruct (port_mod_ok dp msg slave H) as (dp' & e & out & -> & ? & ?). by eexists.
  - eexists; split; [done|]. split; [apply queue_modify_ok; [done|lia]|].
    unfold dp_ports_handle_queue_modify; repeat case_match; done.
  - eexists; split; [done|]. split; [apply queue_delete_ok; [done|lia]|].
    unfold dp_ports_handle_queue_delete; repeat case_match; done.
  - pose proof (run_facts nd [] dp _ H (listed dp H)) as Hf. unfold dp_ports_run. destruct (fold_left _ _ _) as [x' dp'].
    destruct Hf as (? & _ & ? & _). by eexists.
Qed.

Lemma omap_over_map {A B C} (h : B → option C) (f : A → B) (l : list A) : omap h (f <$> l) = omap (h ∘ f) l.
Proof. induction l as [|a l IH]; cbn; [done|]. by rewrite IH. Qed.

Lemma omap_slots {A} (g : nat → sw_queue → A) (qs : list (option sw_queue)) :
  length (omap (λ i : nat, g i <$> mjoin (qs !! i)) (seq 0 (length qs))) = length (omap id qs).
Proof.
  revert g; induction qs as [|q qs IH]; intros g; [done|]. cbn [length seq].
  rewrite <- fmap_S_seq. cbn [omap list_omap]. rewrite omap_over_map.
  specialize (IH (λ i, g (S i))). destruct q; [exact (f_equal S IH)|exact IH].
Qed.

Lemma queues_of_length {A} (f : sw_port → Z → sw_queue → A) no p :
  port_ok no p → Z.of_nat (length (queues_of f p)) = sp_num_queues p.
Proof.
  intros H; rewrite (po_num no p H); unfold used, queues_of; f_equal.
  rewrite <- (omap_slots (λ i, f p (Z.of_nat i))). pose proof (po_max no p H). pose proof (po_queues no p H) as Hq.
  replace (length (sp_queues p)) with (Z.to_nat (sp_max_queues p) + (length (sp_queues p) - Z.to_nat (sp_max_queues p)))%nat
    at 1 by lia.
  rewrite seq_app, omap_app, length_app. set (n := Z.to_nat (sp_max_queues p)).
  rewrite <- (Nat.add_0_r (length (omap _ (seq 0 n)))) at 1. f_equal. symmetry.
  assert (Hx : ∀ l, Forall (λ i : nat, (n <= i)%nat) l → omap (λ i : nat, f p (Z.of_nat i) <$> mjoin (sp_queues p !! i)) l = []).
  { induction l as [|i l IH]; intros Hl; [done|]. apply list.Forall_cons in Hl as [? Hl]. cbn.
    rewrite (po_over no p H i) by lia. cbn. by apply IH. }
  rewrite Hx; [done|]. apply list.Forall_forall; intros i Hi%elem_of_seq; lia.
Qed.

Lemma bind_length {A B} (f : A → list B) (c : A → Z) (l : list A) :
  Forall (λ a, Z.of_nat (length (f a)) = c a) l → zsum (c <$> l) = Z.of_nat (length (l ≫= f)).
Proof.
  induction l as [|a l IH]; intros H; [done|]. apply list.Forall_cons in H as [Ha H].
  cbn. rewrite length_app. specialize (IH H). cbn in IH. unfold zsum in *; cbn. rewrite IH. unfold mbind in *. lia.
Qed.

Lemma listed_ports dp : ports_ok dp → Forall (λ p, ∃ no, port_ok no p) (port_at dp <$> port_list dp).
Proof.
  intros H; apply list.Forall_fmap, list.Forall_forall. intros no Hno. exists no.
  apply (ok_listed dp H) in Hno as [p Hp]. unfold compose, port_at; rewrite Hp; by apply (po_at dp).
Qed.

Definition fits_array {A} (r : reply A) : Prop := stats_num r = Z.of_nat (length (stats r)).

(** Requests about ports and queues.  In a well-formed port table the bounds test of
    [dp_ports_lookup] finds exactly the existing ports, every multipart and queue
    configuration reply stores exactly as many pointers as its array was allocated for
    and announces (whatever port and queue are asked for), and no handler follows a null
    device or statistics pointer. *)
Theorem port_replies_fit (dp : dp_ports) (now port_no queue_id : Z) (msg : ofl_msg_port_mod) (slave : bool)
    (H : ports_ok dp) :
  dp_ports_lookup dp port_no = ports dp !! port_no ∧
  fits_array (dp_ports_handle_stats_request_port now dp port_no) ∧
  fits_array (dp_ports_handle_port_desc_request dp) ∧
  fits_array (dp_ports_handle_stats_request_queue now dp port_no queue_id) ∧
  (∃ r, dp_ports_handle_queue_get_config_request dp port_no = Some r ∧ ∀ a, r = inl a → fits_array a) ∧
  is_Some (dp_ports_handle_port_mod dp msg slave).
Proof.
  unfold fits_array. split_and!.
  - by apply lookup_exact.
  - unfold dp_ports_handle_stats_request_port; repeat case_match; try done. cbn; by rewrite length_fmap, (ok_num dp H).
  - cbn. by rewrite length_fmap, (ok_num dp H).
  - unfold dp_ports_handle_stats_request_queue. rewrite lookup_exact by done. case_match; [case_match|].
    + apply bind_length. eapply Forall_impl; [|by apply listed_ports]. intros p [no Hp]; by eapply queues_of_length.
    + apply (bind_length (queue_of _ _) (λ p, Z.of_nat (length (queue_of _ _ p)))). by apply Forall_true.
    + destruct (ports dp !! port_no) as [p|] eqn:Hp; [|done]. repeat (case_match; try done). symmetry.
      by eapply queues_of_length, po_at.
  - unfold dp_ports_handle_queue_get_config_request. rewrite lookup_exact by done. case_match.
    + eexists; split; [done|]. intros a [= <-]. apply bind_length. eapply Forall_impl; [|by apply listed_ports].
      intros p [no Hp]; by eapply queues_of_length.
    + destruct (ports dp !! port_no) as [p|] eqn:Hp; [|by eexists].
      destruct (po_netdev _ _ (po_at dp _ p H Hp)) as [ea ->]; cbn [mbind option_bind]. case_match; eexists; (split; [done|]).
      * done.
      * intros a [= <-]. symmetry. by eapply queues_of_length, po_at.
  - destruct (port_mod_ok dp msg slave H) as (? & ? & ? & -> & _). by eexists.
Qed.

(** Example devices: every operation succeeds, nothing is received. *)
Definition ex_nd : netdev :=
  Netdev (λ no, Some [2; 0; 0; 0; 0; no mod 256]) (λ _, None) (λ _, None) (λ _, true) (λ _, true)
    (λ _ _ _, true) (λ _ _ _, true) (λ _ _ _, true).

(** Three physical ports and the local one; queue 1 of port 2; port 3 is down. *)
Definition ex_ops : list (netdev * port_op) :=
  pair ex_nd <$> [AddPort 0; AddPort 0; AddPort 0; AddLocal 0; QueueModify 5 2 1 10; PortModReq (PortMod 3 [2; 0; 0; 0; 0; 3] 1 1 0) false].
Definition ex_dp : dp_ports := default (no_ports 8) (port_steps (no_ports 8) ex_ops).

Lemma port_steps_ok dp ops :
  ports_ok dp → 0 <= max_queues dp → Forall (λ x, op_ok x.2 = true) ops →
  ∃ dp', port_steps dp ops = Some dp' ∧ ports_ok dp'.
Proof.
  revert dp; induction ops as [|[nd op] ops IH]; intros dp H Hm Ho; [by exists dp|].
  apply list.Forall_cons in Ho as [Ho Ho']. cbn [port_steps].
  destruct (port_step_ok nd dp op H Hm Ho) as (dp' & -> & H' & Hm'); cbn. apply IH; [done|lia|done].
Qed.

Lemma ex_dp_ok : ports_ok ex_dp.
Proof.
  destruct (port_steps_ok (no_ports 8) ex_ops (no_ports_ok 8)) as (dp & Hs & H).
  - vm_compute; discriminate.
  - repeat constructor.
  - unfold ex_dp. by rewrite Hs.
Qed.

Lemma port_replies_witness : stats_num (dp_ports_handle_stats_request_queue 7 ex_dp OFPP_ANY OFPQ_ALL) = 1 ∧
  fits_array (dp_ports_handle_stats_request_queue 7 ex_dp OFPP_ANY OFPQ_ALL).
Proof.
  split; [vm_compute; reflexivity|].
  exact (proj1 (proj2 (proj2 (proj2 (port_replies_fit ex_dp 7 OFPP_ANY OFPQ_ALL (PortMod 1 [] 0 0 0) true ex_dp_ok))))).
Defined.

(** C39: the port table.  From the empty table, any sequence of port additions (also of the
    local port), transmissions, broadcasts, PORT_MOD requests, queue creations, changes and
    deletions and receiving rounds, whatever the devices answer, never follows a null
    pointer and leaves the table well formed: the physical ports are numbered without gaps
    from 1 and below DP_MAX_PORTS, the list holds each existing port once, [ports_num] is
    its length, each port has its device and number, its queue count is the number of
    queues in use, every queue lies below [max_queues] and has its index as class, and the
    live bit is set exactly when neither the link nor the port is down. *)
Theorem ports_invariant (mq : Z) (ops : list (netdev * port_op))
    (Hmq : 0 <= mq) (Hops : Forall (λ x, op_ok x.2 = true) ops) :
  ∃ dp, port_steps (no_ports mq) ops = Some dp ∧ ports_ok dp.
Proof. apply port_steps_ok; [apply no_ports_ok|done|done]. Qed.

Lemma ports_invariant_witness : ∃ dp, port_steps (no_ports 8) ex_ops = Some dp ∧ ports_ok dp.
Proof. apply (ports_invariant 8 ex_ops); [discriminate|repeat constructor]. Defined.

(** Who gets a frame sent to OFPP_ALL or flooded. *)
Definition all_dest (dp : dp_ports) (in_port : Z) (flood : bool) (no : Z) : bool :=
  negb (no =? in_port) && up dp no && negb (flood && no_fwd dp no).

(** OFPP_ALL and OFPP_FLOOD.  [dp_ports_output_all] hands the frame, on the default
    class, to exactly the existing ports (the local one included) that are not the input
    port, are not down and, for a flood, do not have NO_FWD set: once each, in the order the
    ports were added.  Exactly those ports count it, as sent or as dropped when the device
    refuses it; no other port changes. *)
Theorem output_all_exact (nd : netdev) (dp : dp_ports) (buffer : list Z) (in_port : Z) (flood : bool)
    (H : ports_ok dp) :
  ∃ dp' out, dp_ports_output_all nd dp buffer in_port flood = (dp', out) ∧
  out = (λ no, (no, 0, buffer)) <$> base.filter (λ no, all_dest dp in_port flood no = true) (port_list dp) ∧
  (∀ no, ports dp' !! no = (λ p, if all_dest dp in_port flood no then counted nd buffer no p else p) <$> ports dp !! no) ∧
  ports_ok dp'.
Proof.
  pose proof (output_all_facts nd dp buffer in_port flood H) as Hf.
  destruct (dp_ports_output_all nd dp buffer in_port flood) as [dp' out].
  destruct Hf as (H' & _ & Hp & ->). eexists _, _. split; [done|]. split_and!; [|intros no; rewrite Hp|done].
  - f_equal. rewrite list_filter_filter. apply list_filter_iff. intros no; unfold all_dest.
    rewrite !andb_true_iff, !negb_true_iff, Z.eqb_neq. tauto.
  - destruct (ports dp !! no) as [p|] eqn:E; [|done]. cbn. unfold all_dest.
    assert (Hin : no ∈ port_list dp) by (apply (ok_listed dp H); eauto).
    f_equal. destruct (up dp no); rewrite ?andb_false_r, ?andb_true_r; [|done].
    erewrite (bool_decide_ext _ (no ≠ in_port ∧ flood && no_fwd dp no = false)).
    2: { rewrite list_elem_of_filter; tauto. }
    destruct (no =? in_port) eqn:E1, (flood && no_fwd dp no); cbn.
    all: by rewrite ?bool_decide_true, ?bool_decide_false by naive_solver lia.
Qed.

Lemma output_all_witness : (dp_ports_output_all ex_nd ex_dp [1; 2; 3] 1 true).2 = [(2, 0, [1; 2; 3]); (OFPP_LOCAL, 0, [1; 2; 3])].
Proof.
  destruct (output_all_exact ex_nd ex_dp [1; 2; 3] 1 true ex_dp_ok) as (dp' & out & -> & -> & _).
  vm_compute. reflexivity.
Defined.

Lemma random_facts nd dp id nt nes Matriz_bc num_matriz row buffer in_port flood :
  ports_ok dp → repr true nt nes → Matriz_bc !! num_matriz = Some row → row ≡ₚ seqZ 0 (ports_num dp) →
  ∃ dp' out, dp_ports_output_random nd dp id nt Matriz_bc num_matriz buffer in_port flood = Some (dp', out) ∧
    ports_ok dp' ∧ same_conf dp dp' ∧
    out = (λ no, (no, 0, buffer)) <$> base.filter (λ no, (random_dest dp id nes in_port flood no && up dp no) = true) row ∧
    NoDup row ∧ (∀ no, no ∈ row ↔ 0 <= no < ports_num dp).
Proof.
  intros H Hnt Hrow Hperm. unfold dp_ports_output_random. rewrite (tipo_ref nt nes), Hrow by done. cbn [mbind option_bind].
  pose proof (ok_num dp H) as Hnum.
  assert (Hlen : length row = Z.to_nat (ports_num dp)) by (rewrite Hperm, length_seqZ; lia).
  replace (Z.of_nat (length row) <? ports_num dp) with false by lia.
  rewrite firstn_all2 by lia.
  assert (Hnd : NoDup row) by (rewrite Hperm; apply NoDup_seqZ).
  assert (Hval : ∀ no, no ∈ row ↔ 0 <= no < ports_num dp) by (intros no; rewrite Hperm, elem_of_seqZ; lia).
  rewrite (output_random_send nd dp id nt nes); [|done|done|].
  2: { apply list.Forall_forall; intros no Hno%Hval. destruct (decide (no = 0)); [by left|right].
       apply (ok_range dp H). unfold phys. destruct (local_port dp); lia. }
  pose proof (send_all_spec nd dp buffer _ H (filter_nodup (λ no, random_dest dp id nes in_port flood no = true) row Hnd)) as Hs.
  destruct (send_all nd dp buffer _) as [dp' out]. destruct Hs as (H' & Hc & _ & ->).
  exists dp'; eexists; split; [done|]. rewrite list_filter_filter.
  split_and!; [done|done|f_equal; apply list_filter_iff; intros no; rewrite andb_true_iff; tauto|done|done].
Qed.

(** OFPP_RANDOM, the broadcast of ARP-Path.  With a matrix row that is a permutation of
    0 .. ports_num - 1, [dp_ports_output_random] hands the frame once to exactly the ports
    with numbers from 1 to ports_num - 1 that are not the input port, are not down, do not
    have NO_FWD set (when flooding) and may carry it by the layer rule of the switch, in the
    order of the row, and to no other.  With a local port these numbers are all the physical
    ports; without one (--no-local-port) they leave out the last port, which never gets a
    broadcast. *)
Theorem output_random_exact (nd : netdev) (dp : dp_ports) (id : Z) (nt : mac_to_port) (nes : list mac_entry)
    (Matriz_bc : list (list Z)) (num_matriz : nat) (row : list Z) (buffer : list Z) (in_port : Z) (flood : bool)
    (H : ports_ok dp) (Hnt : repr true nt nes) (Hrow : Matriz_bc !! num_matriz = Some row)
    (Hperm : row ≡ₚ seqZ 0 (ports_num dp)) :
  ∃ dp' out, dp_ports_output_random nd dp id nt Matriz_bc num_matriz buffer in_port flood = Some (dp', out) ∧
    ports_ok dp' ∧
    out = (λ no, (no, 0, buffer)) <$> base.filter (λ no, random_dest dp id nes in_port flood no && up dp no = true) row ∧ NoDup out ∧
    (∀ no, (no, 0, buffer) ∈ out ↔ 1 <= no < ports_num dp ∧ random_dest dp id nes in_port flood no && up dp no = true) ∧
    ports_num dp = phys dp + (if local_port dp then 1 else 0).
Proof.
  destruct (random_facts nd dp id nt nes Matriz_bc num_matriz row buffer in_port flood H Hnt Hrow Hperm)
    as (dp' & out & E & H' & _ & -> & Hnd & Hval).
  exists dp'; eexists; split; [exact E|]. split_and!; [done|done| | |unfold phys; lia].
  - apply NoDup_fmap_2; [intros ?? [=]; done|by apply filter_nodup].
  - intros no. rewrite list_elem_of_fmap. setoid_rewrite list_elem_of_filter. setoid_rewrite Hval.
    split.
    + intros (? & [= <-] & Hd & ?). split; [|done].
      assert (no ≠ 0) by (intros ->; unfold random_dest in Hd; rewrite Z.eqb_refl, !andb_false_r in Hd; done). lia.
    + intros (? & Hd). exists no; split_and!; done || lia.
Qed.

Lemma output_random_witness :
  ∃ dp', dp_ports_output_random ex_nd ex_dp 1000 mac_to_port_new [[3; 0; 2; 1]] 0 [1; 2; 3] 2 true = Some (dp', [(1, 0, [1; 2; 3])]).
Proof.
  destruct (output_random_exact ex_nd ex_dp 1000 mac_to_port_new [] [[3; 0; 2; 1]] 0 [3; 0; 2; 1] [1; 2; 3] 2 true)
    as (dp' & out & E & _ & -> & _).
  - exact ex_dp_ok.
  - exact mac_new_repr.
  - reflexivity.
  - apply (bool_decide_unpack _). vm_compute. exact I.
  - exists dp'. rewrite E. vm_compute. reflexivity.
Defined.

(** Receiving.  One round of [dp_ports_run] takes at most one frame from each port, in
    the order of the ports, and hands on exactly the frames of the ports that are not down;
    OFPPC_NO_RECV, which should stop them too, is not looked at ([hands_on] depends on the
    configuration only through the PORT_DOWN bit). *)
Theorem receive_exact (nd : netdev) (dp : dp_ports) (H : ports_ok dp) :
  let '(frames, dp') := dp_ports_run nd collect [] dp in
  frames = omap (hands_on nd dp) (port_list dp) ∧ ports_ok dp' ∧
  (∀ no, up dp' no = up dp no).
Proof.
  pose proof (run_facts nd [] dp _ H (listed dp H)) as Hf. unfold dp_ports_run.
  destruct (fold_left _ _ _) as [x' dp']. destruct Hf as (? & Hc & _ & ->). split_and!; [done..|].
  intros no; by apply config_up.
Qed.

(** Port 2 refuses frames (NO_RECV) and port 3 is down: both send one. *)
Lemma receive_witness :
  let nd := Netdev (nd_open ex_nd) (λ _, Some true) (λ no, Some [no]) (λ _, true) (λ _, true)
              (λ _ _ _, true) (λ _ _ _, true) (λ _ _ _, true) in
  let dp := default ex_dp (port_step ex_nd ex_dp (PortModReq (PortMod 2 [2; 0; 0; 0; 0; 2] OFPPC_NO_RECV OFPPC_NO_RECV 0) false)) in
  (dp_ports_run nd collect [] dp).1 = [(1, [1]); (2, [2]); (OFPP_LOCAL, [OFPP_LOCAL])].
Proof.
  intros nd dp. assert (Hdp : ports_ok dp).
  { destruct (port_step_ok ex_nd ex_dp (PortModReq (PortMod 2 [2; 0; 0; 0; 0; 2] OFPPC_NO_RECV OFPPC_NO_RECV 0) false)
      ex_dp_ok ltac:(vm_compute; discriminate) eq_refl) as (dp' & E & H' & _).
    unfold dp; by rewrite E. }
  pose proof (receive_exact nd dp Hdp) as Hx. destruct (dp_ports_run nd collect [] dp) as [frames dp'].
  destruct Hx as [-> _]. vm_compute. reflexivity.
Defined.

(** * The broadcast orders *)

Lemma draw_sound n row rand v rest :
  0 < n <= 65535 → draw n row rand = Some (v, rest) → 0 <= v < n ∧ v ∉ row.
Proof.
  intros Hn; induction rand as [|r rand IH]; cbn; [done|]. case_match eqn:E; [done|]. intros [= <- _].
  apply orb_false_iff in E as [_ E%bool_decide_eq_false]. pose proof (Z.mod_pos_bound r n).
  unfold u16, wrap in *. rewrite Z.mod_small in * by lia. split; [lia|done].
Qed.

Lemma draw_mono n row l m v rest : draw n row l = Some (v, rest) → draw n row (l ++ m) = Some (v, rest ++ m).
Proof. induction l as [|r l IH]; cbn; [done|]. case_match; [done|]. intros [= -> ->]; done. Qed.

Lemma gen_row_mono n todo row l m r rest : gen_row n todo row l = Some (r, rest) → gen_row n todo row (l ++ m) = Some (r, rest ++ m).
Proof.
  revert row l; induction todo as [|todo IH]; intros row l; cbn; [by intros [= -> ->]|].
  destruct (draw n row l) as [[v l']|] eqn:E; cbn; [|done]. rewrite (draw_mono _ _ _ m _ _ E); cbn. apply IH.
Qed.

(** A row being filled: different values in range. *)
Definition row_ok (n : Z) (row : list Z) : Prop := NoDup row ∧ Forall (λ v, 0 <= v < n) row.

Lemma row_snoc n row v : row_ok n row → 0 <= v < n → v ∉ row → row_ok n (row ++ [v]).
Proof.
  intros [Hd Hf] Hv Hn; split.
  - apply list.NoDup_app; split; [done|split; [|apply list.NoDup_singleton]]. by intros x Hx ->%list_elem_of_singleton.
  - apply list.Forall_app; split; [done|by apply Forall_singleton].
Qed.

Lemma row_sub n row : row_ok n row → row ⊆+ seqZ 0 n.
Proof.
  intros [Hd Hf]; apply NoDup_submseteq; [done|]. intros v Hv. rewrite list.Forall_forall in Hf. apply elem_of_seqZ.
  specialize (Hf v Hv); lia.
Qed.

Lemma row_full n row : 0 <= n → row_ok n row → Z.of_nat (length row) = n → row ≡ₚ seqZ 0 n.
Proof. intros ? Hr Hl. apply submseteq_length_Permutation; [by apply row_sub|]. rewrite length_seqZ; lia. Qed.

Lemma row_missing n row : row_ok n row → Z.of_nat (length row) < n → ∃ v, 0 <= v < n ∧ v ∉ row.
Proof.
  intros Hr Hl. destruct (decide (Forall (λ v, v ∈ row) (seqZ 0 n))) as [Ha|Ha].
  - assert (seqZ 0 n ⊆+ row) as Hs by (apply NoDup_submseteq; [apply NoDup_seqZ|by apply list.Forall_forall]).
    apply submseteq_length in Hs. rewrite length_seqZ in Hs; lia.
  - apply not_Forall_Exists, list.Exists_exists in Ha as (v & Hv%elem_of_seqZ & Hn); [|apply _]. exists v; split; [lia|done].
Qed.

Lemma gen_row_sound n todo row rand r rest :
  0 <= n <= 65535 → row_ok n row → Z.of_nat (length row + todo) = n → gen_row n todo row rand = Some (r, rest) → r ≡ₚ seqZ 0 n.
Proof.
  intros Hn; revert row rand; induction todo as [|todo IH]; intros row rand Hr Hl; cbn.
  - intros [= <- _]. apply row_full; [lia|done|lia].
  - destruct (draw n row rand) as [[v l]|] eqn:E; cbn; [|done]. apply draw_sound in E as [? ?]; [|lia].
    apply IH; [by apply row_snoc|rewrite length_app; cbn; lia].
Qed.

Lemma gen_rows_sound n todo rows rand rs rest :
  0 <= n <= 65535 → Forall (λ r, r ≡ₚ seqZ 0 n) rows → gen_rows n todo rows rand = Some (rs, rest) →
  length rs = (length rows + todo)%nat ∧ Forall (λ r, r ≡ₚ seqZ 0 n) rs.
Proof.
  intros Hn; revert rows rand; induction todo as [|todo IH]; intros rows rand Hr; cbn.
  - intros [= <- _]; split; [lia|done].
  - destruct (gen_row n _ [] rand) as [[r l]|] eqn:E; cbn; [|done]. intros Hg.
    apply gen_row_sound in E; [|done|split; constructor|cbn; lia].
    destruct (IH (rows ++ [r]) l) as [-> ?]; [apply list.Forall_app; split; [done|by apply Forall_singleton]|done|].
    rewrite length_app; cbn; split; [lia|done].
Qed.

Section fair.
  Context (n : Z) (rnd : nat → Z).

(** Every residue keeps appearing. *)
Definition fair : Prop := ∀ v k, 0 <= v < n → ∃ k' : nat, (k <= k')%nat ∧ rnd k' mod n = v.

  Context (Hn : 0 <= n <= 65535) (Hfair : fair).

Local Abbreviation stream k a := (rnd <$> seq k a).

Lemma stream_app k a b : stream k (a + b) = stream k a ++ stream (k + a) b.
Proof using. by rewrite seq_app, fmap_app. Qed.

Lemma draw_within row v d k :
  0 <= v < n → v ∉ row → rnd (k + d)%nat mod n = v → ∃ a w, draw n row (stream k a) = Some (w, []).
Proof using Hn.
  intros Hv Hr. revert k; induction d as [|d IH]; intros k Hk.
  - exists 1%nat, v. cbn. rewrite Nat.add_0_r in Hk. rewrite Hk. unfold u16, wrap; rewrite Z.mod_small by lia.
    rewrite (bool_decide_false (v ∈ row)) by done. by replace (v =? n) with false by lia.
  - destruct (IH (S k)) as (a & w & E); [by rewrite Nat.add_succ_comm|].
    destruct ((u16 (rnd k mod n) =? n) || bool_decide (u16 (rnd k mod n) ∈ row)) eqn:Hc.
    + exists (S a), w. cbn. by rewrite Hc.
    + exists 1%nat, (u16 (rnd k mod n)). cbn. by rewrite Hc.
Qed.

Lemma gen_row_live todo row k :
  row_ok n row → Z.of_nat (length row + todo) = n → ∃ a r, gen_row n todo row (stream k a) = Some (r, []).
Proof using Hn Hfair.
  revert row k; induction todo as [|todo IH]; intros row k Hr Hl; [by exists 0%nat, row|].
  destruct (row_missing n row) as (v & Hv & Hnv); [done|lia|]. destruct (Hfair v k Hv) as (k' & Hk & Hm).
  destruct (draw_within row v (k' - k) k) as (a & w & E); [done|done|by replace (k + (k' - k))%nat with k' by lia|].
  destruct (draw_sound n row _ w _ ltac:(lia) E) as [? ?].
  destruct (IH (row ++ [w]) (k + a)%nat) as (b & r & E'); [by apply row_snoc|rewrite length_app; cbn; lia|].
  exists (a + b)%nat, r. cbn. rewrite stream_app, (draw_mono _ _ _ _ _ _ E). done.
Qed.

Lemma gen_rows_live todo rows k : ∃ a rs, gen_rows n todo rows (stream k a) = Some (rs, []).
Proof using Hn Hfair.
  revert rows k; induction todo as [|todo IH]; intros rows k; [by exists 0%nat, rows|].
  destruct (gen_row_live (Z.to_nat n) [] k) as (a & r & E); [split; constructor|cbn; lia|].
  destruct (IH (rows ++ [r]) (k + a)%nat) as (b & rs & E').
  exists (a + b)%nat, rs. cbn [gen_rows]. rewrite stream_app, (gen_row_mono _ _ _ _ _ _ _ E). done.
Qed.

End fair.

(** The random broadcast orders.  [matriz_aleatoria_gen] redraws until a number is new,
    so nothing bounds its running time; but when the random source is fair (every residue
    modulo the number of ports keeps appearing) it returns after finitely many draws, and
    whenever it returns, for any source, it has made sixteen rows, each a permutation of
    0 .. ports_num - 1: the form the broadcast needs to reach each port once. *)
Theorem matriz_gen_live (dp : dp_ports) (rnd : nat → Z) (H : ports_ok dp) (Hfair : fair (ports_num dp) rnd) :
  (∃ draws rows, matriz_aleatoria_gen dp (rnd <$> seq 0 draws) = Some (rows, [])) ∧
  (∀ rand rows rest, matriz_aleatoria_gen dp rand = Some (rows, rest) →
     length rows = 16%nat ∧ Forall (λ row, row ≡ₚ seqZ 0 (ports_num dp)) rows).
Proof.
  assert (Hn : 0 <= ports_num dp <= 65535).
  { pose proof (ok_phys dp H). unfold phys, DP_MAX_PORTS in *. destruct (local_port dp); lia. }
  split.
  - destruct (gen_rows_live (ports_num dp) rnd Hn Hfair 16 [] 0%nat) as (a & rs & E); by exists a, rs.
  - intros rand rows rest E. eapply gen_rows_sound in E; [|done|constructor]. exact E.
Qed.

Lemma matriz_gen_witness :
  ∃ draws rows, matriz_aleatoria_gen ex_dp (Z.of_nat <$> seq 0 draws) = Some (rows, []).
Proof.
  apply (matriz_gen_live ex_dp Z.of_nat ex_dp_ok).
  intros v k Hv. change (ports_num ex_dp) with 4 in *. exists (k * 4 + Z.to_nat v)%nat. split; [lia|].
  rewrite Nat2Z.inj_add, Nat2Z.inj_mul, Z2Nat.id by lia. change (Z.of_nat 4) with 4.
  rewrite Z.add_comm, Z_mod_plus_full. apply Z.mod_small; lia.
Defined.
