(* ===== verification/Network.v ===== *)
(** A network of ARP-Path switches: one broadcast in a network with any links, loops
    included, under any order of delivery.

    Each switch runs [pipeline_arp_path] of ArpPath.v on the frames it receives and
    floods with [dp_ports_output_random] of Ports.v; the network is the switches and the
    copies of the broadcast that are on the links. *)

From S2P Require Import Prelude OpenFlow LinkedList MacTable ArpPath Ports PortsCorrect.

Record sw_node := SwNode {
  n_id : Z;
  n_table : mac_to_port;
  n_neighbors : mac_to_port;
  n_ports : dp_ports;
  n_matrix : list (list Z) }.

(** [wire] holds the copies under way: the switch and port each will arrive at. *)
Record net := Net { net_nodes : gmap positive sw_node; wire : list (positive * Z) }.

(** A copy is delivered; or a switch handles a frame of someone else. *)
Inductive net_event :=
  | Deliver (now : Z) (i : nat) (rand : nat) (nd : netdev)
  | Background (now : Z) (n : positive) (g : arp_frame).

(** * Tables learn only the senders of frames *)

Definition knows (es : list mac_entry) (m : list Z) : Prop := m ∈ (me_mac <$> es).

Lemma knows_first s es : first_of s es = None ↔ ¬ knows es s.
Proof.
  unfold knows. induction es as [|e es IH]; [split; [set_solver|done]|]. rewrite first_cons, fmap_cons, elem_of_cons.
  destruct (mac_is s e) eqn:E; [apply mac_is_eq in E|apply not_true_iff_false in E; rewrite mac_is_eq in E]; [naive_solver|].
  rewrite IH. naive_solver.
Qed.

Lemma knows_found now Mac es m : knows (found_spec now Mac es).1 m → knows es m.
Proof.
  unfold found_spec. destruct (find_first _ es) as [[[pre e] post]|] eqn:E; [|done]. cbn [fst].
  apply find_first_split in E as (-> & _ & _). destruct (_ && _); [|done].
  unfold knows. rewrite !fmap_app, !fmap_cons, fmap_app. set_solver.
Qed.

Lemma knows_update f P es m : (∀ e, me_mac (f e) = me_mac e) → knows (update_spec f P es) m → knows es m.
Proof.
  intros Hf. unfold update_spec. destruct (find_first _ es) as [[[pre e] post]|] eqn:E; [|done].
  apply find_first_split in E as (-> & _ & _). unfold knows. rewrite !fmap_app, !fmap_cons, Hf. done.
Qed.

Lemma knows_step now nes es g m : knows (arp_spec now nes es g).1 m → knows es m ∨ m = fr_eth_src g.
Proof.
  assert (Hr : ∀ Mac time es m, knows (refresh_spec now Mac time es) m → knows es m).
  { intros ????. apply knows_update. intros; apply raise_mac. }
  assert (Hv : ∀ Mac port time es m, knows (move_spec now Mac port time es) m → knows es m).
  { intros ?????. apply knows_update. intros; by rewrite raise_mac. }
  assert (Hl : ∀ time es m, knows (learn_entry now nes g time :: es) m → knows es m ∨ m = fr_eth_src g).
  { intros ???. unfold knows. rewrite fmap_cons, elem_of_cons. cbn. tauto. }
  unfold arp_spec. pose proof (knows_found now (fr_eth_src g) es m) as H1.
  destruct (found_spec now (fr_eth_src g) es) as [es1 port]; cbn [fst] in *.
  destruct (is_bcast g).
  { case_match; cbn [fst]; [intros [?|?]%Hl; auto|]. case_match; cbn [fst]; [intros ?%Hr; auto|].
    case_match; cbn [fst]; [intros ?%Hv; auto|auto]. }
  pose proof (knows_found now (fr_eth_dst g) (if learns g then learn_spec now nes es1 g port else es1) m) as H2.
  destruct (found_spec now (fr_eth_dst g) _) as [es2 out]; cbn [fst] in *.
  assert (Hx : knows es2 m → knows es m ∨ m = fr_eth_src g).
  { intros Hk%H2. destruct (learns g); [|auto]. unfold learn_spec in Hk. case_match; [|case_match].
    - apply Hl in Hk as [?|?]; auto.
    - apply Hv in Hk; auto.
    - apply Hr in Hk; auto. }
  unfold unicast_spec. destruct (out =? -1); cbn [fst]; [exact Hx|]. intros Hk%Hr. exact (Hx Hk).
Qed.

Section network.
  (** The links of the switches: where a frame sent by a port arrives. *)
  Context (link : positive → Z → option (positive * Z)).
  (** The broadcast, and its bytes. *)
  Context (f : arp_frame) (buffer : list Z).

Definition at_port (p : Z) : arp_frame :=
  Frame p (fr_eth_dst f) (fr_eth_src f) (fr_eth_type f) (fr_arp f) (fr_arppath f).

(** The ports of the frames handed to the devices. *)
Definition sent_to (txs : list tx) : list Z := (λ x : tx, x.1.1) <$> txs.

(** A switch receives the broadcast on port [p]: its new state, and the ports it sends
    copies to. *)
Definition receive (now : Z) (rand : nat) (nd : netdev) (st : sw_node) (p : Z) : option (sw_node * list Z) :=
  '(t, outs) ← pipeline_arp_path now (n_neighbors st) (n_table st) (at_port p);
  match outs with
  | [AOutput port] =>
    if port =? OFPP_RANDOM then
      '(dp, txs) ← dp_ports_output_random nd (n_ports st) (n_id st) (n_neighbors st) (n_matrix st) (rand mod 16)
                     buffer p false;
      Some (SwNode (n_id st) t (n_neighbors st) dp (n_matrix st), sent_to txs)
    else
      let '(dp, txs) := dp_ports_output nd (n_ports st) buffer port 0 in
      Some (SwNode (n_id st) t (n_neighbors st) dp (n_matrix st), sent_to txs)
  | _ => Some (SwNode (n_id st) t (n_neighbors st) (n_ports st) (n_matrix st), [])
  end.

(** The next state and the copies delivered, each by the switch and port it arrived at.  There is
    nothing to do for an index that no copy has. *)
Definition net_step (s : net) (ev : net_event) : option (net * list (positive * Z)) :=
  match ev with
  | Deliver now i rand nd =>
    match wire s !! i with
    | None => Some (s, [])
    | Some (n, p) =>
      st ← net_nodes s !! n;
      '(st, outs) ← receive now rand nd st p;
      Some (Net (<[n := st]> (net_nodes s)) (delete i (wire s) ++ omap (link n) outs), [(n, p)])
    end
  | Background now n g =>
    match net_nodes s !! n with
    | None => Some (s, [])
    | Some st =>
      '(t, _) ← pipeline_arp_path now (n_neighbors st) (n_table st) g;
      Some (Net (<[n := SwNode (n_id st) t (n_neighbors st) (n_ports st) (n_matrix st)]> (net_nodes s)) (wire s), [])
    end
  end.

Fixpoint net_run (s : net) (evs : list net_event) : option (net * list (positive * Z)) :=
  match evs with
  | [] => Some (s, [])
  | ev :: evs => '(s, l) ← net_step s ev; '(s, l') ← net_run s evs; Some (s, l ++ l')
  end.

(** The port at which a switch received its first copy. *)
Fixpoint first_arrival (delivered : list (positive * Z)) (n : positive) : option Z :=
  match delivered with
  | [] => None
  | (m, p) :: l => if decide (m = n) then Some p else first_arrival l n
  end.

Lemma first_arrival_snoc l n p m :
  first_arrival (l ++ [(n, p)]) m = match first_arrival l m with Some q => Some q | None => if decide (n = m) then Some p else None end.
Proof using. induction l as [|[a q] l IH]; [done|]. cbn [app first_arrival]. by destruct (decide (a = m)). Qed.

(** * Assumptions about the network *)

Context (src_port : positive * Z) (ends : list (positive * Z)) (switches : gset positive) (T : Z).

(** Links are symmetric and end at ports; the host that sends is at [src_port]. *)
Record topology_ok : Prop := {
  tp_sym : ∀ a p b q, link a p = Some (b, q) → link b q = Some (a, p);
  tp_ends : ∀ a p x, link a p = Some x → x ∈ ends;
  tp_switch : ∀ a p x, link a p = Some x → x.1 ∈ switches;
  tp_ports : ∀ a p x, link a p = Some x → fits 16 p;
  tp_host : link src_port.1 src_port.2 = None ∧ fits 16 src_port.2 ∧ src_port.1 ∈ switches }.

(** A switch in working order. *)
Record node_ok (st : sw_node) (es : list mac_entry) : Prop := {
  ok_table : repr true (n_table st) es;
  ok_neighbors : ∃ nes, repr true (n_neighbors st) nes;
  ok_ports : ports_ok (n_ports st);
  ok_matrix : ∀ k, (k < 16)%nat → ∃ row, n_matrix st !! k = Some row ∧ row ≡ₚ seqZ 0 (ports_num (n_ports st)) }.

(** Everything happens within the time of a lock after the first copy. *)
Definition in_time (now : Z) : Prop := fits 64 now ∧ now < T ∧ T <= now + BT_TIME * 1000 ∧ fits 64 (now + BT_TIME * 1000).

Definition event_ok (ev : net_event) : Prop :=
  match ev with
  | Deliver now _ _ _ => in_time now
  | Background now _ g => in_time now ∧ fr_eth_src g ≠ fr_eth_src f
  end.

(** Switches that know nothing of the sender. *)
Definition unaware (st : sw_node) : Prop := ∃ es, node_ok st es ∧ first_of (fr_eth_src f) es = None.

Definition start (nodes : gmap positive sw_node) : net := Net nodes [src_port].

(** * What the locks form *)

(** Following the ports that [F] gives from a switch leads to the host. *)
Inductive leads (F : positive → option Z) : positive → Prop :=
  | leads_host n p : F n = Some p → (n, p) = src_port → leads F n
  | leads_hop n p m q : F n = Some p → link n p = Some (m, q) → leads F m → leads F n.

(** The ports a switch floods a frame from port [p] to: those that work and that its layer
    forwards to, by the kinds of its neighbours at [p] and [q] ([layer_forwards] of Ports.v). *)
Definition floods (st : sw_node) (p q : Z) : Prop :=
  1 <= q < ports_num (n_ports st) ∧ q ≠ p ∧ up (n_ports st) q = true ∧
  ∃ entrada salida, tipo_switch_port (n_neighbors st) p = Some entrada ∧ tipo_switch_port (n_neighbors st) q = Some salida ∧
    layer_forwards (n_id st) entrada salida = true.

(** The switches that are connected to the host's over ports that work, through switches whose
    identifier (at least 1000) makes them flood to all ports. *)
Inductive reach (nodes : gmap positive sw_node) : positive → Prop :=
  | reach_host : reach nodes src_port.1
  | reach_hop n st q m r :
      reach nodes n → nodes !! n = Some st → 1 <= q < ports_num (n_ports st) → up (n_ports st) q = true →
      1000 <= n_id st → link n q = Some (m, r) → reach nodes m.

(** A switch sends the frames for the sender of the broadcast to port [p]. *)
Definition replies_by (st : sw_node) (p : Z) : Prop :=
  ∀ now g, fits 64 now → now < T → fr_eth_dst g = fr_eth_src f → is_bcast g = false →
    ∃ t', pipeline_arp_path now (n_neighbors st) (n_table st) g = Some (t', [AOutput p]).

(** * The invariant of a broadcast

    [F] gives the lock of each switch that has one, [done] the copies delivered. *)

Record inv (F : gmap positive Z) (done : list (positive * Z)) (s : net) : Prop := {
  iv_nodup : NoDup (done ++ wire s);
  iv_src : src_port ∈ done ++ wire s;
  iv_from : ∀ x, x ∈ done ++ wire s → x = src_port ∨ ∃ m p q, F !! m = Some p ∧ q ≠ p ∧ link m q = Some x;
  iv_dom : dom (net_nodes s) = switches;
  iv_node : ∀ n st, net_nodes s !! n = Some st → ∃ es, node_ok st es ∧
    match F !! n with Some p => locked T (fr_eth_src f) p es | None => first_of (fr_eth_src f) es = None end;
  iv_lock : ∀ n p, F !! n = Some p → (n, p) ∈ done ∧ 0 <= p;
  iv_done : ∀ n p, (n, p) ∈ done → is_Some (F !! n);
  iv_flood : ∀ n p q x st, F !! n = Some p → net_nodes s !! n = Some st → floods st p q → link n q = Some x →
    x ∈ done ++ wire s;
  iv_leads : ∀ n p, F !! n = Some p → leads (λ n, F !! n) n;
  iv_first : ∀ n, F !! n = first_arrival done n }.

Context (topo : topology_ok) (bcast : is_bcast f = true).

Lemma leads_mono (F F' : positive → option Z) n : (∀ n p, F n = Some p → F' n = Some p) → leads F n → leads F' n.
Proof using. intros Hs Hl. induction Hl; [eapply leads_host|eapply leads_hop]; eauto. Qed.

Lemma link_inj a p b q x : link a p = Some x → link b q = Some x → a = b ∧ p = q.
Proof using topo. destruct x as [c r]. intros H1%(tp_sym topo) H2%(tp_sym topo). rewrite H1 in H2. by injection H2. Qed.

Lemma arrival_fits F done s n p : inv F done s → (n, p) ∈ wire s → fits 16 p ∧ n ∈ switches.
Proof using topo.
  intros Hi Hw. destruct (iv_from _ _ _ Hi (n, p)) as [E|(m & p' & q & _ & _ & Hl)]; [apply elem_of_app; by right| |].
  - destruct (tp_host topo) as (_ & Hf & Hs). destruct src_port; by simplify_eq.
  - split; [|exact (tp_switch topo _ _ _ Hl)]. by eapply (tp_ports topo), (tp_sym topo).
Qed.

(** The state of a switch after an operation of its own. *)
Definition same_node (st st' : sw_node) : Prop :=
  n_id st' = n_id st ∧ n_neighbors st' = n_neighbors st ∧ n_matrix st' = n_matrix st ∧
  ports_ok (n_ports st') ∧ same_conf (n_ports st) (n_ports st').

Lemma node_same st st' es es' : node_ok st es → same_node st st' → repr true (n_table st') es' → node_ok st' es'.
Proof using.
  intros [Ht Hn Hp Hm] (_ & En & Em & Hp' & Hc) Ht'. split; [done|by rewrite En|done|].
  rewrite Em, (sc_num _ _ Hc). done.
Qed.

Lemma floods_same st st' p q : same_node st st' → floods st' p q → floods st p q.
Proof using.
  intros (Eid & En & _ & _ & Hc) (Hr & Hne & Hu & Hid). rewrite (sc_num _ _ Hc) in Hr. rewrite (same_up _ _ q Hc) in Hu.
  rewrite Eid, En in Hid. unfold floods; tauto.
Qed.

(** The copies of a flood go where the code's rule says. *)
Lemma floods_dest st es nes p q : node_ok st es → repr true (n_neighbors st) nes →
  floods st p q → (random_dest (n_ports st) (n_id st) nes p false q && up (n_ports st) q) = true ∧ 0 <= q < ports_num (n_ports st).
Proof using.
  intros Hok Hnes (Hq & Hne & Hu & a & b & Ha & Hb & Hl). rewrite (tipo_ref _ nes) in Ha, Hb by done. injection Ha as <-. injection Hb as <-.
  split; [|lia]. unfold random_dest. rewrite Hu, Hl. replace (q =? p) with false by lia. by replace (q =? 0) with false by lia.
Qed.

Lemma floods_top st es p q : node_ok st es → 1 <= q < ports_num (n_ports st) → q ≠ p → up (n_ports st) q = true → 1000 <= n_id st → floods st p q.
Proof using.
  intros Hok Hq Hne Hu Hid. destruct (ok_neighbors _ _ Hok) as [nes Hnes]. split_and!; [lia..|done|done|].
  exists (kind nes p), (kind nes q). rewrite !(tipo_ref _ nes) by done. split_and!; [done..|]. unfold layer_forwards. by replace (1000 <=? n_id st) with true by lia.
Qed.

(** What a switch does with a copy. *)
Lemma receive_locked now rand nd st p p1 es :
  node_ok st es → in_time now → locked T (fr_eth_src f) p1 es → 0 <= p1 → p ≠ p1 →
  ∃ st' es', receive now rand nd st p = Some (st', []) ∧ node_ok st' es' ∧ same_node st st' ∧ locked T (fr_eth_src f) p1 es'.
Proof using bcast.
  intros Hok (H64 & HT & _) Hl Hp1 Hne. destruct (ok_neighbors _ _ Hok) as [nes Hnes].
  destruct (arp_ref _ nes _ es now (at_port p) Hnes (ok_table _ _ Hok)) as (t' & Ha & Hr).
  destruct (locked_step T (fr_eth_src f) p1 now H64 HT Hp1 nes es (at_port p) Hl) as (Hl' & Hout & _).
  unfold receive. rewrite Ha; cbn [mbind option_bind]. rewrite Hout by done.
  assert (Hsame : same_node st (SwNode (n_id st) t' (n_neighbors st) (n_ports st) (n_matrix st))).
  { split_and!; try done. apply Hok. }
  eexists _, _. split_and!; [done|by eapply node_same|done..].
Qed.

Lemma receive_first now rand nd st p es :
  node_ok st es → in_time now → first_of (fr_eth_src f) es = None → fits 16 p →
  ∃ st' es' outs, receive now rand nd st p = Some (st', outs) ∧ node_ok st' es' ∧ same_node st st' ∧
    locked T (fr_eth_src f) p es' ∧ NoDup outs ∧ (∀ q, q ∈ outs → q ≠ p) ∧ (∀ q, floods st p q → q ∈ outs).
Proof using bcast.
  intros Hok (H64 & HT & HTn & Hn64) Hf Hp. destruct (ok_neighbors _ _ Hok) as [nes Hnes].
  destruct (arp_ref _ nes _ es now (at_port p) Hnes (ok_table _ _ Hok)) as (t' & Ha & Hr).
  destruct (first_broadcast nes es now (at_port p) Hf bcast Hn64) as [(e & He & Hpe & Hl) Hout].
  unfold receive. rewrite Ha; cbn [mbind option_bind]. rewrite Hout. change (OFPP_RANDOM =? OFPP_RANDOM) with true. cbv iota.
  destruct (ok_matrix _ _ Hok (rand mod 16)%nat) as (row & Hrow & Hperm); [by apply Nat.mod_upper_bound|].
  destruct (random_facts nd (n_ports st) (n_id st) (n_neighbors st) nes (n_matrix st) _ row buffer p false
              (ok_ports _ _ Hok) Hnes Hrow Hperm) as (dp' & txs & -> & Hpo & Hc & -> & Hnd & Hval); cbn [mbind option_bind].
  set (outs := base.filter _ row). 
  assert (Houts : sent_to ((λ no, (no, 0, buffer)) <$> outs) = outs).
  { unfold sent_to. rewrite <- list_fmap_compose. rewrite <- (list_fmap_id outs) at 2. done. }
  rewrite Houts. assert (Hsame : same_node st (SwNode (n_id st) t' (n_neighbors st) dp' (n_matrix st))) by done.
  eexists _, _, outs. split_and!; [done|by eapply node_same|done| |by apply filter_nodup| |].
  - exists e. split_and!; [done| |].
    + rewrite Hpe. cbn. unfold u16. by apply wrap_small.
    + destruct Hl; [by left|right; lia].
  - intros q [Hd _]%list_elem_of_filter ->. unfold random_dest in Hd. by rewrite Z.eqb_refl in Hd.
  - intros q Hq. destruct (floods_dest st es nes p q Hok Hnes Hq). apply list_elem_of_filter. split; [done|by apply Hval].
Qed.

Lemma wire_take (l : list (positive * Z)) i x done new :
  l !! i = Some x → (done ++ [x]) ++ delete i l ++ new ≡ₚ done ++ l ++ new.
Proof using.
  intros Hi%delete_Permutation. rewrite <- app_assoc. apply Permutation_app_head. cbn [app].
  change (x :: delete i l ++ new) with ((x :: delete i l) ++ new). apply Permutation_app_tail. by symmetry.
Qed.

Lemma omap_nodup (g : Z → option (positive * Z)) l :
  (∀ q q' x, g q = Some x → g q' = Some x → q = q') → NoDup l → NoDup (omap g l).
Proof using.
  intros Hg. induction 1 as [|q l Hq Hl IH]; [apply base.NoDup_nil_2|]. cbn. destruct (g q) as [x|] eqn:E; [|done].
  apply list.NoDup_cons. split; [|done]. intros (q' & Hq' & E')%list_elem_of_omap. by rewrite (Hg q q' x) in Hq.
Qed.

(** Moving a copy of a switch that is locked: nothing new. *)
Lemma step_locked F done s i n p p1 st now rand nd :
  inv F done s → wire s !! i = Some (n, p) → net_nodes s !! n = Some st → F !! n = Some p1 → in_time now →
  ∃ s', net_step s (Deliver now i rand nd) = Some (s', [(n, p)]) ∧ inv F (done ++ [(n, p)]) s'.
Proof using bcast.
  intros Hi Hw Hst HF Ht. destruct (iv_lock _ _ _ Hi _ _ HF) as [Hd Hp1].
  assert (Hne : p ≠ p1).
  { intros ->. pose proof (iv_nodup _ _ _ Hi) as (_ & Hx & _)%list.NoDup_app. eapply Hx; [exact Hd|]. by eapply list_elem_of_lookup_2. }
  destruct (iv_node _ _ _ Hi _ _ Hst) as (es & Hok & Hl). rewrite HF in Hl.
  destruct (receive_locked now rand nd st p p1 es Hok Ht Hl Hp1 Hne) as (st' & es' & Hr & Hok' & Hsame & Hl').
  unfold net_step. rewrite Hw, Hst; cbn [mbind option_bind]. rewrite Hr; cbn [mbind option_bind].
  eexists; split; [done|]. cbn [omap list_omap]. pose proof (wire_take (wire s) i (n, p) done [] Hw) as Hperm. rewrite app_nil_r in Hperm at 1.
  rewrite (app_nil_r (wire s)) in Hperm.
  assert (Hin : ∀ x, x ∈ (done ++ [(n, p)]) ++ delete i (wire s) ++ [] ↔ x ∈ done ++ wire s).
  { intros x. rewrite app_nil_r. by rewrite Hperm. }
  split; cbn [wire net_nodes].
  - rewrite app_nil_r, Hperm. apply Hi.
  - apply Hin, Hi.
  - intros x Hx%Hin. by apply (iv_from _ _ _ Hi).
  - rewrite dom_insert_lookup_L; [apply Hi|by eexists].
  - intros m st0. destruct (decide (m = n)) as [->|]; [rewrite lookup_insert_eq|rewrite lookup_insert_ne by done; apply (iv_node _ _ _ Hi)].
    intros [= <-]. exists es'. by rewrite HF.
  - intros m q Hm. destruct (iv_lock _ _ _ Hi _ _ Hm). split; [apply elem_of_app; by left|done].
  - intros m q [Hm|Hm%list_elem_of_singleton]%elem_of_app; [by eapply (iv_done _ _ _ Hi)|]. injection Hm as -> ->. by eexists.
  - intros m q r x st0 Hm Hst0 Hfl Hlk. apply Hin. destruct (decide (m = n)) as [->|].
    + rewrite lookup_insert_eq in Hst0. injection Hst0 as <-. eapply (iv_flood _ _ _ Hi); [exact Hm|exact Hst|by eapply floods_same|done].
    + rewrite lookup_insert_ne in Hst0 by done. by eapply (iv_flood _ _ _ Hi).
  - apply Hi.
  - intros m. rewrite first_arrival_snoc, <- (iv_first _ _ _ Hi). destruct (F !! m) eqn:Hm; [done|]. case_decide; congruence.
Qed.

(** The first copy at a switch: it is locked and floods. *)
Lemma step_first F done s i n p st now rand nd :
  inv F done s → wire s !! i = Some (n, p) → net_nodes s !! n = Some st → F !! n = None → in_time now →
  ∃ s', net_step s (Deliver now i rand nd) = Some (s', [(n, p)]) ∧ inv (<[n := p]> F) (done ++ [(n, p)]) s'.
Proof using bcast topo.
  intros Hi Hw Hst HF Ht. assert (Hwi : (n, p) ∈ wire s) by (by eapply list_elem_of_lookup_2).
  destruct (arrival_fits _ _ _ _ _ Hi Hwi) as [Hp16 _].
  destruct (iv_node _ _ _ Hi _ _ Hst) as (es & Hok & Hf). rewrite HF in Hf.
  destruct (receive_first now rand nd st p es Hok Ht Hf Hp16) as (st' & es' & outs & Hr & Hok' & Hsame & Hl' & Hnd & Hout & Hfl).
  unfold net_step. rewrite Hw, Hst; cbn [mbind option_bind]. rewrite Hr; cbn [mbind option_bind].
  eexists; split; [done|]. set (new := omap (link n) outs). pose proof (wire_take (wire s) i (n, p) done new Hw) as Hperm.
  assert (Hsub : F ⊆ <[n := p]> F) by (by apply insert_subseteq).
  assert (Hsub' : ∀ m q, F !! m = Some q → <[n := p]> F !! m = Some q) by (intros ?? Hm; by eapply lookup_weaken).
  assert (Hnew : ∀ x, x ∈ new → ∃ q, q ≠ p ∧ link n q = Some x).
  { intros x (q & Hq & Hlk)%list_elem_of_omap. exists q. auto. }
  assert (Hin : ∀ x, x ∈ (done ++ [(n, p)]) ++ delete i (wire s) ++ new ↔ x ∈ done ++ wire s ∨ x ∈ new).
  { intros x. rewrite Hperm, app_assoc, elem_of_app. done. }
  assert (Hold : ∀ x, x ∈ done ++ wire s → x ∉ new).
  { intros x Hx (q & _ & Hlk)%Hnew. destruct (iv_from _ _ _ Hi x Hx) as [->|(m & p' & q' & Hm & _ & Hlk')].
    - destruct (tp_host topo) as (Hh & _). rewrite (surjective_pairing src_port) in Hlk.
      by rewrite (tp_sym topo _ _ _ _ Hlk) in Hh.
    - destruct (link_inj _ _ _ _ _ Hlk Hlk') as [<- _]. congruence. }
  split; cbn [wire net_nodes].
  - rewrite Hperm, app_assoc. apply list.NoDup_app. split_and!; [apply Hi|done|].
    apply omap_nodup; [|done]. intros q q' x H1 H2. by eapply link_inj.
  - apply Hin. left. apply Hi.
  - intros x [Hx|(q & Hq & Hlk)%Hnew]%Hin.
    + destruct (iv_from _ _ _ Hi x Hx) as [->|(m & p' & q & Hm & ? & ?)]; [by left|right]. exists m, p', q. by rewrite lookup_insert_ne by congruence.
    + right. exists n, p, q. by rewrite lookup_insert_eq.
  - rewrite dom_insert_lookup_L; [apply Hi|by eexists].
  - intros m st0. destruct (decide (m = n)) as [->|]; [rewrite !lookup_insert_eq|rewrite !lookup_insert_ne by done; apply (iv_node _ _ _ Hi)].
    intros [= <-]. by exists es'.
  - intros m q. destruct (decide (m = n)) as [->|]; [rewrite lookup_insert_eq|rewrite lookup_insert_ne by done].
    + intros [= <-]. split; [apply elem_of_app; right; by apply list_elem_of_singleton|]. unfold fits in *; lia.
    + intros Hm. destruct (iv_lock _ _ _ Hi _ _ Hm). split; [apply elem_of_app; by left|done].
  - intros m q [Hm|Hm%list_elem_of_singleton]%elem_of_app.
    + destruct (iv_done _ _ _ Hi _ _ Hm) as [p' Hp']. exists p'. by eapply lookup_weaken.
    + injection Hm as -> ->. by rewrite lookup_insert_eq.
  - intros m q r x st0 Hm Hst0 Hfl0 Hlk. apply Hin. destruct (decide (m = n)) as [->|].
    + rewrite lookup_insert_eq in Hst0. rewrite lookup_insert_eq in Hm. injection Hst0 as <-. injection Hm as <-. right. apply list_elem_of_omap.
      exists r. split; [|done]. apply Hfl. by eapply floods_same.
    + rewrite lookup_insert_ne in Hst0 by done. rewrite lookup_insert_ne in Hm by done. left. by eapply (iv_flood _ _ _ Hi).
  - intros m q. destruct (decide (m = n)) as [->|]; [rewrite lookup_insert_eq|rewrite lookup_insert_ne by done].
    + intros [= <-]. destruct (iv_from _ _ _ Hi (n, p)) as [E|(m & p' & q & Hm & _ & Hlk)]; [apply elem_of_app; by right| |].
      * by eapply leads_host; [apply lookup_insert_eq|].
      * eapply leads_hop; [apply lookup_insert_eq|exact (tp_sym topo _ _ _ _ Hlk)|]. eapply leads_mono; [exact Hsub'|]. by eapply (iv_leads _ _ _ Hi).
    + intros Hm. eapply leads_mono; [exact Hsub'|]. by eapply (iv_leads _ _ _ Hi).
  - intros m. rewrite first_arrival_snoc, <- (iv_first _ _ _ Hi). destruct (decide (n = m)) as [<-|].
    + by rewrite lookup_insert_eq, HF.
    + rewrite lookup_insert_ne by done. by destruct (F !! m).
Qed.

Lemma step_background F done s now n g :
  inv F done s → in_time now → fr_eth_src g ≠ fr_eth_src f →
  ∃ s', net_step s (Background now n g) = Some (s', []) ∧ inv F done s'.
Proof using.
  intros Hi (H64 & HT & _) Hg. cbn [net_step]. destruct (net_nodes s !! n) as [st|] eqn:Hst; [|by exists s].
  destruct (iv_node _ _ _ Hi _ _ Hst) as (es & Hok & Hl). destruct (ok_neighbors _ _ Hok) as [nes Hnes].
  destruct (arp_ref _ nes _ es now g Hnes (ok_table _ _ Hok)) as (t' & -> & Hr); cbn [mbind option_bind].
  set (st' := SwNode _ _ _ _ _). assert (Hsame : same_node st st') by (split_and!; try done; apply Hok).
  eexists; split; [done|]. split; cbn [wire net_nodes]; try apply Hi.
  - rewrite dom_insert_lookup_L; [apply Hi|by eexists].
  - intros m st0. destruct (decide (m = n)) as [->|]; [rewrite lookup_insert_eq|rewrite lookup_insert_ne by done; apply (iv_node _ _ _ Hi)].
    intros [= <-]. eexists. split; [by eapply node_same|]. destruct (F !! n) as [p1|] eqn:HF.
    + destruct (iv_lock _ _ _ Hi _ _ HF). by apply (locked_step T (fr_eth_src f) p1 now H64 HT).
    + rewrite knows_first in Hl |- *. intros [?|?]%knows_step; [done|congruence].
  - intros m q r x st0 Hm Hst0 Hfl Hlk. destruct (decide (m = n)) as [->|].
    + rewrite lookup_insert_eq in Hst0. injection Hst0 as <-. eapply (iv_flood _ _ _ Hi); [exact Hm|exact Hst|by eapply floods_same|done].
    + rewrite lookup_insert_ne in Hst0 by done. by eapply (iv_flood _ _ _ Hi).
Qed.

Lemma step_inv F done s ev :
  inv F done s → event_ok ev → ∃ s' l F', net_step s ev = Some (s', l) ∧ inv F' (done ++ l) s'.
Proof using bcast topo.
  intros Hi He. destruct ev as [now i rand nd|now n g]; cbn [event_ok] in He.
  - destruct (wire s !! i) as [[n p]|] eqn:Hw.
    2: { cbn. rewrite Hw. exists s, [], F. by rewrite app_nil_r. }
    assert (Hn : n ∈ dom (net_nodes s)).
    { rewrite (iv_dom _ _ _ Hi). eapply arrival_fits; [done|]. by eapply list_elem_of_lookup_2. }
    apply elem_of_dom in Hn as [st Hst]. destruct (F !! n) as [p1|] eqn:HF.
    + destruct (step_locked F done s i n p p1 st now rand nd Hi Hw Hst HF He) as (s' & E & Hi'). by eexists s', _, F.
    + destruct (step_first F done s i n p st now rand nd Hi Hw Hst HF He) as (s' & E & Hi'). by eexists s', _, _.
  - destruct He as [Ht Hg]. destruct (step_background F done s now n g Hi Ht Hg) as (s' & E & Hi').
    exists s', [], F. by rewrite app_nil_r.
Qed.

Lemma run_inv F done s evs :
  inv F done s → Forall event_ok evs → ∃ s' l F', net_run s evs = Some (s', l) ∧ inv F' (done ++ l) s'.
Proof using bcast topo.
  revert F done s; induction evs as [|ev evs IH]; intros F done s Hi He.
  { exists s, [], F. by rewrite app_nil_r. }
  apply list.Forall_cons in He as [He Hes]. cbn [net_run].
  destruct (step_inv F done s ev Hi He) as (s1 & l1 & F1 & -> & Hi1); cbn [mbind option_bind].
  destruct (IH F1 _ s1 Hi1 Hes) as (s2 & l2 & F2 & -> & Hi2); cbn [mbind option_bind].
  exists s2, (l1 ++ l2), F2. by rewrite app_assoc.
Qed.

Lemma start_inv nodes : dom nodes = switches → map_Forall (λ _, unaware) nodes → inv ∅ [] (start nodes).
Proof using.
  intros Hd Hu. split; cbn.
  - apply list.NoDup_singleton.
  - by apply list_elem_of_singleton.
  - intros x ->%list_elem_of_singleton. by left.
  - done.
  - intros n st Hst. destruct (Hu n st Hst) as (es & Hok & Hf). exists es. by rewrite lookup_empty.
  - intros n p. by rewrite lookup_empty.
  - intros n p ?%not_elem_of_nil. done.
  - intros n p q x st. by rewrite lookup_empty.
  - intros n p. by rewrite lookup_empty.
  - done.
Qed.

(** Every copy was sent by one port, and every port sends one. *)
Lemma copies_bounded F done s : inv F done s → (length done + length (wire s) <= 1 + length ends)%nat.
Proof using topo.
  intros Hi. rewrite <- length_app. change (1 + length ends)%nat with (length (src_port :: ends)).
  apply NoDup_incl_length; [apply NoDup_ListNoDup, Hi|]. intros x Hx%list_elem_of_In.
  destruct (iv_from _ _ _ Hi x Hx) as [->|(m & p & q & _ & _ & Hl)]; [by left|right].
  apply list_elem_of_In. exact (tp_ends topo _ _ _ Hl).
Qed.

(** A lock answers for the sender. *)
Lemma locked_replies st es p : node_ok st es → locked T (fr_eth_src f) p es → 0 <= p → replies_by st p.
Proof using.
  intros Hok Hl Hp now g H64 HT Hd Hu. destruct (ok_neighbors _ _ Hok) as [nes Hnes].
  destruct (arp_ref _ nes _ es now g Hnes (ok_table _ _ Hok)) as (t' & Ha & _).
  destruct (locked_step T (fr_eth_src f) p now H64 HT Hp nes es g Hl) as (_ & _ & Hout).
  exists t'. by rewrite Ha, Hout.
Qed.

(** When no copy is under way, the flood is complete. *)
Lemma quiet_reached F done s n : inv F done s → wire s = [] → reach (net_nodes s) n → is_Some (F !! n).
Proof using topo.
  intros Hi Hq Hr. assert (Hall : ∀ x, x ∈ done ++ wire s → is_Some (F !! x.1)).
  { intros [m r]. rewrite Hq, app_nil_r. apply (iv_done _ _ _ Hi). }
  induction Hr as [|n st q m r _ [p HF] Hst Hq' Hu Hid Hl]; [apply Hall, Hi|].
  destruct (decide (q = p)) as [->|Hne].
  - destruct (iv_lock _ _ _ Hi _ _ HF) as [Hd _].
    destruct (iv_from _ _ _ Hi (n, p)) as [E|(m' & p' & q & Hm & _ & Hl')]; [apply elem_of_app; by left| |].
    + destruct (tp_host topo) as [Hh _]. rewrite <- E in Hh. cbn in Hh. congruence.
    + apply (tp_sym topo) in Hl'. rewrite Hl' in Hl. injection Hl as -> ->. by eexists.
  - apply (Hall (m, r)). eapply (iv_flood _ _ _ Hi); [exact HF|exact Hst| |exact Hl].
    destruct (iv_node _ _ _ Hi _ _ Hst) as (es & Hok & _). by eapply floods_top.
Qed.

(** C2: no broadcast storm.  In a network with any links, loops included, where no switch
    knows the sender of a broadcast, and within the time of a lock (15 s) after the first copy: every
    order of deliveries, mixed with any frames of other senders, takes place without an
    error, and each copy, delivered or under way, is the host's own frame or came over a link, with no two copies
    at the same end of a link.  A link has one sending and one receiving end in each direction,
    so the broadcast passes each direction of each link at most once. *)
Theorem no_broadcast_storm (nodes : gmap positive sw_node) (evs : list net_event)
    (Hd : dom nodes = switches) (Hu : map_Forall (λ _, unaware) nodes) (He : Forall event_ok evs) :
  ∃ s delivered, net_run (start nodes) evs = Some (s, delivered) ∧
    NoDup (delivered ++ wire s) ∧
    (∀ x, x ∈ delivered ++ wire s → x = src_port ∨ ∃ m q, link m q = Some x ∧ ∀ m' q', link m' q' = Some x → (m', q') = (m, q)) ∧
    (length delivered + length (wire s) <= 1 + length ends)%nat.
Proof using bcast topo.
  destruct (run_inv ∅ [] (start nodes) evs (start_inv nodes Hd Hu) He) as (s & l & F & Hr & Hi).
  exists s, l. split; [exact Hr|]. split; [apply Hi|]. split; [|exact (copies_bounded _ _ _ Hi)].
  intros x Hx. destruct (iv_from _ _ _ Hi x Hx) as [->|(m & p & q & _ & _ & Hl)]; [by left|right]. exists m, q. split; [done|].
  intros m' q' Hl'. by destruct (link_inj _ _ _ _ _ Hl' Hl) as [-> ->].
Qed.

(** C3: the broadcast builds a tree of paths to its sender.  In a network with any links
    where no switch knows the sender, whatever the order of the deliveries within the time of a lock (15 s),
    among frames of other senders: a switch that has received a copy sends the
    frames for the sender by the port its first copy came by; following these ports from
    any such switch arrives at the host.  Once no copy is under way, the host's switch has received one, so has
    every switch that another sends the flood to by the rule of the code, and so has every switch that is connected to
    the host's over ports that work, through switches of an identifier of at least 1000. *)
Theorem broadcast_builds_tree (nodes : gmap positive sw_node) (evs : list net_event)
    (Hd : dom nodes = switches) (Hu : map_Forall (λ _, unaware) nodes) (He : Forall event_ok evs) :
  ∃ s delivered, net_run (start nodes) evs = Some (s, delivered) ∧
    (∀ n p, first_arrival delivered n = Some p →
      leads (first_arrival delivered) n ∧ ∃ st, net_nodes s !! n = Some st ∧ replies_by st p) ∧
    (wire s = [] → is_Some (first_arrival delivered src_port.1) ∧
      (∀ n p q m r st, first_arrival delivered n = Some p → net_nodes s !! n = Some st → floods st p q → link n q = Some (m, r) →
        is_Some (first_arrival delivered m)) ∧
      ∀ n, reach (net_nodes s) n → is_Some (first_arrival delivered n)).
Proof using bcast topo.
  destruct (run_inv ∅ [] (start nodes) evs (start_inv nodes Hd Hu) He) as (s & done & F & Hr & Hi). cbn [app] in Hi.
  exists s, done. split; [exact Hr|]. pose proof (iv_first _ _ _ Hi) as HF1. split.
  - intros n p HF. rewrite <- HF1 in HF. split.
    + eapply leads_mono; [|by eapply (iv_leads _ _ _ Hi)]. intros m q Hm. by rewrite <- HF1.
    + destruct (iv_lock _ _ _ Hi _ _ HF) as [Hn Hp]. assert (Hs : n ∈ dom (net_nodes s)).
      { rewrite (iv_dom _ _ _ Hi). destruct (iv_from _ _ _ Hi (n, p)) as [E|(m & p' & q & _ & _ & Hl)]; [apply elem_of_app; by left| |].
        - destruct (tp_host topo) as (_ & _ & Hs). by rewrite <- E in Hs.
        - exact (tp_switch topo _ _ _ Hl). }
      apply elem_of_dom in Hs as [st Hst]. exists st. split; [done|].
      destruct (iv_node _ _ _ Hi _ _ Hst) as (es & Hok & Hl). rewrite HF in Hl. by eapply locked_replies.
  - intros Hq. split_and!; [rewrite <- HF1; eapply quiet_reached; [done..|constructor]| |].
    + intros n p q m r st HF Hst Hfl Hl. rewrite <- HF1 in *. pose proof (iv_flood _ _ _ Hi _ _ _ _ _ HF Hst Hfl Hl) as Hin.
      rewrite Hq, app_nil_r in Hin. by eapply (iv_done _ _ _ Hi).
    + intros n Hn. rewrite <- HF1. by eapply quiet_reached.
Qed.
End network.

(** * A triangle of switches *)

Definition tri_link (n : positive) (p : Z) : option (positive * Z) :=
  match n, p with
  | 1%positive, 1 => Some (2%positive, 1) | 2%positive, 1 => Some (1%positive, 1)
  | 2%positive, 2 => Some (3%positive, 1) | 3%positive, 1 => Some (2%positive, 2)
  | 3%positive, 2 => Some (1%positive, 2) | 1%positive, 2 => Some (3%positive, 2)
  | _, _ => None
  end.
Definition tri_ends : list (positive * Z) :=
  [(1%positive, 1); (1%positive, 2); (2%positive, 1); (2%positive, 2); (3%positive, 1); (3%positive, 2)].
Definition tri_dp : dp_ports :=
  default (no_ports 8) (port_steps (no_ports 8) (pair ex_nd <$> [AddPort 0; AddPort 0; AddPort 0; AddLocal 0])).
Definition tri_node (id : Z) : sw_node :=
  SwNode id mac_to_port_new mac_to_port_new tri_dp (replicate 16 [0; 1; 2; 3]).
Definition tri_nodes : gmap positive sw_node :=
  <[1%positive := tri_node 1001]> (<[2%positive := tri_node 1002]> {[3%positive := tri_node 1003]}).
Definition tri_events : list net_event :=
  (λ k, Deliver (1000 + Z.of_nat k) 0 k ex_nd) <$> seq 0 6.

Lemma tri_link_cases a p x : tri_link a p = Some x → ((a, p), x) ∈
  [((1%positive, 1), (2%positive, 1)); ((2%positive, 1), (1%positive, 1)); ((2%positive, 2), (3%positive, 1));
   ((3%positive, 1), (2%positive, 2)); ((3%positive, 2), (1%positive, 2)); ((1%positive, 2), (3%positive, 2))].
Proof. unfold tri_link. intros H. repeat case_match; simplify_eq; set_solver. Qed.

Lemma tri_topology : topology_ok tri_link (1%positive, 3) tri_ends {[1%positive; 2%positive; 3%positive]}.
Proof.
  split.
  - intros a p b q H%tri_link_cases. set_unfold in H. naive_solver.
  - intros a p x H%tri_link_cases. unfold tri_ends. set_unfold in H. set_solver.
  - intros a p x H%tri_link_cases. set_unfold in H. set_solver.
  - intros a p x H%tri_link_cases. set_unfold in H. unfold fits. naive_solver lia.
  - split_and!; [done|unfold fits; cbn; lia|set_solver].
Qed.

Lemma tri_dp_ok : ports_ok tri_dp.
Proof.
  destruct (port_steps_ok (no_ports 8) (pair ex_nd <$> [AddPort 0; AddPort 0; AddPort 0; AddLocal 0]) (no_ports_ok 8)) as (dp & Hs & H).
  - vm_compute; discriminate.
  - repeat constructor.
  - unfold tri_dp. by rewrite Hs.
Qed.

Lemma tri_unaware : map_Forall (λ _, unaware (ex_bcast 1 3)) tri_nodes.
Proof.
  assert (Hn : ∀ id, unaware (ex_bcast 1 3) (tri_node id)).
  { intros id. exists []. split; [|done]. split; [exact mac_new_repr|exists []; exact mac_new_repr|exact tri_dp_ok|].
    intros k Hk. exists [0; 1; 2; 3]. split; [by apply lookup_replicate|]. vm_compute. reflexivity. }
  do 2 (apply map_Forall_insert_2; [apply Hn|]). apply map_Forall_singleton, Hn.
Qed.

Lemma tri_events_ok : Forall (event_ok (ex_bcast 1 3) 16000) tri_events.
Proof. repeat (apply list.Forall_cons; split; [unfold event_ok, in_time, fits; vm_compute; intuition congruence|]). constructor. Qed.

(** All copies are delivered: five, the host's, one over each link to the others and the
    two that meet on the third link. *)
Definition tri_copies : list (positive * Z) := [(1%positive, 3); (2%positive, 1); (3%positive, 2); (3%positive, 1); (2%positive, 2)].

Lemma no_broadcast_storm_witness :
  ∃ s, net_run tri_link (ex_bcast 1 3) [1; 2; 3] (start (1%positive, 3) tri_nodes) tri_events = Some (s, tri_copies) ∧ wire s = [] ∧
    NoDup tri_copies.
Proof.
  destruct (no_broadcast_storm tri_link (ex_bcast 1 3) [1; 2; 3] (1%positive, 3) tri_ends {[1%positive; 2%positive; 3%positive]}
    16000 tri_topology eq_refl tri_nodes tri_events) as (s & l & E & Hnd & _).
  - vm_compute. reflexivity.
  - exact tri_unaware.
  - exact tri_events_ok.
  - exists s. assert (wire s = [] ∧ l = tri_copies) as [Hw ->].
    { vm_compute in E. injection E as <- <-. split; vm_compute; reflexivity. }
    rewrite Hw, app_nil_r in Hnd. split_and!; [exact E|done|done].
Defined.

Lemma broadcast_builds_tree_witness :
  ∃ s, net_run tri_link (ex_bcast 1 3) [1; 2; 3] (start (1%positive, 3) tri_nodes) tri_events = Some (s, tri_copies) ∧
    leads tri_link (1%positive, 3) (first_arrival tri_copies) 2 ∧
    ∀ n, reach tri_link (1%positive, 3) (net_nodes s) n → is_Some (first_arrival tri_copies n).
Proof.
  destruct (broadcast_builds_tree tri_link (ex_bcast 1 3) [1; 2; 3] (1%positive, 3) tri_ends {[1%positive; 2%positive; 3%positive]}
    16000 tri_topology eq_refl tri_nodes tri_events) as (s & l & E & Hl & Hq).
  - vm_compute. reflexivity.
  - exact tri_unaware.
  - exact tri_events_ok.
  - exists s. assert (wire s = [] ∧ l = tri_copies) as [Hw ->].
    { vm_compute in E. injection E as <- <-. split; vm_compute; reflexivity. }
    split_and!; [exact E|by apply (Hl 2%positive 1)|by apply Hq].
Defined.
