(* ===== verification/Rconn.v ===== *)
(** Reliable connections: lib/rconn.c, with the queue of lib/queue.c.

    A connection has a state ([S_VOID] to [S_IDLE]), a [vconn] while it is connecting or
    connected, and a queue of messages to send.  What the [vconn] answers is outside: the
    answers are the oracle [V], one for each call, so that the theorems hold for every
    behaviour of the network.  The clock [now] (seconds) stands still during a call.

    A message may carry a pointer to a counter of its sender ([b->private_p]); the
    counters are a map in [net_state], because several connections may share one.
    Following a null [vconn], queue head or counter gives [None]. *)

From S2P Require Import Prelude.

Inductive state := S_VOID | S_BACKOFF | S_CONNECTING | S_ACTIVE | S_IDLE.

#[global] Instance state_eq : EqDecision state.
Proof. solve_decision. Defined.

Definition TIME_MAX := 2 ^ 63 - 1.
Definition TIME_MIN := - 2 ^ 63.
Definition UINT_MAX := 2 ^ 32 - 1.
Definition EAGAIN := 11.
Definition ENOTCONN := 107.
Definition OFPT_ECHO_REQUEST := 2.
Definition OFPT_ECHO_REPLY := 3.

Definition sat_add (x y : Z) : Z := if x <=? u32 (x + y) then u32 (x + y) else UINT_MAX.

(** A queued message: its type and transaction id, the counter it is counted on, and
    its bytes. *)
Record msg := Msg { m_type : Z; m_xid : Z; m_n_queued : option positive; m_body : list Z }.

#[global] Instance msg_eq : EqDecision msg.
Proof. solve_decision. Defined.

(** The members that are only reported ([rc_last_received] apart, which the inactivity
    probe uses). *)
Record rc_info := Info {
  rc_last_received : Z;
  rc_packets_sent : Z;
  rc_seqno : Z;
  rc_probably_admitted : bool;
  rc_last_admitted : Z;
  rc_packets_received : Z;
  rc_n_attempted_connections : Z;
  rc_n_successful_connections : Z;
  rc_total_time_connected : Z;
  rc_questionable_connectivity : bool;
  rc_last_questioned : Z }.

Record rconn := Rconn {
  rc_state : state;
  rc_state_entered : Z;
  rc_vconn : bool;
  rc_reliable : bool;
  rc_txq : list msg;
  rc_backoff : Z;
  rc_max_backoff : Z;
  rc_backoff_deadline : Z;
  rc_last_connected : Z;
  rc_probe_interval : Z;
  rc_idle_echo_xid : Z;
  rc_monitors : list positive;
  rc_info_of : rc_info }.

(** The counters of the senders; how many [vconn] calls were made; the messages the
    [vconn]s took, oldest first, and those copied to monitors. *)
Record net_state := NetState {
  ns_counters : gmap positive Z;
  ns_calls : nat;
  ns_wire : list msg;
  ns_copies : list (positive * msg) }.

(** What a [vconn] call answers. *)
Inductive answer := Ok | Again | Failed.

Record vconn := Vconn {
  v_open : nat → bool;
  v_reconnectable : nat → bool;
  v_connect : nat → answer;
  v_send : nat → answer;
  v_monitor_send : nat → answer;
  v_recv : nat → msg + answer }.

(** * Assigning members *)

Definition set_info (rc : rconn) (i : rc_info) : rconn :=
  Rconn (rc_state rc) (rc_state_entered rc) (rc_vconn rc) (rc_reliable rc) (rc_txq rc) (rc_backoff rc) (rc_max_backoff rc)
    (rc_backoff_deadline rc) (rc_last_connected rc) (rc_probe_interval rc) (rc_idle_echo_xid rc) (rc_monitors rc) i.
Definition set_link (rc : rconn) (v reliable : bool) : rconn :=
  Rconn (rc_state rc) (rc_state_entered rc) v reliable (rc_txq rc) (rc_backoff rc) (rc_max_backoff rc)
    (rc_backoff_deadline rc) (rc_last_connected rc) (rc_probe_interval rc) (rc_idle_echo_xid rc) (rc_monitors rc) (rc_info_of rc).
Definition set_txq (rc : rconn) (q : list msg) : rconn :=
  Rconn (rc_state rc) (rc_state_entered rc) (rc_vconn rc) (rc_reliable rc) q (rc_backoff rc) (rc_max_backoff rc)
    (rc_backoff_deadline rc) (rc_last_connected rc) (rc_probe_interval rc) (rc_idle_echo_xid rc) (rc_monitors rc) (rc_info_of rc).
Definition set_backoff (rc : rconn) (backoff deadline : Z) : rconn :=
  Rconn (rc_state rc) (rc_state_entered rc) (rc_vconn rc) (rc_reliable rc) (rc_txq rc) backoff (rc_max_backoff rc)
    deadline (rc_last_connected rc) (rc_probe_interval rc) (rc_idle_echo_xid rc) (rc_monitors rc) (rc_info_of rc).
Definition set_state (rc : rconn) (st : state) (entered : Z) : rconn :=
  Rconn st entered (rc_vconn rc) (rc_reliable rc) (rc_txq rc) (rc_backoff rc) (rc_max_backoff rc)
    (rc_backoff_deadline rc) (rc_last_connected rc) (rc_probe_interval rc) (rc_idle_echo_xid rc) (rc_monitors rc) (rc_info_of rc).
Definition set_last_connected (rc : rconn) (t : Z) : rconn :=
  Rconn (rc_state rc) (rc_state_entered rc) (rc_vconn rc) (rc_reliable rc) (rc_txq rc) (rc_backoff rc) (rc_max_backoff rc)
    (rc_backoff_deadline rc) t (rc_probe_interval rc) (rc_idle_echo_xid rc) (rc_monitors rc) (rc_info_of rc).
Definition set_echo (rc : rconn) (xid : Z) : rconn :=
  Rconn (rc_state rc) (rc_state_entered rc) (rc_vconn rc) (rc_reliable rc) (rc_txq rc) (rc_backoff rc) (rc_max_backoff rc)
    (rc_backoff_deadline rc) (rc_last_connected rc) (rc_probe_interval rc) xid (rc_monitors rc) (rc_info_of rc).
Definition set_monitors (rc : rconn) (ms : list positive) : rconn :=
  Rconn (rc_state rc) (rc_state_entered rc) (rc_vconn rc) (rc_reliable rc) (rc_txq rc) (rc_backoff rc) (rc_max_backoff rc)
    (rc_backoff_deadline rc) (rc_last_connected rc) (rc_probe_interval rc) (rc_idle_echo_xid rc) ms (rc_info_of rc).

Definition called (w : net_state) : net_state := NetState (ns_counters w) (S (ns_calls w)) (ns_wire w) (ns_copies w).
Definition set_counters (w : net_state) (c : gmap positive Z) : net_state := NetState c (ns_calls w) (ns_wire w) (ns_copies w).

(** [if (n_queued) *n_queued += d] *)
Definition count_queued (w : net_state) (n_queued : option positive) (d : Z) : option net_state :=
  match n_queued with
  | None => Some w
  | Some c => n ← ns_counters w !! c; Some (set_counters w (<[c := n + d]> (ns_counters w)))
  end.

(** * States *)

Definition is_connected_state (st : state) : bool := match st with S_ACTIVE | S_IDLE => true | _ => false end.
Definition rconn_is_connected (rc : rconn) : bool := is_connected_state (rc_state rc).
Definition rconn_is_alive (rc : rconn) : bool := negb (bool_decide (rc_state rc = S_VOID)).

Section rconn.
  Context (now : Z) (V : vconn).

Definition elapsed_in_this_state (rc : rconn) : Z := u32 (now - rc_state_entered rc).

Definition state_transition (rc : rconn) (st : state) : rconn :=
  let i := rc_info_of rc in
  let changed := bool_decide (rc_state rc = S_ACTIVE) ≠ bool_decide (st = S_ACTIVE) in
  let i := Info (rc_last_received i) (rc_packets_sent i) (u32 (rc_seqno i + (if bool_decide changed then 1 else 0)))
             (if is_connected_state st && negb (is_connected_state (rc_state rc)) then false else rc_probably_admitted i)
             (rc_last_admitted i) (rc_packets_received i) (rc_n_attempted_connections i) (rc_n_successful_connections i)
             (if rconn_is_connected rc then u64 (rc_total_time_connected i + elapsed_in_this_state rc)
              else rc_total_time_connected i)
             (rc_questionable_connectivity i) (rc_last_questioned i) in
  set_state (set_info rc i) st now.

Definition question_connectivity (rc : rconn) : rconn :=
  let i := rc_info_of rc in
  if 60 <? now - rc_last_questioned i then
    set_info rc (Info (rc_last_received i) (rc_packets_sent i) (rc_seqno i) (rc_probably_admitted i) (rc_last_admitted i)
      (rc_packets_received i) (rc_n_attempted_connections i) (rc_n_successful_connections i) (rc_total_time_connected i) true now)
  else rc.

(** The time after which a state is left. *)
Definition timeout (rc : rconn) : Z :=
  match rc_state rc with
  | S_VOID => UINT_MAX
  | S_BACKOFF => u32 (rc_backoff rc)
  | S_CONNECTING => u32 (Z.max 1 (rc_backoff rc))
  | S_ACTIVE =>
    if truthy (rc_probe_interval rc) then
      let base := u32 (Z.max (rc_last_received (rc_info_of rc)) (rc_state_entered rc)) in
      u32 (base + rc_probe_interval rc - rc_state_entered rc)
    else UINT_MAX
  | S_IDLE => u32 (rc_probe_interval rc)
  end.

Definition timed_out (rc : rconn) : bool := sat_add (u32 (rc_state_entered rc)) (timeout rc) <=? now.

(** Dropping the queue: every message is taken off its counter. *)
Fixpoint flush_loop (w : net_state) (q : list msg) : option net_state :=
  match q with [] => Some w | b :: q => w ← count_queued w (m_n_queued b) (-1); flush_loop w q end.

Definition flush_queue (rc : rconn) (w : net_state) : option (rconn * net_state) :=
  w ← flush_loop w (rc_txq rc); Some (set_txq rc [], w).

Definition rconn_disconnect (rc : rconn) : rconn :=
  if bool_decide (rc_state rc = S_VOID) then rc
  else state_transition (set_backoff (set_link rc false false) 0 TIME_MIN) S_VOID.

Definition disconnect (rc : rconn) (w : net_state) : option (rconn * net_state) :=
  if rc_reliable rc then
    '(rc, w) ← match rc_state rc with
               | S_CONNECTING | S_ACTIVE | S_IDLE => flush_queue (set_link rc false (rc_reliable rc)) w
               | _ => Some (rc, w)
               end;
    let backoff := if rc_backoff_deadline rc <=? now then 1
                   else Z.min (rc_max_backoff rc) (Z.max 1 (2 * rc_backoff rc)) in
    let rc := state_transition (set_backoff rc backoff (now + backoff)) S_BACKOFF in
    Some (if 60 <? now - rc_last_connected rc then question_connectivity rc else rc, w)
  else Some (rconn_disconnect rc, w).

Definition count_attempt (rc : rconn) : rconn :=
  let i := rc_info_of rc in
  set_info rc (Info (rc_last_received i) (rc_packets_sent i) (rc_seqno i) (rc_probably_admitted i) (rc_last_admitted i)
    (rc_packets_received i) (u32 (rc_n_attempted_connections i + 1)) (rc_n_successful_connections i)
    (rc_total_time_connected i) (rc_questionable_connectivity i) (rc_last_questioned i)).
Definition count_success (rc : rconn) : rconn :=
  let i := rc_info_of rc in
  set_info rc (Info (rc_last_received i) (rc_packets_sent i) (rc_seqno i) (rc_probably_admitted i) (rc_last_admitted i)
    (rc_packets_received i) (rc_n_attempted_connections i) (u32 (rc_n_successful_connections i + 1))
    (rc_total_time_connected i) (rc_questionable_connectivity i) (rc_last_questioned i)).
Definition count_sent (rc : rconn) : rconn :=
  let i := rc_info_of rc in
  set_info rc (Info (rc_last_received i) (u32 (rc_packets_sent i + 1)) (rc_seqno i) (rc_probably_admitted i) (rc_last_admitted i)
    (rc_packets_received i) (rc_n_attempted_connections i) (rc_n_successful_connections i)
    (rc_total_time_connected i) (rc_questionable_connectivity i) (rc_last_questioned i)).
Definition count_received (rc : rconn) (admitted : bool) : rconn :=
  let i := rc_info_of rc in
  set_info rc (Info now (rc_packets_sent i) (rc_seqno i) (admitted || rc_probably_admitted i)
    (if admitted then now else rc_last_admitted i)
    (u32 (rc_packets_received i + 1)) (rc_n_attempted_connections i) (rc_n_successful_connections i)
    (rc_total_time_connected i) (rc_questionable_connectivity i) (rc_last_questioned i)).

(** [vconn_open] sets the pointer to NULL when it fails. *)
Definition reconnect (rc : rconn) (w : net_state) : option (rconn * net_state) :=
  let rc := count_attempt rc in
  let k := ns_calls w in
  let w := called w in
  if v_open V k then
    let rc := set_link rc true (rc_reliable rc && v_reconnectable V k) in
    Some (state_transition (set_backoff rc (rc_backoff rc) (now + rc_backoff rc)) S_CONNECTING, w)
  else disconnect (set_backoff (set_link rc false (rc_reliable rc)) (rc_backoff rc) TIME_MAX) w.

(** [None]: the queue is empty, or there is no [vconn]. *)
Definition try_send (rc : rconn) (w : net_state) : option (rconn * net_state * answer) :=
  match rc_txq rc with
  | [] => None
  | b :: next =>
    if rc_vconn rc then
      let a := v_send V (ns_calls w) in
      let w := called w in
      match a with
      | Ok =>
        w ← count_queued w (m_n_queued b) (-1);
        Some (set_txq (count_sent (set_echo rc (m_xid b))) next,
              NetState (ns_counters w) (ns_calls w) (ns_wire w ++ [b]) (ns_copies w), Ok)
      | Again => Some (set_echo rc 0, w, Again)
      | Failed => '(rc, w) ← disconnect (set_echo rc 0) w; Some (rc, w, Failed)
      end
    else None
  end.

(** The loop of [do_tx_work]; [n] bounds the turns, each success shortens the queue. *)
Fixpoint do_tx_work (n : nat) (rc : rconn) (w : net_state) : option (rconn * net_state) :=
  match rc_txq rc, n with
  | [], _ => Some (rc, w)
  | _, O => None
  | _, S n => '(rc, w, a) ← try_send rc w;
              match a with Ok => do_tx_work n rc w | _ => Some (rc, w) end
  end.

(** Each turn takes one [vconn_send]; a monitor that fails is replaced by the last one. *)
Fixpoint copy_loop (n : nat) (ms : list positive) (i : nat) (w : net_state) (b : msg) : list positive * net_state :=
  match n, ms !! i with
  | S n, Some m =>
    let a := v_monitor_send V (ns_calls w) in
    let w := called w in
    match a with
    | Ok => copy_loop n ms (S i) (NetState (ns_counters w) (ns_calls w) (ns_wire w) (ns_copies w ++ [(m, b)])) b
    | Again => copy_loop n ms (S i) w b
    | Failed => copy_loop n (take (length ms - 1) (match list.last ms with Some l => <[i := l]> ms | None => ms end)) i w b
    end
  | _, _ => (ms, w)
  end.

Definition copy_to_monitor (rc : rconn) (w : net_state) (b : msg) : rconn * net_state :=
  let '(ms, w) := copy_loop (length (rc_monitors rc)) (rc_monitors rc) 0 w b in (set_monitors rc ms, w).

Definition rconn_send (rc : rconn) (w : net_state) (b : msg) (n_queued : option positive) :
    option (rconn * net_state * Z) :=
  if rconn_is_connected rc then
    let '(rc, w) := copy_to_monitor rc w b in
    let b := Msg (m_type b) (m_xid b) n_queued (m_body b) in
    w ← count_queued w n_queued 1;
    let rc := set_txq rc (rc_txq rc ++ [b]) in
    if (length (rc_txq rc) =? 1)%nat then '(rc, w, _) ← try_send rc w; Some (rc, w, 0) else Some (rc, w, 0)
  else Some (rc, w, ENOTCONN).

(** The message is deleted when the result is not 0. *)
Definition rconn_send_with_limit (rc : rconn) (w : net_state) (b : msg) (n_queued : positive) (queue_limit : Z) :
    option (rconn * net_state * Z) :=
  n ← ns_counters w !! n_queued;
  if queue_limit <=? n then Some (rc, w, EAGAIN) else rconn_send rc w b (Some n_queued).

(** [xid] is the random transaction id of an echo request. *)
Definition run_state (xid : Z) (rc : rconn) (w : net_state) : option (rconn * net_state) :=
  match rc_state rc with
  | S_VOID => Some (rc, w)
  | S_BACKOFF => if timed_out rc then reconnect rc w else Some (rc, w)
  | S_CONNECTING =>
    if rc_vconn rc then
      let a := v_connect V (ns_calls w) in
      let w := called w in
      match a with
      | Ok => let rc := state_transition (count_success rc) S_ACTIVE in Some (set_last_connected rc (rc_state_entered rc), w)
      | Failed => disconnect rc w
      | Again => if timed_out rc then disconnect (set_backoff rc (rc_backoff rc) TIME_MAX) w else Some (rc, w)
      end
    else None
  | S_ACTIVE =>
    if timed_out rc then
      '(rc, w, _) ← rconn_send (state_transition rc S_IDLE) w (Msg OFPT_ECHO_REQUEST xid None []) None; Some (rc, w)
    else do_tx_work (length (rc_txq rc)) rc w
  | S_IDLE =>
    if timed_out rc then disconnect (question_connectivity rc) w else do_tx_work (length (rc_txq rc)) rc w
  end.

(** The do-while loop of [rconn_run]; the number of turns taken is counted. *)
Fixpoint rconn_run (fuel : nat) (xid : Z) (rc : rconn) (w : net_state) : option (rconn * net_state) :=
  match fuel with
  | O => None
  | S fuel => '(rc', w) ← run_state xid rc w;
              if bool_decide (rc_state rc' = rc_state rc) then Some (rc', w) else rconn_run fuel xid rc' w
  end.

Definition is_admitted_msg (b : msg) : bool :=
  bool_decide (m_type b ∈ [0; OFPT_ECHO_REQUEST; OFPT_ECHO_REPLY; 4; 5; 7; 9; 11; 13; 14; 15; 16; 17; 18; 20; 22]).

Definition rconn_recv (rc : rconn) (w : net_state) : option (rconn * net_state * option msg) :=
  if rconn_is_connected rc then
    if rc_vconn rc then
      let r := v_recv V (ns_calls w) in
      let w := called w in
      match r with
      | inl b =>
        let '(rc, w) := copy_to_monitor rc w b in
        let rc := count_received rc (is_admitted_msg b || (30 <=? now - rc_last_connected rc)) in
        let rc := match rc_state rc with
                  | S_IDLE =>
                    if m_type b =? OFPT_ECHO_REPLY then
                      if rc_idle_echo_xid rc =? 0 then state_transition rc S_ACTIVE
                      else set_echo (if rc_idle_echo_xid rc =? m_xid b then state_transition rc S_ACTIVE else rc) 0
                    else state_transition rc S_ACTIVE
                  | _ => rc
                  end in
        Some (rc, w, Some b)
      | inr Failed => '(rc, w) ← disconnect rc w; Some (rc, w, None)
      | inr _ => Some (rc, w, None)
      end
    else None
  else Some (rc, w, None).

(** * Creating and destroying *)

Definition rconn_create (probe_interval max_backoff : Z) : rconn :=
  Rconn S_VOID now false false [] 0 (if truthy max_backoff then max_backoff else 60) TIME_MIN now
    (if truthy probe_interval then Z.max 1 probe_interval else 0) 0 []
    (Info now 0 0 false now 0 0 0 0 false now).

Definition rconn_connect (rc : rconn) (w : net_state) : option (rconn * net_state) :=
  let rc := rconn_disconnect rc in reconnect (set_link rc (rc_vconn rc) true) w.

Definition rconn_connect_unreliably (rc : rconn) : rconn :=
  state_transition (set_last_connected (set_link (rconn_disconnect rc) true false) now) S_ACTIVE.

Definition rconn_new_from_vconn : rconn := rconn_connect_unreliably (rconn_create 60 0).

Definition rconn_destroy (rc : rconn) (w : net_state) : option net_state := snd <$> flush_queue rc w.

Definition rconn_add_monitor (rc : rconn) (m : positive) : rconn :=
  if (length (rc_monitors rc) <? 8)%nat then set_monitors rc (rc_monitors rc ++ [m]) else rc.
End rconn.
