(* ===== verification/RconnCorrect.v ===== *)
(** Reliable connections work: safety, termination and order of delivery of Rconn.v. *)

From S2P Require Import Prelude Rconn.

(** How many messages of a queue are counted on [c]. *)
Definition cnt (c : positive) (q : list msg) : Z :=
  Z.of_nat (length (base.filter (λ b, m_n_queued b = Some c) q)).

Lemma cnt_nil c : cnt c [] = 0.
Proof. done. Qed.

Lemma cnt_cons c b q : cnt c (b :: q) = (if bool_decide (m_n_queued b = Some c) then 1 else 0) + cnt c q.
Proof. unfold cnt. rewrite filter_cons. case_bool_decide; case_decide; try done; cbn; lia. Qed.
Lemma cnt_sublist c q q' : q `sublist_of` q' → cnt c q <= cnt c q'.
Proof. induction 1 as [|b q q' _ IH|b q q' _ IH]; rewrite ?cnt_cons; [done|lia|]. case_bool_decide; lia. Qed.

Lemma cnt_app c q q' : cnt c (q ++ q') = cnt c q + cnt c q'.
Proof. unfold cnt. rewrite list.filter_app, length_app. lia. Qed.

(** The counters are right for a queue, next to [others] of other queues. *)
Record balanced (others : positive → Z) (q : list msg) (w : net_state) : Prop := {
  ba_count : ∀ c n, ns_counters w !! c = Some n → n = cnt c q + others c;
  ba_live : ∀ b c, b ∈ q → m_n_queued b = Some c → is_Some (ns_counters w !! c) }.

(** A connection at time [now]. *)
Record rc_ok (now : Z) (rc : rconn) : Prop := {
  ro_vconn : rc_vconn rc = match rc_state rc with S_CONNECTING | S_ACTIVE | S_IDLE => true | _ => false end;
  ro_reliable : rc_state rc = S_BACKOFF → rc_reliable rc = true;
  ro_max : 1 <= rc_max_backoff rc;
  ro_backoff : (if bool_decide (rc_state rc = S_BACKOFF) then 1 else 0) <= rc_backoff rc <= rc_max_backoff rc;
  ro_probe : 0 <= rc_probe_interval rc;
  ro_entered : 0 <= rc_state_entered rc <= now;
  ro_received : 0 <= rc_last_received (rc_info_of rc) <= now;
  ro_fits : now + rc_max_backoff rc < UINT_MAX ∧ now + rc_probe_interval rc < UINT_MAX }.

Lemma rc_ok_later now now' rc :
  rc_ok now rc → now <= now' → now' + rc_max_backoff rc < UINT_MAX → now' + rc_probe_interval rc < UINT_MAX → rc_ok now' rc.
Proof. intros [] ???. split; try done; lia. Qed.

(** The parts of a connection its correctness depends on. *)
Definition same_core (rc rc' : rconn) : Prop :=
  rc_state rc' = rc_state rc ∧ rc_state_entered rc' = rc_state_entered rc ∧ rc_vconn rc' = rc_vconn rc ∧
  rc_reliable rc' = rc_reliable rc ∧ rc_txq rc' = rc_txq rc ∧ rc_backoff rc' = rc_backoff rc ∧
  rc_max_backoff rc' = rc_max_backoff rc ∧ rc_probe_interval rc' = rc_probe_interval rc ∧
  rc_last_received (rc_info_of rc') = rc_last_received (rc_info_of rc).

Lemma same_core_ok now rc rc' : same_core rc rc' → rc_ok now rc → rc_ok now rc'.
Proof.
  intros (E1 & E2 & E3 & E4 & _ & E6 & E7 & E8 & E9) [].
  split; rewrite ?E1, ?E2, ?E3, ?E4, ?E6, ?E7, ?E8, ?E9; done.
Qed.

(** * Counters *)

Lemma count_up others q w b c :
  balanced others q w → (∀ d, c = Some d → is_Some (ns_counters w !! d)) → m_n_queued b = c →
  ∃ w', count_queued w c 1 = Some w' ∧ balanced others (q ++ [b]) w' ∧ dom (ns_counters w') = dom (ns_counters w) ∧
    ns_calls w' = ns_calls w ∧ ns_wire w' = ns_wire w ∧ ns_copies w' = ns_copies w.
Proof.
  intros [Hc Hl] Hd Hb. destruct c as [d|]; cbn [count_queued].
  - destruct (Hd d eq_refl) as [n Hn]. rewrite Hn; cbn [mbind option_bind]. eexists; split; [done|]. cbn.
    split_and!; [|by rewrite dom_insert_lookup_L|done..]. split; cbn.
    + intros e m. rewrite cnt_app, cnt_cons, cnt_nil, Hb. destruct (decide (e = d)) as [->|Hne].
      * rewrite lookup_insert_eq. intros [= <-]. rewrite (Hc _ _ Hn), bool_decide_true by done. lia.
      * rewrite lookup_insert_ne by done. intros He. rewrite (Hc _ _ He), bool_decide_false by congruence. lia.
    + intros b' e Hin He. apply lookup_insert_is_Some. destruct (decide (d = e)) as [|Hne]; [by left|right; split; [done|]].
      apply elem_of_app in Hin as [Hin| ->%list_elem_of_singleton]; [by eapply Hl|congruence].
  - eexists; split; [done|]. split_and!; [|done..]. split; cbn.
    + intros e m He. rewrite cnt_app, cnt_cons, cnt_nil, Hb, (Hc _ _ He), bool_decide_false by congruence. lia.
    + intros b' e [Hin| ->%list_elem_of_singleton]%elem_of_app He; [by eapply Hl|congruence].
Qed.

Lemma count_down others q w b :
  balanced others (b :: q) w →
  ∃ w', count_queued w (m_n_queued b) (-1) = Some w' ∧ balanced others q w' ∧ dom (ns_counters w') = dom (ns_counters w) ∧
    ns_calls w' = ns_calls w ∧ ns_wire w' = ns_wire w ∧ ns_copies w' = ns_copies w.
Proof.
  intros [Hc Hl]. destruct (m_n_queued b) as [d|] eqn:Hb; cbn [count_queued].
  - destruct (Hl b d) as [n Hn]; [apply list_elem_of_here|done|]. rewrite Hn; cbn [mbind option_bind]. eexists; split; [done|].
    cbn. split_and!; [|by rewrite dom_insert_lookup_L|done..]. split; cbn.
    + intros e m. destruct (decide (e = d)) as [->|Hne].
      * rewrite lookup_insert_eq. intros [= <-]. rewrite (Hc _ _ Hn), cnt_cons, bool_decide_true by done. lia.
      * rewrite lookup_insert_ne by done. intros He. rewrite (Hc _ _ He), cnt_cons, bool_decide_false by congruence. lia.
    + intros b' e Hin He. apply lookup_insert_is_Some. destruct (decide (d = e)) as [|Hne]; [by left|right; split; [done|]].
      eapply Hl; [by apply list_elem_of_further|done].
  - eexists; split; [done|]. split_and!; [|done..]. split.
    + intros e m He. rewrite (Hc _ _ He), cnt_cons, Hb. done.
    + intros b' e Hin. apply Hl. by apply list_elem_of_further.
Qed.

Lemma flush_loop_ok others q w :
  balanced others q w →
  ∃ w', flush_loop w q = Some w' ∧ balanced others [] w' ∧ dom (ns_counters w') = dom (ns_counters w) ∧
    ns_calls w' = ns_calls w ∧ ns_wire w' = ns_wire w ∧ ns_copies w' = ns_copies w.
Proof.
  revert w; induction q as [|b q IH]; intros w Hb; [by exists w|]. cbn [flush_loop].
  destruct (count_down others q w b Hb) as (w1 & -> & Hb1 & Hd1 & E1 & E2 & E3); cbn [mbind option_bind].
  destruct (IH w1 Hb1) as (w2 & -> & Hb2 & Hd2 & E4 & E5 & E6). exists w2. split_and!; try done; congruence.
Qed.

Lemma balanced_same others q w w' : ns_counters w' = ns_counters w → balanced others q w → balanced others q w'.
Proof. intros E [Hc Hl]. split; rewrite E; done. Qed.

Section ops.
  Context (now : Z) (V : vconn) (others : positive → Z).

(** What an operation does: the messages sent and queued stay in order, unless the
    connection was dropped just now and its queue with it. *)
Record good (rc : rconn) (w : net_state) (new : list msg) (rc' : rconn) (w' : net_state) : Prop := {
  gd_ok : rc_ok now rc';
  gd_bal : balanced others (rc_txq rc') w';
  gd_dom : dom (ns_counters w') = dom (ns_counters w);
  gd_fifo : ns_wire w' ++ rc_txq rc' = ns_wire w ++ rc_txq rc ++ new ∨
            rc_state rc' = S_BACKOFF ∧ rc_state_entered rc' = now ∧
            ns_wire w' ++ rc_txq rc' `sublist_of` ns_wire w ++ rc_txq rc ++ new;
  gd_sub : rc_txq rc' `sublist_of` rc_txq rc ++ new;
  gd_max : rc_max_backoff rc' = rc_max_backoff rc;
  gd_probe : rc_probe_interval rc' = rc_probe_interval rc }.

Lemma good_refl rc w : rc_ok now rc → balanced others (rc_txq rc) w → good rc w [] rc w.
Proof. intros. split; try done; [left|]; by rewrite app_nil_r. Qed.

(** Changing what is not looked at. *)
Lemma good_same rc w new rc' w' rc0 w0 :
  same_core rc0 rc → ns_counters w = ns_counters w0 → ns_wire w = ns_wire w0 → good rc w new rc' w' → good rc0 w0 new rc' w'.
Proof.
  intros (_ & _ & _ & _ & E5 & _ & E7 & E8 & _) Ec Ew []. split; try congruence.
Qed.

Lemma good_trans rc w new rc1 w1 new' rc2 w2 :
  good rc w new rc1 w1 → good rc1 w1 new' rc2 w2 → rc_state rc1 ≠ S_BACKOFF → good rc w (new ++ new') rc2 w2.
Proof.
  intros [? ? ? H1 Hs1 ? ?] [? ? ? H2 Hs2 ? ?] Hs. split; try congruence; [|etrans; [exact Hs2|]; rewrite app_assoc; by apply sublist_app].
  assert (E : ns_wire w1 ++ rc_txq rc1 ++ new' = ns_wire w ++ rc_txq rc ++ new ++ new').
  { destruct H1 as [E|[? _]]; [|done]. by rewrite !(app_assoc _ _ new'), E, !app_assoc. }
  by rewrite <- E.
Qed.

Lemma transition_ok rc st :
  rc_vconn rc = match st with S_CONNECTING | S_ACTIVE | S_IDLE => true | _ => false end →
  (st = S_BACKOFF → rc_reliable rc = true ∧ 1 <= rc_backoff rc) →
  1 <= rc_max_backoff rc → 0 <= rc_backoff rc <= rc_max_backoff rc → 0 <= rc_probe_interval rc →
  0 <= rc_last_received (rc_info_of rc) <= now →
  now + rc_max_backoff rc < UINT_MAX ∧ now + rc_probe_interval rc < UINT_MAX →
  rc_ok now (state_transition now rc st).
Proof.
  intros Hv Hb Hm H0 Hp Hr Hf. split; cbn; try done; [naive_solver| |lia].
  case_bool_decide; [naive_solver lia|lia].
Qed.

Lemma active_ok rc :
  rc_ok now rc → rc_state rc = S_CONNECTING → rc_ok now (set_last_connected (state_transition now (count_success rc) S_ACTIVE) now).
Proof.
  intros Hok Hs. assert (Ht : rc_ok now (state_transition now (count_success rc) S_ACTIVE)).
  { apply transition_ok; cbn; try done; try apply Hok; [by rewrite (ro_vconn _ _ Hok), Hs|].
    pose proof (ro_backoff _ _ Hok). case_bool_decide; lia. }
  by eapply same_core_ok; [|exact Ht].
Qed.

Lemma question_core rc : same_core rc (question_connectivity now rc).
Proof. unfold question_connectivity. by case_match. Qed.

Lemma rconn_disconnect_good rc w :
  rc_ok now rc → balanced others (rc_txq rc) w →
  good rc w [] (rconn_disconnect now rc) w ∧ rc_state (rconn_disconnect now rc) = S_VOID.
Proof.
  intros Hok Hb. unfold rconn_disconnect. case_bool_decide as Hs; [split; [by apply good_refl|done]|].
  split; [|done]. split; try done; [|left; by rewrite app_nil_r|by rewrite app_nil_r].
  apply transition_ok; cbn; try done; try apply Hok. pose proof (ro_max _ _ Hok). lia.
Qed.

Lemma disconnect_good rc w :
  rc_ok now rc → balanced others (rc_txq rc) w →
  ∃ rc' w', disconnect now rc w = Some (rc', w') ∧ good rc w [] rc' w' ∧ ns_calls w' = ns_calls w ∧
    if rc_reliable rc then rc_state rc' = S_BACKOFF ∧ rc_state_entered rc' = now ∧ rc_reliable rc' = true else rc_state rc' = S_VOID.
Proof.
  intros Hok Hb. unfold disconnect. destruct (rc_reliable rc) eqn:Hrel.
  2: { destruct (rconn_disconnect_good rc w Hok Hb). by eexists _, _. }
  set (rc1 := set_link rc false true).
  assert (∃ rc2 w', match rc_state rc with S_CONNECTING | S_ACTIVE | S_IDLE => flush_queue rc1 w | _ => Some (rc, w) end = Some (rc2, w') ∧
    balanced others (rc_txq rc2) w' ∧ dom (ns_counters w') = dom (ns_counters w) ∧ ns_calls w' = ns_calls w ∧ ns_wire w' = ns_wire w ∧
    rc_txq rc2 `sublist_of` rc_txq rc ∧ (rc2 = rc ∨ rc2 = set_txq rc1 []) ∧ rc_vconn rc2 = false) as (rc2 & w' & -> & Hb' & Hd & Ec & Ew & Hsub & Hrc & Hv).
  { destruct (flush_loop_ok others (rc_txq rc) w Hb) as (w' & E & Hb' & Hd & Ec & Ew & _).
    pose proof (ro_vconn _ _ Hok) as Hv. unfold flush_queue, rc1. cbn [rc_txq set_link]. rewrite E; cbn [mbind option_bind].
    destruct (rc_state rc); eexists _, _; split_and!; try done; try (by left); try (by right); apply sublist_nil_l. }
  cbn [mbind option_bind]. set (backoff := if _ <=? now then 1 else _). set (rc3 := state_transition now (set_backoff rc2 backoff (now + backoff)) S_BACKOFF).
  assert (Hfields : rc_reliable rc2 = true ∧ rc_max_backoff rc2 = rc_max_backoff rc ∧ rc_probe_interval rc2 = rc_probe_interval rc ∧
    rc_info_of rc2 = rc_info_of rc) by (by destruct Hrc as [-> | ->]). destruct Hfields as (Hr2 & Hm2 & Hp2 & Hi2).
  assert (Hbo : 1 <= backoff <= rc_max_backoff rc).
  { pose proof (ro_max _ _ Hok). unfold backoff. rewrite Hm2. destruct (_ <=? now); lia. }
  assert (H3 : rc_ok now rc3).
  { apply transition_ok; cbn; rewrite ?Hm2, ?Hp2, ?Hi2; try done; try apply Hok; [split; [done|lia]|lia]. }
  assert (Hg : good rc w [] rc3 w').
  { split; try done; [right; split_and!; [done..|]; rewrite app_nil_r, Ew; by apply sublist_app|by rewrite app_nil_r]. }
  eexists _, w'. split; [reflexivity|]. case_match; [|by split_and!].
  pose proof (question_core rc3) as Hq. split_and!; [|done|..].
  - destruct Hg. destruct Hq as (E1 & E2 & E3 & E4 & E5 & E6 & E7 & E8 & E9).
    split; rewrite ?E1, ?E2, ?E5, ?E7, ?E8; try done. by eapply same_core_ok; [apply question_core|].
  - by rewrite (proj1 Hq).
  - by rewrite (proj1 (proj2 Hq)).
  - by rewrite (proj1 (proj2 (proj2 (proj2 Hq)))).
Qed.

(** A connection that was lost just now, and one that stayed as it was. *)
Definition lost (rc' : rconn) : Prop := rc_state rc' = S_BACKOFF ∧ rc_state_entered rc' = now ∨ rc_state rc' = S_VOID.
Definition stays (rc rc' : rconn) : Prop := rc_state rc' = rc_state rc ∧ rc_state_entered rc' = rc_state_entered rc.

Lemma disconnect_lost rc w :
  rc_ok now rc → balanced others (rc_txq rc) w →
  ∃ rc' w', disconnect now rc w = Some (rc', w') ∧ good rc w [] rc' w' ∧ lost rc'.
Proof.
  intros Hok Hb. destruct (disconnect_good rc w Hok Hb) as (rc' & w' & E & Hg & _ & Hs). exists rc', w'. split_and!; [done..|].
  unfold lost. destruct (rc_reliable rc); tauto.
Qed.

Lemma reconnect_good rc w :
  rc_ok now rc → balanced others (rc_txq rc) w → rc_state rc = S_VOID ∨ rc_state rc = S_BACKOFF → rc_reliable rc = true →
  ∃ rc' w', reconnect now V rc w = Some (rc', w') ∧ good rc w [] rc' w' ∧
    (rc_state rc' = S_CONNECTING ∨ rc_state rc' = S_BACKOFF ∧ rc_state_entered rc' = now).
Proof.
  intros Hok Hb Hs Hr. unfold reconnect. destruct (v_open V (ns_calls w)).
  - eexists _, _. split; [done|]. split; [|by left]. split; try done; [|by eapply balanced_same; [|exact Hb]|left; by rewrite app_nil_r|by rewrite app_nil_r].
    apply transition_ok; cbn; try done; try apply Hok. pose proof (ro_backoff _ _ Hok). case_bool_decide; lia.
  - set (rc1 := set_backoff _ _ _). assert (H1 : rc_ok now rc1).
    { split; cbn; try apply Hok. by destruct Hs as [-> | ->]. }
    destruct (disconnect_good rc1 (called w) H1) as (rc' & w' & -> & Hg & _ & Hx).
    { by eapply balanced_same; [|exact Hb]. }
    exists rc', w'. split; [done|]. split; [by destruct Hg|]. cbn in Hx. rewrite Hr in Hx. right; tauto.
Qed.

Lemma try_send_good rc w b next :
  rc_ok now rc → balanced others (rc_txq rc) w → rconn_is_connected rc = true → rc_txq rc = b :: next →
  ∃ rc' w' a, try_send now V rc w = Some (rc', w', a) ∧ good rc w [] rc' w' ∧
    match a with
    | Ok => stays rc rc' ∧ rc_txq rc' = next
    | Again => stays rc rc'
    | Failed => lost rc'
    end.
Proof.
  intros Hok Hb Hc Hq. unfold try_send. rewrite Hq.
  assert (Hv : rc_vconn rc = true).
  { rewrite (ro_vconn _ _ Hok). unfold rconn_is_connected in Hc. by destruct (rc_state rc). }
  rewrite Hv. destruct (v_send V (ns_calls w)).
  - rewrite Hq in Hb. destruct (count_down others next (called w) b) as (w' & -> & Hb' & Hd & _ & Ew & _).
    { by eapply balanced_same; [|exact Hb]. }
    cbn [mbind option_bind]. eexists _, _, Ok. split; [done|]. split; [|done].
    split; cbn; try done.
    + destruct Hok; split; done.
    + by eapply balanced_same; [|exact Hb'].
    + left. rewrite Ew, Hq, app_nil_r. by rewrite <- app_assoc.
    + rewrite Hq, app_nil_r. by apply sublist_cons.
  - eexists _, _, Again. split; [done|]. split; [|done]. split; cbn; try done.
    + by eapply same_core_ok; [|exact Hok].
    + by eapply balanced_same; [|exact Hb].
    + left. by rewrite app_nil_r.
    + by rewrite app_nil_r.
  - destruct (disconnect_lost (set_echo rc 0) (called w)) as (rc' & w' & -> & Hg & Hl).
    { by eapply same_core_ok; [|exact Hok]. }
    { by eapply balanced_same; [|exact Hb]. }
    cbn [mbind option_bind]. eexists _, _, Failed. split; [done|]. split; [|done]. by eapply good_same; [..|exact Hg].
Qed.

Lemma stays_connected rc rc' : stays rc rc' → rconn_is_connected rc' = rconn_is_connected rc.
Proof. intros [E _]. unfold rconn_is_connected. by rewrite E. Qed.

Lemma connected_not_backoff rc : rconn_is_connected rc = true → rc_state rc ≠ S_BACKOFF.
Proof. unfold rconn_is_connected. by destruct (rc_state rc). Qed.

Lemma tx_work_good n rc w :
  rc_ok now rc → balanced others (rc_txq rc) w → rconn_is_connected rc = true → (length (rc_txq rc) <= n)%nat →
  ∃ rc' w', do_tx_work now V n rc w = Some (rc', w') ∧ good rc w [] rc' w' ∧ (stays rc rc' ∨ lost rc').
Proof.
  revert rc w; induction n as [|n IH]; intros rc w Hok Hb Hc Hn.
  - destruct (rc_txq rc) as [|b next] eqn:Hq; [|by cbn in Hn; lia]. cbn. rewrite Hq.
    eexists _, _; split_and!; [done|by apply good_refl; rewrite ?Hq|by left].
  - destruct (rc_txq rc) as [|b next] eqn:Hq.
    { cbn. rewrite Hq. eexists _, _; split_and!; [done|by apply good_refl; rewrite ?Hq|by left]. }
    cbn [do_tx_work]. rewrite Hq.
    destruct (try_send_good rc w b next) as (rc1 & w1 & a & -> & Hg & Ha); [done|by rewrite Hq|done..|]. cbn [mbind option_bind].
    destruct a.
    + destruct Ha as [Hs Hq1]. destruct (IH rc1 w1) as (rc2 & w2 & -> & Hg2 & Hs2).
      * apply Hg.
      * apply Hg.
      * by rewrite (stays_connected rc).
      * rewrite Hq1. cbn in Hn. lia.
      * exists rc2, w2. split; [done|]. split.
        { apply (good_trans rc w [] rc1 w1 []); [done..|]. rewrite (proj1 Hs). by apply connected_not_backoff. }
        destruct Hs2 as [[? ?]|?]; [left|by right]. destruct Hs. split; congruence.
    + eexists _, _. split_and!; [done..|by left].
    + eexists _, _. split_and!; [done..|by right].
Qed.

Lemma copy_loop_counters n ms i w b :
  ns_counters (copy_loop V n ms i w b).2 = ns_counters w ∧ ns_wire (copy_loop V n ms i w b).2 = ns_wire w.
Proof.
  revert ms i w; induction n as [|n IH]; intros ms i w; [done|]. cbn [copy_loop]. destruct (ms !! i) as [m|]; [|done].
  destruct (v_monitor_send V (ns_calls w)); split; rewrite ?(proj1 (IH _ _ _)), ?(proj2 (IH _ _ _)); done.
Qed.

Lemma copy_core rc w b :
  let r := copy_to_monitor V rc w b in
  same_core rc r.1 ∧ ns_counters r.2 = ns_counters w ∧ ns_wire r.2 = ns_wire w.
Proof.
  intros r. unfold r, copy_to_monitor.
  destruct (copy_loop_counters (length (rc_monitors rc)) (rc_monitors rc) 0 w b).
  by destruct (copy_loop _ _ _ _ _ _) as [ms w'].
Qed.

(** The message as it is queued. *)
Definition queued (b : msg) (c : option positive) : msg := Msg (m_type b) (m_xid b) c (m_body b).

Lemma send_good rc w b c :
  rc_ok now rc → balanced others (rc_txq rc) w → (∀ d, c = Some d → is_Some (ns_counters w !! d)) →
  ∃ rc' w' r, rconn_send now V rc w b c = Some (rc', w', r) ∧ (stays rc rc' ∨ lost rc' ∧ rconn_is_connected rc = true) ∧
    if rconn_is_connected rc then r = 0 ∧ good rc w [queued b c] rc' w' else r = ENOTCONN ∧ rc' = rc ∧ w' = w.
Proof.
  intros Hok Hb Hd. unfold rconn_send. destruct (rconn_is_connected rc) eqn:Hc; [|by eexists _, _, _; split_and!; [done|by left|..]].
  pose proof (copy_core rc w b) as Hcopy. destruct (copy_to_monitor V rc w b) as [rc1 w1]. destruct Hcopy as (Hcore & Ec & Ew). cbn [fst snd] in *.
  pose proof (same_core_ok now _ _ Hcore Hok) as Hok1.
  destruct (count_up others (rc_txq rc) w1 (queued b c) c) as (w2 & -> & Hb2 & Hd2 & _ & Ew2 & _); [|by rewrite Ec|done|].
  { by eapply balanced_same; [|exact Hb]. }
  cbn [mbind option_bind]. fold (queued b c). set (rc2 := set_txq rc1 _).
  assert (Hq2 : rc_txq rc2 = rc_txq rc ++ [queued b c]) by (cbn; f_equal; apply Hcore).
  assert (Hok2 : rc_ok now rc2) by (destruct Hok1; by split).
  assert (Hs2 : stays rc rc2) by (split; apply Hcore).
  assert (Hg2 : good rc w [queued b c] rc2 w2).
  { split; [done|by rewrite Hq2|by rewrite Hd2, Ec| |by rewrite Hq2|apply Hcore|apply Hcore]. left. by rewrite Hq2, Ew2, Ew. }
  case_match eqn:Hlen; [|eexists _, _, _; split_and!; [done|by left|done..]].
  destruct (try_send_good rc2 w2 (queued b c) []) as (rc3 & w3 & a & E3 & Hg3 & Ha); [done|by rewrite Hq2|by rewrite (stays_connected rc)| |].
  { apply Nat.eqb_eq in Hlen. rewrite Hq2 in Hlen |- *. destruct (rc_txq rc) as [|? [|? ?]]; [done|cbn in Hlen; lia..]. }
  rewrite E3; cbn [mbind option_bind]. eexists _, _, _. split; [done|]. split.
  - assert (Hst : stays rc2 rc3 → stays rc rc3) by (intros [? ?]; destruct Hs2; split; congruence).
    destruct a; [left; apply Hst, Ha|left; by apply Hst|right; done].
  - split; [done|]. rewrite <- (app_nil_r [queued b c]). eapply good_trans; [exact Hg2|exact Hg3|].
    rewrite (proj1 Hs2). by apply connected_not_backoff.
Qed.

(** * The loop of rconn_run *)

Lemma fresh_waits t : 0 <= now → 1 <= t → now + t < UINT_MAX → sat_add (u32 now) t <=? now = false.
Proof.
  unfold sat_add, UINT_MAX. intros. assert (E : u32 now = now) by (apply wrap_small; unfold fits; lia). rewrite E.
  assert (E' : u32 (now + t) = now + t) by (apply wrap_small; unfold fits; lia). rewrite E'.
  destruct (Z.leb_spec now (now + t)); [|lia]. apply Z.leb_gt. lia.
Qed.

Lemma fresh_backoff rc : rc_ok now rc → rc_state rc = S_BACKOFF → rc_state_entered rc = now → timed_out now rc = false.
Proof.
  intros Hok Hs He. pose proof (ro_backoff _ _ Hok) as Hb. rewrite bool_decide_true in Hb by done. pose proof (ro_entered _ _ Hok).
  destruct (ro_fits _ _ Hok). unfold timed_out, timeout. rewrite Hs, He.
  assert (E : u32 (rc_backoff rc) = rc_backoff rc) by (apply wrap_small; unfold fits, UINT_MAX in *; lia).
  rewrite E. apply fresh_waits; lia.
Qed.

Lemma fresh_active rc : rc_ok now rc → rc_state rc = S_ACTIVE → rc_state_entered rc = now → timed_out now rc = false.
Proof.
  intros Hok Hs He. pose proof (ro_entered _ _ Hok). pose proof (ro_received _ _ Hok). pose proof (ro_probe _ _ Hok).
  destruct (ro_fits _ _ Hok). unfold timed_out, timeout. rewrite Hs, He.
  unfold truthy. destruct (Z.eqb_spec (rc_probe_interval rc) 0) as [E0|E0]; cbn [negb].
  - unfold sat_add. assert (E : u32 now = now) by (apply wrap_small; unfold fits, UINT_MAX in *; lia). rewrite E.
    destruct (Z.leb_spec now (u32 (now + UINT_MAX))); apply Z.leb_gt; [|lia].
    unfold u32, wrap, UINT_MAX in *. pose proof (Z.mod_pos_bound (now + (2 ^ 32 - 1)) (2 ^ 32) ltac:(lia)).
    destruct (decide (now = 0)) as [-> | Hn]; [vm_compute; done|].
    assert ((now + (2 ^ 32 - 1)) mod 2 ^ 32 = now - 1) by (symmetry; apply Z.mod_unique with 1; lia). lia.
  - rewrite Z.max_r by lia. assert (E : u32 now = now) by (apply wrap_small; unfold fits, UINT_MAX in *; lia). rewrite E.
    assert (E' : u32 (now + rc_probe_interval rc - now) = rc_probe_interval rc).
    { replace (now + rc_probe_interval rc - now) with (rc_probe_interval rc) by lia. apply wrap_small; unfold fits, UINT_MAX in *; lia. }
    rewrite E'. pose proof (fresh_waits (rc_probe_interval rc)) as Hf. rewrite E in Hf. apply Hf; lia.
Qed.

Definition rank (rc : rconn) : nat :=
  match rc_state rc with
  | S_VOID => 0
  | S_BACKOFF => if rc_state_entered rc =? now then 0 else 3
  | S_CONNECTING => 2
  | S_ACTIVE => if rc_state_entered rc =? now then 1 else 2
  | S_IDLE => 1
  end.

Lemma lost_rank rc : lost rc → rank rc = 0%nat.
Proof. intros [[E1 E2]|E]; unfold rank; rewrite ?E1, ?E2, ?Z.eqb_refl, ?E; done. Qed.

Definition probe (b : msg) : Prop := m_type b = OFPT_ECHO_REQUEST ∧ m_n_queued b = None.

Lemma run_state_good xid rc w :
  rc_ok now rc → balanced others (rc_txq rc) w →
  ∃ rc' w' new, run_state now V xid rc w = Some (rc', w') ∧ good rc w new rc' w' ∧ Forall probe new ∧
    (rc_state rc' = rc_state rc ∨ (rank rc' < rank rc)%nat).
Proof.
  intros Hok Hb. pose proof (good_refl rc w Hok Hb) as Hrefl. pose proof (ro_entered _ _ Hok) as Hent. unfold run_state.
  destruct (rc_state rc) eqn:Hs.
  - eexists _, _, []. split_and!; [done..|by left].
  - destruct (timed_out now rc) eqn:Ht; [|eexists _, _, []; split_and!; [done..|by left]].
    destruct (reconnect_good rc w Hok Hb) as (rc' & w' & -> & Hg & Hst); [by right|by apply (ro_reliable _ _ Hok)|].
    eexists _, _, []. split_and!; [done..|]. destruct Hst as [E|[E _]]; [right|by left]. unfold rank. rewrite E, Hs.
    destruct (Z.eqb_spec (rc_state_entered rc) now) as [E'|]; [|lia]. by rewrite (fresh_backoff rc) in Ht.
  - assert (Hv : rc_vconn rc = true) by (by rewrite (ro_vconn _ _ Hok), Hs). rewrite Hv.
    assert (Hb' : balanced others (rc_txq rc) (called w)) by (by eapply balanced_same; [|exact Hb]).
    destruct (v_connect V (ns_calls w)).
    + eexists _, _, []. split; [done|]. split; [split; cbn; try done; [|left; by rewrite app_nil_r|by rewrite app_nil_r]|split; [done|right; unfold rank; cbn; rewrite Hs, Z.eqb_refl; lia]].
      by apply active_ok.
    + destruct (timed_out now rc); [|eexists _, _, []; split_and!; [done|by eapply good_same; [..|by apply good_refl]|done|by left]].
      destruct (disconnect_lost (set_backoff rc (rc_backoff rc) TIME_MAX) (called w)) as (rc' & w' & -> & Hg & Hl); [by eapply same_core_ok; [|exact Hok]|done|].
      eexists _, _, []. split_and!; [done|by eapply good_same; [..|exact Hg]|done|right]. rewrite lost_rank by done. unfold rank; rewrite Hs. lia.
    + destruct (disconnect_lost rc (called w)) as (rc' & w' & -> & Hg & Hl); [done..|].
      eexists _, _, []. split_and!; [done|by eapply good_same; [..|exact Hg]|done|right]. rewrite lost_rank by done. unfold rank; rewrite Hs. lia.
  - assert (Hc : rconn_is_connected rc = true) by (unfold rconn_is_connected; by rewrite Hs).
    destruct (timed_out now rc) eqn:Ht.
    + assert (Hold : rc_state_entered rc =? now = false).
      { apply Z.eqb_neq. intros E. by rewrite (fresh_active rc) in Ht. }
      assert (Hok1 : rc_ok now (state_transition now rc S_IDLE)).
      { apply transition_ok; cbn; try done; try apply Hok; [by rewrite (ro_vconn _ _ Hok), Hs|].
        pose proof (ro_backoff _ _ Hok). case_bool_decide; lia. }
      destruct (send_good (state_transition now rc S_IDLE) w (Msg OFPT_ECHO_REQUEST xid None []) None) as (rc' & w' & r & -> & Hst & Hr); [done..|].
      cbn [mbind option_bind]. change (rconn_is_connected (state_transition now rc S_IDLE)) with true in *. destruct Hr as [_ Hg].
      eexists _, _, _. split; [done|]. split; [by destruct Hg|]. split; [by repeat constructor|]. right.
      assert (Hrk : rank rc = 2%nat) by (unfold rank; by rewrite Hs, Hold). rewrite Hrk.
      destruct Hst as [[E _]|[Hl _]]; [unfold rank; rewrite E; cbn; lia|rewrite lost_rank by done; lia].
    + destruct (tx_work_good (length (rc_txq rc)) rc w) as (rc' & w' & -> & Hg & Hst); [done..|].
      eexists _, _, []. split_and!; [done..|]. destruct Hst as [[E _]|Hl]; [left; by rewrite E|right].
      rewrite lost_rank by done. unfold rank; rewrite Hs. case_match; lia.
  - assert (Hc : rconn_is_connected rc = true) by (unfold rconn_is_connected; by rewrite Hs).
    destruct (timed_out now rc) eqn:Ht.
    + pose proof (question_core rc) as Hq. destruct (disconnect_lost (question_connectivity now rc) w) as (rc' & w' & -> & Hg & Hl).
      { by eapply same_core_ok. }
      { by rewrite (proj1 (proj2 (proj2 (proj2 (proj2 Hq))))). }
      eexists _, _, []. split_and!; [done|by eapply good_same; [..|exact Hg]|done|right]. rewrite lost_rank by done. unfold rank; rewrite Hs. lia.
    + destruct (tx_work_good (length (rc_txq rc)) rc w) as (rc' & w' & -> & Hg & Hst); [done..|].
      eexists _, _, []. split_and!; [done..|]. destruct Hst as [[E _]|Hl]; [left; by rewrite E|right].
      rewrite lost_rank by done. unfold rank; rewrite Hs. lia.
Qed.

Lemma run_good fuel xid rc w :
  rc_ok now rc → balanced others (rc_txq rc) w → (rank rc < fuel)%nat →
  ∃ rc' w' new, rconn_run now V fuel xid rc w = Some (rc', w') ∧ good rc w new rc' w' ∧ Forall probe new.
Proof.
  revert rc w; induction fuel as [|fuel IH]; intros rc w Hok Hb Hf; [lia|]. cbn [rconn_run].
  destruct (run_state_good xid rc w Hok Hb) as (rc1 & w1 & new & -> & Hg & Hn & Hst); cbn [mbind option_bind].
  case_bool_decide as Hsame; [by exists rc1, w1, new|]. destruct Hst as [|Hrk]; [done|].
  destruct (decide (rc_state rc1 = S_BACKOFF)) as [Hbk|Hbk].
  - assert (He : rc_state_entered rc1 = now).
    { destruct (Z.eqb_spec (rc_state_entered rc1) now) as [|Hne]; [done|]. exfalso. unfold rank in Hrk at 1. rewrite Hbk in Hrk.
      rewrite (proj2 (Z.eqb_neq _ _) Hne) in Hrk. unfold rank in Hrk. destruct (rc_state rc); try lia; case_match; lia. }
    destruct fuel as [|fuel]; [lia|]. cbn [rconn_run]. unfold run_state. rewrite Hbk, (fresh_backoff rc1) by (done || apply Hg).
    cbn [mbind option_bind]. rewrite bool_decide_true by done. by exists rc1, w1, new.
  - destruct (IH rc1 w1) as (rc2 & w2 & new2 & -> & Hg2 & Hn2); [apply Hg|apply Hg|lia|].
    exists rc2, w2, (new ++ new2). split_and!; [done| |by apply list.Forall_app]. by eapply good_trans.
Qed.

Lemma rank_max rc : (rank rc < 4)%nat.
Proof. unfold rank. repeat case_match; lia. Qed.

(** * The other operations *)

Lemma unreliable_good rc w :
  rc_ok now rc → balanced others (rc_txq rc) w → good rc w [] (rconn_connect_unreliably now rc) w.
Proof.
  intros Hok Hb. destruct (rconn_disconnect_good rc w Hok Hb) as [[H1 ? ? Hf ? ? ?] Hs].
  split; try done; [|destruct Hf as [Hf|[? _]]; [by left|congruence]].
  apply transition_ok; cbn; try done; try apply H1. pose proof (ro_backoff _ _ H1). case_bool_decide; lia.
Qed.

Lemma connect_good rc w :
  rc_ok now rc → balanced others (rc_txq rc) w →
  ∃ rc' w', rconn_connect now V rc w = Some (rc', w') ∧ good rc w [] rc' w'.
Proof.
  intros Hok Hb. destruct (rconn_disconnect_good rc w Hok Hb) as [Hg Hs]. unfold rconn_connect.
  set (rc1 := set_link _ _ _). assert (H1 : rc_ok now rc1).
  { pose proof (gd_ok _ _ _ _ _ Hg) as H0. destruct H0. split; try done. }
  destruct (reconnect_good rc1 w H1) as (rc' & w' & E & Hg' & _); [apply Hg|by left|done|].
  exists rc', w'. split; [done|]. change (@nil msg) with (@nil msg ++ []). eapply good_trans; [exact Hg| |by rewrite Hs].
  by destruct Hg'.
Qed.

Lemma received_ok rc b : rc_ok now rc → rc_ok now (count_received now rc b).
Proof. intros []. split; cbn; try done. lia. Qed.

Lemma recv_good rc w :
  rc_ok now rc → balanced others (rc_txq rc) w →
  ∃ rc' w' r, rconn_recv now V rc w = Some (rc', w', r) ∧ good rc w [] rc' w'.
Proof.
  intros Hok Hb. unfold rconn_recv. destruct (rconn_is_connected rc) eqn:Hc; [|eexists _, _, _; split; [done|by apply good_refl]].
  assert (Hv : rc_vconn rc = true).
  { rewrite (ro_vconn _ _ Hok). unfold rconn_is_connected in Hc. by destruct (rc_state rc). }
  rewrite Hv. assert (Hb' : balanced others (rc_txq rc) (called w)) by (by eapply balanced_same; [|exact Hb]).
  destruct (v_recv V (ns_calls w)) as [b|a].
  - pose proof (copy_core rc (called w) b) as Hcopy. destruct (copy_to_monitor V rc (called w) b) as [rc1 w1].
    destruct Hcopy as (Hcore & Ec & Ew). cbn [fst snd] in *. set (rc2 := count_received now rc1 _).
    assert (Hok2 : rc_ok now rc2) by (apply received_ok; by eapply same_core_ok).
    assert (Hidle : rc_state rc2 = S_IDLE → rc_ok now (state_transition now rc2 S_ACTIVE)).
    { intros E. apply transition_ok; try apply Hok2; [by rewrite (ro_vconn _ _ Hok2), E|done|].
      pose proof (ro_backoff _ _ Hok2). case_bool_decide; lia. }
    eexists _, _, _. split; [done|].
    assert (Hgood : ∀ rc', rc_ok now rc' → rc_txq rc' = rc_txq rc2 → rc_max_backoff rc' = rc_max_backoff rc2 →
      rc_probe_interval rc' = rc_probe_interval rc2 → good rc w [] rc' w1).
    { destruct Hcore as (_ & _ & _ & _ & E5 & _ & E7 & E8 & _). intros rc' Hr E1 E2 E3.
      split; [done|..]; rewrite ?E1, ?E2, ?E3, ?Ec, ?Ew; cbn; rewrite ?E5, ?E7, ?E8; try done.
      - by eapply balanced_same; [|exact Hb].
      - left. by rewrite app_nil_r.
      - by rewrite app_nil_r. }
    destruct (rc_state rc2) eqn:E; try (by apply Hgood).
    destruct (m_type b =? OFPT_ECHO_REPLY); [|by apply Hgood; [apply Hidle|..]].
    destruct (rc_idle_echo_xid rc2 =? 0); [by apply Hgood; [apply Hidle|..]|].
    destruct (rc_idle_echo_xid rc2 =? m_xid b); apply Hgood; try done.
    + by eapply same_core_ok; [|apply Hidle].
    + by eapply same_core_ok; [|exact Hok2].
  - destruct a; try (eexists _, _, _; split; [done|by eapply good_same; [..|by apply good_refl]]).
    destruct (disconnect_lost rc (called w) Hok Hb') as (rc' & w' & -> & Hg & _).
    cbn [mbind option_bind]. eexists _, _, _. split; [done|by eapply good_same; [..|exact Hg]].
Qed.
End ops.

(** * Sequences of operations *)

Inductive rconn_op :=
  | OpConnect | OpUnreliably | OpDisconnect
  | OpSend (b : msg) (n_queued : option positive)
  | OpSendLimit (b : msg) (n_queued : positive) (limit : Z)
  | OpRun (xid : Z) | OpRecv | OpMonitor (m : positive).

(** The loop of [rconn_run] never takes more than four turns. *)
Definition RUN_TURNS : nat := 4.

(** The new state and the messages accepted for sending. *)
Definition rc_step (now : Z) (V : vconn) (op : rconn_op) (rc : rconn) (w : net_state) :
    option (rconn * net_state * list msg) :=
  match op with
  | OpConnect => '(rc, w) ← rconn_connect now V rc w; Some (rc, w, [])
  | OpUnreliably => Some (rconn_connect_unreliably now rc, w, [])
  | OpDisconnect => Some (rconn_disconnect now rc, w, [])
  | OpSend b c => '(rc, w, r) ← rconn_send now V rc w b c; Some (rc, w, if r =? 0 then [queued b c] else [])
  | OpSendLimit b c limit =>
    '(rc, w, r) ← rconn_send_with_limit now V rc w b c limit; Some (rc, w, if r =? 0 then [queued b (Some c)] else [])
  | OpRun xid => '(rc, w) ← rconn_run now V RUN_TURNS xid rc w; Some (rc, w, [])
  | OpRecv => '(rc, w, _) ← rconn_recv now V rc w; Some (rc, w, [])
  | OpMonitor m => Some (rconn_add_monitor rc m, w, [])
  end.

(** All accepted messages, and whether no operation left the connection in back-off. *)
Fixpoint rc_steps (ops : list (Z * vconn * rconn_op)) (rc : rconn) (w : net_state) : option (rconn * net_state * list msg * bool) :=
  match ops with
  | [] => Some (rc, w, [], true)
  | (now, V, op) :: ops =>
    '(rc, w, acc) ← rc_step now V op rc w;
    let quiet := negb (bool_decide (rc_state rc = S_BACKOFF)) in
    '(rc, w, acc', quiet') ← rc_steps ops rc w; Some (rc, w, acc ++ acc', quiet && quiet')
  end.

Definition op_ok (counters : gset positive) (op : rconn_op) : Prop :=
  match op with
  | OpSend _ (Some c) | OpSendLimit _ c _ => c ∈ counters
  | _ => True
  end.

#[global] Instance probe_dec b : Decision (probe b).
Proof. unfold probe. apply _. Defined.

(** The messages that are not inactivity probes. *)
Definition data (l : list msg) : list msg := base.filter (λ b, ¬ probe b) l.

Lemma data_app l l' : data (l ++ l') = data l ++ data l'.
Proof. apply list.filter_app. Qed.

Lemma data_probes l : Forall probe l → data l = [].
Proof.
  induction 1 as [|b l Hb Hl IH]; [done|]. unfold data. rewrite filter_cons. by case_decide.
Qed.

Lemma data_sublist l l' : l `sublist_of` l' → data l `sublist_of` data l'.
Proof.
  unfold data. induction 1 as [|b l l' H IH|b l l' H IH]; [done| |]; rewrite !filter_cons; case_decide; try done.
  - by apply sublist_skip.
  - by apply sublist_cons.
Qed.

Lemma step_good now V others op rc w :
  rc_ok now rc → balanced others (rc_txq rc) w → op_ok (dom (ns_counters w)) op →
  ∃ rc' w' acc new, rc_step now V op rc w = Some (rc', w', acc) ∧ good now others rc w new rc' w' ∧ data new = data acc.
Proof.
  intros Hok Hb Ho. pose proof (good_refl now others rc w Hok Hb) as Hrefl.
  assert (Hsend : ∀ b c, (∀ d, c = Some d → is_Some (ns_counters w !! d)) →
    ∃ rc' w' r, rconn_send now V rc w b c = Some (rc', w', r) ∧ good now others rc w (if r =? 0 then [queued b c] else []) rc' w').
  { intros b c Hc. destruct (send_good now V others rc w b c Hok Hb Hc) as (rc' & w' & r & E & _ & Hr). exists rc', w', r.
    split; [done|]. destruct (rconn_is_connected rc); [destruct Hr as [-> Hr]; exact Hr|]. by destruct Hr as (-> & -> & ->). }
  destruct op as [| | |b c|b c limit|xid| |m]; cbn [rc_step].
  - destruct (connect_good now V others rc w Hok Hb) as (rc' & w' & -> & Hg). by eexists _, _, _, [].
  - eexists _, _, _, []. split_and!; [done|by apply unreliable_good|done].
  - eexists _, _, _, []. split_and!; [done|by apply rconn_disconnect_good|done].
  - destruct (Hsend b c) as (rc' & w' & r & -> & Hg); [intros d ->; by apply elem_of_dom|].
    eexists _, _, _, _. split; [done|]. by split; [exact Hg|].
  - unfold rconn_send_with_limit. cbn in Ho. apply elem_of_dom in Ho as [n Hn]. rewrite Hn; cbn [mbind option_bind].
    destruct (limit <=? n); [eexists _, _, [], []; by split_and!|].
    destruct (Hsend b (Some c)) as (rc' & w' & r & -> & Hg); [intros d [= <-]; by eexists|].
    eexists _, _, _, _. split; [done|]. by split; [exact Hg|].
  - destruct (run_good now V others RUN_TURNS xid rc w Hok Hb) as (rc' & w' & new & -> & Hg & Hn); [apply rank_max|].
    eexists _, _, _, new. split_and!; [done..|]. by rewrite data_probes.
  - destruct (recv_good now V others rc w Hok Hb) as (rc' & w' & r & -> & Hg). by eexists _, _, _, [].
  - eexists _, _, _, []. split_and!; [done| |done]. unfold rconn_add_monitor. case_match; [|done].
    destruct Hrefl. split; try done. by eapply same_core_ok; [|exact Hok].
Qed.

(** The times of operations go up and stay clear of the 32-bit limit. *)
Fixpoint times_ok (t : Z) (room : Z) (ops : list (Z * vconn * rconn_op)) : Prop :=
  match ops with [] => True | (now, _, _) :: ops => t <= now ∧ now + room < UINT_MAX ∧ times_ok now room ops end.

Lemma steps_good others t room ops rc w :
  rc_ok t rc → balanced others (rc_txq rc) w → Forall (λ x, op_ok (dom (ns_counters w)) x.2) ops →
  rc_max_backoff rc <= room → rc_probe_interval rc <= room → times_ok t room ops →
  ∃ rc' w' acc quiet t', rc_steps ops rc w = Some (rc', w', acc, quiet) ∧ rc_ok t' rc' ∧ balanced others (rc_txq rc') w' ∧
    dom (ns_counters w') = dom (ns_counters w) ∧
    data (ns_wire w' ++ rc_txq rc') `sublist_of` data (ns_wire w ++ rc_txq rc ++ acc) ∧
    (quiet = true → data (ns_wire w' ++ rc_txq rc') = data (ns_wire w ++ rc_txq rc ++ acc)).
Proof.
  revert t rc w; induction ops as [|[[now V] op] ops IH]; intros t rc w Hok Hb Ho Hm Hp Ht.
  { exists rc, w, [], true, t. rewrite app_nil_r. by split_and!. }
  apply list.Forall_cons in Ho as [Ho Hos]. destruct Ht as (Ht & Hroom & Hts). cbn [rc_steps].
  assert (Hok1 : rc_ok now rc) by (eapply rc_ok_later; [exact Hok|lia..]).
  destruct (step_good now V others op rc w Hok1 Hb Ho) as (rc1 & w1 & acc & new & -> & Hg & Hnew). cbn [mbind option_bind].
  destruct Hg as [Hok2 Hb2 Hd2 Hf _ Hm2 Hp2].
  destruct (IH now rc1 w1) as (rc2 & w2 & acc2 & quiet & t' & -> & Hok3 & Hb3 & Hd3 & Hsub & Heq);
    [done|done|by rewrite Hd2|lia|lia|done|]. cbn [mbind option_bind].
  exists rc2, w2, (acc ++ acc2), (negb (bool_decide (rc_state rc1 = S_BACKOFF)) && quiet), t'. split_and!; [done..|by rewrite Hd3| |].
  - etrans; [exact Hsub|].
    replace (ns_wire w1 ++ rc_txq rc1 ++ acc2) with ((ns_wire w1 ++ rc_txq rc1) ++ acc2) by (by rewrite <- app_assoc).
    replace (ns_wire w ++ rc_txq rc ++ acc ++ acc2) with ((ns_wire w ++ rc_txq rc ++ acc) ++ acc2) by (by rewrite <- !app_assoc).
    rewrite (data_app (ns_wire w1 ++ _)), (data_app (ns_wire w ++ _)). apply sublist_app; [|done].
    assert (E : data (ns_wire w ++ rc_txq rc ++ acc) = data (ns_wire w ++ rc_txq rc ++ new)) by (by rewrite !data_app, Hnew).
    rewrite E. destruct Hf as [-> |(_ & _ & Hf)]; [done|by apply data_sublist].
  - intros [Hq1 Hq]%andb_true_iff. rewrite (Heq Hq). apply negb_true_iff, bool_decide_eq_false in Hq1.
    destruct Hf as [Hf|[? _]]; [|done]. rewrite (app_assoc (ns_wire w1)), Hf, !data_app, Hnew. by rewrite <- !app_assoc.
Qed.

Definition no_traffic (counters : gset positive) : net_state := NetState (gset_to_gmap 0 counters) 0 [] [].

Lemma rconn_create_ok t0 probe_interval max_backoff :
  0 <= t0 → 0 <= probe_interval → 0 <= max_backoff →
  t0 + Z.max 60 max_backoff < UINT_MAX → t0 + Z.max 1 probe_interval < UINT_MAX →
  rc_ok t0 (rconn_create t0 probe_interval max_backoff).
Proof.
  intros. assert (1 <= rc_max_backoff (rconn_create t0 probe_interval max_backoff) <= Z.max 60 max_backoff).
  { cbn. unfold truthy. destruct (Z.eqb_spec max_backoff 0); cbn; lia. }
  assert (0 <= rc_probe_interval (rconn_create t0 probe_interval max_backoff) <= Z.max 1 probe_interval).
  { cbn. unfold truthy. destruct (Z.eqb_spec probe_interval 0); cbn; lia. }
  split; try done; try lia; [|cbn; lia..]. cbn [rc_state rconn_create rc_backoff]. case_bool_decide; [done|lia].
Qed.

(** C32: reliable connections.  Whatever the network answers, any sequence of connecting,
    disconnecting, sending, receiving and running at times that go up is carried out:
    no [vconn] that is not there is used, the loop of [rconn_run] ends after at most four
    turns, a back-off lies between 1 and its maximum, and every sender's counter is the
    number of its messages in the queue, also after the queue was dropped.  The messages
    handed to the network and still queued are accepted ones, once each and in their
    order; none is missing unless the connection was dropped into back-off. *)
Theorem rconn_reliable (t0 probe_interval max_backoff room : Z) (counters : gset positive) (ops : list (Z * vconn * rconn_op))
    (H0 : 0 <= t0) (Hp : 0 <= probe_interval <= room) (Hm : 0 <= max_backoff <= room) (Hroom : 60 <= room)
    (Ht0 : t0 + room < UINT_MAX) (Ht : times_ok t0 room ops) (Ho : Forall (λ x, op_ok counters x.2) ops) :
  ∃ rc w acc quiet t, rc_steps ops (rconn_create t0 probe_interval max_backoff) (no_traffic counters) = Some (rc, w, acc, quiet) ∧
    rc_ok t rc ∧ (∀ c, c ∈ counters → ns_counters w !! c = Some (cnt c (rc_txq rc))) ∧
    data (ns_wire w ++ rc_txq rc) `sublist_of` data acc ∧
    (quiet = true → data (ns_wire w ++ rc_txq rc) = data acc).
Proof.
  assert (Hdom : dom (ns_counters (no_traffic counters)) = counters) by apply dom_gset_to_gmap.
  destruct (steps_good (λ _, 0) t0 room ops (rconn_create t0 probe_interval max_backoff) (no_traffic counters))
    as (rc & w & acc & quiet & t & E & Hok & [Hc _] & Hd & Hsub & Heq).
  - apply rconn_create_ok; lia.
  - split; [|by intros ?? ?%not_elem_of_nil]. intros c n [_ <-]%lookup_gset_to_gmap_Some. done.
  - by rewrite Hdom.
  - cbn. unfold truthy. destruct (Z.eqb_spec max_backoff 0); cbn; lia.
  - cbn. unfold truthy. destruct (Z.eqb_spec probe_interval 0); cbn; lia.
  - done.
  - exists rc, w, acc, quiet, t. split_and!; [done..| |done|done].
    intros c Hin. rewrite <- Hdom, <- Hd in Hin. apply elem_of_dom in Hin as [n Hn]. rewrite Hn, (Hc _ _ Hn). f_equal. lia.
Qed.

(** A network that takes everything at first and fails the fifth call. *)
Definition ex_V : vconn :=
  Vconn (λ _, true) (λ _, true) (λ _, Ok) (λ k, if (k =? 4)%nat then Failed else Ok) (λ _, Ok) (λ _, inr Again).

Definition ex_msg (n : Z) : msg := Msg 10 n None [n].

(** Connected, three messages; the third is lost with the connection, which comes back. *)
Definition ex_ops : list (Z * vconn * rconn_op) :=
  (λ '(t, op), (t, ex_V, op)) <$>
    [(1, OpConnect); (2, OpRun 7); (3, OpSendLimit (ex_msg 1) 1%positive 128); (4, OpSend (ex_msg 2) None);
     (5, OpSendLimit (ex_msg 3) 1%positive 128); (7, OpRun 8); (8, OpSend (ex_msg 4) None)].

Lemma rconn_reliable_witness :
  ∃ rc w acc, rc_steps ex_ops (rconn_create 0 15 0) (no_traffic {[1%positive]}) = Some (rc, w, acc, false) ∧
    rc_state rc = S_ACTIVE ∧ m_xid <$> acc = [1; 2; 3; 4] ∧ m_xid <$> ns_wire w = [1; 2; 4] ∧
    data (ns_wire w ++ rc_txq rc) `sublist_of` data acc.
Proof.
  destruct (rconn_reliable 0 15 0 100 {[1%positive]} ex_ops) as (rc & w & acc & quiet & t & E & _ & _ & Hsub & _).
  - lia.
  - lia.
  - lia.
  - lia.
  - vm_compute; reflexivity.
  - vm_compute; intuition congruence.
  - repeat constructor; cbn; set_solver.
  - exists rc, w, acc. vm_compute in E. injection E as <- <- <- <-. split_and!; [vm_compute; reflexivity..|]. exact Hsub.
Defined.

Lemma backoff_over now rc :
  rc_ok now rc → rc_state rc = S_BACKOFF → rc_state_entered rc + rc_backoff rc <= now → timed_out now rc = true.
Proof.
  intros Hok Hs Hle. pose proof (ro_backoff _ _ Hok) as Hb. rewrite bool_decide_true in Hb by done. pose proof (ro_entered _ _ Hok).
  destruct (ro_fits _ _ Hok) as [Hf _]. unfold timed_out, timeout, sat_add. rewrite Hs. unfold UINT_MAX in *.
  assert (E1 : u32 (rc_backoff rc) = rc_backoff rc) by (apply wrap_small; unfold fits; lia).
  assert (E2 : u32 (rc_state_entered rc) = rc_state_entered rc) by (apply wrap_small; unfold fits; lia). rewrite E1, E2.
  assert (E3 : u32 (rc_state_entered rc + rc_backoff rc) = rc_state_entered rc + rc_backoff rc) by (apply wrap_small; unfold fits; lia).
  rewrite E3. destruct (Z.leb_spec (rc_state_entered rc) (rc_state_entered rc + rc_backoff rc)); [apply Z.leb_le; lia|lia].
Qed.

Lemma run_turn now V fuel xid rc w rc' w' :
  run_state now V xid rc w = Some (rc', w') →
  rconn_run now V (S fuel) xid rc w =
    if bool_decide (rc_state rc' = rc_state rc) then Some (rc', w') else rconn_run now V fuel xid rc' w'.
Proof. intros E. cbn [rconn_run]. by rewrite E. Qed.

(** The wait is doubled, up to the maximum. *)
Definition doubled (rc : rconn) : Z := Z.min (rc_max_backoff rc) (Z.max 1 (2 * rc_backoff rc)).

(** The connection [rc] was given up at [now]: it is tried again after [wait], or not at all. *)
Definition dropped (now : Z) (reliable : bool) (wait : Z) (rc' : rconn) : Prop :=
  if reliable then rc_state rc' = S_BACKOFF ∧ rc_state_entered rc' = now ∧ rc_backoff rc' = wait else rc_state rc' = S_VOID.

Lemma disconnect_waits now rc w :
  rc_txq rc = [] → rc_state rc ≠ S_VOID →
  ∃ rc', disconnect now rc w = Some (rc', w) ∧ dropped now (rc_reliable rc) (if rc_backoff_deadline rc <=? now then 1 else doubled rc) rc'.
Proof.
  intros Hq Hs. unfold disconnect, dropped. destruct (rc_reliable rc) eqn:Hr.
  2: { exists (rconn_disconnect now rc). split; [done|]. unfold rconn_disconnect. by case_bool_decide. }
  assert (E : ∃ rc1, match rc_state rc with S_CONNECTING | S_ACTIVE | S_IDLE => flush_queue (set_link rc false true) w | _ => Some (rc, w) end = Some (rc1, w) ∧
    rc_backoff_deadline rc1 = rc_backoff_deadline rc ∧ rc_max_backoff rc1 = rc_max_backoff rc ∧ rc_backoff rc1 = rc_backoff rc).
  { unfold flush_queue. cbn [rc_txq set_link]. rewrite Hq. cbn [flush_loop mbind option_bind]. destruct (rc_state rc); first [by exists rc|by exists (set_txq (set_link rc false true) [])]. }
  destruct E as (rc1 & -> & E1 & E2 & E3). cbn [mbind option_bind]. rewrite E1, E2, E3.
  set (rc2 := state_transition _ _ _). assert (Hc : same_core rc2 (if 60 <? now - rc_last_connected rc2 then question_connectivity now rc2 else rc2)).
  { destruct (60 <? _); [apply question_core|done]. }
  exists (if 60 <? now - rc_last_connected rc2 then question_connectivity now rc2 else rc2). split; [done|].
  destruct Hc as (E4 & E5 & _ & _ & _ & E6 & _). by rewrite E4, E5, E6.
Qed.

(** A turn that gives the connection up is the last but one of the run. *)
Lemma gone now V fuel xid rc w rc1 w1 :
  run_state now V xid rc w = disconnect now rc1 w1 → rc_ok now rc1 → rc_txq rc1 = [] → rc_state rc1 ≠ S_VOID →
  ∃ rc', rconn_run now V (S (S fuel)) xid rc w = Some (rc', w1) ∧
    dropped now (rc_reliable rc1) (if rc_backoff_deadline rc1 <=? now then 1 else doubled rc1) rc'.
Proof.
  intros E Hok Hq Hs. destruct (disconnect_waits now rc1 w1 Hq Hs) as (rc' & E' & Hd). exists rc'. split; [|done].
  destruct (disconnect_good now (λ c, default 0 (ns_counters w1 !! c)) rc1 w1 Hok) as (rc2 & w2 & E2 & Hg & _).
  { rewrite Hq. split; [|by intros ?? ?%not_elem_of_nil]. by intros c n ->. }
  rewrite E' in E2. injection E2 as <- <-. rewrite E' in E. rewrite (run_turn _ _ _ _ _ _ _ _ E). case_bool_decide; [done|].
  assert (Hstop : run_state now V xid rc' w1 = Some (rc', w1)).
  { unfold run_state. unfold dropped in Hd. destruct (rc_reliable rc1).
    - destruct Hd as (Hd & He & _). by rewrite Hd, (fresh_backoff now rc' (gd_ok _ _ _ _ _ _ _ Hg) Hd He).
    - by rewrite Hd. }
  by rewrite (run_turn _ _ _ _ _ _ _ _ Hstop), bool_decide_true.
Qed.

(** A run of a connection that is being made. *)
Definition connects (now : Z) (a : answer) (rc rc' : rconn) : Prop :=
  match a with
  | Ok => rc_state rc' = S_ACTIVE ∧ rc_state_entered rc' = now
  | Failed => dropped now (rc_reliable rc) (if rc_backoff_deadline rc <=? now then 1 else doubled rc) rc'
  | Again => if timed_out now rc then dropped now (rc_reliable rc) (doubled rc) rc' else rc' = rc
  end.

Lemma connecting_run now V fuel xid rc w :
  rc_ok now rc → rc_state rc = S_CONNECTING → rc_txq rc = [] →
  ∃ rc' w', rconn_run now V (S (S fuel)) xid rc w = Some (rc', w') ∧ connects now (v_connect V (ns_calls w)) rc rc'.
Proof.
  intros Hok Hs Hq. pose proof (ro_vconn _ _ Hok) as Hv. rewrite Hs in Hv. destruct (ro_fits _ _ Hok) as [Hf _].
  assert (E : run_state now V xid rc w = match v_connect V (ns_calls w) with
    | Ok => Some (set_last_connected (state_transition now (count_success rc) S_ACTIVE) now, called w)
    | Failed => disconnect now rc (called w)
    | Again => if timed_out now rc then disconnect now (set_backoff rc (rc_backoff rc) TIME_MAX) (called w) else Some (rc, called w)
    end) by (unfold run_state; by rewrite Hs, Hv).
  destruct (v_connect V (ns_calls w)); cbn [connects].
  - set (rc2 := set_last_connected _ _) in E. assert (Hok2 : rc_ok now rc2) by (by apply active_ok).
    rewrite (run_turn _ _ _ _ _ _ _ _ E), bool_decide_false by (by rewrite Hs).
    assert (E2 : run_state now V xid rc2 (called w) = Some (rc2, called w)).
    { unfold run_state. change (rc_state rc2) with S_ACTIVE. cbv iota beta. rewrite (fresh_active now rc2 Hok2 eq_refl eq_refl).
      assert (Hq2 : rc_txq rc2 = []) by done. rewrite Hq2. cbn [length do_tx_work]. by rewrite Hq2. }
    rewrite (run_turn _ _ _ _ _ _ _ _ E2), bool_decide_true by done. by eexists _, _.
  - destruct (timed_out now rc).
    + destruct (gone now V fuel xid _ _ _ _ E) as (rc' & E' & Hd); [destruct Hok; by split|done|cbn; by rewrite Hs|].
      exists rc', (called w). split; [done|]. cbn [rc_backoff_deadline set_backoff] in Hd.
      rewrite (proj2 (Z.leb_gt _ _)) in Hd by (unfold TIME_MAX, UINT_MAX in *; pose proof (ro_max _ _ Hok); lia). done.
    + rewrite (run_turn _ _ _ _ _ _ _ _ E), bool_decide_true by done. by eexists _, _.
  - destruct (gone now V fuel xid _ _ _ _ E Hok Hq) as (rc' & E' & Hd); [by rewrite Hs|]. by exists rc', (called w).
Qed.

Lemma fresh_connecting now rc : rc_ok now rc → rc_state rc = S_CONNECTING → rc_state_entered rc = now → timed_out now rc = false.
Proof.
  intros Hok Hs He. pose proof (ro_backoff _ _ Hok) as Hb. rewrite bool_decide_false in Hb by (by rewrite Hs). pose proof (ro_entered _ _ Hok).
  destruct (ro_fits _ _ Hok). pose proof (ro_max _ _ Hok). unfold timed_out, timeout. rewrite Hs, He.
  assert (E : u32 (Z.max 1 (rc_backoff rc)) = Z.max 1 (rc_backoff rc)) by (apply wrap_small; unfold fits, UINT_MAX in *; lia).
  rewrite E. apply fresh_waits; lia.
Qed.

(** C33: a lost connection comes back.  One run of a connection with an empty queue (it was emptied when the connection was lost)
    that is in back-off with its waiting time over, or that is still being made.  In back-off it tries to open a new connection.
    When that is refused at once, or the answer to the connection attempt in the same run is a refusal, it is back in
    back-off, with the wait twice as long but not longer than the maximum; when it is accepted it is active, within the same run; when there is
    no answer yet the connection is being made, with the same wait.  A connection that is being made becomes active when the answer comes; is given up
    when it is refused, or when it was not answered for as long as the last wait and at least a second, with the wait doubled up to
    the maximum (or 1 when it is refused only after its deadline); and stays as it is otherwise.  A connection
    given up that cannot be made again (a passive one) is closed instead. *)
Theorem rconn_reconnects (now : Z) (V : vconn) (rc : rconn) (w : net_state) (xid : Z)
    (Hok : rc_ok now rc) (Hq : rc_txq rc = [])
    (Hs : rc_state rc = S_BACKOFF ∧ rc_state_entered rc + rc_backoff rc <= now ∨ rc_state rc = S_CONNECTING) :
  ∃ rc' w', rconn_run now V RUN_TURNS xid rc w = Some (rc', w') ∧
    if bool_decide (rc_state rc = S_CONNECTING) then connects now (v_connect V (ns_calls w)) rc rc'
    else
      let wait := Z.min (rc_max_backoff rc) (2 * rc_backoff rc) in
      if v_open V (ns_calls w) then
        match v_connect V (S (ns_calls w)) with
        | Ok => rc_state rc' = S_ACTIVE ∧ rc_state_entered rc' = now
        | Failed => dropped now (v_reconnectable V (ns_calls w)) wait rc'
        | Again => rc_state rc' = S_CONNECTING ∧ rc_state_entered rc' = now ∧ rc_backoff rc' = rc_backoff rc
        end
      else dropped now true wait rc'.
Proof.
  unfold RUN_TURNS. destruct Hs as [[Hs Hle]|Hs]; [rewrite bool_decide_false by (by rewrite Hs)|rewrite bool_decide_true by done; by apply connecting_run].
  pose proof (ro_backoff _ _ Hok) as Hb. rewrite bool_decide_true in Hb by done. destruct (ro_fits _ _ Hok) as [Hf _].
  assert (Hrun : run_state now V xid rc w = reconnect now V rc w).
  { unfold run_state. by rewrite Hs, (backoff_over now rc Hok Hs Hle). }
  assert (Hd : doubled rc = Z.min (rc_max_backoff rc) (2 * rc_backoff rc)) by (unfold doubled; lia). cbv zeta. rewrite <- Hd.
  unfold reconnect in Hrun. destruct (v_open V (ns_calls w)).
  - set (rc1 := state_transition now _ S_CONNECTING) in Hrun.
    assert (Hok1 : rc_ok now rc1) by (apply transition_ok; cbn; try done; try apply Hok; lia).
    rewrite (run_turn _ _ _ _ _ _ _ _ Hrun), bool_decide_false by (rewrite Hs; done).
    destruct (connecting_run now V 1 xid rc1 (called w) Hok1 eq_refl Hq) as (rc' & w' & E & Hc). exists rc', w'. split; [exact E|].
    change (ns_calls (called w)) with (S (ns_calls w)) in Hc. destruct (v_connect V (S (ns_calls w))); cbn [connects] in Hc.
    + done.
    + rewrite (fresh_connecting now rc1) in Hc by done. by rewrite Hc.
    + change (rc_reliable rc1) with (rc_reliable rc && v_reconnectable V (ns_calls w)) in Hc. rewrite (ro_reliable _ _ Hok Hs) in Hc.
      change (rc_backoff_deadline rc1) with (now + rc_backoff rc) in Hc. by rewrite (proj2 (Z.leb_gt _ _)) in Hc by lia.
  - destruct (gone now V 2 xid _ _ _ _ Hrun) as (rc' & E & Hc); [destruct Hok; split; try done; cbn; by rewrite Hs|exact Hq|cbn; by rewrite Hs|].
    exists rc', (called w). split; [exact E|]. cbn [rc_reliable rc_backoff_deadline set_backoff set_link count_attempt set_info] in Hc.
    rewrite (ro_reliable _ _ Hok Hs) in Hc. by rewrite (proj2 (Z.leb_gt _ _)) in Hc by (unfold TIME_MAX, UINT_MAX in *; lia).
Qed.

(** The connection of [ex_ops] after it was lost at time 5. *)
Definition ex_lost : rconn :=
  match rc_steps (take 5 ex_ops) (rconn_create 0 15 0) (no_traffic {[1%positive]}) with
  | Some (rc, _, _, _) => rc
  | None => rconn_create 0 15 0
  end.

(** A network that makes it wait, and then refuses. *)
Definition ex_refusing : vconn :=
  Vconn (λ _, true) (λ _, true) (λ k, if (k =? 1)%nat then Again else Failed) (λ _, Failed) (λ _, Ok) (λ _, inr Again).

Definition ex_connecting : rconn * net_state :=
  match rconn_run 7 ex_refusing RUN_TURNS 8 ex_lost (no_traffic ∅) with Some x => x | None => (ex_lost, no_traffic ∅) end.

(** The connection comes back; or it is being made, and then refused. *)
Lemma rconn_reconnects_witness :
  rc_state ex_lost = S_BACKOFF ∧ rc_state ex_connecting.1 = S_CONNECTING ∧
  (∃ rc' w', rconn_run 7 ex_V RUN_TURNS 8 ex_lost (no_traffic ∅) = Some (rc', w') ∧ rc_state rc' = S_ACTIVE) ∧
  ∃ rc' w', rconn_run 7 ex_refusing RUN_TURNS 9 ex_connecting.1 ex_connecting.2 = Some (rc', w') ∧ rc_state rc' = S_BACKOFF ∧ rc_backoff rc' = 2.
Proof.
  assert (Hs : rc_state ex_lost = S_BACKOFF) by (vm_compute; reflexivity).
  assert (Hc : rc_state ex_connecting.1 = S_CONNECTING) by (vm_compute; reflexivity). split_and!; [exact Hs|exact Hc|..].
  - destruct (rconn_reconnects 7 ex_V ex_lost (no_traffic ∅) 8) as (rc' & w' & E & Hx).
    + split; vm_compute; intuition congruence.
    + vm_compute; reflexivity.
    + left. split; [exact Hs|vm_compute; discriminate].
    + exists rc', w'. split; [exact E|apply Hx].
  - destruct (rconn_reconnects 7 ex_refusing ex_connecting.1 ex_connecting.2 9) as (rc' & w' & E & Hx).
    + split; vm_compute; intuition congruence.
    + vm_compute; reflexivity.
    + right. exact Hc.
    + exists rc', w'. split; [exact E|]. vm_compute in Hx. destruct Hx as (H1 & _ & H2). split; [exact H1|exact H2].
Defined.
