(* ===== verification/RateLimit.v ===== *)
(** The rate limiter of the secure channel: secchan/ratelimit.c, with the queues of lib/queue.c.

    PACKET_IN messages that the switch sends on its own account cost 1000 tokens each.  Tokens come in with
    time; a message that finds none is queued and sent by the periodic callback.  There is an array of
    65535 queues, one for each port; an index outside of it gives [None].  Counts of tokens are unbounded: an [int]
    holds them for burst limits of up to 2147483 messages. *)

From S2P Require Import Prelude Rconn.

Definition OFPT_PACKET_IN := 10.
Definition OFPR_ACTION := 1.
Definition OFPP_MAX := 0xffffff00.
Definition N_QUEUES : nat := Z.to_nat 65535.

(** [s->rate_limit], [s->burst_limit] *)
Record settings := Settings { s_rate_limit : Z; s_burst_limit : Z }.

Record rate_limiter := RateLimiter {
  rl_queues : list (list msg);
  rl_n_queued : Z;
  rl_next_tx_port : Z;
  rl_last_fill : Z;
  rl_tokens : Z;
  rl_n_normal : Z;
  rl_n_limited : Z;
  rl_n_tx_dropped : Z }.

Definition set_queues (rl : rate_limiter) (qs : list (list msg)) (n_queued next_tx_port : Z) : rate_limiter :=
  RateLimiter qs n_queued next_tx_port (rl_last_fill rl) (rl_tokens rl) (rl_n_normal rl) (rl_n_limited rl) (rl_n_tx_dropped rl).
Definition set_tokens (rl : rate_limiter) (last_fill tokens : Z) : rate_limiter :=
  RateLimiter (rl_queues rl) (rl_n_queued rl) (rl_next_tx_port rl) last_fill tokens (rl_n_normal rl) (rl_n_limited rl) (rl_n_tx_dropped rl).
Definition count_normal (rl : rate_limiter) : rate_limiter :=
  RateLimiter (rl_queues rl) (rl_n_queued rl) (rl_next_tx_port rl) (rl_last_fill rl) (rl_tokens rl) (u64 (rl_n_normal rl + 1)) (rl_n_limited rl) (rl_n_tx_dropped rl).
Definition count_limited (rl : rate_limiter) : rate_limiter :=
  RateLimiter (rl_queues rl) (rl_n_queued rl) (rl_next_tx_port rl) (rl_last_fill rl) (rl_tokens rl) (rl_n_normal rl) (u64 (rl_n_limited rl + 1)) (rl_n_tx_dropped rl).
Definition count_tx_dropped (rl : rate_limiter) : rate_limiter :=
  RateLimiter (rl_queues rl) (rl_n_queued rl) (rl_next_tx_port rl) (rl_last_fill rl) (rl_tokens rl) (rl_n_normal rl) (rl_n_limited rl) (u64 (rl_n_tx_dropped rl + 1)).

(** [queue_push_tail], [queue_pop_head] of a queue that must not be empty. *)
Definition queue_push_tail (q : list msg) (b : msg) : list msg := q ++ [b].
Definition queue_pop_head (q : list msg) : option (list msg * msg) := match q with [] => None | b :: q => Some (q, b) end.

Section limiter.
  Context (s : settings).

(** [rand] are the answers of [random_range]: whether it gave 0.  The loop is over all ports below
    [OFPP_MAX], whatever the array has. *)
Fixpoint longest_loop (qs : list (list msg)) (i : Z) (longest : Z * nat) (rand : list bool) : option (Z * nat) :=
  if OFPP_MAX <=? i then Some longest
  else match qs with
       | [] => None
       | q :: qs =>
         if (longest.2 <? length q)%nat then longest_loop qs (i + 1) (i, length q) rand
         else if (longest.2 =? length q)%nat then
           match rand with
           | r :: rand => longest_loop qs (i + 1) (if (r : bool) then (i, length q) else longest) rand
           | [] => longest_loop qs (i + 1) longest []
           end
         else longest_loop qs (i + 1) longest rand
       end.

Definition drop_packet (rl : rate_limiter) (rand : list bool) : option rate_limiter :=
  q0 ← rl_queues rl !! 0%nat;
  '(i, _) ← longest_loop (rl_queues rl) 0 (0, length q0) rand;
  q ← rl_queues rl !! Z.to_nat i;
  '(q, _) ← queue_pop_head q;
  Some (set_queues rl (<[Z.to_nat i := q]> (rl_queues rl)) (rl_n_queued rl - 1) (rl_next_tx_port rl)).

(** The loop of [dequeue_packet] from turn [i] on; [n] turns at most, more than there are queues. *)
Fixpoint dequeue_loop (n : nat) (qs : list (list msg)) (next_tx_port i : Z) : option Z :=
  match n with
  | O => None
  | S n =>
    let port := u32 (next_tx_port + i) mod OFPP_MAX in
    q ← qs !! Z.to_nat port;
    match q with [] => dequeue_loop n qs next_tx_port (i + 1) | _ => Some port end
  end.

Definition dequeue_packet (rl : rate_limiter) : option (rate_limiter * msg) :=
  port ← dequeue_loop (S N_QUEUES) (rl_queues rl) (rl_next_tx_port rl) 0;
  q ← rl_queues rl !! Z.to_nat port;
  '(q, b) ← queue_pop_head q;
  Some (set_queues rl (<[Z.to_nat port := q]> (rl_queues rl)) (rl_n_queued rl - 1) ((port + 1) mod OFPP_MAX), b).

(** [now] is in milliseconds. *)
Definition refill_bucket (now : Z) (rl : rate_limiter) : rate_limiter :=
  let tokens := (now - rl_last_fill rl) * s_rate_limit s + rl_tokens rl in
  if 1000 <=? tokens then set_tokens rl now (Z.min tokens (s_burst_limit s * 1000)) else rl.

Definition get_token (rl : rate_limiter) : rate_limiter * bool :=
  if 1000 <=? rl_tokens rl then (set_tokens rl (rl_last_fill rl) (rl_tokens rl - 1000), true) else (rl, false).

(** [opi->reason], byte 14.  That the message is so long is not looked at; the receive buffer is longer in any case
    ([stream_recv] makes it of 1564 bytes), and holds [stale] behind a shorter message. *)
Definition packet_in_reason (b : msg) (stale : Z) : Z := default stale (m_body b !! 14%nat).

(** Whether the message is taken from the relay.  The queue is that of port 0. *)
Definition rate_limit_local_packet_cb (rl : rate_limiter) (b : msg) (rand : list bool) (stale : Z) : option (rate_limiter * bool) :=
  if negb (m_type b =? OFPT_PACKET_IN) then Some (rl, false)
  else if packet_in_reason b stale =? OFPR_ACTION then Some (rl, false)
  else
    let '(rl, token) := if rl_n_queued rl =? 0 then get_token rl else (rl, false) in
    if (token : bool) then Some (count_normal rl, false)
    else
      rl ← (if s_burst_limit s <=? rl_n_queued rl then drop_packet rl rand else Some rl);
      q ← rl_queues rl !! 0%nat;
      Some (count_limited (set_queues rl (<[0%nat := queue_push_tail q b]> (rl_queues rl)) (rl_n_queued rl + 1) (rl_next_tx_port rl)), true).

Section drain.
  Context (now_s : Z) (V : vconn) (n_txq : positive).

(** The loop of the periodic callback.  Its condition takes the token before it looks at the number of turns. *)
Fixpoint drain_loop (n : nat) (rl : rate_limiter) (rc : rconn) (w : net_state) : option (rate_limiter * rconn * net_state) :=
  if rl_n_queued rl =? 0 then Some (rl, rc, w)
  else
    let '(rl, token) := get_token rl in
    if negb token then Some (rl, rc, w)
    else match n with
         | O => Some (rl, rc, w)
         | S n =>
           '(rl, b) ← dequeue_packet rl;
           '(rc, w, retval) ← rconn_send_with_limit now_s V rc w b n_txq 10;
           drain_loop n (if negb (retval =? 0) then count_tx_dropped rl else rl) rc w
         end.

Definition rate_limit_periodic_cb (now : Z) (rl : rate_limiter) (rc : rconn) (w : net_state) : option (rate_limiter * rconn * net_state) :=
  drain_loop 50 (refill_bucket now rl) rc w.
End drain.

Definition rate_limit_start (now : Z) : rate_limiter :=
  RateLimiter (replicate N_QUEUES []) 0 0 now (s_rate_limit s * 100) 0 0 0.
End limiter.
