(* ===== verification/RateLimitCorrect.v ===== *)
(** Theorems about RateLimit.v: the rate that gets through, and when the code leaves its array of queues. *)

From S2P Require Import Prelude Rconn RconnCorrect RateLimit.

(** The settings [parse_options] leaves. *)
Definition settings_ok (s : settings) : Prop := 1 <= s_rate_limit s ∧ 1 <= s_burst_limit s.

(** All messages are in the queue of port 0, [q]; [taken] tokens of 1000 were taken since [t0]. *)
Record rl_ok (s : settings) (t0 taken : Z) (q : list msg) (rl : rate_limiter) : Prop := {
  rl_one : rl_queues rl = q :: replicate (pred N_QUEUES) [];
  rl_count : rl_n_queued rl = Z.of_nat (length q);
  rl_next : rl_next_tx_port rl = 0 ∨ rl_next_tx_port rl = 1;
  rl_since : t0 <= rl_last_fill rl;
  rl_bucket : 0 <= rl_tokens rl;
  rl_spent : rl_tokens rl + 1000 * taken <= s_rate_limit s * 100 + s_rate_limit s * (rl_last_fill rl - t0) }.

(** * The queues *)

Lemma queues_length : S (pred N_QUEUES) = N_QUEUES.
Proof. done. Qed.

(** The search for the longest queue leaves the array. *)
Lemma longest_outside qs i l rand : 0 <= i → i + Z.of_nat (length qs) < OFPP_MAX → longest_loop qs i l rand = None.
Proof.
  revert i l rand. induction qs as [|q qs IH]; intros i l rand Hi Hlen; cbn [longest_loop length] in *.
  - by rewrite (proj2 (Z.leb_gt _ _)) by lia.
  - rewrite (proj2 (Z.leb_gt _ _)) by lia. repeat case_match; apply IH; lia.
Qed.

Lemma drop_undefined rl rand : length (rl_queues rl) = N_QUEUES → drop_packet rl rand = None.
Proof.
  intros Hl. unfold drop_packet. destruct (rl_queues rl !! 0%nat) as [q0|]; [cbn [mbind option_bind]|done].
  rewrite longest_outside; [done|lia|]. rewrite Hl. unfold N_QUEUES, OFPP_MAX. lia.
Qed.

(** From port 1 on there are only empty queues, and then the end of the array. *)
Lemma scan_outside n q i : 0 <= i < 65535 → dequeue_loop n (q :: replicate (pred N_QUEUES) []) 1 i = None.
Proof.
  revert i. induction n as [|n IH]; intros i Hi; [done|]. cbn [dequeue_loop].
  assert (Ep : u32 (1 + i) mod OFPP_MAX = 1 + i).
  { unfold u32. rewrite wrap_small by (unfold fits; lia). apply Z.mod_small. unfold OFPP_MAX. lia. }
  rewrite Ep. replace (Z.to_nat (1 + i)) with (S (Z.to_nat i)) by lia. rewrite lookup_cons_S || change ((q :: replicate (pred N_QUEUES) []) !! S (Z.to_nat i)) with (replicate (pred N_QUEUES) ([] : list msg) !! Z.to_nat i).
  destruct (decide (i = 65534)) as [->|Hne].
  - rewrite lookup_ge_None_2; [done|]. rewrite length_replicate. unfold N_QUEUES. lia.
  - rewrite lookup_replicate_2 by (unfold N_QUEUES; lia). cbn [mbind option_bind]. apply IH. lia.
Qed.

Lemma scan_first n b q rest : dequeue_loop (S n) ((b :: q) :: rest) 0 0 = Some 0.
Proof. done. Qed.
Lemma lookup_first (q : list msg) rest : (q :: rest) !! Z.to_nat 0 = Some q.
Proof. done. Qed.
Lemma insert_first (q q' : list msg) rest : <[Z.to_nat 0 := q']> (q :: rest) = q' :: rest.
Proof. done. Qed.

#[local] Opaque N_QUEUES.

Section ok.
  Context (s : settings) (t0 : Z).

Lemma set_queues_ok taken q rl qs n next :
  qs = q :: replicate (pred N_QUEUES) [] → n = Z.of_nat (length q) → next = 0 ∨ next = 1 → t0 <= rl_last_fill rl → 0 <= rl_tokens rl →
  rl_tokens rl + 1000 * taken <= s_rate_limit s * 100 + s_rate_limit s * (rl_last_fill rl - t0) →
  rl_ok s t0 taken q (set_queues rl qs n next).
Proof using. by split. Qed.

Lemma dequeue_first taken b q rl :
  rl_ok s t0 taken (b :: q) rl → rl_next_tx_port rl = 0 →
  ∃ rl', dequeue_packet rl = Some (rl', b) ∧ rl_ok s t0 taken q rl' ∧ rl_next_tx_port rl' = 1 ∧
    rl_tokens rl' = rl_tokens rl ∧ rl_last_fill rl' = rl_last_fill rl.
Proof using.
  intros H Hn. unfold dequeue_packet. rewrite (rl_one _ _ _ _ _ H), Hn, scan_first. cbn [mbind option_bind].
  rewrite (lookup_first (b :: q)). cbn [mbind option_bind queue_pop_head].
  eexists; split; [done|]. split_and!; [|done..]. pose proof (rl_count _ _ _ _ _ H) as Hc. cbn [length] in Hc.
  destruct H as [_ _ _ H1 H2 H3]. apply set_queues_ok; [|lia|by right|done..]. apply insert_first.
Qed.

Lemma dequeue_second taken q rl : rl_ok s t0 taken q rl → rl_next_tx_port rl = 1 → dequeue_packet rl = None.
Proof using. intros H Hn. unfold dequeue_packet. rewrite (rl_one _ _ _ _ _ H), Hn, scan_outside by lia. done. Qed.

Lemma token_taken taken q rl :
  rl_ok s t0 taken q rl → 1000 <= rl_tokens rl → get_token rl = (set_tokens rl (rl_last_fill rl) (rl_tokens rl - 1000), true) ∧
  rl_ok s t0 (taken + 1) q (set_tokens rl (rl_last_fill rl) (rl_tokens rl - 1000)).
Proof using. intros [] Ht. unfold get_token. rewrite (proj2 (Z.leb_le _ _)) by done. split; [done|]. split; cbn; [done..|lia|lia]. Qed.

Lemma token_missing rl : rl_tokens rl < 1000 → get_token rl = (rl, false).
Proof using. intros Ht. unfold get_token. by rewrite (proj2 (Z.leb_gt _ _)). Qed.

Lemma refill_ok taken q rl now :
  settings_ok s → rl_ok s t0 taken q rl → rl_last_fill rl <= now →
  rl_ok s t0 taken q (refill_bucket s now rl) ∧ rl_next_tx_port (refill_bucket s now rl) = rl_next_tx_port rl ∧ rl_last_fill (refill_bucket s now rl) <= now.
Proof using.
  intros [Hr Hb] H Hn. unfold refill_bucket. destruct (Z.leb_spec 1000 ((now - rl_last_fill rl) * s_rate_limit s + rl_tokens rl)); [|done].
  split_and!; [|done|cbn; lia]. destruct H; split; cbn; [done..|lia|lia|nia].
Qed.

Lemma limited_ok taken q rl : rl_ok s t0 taken q rl → rl_ok s t0 taken q (count_limited rl).
Proof using. intros []. by split. Qed.

(** Putting a message into the queue. *)
Lemma push_ok taken q rl b :
  rl_ok s t0 taken q rl →
  rl_ok s t0 taken (q ++ [b]) (count_limited (set_queues rl (<[0%nat := queue_push_tail q b]> (rl_queues rl)) (rl_n_queued rl + 1) (rl_next_tx_port rl))).
Proof using.
  intros []. apply limited_ok, set_queues_ok; [|rewrite length_app, rl_count0; cbn; lia|done..]. rewrite rl_one0. apply insert_first.
Qed.
End ok.

(** * Draining *)

Section drain.
  Context (s : settings) (t0 now_s : Z) (V : vconn) (others : positive → Z) (n_txq : positive).

(** A connection in order, with the counter of the limiter. *)
Definition conn_ok (rc : rconn) (w : net_state) : Prop :=
  rc_ok now_s rc ∧ balanced others (rc_txq rc) w ∧ is_Some (ns_counters w !! n_txq).

Lemma send_conn rc w b limit :
  conn_ok rc w → ∃ rc' w' r, rconn_send_with_limit now_s V rc w b n_txq limit = Some (rc', w', r) ∧ conn_ok rc' w'.
Proof using.
  intros (Hok & Hb & [n Hn]). unfold rconn_send_with_limit. rewrite Hn; cbn [mbind option_bind].
  destruct (limit <=? n); [eexists _, _, _; split; [done|]; by split_and!|].
  destruct (send_good now_s V others rc w b (Some n_txq) Hok Hb) as (rc' & w' & r & -> & _ & H); [intros d [= <-]; by eexists|].
  eexists _, _, _; split; [done|]. destruct (rconn_is_connected rc); [|destruct H as (_ & -> & ->); split_and!; [done..|by eexists]].
  destruct H as [_ Hg]. split_and!; [apply Hg|apply Hg|].
  apply elem_of_dom. rewrite (gd_dom _ _ _ _ _ _ _ Hg). by apply elem_of_dom_2 in Hn.
Qed.

Lemma drain_idle n rl rc w :
  rl_n_queued rl = 0 ∨ rl_tokens rl < 1000 → drain_loop now_s V n_txq n rl rc w = Some (rl, rc, w).
Proof using.
  intros H. destruct n; cbn [drain_loop].
  all: destruct (rl_n_queued rl =? 0) eqn:E; [done|]; rewrite token_missing by lia; done.
Qed.

Lemma dropped_ok taken q rl (r : Z) : rl_ok s t0 taken q rl → rl_ok s t0 taken q (if negb (r =? 0) then count_tx_dropped rl else rl) ∧
  rl_next_tx_port (if negb (r =? 0) then count_tx_dropped rl else rl) = rl_next_tx_port rl ∧
  rl_tokens (if negb (r =? 0) then count_tx_dropped rl else rl) = rl_tokens rl ∧
  rl_last_fill (if negb (r =? 0) then count_tx_dropped rl else rl) = rl_last_fill rl.
Proof using. intros []. destruct (negb _); by repeat split. Qed.

(** Once a message was taken from the queue, the next leaves the array. *)
Lemma drain_second n taken q rl rc w :
  rl_ok s t0 taken q rl → rl_next_tx_port rl = 1 →
  drain_loop now_s V n_txq (S n) rl rc w = if (rl_n_queued rl =? 0) || (rl_tokens rl <? 1000) then Some (rl, rc, w) else None.
Proof using.
  intros H Hn. destruct ((rl_n_queued rl =? 0) || (rl_tokens rl <? 1000)) eqn:E; [apply drain_idle; lia|]. cbn [drain_loop].
  rewrite (proj2 (Z.eqb_neq (rl_n_queued rl) 0)) by lia. destruct (token_taken s t0 taken q rl H ltac:(lia)) as [-> H']. cbn [negb].
  by rewrite (dequeue_second s t0 _ _ _ H') by done.
Qed.

Lemma drain_first n taken b q rl rc w :
  rl_ok s t0 taken (b :: q) rl → rl_next_tx_port rl = 0 → 1000 <= rl_tokens rl → conn_ok rc w →
  ∃ rl' rc' w', drain_loop now_s V n_txq (S (S n)) rl rc w = (if bool_decide (q ≠ []) && (2000 <=? rl_tokens rl) then None else Some (rl', rc', w')) ∧
    rl_ok s t0 (taken + 1) q rl' ∧ conn_ok rc' w' ∧ rl_last_fill rl' = rl_last_fill rl.
Proof using.
  intros H Hn Ht Hc. remember (S n) as m. cbn [drain_loop].
  replace (rl_n_queued rl =? 0) with false by (symmetry; apply Z.eqb_neq; rewrite (rl_count _ _ _ _ _ H); cbn [length]; lia).
  destruct (token_taken s t0 taken _ rl H Ht) as [-> H']. cbn [negb].
  destruct (dequeue_first s t0 _ b q _ H' Hn) as (rl1 & -> & H1 & Hn1 & Ht1 & Hl1). cbn [mbind option_bind].
  destruct (send_conn rc w b 10 Hc) as (rc' & w' & r & -> & Hc'). cbn [mbind option_bind].
  destruct (dropped_ok _ _ rl1 r H1) as (H2 & Hn2 & Ht2 & Hl2). set (rl2 := if negb (r =? 0) then _ else _) in *.
  exists rl2, rc', w'. rewrite Heqm, (drain_second n (taken + 1) q rl2) by congruence.
  rewrite (rl_count _ _ _ _ _ H2), Ht2, Ht1. cbn [set_tokens rl_tokens].
  split; [|split; [done|split; [done|]]].
  - destruct q; [rewrite bool_decide_false by auto; done|]. rewrite bool_decide_true by done. cbn [length].
    rewrite (proj2 (Z.eqb_neq _ 0)) by lia. cbn [orb andb]. destruct (Z.ltb_spec (rl_tokens rl - 1000) 1000), (Z.leb_spec 2000 (rl_tokens rl)); done || lia.
  - by rewrite Hl2, Hl1.
Qed.
End drain.

(** * Sequences of callbacks *)

Inductive rl_op :=
  | OpPacket (b : msg) (rand : list bool) (stale : Z)
  | OpPeriodic (now_s now : Z) (V : vconn).

(** A message the limiter is for. *)
Definition limited (b : msg) (stale : Z) : bool := (m_type b =? OFPT_PACKET_IN) && negb (packet_in_reason b stale =? OFPR_ACTION).

(** The new state, and how many messages got through. *)
Definition rl_step (s : settings) (n_txq : positive) (op : rl_op) (x : rate_limiter * rconn * net_state) :
    option (rate_limiter * rconn * net_state * Z) :=
  let '(rl, rc, w) := x in
  match op with
  | OpPacket b rand stale =>
    '(rl, took) ← rate_limit_local_packet_cb s rl b rand stale;
    Some (rl, rc, w, if limited b stale && negb took then 1 else 0)
  | OpPeriodic now_s now V =>
    '(rl', rc, w) ← rate_limit_periodic_cb s now_s V n_txq now rl rc w;
    Some (rl', rc, w, rl_n_queued rl - rl_n_queued rl')
  end.

Fixpoint rl_run (s : settings) (n_txq : positive) (ops : list rl_op) (x : rate_limiter * rconn * net_state) :
    option (rate_limiter * rconn * net_state * Z) :=
  match ops with
  | [] => Some (x, 0)
  | op :: ops => '(x, k) ← rl_step s n_txq op x; '(x, k') ← rl_run s n_txq ops x; Some (x, k + k')
  end.

(** The periodic callbacks come at times that go up from [t] to [T]. *)
Fixpoint ticks_ok (t : Z) (ops : list rl_op) (T : Z) : Prop :=
  match ops with
  | [] => t <= T
  | OpPacket _ _ _ :: ops => ticks_ok t ops T
  | OpPeriodic _ now _ :: ops => t <= now ∧ ticks_ok now ops T
  end.

Section runs.
  Context (s : settings) (t0 : Z) (n_txq : positive) (Hs : settings_ok s).

(** [passed] messages got through since the start, and the queue is not too long. *)
Definition within (t passed : Z) (rl : rate_limiter) : Prop :=
  ∃ taken q, rl_ok s t0 taken q rl ∧ passed <= taken ∧ Z.of_nat (length q) <= s_burst_limit s ∧ rl_last_fill rl <= t.

Lemma drain_keeps now_s V n taken q rl rc w rl' rc' w' :
  rl_ok s t0 taken q rl → drain_loop now_s V n_txq n rl rc w = Some (rl', rc', w') →
  ∃ taken' q', rl_ok s t0 taken' q' rl' ∧ Z.of_nat (length q) - Z.of_nat (length q') <= taken' - taken ∧
    (length q' <= length q)%nat ∧ rl_last_fill rl' = rl_last_fill rl.
Proof using.
  revert taken q rl rc w. induction n as [|n IH]; intros taken q rl rc w H; cbn [drain_loop].
  all: destruct (rl_n_queued rl =? 0) eqn:E; [intros [= <- <- <-]; exists taken, q; split_and!; [done|lia|lia|done]|].
  all: destruct (Z.leb_spec 1000 (rl_tokens rl)) as [Ht|Ht]; [destruct (token_taken s t0 taken q rl H Ht) as [-> H']|rewrite token_missing by lia].
  all: cbn [negb].
  - intros [= <- <- <-]. exists (taken + 1), q. split_and!; [done|lia|lia|done].
  - intros [= <- <- <-]. exists taken, q. split_and!; [done|lia|lia|done].
  - destruct (rl_next _ _ _ _ _ H') as [Hn|Hn]; [|by rewrite (dequeue_second s t0 _ _ _ H' Hn)].
    destruct q as [|b q]; [rewrite (rl_count _ _ _ _ _ H) in E; discriminate E|].
    destruct (dequeue_first s t0 _ b q _ H' Hn) as (rl1 & -> & H1 & _ & _ & Hl1). cbn [mbind option_bind].
    destruct (rconn_send_with_limit _ _ _ _ _ _ _) as [[[rc1 w1] r]|]; [cbn [mbind option_bind]|done].
    destruct (dropped_ok s t0 _ _ rl1 r H1) as (H2 & _ & _ & Hl2). intros Ed.
    destruct (IH _ _ _ _ _ H2 Ed) as (taken' & q' & H3 & Hk & Hle & Hl3). exists taken', q'.
    cbn [length]. split_and!; [done|lia|lia|]. by rewrite Hl3, Hl2, Hl1.
  - intros [= <- <- <-]. exists taken, q. split_and!; [done|lia|lia|done].
Qed.

Lemma packet_cases taken q rl b rand stale :
  rl_ok s t0 taken q rl →
  rate_limit_local_packet_cb s rl b rand stale =
    (if negb (m_type b =? OFPT_PACKET_IN) then Some (rl, false)
     else if packet_in_reason b stale =? OFPR_ACTION then Some (rl, false)
     else if (rl_n_queued rl =? 0) && (1000 <=? rl_tokens rl) then
       Some (count_normal (set_tokens rl (rl_last_fill rl) (rl_tokens rl - 1000)), false)
     else if s_burst_limit s <=? rl_n_queued rl then None
     else Some (count_limited (set_queues rl (<[0%nat := queue_push_tail q b]> (rl_queues rl)) (rl_n_queued rl + 1) (rl_next_tx_port rl)), true)).
Proof using.
  intros H. unfold rate_limit_local_packet_cb. destruct (negb _); [done|].
  destruct (_ =? OFPR_ACTION); [done|]. assert (Hl : length (rl_queues rl) = N_QUEUES).
  { rewrite (rl_one _ _ _ _ _ H). cbn [length]. rewrite length_replicate. apply queues_length. }
  assert (Hq : rl_queues rl !! 0%nat = Some q) by (by rewrite (rl_one _ _ _ _ _ H)).
  destruct (rl_n_queued rl =? 0); cbn [andb]; [destruct (Z.leb_spec 1000 (rl_tokens rl)) as [Ht|Ht]|].
  - destruct (token_taken s t0 taken q rl H Ht) as [-> _]. done.
  - rewrite token_missing by lia. destruct (_ <=? _); [by rewrite drop_undefined|]. cbn [mbind option_bind]. by rewrite Hq.
  - destruct (_ <=? _); [by rewrite drop_undefined|]. cbn [mbind option_bind]. by rewrite Hq.
Qed.

Lemma step_within t passed op rl rc w x' k :
  within t passed rl → rl_step s n_txq op (rl, rc, w) = Some (x', k) → match op with OpPeriodic _ now _ => t <= now | _ => True end →
  within (match op with OpPeriodic _ now _ => now | _ => t end) (passed + k) x'.1.1.
Proof using Hs.
  intros (taken & q & H & Hp & Hb & Hf). destruct op as [b rand stale|now_s now V]; cbn [rl_step].
  - rewrite (packet_cases taken q) by done. unfold limited. intros E _. revert E.
    destruct (m_type b =? OFPT_PACKET_IN); cbn [negb andb mbind option_bind]; [|intros [= <- <-]; exists taken, q; rewrite Z.add_0_r; done].
    destruct (_ =? OFPR_ACTION); cbn [negb andb mbind option_bind]; [intros [= <- <-]; exists taken, q; rewrite Z.add_0_r; done|].
    destruct (_ && _) eqn:Et; cbn [mbind option_bind].
    + intros [= <- <-]. destruct (token_taken s t0 taken q rl H ltac:(lia)) as [_ H']. exists (taken + 1), q.
      split_and!; [destruct H'; by split|lia|done|done].
    + destruct (Z.leb_spec (s_burst_limit s) (rl_n_queued rl)); [done|]. intros [= <- <-]. exists taken, (q ++ [b]). rewrite Z.add_0_r.
      split_and!; [by apply push_ok|done| |done]. rewrite length_app. rewrite (rl_count _ _ _ _ _ H) in *. cbn. lia.
  - unfold rate_limit_periodic_cb. intros E Hn. destruct (refill_ok s t0 taken q rl now Hs H ltac:(lia)) as (H1 & _ & Hl1).
    destruct (drain_loop _ _ _ _ _ _ _) as [[[rl' rc'] w']|] eqn:Ed; [|done]. cbn [mbind option_bind] in E. injection E as <- <-.
    destruct (drain_keeps _ _ _ _ _ _ _ _ _ _ _ H1 Ed) as (taken' & q' & H' & Hk & Hle & Hl'). exists taken', q'. cbn [fst].
    rewrite (rl_count _ _ _ _ _ H), (rl_count _ _ _ _ _ H'). split_and!; [done|lia|lia|lia].
Qed.

Lemma run_within t T passed ops x x' k :
  within t passed x.1.1 → ticks_ok t ops T → rl_run s n_txq ops x = Some (x', k) → within T (passed + k) x'.1.1.
Proof using Hs.
  revert t passed x k. induction ops as [|op ops IH]; intros t passed [[rl rc] w] k Hw Ht; cbn [rl_run].
  { intros [= <- <-]. rewrite Z.add_0_r. destruct Hw as (taken & q & ? & ? & ? & ?). cbn in Ht. exists taken, q. split_and!; [done..|cbn in *; lia]. }
  destruct (rl_step _ _ _ _) as [[x1 k1]|] eqn:E1; [cbn [mbind option_bind]|done].
  destruct (rl_run s n_txq ops x1) as [[x2 k2]|] eqn:E2; [cbn [mbind option_bind]|done]. intros [= <- <-]. rewrite Z.add_assoc.
  assert (H1 : within (match op with OpPeriodic _ now _ => now | _ => t end) (passed + k1) x1.1.1).
  { eapply step_within; [exact Hw|exact E1|]. destruct op; [done|apply Ht]. }
  eapply IH; [exact H1| |exact E2]. destruct op; [exact Ht|apply Ht].
Qed.

Lemma start_ok : rl_ok s t0 0 [] (rate_limit_start s t0).
Proof using Hs.
  destruct Hs as [Hr Hb]. split; cbn [rate_limit_start rl_queues rl_n_queued rl_next_tx_port rl_last_fill rl_tokens]; [|done|by left|lia|lia|lia].
  by rewrite <- queues_length.
Qed.

Lemma start_within : within t0 0 (rate_limit_start s t0).
Proof using Hs. destruct Hs as [Hr Hb]. exists 0, []. split_and!; [apply start_ok|lia|cbn; lia|cbn; lia]. Qed.
End runs.

(** * Theorems *)

(** The rate that gets through.  From the start at [t0], for any messages and any periodic callbacks at times up to [T]
    whatever the controller connection does, as long as the code stays in its array: at most a tenth of a second's worth of
    messages and the rate times the time that has passed get through, and never more than the burst are queued. *)
Theorem rate_limit_conformance (s : settings) (n_txq : positive) (t0 T : Z) (ops : list rl_op) (rc rc' : rconn) (w w' : net_state)
    (rl' : rate_limiter) (passed : Z) (Hs : settings_ok s) (Ht : ticks_ok t0 ops T)
    (E : rl_run s n_txq ops (rate_limit_start s t0, rc, w) = Some (rl', rc', w', passed)) :
  1000 * passed <= s_rate_limit s * 100 + s_rate_limit s * (T - t0) ∧ 0 <= rl_n_queued rl' <= s_burst_limit s.
Proof.
  destruct (run_within s t0 n_txq Hs t0 T 0 ops (rate_limit_start s t0, rc, w) _ _ (start_within s t0 Hs) Ht E) as (taken & q & H & Hp & Hb & Hf).
  rewrite Z.add_0_l in Hp. cbn [fst] in *. rewrite (rl_count _ _ _ _ _ H). pose proof (rl_spent _ _ _ _ _ H). pose proof (rl_bucket _ _ _ _ _ H).
  destruct Hs as [Hr _]. split; [nia|lia].
Qed.

(** The number of messages in the queue and of tokens with which draining goes on after the first message. *)
Definition leaves (s : settings) (now : Z) (rl : rate_limiter) : Prop :=
  2 - rl_next_tx_port rl <= rl_n_queued rl ∧ 1000 * (2 - rl_next_tx_port rl) <= rl_tokens (refill_bucket s now rl).

(** C36: when the rate limiter leaves its array.  [OFPP_MAX] is 0xffffff00, and there are 65535 queues, of which only the first is used:
    the limiter is in a state it gets to from its start with all messages in the queue of port 0 ([rl_ok]), its settings are
    positive, the clock does not go back, and the connection to the controller is in order and has the limiter's counter.
    The periodic callback then reads outside of the array exactly if it is to send a second
    message: the first sends the round robin on to port 1, from where only empty queues follow.  The callback for a message
    does so exactly for PACKET_INs whose reason is not OFPR_ACTION that come when the queue is full, because
    the search for the longest queue goes over all 4294967040 ports; the reason of a PACKET_IN that is too short to have one is
    what the receive buffer holds there.  In all other cases both return. *)
Theorem rate_limiter_leaves (s : settings) (t0 now_s now taken : Z) (V : vconn) (others : positive → Z) (n_txq : positive)
    (q : list msg) (rl : rate_limiter) (rc : rconn) (w : net_state) (b : msg) (rand : list bool) (stale : Z)
    (Hs : settings_ok s) (H : rl_ok s t0 taken q rl) (Hn : rl_last_fill rl <= now) (Hc : conn_ok now_s others n_txq rc w) :
  (rate_limit_periodic_cb s now_s V n_txq now rl rc w = None ↔ leaves s now rl) ∧
  (rate_limit_local_packet_cb s rl b rand stale = None ↔
     m_type b = OFPT_PACKET_IN ∧ packet_in_reason b stale ≠ OFPR_ACTION ∧ s_burst_limit s <= rl_n_queued rl).
Proof.
  split.
  - destruct (refill_ok s t0 taken q rl now Hs H Hn) as (H1 & Hnx & _). unfold rate_limit_periodic_cb, leaves. set (rl1 := refill_bucket s now rl) in *.
    rewrite <- Hnx. replace (rl_n_queued rl) with (rl_n_queued rl1) by (by rewrite (rl_count _ _ _ _ _ H), (rl_count _ _ _ _ _ H1)). clearbody rl1.
    destruct (rl_next _ _ _ _ _ H1) as [E|E]; rewrite E.
    + destruct (decide (rl_n_queued rl1 = 0 ∨ rl_tokens rl1 < 1000)) as [Hi|Hi]; [rewrite drain_idle by done; split; [done|lia]|].
      destruct q as [|b0 q]; [by rewrite (rl_count _ _ _ _ _ H1) in Hi; destruct Hi; left|].
      destruct (drain_first s t0 now_s V others n_txq 48 taken b0 q rl1 rc w H1 E ltac:(lia) Hc) as (rl' & rc' & w' & -> & _).
      rewrite (rl_count _ _ _ _ _ H1). cbn [length]. destruct q; [rewrite bool_decide_false by auto; cbn; split; [done|lia]|].
      rewrite bool_decide_true by done. cbn [andb length]. destruct (Z.leb_spec 2000 (rl_tokens rl1)); split; done || lia.
    + rewrite (drain_second s t0 now_s V n_txq 49 taken q) by done. destruct ((rl_n_queued rl1 =? 0) || (rl_tokens rl1 <? 1000)) eqn:Eb; [split; [done|lia]|].
      pose proof (rl_count _ _ _ _ _ H1). split; [lia|done].
  - rewrite (packet_cases s t0 taken q) by done. destruct (Z.eqb_spec (m_type b) OFPT_PACKET_IN) as [Em|Em]; cbn [negb]; [|split; [done|by intros [? _]]].
    destruct Hs as [_ Hb]. destruct (Z.eqb_spec (packet_in_reason b stale) OFPR_ACTION) as [Hr|Hr]; [split; [done|by intros (_ & ? & _)]|].
    destruct (Z.leb_spec (s_burst_limit s) (rl_n_queued rl)) as [Hq|Hq].
    + replace (rl_n_queued rl =? 0) with false by lia. by cbn [andb].
    + split; [by case_match|]. intros (_ & _ & ?). lia.
Qed.

(** * Examples *)

Definition ex_settings : settings := Settings 10 1.
Definition ex_in (reason : Z) : msg := Msg OFPT_PACKET_IN 1 None (replicate 14 0 ++ [reason; 0]).

Definition ex_callbacks : list rl_op := [OpPacket (ex_in 0) [] 0; OpPacket (ex_in 0) [] 0; OpPeriodic 1 200 ex_V].
Definition ex_started : rate_limiter * rconn * net_state := (rate_limit_start ex_settings 0, rconn_create 0 15 0, no_traffic {[1%positive]}).

Lemma ex_passed : snd <$> rl_run ex_settings 1%positive ex_callbacks ex_started = Some 2.
Proof. vm_compute. reflexivity. Qed.

(** One message passes, the next is queued; when it is sent the limiter has let two through. *)
Lemma rate_limit_conformance_witness :
  ∃ rl' rc' w', rl_run ex_settings 1%positive ex_callbacks ex_started = Some (rl', rc', w', 2) ∧
    1000 * 2 <= 10 * 100 + 10 * (200 - 0) ∧ 0 <= rl_n_queued rl' <= 1.
Proof.
  pose proof ex_passed as Hk. destruct (rl_run ex_settings 1%positive ex_callbacks ex_started) as [[[[rl' rc'] w'] k]|] eqn:E; [|discriminate Hk].
  injection Hk as ->. exists rl', rc', w'. split; [reflexivity|].
  exact (rate_limit_conformance ex_settings 1%positive 0 200 ex_callbacks _ _ _ _ rl' 2 ltac:(split; vm_compute; discriminate) ltac:(cbn; lia) E).
Defined.

Lemma ex_limiter : rl_ok ex_settings 0 1 [ex_in 0] (RateLimiter ([ex_in 0] :: replicate (pred N_QUEUES) []) 1 1 1000 0 0 0 0).
Proof. split; cbn [rl_queues rl_n_queued rl_next_tx_port rl_last_fill rl_tokens]; [done|done|by right|lia|lia|vm_compute; discriminate]. Qed.

(** A message was sent before: the next one stops the program. *)
Lemma rate_limiter_leaves_witness :
  rate_limit_periodic_cb ex_settings 1 ex_V 1%positive 1200 (RateLimiter ([ex_in 0] :: replicate (pred N_QUEUES) []) 1 1 1000 0 0 0 0)
    (rconn_create 0 15 0) (no_traffic {[1%positive]}) = None.
Proof.
  refine (proj2 (proj1 (rate_limiter_leaves ex_settings 0 1 1200 1 ex_V (λ _, 0) 1%positive [ex_in 0]
    _ (rconn_create 0 15 0) (no_traffic {[1%positive]}) (ex_in 0) [] 0 _ ex_limiter _ _)) _).
  - split; vm_compute; discriminate.
  - cbn. lia.
  - split_and!.
    + apply (rc_ok_later 0); [apply rconn_create_ok; vm_compute; intuition congruence|lia|vm_compute; reflexivity..].
    + split; [|by intros ?? ?%not_elem_of_nil]. intros c n [_ <-]%lookup_gset_to_gmap_Some. done.
    + apply lookup_gset_to_gmap_Some || (exists 0; apply lookup_gset_to_gmap_Some; split; [set_solver|done]).
  - split; vm_compute; discriminate.
Defined.
