(* ===== verification/Controllers.v ===== *)
(** The connections to the controllers: udatapath/datapath.c (the remotes, roles,
    generation ids, asynchronous configuration, sending).

    A remote is a controller with a main connection and perhaps an auxiliary one, over
    Rconn.v.  Remotes are named by the pointer to their structure, which also names their
    counter [n_txq].  Messages are byte sequences, as they are sent.  [None] is undefined
    behaviour: a pointer that is not valid, or memory that is freed twice. *)

From S2P Require Import Prelude Memory OpenFlow Rconn RconnCorrect.

Definition OFPCR_ROLE_NOCHANGE := 0.
Definition OFPCR_ROLE_EQUAL := 1.
Definition OFPCR_ROLE_MASTER := 2.
Definition OFPCR_ROLE_SLAVE := 3.
Definition MAIN_CONNECTION := 0.
Definition PTIN_CONNECTION := 1.
Definition TXQ_LIMIT := 128.
Definition OFPT_PACKET_IN := 10.
Definition OFPT_FLOW_REMOVED := 11.
Definition OFPT_PORT_STATUS := 12.

(** The masks for masters and equals, and for slaves. *)
Record ofl_async_config := AsyncConfig {
  packet_in_mask : Z * Z;
  port_status_mask : Z * Z;
  flow_removed_mask : Z * Z }.

#[global] Instance async_config_eq : EqDecision ofl_async_config.
Proof. solve_decision. Defined.

Record remote := Remote {
  r_rconn : rconn;
  r_rconn_aux : option rconn;
  r_role : Z;
  r_config : ofl_async_config }.

(** [c_order] is the list of remotes, [c_remotes] their structures. *)
Record ctl := Ctl {
  c_order : list positive;
  c_remotes : gmap positive remote;
  c_generation_id : Z;
  c_net : net_state }.

Definition set_remote (c : ctl) (id : positive) (r : remote) : ctl :=
  Ctl (c_order c) (<[id := r]> (c_remotes c)) (c_generation_id c) (c_net c).
Definition set_role (c : ctl) (id : positive) (role : Z) : ctl :=
  Ctl (c_order c) (alter (λ r, Remote (r_rconn r) (r_rconn_aux r) role (r_config r)) id (c_remotes c))
    (c_generation_id c) (c_net c).
Definition set_generation (c : ctl) (g : Z) : ctl := Ctl (c_order c) (c_remotes c) g (c_net c).

(** [memset] with the bytes 0x7 and 0x1f. *)
Definition default_config : ofl_async_config :=
  AsyncConfig (0x07070707, 0x07070707) (0x07070707, 0x07070707) (0x1f1f1f1f, 0x1f1f1f1f).

(** [dp_new]: the generation id is -1, in 64 bits. *)
Definition no_remotes : ctl := Ctl [] ∅ (u64 (-1)) (no_traffic ∅).

Definition remote_create (c : ctl) (rc : rconn) (aux : option rconn) : ctl * positive :=
  let id := fresh (dom (c_remotes c) : gset positive) in
  (Ctl (c_order c ++ [id]) (<[id := Remote rc aux OFPCR_ROLE_EQUAL default_config]> (c_remotes c)) (c_generation_id c)
     (set_counters (c_net c) (<[id := 0]> (ns_counters (c_net c)))), id).

Definition remote_destroy (c : ctl) (id : positive) : option ctl :=
  r ← c_remotes c !! id;
  w ← match r_rconn_aux r with Some aux => rconn_destroy aux (c_net c) | None => Some (c_net c) end;
  w ← rconn_destroy (r_rconn r) w;
  Some (Ctl (base.filter (λ x, x ≠ id) (c_order c)) (delete id (c_remotes c)) (c_generation_id c)
          (set_counters w (delete id (ns_counters w)))).

(** * Roles *)

(** A 64-bit value as a signed one. *)
Definition int64 (x : Z) : Z := let y := u64 x in if 2 ^ 63 <=? y then y - 2 ^ 64 else y.

(** [dp->generation_id] is unsigned, so that the first test is always true. *)
Definition dp_check_generation_id (c : ctl) (new_gen_id : Z) : ctl * Z :=
  if (0 <=? c_generation_id c) && (int64 (new_gen_id - c_generation_id c) <? 0)
  then (c, ofl_error OFPET_ROLE_REQUEST_FAILED 0)
  else (set_generation c new_gen_id, 0).

(** The loop over the remotes that makes old masters slaves. *)
Definition demote (c : ctl) : ctl :=
  foldl (λ c id, match c_remotes c !! id with
                 | Some r => if r_role r =? OFPCR_ROLE_MASTER then set_role c id OFPCR_ROLE_SLAVE else c
                 | None => c
                 end) c (c_order c).

(** The new state, and the role and generation id of the reply, or an error. *)
Definition dp_handle_role_request (c : ctl) (sender : positive) (msg_role generation_id : Z) : option (ctl * (Z * Z + Z)) :=
  r ← c_remotes c !! sender;
  if msg_role =? OFPCR_ROLE_NOCHANGE then Some (c, inl (r_role r, c_generation_id c))
  else if msg_role =? OFPCR_ROLE_EQUAL then
    Some (set_role c sender OFPCR_ROLE_EQUAL, inl (msg_role, generation_id))
  else if msg_role =? OFPCR_ROLE_MASTER then
    let '(c, error) := dp_check_generation_id c generation_id in
    if truthy error then Some (c, inr error)
    else Some (set_role (demote c) sender OFPCR_ROLE_MASTER, inl (msg_role, generation_id))
  else if msg_role =? OFPCR_ROLE_SLAVE then
    let '(c, error) := dp_check_generation_id c generation_id in
    if truthy error then Some (c, inr error)
    else Some (set_role c sender OFPCR_ROLE_SLAVE, inl (msg_role, generation_id))
  else Some (c, inr (ofl_error OFPET_ROLE_REQUEST_FAILED 2)).

(** [OFPT_SET_ASYNC]; the other request only reads. *)
Definition dp_handle_async_request (c : ctl) (sender : positive) (config : ofl_async_config) : option ctl :=
  r ← c_remotes c !! sender;
  Some (set_remote c sender (Remote (r_rconn r) (r_rconn_aux r) (r_role r) config)).

(** * Sending *)

Definition to_msg (data : list Z) : option msg :=
  t ← data !! 1%nat; xid ← ld 4 data 4; Some (Msg t xid None data).

(** The reason byte of a message read as a [struct ofp_packet_in], [ofp_port_status] or
    [ofp_flow_removed]. *)
Definition packet_in_reason (data : list Z) : option Z := data !! 14%nat.
Definition port_status_reason (data : list Z) : option Z := data !! 8%nat.
Definition flow_removed_reason (data : list Z) : option Z := data !! 18%nat.

(** The tests [(reason == i) && !(mask & 1 << i)] for the reasons below [n]: whether none
    holds. *)
Definition enabled (n reason mask : Z) : bool :=
  negb ((reason <? n) && negb (truthy (Z.land mask (Z.shiftl 1 reason)))).

Definition flow_removed_enabled (r : remote) (data : list Z) : option bool :=
  reason ← flow_removed_reason data; Some (enabled 5 reason (flow_removed_mask (r_config r)).1).

(** Whether the loop of [send_openflow_buffer] passes the remote on.  The case of
    OFPT_PORT_STATUS runs on into the next one. *)
Definition async_enabled (r : remote) (data : list Z) : option bool :=
  msg_type ← data !! 1%nat;
  if (r_role r =? OFPCR_ROLE_EQUAL) || (r_role r =? OFPCR_ROLE_MASTER) then
    if msg_type =? OFPT_PACKET_IN then
      reason ← packet_in_reason data; Some (enabled 3 reason (packet_in_mask (r_config r)).1)
    else if msg_type =? OFPT_PORT_STATUS then
      reason ← port_status_reason data;
      if enabled 3 reason (port_status_mask (r_config r)).1 then flow_removed_enabled r data else Some false
    else if msg_type =? OFPT_FLOW_REMOVED then flow_removed_enabled r data
    else Some true
  else if (r_role r =? OFPCR_ROLE_SLAVE) && negb (msg_type =? OFPT_PORT_STATUS) then Some false
  else reason ← port_status_reason data; Some (enabled 3 reason (port_status_mask (r_config r)).2).

Section sending.
  Context (now : Z) (V : vconn).

(** The buffer is handed over: queued, or deleted when the result is not 0. *)
Definition send_openflow_buffer_to_remote (c : ctl) (data : list Z) (conn_id : Z) (id : positive) : option (ctl * Z) :=
  r ← c_remotes c !! id;
  m ← to_msg data;
  let main := r_rconn r in
  match r_rconn_aux r with
  | Some aux =>
    if (conn_id =? PTIN_CONNECTION) && rconn_is_connected main && rconn_is_connected aux then
      '(aux, w, retval) ← rconn_send_with_limit now V aux (c_net c) m id TXQ_LIMIT;
      Some (Ctl (c_order c) (<[id := Remote main (Some aux) (r_role r) (r_config r)]> (c_remotes c)) (c_generation_id c) w, retval)
    else
      '(main, w, retval) ← rconn_send_with_limit now V main (c_net c) m id TXQ_LIMIT;
      Some (Ctl (c_order c) (<[id := Remote main (Some aux) (r_role r) (r_config r)]> (c_remotes c)) (c_generation_id c) w, retval)
  | None =>
    '(main, w, retval) ← rconn_send_with_limit now V main (c_net c) m id TXQ_LIMIT;
    Some (Ctl (c_order c) (<[id := Remote main None (r_role r) (r_config r)]> (c_remotes c)) (c_generation_id c) w, retval)
  end.

(** The loop over the remotes; [prev] is the last one to send to that has not been served:
    it gets a clone when another is found. *)
Fixpoint broadcast_loop (c : ctl) (data : list Z) (conn_id : Z) (prev : option positive) (l : list positive) :
    option (ctl * option positive) :=
  match l with
  | [] => Some (c, prev)
  | id :: l =>
    r ← c_remotes c !! id;
    ok ← async_enabled r data;
    if ok : bool then
      c ← match prev with
          | Some p => '(c, _) ← send_openflow_buffer_to_remote c data conn_id p; Some c
          | None => Some c
          end;
      broadcast_loop c data conn_id (Some id) l
    else broadcast_loop c data conn_id prev l
  end.

Definition send_openflow_buffer (c : ctl) (data : list Z) (conn_id : Z) (sender : option positive) : option (ctl * Z) :=
  match sender with
  | Some id => send_openflow_buffer_to_remote c data conn_id id
  | None =>
    '(c, prev) ← broadcast_loop c data conn_id None (c_order c);
    c ← match prev with
        | Some p => '(c, _) ← send_openflow_buffer_to_remote c data conn_id p; Some c
        | None => Some c
        end;
    Some (c, 0)
  end.

(** The connection a message goes by. *)
Definition conn_of (msg_type : Z) (sender_conn : option Z) : Z :=
  if msg_type =? OFPT_PACKET_IN then PTIN_CONNECTION else default MAIN_CONNECTION sender_conn.

(** [data] is the packed message; [sender] the remote and connection to reply to.  When
    sending fails the buffer has been deleted, and is deleted again. *)
Definition dp_send_message (c : ctl) (data : list Z) (sender : option (positive * Z)) : option (ctl * Z) :=
  msg_type ← data !! 1%nat;
  '(c, error) ← send_openflow_buffer c data (conn_of msg_type (snd <$> sender)) (fst <$> sender);
  if truthy error then None else Some (c, 0).
End sending.

(** * Running *)

Definition get_conn (r : remote) (conn_id : Z) : option rconn :=
  if conn_id =? MAIN_CONNECTION then Some (r_rconn r) else if conn_id =? PTIN_CONNECTION then r_rconn_aux r else None.

Definition set_conn (r : remote) (conn_id : Z) (rc : rconn) : remote :=
  if conn_id =? MAIN_CONNECTION then Remote rc (r_rconn_aux r) (r_role r) (r_config r)
  else Remote (r_rconn r) (Some rc) (r_role r) (r_config r).

Definition put_conn (c : ctl) (id : positive) (r : remote) (conn_id : Z) (rc : rconn) (w : net_state) : ctl :=
  Ctl (c_order c) (<[id := set_conn r conn_id rc]> (c_remotes c)) (c_generation_id c) w.

(** The rest of the datapath, with its state [X]: what it does with a message
    ([ofl_msg_unpack], the handler, and the error message when one of the two fails), and with
    what it holds for a remote that is gone. *)
Record handler (X : Type) := Handler {
  h_message : X → ctl → positive → Z → msg → option (X * ctl);
  h_forget : X → positive → X }.
Arguments Handler {X} _ _.
Arguments h_message {X} _.
Arguments h_forget {X} _.

Section running.
  Context {X : Type} (now : Z) (V : vconn) (xid : Z) (H : handler X).

Definition conn_run (c : ctl) (id : positive) (conn_id : Z) : option ctl :=
  r ← c_remotes c !! id; rc ← get_conn r conn_id;
  '(rc, w) ← rconn_run now V RUN_TURNS xid rc (c_net c);
  Some (put_conn c id r conn_id rc w).

Definition conn_recv (c : ctl) (id : positive) (conn_id : Z) : option (ctl * option msg) :=
  r ← c_remotes c !! id; rc ← get_conn r conn_id;
  '(rc, w, b) ← rconn_recv now V rc (c_net c);
  Some (put_conn c id r conn_id rc w, b).

(** The loop of [remote_rconn_run]; nothing sets [cb_dump], so that its else branch is
    never taken. *)
Fixpoint recv_loop (n : nat) (x : X) (c : ctl) (id : positive) (conn_id : Z) : option (X * ctl) :=
  match n with
  | O => Some (x, c)
  | S n =>
    '(c, buffer) ← conn_recv c id conn_id;
    match buffer with
    | None => Some (x, c)
    | Some b => '(x, c) ← h_message H x c id conn_id b; recv_loop n x c id conn_id
    end
  end.

Definition remote_rconn_run (x : X) (c : ctl) (id : positive) (conn_id : Z) : option (X * ctl) :=
  c ← conn_run c id conn_id; recv_loop 50 x c id conn_id.

Definition remote_run (x : X) (c : ctl) (id : positive) : option (X * ctl) :=
  '(x, c) ← remote_rconn_run x c id MAIN_CONNECTION;
  r ← c_remotes c !! id;
  if negb (rconn_is_alive (r_rconn r)) then c ← remote_destroy c id; Some (h_forget H x id, c)
  else match r_rconn_aux r with
       | None => Some (x, c)
       | Some aux => if rconn_is_alive aux then remote_rconn_run x c id PTIN_CONNECTION else Some (x, c)
       end.

(** The loop over the remotes in [dp_run]; only the remote at hand is ever removed. *)
Fixpoint remotes_loop (x : X) (c : ctl) (l : list positive) : option (X * ctl) :=
  match l with
  | [] => Some (x, c)
  | id :: l => '(x, c) ← remote_run x c id; remotes_loop x c l
  end.

(** The loop over the listeners, each with its auxiliary one; [A] is what
    [pvconn_accept] answers.  Each turn either moves on or drops a listener, so that [n] is
    their number. *)
Fixpoint accept_loop (A : positive → answer) (n : nat) (i : nat) (ls : list (positive * option positive)) (c : ctl) :
    list (positive * option positive) * ctl :=
  match n with
  | O => (ls, c)
  | S n =>
    match ls !! i with
    | None => (ls, c)
    | Some (pvconn, pvconn_aux) =>
      match A pvconn with
      | Ok =>
        let aux := match pvconn_aux with
                   | Some p => match A p with Ok => Some (rconn_new_from_vconn now) | _ => None end
                   | None => None
                   end in
        accept_loop A n (S i) ls (remote_create c (rconn_new_from_vconn now) aux).1
      | Again => accept_loop A n (S i) ls c
      | Failed => accept_loop A n i (take (length ls - 1) (match ls !! (length ls - 1)%nat with Some x => <[i := x]> ls | None => ls end)) c
      end
    end
  end.

(** The part of [dp_run] that talks to controllers. *)
Definition dp_run_controllers (A : positive → answer) (ls : list (positive * option positive)) (x : X) (c : ctl) :
    option (list (positive * option positive) * X * ctl) :=
  '(x, c) ← remotes_loop x c (c_order c);
  let '(ls, c) := accept_loop A (length ls) 0 ls c in Some (ls, x, c).
End running.
