(* ===== verification/ControllersCorrect.v ===== *)
(** The controllers' connections keep their invariant, at most one of them is master, and
    an asynchronous message goes once to each controller that wants it. *)

From S2P Require Import Prelude Memory OpenFlow Rconn RconnCorrect Controllers.

(** Messages in the queues of a remote are counted on its own counter. *)
Definition own (id : positive) (q : list msg) : Prop := ∀ b c, b ∈ q → m_n_queued b = Some c → c = id.

Definition aux_txq (r : remote) : list msg := match r_rconn_aux r with Some aux => rc_txq aux | None => [] end.

Record conn_ok (now : Z) (id : positive) (rc : rconn) : Prop := {
  cn_ok : rc_ok now rc;
  cn_own : own id (rc_txq rc);
  cn_max : rc_max_backoff rc = 60;
  cn_probe : rc_probe_interval rc = 60 }.

Record remote_ok (now : Z) (w : net_state) (id : positive) (r : remote) : Prop := {
  rm_main : conn_ok now id (r_rconn r);
  rm_aux : ∀ aux, r_rconn_aux r = Some aux → conn_ok now id aux;
  rm_count : ns_counters w !! id = Some (cnt id (rc_txq (r_rconn r)) + cnt id (aux_txq r));
  rm_limit : cnt id (rc_txq (r_rconn r)) + cnt id (aux_txq r) <= TXQ_LIMIT;
  rm_role : r_role r = OFPCR_ROLE_EQUAL ∨ r_role r = OFPCR_ROLE_MASTER ∨ r_role r = OFPCR_ROLE_SLAVE }.

Record ctl_ok (now : Z) (c : ctl) : Prop := {
  co_time : 0 <= now ∧ now + 60 < UINT_MAX;
  co_nodup : NoDup (c_order c);
  co_listed : ∀ id, id ∈ c_order c ↔ is_Some (c_remotes c !! id);
  co_counters : dom (ns_counters (c_net c)) = dom (c_remotes c);
  co_remote : ∀ id r, c_remotes c !! id = Some r → remote_ok now (c_net c) id r;
  co_master : ∀ id id' r r', c_remotes c !! id = Some r → c_remotes c !! id' = Some r' →
    r_role r = OFPCR_ROLE_MASTER → r_role r' = OFPCR_ROLE_MASTER → id = id';
  co_generation : fits 64 (c_generation_id c) }.

Lemma conn_ok_later now now' id rc : conn_ok now id rc → now <= now' → now' + 60 < UINT_MAX → conn_ok now' id rc.
Proof. intros [] ??. split; try done. eapply rc_ok_later; [done|lia..]. Qed.

Lemma ctl_ok_later now now' c : ctl_ok now c → now <= now' → now' + 60 < UINT_MAX → ctl_ok now' c.
Proof.
  intros [Ht ? ? ? Hr ? ?] ??. split; try done; [lia|]. intros id r Hid. destruct (Hr id r Hid) as [Hm Ha ? ? ?].
  split; try done; [by eapply conn_ok_later|]. intros aux Hx. eapply conn_ok_later; [by apply Ha|done..].
Qed.

Lemma cnt_pos c q : 0 <= cnt c q.
Proof. unfold cnt. lia. Qed.

Lemma own_cnt id q c : own id q → c ≠ id → cnt c q = 0.
Proof.
  intros Ho Hne. induction q as [|b q IH]; [done|]. rewrite cnt_cons, IH.
  - rewrite bool_decide_false; [done|]. intros E. apply Hne. eapply Ho; [apply list_elem_of_here|done].
  - intros b' c' Hin. apply Ho. by apply list_elem_of_further.
Qed.

(** A counter stands for [n] messages of others and those of one queue. *)
Lemma balanced_own id w q k :
  own id q → ns_counters w !! id = Some (cnt id q + k) →
  balanced (λ c, if bool_decide (c = id) then k else default 0 (ns_counters w !! c)) q w.
Proof.
  intros Ho Hc. split.
  - intros c n Hn. case_bool_decide as E; [subst; congruence|]. rewrite (own_cnt id q c), Hn by done. done.
  - intros b c Hin Hb. rewrite (Ho b c Hin Hb). by eexists.
Qed.

(** Running an operation on one connection of a remote. *)
Lemma conn_step now id w k rc new rc' w' :
  conn_ok now id rc → ns_counters w !! id = Some (cnt id (rc_txq rc) + k) → own id new →
  good now (λ c, if bool_decide (c = id) then k else default 0 (ns_counters w !! c)) rc w new rc' w' →
  conn_ok now id rc' ∧ ns_counters w' !! id = Some (cnt id (rc_txq rc') + k) ∧
  (∀ c, c ≠ id → ns_counters w' !! c = ns_counters w !! c) ∧ dom (ns_counters w') = dom (ns_counters w).
Proof.
  intros Hok Hc Hn [Ho [Hb _] Hd _ Hs Hm Hp]. assert (Hown : own id (rc_txq rc')).
  { intros b c Hin. apply (elem_of_sublist _ _ b Hin), elem_of_app in Hs as [Hq|Hq]; [by apply (cn_own _ _ _ Hok)|by apply Hn]. }
  assert (Hsome : ∀ c, is_Some (ns_counters w' !! c) ↔ is_Some (ns_counters w !! c)).
  { intros c. rewrite <- !elem_of_dom, Hd. done. }
  split_and!; [|..|done].
  - destruct Hok. split; [done|done|congruence|congruence].
  - destruct (proj2 (Hsome id)) as [n Hx]; [by eexists|]. rewrite Hx, (Hb _ _ Hx), bool_decide_true by done. done.
  - intros c Hne. destruct (ns_counters w !! c) as [m|] eqn:Hm'.
    + destruct (proj2 (Hsome c)) as [n Hx]; [by eexists|]. rewrite Hx, (Hb _ _ Hx), bool_decide_false, (own_cnt id) by done.
      rewrite Hm'. done.
    + apply eq_None_not_Some. rewrite Hsome, Hm'. by intros [? ?].
Qed.

(** The remote [id] gets new connections; the others do not notice. *)
Lemma set_remote_ok now c id r r' w' :
  ctl_ok now c → c_remotes c !! id = Some r → remote_ok now w' id r' → r_role r' = r_role r →
  (∀ d, d ≠ id → ns_counters w' !! d = ns_counters (c_net c) !! d) → dom (ns_counters w') = dom (ns_counters (c_net c)) →
  ctl_ok now (Ctl (c_order c) (<[id := r']> (c_remotes c)) (c_generation_id c) w').
Proof.
  intros [Ht Hnd Hl Hc Hr Hm Hg] Hid Hr' Hrole Hw Hd.
  assert (Hroles : ∀ d x, <[id := r']> (c_remotes c) !! d = Some x → ∃ y, c_remotes c !! d = Some y ∧ r_role x = r_role y).
  { intros d x. destruct (decide (d = id)) as [->|]; [rewrite lookup_insert_eq; intros [= <-]; by exists r|].
    rewrite lookup_insert_ne by done. by exists x. }
  split; cbn; try done.
  - intros d. rewrite Hl. destruct (decide (d = id)) as [->|]; [rewrite lookup_insert_eq, Hid; split; by eexists|].
    by rewrite lookup_insert_ne.
  - rewrite Hd, Hc, dom_insert_lookup_L; [done|by eexists].
  - intros d x. destruct (decide (d = id)) as [->|Hne]; [rewrite lookup_insert_eq; by intros [= <-]|].
    rewrite lookup_insert_ne by done. intros Hx. destruct (Hr d x Hx). split; try done. by rewrite Hw.
  - intros d d' x x' (y & Hy & Ey)%Hroles (y' & Hy' & Ey')%Hroles ??. eapply Hm; [exact Hy|exact Hy'|congruence|congruence].
Qed.

(** Sending on one connection of a remote: the limit is kept. *)
Lemma send_limit_ok now V id w k rc m :
  conn_ok now id rc → ns_counters w !! id = Some (cnt id (rc_txq rc) + k) → cnt id (rc_txq rc) + k <= TXQ_LIMIT →
  ∃ rc' w' r, rconn_send_with_limit now V rc w m id TXQ_LIMIT = Some (rc', w', r) ∧ conn_ok now id rc' ∧
    ns_counters w' !! id = Some (cnt id (rc_txq rc') + k) ∧ cnt id (rc_txq rc') + k <= TXQ_LIMIT ∧
    (∀ c, c ≠ id → ns_counters w' !! c = ns_counters w !! c) ∧ dom (ns_counters w') = dom (ns_counters w) ∧
    (r = 0 ↔ cnt id (rc_txq rc) + k < TXQ_LIMIT ∧ rconn_is_connected rc = true).
Proof.
  intros Hok Hc Hlim. unfold rconn_send_with_limit. rewrite Hc; cbn [mbind option_bind].
  destruct (Z.leb_spec TXQ_LIMIT (cnt id (rc_txq rc) + k)).
  { eexists _, _, _. split_and!; try done. split; [done|lia]. }
  destruct (send_good now V _ rc w m (Some id) (cn_ok _ _ _ Hok) (balanced_own id w _ k (cn_own _ _ _ Hok) Hc)) as (rc' & w' & r & -> & _ & Hr).
  { intros d [= <-]. by eexists. }
  exists rc', w', r. split; [done|]. destruct (rconn_is_connected rc).
  2: { destruct Hr as (-> & -> & ->). split_and!; try done. split; [done|by intros [_ ?]]. }
  destruct Hr as [-> Hg]. destruct (conn_step now id w k rc [queued m (Some id)] rc' w' Hok Hc) as (H1 & H2 & H3 & H4); [|exact Hg|].
  { intros b c ->%list_elem_of_singleton. cbn. by intros [= ->]. }
  split_and!; try done. pose proof (cnt_sublist id _ _ (gd_sub _ _ _ _ _ _ _ Hg)) as Hs.
  rewrite cnt_app, cnt_cons, cnt_nil, bool_decide_true in Hs by done. lia.
Qed.

(** What sending leaves alone. *)
Definition same_ctl (c c' : ctl) : Prop :=
  c_order c' = c_order c ∧ c_generation_id c' = c_generation_id c ∧
  ∀ id, (λ r, (r_role r, r_config r)) <$> c_remotes c' !! id = (λ r, (r_role r, r_config r)) <$> c_remotes c !! id.

Lemma same_ctl_trans c c1 c2 : same_ctl c c1 → same_ctl c1 c2 → same_ctl c c2.
Proof. intros (E1 & E2 & E3) (E4 & E5 & E6). split_and!; [congruence..|]. intros id. by rewrite E6, E3. Qed.

Lemma same_insert c id r r' w' :
  c_remotes c !! id = Some r → r_role r' = r_role r → r_config r' = r_config r →
  same_ctl c (Ctl (c_order c) (<[id := r']> (c_remotes c)) (c_generation_id c) w').
Proof.
  intros Hr E1 E2. split_and!; [done..|]. intros d. cbn. destruct (decide (d = id)) as [->|].
  - rewrite lookup_insert_eq, Hr. cbn. by rewrite E1, E2.
  - by rewrite lookup_insert_ne.
Qed.

(** The header of a message, and the part of it that the filters for asynchronous messages
    look at. *)
Definition headed (data : list Z) : Prop := (8 <= length data)%nat.
Definition data_ok (data : list Z) : Prop := (19 <= length data)%nat.

Lemma data_headed data : data_ok data → headed data.
Proof. unfold data_ok, headed. lia. Qed.

Lemma to_msg_ok data : headed data → ∃ m, to_msg data = Some m.
Proof.
  intros Hd. unfold headed in Hd. unfold to_msg. destruct (lookup_lt_is_Some_2 data 1) as [t ->]; [lia|]. cbn [mbind option_bind].
  unfold ld, mread. rewrite (proj2 (Nat.leb_le _ _)) by lia. by eexists.
Qed.

Lemma send_remote_ok now V c data conn_id id :
  ctl_ok now c → headed data → is_Some (c_remotes c !! id) →
  ∃ c' r, send_openflow_buffer_to_remote now V c data conn_id id = Some (c', r) ∧ ctl_ok now c' ∧ same_ctl c c'.
Proof.
  intros Hok Hd [r Hr]. unfold send_openflow_buffer_to_remote. rewrite Hr; cbn [mbind option_bind].
  destruct (to_msg_ok data Hd) as [m ->]; cbn [mbind option_bind]. destruct (co_remote _ _ Hok id r Hr) as [Hm Ha Hc Hl Hrole].
  assert (Hmain : ∃ rc' w' x, rconn_send_with_limit now V (r_rconn r) (c_net c) m id TXQ_LIMIT = Some (rc', w', x) ∧
    ctl_ok now (Ctl (c_order c) (<[id := Remote rc' (r_rconn_aux r) (r_role r) (r_config r)]> (c_remotes c)) (c_generation_id c) w')).
  { destruct (send_limit_ok now V id (c_net c) (cnt id (aux_txq r)) (r_rconn r) m Hm Hc Hl) as (rc' & w' & x & -> & H1 & H2 & H3 & H4 & H5 & _).
    exists rc', w', x. split; [done|]. eapply set_remote_ok; done. }
  destruct (r_rconn_aux r) as [aux|] eqn:Haux.
  2: { destruct Hmain as (rc' & w' & x & -> & Hx). cbn [mbind option_bind]. eexists _, _. split_and!; [done..|]. by eapply same_insert. }
  destruct (_ && rconn_is_connected aux).
  - destruct (send_limit_ok now V id (c_net c) (cnt id (rc_txq (r_rconn r))) aux m) as (rc' & w' & x & -> & H1 & H2 & H3 & H4 & H5 & _).
    { by apply Ha. }
    { rewrite Hc. unfold aux_txq. rewrite Haux. f_equal. lia. }
    { unfold aux_txq in Hl. rewrite Haux in Hl. lia. }
    cbn [mbind option_bind]. eexists _, _. split; [done|]. split; [|by eapply same_insert].
    eapply set_remote_ok; try done. split; try done; cbn.
    + by intros ? [= <-].
    + rewrite H2. f_equal. lia.
    + lia.
  - destruct Hmain as (rc' & w' & x & -> & Hx). cbn [mbind option_bind]. eexists _, _. split_and!; [done..|]. by eapply same_insert.
Qed.

(** * Broadcasting *)

(** The same, one remote after another. *)
Fixpoint send_each (now : Z) (V : vconn) (c : ctl) (data : list Z) (conn_id : Z) (l : list positive) : option ctl :=
  match l with
  | [] => Some c
  | id :: l => '(c, _) ← send_openflow_buffer_to_remote now V c data conn_id id; send_each now V c data conn_id l
  end.

Definition wants (c : ctl) (data : list Z) (id : positive) : Prop :=
  match c_remotes c !! id with Some r => async_enabled r data = Some true | None => False end.

#[global] Instance wants_dec c data id : Decision (wants c data id).
Proof. unfold wants. destruct (c_remotes c !! id); apply _. Defined.

Lemma enabled_some r data : data_ok data → is_Some (async_enabled r data).
Proof.
  intros Hd. unfold data_ok in Hd. unfold async_enabled, flow_removed_enabled, packet_in_reason, port_status_reason, flow_removed_reason.
  destruct (lookup_lt_is_Some_2 data 1) as [? ->]; [lia|]. destruct (lookup_lt_is_Some_2 data 14) as [? ->]; [lia|].
  destruct (lookup_lt_is_Some_2 data 8) as [? ->]; [lia|]. destruct (lookup_lt_is_Some_2 data 18) as [? ->]; [lia|].
  cbn [mbind option_bind]. repeat case_match; by eexists.
Qed.

Lemma async_same r r' data : r_role r' = r_role r → r_config r' = r_config r → async_enabled r' data = async_enabled r data.
Proof. intros E1 E2. unfold async_enabled, flow_removed_enabled. by rewrite E1, E2. Qed.

Lemma wants_same c c' data id : same_ctl c c' → wants c' data id ↔ wants c data id.
Proof.
  intros (_ & _ & Hs). specialize (Hs id). unfold wants.
  destruct (c_remotes c !! id) as [r|], (c_remotes c' !! id) as [r'|]; cbn in Hs; try done.
  injection Hs as E1 E2. by rewrite (async_same r r').
Qed.

Lemma same_some c c' id : same_ctl c c' → is_Some (c_remotes c !! id) → is_Some (c_remotes c' !! id).
Proof.
  intros (_ & _ & Hs) [r Hr]. specialize (Hs id). rewrite Hr in Hs. by destruct (c_remotes c' !! id).
Qed.

Lemma send_each_ok now V data conn_id l c :
  ctl_ok now c → data_ok data → (∀ id, id ∈ l → is_Some (c_remotes c !! id)) →
  ∃ c', send_each now V c data conn_id l = Some c' ∧ ctl_ok now c' ∧ same_ctl c c'.
Proof.
  revert c; induction l as [|id l IH]; intros c Hok Hd Hl; [by exists c|]. cbn [send_each].
  destruct (send_remote_ok now V c data conn_id id) as (c1 & r & -> & Hok1 & Hs1); [done|by apply data_headed|apply Hl, list_elem_of_here|].
  cbn [mbind option_bind]. destruct (IH c1) as (c2 & -> & Hok2 & Hs2); [done..| |].
  - intros d Hin. eapply same_some; [done|]. by apply Hl, list_elem_of_further.
  - exists c2. split_and!; [done..|]. by eapply same_ctl_trans.
Qed.

Lemma send_each_app now V data conn_id l l' c :
  send_each now V c data conn_id (l ++ l') = (c ← send_each now V c data conn_id l; send_each now V c data conn_id l').
Proof. revert c; induction l as [|id l IH]; intros c; cbn; [done|]. destruct (send_openflow_buffer_to_remote _ _ _ _ _ _) as [[? ?]|]; cbn; [apply IH|done]. Qed.

(** The loop, and the send after it, serve the remotes that want the message in turn. *)
Lemma broadcast_each now V data conn_id l c prev :
  ctl_ok now c → data_ok data → (∀ id, id ∈ l → is_Some (c_remotes c !! id)) → (∀ id, prev = Some id → is_Some (c_remotes c !! id)) →
  ∃ c1 p1, broadcast_loop now V c data conn_id prev l = Some (c1, p1) ∧
    match p1 with
    | Some p => '(c, _) ← send_openflow_buffer_to_remote now V c1 data conn_id p; Some c
    | None => Some c1
    end = send_each now V c data conn_id (option_list prev ++ base.filter (wants c data) l).
Proof.
  revert c prev; induction l as [|id l IH]; intros c prev Hok Hd Hl Hp.
  { exists c, prev. split; [done|]. by destruct prev. }
  cbn [broadcast_loop]. destruct (Hl id (list_elem_of_here _ _)) as [r Hr]. rewrite Hr; cbn [mbind option_bind].
  destruct (enabled_some r data Hd) as [b Hb]. rewrite Hb; cbn [mbind option_bind].
  assert (Hw : wants c data id ↔ b = true) by (unfold wants; rewrite Hr, Hb; split; congruence).
  assert (Hrest : ∀ d, d ∈ l → is_Some (c_remotes c !! d)) by (intros; by apply Hl, list_elem_of_further).
  destruct b; [rewrite filter_cons_True by by apply Hw|rewrite filter_cons_False by (rewrite Hw; done); by apply IH].
  destruct prev as [p|]; [change (option_list (Some p)) with [p]|]; cbn [app send_each].
  - destruct (send_remote_ok now V c data conn_id p) as (c1 & x & -> & Hok1 & Hs1); [done|by apply data_headed|by apply Hp|]. cbn [mbind option_bind].
    destruct (IH c1 (Some id)) as (c2 & p2 & -> & E); [done..| | |].
    + intros d Hin. eapply same_some; [done|by apply Hrest].
    + intros ? [= <-]. eapply same_some; [done|by eexists].
    + exists c2, p2. split; [done|]. rewrite E. change (option_list (Some id)) with [id]. cbn [app].
      rewrite (list_filter_iff (wants c1 data) (wants c data)) by (intros; by apply wants_same). done.
  - cbn [mbind option_bind]. destruct (IH c (Some id) Hok Hd Hrest) as (c2 & p2 & -> & E); [intros ? [= <-]; by exists r|]. by exists c2, p2.
Qed.

(** * Running the connections *)

(** The queue of the other connection of a remote. *)
Definition rest (r : remote) (conn_id : Z) : list msg := if conn_id =? MAIN_CONNECTION then aux_txq r else rc_txq (r_rconn r).

Definition others_of (w : net_state) (id : positive) (k : Z) : positive → Z :=
  λ c, if bool_decide (c = id) then k else default 0 (ns_counters w !! c).

Lemma get_conn_ok now w id r conn_id rc :
  remote_ok now w id r → get_conn r conn_id = Some rc →
  conn_ok now id rc ∧ ns_counters w !! id = Some (cnt id (rc_txq rc) + cnt id (rest r conn_id)) ∧
  cnt id (rc_txq rc) + cnt id (rest r conn_id) <= TXQ_LIMIT.
Proof.
  intros [Hm Ha Hc Hl _]. unfold get_conn, rest. destruct (conn_id =? MAIN_CONNECTION); [by intros [= <-]|].
  destruct (conn_id =? PTIN_CONNECTION); [|done]. intros Haux. unfold aux_txq in *. rewrite Haux in *.
  split_and!; [by apply Ha|rewrite Hc; f_equal; lia|lia].
Qed.

(** A step of a connection that takes on no message its remote pays for. *)
Lemma put_conn_ok now c id r conn_id rc new rc' w' :
  ctl_ok now c → c_remotes c !! id = Some r → get_conn r conn_id = Some rc → Forall (λ b, m_n_queued b = None) new →
  good now (others_of (c_net c) id (cnt id (rest r conn_id))) rc (c_net c) new rc' w' →
  ctl_ok now (put_conn c id r conn_id rc' w').
Proof.
  intros Hok Hr Hget Hnew Hg. pose proof (co_remote _ _ Hok _ _ Hr) as Hrm.
  destruct (get_conn_ok now (c_net c) id r conn_id rc Hrm Hget) as (Hconn & Hc & Hl).
  rewrite list.Forall_forall in Hnew. destruct (conn_step now id (c_net c) _ rc new rc' w' Hconn Hc) as (H1 & H2 & H3 & H4); [|exact Hg|].
  { intros b d Hin Hb. specialize (Hnew b Hin). congruence. }
  assert (Hlim : cnt id (rc_txq rc') <= cnt id (rc_txq rc)).
  { etrans; [apply cnt_sublist, (gd_sub _ _ _ _ _ _ _ Hg)|]. rewrite cnt_app.
    assert (cnt id new = 0); [|lia]. clear Hg. induction new as [|b new IH]; [done|]. rewrite cnt_cons, IH.
    - rewrite bool_decide_false; [done|]. rewrite (Hnew b (list_elem_of_here _ _)). done.
    - intros x Hx. apply Hnew. by apply list_elem_of_further. }
  unfold put_conn. eapply set_remote_ok; try done.
  - destruct Hrm as [Hm Ha _ _ Hrole]. unfold set_conn, rest, get_conn in *. destruct (conn_id =? MAIN_CONNECTION); cbn.
    + split; try done. unfold aux_txq in *; cbn in *. lia.
    + split; unfold aux_txq; cbn; [done|by intros ? [= <-]|rewrite H2; f_equal; lia|lia|done].
  - unfold set_conn. by case_match.
Qed.

Definition has_aux (r : remote) : bool := match r_rconn_aux r with Some _ => true | None => false end.

(** Operations that keep the set of remotes. *)
Definition same_remotes (c c' : ctl) : Prop :=
  c_order c' = c_order c ∧ ∀ id, has_aux <$> c_remotes c' !! id = has_aux <$> c_remotes c !! id.

Definition has_conn (c : ctl) (id : positive) (conn_id : Z) : Prop :=
  ∃ r rc, c_remotes c !! id = Some r ∧ get_conn r conn_id = Some rc.

#[global] Instance same_remotes_trans : Transitive same_remotes.
Proof. intros c1 c2 c3 [E1 E2] [E3 E4]. split; [congruence|]. intros id. by rewrite E4. Qed.

#[global] Instance same_remotes_refl : Reflexive same_remotes.
Proof. by split. Qed.

Lemma same_conn c c' id conn_id : same_remotes c c' → has_conn c id conn_id → has_conn c' id conn_id.
Proof.
  intros [_ Hs] (r & rc & Hr & Hg). specialize (Hs id). rewrite Hr in Hs. unfold has_conn.
  destruct (c_remotes c' !! id) as [r'|]; [|done]. injection Hs as Hs. exists r'. unfold get_conn in *.
  destruct (conn_id =? MAIN_CONNECTION); [by eexists|]. destruct (conn_id =? PTIN_CONNECTION); [|done].
  unfold has_aux in Hs. rewrite Hg in Hs. destruct (r_rconn_aux r') as [rc'|]; [|done]. by exists rc'.
Qed.

Lemma put_conn_same c id r conn_id rc rc' w' :
  c_remotes c !! id = Some r → get_conn r conn_id = Some rc → same_remotes c (put_conn c id r conn_id rc' w').
Proof.
  intros Hr Hg. split; [done|]. intros d. cbn. destruct (decide (d = id)) as [->|]; [|by rewrite lookup_insert_ne].
  rewrite lookup_insert_eq, Hr. cbn. unfold set_conn, get_conn in *. destruct (conn_id =? MAIN_CONNECTION); [done|].
  destruct (conn_id =? PTIN_CONNECTION); [|done]. unfold has_aux. by rewrite Hg.
Qed.

(** What the handlers of messages promise to the loop that calls them. *)
Class HandlerOk {X} (now : Z) (H : handler X) (I : X → Prop) : Prop := {
  handler_ok : ∀ x c id conn_id b x' c', I x → ctl_ok now c → has_conn c id conn_id → bytes (m_body b) →
    h_message H x c id conn_id b = Some (x', c') → I x' ∧ ctl_ok now c' ∧ same_remotes c c';
  forget_ok : ∀ x id, I x → I (h_forget H x id) }.

(** What comes from the network is bytes. *)
Definition net_bytes (V : vconn) : Prop := ∀ k b, v_recv V k = inl b → bytes (m_body b).

Lemma recv_bytes now V rc w rc' w' m : net_bytes V → rconn_recv now V rc w = Some (rc', w', Some m) → bytes (m_body m).
Proof.
  intros HV. unfold rconn_recv. destruct (rconn_is_connected rc); [|done]. destruct (rc_vconn rc); [|done].
  destruct (v_recv V (ns_calls w)) as [b|a] eqn:Eb.
  - destruct (copy_to_monitor V rc (called w) b) as [rc1 w1]. intros E. assert (m = b) as -> by congruence. by eapply HV.
  - destruct a; [done|done|]. destruct (disconnect _ _ _) as [[? ?]|]; done.
Qed.

(** The result is there and as it should be, unless a handler was called that misbehaved. *)
Definition done_or {X A} (now : Z) (H : handler X) (I : X → Prop) (r : option A) (P : A → Prop) : Prop :=
  (∃ a, r = Some a ∧ P a) ∨
  ∃ x c id conn_id b, I x ∧ ctl_ok now c ∧ has_conn c id conn_id ∧ bytes (m_body b) ∧ h_message H x c id conn_id b = None.

Section run.
  Context {X : Type} (now : Z) (V : vconn) (xid : Z) (H : handler X) (I : X → Prop) `{HH : !HandlerOk now H I} (HV : net_bytes V).

Lemma done_bind {A B} (x : option A) (f : A → option B) (P : A → Prop) (Q : B → Prop) :
  done_or now H I x P → (∀ a, P a → done_or now H I (f a) Q) → done_or now H I (x ≫= f) Q.
Proof using. intros [(a & -> & Ha)|?] Hf; [by apply Hf|by right]. Qed.

Lemma conn_run_ok c id conn_id :
  ctl_ok now c → has_conn c id conn_id →
  ∃ c', conn_run now V xid c id conn_id = Some c' ∧ ctl_ok now c' ∧ same_remotes c c'.
Proof using.
  intros Hok (r & rc & Hr & Hg). unfold conn_run. rewrite Hr; cbn [mbind option_bind]. rewrite Hg; cbn [mbind option_bind].
  destruct (get_conn_ok now (c_net c) id r conn_id rc (co_remote _ _ Hok _ _ Hr) Hg) as (Hconn & Hc & Hl).
  destruct (run_good now V (others_of (c_net c) id (cnt id (rest r conn_id))) RUN_TURNS xid rc (c_net c) (cn_ok _ _ _ Hconn))
    as (rc' & w' & new & -> & Hgood & Hprobe); [by apply balanced_own; [apply Hconn|]|apply rank_max|]. cbn [mbind option_bind].
  eexists. split_and!; [done| |by eapply put_conn_same]. eapply put_conn_ok; [done..| |exact Hgood].
  eapply list.Forall_impl; [exact Hprobe|]. by intros ? [_ ?].
Qed.

Lemma conn_recv_ok c id conn_id :
  ctl_ok now c → has_conn c id conn_id →
  ∃ c' b, conn_recv now V c id conn_id = Some (c', b) ∧ ctl_ok now c' ∧ same_remotes c c' ∧ ∀ m, b = Some m → bytes (m_body m).
Proof using HV.
  intros Hok (r & rc & Hr & Hg). unfold conn_recv. rewrite Hr; cbn [mbind option_bind]. rewrite Hg; cbn [mbind option_bind].
  destruct (get_conn_ok now (c_net c) id r conn_id rc (co_remote _ _ Hok _ _ Hr) Hg) as (Hconn & Hc & Hl).
  destruct (recv_good now V (others_of (c_net c) id (cnt id (rest r conn_id))) rc (c_net c) (cn_ok _ _ _ Hconn))
    as (rc' & w' & b & E & Hgood); [by apply balanced_own; [apply Hconn|]|]. rewrite E. cbn [mbind option_bind].
  eexists _, _. split_and!; [done| |by eapply put_conn_same|].
  - by eapply put_conn_ok; [..|exact Hgood].
  - intros m ->. by eapply recv_bytes.
Qed.

Lemma recv_loop_ok n x c id conn_id :
  I x → ctl_ok now c → has_conn c id conn_id →
  done_or now H I (recv_loop now V H n x c id conn_id) (λ s, I s.1 ∧ ctl_ok now s.2 ∧ same_remotes c s.2).
Proof using HH HV.
  revert x c; induction n as [|n IH]; intros x c Hx Hok Hc; [by left; exists (x, c)|]. cbn [recv_loop].
  destruct (conn_recv_ok c id conn_id Hok Hc) as (c1 & b & -> & Hok1 & Hs1 & Hb). cbn [mbind option_bind].
  destruct b as [b|]; [|by left; exists (x, c1)]. assert (Hc1 : has_conn c1 id conn_id) by (by eapply same_conn). specialize (Hb b eq_refl).
  eapply (done_bind _ _ (λ s, I s.1 ∧ ctl_ok now s.2 ∧ same_remotes c1 s.2)).
  - destruct (h_message H x c1 id conn_id b) as [[x2 c2]|] eqn:E; [left|right; by exists x, c1, id, conn_id, b].
    exists (x2, c2). split; [done|]. by eapply handler_ok.
  - intros [x2 c2] (Hx2 & Hok2 & Hs2). cbn [fst snd] in *. destruct (IH x2 c2 Hx2 Hok2) as [([x3 c3] & E & Hx3 & Hok3 & Hs3)|Hx']; [by eapply same_conn| |by right].
    left. exists (x3, c3). split_and!; [done..|]. by do 2 (etrans; [eassumption|]).
Qed.

Lemma remote_rconn_run_ok x c id conn_id :
  I x → ctl_ok now c → has_conn c id conn_id →
  done_or now H I (remote_rconn_run now V xid H x c id conn_id) (λ s, I s.1 ∧ ctl_ok now s.2 ∧ same_remotes c s.2).
Proof using HH HV.
  intros Hx Hok Hc. unfold remote_rconn_run. destruct (conn_run_ok c id conn_id Hok Hc) as (c1 & -> & Hok1 & Hs1).
  cbn [mbind option_bind]. destruct (recv_loop_ok 50 x c1 id conn_id Hx Hok1) as [([x3 c3] & E & Hx3 & Hok3 & Hs3)|Hx']; [by eapply same_conn| |by right].
  left. exists (x3, c3). split_and!; [done..|]. by etrans.
Qed.
End run.

(** Deleting the queue of one connection. *)
Lemma destroy_conn_ok id w k rc :
  own id (rc_txq rc) → ns_counters w !! id = Some (cnt id (rc_txq rc) + k) →
  ∃ w', rconn_destroy rc w = Some w' ∧ ns_counters w' !! id = Some k ∧
    (∀ c, c ≠ id → ns_counters w' !! c = ns_counters w !! c) ∧ dom (ns_counters w') = dom (ns_counters w).
Proof.
  intros Ho Hc. unfold rconn_destroy, flush_queue. destruct (flush_loop_ok _ _ w (balanced_own id w _ k Ho Hc)) as (w' & -> & [Hb _] & Hd & _).
  assert (Hsome : ∀ c, is_Some (ns_counters w' !! c) ↔ is_Some (ns_counters w !! c)).
  { intros c. rewrite <- !elem_of_dom, Hd. done. }
  exists w'. split_and!; [done| | |done].
  - destruct (proj2 (Hsome id)) as [n Hn]; [by eexists|]. rewrite Hn, (Hb _ _ Hn), bool_decide_true by done. done.
  - intros c Hne. destruct (ns_counters w !! c) as [m|] eqn:Hm.
    + destruct (proj2 (Hsome c)) as [n Hx]; [by eexists|]. rewrite Hx, (Hb _ _ Hx), bool_decide_false by done. by rewrite Hm.
    + apply eq_None_not_Some. rewrite Hsome, Hm. by intros [? ?].
Qed.

Lemma remote_destroy_ok now c id :
  ctl_ok now c → is_Some (c_remotes c !! id) →
  ∃ c', remote_destroy c id = Some c' ∧ ctl_ok now c' ∧ c_remotes c' = delete id (c_remotes c).
Proof.
  intros [Ht Hnd Hl Hc Hr Hm Hg] [r Hid]. unfold remote_destroy. rewrite Hid; cbn [mbind option_bind].
  destruct (Hr id r Hid) as [H1 H2 H3 _ _].
  assert (∃ w1, match r_rconn_aux r with Some aux => rconn_destroy aux (c_net c) | None => Some (c_net c) end = Some w1 ∧
    ns_counters w1 !! id = Some (cnt id (rc_txq (r_rconn r)) + 0) ∧
    (∀ d, d ≠ id → ns_counters w1 !! d = ns_counters (c_net c) !! d) ∧ dom (ns_counters w1) = dom (ns_counters (c_net c)))
    as (w1 & -> & Hc1 & Ho1 & Hd1).
  { unfold aux_txq in H3. destruct (r_rconn_aux r) as [aux|]; [|by exists (c_net c)].
    destruct (destroy_conn_ok id (c_net c) (cnt id (rc_txq (r_rconn r))) aux) as (w1 & -> & E1 & E2 & E3).
    - by apply (cn_own _ _ _ (H2 _ eq_refl)).
    - rewrite H3. f_equal. lia.
    - exists w1. split_and!; [done| |done..]. rewrite E1. f_equal. lia. }
  cbn [mbind option_bind]. destruct (destroy_conn_ok id w1 0 (r_rconn r) (cn_own _ _ _ H1) Hc1) as (w2 & -> & Hc2 & Ho2 & Hd2).
  cbn [mbind option_bind]. eexists. split_and!; [done| |done]. split; cbn; try done.
  - by apply list.NoDup_filter.
  - intros d. rewrite list_elem_of_filter, Hl. destruct (decide (d = id)) as [->|]; [rewrite lookup_delete_eq; split; [by intros [? _]|by intros [? ?]]|].
    rewrite lookup_delete_ne by done. naive_solver.
  - rewrite !dom_delete_L. congruence.
  - intros d x. destruct (decide (d = id)) as [->|Hne]; [by rewrite lookup_delete_eq|]. rewrite lookup_delete_ne by done.
    intros Hx. destruct (Hr d x Hx). split; try done. cbn. rewrite lookup_delete_ne, Ho2, Ho1 by done. done.
  - intros d d' x x' [_ Hx]%lookup_delete_Some [_ Hx']%lookup_delete_Some. by eapply Hm.
Qed.

(** A connection just accepted. *)
Lemma accepted_ok now id : 0 <= now → now + 60 < UINT_MAX → conn_ok now id (rconn_new_from_vconn now).
Proof.
  intros H0 Ht. pose proof (rconn_create_ok now 60 0 H0) as Hok. assert (rc_ok now (rconn_create now 60 0)) as Hc by (apply Hok; lia).
  destruct (unreliable_good now (λ _, 0) _ (no_traffic ∅) Hc) as [H1 _ _ _ _ H2 H3]; [|split; try done; by intros ?? ?%not_elem_of_nil].
  split; [by intros c n|]. by intros ?? ?%not_elem_of_nil.
Qed.

Lemma remote_create_ok now c rc aux :
  ctl_ok now c → (∀ id, conn_ok now id rc ∧ rc_txq rc = []) → (∀ a id, aux = Some a → conn_ok now id a ∧ rc_txq a = []) →
  ctl_ok now (remote_create c rc aux).1 ∧
  ∃ id r, c_remotes (remote_create c rc aux).1 = <[id := r]> (c_remotes c) ∧ c_remotes c !! id = None ∧ r_role r = OFPCR_ROLE_EQUAL.
Proof.
  intros [Ht Hnd Hl Hc Hr Hm Hg] Hrc Haux. unfold remote_create. set (id := fresh _). cbn [fst].
  assert (Hnew : c_remotes c !! id = None) by (apply not_elem_of_dom, is_fresh).
  split; [|by eexists id, _]. assert (Hroles : ∀ d x, <[id := Remote rc aux OFPCR_ROLE_EQUAL default_config]> (c_remotes c) !! d = Some x →
    r_role x = OFPCR_ROLE_MASTER → c_remotes c !! d = Some x).
  { intros d x. destruct (decide (d = id)) as [->|]; [rewrite lookup_insert_eq; by intros [= <-]|by rewrite lookup_insert_ne]. }
  split; cbn; try done.
  - apply list.NoDup_app. split_and!; [done| |apply list.NoDup_singleton]. intros d Hd ->%list_elem_of_singleton.
    apply Hl in Hd as [? ?]. congruence.
  - intros d. rewrite elem_of_app, list_elem_of_singleton, Hl. destruct (decide (d = id)) as [->|].
    + rewrite lookup_insert_eq. split; [by eexists|by right].
    + rewrite lookup_insert_ne by done. naive_solver.
  - rewrite !dom_insert_L. by rewrite Hc.
  - intros d x. destruct (decide (d = id)) as [->|Hne].
    + rewrite lookup_insert_eq. intros [= <-]. destruct (Hrc id) as [H1 H2].
      assert (Ha : ∀ k, cnt id (aux_txq (Remote rc aux k default_config)) = 0).
      { intros k. unfold aux_txq; cbn. destruct aux as [a|]; [|done]. by rewrite (proj2 (Haux a id eq_refl)). }
      split; cbn [r_rconn r_rconn_aux r_role]; rewrite ?H2, ?Ha; try done; [|by cbn; rewrite lookup_insert_eq|by left].
      intros a ->. by apply Haux.
    + rewrite lookup_insert_ne by done. intros Hx. destruct (Hr d x Hx). split; try done. cbn. by rewrite lookup_insert_ne.
  - intros d d' x x' Hx Hx' Hr1 Hr2. eapply Hm; [by apply Hroles|by apply Hroles|done..].
Qed.

Section dp_run.
  Context {X : Type} (now : Z) (V : vconn) (xid : Z) (H : handler X) (I : X → Prop) `{HH : !HandlerOk now H I} (HV : net_bytes V).

(** Every remote but [id] is still there. *)
Definition keeps (id : positive) (c c' : ctl) : Prop := ∀ d, d ≠ id → is_Some (c_remotes c !! d) → is_Some (c_remotes c' !! d).

Lemma same_keeps id c c' : same_remotes c c' → keeps id c c'.
Proof using. intros [_ Hs] d _ [r Hr]. specialize (Hs d). rewrite Hr in Hs. by destruct (c_remotes c' !! d). Qed.

Lemma main_conn c id : is_Some (c_remotes c !! id) → has_conn c id MAIN_CONNECTION.
Proof using. intros [r Hr]. by exists r, (r_rconn r). Qed.

Lemma remote_run_ok x c id :
  I x → ctl_ok now c → is_Some (c_remotes c !! id) →
  done_or now H I (remote_run now V xid H x c id) (λ s, I s.1 ∧ ctl_ok now s.2 ∧ keeps id c s.2).
Proof using HH HV.
  intros Hx Hok Hid. unfold remote_run. eapply done_bind; [by apply remote_rconn_run_ok; [..|apply main_conn]|].
  intros [x1 c1] (Hx1 & Hok1 & Hs1). cbn [fst snd] in *. destruct (same_conn _ _ _ _ Hs1 (main_conn c id Hid)) as (r & rc & Hr & _). rewrite Hr; cbn [mbind option_bind].
  destruct (rconn_is_alive (r_rconn r)); cbn [negb].
  - destruct (r_rconn_aux r) as [aux|] eqn:Haux; [|left; exists (x1, c1); split_and!; [done..|by apply same_keeps]].
    destruct (rconn_is_alive aux); [|left; exists (x1, c1); split_and!; [done..|by apply same_keeps]].
    destruct (remote_rconn_run_ok now V xid H I HV x1 c1 id PTIN_CONNECTION) as [([x2 c2] & -> & Hx2 & Hok2 & Hs2)|Hx']; [done|done|by exists r, aux| |by right].
    left. exists (x2, c2). split_and!; [done..|]. apply same_keeps. by etrans.
  - destruct (remote_destroy_ok now c1 id) as (c2 & -> & Hok2 & E); [done|by eexists|]. left. eexists. split_and!; [done|by apply forget_ok|done|].
    intros d Hne Hd. cbn [snd]. rewrite E, lookup_delete_ne by done. by apply (same_keeps id c c1 Hs1).
Qed.

Lemma remotes_loop_ok l x c :
  I x → ctl_ok now c → NoDup l → (∀ id, id ∈ l → is_Some (c_remotes c !! id)) →
  done_or now H I (remotes_loop now V xid H x c l) (λ s, I s.1 ∧ ctl_ok now s.2).
Proof using HH HV.
  revert x c; induction l as [|id l IH]; intros x c Hx Hok Hnd Hl; [by left; exists (x, c)|]. apply list.NoDup_cons in Hnd as [Hid Hnd].
  cbn [remotes_loop]. eapply done_bind; [apply remote_run_ok; [done|done|apply Hl, list_elem_of_here]|]. intros [x1 c1] (Hx1 & Hok1 & Hk).
  apply IH; [done..|]. intros d Hd. apply Hk; [by intros ->|]. by apply Hl, list_elem_of_further.
Qed.
End dp_run.

(** * Accepting *)

Definition accepts (A : positive → answer) (x : positive * option positive) : Prop := A x.1 = Ok.
Definition fails (A : positive → answer) (x : positive * option positive) : Prop := A x.1 = Failed.

#[global] Instance answer_eq : EqDecision answer.
Proof. solve_decision. Defined.
#[global] Instance accepts_dec A x : Decision (accepts A x).
Proof. unfold accepts. apply _. Defined.
#[global] Instance fails_dec A x : Decision (fails A x).
Proof. unfold fails. apply _. Defined.

Lemma accept_one now c aux :
  ctl_ok now c → let c' := (remote_create c (rconn_new_from_vconn now) (if aux : bool then Some (rconn_new_from_vconn now) else None)).1 in
  ctl_ok now c' ∧ size (c_remotes c') = S (size (c_remotes c)).
Proof.
  intros Hok. destruct (co_time _ _ Hok) as [H1 H2].
  destruct (remote_create_ok now c (rconn_new_from_vconn now) (if aux then Some (rconn_new_from_vconn now) else None) Hok) as [Hc (id & r & E & Hn & _)].
  - intros id. split; [by apply accepted_ok|done].
  - intros a id. destruct aux; [|done]. intros [= <-]. split; [by apply accepted_ok|done].
  - split; [done|]. rewrite E. by apply map_size_insert_None.
Qed.

(** Each listener is asked once; those that fail are dropped, whatever their place. *)
Lemma accept_loop_ok now A n past todo c :
  ctl_ok now c → length todo = n →
  ∃ ls c', accept_loop now A n (length past) (past ++ todo) c = (past ++ ls, c') ∧ ctl_ok now c' ∧
    ls ≡ₚ base.filter (λ x, ¬ fails A x) todo ∧
    size (c_remotes c') = (size (c_remotes c) + length (base.filter (accepts A) todo))%nat.
Proof.
  revert past todo c; induction n as [|n IH]; intros past todo c Hok Hn.
  { apply nil_length_inv in Hn as ->. exists [], c. split_and!; [done..|]. cbn. lia. }
  destruct todo as [|[p q] todo]; [done|]. cbn [accept_loop]. rewrite list_lookup_middle by done. cbn in Hn.
  assert (Hnext : ∀ c1 k, ctl_ok now c1 → size (c_remotes c1) = (size (c_remotes c) + k)%nat → A p ≠ Failed →
    length (base.filter (accepts A) ((p, q) :: todo)) = (k + length (base.filter (accepts A) todo))%nat →
    ∃ ls c', accept_loop now A n (S (length past)) (past ++ (p, q) :: todo) c1 = (past ++ ls, c') ∧ ctl_ok now c' ∧
      ls ≡ₚ base.filter (λ x, ¬ fails A x) ((p, q) :: todo) ∧
      size (c_remotes c') = (size (c_remotes c) + length (base.filter (accepts A) ((p, q) :: todo)))%nat).
  { intros c1 k Hok1 Hk HA Hlen. destruct (IH (past ++ [(p, q)]) todo c1 Hok1) as (ls & c' & E & Hok' & Hp & Hsz); [lia|].
    exists ((p, q) :: ls), c'. rewrite length_app, <- app_assoc in E. cbn [length app] in E. rewrite Nat.add_1_r in E.
    rewrite E, <- app_assoc. split_and!; [done..| |lia]. rewrite filter_cons_True by done. by apply Permutation_cons. }
  destruct (A p) eqn:HA.
  - set (aux := match q with Some _ => _ | None => _ end).
    assert (∃ b : bool, aux = if b then Some (rconn_new_from_vconn now) else None) as [b ->].
    { unfold aux. destruct q as [q|]; [|by exists false]. destruct (A q); [by exists true|by exists false..]. }
    destruct (accept_one now c b Hok) as [H1 H2]. apply (Hnext _ 1%nat); [done|rewrite H2; lia|done|]. by rewrite filter_cons_True.
  - apply (Hnext _ 0%nat); [done|lia|done|]. rewrite filter_cons_False; [done|]. unfold accepts; cbn. congruence.
  - rewrite !(filter_cons_False (λ x, ¬ fails A x)), (filter_cons_False (accepts A)) by (unfold accepts, fails; cbn; naive_solver congruence).
    destruct todo as [|z mid _] using rev_ind.
    + rewrite length_app; cbn [length]. rewrite Nat.add_sub. destruct (IH past [] c Hok) as (ls & c' & E & ? & ? & ?); [cbn in *; lia|].
      exists ls, c'. rewrite list_lookup_middle by done. rewrite insert_app_r_alt, Nat.sub_diag by done. cbn [list_insert].
      rewrite take_app_length, app_nil_r in *. done.
    + destruct (IH past (z :: mid) c Hok) as (ls & c' & E & ? & Hp & Hsz); [rewrite length_app in Hn; cbn in *; lia|].
      exists ls, c'. replace (length (past ++ (p, q) :: mid ++ [z]) - 1)%nat with (length (past ++ (p, q) :: mid)) by (rewrite !length_app; cbn; rewrite length_app; cbn; lia).
      assert (Hi : <[length past := z]> (past ++ (p, q) :: mid ++ [z]) = (past ++ z :: mid) ++ [z]).
      { rewrite insert_app_r_alt, Nat.sub_diag by done. by rewrite <- app_assoc. }
      rewrite (app_comm_cons mid), (app_assoc past), list_lookup_middle, <- app_assoc by done. cbn [app]. rewrite Hi.
      rewrite take_app_length' by (rewrite !length_app; done).
      split_and!; [done..| |]; rewrite ?Hp, ?Hsz; rewrite (Permutation_app_comm mid [z]); done.
Qed.

(** * Roles *)

Definition valid_role (role : Z) : Prop := role = OFPCR_ROLE_EQUAL ∨ role = OFPCR_ROLE_MASTER ∨ role = OFPCR_ROLE_SLAVE.
Definition conns (r : remote) : rconn * option rconn := (r_rconn r, r_rconn_aux r).

(** The role of a remote [id], which was [old], after a request that is granted. *)
Definition granted (sender : positive) (msg_role : Z) (id : positive) (old : Z) : Z :=
  if msg_role =? OFPCR_ROLE_NOCHANGE then old
  else if bool_decide (id = sender) then msg_role
  else if (msg_role =? OFPCR_ROLE_MASTER) && (old =? OFPCR_ROLE_MASTER) then OFPCR_ROLE_SLAVE else old.

Definition with_role (r : remote) (role : Z) : remote := Remote (r_rconn r) (r_rconn_aux r) role (r_config r).

Lemma with_role_same r : with_role r (r_role r) = r.
Proof. by destruct r. Qed.

Lemma demote_loop l c id :
  let f := λ c id, match c_remotes c !! id with
                   | Some r => if r_role r =? OFPCR_ROLE_MASTER then set_role c id OFPCR_ROLE_SLAVE else c
                   | None => c
                   end in
  let c' := foldl f c l in
  c_order c' = c_order c ∧ c_generation_id c' = c_generation_id c ∧ c_net c' = c_net c ∧
  c_remotes c' !! id = (λ r, with_role r (if bool_decide (id ∈ l) && (r_role r =? OFPCR_ROLE_MASTER) then OFPCR_ROLE_SLAVE else r_role r)) <$> c_remotes c !! id.
Proof.
  intros f. revert c; induction l as [|d l IH]; intros c.
  { split_and!; try done. cbn. destruct (c_remotes c !! id) as [r|]; [|done]. by destruct r. }
  cbn [foldl]. destruct (IH (f c d)) as (E1 & E2 & E3 & E4). rewrite E1, E2, E3, E4. unfold f at 1 2 3 4.
  assert (Hin : id ≠ d → bool_decide (id ∈ d :: l) = bool_decide (id ∈ l)).
  { intros Hne. apply bool_decide_ext. rewrite elem_of_cons. naive_solver. }
  destruct (c_remotes c !! d) as [r|] eqn:Hd.
  - destruct (r_role r =? OFPCR_ROLE_MASTER) eqn:Hm; (split_and!; [done..|]); destruct (decide (id = d)) as [->|Hne]; cbn; rewrite ?Hin by done.
    + rewrite lookup_alter_eq, Hd. cbn. rewrite andb_false_r, Hm, (bool_decide_true (d ∈ d :: l)) by apply list_elem_of_here. done.
    + by rewrite lookup_alter_ne.
    + rewrite Hd. cbn. by rewrite Hm, !andb_false_r.
    + done.
  - split_and!; [done..|]. destruct (decide (id = d)) as [->|Hne]; [by rewrite Hd|by rewrite Hin].
Qed.

Lemma demote_spec c id :
  c_order (demote c) = c_order c ∧ c_generation_id (demote c) = c_generation_id c ∧ c_net (demote c) = c_net c ∧
  c_remotes (demote c) !! id = (λ r, with_role r (if bool_decide (id ∈ c_order c) && (r_role r =? OFPCR_ROLE_MASTER) then OFPCR_ROLE_SLAVE else r_role r)) <$> c_remotes c !! id.
Proof. exact (demote_loop (c_order c) c id). Qed.

Lemma roles_ok now c c' f :
  ctl_ok now c → c_order c' = c_order c → c_net c' = c_net c → fits 64 (c_generation_id c') →
  (∀ id, c_remotes c' !! id = (λ r, with_role r (f id (r_role r))) <$> c_remotes c !! id) →
  (∀ id old, valid_role old → valid_role (f id old)) →
  (∀ id id' r r', c_remotes c !! id = Some r → c_remotes c !! id' = Some r' →
    f id (r_role r) = OFPCR_ROLE_MASTER → f id' (r_role r') = OFPCR_ROLE_MASTER → id = id') →
  ctl_ok now c'.
Proof.
  intros [Ht Hnd Hl Hc Hr Hm Hg] Eo En Hg' Hf Hv Hu.
  assert (Hs : ∀ id, is_Some (c_remotes c' !! id) ↔ is_Some (c_remotes c !! id)) by (intros id; by rewrite Hf, fmap_is_Some).
  split; rewrite ?Eo, ?En; try done.
  - intros id. by rewrite Hs.
  - apply set_eq. intros id. rewrite Hc, !elem_of_dom. by rewrite Hs.
  - intros id r'. rewrite Hf. intros (r & Hx & ->)%fmap_Some. destruct (Hr id r Hx). split; try done. by apply Hv.
  - intros id id' x x'. rewrite !Hf. intros (r & H1 & ->)%fmap_Some (r' & H2 & ->)%fmap_Some. cbn. by apply Hu.
Qed.

(** Changing the role of the sender alone. *)
Lemma set_role_lookup c sender role id :
  c_remotes (set_role c sender role) !! id =
  (λ r, with_role r (if bool_decide (id = sender) then role else r_role r)) <$> c_remotes c !! id.
Proof.
  cbn. destruct (decide (id = sender)) as [->|Hne]; [rewrite lookup_alter_eq, bool_decide_true by done; done|].
  rewrite lookup_alter_ne, bool_decide_false by done. destruct (c_remotes c !! id) as [r|]; [|done]. by destruct r.
Qed.

Lemma granted_ok now c c' sender msg_role :
  ctl_ok now c → c_order c' = c_order c → c_net c' = c_net c → fits 64 (c_generation_id c') →
  valid_role msg_role ∨ msg_role = OFPCR_ROLE_NOCHANGE →
  (∀ id, c_remotes c' !! id = (λ r, with_role r (granted sender msg_role id (r_role r))) <$> c_remotes c !! id) → ctl_ok now c'.
Proof.
  intros Hok E1 E2 Hg Hv Hr. eapply roles_ok; try done.
  - intros id old Hold. unfold granted. destruct (Z.eqb_spec msg_role OFPCR_ROLE_NOCHANGE); [done|].
    case_bool_decide; [by destruct Hv|]. case_match; [by right; right|done].
  - intros id id' r r' H1 H2. unfold granted. destruct (Z.eqb_spec msg_role OFPCR_ROLE_NOCHANGE); [by eapply co_master|].
    destruct (Z.eqb_spec msg_role OFPCR_ROLE_MASTER) as [->|Hne]; cbn [andb].
    + repeat case_bool_decide; subst; try done; repeat case_match; try done; rewrite Z.eqb_neq in *; done.
    + repeat case_bool_decide; subst; try done. by eapply co_master.
Qed.

(** What the generation id test finds. *)
Definition stale (c : ctl) (generation_id : Z) : Prop := int64 (generation_id - c_generation_id c) < 0.

Lemma check_generation c g :
  fits 64 (c_generation_id c) →
  stale c g ∧ dp_check_generation_id c g = (c, ofl_error OFPET_ROLE_REQUEST_FAILED 0) ∨
  ¬ stale c g ∧ dp_check_generation_id c g = (set_generation c g, 0).
Proof.
  intros [Hf _]. unfold dp_check_generation_id, stale. rewrite (proj2 (Z.leb_le _ _)) by done. cbn [andb].
  destruct (Z.ltb_spec (int64 (g - c_generation_id c)) 0); [by left|right]. split; [lia|done].
Qed.

(** What a role request that gives [c'] and [res] must have done. *)
Definition role_answered (c : ctl) (sender : positive) (r : remote) (msg_role generation_id : Z) (c' : ctl) (res : Z * Z + Z) : Prop :=
  match res with
  | inr err => c' = c ∧
      ((msg_role = OFPCR_ROLE_MASTER ∨ msg_role = OFPCR_ROLE_SLAVE) ∧ stale c generation_id ∧ err = ofl_error OFPET_ROLE_REQUEST_FAILED 0 ∨
       ¬ valid_role msg_role ∧ msg_role ≠ OFPCR_ROLE_NOCHANGE ∧ err = ofl_error OFPET_ROLE_REQUEST_FAILED 2)
  | inl (role, gen) =>
      c_order c' = c_order c ∧ c_net c' = c_net c ∧
      (∀ id, c_remotes c' !! id = (λ r, with_role r (granted sender msg_role id (r_role r))) <$> c_remotes c !! id) ∧
      role = granted sender msg_role sender (r_role r) ∧
      gen = (if msg_role =? OFPCR_ROLE_NOCHANGE then c_generation_id c else generation_id) ∧
      c_generation_id c' = (if (msg_role =? OFPCR_ROLE_MASTER) || (msg_role =? OFPCR_ROLE_SLAVE) then generation_id else c_generation_id c) ∧
      ((msg_role = OFPCR_ROLE_MASTER ∨ msg_role = OFPCR_ROLE_SLAVE) → ¬ stale c generation_id)
  end.

Lemma role_request_spec now c sender r msg_role generation_id :
  ctl_ok now c → c_remotes c !! sender = Some r → fits 64 generation_id →
  ∃ c' res, dp_handle_role_request c sender msg_role generation_id = Some (c', res) ∧ ctl_ok now c' ∧
    role_answered c sender r msg_role generation_id c' res.
Proof.
  intros Hok Hr Hg. unfold role_answered, dp_handle_role_request. rewrite Hr; cbn [mbind option_bind]. pose proof (co_generation _ _ Hok) as Hgc.
  destruct (Z.eqb_spec msg_role OFPCR_ROLE_NOCHANGE) as [->|H0].
  { eexists _, _. split; [done|]. split; [done|]. split_and!; [done..| |done|done|done|by intros [?|?]]. intros id. destruct (c_remotes c !! id) as [x|]; [|done]. by destruct x. }
  assert (Hsender : granted sender msg_role sender (r_role r) = msg_role).
  { unfold granted. rewrite (proj2 (Z.eqb_neq _ _) H0), bool_decide_true by done. done. }
  assert (Hset : ∀ role c1, msg_role = role → role ≠ OFPCR_ROLE_MASTER → c_remotes c1 = c_remotes c → ∀ id, c_remotes (set_role c1 sender role) !! id =
    (λ r, with_role r (granted sender msg_role id (r_role r))) <$> c_remotes c !! id).
  { intros role c1 -> Hm E id. rewrite set_role_lookup, E. unfold granted. rewrite (proj2 (Z.eqb_neq _ _) H0), (proj2 (Z.eqb_neq _ _) Hm). done. }
  destruct (Z.eqb_spec msg_role OFPCR_ROLE_EQUAL) as [->|H1].
  { eexists _, _. split; [done|]. split; [apply (granted_ok now c _ sender OFPCR_ROLE_EQUAL); try done; [by left; left|by apply Hset]|].
    split_and!; [done..|by apply Hset|done|done|done|by intros [?|?]]. }
  destruct (Z.eqb_spec msg_role OFPCR_ROLE_MASTER) as [->|H2].
  { destruct (check_generation c generation_id Hgc) as [[Hs ->]|[Hs ->]]; cbn [truthy].
    { eexists _, _. split; [done|]. do 2 (split; [done|]). left. by split_and!; [left|..]. }
    set (c1 := set_generation c generation_id). destruct (demote_spec c1 sender) as (E1 & E2 & E3 & _). cbn [truthy negb Z.eqb].
    assert (Hroles : ∀ id, c_remotes (set_role (demote c1) sender OFPCR_ROLE_MASTER) !! id =
      (λ r, with_role r (granted sender OFPCR_ROLE_MASTER id (r_role r))) <$> c_remotes c !! id).
    { intros id. rewrite set_role_lookup. destruct (demote_spec c1 id) as (_ & _ & _ & E4). rewrite E4.
      change (c_remotes c1) with (c_remotes c). destruct (c_remotes c !! id) as [x|] eqn:Hx; [|done]. cbn. f_equal.
      assert (Hin : bool_decide (id ∈ c_order c) = true) by (apply bool_decide_eq_true, (co_listed _ _ Hok); by eexists).
      rewrite Hin. unfold granted. cbn. by case_bool_decide. }
    eexists _, _. split; [done|]. split; [apply (granted_ok now c _ sender OFPCR_ROLE_MASTER); try done; [by cbn [set_role c_generation_id]; rewrite E2|by left; right; left]|]. by split_and!. }
  destruct (Z.eqb_spec msg_role OFPCR_ROLE_SLAVE) as [->|H3].
  - destruct (check_generation c generation_id Hgc) as [[Hs ->]|[Hs ->]]; cbn [truthy].
    { eexists _, _. split; [done|]. do 2 (split; [done|]). left. by split_and!; [right|..]. }
    eexists _, _. split; [done|]. split; [apply (granted_ok now c _ sender OFPCR_ROLE_SLAVE); try done; [by left; right; right|by apply Hset]|].
    split_and!; try done. by apply Hset.
  - eexists _, _. split; [done|]. do 2 (split; [done|]). right. split_and!; [|done..]. by intros [?|[?|?]].
Qed.

(** C24: role requests.  A request to become master makes the sender the only master: the
    one before becomes a slave.  A request for another role changes the sender alone, one
    for no change only reports.  A request whose generation id is older than the last one,
    in signed 64-bit arithmetic, and one for an unknown role, are refused and change nothing.  The
    answer carries the role and the generation id; connections stay as they are. *)
Theorem role_request_exact (now : Z) (c : ctl) (sender : positive) (r : remote) (msg_role generation_id : Z)
    (Hok : ctl_ok now c) (Hr : c_remotes c !! sender = Some r) (Hg : fits 64 generation_id) :
  ∃ c' res, dp_handle_role_request c sender msg_role generation_id = Some (c', res) ∧ ctl_ok now c' ∧
    role_answered c sender r msg_role generation_id c' res.
Proof. by apply role_request_spec. Qed.

(** * Examples to evaluate *)

Lemma no_remotes_ok t : 0 <= t → t + 60 < UINT_MAX → ctl_ok t no_remotes.
Proof.
  intros. split; try done; [by apply base.NoDup_nil_2|]. intros id. cbn. rewrite elem_of_nil. split; [done|by intros [? ?]].
Qed.

(** Two controllers have connected at time 10. *)
Definition ex_accepted := accept_loop 10 (λ _, Ok) 2 0 [(1%positive, None); (2%positive, None)] no_remotes.
Definition ex_ctl : ctl := ex_accepted.2.

Lemma ex_ctl_ok : ctl_ok 10 ex_ctl.
Proof.
  destruct (accept_loop_ok 10 (λ _, Ok) 2 [] [(1%positive, None); (2%positive, None)] no_remotes) as (ls & c & E & Hok & _);
    [by apply no_remotes_ok|done|]. unfold ex_ctl, ex_accepted. cbn [length app] in E. rewrite E. done.
Qed.

Definition ex_ids : list positive := c_order ex_ctl.
Definition ex_main : positive := default 1%positive (ex_ids !! 0%nat).

Lemma ex_main_some : is_Some (c_remotes ex_ctl !! ex_main).
Proof. vm_compute. by eexists. Qed.

(** Role requests at these two. *)
Lemma role_request_exact_witness :
  ∃ r, c_remotes ex_ctl !! ex_main = Some r ∧
    ∃ c' res, dp_handle_role_request ex_ctl ex_main OFPCR_ROLE_MASTER 7 = Some (c', res) ∧ ctl_ok 10 c'.
Proof.
  destruct ex_main_some as [r Hr]. exists r. split; [exact Hr|].
  destruct (role_request_exact 10 ex_ctl ex_main r OFPCR_ROLE_MASTER 7 ex_ctl_ok Hr) as (c' & res & E & Hok & _); [split; done|].
  exists c', res. split; [exact E|exact Hok].
Defined.

(** * Theorems on sending *)

Lemma send_other now V c data conn_id id c' x d :
  send_openflow_buffer_to_remote now V c data conn_id id = Some (c', x) → d ≠ id → c_remotes c' !! d = c_remotes c !! d.
Proof.
  unfold send_openflow_buffer_to_remote. intros E Hne. destruct (c_remotes c !! id) as [r|]; [|done]. destruct (to_msg data) as [m|]; [|done].
  cbn [mbind option_bind] in E. destruct (r_rconn_aux r) as [aux|]; [destruct (_ && rconn_is_connected aux)|];
    destruct (rconn_send_with_limit _ _ _ _ _ _ _) as [[[? ?] ?]|]; try done; cbn [mbind option_bind] in E; injection E as <- _;
    cbn; by rewrite lookup_insert_ne.
Qed.

Lemma send_each_other now V data conn_id l c c' d :
  send_each now V c data conn_id l = Some c' → d ∉ l → c_remotes c' !! d = c_remotes c !! d.
Proof.
  revert c; induction l as [|id l IH]; intros c; cbn [send_each]; [by intros [= <-]|].
  destruct (send_openflow_buffer_to_remote _ _ _ _ _ _) as [[c1 x]|] eqn:E; [|done]. cbn [mbind option_bind]. intros H [Hd Hl]%not_elem_of_cons.
  rewrite (IH c1 H Hl). by eapply send_other.
Qed.

Lemma broadcast_all now V c data t :
  ctl_ok now c → data_ok data → data !! 1%nat = Some t →
  ∃ c', dp_send_message now V c data None = Some (c', 0) ∧
    send_each now V c data (conn_of t None) (base.filter (wants c data) (c_order c)) = Some c' ∧ ctl_ok now c' ∧ same_ctl c c'.
Proof.
  intros Hok Hd Ht. unfold dp_send_message. rewrite Ht; cbn [mbind option_bind fmap option_fmap option_map send_openflow_buffer].
  destruct (broadcast_each now V data (conn_of t None) (c_order c) c None Hok Hd) as (c1 & p1 & -> & E); [|done|].
  { intros id. apply (co_listed _ _ Hok). }
  destruct (send_each_ok now V data (conn_of t None) (base.filter (wants c data) (c_order c)) c Hok Hd) as (c2 & E2 & Hok2 & Hs2).
  { intros id [_ Hin]%list_elem_of_filter. by apply (co_listed _ _ Hok). }
  change (option_list None) with (@nil positive) in E. cbn [app] in E. cbn [mbind option_bind]. rewrite E, E2. cbn. by exists c2.
Qed.

Lemma broadcast_ok now V c data : ctl_ok now c → data_ok data → ∃ c', dp_send_message now V c data None = Some (c', 0) ∧ ctl_ok now c'.
Proof.
  intros Hok Hd. destruct (lookup_lt_is_Some_2 data 1) as [t Ht]; [unfold data_ok in Hd; lia|].
  destruct (broadcast_all now V c data t Hok Hd Ht) as (c' & ? & _ & ? & _). by exists c'.
Qed.

(** Asynchronous messages.  A message for all controllers is sent to each that wants
    it by its role and its configuration, once and in the order of the list, as if one send were
    made for each: the copies the loop makes and the buffer it keeps for the last one add
    up.  A controller that does not want it, or that cannot take it, costs the
    others nothing, and the invariant of the connections is kept. *)
Theorem broadcast_exact (now : Z) (V : vconn) (c : ctl) (data : list Z) (t : Z)
    (Hok : ctl_ok now c) (Hd : data_ok data) (Ht : data !! 1%nat = Some t) :
  ∃ c', dp_send_message now V c data None = Some (c', 0) ∧
    send_each now V c data (conn_of t None) (base.filter (wants c data) (c_order c)) = Some c' ∧
    ctl_ok now c' ∧ same_ctl c c' ∧ ∀ id, ¬ wants c data id → c_remotes c' !! id = c_remotes c !! id.
Proof.
  destruct (broadcast_all now V c data t Hok Hd Ht) as (c2 & E1 & E2 & Hok2 & Hs2). exists c2. split_and!; [done..|].
  intros id Hw. eapply send_each_other; [exact E2|]. intros [? _]%list_elem_of_filter. done.
Qed.

Definition ex_echo : list Z := [4; OFPT_ECHO_REPLY; 0; 20; 0; 0; 0; 1; 1; 2; 3; 4; 5; 6; 7; 8; 9; 10; 11; 12].

Lemma broadcast_exact_witness :
  ∃ c', dp_send_message 10 ex_V ex_ctl ex_echo None = Some (c', 0) ∧ ctl_ok 10 c'.
Proof.
  destruct (broadcast_exact 10 ex_V ex_ctl ex_echo OFPT_ECHO_REPLY ex_ctl_ok) as (c' & E & _ & Hok & _).
  - unfold data_ok. cbn. lia.
  - reflexivity.
  - exists c'. split; [exact E|exact Hok].
Defined.

(** Replies.  A reply goes out exactly when the connection it is to go by is up and
    less than 128 messages of its controller are queued.  Otherwise the send fails and deletes the
    buffer, and [dp_send_message] deletes it again: its behaviour is undefined. *)
Theorem reply_defined_iff (now : Z) (V : vconn) (c : ctl) (data : list Z) (id : positive) (r : remote) (n t : Z)
    (Hok : ctl_ok now c) (Hd : headed data) (Ht : data !! 1%nat = Some t ∧ t ≠ OFPT_PACKET_IN)
    (Hr : c_remotes c !! id = Some r) (Hn : ns_counters (c_net c) !! id = Some n) :
  is_Some (dp_send_message now V c data (Some (id, MAIN_CONNECTION))) ↔ n < TXQ_LIMIT ∧ rconn_is_connected (r_rconn r) = true.
Proof.
  destruct Ht as [Ht Hne]. unfold dp_send_message. rewrite Ht; cbn [mbind option_bind fmap option_fmap option_map send_openflow_buffer fst snd default from_option].
  unfold conn_of. rewrite (proj2 (Z.eqb_neq _ _) Hne). unfold send_openflow_buffer_to_remote. rewrite Hr; cbn [mbind option_bind].
  destruct (to_msg_ok data Hd) as [m ->]; cbn [mbind option_bind]. destruct (co_remote _ _ Hok id r Hr) as [Hm Ha Hc Hl _].
  destruct (send_limit_ok now V id (c_net c) (cnt id (aux_txq r)) (r_rconn r) m Hm Hc Hl) as (rc' & w' & x & -> & _ & _ & _ & _ & _ & Hx).
  assert (En : n = cnt id (rc_txq (r_rconn r)) + cnt id (aux_txq r)) by congruence. rewrite En, <- Hx.
  change (default MAIN_CONNECTION (Some MAIN_CONNECTION) =? PTIN_CONNECTION) with false. destruct (r_rconn_aux r); cbn [mbind option_bind andb]; unfold truthy; destruct (Z.eqb_spec x 0); cbn [negb];
    (split; [by intros [? ?]|intros ?; first [done|eexists; reflexivity]]).
Qed.

Lemma reply_defined_iff_witness :
  ∃ r n, is_Some (dp_send_message 10 ex_V ex_ctl ex_echo (Some (ex_main, MAIN_CONNECTION))) ↔ n < TXQ_LIMIT ∧ rconn_is_connected r = true.
Proof.
  destruct (c_remotes ex_ctl !! ex_main) as [r|] eqn:Hr; [|by destruct ex_main_some; congruence].
  destruct (ns_counters (c_net ex_ctl) !! ex_main) as [n|] eqn:Hn.
  2: { rewrite (rm_count _ _ _ _ (co_remote _ _ ex_ctl_ok _ _ Hr)) in Hn. discriminate. }
  exists (r_rconn r), n. apply (reply_defined_iff 10 ex_V ex_ctl ex_echo ex_main r n OFPT_ECHO_REPLY ex_ctl_ok); [|split; done|exact Hr|exact Hn].
  unfold headed. cbn. lia.
Defined.

(** * Sequences of events *)

(** A turn of the main loop, and an asynchronous message from the rest of the datapath. *)
Inductive dp_event :=
  | EvRun (now : Z) (V : vconn) (xid : Z) (A : positive → answer)
  | EvSend (now : Z) (V : vconn) (data : list Z).

Definition dp_step {X} (H : Z → vconn → handler X) (e : dp_event) (s : list (positive * option positive) * X * ctl) :
    option (list (positive * option positive) * X * ctl) :=
  let '(ls, x, c) := s in
  match e with
  | EvRun now V xid A => dp_run_controllers now V xid (H now V) A ls x c
  | EvSend now V data => '(c, _) ← dp_send_message now V c data None; Some (ls, x, c)
  end.

Fixpoint dp_steps {X} (H : Z → vconn → handler X) (es : list dp_event) (s : list (positive * option positive) * X * ctl) :
    option (list (positive * option positive) * X * ctl) :=
  match es with [] => Some s | e :: es => s ← dp_step H e s; dp_steps H es s end.

Fixpoint events_ok (t : Z) (es : list dp_event) : Prop :=
  match es with
  | [] => True
  | EvRun now V _ _ :: es => t <= now ∧ now + 60 < UINT_MAX ∧ net_bytes V ∧ events_ok now es
  | EvSend now _ data :: es => t <= now ∧ now + 60 < UINT_MAX ∧ data_ok data ∧ events_ok now es
  end.

Lemma dp_run_ok {X} now V xid (H : handler X) I `{!HandlerOk now H I} A ls x c :
  net_bytes V → I x → ctl_ok now c →
  done_or now H I (dp_run_controllers now V xid H A ls x c) (λ s, I s.1.2 ∧ ctl_ok now s.2 ∧ s.1.1 ⊆ ls).
Proof.
  intros HV Hx Hok. unfold dp_run_controllers. eapply done_bind; [apply remotes_loop_ok; [done|done|done|done|apply Hok|]|].
  - intros id. apply (co_listed _ _ Hok).
  - intros [x1 c1] [Hx1 Hok1]. left. destruct (accept_loop_ok now A (length ls) [] ls c1 Hok1 eq_refl) as (ls' & c' & E & Hok' & Hp & _).
    cbn in E. rewrite E. eexists. split; [done|]. cbn.
    split_and!; [done..|]. rewrite Hp. intros y [_ ?]%list_elem_of_filter. done.
Qed.

(** Any sequence of turns of the main loop and of messages to all controllers. *)
Lemma dp_steps_ok {X} (H : Z → vconn → handler X) I (HH : ∀ now V, HandlerOk now (H now V) I) (es : list dp_event) t ls x c :
  I x → ctl_ok t c → events_ok t es →
  (∃ ls' x' c' t', dp_steps H es (ls, x, c) = Some (ls', x', c') ∧ I x' ∧ ctl_ok t' c' ∧ ls' ⊆ ls) ∨
  ∃ now V x c id conn_id b, I x ∧ ctl_ok now c ∧ has_conn c id conn_id ∧ bytes (m_body b) ∧ h_message (H now V) x c id conn_id b = None.
Proof.
  revert t ls x c. induction es as [|e es IH]; intros t ls x c Hx Hok He; [by left; exists ls, x, c, t|].
  cbn [dp_steps]. destruct e as [now V xid A|now V data]; cbn [dp_step].
  - destruct He as (Ht & Hmax & HV & He). assert (Hok1 : ctl_ok now c) by (eapply ctl_ok_later; [done|lia..]).
    destruct (dp_run_ok now V xid (H now V) I A ls x c HV Hx Hok1) as [([[ls2 x2] c2] & -> & Hx2 & Hok2 & Hsub)|Hf]; [|right; by exists now, V].
    cbn in *. destruct (IH now ls2 x2 c2 Hx2 Hok2 He) as [(ls' & x' & c' & t' & E & Hx' & Hok' & Hs')|?]; [left|by right].
    exists ls', x', c', t'. split_and!; [done..|]. by etrans.
  - destruct He as (Ht & Hmax & Hd & He). assert (Hok1 : ctl_ok now c) by (eapply ctl_ok_later; [done|lia..]).
    destruct (broadcast_ok now V c data Hok1 Hd) as (c2 & -> & Hok2). cbn [mbind option_bind]. by eapply IH.
Qed.
