(* ===== verification/Wire.v ===== *)
(** The wire format of actions, instructions, buckets and meter bands:
    oflib/ofl-actions-pack.c, ofl-actions-unpack.c, ofl-actions.c, ofl-structs-pack.c,
    ofl-structs-unpack.c and ofl-structs.c.

    A message is the list of its bytes, [p] an offset into it, and the [*len] that the
    unpacking functions count down is passed on.  Integers on the wire are in network
    byte order; the loads and [ntohs] of the code are the function [get], its [htons] and stores
    the function [be].  Packing appends bytes; that they fill the buffer of the length the
    [_ofp_len] functions compute is a theorem.

    [dp_exp] of udatapath/datapath.c has no callbacks for experimenter actions,
    instructions and matches, so that their branches are those of a NULL callback. *)

From S2P Require Import Prelude Memory OpenFlow Group Meter.

(** * Results *)

(** [Undef]: a read outside of the message, or of memory that was never set.  [Hang]: a
    loop that does not end.  [Err]: the error code the function returns. *)
Inductive res (A : Type) := Undef | Hang | Err (e : Z) | Val (a : A).
Arguments Undef {A}.
Arguments Hang {A}.
Arguments Err {A} _.
Arguments Val {A} _.

#[global] Instance res_bind : MBind res := λ A B f m,
  match m with Undef => Undef | Hang => Hang | Err e => Err e | Val a => f a end.

Definition be_read (bs : list Z) : Z := le_read (rev bs).
Definition be (w : nat) (v : Z) : list Z := rev (le_bytes w v).
Definition zeros (n : nat) : list Z := replicate n 0.

Definition get_bytes (buf : list Z) (p n : nat) : res (list Z) :=
  match mread buf p n with Some bs => Val bs | None => Undef end.
Definition get (w : nat) (buf : list Z) (p : nat) : res Z := bs ← get_bytes buf p w; Val (be_read bs).

Definition ROUND_UP (x : Z) : Z := (x + 7) / 8 * 8.

Definition OFPET_BAD_INSTRUCTION := 3.
Definition OFPBAC_BAD_LEN : Z := ofl_error OFPET_BAD_ACTION 1.
Definition OFPBRC_BAD_LEN : Z := ofl_error OFPET_BAD_REQUEST 6.
(** [ofl_error(OFPET_BAD_ACTION, OFPBRC_BAD_LEN)], as the code has it in places. *)
Definition ACTION_BRC_BAD_LEN : Z := ofl_error OFPET_BAD_ACTION 6.

(** * Counting elements *)

(** The loop of the [ofl_utils_count_ofp_*] functions: while at least [room] bytes are
    left, an element with its length at offset [off], which is at least [least]. *)
Fixpoint count_loop (room least : Z) (off : nat) (e : Z) (fuel : nat) (buf : list Z) (p : nat) (data_len : Z) : res nat :=
  if data_len <? room then Val 0%nat
  else match fuel with
       | O => Hang
       | S fuel =>
         l ← get 2 buf (p + off);
         if (data_len <? l) || (l <? least) then Err e
         else n ← count_loop room least off e fuel buf (p + Z.to_nat l) (data_len - l); Val (S n)
       end.

(** More turns than there are bytes: only a loop that does not end takes them. *)
Definition turns (data_len : Z) : nat := S (Z.to_nat data_len).

Definition ofl_utils_count_ofp_actions (buf : list Z) (p : nat) (data_len : Z) : res nat :=
  count_loop 4 4 2 OFPBAC_BAD_LEN (turns data_len) buf p data_len.
(** [data_len > sizeof(struct ofp_instruction)], which is 4, and a least length of
    [sizeof(struct ofp_instruction) - 4]. *)
Definition ofl_utils_count_ofp_instructions (buf : list Z) (p : nat) (data_len : Z) : res nat :=
  count_loop 5 0 2 OFPBRC_BAD_LEN (turns data_len) buf p data_len.
Definition ofl_utils_count_ofp_buckets (buf : list Z) (p : nat) (data_len : Z) : res nat :=
  count_loop 16 16 0 OFPBRC_BAD_LEN (turns data_len) buf p data_len.
Definition ofl_utils_count_ofp_meter_bands (buf : list Z) (p : nat) (data_len : Z) : res nat :=
  count_loop 12 12 2 OFPBRC_BAD_LEN (turns data_len) buf p data_len.

(** The loops over [n] elements that follow; each element's length is at [off]. *)
Fixpoint unpack_loop {A : Type} (unpack : nat → Z → res (A * Z)) (off : nat) (n : nat) (buf : list Z) (p : nat) (len : Z) :
    res (list A * Z) :=
  match n with
  | O => Val ([], len)
  | S n =>
    '(a, len) ← unpack p len;
    l ← get 2 buf (p + off);
    '(rest, len) ← unpack_loop unpack off n buf (p + Z.to_nat l) len;
    Val (a :: rest, len)
  end.

(** * Actions *)

Definition ETH_TYPE_VLAN := 0x8100.
Definition ETH_TYPE_VLAN_PBB := 0x88a8.
Definition ETH_TYPE_MPLS := 0x8847.
Definition ETH_TYPE_MPLS_MCAST := 0x8848.
Definition ETH_TYPE_PBB := 0x88e7.
Definition OXM_OF_IN_PHY_PORT := OXM_HEADER 0x8000 1 4.

(** The fields of four bytes that are kept in network byte order. *)
Definition keeps_order (header : Z) : bool := bool_decide (OXM_FIELD header ∈ [11; 12; 22; 23]).

(** Between the wire and memory: numbers are turned around, addresses are not.  [None]
    for a length the switch statement does not have. *)
Definition swap_value (header : Z) (value : list Z) : option (list Z) :=
  if bool_decide (OXM_LENGTH header ∈ [1; 3; 6; 16]) then Some value
  else if bool_decide (OXM_LENGTH header ∈ [2; 8]) then Some (rev value)
  else if OXM_LENGTH header =? 4 then Some (if keeps_order header then value else rev value)
  else None.

Definition push_ok (t ethertype : Z) : bool :=
  negb (((t =? 17) && negb (bool_decide (ethertype ∈ [ETH_TYPE_VLAN; ETH_TYPE_VLAN_PBB]))) ||
        ((t =? 19) && negb (bool_decide (ethertype ∈ [ETH_TYPE_MPLS; ETH_TYPE_MPLS_MCAST]))) ||
        ((t =? 26) && negb (ethertype =? ETH_TYPE_PBB))).

(** The case of OFPAT_SET_FIELD; the length of the value comes from the OXM header alone. *)
Definition unpack_set_field (buf : list Z) (p : nat) (alen len : Z) : res (ofl_action * Z) :=
  header ← get 4 buf (p + 4);
  if bool_decide (header ∈ [OXM_OF_IN_PORT; OXM_OF_IN_PHY_PORT; OXM_OF_METADATA; OXM_OF_IPV6_EXTHDR])
  then Err (ofl_error OFPET_BAD_ACTION 13)
  else
    value ← get_bytes buf (p + 8) (Z.to_nat (OXM_LENGTH header));
    match swap_value header value with
    | Some v => Val (ActSetField (Tlv header v), len - ROUND_UP alen)
    | None => Undef
    end.

(** The cases of the switch statement. *)
Definition unpack_action_body (buf : list Z) (p : nat) (alen len : Z) : res (ofl_action * Z) :=
  t ← get 2 buf p;
  if t =? 0 then
    if len <? 16 then Err OFPBAC_BAD_LEN
    else
      port ← get 4 buf (p + 4);
      if (port =? 0) || ((OFPP_MAX <? port) && (port <? OFPP_IN_PORT)) || (port =? OFPP_ANY)
      then Err (ofl_error OFPET_BAD_ACTION 4)
      else max_len ← get 2 buf (p + 8); Val (ActOutput port max_len, len - 16)
  else if t =? 11 then Val (ActCopyTtlOut, len - 8)
  else if t =? 12 then Val (ActCopyTtlIn, len - 8)
  else if t =? 15 then ttl ← get 1 buf (p + 4); Val (ActSetMplsTtl ttl, len - 8)
  else if t =? 16 then Val (ActDecMplsTtl, len - 8)
  else if (t =? 17) || (t =? 19) || (t =? 26) then
    ethertype ← get 2 buf (p + 4);
    if push_ok t ethertype then
      Val ((if t =? 17 then ActPushVlan ethertype else if t =? 19 then ActPushMpls ethertype else ActPushPbb ethertype), len - 8)
    else Err (ofl_error OFPET_BAD_ACTION 5)
  else if t =? 18 then Val (ActPopVlan, len - 8)
  else if t =? 27 then Val (ActPopPbb, len - 8)
  else if t =? 20 then ethertype ← get 2 buf (p + 4); Val (ActPopMpls ethertype, len - 8)
  else if t =? 21 then queue_id ← get 4 buf (p + 4); Val (ActSetQueue queue_id, len - 8)
  else if t =? 22 then
    group_id ← get 4 buf (p + 4);
    if OFPG_MAX <? group_id then Err (ofl_error OFPET_BAD_ACTION 9) else Val (ActGroup group_id, len - 8)
  else if t =? 23 then ttl ← get 1 buf (p + 4); Val (ActSetNwTtl ttl, len - 8)
  else if t =? 24 then Val (ActDecNwTtl, len - 8)
  else if t =? 25 then unpack_set_field buf p alen len
  else if t =? 0xffff then Err (ofl_error OFPET_BAD_ACTION 2)
  else Err (ofl_error OFPET_BAD_ACTION 0).

Definition ofl_actions_unpack (buf : list Z) (p : nat) (len : Z) : res (ofl_action * Z) :=
  if len <? 8 then Err OFPBAC_BAD_LEN
  else
    alen ← get 2 buf (p + 2);
    if len <? alen then Err OFPBAC_BAD_LEN
    else if negb (alen mod 8 =? 0) then Err OFPBAC_BAD_LEN
    else unpack_action_body buf p alen len.

(** Counting and unpacking the actions in [len] bytes, as instructions and buckets do. *)
Definition unpack_actions (buf : list Z) (p : nat) (len : Z) : res (list ofl_action * Z) :=
  n ← ofl_utils_count_ofp_actions buf p len;
  unpack_loop (ofl_actions_unpack buf) 2 n buf p len.

Definition ofl_actions_ofp_len (a : ofl_action) : Z :=
  match a with
  | ActOutput _ _ => 16
  | ActSetField f => 8 + ROUND_UP (OXM_LENGTH (tlv_header f))
  | ActExperimenter _ => -1
  | _ => 8
  end.

Definition ofl_actions_ofp_total_len (l : list ofl_action) : Z := zsum (ofl_actions_ofp_len <$> l).

(** [None]: bytes that are never set, or no callback for an experimenter. *)
Definition ofl_actions_pack (a : ofl_action) : option (list Z) :=
  match a with
  | ActOutput port max_len => Some (be 2 0 ++ be 2 16 ++ be 4 port ++ be 2 max_len ++ zeros 6)
  | ActCopyTtlOut | ActCopyTtlIn | ActDecMplsTtl | ActPopVlan | ActPopPbb | ActDecNwTtl =>
    Some (be 2 (act_type a) ++ be 2 8 ++ zeros 4)
  | ActSetMplsTtl ttl | ActSetNwTtl ttl => Some (be 2 (act_type a) ++ be 2 8 ++ be 1 ttl ++ zeros 3)
  | ActPushVlan ethertype | ActPushMpls ethertype | ActPushPbb ethertype | ActPopMpls ethertype =>
    Some (be 2 (act_type a) ++ be 2 8 ++ be 2 ethertype ++ zeros 2)
  | ActSetQueue id | ActGroup id => Some (be 2 (act_type a) ++ be 2 8 ++ be 4 id)
  | ActSetField f =>
    value ← swap_value (tlv_header f) (tlv_value f);
    let n := OXM_LENGTH (tlv_header f) in
    Some (be 2 25 ++ be 2 (8 + ROUND_UP n) ++ be 4 (tlv_header f) ++ value ++ zeros (Z.to_nat (ROUND_UP n - n)))
  | ActExperimenter _ => None
  end.

(** The loops that pack one element after the other. *)
Definition pack_all {A : Type} (pack : A → option (list Z)) (l : list A) : option (list Z) :=
  @concat Z <$> mapM pack l.

(** * Instructions *)

Definition PIPELINE_TABLES := 64.

Definition ofl_structs_instructions_unpack (buf : list Z) (p : nat) (len : Z) : res (ofl_instruction * Z) :=
  if len <? 4 then Err OFPBAC_BAD_LEN
  else
    ilen ← get 2 buf (p + 2);
    if len <? ilen then Err OFPBAC_BAD_LEN
    else
      t ← get 2 buf p;
      '(inst, rest) ←
        (if t =? 1 then
           if ilen <? 8 then Err ACTION_BRC_BAD_LEN
           else table_id ← get 1 buf (p + 4);
                if PIPELINE_TABLES <=? table_id then Err (ofl_error OFPET_BAD_INSTRUCTION 2)
                else Val (InstGotoTable table_id, ilen - 8)
         else if t =? 2 then
           if ilen <? 24 then Err ACTION_BRC_BAD_LEN
           else metadata ← get 8 buf (p + 8); mask ← get 8 buf (p + 16);
                Val (InstWriteMetadata metadata mask, ilen - 24)
         else if (t =? 3) || (t =? 4) then
           if ilen <? 8 then Err OFPBRC_BAD_LEN
           else '(actions, rest) ← unpack_actions buf (p + 8) (ilen - 8);
                Val (if t =? 3 then InstWriteActions actions else InstApplyActions actions, rest)
         else if t =? 5 then
           if ilen <? 8 then Err OFPBRC_BAD_LEN else Val (InstClearActions, ilen - 8)
         else if t =? 6 then
           if ilen <? 8 then Err ACTION_BRC_BAD_LEN
           else meter_id ← get 4 buf (p + 4); Val (InstMeter meter_id, ilen - 8)
         else if t =? 0xffff then Err (ofl_error OFPET_BAD_INSTRUCTION 1)
         else Err (ofl_error OFPET_BAD_INSTRUCTION 0));
      if negb (rest =? 0) then Err OFPBRC_BAD_LEN else Val (inst, len - ilen).

Definition ofl_structs_instructions_ofp_len (i : ofl_instruction) : Z :=
  match i with
  | InstGotoTable _ => 8
  | InstWriteMetadata _ _ => 24
  | InstWriteActions l | InstApplyActions l => 8 + ofl_actions_ofp_total_len l
  | InstClearActions => 8
  | InstMeter _ => 8
  | InstExperimenter _ => -1
  end.

Definition ofl_structs_instructions_ofp_total_len (l : list ofl_instruction) : Z :=
  zsum (ofl_structs_instructions_ofp_len <$> l).

Definition ofl_structs_instructions_pack (i : ofl_instruction) : option (list Z) :=
  let head := be 2 (inst_type i) ++ be 2 (ofl_structs_instructions_ofp_len i) in
  match i with
  | InstGotoTable table_id => Some (head ++ be 1 table_id ++ zeros 3)
  | InstWriteMetadata metadata mask => Some (head ++ zeros 4 ++ be 8 metadata ++ be 8 mask)
  | InstWriteActions l | InstApplyActions l => bs ← pack_all ofl_actions_pack l; Some (head ++ zeros 4 ++ bs)
  | InstClearActions => Some (head ++ zeros 4)
  | InstMeter meter_id => Some (head ++ be 4 meter_id)
  | InstExperimenter _ => None
  end.

(** * Buckets *)

(** The length of the bucket is at least 16 here: counting has checked it. *)
Definition ofl_structs_bucket_unpack (buf : list Z) (gtype : Z) (p : nat) (len : Z) : res (ofl_bucket * Z) :=
  if len <? 16 then Err OFPBAC_BAD_LEN
  else
    l ← get 2 buf p;
    if len <? l then Err OFPBAC_BAD_LEN
    else
      weight ← get 2 buf (p + 2);
      if (gtype =? OFPGT_SELECT) && (weight =? 0) then Err (ofl_error OFPET_GROUP_MOD_FAILED 1)
      else if negb (gtype =? OFPGT_SELECT) && (0 <? weight) then Err (ofl_error OFPET_GROUP_MOD_FAILED 1)
      else
        watch_port ← get 4 buf (p + 4); watch_group ← get 4 buf (p + 8);
        '(actions, rest) ← unpack_actions buf (p + 16) (l - 16);
        if 8 <=? rest then Err OFPBRC_BAD_LEN
        else Val (Bucket weight watch_port watch_group actions, len - l).

Definition ofl_structs_buckets_ofp_len (b : ofl_bucket) : Z :=
  let total_len := 16 + ofl_actions_ofp_total_len (b_actions b) in
  let rem := total_len mod 8 in total_len + (if rem =? 0 then 0 else 8 - rem).

Definition ofl_structs_buckets_ofp_total_len (l : list ofl_bucket) : Z := zsum (ofl_structs_buckets_ofp_len <$> l).

Definition ofl_structs_bucket_pack (b : ofl_bucket) : option (list Z) :=
  bs ← pack_all ofl_actions_pack (b_actions b);
  let total_len := 16 + ofl_actions_ofp_total_len (b_actions b) in
  let rem := total_len mod 8 in
  let align := if rem =? 0 then 0 else 8 - rem in
  Some (be 2 (total_len + align) ++ be 2 (b_weight b) ++ be 4 (b_watch_port b) ++ be 4 (b_watch_group b) ++
        zeros 4 ++ bs ++ zeros (Z.to_nat align)).

(** * Meter bands *)

(** A band of an unknown type leaves the pointer to it unset. *)
Definition ofl_structs_meter_band_unpack (buf : list Z) (p : nat) (len : Z) : res (ofl_meter_band * Z) :=
  if len <? 12 then Err OFPBAC_BAD_LEN
  else
    t ← get 2 buf p; l ← get 2 buf (p + 2); rate ← get 4 buf (p + 4); burst_size ← get 4 buf (p + 8);
    if t =? 1 then Val (BandDrop rate burst_size, len - l)
    else if t =? 2 then prec_level ← get 1 buf (p + 12); Val (BandDscpRemark rate burst_size prec_level, len - l)
    else if t =? 0xffff then experimenter ← get 4 buf (p + 12); Val (BandExperimenter rate burst_size experimenter, len - l)
    else Undef.

Definition band_type (b : ofl_meter_band) : Z :=
  match b with BandDrop _ _ => 1 | BandDscpRemark _ _ _ => 2 | BandExperimenter _ _ _ => 0xffff end.

Definition ofl_structs_meter_band_ofp_len (b : ofl_meter_band) : Z := 16.
Definition ofl_structs_meter_bands_ofp_total_len (l : list ofl_meter_band) : Z := zsum (ofl_structs_meter_band_ofp_len <$> l).

Definition ofl_structs_meter_band_pack (b : ofl_meter_band) : option (list Z) :=
  Some (be 2 (band_type b) ++ be 2 16 ++ be 4 (band_rate b) ++ be 4 (band_burst_size b) ++
        match b with
        | BandDrop _ _ => zeros 4
        | BandDscpRemark _ _ prec_level => be 1 prec_level ++ zeros 3
        | BandExperimenter _ _ experimenter => be 4 experimenter
        end).
