(* ===== verification/Secchan.v ===== *)
(** The secure channel: the relay of secchan/secchan.c, its hooks, and the failover hook of secchan/failover.c.

    A relay joins the connection to the switch (local) and the one to the controller (remote), and for the controller's
    own relay perhaps a second connection to the switch for asynchronous messages.  A message received on one side is shown
    to the hooks and, unless one takes it, sent on the other side.  Each half holds at most one message that could not be
    sent on yet.  Connections are those of Rconn.v, each with its own counters ([net_state]) and network ([vconn]); the
    counter [n_txq] of a half is counter 1 of the other side's connection, on which its messages are queued.

    The hooks are a record of callbacks on a state of their own and on the two connections of the relay they are called for,
    on which they may send.  The rate limiter (RateLimit.v) is one that only queues, the status hook of secchan/status.c one
    that sends; [hooks_both] puts hooks one behind the other.  A hook that fails, or that reads or writes where it must not,
    gives [None]. *)

From S2P Require Import Prelude Rconn RconnCorrect RateLimit Wire.

Definition N_TXQ : positive := 1.

Record conn := Conn { cn_rconn : rconn; cn_net : net_state }.

Record half := Half { hf_conn : conn; hf_rxbuf : option msg }.

(** [local_packet_cb] or [remote_packet_cb] of hooks, with the relay's connections to the switch and to the controller: the
    new state, what became of the two connections, and whether the message was taken. *)
Definition packet_cb (H : Type) : Type := H → conn → conn → msg → option (H * conn * conn * bool).

Record hooks (H : Type) := Hooks { hk_local : packet_cb H; hk_remote : packet_cb H }.
Arguments Hooks {H} _ _.
Arguments hk_local {H} _ _ _ _ _.
Arguments hk_remote {H} _ _ _ _ _.

(** A hook without the callback. *)
Definition no_cb {H : Type} : packet_cb H := λ h cl cr _, Some (h, cl, cr, false).

(** The loop of [call_local_packet_cbs] and [call_remote_packet_cbs], for two hooks: the first that takes the message is the last
    that is called. *)
Definition cb_both {H1 H2 : Type} (f : packet_cb H1) (g : packet_cb H2) : packet_cb (H1 * H2) := λ h cl cr b,
  '(h1, cl, cr, took) ← f h.1 cl cr b;
  if (took : bool) then Some ((h1, h.2), cl, cr, true)
  else '(h2, cl, cr, took) ← g h.2 cl cr b; Some ((h1, h2), cl, cr, took).

Definition hooks_both {H1 H2 : Type} (K1 : hooks H1) (K2 : hooks H2) : hooks (H1 * H2) :=
  Hooks (cb_both (hk_local K1) (hk_local K2)) (cb_both (hk_remote K1) (hk_remote K2)).

Inductive direction := HALF_LOCAL | HALF_REMOTE.

#[global] Instance direction_eq : EqDecision direction.
Proof. solve_decision. Defined.

(** What happens to messages: received, taken by a hook, handed to the other side's connection, or deleted. *)
Inductive relayed :=
  | Received (d : direction) (b : msg)
  | Taken (d : direction) (b : msg)
  | Relayed (d : direction) (b : msg)
  | Deleted (d : direction) (b : msg).

Record relay (H : Type) := Relay {
  r_local : half;
  r_remote : half;
  r_async : option conn;
  r_is_mgmt_conn : bool;
  r_hooks : H }.
Arguments Relay {H} _ _ _ _ _.
Arguments r_local {H} _.
Arguments r_remote {H} _.
Arguments r_async {H} _.
Arguments r_is_mgmt_conn {H} _.
Arguments r_hooks {H} _.

Section relay.
  Context {H : Type} (K : hooks H).
  Context (now : Z) (V : direction → vconn) (V_async : vconn).

Definition other (d : direction) : direction := match d with HALF_LOCAL => HALF_REMOTE | HALF_REMOTE => HALF_LOCAL end.

Definition half_of (r : relay H) (d : direction) : half := match d with HALF_LOCAL => r_local r | HALF_REMOTE => r_remote r end.
Definition set_half (r : relay H) (d : direction) (h : half) : relay H :=
  match d with
  | HALF_LOCAL => Relay h (r_remote r) (r_async r) (r_is_mgmt_conn r) (r_hooks r)
  | HALF_REMOTE => Relay (r_local r) h (r_async r) (r_is_mgmt_conn r) (r_hooks r)
  end.
Definition set_async (r : relay H) (a : option conn) : relay H := Relay (r_local r) (r_remote r) a (r_is_mgmt_conn r) (r_hooks r).
Definition set_hooks (r : relay H) (h : H) : relay H := Relay (r_local r) (r_remote r) (r_async r) (r_is_mgmt_conn r) h.
Definition set_links (r : relay H) (cl cr : conn) : relay H :=
  Relay (Half cl (hf_rxbuf (r_local r))) (Half cr (hf_rxbuf (r_remote r))) (r_async r) (r_is_mgmt_conn r) (r_hooks r).

Definition conn_recv (V : vconn) (c : conn) : option (conn * option msg) :=
  '(rc, w, b) ← rconn_recv now V (cn_rconn c) (cn_net c); Some (Conn rc w, b).

(** [call_local_packet_cbs], [call_remote_packet_cbs] *)
Definition call_cbs (d : direction) : packet_cb H := match d with HALF_LOCAL => hk_local K | HALF_REMOTE => hk_remote K end.

(** Receiving into an empty [rxbuf]: from the half's connection, or from the asynchronous one. *)
Definition receive_half (r : relay H) (d : direction) : option (relay H * option msg) :=
  let this := half_of r d in
  '(c, b) ← conn_recv (V d) (hf_conn this);
  let r := set_half r d (Half c (hf_rxbuf this)) in
  match b, d, r_async r with
  | None, HALF_LOCAL, Some a => '(a, b) ← conn_recv V_async a; Some (set_async r (Some a), b)
  | _, _, _ => Some (r, b)
  end.

(** The first half of a turn for a direction: the message is in [rxbuf] afterwards, unless a hook took it ([true]). *)
Definition fetch (r : relay H) (d : direction) : option (relay H * list relayed * bool) :=
  match hf_rxbuf (half_of r d) with
  | Some _ => Some (r, [], false)
  | None =>
    '(r, b) ← receive_half r d;
    match b with
    | None => Some (r, [], false)
    | Some b =>
      let keep r := set_half r d (Half (hf_conn (half_of r d)) (Some b)) in
      if match d with HALF_REMOTE => true | HALF_LOCAL => negb (r_is_mgmt_conn r) end then
        '(h, cl, cr, took) ← call_cbs d (r_hooks r) (hf_conn (r_local r)) (hf_conn (r_remote r)) b;
        let r := set_links (set_hooks r h) cl cr in
        if (took : bool) then Some (r, [Received d b; Taken d b], true) else Some (keep r, [Received d b], false)
      else Some (keep r, [Received d b], false)
    end
  end.

(** The second half: the message is sent if none of this direction is queued any more. *)
Definition pass_on (r : relay H) (d : direction) : option (relay H * list relayed * bool) :=
  let this := half_of r d in
  let peer := half_of r (other d) in
  n_txq ← ns_counters (cn_net (hf_conn peer)) !! N_TXQ;
  match hf_rxbuf this with
  | Some b =>
    if n_txq =? 0 then
      '(rc, w, retval) ← rconn_send now (V (other d)) (cn_rconn (hf_conn peer)) (cn_net (hf_conn peer)) b (Some N_TXQ);
      let r := set_half r (other d) (Half (Conn rc w) (hf_rxbuf peer)) in
      if negb (retval =? EAGAIN) then
        let r := set_half r d (Half (hf_conn (half_of r d)) None) in
        if retval =? 0 then Some (r, [Relayed d b], true) else Some (r, [Deleted d b], false)
      else Some (r, [], false)
    else Some (r, [], false)
  | None => Some (r, [], false)
  end.

(** A turn of the loop: [break] after a message was taken by a hook. *)
Definition relay_turn (r : relay H) : option (relay H * list relayed * bool) :=
  '(r, e1, took) ← fetch r HALF_LOCAL;
  if (took : bool) then Some (r, e1, true)
  else
    '(r, e2, p1) ← pass_on r HALF_LOCAL;
    '(r, e3, took) ← fetch r HALF_REMOTE;
    if (took : bool) then Some (r, e1 ++ e2 ++ e3, true)
    else '(r, e4, p2) ← pass_on r HALF_REMOTE; Some (r, e1 ++ e2 ++ e3 ++ e4, p1 || p2).

Fixpoint relay_loop (iterations : nat) (r : relay H) : option (relay H * list relayed) :=
  match iterations with
  | O => Some (r, [])
  | S n =>
    '(r, e, progress) ← relay_turn r;
    if (progress : bool) then '(r, e') ← relay_loop n r; Some (r, e ++ e') else Some (r, e)
  end.

Definition conn_run (V : vconn) (xid : Z) (c : conn) : option conn :=
  '(rc, w) ← rconn_run now V RUN_TURNS xid (cn_rconn c) (cn_net c); Some (Conn rc w).

(** [rconn_run] on each connection. *)
Definition run_links (xids : Z * Z * Z) (r : relay H) : option (relay H) :=
  a ← match r_async r with Some a => a ← conn_run V_async xids.2 a; Some (Some a) | None => Some None end;
  let r := set_async r a in
  cl ← conn_run (V HALF_LOCAL) xids.1.1 (hf_conn (r_local r));
  let r := set_half r HALF_LOCAL (Half cl (hf_rxbuf (r_local r))) in
  cr ← conn_run (V HALF_REMOTE) xids.1.2 (hf_conn (r_remote r));
  Some (set_half r HALF_REMOTE (Half cr (hf_rxbuf (r_remote r)))).

(** [None] in the result: the relay of a management connection was destroyed. *)
Definition relay_run (xids : Z * Z * Z) (r : relay H) : option (option (relay H) * list relayed) :=
  r ← run_links xids r;
  '(r, e) ← relay_loop 50 r;
  if r_is_mgmt_conn r && negb (rconn_is_alive (cn_rconn (hf_conn (r_local r))) && rconn_is_alive (cn_rconn (hf_conn (r_remote r))))
  then Some (None, e) else Some (Some r, e).

Definition relay_create (async : option conn) (local remote : conn) (is_mgmt_conn : bool) (h : H) : relay H :=
  Relay (Half local None) (Half remote None) async is_mgmt_conn h.
End relay.

(** * The hooks of the controller's relay *)

(** The rate limiter sees the messages of the switch; [rand] are the random choices of [drop_packet], and [stale] is what the
    receive buffer holds behind a message that is too short. *)
Definition rate_limit_hooks (s : settings) (rand : list bool) (stale : Z) : hooks rate_limiter :=
  Hooks (λ rl cl cr b, '(rl, took) ← rate_limit_local_packet_cb s rl b rand stale; Some (rl, cl, cr, took)) no_cb.

(** ** The status hook

    The bytes of a message are those of its body here, header included, and its transaction id is [m_xid]. *)

Definition OFP_VERSION := 4.
Definition OFPT_EXPERIMENTER := 4.
Definition NX_VENDOR_ID := 0x2320.
Definition NXT_STATUS_REQUEST := 0.
Definition NXT_STATUS_REPLY := 1.
Definition SIZEOF_NICIRA_HEADER : nat := 16.

(** [memcmp] of as many bytes as the shorter one has. *)
Definition same_start (a b : list Z) : bool :=
  let n := Nat.min (length a) (length b) in bool_decide (take n a = take n b).

(** [status_reply_put]: a line of the reply; [content] is the text of the [printf] format.  The line is dropped when the request
    is not its beginning. *)
Definition status_reply_put (request name output content : list Z) : list Z :=
  let added := name ++ [46] ++ content in
  let added := if bool_decide (list.last added = Some 10) then added else added ++ [10] in
  if (length added <? length request)%nat || negb (bool_decide (take (length request) added = request)) then output else output ++ added.

(** A category: its name, and the texts that its callback puts. *)
Definition category : Type := list Z * list (list Z).

Definition status_output (categories : list category) (request : list Z) : list Z :=
  foldl (λ output c, if same_start c.1 request then foldl (status_reply_put request c.1) output c.2 else output) [] categories.

(** [make_openflow_xid] and what is put behind the header; longer messages are an assertion. *)
Definition status_reply (xid : Z) (output : list Z) : option msg :=
  let openflow_len := Z.of_nat (SIZEOF_NICIRA_HEADER + length output) in
  if openflow_len <=? 65535 then
    Some (Msg OFPT_EXPERIMENTER xid None
      ([OFP_VERSION; OFPT_EXPERIMENTER] ++ be 2 openflow_len ++ be 4 xid ++ be 4 NX_VENDOR_ID ++ be 4 NXT_STATUS_REPLY ++ output))
  else None.

Section status.
  Context (now : Z) (V : direction → vconn).

Definition switch_status_remote_packet_cb : packet_cb (list category) := λ categories cl cr b,
  let msg := m_body b in
  if (length msg <? SIZEOF_NICIRA_HEADER)%nat then Some (categories, cl, cr, false)
  else if negb (m_type b =? OFPT_EXPERIMENTER) || negb (be_read (take 4 (drop 8 msg)) =? NX_VENDOR_ID)
          || negb (be_read (take 4 (drop 12 msg)) =? NXT_STATUS_REQUEST) then Some (categories, cl, cr, false)
  else
    reply ← status_reply (m_xid b) (status_output categories (drop SIZEOF_NICIRA_HEADER msg));
    '(rc, w, _) ← rconn_send now (V HALF_REMOTE) (cn_rconn cr) (cn_net cr) reply None;
    Some (categories, cl, Conn rc w, true).

Definition switch_status_hooks : hooks (list category) := Hooks no_cb switch_status_remote_packet_cb.
End status.

(** * Failover *)

(** [peers[i]->epoch]; [None] is a NULL pointer. *)
Record failover_context := Failover { fo_index : Z; fo_epochs : list (option Z) }.

Section failover.
  Context (num_controllers max_backoff now : Z) (V : vconn).

Definition is_timed_out (epoch : Z) : bool := sat_add (u32 epoch) (u32 max_backoff) <=? now.

Definition failover_periodic_cb (x : failover_context) (c : conn) : option (failover_context * conn) :=
  if rconn_is_connected (cn_rconn c) then Some (x, c)
  else
    epoch ← mjoin (fo_epochs x !! Z.to_nat (fo_index x));
    if negb (is_timed_out epoch) then Some (x, c)
    else
      let rc := rconn_disconnect now (cn_rconn c) in
      let index := (fo_index x + 1) mod num_controllers in
      '(rc, w) ← rconn_connect now V rc (cn_net c);
      _ ← mjoin (fo_epochs x !! Z.to_nat index);
      Some (Failover index (<[Z.to_nat index := Some now]> (fo_epochs x)), Conn rc w).

(** MAX_CONTROLLERS is 3; the controllers that are named come first. *)
Definition failover_start : failover_context :=
  Failover 0 ((λ i, if i <? num_controllers then Some now else None) <$> [0; 1; 2]).
End failover.
