(* ===== verification/SecchanCorrect.v ===== *)
(** Theorems about Secchan.v: the relay hands on every message once and in order; failover goes round. *)

From S2P Require Import Prelude Rconn RconnCorrect RateLimit RateLimitCorrect Wire Secchan.

(** * Connections *)

Section conns.
  Context (now : Z).

(** A connection in order, on which at most one message of the other half is queued. *)
Record cn_ok (c : conn) : Prop := {
  co_rc : rc_ok now (cn_rconn c);
  co_bal : balanced (λ _, 0) (rc_txq (cn_rconn c)) (cn_net c);
  co_one : cnt N_TXQ (rc_txq (cn_rconn c)) <= 1;
  co_counter : is_Some (ns_counters (cn_net c) !! N_TXQ) }.

(** Within a call a connection that is down stays down. *)
Definition down (c : conn) : Prop := rconn_is_connected (cn_rconn c) = false.

(** [new] was queued.  It and what was sent and queued before stays in order, and nothing is missing unless the connection was lost. *)
Record went (c : conn) (new : list msg) (c' : conn) : Prop := {
  wn_ok : rc_ok now (cn_rconn c');
  wn_bal : balanced (λ _, 0) (rc_txq (cn_rconn c')) (cn_net c');
  wn_dom : dom (ns_counters (cn_net c')) = dom (ns_counters (cn_net c));
  wn_sub : rc_txq (cn_rconn c') `sublist_of` rc_txq (cn_rconn c) ++ new;
  wn_fifo : ns_wire (cn_net c') ++ rc_txq (cn_rconn c') `sublist_of` ns_wire (cn_net c) ++ rc_txq (cn_rconn c) ++ new;
  wn_all : ¬ down c' → ns_wire (cn_net c') ++ rc_txq (cn_rconn c') = ns_wire (cn_net c) ++ rc_txq (cn_rconn c) ++ new }.

Lemma good_went c new c' : good now (λ _, 0) (cn_rconn c) (cn_net c) new (cn_rconn c') (cn_net c') → went c new c'.
Proof using.
  intros [? ? ? Hf ? ? ?]. split; try done.
  - destruct Hf as [->|(_ & _ & Hs)]; done.
  - intros Hd. destruct Hf as [->|(Hs & _)]; [done|]. destruct Hd. unfold down, rconn_is_connected. by rewrite Hs.
Qed.

Lemma went_ok c new c' : went c new c' → cn_ok c → cnt N_TXQ (rc_txq (cn_rconn c)) + cnt N_TXQ new <= 1 → cn_ok c'.
Proof using.
  intros Hg Hc Hn. split; [apply Hg|apply Hg| |].
  - pose proof (cnt_sublist N_TXQ _ _ (wn_sub _ _ _ Hg)) as Hs. rewrite cnt_app in Hs. lia.
  - apply elem_of_dom. rewrite (wn_dom _ _ _ Hg). apply elem_of_dom, Hc.
Qed.

(** Only messages counted on [N_TXQ] are those of the relay. *)
Definition mine (l : list msg) : list msg := base.filter (λ b, m_n_queued b = Some N_TXQ) l.

Lemma mine_app l l' : mine (l ++ l') = mine l ++ mine l'.
Proof using. apply list.filter_app. Qed.

Lemma mine_cnt l : cnt N_TXQ l = Z.of_nat (length (mine l)).
Proof using. done. Qed.

Lemma mine_probes l : Forall probe l → mine l = [].
Proof using. unfold mine. induction 1 as [|b l [_ Hb] _ IH]; [done|]. rewrite filter_cons_False; [done|]. by rewrite Hb. Qed.

Lemma mine_queued (l : list msg) : mine ((λ b, queued b (Some N_TXQ)) <$> l) = (λ b, queued b (Some N_TXQ)) <$> l.
Proof using. unfold mine. induction l as [|b l IH]; [done|]. rewrite fmap_cons, filter_cons_True; [by rewrite IH|done]. Qed.

Lemma went_refl c : cn_ok c → went c [] c.
Proof using. intros []. apply good_went. by apply good_refl. Qed.

Lemma went_trans c new c1 new' c2 : went c new c1 → went c1 new' c2 → (down c1 → down c2) → went c (new ++ new') c2.
Proof using.
  intros [? ? ? S1 F1 A1] [? ? ? S2 F2 A2] Hd. split; try done.
  - congruence.
  - etrans; [exact S2|]. rewrite app_assoc. by apply sublist_app.
  - etrans; [exact F2|]. rewrite !app_assoc in *. by apply sublist_app.
  - intros Hn. rewrite A2 by done. rewrite app_assoc, A1 by auto. by rewrite !app_assoc.
Qed.

Lemma link_recv_ok V c :
  cn_ok c → ∃ c' b, conn_recv now V c = Some (c', b) ∧ cn_ok c' ∧ went c [] c' ∧ (down c → c' = c ∧ b = None).
Proof using.
  intros Hc. unfold conn_recv. destruct (recv_good now V (λ _, 0) (cn_rconn c) (cn_net c) (co_rc _ Hc) (co_bal _ Hc)) as (rc & w & b & E & Hg).
  rewrite E; cbn [mbind option_bind]. eexists _, _; split; [done|]. assert (Hw : went c [] (Conn rc w)) by (by apply good_went).
  split_and!; [|done|].
  - eapply went_ok; [exact Hw|done|]. pose proof (co_one _ Hc). rewrite cnt_nil; lia.
  - intros Hd. unfold rconn_recv in E. unfold down in Hd. rewrite Hd in E. injection E as <- <- <-. by destruct c.
Qed.

Lemma link_run_ok V xid c :
  cn_ok c → ∃ c' new, conn_run now V xid c = Some c' ∧ cn_ok c' ∧ went c new c' ∧ mine new = [].
Proof using.
  intros Hc. unfold conn_run.
  destruct (run_good now V (λ _, 0) RUN_TURNS xid (cn_rconn c) (cn_net c) (co_rc _ Hc) (co_bal _ Hc)) as (rc & w & new & E & Hg & Hp); [apply rank_max|].
  rewrite E; cbn [mbind option_bind]. eexists _, new. assert (Hw : went c new (Conn rc w)) by (by apply good_went).
  apply mine_probes in Hp.
  split_and!; [done| |done|done]. eapply went_ok; [exact Hw|done|]. rewrite (mine_cnt new), Hp. cbn [length]. pose proof (co_one _ Hc). lia.
Qed.

Lemma send_ok V c b :
  cn_ok c → ns_counters (cn_net c) !! N_TXQ = Some 0 →
  ∃ c' r, rconn_send now V (cn_rconn c) (cn_net c) b (Some N_TXQ) = Some (cn_rconn c', cn_net c', r) ∧ cn_ok c' ∧
    if rconn_is_connected (cn_rconn c) then r = 0 ∧ went c [queued b (Some N_TXQ)] c' else r = ENOTCONN ∧ c' = c.
Proof using.
  intros Hc Hn. destruct (send_good now V (λ _, 0) (cn_rconn c) (cn_net c) b (Some N_TXQ) (co_rc _ Hc) (co_bal _ Hc)) as (rc & w & r & E & _ & H).
  { intros d [= <-]. by eexists. }
  exists (Conn rc w), r. split; [done|]. destruct (rconn_is_connected (cn_rconn c)).
  - destruct H as [-> Hg]. assert (Hw : went c [queued b (Some N_TXQ)] (Conn rc w)) by (by apply good_went). split_and!; [|done|done].
    eapply went_ok; [exact Hw|done|]. pose proof (ba_count _ _ _ (co_bal _ Hc) _ _ Hn). rewrite cnt_cons, cnt_nil, bool_decide_true by done. lia.
  - destruct H as (-> & -> & ->). destruct c. by split_and!.
Qed.

(** What a hook may do to a connection: send messages of its own, not counted on the counter of the relay. *)
Inductive sends (V : vconn) (c : conn) : conn → Prop :=
  | sends_none : sends V c c
  | sends_more c1 b k rc w r :
      sends V c c1 → k ≠ Some N_TXQ → rconn_send now V (cn_rconn c1) (cn_net c1) b k = Some (rc, w, r) → sends V c (Conn rc w).

Lemma send_counter V rc w b k x :
  rconn_is_connected rc = true → rconn_send now V rc w b (Some k) = Some x → is_Some (ns_counters w !! k).
Proof using.
  intros Hc. unfold rconn_send. rewrite Hc. pose proof (copy_core V rc w b) as Hcopy. destruct (copy_to_monitor V rc w b) as [rc1 w1].
  destruct Hcopy as (_ & Ec & _). cbn [fst snd count_queued] in *. rewrite <- Ec. by destruct (ns_counters w1 !! k).
Qed.

Lemma sends_went V c c' :
  cn_ok c → sends V c c' → ∃ new, went c new c' ∧ mine new = [] ∧ cn_ok c' ∧ (down c → c' = c).
Proof using.
  intros Hc. induction 1 as [|c1 b k rc w r H IH Hk E].
  { exists []. split_and!; [by apply went_refl|done|done|done]. }
  destruct IH as (new & Hw & Hn & Hc1 & Hd). destruct (rconn_is_connected (cn_rconn c1)) eqn:Hconn.
  - assert (Hx : ∀ d, k = Some d → is_Some (ns_counters (cn_net c1) !! d)) by (intros d ->; by eapply send_counter).
    destruct (send_good now V (λ _, 0) (cn_rconn c1) (cn_net c1) b k (co_rc _ Hc1) (co_bal _ Hc1) Hx) as (rc' & w' & r' & E' & _ & Hs).
    rewrite E in E'. injection E' as <- <- <-. rewrite Hconn in Hs. destruct Hs as [_ Hg].
    assert (Hw1 : went c1 [queued b k] (Conn rc w)) by (by apply good_went).
    assert (Hm : mine [queued b k] = []) by (unfold mine; rewrite filter_cons_False; [done|exact Hk]).
    exists (new ++ [queued b k]). split_and!.
    + eapply went_trans; [exact Hw|exact Hw1|]. unfold down. congruence.
    + by rewrite mine_app, Hn, Hm.
    + eapply went_ok; [exact Hw1|done|]. rewrite (mine_cnt [_]), Hm. pose proof (co_one _ Hc1). cbn [length]. lia.
    + intros Hdown. pose proof (Hd Hdown) as ->. unfold down in Hdown. congruence.
  - exists new. unfold rconn_send in E. rewrite Hconn in E. injection E as <- <- <-. by destruct c1.
Qed.

Lemma sends_trans V c c1 c2 : sends V c c1 → sends V c1 c2 → sends V c c2.
Proof using. intros H. induction 1 as [|c2 b k rc w r _ IH Hk E]; [done|]. by eapply sends_more. Qed.

Lemma sends_limit V c b k limit rc w r :
  k ≠ N_TXQ → rconn_send_with_limit now V (cn_rconn c) (cn_net c) b k limit = Some (rc, w, r) → sends V c (Conn rc w).
Proof using.
  intros Hk. unfold rconn_send_with_limit. destruct (ns_counters (cn_net c) !! k) as [n|]; [cbn [mbind option_bind]|done].
  destruct (limit <=? n); [intros [= <- <- <-]; destruct c; constructor|].
  intros E. apply (sends_more V c c b (Some k) rc w r); [apply sends_none|congruence|exact E].
Qed.
End conns.

(** * The relay *)

(** The messages of a direction that were received; those whose fate is settled; those handed on. *)
Definition received (d : direction) (e : relayed) : list msg :=
  match e with Received d' b => if bool_decide (d = d') then [b] else [] | _ => [] end.
Definition settled (d : direction) (e : relayed) : list msg :=
  match e with Taken d' b | Relayed d' b | Deleted d' b => if bool_decide (d = d') then [b] else [] | _ => [] end.
Definition handed_on (d : direction) (e : relayed) : list msg :=
  match e with Relayed d' b => if bool_decide (d = d') then [b] else [] | _ => [] end.
Definition deleted (d : direction) (e : relayed) : list msg :=
  match e with Deleted d' b => if bool_decide (d = d') then [b] else [] | _ => [] end.

(** What the relay relies on of its hooks.  [I n] is a state in which they can be shown [n] more messages: called for a relay with
    its connections in order they return, send at most messages of their own, and can be shown one message less. *)
Record hooks_ok (now : Z) (V : direction → vconn) {H : Type} (K : hooks H) (I : nat → H → Prop) : Prop := {
  ho_call : ∀ n d h cl cr b, I (S n) h → cn_ok now cl → cn_ok now cr →
    ∃ h' cl' cr' took, call_cbs K d h cl cr b = Some (h', cl', cr', took) ∧ I n h' ∧
      sends now (V HALF_LOCAL) cl cl' ∧ sends now (V HALF_REMOTE) cr cr';
  ho_fewer : ∀ n h, I (S n) h → I n h }.

(** ** The hooks that are modelled *)

Section hooks.
  Context (now : Z) (V : direction → vconn).

(** Hooks behind one another. *)
Lemma hooks_both_ok {H1 H2 : Type} (K1 : hooks H1) (K2 : hooks H2) I1 I2 :
  hooks_ok now V K1 I1 → hooks_ok now V K2 I2 → hooks_ok now V (hooks_both K1 K2) (λ n h, I1 n h.1 ∧ I2 n h.2).
Proof using.
  intros O1 O2. split; [|intros n h [A B]; split; [by apply (ho_fewer _ _ _ _ O1)|by apply (ho_fewer _ _ _ _ O2)]].
  intros n d [h1 h2] cl cr b [A B] Hl Hr. cbn [fst snd] in A, B.
  destruct (ho_call _ _ _ _ O1 n d h1 cl cr b A Hl Hr) as (h1' & cl1 & cr1 & t1 & E1 & A' & Sl1 & Sr1).
  assert (Hboth : call_cbs (hooks_both K1 K2) d = cb_both (call_cbs K1 d) (call_cbs K2 d)) by (by destruct d).
  rewrite Hboth. unfold cb_both. cbn [fst snd]. rewrite E1. cbn [mbind option_bind].
  destruct t1; [eexists _, _, _, _; split; [done|]; split_and!; [done|by apply (ho_fewer _ _ _ _ O2)|done..]|].
  destruct (sends_went _ _ _ _ Hl Sl1) as (_ & _ & _ & Hl1 & _), (sends_went _ _ _ _ Hr Sr1) as (_ & _ & _ & Hr1 & _).
  destruct (ho_call _ _ _ _ O2 n d h2 cl1 cr1 b B Hl1 Hr1) as (h2' & cl2 & cr2 & t2 & -> & B' & Sl2 & Sr2). cbn [mbind option_bind].
  eexists _, _, _, _; split; [done|]. split_and!; [done..|by eapply sends_trans|by eapply sends_trans].
Qed.

(** The rate limiter returns for as many messages as there is room for in its queue. *)
Definition room (s : settings) (n : nat) (rl : rate_limiter) : Prop :=
  ∃ t0 taken q, rl_ok s t0 taken q rl ∧ Z.of_nat (length q) + Z.of_nat n <= s_burst_limit s.

Lemma rate_limit_hooks_ok s rand stale : settings_ok s → hooks_ok now V (rate_limit_hooks s rand stale) (room s).
Proof using.
  intros Hs. assert (Hfew : ∀ n rl, room s (S n) rl → room s n rl).
  { intros n rl (t0 & taken & q & Hrl & Hn). exists t0, taken, q. split; [done|lia]. }
  split; [|done]. intros n d rl cl cr b Hroom _ _.
  assert (Hsame : ∀ rl' took, room s n rl' → ∃ (h' : rate_limiter) (cl' cr' : conn) (took' : bool), Some (rl', cl, cr, took) = Some (h', cl', cr', took') ∧
    room s n h' ∧ sends now (V HALF_LOCAL) cl cl' ∧ sends now (V HALF_REMOTE) cr cr').
  { intros rl' took Hr. eexists _, _, _, _; split; [done|]. split_and!; [done|apply sends_none..]. }
  destruct d; [|by apply Hsame, Hfew]. cbn [call_cbs rate_limit_hooks hk_local].
  pose proof Hroom as (t0 & taken & q & Hrl & Hn). rewrite (packet_cases s t0 taken q) by done.
  destruct (negb _); [by apply Hsame, Hfew|]. destruct (_ =? OFPR_ACTION); [by apply Hsame, Hfew|].
  destruct (_ && _) eqn:Et; cbn [mbind option_bind].
  - apply Hsame, Hfew. destruct (token_taken s t0 taken q rl Hrl ltac:(lia)) as [_ H']. exists t0, (taken + 1), q. split; [destruct H'; by split|done].
  - rewrite (proj2 (Z.leb_gt _ _)) by (rewrite (rl_count _ _ _ _ _ Hrl); lia). cbn [mbind option_bind]. apply Hsame.
    exists t0, taken, (q ++ [b]). split; [by apply RateLimitCorrect.push_ok|]. rewrite length_app. cbn. lia.
Qed.

(** The texts of all categories, with their names, a dot and a newline. *)
Definition texts_length (categories : list category) : nat :=
  sum_list_with (λ c, sum_list_with (λ x, length c.1 + length x + 2)%nat c.2) categories.

Lemma reply_put_length request name output content :
  (length (status_reply_put request name output content) <= length output + (length name + length content + 2))%nat.
Proof using.
  unfold status_reply_put. repeat case_match; try lia; rewrite ?length_app; cbn; rewrite ?length_app; cbn; lia.
Qed.

Lemma output_length categories request : (length (status_output categories request) <= texts_length categories)%nat.
Proof using.
  unfold status_output. change (texts_length categories) with (length ([] : list Z) + texts_length categories)%nat. generalize ([] : list Z).
  induction categories as [|c cs IH]; intros o; [cbn; lia|]. cbn [foldl]. etrans; [apply IH|]. cbn [texts_length sum_list_with]. fold (texts_length cs).
  enough ((length (foldl (status_reply_put request c.1) o c.2) <= length o + sum_list_with (λ x, length c.1 + length x + 2) c.2)%nat) by (case_match; lia).
  clear. revert o. induction c.2 as [|x l IH]; intros o; [cbn; lia|]. cbn [foldl sum_list_with]. etrans; [apply IH|].
  pose proof (reply_put_length request c.1 o x). lia.
Qed.

(** The status hook answers on the connection to the controller. *)
Lemma status_hooks_ok : hooks_ok now V (switch_status_hooks now V) (λ _ categories, Z.of_nat (texts_length categories) <= 65519).
Proof using.
  split; [|done]. intros n d categories cl cr b Hn _ Hr.
  assert (Hsame : ∃ (h' : list category) (cl' cr' : conn) (took' : bool), Some (categories, cl, cr, false) = Some (h', cl', cr', took') ∧ Z.of_nat (texts_length h') <= 65519 ∧
    sends now (V HALF_LOCAL) cl cl' ∧ sends now (V HALF_REMOTE) cr cr').
  { eexists _, _, _, _; split; [done|]. split_and!; [done|apply sends_none..]. }
  destruct d; [exact Hsame|]. cbn [call_cbs switch_status_hooks hk_remote]. unfold switch_status_remote_packet_cb. cbv zeta.
  destruct (_ <? _)%nat; [exact Hsame|]. destruct (negb _ || _ || _); [exact Hsame|]. clear Hsame.
  unfold status_reply. pose proof (output_length categories (drop SIZEOF_NICIRA_HEADER (m_body b))) as Hl.
  rewrite (proj2 (Z.leb_le _ _)) by (unfold SIZEOF_NICIRA_HEADER in *; lia). cbn [mbind option_bind]. set (reply := Msg _ _ _ _).
  destruct (send_good now (V HALF_REMOTE) (λ _, 0) (cn_rconn cr) (cn_net cr) reply None (co_rc _ _ Hr) (co_bal _ _ Hr)) as (rc & w & k & E & _); [done|].
  rewrite E; cbn [mbind option_bind]. eexists _, _, _, _; split; [done|]. split_and!; [done|apply sends_none|].
  apply (sends_more now (V HALF_REMOTE) cr cr reply None rc w k); [apply sends_none|congruence|exact E].
Qed.
End hooks.

(** ** Runs *)

Section relay.
  Context {H : Type} (K : hooks H) (now : Z) (V : direction → vconn) (V_async : vconn).
  Context (I : nat → H → Prop) (HK : hooks_ok now V K I).

Definition pending (r : relay H) (d : direction) : list msg := option_list (hf_rxbuf (half_of r d)).
Definition link_of (r : relay H) (d : direction) : conn := hf_conn (half_of r d).

Record relay_ok (r : relay H) : Prop := {
  re_links : ∀ d, cn_ok now (link_of r d);
  re_async : ∀ a, r_async r = Some a → cn_ok now a }.

(** What happened between two states. *)
Record progresses (r : relay H) (es : list relayed) (r' : relay H) : Prop := {
  pg_ok : relay_ok r';
  pg_order : ∀ d, flat_map (settled d) es ++ pending r' d = pending r d ++ flat_map (received d) es;
  pg_queued : ∀ d, ∃ new, went now (link_of r (other d)) new (link_of r' (other d)) ∧
                mine new = (λ b, queued b (Some N_TXQ)) <$> flat_map (handed_on d) es;
  pg_down : ∀ d, down (link_of r d) → down (link_of r' d);
  pg_deleted : ∀ d, flat_map (deleted d) es ≠ [] → down (link_of r' (other d)) }.

Lemma other_other d : other (other d) = d.
Proof using. by destruct d. Qed.

Lemma progresses_refl r : relay_ok r → progresses r [] r.
Proof using.
  intros Hr. split; [done|intros d; by rewrite app_nil_r|intros d; exists []; split; [apply went_refl, Hr|done]|done|done].
Qed.

Lemma progresses_trans r es r1 es' r2 : progresses r es r1 → progresses r1 es' r2 → progresses r (es ++ es') r2.
Proof using.
  intros [_ O1 Q1 D1 L1] [Hok O2 Q2 D2 L2]. split; [done| | |eauto|].
  - intros d. rewrite !flat_map_app, <- app_assoc, O2, app_assoc, O1, app_assoc. done.
  - intros d. destruct (Q1 d) as (n1 & W1 & E1), (Q2 d) as (n2 & W2 & E2). exists (n1 ++ n2).
    split; [eapply went_trans; [exact W1|exact W2|apply D2]|]. by rewrite mine_app, E1, E2, flat_map_app, fmap_app.
  - intros d. rewrite flat_map_app. destruct (flat_map (deleted d) es) as [|x l] eqn:E; [apply L2|]. intros _. apply D2, L1. by rewrite E.
Qed.

(** Only the connection of one half changes, and nothing is queued on it. *)
Lemma half_moves r d c new :
  relay_ok r → cn_ok now c → went now (link_of r d) new c → mine new = [] → (down (link_of r d) → down c) →
  progresses r [] (set_half r d (Half c (hf_rxbuf (half_of r d)))).
Proof using.
  intros Hr Hc Hw Hn Hd. split.
  - split; [|by destruct d; apply Hr]. intros d'. destruct d, d'; first [done|exact (re_links _ Hr HALF_LOCAL)|exact (re_links _ Hr HALF_REMOTE)].
  - intros d'. rewrite app_nil_r. by destruct d, d'.
  - intros d'. cbn [flat_map fmap list_fmap]. destruct (decide (other d' = d)) as [<-|Hne].
    + exists new. by destruct d'.
    + exists []. split; [|done]. replace (link_of (set_half r d _) (other d')) with (link_of r (other d')) by (by destruct d, d').
      apply went_refl, Hr.
  - intros d'. by destruct d, d'.
  - done.
Qed.

Lemma receive_moves r d :
  relay_ok r → hf_rxbuf (half_of r d) = None →
  ∃ r' b, receive_half now V V_async r d = Some (r', b) ∧ progresses r [] r' ∧ hf_rxbuf (half_of r' d) = None ∧
    r_is_mgmt_conn r' = r_is_mgmt_conn r ∧ r_hooks r' = r_hooks r.
Proof using.
  intros Hr Hx. unfold receive_half. destruct (link_recv_ok now (V d) (link_of r d) (re_links _ Hr d)) as (c & b & E & Hc & Hw & Hd).
  fold (link_of r d). rewrite E; cbn [mbind option_bind]. rewrite Hx.
  pose proof (half_moves r d c [] Hr Hc Hw eq_refl) as Hp. rewrite Hx in Hp. set (r1 := set_half r d _) in *.
  assert (Hp1 : progresses r [] r1) by (apply Hp; intros Hdown; by destruct (Hd Hdown) as [-> _]).
  assert (Hx1 : hf_rxbuf (half_of r1 d) = None) by (by destruct d).
  assert (Hm1 : r_is_mgmt_conn r1 = r_is_mgmt_conn r ∧ r_hooks r1 = r_hooks r) by (by destruct d).
  assert (Hdone : ∃ r' b', Some (r1, b) = Some (r', b') ∧ progresses r [] r' ∧ hf_rxbuf (half_of r' d) = None ∧ r_is_mgmt_conn r' = r_is_mgmt_conn r ∧ r_hooks r' = r_hooks r) by (by exists r1, b).
  clearbody r1. destruct b as [b|]; [exact Hdone|]. destruct d; [|exact Hdone]. destruct (r_async r1) as [a|] eqn:Ea; [|exact Hdone].
  destruct (link_recv_ok now V_async a (re_async _ (pg_ok _ _ _ Hp1) _ Ea)) as (a' & b' & -> & Ha' & _). cbn [mbind option_bind].
  exists (set_async r1 (Some a')), b'. destruct Hm1. split_and!; [done| |done..].
  destruct Hp1 as [[Hl _] ? ? ? ?]. split; [split; [exact Hl|]|assumption..]. intros a0 [= <-]. done.
Qed.

(** The connections are the same. *)
Lemma same_links r es r' :
  relay_ok r → (∀ d, link_of r' d = link_of r d) → r_async r' = r_async r →
  (∀ d, flat_map (settled d) es ++ pending r' d = pending r d ++ flat_map (received d) es) → (∀ d, flat_map (handed_on d) es = []) →
  (∀ d, flat_map (deleted d) es ≠ [] → down (link_of r (other d))) → progresses r es r'.
Proof using.
  intros [Hl Ha] El Ea Ho Hh Hd. split.
  - split; [intros d; by rewrite El|by rewrite Ea].
  - done.
  - intros d. exists []. rewrite El, Hh. split; [apply went_refl, Hl|done].
  - intros d. by rewrite El.
  - intros d Hx. rewrite El. by apply Hd.
Qed.

(** Hooks sent messages of their own. *)
Lemma links_move r cl cr :
  relay_ok r → sends now (V HALF_LOCAL) (link_of r HALF_LOCAL) cl → sends now (V HALF_REMOTE) (link_of r HALF_REMOTE) cr →
  progresses r [] (set_links r cl cr).
Proof using.
  intros Hr Hl Hc. destruct (sends_went _ _ _ _ (re_links _ Hr HALF_LOCAL) Hl) as (nl & Wl & Ml & Ol & Dl).
  destruct (sends_went _ _ _ _ (re_links _ Hr HALF_REMOTE) Hc) as (nr & Wr & Mr & Or & Dr). split.
  - split; [by intros []|apply Hr].
  - intros d'. rewrite app_nil_r. by destruct d'.
  - intros []; [by exists nr|by exists nl].
  - intros [] Hd; [by rewrite <- (Dl Hd) in Hd|by rewrite <- (Dr Hd) in Hd].
  - done.
Qed.

Lemma fetch_moves n r d :
  relay_ok r → I (S n) (r_hooks r) →
  ∃ r' es took, fetch K now V V_async r d = Some (r', es, took) ∧ progresses r es r' ∧ r_is_mgmt_conn r' = r_is_mgmt_conn r ∧ I n (r_hooks r').
Proof using HK.
  intros Hr Hh. pose proof (ho_fewer _ _ _ _ HK _ _ Hh) as Hf.
  unfold fetch. destruct (hf_rxbuf (half_of r d)) as [b0|] eqn:Hx; [eexists _, _, _; split; [done|]; split; [by apply progresses_refl|done]|].
  destruct (receive_moves r d Hr Hx) as (r1 & b & -> & Hp & Hx1 & Hm & Hk). cbn [mbind option_bind]. rewrite <- Hm. rewrite <- Hk in Hh, Hf. clear Hm Hx Hk.
  destruct b as [b|]; [|by eexists _, _, _].
  assert (Hkeep : ∀ r2, progresses r [] r2 → hf_rxbuf (half_of r2 d) = None →
    progresses r [Received d b] (set_half r2 d (Half (hf_conn (half_of r2 d)) (Some b)))).
  { intros r2 Hp2 Hx2. apply (progresses_trans r [] r2 [Received d b]); [done|]. apply same_links; [apply Hp2|intros d'; by destruct d, d'|by destruct d| | |done].
    - intros d'. unfold pending. destruct d, d'; cbn in *; rewrite ?Hx2, ?app_nil_r; done.
    - done. }
  set (shown := match d with HALF_LOCAL => negb (r_is_mgmt_conn r1) | HALF_REMOTE => true end).
  destruct shown; [|eexists _, _, _; split; [done|]; split; [by apply Hkeep|by destruct d]].
  destruct (ho_call _ _ _ _ HK n d (r_hooks r1) _ _ b Hh (re_links _ (pg_ok _ _ _ Hp) HALF_LOCAL) (re_links _ (pg_ok _ _ _ Hp) HALF_REMOTE))
    as (h & cl & cr & took & E & Hn & Sl & Sr). unfold link_of in E. cbn [half_of] in E. rewrite E. cbn [mbind option_bind]. clear E Hf.
  assert (Hp2 : progresses r [] (set_links (set_hooks r1 h) cl cr)).
  { eapply (progresses_trans r [] (set_hooks r1 h) []); [|by apply links_move; [split; apply Hp|..]].
    destruct Hp as [[] ? ? ? ?]. by split. }
  set (r2 := set_links _ cl cr) in *. assert (Hx2 : hf_rxbuf (half_of r2 d) = None) by (by destruct d).
  destruct took; [|eexists _, _, _; split; [done|]; split; [by apply Hkeep|by destruct d]].
  eexists _, _, _; split; [done|]. split; [|done]. apply (progresses_trans r [] r2 [Received d b; Taken d b]); [done|].
  apply same_links; [apply Hp2|intros d'; by destruct d'|done| | |done].
  - intros d'. unfold pending. destruct d, d'; cbn in *; rewrite ?Hx2, ?app_nil_r; done.
  - done.
Qed.

Lemma pass_moves r d :
  relay_ok r → ∃ r' es p, pass_on now V r d = Some (r', es, p) ∧ progresses r es r' ∧ r_is_mgmt_conn r' = r_is_mgmt_conn r ∧ r_hooks r' = r_hooks r.
Proof using.
  intros Hr. unfold pass_on. destruct (co_counter _ _ (re_links _ Hr (other d))) as [n Hn]. fold (link_of r (other d)). rewrite Hn; cbn [mbind option_bind].
  assert (Hstay : ∃ r' es p, Some (r, ([] : list relayed), false) = Some (r', es, p) ∧ progresses r es r' ∧ r_is_mgmt_conn r' = r_is_mgmt_conn r ∧ r_hooks r' = r_hooks r).
  { eexists _, _, _; split; [done|]. split; [by apply progresses_refl|done]. }
  destruct (hf_rxbuf (half_of r d)) as [b|] eqn:Hx; [|exact Hstay]. destruct (Z.eqb_spec n 0) as [->|]; [|exact Hstay]. clear Hstay.
  destruct (send_ok now (V (other d)) (link_of r (other d)) b (re_links _ Hr (other d)) Hn) as (c & k & -> & Hc & Hk). cbn [mbind option_bind].
  replace (Conn (cn_rconn c) (cn_net c)) with c by (by destruct c).
  destruct (rconn_is_connected (cn_rconn (link_of r (other d)))) eqn:Hconn.
  - destruct Hk as [-> Hw]. cbn [Z.eqb EAGAIN negb]. eexists _, _, _; split; [done|]. split; [|by destruct d]. split.
    + split; [|by destruct d; apply Hr]. intros d'. destruct d, d'; first [done|exact (re_links _ Hr HALF_LOCAL)|exact (re_links _ Hr HALF_REMOTE)].
    + intros d'. unfold pending. destruct d, d'; cbn in *; rewrite ?Hx, ?app_nil_r; done.
    + intros d'. destruct (decide (d' = d)) as [->|Hne].
      * exists [queued b (Some N_TXQ)]. split; [by destruct d|]. destruct d; exact (mine_queued [b]).
      * exists []. split; [|by destruct d, d']. destruct d, d'; try done; apply went_refl; [exact (re_links _ Hr HALF_LOCAL)|exact (re_links _ Hr HALF_REMOTE)].
    + intros d'. unfold down, link_of in *. destruct d, d'; cbn in *; congruence.
    + intros d'. destruct d, d'; done.
  - destruct Hk as [-> ->]. cbn [Z.eqb Pos.eqb EAGAIN ENOTCONN negb]. eexists _, _, _; split; [done|]. split; [|by destruct d].
    apply same_links; [done|intros d'; by destruct d, d'|by destruct d| |by intros d'; destruct d, d'|].
    + intros d'. unfold pending. destruct d, d'; cbn in *; rewrite ?Hx, ?app_nil_r; done.
    + intros d'. unfold down, link_of in *. destruct d, d'; first [intros _; exact Hconn|intros Hne; by destruct Hne].
Qed.

Lemma turn_moves n r :
  relay_ok r → I (S (S n)) (r_hooks r) →
  ∃ r' es p, relay_turn K now V V_async r = Some (r', es, p) ∧ progresses r es r' ∧ r_is_mgmt_conn r' = r_is_mgmt_conn r ∧ I n (r_hooks r').
Proof using HK.
  intros Hr Hh. unfold relay_turn. destruct (fetch_moves (S n) r HALF_LOCAL Hr Hh) as (r1 & e1 & t1 & -> & P1 & M1 & I1). cbn [mbind option_bind].
  destruct t1; [eexists _, _, _; split; [done|]; split_and!; [done|done|by apply (ho_fewer _ _ _ _ HK)]|].
  destruct (pass_moves r1 HALF_LOCAL (pg_ok _ _ _ P1)) as (r2 & e2 & p1 & -> & P2 & M2 & K2). cbn [mbind option_bind]. rewrite <- K2 in I1.
  destruct (fetch_moves n r2 HALF_REMOTE (pg_ok _ _ _ P2) I1) as (r3 & e3 & t3 & -> & P3 & M3 & I3). cbn [mbind option_bind].
  pose proof (progresses_trans _ _ _ _ _ P1 (progresses_trans _ _ _ _ _ P2 P3)) as P.
  destruct t3; [eexists _, _, _; split; [done|]; split_and!; [done|congruence|done]|].
  destruct (pass_moves r3 HALF_REMOTE (pg_ok _ _ _ P3)) as (r4 & e4 & p2 & -> & P4 & M4 & K4). cbn [mbind option_bind].
  eexists _, _, _; split; [done|]. split_and!; [|congruence|by rewrite K4].
  pose proof (progresses_trans _ _ _ _ _ P P4) as P'. by rewrite <- !app_assoc in P'.
Qed.

Lemma loop_moves n r :
  relay_ok r → I (2 * n)%nat (r_hooks r) →
  ∃ r' es, relay_loop K now V V_async n r = Some (r', es) ∧ progresses r es r' ∧ r_is_mgmt_conn r' = r_is_mgmt_conn r.
Proof using HK.
  revert r. induction n as [|n IH]; intros r Hr Hh; cbn [relay_loop]; [eexists _, _; split; [done|]; split; [by apply progresses_refl|done]|].
  replace (2 * S n)%nat with (S (S (2 * n))) in Hh by lia.
  destruct (turn_moves _ r Hr Hh) as (r1 & e1 & p & -> & P1 & M1 & I1). cbn [mbind option_bind]. destruct p; [|by eexists _, _].
  destruct (IH r1 (pg_ok _ _ _ P1) I1) as (r2 & e2 & -> & P2 & M2). cbn [mbind option_bind].
  eexists _, _; split; [done|]. split; [by eapply progresses_trans|congruence].
Qed.
End relay.

(** The turns of the connections at the start of a run. *)
Lemma runs_ok {H} now (V : direction → vconn) V_async xids (r : relay H) :
  relay_ok now r →
  ∃ r0, run_links now V V_async xids r = Some r0 ∧
    relay_ok now r0 ∧ (∀ d, pending r0 d = pending r d) ∧ r_is_mgmt_conn r0 = r_is_mgmt_conn r ∧ r_hooks r0 = r_hooks r ∧
    ∀ d, ∃ new, went now (link_of r d) new (link_of r0 d) ∧ mine new = [].
Proof.
  intros Hr. unfold run_links.
  assert (Ha : ∃ a', match r_async r with Some a => a ← conn_run now V_async xids.2 a; Some (Some a) | None => Some None end = Some a' ∧
    ∀ a, a' = Some a → cn_ok now a).
  { destruct (r_async r) as [a|] eqn:E; [|by exists None]. destruct (link_run_ok now V_async xids.2 a (re_async _ _ Hr _ E)) as (a' & _ & -> & Ha' & _).
    exists (Some a'). split; [done|]. by intros ? [= <-]. }
  destruct Ha as (a' & -> & Ha'). cbn [mbind option_bind].
  destruct (link_run_ok now (V HALF_LOCAL) xids.1.1 _ (re_links _ _ Hr HALF_LOCAL)) as (cl & nl & El & Hl & Wl & Dl).
  destruct (link_run_ok now (V HALF_REMOTE) xids.1.2 _ (re_links _ _ Hr HALF_REMOTE)) as (cr & nr & Er & Hcr & Wr & Dr).
  unfold link_of in El, Er. cbn [half_of] in El, Er. eexists. split; [cbn [set_async set_half r_local r_remote]; rewrite El; cbn [mbind option_bind set_half r_local r_remote]; rewrite Er; cbn [mbind option_bind]; reflexivity|].
  split_and!; [split; [intros []; done|done]|by intros []|done|done|]. intros []; [exists nl|exists nr]; done.
Qed.

(** C34: the relay hands on every message once and in order.  The relay's connections are in order, each with its counter and at
    most one message of the relay queued; its hooks, called with those connections, return for the next 100 messages (a run shows
    them no more) and do nothing to the connections but send messages of their own on them ([hooks_ok]).  Whatever the networks
    answer, a run of the relay then returns.  In each direction, the messages a hook took, those handed to the other
    side's connection and those deleted are, in this order and once each, the message that was waiting and those received, and
    what is left is the one message that now waits.  The messages handed on are queued or sent behind all
    earlier ones, at most one is left queued, and none of them is missing unless the connection was lost; a message is deleted only
    if the other side is not connected.  Only the relay of a management connection is given up, when a side is not alive. *)
Theorem relay_in_order {H : Type} (K : hooks H) (I : nat → H → Prop) (now : Z) (V : direction → vconn) (V_async : vconn) (xids : Z * Z * Z)
    (r : relay H) (Hr : relay_ok now r) (HK : hooks_ok now V K I) (Hh : I 100%nat (r_hooks r)) :
  ∃ r' es, (relay_run K now V V_async xids r = Some (Some r', es) ∨ relay_run K now V V_async xids r = Some (None, es) ∧ r_is_mgmt_conn r = true) ∧
    relay_ok now r' ∧
    ∀ d, flat_map (settled d) es ++ pending r' d = pending r d ++ flat_map (received d) es ∧
      (∃ new, went now (link_of r (other d)) new (link_of r' (other d)) ∧ mine new = (λ b, queued b (Some N_TXQ)) <$> flat_map (handed_on d) es) ∧
      (flat_map (deleted d) es ≠ [] → down (link_of r' (other d))).
Proof.
  destruct (runs_ok now V V_async xids r Hr) as (r0 & E & Hr0 & Hp & Hm & Hk & Hw). rewrite <- Hk in Hh.
  destruct (loop_moves K now V V_async I HK 50 r0 Hr0 Hh) as (r' & es & El & P & Hm').
  exists r', es. split_and!; [|apply P|].
  - unfold relay_run. rewrite E; cbn [mbind option_bind]. rewrite El; cbn [mbind option_bind]. destruct (r_is_mgmt_conn r') eqn:Em; cbn [andb]; [|by left].
    destruct (negb _); [|by left]. right. split; [done|congruence].
  - intros d. split_and!; [|..|apply P].
    + rewrite <- Hp. apply P.
    + destruct (Hw (other d)) as (n0 & W0 & D0), (pg_queued _ _ _ _ P d) as (n1 & W1 & D1). exists (n0 ++ n1).
      split; [eapply went_trans; [exact W0|exact W1|apply P]|]. by rewrite mine_app, D0, D1.
Qed.

(** * Failover *)

Section failover.
  Context (num_controllers max_backoff : Z) (Hb : 0 <= max_backoff).

(** The current controller was chosen at [t] or before. *)
Record fo_ok (t : Z) (x : failover_context) : Prop := {
  fo_range : 0 <= fo_index x < num_controllers;
  fo_named : ∀ i, 0 <= i < num_controllers → ∃ e, fo_epochs x !! Z.to_nat i = Some (Some e) ∧ 0 <= e <= t }.

(** A call of the callback with the connection as it is then: in order, and not connected. *)
Record fo_call := FoCall { fc_now : Z; fc_net : vconn; fc_conn : conn }.
Definition fo_call_ok (others : positive → Z) (c : fo_call) : Prop :=
  rc_ok (fc_now c) (cn_rconn (fc_conn c)) ∧ balanced others (rc_txq (cn_rconn (fc_conn c))) (cn_net (fc_conn c)) ∧ down (fc_conn c) ∧
  fc_now c + max_backoff < UINT_MAX.

(** Between two calls at least [max_backoff] seconds pass. *)
Fixpoint spaced (t : Z) (calls : list fo_call) : Prop :=
  match calls with [] => True | c :: calls => t + max_backoff <= fc_now c ∧ spaced (fc_now c) calls end.

Fixpoint failover_run (calls : list fo_call) (x : failover_context) : option failover_context :=
  match calls with
  | [] => Some x
  | c :: calls => '(x, _) ← failover_periodic_cb num_controllers max_backoff (fc_now c) (fc_net c) x (fc_conn c); failover_run calls x
  end.

Lemma failover_step others t x c :
  fo_ok t x → fo_call_ok others c → t + max_backoff <= fc_now c → 0 <= t →
  ∃ x' cn, failover_periodic_cb num_controllers max_backoff (fc_now c) (fc_net c) x (fc_conn c) = Some (x', cn) ∧
    fo_ok (fc_now c) x' ∧ fo_index x' = (fo_index x + 1) mod num_controllers.
Proof using Hb.
  intros [Hr Hn] (Hok & Hbal & Hd & Hfit) Hs Ht. unfold failover_periodic_cb. unfold down in Hd. rewrite Hd.
  destruct (Hn _ Hr) as (e & He & Hle). rewrite He. cbn [mjoin option_join mbind option_bind].
  assert (Et : is_timed_out max_backoff (fc_now c) e = true).
  { unfold UINT_MAX in Hfit. assert (E1 : u32 e = e) by (apply wrap_small; unfold fits; lia).
    assert (E2 : u32 max_backoff = max_backoff) by (apply wrap_small; unfold fits; lia).
    assert (E3 : u32 (e + max_backoff) = e + max_backoff) by (apply wrap_small; unfold fits; lia).
    unfold is_timed_out, sat_add. rewrite E1, E2, E3. rewrite (proj2 (Z.leb_le e _)) by lia. apply Z.leb_le. lia. }
  rewrite Et. cbn [negb].
  destruct (rconn_disconnect_good (fc_now c) others _ _ Hok Hbal) as [Hg _].
  destruct (connect_good (fc_now c) (fc_net c) others _ _ (gd_ok _ _ _ _ _ _ _ Hg) (gd_bal _ _ _ _ _ _ _ Hg)) as (rc' & w' & -> & _). cbn [mbind option_bind].
  set (i := (fo_index x + 1) mod num_controllers). assert (Hi : 0 <= i < num_controllers) by (apply Z.mod_pos_bound; lia).
  destruct (Hn i Hi) as (e' & He' & _). rewrite He'. cbn [mjoin option_join mbind option_bind].
  eexists _, _. split; [done|]. split; [|done]. split; [done|]. cbn [fo_epochs]. intros j Hj. destruct (Hn j Hj) as (ej & Hej & ?).
  destruct (decide (j = i)) as [->|Hne].
  - exists (fc_now c). rewrite list_lookup_insert_eq by (by eapply lookup_lt_Some). split; [done|lia].
  - exists ej. rewrite list_lookup_insert_ne by lia. split; [done|lia].
Qed.

Lemma failover_runs others calls t x :
  fo_ok t x → Forall (fo_call_ok others) calls → spaced t calls → 0 <= t →
  ∃ x', failover_run calls x = Some x' ∧ fo_index x' = (fo_index x + Z.of_nat (length calls)) mod num_controllers.
Proof using Hb.
  intros Hx Hc. revert t x Hx. induction Hc as [|c calls Hc _ IH]; intros t x Hx Hs Ht; cbn [failover_run length].
  { exists x. split; [done|]. rewrite Z.add_0_r. symmetry. apply Z.mod_small, Hx. }
  destruct Hs as [H1 H2]. destruct (failover_step others t x c Hx Hc H1 Ht) as (x1 & cn & -> & Hx1 & E). cbn [mbind option_bind].
  destruct (IH (fc_now c) x1 Hx1 H2 ltac:(lia)) as (x' & -> & E'). exists x'. split; [done|]. rewrite E', E.
  rewrite Zplus_mod_idemp_l. f_equal. lia.
Qed.

Lemma failover_start_ok now : 1 <= num_controllers <= 3 → 0 <= now → fo_ok now (failover_start num_controllers now).
Proof using.
  intros Hn Ht. split; [cbn; lia|]. intros i Hi. exists now. split; [|lia]. unfold failover_start; cbn [fo_epochs].
  rewrite list_lookup_fmap. assert (Hi3 : [0; 1; 2] !! Z.to_nat i = Some i).
  { assert (i = 0 ∨ i = 1 ∨ i = 2) as Hi3 by lia. by destruct Hi3 as [->|[->| ->]]. }
  rewrite Hi3. cbn [fmap option_fmap option_map]. by rewrite (proj2 (Z.ltb_lt _ _)) by lia.
Qed.
End failover.

(** Controllers are tried in turn.  As long as the connection stays down, whatever state it is in and
    whatever the network answers, each call of the failover callback that comes at least [max_backoff] seconds after the last
    one goes on to the next controller, and after the last one to the first again: after [k] calls from the start it
    is number [k] modulo the number of controllers. *)
Theorem failover_rotates (num_controllers max_backoff t0 : Z) (others : positive → Z) (calls : list fo_call)
    (Hn : 1 <= num_controllers <= 3) (Hb : 0 <= max_backoff) (Ht : 0 <= t0)
    (Hc : Forall (fo_call_ok max_backoff others) calls) (Hs : spaced max_backoff t0 calls) :
  ∃ x, failover_run num_controllers max_backoff calls (failover_start num_controllers t0) = Some x ∧
    fo_index x = Z.of_nat (length calls) mod num_controllers.
Proof. exact (failover_runs num_controllers max_backoff Hb others calls t0 _ (failover_start_ok num_controllers t0 Hn Ht) Hc Hs Ht). Qed.

(** * Examples *)

(** Two connections that are up; the switch has a message for the controller, a PACKET_IN, and the controller asks for the
    status; then there is nothing more. *)
Definition ex_up : conn := Conn (rconn_connect_unreliably 0 (rconn_create 0 0 0)) (no_traffic {[N_TXQ]}).
Definition ex_status : msg := Msg OFPT_EXPERIMENTER 7 None ([4; 4; 0; 16; 0; 0; 0; 7] ++ be 4 NX_VENDOR_ID ++ be 4 NXT_STATUS_REQUEST).
Definition ex_nets (d : direction) : vconn :=
  Vconn (λ _, true) (λ _, true) (λ _, Ok) (λ _, Ok) (λ _, Ok)
    (λ k, match d, k with HALF_LOCAL, 0%nat => inl (ex_in 0) | HALF_REMOTE, 1%nat => inl ex_status | _, _ => inr Again end).

(** The rate limiter, and behind it the status hook with one category. *)
Definition ex_roomy : settings := Settings 10 200.
Definition ex_categories : list category := [([115], [[117; 112]])].
Definition ex_hooks : hooks (rate_limiter * list category) :=
  hooks_both (rate_limit_hooks ex_roomy [] 0) (switch_status_hooks 0 ex_nets).
Definition ex_relay : relay (rate_limiter * list category) :=
  relay_create None ex_up ex_up false (rate_limit_start ex_roomy 0, ex_categories).

Lemma ex_hooks_ok : hooks_ok 0 ex_nets ex_hooks (λ n h, room ex_roomy n h.1 ∧ Z.of_nat (texts_length h.2) <= 65519).
Proof.
  apply (hooks_both_ok 0 ex_nets _ _ (room ex_roomy) (λ _ categories, Z.of_nat (texts_length categories) <= 65519)).
  - apply rate_limit_hooks_ok. split; vm_compute; discriminate.
  - apply status_hooks_ok.
Qed.

Lemma ex_up_ok : cn_ok 0 ex_up.
Proof.
  split.
  - split; vm_compute; intuition congruence.
  - split; [|by intros ?? ?%not_elem_of_nil]. intros c n [_ <-]%lookup_gset_to_gmap_Some. done.
  - vm_compute. discriminate.
  - exists 0. apply lookup_gset_to_gmap_Some. split; [set_solver|done].
Qed.

(** What happens: the PACKET_IN is handed on; the request is taken, and the controller gets the PACKET_IN and the reply. *)
Definition ex_events : list relayed :=
  [Received HALF_LOCAL (ex_in 0); Relayed HALF_LOCAL (ex_in 0); Received HALF_REMOTE ex_status; Taken HALF_REMOTE ex_status].

Lemma ex_run :
  match relay_run ex_hooks 0 ex_nets ex_V (1, 2, 3) ex_relay with
  | Some (Some r', es) => es = ex_events ∧ m_type <$> ns_wire (cn_net (link_of r' HALF_REMOTE)) = [OFPT_PACKET_IN; OFPT_EXPERIMENTER]
  | _ => False
  end.
Proof. vm_compute. split; reflexivity. Qed.

Lemma relay_in_order_witness :
  ∃ r', relay_run ex_hooks 0 ex_nets ex_V (1, 2, 3) ex_relay = Some (Some r', ex_events) ∧
    m_type <$> ns_wire (cn_net (link_of r' HALF_REMOTE)) = [OFPT_PACKET_IN; OFPT_EXPERIMENTER] ∧
    pending r' HALF_LOCAL = [] ∧ relay_ok 0 r'.
Proof.
  pose proof ex_run as Hrun.
  destruct (relay_in_order ex_hooks (λ n h, room ex_roomy n h.1 ∧ Z.of_nat (texts_length h.2) <= 65519) 0 ex_nets ex_V (1, 2, 3) ex_relay)
    as (r' & es & [E|[E Hm]] & Hr' & Ho).
  - split; [intros []; exact ex_up_ok|done].
  - exact ex_hooks_ok.
  - split; [|vm_compute; discriminate]. exists 0, 0, []. split; [|cbn; lia]. apply start_ok. split; vm_compute; discriminate.
  - rewrite E in Hrun. destruct Hrun as [-> Hw]. exists r'. split_and!; [exact E|exact Hw| |exact Hr'].
    destruct (Ho HALF_LOCAL) as [Hp _]. cbn in Hp. by injection Hp.
  - discriminate Hm.
Defined.

Definition ex_down (now : Z) : fo_call := FoCall now ex_V (Conn (rconn_create 0 0 0) (no_traffic ∅)).

Lemma failover_rotates_witness :
  ∃ x, failover_run 3 10 (ex_down <$> [10; 20; 31; 41]) (failover_start 3 0) = Some x ∧ fo_index x = 1.
Proof.
  refine (failover_rotates 3 10 0 (λ _, 0) (ex_down <$> [10; 20; 31; 41]) _ _ _ _ _); [lia|lia|lia| |cbn; lia].
  apply list.Forall_forall. intros c (t & -> & Ht)%list_elem_of_fmap. assert (0 <= t <= 41) by (set_unfold in Ht; naive_solver lia).
  unfold fo_call_ok; cbn [fc_now fc_conn ex_down cn_rconn cn_net]. split_and!; [|split; [by intros ?? ?|by intros ?? ?%not_elem_of_nil]|done|unfold UINT_MAX; lia].
  apply (rc_ok_later 0); [apply rconn_create_ok; vm_compute; intuition congruence|lia| |]; cbn; unfold UINT_MAX; lia.
Defined.
