(* ===== verification/Stp.v ===== *)
(** The spanning tree protocol: lib/stp.c, an implementation of IEEE 802.1D-1998.

    [struct stp] is the record [stp], with the ports in a list; a [struct stp_port *] is the index
    of the port.  The four members of a port that say what it heard ([designated_root],
    [designated_cost], [designated_bridge], [designated_port]) are the record [info]; each of the
    triples ([max_age], [hello_time], [forward_delay]), with the prefixes [bridge_] and [rq_] as well,
    is a record [times].  The callback [send_bpdu] appends the frame to [b_sent].

    An [int] is a [Z]; where the code adds or multiplies values that may leave 32 bits the model
    wraps ([i32]), as two's complement hosts do: C leaves it undefined.  [htons] into or out of
    an 8-bit member swaps the bytes, as on the little-endian hosts the switch is built for. *)

From S2P Require Import Prelude Wire.

Definition i32 (x : Z) : Z := wrap 32 (x + 2 ^ 31) - 2 ^ 31.

Definition STP_MAX_PORTS : nat := 255.
Definition STP_DEFAULT_BRIDGE_PRIORITY : Z := 32768.
Definition STP_DEFAULT_PORT_PRIORITY : Z := 128.
Definition stp_eth_addr : list Z := [0x01; 0x80; 0xC2; 0x00; 0x00; 0x01].
Definition STP_LLC_SSAP : Z := 0x42.
Definition STP_LLC_DSAP : Z := 0x42.
Definition STP_LLC_CNTL : Z := 0x03.
Definition STP_PROTOCOL_ID : Z := 0.
Definition STP_PROTOCOL_VERSION : Z := 0.
Definition STP_TYPE_CONFIG : Z := 0.
Definition STP_TYPE_TCN : Z := 0x80.
Definition STP_CONFIG_TOPOLOGY_CHANGE_ACK : Z := 0x80.
Definition STP_CONFIG_TOPOLOGY_CHANGE : Z := 0x01.
Definition MESSAGE_AGE_INCREMENT : Z := 1.

(** * Data *)

(** [STP_UNSET] is the 0 of memory from calloc, which is none of the enumerators. *)
Inductive stp_state := STP_UNSET | STP_DISABLED | STP_LISTENING | STP_LEARNING | STP_FORWARDING | STP_BLOCKING.

#[global] Instance stp_state_eq_dec : EqDecision stp_state.
Proof. solve_decision. Defined.

(** The bit of a state, for tests of several states. *)
Definition bit (s : stp_state) : Z :=
  match s with STP_UNSET => 0 | STP_DISABLED => 1 | STP_LISTENING => 2 | STP_LEARNING => 4 | STP_FORWARDING => 8 | STP_BLOCKING => 16 end.

Definition stp_forward_in_state (s : stp_state) : bool := truthy (Z.land (bit s) (Z.lor (bit STP_DISABLED) (bit STP_FORWARDING))).
Definition stp_learn_in_state (s : stp_state) : bool :=
  truthy (Z.land (bit s) (Z.lor (Z.lor (bit STP_DISABLED) (bit STP_LEARNING)) (bit STP_FORWARDING))).

(** A configuration BPDU, in host byte order. *)
Record stp_config_bpdu := Config {
  c_flags : Z;
  c_root_id : Z;
  c_root_path_cost : Z;
  c_bridge_id : Z;
  c_port_id : Z;
  c_message_age : Z;
  c_max_age : Z;
  c_hello_time : Z;
  c_forward_delay : Z }.

Record stp_timer := Timer { t_active : bool; t_value : Z }.

(** [designated_root], [designated_cost], [designated_bridge], [designated_port]. *)
Record info := Info { i_root : Z; i_cost : Z; i_bridge : Z; i_port : Z }.

Record stp_port := Port {
  p_port_id : Z;
  p_state : stp_state;
  p_path_cost : Z;
  p_info : info;
  p_topology_change_ack : bool;
  p_config_pending : bool;
  p_change_detection_enabled : bool;
  p_message_age_timer : stp_timer;
  p_forward_delay_timer : stp_timer;
  p_hold_timer : stp_timer;
  p_state_changed : bool }.

Record times := Times { max_age : Z; hello_time : Z; forward_delay : Z }.

Record stp := Stp {
  b_bridge_id : Z;
  b_times : times;                       (* max_age, hello_time, forward_delay *)
  b_bridge_times : times;                (* bridge_max_age, ... *)
  b_rq_times : times;                    (* rq_max_age, ... *)
  b_elapsed_remainder : Z;
  b_designated_root : Z;
  b_root_path_cost : Z;
  b_root_port : option nat;
  b_topology_change_detected : bool;
  b_topology_change : bool;
  b_hello_timer : stp_timer;
  b_tcn_timer : stp_timer;
  b_topology_change_timer : stp_timer;
  b_ports : list stp_port;
  b_first_changed_port : nat;
  b_sent : list (nat * list Z) }.

#[global] Instance info_eq_dec : EqDecision info.
Proof. solve_decision. Defined.
#[global] Instance stp_timer_eq_dec : EqDecision stp_timer.
Proof. solve_decision. Defined.
#[global] Instance stp_port_eq_dec : EqDecision stp_port.
Proof. solve_decision. Defined.
#[global] Instance times_eq_dec : EqDecision times.
Proof. solve_decision. Defined.
#[global] Instance stp_eq_dec : EqDecision stp.
Proof. solve_decision. Defined.

(** ** Assignments to members *)

Definition set_port_id (x : Z) (p : stp_port) : stp_port :=
  Port x (p_state p) (p_path_cost p) (p_info p) (p_topology_change_ack p) (p_config_pending p) (p_change_detection_enabled p)
    (p_message_age_timer p) (p_forward_delay_timer p) (p_hold_timer p) (p_state_changed p).
Definition set_state (x : stp_state) (changed : bool) (p : stp_port) : stp_port :=
  Port (p_port_id p) x (p_path_cost p) (p_info p) (p_topology_change_ack p) (p_config_pending p) (p_change_detection_enabled p)
    (p_message_age_timer p) (p_forward_delay_timer p) (p_hold_timer p) changed.
Definition set_path_cost (x : Z) (p : stp_port) : stp_port :=
  Port (p_port_id p) (p_state p) x (p_info p) (p_topology_change_ack p) (p_config_pending p) (p_change_detection_enabled p)
    (p_message_age_timer p) (p_forward_delay_timer p) (p_hold_timer p) (p_state_changed p).
Definition set_info (x : info) (p : stp_port) : stp_port :=
  Port (p_port_id p) (p_state p) (p_path_cost p) x (p_topology_change_ack p) (p_config_pending p) (p_change_detection_enabled p)
    (p_message_age_timer p) (p_forward_delay_timer p) (p_hold_timer p) (p_state_changed p).
(** [topology_change_ack] and [config_pending]. *)
Definition set_duties (ack pending : bool) (p : stp_port) : stp_port :=
  Port (p_port_id p) (p_state p) (p_path_cost p) (p_info p) ack pending (p_change_detection_enabled p)
    (p_message_age_timer p) (p_forward_delay_timer p) (p_hold_timer p) (p_state_changed p).
Definition set_detect (x : bool) (p : stp_port) : stp_port :=
  Port (p_port_id p) (p_state p) (p_path_cost p) (p_info p) (p_topology_change_ack p) (p_config_pending p) x
    (p_message_age_timer p) (p_forward_delay_timer p) (p_hold_timer p) (p_state_changed p).
Definition set_timers (age delay hold : stp_timer) (p : stp_port) : stp_port :=
  Port (p_port_id p) (p_state p) (p_path_cost p) (p_info p) (p_topology_change_ack p) (p_config_pending p) (p_change_detection_enabled p)
    age delay hold (p_state_changed p).
Definition set_message_age (t : stp_timer) (p : stp_port) : stp_port := set_timers t (p_forward_delay_timer p) (p_hold_timer p) p.
Definition set_forward_delay (t : stp_timer) (p : stp_port) : stp_port := set_timers (p_message_age_timer p) t (p_hold_timer p) p.
Definition set_hold (t : stp_timer) (p : stp_port) : stp_port := set_timers (p_message_age_timer p) (p_forward_delay_timer p) t p.

Definition put_bridge_id (x : Z) (b : stp) : stp :=
  Stp x (b_times b) (b_bridge_times b) (b_rq_times b) (b_elapsed_remainder b) (b_designated_root b) (b_root_path_cost b) (b_root_port b)
    (b_topology_change_detected b) (b_topology_change b) (b_hello_timer b) (b_tcn_timer b) (b_topology_change_timer b) (b_ports b)
    (b_first_changed_port b) (b_sent b).
Definition set_times (x : times) (b : stp) : stp :=
  Stp (b_bridge_id b) x (b_bridge_times b) (b_rq_times b) (b_elapsed_remainder b) (b_designated_root b) (b_root_path_cost b) (b_root_port b)
    (b_topology_change_detected b) (b_topology_change b) (b_hello_timer b) (b_tcn_timer b) (b_topology_change_timer b) (b_ports b)
    (b_first_changed_port b) (b_sent b).
Definition set_own_times (rq own : times) (b : stp) : stp :=
  Stp (b_bridge_id b) (b_times b) own rq (b_elapsed_remainder b) (b_designated_root b) (b_root_path_cost b) (b_root_port b)
    (b_topology_change_detected b) (b_topology_change b) (b_hello_timer b) (b_tcn_timer b) (b_topology_change_timer b) (b_ports b)
    (b_first_changed_port b) (b_sent b).
Definition set_remainder (x : Z) (b : stp) : stp :=
  Stp (b_bridge_id b) (b_times b) (b_bridge_times b) (b_rq_times b) x (b_designated_root b) (b_root_path_cost b) (b_root_port b)
    (b_topology_change_detected b) (b_topology_change b) (b_hello_timer b) (b_tcn_timer b) (b_topology_change_timer b) (b_ports b)
    (b_first_changed_port b) (b_sent b).
Definition set_root (root cost : Z) (port : option nat) (b : stp) : stp :=
  Stp (b_bridge_id b) (b_times b) (b_bridge_times b) (b_rq_times b) (b_elapsed_remainder b) root cost port
    (b_topology_change_detected b) (b_topology_change b) (b_hello_timer b) (b_tcn_timer b) (b_topology_change_timer b) (b_ports b)
    (b_first_changed_port b) (b_sent b).
(** [topology_change_detected] and [topology_change]. *)
Definition set_change (detected change : bool) (b : stp) : stp :=
  Stp (b_bridge_id b) (b_times b) (b_bridge_times b) (b_rq_times b) (b_elapsed_remainder b) (b_designated_root b) (b_root_path_cost b)
    (b_root_port b) detected change (b_hello_timer b) (b_tcn_timer b) (b_topology_change_timer b) (b_ports b)
    (b_first_changed_port b) (b_sent b).
Definition set_bridge_timers (hello tcn change : stp_timer) (b : stp) : stp :=
  Stp (b_bridge_id b) (b_times b) (b_bridge_times b) (b_rq_times b) (b_elapsed_remainder b) (b_designated_root b) (b_root_path_cost b)
    (b_root_port b) (b_topology_change_detected b) (b_topology_change b) hello tcn change (b_ports b) (b_first_changed_port b) (b_sent b).
Definition set_hello (t : stp_timer) (b : stp) : stp := set_bridge_timers t (b_tcn_timer b) (b_topology_change_timer b) b.
Definition set_tcn (t : stp_timer) (b : stp) : stp := set_bridge_timers (b_hello_timer b) t (b_topology_change_timer b) b.
Definition set_change_timer (t : stp_timer) (b : stp) : stp := set_bridge_timers (b_hello_timer b) (b_tcn_timer b) t b.
Definition set_ports (ports : list stp_port) (first : nat) (b : stp) : stp :=
  Stp (b_bridge_id b) (b_times b) (b_bridge_times b) (b_rq_times b) (b_elapsed_remainder b) (b_designated_root b) (b_root_path_cost b)
    (b_root_port b) (b_topology_change_detected b) (b_topology_change b) (b_hello_timer b) (b_tcn_timer b) (b_topology_change_timer b) ports
    first (b_sent b).
Definition set_sent (sent : list (nat * list Z)) (b : stp) : stp :=
  Stp (b_bridge_id b) (b_times b) (b_bridge_times b) (b_rq_times b) (b_elapsed_remainder b) (b_designated_root b) (b_root_path_cost b)
    (b_root_port b) (b_topology_change_detected b) (b_topology_change b) (b_hello_timer b) (b_tcn_timer b) (b_topology_change_timer b)
    (b_ports b) (b_first_changed_port b) sent.

(** A port in memory from calloc, before [stp_create] sets it up; also what [port] gives outside of the array. *)
Definition no_timer : stp_timer := Timer false 0.
Definition blank_port : stp_port := Port 0 STP_UNSET 0 (Info 0 0 0 0) false false false no_timer no_timer no_timer false.

Definition port (b : stp) (i : nat) : stp_port := default blank_port (b_ports b !! i).
Definition upd (i : nat) (f : stp_port → stp_port) (b : stp) : stp := set_ports (alter f i (b_ports b)) (b_first_changed_port b) b.

Definition enabled (p : stp_port) : bool := bool_decide (p_state p ≠ STP_DISABLED).

(** [FOR_EACH_ENABLED_PORT]: whether a port is enabled is looked up when its turn has come. *)
Definition for_each (f : nat → stp → stp) (b : stp) : stp :=
  foldl (λ b i, if enabled (port b i) then f i b else b) b (seq 0 STP_MAX_PORTS).

(** * Timers *)

Definition stp_start_timer (value : Z) : stp_timer := Timer true value.
Definition stp_stop_timer (t : stp_timer) : stp_timer := Timer false (t_value t).
Definition stp_timer_expired (t : stp_timer) (elapsed timeout : Z) : stp_timer * bool :=
  if t_active t then
    let v := i32 (t_value t + elapsed) in
    if timeout <=? v then (Timer false v, true) else (Timer true v, false)
  else (t, false).

Definition ms_to_timer (ms : Z) : Z := Z.quot (i32 (ms * 0x100)) 1000.
Definition ms_to_timer_remainder (ms : Z) : Z := Z.rem (i32 (ms * 0x100)) 1000.
Definition timer_to_ms (timer : Z) : Z := Z.quot (i32 (timer * 1000)) 0x100.
Definition clamp (x min max : Z) : Z := if x <? min then min else if max <? x then max else x.

(** * Messages *)

Definition stp_is_root_bridge (b : stp) : bool := b_bridge_id b =? b_designated_root b.

Definition stp_is_designated_port (b : stp) (i : nat) : bool :=
  (i_bridge (p_info (port b i)) =? b_bridge_id b) && (i_port (p_info (port b i)) =? p_port_id (port b i)).

(** The bytes of a [struct stp_config_bpdu] and of a [struct stp_tcn_bpdu]. *)
Definition header_bytes (type : Z) : list Z := be 2 STP_PROTOCOL_ID ++ be 1 STP_PROTOCOL_VERSION ++ be 1 type.
Definition config_bytes (c : stp_config_bpdu) : list Z :=
  header_bytes STP_TYPE_CONFIG ++ be 1 (c_flags c) ++ be 8 (c_root_id c) ++ be 4 (c_root_path_cost c) ++ be 8 (c_bridge_id c) ++
  be 2 (c_port_id c) ++ be 2 (c_message_age c) ++ be 2 (c_max_age c) ++ be 2 (c_hello_time c) ++ be 2 (c_forward_delay c).
(** The same read back: the members of the struct at a pointer. *)
Definition field (bpdu : list Z) (off w : nat) : Z := be_read (take w (drop off bpdu)).
Definition config_of (bpdu : list Z) : stp_config_bpdu :=
  Config (field bpdu 4 1) (field bpdu 5 8) (field bpdu 13 4) (field bpdu 17 8) (field bpdu 25 2) (field bpdu 27 2) (field bpdu 29 2)
    (field bpdu 31 2) (field bpdu 33 2).

(** The Ethernet type is the length of what follows; the callback fills in the source. *)
Definition stp_send_bpdu (i : nat) (bpdu : list Z) (b : stp) : stp :=
  set_sent (b_sent b ++ [(i, stp_eth_addr ++ zeros 6 ++ be 2 (u16 (3 + Z.of_nat (length bpdu))) ++
                              [STP_LLC_DSAP; STP_LLC_SSAP; STP_LLC_CNTL] ++ bpdu)]) b.

(** The message [stp_transmit_config] builds. *)
Definition config_message (b : stp) (i : nat) : stp_config_bpdu :=
  let p := port b i in
  let flags := 0 in
  let flags := if p_topology_change_ack p then u8 (Z.lor flags (bswap16 STP_CONFIG_TOPOLOGY_CHANGE_ACK)) else flags in
  let flags := if b_topology_change b then u8 (Z.lor flags (bswap16 STP_CONFIG_TOPOLOGY_CHANGE)) else flags in
  let age := if stp_is_root_bridge b then 0
             else u16 (t_value (p_message_age_timer (default blank_port (b_root_port b ≫= λ r, b_ports b !! r))) + MESSAGE_AGE_INCREMENT) in
  Config flags (b_designated_root b) (b_root_path_cost b) (b_bridge_id b) (u16 (p_port_id p)) age
    (u16 (max_age (b_times b))) (u16 (hello_time (b_times b))) (u16 (forward_delay (b_times b))).

Definition stp_transmit_config (i : nat) (b : stp) : stp :=
  if negb (stp_is_root_bridge b) && bool_decide (b_root_port b = None) then b
  else if t_active (p_hold_timer (port b i)) then upd i (λ p, set_duties (p_topology_change_ack p) true p) b
  else
    let config := config_message b i in
    if c_message_age config <? max_age (b_times b) then
      let b := upd i (set_duties false false) b in
      let b := stp_send_bpdu i (config_bytes config) b in
      upd i (set_hold (stp_start_timer 0)) b
    else b.

Definition stp_config_bpdu_generation (b : stp) : stp :=
  for_each (λ i b, if stp_is_designated_port b i then stp_transmit_config i b else b) b.

Definition stp_transmit_tcn (b : stp) : stp :=
  match b_root_port b with None => b | Some i => stp_send_bpdu i (header_bytes STP_TYPE_TCN) b end.

(** * Topology changes *)

Definition stp_topology_change_detection (b : stp) : stp :=
  let b :=
    if stp_is_root_bridge b then
      let b := set_change (b_topology_change_detected b) true b in
      set_change_timer (stp_start_timer 0) b
    else if negb (b_topology_change_detected b) then
      let b := stp_transmit_tcn b in
      set_tcn (stp_start_timer 0) b
    else b in
  set_change true (b_topology_change b) b.

Definition stp_topology_change_acknowledged (b : stp) : stp :=
  let b := set_change false (b_topology_change b) b in
  set_tcn (stp_stop_timer (b_tcn_timer b)) b.

Definition stp_acknowledge_topology_change (i : nat) (b : stp) : stp :=
  let b := upd i (λ p, set_duties true (p_config_pending p) p) b in
  stp_transmit_config i b.

(** * Port states *)

Definition stp_set_port_state (i : nat) (state : stp_state) (b : stp) : stp :=
  let p := port b i in
  let changed := bool_decide (state ≠ p_state p) && negb (p_state_changed p) in
  let first := if changed then Nat.min i (b_first_changed_port b) else b_first_changed_port b in
  let b := set_ports (b_ports b) first b in
  upd i (set_state state (changed || p_state_changed p)) b.

Definition stp_make_forwarding (i : nat) (b : stp) : stp :=
  if bool_decide (p_state (port b i) = STP_BLOCKING) then
    let b := stp_set_port_state i STP_LISTENING b in
    upd i (set_forward_delay (stp_start_timer 0)) b
  else b.

Definition stp_make_blocking (i : nat) (b : stp) : stp :=
  let state := p_state (port b i) in
  if negb (truthy (Z.land (bit state) (Z.lor (bit STP_DISABLED) (bit STP_BLOCKING)))) then
    let b := if truthy (Z.land (bit state) (Z.lor (bit STP_FORWARDING) (bit STP_LEARNING))) then
               if p_change_detection_enabled (port b i) then stp_topology_change_detection b else b
             else b in
    let b := stp_set_port_state i STP_BLOCKING b in
    upd i (λ p, set_forward_delay (stp_stop_timer (p_forward_delay_timer p)) p) b
  else b.

Definition stp_port_state_selection (b : stp) : stp :=
  for_each (λ i b,
    if bool_decide (b_root_port b = Some i) then stp_make_forwarding i (upd i (set_duties false false) b)
    else if stp_is_designated_port b i then
      stp_make_forwarding i (upd i (λ p, set_message_age (stp_stop_timer (p_message_age_timer p)) p) b)
    else stp_make_blocking i (upd i (set_duties false false) b)) b.

(** * The root and the designated ports *)

Definition stp_become_designated_port (i : nat) (b : stp) : stp :=
  upd i (λ p, set_info (Info (b_designated_root b) (i32 (b_root_path_cost b)) (b_bridge_id b) (p_port_id p)) p) b.

Definition stp_supersedes_root (root p : stp_port) : bool :=
  let p_cost := i32 (i_cost (p_info p) + p_path_cost p) in
  let root_cost := i32 (i_cost (p_info root) + p_path_cost root) in
  if negb (i_root (p_info p) =? i_root (p_info root)) then i_root (p_info p) <? i_root (p_info root)
  else if negb (p_cost =? root_cost) then p_cost <? root_cost
  else if negb (i_bridge (p_info p) =? i_bridge (p_info root)) then i_bridge (p_info p) <? i_bridge (p_info root)
  else if negb (i_port (p_info p) =? i_port (p_info root)) then i_port (p_info p) <? i_port (p_info root)
  else p_port_id p <? p_port_id root.

(** The turn of [stp_root_selection]'s loop for a port. *)
Definition select_root (b : stp) (root : option nat) (i : nat) : option nat :=
  if negb (enabled (port b i)) then root
  else if stp_is_designated_port b i || (b_bridge_id b <=? i_root (p_info (port b i))) then root
  else match root with
       | Some r => if negb (stp_supersedes_root (port b r) (port b i)) then root else Some i
       | None => Some i
       end.

Definition stp_root_selection (b : stp) : stp :=
  match foldl (select_root b) None (seq 0 STP_MAX_PORTS) with
  | None => set_root (b_bridge_id b) 0 None b
  | Some r => let p := port b r in set_root (i_root (p_info p)) (u32 (i_cost (p_info p) + p_path_cost p)) (Some r) b
  end.

(** The turn of [stp_designated_port_selection]'s loop for a port. *)
Definition bid (i : nat) (b : stp) : stp :=
  let p := port b i in
  if stp_is_designated_port b i
     || negb (i_root (p_info p) =? b_designated_root b)
     || (b_root_path_cost b <? u32 (i_cost (p_info p)))
     || (b_root_path_cost b =? u32 (i_cost (p_info p))) &&
        ((b_bridge_id b <? i_bridge (p_info p)) || (b_bridge_id b =? i_bridge (p_info p)) && (p_port_id p <=? i_port (p_info p)))
  then stp_become_designated_port i b else b.

Definition stp_designated_port_selection (b : stp) : stp := for_each bid b.

Definition stp_configuration_update (b : stp) : stp := stp_designated_port_selection (stp_root_selection b).

Definition root_times (b : stp) : stp := set_times (b_bridge_times b) b.

Definition stp_become_root_bridge (b : stp) : stp :=
  let b := root_times b in
  let b := stp_topology_change_detection b in
  let b := set_tcn (stp_stop_timer (b_tcn_timer b)) b in
  let b := stp_config_bpdu_generation b in
  set_hello (stp_start_timer 0) b.

(** What follows each change of the configuration. *)
Definition reconfigure (root : bool) (b : stp) : stp :=
  let b := stp_configuration_update b in
  let b := stp_port_state_selection b in
  if stp_is_root_bridge b && negb root then stp_become_root_bridge b else b.

(** * BPDUs that arrive *)

Definition stp_supersedes_port_info (b : stp) (i : nat) (c : stp_config_bpdu) : bool :=
  let p := p_info (port b i) in
  if negb (c_root_id c =? i_root p) then c_root_id c <? i_root p
  else if negb (c_root_path_cost c =? u32 (i_cost p)) then c_root_path_cost c <? u32 (i_cost p)
  else if negb (c_bridge_id c =? i_bridge p) then c_bridge_id c <? i_bridge p
  else negb (c_bridge_id c =? b_bridge_id b) || (c_port_id c <=? i_port p).

Definition stp_record_config_information (i : nat) (c : stp_config_bpdu) (b : stp) : stp :=
  upd i (λ p, set_message_age (stp_start_timer (c_message_age c))
                (set_info (Info (c_root_id c) (i32 (c_root_path_cost c)) (c_bridge_id c) (c_port_id c)) p)) b.

Definition stp_record_config_timeout_values (c : stp_config_bpdu) (b : stp) : stp :=
  let b := set_times (Times (c_max_age c) (c_hello_time c) (c_forward_delay c)) b in
  set_change (b_topology_change_detected b) (truthy (Z.land (c_flags c) (bswap16 STP_CONFIG_TOPOLOGY_CHANGE))) b.

Definition stp_received_config_bpdu (i : nat) (c : stp_config_bpdu) (b : stp) : stp :=
  if c_max_age c <=? c_message_age c then b
  else if enabled (port b i) then
    let root := stp_is_root_bridge b in
    if stp_supersedes_port_info b i c then
      let b := stp_record_config_information i c b in
      let b := stp_configuration_update b in
      let b := stp_port_state_selection b in
      let b :=
        if negb (stp_is_root_bridge b) && root then
          let b := set_hello (stp_stop_timer (b_hello_timer b)) b in
          if b_topology_change_detected b then
            let b := set_change_timer (stp_stop_timer (b_topology_change_timer b)) b in
            let b := stp_transmit_tcn b in
            set_tcn (stp_start_timer 0) b
          else b
        else b in
      if bool_decide (b_root_port b = Some i) then
        let b := stp_record_config_timeout_values c b in
        let b := stp_config_bpdu_generation b in
        if truthy (Z.land (c_flags c) (bswap16 STP_CONFIG_TOPOLOGY_CHANGE_ACK)) then stp_topology_change_acknowledged b else b
      else b
    else if stp_is_designated_port b i then stp_transmit_config i b
    else b
  else b.

Definition stp_received_tcn_bpdu (i : nat) (b : stp) : stp :=
  if enabled (port b i) then
    if stp_is_designated_port b i then stp_acknowledge_topology_change i (stp_topology_change_detection b) else b
  else b.

Definition stp_received_bpdu (i : nat) (bpdu : list Z) (b : stp) : stp :=
  if negb (enabled (port b i)) then b
  else if (length bpdu <? 4)%nat then b
  else if negb (field bpdu 0 2 =? STP_PROTOCOL_ID) then b
  else if field bpdu 3 1 =? STP_TYPE_CONFIG then
    if (length bpdu <? 35)%nat then b else stp_received_config_bpdu i (config_of bpdu) b
  else if field bpdu 3 1 =? STP_TYPE_TCN then
    if negb (length bpdu =? 4)%nat then b else stp_received_tcn_bpdu i b
  else b.

(** * Time *)

Definition stp_hello_timer_expiry (b : stp) : stp := set_hello (stp_start_timer 0) (stp_config_bpdu_generation b).

Definition stp_tcn_timer_expiry (b : stp) : stp := set_tcn (stp_start_timer 0) (stp_transmit_tcn b).

Definition stp_topology_change_timer_expiry (b : stp) : stp := set_change false false b.

Definition stp_message_age_timer_expiry (i : nat) (b : stp) : stp :=
  let root := stp_is_root_bridge b in
  reconfigure root (stp_become_designated_port i b).

Definition stp_is_designated_for_some_port (b : stp) : bool :=
  existsb (λ p, enabled p && (i_bridge (p_info p) =? b_bridge_id b)) (b_ports b).

Definition stp_forward_delay_timer_expiry (i : nat) (b : stp) : stp :=
  match p_state (port b i) with
  | STP_LISTENING => upd i (set_forward_delay (stp_start_timer 0)) (stp_set_port_state i STP_LEARNING b)
  | STP_LEARNING =>
    let b := stp_set_port_state i STP_FORWARDING b in
    if stp_is_designated_for_some_port b then
      if p_change_detection_enabled (port b i) then stp_topology_change_detection b else b
    else b
  | _ => b
  end.

Definition stp_hold_timer_expiry (i : nat) (b : stp) : stp :=
  if p_config_pending (port b i) then stp_transmit_config i b else b.

(** The turns of the two loops of [stp_tick] over the ports. *)
Definition tick_age (elapsed : Z) (i : nat) (b : stp) : stp :=
  let '(t, expired) := stp_timer_expired (p_message_age_timer (port b i)) elapsed (max_age (b_times b)) in
  let b := upd i (set_message_age t) b in
  if expired then stp_message_age_timer_expiry i b else b.

Definition tick_delay (elapsed : Z) (i : nat) (b : stp) : stp :=
  let '(t, expired) := stp_timer_expired (p_forward_delay_timer (port b i)) elapsed (forward_delay (b_times b)) in
  let b := upd i (set_forward_delay t) b in
  if expired then stp_forward_delay_timer_expiry i b else b.

Definition tick_hold (elapsed : Z) (i : nat) (b : stp) : stp :=
  let '(t, expired) := stp_timer_expired (p_hold_timer (port b i)) elapsed (ms_to_timer 1000) in
  let b := upd i (set_hold t) b in
  if expired then stp_hold_timer_expiry i b else b.

Definition tick_port (elapsed : Z) (i : nat) (b : stp) : stp := tick_hold elapsed i (tick_delay elapsed i b).

Definition tick_hello (elapsed : Z) (b : stp) : stp :=
  let '(t, expired) := stp_timer_expired (b_hello_timer b) elapsed (hello_time (b_times b)) in
  let b := set_hello t b in
  if expired then stp_hello_timer_expiry b else b.

Definition tick_tcn (elapsed : Z) (b : stp) : stp :=
  let '(t, expired) := stp_timer_expired (b_tcn_timer b) elapsed (hello_time (b_bridge_times b)) in
  let b := set_tcn t b in
  if expired then stp_tcn_timer_expiry b else b.

Definition tick_change (elapsed : Z) (b : stp) : stp :=
  let '(t, expired) := stp_timer_expired (b_topology_change_timer b) elapsed (i32 (max_age (b_times b) + forward_delay (b_times b))) in
  let b := set_change_timer t b in
  if expired then stp_topology_change_timer_expiry b else b.

Definition INT_MAX : Z := 2147483647.

(** Milliseconds to account for, with those left over. *)
Definition tick_ms (ms : Z) (b : stp) : Z := i32 (clamp ms 0 (INT_MAX - 1000) + b_elapsed_remainder b).

Definition stp_tick (ms : Z) (b : stp) : stp :=
  let ms := tick_ms ms b in
  let elapsed := ms_to_timer ms in
  let b := set_remainder (ms_to_timer_remainder ms) b in
  if elapsed =? 0 then b
  else
    let b := tick_hello elapsed b in
    let b := tick_tcn elapsed b in
    let b := tick_change elapsed b in
    let b := for_each (tick_age elapsed) b in
    for_each (tick_port elapsed) b.

(** * Management *)

Definition stp_update_bridge_timers (b : stp) : stp :=
  let rq := b_rq_times b in
  let ht := clamp (hello_time rq) 1000 10000 in
  let ma := clamp (max_age rq) (Z.max (2 * (ht + 1000)) 6000) 40000 in
  let fd := clamp (forward_delay rq) (Z.quot ma 2 + 1000) 30000 in
  let b := set_own_times rq (Times (ms_to_timer ma) (ms_to_timer ht) (ms_to_timer fd)) b in
  if stp_is_root_bridge b then root_times b else b.

Definition stp_initialize_port (i : nat) (state : stp_state) (b : stp) : stp :=
  let b := stp_become_designated_port i b in
  let b := stp_set_port_state i state b in
  upd i (λ p, set_timers (stp_stop_timer (p_message_age_timer p)) (stp_stop_timer (p_forward_delay_timer p)) (stp_stop_timer (p_hold_timer p))
                (set_detect true (set_duties false false p))) b.

Definition stp_create (bridge_id : Z) : stp :=
  let bridge_id := if Z.shiftr bridge_id 48 =? 0 then Z.lor bridge_id (Z.shiftl STP_DEFAULT_BRIDGE_PRIORITY 48) else bridge_id in
  let zero := Times 0 0 0 in
  let b := Stp bridge_id zero zero (Times 6000 2000 4000) 0 0 0 None false false no_timer no_timer no_timer
             (replicate STP_MAX_PORTS blank_port) 0 [] in
  let b := stp_update_bridge_timers b in
  let b := root_times b in
  let b := set_root bridge_id 0 None b in
  let b := set_change false false b in
  let b := set_bridge_timers (stp_start_timer 0) (stp_stop_timer (b_tcn_timer b)) (stp_stop_timer (b_topology_change_timer b)) b in
  let b := set_ports (b_ports b) STP_MAX_PORTS b in
  foldl (λ b i,
    let b := upd i (λ p, set_path_cost 19 (set_port_id (Z.lor (Z.of_nat i + 1) (Z.shiftl STP_DEFAULT_PORT_PRIORITY 8)) p)) b in
    stp_initialize_port i STP_DISABLED b) b (seq 0 STP_MAX_PORTS).

(** The turn of [set_bridge_id]'s loop for a port. *)
Definition rename_designated (new_bridge_id : Z) (i : nat) (b : stp) : stp :=
  if stp_is_designated_port b i
  then upd i (λ p, set_info (Info (i_root (p_info p)) (i_cost (p_info p)) new_bridge_id (i_port (p_info p))) p) b
  else b.

(** The static [set_bridge_id]. *)
Definition set_bridge_id (new_bridge_id : Z) (b : stp) : stp :=
  if negb (new_bridge_id =? b_bridge_id b) then
    let root := stp_is_root_bridge b in
    let b := for_each (rename_designated new_bridge_id) b in
    reconfigure root (put_bridge_id new_bridge_id b)
  else b.

Definition mac_bits : Z := Z.shiftl 1 48 - 1.

Definition stp_set_bridge_id (bridge_id : Z) (b : stp) : stp :=
  set_bridge_id (Z.lor (Z.land (b_bridge_id b) (unot 64 mac_bits)) (Z.land bridge_id mac_bits)) b.

Definition stp_set_bridge_priority (new_priority : Z) (b : stp) : stp :=
  set_bridge_id (Z.lor (Z.land (b_bridge_id b) mac_bits) (Z.shiftl new_priority 48)) b.

Definition stp_set_hello_time (ms : Z) (b : stp) : stp :=
  stp_update_bridge_timers (set_own_times (Times (max_age (b_rq_times b)) ms (forward_delay (b_rq_times b))) (b_bridge_times b) b).
Definition stp_set_max_age (ms : Z) (b : stp) : stp :=
  stp_update_bridge_timers (set_own_times (Times ms (hello_time (b_rq_times b)) (forward_delay (b_rq_times b))) (b_bridge_times b) b).
Definition stp_set_forward_delay (ms : Z) (b : stp) : stp :=
  stp_update_bridge_timers (set_own_times (Times (max_age (b_rq_times b)) (hello_time (b_rq_times b)) ms) (b_bridge_times b) b).

Definition stp_get_hello_time (b : stp) : Z := timer_to_ms (hello_time (b_bridge_times b)).
Definition stp_get_max_age (b : stp) : Z := timer_to_ms (max_age (b_bridge_times b)).
Definition stp_get_forward_delay (b : stp) : Z := timer_to_ms (forward_delay (b_bridge_times b)).

(** The loop from [first_changed_port] on. *)
Definition stp_get_changed_port (b : stp) : stp * option nat :=
  match list_find (λ p, p_state_changed p = true) (drop (b_first_changed_port b) (b_ports b)) with
  | Some (k, _) =>
    let i := (b_first_changed_port b + k)%nat in
    let b := upd i (λ p, set_state (p_state p) false p) b in
    (set_ports (b_ports b) (S i) b, Some i)
  | None => (set_ports (b_ports b) STP_MAX_PORTS b, None)
  end.

Definition stp_port_disable (i : nat) (b : stp) : stp :=
  if enabled (port b i) then
    let root := stp_is_root_bridge b in
    let b := stp_become_designated_port i b in
    let b := stp_set_port_state i STP_DISABLED b in
    let b := upd i (λ p, set_message_age (stp_stop_timer (p_message_age_timer p))
                           (set_forward_delay (stp_stop_timer (p_forward_delay_timer p)) (set_duties false false p))) b in
    reconfigure root b
  else b.

Definition stp_port_enable (i : nat) (b : stp) : stp :=
  if enabled (port b i) then b else stp_port_state_selection (stp_initialize_port i STP_BLOCKING b).

Definition stp_port_set_priority (i : nat) (new_priority : Z) (b : stp) : stp :=
  let new_port_id := u16 (Z.lor (Z.land (p_port_id (port b i)) 0xff) (Z.shiftl new_priority 8)) in
  if negb (p_port_id (port b i) =? new_port_id) then
    let b := if stp_is_designated_port b i
             then upd i (λ p, set_info (Info (i_root (p_info p)) (i_cost (p_info p)) (i_bridge (p_info p)) new_port_id) p) b
             else b in
    let b := upd i (set_port_id new_port_id) b in
    if (b_bridge_id b =? i_bridge (p_info (port b i))) && (p_port_id (port b i) <? i_port (p_info (port b i))) then
      stp_port_state_selection (stp_become_designated_port i b)
    else b
  else b.

Definition stp_port_set_path_cost (i : nat) (path_cost : Z) (b : stp) : stp :=
  if negb (p_path_cost (port b i) =? path_cost) then
    let b := upd i (set_path_cost path_cost) b in
    stp_port_state_selection (stp_configuration_update b)
  else b.

Definition speed_cost (speed : Z) : Z :=
  if 10000 <=? speed then 2 else if 1000 <=? speed then 4 else if 100 <=? speed then 19 else if 16 <=? speed then 62
  else if 10 <=? speed then 100 else if 4 <=? speed then 250 else 19.
Definition stp_port_set_speed (i : nat) (speed : Z) (b : stp) : stp := stp_port_set_path_cost i (speed_cost speed) b.

Definition stp_port_enable_change_detection (i : nat) (b : stp) : stp := upd i (set_detect true) b.
Definition stp_port_disable_change_detection (i : nat) (b : stp) : stp := upd i (set_detect false) b.

(** The calls of the interface that change a bridge; [OpChanged] is [stp_get_changed_port]. *)
Inductive stp_op :=
| OpTick (ms : Z)
| OpBpdu (i : nat) (bpdu : list Z)
| OpBridgeId (id : Z)
| OpPriority (priority : Z)
| OpHelloTime (ms : Z)
| OpMaxAge (ms : Z)
| OpForwardDelay (ms : Z)
| OpChanged
| OpEnable (i : nat)
| OpDisable (i : nat)
| OpPortPriority (i : nat) (priority : Z)
| OpPathCost (i : nat) (cost : Z)
| OpSpeed (i : nat) (speed : Z)
| OpDetect (i : nat) (on : bool).

Definition stp_step (o : stp_op) (b : stp) : stp :=
  match o with
  | OpTick ms => stp_tick ms b
  | OpBpdu i bpdu => stp_received_bpdu i bpdu b
  | OpBridgeId id => stp_set_bridge_id id b
  | OpPriority priority => stp_set_bridge_priority priority b
  | OpHelloTime ms => stp_set_hello_time ms b
  | OpMaxAge ms => stp_set_max_age ms b
  | OpForwardDelay ms => stp_set_forward_delay ms b
  | OpChanged => (stp_get_changed_port b).1
  | OpEnable i => stp_port_enable i b
  | OpDisable i => stp_port_disable i b
  | OpPortPriority i priority => stp_port_set_priority i priority b
  | OpPathCost i cost => stp_port_set_path_cost i cost b
  | OpSpeed i speed => stp_port_set_speed i speed b
  | OpDetect i on => if on then stp_port_enable_change_detection i b else stp_port_disable_change_detection i b
  end.

Definition stp_run (ops : list stp_op) (b : stp) : stp := foldl (λ b o, stp_step o b) b ops.
