(* ===== verification/StpInvariant.v ===== *)
(** The invariant of the spanning tree protocol: whatever is called, whatever arrives, however
    time passes, a port that takes part is the root port or designated, what a port heard of
    others is aged, timers and states agree, no change of a port's state is missed; and no port
    forwards that has not been learning. *)

From S2P Require Import Prelude Wire Stp.

(** * Ports and loops *)

Lemma port_upd i f b j :
  port (upd i f b) j = if decide (i = j ∧ (j < length (b_ports b))%nat) then f (port b j) else port b j.
Proof.
  unfold port, upd, set_ports; cbn [b_ports]. destruct (decide _) as [[-> Hj]|Hn].
  - rewrite list_lookup_alter_eq. destruct (lookup_lt_is_Some_2 _ _ Hj) as [p ->]. done.
  - destruct (decide (i = j)) as [->|]; [|by rewrite list_lookup_alter_ne].
    rewrite list_lookup_alter_eq. destruct (b_ports b !! j) eqn:E; [|done]. apply lookup_lt_Some in E. naive_solver.
Qed.

Lemma port_upd_ne i f b j : i ≠ j → port (upd i f b) j = port b j.
Proof. intros. rewrite port_upd, decide_False by naive_solver. done. Qed.

Lemma port_upd_eq i f b : (i < length (b_ports b))%nat → port (upd i f b) i = f (port b i).
Proof. intros. by rewrite port_upd, decide_True by done. Qed.

Lemma upd_length i f b : length (b_ports (upd i f b)) = length (b_ports b).
Proof. apply length_alter. Qed.

(** What each turn keeps, the loop keeps. *)
Lemma for_each_ind (P : stp → Prop) f b :
  (∀ i b, (i < STP_MAX_PORTS)%nat → enabled (port b i) = true → P b → P (f i b)) → P b → P (for_each f b).
Proof.
  intros Hf. unfold for_each. assert (Hs : Forall (λ i, (i < STP_MAX_PORTS)%nat) (seq 0 STP_MAX_PORTS)).
  { apply list.Forall_forall. intros i Hi%elem_of_seq. lia. }
  revert b. induction Hs as [|i l Hi _ IH]; intros b Hb; [done|]. cbn [foldl]. apply IH.
  destruct (enabled (port b i)) eqn:E; [by apply Hf|done].
Qed.

Lemma for_each_rel (R : relation stp) `{!PreOrder R} f b :
  (∀ i b, (i < STP_MAX_PORTS)%nat → enabled (port b i) = true → R b (f i b)) → R b (for_each f b).
Proof. intros Hf. apply for_each_ind; [|done]. intros i b' Hi He Hb. etrans; [exact Hb|by apply Hf]. Qed.

(** What the turn of a port establishes and the others keep holds for every port at the end. *)
Lemma for_each_all (P : stp → Prop) (Q : stp → nat → Prop) f b :
  (∀ i b, (i < STP_MAX_PORTS)%nat → P b → enabled (port b i) = true →
     P (f i b) ∧ Q (f i b) i ∧ ∀ j, j ≠ i → Q b j → Q (f i b) j) →
  (∀ i b, P b → enabled (port b i) = false → Q b i) → P b →
  P (for_each f b) ∧ ∀ i, (i < STP_MAX_PORTS)%nat → Q (for_each f b) i.
Proof.
  intros Hf Hd Hb. unfold for_each. set (g := λ b i, if enabled (port b i) then f i b else b).
  assert (∀ n k b, (k + n = STP_MAX_PORTS)%nat → P b → (∀ i, (i < k)%nat → Q b i) →
    P (foldl g b (seq k n)) ∧ ∀ i, (i < STP_MAX_PORTS)%nat → Q (foldl g b (seq k n)) i) as Hl; [|by apply (Hl _ 0%nat); [done..|lia]].
  induction n as [|n IH]; intros k b' Hk HP HQ; [split; [done|]; intros i Hi; apply HQ; lia|].
  cbn [seq foldl]. apply IH; [lia| |].
  - unfold g. destruct (enabled (port b' k)) eqn:E; [|done]. apply Hf; [lia|done|done].
  - intros i Hi. unfold g. destruct (enabled (port b' k)) eqn:E.
    + destruct (Hf k b') as (_ & Hq & Hne); [lia|done|done|]. destruct (decide (i = k)) as [->|]; [done|]. apply Hne; [done|]. apply HQ; lia.
    + destruct (decide (i = k)) as [->|]; [by apply Hd|]. apply HQ; lia.
Qed.

(** A port has one turn: [A] before it, [B] after it. *)
Lemma for_each_once i (A B : stp → Prop) f b :
  (∀ j b, (j < STP_MAX_PORTS)%nat → j ≠ i → A b → A (f j b)) → (∀ b, A b → B (f i b)) → (∀ b, A b → B b) →
  (∀ j b, (j < STP_MAX_PORTS)%nat → j ≠ i → B b → B (f j b)) → A b → B (for_each f b).
Proof.
  intros HA Hi Hs HB Hb. unfold for_each. set (g := λ b i, if enabled (port b i) then f i b else b).
  assert (Hl : ∀ n k b, (k + n = STP_MAX_PORTS)%nat → (k <= i)%nat ∧ A b ∨ (i < k)%nat ∧ B b → B (foldl g b (seq k n))).
  2: { apply (Hl _ 0%nat); [done|]. left. split; [lia|done]. }
  induction n as [|n IH]; intros k b' Hk Hb'; [destruct Hb' as [[_ ?]|[_ ?]]; [by apply Hs|done]|].
  cbn [seq foldl]. apply IH; [lia|]. unfold g. destruct Hb' as [[Hle HA']|[Hlt HB']].
  - destruct (decide (k = i)) as [->|Hne]; [right; split; [lia|]; destruct (enabled _); auto|].
    left. split; [lia|]. destruct (enabled _); [apply HA; [lia|done|done]|done].
  - right. split; [lia|]. destruct (enabled _); [apply HB; [lia|lia|done]|done].
Qed.

(** * What does not matter here *)

(** The members of a port that the invariant is about. *)
Definition core (p : stp_port) : Z * stp_state * Z * info * bool * bool * bool :=
  (p_port_id p, p_state p, p_path_cost p, p_info p, t_active (p_message_age_timer p), t_active (p_forward_delay_timer p), p_state_changed p).

(** A step that leaves them. *)
Record quiet (b b' : stp) : Prop := {
  q_id : b_bridge_id b' = b_bridge_id b;
  q_root : b_designated_root b' = b_designated_root b;
  q_cost : b_root_path_cost b' = b_root_path_cost b;
  q_root_port : b_root_port b' = b_root_port b;
  q_first : b_first_changed_port b' = b_first_changed_port b;
  q_length : length (b_ports b') = length (b_ports b);
  q_core i : core (port b' i) = core (port b i) }.

#[export] Instance quiet_preorder : PreOrder quiet.
Proof. split; [by split|]. intros a b c [] []. split; intros; by etrans; eauto. Qed.

Lemma quiet_upd i f b : core (f (port b i)) = core (port b i) → quiet b (upd i f b).
Proof. intros Hf. split; try done; [apply upd_length|]. intros j. rewrite port_upd. by destruct (decide _) as [[<- _]|]. Qed.

(** Assignments to the members of the bridge. *)
Lemma quiet_set_hello t b : quiet b (set_hello t b).
Proof. by split. Qed.
Lemma quiet_set_tcn t b : quiet b (set_tcn t b).
Proof. by split. Qed.
Lemma quiet_set_change_timer t b : quiet b (set_change_timer t b).
Proof. by split. Qed.
Lemma quiet_set_change detected change b : quiet b (set_change detected change b).
Proof. by split. Qed.
Lemma quiet_set_times t b : quiet b (set_times t b).
Proof. by split. Qed.
Lemma quiet_set_own rq own b : quiet b (set_own_times rq own b).
Proof. by split. Qed.
Lemma quiet_set_remainder x b : quiet b (set_remainder x b).
Proof. by split. Qed.
Create HintDb stp.
#[export] Hint Resolve quiet_set_hello quiet_set_tcn quiet_set_change_timer quiet_set_change quiet_set_times quiet_set_own quiet_set_remainder : stp.

Lemma quiet_transmit_config i b : quiet b (stp_transmit_config i b).
Proof.
  unfold stp_transmit_config. destruct (_ && _); [done|]. destruct (t_active _); [by apply quiet_upd|]. destruct (_ <? _); [|done].
  etrans; [by apply (quiet_upd i (set_duties false false))|]. etrans; [|by apply quiet_upd]. by split.
Qed.

Lemma quiet_generation b : quiet b (stp_config_bpdu_generation b).
Proof. apply (for_each_rel quiet). intros i b' _ _. destruct (stp_is_designated_port _ _); [apply quiet_transmit_config|done]. Qed.

Lemma quiet_tcn b : quiet b (stp_transmit_tcn b).
Proof. unfold stp_transmit_tcn. destruct (b_root_port b) eqn:E; by split. Qed.

Lemma quiet_detection b : quiet b (stp_topology_change_detection b).
Proof.
  unfold stp_topology_change_detection. etrans; [|apply quiet_set_change]. destruct (stp_is_root_bridge b); [|destruct (negb _)].
  - etrans; [|apply quiet_set_change_timer]. apply quiet_set_change.
  - etrans; [|apply quiet_set_tcn]. apply quiet_tcn.
  - done.
Qed.

Lemma quiet_become_root b : quiet b (stp_become_root_bridge b).
Proof.
  unfold stp_become_root_bridge. etrans; [|apply quiet_set_hello]. etrans; [|apply quiet_generation]. etrans; [|apply quiet_set_tcn].
  etrans; [|apply quiet_detection]. apply quiet_set_times.
Qed.

Lemma quiet_update_timers b : quiet b (stp_update_bridge_timers b).
Proof.
  unfold stp_update_bridge_timers. destruct (stp_is_root_bridge _); [|apply quiet_set_own]. etrans; [|apply quiet_set_times]. apply quiet_set_own.
Qed.

#[export] Hint Resolve quiet_transmit_config quiet_generation quiet_tcn quiet_detection quiet_become_root quiet_update_timers : stp.

(** * The invariant *)

Definition active (p : stp_port) : Prop := p_state p = STP_LISTENING ∨ p_state p = STP_LEARNING ∨ p_state p = STP_FORWARDING.
Definition waiting (p : stp_port) : Prop := p_state p = STP_LISTENING ∨ p_state p = STP_LEARNING.
#[export] Instance waiting_dec p : Decision (waiting p).
Proof. unfold waiting. apply _. Defined.

(** The port has its number, is in a state, counts its forward delay while it listens or
    learns, and is not missed by [stp_get_changed_port]. *)
Record port_ok (first i : nat) (p : stp_port) : Prop := {
  po_id : p_port_id p mod 256 = Z.of_nat i + 1;
  po_fits : fits 16 (p_port_id p);
  po_state : p_state p ≠ STP_UNSET;
  po_delay : t_active (p_forward_delay_timer p) = true ↔ waiting p;
  po_changed : p_state_changed p = true → (first <= i)%nat }.

Definition designated (b : stp) (i : nat) : Prop := stp_is_designated_port b i = true.

(** What the port heard of another bridge is aged. *)
Definition aged (b : stp) (i : nat) : Prop :=
  enabled (port b i) = true → designated b i ∨ t_active (p_message_age_timer (port b i)) = true.

Record base_ok (b : stp) : Prop := {
  bo_length : length (b_ports b) = STP_MAX_PORTS;
  bo_ports i : (i < STP_MAX_PORTS)%nat → port_ok (b_first_changed_port b) i (port b i) }.

Definition all_aged (b : stp) : Prop := ∀ i, (i < STP_MAX_PORTS)%nat → aged b i.

(** There is a root port, with a better root, or the bridge is the root. *)
Definition root_ok (b : stp) : Prop :=
  match b_root_port b with
  | None => b_designated_root b = b_bridge_id b
  | Some r => (r < STP_MAX_PORTS)%nat ∧ enabled (port b r) = true ∧ b_designated_root b < b_bridge_id b
  end.

(** Only the root port and designated ports take part. *)
Definition roles_ok (b : stp) : Prop :=
  ∀ i, (i < STP_MAX_PORTS)%nat → active (port b i) → b_root_port b = Some i ∨ designated b i.

Record stp_ok (b : stp) : Prop := {
  ok_base : base_ok b;
  ok_aged : all_aged b;
  ok_root : root_ok b;
  ok_roles : roles_ok b }.

(** ** Quiet steps keep it *)

Lemma core_inv p q : core p = core q →
  p_port_id p = p_port_id q ∧ p_state p = p_state q ∧ p_path_cost p = p_path_cost q ∧ p_info p = p_info q ∧
  t_active (p_message_age_timer p) = t_active (p_message_age_timer q) ∧ t_active (p_forward_delay_timer p) = t_active (p_forward_delay_timer q) ∧
  p_state_changed p = p_state_changed q.
Proof. unfold core. by intros [=]. Qed.

Lemma port_ok_core first i p q : core q = core p → port_ok first i p → port_ok first i q.
Proof.
  intros (E1 & E2 & _ & _ & _ & E3 & E4)%core_inv []. unfold waiting in *. split; unfold waiting; by rewrite ?E1, ?E2, ?E3, ?E4.
Qed.

Section quiet.
  Context (b b' : stp) (Hq : quiet b b').

Lemma quiet_base : base_ok b → base_ok b'.
Proof using Hq.
  intros [Hl Hp]. destruct Hq. split; [congruence|]. intros i Hi. rewrite q_first0. by eapply port_ok_core; [|apply Hp].
Qed.

Lemma quiet_state i : p_state (port b' i) = p_state (port b i).
Proof using Hq. by destruct (core_inv _ _ (q_core _ _ Hq i)) as (_ & ? & _). Qed.

Lemma quiet_enabled i : enabled (port b' i) = enabled (port b i).
Proof using Hq. unfold enabled. by rewrite quiet_state. Qed.

Lemma quiet_designated i : designated b' i ↔ designated b i.
Proof using Hq.
  destruct (core_inv _ _ (q_core _ _ Hq i)) as (E1 & _ & _ & E2 & _). unfold designated, stp_is_designated_port. by rewrite E1, E2, (q_id _ _ Hq).
Qed.

Lemma quiet_aged i : aged b i → aged b' i.
Proof using Hq.
  unfold aged. rewrite quiet_enabled. intros Ha He. destruct (core_inv _ _ (q_core _ _ Hq i)) as (_ & _ & _ & _ & E & _).
  destruct (Ha He); [left; by apply quiet_designated|right; by rewrite E].
Qed.

Lemma quiet_root : root_ok b → root_ok b'.
Proof using Hq. unfold root_ok. rewrite (q_root_port _ _ Hq), (q_root _ _ Hq), (q_id _ _ Hq). destruct (b_root_port b); [by rewrite quiet_enabled|done]. Qed.

Lemma quiet_roles : roles_ok b → roles_ok b'.
Proof using Hq.
  intros Hr i Hi Ha. rewrite (q_root_port _ _ Hq). destruct (Hr i Hi) as [?|?]; [|by left|right; by apply quiet_designated].
  unfold active in *. by rewrite <- quiet_state.
Qed.
End quiet.

Lemma quiet_ok b b' : quiet b b' → stp_ok b → stp_ok b'.
Proof.
  intros Hq []. split; [by eapply quiet_base|intros i Hi; by eapply quiet_aged; [|apply ok_aged0]|by eapply quiet_root|by eapply quiet_roles].
Qed.

(** * Calm steps *)

(** Nothing becomes learning or forwarding. *)
Definition live (p : stp_port) : Prop := p_state p = STP_LEARNING ∨ p_state p = STP_FORWARDING.
Definition calm (b b' : stp) : Prop := ∀ i, live (port b' i) → p_state (port b' i) = p_state (port b i).

#[export] Instance calm_preorder : PreOrder calm.
Proof.
  split; [by intros ? ?|]. intros a b c Hab Hbc i Hl. rewrite (Hbc i Hl). apply Hab. unfold live in *. by rewrite <- (Hbc i Hl).
Qed.

Lemma quiet_calm b b' : quiet b b' → calm b b'.
Proof. intros Hq i _. by apply quiet_state. Qed.

Lemma calm_upd i f b : (live (f (port b i)) → p_state (f (port b i)) = p_state (port b i)) → calm b (upd i f b).
Proof. intros Hf j. rewrite port_upd. by destruct (decide _) as [[<- _]|]. Qed.

(** * Changes of states *)

(** The roles of the ports, and which are enabled, are the same. *)
Record same_roles (b b' : stp) : Prop := {
  sr_id : b_bridge_id b' = b_bridge_id b;
  sr_root : b_designated_root b' = b_designated_root b;
  sr_cost : b_root_path_cost b' = b_root_path_cost b;
  sr_root_port : b_root_port b' = b_root_port b;
  sr_info i : p_info (port b' i) = p_info (port b i);
  sr_port_id i : p_port_id (port b' i) = p_port_id (port b i);
  sr_path_cost i : p_path_cost (port b' i) = p_path_cost (port b i);
  sr_enabled i : enabled (port b' i) = enabled (port b i) }.

#[export] Instance same_roles_preorder : PreOrder same_roles.
Proof. split; [by split|]. intros a b c [] []. split; intros; by etrans; eauto. Qed.

Lemma quiet_same b b' : quiet b b' → same_roles b b'.
Proof.
  intros Hq. pose proof Hq as []. split; try done; intros i; try (by apply quiet_enabled); by destruct (core_inv _ _ (q_core0 i)) as (? & _ & ? & ? & _).
Qed.

Lemma same_designated b b' i : same_roles b b' → designated b' i ↔ designated b i.
Proof. intros []. unfold designated, stp_is_designated_port. by rewrite sr_id0, sr_info0, sr_port_id0. Qed.

Lemma same_root b b' : same_roles b b' → root_ok b → root_ok b'.
Proof. intros []. unfold root_ok. rewrite sr_root_port0, sr_root0, sr_id0. destruct (b_root_port b); [by rewrite sr_enabled0|done]. Qed.

Lemma same_upd i f b :
  p_info (f (port b i)) = p_info (port b i) → p_port_id (f (port b i)) = p_port_id (port b i) → p_path_cost (f (port b i)) = p_path_cost (port b i) →
  enabled (f (port b i)) = enabled (port b i) → same_roles b (upd i f b).
Proof. intros H1 H2 H3 H4. split; try done; intros j; rewrite port_upd; by destruct (decide _) as [[<- _]|]. Qed.

(** Whether the port counts as changed after the step to a state. *)
Definition changed (i : nat) (s : stp_state) (b : stp) : bool :=
  (bool_decide (s ≠ p_state (port b i)) && negb (p_state_changed (port b i))) || p_state_changed (port b i).

Lemma state_length i s b : length (b_ports (stp_set_port_state i s b)) = length (b_ports b).
Proof. unfold stp_set_port_state. by rewrite upd_length. Qed.

Lemma state_port i s b j :
  port (stp_set_port_state i s b) j = if decide (i = j ∧ (j < length (b_ports b))%nat) then set_state s (changed i s b) (port b j) else port b j.
Proof. unfold stp_set_port_state. rewrite port_upd. done. Qed.

Lemma state_upd_port i s g b j :
  port (upd i g (stp_set_port_state i s b)) j =
  if decide (i = j ∧ (j < length (b_ports b))%nat) then g (set_state s (changed i s b) (port b j)) else port b j.
Proof. rewrite port_upd, state_length, state_port. by destruct (decide _). Qed.

Lemma state_first i s b :
  (b_first_changed_port (stp_set_port_state i s b) <= b_first_changed_port b)%nat ∧
  (changed i s b = true → p_state_changed (port b i) = true ∨ (b_first_changed_port (stp_set_port_state i s b) <= i)%nat).
Proof. unfold stp_set_port_state, changed; cbn [b_first_changed_port upd set_ports]. destruct (_ && _); cbn; split; intros; lia || auto. Qed.

(** A new state, and what goes with it. *)
Lemma base_state i s g b :
  (i < STP_MAX_PORTS)%nat → s ≠ STP_UNSET →
  (∀ p, p_port_id (g p) = p_port_id p ∧ p_state (g p) = p_state p ∧ p_state_changed (g p) = p_state_changed p) →
  (t_active (p_forward_delay_timer (g (port (stp_set_port_state i s b) i))) = true ↔ s = STP_LISTENING ∨ s = STP_LEARNING) →
  base_ok b → base_ok (upd i g (stp_set_port_state i s b)).
Proof.
  intros Hi Hs Hg Ht [Hl Hp]. split; [by rewrite upd_length, state_length|]. destruct (state_first i s b) as [Hf Hc].
  intros j Hj. rewrite state_upd_port. change (b_first_changed_port (upd i g _)) with (b_first_changed_port (stp_set_port_state i s b)).
  destruct (Hp j Hj) as [H1 H2 H3 H4 H5]. destruct (decide _) as [[<- _]|Hn]; [|split; try done; intros; etrans; [exact Hf|auto]].
  rewrite state_port, decide_True in Ht by (split; [done|lia]). destruct (Hg (set_state s (changed i s b) (port b i))) as (G1 & G2 & G3).
  split; rewrite ?G1, ?G2; [done..| |].
  - unfold waiting. by rewrite G2, Ht.
  - rewrite G3. intros [?|?]%Hc; [|done]. etrans; [exact Hf|auto].
Qed.

Lemma same_state i s g b :
  (∀ p, p_info (g p) = p_info p ∧ p_port_id (g p) = p_port_id p ∧ p_path_cost (g p) = p_path_cost p ∧ p_state (g p) = p_state p) →
  bool_decide (s ≠ STP_DISABLED) = enabled (port b i) → same_roles b (upd i g (stp_set_port_state i s b)).
Proof.
  intros Hg He. split; try done; intros j; rewrite state_upd_port; (destruct (decide _) as [[<- _]|]; [|done]);
    destruct (Hg (set_state s (changed i s b) (port b i))) as (E1 & E2 & E3 & E4); [done..|]. unfold enabled at 1. by rewrite E4.
Qed.

(** Base and ages. *)
Definition safe (b : stp) : Prop := base_ok b ∧ all_aged b.

Lemma quiet_is_safe b b' : quiet b b' → safe b → safe b'.
Proof. intros Hq [? Ha]. split; [by eapply quiet_base|]. intros i Hi. by eapply quiet_aged; [|apply Ha]. Qed.

(** A step that changes states only, and right. *)
Record moves (b b' : stp) : Prop := {
  mv_same : same_roles b b';
  mv_safe : safe b → safe b';
  mv_calm : calm b b' }.

#[export] Instance moves_preorder : PreOrder moves.
Proof. split; [by split|]. intros a b c [] []. split; [by etrans|auto|by etrans]. Qed.

Lemma quiet_moves b b' : quiet b b' → moves b b'.
Proof. intros Hq. split; [by apply quiet_same|by apply quiet_is_safe|by apply quiet_calm]. Qed.

Lemma same_aged b b' : same_roles b b' →
  (∀ i, t_active (p_message_age_timer (port b' i)) = t_active (p_message_age_timer (port b i))) → all_aged b → all_aged b'.
Proof.
  intros Hs Ht Ha i Hi He. rewrite (sr_enabled _ _ Hs) in He. destruct (Ha i Hi He) as [?|?]; [left; by apply (same_designated b b')|right; by rewrite Ht].
Qed.

(** The step to a state, and the start or stop of the delay. *)
Lemma moves_state i s g b :
  (i < STP_MAX_PORTS)%nat → s ≠ STP_UNSET → ¬ (s = STP_LEARNING ∨ s = STP_FORWARDING) → bool_decide (s ≠ STP_DISABLED) = enabled (port b i) →
  (∀ p, core (set_forward_delay no_timer (g p)) = core (set_forward_delay no_timer p)) →
  (t_active (p_forward_delay_timer (g (port (stp_set_port_state i s b) i))) = true ↔ s = STP_LISTENING ∨ s = STP_LEARNING) →
  moves b (upd i g (stp_set_port_state i s b)).
Proof.
  intros Hi Hu Hl He Hg Ht. assert (Hg' : ∀ p, p_info (g p) = p_info p ∧ p_port_id (g p) = p_port_id p ∧ p_path_cost (g p) = p_path_cost p ∧
    p_state (g p) = p_state p ∧ p_state_changed (g p) = p_state_changed p ∧ t_active (p_message_age_timer (g p)) = t_active (p_message_age_timer p)).
  { intros p. by destruct (core_inv _ _ (Hg p)) as (? & ? & ? & ? & ? & _ & ?). }
  assert (Hs : same_roles b (upd i g (stp_set_port_state i s b))) by (apply same_state; [|done]; intros p; by destruct (Hg' p) as (? & ? & ? & ? & _)).
  split; [done| |].
  - intros [Hb Ha]. split.
    + apply base_state; try done. intros p. by destruct (Hg' p) as (? & ? & ? & ? & ? & _).
    + eapply same_aged; [exact Hs| |exact Ha]. intros j. rewrite state_upd_port. destruct (decide _) as [[<- _]|]; [|done].
      by destruct (Hg' (set_state s (changed i s b) (port b i))) as (_ & _ & _ & _ & _ & ->).
  - intros j. rewrite state_upd_port. destruct (decide _) as [[<- _]|]; [|done].
    unfold live. destruct (Hg' (set_state s (changed i s b) (port b i))) as (_ & _ & _ & -> & _). by cbn.
Qed.

(** ** [stp_make_forwarding], [stp_make_blocking] *)

Lemma moves_forwarding i b : (i < STP_MAX_PORTS)%nat → moves b (stp_make_forwarding i b).
Proof.
  intros Hi. unfold stp_make_forwarding. case_bool_decide as E; [|done]. apply moves_state; try done.
  - naive_solver.
  - unfold enabled. by rewrite E.
  - split; [by left|done].
Qed.

Lemma quiet_detected (c d : bool) b : quiet b (if c then if d then stp_topology_change_detection b else b else b).
Proof. destruct c, d; [apply quiet_detection|reflexivity..]. Qed.

Lemma moves_blocking i b : (i < STP_MAX_PORTS)%nat → enabled (port b i) = true → moves b (stp_make_blocking i b).
Proof.
  intros Hi He. unfold stp_make_blocking. destruct (negb _) eqn:En; [|done].
  set (b1 := if truthy _ then _ else b). assert (Hq : quiet b b1) by apply quiet_detected.
  etrans; [by apply quiet_moves|]. clearbody b1. apply moves_state; try done.
  - naive_solver.
  - by rewrite (quiet_enabled _ _ Hq).
  - split; [done|naive_solver].
Qed.

Lemma blocking_state i b : (i < length (b_ports b))%nat → ¬ active (port (stp_make_blocking i b) i).
Proof.
  intros Hi. unfold stp_make_blocking. destruct (negb _) eqn:En.
  - set (b1 := if truthy _ then _ else b). assert (Hq : quiet b b1) by apply quiet_detected.
    clearbody b1. unfold active. rewrite state_upd_port, decide_True by (split; [done|by rewrite (q_length _ _ Hq)]). cbn. naive_solver.
  - destruct (p_state (port b i)) eqn:E; cbn in En; try discriminate En; unfold active; rewrite E; naive_solver.
Qed.

Lemma forwarding_ne i b j : i ≠ j → p_state (port (stp_make_forwarding i b) j) = p_state (port b j).
Proof. intros. unfold stp_make_forwarding. case_bool_decide; [|done]. rewrite state_upd_port, decide_False by naive_solver. done. Qed.

Lemma blocking_ne i b j : i ≠ j → p_state (port (stp_make_blocking i b) j) = p_state (port b j).
Proof.
  intros. unfold stp_make_blocking. destruct (negb _); [|done]. rewrite state_upd_port, decide_False by naive_solver.
  apply quiet_state, quiet_detected.
Qed.

(** ** [stp_port_state_selection] *)

Definition select_state (i : nat) (b : stp) : stp :=
  if bool_decide (b_root_port b = Some i) then stp_make_forwarding i (upd i (set_duties false false) b)
  else if stp_is_designated_port b i then
    stp_make_forwarding i (upd i (λ p, set_message_age (stp_stop_timer (p_message_age_timer p)) p) b)
  else stp_make_blocking i (upd i (set_duties false false) b).

Lemma moves_duties i b : moves b (upd i (set_duties false false) b).
Proof. by apply quiet_moves, quiet_upd. Qed.

Lemma moves_stop_age i b : designated b i → moves b (upd i (λ p, set_message_age (stp_stop_timer (p_message_age_timer p)) p) b).
Proof.
  intros Hd. assert (Hs : same_roles b (upd i (λ p, set_message_age (stp_stop_timer (p_message_age_timer p)) p) b)) by (by apply same_upd).
  split; [done| |].
  - intros [[Hl Hp] Ha]. split; [split; [by rewrite upd_length|]|].
    + intros j Hj. rewrite port_upd. destruct (decide _) as [[<- _]|]; [|by apply Hp]. destruct (Hp i Hj). by split.
    + intros j Hj He. destruct (decide (i = j)) as [<-|]; [left; by apply (same_designated _ _ _ Hs)|].
      rewrite port_upd_ne in * by done. destruct (Ha j Hj He); [left; by apply (same_designated _ _ _ Hs)|by right].
  - by apply calm_upd.
Qed.

Lemma moves_select i b : (i < STP_MAX_PORTS)%nat → enabled (port b i) = true → moves b (select_state i b).
Proof.
  intros Hi He. unfold select_state. case_bool_decide; [|destruct (stp_is_designated_port b i) eqn:Ed].
  - etrans; [apply moves_duties|by apply moves_forwarding].
  - etrans; [by apply moves_stop_age|by apply moves_forwarding].
  - etrans; [apply moves_duties|]. apply moves_blocking; [done|]. by rewrite (sr_enabled _ _ (mv_same _ _ (moves_duties i b))).
Qed.

Lemma select_ne i b j : i ≠ j → p_state (port (select_state i b) j) = p_state (port b j).
Proof.
  intros. unfold select_state. case_bool_decide; [|destruct (stp_is_designated_port b i)].
  1-2: rewrite forwarding_ne by done; by rewrite port_upd_ne.
  rewrite blocking_ne by done. by rewrite port_upd_ne.
Qed.

Lemma select_role i b :
  safe b → (i < STP_MAX_PORTS)%nat → active (port (select_state i b) i) → b_root_port b = Some i ∨ designated b i.
Proof.
  intros [[Hl Hp] _] Hi. unfold select_state. case_bool_decide; [by left|]. destruct (stp_is_designated_port b i) eqn:Ed; [by right|].
  intros Ha. destruct (blocking_state i (upd i (set_duties false false) b)); [by rewrite upd_length, Hl|done].
Qed.

Lemma selection_moves b : moves b (stp_port_state_selection b).
Proof. apply (for_each_rel moves). intros i b' Hi He. by apply moves_select. Qed.

Lemma selection_roles b : safe b → roles_ok (stp_port_state_selection b).
Proof.
  intros Hb. destruct (for_each_all (λ b', safe b' ∧ moves b b')
    (λ b' i, active (port b' i) → b_root_port b' = Some i ∨ designated b' i) select_state b) as [_ Hr]; [| |by split|by intros i Hi; apply Hr].
  - intros i b' Hi [Hs Hm] He. pose proof (moves_select i b' Hi He) as Hm'. pose proof (mv_same _ _ Hm') as Hsr.
    split_and!; [by apply (mv_safe _ _ Hm')|by etrans| |].
    + intros Ha%select_role; [|done..]. rewrite (sr_root_port _ _ Hsr), (same_designated _ _ _ Hsr). done.
    + intros j Hj Hq. unfold active in *. rewrite select_ne, (sr_root_port _ _ Hsr), (same_designated _ _ _ Hsr) by done. done.
  - intros i b' _ He. unfold active, enabled in *. apply bool_decide_eq_false in He. destruct (p_state (port b' i)); naive_solver.
Qed.

(** ** [stp_configuration_update] *)

Lemma root_selection_spec b :
  let b' := stp_root_selection b in
  (∃ root cost rp, b' = set_root root cost rp b) ∧ root_ok b'.
Proof.
  cbn. unfold stp_root_selection, root_ok. set (l := seq 0 STP_MAX_PORTS).
  assert (Hl : ∀ l r, (∀ i, i ∈ l → (i < STP_MAX_PORTS)%nat) →
    (∀ i, r = Some i → (i < STP_MAX_PORTS)%nat ∧ enabled (port b i) = true ∧ i_root (p_info (port b i)) < b_bridge_id b) →
    ∀ i, foldl (select_root b) r l = Some i → (i < STP_MAX_PORTS)%nat ∧ enabled (port b i) = true ∧ i_root (p_info (port b i)) < b_bridge_id b).
  { clear l. induction l as [|j l IH]; intros r Hin Hr i; [apply Hr|]. cbn [foldl]. apply IH; [set_solver|]. intros k. unfold select_root.
    destruct (enabled (port b j)) eqn:He; [|by apply Hr]. cbn [negb]. destruct (_ || _) eqn:Ec; [by apply Hr|]. apply orb_false_iff in Ec as [_ Hlt%Z.leb_gt].
    assert (Hj : (j < STP_MAX_PORTS)%nat) by (apply Hin; set_solver).
    destruct r as [r|]; [destruct (negb _); [by apply Hr|]|]; intros [= <-]; done. }
  destruct (foldl (select_root b) None l) as [r|] eqn:E.
  - destruct (Hl l None) with (i := r) as (H1 & H2 & H3); [intros i Hi%elem_of_seq; lia|done|done|]. split; [by eexists _, _, _|]. done.
  - split; [by eexists _, _, _|done].
Qed.

Lemma designate_port i b j : port (stp_become_designated_port i b) j =
  if decide (i = j ∧ (j < length (b_ports b))%nat)
  then set_info (Info (b_designated_root b) (i32 (b_root_path_cost b)) (b_bridge_id b) (p_port_id (port b j))) (port b j) else port b j.
Proof. unfold stp_become_designated_port. by rewrite port_upd. Qed.

(** The port is designated now; the others are as they were. *)
Lemma designate_self i b : (i < length (b_ports b))%nat → designated (stp_become_designated_port i b) i.
Proof. intros Hi. unfold designated, stp_is_designated_port. rewrite designate_port, decide_True by done. cbn. by rewrite !Z.eqb_refl. Qed.

Lemma designate_other i b j : i ≠ j → designated (stp_become_designated_port i b) j ↔ designated b j.
Proof. intros. unfold designated, stp_is_designated_port. rewrite designate_port, decide_False by naive_solver. done. Qed.

Lemma designate_base i b : base_ok b → base_ok (stp_become_designated_port i b).
Proof.
  intros [Hl Hp]. split; [unfold stp_become_designated_port; by rewrite upd_length|]. intros j Hj. rewrite designate_port.
  destruct (decide _); [|by apply Hp]. destruct (Hp j Hj). by split.
Qed.

Lemma designate_safe i b : base_ok b → (∀ j, (j < STP_MAX_PORTS)%nat → i ≠ j → aged b j) → safe (stp_become_designated_port i b).
Proof.
  intros Hb Ha. split; [by apply designate_base|]. intros j Hj He. destruct (decide (i = j)) as [<-|].
  - left. apply designate_self. by rewrite (bo_length _ Hb).
  - rewrite designate_port, decide_False in * by naive_solver. destruct (Ha j); [done..|left; by apply designate_other|by right].
Qed.

Lemma designate_calm i b : calm b (stp_become_designated_port i b).
Proof. by apply calm_upd. Qed.

Lemma designate_root i b : root_ok b → root_ok (stp_become_designated_port i b).
Proof.
  unfold root_ok. change (b_root_port (stp_become_designated_port i b)) with (b_root_port b).
  change (b_designated_root (stp_become_designated_port i b)) with (b_designated_root b). change (b_bridge_id (stp_become_designated_port i b)) with (b_bridge_id b).
  destruct (b_root_port b) as [r|]; [|done]. rewrite designate_port. by destruct (decide _).
Qed.

Lemma update_keeps b : safe b → safe (stp_configuration_update b) ∧ root_ok (stp_configuration_update b) ∧ calm b (stp_configuration_update b).
Proof.
  intros Hb. unfold stp_configuration_update, stp_designated_port_selection. destruct (root_selection_spec b) as [(root & cost & rp & E) Hr].
  assert (Hs : safe (stp_root_selection b)) by (rewrite E; destruct Hb as [[? ?] ?]; split; [by split|done]).
  assert (Hc : calm b (stp_root_selection b)) by (rewrite E; by intros i).
  apply (for_each_ind (λ b', safe b' ∧ root_ok b' ∧ calm b b')); [|done]. clear Hs Hr Hc. intros i b' Hi He (Hs & Hr & Hc). unfold bid. destruct (_ || _); [|done].
  split_and!; [apply designate_safe; [apply Hs|intros; by apply Hs]|by apply designate_root|etrans; [exact Hc|apply designate_calm]].
Qed.

(** ** Both *)

Lemma select_ok b : safe b → root_ok b → stp_ok (stp_port_state_selection b).
Proof.
  intros Hb Hr. pose proof (selection_moves b) as [Hs Hsafe _]. destruct (Hsafe Hb). split; [done|done|by eapply same_root|by apply selection_roles].
Qed.

Lemma reselect_ok b : safe b →
  stp_ok (stp_port_state_selection (stp_configuration_update b)) ∧ calm b (stp_port_state_selection (stp_configuration_update b)).
Proof.
  intros Hb. destruct (update_keeps b Hb) as (Hs & Hr & Hc). split; [by apply select_ok|]. etrans; [exact Hc|]. apply (mv_calm _ _ (selection_moves _)).
Qed.

Lemma reconfigure_ok root b : safe b → stp_ok (reconfigure root b) ∧ calm b (reconfigure root b).
Proof.
  intros Hb. unfold reconfigure. destruct (reselect_ok b Hb) as [Ho Hc]. destruct (_ && _); [|done]. pose proof (quiet_become_root (stp_port_state_selection (stp_configuration_update b))) as Hq.
  split; [by eapply quiet_ok|]. etrans; [exact Hc|by apply quiet_calm].
Qed.

(** * Operations *)

Lemma ok_safe b : stp_ok b → safe b.
Proof. by intros []. Qed.

(** A change of a port that keeps [port_ok] and leaves the others. *)
Lemma base_upd i f b :
  ((i < STP_MAX_PORTS)%nat → port_ok (b_first_changed_port b) i (port b i) → port_ok (b_first_changed_port b) i (f (port b i))) → base_ok b → base_ok (upd i f b).
Proof.
  intros Hf [Hl Hp]. split; [by rewrite upd_length|]. intros j Hj. rewrite port_upd. destruct (decide _) as [[<- _]|]; [|by apply Hp]. by apply Hf, Hp.
Qed.

Lemma designated_upd_ne i f b j : i ≠ j → designated (upd i f b) j ↔ designated b j.
Proof. intros. unfold designated, stp_is_designated_port. by rewrite port_upd_ne. Qed.

(** Only the changed port is to be looked at again. *)
Lemma safe_upd i f b :
  ((i < STP_MAX_PORTS)%nat → port_ok (b_first_changed_port b) i (port b i) → port_ok (b_first_changed_port b) i (f (port b i))) →
  ((i < STP_MAX_PORTS)%nat → aged b i → aged (upd i f b) i) → safe b → safe (upd i f b).
Proof.
  intros Hf Hi [Hb Ha]. split; [by apply base_upd|]. intros j Hj. destruct (decide (i = j)) as [<-|]; [by apply Hi, Ha|].
  intros He. rewrite port_upd_ne in * by done. destruct (Ha j Hj He); [left; by apply designated_upd_ne|by right].
Qed.

(** ** BPDUs *)

Lemma record_safe i c b : safe b → safe (stp_record_config_information i c b) ∧ calm b (stp_record_config_information i c b).
Proof.
  intros Hb. split; [|by apply calm_upd]. apply safe_upd; [|intros Hi _ _|done]; [intros _ []; by split|].
  right. by rewrite port_upd_eq by (destruct Hb as [[-> _] _]; done).
Qed.

Lemma received_config_ok i c b :
  stp_ok b → stp_ok (stp_received_config_bpdu i c b) ∧ calm b (stp_received_config_bpdu i c b).
Proof.
  intros Hb. unfold stp_received_config_bpdu. destruct (_ <=? _); [done|]. destruct (enabled _); [|done].
  assert (Hq : ∀ b1 b2, stp_ok b1 ∧ calm b b1 → quiet b1 b2 → stp_ok b2 ∧ calm b b2).
  { intros b1 b2 [H1 H2] H. split; [by eapply quiet_ok|]. etrans; [exact H2|by apply quiet_calm]. }
  destruct (stp_supersedes_port_info b i c).
  2: { destruct (stp_is_designated_port b i); [|done]. eapply Hq; [by split|]. apply quiet_transmit_config. }
  destruct (record_safe i c b (ok_safe _ Hb)) as [Hs Hc].
  assert (H0 := reselect_ok _ Hs). assert (H1 : stp_ok (stp_port_state_selection (stp_configuration_update (stp_record_config_information i c b))) ∧
    calm b (stp_port_state_selection (stp_configuration_update (stp_record_config_information i c b)))) by (destruct H0; split; [done|by etrans]).
  clear H0 Hs Hc. set (b1 := stp_port_state_selection _) in *. clearbody b1.
  set (b2 := if negb (stp_is_root_bridge b1) && stp_is_root_bridge b then _ else b1).
  assert (Hb2 : quiet b1 b2).
  { unfold b2. destruct (_ && _); [|reflexivity]. destruct (b_topology_change_detected _); [|apply quiet_set_hello].
    etrans; [|apply quiet_set_tcn]. etrans; [|apply quiet_tcn]. etrans; [|apply quiet_set_change_timer]. apply quiet_set_hello. }
  clearbody b2. assert (H2 := Hq _ _ H1 Hb2). case_bool_decide; [|done].
  set (b3 := stp_config_bpdu_generation _).
  assert (Hb3 : quiet b2 b3).
  { etrans; [|apply quiet_generation]. etrans; [|apply quiet_set_change]. apply quiet_set_times. }
  clearbody b3. destruct (truthy _); [|by eapply Hq].
  apply (Hq _ _ (Hq _ _ H2 Hb3)). etrans; [|apply quiet_set_tcn]. apply quiet_set_change.
Qed.

Lemma received_tcn_quiet i b : quiet b (stp_received_tcn_bpdu i b).
Proof.
  unfold stp_received_tcn_bpdu. destruct (enabled _); [|done]. destruct (stp_is_designated_port b i); [|done].
  etrans; [apply quiet_detection|]. unfold stp_acknowledge_topology_change. etrans; [|apply quiet_transmit_config]. by apply quiet_upd.
Qed.

Lemma bpdu_ok i bpdu b : stp_ok b → stp_ok (stp_received_bpdu i bpdu b) ∧ calm b (stp_received_bpdu i bpdu b).
Proof.
  intros Hb. unfold stp_received_bpdu. repeat (case_match; try done); [by apply received_config_ok|].
  split; [by eapply quiet_ok, Hb; apply received_tcn_quiet|by apply quiet_calm, received_tcn_quiet].
Qed.

(** ** Management *)

Lemma calm_state i s g b :
  (∀ p, p_state (g p) = p_state p) → ¬ (s = STP_LEARNING ∨ s = STP_FORWARDING) → calm b (upd i g (stp_set_port_state i s b)).
Proof.
  intros Hg Hs j. rewrite state_upd_port. destruct (decide _) as [[<- _]|]; [|done]. unfold live. rewrite Hg. by cbn.
Qed.

Lemma designate_upd i b : stp_become_designated_port i b =
  upd i (λ p, set_info (Info (b_designated_root b) (i32 (b_root_path_cost b)) (b_bridge_id b) (p_port_id p)) p) b.
Proof. done. Qed.

(** A designated port that goes to a state in which it does not wait. *)
Lemma designated_to_state i s g b :
  (i < STP_MAX_PORTS)%nat → s ≠ STP_UNSET → ¬ waiting (set_state s true blank_port) →
  (∀ p, p_info (g p) = p_info p ∧ p_port_id (g p) = p_port_id p ∧ p_state (g p) = p_state p ∧ p_state_changed (g p) = p_state_changed p ∧
        t_active (p_forward_delay_timer (g p)) = false) →
  safe b → safe (upd i g (stp_set_port_state i s (stp_become_designated_port i b))).
Proof.
  intros Hi Hs Hw Hg [Hb Ha]. split.
  - apply base_state; [done|done| | |by apply designate_base].
    + intros p. by destruct (Hg p) as (_ & ? & ? & ? & _).
    + destruct (Hg (port (stp_set_port_state i s (stp_become_designated_port i b)) i)) as (_ & _ & _ & _ & ->). unfold waiting in Hw. cbn in Hw. naive_solver.
  - intros j Hj He. destruct (decide (i = j)) as [<-|].
    + left. unfold designated, stp_is_designated_port. rewrite state_upd_port, decide_True by (split; [done|unfold stp_become_designated_port; by rewrite upd_length, (bo_length _ Hb)]).
      destruct (Hg (set_state s (changed i s (stp_become_designated_port i b)) (port (stp_become_designated_port i b) i))) as (-> & -> & _).
      cbn [set_state p_info p_port_id]. rewrite designate_port, decide_True by (by rewrite (bo_length _ Hb)). cbn. by rewrite !Z.eqb_refl.
    + rewrite state_upd_port, decide_False in He |- * by naive_solver. rewrite designate_port, decide_False in He |- * by naive_solver.
      destruct (Ha j Hj He) as [Hd|?]; [left|by right]. unfold designated, stp_is_designated_port in *.
      rewrite state_upd_port, decide_False by naive_solver. by rewrite designate_port, decide_False by naive_solver.
Qed.

Lemma port_disable_ok i b : (i < STP_MAX_PORTS)%nat → stp_ok b → stp_ok (stp_port_disable i b) ∧ calm b (stp_port_disable i b).
Proof.
  intros Hi Hb. unfold stp_port_disable. destruct (enabled _); [|done].
  match goal with |- context [reconfigure _ ?b1] => assert (Hs : safe b1 ∧ calm b b1) end.
  { split; [apply designated_to_state; [done|done|by intros [?|?]|done|by apply ok_safe]|].
    etrans; [apply designate_calm|]. apply calm_state; [done|naive_solver]. }
  destruct Hs as [Hs Hc]. split; [by apply reconfigure_ok|]. etrans; [exact Hc|by apply reconfigure_ok].
Qed.

Lemma initialize_safe i s b :
  (i < STP_MAX_PORTS)%nat → s = STP_DISABLED ∨ s = STP_BLOCKING → safe b → safe (stp_initialize_port i s b) ∧ calm b (stp_initialize_port i s b).
Proof.
  intros Hi Hs Hb. unfold stp_initialize_port. split.
  - apply designated_to_state; [done|naive_solver|intros [?|?]; cbn in *; naive_solver|done|done].
  - etrans; [apply designate_calm|]. apply calm_state; [done|naive_solver].
Qed.

Lemma initialize_root i s b : enabled (port b i) = false → root_ok b → root_ok (stp_initialize_port i s b).
Proof.
  intros He. unfold root_ok. change (b_root_port (stp_initialize_port i s b)) with (b_root_port b).
  change (b_designated_root (stp_initialize_port i s b)) with (b_designated_root b). change (b_bridge_id (stp_initialize_port i s b)) with (b_bridge_id b).
  destruct (b_root_port b) as [r|]; [|done]. intros (H1 & H2 & H3). split_and!; [done| |done]. unfold stp_initialize_port.
  assert (i ≠ r) by congruence. rewrite state_upd_port, decide_False by naive_solver. by rewrite designate_port, decide_False by naive_solver.
Qed.

Lemma port_enable_ok i b : (i < STP_MAX_PORTS)%nat → stp_ok b → stp_ok (stp_port_enable i b) ∧ calm b (stp_port_enable i b).
Proof.
  intros Hi Hb. unfold stp_port_enable. destruct (enabled _) eqn:He; [done|].
  destruct (initialize_safe i STP_BLOCKING b Hi (or_intror eq_refl) (ok_safe _ Hb)) as [Hs Hc].
  split; [apply select_ok; [done|by apply initialize_root, Hb]|]. etrans; [exact Hc|apply (mv_calm _ _ (selection_moves _))].
Qed.

Lemma path_cost_ok i cost b : stp_ok b → stp_ok (stp_port_set_path_cost i cost b) ∧ calm b (stp_port_set_path_cost i cost b).
Proof.
  intros Hb. unfold stp_port_set_path_cost. destruct (negb _); [|done].
  assert (Hs : safe (upd i (set_path_cost cost) b)).
  { apply safe_upd; [intros _ []; by split| |by apply ok_safe]. intros Hi Ha. unfold aged, designated, stp_is_designated_port in *.
    rewrite port_upd_eq by (by rewrite (bo_length _ (ok_base _ Hb))). exact Ha. }
  destruct (reselect_ok _ Hs) as [Ho Hc]. split; [done|]. etrans; [|exact Hc]. by apply calm_upd.
Qed.

Lemma upd_upd i f g b : upd i f (upd i g b) = upd i (λ p, f (g p)) b.
Proof. unfold upd, set_ports; cbn. by rewrite list_alter_alter_eq. Qed.

Lemma root_upd i f b : (∀ p, p_state (f p) = p_state p) → root_ok b → root_ok (upd i f b).
Proof.
  intros Hf. unfold root_ok. change (b_root_port (upd i f b)) with (b_root_port b). destruct (b_root_port b) as [r|]; [|done].
  intros (H1 & H2 & H3). split_and!; [done| |done]. rewrite port_upd. destruct (decide _); [|done]. unfold enabled in *. by rewrite Hf.
Qed.

Lemma roles_upd i f b :
  (∀ p, p_state (f p) = p_state p) → ((i < STP_MAX_PORTS)%nat → designated b i → designated (upd i f b) i) → roles_ok b → roles_ok (upd i f b).
Proof.
  intros Hf Hd Hr j Hj Ha. change (b_root_port (upd i f b)) with (b_root_port b). destruct (decide (i = j)) as [<-|].
  - assert (active (port b i)) as Ha' by (unfold active in *; rewrite port_upd in Ha; destruct (decide _); [by rewrite Hf in Ha|done]).
    destruct (Hr i Hj Ha'); [by left|right; auto].
  - rewrite port_upd_ne in Ha by done. destruct (Hr j Hj Ha); [by left|right; by apply designated_upd_ne].
Qed.

Lemma new_port_id pid priority i : pid mod 256 = Z.of_nat i + 1 →
  u16 (Z.lor (Z.land pid 0xff) (Z.shiftl priority 8)) mod 256 = Z.of_nat i + 1.
Proof.
  intros Hp. unfold u16, wrap. change (2 ^ 16) with (256 * 256). rewrite Z.mod_mod_divide by (by exists 256).
  rewrite <- Hp. change 256 with (2 ^ 8). rewrite <- !Z.land_ones by done. change (Z.ones 8) with 0xff. apply Z.bits_inj'. intros n Hn.
  rewrite !Z.land_spec, Z.lor_spec, Z.land_spec, Z.shiftl_spec by done. change 0xff with (Z.ones 8). destruct (Z.lt_ge_cases n 8).
  - rewrite Z.ones_spec_low, (Z.testbit_neg_r priority) by lia. by rewrite !andb_true_r, orb_false_r.
  - rewrite Z.ones_spec_high by lia. by rewrite !andb_false_r.
Qed.

Lemma port_priority_ok i priority b :
  (i < STP_MAX_PORTS)%nat → stp_ok b → stp_ok (stp_port_set_priority i priority b) ∧ calm b (stp_port_set_priority i priority b).
Proof.
  intros Hi Hb. unfold stp_port_set_priority. set (id := u16 _). destruct (negb _); [|done].
  assert (Hid : id mod 256 = Z.of_nat i + 1 ∧ fits 16 id).
  { split; [apply new_port_id, (bo_ports _ (ok_base _ Hb)), Hi|by apply wrap_fits]. }
  clearbody id. assert (Hl : (i < length (b_ports b))%nat) by (by rewrite (bo_length _ (ok_base _ Hb))).
  set (b1 := if stp_is_designated_port b i then _ else b).
  assert (Hb1 : ∃ f, upd i (set_port_id id) b1 = upd i f b ∧ (∀ p, p_state (f p) = p_state p) ∧
    (∀ p, p_port_id (f p) = id ∧ t_active (p_forward_delay_timer (f p)) = t_active (p_forward_delay_timer p) ∧
          t_active (p_message_age_timer (f p)) = t_active (p_message_age_timer p) ∧ p_state_changed (f p) = p_state_changed p) ∧
    (designated b i → designated (upd i f b) i)).
  { unfold b1. destruct (stp_is_designated_port b i) eqn:Ed.
    - eexists. rewrite upd_upd. split; [reflexivity|]. split_and!; [done..|]. intros _. unfold designated, stp_is_designated_port in *.
      rewrite port_upd_eq by done. cbn. apply andb_prop in Ed as [-> _]. by rewrite Z.eqb_refl.
    - eexists. split; [reflexivity|]. split_and!; [done..|]. unfold designated. by rewrite Ed. }
  destruct Hb1 as (f & -> & Hst & Hf & Hd). clear b1.
  assert (Hs : safe (upd i f b)).
  { apply safe_upd; [| |by apply ok_safe].
    - intros _ [? ? ? Hdel ?]. destruct (Hf (port b i)) as (E1 & E2 & E3 & E4). split; unfold waiting; rewrite ?E1, ?E2, ?E4, ?Hst; try done; apply Hid.
    - intros _ Ha. unfold aged, enabled in *. rewrite port_upd_eq, Hst by done. destruct (Hf (port b i)) as (_ & _ & -> & _).
      intros He. destruct (Ha He); [left; auto|by right]. }
  assert (Hc : calm b (upd i f b)) by (apply calm_upd; intros; by rewrite Hst).
  assert (Hr : root_ok (upd i f b)) by (by apply root_upd, Hb).
  destruct (_ && _); [|split; [|done]; destruct Hs; split; [done|done|done|apply roles_upd; [done|auto|apply Hb]]].
  assert (Hs2 : safe (stp_become_designated_port i (upd i f b))) by (apply designate_safe; [apply Hs|intros; by apply Hs]).
  split; [apply select_ok; [done|by apply designate_root]|]. etrans; [exact Hc|]. etrans; [apply designate_calm|]. apply (mv_calm _ _ (selection_moves _)).
Qed.

Lemma detect_quiet i on b : quiet b (upd i (set_detect on) b).
Proof. by apply quiet_upd. Qed.

(** ** The identifier of the bridge *)

(** Some designated ports have the new identifier already. *)
Definition renamed (new : Z) (b b' : stp) : Prop :=
  b_bridge_id b' = b_bridge_id b ∧ base_ok b' ∧ calm b b' ∧
  ∀ i, core (port b' i) = core (port b i) ∨
       designated b i ∧ core (port b' i) = core (set_info (Info (i_root (p_info (port b i))) (i_cost (p_info (port b i))) new (i_port (p_info (port b i)))) (port b i)).

Lemma core_designated b b' i : core (port b' i) = core (port b i) → b_bridge_id b' = b_bridge_id b → designated b' i ↔ designated b i.
Proof. intros (E1 & _ & _ & E2 & _)%core_inv Hb. unfold designated, stp_is_designated_port. by rewrite E1, E2, Hb. Qed.

Lemma rename_turn new b i b' :
  new ≠ b_bridge_id b → (i < STP_MAX_PORTS)%nat → renamed new b b' →
  renamed new b (rename_designated new i b') ∧ (designated b i → i_bridge (p_info (port (rename_designated new i b') i)) = new).
Proof.
  intros Hne Hi (Hid & Hbase & Hc & Hp). assert (Hlen : (i < length (b_ports b'))%nat) by (by rewrite (bo_length _ Hbase)). unfold rename_designated.
  assert (Hold : core (port b' i) = core (port b i) ∨ designated b i ∧ i_bridge (p_info (port b' i)) = new).
  { destruct (Hp i) as [?|[? E]]; [by left|right; split; [done|]]. apply core_inv in E as (_ & _ & _ & -> & _). done. }
  destruct (stp_is_designated_port b' i) eqn:Ed.
  - assert (Hc' : core (port b' i) = core (port b i)).
    { destruct Hold as [?|[_ Hn]]; [done|]. unfold stp_is_designated_port in Ed. apply andb_prop in Ed as [Ed%Z.eqb_eq _]. congruence. }
    assert (Hd : designated b i) by (by apply (core_designated b b')). pose proof (core_inv _ _ Hc') as (E1 & E2 & E3 & E4 & E5 & E6 & E7).
    split; [split; [exact Hid|split_and!]|].
    + apply base_upd; [|done]. intros _ []. by split.
    + etrans; [exact Hc|]. by apply calm_upd.
    + intros j. rewrite port_upd. destruct (decide _) as [[<- _]|]; [|apply Hp]. right. split; [done|]. unfold core. cbn. by rewrite E1, E2, E3, E4, E5, E6, E7.
    + intros _. by rewrite port_upd_eq.
  - split; [done|]. intros Hd. destruct Hold as [Hc'|[_ ?]]; [|done]. apply (core_designated b b') in Hd; [|done..]. unfold designated in Hd. congruence.
Qed.

Lemma rename_ne new i j b : i ≠ j → port (rename_designated new i b) j = port b j.
Proof. intros. unfold rename_designated. destruct (stp_is_designated_port b i); [by apply port_upd_ne|done]. Qed.

Lemma rename_loop new b : new ≠ b_bridge_id b → stp_ok b →
  renamed new b (for_each (rename_designated new) b) ∧
  ∀ i, (i < STP_MAX_PORTS)%nat → enabled (port b i) = true → designated b i → i_bridge (p_info (port (for_each (rename_designated new) b) i)) = new.
Proof.
  intros Hne Hb. apply (for_each_all (renamed new b) (λ b' i, enabled (port b i) = true → designated b i → i_bridge (p_info (port b' i)) = new)).
  - intros i b' Hi Hr _. destruct (rename_turn new b i b' Hne Hi Hr) as [H1 H2]. split; [done|]. split; [auto|]. intros j Hj Hq. by rewrite rename_ne.
  - intros i b' (_ & _ & _ & Hp) He He'. exfalso. assert (p_state (port b' i) = p_state (port b i)) as E.
    { destruct (Hp i) as [E|[_ E]]; by apply core_inv in E as (_ & -> & _). }
    unfold enabled in *. rewrite E in He. congruence.
  - split; [done|]. split; [apply Hb|]. split; [done|]. intros; by left.
Qed.

Lemma renamed_safe new b b' :
  stp_ok b → renamed new b b' → (∀ i, (i < STP_MAX_PORTS)%nat → enabled (port b i) = true → designated b i → i_bridge (p_info (port b' i)) = new) →
  safe (put_bridge_id new b').
Proof.
  intros Hb (_ & Hbase & _ & Hp) Hq. split; [destruct Hbase; by split|]. intros i Hi. unfold aged. change (port (put_bridge_id new b') i) with (port b' i).
  assert (E : p_state (port b' i) = p_state (port b i)) by (destruct (Hp i) as [E|[_ E]]; by apply core_inv in E as (_ & -> & _)).
  unfold enabled. rewrite E. intros He. destruct (ok_aged _ Hb i Hi He) as [Hd|Ht].
  - left. specialize (Hq i Hi He Hd). unfold designated, stp_is_designated_port in *. change (port (put_bridge_id new b') i) with (port b' i).
    cbn [put_bridge_id b_bridge_id]. rewrite Hq, Z.eqb_refl. apply andb_prop in Hd as [_ Hd].
    destruct (Hp i) as [E'|[_ E']]; apply core_inv in E' as (-> & _ & _ & -> & _); done.
  - right. destruct (Hp i) as [E'|[_ E']]; by apply core_inv in E' as (_ & _ & _ & _ & -> & _).
Qed.

Lemma change_id_ok new b : stp_ok b → stp_ok (set_bridge_id new b) ∧ calm b (set_bridge_id new b).
Proof.
  intros Hb. unfold set_bridge_id. destruct (Z.eqb_spec new (b_bridge_id b)) as [|Hne]; [done|]. cbn [negb].
  destruct (rename_loop new b Hne Hb) as [Hr Hq]. generalize dependent (for_each (rename_designated new) b). intros b' Hr Hq.
  destruct (reconfigure_ok (stp_is_root_bridge b) _ (renamed_safe _ _ _ Hb Hr Hq)) as [Ho Hc]. split; [done|].
  etrans; [|exact Hc]. destruct Hr as (_ & _ & Hc' & _). exact Hc'.
Qed.

(** ** [stp_get_changed_port] *)

Lemma changed_port_ok b : stp_ok b → stp_ok (stp_get_changed_port b).1 ∧ calm b (stp_get_changed_port b).1.
Proof.
  intros [[Hl Hp] Ha Hr Hro]. unfold stp_get_changed_port. destruct (list_find _ _) as [[k p]|] eqn:E; cbn [fst].
  - apply list_find_Some in E as (E & Hch & Hbefore). rewrite lookup_drop in E. set (i := (b_first_changed_port b + k)%nat) in *.
    set (f := λ p, set_state (p_state p) false p). set (b1 := set_ports _ _ _).
    assert (Hpt : ∀ j, port b1 j = port (upd i f b) j) by done.
    assert (Hs : same_roles b b1).
    { assert (same_roles b (upd i f b)) as [] by (apply same_upd; [done..|]; by unfold enabled). by split. }
    assert (Hc : calm b b1) by (intros j; rewrite Hpt, port_upd; by destruct (decide _)).
    assert (Hst : ∀ j, p_state (port b1 j) = p_state (port b j)) by (intros j; rewrite Hpt, port_upd; by destruct (decide _)).
    split; [|done]. split.
    + split; [by unfold b1; cbn; rewrite length_alter|]. intros j Hj. destruct (Hp j Hj) as [H1 H2 H3 H4 H5]. rewrite Hpt, port_upd. cbn [b1 set_ports b_first_changed_port].
      destruct (decide _) as [[<- _]|Hn]; split; try done. intros Hcj. specialize (H5 Hcj).
      destruct (decide (j = i)) as [->|]; [destruct Hn; split; [done|by rewrite Hl]|]. destruct (decide (j < i)%nat) as [Hlt|]; [|lia]. exfalso.
      destruct (lookup_lt_is_Some_2 (b_ports b) j) as [q Hq]; [by rewrite Hl|]. unfold port in Hcj. rewrite Hq in Hcj. cbn in Hcj.
      apply (Hbefore (j - b_first_changed_port b)%nat q); [rewrite lookup_drop; replace (_ + _)%nat with j by lia; done|lia|done].
    + eapply same_aged; [exact Hs| |exact Ha]. intros j. rewrite Hpt, port_upd. by destruct (decide _).
    + by eapply same_root.
    + intros j Hj Haj. rewrite (sr_root_port _ _ Hs), (same_designated _ _ _ Hs). apply Hro; [done|]. unfold active in *. by rewrite <- Hst.
  - split; [|done]. split; [|done|done|done]. split; [done|]. intros j Hj. destruct (Hp j Hj) as [H1 H2 H3 H4 H5]. split; try done.
    intros Hcj. specialize (H5 Hcj). exfalso. cbn in Hcj. apply list_find_None in E. rewrite list.Forall_lookup in E.
    destruct (lookup_lt_is_Some_2 (b_ports b) j) as [q Hq]; [by rewrite Hl|]. unfold port, set_ports in Hcj. cbn in Hcj. rewrite Hq in Hcj. cbn in Hcj.
    apply (E (j - b_first_changed_port b)%nat q); [rewrite lookup_drop; replace (_ + _)%nat with j by lia; done|done].
Qed.

(** ** Time *)

Lemma expired_spec t elapsed timeout :
  let '(t', expired) := stp_timer_expired t elapsed timeout in
  if expired : bool then t_active t = true ∧ t_active t' = false else t_active t' = t_active t.
Proof. unfold stp_timer_expired. destruct (t_active t) eqn:E; [|done]. by destruct (_ <=? _). Qed.

Lemma tick_hello_quiet elapsed b : quiet b (tick_hello elapsed b).
Proof.
  unfold tick_hello. destruct (stp_timer_expired _ _ _) as [t []]; [|apply quiet_set_hello]. unfold stp_hello_timer_expiry.
  etrans; [|apply quiet_set_hello]. etrans; [|apply quiet_generation]. apply quiet_set_hello.
Qed.

Lemma tick_tcn_quiet elapsed b : quiet b (tick_tcn elapsed b).
Proof.
  unfold tick_tcn. destruct (stp_timer_expired _ _ _) as [t []]; [|apply quiet_set_tcn]. unfold stp_tcn_timer_expiry.
  etrans; [|apply quiet_set_tcn]. etrans; [|apply quiet_tcn]. apply quiet_set_tcn.
Qed.

Lemma tick_change_quiet elapsed b : quiet b (tick_change elapsed b).
Proof.
  unfold tick_change. destruct (stp_timer_expired _ _ _) as [t []]; [|apply quiet_set_change_timer]. unfold stp_topology_change_timer_expiry.
  etrans; [|apply quiet_set_change]. apply quiet_set_change_timer.
Qed.

Lemma tick_hold_quiet elapsed i b : quiet b (tick_hold elapsed i b).
Proof.
  unfold tick_hold. destruct (stp_timer_expired _ _ _) as [t expired]. assert (quiet b (upd i (set_hold t) b)) as Hq by (by apply quiet_upd).
  destruct expired; [|done]. unfold stp_hold_timer_expiry. destruct (p_config_pending _); [|done]. etrans; [exact Hq|apply quiet_transmit_config].
Qed.

Lemma tick_age_ok elapsed i b : stp_ok b → stp_ok (tick_age elapsed i b) ∧ calm b (tick_age elapsed i b).
Proof.
  intros Hb. unfold tick_age. pose proof (expired_spec (p_message_age_timer (port b i)) elapsed (max_age (b_times b))) as Ht.
  destruct (stp_timer_expired _ _ _) as [t []].
  - assert (Hbase : base_ok (upd i (set_message_age t) b)) by (apply base_upd; [intros _ []; by split|apply Hb]).
    unfold stp_message_age_timer_expiry. edestruct reconfigure_ok as [Ho Hc]; [|split; [exact Ho|etrans; [|exact Hc]]].
    + apply designate_safe; [done|]. intros j Hj Hne He. rewrite port_upd_ne in * by done.
      destruct (ok_aged _ Hb j Hj He); [left; by apply designated_upd_ne|by right].
    + etrans; [|apply designate_calm]. by apply calm_upd.
  - assert (Hq : quiet b (upd i (set_message_age t) b)) by (apply quiet_upd; unfold core; cbn; by rewrite Ht).
    split; [by eapply quiet_ok|by apply quiet_calm].
Qed.

(** Setting the timer first or after. *)
Lemma state_upd_comm i s t b :
  stp_set_port_state i s (upd i (set_forward_delay t) b) = upd i (set_forward_delay t) (stp_set_port_state i s b).
Proof.
  unfold stp_set_port_state. rewrite port_upd. unfold upd, set_ports; cbn. rewrite !list_alter_alter_eq. by destruct (decide _).
Qed.

(** One step towards forwarding. *)
Definition next (s : stp_state) : stp_state := match s with STP_LISTENING => STP_LEARNING | _ => STP_FORWARDING end.

Lemma delay_step_ok i s g b :
  (i < STP_MAX_PORTS)%nat → stp_ok b → waiting (port b i) → s = next (p_state (port b i)) →
  (∀ p, core (set_forward_delay no_timer (g p)) = core (set_forward_delay no_timer p)) →
  (t_active (p_forward_delay_timer (g (port (stp_set_port_state i s b) i))) = true ↔ s = STP_LISTENING ∨ s = STP_LEARNING) →
  stp_ok (upd i g (stp_set_port_state i s b)).
Proof.
  intros Hi Hb Hw Hs Hg Ht. assert (Hg' : ∀ p, p_info (g p) = p_info p ∧ p_port_id (g p) = p_port_id p ∧ p_path_cost (g p) = p_path_cost p ∧
    p_state (g p) = p_state p ∧ p_state_changed (g p) = p_state_changed p ∧ t_active (p_message_age_timer (g p)) = t_active (p_message_age_timer p)).
  { intros p. by destruct (core_inv _ _ (Hg p)) as (? & ? & ? & ? & ? & _ & ?). }
  assert (He : bool_decide (s ≠ STP_DISABLED) = enabled (port b i)) by (subst s; unfold enabled; by destruct Hw as [-> | ->]).
  assert (Hsr : same_roles b (upd i g (stp_set_port_state i s b))) by (apply same_state; [|done]; intros p; by destruct (Hg' p) as (? & ? & ? & ? & _)).
  split.
  - apply base_state; [done|subst s; by destruct Hw as [-> | ->]| |done|apply Hb]. intros p. by destruct (Hg' p) as (_ & ? & _ & ? & ? & _).
  - eapply same_aged; [exact Hsr| |apply Hb]. intros j. rewrite state_upd_port. destruct (decide _) as [[<- _]|]; [|done].
    by destruct (Hg' (set_state s (changed i s b) (port b i))) as (_ & _ & _ & _ & _ & ->).
  - eapply same_root; [exact Hsr|apply Hb].
  - intros j Hj Ha. rewrite (sr_root_port _ _ Hsr), (same_designated _ _ _ Hsr). apply (ok_roles _ Hb); [done|]. rewrite state_upd_port in Ha.
    destruct (decide _) as [[<- _]|]; [|done]. unfold active. destruct Hw; auto.
Qed.

(** What a turn of the last loop does to the states. *)
Definition advanced (i : nat) (b b' : stp) : Prop :=
  ∀ j, p_state (port b' j) = p_state (port b j) ∨ j = i ∧ waiting (port b j) ∧ p_state (port b' j) = next (p_state (port b j)).

Lemma advanced_quiet i b b1 b2 : advanced i b b1 → quiet b1 b2 → advanced i b b2.
Proof. intros Ha Hq j. rewrite (quiet_state _ _ Hq). apply Ha. Qed.

Lemma advanced_state i g b :
  (∀ p, p_state (g p) = p_state p) → waiting (port b i) → advanced i b (upd i g (stp_set_port_state i (next (p_state (port b i))) b)).
Proof. intros Hg Hw j. rewrite state_upd_port. destruct (decide _) as [[<- _]|]; [|by left]. right. rewrite Hg. done. Qed.

Lemma tick_delay_ok elapsed i b :
  (i < STP_MAX_PORTS)%nat → stp_ok b → stp_ok (tick_delay elapsed i b) ∧ advanced i b (tick_delay elapsed i b).
Proof.
  intros Hi Hb. unfold tick_delay. pose proof (expired_spec (p_forward_delay_timer (port b i)) elapsed (forward_delay (b_times b))) as Ht.
  destruct (stp_timer_expired _ _ _) as [t []].
  2: { assert (Hq : quiet b (upd i (set_forward_delay t) b)) by (apply quiet_upd; unfold core; cbn; by rewrite Ht).
       split; [by eapply quiet_ok|]. intros j. left. by apply quiet_state. }
  destruct Ht as [Hold Hnew]. pose proof (bo_ports _ (ok_base _ Hb) i Hi) as Hp. assert (Hw := proj1 (po_delay _ _ _ Hp) Hold).
  unfold stp_forward_delay_timer_expiry. rewrite port_upd_eq by (by rewrite (bo_length _ (ok_base _ Hb))). cbn [set_forward_delay set_timers p_state].
  pose proof (advanced_state i) as Hadv. destruct Hw as [E|E]; rewrite E, state_upd_comm.
  - rewrite upd_upd. split; [apply delay_step_ok; [done|done|by left|by rewrite E|done|split; [by right|done]]|].
    specialize (Hadv (λ p, set_forward_delay (stp_start_timer 0) (set_forward_delay t p)) b). rewrite E in Hadv. apply Hadv; [done|by left].
  - assert (Ho : stp_ok (upd i (set_forward_delay t) (stp_set_port_state i STP_FORWARDING b))).
    { apply delay_step_ok; [done|done|by right|by rewrite E|done|]. cbn. rewrite Hnew. naive_solver. }
    assert (Ha : advanced i b (upd i (set_forward_delay t) (stp_set_port_state i STP_FORWARDING b))).
    { specialize (Hadv (set_forward_delay t) b). rewrite E in Hadv. apply Hadv; [done|by right]. }
    set (b1 := upd i (set_forward_delay t) _) in *. clearbody b1.
    pose proof (quiet_detected (stp_is_designated_for_some_port b1) (p_change_detection_enabled (port b1 i)) b1) as Hq.
    split; [by eapply quiet_ok|by eapply advanced_quiet].
Qed.

Lemma tick_port_ok elapsed i b :
  (i < STP_MAX_PORTS)%nat → stp_ok b → stp_ok (tick_port elapsed i b) ∧ advanced i b (tick_port elapsed i b).
Proof.
  intros Hi Hb. destruct (tick_delay_ok elapsed i b Hi Hb). pose proof (tick_hold_quiet elapsed i (tick_delay elapsed i b)).
  split; [by eapply quiet_ok|by eapply advanced_quiet].
Qed.

Lemma tick_ports_ok elapsed b : stp_ok b →
  stp_ok (for_each (tick_port elapsed) b) ∧
  ∀ i, (i < STP_MAX_PORTS)%nat → ¬ live (port b i) → p_state (port (for_each (tick_port elapsed) b) i) ≠ STP_FORWARDING.
Proof.
  intros Hb. split; [apply (for_each_ind stp_ok); [|done]; intros i b' Hi _ Hb'; by apply tick_port_ok|].
  intros i Hi Hd. apply (for_each_once i (λ b', stp_ok b' ∧ ¬ live (port b' i)) (λ b', stp_ok b' ∧ p_state (port b' i) ≠ STP_FORWARDING)).
  - intros j b' Hj Hne [H1 H2]. destruct (tick_port_ok elapsed j b' Hj H1) as [H3 H4]. split; [done|]. unfold live in *. destruct (H4 i) as [-> |[? _]]; done.
  - intros b' [H1 H2]. destruct (tick_port_ok elapsed i b' Hi H1) as [H3 H4]. split; [done|]. destruct (H4 i) as [-> |(_ & [E|E] & ->)].
    + intros E. destruct H2. by right.
    + by rewrite E.
    + destruct H2. by left.
  - intros b' [H1 H2]. split; [done|]. intros E. destruct H2. by right.
  - intros j b' Hj Hne [H1 H2]. destruct (tick_port_ok elapsed j b' Hj H1) as [H3 H4]. split; [done|]. destruct (H4 i) as [-> |[? _]]; done.
  - done.
Qed.

Lemma tick_ages_ok elapsed b : stp_ok b → stp_ok (for_each (tick_age elapsed) b) ∧ calm b (for_each (tick_age elapsed) b).
Proof.
  intros Hb. apply (for_each_ind (λ b', stp_ok b' ∧ calm b b')); [|done]. intros i b' _ _ [H1 H2]. destruct (tick_age_ok elapsed i b' H1). split; [done|by etrans].
Qed.

Lemma tick_ok ms b : stp_ok b →
  stp_ok (stp_tick ms b) ∧ ∀ i, (i < STP_MAX_PORTS)%nat → p_state (port (stp_tick ms b) i) = STP_FORWARDING → live (port b i).
Proof.
  intros Hb. unfold stp_tick. set (b0 := set_remainder _ b). set (elapsed := ms_to_timer _). assert (Hq0 : quiet b b0) by apply quiet_set_remainder.
  clearbody b0 elapsed. destruct (elapsed =? 0).
  { split; [by eapply quiet_ok|]. intros i _ E. right. by rewrite <- (quiet_state _ _ Hq0). }
  set (b1 := tick_change _ _). assert (Hq1 : quiet b b1).
  { etrans; [exact Hq0|]. etrans; [apply (tick_hello_quiet elapsed)|]. etrans; [apply (tick_tcn_quiet elapsed)|]. apply tick_change_quiet. }
  clearbody b1. clear b0 Hq0. destruct (tick_ages_ok elapsed b1 (quiet_ok _ _ Hq1 Hb)) as [Ho Hc].
  destruct (tick_ports_ok elapsed _ Ho) as [Ho' Hf]. split; [done|]. intros i Hi E.
  destruct (decide (p_state (port (for_each (tick_age elapsed) b1) i) = STP_LEARNING ∨ p_state (port (for_each (tick_age elapsed) b1) i) = STP_FORWARDING)) as [Hl|Hl];
    [|by destruct (Hf i Hi Hl)].
  unfold live in *. by rewrite <- (quiet_state _ _ Hq1), <- (Hc i Hl).
Qed.

(** ** The start *)

Definition first_id (i : nat) : Z := Z.lor (Z.of_nat i + 1) (Z.shiftl STP_DEFAULT_PORT_PRIORITY 8).

Lemma first_id_ok i : (i < STP_MAX_PORTS)%nat → first_id i mod 256 = Z.of_nat i + 1 ∧ fits 16 (first_id i).
Proof.
  intros Hi. assert (H : Forall (λ i, first_id i mod 256 = Z.of_nat i + 1 ∧ fits 16 (first_id i)) (seq 0 STP_MAX_PORTS)) by by_eval.
  rewrite list.Forall_forall in H. apply H, elem_of_seq. lia.
Qed.

(** The ports below [k] are set up. *)
Record set_up (k : nat) (b : stp) : Prop := {
  su_length : length (b_ports b) = STP_MAX_PORTS;
  su_root : b_root_port b = None ∧ b_designated_root b = b_bridge_id b;
  su_ports i : (i < k)%nat → (i < STP_MAX_PORTS)%nat → port_ok (b_first_changed_port b) i (port b i) ∧ p_state (port b i) = STP_DISABLED;
  su_rest i : (k <= i)%nat → port b i = blank_port }.

Lemma set_up_next k b : (k < STP_MAX_PORTS)%nat → set_up k b →
  set_up (S k) (stp_initialize_port k STP_DISABLED (upd k (λ p, set_path_cost 19 (set_port_id (first_id k) p)) b)).
Proof.
  intros Hk [Hl Hr Hp Hn]. set (b1 := upd k _ b). assert (Hl1 : length (b_ports b1) = STP_MAX_PORTS) by (unfold b1; by rewrite upd_length).
  unfold stp_initialize_port. set (b2 := stp_become_designated_port k b1). assert (Hl2 : length (b_ports b2) = STP_MAX_PORTS) by (unfold b2, stp_become_designated_port; by rewrite upd_length).
  destruct (state_first k STP_DISABLED b2) as [Hf Hc]. split; [by rewrite upd_length, state_length|done| |].
  2: { intros i Hi. rewrite state_upd_port, decide_False by (intros [-> _]; lia). unfold b2. rewrite designate_port, decide_False by (intros [-> _]; lia).
       unfold b1. rewrite port_upd_ne by lia. apply Hn. lia. }
  intros i Hi Hi'. rewrite state_upd_port. change (b_first_changed_port (upd k _ (stp_set_port_state k STP_DISABLED b2))) with (b_first_changed_port (stp_set_port_state k STP_DISABLED b2)).
  change (b_first_changed_port b2) with (b_first_changed_port b) in Hf. destruct (decide _) as [[<- _]|Hne].
  - unfold b2. rewrite designate_port, decide_True by (by rewrite Hl1). unfold b1. rewrite port_upd_eq by (by rewrite Hl). destruct (first_id_ok k Hk).
    split; [|done]. split; [done|done|done|split; [done|by intros [?|?]]|]. cbn [set_timers set_detect set_duties set_state p_state_changed].
    intros [Hch|Hch]%Hc; [|done]. revert Hch. unfold b2. rewrite designate_port, decide_True by (by rewrite Hl1). unfold b1.
    by rewrite port_upd_eq, Hn by (by rewrite ?Hl).
  - assert (k ≠ i) by (intros ->; destruct Hne; split; [done|by rewrite Hl2]). unfold b2. rewrite designate_port, decide_False by naive_solver.
    unfold b1. rewrite port_upd_ne by done. destruct (Hp i) as [[H1 H2 H3 H4 H5] H6]; [lia|done|]. split; [|done]. split; try done. intros ?. etrans; [exact Hf|auto].
Qed.

Lemma stp_create_ok id : stp_ok (stp_create id).
Proof.
  unfold stp_create. set (id' := if _ =? 0 then _ else id). clearbody id'. set (b0 := set_ports _ STP_MAX_PORTS _).
  assert (H0 : set_up 0 b0).
  { unfold b0, stp_update_bridge_timers. destruct (stp_is_root_bridge _).
    all: split; [done|done|lia|]; intros i _; unfold port; cbn [set_ports set_bridge_timers set_change set_root root_times set_times set_own_times b_ports].
    all: destruct (_ !! i) eqn:E; [apply lookup_replicate in E as [-> _]|]; done. }
  clearbody b0. assert (Hl : ∀ n k b, (k + n = STP_MAX_PORTS)%nat → set_up k b → set_up STP_MAX_PORTS (foldl (λ b i,
    stp_initialize_port i STP_DISABLED (upd i (λ p, set_path_cost 19 (set_port_id (first_id i) p)) b)) b (seq k n))).
  { induction n as [|n IH]; intros k b Hk Hb; [replace STP_MAX_PORTS with k by lia; done|]. cbn [seq foldl]. apply IH; [lia|]. apply set_up_next; [lia|done]. }
  specialize (Hl STP_MAX_PORTS 0%nat b0 eq_refl H0). clear H0. set (b := foldl _ _ _) in Hl.
  change (stp_ok b). clearbody b. destruct Hl as [Hlen [Hr1 Hr2] Hp _]. split.
  - split; [done|]. intros i Hi. by apply Hp.
  - intros i Hi. unfold aged, enabled. by destruct (Hp i Hi Hi) as [_ ->].
  - unfold root_ok. by rewrite Hr1.
  - intros i Hi. unfold active. destruct (Hp i Hi Hi) as [_ ->]. naive_solver.
Qed.
