(* ===== verification/Vconn.v ===== *)
(** Virtual connections: lib/vconn.c, and the stream sockets of lib/vconn-stream.c.

    A virtual connection exchanges OpenFlow messages with a peer.  It first sends a hello, waits for the peer's, and settles
    on a version; then it takes messages of that version.  What carries the messages is a class of operations
    ([struct vconn_class]); stream sockets are one, which cut the bytes that [read] gives into messages and keep what [write]
    did not take.

    A socket is what the peer sends, what was written to it, and the answers that [read], [write] and [connect] will
    give: how many bytes they take, or an error.  [None] is an assertion that fails. *)

From Stdlib Require Import Strings.String.
From S2P Require Import Prelude OpenFlow Wire Rconn.

Definition EOF := -1.
Definition EPROTO := 71.
Definition EINPROGRESS := 115.
Definition OFP_VERSION := 4.
Definition OFPT_HELLO := 0.
Definition OFPT_ERROR := 1.
Definition OFPT_EXPERIMENTER := 4.
Definition OFPT_PACKET_IN := 10.
Definition OFPT_FLOW_REMOVED := 11.
Definition OFPT_PORT_STATUS := 12.
Definition OFPET_HELLO_FAILED := 0.
Definition OFPHFC_INCOMPATIBLE := 0.

(** * Messages *)

(** The members of [struct ofp_header]. *)
Definition oh_version (b : list Z) : Z := be_read (take 1 b).
Definition oh_type (b : list Z) : Z := be_read (take 1 (drop 1 b)).
Definition oh_length (b : list Z) : Z := be_read (take 2 (drop 2 b)).

(** [make_openflow]: [alloc_xid] gives a random number. *)
Definition make_openflow (openflow_len : nat) (type xid : Z) : list Z :=
  be 1 OFP_VERSION ++ be 1 type ++ be 2 (Z.of_nat openflow_len) ++ be 4 xid ++ zeros (openflow_len - 8).

Definition update_openflow_length (b : list Z) : list Z := take 2 b ++ be 2 (Z.of_nat (length b)) ++ drop 4 b.

(** * The class of a connection *)

Class vconn_class (S : Type) := VconnClass {
  vc_connect : S → option (S * Z);
  vc_recv : S → option (S * (Z + list Z));
  vc_send : S → list Z → option (S * Z);
  (** the callback that the class registers with the poll loop *)
  vc_poll : S → S }.

(** * Stream sockets *)

Inductive io := Upto (n : nat) | Errno (e : Z).

Record sock := Sock {
  sk_in : list Z;
  sk_out : list Z;
  sk_connects : list Z;
  sk_reads : list io;
  sk_writes : list io }.

(** [check_connection_completion] *)
Definition sk_connect (k : sock) : sock * Z :=
  match sk_connects k with
  | [] => (k, EAGAIN)
  | e :: l => (Sock (sk_in k) (sk_out k) l (sk_reads k) (sk_writes k), e)
  end.

(** At least a byte, and none at the end of what the peer sends. *)
Definition sk_read (k : sock) (want : Z) : sock * (Z + list Z) :=
  match sk_reads k with
  | [] => (k, inl EAGAIN)
  | Errno e :: l => (Sock (sk_in k) (sk_out k) (sk_connects k) l (sk_writes k), inl e)
  | Upto n :: l =>
    let m := Z.to_nat (Z.min (Z.of_nat (S n)) want) in
    (Sock (drop m (sk_in k)) (sk_out k) (sk_connects k) l (sk_writes k), inr (take m (sk_in k)))
  end.

Definition sk_write (k : sock) (b : list Z) : sock * (Z + nat) :=
  match sk_writes k with
  | [] => (k, inl EAGAIN)
  | Errno e :: l => (Sock (sk_in k) (sk_out k) (sk_connects k) (sk_reads k) l, inl e)
  | Upto n :: l =>
    let m := (n `min` length b)%nat in
    (Sock (sk_in k) (sk_out k ++ take m b) (sk_connects k) (sk_reads k) l, inr m)
  end.

Record stream_vconn := Stream { st_sock : sock; st_rxbuf : option (list Z); st_txbuf : option (list Z) }.

Definition new_stream_vconn (k : sock) : stream_vconn := Stream k None None.

Definition stream_connect (s : stream_vconn) : option (stream_vconn * Z) :=
  let '(k, e) := sk_connect (st_sock s) in Some (Stream k (st_rxbuf s) (st_txbuf s), e).

(** The part after [again]; [n] turns at most. *)
Fixpoint stream_recv_loop (n : nat) (k : sock) (rx : list Z) (txbuf : option (list Z)) : option (stream_vconn * (Z + list Z)) :=
  match n with
  | O => None
  | S n =>
    let more want :=
      let '(k, r) := sk_read k want in
      match r with
      | inl e => Some (Stream k (Some rx) txbuf, inl e)
      | inr [] => Some (Stream k (Some rx) txbuf, inl (match rx with [] => EOF | _ => EPROTO end))
      | inr bs =>
        let rx := rx ++ bs in
        if Z.of_nat (length bs) =? want then
          if 8 <? Z.of_nat (length rx) then Some (Stream k None txbuf, inr rx) else stream_recv_loop n k rx txbuf
        else Some (Stream k (Some rx) txbuf, inl EAGAIN)
      end in
    if Z.of_nat (length rx) <? 8 then more (8 - Z.of_nat (length rx))
    else if oh_length rx <? 8 then Some (Stream k (Some rx) txbuf, inl EPROTO)
    else
      let want := u64 (oh_length rx - Z.of_nat (length rx)) in
      if want =? 0 then Some (Stream k None txbuf, inr rx) else more want
  end.

(** The header, and then at most the rest of the message or, for a message without one, a look at the length. *)
Definition RX_TURNS : nat := 2.

Definition stream_recv (s : stream_vconn) : option (stream_vconn * (Z + list Z)) :=
  stream_recv_loop RX_TURNS (st_sock s) (default [] (st_rxbuf s)) (st_txbuf s).

(** The callback for a socket that takes more, registered while there is a [txbuf]. *)
Definition stream_do_tx (s : stream_vconn) : stream_vconn :=
  match st_txbuf s with
  | None => s
  | Some b =>
    let '(k, n) := sk_write (st_sock s) b in
    match n with
    | inl e => Stream k (st_rxbuf s) (if negb (e =? EAGAIN) then None else Some b)
    | inr n => Stream k (st_rxbuf s) (match drop n b with [] => None | b => Some b end)
    end
  end.

Definition stream_send (s : stream_vconn) (b : list Z) : option (stream_vconn * Z) :=
  match st_txbuf s with
  | Some _ => Some (s, EAGAIN)
  | None =>
    let '(k, n) := sk_write (st_sock s) b in
    match n with
    | inr n => if Z.of_nat n =? Z.of_nat (length b) then Some (Stream k (st_rxbuf s) None, 0) else Some (Stream k (st_rxbuf s) (Some (drop n b)), 0)
    | inl e => if e =? EAGAIN then Some (Stream k (st_rxbuf s) (Some b), 0) else Some (Stream k (st_rxbuf s) None, e)
    end
  end.

#[global] Instance stream_vconn_class : vconn_class stream_vconn := {|
  vc_connect := stream_connect; vc_recv := stream_recv; vc_send := stream_send; vc_poll := stream_do_tx |}.

(** * Connections *)

Inductive vconn_state := VCS_CONNECTING | VCS_SEND_HELLO | VCS_RECV_HELLO | VCS_CONNECTED | VCS_SEND_ERROR | VCS_DISCONNECTED.

#[global] Instance vconn_state_eq : EqDecision vconn_state.
Proof. solve_decision. Defined.

(** The counters [ofps_total], [ofps_hello] and [ofps_error] (with those of its type and code) of [struct ofpstat]. *)
Record ofpstat := Ofpstat { ofps_total : Z; ofps_hello : Z; ofps_error : Z }.

Definition count_hello (c : ofpstat) : ofpstat := Ofpstat (u64 (ofps_total c + 1)) (u64 (ofps_hello c + 1)) (ofps_error c).
Definition count_error (c : ofpstat) : ofpstat := Ofpstat (u64 (ofps_total c + 1)) (ofps_hello c) (u64 (ofps_error c + 1)).

Record vconn (S : Type) := Vconn {
  v_class : S;
  v_state : vconn_state;
  v_error : Z;
  v_min_version : Z;
  v_version : Z;
  v_rcvd : ofpstat;
  v_sent : ofpstat }.
Arguments Vconn {S} _ _ _ _ _ _ _.
Arguments v_class {S} _.
Arguments v_state {S} _.
Arguments v_error {S} _.
Arguments v_min_version {S} _.
Arguments v_version {S} _.
Arguments v_rcvd {S} _.
Arguments v_sent {S} _.

(** [printf] of a number with [0x%02x]. *)
Fixpoint hex_digits (n : nat) (v : Z) (acc : list Z) : list Z :=
  match n with
  | O => acc
  | S n =>
    let d := Z.land v 0xf in
    let acc := (if d <? 10 then 48 + d else 87 + d) :: acc in
    if Z.shiftr v 4 =? 0 then acc else hex_digits n (Z.shiftr v 4) acc
  end.
Definition hex02 (v : Z) : list Z := let ds := hex_digits 8 (u32 v) [] in [48; 120] ++ match ds with [d] => [48; d] | _ => ds end.

Definition text (s : String.string) : list Z := (λ c, Z.of_N (Ascii.N_of_ascii c)) <$> String.list_ascii_of_string s.

Section vconn.
  Context {S : Type} `{vconn_class S}.
  (** random numbers for transaction ids; a bound for the turns of the loop that skips messages *)
  Context (xid_hello xid_error : Z) (turns : nat).

Definition set_class (v : vconn S) (s : S) : vconn S := Vconn s (v_state v) (v_error v) (v_min_version v) (v_version v) (v_rcvd v) (v_sent v).
Definition set_vstate (v : vconn S) (st : vconn_state) : vconn S := Vconn (v_class v) st (v_error v) (v_min_version v) (v_version v) (v_rcvd v) (v_sent v).
Definition set_version (v : vconn S) (version : Z) : vconn S := Vconn (v_class v) (v_state v) (v_error v) (v_min_version v) version (v_rcvd v) (v_sent v).
Definition failed (v : vconn S) (e : Z) : vconn S := Vconn (v_class v) VCS_DISCONNECTED e (v_min_version v) (v_version v) (v_rcvd v) (v_sent v).
Definition count_rcvd (v : vconn S) (f : ofpstat → ofpstat) : vconn S := Vconn (v_class v) (v_state v) (v_error v) (v_min_version v) (v_version v) (f (v_rcvd v)) (v_sent v).
Definition count_sent (v : vconn S) (f : ofpstat → ofpstat) : vconn S := Vconn (v_class v) (v_state v) (v_error v) (v_min_version v) (v_version v) (v_rcvd v) (f (v_sent v)).

Definition vconn_init (s : S) (connect_status : Z) : vconn S :=
  Vconn s (if connect_status =? EAGAIN then VCS_CONNECTING else if connect_status =? 0 then VCS_SEND_HELLO else VCS_DISCONNECTED)
    connect_status (-1) (-1) (Ofpstat 0 0 0) (Ofpstat 0 0 0).

(** [vconn_open], after the class has opened the connection. *)
Definition vconn_open (s : S) (connect_status min_version : Z) : vconn S :=
  let v := vconn_init s connect_status in Vconn (v_class v) (v_state v) (v_error v) min_version (v_version v) (v_rcvd v) (v_sent v).

Definition do_send (v : vconn S) (b : list Z) : option (vconn S * Z) :=
  if (Z.of_nat (length b) <? 8) || negb (oh_length b =? Z.of_nat (length b)) then None
  else '(s, retval) ← vc_send (v_class v) b; Some (set_class v s, retval).

Definition other_version_ok (type : Z) : bool :=
  (type =? OFPT_HELLO) || (type =? OFPT_ERROR) || (type =? OFPT_ECHO_REQUEST) || (type =? OFPT_ECHO_REPLY) || (type =? OFPT_EXPERIMENTER).
Definition asynchronous (type : Z) : bool := (type =? OFPT_PACKET_IN) || (type =? OFPT_FLOW_REMOVED) || (type =? OFPT_PORT_STATUS).

Fixpoint do_recv_loop (n : nat) (v : vconn S) : option (vconn S * (Z + list Z)) :=
  match n with
  | O => None
  | Datatypes.S n =>
    '(s, r) ← vc_recv (v_class v);
    let v := set_class v s in
    match r with
    | inl e => Some (v, inl e)
    | inr b =>
      if Z.of_nat (length b) <? 8 then None
      else if negb (oh_version b =? v_version v) && negb (other_version_ok (oh_type b)) then
        if (v_version v <? 0) && asynchronous (oh_type b) then do_recv_loop n v else Some (v, inl EPROTO)
      else Some (v, inr b)
    end
  end.
Definition do_recv (v : vconn S) : option (vconn S * (Z + list Z)) := do_recv_loop turns v.

Definition vcs_connecting (v : vconn S) : option (vconn S) :=
  '(s, retval) ← vc_connect (v_class v);
  let v := set_class v s in
  if retval =? EINPROGRESS then None
  else if retval =? 0 then Some (set_vstate v VCS_SEND_HELLO)
  else if negb (retval =? EAGAIN) then Some (failed v retval)
  else Some v.

Definition vcs_send_hello (v : vconn S) : option (vconn S) :=
  '(v, retval) ← do_send v (make_openflow 8 OFPT_HELLO xid_hello);
  if retval =? 0 then Some (set_vstate (count_sent v count_hello) VCS_RECV_HELLO)
  else if negb (retval =? EAGAIN) then Some (failed v retval)
  else Some v.

Definition vcs_recv_hello (v : vconn S) : option (vconn S) :=
  '(v, r) ← do_recv v;
  match r with
  | inr b =>
    if oh_type b =? OFPT_HELLO then
      let v := set_version v (Z.min OFP_VERSION (oh_version b)) in
      let v := if v_version v <? v_min_version v then set_vstate v VCS_SEND_ERROR else set_vstate v VCS_CONNECTED in
      Some (count_rcvd v count_hello)
    else Some (failed v EPROTO)
  | inl retval => if negb (retval =? EAGAIN) then Some (failed v retval) else Some v
  end.

(** The message of [vcs_send_error]. *)
Definition hello_failed (min_version version : Z) : list Z :=
  let s := text "We support versions "%string ++ hex02 min_version ++ text " to "%string ++ hex02 OFP_VERSION ++
             text " inclusive but you support no later than version "%string ++ hex02 version ++ text "."%string in
  update_openflow_length (take 8 (make_openflow 12 OFPT_ERROR xid_error) ++ be 2 OFPET_HELLO_FAILED ++ be 2 OFPHFC_INCOMPATIBLE ++ take 127 s).

Definition vcs_send_error (v : vconn S) : option (vconn S) :=
  '(v, retval) ← do_send v (hello_failed (v_min_version v) (v_version v));
  let v := if negb (retval =? 0) then count_sent v count_error else v in
  if negb (retval =? EAGAIN) then Some (failed v (if negb (retval =? 0) then retval else EPROTO)) else Some v.

(** The loop of [vconn_connect]: [n] turns at most. *)
Fixpoint connect_loop (n : nat) (v : vconn S) : option (vconn S * Z) :=
  match n with
  | O => None
  | Datatypes.S n =>
    let last_state := v_state v in
    let go v := v ← v; if bool_decide (v_state v = last_state) then Some (v, EAGAIN) else connect_loop n v in
    match v_state v with
    | VCS_CONNECTING => go (vcs_connecting v)
    | VCS_SEND_HELLO => go (vcs_send_hello v)
    | VCS_RECV_HELLO => go (vcs_recv_hello v)
    | VCS_CONNECTED => Some (v, 0)
    | VCS_SEND_ERROR => go (vcs_send_error v)
    | VCS_DISCONNECTED => Some (v, v_error v)
    end
  end.

(** Once through the states at most. *)
Definition CONNECT_TURNS : nat := 5.

Definition vconn_connect (v : vconn S) : option (vconn S * Z) :=
  if v_min_version v <? 0 then None else connect_loop CONNECT_TURNS v.

Definition vconn_recv (v : vconn S) : option (vconn S * (Z + list Z)) :=
  '(v, retval) ← vconn_connect v;
  if retval =? 0 then do_recv v else Some (v, inl retval).

Definition vconn_send (v : vconn S) (b : list Z) : option (vconn S * Z) :=
  '(v, retval) ← vconn_connect v;
  if retval =? 0 then do_send v b else Some (v, retval).
End vconn.
