(* ===== verification/WireCorrect.v ===== *)
(** What is packed is unpacked again: actions, instructions, buckets and meter bands. *)

From S2P Require Import Prelude Memory OpenFlow Group Meter Wire.

Lemma some_inj {A : Type} (a b : A) : Some a = Some b → a = b.
Proof. by intros [= ->]. Qed.

(** * Integers on the wire *)

Lemma be_length w v : length (be w v) = w.
Proof. unfold be. by rewrite length_rev, le_bytes_length. Qed.

Lemma be_read_be w v : fits (8 * Z.of_nat w) v → be_read (be w v) = v.
Proof. intros Hv. unfold be_read, be. rewrite rev_involutive, le_read_le_bytes. by apply wrap_small. Qed.

Lemma mread_in pre bs post off n :
  (off + n <= length bs)%nat → mread (pre ++ bs ++ post) (length pre + off) n = Some (take n (drop off bs)).
Proof.
  intros Hn. apply mread_Some. rewrite !length_app. split; [lia|].
  rewrite drop_app_add', drop_app_le, take_app_le; [done|rewrite length_drop; lia|lia|done].
Qed.

Lemma get_bytes_at pre bs post off n v :
  take n (drop off bs) = v → length v = n → (0 < n)%nat → get_bytes (pre ++ bs ++ post) (length pre + off) n = Val v.
Proof.
  intros Hv Hl Hn. unfold get_bytes. rewrite mread_in; [by rewrite Hv|].
  rewrite <- Hv, length_take, length_drop in Hl. lia.
Qed.

Lemma get_at pre bs post off w v :
  take w (drop off bs) = be w v → fits (8 * Z.of_nat w) v → (0 < w)%nat → get w (pre ++ bs ++ post) (length pre + off) = Val v.
Proof.
  intros Hv Hf Hw. unfold get. rewrite (get_bytes_at _ _ _ _ _ (be w v)) by (done || apply be_length). cbn. by rewrite be_read_be.
Qed.

Lemma get_first pre bs post w v :
  take w bs = be w v → fits (8 * Z.of_nat w) v → (0 < w)%nat → get w (pre ++ bs ++ post) (length pre) = Val v.
Proof. intros. rewrite <- (Nat.add_0_r (length pre)). by apply get_at. Qed.

(** Reading a field that was packed there. *)
Ltac read v :=
  lazymatch goal with
  | |- mbind _ (get ?w (?pre ++ ?bs ++ ?post) (length ?pre + ?o)) = _ => rewrite (get_at pre bs post o w v)
  | |- mbind _ (get ?w (?pre ++ ?bs ++ ?post) (length ?pre)) = _ => rewrite (get_first pre bs post w v)
  | |- context [mbind _ (get ?w (?pre ++ ?bs ++ ?post) (length ?pre + ?o))] => rewrite (get_at pre bs post o w v)
  | |- context [mbind _ (get ?w (?pre ++ ?bs ++ ?post) (length ?pre))] => rewrite (get_first pre bs post w v)
  | |- get ?w (?pre ++ ?bs ++ ?post) (length ?pre + ?o) = _ => rewrite (get_at pre bs post o w v)
  | |- get ?w (?pre ++ ?bs ++ ?post) (length ?pre) = _ => rewrite (get_first pre bs post w v)
  end; [cbn [mbind res_bind]|first [reflexivity | done | lia | by vm_compute]..].

(** * Elements and lists of them *)

(** An element can be packed, what is packed is unpacked again wherever it is, and its
    length is where the loops look for it.  [norm] is what unpacking makes of an element: the
    element itself, except that the fields of matches change their order. *)
Class Codec {A : Type} (pack : A → option (list Z)) (unpack : list Z → nat → Z → res (A * Z)) (off : nat) (least : Z)
    (ok : A → Prop) (norm : A → A) : Prop := {
  codec_pack : ∀ a, ok a → is_Some (pack a);
  codec_unpack : ∀ a bs pre post len, ok a → pack a = Some bs → Z.of_nat (length bs) <= len →
    unpack (pre ++ bs ++ post) (length pre) len = Val (norm a, len - Z.of_nat (length bs));
  codec_length : ∀ a bs pre post, ok a → pack a = Some bs →
    get 2 (pre ++ bs ++ post) (length pre + off) = Val (Z.of_nat (length bs)) ∧ least <= Z.of_nat (length bs) }.

Section codec.
  Context {A : Type} (pack : A → option (list Z)) (unpack : list Z → nat → Z → res (A * Z)) (off : nat) (least : Z).
  Context (ok : A → Prop) {norm : A → A} `{HC : !Codec pack unpack off least ok norm}.

Lemma pack_all_cons a l : pack_all pack (a :: l) = (bs ← pack a; rest ← pack_all pack l; Some (bs ++ rest)).
Proof using. unfold pack_all. cbn. destruct (pack a) as [bs|]; [|done]. cbn. by destruct (mapM pack l). Qed.

Lemma pack_all_some l : Forall ok l → is_Some (pack_all pack l).
Proof using HC.
  induction 1 as [|a l Ha _ [rest IH]]; [by eexists|]. rewrite pack_all_cons. destruct (codec_pack a Ha) as [bs ->]. cbn. rewrite IH. by eexists.
Qed.

Lemma count_roundtrip room chk e l bs fuel pre post extra :
  Forall ok l → pack_all pack l = Some bs → 0 < room <= least → chk <= least → 0 <= extra < room → (length bs < fuel)%nat →
  count_loop room chk off e fuel (pre ++ bs ++ post) (length pre) (Z.of_nat (length bs) + extra) = Val (length l).
Proof using HC.
  intros Hl. revert bs fuel pre. induction Hl as [|a l Ha _ IH]; intros bs fuel pre Hp Hr Hchk He Hf.
  { injection Hp as <-. destruct fuel; cbn [count_loop length]; rewrite (proj2 (Z.ltb_lt _ _)) by (cbn; lia); done. }
  rewrite pack_all_cons in Hp. destruct (pack a) as [b|] eqn:Eb; [|done]. cbn in Hp. destruct (pack_all pack l) as [rest|] eqn:Er; [|done].
  injection Hp as <-. destruct (codec_length a b pre (rest ++ post) Ha Eb) as [Hg Hle]. rewrite length_app in Hf |- *.
  destruct fuel as [|fuel]; [lia|]. cbn [count_loop]. rewrite (proj2 (Z.ltb_ge _ _)) by lia. rewrite <- app_assoc, Hg. cbn [mbind res_bind].
  rewrite (proj2 (Z.ltb_ge _ _)), (proj2 (Z.ltb_ge _ chk)) by lia. cbn [orb]. rewrite Nat2Z.id.
  replace (Z.of_nat (length b + length rest) + extra - Z.of_nat (length b)) with (Z.of_nat (length rest) + extra) by lia.
  rewrite <- length_app, (app_assoc pre), IH by (done || lia). done.
Qed.

Lemma loop_norm l bs pre post len :
  Forall ok l → pack_all pack l = Some bs → Z.of_nat (length bs) <= len →
  unpack_loop (unpack (pre ++ bs ++ post)) off (length l) (pre ++ bs ++ post) (length pre) len = Val (norm <$> l, len - Z.of_nat (length bs)).
Proof using HC.
  intros Hl. revert bs pre len. induction Hl as [|a l Ha _ IH]; intros bs pre len Hp Hlen.
  { injection Hp as <-. cbn. by rewrite Z.sub_0_r. }
  rewrite pack_all_cons in Hp. destruct (pack a) as [b|] eqn:Eb; [|done]. cbn in Hp. destruct (pack_all pack l) as [rest|] eqn:Er; [|done].
  injection Hp as <-. rewrite length_app in Hlen. cbn [unpack_loop length]. rewrite <- app_assoc.
  rewrite (codec_unpack a b pre (rest ++ post)) by (done || lia). cbn [mbind res_bind].
  destruct (codec_length a b pre (rest ++ post) Ha Eb) as [-> _]. cbn [mbind res_bind]. rewrite Nat2Z.id.
  rewrite <- length_app, (app_assoc pre), IH by (done || rewrite ?length_app; lia). cbn [mbind res_bind].
  do 2 f_equal. rewrite length_app. lia.
Qed.
End codec.

Lemma loop_roundtrip {A : Type} (pack : A → option (list Z)) unpack off least ok `{HC : !Codec pack unpack off least ok (λ a, a)} l bs pre post len :
  Forall ok l → pack_all pack l = Some bs → Z.of_nat (length bs) <= len →
  unpack_loop (unpack (pre ++ bs ++ post)) off (length l) (pre ++ bs ++ post) (length pre) len = Val (l, len - Z.of_nat (length bs)).
Proof. intros. rewrite (loop_norm pack unpack off least ok l bs) by done. by rewrite list_fmap_id. Qed.

(** * Meter bands *)

Definition band_ok (b : ofl_meter_band) : Prop :=
  fits 32 (band_rate b) ∧ fits 32 (band_burst_size b) ∧
  match b with BandDrop _ _ => True | BandDscpRemark _ _ prec_level => fits 8 prec_level | BandExperimenter _ _ id => fits 32 id end.

#[global] Instance band_codec : Codec ofl_structs_meter_band_pack ofl_structs_meter_band_unpack 2 12 band_ok (λ b, b).
Proof.
  split.
  - by eexists.
  - intros b bs pre post len (H1 & H2 & H3) [= <-] Hlen. unfold ofl_structs_meter_band_unpack. rewrite (proj2 (Z.ltb_ge _ _)) by (revert Hlen; by destruct b; lens).
    destruct b as [rate burst|rate burst x|rate burst x]; cbn [band_rate band_burst_size band_type] in *;
      [read 1|read 2|read 0xffff]; read 16; read rate; read burst; cbn [Z.eqb Pos.eqb]; [done|read x; done..].
  - intros b bs pre post Hb [= <-]. split; [|by destruct b]. destruct b; by read 16.
Qed.

(** * Actions *)

Definition field_ok (f : ofl_match_tlv) : Prop :=
  fits 32 (tlv_header f) ∧ OXM_LENGTH (tlv_header f) ∈ [1; 2; 3; 4; 6; 8; 16] ∧
  Z.of_nat (length (tlv_value f)) = OXM_LENGTH (tlv_header f) ∧
  tlv_header f ∉ [OXM_OF_IN_PORT; OXM_OF_IN_PHY_PORT; OXM_OF_METADATA; OXM_OF_IPV6_EXTHDR].

(** The actions the protocol allows. *)
Definition action_ok (a : ofl_action) : Prop :=
  match a with
  | ActOutput port max_len => fits 32 port ∧ fits 16 max_len ∧ port ≠ 0 ∧ (port <= OFPP_MAX ∨ OFPP_IN_PORT <= port) ∧ port ≠ OFPP_ANY
  | ActSetMplsTtl ttl | ActSetNwTtl ttl => fits 8 ttl
  | ActPushVlan t => t = ETH_TYPE_VLAN ∨ t = ETH_TYPE_VLAN_PBB
  | ActPushMpls t => t = ETH_TYPE_MPLS ∨ t = ETH_TYPE_MPLS_MCAST
  | ActPushPbb t => t = ETH_TYPE_PBB
  | ActPopMpls t => fits 16 t
  | ActSetQueue id => fits 32 id
  | ActGroup id => 0 <= id <= OFPG_MAX
  | ActSetField f => field_ok f
  | ActExperimenter _ => False
  | _ => True
  end.

Lemma swap_ok h v : OXM_LENGTH h ∈ [1; 2; 3; 4; 6; 8; 16] → ∃ v', swap_value h v = Some v' ∧ length v' = length v ∧ swap_value h v' = Some v.
Proof.
  intros Hl. unfold swap_value. repeat case_bool_decide.
  - by exists v.
  - exists (rev v). by rewrite length_rev, rev_involutive.
  - destruct (Z.eqb_spec (OXM_LENGTH h) 4) as [_|Hne].
    + destruct (keeps_order h); [by exists v|]. exists (rev v). by rewrite length_rev, rev_involutive.
    + exfalso. set_solver.
Qed.

Lemma round_up_bound n : n <= ROUND_UP n < n + 8 ∧ ROUND_UP n mod 8 = 0.
Proof. unfold ROUND_UP. split; [Z.div_mod_to_equations; lia|]. apply Z.mod_mul. lia. Qed.

Lemma round_up_id n : n mod 8 = 0 → ROUND_UP n = n.
Proof. unfold ROUND_UP. Z.div_mod_to_equations. lia. Qed.

Lemma oxm_length_bound h : 0 <= OXM_LENGTH h <= 255.
Proof.
  unfold OXM_LENGTH. assert (E : Z.land h 0xff = h mod 256) by (change 0xff with (Z.ones 8); by rewrite Z.land_ones).
  rewrite E. pose proof (Z.mod_pos_bound h 256 eq_refl). lia.
Qed.

(** The length of what is packed is the one that was computed. *)
Lemma action_len a bs : action_ok a → ofl_actions_pack a = Some bs → Z.of_nat (length bs) = ofl_actions_ofp_len a ∧ 8 <= ofl_actions_ofp_len a < 2 ^ 16 ∧ ofl_actions_ofp_len a mod 8 = 0.
Proof.
  intros Ha Hp. destruct a; cbn [ofl_actions_pack] in Hp; try (apply some_inj in Hp as <-; by cbn); [|done].
  destruct Ha as (Hh & Hl & Hv & _). destruct (swap_ok _ (tlv_value field) Hl) as (v & E & Elen & _). rewrite E in Hp. apply some_inj in Hp as <-.
  cbn [ofl_actions_ofp_len]. pose proof (round_up_bound (OXM_LENGTH (tlv_header field))) as [Hr Hm]. pose proof (oxm_length_bound (tlv_header field)).
  split_and!; [|lia|lia|rewrite <- Z.add_mod_idemp_r, Hm by lia; done].
  rewrite !length_app, !be_length, Elen. unfold zeros. rewrite length_replicate. lia.
Qed.

Lemma action_get_len a bs pre post :
  action_ok a → ofl_actions_pack a = Some bs → get 2 (pre ++ bs ++ post) (length pre + 2) = Val (ofl_actions_ofp_len a).
Proof.
  intros Ha Hp. destruct (action_len a bs Ha Hp) as (_ & Hb & _).
  destruct a; cbn [ofl_actions_pack] in Hp; try (apply some_inj in Hp as <-; by read 8 || by read 16); [|done].
  destruct (swap_value _ _) as [v|]; [|done]. apply some_inj in Hp as <-. apply get_at; [done| |lia]. cbn in *. unfold fits. lia.
Qed.

Lemma action_unpack a bs pre post len :
  action_ok a → ofl_actions_pack a = Some bs → Z.of_nat (length bs) <= len →
  ofl_actions_unpack (pre ++ bs ++ post) (length pre) len = Val (a, len - Z.of_nat (length bs)).
Proof.
  intros Ha Hp Hlen. destruct (action_len a bs Ha Hp) as (El & Hb & Hm).
  unfold ofl_actions_unpack. rewrite (proj2 (Z.ltb_ge _ _)) by lia. rewrite (action_get_len a bs) by done. cbn [mbind res_bind].
  rewrite (proj2 (Z.ltb_ge _ _)), Hm by lia. cbn [Z.eqb negb]. rewrite El. unfold unpack_action_body.
  destruct a; cbn [ofl_actions_pack act_type action_ok] in *; try (apply some_inj in Hp as <-).
  - destruct Ha as (H1 & H2 & H3 & H4 & H5). read 0. cbn [Z.eqb]. cbn [ofl_actions_ofp_len] in *. rewrite (proj2 (Z.ltb_ge _ _)) by lia. read port.
    rewrite (proj2 (Z.eqb_neq _ _) H3), (proj2 (Z.eqb_neq _ _) H5).
    assert ((OFPP_MAX <? port) && (port <? OFPP_IN_PORT) = false) as -> by (unfold OFPP_MAX, OFPP_IN_PORT in *; lia). cbn [orb]. by read max_len.
  - by read 11.
  - by read 12.
  - read 15. cbn [Z.eqb Pos.eqb]. by read mpls_ttl.
  - by read 16.
  - read 17. cbn [Z.eqb Pos.eqb orb]. destruct Ha as [-> | ->]; [read ETH_TYPE_VLAN|read ETH_TYPE_VLAN_PBB]; done.
  - by read 18.
  - read 19. cbn [Z.eqb Pos.eqb orb]. destruct Ha as [-> | ->]; [read ETH_TYPE_MPLS|read ETH_TYPE_MPLS_MCAST]; done.
  - read 20. cbn [Z.eqb Pos.eqb orb]. by read ethertype.
  - read 21. cbn [Z.eqb Pos.eqb orb]. by read queue_id.
  - read 22. cbn [Z.eqb Pos.eqb orb]. assert (fits 32 group_id) by (unfold fits, OFPG_MAX in *; lia). read group_id.
    by rewrite (proj2 (Z.ltb_ge _ _)) by lia.
  - read 23. cbn [Z.eqb Pos.eqb orb]. by read nw_ttl.
  - by read 24.
  - destruct Ha as (Hh & Hl & Hv & Hn). destruct (swap_ok _ (tlv_value field) Hl) as (v & E & Ev & E'). rewrite E in Hp. apply some_inj in Hp as <-.
    read 25. cbn [Z.eqb Pos.eqb orb]. unfold unpack_set_field. read (tlv_header field). rewrite bool_decide_false by done.
    rewrite (get_bytes_at _ _ _ _ _ v); [|..].
    + cbn [mbind res_bind]. rewrite E'. destruct field. by rewrite round_up_id.
    + change (take (Z.to_nat (OXM_LENGTH (tlv_header field))) (v ++ zeros (Z.to_nat (ROUND_UP (OXM_LENGTH (tlv_header field)) - OXM_LENGTH (tlv_header field)))) = v).
      apply take_app_length'. lia.
    + lia.
    + pose proof (oxm_length_bound (tlv_header field)). destruct (decide (OXM_LENGTH (tlv_header field) = 0)) as [E0|]; [rewrite E0 in Hl; set_solver|lia].
  - read 26. cbn [Z.eqb Pos.eqb orb]. subst. by read ETH_TYPE_PBB.
  - by read 27.
  - done.
Qed.

#[global] Instance action_codec : Codec ofl_actions_pack ofl_actions_unpack 2 4 action_ok (λ a, a).
Proof.
  split.
  - intros a Ha. destruct a; try (eexists; reflexivity); [|done]. destruct Ha as (_ & Hl & _). cbn. destruct (swap_ok _ (tlv_value field) Hl) as (v & -> & _). by eexists.
  - apply action_unpack.
  - intros a bs pre post Ha Hp. destruct (action_len a bs Ha Hp) as (El & Hb & _). rewrite El. split; [by apply action_get_len|lia].
Qed.

Lemma actions_len l bs :
  Forall action_ok l → pack_all ofl_actions_pack l = Some bs → Z.of_nat (length bs) = ofl_actions_ofp_total_len l ∧ ofl_actions_ofp_total_len l mod 8 = 0.
Proof.
  intros Hl. revert bs. induction Hl as [|a l Ha _ IH]; intros bs Hp; [apply some_inj in Hp as <-; done|].
  rewrite pack_all_cons in Hp. destruct (ofl_actions_pack a) as [b|] eqn:Eb; [|done]. cbn [mbind option_bind] in Hp.
  destruct (pack_all ofl_actions_pack l) as [rest|] eqn:Er; [|done]. apply some_inj in Hp as <-. destruct (IH rest eq_refl) as [IH1 IH2].
  destruct (action_len a b Ha Eb) as (E1 & _ & E2). change (ofl_actions_ofp_total_len (a :: l)) with (ofl_actions_ofp_len a + ofl_actions_ofp_total_len l).
  rewrite length_app. split; [lia|]. by rewrite Z.add_mod, E2, IH2 by lia.
Qed.

Lemma actions_unpack l bs pre post :
  Forall action_ok l → pack_all ofl_actions_pack l = Some bs →
  unpack_actions (pre ++ bs ++ post) (length pre) (Z.of_nat (length bs)) = Val (l, 0).
Proof.
  intros Hl Hp. unfold unpack_actions, ofl_utils_count_ofp_actions, turns. rewrite Nat2Z.id.
  rewrite <- (Z.add_0_r (Z.of_nat (length bs))) at 1.
  rewrite (count_roundtrip ofl_actions_pack ofl_actions_unpack 2 4 action_ok 4 4 OFPBAC_BAD_LEN l bs) by (done || lia). cbn [mbind res_bind].
  rewrite (loop_roundtrip ofl_actions_pack ofl_actions_unpack 2 4 action_ok l bs) by (done || lia). by rewrite Z.sub_diag.
Qed.

(** The actions behind a header. *)
Lemma actions_unpack_at l bs pre body head tail post k :
  Forall action_ok l → pack_all ofl_actions_pack l = Some bs → body = head ++ bs ++ tail → length head = k →
  unpack_actions (pre ++ body ++ post) (length pre + k) (ofl_actions_ofp_total_len l) = Val (l, 0).
Proof.
  intros Hl Hp -> <-. rewrite <- length_app, <- (proj1 (actions_len l bs Hl Hp)).
  replace (pre ++ (head ++ bs ++ tail) ++ post) with ((pre ++ head) ++ bs ++ tail ++ post) by (by rewrite <- !app_assoc).
  by apply actions_unpack.
Qed.

(** * Instructions *)

Definition instruction_ok (i : ofl_instruction) : Prop :=
  match i with
  | InstGotoTable table_id => 0 <= table_id < PIPELINE_TABLES
  | InstWriteMetadata metadata mask => fits 64 metadata ∧ fits 64 mask
  | InstWriteActions l | InstApplyActions l => Forall action_ok l ∧ 8 + ofl_actions_ofp_total_len l < 2 ^ 16
  | InstClearActions => True
  | InstMeter id => fits 32 id
  | InstExperimenter _ => False
  end.

Lemma pack_actions_some l : Forall action_ok l → ∃ bs, pack_all ofl_actions_pack l = Some bs.
Proof. intros Hl. apply (pack_all_some ofl_actions_pack ofl_actions_unpack 2 4 action_ok l Hl). Qed.

Lemma instruction_len i bs :
  instruction_ok i → ofl_structs_instructions_pack i = Some bs →
  Z.of_nat (length bs) = ofl_structs_instructions_ofp_len i ∧ 8 <= ofl_structs_instructions_ofp_len i < 2 ^ 16.
Proof.
  intros Hi Hp. destruct i as [| |l|l| | |]; cbn [ofl_structs_instructions_pack] in Hp; try (apply some_inj in Hp as <-; by cbn); [..|done].
  all: destruct Hi as [Hl Hb]; destruct (pack_actions_some l Hl) as [b Eb]; rewrite Eb in Hp; apply some_inj in Hp as <-.
  all: destruct (actions_len l b Hl Eb) as [El _]; cbn [ofl_structs_instructions_ofp_len inst_type]; rewrite !length_app, !be_length;
    unfold zeros; rewrite length_replicate; lia.
Qed.

Lemma instruction_get_len i bs pre post :
  instruction_ok i → ofl_structs_instructions_pack i = Some bs →
  get 2 (pre ++ bs ++ post) (length pre + 2) = Val (ofl_structs_instructions_ofp_len i).
Proof.
  intros Hi Hp. destruct (instruction_len i bs Hi Hp) as [_ Hb].
  destruct i as [| |l|l| | |]; cbn [ofl_structs_instructions_pack] in Hp; [..|done].
  3,4: destruct (pack_all ofl_actions_pack l) as [b|]; [|done].
  all: apply some_inj in Hp as <-; apply get_at; [done|unfold fits; lia|lia].
Qed.

Lemma instruction_unpack i bs pre post len :
  instruction_ok i → ofl_structs_instructions_pack i = Some bs → Z.of_nat (length bs) <= len →
  ofl_structs_instructions_unpack (pre ++ bs ++ post) (length pre) len = Val (i, len - Z.of_nat (length bs)).
Proof.
  intros Hi Hp Hlen. destruct (instruction_len i bs Hi Hp) as [El Hb]. unfold ofl_structs_instructions_unpack.
  rewrite (proj2 (Z.ltb_ge _ _)) by lia. rewrite (instruction_get_len i bs) by done. cbn [mbind res_bind].
  rewrite (proj2 (Z.ltb_ge _ _)) by lia. rewrite El.
  destruct i as [table_id|metadata mask|l|l| |meter_id|]; cbn [ofl_structs_instructions_pack inst_type instruction_ok] in *; [..|done].
  - apply some_inj in Hp as <-. read 1. cbn [Z.eqb Pos.eqb]. cbn [ofl_structs_instructions_ofp_len Z.ltb Z.compare Pos.compare Pos.compare_cont].
    assert (fits 8 table_id) by (unfold fits, PIPELINE_TABLES in *; lia). read table_id. rewrite (proj2 (Z.leb_gt _ _)) by (unfold PIPELINE_TABLES in *; lia). done.
  - apply some_inj in Hp as <-. destruct Hi as [H1 H2]. read 2. cbn [Z.eqb Pos.eqb]. cbn [ofl_structs_instructions_ofp_len Z.ltb Z.compare Pos.compare Pos.compare_cont].
    read metadata. by read mask.
  - destruct Hi as [Hl _]. destruct (pack_all ofl_actions_pack l) as [b|] eqn:Eb; [|done]. apply some_inj in Hp as <-. read 3. cbn [Z.eqb Pos.eqb orb].
    cbn [ofl_structs_instructions_ofp_len] in *. rewrite (proj2 (Z.ltb_ge _ _)) by lia. rewrite Z.add_simpl_l.
    rewrite (actions_unpack_at l b pre _ (be 2 3 ++ be 2 (8 + ofl_actions_ofp_total_len l) ++ zeros 4) []) by (done || by rewrite app_nil_r). done.
  - destruct Hi as [Hl _]. destruct (pack_all ofl_actions_pack l) as [b|] eqn:Eb; [|done]. apply some_inj in Hp as <-. read 4. cbn [Z.eqb Pos.eqb orb].
    cbn [ofl_structs_instructions_ofp_len] in *. rewrite (proj2 (Z.ltb_ge _ _)) by lia. rewrite Z.add_simpl_l.
    rewrite (actions_unpack_at l b pre _ (be 2 4 ++ be 2 (8 + ofl_actions_ofp_total_len l) ++ zeros 4) []) by (done || by rewrite app_nil_r). done.
  - apply some_inj in Hp as <-. by read 5.
  - apply some_inj in Hp as <-. read 6. cbn [Z.eqb Pos.eqb orb]. cbn [ofl_structs_instructions_ofp_len Z.ltb Z.compare Pos.compare Pos.compare_cont]. by read meter_id.
Qed.

#[global] Instance instruction_codec : Codec ofl_structs_instructions_pack ofl_structs_instructions_unpack 2 8 instruction_ok (λ i, i).
Proof.
  split.
  - intros i Hi. destruct i as [| |l|l| | |]; try (eexists; reflexivity); [..|done]; destruct Hi as [Hl _];
      destruct (pack_actions_some l Hl) as [b Eb]; cbn; rewrite Eb; eexists; reflexivity.
  - apply instruction_unpack.
  - intros i bs pre post Hi Hp. destruct (instruction_len i bs Hi Hp) as [El Hb]. rewrite El. split; [by apply instruction_get_len|lia].
Qed.

(** * Buckets *)

Definition bucket_ok (gtype : Z) (b : ofl_bucket) : Prop :=
  fits 16 (b_weight b) ∧ (gtype = OFPGT_SELECT ↔ 0 < b_weight b) ∧ fits 32 (b_watch_port b) ∧ fits 32 (b_watch_group b) ∧
  Forall action_ok (b_actions b) ∧ 16 + ofl_actions_ofp_total_len (b_actions b) < 2 ^ 16.

Lemma bucket_pack gtype b :
  bucket_ok gtype b → ∃ bs, pack_all ofl_actions_pack (b_actions b) = Some bs ∧
    ofl_structs_bucket_pack b = Some (be 2 (16 + ofl_actions_ofp_total_len (b_actions b)) ++ be 2 (b_weight b) ++ be 4 (b_watch_port b) ++
      be 4 (b_watch_group b) ++ zeros 4 ++ bs ++ zeros 0) ∧ Z.of_nat (length bs) = ofl_actions_ofp_total_len (b_actions b).
Proof.
  intros (_ & _ & _ & _ & Hl & _). destruct (pack_actions_some _ Hl) as [bs E]. exists bs. destruct (actions_len _ _ Hl E) as [E1 E2].
  split_and!; [done| |done]. unfold ofl_structs_bucket_pack. rewrite E. cbn [mbind option_bind].
  assert ((16 + ofl_actions_ofp_total_len (b_actions b)) mod 8 = 0) as -> by (by rewrite Z.add_mod, E2 by lia). cbn [Z.eqb]. by rewrite Z.add_0_r.
Qed.

#[global] Instance bucket_codec gtype : Codec ofl_structs_bucket_pack (λ buf, ofl_structs_bucket_unpack buf gtype) 0 16 (bucket_ok gtype) (λ b, b).
Proof.
  split.
  - intros b Hb. destruct (bucket_pack gtype b Hb) as (bs & _ & -> & _). by eexists.
  - intros b bs0 pre post len Hb Hp Hlen. destruct (bucket_pack gtype b Hb) as (bs & E & Ep & El). rewrite Ep in Hp. apply some_inj in Hp as <-.
    destruct Hb as (H1 & H2 & H3 & H4 & Hl & H5). rewrite !length_app, !be_length in Hlen. unfold zeros in Hlen. rewrite !length_replicate in Hlen.
    assert (0 <= ofl_actions_ofp_total_len (b_actions b)) by lia.
    unfold ofl_structs_bucket_unpack. rewrite (proj2 (Z.ltb_ge _ _)) by lia.
    assert (fits 16 (16 + ofl_actions_ofp_total_len (b_actions b))) by (unfold fits; lia).
    read (16 + ofl_actions_ofp_total_len (b_actions b)). rewrite (proj2 (Z.ltb_ge _ _)) by lia. read (b_weight b).
    assert ((gtype =? OFPGT_SELECT) && (b_weight b =? 0) = false) as ->.
    { destruct (Z.eqb_spec gtype OFPGT_SELECT); [|done]. destruct (Z.eqb_spec (b_weight b) 0); [|done]. exfalso. lia. }
    assert (negb (gtype =? OFPGT_SELECT) && (0 <? b_weight b) = false) as ->.
    { destruct (Z.eqb_spec gtype OFPGT_SELECT); [done|]. destruct (Z.ltb_spec 0 (b_weight b)); [|done]. exfalso. by apply n, H2. }
    read (b_watch_port b). read (b_watch_group b). rewrite Z.add_simpl_l.
    rewrite (actions_unpack_at (b_actions b) bs pre _ (be 2 (16 + ofl_actions_ofp_total_len (b_actions b)) ++ be 2 (b_weight b) ++
      be 4 (b_watch_port b) ++ be 4 (b_watch_group b) ++ zeros 4) (zeros 0)) by done.
    cbn [mbind res_bind Z.leb Z.compare]. replace (Bucket (b_weight b) (b_watch_port b) (b_watch_group b) (b_actions b)) with b by (by destruct b). do 2 f_equal. rewrite !length_app, !be_length. unfold zeros. rewrite !length_replicate. lia.
  - intros b bs0 pre post Hb Hp. destruct (bucket_pack gtype b Hb) as (bs & E & Ep & El). rewrite Ep in Hp. apply some_inj in Hp as <-.
    destruct Hb as (_ & _ & _ & _ & _ & H5). rewrite !length_app, !be_length. unfold zeros. rewrite !length_replicate.
    assert (0 <= ofl_actions_ofp_total_len (b_actions b)) by lia. split; [|lia].
    replace (Z.of_nat _) with (16 + ofl_actions_ofp_total_len (b_actions b)) by lia. apply get_at; [done|unfold fits; lia|lia].
Qed.
