(* ===== verification/VconnCorrect.v ===== *)
(** Theorems about Vconn.v: stream sockets carry messages whole and in order however [read] and [write] cut them, and a
    connection over any class that does so settles on a version and passes on what the abstract specification says. *)

From S2P Require Import Prelude Memory OpenFlow Wire Rconn Vconn WireCorrect.

(** * Messages in a sequence of bytes *)

(** A message: a header at least, with the right length in it. *)
Definition message (b : list Z) : Prop := (8 <= length b)%nat ∧ oh_length b = Z.of_nat (length b) ∧ bytes b.

Definition complete (bs : list Z) : bool :=
  (8 <=? Z.of_nat (length bs)) && (8 <=? oh_length bs) && (oh_length bs <=? Z.of_nat (length bs)).

(** The reference: the messages at the front of a sequence of bytes, up to a length below that of a header or a message that is not complete. *)
Fixpoint frames (n : nat) (bs : list Z) : list (list Z) :=
  match n with
  | O => []
  | S n =>
    if complete bs then let len := Z.to_nat (oh_length bs) in take len bs :: frames n (drop len bs) else []
  end.
Definition framed (bs : list Z) : list (list Z) := frames (length bs) bs.

Lemma oh_length_app b c : (4 <= length b)%nat → oh_length (b ++ c) = oh_length b.
Proof. intros. unfold oh_length. rewrite drop_app_le, take_app_le by (rewrite ?length_drop; lia). done. Qed.

Lemma oh_length_fits b : bytes b → fits 16 (oh_length b).
Proof.
  intros Hb. unfold oh_length, be_read, fits.
  assert (bytes (rev (take 2 (drop 2 b)))) as Hr by (apply Forall_rev, Forall_take, Forall_drop, Hb).
  pose proof (le_read_bound _ Hr) as Hx. split; [lia|]. eapply Z.lt_le_trans; [apply Hx|]. apply Z.pow_le_mono_r; [lia|].
  rewrite length_rev, length_take. lia.
Qed.

Lemma frames_more n m bs : (length bs <= n)%nat → (length bs <= m)%nat → frames n bs = frames m bs.
Proof.
  revert m bs. induction n as [|n IH]; intros [|m] bs Hn Hm; cbn [frames]; try done.
  - destruct bs; [done|cbn in *; lia].
  - destruct bs; [done|cbn in *; lia].
  - destruct (complete bs) eqn:E; [|done]. f_equal. unfold complete in E. apply IH; rewrite length_drop; lia.
Qed.

Lemma framed_unfold bs :
  framed bs = if complete bs then take (Z.to_nat (oh_length bs)) bs :: framed (drop (Z.to_nat (oh_length bs)) bs) else [].
Proof.
  unfold framed. destruct bs as [|b bs]; [done|]. cbn [length frames]. destruct (complete (b :: bs)) eqn:E; [|done].
  f_equal. unfold complete in E. apply frames_more; rewrite ?length_drop; cbn [length] in *; lia.
Qed.

Lemma framed_message m bs : message m → framed (m ++ bs) = m :: framed bs.
Proof.
  intros (H8 & Hl & _). rewrite framed_unfold. unfold complete. rewrite oh_length_app, Hl, length_app by lia.
  case_match eqn:E; [by rewrite Nat2Z.id, take_app_length, drop_app_length|].
  rewrite !andb_false_iff, !Z.leb_gt in E. lia.
Qed.

Lemma framed_concat ms : Forall message ms → framed (concat ms) = ms.
Proof. induction 1 as [|m ms Hm _ IH]; [done|]. cbn [concat]. by rewrite framed_message, IH. Qed.

(** What is behind complete messages does not matter, as long as they end with a message. *)
Lemma framed_app ms bs : Forall message ms → framed (concat ms ++ bs) = ms ++ framed bs.
Proof. induction 1 as [|m ms Hm _ IH]; [done|]. cbn [concat app]. by rewrite <- app_assoc, framed_message, IH. Qed.

(** * What a class promises *)

(** The messages that the peer has sent and that were not received yet, those that were accepted for sending, and what holds
    of a connection in order. *)
Class carries (S : Type) `{vconn_class S} := Carries {
  vc_ok : S → Prop;
  inbox : S → list (list Z);
  outbox : S → list (list Z);
  carries_connect s : vc_ok s → ∃ s' e, vc_connect s = Some (s', e) ∧ e ≠ EINPROGRESS ∧
    vc_ok s' ∧ inbox s' = inbox s ∧ outbox s' = outbox s;
  carries_recv s : vc_ok s → ∃ s' r, vc_recv s = Some (s', r) ∧ vc_ok s' ∧ outbox s' = outbox s ∧
    match r with
    | inl e => e ≠ 0 ∧ inbox s' = inbox s
    | inr b => message b ∧ inbox s = b :: inbox s'
    end;
  carries_send s b : vc_ok s → message b → ∃ s' e, vc_send s b = Some (s', e) ∧ vc_ok s' ∧ inbox s' = inbox s ∧
    outbox s' = outbox s ++ (if e =? 0 then [b] else []);
  carries_poll s : vc_ok s → vc_ok (vc_poll s) ∧ inbox (vc_poll s) = inbox s ∧ outbox (vc_poll s) = outbox s }.

(** * Stream sockets *)

(** The part of a message that has been read. *)
Definition rx_ok (rx : list Z) : Prop := (length rx < 8)%nat ∨ oh_length rx < 8 ∨ Z.of_nat (length rx) < oh_length rx.

Definition error_ok (a : io) : Prop := match a with Errno e => e ≠ 0 | Upto _ => True end.
Definition write_ok (a : io) : Prop := match a with Errno e => e = EAGAIN | Upto _ => True end.

Definition stream_in (s : stream_vconn) : list Z := default [] (st_rxbuf s) ++ sk_in (st_sock s).
Definition stream_out (s : stream_vconn) : list Z := sk_out (st_sock s) ++ default [] (st_txbuf s).

(** No [write] fails for good; what was written and what is kept are whole messages. *)
Record stream_ok (s : stream_vconn) : Prop := StreamOk {
  sn_rx : rx_ok (default [] (st_rxbuf s));
  sn_bytes : bytes (stream_in s);
  sn_out : ∃ ms, Forall message ms ∧ stream_out s = concat ms;
  sn_connects : Forall (λ e, e ≠ EINPROGRESS) (sk_connects (st_sock s));
  sn_reads : Forall error_ok (sk_reads (st_sock s));
  sn_writes : Forall write_ok (sk_writes (st_sock s)) }.

(** The members that receiving leaves alone. *)
Definition same_out (k k' : sock) : Prop :=
  sk_out k' = sk_out k ∧ sk_connects k' = sk_connects k ∧ sk_writes k' = sk_writes k ∧ ∃ l, sk_reads k = l ++ sk_reads k'.

Lemma same_out_refl k : same_out k k.
Proof. repeat split. by exists []. Qed.
Lemma same_out_trans k1 k2 k3 : same_out k1 k2 → same_out k2 k3 → same_out k1 k3.
Proof. intros (? & ? & ? & l & E) (? & ? & ? & l' & E'). repeat split; try congruence. exists (l ++ l'). by rewrite E, E', app_assoc. Qed.

Lemma sk_read_spec k want k' r : 0 < want → sk_read k want = (k', r) →
  same_out k k' ∧
  match r with
  | inl e => sk_in k' = sk_in k ∧ (e = EAGAIN ∧ sk_reads k' = [] ∨ Errno e ∈ sk_reads k)
  | inr bs => sk_in k = bs ++ sk_in k' ∧ Z.of_nat (length bs) <= want ∧ (bs = [] → sk_in k = [])
  end.
Proof.
  intros Hw. unfold sk_read, same_out. destruct (sk_reads k) as [|[n|e] l] eqn:E; intros [= <- <-]; cbn [sk_in sk_out sk_connects sk_reads sk_writes].
  - rewrite E. split; [repeat split; by exists []|auto].
  - split; [repeat split; by exists [Upto n]|]. rewrite take_drop, length_take. split; [done|]. split; [lia|].
    intros Ht. destruct (sk_in k); [done|]. by replace (Z.to_nat _) with (S (pred (Z.to_nat (Z.min (Z.of_nat (S n)) want)))) in Ht by lia.
  - split; [repeat split; by exists [Errno e]|]. split; [done|]. right. set_solver.
Qed.

(** What receiving does to the bytes, and when it makes no progress. *)
Definition recv_spec (k : sock) (rx : list Z) (tx : option (list Z)) (s' : stream_vconn) (r : Z + list Z) : Prop :=
  same_out k (st_sock s') ∧ st_txbuf s' = tx ∧
  match r with
  | inl e => stream_in s' = rx ++ sk_in k ∧ rx_ok (default [] (st_rxbuf s')) ∧ e ≠ 0 ∧
      ((length (sk_in (st_sock s')) < length (sk_in k))%nat ∨ framed (rx ++ sk_in k) = [] ∨ e = EAGAIN ∧ sk_reads (st_sock s') = [] ∨ Errno e ∈ sk_reads k)
  | inr b => st_rxbuf s' = None ∧ message b ∧ rx ++ sk_in k = b ++ sk_in (st_sock s')
  end.

Lemma not_complete bs : complete bs = false → framed bs = [].
Proof. intros E. by rewrite framed_unfold, E. Qed.

(** From a header on: the rest of the message is read, or the message is there. *)
Lemma recv_rest n k rx tx : bytes (rx ++ sk_in k) → Forall error_ok (sk_reads k) → (8 <= length rx)%nat → (length rx = 8%nat ∨ rx_ok rx) →
  ∃ s' r, stream_recv_loop (S n) k rx tx = Some (s', r) ∧ recv_spec k rx tx s' r.
Proof.
  intros Hb He H8 Hrx. apply list.Forall_app in Hb as [Hb Hb'].
  pose proof (oh_length_fits rx Hb) as Hf. unfold fits in Hf. change (2 ^ 16) with 65536 in Hf.
  cbn [stream_recv_loop]. destruct (Z.ltb_spec (Z.of_nat (length rx)) 8); [lia|].
  destruct (Z.ltb_spec (oh_length rx) 8) as [Hs|Hs].
  { eexists _, _. split; [done|]. split; [apply same_out_refl|]. split; [done|]. cbn [st_rxbuf st_sock from_option]. unfold stream_in, id. split; [done|]. split; [right; by left|]. split; [done|].
    right. left. apply not_complete. unfold complete. rewrite oh_length_app by lia. rewrite !andb_false_iff, !Z.leb_gt. lia. }
  assert (Z.of_nat (length rx) <= oh_length rx) as Hle by (unfold rx_ok in Hrx; lia).
  replace (u64 _) with (oh_length rx - Z.of_nat (length rx)) by (unfold u64, wrap; rewrite Z.mod_small; lia).
  destruct (Z.eqb_spec (oh_length rx - Z.of_nat (length rx)) 0) as [E|E].
  { eexists _, _. split; [done|]. split; [apply same_out_refl|]. repeat split; try done; lia. }
  destruct (sk_read k _) as [k' r] eqn:Er. apply sk_read_spec in Er as [Hk Hr]; [|lia]. destruct r as [e|[|b bs]].
  - destruct Hr as [Hi Hr]. eexists _, _. split; [done|]. split; [done|]. split; [done|]. unfold stream_in. cbn [st_rxbuf st_sock from_option]. unfold id. rewrite Hi.
    split; [done|]. split; [right; right; lia|]. split; [|tauto]. destruct Hr as [[-> _]|Hr]; [done|]. by apply (list.Forall_forall error_ok (sk_reads k)) in Hr.
  - destruct Hr as (Hi & _ & Hn). eexists _, _. split; [done|]. split; [done|]. split; [done|]. unfold stream_in. cbn [st_rxbuf st_sock from_option]. unfold id. cbn [app] in Hi. rewrite <- Hi.
    split; [done|]. split; [right; right; lia|]. split; [by destruct rx|]. right. left. apply not_complete. rewrite Hn by done. rewrite app_nil_r.
    unfold complete. rewrite !andb_false_iff, !Z.leb_gt. lia.
  - destruct Hr as (Hi & Hl & _). set (c := b :: bs) in *. assert (0 < Z.of_nat (length c)) by (unfold c; cbn [length]; lia).
    destruct (Z.eqb_spec (Z.of_nat (length c)) (oh_length rx - Z.of_nat (length rx))) as [El|El].
    + rewrite length_app. destruct (Z.ltb_spec 8 (Z.of_nat (length rx + length c))); [|lia]. eexists _, _. split; [done|]. split; [done|]. split; [done|].
      split; [done|]. split; [|cbn [st_sock]; by rewrite Hi, app_assoc]. split; [rewrite length_app; lia|]. rewrite oh_length_app, length_app by lia. split; [lia|].
      rewrite Hi in Hb'. apply list.Forall_app in Hb' as [Hc _]. by apply list.Forall_app.
    + eexists _, _. split; [done|]. split; [done|]. split; [done|]. unfold stream_in. cbn [st_rxbuf st_sock from_option]. unfold id. rewrite Hi. split; [by rewrite app_assoc|].
      split; [right; right; rewrite oh_length_app, length_app by lia; lia|]. split; [done|]. left. rewrite length_app. lia.
Qed.

(** The bytes read in the first turn belong to the second. *)
Lemma recv_spec_before k k' rx bs tx s' r : same_out k k' → sk_in k = bs ++ sk_in k' → recv_spec k' (rx ++ bs) tx s' r → recv_spec k rx tx s' r.
Proof.
  intros Hk Hi (Hs & Ht & Hr). split; [by eapply same_out_trans|]. split; [done|]. rewrite Hi. destruct r as [e|b].
  - destruct Hr as (E & Ho & He & Hp). rewrite <- app_assoc in E, Hp. split; [done|]. split; [done|]. split; [done|]. destruct Hp as [?|[?|[?|?]]].
    + left. rewrite length_app. lia.
    + right. by left.
    + right. right. by left.
    + right. right. right. destruct Hk as (_ & _ & _ & l & ->). set_solver.
  - by rewrite <- app_assoc in Hr.
Qed.

Lemma stream_recv_ok s : stream_ok s →
  ∃ s' r, stream_recv s = Some (s', r) ∧ recv_spec (st_sock s) (default [] (st_rxbuf s)) (st_txbuf s) s' r.
Proof.
  intros [Hrx Hb _ _ He _]. unfold stream_recv, stream_in in *. set (rx := default [] (st_rxbuf s)) in *. set (k := st_sock s) in *. clearbody rx k.
  destruct (decide (8 <= length rx)%nat) as [H8|H8]; [by apply recv_rest; [..|right]|].
  unfold RX_TURNS. remember 1%nat as n1 eqn:En1. cbn [stream_recv_loop]. destruct (Z.ltb_spec (Z.of_nat (length rx)) 8); [|lia].
  destruct (sk_read k _) as [k' r] eqn:Er. apply sk_read_spec in Er as [Hk Hr]; [|lia]. destruct r as [e|[|b bs]].
  - destruct Hr as [Hi Hr]. eexists _, _. split; [done|]. split; [done|]. split; [done|]. unfold stream_in. cbn [st_rxbuf st_sock from_option]. unfold id. rewrite Hi.
    split; [done|]. split; [done|]. split; [|tauto]. destruct Hr as [[-> _]|Hr]; [done|]. by apply (list.Forall_forall error_ok (sk_reads k)) in Hr.
  - destruct Hr as (Hi & _ & Hn). eexists _, _. split; [done|]. split; [done|]. split; [done|]. unfold stream_in. cbn [st_rxbuf st_sock from_option]. unfold id. cbn [app] in Hi.
    rewrite <- Hi. split; [done|]. split; [done|]. split; [by destruct rx|]. right. left. apply not_complete. rewrite Hn by done. rewrite app_nil_r.
    unfold complete. rewrite !andb_false_iff, !Z.leb_gt. lia.
  - destruct Hr as (Hi & Hl & _). set (c := b :: bs) in *. assert (0 < Z.of_nat (length c)) by (unfold c; cbn [length]; lia).
    destruct (Z.eqb_spec (Z.of_nat (length c)) (8 - Z.of_nat (length rx))) as [El|El].
    + rewrite length_app. destruct (Z.ltb_spec 8 (Z.of_nat (length rx + length c))); [lia|].
      assert (length (rx ++ c) = 8%nat) as H8' by (rewrite length_app; lia).
      destruct (recv_rest 0 k' (rx ++ c) (st_txbuf s)) as (s' & r & E & Hr); [by rewrite <- app_assoc, <- Hi| |lia|by left|].
      { destruct Hk as (_ & _ & _ & l & Ek). rewrite Ek in He. by apply list.Forall_app in He as [_ ?]. }
      exists s', r. split; [by subst n1|]. by eapply recv_spec_before.
    + eexists _, _. split; [done|]. split; [done|]. split; [done|]. unfold stream_in. cbn [st_rxbuf st_sock from_option]. unfold id. rewrite Hi.
      split; [by rewrite app_assoc|]. split; [left; rewrite length_app; lia|]. split; [done|]. left. rewrite length_app. lia.
Qed.

(** ** Keeping the connection in order *)

Lemma same_out_ok s s' : stream_ok s → same_out (st_sock s) (st_sock s') → st_txbuf s' = st_txbuf s →
  rx_ok (default [] (st_rxbuf s')) → bytes (stream_in s') → stream_ok s'.
Proof.
  intros [_ _ Ho Hc Hr Hw] (E1 & E2 & E3 & l & E4) Et Hrx Hb. split; [done|done|..].
  - unfold stream_out in *. by rewrite E1, Et.
  - by rewrite E2.
  - rewrite E4 in Hr. by apply list.Forall_app in Hr as [_ ?].
  - by rewrite E3.
Qed.

Lemma stream_recv_carries s : stream_ok s → ∃ s' r, stream_recv s = Some (s', r) ∧ stream_ok s' ∧ stream_out s' = stream_out s ∧
  match r with
  | inl e => e ≠ 0 ∧ framed (stream_in s') = framed (stream_in s)
  | inr b => message b ∧ framed (stream_in s) = b :: framed (stream_in s')
  end.
Proof.
  intros H. destruct (stream_recv_ok s H) as (s' & r & E & Hs & Ht & Hr). exists s', r. split; [done|].
  assert (stream_out s' = stream_out s) as Ho by (unfold stream_out; destruct Hs as (E1 & _); by rewrite E1, Ht).
  destruct r as [e|b].
  - destruct Hr as (Ei & Hrx & He & _). split; [eapply same_out_ok; eauto; rewrite Ei; apply H|]. rewrite Ei. done.
  - destruct Hr as (En & Hm & Ei). assert (stream_in s' = sk_in (st_sock s')) as Ei' by (unfold stream_in; by rewrite En).
    split; [|split; [done|]; split; [done|]; rewrite Ei'; unfold stream_in at 1; rewrite Ei; by apply framed_message].
    eapply same_out_ok; eauto; [rewrite En; left; cbn; lia|]. pose proof (sn_bytes s H) as Hb. unfold stream_in in Hb at 1. rewrite Ei in Hb. rewrite Ei'. by apply list.Forall_app in Hb as [_ ?].
Qed.

Lemma sk_write_spec k b k' r : sk_write k b = (k', r) →
  sk_in k' = sk_in k ∧ sk_connects k' = sk_connects k ∧ sk_reads k' = sk_reads k ∧ (∃ l, sk_writes k = l ++ sk_writes k') ∧
  match r with
  | inl e => sk_out k' = sk_out k ∧ (e = EAGAIN ∨ Errno e ∈ sk_writes k)
  | inr m => sk_out k' = sk_out k ++ take m b ∧ (m <= length b)%nat
  end.
Proof.
  unfold sk_write. destruct (sk_writes k) as [|[n|e] l] eqn:E; intros [= <- <-]; cbn [sk_in sk_out sk_connects sk_reads sk_writes]; repeat split; eauto.
  - rewrite E. by exists [].
  - by exists [Upto n].
  - lia.
  - by exists [Errno e].
  - right. set_solver.
Qed.

(** Writing moves bytes of what is to be sent from the buffer to the socket. *)
Lemma write_ok_keeps s k' tx' ms : stream_ok s → sk_in k' = sk_in (st_sock s) → sk_connects k' = sk_connects (st_sock s) → sk_reads k' = sk_reads (st_sock s) →
  (∃ l, sk_writes (st_sock s) = l ++ sk_writes k') → Forall message ms → sk_out k' ++ default [] tx' = concat ms → stream_ok (Stream k' (st_rxbuf s) tx').
Proof.
  intros [Hrx Hb _ Hc Hr Hw] E1 E2 E3 [l E4] Hm Ho. split; cbn [st_rxbuf st_txbuf st_sock]; unfold stream_in, stream_out in *; cbn [st_rxbuf st_txbuf st_sock].
  - done.
  - by rewrite E1.
  - by exists ms.
  - by rewrite E2.
  - by rewrite E3.
  - rewrite E4 in Hw. by apply list.Forall_app in Hw as [_ ?].
Qed.

Lemma write_error e s : stream_ok s → e = EAGAIN ∨ Errno e ∈ sk_writes (st_sock s) → e = EAGAIN.
Proof. intros H [->|He]; [done|]. pose proof (sn_writes s H) as Hw. rewrite list.Forall_forall in Hw. by apply (Hw (Errno e)). Qed.

Lemma concat_snoc (ms : list (list Z)) b : concat (ms ++ [b]) = concat ms ++ b.
Proof. by rewrite concat_app; cbn [concat]; rewrite app_nil_r. Qed.

Lemma stream_send_carries s b : stream_ok s → message b → ∃ s' e, stream_send s b = Some (s', e) ∧ stream_ok s' ∧ stream_in s' = stream_in s ∧
  stream_out s' = stream_out s ++ (if e =? 0 then b else []).
Proof.
  intros H Hb. destruct (sn_out s H) as (ms & Hm & Eo). unfold stream_send, stream_out in *. destruct (st_txbuf s) as [t|] eqn:Et.
  { exists s, EAGAIN. change (EAGAIN =? 0) with false. by rewrite Et, app_nil_r. }
  cbn [from_option] in Eo. rewrite app_nil_r in Eo. destruct (sk_write _ _) as [k' r] eqn:Ew. apply sk_write_spec in Ew as (E1 & E2 & E3 & E4 & Er).
  assert (Forall message (ms ++ [b])) as Hm' by (apply list.Forall_app; split; [done|by constructor]).
  destruct r as [e|m].
  - destruct Er as [Er He]. apply (write_error e s H) in He as ->. change (EAGAIN =? EAGAIN) with true. eexists _, _. split; [done|].
    unfold stream_in. cbn [st_sock st_rxbuf st_txbuf from_option]. unfold id. rewrite E1, Er. cbn [from_option]. rewrite app_nil_r. split; [|done].
    eapply write_ok_keeps; eauto. cbn [from_option]. unfold id. by rewrite Er, Eo, concat_snoc.
  - destruct Er as [Er Hl]. destruct (Z.eqb_spec (Z.of_nat m) (Z.of_nat (length b))) as [El|El]; eexists _, _; (split; [done|]);
      unfold stream_in; cbn [st_sock st_rxbuf st_txbuf from_option]; unfold id; rewrite E1, Er; cbn [from_option]; rewrite ?app_nil_r.
    + rewrite take_ge by lia. split; [|done]. eapply write_ok_keeps; eauto. cbn [from_option]. by rewrite app_nil_r, Er, Eo, take_ge, concat_snoc by lia.
    + rewrite <- app_assoc, take_drop. split; [|done]. eapply write_ok_keeps; eauto. cbn [from_option]. unfold id. by rewrite Er, Eo, <- app_assoc, take_drop, concat_snoc.
Qed.

Lemma stream_do_tx_carries s : stream_ok s → stream_ok (stream_do_tx s) ∧ stream_in (stream_do_tx s) = stream_in s ∧ stream_out (stream_do_tx s) = stream_out s.
Proof.
  intros H. destruct (sn_out s H) as (ms & Hm & Eo). unfold stream_do_tx. destruct (st_txbuf s) as [t|] eqn:Et; [|done].
  unfold stream_out in *. rewrite Et in *. cbn [from_option] in *. unfold id in *. destruct (sk_write _ _) as [k' r] eqn:Ew. apply sk_write_spec in Ew as (E1 & E2 & E3 & E4 & Er).
  destruct r as [e|m].
  - destruct Er as [Er He]. apply (write_error e s H) in He as ->. change (negb (EAGAIN =? EAGAIN)) with false. unfold stream_in. cbn [st_sock st_rxbuf st_txbuf from_option]. unfold id.
    rewrite E1, Er. split; [|done]. eapply write_ok_keeps; eauto. cbn [from_option]. unfold id. by rewrite Er.
  - destruct Er as [Er Hl]. pose proof (take_drop m t) as Ht.
    destruct (drop m t) as [|z l]; unfold stream_in; cbn [st_sock st_rxbuf st_txbuf from_option]; unfold id; rewrite E1, Er, <- app_assoc, Ht;
      (split; [|done]); eapply write_ok_keeps; eauto; cbn [from_option]; unfold id; by rewrite Er, <- app_assoc, Ht.
Qed.

#[global] Program Instance stream_carries : carries stream_vconn := {|
  vc_ok := stream_ok; inbox s := framed (stream_in s); outbox s := framed (stream_out s) |}.
Next Obligation.
  intros s H. cbn [vc_connect stream_vconn_class]. unfold stream_connect, sk_connect. pose proof (sn_connects s H) as Hc.
  destruct (sk_connects (st_sock s)) as [|e l] eqn:E; eexists _, _; (split; [done|]); cbv beta; (split; [|split; [|done]]).
  - done.
  - destruct H; by split.
  - by inversion Hc.
  - destruct H; split; try done. by inversion Hc.
Qed.
Next Obligation.
  intros s H. destruct (stream_recv_carries s H) as (s' & r & E & Hok & Ho & Hr). exists s', r. cbv beta. by rewrite Ho.
Qed.
Next Obligation.
  intros s b H Hb. destruct (stream_send_carries s b H Hb) as (s' & e & E & Hok & Hi & Ho). exists s', e. cbv beta. rewrite Hi, Ho. split; [done|]. split; [done|]. split; [done|].
  destruct (sn_out s H) as (ms & Hm & ->). rewrite framed_app, (framed_concat ms) by done. f_equal. destruct (e =? 0); [|done].
  rewrite <- (app_nil_r b) at 1. by rewrite framed_message.
Qed.
Next Obligation.
  intros s H. destruct (stream_do_tx_carries s H) as (Hok & Hi & Ho). cbv beta. cbn [vc_poll stream_vconn_class]. by rewrite Hi, Ho.
Qed.

(** ** Runs of a stream *)

Inductive stream_op := SRecv | SSend (b : list Z) | STx.

#[global] Instance stream_op_eq : EqDecision stream_op.
Proof. solve_decision. Defined.

Definition op_ok (o : stream_op) : Prop := match o with SSend b => message b | _ => True end.

(** The messages received and those accepted. *)
Fixpoint stream_run (ops : list stream_op) (s : stream_vconn) : option (stream_vconn * list (list Z) * list (list Z)) :=
  match ops with
  | [] => Some (s, [], [])
  | SRecv :: ops =>
    '(s, r) ← stream_recv s;
    '(s, got, put) ← stream_run ops s;
    Some (s, match r with inr b => b :: got | inl _ => got end, put)
  | SSend b :: ops =>
    '(s, e) ← stream_send s b;
    '(s, got, put) ← stream_run ops s;
    Some (s, got, if e =? 0 then b :: put else put)
  | STx :: ops => stream_run ops (stream_do_tx s)
  end.

Definition receives (ops : list stream_op) : nat := length (filter (λ o, o = SRecv) ops).

Definition no_errors (k : sock) : Prop := Forall (λ a, ∀ e, a ≠ Errno e) (sk_reads k).

(** A call to receive takes a byte at least, unless nothing complete is left or the socket has no more answers. *)
Lemma stream_recv_progress s s' r : stream_ok s → no_errors (st_sock s) → stream_recv s = Some (s', r) →
  no_errors (st_sock s') ∧ ((length (sk_in (st_sock s')) < length (sk_in (st_sock s)))%nat ∨ framed (stream_in s') = [] ∨ sk_reads (st_sock s') = []).
Proof.
  intros H Hn Er. destruct (stream_recv_ok s H) as (s1 & r1 & E & Hs & _ & Hr). rewrite Er in E. injection E as <- <-.
  split; [destruct Hs as (_ & _ & _ & l & El); unfold no_errors in *; rewrite El in Hn; by apply list.Forall_app in Hn as [_ ?]|].
  destruct r as [e|b].
  - destruct Hr as (Ei & _ & _ & [Hp|[Hp|[[_ Hp]|Hp]]]); [by left|right; left; by rewrite Ei|by right; right|].
    unfold no_errors in Hn. rewrite list.Forall_forall in Hn. by destruct (Hn _ Hp e).
  - destruct Hr as (_ & (H8 & Hl & Hb) & Ei). left.
    assert ((length (default [] (st_rxbuf s)) < length b)%nat) as Hlt; [|apply (f_equal length) in Ei; rewrite !length_app in Ei; lia].
    destruct (sn_rx s H) as [?|Ho]; [lia|]. apply Nat.nle_gt. intros Hle.
    pose proof (oh_length_app b (sk_in (st_sock s')) ltac:(lia)) as E1. rewrite <- Ei in E1. rewrite oh_length_app in E1 by lia. lia.
Qed.

Lemma quiet_stays s s' r : stream_ok s → framed (stream_in s) = [] → stream_recv s = Some (s', r) → framed (stream_in s') = [].
Proof. intros H E Er. destruct (stream_recv_carries s H) as (s1 & r1 & E1 & _ & _ & Hr). rewrite Er in E1. injection E1 as <- <-. destruct r; destruct Hr as [_ Hr]; congruence. Qed.

Lemma no_answers s s' r : stream_ok s → sk_reads (st_sock s) = [] → stream_recv s = Some (s', r) → sk_reads (st_sock s') = [].
Proof. intros H E Er. destruct (stream_recv_ok s H) as (s1 & r1 & E1 & (_ & _ & _ & l & El) & _). rewrite Er in E1. injection E1 as <- <-. rewrite E in El. by destruct l, (sk_reads (st_sock s')). Qed.

Lemma stream_send_in s b s' e : stream_send s b = Some (s', e) → sk_in (st_sock s') = sk_in (st_sock s) ∧ sk_reads (st_sock s') = sk_reads (st_sock s).
Proof.
  unfold stream_send. destruct (st_txbuf s); [by intros [= <- <-]|]. destruct (sk_write _ _) as [k r] eqn:E. apply sk_write_spec in E as (E1 & _ & E3 & _).
  destruct r; case_match; by intros [= <- <-].
Qed.
Lemma stream_tx_in s : sk_in (st_sock (stream_do_tx s)) = sk_in (st_sock s) ∧ sk_reads (st_sock (stream_do_tx s)) = sk_reads (st_sock s).
Proof.
  unfold stream_do_tx. destruct (st_txbuf s); [|done]. destruct (sk_write _ _) as [k r] eqn:E. apply sk_write_spec in E as (E1 & _ & E3 & _). by destruct r.
Qed.

(** What is left to receive after a run: nothing, if there were as many calls as bytes and the socket goes on answering. *)
Definition idle_after (n : nat) (s : stream_vconn) : Prop :=
  no_errors (st_sock s) ∧ ((length (sk_in (st_sock s)) <= n)%nat ∨ framed (stream_in s) = [] ∨ sk_reads (st_sock s) = []).

Lemma stream_idle s : stream_ok s → idle_after 0 s → framed (stream_in s) = [] ∨ sk_reads (st_sock s) = [].
Proof.
  intros H [_ [Hn|?]]; [|done]. left. apply not_complete. unfold stream_in. destruct (sk_in (st_sock s)); [|cbn in *; lia]. rewrite app_nil_r.
  unfold complete. rewrite !andb_false_iff, !Z.leb_gt. destruct (sn_rx s H); lia.
Qed.

Lemma stream_runs ops s n : Forall op_ok ops → stream_ok s → ∃ s' got put, stream_run ops s = Some (s', got, put) ∧ stream_ok s' ∧
  framed (stream_in s) = got ++ framed (stream_in s') ∧ stream_out s' = stream_out s ++ concat put ∧
  (idle_after (n + receives ops) s → idle_after n s').
Proof.
  intros Hops. revert s. induction Hops as [|o ops Ho Hops IH]; intros s H; cbn [stream_run].
  - exists s, [], []. rewrite app_nil_r. unfold receives. cbn. by rewrite Nat.add_0_r.
  - destruct o as [|b|].
    + destruct (stream_recv_carries s H) as (s1 & r & E & H1 & Eo & Hr). rewrite E; cbn [mbind option_bind].
      destruct (IH s1 H1) as (s' & got & put & E' & H' & Eg & Ep & Hi). rewrite E'; cbn [mbind option_bind]. eexists _, _, _. split; [done|]. split; [done|].
      split; [|split; [by rewrite Ep, Eo|]].
      * destruct r; destruct Hr as [_ Hr]; [by rewrite <- Hr, Eg|by rewrite Hr, Eg].
      * intros [Hn Hl]. apply Hi. destruct (stream_recv_progress s s1 r H Hn E) as [Hn1 Hp]. split; [done|].
        unfold receives in *. rewrite filter_cons_True in Hl by done. cbn [length] in Hl. destruct Hl as [Hl|[Hl|Hl]].
        -- destruct Hp as [?|[?|?]]; auto. left. lia.
        -- right. left. exact (quiet_stays _ _ _ H Hl E).
        -- right. right. exact (no_answers _ _ _ H Hl E).
    + destruct (stream_send_carries s b H Ho) as (s1 & e & E & H1 & Ei & Eo). rewrite E; cbn [mbind option_bind].
      destruct (IH s1 H1) as (s' & got & put & E' & H' & Eg & Ep & Hi). rewrite E'; cbn [mbind option_bind]. eexists _, _, _. split; [done|]. split; [done|].
      split; [by rewrite <- Ei|]. split; [rewrite Ep, Eo, <- app_assoc; by destruct (e =? 0)|].
      intros [Hn Hl]. apply Hi. destruct (stream_send_in _ _ _ _ E) as [E1 E2]. unfold idle_after, no_errors in *. rewrite E1, E2, Ei. split; [done|].
      unfold receives in *. by rewrite filter_cons_False in Hl.
    + destruct (stream_do_tx_carries s H) as (H1 & Ei & Eo). destruct (IH _ H1) as (s' & got & put & E' & H' & Eg & Ep & Hi). rewrite E'. exists s', got, put.
      split; [done|]. split; [done|]. split; [by rewrite <- Ei|]. split; [by rewrite Ep, Eo|]. intros [Hn Hl]. apply Hi. destruct (stream_tx_in s) as [E1 E2].
      unfold idle_after, no_errors in *. rewrite E1, E2, Ei. split; [done|]. unfold receives in *. by rewrite filter_cons_False in Hl.
Qed.

(** C31: streams carry messages whole and in order.  However [read] cuts what the peer sends and however little [write] takes,
    as long as no [write] fails for good, for any sequence of receiving, sending and callbacks of the poll loop: the messages
    received are those at the front of the peer's bytes as the lengths in their headers cut them, in order, and the rest is
    still to come; the bytes written and kept are those of the messages accepted, in order.  If [read] gives no errors
    and there were as many calls to receive as bytes, all complete messages have been received. *)
Theorem stream_in_order (ops : list stream_op) (k : sock) (Hops : Forall op_ok ops) (Hk : stream_ok (new_stream_vconn k)) (Ho : sk_out k = []) :
  ∃ s got put, stream_run ops (new_stream_vconn k) = Some (s, got, put) ∧
    framed (sk_in k) = got ++ framed (stream_in s) ∧
    stream_out s = concat put ∧
    (no_errors k → (length (sk_in k) <= receives ops)%nat → sk_reads (st_sock s) ≠ [] → got = framed (sk_in k)).
Proof.
  destruct (stream_runs ops _ 0 Hops Hk) as (s & got & put & E & Hok & Eg & Ep & Hi). exists s, got, put. split; [done|]. split; [done|].
  split; [rewrite Ep; unfold stream_out; cbn; by rewrite Ho|]. intros Hn Hl Hr. change (sk_in k) with (stream_in (new_stream_vconn k)). rewrite Eg.
  destruct (stream_idle s Hok) as [->|?]; [apply Hi; split; [done|]; by left|by rewrite app_nil_r|done].
Qed.

(** * Examples *)

(** A message with a body and one without, which [read] and [write] cut in pieces. *)
Definition ex_long : list Z := [4; 14; 0; 12; 0; 0; 0; 9; 1; 2; 3; 4].
Definition ex_short : list Z := [4; 2; 0; 8; 0; 0; 0; 1].
Definition ex_sock : sock := Sock (ex_long ++ ex_short) [] [] (replicate 50 (Upto 4)) [Upto 5; Errno EAGAIN; Upto 100; Upto 100].
Definition ex_stream_ops : list stream_op := [SSend ex_long; STx; SSend ex_short; STx; SSend ex_short] ++ replicate 20 SRecv.

Lemma ex_sock_ok : stream_ok (new_stream_vconn ex_sock).
Proof.
  split; cbn [new_stream_vconn st_rxbuf st_txbuf st_sock ex_sock sk_in sk_out sk_connects sk_reads sk_writes from_option].
  - left. cbn. lia.
  - unfold stream_in. cbn. repeat constructor; unfold fits; lia.
  - by exists [].
  - constructor.
  - by apply Forall_replicate.
  - by repeat constructor.
Qed.

Lemma ex_messages : message ex_long ∧ message ex_short.
Proof. split; (split; [cbn; lia|split; [done|repeat constructor; unfold fits; lia]]). Qed.

(** Both messages arrive; of the three sent the second is refused, since the first is still being written. *)
Lemma stream_in_order_witness :
  ∃ s got put, stream_run ex_stream_ops (new_stream_vconn ex_sock) = Some (s, got, put) ∧
    got = [ex_long; ex_short] ∧ put = [ex_long; ex_short] ∧ stream_out s = ex_long ++ ex_short.
Proof.
  destruct (stream_in_order ex_stream_ops ex_sock) as (s & got & put & E & Eg & Ep & Hall).
  - destruct ex_messages. by repeat constructor.
  - exact ex_sock_ok.
  - reflexivity.
  - exists s, got, put. split; [exact E|]. vm_compute in E. injection E as <- <- <-. by repeat split.
Defined.
