(* ===== verification/VconnNegotiate.v ===== *)
(** What a virtual connection makes of the peer's messages: the abstract specification of lib/vconn.c, and that connections over any
    class that carries messages ([carries]) implement it. *)

From S2P Require Import Prelude Memory OpenFlow Wire Rconn Vconn WireCorrect VconnCorrect.

(** * The specification *)

(** What the messages of the peer have led to: no hello yet, a common version, a version that is too low, or a message in the
    place of the hello. *)
Inductive phase := Waiting | Up (version : Z) | Refused (version : Z) | Broken.

Definition hear (min : Z) (p : phase) (b : list Z) : phase :=
  match p with
  | Waiting =>
    if oh_type b =? OFPT_HELLO then
      let version := Z.min OFP_VERSION (oh_version b) in if version <? min then Refused version else Up version
    else if asynchronous (oh_type b) then Waiting else Broken
  | p => p
  end.
Definition heard (min : Z) (bs : list (list Z)) : phase := foldl (hear min) Waiting bs.

(** The messages passed on: those after the hello, of the common version or of a type for which it does not matter. *)
Definition delivers (p : phase) (b : list Z) : bool :=
  match p with Up version => (oh_version b =? version) || other_version_ok (oh_type b) | _ => false end.
Fixpoint given (min : Z) (p : phase) (bs : list (list Z)) : list (list Z) :=
  match bs with [] => [] | b :: bs => (if delivers p b then [b] else []) ++ given min (hear min p b) bs end.

Lemma given_app min p bs cs : given min p (bs ++ cs) = given min p bs ++ given min (foldl (hear min) p bs) cs.
Proof. revert p. induction bs as [|b bs IH]; intros p; [done|]. cbn [given app foldl]. by rewrite IH, app_assoc. Qed.

Lemma hear_up min version bs : foldl (hear min) (Up version) bs = Up version.
Proof. by induction bs. Qed.

(** * The messages that are made *)

Lemma oh_version_fits b : bytes b → 0 <= oh_version b.
Proof.
  intros Hb. unfold oh_version, be_read.
  assert (bytes (rev (take 1 b))) as Hr by (apply Forall_rev, Forall_take, Hb). apply (le_read_bound _ Hr).
Qed.

Lemma be_bytes w v : bytes (be w v).
Proof. apply Forall_rev, le_bytes_bytes. Qed.

Lemma header_message a b c n : length a = 2%nat → bytes a → length b = 4%nat → bytes b → bytes c → n = Z.of_nat (8 + length c) → n < 65536 →
  message (a ++ be 2 n ++ b ++ c).
Proof.
  intros Ha Ha' Hb Hb' Hc -> Hn. split; [rewrite !length_app, be_length; lia|]. split.
  - unfold oh_length. rewrite drop_app_length' by done. rewrite take_app_length' by (symmetry; apply be_length). rewrite be_read_be by (unfold fits; lia).
    rewrite !length_app, be_length. lia.
  - apply list.Forall_app. split; [done|]. apply list.Forall_app. split; [apply be_bytes|]. by apply list.Forall_app.
Qed.

Lemma hello_message xid : message (make_openflow 8 OFPT_HELLO xid).
Proof.
  unfold make_openflow. rewrite app_assoc. apply header_message; try done; [|apply be_bytes|constructor].
  apply list.Forall_app. split; apply be_bytes.
Qed.

Lemma hex_bytes n v acc : bytes acc → bytes (hex_digits n v acc).
Proof.
  revert v acc. induction n as [|n IH]; intros v acc H; cbn [hex_digits]; [done|].
  assert (0 <= Z.land v 0xf < 16) by (change 0xf with (Z.ones 4); rewrite Z.land_ones by lia; apply Z.mod_pos_bound; lia).
  assert (bytes ((if Z.land v 15 <? 10 then 48 + Z.land v 15 else 87 + Z.land v 15) :: acc)) by (constructor; [unfold fits; change (2 ^ 8) with 256; case_match; lia|done]).
  destruct (Z.shiftr v 4 =? 0); [done|]. by apply IH.
Qed.

Lemma hex02_bytes v : bytes (hex02 v).
Proof.
  unfold hex02. pose proof (hex_bytes 8 (u32 v) [] ltac:(by constructor)) as H. apply list.Forall_app. split; [by repeat constructor; unfold fits; lia|].
  destruct (hex_digits 8 (u32 v) []) as [|d [|? ?]]; try done. constructor; [unfold fits; lia|done].
Qed.

Lemma text_bytes s : bytes (text s).
Proof.
  unfold text. apply Forall_fmap, list.Forall_forall. intros c _. unfold compose, fits. change (2 ^ 8) with 256.
  pose proof (Ascii.N_ascii_bounded c). lia.
Qed.

Lemma hello_failed_message xid min version : message (hello_failed xid min version).
Proof.
  unfold hello_failed, update_openflow_length.
  set (s := take 127 _). assert (bytes s) as Hs by (apply Forall_take; rewrite !list.Forall_app; split_and!; apply text_bytes || apply hex02_bytes).
  assert (length s <= 127)%nat as Hl by (unfold s; rewrite length_take; lia). clearbody s.
  unfold make_openflow. set (x := be 4 xid). assert (length x = 4%nat) as Hx by apply be_length. assert (bytes x) as Hx' by apply be_bytes. clearbody x.
  change (message ([4; 1] ++ be 2 (Z.of_nat (length (take 8 ([4; 1; 0; 12] ++ x ++ zeros (12 - 8)) ++ [0; 0; 0; 0] ++ s))) ++
    drop 4 (take 8 ([4; 1; 0; 12] ++ x ++ zeros (12 - 8)) ++ [0; 0; 0; 0] ++ s))).
  destruct x as [|x0 [|x1 [|x2 [|x3 [|]]]]]; try done. cbn [app take drop zeros replicate Nat.sub length].
  change (message ([4; 1] ++ be 2 (Z.of_nat (8 + length ([0; 0; 0; 0] ++ s))) ++ [x0; x1; x2; x3] ++ [0; 0; 0; 0] ++ s)).
  apply header_message; try done.
  - repeat constructor; unfold fits; lia.
  - apply list.Forall_app. split; [repeat constructor; unfold fits; lia|done].
  - rewrite length_app. cbn [length]. lia.
Qed.

(** * Connections *)

Section negotiate.
  Context {S : Type} `{VC : vconn_class S} `{C : !carries S}.
  Context (min : Z) (Hmin : 0 <= min) (I0 O0 : list (list Z)).

Definition is_hello (b : list Z) : Prop := ∃ xid, b = make_openflow 8 OFPT_HELLO xid.

(** What each state says about the messages consumed, the hello sent ([h]), the messages accepted ([put]) and the error sent ([err]). *)
Definition state_ok (v : vconn S) (consumed h put err : list (list Z)) : Prop :=
  match v_state v with
  | VCS_CONNECTING | VCS_SEND_HELLO => consumed = [] ∧ v_version v = -1 ∧ h = [] ∧ put = [] ∧ err = []
  | VCS_RECV_HELLO => heard min consumed = Waiting ∧ v_version v = -1 ∧ (∃ b, h = [b] ∧ is_hello b) ∧ put = [] ∧ err = []
  | VCS_CONNECTED => heard min consumed = Up (v_version v) ∧ min <= v_version v <= OFP_VERSION ∧ (∃ b, h = [b] ∧ is_hello b) ∧ err = []
  | VCS_SEND_ERROR => heard min consumed = Refused (v_version v) ∧ (∃ b, h = [b] ∧ is_hello b) ∧ put = [] ∧ err = []
  | VCS_DISCONNECTED =>
    v_error v ≠ 0 ∧ (∀ version, heard min consumed ≠ Up version) ∧ put = [] ∧
    (h = [] ∧ err = [] ∨ (∃ b, h = [b] ∧ is_hello b) ∧
       (err = [] ∨ ∃ version xid, heard min consumed = Refused version ∧ err = [hello_failed xid min version]))
  end.

(** The connection [v], when it has passed on [got] and accepted [put]. *)
Definition vinv (v : vconn S) (got put : list (list Z)) : Prop :=
  vc_ok (v_class v) ∧ v_min_version v = min ∧ ∃ consumed h err,
    I0 = consumed ++ inbox (v_class v) ∧ got = given min Waiting consumed ∧
    outbox (v_class v) = O0 ++ h ++ put ++ err ∧ state_ok v consumed h put err.

Definition rank (st : vconn_state) : nat :=
  match st with VCS_CONNECTING => 4 | VCS_SEND_HELLO => 3 | VCS_RECV_HELLO => 2 | VCS_SEND_ERROR => 1 | _ => 0 end.

Lemma do_send_ok v b : vc_ok (v_class v) → message b → ∃ s' e, do_send v b = Some (set_class v s', e) ∧ vc_ok s' ∧
  inbox s' = inbox (v_class v) ∧ outbox s' = outbox (v_class v) ++ (if e =? 0 then [b] else []).
Proof.
  intros H Hb. destruct (carries_send _ b H Hb) as (s' & e & E & Hs). exists s', e. split; [|done]. unfold do_send. destruct Hb as (H8 & Hl & _).
  destruct (Z.ltb_spec (Z.of_nat (length b)) 8); [lia|]. rewrite Hl, Z.eqb_refl. cbn [orb negb]. by rewrite E.
Qed.

(** Messages before the version is known. *)
Lemma do_recv_waiting n v : vc_ok (v_class v) → v_version v = -1 → (length (inbox (v_class v)) < n)%nat →
  ∃ s' r cs, do_recv_loop n v = Some (set_class v s', r) ∧ vc_ok s' ∧ outbox s' = outbox (v_class v) ∧ inbox (v_class v) = cs ++ inbox s' ∧ given min Waiting cs = [] ∧
    match r with
    | inl e => e ≠ 0 ∧ (foldl (hear min) Waiting cs = Waiting ∨ e = EPROTO ∧ foldl (hear min) Waiting cs = Broken)
    | inr b => foldl (hear min) Waiting cs = hear min Waiting b ∧ other_version_ok (oh_type b) = true
    end.
Proof.
  revert v. induction n as [|n IH]; intros v H Hv Hn; [lia|]. cbn [do_recv_loop]. destruct (carries_recv _ H) as (s1 & r & E & H1 & Eo & Hr).
  rewrite E; cbn [mbind option_bind]. destruct r as [e|b].
  { destruct Hr as [He Ei]. exists s1, (inl e), []. rewrite Ei. split; [done|]. split; [done|]. split; [done|]. split; [done|]. split; [done|]. split; [done|by left]. }
  destruct Hr as [Hb Ei]. destruct (Z.ltb_spec (Z.of_nat (length b)) 8); [destruct Hb; lia|]. cbn [v_version set_class]. rewrite Hv.
  pose proof (oh_version_fits b (proj2 (proj2 Hb))). destruct (Z.eqb_spec (oh_version b) (-1)); [lia|]. cbn [negb andb].
  destruct (other_version_ok (oh_type b)) eqn:Eov; cbn [negb].
  { exists s1, (inr b), [b]. split; [done|]. split; [done|]. split; [done|]. split; [done|]. split; done. }
  change (-1 <? 0) with true. cbn [andb].
  assert (hear min Waiting b = if asynchronous (oh_type b) then Waiting else Broken) as Eh.
  { unfold hear. destruct (Z.eqb_spec (oh_type b) OFPT_HELLO) as [Et|]; [|done]. rewrite Et in Eov. done. }
  destruct (asynchronous (oh_type b)).
  - destruct (IH (set_class v s1)) as (s' & r & cs & E' & H' & Eo' & Ei' & Hr); [done|done|cbn [v_class set_class]; rewrite Ei in Hn; cbn [length] in Hn; lia|].
    exists s', r, (b :: cs). cbn [v_class set_class] in *. rewrite Ei, Ei', Eo', Eo. cbn [foldl app given delivers]. rewrite Eh. done.
  - exists s1, (inl EPROTO), [b]. cbn [foldl]. rewrite Eh. split; [done|]. split; [done|]. split; [done|]. split; [done|]. split; [done|]. split; [done|by right].
Qed.

(** A message after the version is known. *)
Lemma do_recv_up n v : vc_ok (v_class v) → 0 <= v_version v →
  ∃ s' r cs, do_recv_loop (Datatypes.S n) v = Some (set_class v s', r) ∧ vc_ok s' ∧ outbox s' = outbox (v_class v) ∧ inbox (v_class v) = cs ++ inbox s' ∧
    given min (Up (v_version v)) cs = match r with inr b => [b] | inl _ => [] end.
Proof.
  intros H Hv. cbn [do_recv_loop]. destruct (carries_recv _ H) as (s1 & r & E & H1 & Eo & Hr).
  rewrite E; cbn [mbind option_bind]. destruct r as [e|b].
  { destruct Hr as [He Ei]. exists s1, (inl e), []. by rewrite Ei. }
  destruct Hr as [Hb Ei]. destruct (Z.ltb_spec (Z.of_nat (length b)) 8); [destruct Hb; lia|]. cbn [v_version set_class].
  destruct (Z.ltb_spec (v_version v) 0); [lia|]. cbn [andb].
  destruct (negb (oh_version b =? v_version v) && negb (other_version_ok (oh_type b))) eqn:Eg.
  - exists s1, (inl EPROTO), [b]. split; [done|]. split; [done|]. split; [done|]. split; [done|]. cbn [given delivers]. apply andb_true_iff in Eg as [E1 E2].
    apply negb_true_iff in E1, E2. by rewrite E1, E2.
  - exists s1, (inr b), [b]. split; [done|]. split; [done|]. split; [done|]. split; [done|]. cbn [given delivers]. apply andb_false_iff in Eg.
    rewrite !negb_false_iff in Eg. by destruct Eg as [-> | ->]; rewrite ?orb_true_r.
Qed.

Section steps.
  Context (xid_hello xid_error : Z) (turns : nat) (Ht : (length I0 < turns)%nat).

(** A step of the negotiation: the connection stays in order and goes on in the order of the states, if it does. *)
Definition steps (v v' : vconn S) (got put : list (list Z)) : Prop :=
  vinv v' got put ∧ (v_state v' = v_state v ∨ (rank (v_state v') < rank (v_state v))%nat).

Lemma connecting_ok v got put : vinv v got put → v_state v = VCS_CONNECTING → ∃ v', vcs_connecting v = Some v' ∧ steps v v' got put.
Proof using Hmin Ht.
  intros (H & Hm & cs & h & err & Ei & Eg & Eo & Hst) Es. unfold state_ok in Hst. rewrite Es in Hst. destruct Hst as (-> & Hv & -> & -> & ->).
  destruct (carries_connect _ H) as (s' & e & E & He & H' & Ei' & Eo'). unfold vcs_connecting. rewrite E; cbn [mbind option_bind].
  assert (∀ v', v_class v' = s' → v_min_version v' = min → state_ok v' [] [] [] [] → vinv v' got []) as Hinv.
  { intros v' Hc Hm' Hst. unfold vinv. rewrite Hc. split; [done|]. split; [done|]. exists [], [], []. by rewrite Ei', Eo'. }
  destruct (Z.eqb_spec e EINPROGRESS); [done|]. unfold steps. rewrite Es. destruct (Z.eqb_spec e 0); [|destruct (Z.eqb_spec e EAGAIN); cbn [negb]];
    (eexists; split; [done|]; split; [apply Hinv; try done|cbn; auto with lia]).
  - by unfold state_ok; cbn [v_state set_class v_version]; rewrite Es.
  - unfold state_ok. cbn. split; [done|]. split; [done|]. split; [done|by left].
Qed.

Lemma send_hello_ok v got put : vinv v got put → v_state v = VCS_SEND_HELLO → ∃ v', vcs_send_hello xid_hello v = Some v' ∧ steps v v' got put.
Proof using Hmin Ht.
  intros (H & Hm & cs & h & err & Ei & Eg & Eo & Hst) Es. unfold state_ok in Hst. rewrite Es in Hst. destruct Hst as (-> & Hv & -> & -> & ->).
  destruct (do_send_ok v _ H (hello_message xid_hello)) as (s' & e & E & H' & Ei' & Eo'). unfold vcs_send_hello. rewrite E; cbn [mbind option_bind].
  assert (∀ v' h, v_class v' = s' → v_min_version v' = min → h = (if e =? 0 then [make_openflow 8 OFPT_HELLO xid_hello] else []) → state_ok v' [] h [] [] → vinv v' got []) as Hinv.
  { intros v' h Hc Hm' -> Hst. unfold vinv. rewrite Hc. split; [done|]. split; [done|]. exists [], (if e =? 0 then [make_openflow 8 OFPT_HELLO xid_hello] else []), []. rewrite Ei', Eo', Eo. cbn [app]. rewrite !app_nil_r. done. }
  unfold steps. rewrite Es. destruct (Z.eqb_spec e 0); [|destruct (Z.eqb_spec e EAGAIN); cbn [negb]];
    (eexists; split; [done|]; split; [eapply Hinv; try done|cbn; auto with lia]); unfold state_ok; cbn [v_state set_vstate count_sent set_class v_version failed v_error].
  - split; [done|]. split; [done|]. split; [|done]. eexists. split; [done|]. by eexists.
  - by rewrite Es.
  - split; [done|]. split; [done|]. split; [done|by left].
Qed.

Lemma recv_hello_ok v got put : vinv v got put → v_state v = VCS_RECV_HELLO → ∃ v', vcs_recv_hello turns v = Some v' ∧ steps v v' got put.
Proof using Hmin Ht.
  intros (H & Hm & cs & h & err & Ei & Eg & Eo & Hst) Es. unfold state_ok in Hst. rewrite Es in Hst. destruct Hst as (Hh & Hv & Hhello & -> & ->).
  destruct (do_recv_waiting turns v H Hv) as (s' & r & ds & E & H' & Eo' & Ei' & Hg & Hr).
  { eapply Nat.le_lt_trans; [|exact Ht]. rewrite Ei, length_app. lia. }
  assert (∀ v', v_class v' = s' → v_min_version v' = min → state_ok v' (cs ++ ds) h [] [] → vinv v' got []) as Hinv.
  { intros v' Hc Hm' Hst. unfold vinv. rewrite Hc. split; [done|]. split; [done|]. exists (cs ++ ds), h, []. rewrite Eo', Ei, Ei', Eo, given_app, <- app_assoc. fold (heard min cs). rewrite Hh, Hg, app_nil_r. done. }
  assert (heard min (cs ++ ds) = foldl (hear min) Waiting ds) as Ehd by (unfold heard in *; by rewrite foldl_app, Hh).
  unfold vcs_recv_hello, do_recv. rewrite E; cbn [mbind option_bind]. unfold steps. rewrite Es. destruct r as [e|b].
  - destruct Hr as [He Hr]. destruct (Z.eqb_spec e EAGAIN) as [Ee|Ee]; cbn [negb]; (eexists; split; [done|]; split; [apply Hinv; try done|cbn; auto with lia]); unfold state_ok; cbn [v_state set_class v_version failed v_error].
    + rewrite Es, Ehd. destruct Hr as [-> |[-> _]]; [|done]. done.
    + rewrite Ehd. split; [done|]. split; [by destruct Hr as [-> |[_ ->]]|]. split; [done|]. right. split; [done|by left].
  - destruct Hr as [Hr Hov]. destruct (Z.eqb_spec (oh_type b) OFPT_HELLO) as [Et|Et].
    + cbn [v_version set_version v_min_version set_class]. rewrite Hm. cbn [hear] in Hr. rewrite Et in Hr. change (OFPT_HELLO =? OFPT_HELLO) with true in Hr.
      destruct (Z.ltb_spec (Z.min OFP_VERSION (oh_version b)) min) as [Hlt|Hle]; (eexists; split; [done|]; split; [apply Hinv; try done|cbn; auto with lia]);
        unfold state_ok; cbn [v_state set_vstate count_rcvd set_version set_class v_version]; rewrite ?Ehd, ?Hr.
      * done.
      * split; [done|]. split; [lia|]. done.
    + assert (foldl (hear min) Waiting ds = Broken) as Hbr.
      { rewrite Hr. cbn [hear]. destruct (Z.eqb_spec (oh_type b) OFPT_HELLO); [done|]. destruct (asynchronous (oh_type b)) eqn:Ea; [|done].
        unfold asynchronous in Ea. unfold other_version_ok in Hov. unfold OFPT_HELLO, OFPT_ERROR, OFPT_ECHO_REQUEST, OFPT_ECHO_REPLY, OFPT_EXPERIMENTER, OFPT_PACKET_IN, OFPT_FLOW_REMOVED, OFPT_PORT_STATUS in *. lia. }
      eexists; split; [done|]; split; [apply Hinv; try done|cbn; auto with lia]. unfold state_ok. cbn [v_state failed v_error]. rewrite Ehd, Hbr.
      split; [done|]. split; [done|]. split; [done|]. right. split; [done|by left].
Qed.

Lemma send_error_ok v got put : vinv v got put → v_state v = VCS_SEND_ERROR → ∃ v', vcs_send_error xid_error v = Some v' ∧ steps v v' got put.
Proof using Hmin Ht.
  intros (H & Hm & cs & h & err & Ei & Eg & Eo & Hst) Es. unfold state_ok in Hst. rewrite Es in Hst. destruct Hst as (Hh & Hhello & -> & ->).
  destruct (do_send_ok v _ H (hello_failed_message xid_error (v_min_version v) (v_version v))) as (s' & e & E & H' & Ei' & Eo').
  unfold vcs_send_error. rewrite E; cbn [mbind option_bind].
  set (err' := if e =? 0 then [hello_failed xid_error (v_min_version v) (v_version v)] else []) in *.
  assert (∀ v', v_class v' = s' → v_min_version v' = min → state_ok v' cs h [] err' → vinv v' got []) as Hinv.
  { intros v' Hc Hm' Hst. unfold vinv. rewrite Hc. split; [done|]. split; [done|]. exists cs, h, err'. rewrite Ei', Eo', Eo, !app_nil_r, <- app_assoc. done. }
  unfold steps. rewrite Es. destruct (Z.eqb_spec e EAGAIN) as [->|He]; cbn [negb].
  - eexists. split; [done|]. split; [apply Hinv; try done|cbn; auto with lia]. unfold state_ok. cbn. by rewrite Es.
  - destruct (Z.eqb_spec e 0) as [->|He0]; cbn [negb]; (eexists; split; [done|]; split; [apply Hinv; try done|cbn; auto with lia]);
      unfold state_ok; cbn [v_state failed v_error]; rewrite Hh; (split; [done|]); (split; [done|]); (split; [done|]); right; (split; [done|]).
    + right. exists (v_version v), xid_error. split; [done|]. unfold err'. by rewrite Hm.
    + by left.
Qed.

(** The loop of [vconn_connect] ends: each turn but the last goes on in the order of the states. *)
Lemma connect_loop_ok n v got put : vinv v got put → (rank (v_state v) < n)%nat →
  ∃ v' e, connect_loop xid_hello xid_error turns n v = Some (v', e) ∧ vinv v' got put ∧ (e = 0 ↔ v_state v' = VCS_CONNECTED).
Proof using Hmin Ht.
  revert v. induction n as [|n IH]; intros v H Hn; [lia|]. cbn [connect_loop].
  assert (∀ v', steps v v' got put → v_state v ≠ VCS_CONNECTED → ∃ v'' e,
    (if bool_decide (v_state v' = v_state v) then Some (v', EAGAIN) else connect_loop xid_hello xid_error turns n v') = Some (v'', e) ∧
      vinv v'' got put ∧ (e = 0 ↔ v_state v'' = VCS_CONNECTED)) as Hgo.
  { intros v' [H' Hr] Hc. case_bool_decide as Es; [exists v', EAGAIN; split; [done|]; split; [done|]; split; [done|congruence]|]. destruct Hr; [done|]. apply IH; [done|lia]. }
  destruct (v_state v) eqn:Es.
  - destruct (connecting_ok v got put H Es) as (v' & -> & Hs); cbn [mbind option_bind]. by apply Hgo.
  - destruct (send_hello_ok v got put H Es) as (v' & -> & Hs); cbn [mbind option_bind]. by apply Hgo.
  - destruct (recv_hello_ok v got put H Es) as (v' & -> & Hs); cbn [mbind option_bind]. by apply Hgo.
  - by exists v, 0.
  - destruct (send_error_ok v got put H Es) as (v' & -> & Hs); cbn [mbind option_bind]. by apply Hgo.
  - exists v, (v_error v). split; [done|]. split; [done|]. rewrite Es. split; [|done]. destruct H as (_ & _ & cs & h & err & _ & _ & _ & Hst).
    unfold state_ok in Hst. rewrite Es in Hst. by destruct Hst.
Qed.

Lemma connect_ok v got put : vinv v got put →
  ∃ v' e, vconn_connect xid_hello xid_error turns v = Some (v', e) ∧ vinv v' got put ∧ (e = 0 ↔ v_state v' = VCS_CONNECTED).
Proof using Hmin Ht.
  intros H. unfold vconn_connect. destruct (Z.ltb_spec (v_min_version v) 0); [destruct H as (_ & Hm & _); lia|]. apply connect_loop_ok; [done|].
  unfold CONNECT_TURNS. destruct (v_state v); cbn; lia.
Qed.

Lemma recv_ok v got put : vinv v got put → ∃ v' r, vconn_recv xid_hello xid_error turns v = Some (v', r) ∧
  vinv v' (got ++ match r with inr b => [b] | inl _ => [] end) put.
Proof using Hmin Ht.
  intros H. destruct (connect_ok v got put H) as (v1 & e & E & H1 & He). unfold vconn_recv. rewrite E; cbn [mbind option_bind].
  destruct (Z.eqb_spec e 0) as [E0|E0]; [|exists v1, (inl e); by rewrite app_nil_r].
  apply He in E0. destruct H1 as (Hok & Hm & cs & h & err & Ei & Eg & Eo & Hst). unfold state_ok in Hst. rewrite E0 in Hst. destruct Hst as (Hh & Hv & Hhello & ->).
  destruct turns as [|n]; [lia|]. destruct (do_recv_up n v1 Hok ltac:(lia)) as (s' & r & ds & E' & H' & Eo' & Ei' & Hg). unfold do_recv. rewrite E'. exists (set_class v1 s'), r.
  split; [done|]. split; [done|]. split; [done|]. exists (cs ++ ds), h, []. cbn [v_class set_class]. rewrite Eo', Ei, Ei', <- app_assoc, given_app. fold (heard min cs).
  rewrite Hh, Hg, Eg. split; [done|]. split; [done|]. split; [done|]. unfold state_ok. cbn [v_state set_class v_version]. rewrite E0. unfold heard in *. by rewrite foldl_app, Hh, hear_up.
Qed.

Lemma send_ok_vconn v got put b : vinv v got put → message b → ∃ v' e, vconn_send xid_hello xid_error turns v b = Some (v', e) ∧
  vinv v' got (put ++ (if e =? 0 then [b] else [])).
Proof using Hmin Ht.
  intros H Hb. destruct (connect_ok v got put H) as (v1 & e & E & H1 & He). unfold vconn_send. rewrite E; cbn [mbind option_bind].
  destruct (Z.eqb_spec e 0) as [E0|E0]; [|exists v1, e; destruct (Z.eqb_spec e 0); [done|by rewrite app_nil_r]].
  apply He in E0. destruct H1 as (Hok & Hm & cs & h & err & Ei & Eg & Eo & Hst). unfold state_ok in Hst. rewrite E0 in Hst. destruct Hst as (Hh & Hv & Hhello & ->).
  destruct (do_send_ok v1 b Hok Hb) as (s' & e' & E' & H' & Ei' & Eo'). rewrite E'. exists (set_class v1 s'), e'.
  split; [done|]. split; [done|]. split; [done|]. exists cs, h, []. cbn [v_class set_class]. rewrite Eo', Ei', Eo, !app_nil_r, !app_assoc. split; [done|]. split; [done|]. split; [done|].
  unfold state_ok. cbn [v_state set_class v_version]. by rewrite E0.
Qed.

Lemma poll_ok v got put : vinv v got put → vinv (set_class v (vc_poll (v_class v))) got put.
Proof using Hmin Ht.
  intros (H & Hm & cs & h & err & Ei & Eg & Eo & Hst). destruct (carries_poll _ H) as (H' & Ei' & Eo'). split; [done|]. split; [done|]. exists cs, h, err.
  cbn [v_class set_class]. by rewrite Ei', Eo'.
Qed.
End steps.
End negotiate.

(** * Runs *)

(** A connection is asked for a message, given one to send, asked to go on connecting, or called back by the poll loop; each call
    with the transaction ids for the messages it may make itself. *)
Inductive vconn_op := VRecv (xids : Z * Z) | VSend (xids : Z * Z) (b : list Z) | VConnect (xids : Z * Z) | VPoll.

Definition vop_ok (o : vconn_op) : Prop := match o with VSend _ b => message b | _ => True end.

Fixpoint vconn_run {S : Type} `{vconn_class S} (turns : nat) (ops : list vconn_op) (v : vconn S) : option (vconn S * list (list Z) * list (list Z)) :=
  match ops with
  | [] => Some (v, [], [])
  | VRecv x :: ops =>
    '(v, r) ← vconn_recv x.1 x.2 turns v;
    '(v, got, put) ← vconn_run turns ops v;
    Some (v, match r with inr b => b :: got | inl _ => got end, put)
  | VSend x b :: ops =>
    '(v, e) ← vconn_send x.1 x.2 turns v b;
    '(v, got, put) ← vconn_run turns ops v;
    Some (v, got, if e =? 0 then b :: put else put)
  | VConnect x :: ops => '(v, _) ← vconn_connect x.1 x.2 turns v; vconn_run turns ops v
  | VPoll :: ops => vconn_run turns ops (set_class v (vc_poll (v_class v)))
  end.

Lemma vconn_runs {S : Type} `{VC : vconn_class S} `{C : !carries S} min I0 O0 turns ops (v : vconn S) got put :
  0 <= min → (length I0 < turns)%nat → Forall vop_ok ops → vinv min I0 O0 v got put →
  ∃ v' got' put', vconn_run turns ops v = Some (v', got', put') ∧ vinv min I0 O0 v' (got ++ got') (put ++ put').
Proof.
  intros Hm Ht Hops. revert v got put. induction Hops as [|o ops Ho Hops IH]; intros v got put H; cbn [vconn_run].
  { exists v, [], []. by rewrite !app_nil_r. }
  destruct o as [x|x b|x|].
  - destruct (recv_ok min Hm I0 O0 x.1 x.2 turns Ht v got put H) as (v1 & r & -> & H1). cbn [mbind option_bind].
    destruct (IH v1 _ _ H1) as (v' & got' & put' & -> & H'). eexists _, _, _. split; [done|]. rewrite <- app_assoc in H'. by destruct r.
  - destruct (send_ok_vconn min Hm I0 O0 x.1 x.2 turns Ht v got put b H Ho) as (v1 & e & -> & H1). cbn [mbind option_bind].
    destruct (IH v1 _ _ H1) as (v' & got' & put' & -> & H'). eexists _, _, _. split; [done|]. rewrite <- app_assoc in H'. by destruct (e =? 0).
  - destruct (connect_ok min Hm I0 O0 x.1 x.2 turns Ht v got put H) as (v1 & e & -> & H1 & _). cbn [mbind option_bind]. by apply IH.
  - by apply IH, poll_ok with turns.
Qed.

Lemma opened_ok {S : Type} `{VC : vconn_class S} `{C : !carries S} min (s : S) status : vc_ok s →
  vinv min (inbox s) (outbox s) (vconn_open s status min) [] [].
Proof.
  intros H. split; [done|]. split; [done|]. exists [], [], []. cbn [vconn_open vconn_init v_class]. rewrite !app_nil_r. split; [done|]. split; [done|]. split; [done|].
  unfold state_ok. cbn [vconn_open vconn_init v_state v_error v_version]. destruct (Z.eqb_spec status EAGAIN); [done|]. destruct (Z.eqb_spec status 0); [done|].
  split; [done|]. split; [done|]. split; [done|by left].
Qed.

(** * Theorems *)

(** C29: a connection settles on a version and passes on what it should.  Over any class that carries messages, for any calls in any
    order, no assertion fails and every call returns, as long as the loop that skips messages may take as many turns
    as the peer sends messages.  The messages passed on are those the specification [given] says of the messages
    consumed.  What was handed to the class is one hello, once the connection is made, then the messages accepted in order, and
    an error only if the peer's version is too low; messages are accepted only when there is a
    common version, which lies between the least version asked for and 4. *)
Theorem vconn_negotiates {S : Type} `{VC : vconn_class S} `{C : !carries S} (s : S) (status min : Z) (turns : nat) (ops : list vconn_op)
    (Hs : vc_ok s) (Hmin : 0 <= min) (Ht : (length (inbox s) < turns)%nat) (Hops : Forall vop_ok ops) :
  ∃ v got put consumed h err, vconn_run turns ops (vconn_open s status min) = Some (v, got, put) ∧
    inbox s = consumed ++ inbox (v_class v) ∧ got = given min Waiting consumed ∧
    outbox (v_class v) = outbox s ++ h ++ put ++ err ∧ state_ok min v consumed h put err.
Proof.
  destruct (vconn_runs min (inbox s) (outbox s) turns ops _ [] [] Hmin Ht Hops (opened_ok min s status Hs)) as (v & got & put & E & _ & _ & cs & h & err & H).
  by exists v, got, put, cs, h, err.
Qed.

(** ** Two ends *)

(** What one end has sent: nothing, or a hello first, followed only by messages it accepted and perhaps an error. *)
Lemma sent_shape {S : Type} min (v : vconn S) cs h put err : state_ok min v cs h put err →
  h = [] ∧ put = [] ∧ err = [] ∨ (∃ b, h = [b] ∧ is_hello b) ∧ (err = [] ∨ ∃ version, heard min cs = Refused version).
Proof.
  unfold state_ok. destruct (v_state v); [naive_solver..|]. intros (_ & _ & -> & [[-> ->]|[Hb [->|(version & xid & Hh & _)]]]); [by left|right..]; split; eauto.
Qed.

Lemma hello_heard min b : min <= OFP_VERSION → is_hello b → hear min Waiting b = Up OFP_VERSION.
Proof.
  intros Hm [xid ->]. unfold hear. change (oh_type (make_openflow 8 OFPT_HELLO xid) =? OFPT_HELLO) with true. change (oh_version (make_openflow 8 OFPT_HELLO xid)) with OFP_VERSION. cbv iota zeta.
  rewrite Z.min_id. by destruct (Z.ltb_spec OFP_VERSION min); [lia|].
Qed.

Lemma heard_prefix min cs more h put err : min <= OFP_VERSION → cs ++ more = h ++ put ++ err → (h = [] ∧ put = [] ∧ err = [] ∨ ∃ b, h = [b] ∧ is_hello b) →
  cs = [] ∨ ∃ b cs', cs = b :: cs' ∧ heard min cs = Up OFP_VERSION ∧ cs' ++ more = put ++ err ∧ given min Waiting cs = given min (Up OFP_VERSION) cs'.
Proof.
  intros Hm E Hh. destruct cs as [|b cs]; [by left|]. right. destruct Hh as [(-> & -> & ->)|(b' & -> & Hb)]; [done|]. cbn [app] in E. injection E as -> E.
  exists b', cs. split; [done|]. unfold heard. cbn [foldl given delivers app]. rewrite hello_heard by done. by rewrite hear_up.
Qed.

Lemma given_filter min version bs : given min (Up version) bs = filter (λ b, delivers (Up version) b) bs.
Proof.
  induction bs as [|b bs IH]; [done|]. cbn [given]. change (hear min (Up version) b) with (Up version). rewrite IH, filter_cons.
  destruct (delivers (Up version) b); case_decide; done.
Qed.

Lemma not_refused min cs more h put err version : min <= OFP_VERSION → cs ++ more = h ++ put ++ err → (h = [] ∧ put = [] ∧ err = [] ∨ ∃ b, h = [b] ∧ is_hello b) →
  heard min cs ≠ Refused version.
Proof. intros Hm E Hh. destruct (heard_prefix min cs more h put err Hm E Hh) as [-> |(b & cs' & _ & -> & _)]; done. Qed.

(** What an end makes of the messages [h ++ put] that the other one sent: once it has taken one, it is connected. *)
Lemma one_end {S : Type} min (v : vconn S) cs more h put put' err h' : min <= OFP_VERSION → state_ok min v cs h' put' err →
  cs ++ more = h ++ put → (h = [] ∧ put = [] ∨ ∃ b, h = [b] ∧ is_hello b) →
  (cs ≠ [] → v_state v = VCS_CONNECTED) ∧ (v_state v = VCS_CONNECTED → v_version v = OFP_VERSION) ∧
  given min Waiting cs `prefix_of` filter (λ b, delivers (Up OFP_VERSION) b) put.
Proof.
  intros Hm Hst E Hh. rewrite <- (app_nil_r put) in E. assert (h = [] ∧ put = [] ∧ @nil (list Z) = [] ∨ ∃ b, h = [b] ∧ is_hello b) as Hh' by (destruct Hh as [[? ?]|?]; auto).
  destruct (heard_prefix min cs more h put [] Hm E Hh') as [-> |(b & cs' & -> & Ehd & E' & Eg)].
  - unfold state_ok in Hst. split_and!; [done|intros Es; rewrite Es in Hst; by destruct Hst|apply prefix_nil].
  - unfold state_ok in Hst. rewrite Ehd in Hst. split_and!.
    + intros _. destruct (v_state v); try done; destruct Hst as [H1 H2]; try done. by destruct (proj1 H2 OFP_VERSION).
    + intros Es. rewrite Es in Hst. destruct Hst as [Hst _]. congruence.
    + rewrite Eg, given_filter. rewrite app_nil_r in E'. rewrite <- E', list.filter_app. by apply prefix_app_r.
Qed.

(** What an end has sent: nothing; or its hello and the messages it accepted, and no error. *)
Definition no_refusal {S : Type} `{VC : vconn_class S} `{C : !carries S} (v : vconn S) (put : list (list Z)) : Prop :=
  outbox (v_class v) = [] ∧ put = [] ∨ ∃ b, is_hello b ∧ outbox (v_class v) = b :: put.

(** C30: two ends of this code agree.  If each end receives what the other one sends, in order and up to some
    point, and both accept version 4, then whatever is done on either side: an end that has taken any message from the other is
    connected, and uses version 4; neither refuses the other, that is, no error message is ever sent: an end has sent nothing, or a hello and then
    exactly the messages it accepted; and the messages passed on at one end are, in order and without a gap, those accepted at the
    other that are of version 4 or of a type for which the version does not matter (the others are dropped). *)
Theorem vconn_ends_agree {S T : Type} `{VCS : vconn_class S} `{CS : !carries S} `{VCT : vconn_class T} `{CT : !carries T}
    (s : S) (t : T) (status_s status_t min_s min_t : Z) (turns : nat) (ops_s ops_t : list vconn_op)
    (v : vconn S) (w : vconn T) (got_s put_s got_t put_t : list (list Z))
    (Hs : vc_ok s) (Hs' : outbox s = []) (Hms : 0 <= min_s <= OFP_VERSION) (Hts : (length (inbox s) < turns)%nat) (Hos : Forall vop_ok ops_s)
    (Ht : vc_ok t) (Ht' : outbox t = []) (Hmt : 0 <= min_t <= OFP_VERSION) (Htt : (length (inbox t) < turns)%nat) (Hot : Forall vop_ok ops_t)
    (Ev : vconn_run turns ops_s (vconn_open s status_s min_s) = Some (v, got_s, put_s))
    (Ew : vconn_run turns ops_t (vconn_open t status_t min_t) = Some (w, got_t, put_t))
    (Hst : inbox s `prefix_of` outbox (v_class w)) (Hts' : inbox t `prefix_of` outbox (v_class v)) :
  (inbox (v_class v) ≠ inbox s → v_state v = VCS_CONNECTED) ∧ (inbox (v_class w) ≠ inbox t → v_state w = VCS_CONNECTED) ∧
  (v_state v = VCS_CONNECTED → v_version v = OFP_VERSION) ∧ (v_state w = VCS_CONNECTED → v_version w = OFP_VERSION) ∧
  no_refusal v put_s ∧ no_refusal w put_t ∧
  got_s `prefix_of` filter (λ b, delivers (Up OFP_VERSION) b) put_t ∧
  got_t `prefix_of` filter (λ b, delivers (Up OFP_VERSION) b) put_s.
Proof.
  destruct (vconn_runs min_s _ _ turns ops_s _ [] [] (proj1 Hms) Hts Hos (opened_ok min_s s status_s Hs)) as (? & ? & ? & Ev' & _ & _ & cs & h & err & Ei & Eg & Eo & Hst1).
  destruct (vconn_runs min_t _ _ turns ops_t _ [] [] (proj1 Hmt) Htt Hot (opened_ok min_t t status_t Ht)) as (? & ? & ? & Ew' & _ & _ & ct & h' & err' & Ei' & Eg' & Eo' & Hst2).
  rewrite Ev in Ev'. injection Ev' as <- <- <-. rewrite Ew in Ew'. injection Ew' as <- <- <-. cbn [app] in *. rewrite Hs' in Eo. rewrite Ht' in Eo'. cbn [app] in Eo, Eo'.
  destruct Hst as [rs Hrs], Hts' as [rt Hrt]. rewrite Eo', Ei, <- app_assoc in Hrs. rewrite Eo, Ei', <- app_assoc in Hrt.
  pose proof (sent_shape _ _ _ _ _ _ Hst1) as S1. pose proof (sent_shape _ _ _ _ _ _ Hst2) as S2.
  assert (err = []) as -> by (destruct S1 as [(_ & _ & ?)|[_ [?|[version Hr]]]]; [done..|]; destruct (not_refused min_s cs _ h' put_t err' version (proj2 Hms) (eq_sym Hrs)); [naive_solver|done]).
  assert (err' = []) as -> by (destruct S2 as [(_ & _ & ?)|[_ [?|[version Hr]]]]; [done..|]; destruct (not_refused min_t ct _ h put_s [] version (proj2 Hmt) (eq_sym Hrt)); [naive_solver|done]).
  rewrite app_nil_r in Hrs, Hrt, Eo, Eo'. rewrite Eg, Eg'.
  destruct (one_end min_s v cs _ h' put_t put_s [] h (proj2 Hms) Hst1 (eq_sym Hrs)) as (? & ? & ?); [naive_solver|].
  destruct (one_end min_t w ct _ h put_s put_t [] h' (proj2 Hmt) Hst2 (eq_sym Hrt)) as (? & ? & ?); [naive_solver|].
  assert (no_refusal v put_s) by (unfold no_refusal; rewrite Eo; destruct S1 as [(-> & -> & _)|[(b & -> & Hb) _]]; [by left|right; by exists b]).
  assert (no_refusal w put_t) by (unfold no_refusal; rewrite Eo'; destruct S2 as [(-> & -> & _)|[(b & -> & Hb) _]]; [by left|right; by exists b]).
  split_and!; [intros Hne; match goal with H : _ → v_state v = _ |- _ => apply H end; intros ->; by apply Hne; rewrite Ei
              |intros Hne; match goal with H : _ → v_state w = _ |- _ => apply H end; intros ->; by apply Hne; rewrite Ei'|done..].
Qed.

(** * Examples *)

(** Over streams: a peer that sends a PACKET_IN, its hello of version 5, and then messages of the versions 4, 1 and 4. *)
Definition ex_hello5 : list Z := [5; 0; 0; 8; 0; 0; 0; 7].
Definition ex_packet_in : list Z := [1; 10; 0; 8; 0; 0; 0; 0].
Definition ex_old : list Z := [1; 14; 0; 8; 0; 0; 0; 3].
Definition ex_peer (ms : list (list Z)) : stream_vconn := new_stream_vconn (Sock (concat ms) [] [] (replicate 60 (Upto 5)) (replicate 20 (Upto 6))).
Definition ex_ops : list vconn_op := [VSend (1, 2) ex_long; VPoll; VPoll] ++ replicate 16 (VRecv (1, 2)) ++ [VSend (1, 2) ex_long; VPoll].

Lemma ex_peer_ok ms : bytes (concat ms) → stream_ok (ex_peer ms).
Proof.
  intros H. split; unfold ex_peer; cbn [new_stream_vconn st_rxbuf st_txbuf st_sock sk_in sk_out sk_connects sk_reads sk_writes from_option].
  - left. cbn. lia.
  - exact H.
  - by exists [].
  - constructor.
  - by apply Forall_replicate.
  - by apply Forall_replicate.
Qed.

Lemma ex_ops_ok : Forall vop_ok ex_ops.
Proof. destruct ex_messages. by repeat constructor. Qed.

Lemma vconn_negotiates_witness :
  ∃ v got put, vconn_run 10 ex_ops (vconn_open (ex_peer [ex_packet_in; ex_hello5; ex_long; ex_old; ex_short]) 0 1) = Some (v, got, put) ∧
    v_version v = 4 ∧ got = [ex_long; ex_short] ∧ put = [ex_long].
Proof.
  destruct (vconn_negotiates (ex_peer [ex_packet_in; ex_hello5; ex_long; ex_old; ex_short]) 0 1 10 ex_ops) as (v & got & put & cs & h & err & E & _).
  - apply ex_peer_ok. repeat constructor; unfold fits; lia.
  - lia.
  - vm_compute. lia.
  - exact ex_ops_ok.
  - exists v, got, put. split; [exact E|]. vm_compute in E. injection E as <- <- <-. by repeat split.
Defined.

(** Two ends, each of which has received what the other one sends. *)
Definition ex_hello4 : list Z := [4; 0; 0; 8; 0; 0; 0; 1].
Definition ex_end_a : stream_vconn := ex_peer [ex_hello4; ex_long].
Definition ex_end_b : stream_vconn := ex_peer [ex_hello4; ex_long].

Lemma vconn_ends_agree_witness :
  ∃ v w, vconn_run 10 ex_ops (vconn_open ex_end_a 0 1) = Some (v, [ex_long], [ex_long]) ∧ vconn_run 10 ex_ops (vconn_open ex_end_b 0 4) = Some (w, [ex_long], [ex_long]) ∧
    v_state v = VCS_CONNECTED ∧ v_version v = 4 ∧ v_version w = 4.
Proof.
  destruct (vconn_run 10 ex_ops (vconn_open ex_end_a 0 1)) as [[[v got] put]|] eqn:Ev; [|by vm_compute in Ev].
  destruct (vconn_run 10 ex_ops (vconn_open ex_end_b 0 4)) as [[[w got'] put']|] eqn:Ew; [|by vm_compute in Ew].
  destruct (vconn_ends_agree ex_end_a ex_end_b 0 0 1 4 10 ex_ops ex_ops v w got put got' put') as (Hv & Hw & _).
  1, 6: apply ex_peer_ok; repeat constructor; unfold fits; lia.
  1, 5: vm_compute; reflexivity.
  1, 4: unfold OFP_VERSION; lia.
  1, 3: vm_compute; lia.
  1, 2: exact ex_ops_ok.
  - exact Ev.
  - exact Ew.
  - vm_compute in Ew. injection Ew as <- <- <-. exists []. vm_compute. reflexivity.
  - vm_compute in Ev. injection Ev as <- <- <-. exists []. vm_compute. reflexivity.
  - vm_compute in Ev, Ew. injection Ev as <- <- <-. injection Ew as <- <- <-. eexists _, _. by repeat split.
Defined.
