(* ===== verification/StpCorrect.v ===== *)
(** The spanning tree protocol does its work: what is the root port and which ports are
    designated, which ports forward, that a network that has settled has no loop; what becomes of
    a BPDU on its way; and how fast time passes. *)

From S2P Require Import Prelude Wire WireCorrect Stp StpInvariant.

(** The port of a call is one of the bridge. *)
Definition valid (o : stp_op) : Prop :=
  match o with
  | OpBpdu i _ | OpEnable i | OpDisable i | OpPortPriority i _ | OpPathCost i _ | OpSpeed i _ | OpDetect i _ => (i < STP_MAX_PORTS)%nat
  | _ => True
  end.

Definition is_tick (o : stp_op) : Prop := match o with OpTick _ => True | _ => False end.

Lemma update_timers_ok b rq : stp_ok b → stp_ok (stp_update_bridge_timers (set_own_times rq (b_bridge_times b) b)) ∧
  calm b (stp_update_bridge_timers (set_own_times rq (b_bridge_times b) b)).
Proof.
  intros Hb. assert (Hq : quiet b (stp_update_bridge_timers (set_own_times rq (b_bridge_times b) b))).
  { etrans; [|apply quiet_update_timers]. apply quiet_set_own. }
  split; [by eapply quiet_ok|by apply quiet_calm].
Qed.

Lemma stp_step_ok o b : valid o → ¬ is_tick o → stp_ok b → stp_ok (stp_step o b) ∧ calm b (stp_step o b).
Proof.
  intros Hv Hn Hb. destruct o; cbn [stp_step valid is_tick] in *;
    unfold stp_set_bridge_id, stp_set_bridge_priority, stp_set_hello_time, stp_set_max_age, stp_set_forward_delay, stp_port_set_speed.
  - done.
  - by apply bpdu_ok.
  - by apply change_id_ok.
  - by apply change_id_ok.
  - by apply update_timers_ok.
  - by apply update_timers_ok.
  - by apply update_timers_ok.
  - by apply changed_port_ok.
  - by apply port_enable_ok.
  - by apply port_disable_ok.
  - by apply port_priority_ok.
  - by apply path_cost_ok.
  - by apply path_cost_ok.
  - destruct on; (split; [by eapply quiet_ok, Hb; apply detect_quiet|by apply quiet_calm, detect_quiet]).
Qed.

Lemma any_step_ok o b : valid o → stp_ok b → stp_ok (stp_step o b).
Proof. intros Hv Hb. destruct o; try (apply stp_step_ok; [done|by intros []|done]). by apply tick_ok. Qed.

Lemma run_ok ops b : Forall valid ops → stp_ok b → stp_ok (stp_run ops b).
Proof.
  unfold stp_run. intros Hv. revert b. induction Hv as [|o ops Ho _ IH]; intros b Hb; [done|]. cbn [foldl]. by apply IH, any_step_ok.
Qed.

(** C12: the invariant of the protocol.  From [stp_create] on, whatever BPDUs arrive (any bytes), however
    time passes and whatever is configured: each port keeps its number, a port that listens, learns
    or forwards is the root port or designated; its forward delay runs exactly while it listens or
    learns; what an enabled port heard of another bridge is being aged; the root port is enabled
    and its root is better than the bridge itself, and without one the bridge holds itself for the
    root; and a port whose state has changed is still to be reported by [stp_get_changed_port]. *)
Theorem stp_invariant (bridge_id : Z) (ops : list stp_op) (b : stp) (Hv : Forall valid ops) (E : b = stp_run ops (stp_create bridge_id)) :
  (∀ i, (i < STP_MAX_PORTS)%nat →
     p_port_id (port b i) mod 256 = Z.of_nat i + 1 ∧
     (active (port b i) → b_root_port b = Some i ∨ stp_is_designated_port b i = true) ∧
     (t_active (p_forward_delay_timer (port b i)) = true ↔ waiting (port b i)) ∧
     (enabled (port b i) = true → stp_is_designated_port b i = true ∨ t_active (p_message_age_timer (port b i)) = true) ∧
     (p_state_changed (port b i) = true → (b_first_changed_port b <= i)%nat)) ∧
  match b_root_port b with
  | Some r => enabled (port b r) = true ∧ b_designated_root b < b_bridge_id b
  | None => stp_is_root_bridge b = true
  end.
Proof.
  assert (Hok : stp_ok b) by (rewrite E; by apply run_ok, stp_create_ok). clear E.
  destruct Hok as [Hbase Hage Hroot Hroles]. split.
  - intros i Hi. destruct (bo_ports _ Hbase i Hi). split_and!; [done|by apply Hroles|done|by apply Hage|done].
  - unfold root_ok in Hroot. destruct (b_root_port _); [by destruct Hroot as (_ & ? & ?)|]. unfold stp_is_root_bridge. by apply Z.eqb_eq.
Qed.

(** C15: no port forwards that has not learned.  Whatever is called, a port that is forwarding afterwards
    was learning or forwarding before; and except by the passing of time no port gets to learning
    or forwarding at all.  A frame can so loop only while the delays run out. *)
Theorem forwarding_learned (b : stp) (o : stp_op) (i : nat) (Hb : stp_ok b) (Hv : valid o) (Hi : (i < STP_MAX_PORTS)%nat) :
  (p_state (port (stp_step o b) i) = STP_FORWARDING → p_state (port b i) = STP_LEARNING ∨ p_state (port b i) = STP_FORWARDING) ∧
  (¬ is_tick o → live (port (stp_step o b) i) → p_state (port (stp_step o b) i) = p_state (port b i)).
Proof.
  assert (Hs : ¬ is_tick o → live (port (stp_step o b) i) → p_state (port (stp_step o b) i) = p_state (port b i)) by (intros Hn; by apply stp_step_ok).
  split; [|done]. intros E. destruct o; try (right; rewrite <- Hs; [done|by intros []|by right]). by eapply tick_ok.
Qed.

(** * Root and designated ports *)

(** What [stp_supersedes_root] compares, and the order. *)
Definition key (p : stp_port) : list Z :=
  [i_root (p_info p); i32 (i_cost (p_info p) + p_path_cost p); i_bridge (p_info p); i_port (p_info p); p_port_id p].

Fixpoint lex_lt (l k : list Z) : Prop :=
  match l, k with x :: l, y :: k => x < y ∨ x = y ∧ lex_lt l k | _, _ => False end.

Lemma lex_trans l k m : lex_lt l k → lex_lt k m → lex_lt l m.
Proof.
  revert k m. induction l as [|x l IH]; intros [|y k] [|z m]; cbn; try done. intros [?|[-> ?]] [?|[-> ?]]; [left; lia|by left|by left|].
  right. split; [done|by eapply IH].
Qed.

Lemma supersedes_lex r p : stp_supersedes_root r p = true ↔ lex_lt (key p) (key r).
Proof.
  unfold stp_supersedes_root, key. cbn [lex_lt].
  repeat match goal with |- context [negb (?x =? ?y)] => destruct (Z.eqb_spec x y) as [->|]; cbn [negb] end; rewrite ?Z.ltb_lt; naive_solver lia.
Qed.

Lemma lex_total l k : length l = length k → l ≠ k → lex_lt l k ∨ lex_lt k l.
Proof.
  revert k. induction l as [|x l IH]; intros [|y k] Hl Hn; try done. cbn. destruct (Z.lt_trichotomy x y) as [?|[->|?]]; [left; by left| |right; by left].
  destruct (IH k) as [?|?]; [by injection Hl|by intros ->|left; by right|right; by right].
Qed.

(** A port by which the root could be reached. *)
Definition candidate (b : stp) (i : nat) : Prop :=
  enabled (port b i) = true ∧ stp_is_designated_port b i = false ∧ i_root (p_info (port b i)) < b_bridge_id b.

Lemma id_inj b i j : base_ok b → (i < STP_MAX_PORTS)%nat → (j < STP_MAX_PORTS)%nat → p_port_id (port b i) = p_port_id (port b j) → i = j.
Proof.
  intros [_ Hp] Hi Hj E. pose proof (po_id _ _ _ (Hp i Hi)) as E1. pose proof (po_id _ _ _ (Hp j Hj)) as E2. rewrite E, E2 in E1. lia.
Qed.

Lemma key_total b i j : base_ok b → (i < STP_MAX_PORTS)%nat → (j < STP_MAX_PORTS)%nat → i ≠ j →
  lex_lt (key (port b i)) (key (port b j)) ∨ lex_lt (key (port b j)) (key (port b i)).
Proof. intros Hb Hi Hj Hn. apply lex_total; [done|]. intros [= _ _ _ _ E]. destruct Hn. by eapply id_inj. Qed.

(** The best of the ports in a list, and of what the loop starts with. *)
Definition best (b : stp) (l : list nat) (r : option nat) : Prop :=
  match r with
  | None => ∀ i, i ∈ l → ¬ candidate b i
  | Some r => r ∈ l ∧ candidate b r ∧ ∀ i, i ∈ l → candidate b i → i ≠ r → lex_lt (key (port b r)) (key (port b i))
  end.

Lemma select_best b l i r :
  base_ok b → (∀ j, j ∈ l ++ [i] → (j < STP_MAX_PORTS)%nat) → i ∉ l → best b l r → best b (l ++ [i]) (select_root b r i).
Proof.
  intros Hb Hl Hi Hr. unfold select_root.
  assert (Hskip : ¬ candidate b i → best b (l ++ [i]) r).
  { intros Hn. destruct r as [r|]; cbn in *; [destruct Hr as (H1 & H2 & H3); split_and!; [set_solver|done|]|]; intros j [Hj| ->%list_elem_of_singleton]%elem_of_app; auto. by intros ?. }
  destruct (enabled (port b i)) eqn:He; cbn [negb]; [|apply Hskip; intros (? & _ & _); congruence].
  destruct (stp_is_designated_port b i) eqn:Hd; cbn [orb]; [apply Hskip; intros (_ & ? & _); congruence|].
  destruct (Z.leb_spec (b_bridge_id b) (i_root (p_info (port b i)))); [apply Hskip; intros (_ & _ & ?); lia|].
  assert (Hc : candidate b i) by done. destruct r as [r|]; cbn in Hr.
  - destruct Hr as (H1 & H2 & H3). assert (Hne : r ≠ i) by (intros ->; done). destruct (stp_supersedes_root (port b r) (port b i)) eqn:Es; cbn [negb].
    + apply supersedes_lex in Es. split_and!; [set_solver|done|]. intros j [Hj| ->%list_elem_of_singleton]%elem_of_app Hcj Hnj; [|done].
      destruct (decide (j = r)) as [->|]; [done|]. eapply lex_trans; [exact Es|by apply H3].
    + split_and!; [set_solver|done|]. intros j [Hj| ->%list_elem_of_singleton]%elem_of_app Hcj Hnj; [by apply H3|].
      destruct (key_total b r i Hb) as [?|Hx]; [apply Hl; set_solver|apply Hl; set_solver|done|done|]. apply supersedes_lex in Hx. congruence.
  - split_and!; [set_solver|done|]. intros j [Hj| ->%list_elem_of_singleton]%elem_of_app Hcj Hnj; [by destruct (Hr j Hj)|done].
Qed.

Lemma selection_best b : base_ok b → best b (seq 0 STP_MAX_PORTS) (foldl (select_root b) None (seq 0 STP_MAX_PORTS)).
Proof.
  intros Hb. assert (Hl : ∀ n k r, (k + n = STP_MAX_PORTS)%nat → best b (seq 0 k) r → best b (seq 0 STP_MAX_PORTS) (foldl (select_root b) r (seq k n))).
  { induction n as [|n IH]; intros k r Hk Hr; [replace STP_MAX_PORTS with k by lia; done|]. cbn [seq foldl]. apply IH; [lia|].
    rewrite seq_S. cbn [Nat.add]. apply select_best; [done| | |done].
    - intros j [?%elem_of_seq| ->%list_elem_of_singleton]%elem_of_app; lia.
    - rewrite elem_of_seq. lia. }
  apply Hl; [done|]. intros i Hi. by apply elem_of_nil in Hi.
Qed.

(** ** The designated ports *)

(** What the bridge would send on the port is better than what it heard there. *)
Definition outbids (b : stp) (p : stp_port) : Prop :=
  i_root (p_info p) ≠ b_designated_root b ∨
  ¬ lex_lt [u32 (i_cost (p_info p)); i_bridge (p_info p); i_port (p_info p)] [b_root_path_cost b; b_bridge_id b; p_port_id p].

Definition own_info (b : stp) (p : stp_port) : info := Info (b_designated_root b) (i32 (b_root_path_cost b)) (b_bridge_id b) (p_port_id p).

Lemma bid_spec i b :
  (designated b i ∨ outbids b (port b i)) ∧ bid i b = stp_become_designated_port i b ∨
  ¬ (designated b i ∨ outbids b (port b i)) ∧ bid i b = b.
Proof.
  unfold bid, designated, outbids. cbn [lex_lt]. destruct (stp_is_designated_port b i); cbn [orb]; [left; by auto|].
  destruct (Z.eqb_spec (i_root (p_info (port b i))) (b_designated_root b)) as [E|E]; cbn [negb orb]; [|left; by auto].
  set (c := u32 _). set (i' := i_bridge _). set (n := i_port _).
  destruct (Z.ltb_spec (b_root_path_cost b) c); cbn [orb]; [left; split; [right; right; naive_solver lia|done]|].
  destruct (Z.eqb_spec (b_root_path_cost b) c); cbn [andb]; [|right; split; [naive_solver lia|done]].
  destruct (Z.ltb_spec (b_bridge_id b) i'); cbn [orb]; [left; split; [right; right; naive_solver lia|done]|].
  destruct (Z.eqb_spec (b_bridge_id b) i'); cbn [andb]; [|right; split; [naive_solver lia|done]].
  destruct (Z.leb_spec (p_port_id (port b i)) n); [left; split; [right; right; naive_solver lia|done]|right; split; [naive_solver lia|done]].
Qed.

(** Everything but the ports is the same. *)
Definition only_ports (b b' : stp) : Prop := b' = set_ports (b_ports b') (b_first_changed_port b) b.

#[export] Instance only_ports_preorder : PreOrder only_ports.
Proof. split; [by intros []|]. unfold only_ports. intros a b c -> E. rewrite E. by destruct c. Qed.

(** A loop whose turns change the port only, by what it was. *)
Lemma for_each_ports f (h : nat → stp_port → stp_port) b :
  (∀ i b', (i < STP_MAX_PORTS)%nat → only_ports b b' → length (b_ports b') = length (b_ports b) → port b' i = port b i → enabled (port b i) = true →
     only_ports b' (f i b') ∧ length (b_ports (f i b')) = length (b_ports b') ∧ port (f i b') i = h i (port b i) ∧
     ∀ j, j ≠ i → port (f i b') j = port b' j) →
  only_ports b (for_each f b) ∧ length (b_ports (for_each f b)) = length (b_ports b) ∧
  ∀ i, (i < STP_MAX_PORTS)%nat → port (for_each f b) i = if enabled (port b i) then h i (port b i) else port b i.
Proof.
  intros Hf. unfold for_each. set (g := λ b i, if enabled (port b i) then f i b else b).
  assert (Hl : ∀ n k b', (k + n = STP_MAX_PORTS)%nat → only_ports b b' → length (b_ports b') = length (b_ports b) →
    (∀ i, (i < STP_MAX_PORTS)%nat → port b' i = if decide (i < k)%nat then if enabled (port b i) then h i (port b i) else port b i else port b i) →
    only_ports b (foldl g b' (seq k n)) ∧ length (b_ports (foldl g b' (seq k n))) = length (b_ports b) ∧
    ∀ i, (i < STP_MAX_PORTS)%nat → port (foldl g b' (seq k n)) i = if enabled (port b i) then h i (port b i) else port b i).
  { induction n as [|n IH]; intros k b' Hk Ho Hlen Hp.
    - split_and!; [done|done|]. intros i Hi. cbn [seq foldl]. rewrite Hp by done. by rewrite decide_True by lia.
    - cbn [seq foldl]. assert (Hpk : port b' k = port b k) by (rewrite Hp by lia; by rewrite decide_False by lia).
      unfold g at 2 4 6. rewrite Hpk. destruct (enabled (port b k)) eqn:He.
      + destruct (Hf k b') as (H1 & H2 & H3 & H4); [lia|done|done|done|done|]. apply IH; [lia|by etrans|congruence|]. intros i Hi.
        destruct (decide (i = k)) as [->|Hne]; [by rewrite H3, decide_True, He by lia|]. rewrite H4, Hp by done.
        destruct (decide (i < k)%nat), (decide (i < S k)%nat); (done || lia).
      + apply IH; [lia|done|done|]. intros i Hi. rewrite Hp by done. destruct (decide (i < k)%nat), (decide (i < S k)%nat); try (done || lia).
        assert (i = k) as -> by lia. by rewrite He. }
  by apply (Hl STP_MAX_PORTS 0%nat b); [|done..].
Qed.

(** The turn as a function of the port. *)
Definition settle (b : stp) (i : nat) (p : stp_port) : stp_port :=
  if decide (stp_is_designated_port b i = true ∨ i_root (p_info p) ≠ b_designated_root b ∨
             b_root_path_cost b < u32 (i_cost (p_info p)) ∨
             b_root_path_cost b = u32 (i_cost (p_info p)) ∧
             (b_bridge_id b < i_bridge (p_info p) ∨ b_bridge_id b = i_bridge (p_info p) ∧ p_port_id p <= i_port (p_info p)))
  then set_info (own_info b p) p else p.

Lemma settle_spec b i :
  (designated b i ∨ outbids b (port b i)) ∧ settle b i (port b i) = set_info (own_info b (port b i)) (port b i) ∨
  ¬ (designated b i ∨ outbids b (port b i)) ∧ settle b i (port b i) = port b i.
Proof.
  unfold settle, outbids, designated. cbn [lex_lt]. set (c := u32 _). set (i' := i_bridge _). set (n := i_port _). set (r := i_root _).
  destruct (decide _) as [H|H]; [left|right]; (split; [|done]).
  - destruct H as [?|[?|[?|[? [?|[? ?]]]]]]; [by left|right; by left|right; right; lia..].
  - intros [?|[?|Hn]]; apply H; [by left|right; by left|]. destruct (decide (stp_is_designated_port b i = true)); [by left|]. destruct (decide (r = b_designated_root b)); [|right; by left].
    right; right. lia.
Qed.

Lemma designated_selection_ports b : base_ok b →
  only_ports b (stp_designated_port_selection b) ∧ length (b_ports (stp_designated_port_selection b)) = length (b_ports b) ∧
  ∀ i, (i < STP_MAX_PORTS)%nat →
    port (stp_designated_port_selection b) i = if enabled (port b i) then settle b i (port b i) else port b i.
Proof.
  intros [Hl Hp]. apply for_each_ports. intros i b' Hi Ho Hlen E _.
  assert (Hs : settle b i (port b i) = settle b' i (port b' i)) by (unfold settle, own_info, stp_is_designated_port; rewrite E, Ho; done).
  rewrite Hs. destruct (bid_spec i b') as [[H1 ->]|[H1 ->]], (settle_spec b' i) as [[H2 ->]|[H2 ->]]; try done.
  split; [by destruct b'|]. split; [unfold stp_become_designated_port; apply upd_length|]. split.
  - rewrite designate_port, decide_True by (by rewrite Hlen, Hl). done.
  - intros j Hj. rewrite designate_port, decide_False by naive_solver. done.
Qed.

(** The root port of [b'] is the best candidate of [b], and its root is the root; without a candidate
    the bridge is. *)
Definition root_chosen (b b' : stp) : Prop :=
  match b_root_port b' with
  | None => (∀ i, (i < STP_MAX_PORTS)%nat → ¬ candidate b i) ∧ b_designated_root b' = b_bridge_id b ∧ b_root_path_cost b' = 0
  | Some r => (r < STP_MAX_PORTS)%nat ∧ candidate b r ∧
      (∀ i, (i < STP_MAX_PORTS)%nat → candidate b i → i ≠ r → lex_lt (key (port b r)) (key (port b i))) ∧
      b_designated_root b' = i_root (p_info (port b r)) ∧ b_root_path_cost b' = u32 (i_cost (p_info (port b r)) + p_path_cost (port b r))
  end.

Lemma selection_chosen b : base_ok b → root_chosen b (stp_root_selection b).
Proof.
  intros Hb. pose proof (selection_best b Hb) as H. unfold root_chosen, stp_root_selection.
  destruct (foldl _ _ _) as [r|]; cbn [best set_root b_root_port b_designated_root b_root_path_cost] in *.
  - destruct H as (H1%elem_of_seq & H2 & H3). split_and!; [lia|done| |done|done]. intros i Hi. apply H3, elem_of_seq. lia.
  - split_and!; [|done|done]. intros i Hi. apply H, elem_of_seq. lia.
Qed.

Lemma update_facts b (Hb : base_ok b) :
  root_chosen b (stp_configuration_update b) ∧
  ∀ i, (i < STP_MAX_PORTS)%nat → enabled (port b i) = true →
    (designated b i ∨ outbids (stp_configuration_update b) (port b i) →
       port (stp_configuration_update b) i = set_info (own_info (stp_configuration_update b) (port b i)) (port b i)) ∧
    (¬ (designated b i ∨ outbids (stp_configuration_update b) (port b i)) → port (stp_configuration_update b) i = port b i).
Proof.
  unfold stp_configuration_update. destruct (root_selection_spec b) as [(root & cost & rp & E) _].
  assert (Hb1 : base_ok (stp_root_selection b)) by (rewrite E; destruct Hb; by split). pose proof (selection_chosen b Hb) as Hbest.
  revert E Hb1 Hbest. generalize (stp_root_selection b). intros b1 E Hb1 Hbest.
  destruct (designated_selection_ports b1 Hb1) as (Ho & _ & Hp).
  assert (Hport : ∀ i, port b1 i = port b i) by (intros i; by rewrite E). assert (Hid : b_bridge_id b1 = b_bridge_id b) by (by rewrite E).
  revert Ho Hp. generalize (stp_designated_port_selection b1). intros b2 Ho Hp.
  assert (Hg : b_root_port b2 = b_root_port b1 ∧ b_designated_root b2 = b_designated_root b1 ∧ b_root_path_cost b2 = b_root_path_cost b1 ∧
    b_bridge_id b2 = b_bridge_id b1) by (by rewrite Ho).
  destruct Hg as (G1 & G2 & G3 & G4). unfold root_chosen in *. rewrite G1, G2, G3. split; [exact Hbest|]. intros i Hi He.
  rewrite (Hp i Hi), Hport, He. pose proof (settle_spec b1 i) as Hs. rewrite Hport in Hs.
  assert (Hd : designated b1 i ↔ designated b i) by (unfold designated, stp_is_designated_port; by rewrite Hport, Hid).
  unfold outbids, own_info in *. rewrite G2, G3, G4. tauto.
Qed.

(** The same for a bridge that is as the update leaves it. *)
Lemma settled_facts b : base_ok b → stp_configuration_update b = b →
  root_chosen b b ∧
  ∀ i, (i < STP_MAX_PORTS)%nat → enabled (port b i) = true →
    designated b i ∨ outbids b (port b i) → port b i = set_info (own_info b (port b i)) (port b i).
Proof.
  intros Hb E. destruct (update_facts b Hb) as [H1 H2]. revert H1 H2. rewrite E. intros H1 H2. split; [exact H1|]. intros i Hi He Hd.
  destruct (H2 i Hi He) as [H _]. exact (H Hd).
Qed.

(** C14: which port leads to the root and which ports are designated.  After
    [stp_configuration_update] the root port is the best of the enabled ports that are not designated and on
    which a root better than the bridge was heard: least, in this order, are the root, the cost
    through the port, the bridge and port that sent it, and the own number of the port.  Its root
    is the bridge's, at the cost through it; without such a port the bridge is the root.  An
    enabled port is then designated, with the bridge's own information, exactly if it was
    so already or the bridge outbids what was heard there; the other ports keep what they heard. *)
Theorem configuration_exact (b : stp) (Hb : base_ok b) :
  root_chosen b (stp_configuration_update b) ∧
  ∀ i, (i < STP_MAX_PORTS)%nat → enabled (port b i) = true →
    (designated b i ∨ outbids (stp_configuration_update b) (port b i) →
       port (stp_configuration_update b) i = set_info (own_info (stp_configuration_update b) (port b i)) (port b i)) ∧
    (¬ (designated b i ∨ outbids (stp_configuration_update b) (port b i)) → port (stp_configuration_update b) i = port b i).
Proof. exact (update_facts b Hb). Qed.

(** * Configuration BPDUs *)

Record config_ok (c : stp_config_bpdu) : Prop := {
  co_flags : fits 8 (c_flags c);
  co_root : fits 64 (c_root_id c);
  co_cost : fits 32 (c_root_path_cost c);
  co_bridge : fits 64 (c_bridge_id c);
  co_port : fits 16 (c_port_id c);
  co_age : fits 16 (c_message_age c);
  co_max : fits 16 (c_max_age c);
  co_hello : fits 16 (c_hello_time c);
  co_delay : fits 16 (c_forward_delay c) }.

Lemma config_back c : config_ok c → config_of (config_bytes c) = c.
Proof.
  intros []. unfold config_of.
  change (field (config_bytes c) 4 1) with (be_read (be 1 (c_flags c))). change (field (config_bytes c) 5 8) with (be_read (be 8 (c_root_id c))).
  change (field (config_bytes c) 13 4) with (be_read (be 4 (c_root_path_cost c))). change (field (config_bytes c) 17 8) with (be_read (be 8 (c_bridge_id c))).
  change (field (config_bytes c) 25 2) with (be_read (be 2 (c_port_id c))). change (field (config_bytes c) 27 2) with (be_read (be 2 (c_message_age c))).
  change (field (config_bytes c) 29 2) with (be_read (be 2 (c_max_age c))). change (field (config_bytes c) 31 2) with (be_read (be 2 (c_hello_time c))).
  change (field (config_bytes c) 33 2) with (be_read (be 2 (c_forward_delay c))).
  rewrite !be_read_be by done. by destruct c.
Qed.

Lemma received_config i c b : enabled (port b i) = true → config_ok c → stp_received_bpdu i (config_bytes c) b = stp_received_config_bpdu i c b.
Proof.
  intros He Hc. unfold stp_received_bpdu. rewrite He. cbn [negb]. change (length (config_bytes c)) with 35%nat.
  change (field (config_bytes c) 0 2) with 0. change (field (config_bytes c) 3 1) with 0. cbn [Nat.ltb Nat.leb]. rewrite config_back by done. reflexivity.
Qed.

(** The byte swapped flags do not meet the byte. *)
Lemma flag_lost f flag : fits 8 f → fits 8 flag → Z.land f (bswap16 flag) = 0.
Proof.
  intros Hf Hg. assert (E : bswap16 flag = Z.shiftl flag 8).
  { unfold bswap16. rewrite Z.shiftr_div_pow2, (Z.div_small flag) by (unfold fits in Hg; lia). rewrite Z.land_0_l, Z.lor_0_r. f_equal.
    change 0xff with (Z.ones 8). rewrite Z.land_ones by lia. by apply Z.mod_small. }
  rewrite E. apply Z.bits_inj'. intros n Hn. rewrite Z.land_spec, Z.shiftl_spec, Z.bits_0 by done. destruct (Z.lt_ge_cases n 8).
  - rewrite (Z.testbit_neg_r flag) by lia. apply andb_false_r.
  - by rewrite (fits_high 8 f).
Qed.

(** A configuration message arrives as it was sent.  The message a bridge builds for a port
    is read back from its 35 bytes member by member, whatever the members are within their widths,
    and an enabled port handles it as that message. *)
Theorem config_round_trip (c : stp_config_bpdu) (b : stp) (i : nat) (Hc : config_ok c) (He : enabled (port b i) = true) :
  length (config_bytes c) = 35%nat ∧ config_of (config_bytes c) = c ∧
  stp_received_bpdu i (config_bytes c) b = stp_received_config_bpdu i c b.
Proof. split; [done|]. split; [by apply config_back|by apply received_config]. Qed.

(** The flags of configuration messages are lost.  [stp_transmit_config] puts [htons] of the flags
    into a member of 8 bits, where nothing is left of them; and whatever flags arrive, they are compared
    with [htons] of the flags, so that a message with any flags does what the message without
    does.  So no configuration message ever announces or acknowledges a topology change. *)
Theorem topology_flags_lost (b : stp) (i : nat) (c : stp_config_bpdu) (Hf : fits 8 (c_flags c)) :
  c_flags (config_message b i) = 0 ∧
  stp_received_config_bpdu i c b =
    stp_received_config_bpdu i (Config 0 (c_root_id c) (c_root_path_cost c) (c_bridge_id c) (c_port_id c) (c_message_age c)
                                  (c_max_age c) (c_hello_time c) (c_forward_delay c)) b.
Proof.
  split; [unfold config_message; cbn [c_flags]; by destruct (p_topology_change_ack _), (b_topology_change b)|].
  unfold stp_received_config_bpdu. cbn [c_flags c_max_age c_message_age].
  change (stp_supersedes_port_info b i (Config 0 _ _ _ _ _ _ _ _)) with (stp_supersedes_port_info b i c).
  change (stp_record_config_information i (Config 0 _ _ _ _ _ _ _ _) b) with (stp_record_config_information i c b).
  unfold stp_record_config_timeout_values. cbn [c_flags c_max_age c_hello_time c_forward_delay]. by rewrite !flag_lost by (done || unfold fits, STP_CONFIG_TOPOLOGY_CHANGE_ACK, STP_CONFIG_TOPOLOGY_CHANGE; lia).
Qed.

(** * Time *)

(** Only [stp_tick] itself changes what is left over. *)
Definition same_rest (b b' : stp) : Prop := b_elapsed_remainder b' = b_elapsed_remainder b.

#[export] Instance same_rest_preorder : PreOrder same_rest.
Proof. split; [by intros ?|]. intros a b c H1 H2. by etrans. Qed.

Lemma rest_loop f b : (∀ i b, same_rest b (f i b)) → same_rest b (for_each f b).
Proof. intros Hf. apply (for_each_rel same_rest). intros; apply Hf. Qed.

Lemma rest_transmit i b : same_rest b (stp_transmit_config i b).
Proof. unfold stp_transmit_config. by repeat case_match. Qed.
Lemma rest_generation b : same_rest b (stp_config_bpdu_generation b).
Proof. apply rest_loop. intros i b'. case_match; [apply rest_transmit|done]. Qed.
Lemma rest_tcn b : same_rest b (stp_transmit_tcn b).
Proof. unfold stp_transmit_tcn. by case_match. Qed.
Lemma rest_detection b : same_rest b (stp_topology_change_detection b).
Proof. unfold stp_topology_change_detection, same_rest, stp_transmit_tcn. by repeat case_match. Qed.
Lemma rest_forwarding i b : same_rest b (stp_make_forwarding i b).
Proof. unfold stp_make_forwarding. by case_match. Qed.
Lemma rest_blocking i b : same_rest b (stp_make_blocking i b).
Proof.
  unfold stp_make_blocking. case_match; [|done]. unfold same_rest, stp_set_port_state. cbn [upd set_ports b_elapsed_remainder].
  repeat case_match; [apply rest_detection|done..].
Qed.
Lemma rest_selection b : same_rest b (stp_port_state_selection b).
Proof. apply rest_loop. intros i b'. repeat case_match; [by etrans; [|apply rest_forwarding]|by etrans; [|apply rest_forwarding]|by etrans; [|apply rest_blocking]]. Qed.
Lemma rest_update b : same_rest b (stp_configuration_update b).
Proof.
  unfold stp_configuration_update. trans (stp_root_selection b); [unfold stp_root_selection; by case_match|]. apply rest_loop. intros i b'. unfold bid. by case_match.
Qed.
Lemma rest_timers hello tcn change b : same_rest b (set_bridge_timers hello tcn change b).
Proof. done. Qed.
Lemma rest_upd i f b : same_rest b (upd i f b).
Proof. done. Qed.
Lemma rest_become_root b : same_rest b (stp_become_root_bridge b).
Proof.
  unfold stp_become_root_bridge. etrans; [|apply rest_timers]. etrans; [|apply rest_generation]. etrans; [|apply rest_timers]. etrans; [|apply rest_detection]. done.
Qed.
Lemma rest_reconfigure root b : same_rest b (reconfigure root b).
Proof.
  unfold reconfigure. etrans; [apply rest_update|]. etrans; [apply rest_selection|]. case_match; [apply rest_become_root|done].
Qed.
Lemma rest_age elapsed i b : same_rest b (tick_age elapsed i b).
Proof.
  unfold tick_age. destruct (stp_timer_expired _ _ _) as [t []]; [|apply rest_upd]. unfold stp_message_age_timer_expiry.
  etrans; [|apply rest_reconfigure]. etrans; [|apply rest_upd]. apply rest_upd.
Qed.
Lemma rest_delay elapsed i b : same_rest b (tick_delay elapsed i b).
Proof.
  unfold tick_delay. destruct (stp_timer_expired _ _ _) as [t []]; [|apply rest_upd]. unfold stp_forward_delay_timer_expiry.
  repeat case_match; try done. etrans; [|apply rest_detection]. done.
Qed.
Lemma rest_hold elapsed i b : same_rest b (tick_hold elapsed i b).
Proof.
  unfold tick_hold. destruct (stp_timer_expired _ _ _) as [t []]; [|apply rest_upd]. unfold stp_hold_timer_expiry.
  case_match; [|apply rest_upd]. etrans; [|apply rest_transmit]. apply rest_upd.
Qed.
Lemma rest_hello elapsed b : same_rest b (tick_hello elapsed b).
Proof.
  unfold tick_hello. destruct (stp_timer_expired _ _ _) as [t []]; [|apply rest_timers]. etrans; [|apply rest_timers]. etrans; [|apply rest_generation]. apply rest_timers.
Qed.
Lemma rest_tick_tcn elapsed b : same_rest b (tick_tcn elapsed b).
Proof.
  unfold tick_tcn. destruct (stp_timer_expired _ _ _) as [t []]; [|apply rest_timers]. etrans; [|apply rest_timers]. etrans; [|apply rest_tcn]. apply rest_timers.
Qed.
Lemma rest_change elapsed b : same_rest b (tick_change elapsed b).
Proof. unfold tick_change. by destruct (stp_timer_expired _ _ _) as [t []]. Qed.

Lemma tick_rest ms b : b_elapsed_remainder (stp_tick ms b) = ms_to_timer_remainder (tick_ms ms b).
Proof.
  assert (H : same_rest (set_remainder (ms_to_timer_remainder (tick_ms ms b)) b) (stp_tick ms b)); [|exact H]. unfold stp_tick.
  generalize (set_remainder (ms_to_timer_remainder (tick_ms ms b)) b) (ms_to_timer (tick_ms ms b)). intros b0 elapsed. case_match; [done|].
  etrans; [|apply rest_loop; intros; etrans; [apply rest_delay|apply rest_hold]]. etrans; [|apply rest_loop; intros; apply rest_age].
  etrans; [apply (rest_hello elapsed)|]. etrans; [apply (rest_tick_tcn elapsed)|]. apply rest_change.
Qed.

(** The ticks that pass in calls of [stp_tick], and what was left over before each. *)
Fixpoint ticks (l : list Z) (b : stp) : Z := match l with [] => 0 | ms :: l => ms_to_timer (tick_ms ms b) + ticks l (stp_tick ms b) end.
Fixpoint rests (l : list Z) (b : stp) : Z := match l with [] => 0 | ms :: l => b_elapsed_remainder b + rests l (stp_tick ms b) end.

Definition MS_MAX : Z := 8388608 - 1000.

Lemma i32_small x : - 2 ^ 31 <= x < 2 ^ 31 → i32 x = x.
Proof. intros Hx. unfold i32, wrap. rewrite Z.mod_small by lia. lia. Qed.

Lemma tick_exact ms b : 0 <= ms < MS_MAX → 0 <= b_elapsed_remainder b < 1000 →
  1000 * ms_to_timer (tick_ms ms b) + b_elapsed_remainder (stp_tick ms b) = 256 * (ms + b_elapsed_remainder b) ∧
  0 <= b_elapsed_remainder (stp_tick ms b) < 1000.
Proof.
  intros Hms Hr. rewrite tick_rest. unfold MS_MAX in Hms. assert (E : tick_ms ms b = ms + b_elapsed_remainder b).
  { unfold tick_ms, clamp, INT_MAX. destruct (Z.ltb_spec ms 0); [lia|]. destruct (Z.ltb_spec (2147483647 - 1000) ms); [lia|]. apply i32_small. lia. }
  rewrite E. unfold ms_to_timer, ms_to_timer_remainder. rewrite i32_small by lia.
  pose proof (Z.quot_rem' ((ms + b_elapsed_remainder b) * 256) 1000). pose proof (Z.rem_bound_pos ((ms + b_elapsed_remainder b) * 256) 1000). lia.
Qed.

(** Time passes too fast.  There are 256 ticks in a second, and [stp_tick] says it keeps
    left-over milliseconds for the next call; but what it keeps is 256 times them, modulo 1000.  For any calls with
    times that do not overflow, 1000 times the ticks that pass are 256 times the milliseconds and 255
    times all that was kept in between: each kept unit, up to 999, counts as a whole millisecond
    too many.  Calls every millisecond let the 6 seconds after which information is too old
    pass within 15 milliseconds (the witness). *)
Theorem clock_drift (l : list Z) (b : stp) (Hl : Forall (λ ms, 0 <= ms < MS_MAX) l) (Hr : 0 <= b_elapsed_remainder b < 1000) :
  1000 * ticks l b + b_elapsed_remainder (stp_run (OpTick <$> l) b) = 256 * zsum l + 255 * rests l b + b_elapsed_remainder b ∧
  0 <= b_elapsed_remainder (stp_run (OpTick <$> l) b) < 1000.
Proof.
  revert b Hr. induction Hl as [|ms l Hms _ IH]; intros b Hr; [cbn; lia|]. destruct (tick_exact ms b Hms Hr) as [E Hr'].
  destruct (IH (stp_tick ms b) Hr') as [E' Hr'']. rewrite fmap_cons. change (stp_run (OpTick ms :: (OpTick <$> l)) b) with (stp_run (OpTick <$> l) (stp_tick ms b)).
  split; [|done]. cbn [ticks rests]. rewrite zsum_cons. lia.
Qed.

(** * The bridge's times *)

Lemma ms_ticks ms : 0 <= ms < MS_MAX → ms_to_timer ms = ms * 256 / 1000.
Proof. unfold MS_MAX. intros H. unfold ms_to_timer. rewrite i32_small by lia. apply Z.quot_div_nonneg; lia. Qed.

Lemma clamp_range x min max : min <= max → min <= clamp x min max <= max.
Proof. unfold clamp. intros. destruct (Z.ltb_spec x min); [lia|]. destruct (Z.ltb_spec max x); lia. Qed.

(** In ticks of 1/256 second: 1 to 10 seconds, 6 to 40, 4 to 30. *)
Definition within_bounds (t : times) : Prop :=
  256 <= hello_time t <= 2560 ∧ 1536 <= max_age t <= 10240 ∧ 1024 <= forward_delay t <= 7680 ∧
  2 * (hello_time t + 256) <= max_age t ∧ max_age t <= 2 * (forward_delay t - 256) + 2.

(** The times of a bridge are within bounds.  Whatever times are asked for (any integers), the
    hello time is between 1 and 10 seconds, the maximum age between 6 and 40, the forward delay between 4 and 30, and
    the maximum age is at least twice the hello time and a second.  That it is at most
    twice the forward delay less a second is missed by up to two ticks, by rounding.  A root uses its
    times at once; reading one back gives it in milliseconds, rounded down. *)
Theorem bridge_times_bounded (b : stp) :
  within_bounds (b_bridge_times (stp_update_bridge_timers b)) ∧
  (stp_is_root_bridge b = true → b_times (stp_update_bridge_timers b) = b_bridge_times (stp_update_bridge_timers b)) ∧
  (stp_is_root_bridge b = false → b_times (stp_update_bridge_timers b) = b_times b) ∧
  stp_get_hello_time (stp_update_bridge_timers b) = hello_time (b_bridge_times (stp_update_bridge_timers b)) * 1000 / 256.
Proof.
  unfold stp_update_bridge_timers. set (ht := clamp _ 1000 10000). set (ma := clamp _ _ 40000). set (fd := clamp _ _ 30000).
  assert (H1 : 1000 <= ht <= 10000) by (by apply clamp_range).
  assert (H2 : Z.max (2 * (ht + 1000)) 6000 <= ma <= 40000) by (apply clamp_range; lia).
  assert (H3 : Z.quot ma 2 + 1000 <= fd <= 30000) by (apply clamp_range; rewrite Z.quot_div_nonneg by lia; Z.div_mod_to_equations; lia).
  rewrite Z.quot_div_nonneg in H3 by lia. clearbody ht ma fd.
  set (b1 := set_own_times _ _ b). assert (Ht : b_bridge_times (if stp_is_root_bridge b1 then root_times b1 else b1) = Times (ms_to_timer ma) (ms_to_timer ht) (ms_to_timer fd)) by (by destruct (stp_is_root_bridge b1)).
  unfold stp_get_hello_time. rewrite Ht. cbn [hello_time max_age forward_delay]. rewrite !ms_ticks by (unfold MS_MAX; Z.div_mod_to_equations; lia).
  change (stp_is_root_bridge b) with (stp_is_root_bridge b1). unfold timer_to_ms, within_bounds. cbn [hello_time max_age forward_delay].
  split_and!; try (Z.div_mod_to_equations; lia).
  - intros E. rewrite E. cbn [root_times set_times b_times b1 set_own_times b_bridge_times]. by rewrite !ms_ticks by (unfold MS_MAX; Z.div_mod_to_equations; lia).
  - intros E. by rewrite E.
  - rewrite i32_small by (Z.div_mod_to_equations; lia). apply Z.quot_div_nonneg; Z.div_mod_to_equations; lia.
Qed.

(** ** Examples *)

(** Two ports; a better root is heard on port 1 and forgotten again. *)
Abbreviation ex_heard := (config_bytes (Config 0 5 10 7 0x8001 0 1536 512 1024)).
Definition ex_ops : list stp_op := [OpEnable 0; OpEnable 1; OpTick 4000; OpBpdu 1 ex_heard; OpTick 4000; OpChanged].
Abbreviation ex_stp := (stp_run ex_ops (stp_create 0x112233445566)).

Lemma ex_ops_valid : Forall valid ex_ops.
Proof. repeat (apply list.Forall_cons_2; [cbn; unfold STP_MAX_PORTS; lia || exact I|]). apply list.Forall_nil_2. Qed.

Lemma ex_stp_ok : stp_ok ex_stp.
Proof. apply run_ok; [exact ex_ops_valid|apply stp_create_ok]. Qed.

Lemma stp_invariant_witness : enabled (port ex_stp 1) = true ∧ b_root_port ex_stp = Some 1%nat ∧ b_designated_root ex_stp < b_bridge_id ex_stp.
Proof.
  pose proof (stp_invariant 0x112233445566 ex_ops ex_stp ex_ops_valid eq_refl) as [_ H].
  assert (b_root_port ex_stp = Some 1%nat) as E by (vm_compute; reflexivity). rewrite E in H. destruct H as [H1 H2]. split; [exact H1|]. split; [exact E|exact H2].
Defined.

Lemma forwarding_learned_witness :
  p_state (port (stp_step (OpTick 4000) ex_stp) 1) = STP_FORWARDING ∧ (p_state (port ex_stp 1) = STP_LEARNING ∨ p_state (port ex_stp 1) = STP_FORWARDING).
Proof.
  assert (p_state (port (stp_step (OpTick 4000) ex_stp) 1) = STP_FORWARDING) as E by (vm_compute; reflexivity). split; [exact E|].
  apply (forwarding_learned ex_stp (OpTick 4000) 1 ex_stp_ok I); [unfold STP_MAX_PORTS; lia|exact E].
Defined.

Lemma configuration_exact_witness : root_chosen ex_stp (stp_configuration_update ex_stp) ∧ b_root_path_cost (stp_configuration_update ex_stp) = 29.
Proof. split; [exact (proj1 (configuration_exact ex_stp (ok_base _ ex_stp_ok)))|vm_compute; reflexivity]. Defined.

Lemma config_round_trip_witness : stp_received_bpdu 1 ex_heard ex_stp = stp_received_config_bpdu 1 (Config 0 5 10 7 0x8001 0 1536 512 1024) ex_stp.
Proof.
  assert (config_ok (Config 0 5 10 7 0x8001 0 1536 512 1024)) as Hc by (split; by_eval).
  assert (enabled (port ex_stp 1) = true) as He by (vm_compute; reflexivity).
  exact (proj2 (proj2 (config_round_trip (Config 0 5 10 7 0x8001 0 1536 512 1024) ex_stp 1 Hc He))).
Defined.

Lemma topology_flags_lost_witness :
  stp_received_config_bpdu 1 (Config 0x81 5 10 7 0x8001 0 1536 512 1024) ex_stp = stp_received_config_bpdu 1 (Config 0 5 10 7 0x8001 0 1536 512 1024) ex_stp.
Proof.
  assert (fits 8 (c_flags (Config 0x81 5 10 7 0x8001 0 1536 512 1024))) as Hf by by_eval.
  exact (proj2 (topology_flags_lost ex_stp 1 (Config 0x81 5 10 7 0x8001 0 1536 512 1024) Hf)).
Defined.

(** Fifteen calls, a millisecond each. *)
Definition ex_ms : list Z := replicate 15 1.

Lemma clock_drift_witness : zsum ex_ms = 15 ∧ 1536 < ticks ex_ms (stp_create 1) ∧
  1000 * ticks ex_ms (stp_create 1) + b_elapsed_remainder (stp_run (OpTick <$> ex_ms) (stp_create 1)) = 256 * zsum ex_ms + 255 * rests ex_ms (stp_create 1) + 0.
Proof.
  split; [reflexivity|]. split; [vm_compute; reflexivity|]. refine (proj1 (clock_drift ex_ms (stp_create 1) _ _)); by_eval.
Defined.
