(* ===== verification/StpNetwork.v ===== *)
(** Networks of bridges: when the spanning tree protocol has settled, the ports that take part
    form no loop, and the bridges agree on a root.

    A network is a list of bridges and the LAN each of their ports is attached to.  It has settled
    when no bridge would change its mind ([stp_configuration_update] does nothing) and on each
    LAN all enabled ports have heard the same, from one of them. *)

From S2P Require Import Prelude Wire Stp StpInvariant WireCorrect StpCorrect.

Section network.
  Context (bs : list stp) (lan : nat → nat → nat).

(** An enabled port of a bridge. *)
Definition attached (n i : nat) (b : stp) : Prop := bs !! n = Some b ∧ (i < STP_MAX_PORTS)%nat ∧ enabled (port b i) = true.

Record settled : Prop := {
  se_ok n b : bs !! n = Some b → stp_ok b;
  se_ids n m b c : bs !! n = Some b → bs !! m = Some c → b_bridge_id b = b_bridge_id c → n = m;
  se_cost n i b : attached n i b → 0 < p_path_cost (port b i) ∧ 0 <= i_cost (p_info (port b i)) ∧ i_cost (p_info (port b i)) + p_path_cost (port b i) < 2 ^ 31;
  se_still n b : bs !! n = Some b → stp_configuration_update b = b;
  se_heard n i b m j c : attached n i b → attached m j c → lan n i = lan m j → p_info (port b i) = p_info (port c j);
  se_origin n i b : attached n i b → ∃ m j c, attached m j c ∧ lan m j = lan n i ∧ designated c j }.

(** ** Loops *)

(** A frame leaves bridge [n] by port [i] and enters bridge [m] by port [j]. *)
Record hop := Hop { h_from : nat; h_out : nat; h_to : nat; h_in : nat }.

Definition takes_part (n i : nat) : Prop := ∃ b, bs !! n = Some b ∧ (i < STP_MAX_PORTS)%nat ∧ active (port b i).

Definition hop_ok (h : hop) : Prop :=
  takes_part (h_from h) (h_out h) ∧ takes_part (h_to h) (h_in h) ∧ lan (h_from h) (h_out h) = lan (h_to h) (h_in h) ∧
  (h_from h, h_out h) ≠ (h_to h, h_in h).

(** A bridge forwards by another port than it received by. *)
Definition onwards (h k : hop) : Prop := h_to h = h_from k ∧ h_in h ≠ h_out k.

(** From hop to hop, and from the last one to [first]. *)
Fixpoint linked (first : hop) (hs : list hop) : Prop :=
  match hs with
  | [] => True
  | [h] => onwards h first
  | h :: (k :: _) as hs => onwards h k ∧ linked first hs
  end.

(** A way on which a frame comes back to where it has been, to go on for ever. *)
Definition loop (hs : list hop) : Prop := match hs with [] => False | h :: _ => Forall hop_ok hs ∧ linked h hs end.

(** ** Facts about a settled network *)

Context (Hs : settled).

(** What [stp_configuration_update] has found for the bridge. *)
Lemma still n b : bs !! n = Some b →
  match b_root_port b with
  | None => b_designated_root b = b_bridge_id b ∧ b_root_path_cost b = 0
  | Some r => (r < STP_MAX_PORTS)%nat ∧ candidate b r ∧
      b_designated_root b = i_root (p_info (port b r)) ∧ b_root_path_cost b = i_cost (p_info (port b r)) + p_path_cost (port b r)
  end.
Proof using Hs.
  intros Hb. destruct (settled_facts b (ok_base _ (se_ok Hs n b Hb)) (se_still Hs n b Hb)) as [H _]. unfold root_chosen in H.
  destruct (b_root_port b) as [r|]; [|tauto]. destruct H as (H1 & H2 & _ & H3 & H4). split_and!; [done|done|done|].
  rewrite H4. destruct (se_cost Hs n r b) as (? & ? & ?); [split_and!; [done|done|apply H2]|]. apply wrap_small. unfold fits. lia.
Qed.

Lemma cost_range n b : bs !! n = Some b → 0 <= b_root_path_cost b < 2 ^ 31.
Proof using Hs.
  intros Hb. pose proof (still n b Hb) as H. destruct (b_root_port b) as [r|]; [|lia]. destruct H as (H1 & [H2 _] & _ & ->).
  destruct (se_cost Hs n r b) as (? & ? & ?); [done|lia].
Qed.

Lemma designated_own n i b : attached n i b → designated b i → p_info (port b i) = Info (b_designated_root b) (b_root_path_cost b) (b_bridge_id b) (p_port_id (port b i)).
Proof using Hs.
  intros (Hb & Hi & He) Hd. destruct (settled_facts b (ok_base _ (se_ok Hs n b Hb)) (se_still Hs n b Hb)) as [_ H].
  rewrite (H i Hi He (or_introl Hd)) at 1. cbn [set_info p_info]. unfold own_info. f_equal. pose proof (cost_range n b Hb).
  unfold i32, wrap. rewrite Z.mod_small by lia. lia.
Qed.

Lemma designated_unique n i b m j c :
  attached n i b → attached m j c → lan n i = lan m j → designated b i → designated c j → n = m ∧ i = j.
Proof using Hs.
  intros Hb Hc Hl Hdb Hdc. pose proof (se_heard Hs _ _ _ _ _ _ Hb Hc Hl) as E. rewrite (designated_own n i b Hb Hdb), (designated_own m j c Hc Hdc) in E.
  injection E as _ _ Eid Ep. assert (n = m) as <- by (eapply (se_ids Hs); [apply Hb|apply Hc|done]). split; [done|].
  assert (b = c) as <- by (destruct Hb, Hc; congruence). eapply (id_inj b); [apply (ok_base _ (se_ok Hs n b (proj1 Hb)))|apply Hb|apply Hc|done].
Qed.

(** The cost of the way to the root. *)
Definition cost (n : nat) : Z := match bs !! n with Some b => b_root_path_cost b | None => 0 end.

(** The way to the root starts on a LAN whose designated bridge is nearer. *)
Lemma root_port_up n i b : attached n i b → b_root_port b = Some i →
  ∃ m j c, attached m j c ∧ lan m j = lan n i ∧ designated c j ∧ cost m < cost n ∧ b_designated_root c = b_designated_root b.
Proof using Hs.
  intros Hb Hr. destruct (se_origin Hs n i b Hb) as (m & j & c & Hc & Hl & Hd). exists m, j, c. split_and!; [done..| |].
  - unfold cost. rewrite (proj1 Hb), (proj1 Hc). pose proof (still n b (proj1 Hb)) as H. rewrite Hr in H. destruct H as (_ & _ & _ & ->).
    pose proof (se_heard Hs _ _ _ _ _ _ Hc Hb Hl) as E. rewrite (designated_own m j c Hc Hd) in E. rewrite <- E. cbn [i_cost].
    destruct (se_cost Hs n i b Hb). lia.
  - pose proof (still n b (proj1 Hb)) as H. rewrite Hr in H. destruct H as (_ & _ & -> & _).
    pose proof (se_heard Hs _ _ _ _ _ _ Hc Hb Hl) as E. rewrite (designated_own m j c Hc Hd) in E. by rewrite <- E.
Qed.

Lemma part_role n i : takes_part n i → ∃ b, attached n i b ∧ (b_root_port b = Some i ∨ designated b i).
Proof using Hs.
  intros (b & Hb & Hi & Ha). exists b. split; [split_and!; [done..|]|by apply (ok_roles _ (se_ok Hs n b Hb))].
  unfold enabled. apply bool_decide_eq_true. destruct Ha as [-> |[-> | ->]]; done.
Qed.

(** * Hops *)

(** The frame enters by the root port. *)
Definition downwards (h : hop) : Prop := ∃ b, bs !! h_to h = Some b ∧ b_root_port b = Some (h_in h).

(** Not both ends of a hop are designated. *)
Lemma hop_designated h b c :
  hop_ok h → attached (h_from h) (h_out h) b → attached (h_to h) (h_in h) c → ¬ (designated b (h_out h) ∧ designated c (h_in h)).
Proof using Hs.
  intros (_ & _ & Hl & Hne) Hb Hc [Hdb Hdc]. destruct (designated_unique _ _ _ _ _ _ Hb Hc Hl Hdb Hdc) as [E1 E2]. apply Hne. by rewrite E1, E2.
Qed.

(** The designated port of the LAN is nearer than a root port there. *)
Lemma hop_cost n i b m j c :
  attached n i b → attached m j c → lan n i = lan m j → b_root_port b = Some i → designated c j → cost m < cost n.
Proof using Hs.
  intros Hb Hc Hl Hr Hd. destruct (root_port_up n i b Hb Hr) as (m' & j' & c' & Hc' & Hl' & Hd' & Hlt & _).
  by destruct (designated_unique m' j' c' m j c Hc' Hc) as [<- _]; [congruence|..].
Qed.

Lemma not_downwards h : hop_ok h → ¬ downwards h → cost (h_to h) < cost (h_from h).
Proof using Hs.
  intros Hh Hn. pose proof Hh as (Hf & Ht & Hl & _). destruct (part_role _ _ Hf) as (b & Hb & Hrb), (part_role _ _ Ht) as (c & Hc & [Hrc|Hdc]).
  - destruct Hn. exists c. split; [apply Hc|done].
  - destruct Hrb as [Hrb|Hdb]; [by eapply hop_cost|]. by destruct (hop_designated h b c Hh Hb Hc).
Qed.

(** Who has come down goes on down. *)
Lemma downwards_next h k : hop_ok h → hop_ok k → onwards h k → downwards h → downwards k ∧ cost (h_from k) < cost (h_to k).
Proof using Hs.
  intros _ Hk [E Hne] (c & Hc & Hr). rewrite E in Hc. pose proof Hk as (Hf & Ht & Hl & _).
  destruct (part_role _ _ Hf) as (b & Hb & Hrb), (part_role _ _ Ht) as (c' & Hc' & Hrc). assert (b = c) as -> by (destruct Hb; congruence).
  destruct Hrb as [Hrb|Hdb]; [congruence|]. destruct Hrc as [Hrc|Hdc]; [|by destruct (hop_designated k c c' Hk Hb Hc')].
  split; [exists c'; split; [apply Hc'|done]|]. by eapply (hop_cost (h_to k) (h_in k) c' (h_from k) (h_out k) c).
Qed.

(** * Walks *)

(** Once down, down to the end. *)
Lemma linked_down first hs : Forall hop_ok (first :: hs) → linked first hs →
  match hs with [] => True | h :: _ => downwards h → downwards first ∧ Forall (λ k, cost (h_from k) < cost (h_to k)) (tail hs ++ [first]) end.
Proof using Hs.
  intros [H0 Hok]%list.Forall_cons. induction hs as [|h [|k hs] IH]; [done| |]; cbn [linked].
  - intros Hl Hd. apply list.Forall_cons in Hok as [H1 _]. destruct (downwards_next h first) as [? ?]; [done..|]. split; [done|]. cbn. by constructor.
  - intros [Hl Hls] Hd. apply list.Forall_cons in Hok as [H1 Hok]. pose proof (proj1 (list.Forall_cons _ _ _) Hok) as [H2 _].
    destruct (downwards_next h k) as [Hk ?]; [done..|]. destruct (IH Hok Hls Hk) as [Hf Hc]. split; [done|]. cbn [tail] in *. by constructor.
Qed.

(** The hops end where they start. *)
Lemma linked_sum first hs : linked first hs →
  match hs with [] => True | h :: _ => zsum ((λ k, cost (h_to k)) <$> hs) = zsum ((λ k, cost (h_from k)) <$> tail hs) + cost (h_from first) end.
Proof using.
  induction hs as [|h [|k hs] IH]; [done| |]; cbn [linked].
  - intros [E _]. rewrite fmap_cons, zsum_cons, E. cbn [tail fmap list_fmap zsum foldr]. lia.
  - intros [[E _] Hl]. specialize (IH Hl). cbn [tail] in *. rewrite (fmap_cons _ h), zsum_cons, IH, E, (fmap_cons _ k), zsum_cons. lia.
Qed.

Lemma zsum_lt {A} (f g : A → Z) l : Forall (λ x, f x < g x) l → l ≠ [] → zsum (f <$> l) < zsum (g <$> l).
Proof using.
  intros Hl. induction Hl as [|x l Hx Hl IH]; [done|]. intros _. cbn [fmap list_fmap]. rewrite !zsum_cons. destruct l as [|y l]; [cbn; lia|]. specialize (IH ltac:(done)). lia.
Qed.

Lemma no_loop hs : ¬ loop hs.
Proof using Hs.
  destruct hs as [|first hs]; [intros Hn; by destruct Hn|]. intros [Hok Hl]. pose proof (linked_sum _ _ Hl) as Hsum. cbn [tail] in Hsum.
  assert (E : zsum ((λ k, cost (h_to k)) <$> first :: hs) = zsum ((λ k, cost (h_from k)) <$> first :: hs)) by (rewrite Hsum; cbn [fmap list_fmap]; rewrite zsum_cons; lia).
  destruct (Exists_dec downwards (first :: hs)) as [Hex|Hall].
  { intros h. unfold downwards. destruct (bs !! h_to h) as [b|]; [|right; intros (b & ? & _); done].
    destruct (decide (b_root_port b = Some (h_in h))); [left; by exists b|right; intros (b' & [= <-] & ?); done]. }
  - assert (Hf : downwards first).
    { clear E Hsum. assert (H0 : hop_ok first) by (by apply list.Forall_cons in Hok as [? _]). revert Hok Hl Hex. generalize (first :: hs). intros l Hok Hl Hex.
      induction Hex as [h l Hd|h l Hex IH].
      - pose proof (linked_down first (h :: l) ltac:(by constructor) Hl Hd) as [? _]. done.
      - apply list.Forall_cons in Hok as [_ Hok]. destruct l as [|k l]; [by inversion Hex|]. apply IH; [done|]. by destruct Hl. }
    pose proof (linked_down first (first :: hs)) as H. destruct (H ltac:(constructor; [by apply list.Forall_cons in Hok as [? _]|done]) Hl Hf) as [_ Hc].
    cbn [tail] in Hc. apply zsum_lt in Hc; [|by destruct hs]. rewrite !fmap_app, !zsum_app in Hc. cbn in Hc. cbn [fmap list_fmap] in E. rewrite !zsum_cons in E.
    unfold zsum in *. cbn in *. lia.
  - apply Forall_Exists_neg in Hall. assert (Hc : Forall (λ k, cost (h_to k) < cost (h_from k)) (first :: hs)).
    { rewrite list.Forall_forall in Hall, Hok |- *. intros h Hh. apply not_downwards; auto. }
    apply zsum_lt in Hc; [|done]. lia.
Qed.

(** ** Agreement *)

Lemma same_root_lan n i b m j c : attached n i b → attached m j c → lan n i = lan m j → b_designated_root b = b_designated_root c.
Proof using Hs.
  assert (Hroot : ∀ n i b, attached n i b → i_root (p_info (port b i)) = b_designated_root b).
  { intros n' i' b' Ha. pose proof Ha as (Hb & Hi & He). destruct (settled_facts b' (ok_base _ (se_ok Hs n' b' Hb)) (se_still Hs n' b' Hb)) as [_ H].
    destruct (decide (i_root (p_info (port b' i')) = b_designated_root b')) as [?|Hne]; [done|].
    rewrite (H i' Hi He) at 1; [done|]. right. by left. }
  intros Hb Hc Hl. rewrite <- (Hroot n i b Hb), <- (Hroot m j c Hc). by rewrite (se_heard Hs _ _ _ _ _ _ Hb Hc Hl).
Qed.

Lemma root_exists n b : bs !! n = Some b → ∃ m c, bs !! m = Some c ∧ b_bridge_id c = b_designated_root b ∧ b_root_port c = None.
Proof using Hs.
  revert n b. assert (H : ∀ k n b, bs !! n = Some b → cost n < Z.of_nat k → ∃ m c, bs !! m = Some c ∧ b_bridge_id c = b_designated_root b ∧ b_root_port c = None).
  { induction k as [|k IH]; intros n b Hb Hk.
    - pose proof (cost_range n b Hb). unfold cost in Hk. rewrite Hb in Hk. lia.
    - destruct (b_root_port b) as [r|] eqn:Er.
      + pose proof (still n b Hb) as Hst. rewrite Er in Hst. destruct Hst as (H1 & H2 & _).
        destruct (root_port_up n r b) as (m & j & c & Hc & _ & _ & Hlt & Eroot); [split_and!; [done|done|apply H2]|done|]. rewrite <- Eroot.
        apply (IH m c); [apply Hc|lia].
      + pose proof (still n b Hb) as Hst. rewrite Er in Hst. exists n, b. split_and!; [done|by destruct Hst|done]. }
  intros n b Hb. apply (H (S (Z.to_nat (cost n))) n b Hb). lia.
Qed.

Lemma root_least n b : bs !! n = Some b → b_designated_root b <= b_bridge_id b.
Proof using Hs. intros Hb. pose proof (ok_root _ (se_ok Hs n b Hb)) as H. unfold root_ok in H. destruct (b_root_port b); [destruct H as (_ & _ & ?)|]; lia. Qed.
End network.

(** C13: a network that has settled has no loop.  Let the bridges run [stp_ok], none change its mind,
    all ports of a LAN have heard the same from one of them, the costs be positive and the
    identifiers different.  Then there is no way over listening, learning or forwarding ports on which
    a frame, sent on by other ports than it came by, would come back to where it was; the
    bridges on a LAN agree on the root, no bridge has a smaller identifier than its root, and the root
    is one of the bridges, which holds itself for it. *)
Theorem settled_loop_free (bs : list stp) (lan : nat → nat → nat) (Hs : settled bs lan) :
  (∀ hs, ¬ loop bs lan hs) ∧
  (∀ n i b m j c, attached bs n i b → attached bs m j c → lan n i = lan m j → b_designated_root b = b_designated_root c) ∧
  ∀ n b, bs !! n = Some b → b_designated_root b <= b_bridge_id b ∧
    ∃ m c, bs !! m = Some c ∧ b_bridge_id c = b_designated_root b ∧ b_root_port c = None.
Proof.
  split; [intros hs; by eapply no_loop|]. split; [intros *; by eapply same_root_lan|]. intros n b Hb. split; [by eapply root_least|by eapply root_exists].
Qed.

(** ** An example: three bridges in a triangle *)

Definition ex_bridge (n : Z) : stp := stp_run [OpEnable 0; OpEnable 1] (stp_create n).
Definition ex_id (n : Z) : Z := b_bridge_id (ex_bridge n).
Definition ex_hello (root cost bridge port : Z) : stp_op := OpBpdu 0 (config_bytes (Config 0 root cost bridge port 0 5120 512 1024)).
(** Bridge 1 is the root; bridges 2 and 3 hear it on their ports 0, bridge 3 hears bridge 2 on its port 1. *)
Definition ex_net : list stp :=
  [ stp_run [OpTick 4000; OpTick 4000] (ex_bridge 1);
    stp_run [ex_hello (ex_id 1) 0 (ex_id 1) 0x8001; OpTick 4000; OpTick 4000] (ex_bridge 2);
    stp_run [ex_hello (ex_id 1) 0 (ex_id 1) 0x8002;
             OpBpdu 1 (config_bytes (Config 0 (ex_id 1) 19 (ex_id 2) 0x8002 0 5120 512 1024)); OpTick 4000; OpTick 4000] (ex_bridge 3) ].
Definition ex_lan (n i : nat) : nat :=
  match n, i with 0, 0 => 0 | 0, 1 => 1 | 1, 0 => 0 | 1, 1 => 2 | 2, 0 => 1 | 2, 1 => 2 | _, _ => (3 + n * 255 + i) end%nat.

(** The enabled ports. *)
Definition ex_ports : list (nat * nat * stp) := imap pair ex_net ≫= λ x, (λ i, (x.1, i, x.2)) <$> [0; 1]%nat.

Lemma ex_ports_only : Forall (λ b, Forall (λ i, enabled (port b i) = true → (i < 2)%nat) (seq 0 STP_MAX_PORTS)) ex_net.
Proof. by_eval. Qed.
Lemma ex_ports_enabled : Forall (λ x, enabled (port x.2 x.1.2) = true ∧ (x.1.2 < STP_MAX_PORTS)%nat) ex_ports.
Proof. by_eval. Qed.

Lemma ex_attached n i b : attached ex_net n i b ↔ (n, i, b) ∈ ex_ports.
Proof.
  unfold ex_ports. rewrite list_elem_of_bind. split.
  - intros (Hb & Hi & He). pose proof ex_ports_only as H. rewrite list.Forall_lookup in H. specialize (H n b Hb). rewrite list.Forall_forall in H.
    exists (n, b). split; [|apply list_elem_of_lookup; exists n; rewrite list_lookup_imap, Hb; reflexivity].
    apply list_elem_of_fmap. exists i. split; [reflexivity|]. assert ((i < 2)%nat) as Hi2 by (apply H; [apply elem_of_seq; lia|exact He]).
    destruct i as [|[|i]]; [left|right; left|lia].
  - intros ([n' b'] & Hin & Hb). apply list_elem_of_fmap in Hin as (i' & E & Hi'). injection E as -> -> ->.
    apply list_elem_of_lookup in Hb as [k Hk]. rewrite list_lookup_imap in Hk. destruct (ex_net !! k) as [c|] eqn:Ec; [|discriminate Hk].
    injection Hk as -> ->. pose proof ex_ports_enabled as H. rewrite list.Forall_forall in H. specialize (H (n', i', b')).
    destruct H as [H1 H2]; [|split; [exact Ec|split; [exact H2|exact H1]]].
    unfold ex_ports. apply list_elem_of_bind. exists (n', b'). split; [apply list_elem_of_fmap; by exists i'|].
    apply list_elem_of_lookup. exists n'. rewrite list_lookup_imap, Ec. reflexivity.
Qed.

Lemma ex_heard : Forall (λ x, Forall (λ y, ex_lan x.1.1 x.1.2 = ex_lan y.1.1 y.1.2 → p_info (port x.2 x.1.2) = p_info (port y.2 y.1.2)) ex_ports) ex_ports.
Proof. by_eval. Qed.
Lemma ex_origin : Forall (λ x, Exists (λ y, ex_lan y.1.1 y.1.2 = ex_lan x.1.1 x.1.2 ∧ stp_is_designated_port y.2 y.1.2 = true) ex_ports) ex_ports.
Proof. by_eval. Qed.
Lemma ex_costs : Forall (λ x, 0 < p_path_cost (port x.2 x.1.2) ∧ 0 <= i_cost (p_info (port x.2 x.1.2)) ∧
  i_cost (p_info (port x.2 x.1.2)) + p_path_cost (port x.2 x.1.2) < 2 ^ 31) ex_ports.
Proof. by_eval. Qed.
Lemma ex_still : Forall (λ b, stp_configuration_update b = b) ex_net.
Proof. by_eval. Qed.
Lemma ex_ids : NoDup (b_bridge_id <$> ex_net).
Proof. by_eval. Qed.

Lemma ex_net_ok : Forall stp_ok ex_net.
Proof.
  assert (Hb : ∀ n, stp_ok (ex_bridge n)) by (intros n; apply run_ok; [repeat constructor; cbn; unfold STP_MAX_PORTS; lia|apply stp_create_ok]).
  unfold ex_net. repeat (apply list.Forall_cons_2; [apply run_ok; [|apply Hb]; repeat (apply list.Forall_cons_2; [cbn; unfold STP_MAX_PORTS; lia|]); apply list.Forall_nil_2|]).
  apply list.Forall_nil_2.
Qed.

Lemma ex_settled : settled ex_net ex_lan.
Proof.
  split.
  - intros n b Hb. pose proof ex_net_ok as H. rewrite list.Forall_lookup in H. exact (H n b Hb).
  - intros n m b c Hb Hc E. apply (NoDup_lookup _ n m (b_bridge_id b) ex_ids); rewrite list_lookup_fmap.
    + rewrite Hb. reflexivity.
    + rewrite Hc, E. reflexivity.
  - intros n i b Ha%ex_attached. pose proof ex_costs as H. rewrite list.Forall_forall in H. exact (H _ Ha).
  - intros n b Hb. pose proof ex_still as H. rewrite list.Forall_lookup in H. exact (H n b Hb).
  - intros n i b m j c Ha%ex_attached Hc%ex_attached. pose proof ex_heard as H. rewrite list.Forall_forall in H. specialize (H _ Ha).
    rewrite list.Forall_forall in H. exact (H _ Hc).
  - intros n i b Ha%ex_attached. pose proof ex_origin as H. rewrite list.Forall_forall in H. specialize (H _ Ha).
    apply list.Exists_exists in H as ([[m j] c] & Hin & Hl & Hd). exists m, j, c. split; [by apply ex_attached|]. split; [exact Hl|exact Hd].
Qed.

(** Around the triangle there is a way back, but bridge 3 blocks it. *)
Lemma settled_loop_free_witness :
  ¬ loop ex_net ex_lan [Hop 0 0 1 0; Hop 1 1 2 1; Hop 2 0 0 1] ∧ ((λ b, p_state <$> take 2 (b_ports b)) <$> ex_net !! 2%nat) = Some [STP_FORWARDING; STP_BLOCKING].
Proof. split; [apply (settled_loop_free ex_net ex_lan ex_settled)|vm_compute; reflexivity]. Defined.
