(* ===== verification/Oxm.v ===== *)
(** The table of OXM fields and their prerequisites: oflib/oxm-match.c and
    oflib/oxm-match.def.

    The fields are looked up by their 32-bit header in a hash map; [hash_int] is
    injective on 32-bit headers, so that the entries with the hash of a header are
    those with that header. *)

From S2P Require Import Prelude OpenFlow.

(** [struct oxm_field]; the Ethernet types are in network byte order. *)
Record oxm_field := OxmField {
  of_header : Z;
  of_dl_type : Z * Z;
  of_nw_proto : Z;
  of_maskable : bool }.

Definition DL_CONVERT (dl : Z * Z) : Z * Z := (bswap16 dl.1, bswap16 dl.2).

Definition DEFINE_FIELD (field length : Z) (dl : Z * Z) (nw_proto : Z) (maskable : bool) : list oxm_field :=
  [OxmField (OXM_HEADER 0x8000 field length) (DL_CONVERT dl) nw_proto maskable].
Definition DEFINE_FIELD_M (field length : Z) (dl : Z * Z) (nw_proto : Z) (maskable : bool) : list oxm_field :=
  DEFINE_FIELD field length dl nw_proto maskable ++
  [OxmField (OXM_HEADER_W 0x8000 field length) (DL_CONVERT dl) nw_proto true].

Definition OXM_DL_NONE : Z * Z := (0, 0).
Definition OXM_DL_ARP : Z * Z := (0x0806, 0).
Definition OXM_DL_PBB : Z * Z := (0x88e7, 0).
Definition OXM_DL_IP : Z * Z := (0x0800, 0).
Definition OXM_DL_MPLS : Z * Z := (0x8847, 0x8848).
Definition OXM_DL_IPV6 : Z * Z := (0x86dd, 0).
Definition OXM_DL_IP_ANY : Z * Z := (0x0800, 0x86dd).

Definition IPPROTO_ICMP := 1.
Definition IPPROTO_TCP := 6.
Definition IPPROTO_UDP := 17.
Definition IPPROTO_ICMPV6 := 58.
Definition IPPROTO_SCTP := 132.


(** In the order of oxm-match.def. *)
Definition all_fields : list oxm_field :=
  DEFINE_FIELD 0 4 OXM_DL_NONE 0 false ++            (* IN_PORT *)
  DEFINE_FIELD 1 4 OXM_DL_NONE 0 false ++            (* IN_PHY_PORT *)
  DEFINE_FIELD_M 2 8 OXM_DL_NONE 0 true ++           (* METADATA *)
  DEFINE_FIELD_M 3 6 OXM_DL_NONE 0 true ++           (* ETH_DST *)
  DEFINE_FIELD_M 4 6 OXM_DL_NONE 0 true ++           (* ETH_SRC *)
  DEFINE_FIELD 5 2 OXM_DL_NONE 0 false ++            (* ETH_TYPE *)
  DEFINE_FIELD_M 6 2 OXM_DL_NONE 0 true ++           (* VLAN_VID *)
  DEFINE_FIELD 7 1 OXM_DL_NONE 0 false ++            (* VLAN_PCP *)
  DEFINE_FIELD_M 37 3 OXM_DL_PBB 0 true ++           (* PBB_ISID *)
  DEFINE_FIELD 34 4 OXM_DL_MPLS 0 false ++           (* MPLS_LABEL *)
  DEFINE_FIELD 35 1 OXM_DL_MPLS 0 false ++           (* MPLS_TC *)
  DEFINE_FIELD 36 1 OXM_DL_MPLS 0 false ++           (* MPLS_BOS *)
  DEFINE_FIELD 8 1 OXM_DL_IP_ANY 0 false ++          (* IP_DSCP *)
  DEFINE_FIELD 9 1 OXM_DL_IP_ANY 0 false ++          (* IP_ECN *)
  DEFINE_FIELD_M 11 4 OXM_DL_IP 0 true ++            (* IPV4_SRC *)
  DEFINE_FIELD_M 12 4 OXM_DL_IP 0 true ++            (* IPV4_DST *)
  DEFINE_FIELD_M 26 16 OXM_DL_IPV6 0 true ++         (* IPV6_SRC *)
  DEFINE_FIELD_M 27 16 OXM_DL_IPV6 0 true ++         (* IPV6_DST *)
  DEFINE_FIELD_M 28 4 OXM_DL_IPV6 0 true ++          (* IPV6_FLABEL *)
  DEFINE_FIELD_M 39 2 OXM_DL_IPV6 0 true ++          (* IPV6_EXTHDR *)
  DEFINE_FIELD 10 1 OXM_DL_IP_ANY 0 false ++         (* IP_PROTO *)
  DEFINE_FIELD 13 2 OXM_DL_IP_ANY IPPROTO_TCP false ++      (* TCP_SRC *)
  DEFINE_FIELD 14 2 OXM_DL_IP_ANY IPPROTO_TCP false ++      (* TCP_DST *)
  DEFINE_FIELD 15 2 OXM_DL_IP_ANY IPPROTO_UDP false ++      (* UDP_SRC *)
  DEFINE_FIELD 16 2 OXM_DL_IP_ANY IPPROTO_UDP false ++      (* UDP_DST *)
  DEFINE_FIELD 17 2 OXM_DL_IP_ANY IPPROTO_SCTP false ++     (* SCTP_SRC *)
  DEFINE_FIELD 18 2 OXM_DL_IP_ANY IPPROTO_SCTP false ++     (* SCTP_DST *)
  DEFINE_FIELD 21 2 OXM_DL_ARP 0 false ++            (* ARP_OP *)
  DEFINE_FIELD_M 22 4 OXM_DL_ARP 0 true ++           (* ARP_SPA *)
  DEFINE_FIELD_M 23 4 OXM_DL_ARP 0 true ++           (* ARP_TPA *)
  DEFINE_FIELD_M 24 6 OXM_DL_ARP 0 true ++           (* ARP_SHA *)
  DEFINE_FIELD_M 25 6 OXM_DL_ARP 0 true ++           (* ARP_THA *)
  DEFINE_FIELD 19 1 OXM_DL_IP IPPROTO_ICMP false ++         (* ICMPV4_TYPE *)
  DEFINE_FIELD 20 1 OXM_DL_IP IPPROTO_ICMP false ++         (* ICMPV4_CODE *)
  DEFINE_FIELD 29 1 OXM_DL_IPV6 IPPROTO_ICMPV6 false ++     (* ICMPV6_TYPE *)
  DEFINE_FIELD 30 1 OXM_DL_IPV6 IPPROTO_ICMPV6 false ++     (* ICMPV6_CODE *)
  DEFINE_FIELD 31 16 OXM_DL_IPV6 IPPROTO_ICMPV6 false ++    (* IPV6_ND_TARGET *)
  DEFINE_FIELD 32 6 OXM_DL_IPV6 IPPROTO_ICMPV6 false ++     (* IPV6_ND_SLL *)
  DEFINE_FIELD 33 6 OXM_DL_IPV6 IPPROTO_ICMPV6 false ++     (* IPV6_ND_TLL *)
  DEFINE_FIELD_M 38 8 OXM_DL_NONE 0 true.            (* TUNNEL_ID *)

Definition oxm_field_lookup (header : Z) : option oxm_field :=
  snd <$> list_find (λ f, of_header f = header) all_fields.

(** The TLVs of a match under one header. *)
Definition tlvs_of (header : Z) (rule : ofl_match) : list ofl_match_tlv :=
  filter (λ f, tlv_header f = header) (match_fields rule).

Definition ICMPV6_NEIGHSOL := 135.
Definition ICMPV6_NEIGHADV := 136.

(** There is one, and all of them begin with the byte [x]. *)
Definition all_begin_with (x : Z) (l : list ofl_match_tlv) : bool :=
  forallb (λ f, rd8 (tlv_value f) =? x) l && negb (bool_decide (l = [])).

Definition oxm_prereqs_ok (field : oxm_field) (rule : ofl_match) : bool :=
  let h := of_header field in
  let types := tlvs_of OXM_OF_ICMPV6_TYPE rule in
  let solicit := (h =? OXM_OF_IPV6_ND_SLL) || (h =? OXM_OF_IPV6_ND_TARGET) in
  if solicit && negb (all_begin_with ICMPV6_NEIGHSOL types) then false
  else
    let found := solicit in
    if ((h =? OXM_OF_IPV6_ND_TLL) || (h =? OXM_OF_IPV6_ND_TARGET)) && negb found &&
       negb (all_begin_with ICMPV6_NEIGHADV types) then false
    else if negb (of_nw_proto field =? 0) &&
            negb (all_begin_with (of_nw_proto field) (tlvs_of OXM_OF_IP_PROTO rule)) then false
    else if (of_dl_type field).1 =? 0 then true
    else existsb (λ f, let eth_type := bswap16 (rd16 (tlv_value f)) in
                       ((of_dl_type field).1 =? eth_type) ||
                       (negb ((of_dl_type field).2 =? 0) && ((of_dl_type field).2 =? eth_type)))
           (tlvs_of OXM_OF_ETH_TYPE rule).
