(* ===== verification/OxmWire.v ===== *)
(** Matches on the wire: oflib/oxm-match.c ([oxm_pull_match], [parse_oxm_entry],
    [oxm_put_match]), [ofl_structs_match_pack] of oflib/ofl-structs-pack.c and
    [ofl_structs_match_unpack] of oflib/ofl-structs-unpack.c.

    The buffer that [oxm_pull_match] works on is the list of its bytes. *)

From S2P Require Import Prelude Memory OpenFlow Oxm Group Meter Wire.

Definition ofp_mkerr (type code : Z) : Z := Z.lor (Z.shiftl type 16) code.
Definition BAD_MATCH (code : Z) : Z := ofp_mkerr OFPET_BAD_MATCH code.

(** * Pulling *)

(** A value at the front of [p], in network order and as it is in memory. *)
Definition front (w : nat) (p : list Z) : res (list Z) := if (w <=? length p)%nat then Val (take w p) else Undef.
Definition ntoh (w : nat) (p : list Z) : res Z := bs ← front w p; Val (be_read bs).
Definition raw (w : nat) (p : list Z) : res Z := bs ← front w p; Val (le_read bs).

(** [check_bad_wildcard16], [32] and [64]; the ones for 48 and 128 bits test two pieces. *)
Definition check_bad_wildcard (value mask : Z) : bool := negb (value =? Z.land value mask).
Definition check_bad_wildcard48 (value mask : list Z) : bool :=
  check_bad_wildcard (rd16 value) (rd16 mask) || check_bad_wildcard (rd32 (drop 2 value)) (rd32 (drop 2 mask)).
Definition check_bad_wildcard128 (value mask : list Z) : bool :=
  check_bad_wildcard (rd64 value) (rd64 mask) || check_bad_wildcard (rd64 (drop 8 value)) (rd64 (drop 8 mask)).

Definition check_present_prereq (m : ofl_match) (header : Z) : bool := bool_decide (tlvs_of header m ≠ []).
Definition check_oxm_dup (m : ofl_match) (header : Z) : bool := bool_decide (tlvs_of header m ≠ []).
Definition VLAN_VID_MAX := 4095.

(** The value alone, and with a mask; [p] and [q] point to the two in the message.  The
    cases are those of [f->index], grouped as in the switch statement; [f] stands for the number
    of the field and [h] for its header.

    OFI_OXM_OF_IN_PHY_PORT runs on into the case of METADATA.  With PBB_ISID_W the address of
    a local variable is taken for the mask. *)
Definition parse_exact (m : ofl_match) (f h : Z) (p : list Z) : res ofl_match :=
  if f =? 0 then v ← ntoh 4 p; Val (ofl_structs_match_put32 m h v)
  else if f =? 1 then
    if check_present_prereq m OXM_OF_IN_PORT
    then v ← ntoh 4 p; v8 ← ntoh 8 p; Val (ofl_structs_match_put64 (ofl_structs_match_put32 m h v) h v8)
    else Err (BAD_MATCH 9)
  else if f =? 2 then v ← ntoh 8 p; Val (ofl_structs_match_put64 m h v)
  else if bool_decide (f ∈ [3; 4; 24; 25; 32; 33]) then v ← front 6 p; Val (ofl_structs_match_put_eth m h v)
  else if f =? 5 then v ← ntoh 2 p; Val (ofl_structs_match_put16 m h v)
  else if f =? 6 then
    v ← ntoh 2 p;
    if OFPVID_PRESENT + VLAN_VID_MAX <? v then Err (BAD_MATCH 7) else Val (ofl_structs_match_put16 m h v)
  else if f =? 7 then
    match tlvs_of OXM_OF_VLAN_VID m with
    | t :: _ => v ← ntoh 1 p; Val (if negb (rd16 (tlv_value t) =? OFPVID_NONE) then ofl_structs_match_put8 m h v else m)
    | [] => Err (BAD_MATCH 9)
    end
  else if f =? 8 then
    v ← ntoh 1 p; if truthy (Z.land v 0xc0) then Err (BAD_MATCH 7) else Val (ofl_structs_match_put8 m h v)
  else if bool_decide (f ∈ [9; 10; 19; 20; 29; 30; 35; 36]) then v ← ntoh 1 p; Val (ofl_structs_match_put8 m h v)
  else if bool_decide (f ∈ [11; 12; 22; 23]) then v ← raw 4 p; Val (ofl_structs_match_put32 m h v)
  else if bool_decide (f ∈ [26; 27; 31]) then v ← front 16 p; Val (ofl_structs_match_put_ipv6 m h v)
  else if bool_decide (f ∈ [28; 34]) then v ← ntoh 4 p; Val (ofl_structs_match_put32 m h v)
  else if bool_decide (f ∈ [13; 14; 15; 16; 17; 18; 21; 39]) then v ← ntoh 2 p; Val (ofl_structs_match_put16 m h v)
  else if f =? 37 then v ← front 3 p; Val (ofl_structs_match_put_pbb_isid m h v)
  else if f =? 38 then v ← ntoh 8 p; Val (ofl_structs_match_put64 m h v)
  else Undef.

Definition parse_masked (m : ofl_match) (f h : Z) (p q : list Z) : res ofl_match :=
  if f =? 2 then
    v ← ntoh 8 p; k ← ntoh 8 q;
    if check_bad_wildcard v k then Err (BAD_MATCH 5) else Val (ofl_structs_match_put64m m h v k)
  else if bool_decide (f ∈ [3; 4; 24; 25]) then
    v ← front 6 p; k ← front 6 q;
    if check_bad_wildcard48 v k then Err (BAD_MATCH 5) else Val (ofl_structs_match_put_eth_m m h v k)
  else if f =? 6 then
    v ← ntoh 2 p; k ← ntoh 2 q;
    if check_bad_wildcard v k then Err (BAD_MATCH 5)
    else if OFPVID_PRESENT + VLAN_VID_MAX <? v then Err (BAD_MATCH 7) else Val (ofl_structs_match_put16m m h v k)
  else if bool_decide (f ∈ [11; 12; 22; 23]) then
    v ← raw 4 p; k ← raw 4 q;
    if check_bad_wildcard v k then Err (BAD_MATCH 5) else Val (ofl_structs_match_put32m m h v k)
  else if bool_decide (f ∈ [26; 27]) then
    v ← front 16 p; k ← front 16 q;
    if check_bad_wildcard128 v k then Err (BAD_MATCH 5) else Val (ofl_structs_match_put_ipv6m m h v k)
  else if f =? 28 then
    v0 ← raw 4 p; k0 ← raw 4 q; v ← ntoh 4 p; k ← ntoh 4 q;
    if check_bad_wildcard v0 k0 then Err (BAD_MATCH 5) else Val (ofl_structs_match_put32m m h v k)
  else if f =? 37 then
    v0 ← raw 4 p; k0 ← raw 4 q; if check_bad_wildcard v0 k0 then Err (BAD_MATCH 5) else Undef
  else if f =? 38 then
    v0 ← raw 8 p; k0 ← raw 8 q; v ← ntoh 8 p; k ← ntoh 8 q;
    if check_bad_wildcard v0 k0 then Err (BAD_MATCH 5) else Val (ofl_structs_match_put64m m h v k)
  else if f =? 39 then v ← ntoh 2 p; k ← ntoh 2 q; Val (ofl_structs_match_put16m m h v k)
  else Undef.

Definition parse_oxm_entry (m : ofl_match) (field : oxm_field) (p q : list Z) : res ofl_match :=
  let h := of_header field in
  if OXM_HASMASK h then parse_masked m (OXM_FIELD h) h p q else parse_exact m (OXM_FIELD h) h p.

(** 0 when there is no entry, or not all of it. *)
Definition oxm_entry_ok (p : list Z) : Z :=
  let match_len := Z.of_nat (length p) in
  if match_len <=? 4 then 0
  else
    let header := be_read (take 4 p) in
    let payload_len := OXM_LENGTH header in
    if payload_len =? 0 then 0 else if match_len <? payload_len + 4 then 0 else header.

(** One entry. *)
Definition pull_entry (m : ofl_match) (header : Z) (p : list Z) : res ofl_match :=
  match oxm_field_lookup header with
  | None => Err (BAD_MATCH 6)
  | Some f =>
    if OXM_HASMASK header && negb (of_maskable f) then Err (BAD_MATCH 8)
    else if negb (oxm_prereqs_ok f m) then Err (BAD_MATCH 9)
    else if check_oxm_dup m (of_header f) then Err (BAD_MATCH 10)
    else parse_oxm_entry m f (drop 4 p) (drop (4 + Z.to_nat (OXM_LENGTH header / 2)) p)
  end.

(** The loop; every turn takes more than four bytes off [p], so that its length is enough
    fuel. *)
Fixpoint pull_loop (fuel : nat) (m : ofl_match) (p : list Z) : res ofl_match :=
  let header := oxm_entry_ok p in
  if header =? 0 then (if (length p =? 0)%nat then Val m else Err (BAD_MATCH 1))
  else match fuel with
       | O => Hang
       | S fuel => m ← pull_entry m header p; pull_loop fuel m (drop (4 + Z.to_nat (OXM_LENGTH header)) p)
       end.

Definition oxm_pull_match (p : list Z) : res ofl_match := pull_loop (length p) ofl_structs_match_init p.

(** [src] is at [p] of the message, the TLVs follow it.  The length of the match is not
    compared with [*len]. *)
Definition ofl_structs_match_unpack (buf : list Z) (p : nat) (len : Z) : res (ofl_match * Z) :=
  t ← get 2 buf p;
  if t =? 1 then
    length ← get 2 buf (p + 2);
    let len := u64 (len - ROUND_UP length) in
    if 8 <? length then
      b ← get_bytes buf (p + 4) (Z.to_nat (length - 4));
      m ← oxm_pull_match b;
      Val (Match (length - 4) (match_fields m), len)
    else Val (Match 0 [], len)
  else Err (ofl_error OFPET_BAD_MATCH 0).

(** * Putting *)

Definition is_requisite (header : Z) : bool :=
  bool_decide (header ∈ [OXM_OF_IN_PORT; OXM_OF_ETH_TYPE; OXM_OF_VLAN_VID; OXM_OF_IP_PROTO; OXM_OF_ICMPV6_TYPE]).

(** The bytes of a value or of a mask of [length] bytes; [address] for the four fields whose
    32 bits are kept in network order.  The mask of an 8-bit field is put as 16 bits. *)
Definition put_value (length : Z) (address : bool) (v : list Z) : option (list Z) :=
  if bool_decide (length ∈ [1; 3; 6; 16]) then Some v
  else if bool_decide (length ∈ [2; 8]) then Some (rev v)
  else if length =? 4 then Some (if address then v else rev v)
  else None.

Definition is_address (header : Z) : bool :=
  bool_decide (header ∈ [OXM_OF_IPV4_DST; OXM_OF_IPV4_SRC; OXM_OF_ARP_SPA; OXM_OF_ARP_TPA]).
Definition is_address_w (header : Z) : bool :=
  bool_decide (header ∈ [OXM_OF_IPV4_DST_W; OXM_OF_IPV4_SRC_W; OXM_HEADER_W 0x8000 22 4; OXM_HEADER_W 0x8000 23 4]).

(** The body of the last loop; nothing is put for another length. *)
Definition put_tlv (t : ofl_match_tlv) : list Z :=
  let h := tlv_header t in
  let n := OXM_LENGTH h in
  if OXM_HASMASK h then
    let k := Z.to_nat (n / 2) in
    match put_value (n / 2) (is_address_w h) (take k (tlv_value t)), put_value (n / 2) (is_address_w h) (drop k (tlv_value t)) with
    | Some v, Some mask => be 4 h ++ v ++ mask ++ (if n / 2 =? 1 then [0] else [])
    | _, _ => []
    end
  else match put_value n (is_address h) (tlv_value t) with Some v => be 4 h ++ v | None => [] end.

(** The order in which the fields are put: what others depend on comes first. *)
Definition wire_order (m : ofl_match) : list ofl_match_tlv :=
  tlvs_of OXM_OF_IN_PORT m ++ tlvs_of OXM_OF_ETH_TYPE m ++ tlvs_of OXM_OF_VLAN_VID m ++ tlvs_of OXM_OF_IP_PROTO m ++
  tlvs_of OXM_OF_ICMPV6_TYPE m ++ base.filter (λ t, is_requisite (tlv_header t) = false) (match_fields m).

Definition oxm_put_match (m : ofl_match) : list Z := concat (put_tlv <$> wire_order m).

(** The type and length, and the TLVs; the padding behind them is whatever [malloc] found. *)
Definition ofl_structs_match_pack (m : ofl_match) : list Z :=
  if truthy (match_length m) then
    let oxm := oxm_put_match m in be 2 1 ++ be 2 (Z.of_nat (length oxm) + 4) ++ oxm
  else be 2 1 ++ be 2 4.
