(* ===== verification/OxmWireCorrect.v ===== *)
(** A match that is put on the wire is pulled off it again. *)

From S2P Require Import Prelude Memory OpenFlow Oxm Group Meter Wire WireCorrect OxmWire.

(** * Values *)

Lemma front_app w v rest : length v = w → front w (v ++ rest) = Val v.
Proof. intros <-. unfold front. rewrite length_app, (proj2 (Nat.leb_le _ _)) by lia. by rewrite take_app_length. Qed.

Lemma ntoh_app w v rest : length v = w → ntoh w (rev v ++ rest) = Val (le_read v).
Proof. intros Hv. unfold ntoh. rewrite front_app by (by rewrite length_rev). cbn. unfold be_read. by rewrite rev_involutive. Qed.

Lemma ntoh_byte v rest : length v = 1%nat → ntoh 1 (v ++ rest) = Val (le_read v).
Proof. intros Hv. destruct v as [|x [|? ?]]; try done. Qed.

Lemma raw_app w v rest : length v = w → raw w (v ++ rest) = Val (le_read v).
Proof. intros Hv. unfold raw. by rewrite front_app. Qed.

Lemma le_bytes_value w v : bytes v → length v = w → le_bytes w (le_read v) = v.
Proof. intros Hb <-. by apply le_bytes_le_read. Qed.

(** No bit of the value is outside of the mask. *)
Definition covered (v k : list Z) : Prop := zip_with Z.land v k = v.

Lemma le_read_land v k : bytes v → bytes k → length v = length k → le_read (zip_with Z.land v k) = Z.land (le_read v) (le_read k).
Proof.
  apply (le_read_op Z.land andb (λ a b n _, Z.land_spec a b n) eq_refl (λ a b Ha Hb, proj2 (Z.land_nonneg a b) (or_introl Ha))).
Qed.

Lemma wildcard_ok v k : bytes v → bytes k → length v = length k → covered v k → check_bad_wildcard (le_read v) (le_read k) = false.
Proof.
  intros Hv Hk Hl Hc. unfold check_bad_wildcard. rewrite <- le_read_land by done. rewrite Hc, Z.eqb_refl. done.
Qed.

Lemma covered_app v v' k k' : length v = length k → covered (v ++ v') (k ++ k') ↔ covered v k ∧ covered v' k'.
Proof.
  intros Hl. unfold covered. rewrite zip_with_app by done. split; [|by intros [-> ->]].
  intros [E1 E2]%app_inj_1; [done|]. rewrite length_zip_with. lia.
Qed.

(** The tests in pieces. *)
Lemma wildcard_split n v k :
  bytes v → bytes k → length v = length k → covered v k → (n <= length v)%nat →
  check_bad_wildcard (le_read (take n v)) (le_read (take n k)) || check_bad_wildcard (le_read (drop n v)) (le_read (drop n k)) = false.
Proof.
  intros Hv Hk Hl Hc Hn. rewrite <- (take_drop n v), <- (take_drop n k) in Hc.
  apply covered_app in Hc as [H1 H2]; [|rewrite !length_take; lia].
  rewrite !wildcard_ok; try done; try (by apply Forall_take); try (by apply Forall_drop); rewrite ?length_take, ?length_drop; lia.
Qed.

Lemma wildcard48_ok v k : bytes v → bytes k → length v = 6%nat → length k = 6%nat → covered v k → check_bad_wildcard48 v k = false.
Proof.
  intros Hv Hk Lv Lk Hc. unfold check_bad_wildcard48, rd16, rd32. rewrite !(take_ge (drop 2 _)) by (rewrite length_drop; lia).
  apply wildcard_split; try done; lia.
Qed.

Lemma wildcard128_ok v k : bytes v → bytes k → length v = 16%nat → length k = 16%nat → covered v k → check_bad_wildcard128 v k = false.
Proof.
  intros Hv Hk Lv Lk Hc. unfold check_bad_wildcard128, rd64. rewrite !(take_ge (drop 8 _)) by (rewrite length_drop; lia).
  apply wildcard_split; try done; lia.
Qed.

(** * One entry *)

(** Fields that can be matched on, with values the protocol allows.  The physical port
    and the masked PBB service id are left out: see [parse_exact] and [parse_masked]. *)
Record oxm_ok (t : ofl_match_tlv) : Prop := {
  ox_known : tlv_header t ∈ (of_header <$> all_fields);
  ox_sound : tlv_header t ∉ [OXM_OF_IN_PHY_PORT; OXM_HEADER_W 0x8000 37 3];
  ox_bytes : bytes (tlv_value t);
  ox_length : Z.of_nat (length (tlv_value t)) = OXM_LENGTH (tlv_header t);
  ox_mask : let k := Z.to_nat (OXM_LENGTH (tlv_header t) / 2) in
    OXM_HASMASK (tlv_header t) = true → tlv_header t = OXM_HEADER_W 0x8000 39 2 ∨ covered (take k (tlv_value t)) (drop k (tlv_value t));
  ox_vlan : OXM_FIELD (tlv_header t) = 6 → rd16 (tlv_value t) <= OFPVID_PRESENT + VLAN_VID_MAX;
  ox_dscp : OXM_FIELD (tlv_header t) = 8 → Z.land (rd8 (tlv_value t)) 0xc0 = 0 }.

(** Conditions that compute. *)
Ltac compute_if :=
  match goal with
  | |- context [if ?b then _ else _] =>
    let x := eval vm_compute in b in
    lazymatch x with true => idtac | false => idtac end; change b with x; cbv iota
  end.

(** The field of an entry that is known by its header. *)
Ltac each_field H :=
  unfold all_fields in H; cbn [app fmap list_fmap DEFINE_FIELD DEFINE_FIELD_M of_header] in H;
  repeat (apply elem_of_cons in H as [H|H]); [..|by apply elem_of_nil in H].

Definition pcp_ok (m : ofl_match) (t : ofl_match_tlv) : Prop :=
  OXM_FIELD (tlv_header t) = 7 → match tlvs_of OXM_OF_VLAN_VID m with vid :: _ => rd16 (tlv_value vid) ≠ OFPVID_NONE | [] => False end.

Ltac wire_value :=
  unfold put_tlv; cbn [tlv_header tlv_value]; repeat compute_if; unfold put_value; repeat compute_if; rewrite ?app_nil_r; reflexivity.

(** The field is put as it is in memory or with its bytes reversed, and read accordingly. *)
Ltac exact_field v :=
  first [exists v; split; [wire_value|split; [reflexivity|]]
        |exists (rev v); split; [wire_value|split; [apply length_rev|]]];
  unfold parse_exact; repeat compute_if; rewrite ?ntoh_app, ?ntoh_byte, ?raw_app, ?front_app by done; cbn [mbind res_bind].

Ltac put_field v :=
  unfold ofl_structs_match_put8, ofl_structs_match_put16, ofl_structs_match_put32, ofl_structs_match_put64,
    ofl_structs_match_put_eth, ofl_structs_match_put_ipv6, ofl_structs_match_put_pbb_isid;
  rewrite ?(le_bytes_value _ v) by done; rewrite ?(take_ge v) by (cbn; lia).

Lemma parse_exact_ok m t rest :
  oxm_ok t → OXM_HASMASK (tlv_header t) = false → pcp_ok m t →
  ∃ v, put_tlv t = be 4 (tlv_header t) ++ v ∧ length v = length (tlv_value t) ∧
    parse_exact m (OXM_FIELD (tlv_header t)) (tlv_header t) (v ++ rest) = Val (match_put m (tlv_header t) (tlv_value t)).
Proof.
  intros [Hk Hs Hb Hl _ Hvl Hd] Hm Hp. unfold pcp_ok in Hp. destruct t as [h v]. cbn [tlv_header tlv_value] in *. each_field Hk; subst h.
  all: try (vm_compute in Hm; discriminate).
  all: try (exfalso; apply Hs, (bool_decide_unpack _); vm_compute; exact I).
  all: match type of Hl with _ = ?z => let n := eval vm_compute in (Z.to_nat z) in assert (length v = n) as Hn by (apply Nat2Z.inj; exact Hl) end.
  all: exact_field v.
  all: try (put_field v; reflexivity).
  - unfold rd16 in Hvl. rewrite take_ge in Hvl by lia. rewrite (proj2 (Z.ltb_ge _ _)) by (by apply Hvl). put_field v. reflexivity.
  - specialize (Hp eq_refl). destruct (tlvs_of OXM_OF_VLAN_VID m) as [|vid l]; [done|]. rename Hp into Hne. rewrite (proj2 (Z.eqb_neq _ _) Hne). cbn [negb]. put_field v. reflexivity.
  - unfold rd8 in Hd. rewrite take_ge in Hd by lia. rewrite (Hd eq_refl). cbn [truthy]. put_field v. reflexivity.
Qed.

Lemma bytes_rev v : bytes v → bytes (rev v).
Proof. intros Hb. by apply Forall_rev. Qed.

Lemma covered_rev v k : length v = length k → covered v k → covered (rev v) (rev k).
Proof.
  unfold covered. revert k; induction v as [|x v IH]; intros [|y k] Hl Hc; [done..|]. cbn in *. injection Hc as H1 H2. injection Hl as Hl.
  rewrite zip_with_app by (by rewrite !length_rev). cbn. by rewrite H1, IH.
Qed.

Ltac masked_field v k Lv Lk :=
  first [exists v, k; split; [wire_value|split_and!; [by rewrite Lv|by rewrite Lk|]]
        |exists (rev v), (rev k); split; [wire_value|split_and!; [by rewrite length_rev, Lv|by rewrite length_rev, Lk|]]];
  unfold parse_masked; repeat compute_if.

Lemma parse_masked_ok m t rest :
  oxm_ok t → OXM_HASMASK (tlv_header t) = true →
  ∃ v k, put_tlv t = be 4 (tlv_header t) ++ v ++ k ∧
    Z.of_nat (length v) = OXM_LENGTH (tlv_header t) / 2 ∧ Z.of_nat (length k) = OXM_LENGTH (tlv_header t) / 2 ∧
    parse_masked m (OXM_FIELD (tlv_header t)) (tlv_header t) (v ++ k ++ rest) (k ++ rest) = Val (match_put m (tlv_header t) (tlv_value t)).
Proof.
  intros [Hk Hs Hb Hl Hc Hvl _] Hm. destruct t as [h w]. cbn [tlv_header tlv_value] in *. specialize (Hc Hm).
  each_field Hk; subst h.
  all: try (vm_compute in Hm; discriminate).
  all: try (exfalso; apply Hs, (bool_decide_unpack _); vm_compute; exact I).
  all: match type of Hl with _ = ?z => let n := eval vm_compute in (Z.to_nat (z / 2)) in
    assert (length w = 2 * n)%nat as Hn by (apply Nat2Z.inj; exact Hl); change (Z.to_nat (z / 2)) with n in Hc;
    assert (length (take n w) = n) as Lv by (rewrite length_take; lia); assert (length (drop n w) = n) as Lk by (rewrite length_drop; lia);
    assert (bytes (take n w)) as Bv by (by apply Forall_take); assert (bytes (drop n w)) as Bk by (by apply Forall_drop);
    pose proof (take_drop n w) as Hw; set (v := take n w) in *; set (k := drop n w) in *; clearbody v k; subst w end.
  all: assert (length v = length k) as Hvk by (by rewrite Lv, Lk).
  all: unfold put_tlv; cbn [tlv_header tlv_value]; repeat compute_if; rewrite !take_app_length', !drop_app_length' by done.
  all: masked_field v k Lv Lk.
  all: rewrite ?ntoh_app, ?raw_app, ?front_app by (done || by rewrite length_rev); cbn [mbind res_bind].
  all: try (destruct Hc as [Hc|Hc]; [vm_compute in Hc; discriminate|]).
  all: rewrite ?wildcard_ok, ?wildcard48_ok, ?wildcard128_ok
    by (done || by apply bytes_rev || by apply covered_rev || by rewrite !length_rev).
  all: try (unfold ofl_structs_match_put16m, ofl_structs_match_put32m, ofl_structs_match_put64m, ofl_structs_match_put_eth_m, ofl_structs_match_put_ipv6m;
    rewrite ?(le_bytes_value _ v), ?(le_bytes_value _ k), ?(take_ge v), ?(take_ge k) by (done || lia); reflexivity).
  - unfold rd16 in Hvl. rewrite take_app_length' in Hvl by done. rewrite (proj2 (Z.ltb_ge _ _)) by (by apply Hvl).
    unfold ofl_structs_match_put16m. by rewrite !le_bytes_value.
Qed.

(** * All of the entries *)

Definition put (m : ofl_match) (t : ofl_match_tlv) : ofl_match := match_put m (tlv_header t) (tlv_value t).

Lemma lookup_ok h : h ∈ (of_header <$> all_fields) → ∃ f, oxm_field_lookup h = Some f ∧ of_header f = h ∧ f ∈ all_fields.
Proof.
  intros (f & -> & Hf)%list_elem_of_fmap. unfold oxm_field_lookup.
  destruct (list_find (λ f', of_header f' = of_header f) all_fields) as [[i f']|] eqn:E.
  - exists f'. apply list_find_Some in E as (Hi & Hh & _). split_and!; [done..|by eapply list_elem_of_lookup_2].
  - exfalso. apply list_find_None in E. rewrite list.Forall_forall in E. by eapply E.
Qed.

Lemma header_ok h : h ∈ (of_header <$> all_fields) →
  0 < h < 2 ^ 32 ∧ 0 < OXM_LENGTH h ∧ (∀ f, f ∈ all_fields → of_header f = h → OXM_HASMASK h = true → of_maskable f = true) ∧
  (OXM_HASMASK h = true → OXM_LENGTH h = 2 * (OXM_LENGTH h / 2)).
Proof.
  intros Hh. assert (forallb (λ g, (0 <? g) && (g <? 2 ^ 32) && (0 <? OXM_LENGTH g) && (negb (OXM_HASMASK g) || (OXM_LENGTH g =? 2 * (OXM_LENGTH g / 2))) &&
    forallb (λ f, negb (of_header f =? g) || negb (OXM_HASMASK g) || of_maskable f) all_fields)
    (of_header <$> all_fields) = true) as Hall by (vm_compute; reflexivity).
  rewrite forallb_forall in Hall. apply list_elem_of_In, Hall in Hh. rewrite !andb_true_iff in Hh.
  destruct Hh as ((((H1 & H2) & H3) & H4) & H5). split_and!; try lia.
  - intros f Hf Hg Hm. rewrite forallb_forall in H5. apply list_elem_of_In, H5 in Hf. rewrite Hg, Z.eqb_refl, Hm in Hf. by rewrite <- Hf.
  - intros Hm. rewrite Hm in H4. cbn [negb orb] in H4. lia.
Qed.

(** [t] can be pulled when [m] is what has been pulled before it. *)
Record ready (m : ofl_match) (t : ofl_match_tlv) : Prop := {
  rd_ok : oxm_ok t;
  rd_pre : ∀ f, oxm_field_lookup (tlv_header t) = Some f → oxm_prereqs_ok f m = true;
  rd_new : tlvs_of (tlv_header t) m = [];
  rd_pcp : pcp_ok m t }.

Lemma put_tlv_ok t : oxm_ok t → ∃ body, put_tlv t = be 4 (tlv_header t) ++ body ∧ Z.of_nat (length body) = OXM_LENGTH (tlv_header t).
Proof.
  intros Hok. pose proof Hok as [Hk _ _ Hl _ _ _]. destruct (header_ok _ Hk) as (_ & _ & _ & Heven).
  destruct (OXM_HASMASK (tlv_header t)) eqn:Hm.
  - destruct (parse_masked_ok ofl_structs_match_init t [] Hok Hm) as (v & k & -> & Hv & Hk' & _). eexists; split; [done|].
    specialize (Heven eq_refl). rewrite length_app. lia.
  - destruct (OXM_FIELD (tlv_header t) =? 7) eqn:E7.
    + destruct t as [h v]. cbn [tlv_header tlv_value] in *. each_field Hk; subst h.
      all: try (vm_compute in Hm; discriminate). all: try (vm_compute in E7; discriminate).
      exists v. split; [wire_value|exact Hl].
    + destruct (parse_exact_ok ofl_structs_match_init t [] Hok Hm) as (v & -> & Hv & _); [intros ?; lia|].
      eexists; split; [done|]. by rewrite Hv.
Qed.

Lemma parse_ok m t rest body :
  ready m t → put_tlv t = be 4 (tlv_header t) ++ body → ∀ f, of_header f = tlv_header t →
  parse_oxm_entry m f (body ++ rest) (drop (Z.to_nat (OXM_LENGTH (tlv_header t) / 2)) (body ++ rest)) = Val (put m t).
Proof.
  intros [Hok _ _ Hp] Hb f Hf. unfold parse_oxm_entry. rewrite Hf. destruct (OXM_HASMASK (tlv_header t)) eqn:Hm.
  - destruct (parse_masked_ok m t rest Hok Hm) as (v & k & E & Hv & Hk & Hpm). rewrite E in Hb. apply app_inv_head in Hb as <-.
    rewrite <- app_assoc, drop_app_length' by lia. exact Hpm.
  - destruct (parse_exact_ok m t rest Hok Hm Hp) as (v & E & Hv & Hpe). rewrite E in Hb. apply app_inv_head in Hb as <-. exact Hpe.
Qed.

Lemma entry_ok m t rest :
  ready m t → let h := tlv_header t in let p := put_tlv t ++ rest in
  oxm_entry_ok p = h ∧ h ≠ 0 ∧ pull_entry m h p = Val (put m t) ∧ drop (4 + Z.to_nat (OXM_LENGTH h)) p = rest ∧ (length rest + 4 < length p)%nat.
Proof.
  intros Hr h p. pose proof Hr as [Hok Hpre Hnew _]. pose proof Hok as [Hk _ _ Hl _ _ _].
  destruct (header_ok _ Hk) as (Hh & Hpos & Hmask & _). fold h in Hh, Hpos, Hmask, Hl.
  destruct (put_tlv_ok t Hok) as (body & Eb & Lb). fold h in Eb, Lb.
  assert (length p = 4 + length body + length rest)%nat as Hp by (unfold p; rewrite Eb, !length_app, be_length; lia).
  split_and!; [|lia| | |lia].
  - unfold oxm_entry_ok. rewrite (proj2 (Z.leb_gt _ _)) by lia. replace (take 4 p) with (be 4 h).
    2: { unfold p. rewrite Eb, <- app_assoc, take_app_length'; [done|by rewrite be_length]. }
    rewrite be_read_be by (unfold fits; lia). rewrite (proj2 (Z.eqb_neq _ _)), (proj2 (Z.ltb_ge _ _)) by lia. done.
  - unfold pull_entry. destruct (lookup_ok _ Hk) as (f & Ef & Hf & Hin). fold h in Ef. rewrite Ef.
    replace (OXM_HASMASK h && negb (of_maskable f)) with false.
    2: { destruct (OXM_HASMASK h) eqn:Em; [|done]. by rewrite (Hmask f). }
    rewrite (Hpre f Ef). cbn [negb]. unfold check_oxm_dup. rewrite Hf, Hnew, bool_decide_false by (intros []; done).
    rewrite <- drop_drop. replace (drop 4 p) with (body ++ rest).
    2: { unfold p. rewrite Eb, <- app_assoc, drop_app_length'; [done|by rewrite be_length]. }
    by apply parse_ok.
  - rewrite <- drop_drop. unfold p. rewrite Eb, <- app_assoc, drop_app_length', drop_app_length'; [done|lia|by rewrite be_length].
Qed.

(** The entries of a list one after the other. *)
Inductive pulls : ofl_match → list ofl_match_tlv → Prop :=
  | pulls_nil m : pulls m []
  | pulls_cons m t l : ready m t → pulls (put m t) l → pulls m (t :: l).

Lemma loop_ok m l fuel :
  pulls m l → let p := concat (put_tlv <$> l) in (length p <= fuel)%nat → pull_loop fuel m p = Val (fold_left put l m).
Proof.
  intros Hl; revert fuel. induction Hl as [m|m t l Hr Hl IH]; intros fuel p Hf; [by destruct fuel|].
  unfold p in *. cbn [fmap list_fmap concat fold_left] in *.
  destruct (entry_ok m t (concat (put_tlv <$> l)) Hr) as (E1 & Hne & E2 & E3 & Hlt).
  destruct fuel as [|fuel]; [lia|]. cbn [pull_loop]. rewrite E1, (proj2 (Z.eqb_neq _ _) Hne), E2. cbn [mbind res_bind].
  rewrite E3. apply IH. lia.
Qed.

(** * The order of the entries *)

Definition reqs : list Z := [OXM_OF_IN_PORT; OXM_OF_ETH_TYPE; OXM_OF_VLAN_VID; OXM_OF_IP_PROTO; OXM_OF_ICMPV6_TYPE].
Definition rank (h : Z) : nat := default 5%nat (fst <$> list_find (λ r, r = h) reqs).
Definition after (a b : ofl_match_tlv) : Prop := (rank (tlv_header a) <= rank (tlv_header b))%nat.

(** The fields that the prerequisites of a field look at. *)
Definition needs (f : oxm_field) : list Z :=
  (if bool_decide (of_header f ∈ [OXM_OF_IPV6_ND_SLL; OXM_OF_IPV6_ND_TARGET; OXM_OF_IPV6_ND_TLL]) then [OXM_OF_ICMPV6_TYPE] else []) ++
  (if of_nw_proto f =? 0 then [] else [OXM_OF_IP_PROTO]) ++ (if (of_dl_type f).1 =? 0 then [] else [OXM_OF_ETH_TYPE]).

Lemma prereqs_needs f m m' : (∀ h, h ∈ needs f → tlvs_of h m = tlvs_of h m') → oxm_prereqs_ok f m = oxm_prereqs_ok f m'.
Proof.
  intros Hn. unfold oxm_prereqs_ok.
  assert ((of_dl_type f).1 =? 0 = true ∨ tlvs_of OXM_OF_ETH_TYPE m = tlvs_of OXM_OF_ETH_TYPE m') as He.
  { destruct (_ =? 0) eqn:E; [by left|right]. apply Hn. unfold needs. rewrite E. set_solver. }
  assert (of_nw_proto f =? 0 = true ∨ tlvs_of OXM_OF_IP_PROTO m = tlvs_of OXM_OF_IP_PROTO m') as Hi.
  { destruct (of_nw_proto f =? 0) eqn:E; [by left|right]. apply Hn. unfold needs. rewrite E. set_solver. }
  assert (((of_header f =? OXM_OF_IPV6_ND_SLL) || (of_header f =? OXM_OF_IPV6_ND_TARGET) = false ∧ of_header f =? OXM_OF_IPV6_ND_TLL = false) ∨
    tlvs_of OXM_OF_ICMPV6_TYPE m = tlvs_of OXM_OF_ICMPV6_TYPE m') as Ht.
  { destruct (decide (of_header f ∈ [OXM_OF_IPV6_ND_SLL; OXM_OF_IPV6_ND_TARGET; OXM_OF_IPV6_ND_TLL])) as [Hin|Hin].
    - right. apply Hn. unfold needs. rewrite bool_decide_true by done. set_solver.
    - left. rewrite !elem_of_cons in Hin. rewrite orb_false_iff, !Z.eqb_neq. tauto. }
  destruct He as [->| ->], Hi as [->| ->], Ht as [[Ht1 ->]| ->]; rewrite ?Ht1; cbn [andb negb orb]; try done.
  all: apply orb_false_iff in Ht1 as [_ Ht2]; by rewrite Ht2.
Qed.

Lemma needs_before f h : f ∈ all_fields → h ∈ needs f → (rank h < rank (of_header f))%nat ∧ h ∈ reqs.
Proof.
  intros Hf Hh.
  assert (forallb (λ f, forallb (λ h, (rank h <? rank (of_header f))%nat && bool_decide (h ∈ reqs)) (needs f)) all_fields = true) as Hall by (vm_compute; reflexivity).
  rewrite forallb_forall in Hall. apply list_elem_of_In, Hall in Hf. rewrite forallb_forall in Hf. apply list_elem_of_In, Hf in Hh.
  apply andb_true_iff in Hh as [H1%Nat.ltb_lt H2]. by apply bool_decide_eq_true in H2.
Qed.

Lemma rank_req h : h ∈ reqs → (rank h < 5)%nat.
Proof. intros Hh. unfold reqs in Hh. repeat (apply elem_of_cons in Hh as [->|Hh]; [vm_compute; lia|]). by apply elem_of_nil in Hh. Qed.

Lemma rank_other h : is_requisite h = false → rank h = 5%nat.
Proof.
  unfold is_requisite, rank. rewrite bool_decide_eq_false. fold reqs. intros Hh.
  replace (list_find _ _) with (None : option (nat * Z)); [done|]. symmetry. apply list_find_None.
  rewrite list.Forall_forall. by intros x Hx ->.
Qed.

Lemma elem_tlvs_of h m t : t ∈ tlvs_of h m ↔ tlv_header t = h ∧ t ∈ match_fields m.
Proof. unfold tlvs_of. by rewrite list_elem_of_filter. Qed.

Lemma same_rank_sorted h m : StronglySorted after (tlvs_of h m).
Proof.
  unfold tlvs_of. induction (match_fields m) as [|t l IH]; [constructor|]. rewrite filter_cons. destruct (decide _) as [Hh|]; [|done].
  constructor; [done|]. rewrite list.Forall_forall. intros x [Hx _]%list_elem_of_filter. unfold after. by rewrite Hh, Hx.
Qed.

Lemma wire_sorted m : StronglySorted after (wire_order m).
Proof.
  unfold wire_order. repeat (apply StronglySorted_app_2; [|apply same_rank_sorted|]).
  6: { induction (match_fields m) as [|t l IH]; [constructor|]. rewrite filter_cons. destruct (decide _) as [Hh|]; [|done].
       constructor; [done|]. rewrite list.Forall_forall. intros x [Hx _]%list_elem_of_filter. unfold after. by rewrite !rank_other. }
  all: intros a b [Ha _]%elem_tlvs_of Hb; unfold after; rewrite Ha.
  all: repeat (apply elem_of_app in Hb as [[Hb _]%elem_tlvs_of|Hb]; [rewrite Hb; vm_compute; lia|]).
  all: apply list_elem_of_filter in Hb as [Hb _]; rewrite (rank_other _ Hb); apply Nat.lt_le_incl, rank_req; unfold reqs; set_solver.
Qed.

Lemma wire_perm m : wire_order m ≡ₚ match_fields m.
Proof.
  unfold wire_order, tlvs_of. induction (match_fields m) as [|t l IH]; [done|].
  rewrite !filter_cons. destruct (is_requisite (tlv_header t)) eqn:Hr.
  - unfold is_requisite in Hr. apply bool_decide_eq_true in Hr. rewrite (decide_False (P := true = false)) by done.
    repeat (apply elem_of_cons in Hr as [Hh|Hr];
      [rewrite Hh; match goal with |- context [decide (?c = ?c)] => rewrite (decide_True (P := c = c)) by done end;
       rewrite !decide_False by (vm_compute; discriminate); etrans; [|apply perm_skip, IH]; solve_Permutation|]).
    by apply elem_of_nil in Hr.
  - rewrite (decide_True (P := false = false)) by done. unfold is_requisite in Hr. apply bool_decide_eq_false in Hr.
    rewrite !elem_of_cons in Hr. rewrite !decide_False by tauto. etrans; [|apply perm_skip, IH]. solve_Permutation.
Qed.

Lemma fold_put_fields l m : match_fields (fold_left put l m) = rev l ++ match_fields m.
Proof. revert m; induction l as [|t l IH]; intros m; [done|]. cbn [fold_left rev]. rewrite IH, <- app_assoc. by destruct t. Qed.

Lemma filter_none_of {A : Type} (P : A → Prop) `{∀ x, Decision (P x)} (l : list A) : Forall (λ x, ¬ P x) l → base.filter P l = [].
Proof. induction 1 as [|x l Hx _ IH]; [done|]. by rewrite filter_cons, decide_False. Qed.

Lemma tlvs_single h m : NoDup (tlv_header <$> match_fields m) → (length (tlvs_of h m) <= 1)%nat.
Proof.
  unfold tlvs_of. induction (match_fields m) as [|t l IH]; intros Hnd; [cbn; lia|]. cbn in Hnd. apply list.NoDup_cons in Hnd as [Hn Hnd].
  rewrite filter_cons. destruct (decide _) as [Hh|]; [|by apply IH]. rewrite filter_none_of; [cbn; lia|].
  rewrite list.Forall_forall. intros x Hx Hxh. apply Hn. rewrite Hh, <- Hxh. by apply list_elem_of_fmap_2.
Qed.

Lemma perm_single {A : Type} (l l' : list A) : l ≡ₚ l' → (length l' <= 1)%nat → l = l'.
Proof. intros Hp Hl. destruct l' as [|x [|y l']]; cbn in Hl; [by apply Permutation_nil_r|by apply Permutation_singleton_r|lia]. Qed.

Lemma tlvs_before m l1 t l2 h :
  NoDup (tlv_header <$> match_fields m) → wire_order m = l1 ++ t :: l2 → (rank h < rank (tlv_header t))%nat →
  tlvs_of h (fold_left put l1 ofl_structs_match_init) = tlvs_of h m.
Proof.
  intros Hnd Hw Hr. apply perm_single; [|by apply tlvs_single]. unfold tlvs_of. rewrite fold_put_fields, app_nil_r.
  rewrite <- (wire_perm m), Hw, <- Permutation_rev, list.filter_app. rewrite (filter_none_of _ (t :: l2)), app_nil_r; [done|].
  pose proof (wire_sorted m) as Hs. rewrite Hw in Hs. apply StronglySorted_app_1_r, StronglySorted_inv in Hs as [_ Hs].
  constructor; [intros Hh; rewrite Hh in Hr; lia|]. eapply list.Forall_impl; [exact Hs|]. intros x Hx Hh. unfold after in Hx. rewrite Hh in Hx. lia.
Qed.

Definition pre_ok (m : ofl_match) (t : ofl_match_tlv) : Prop :=
  match oxm_field_lookup (tlv_header t) with Some f => oxm_prereqs_ok f m = true | None => False end.

(** A match whose fields are allowed and have their prerequisites. *)
Record match_sound (m : ofl_match) : Prop := {
  ms_wf : match_wf m;
  ms_fields : Forall oxm_ok (match_fields m);
  ms_pre : Forall (pre_ok m) (match_fields m);
  ms_pcp : Forall (pcp_ok m) (match_fields m);
  ms_length : match_length m < 2 ^ 16 - 11 }.

Lemma wire_ready m l1 t l2 : match_sound m → wire_order m = l1 ++ t :: l2 → ready (fold_left put l1 ofl_structs_match_init) t.
Proof.
  intros [[Hnd _ _] Hok Hpre Hpcp _] Hw. assert (t ∈ match_fields m) as Hin by (rewrite <- (wire_perm m), Hw; set_solver).
  rewrite list.Forall_forall in Hok, Hpcp, Hpre. pose proof (ox_known _ (Hok _ Hin)) as Hk. split; [by apply Hok| | |].
  - intros f Hf. specialize (Hpre t Hin). unfold pre_ok in Hpre. rewrite Hf in Hpre. rewrite <- Hpre. destruct (lookup_ok _ Hk) as (f' & Hf' & Hh & Hall). rewrite Hf in Hf'. injection Hf' as <-.
    apply prereqs_needs. intros h Hh'. eapply tlvs_before; [done..|]. rewrite <- Hh. by eapply needs_before.
  - unfold tlvs_of. rewrite fold_put_fields, app_nil_r. apply filter_none_of. rewrite list.Forall_forall. intros x Hx Hh.
    assert (NoDup (tlv_header <$> wire_order m)) as Hn by (by rewrite (wire_perm m)).
    rewrite Hw, fmap_app in Hn. apply list.NoDup_app in Hn as (_ & Hn & _). eapply Hn; [|left]. cbn. rewrite <- Hh.
    apply list_elem_of_fmap_2. by apply list_elem_of_In, in_rev, list_elem_of_In.
  - intros H7. specialize (Hpcp _ Hin H7). erewrite tlvs_before; [exact Hpcp|done..|].
    rewrite (rank_other (tlv_header t)); [vm_compute; lia|]. destruct t as [h v]. cbn [tlv_header] in *. each_field Hk; subst h.
    all: vm_compute in H7; try discriminate. reflexivity.
Qed.

Lemma wire_pulls m l1 l2 : match_sound m → wire_order m = l1 ++ l2 → pulls (fold_left put l1 ofl_structs_match_init) l2.
Proof.
  intros Hm. revert l1; induction l2 as [|t l2 IH]; intros l1 Hw; [constructor|]. constructor; [by eapply wire_ready|].
  specialize (IH (l1 ++ [t])). rewrite fold_left_app in IH. apply IH. by rewrite <- app_assoc.
Qed.

Lemma pull_put m : match_sound m → oxm_pull_match (oxm_put_match m) = Val (fold_left put (wire_order m) ofl_structs_match_init).
Proof. intros Hm. unfold oxm_pull_match, oxm_put_match. apply loop_ok; [|lia]. by apply (wire_pulls m []). Qed.

(** * The match in a message *)

Lemma put_length l : Forall oxm_ok l → Z.of_nat (length (concat (put_tlv <$> l))) = zsum (tlv_size <$> l).
Proof.
  induction 1 as [|t l Ht _ IH]; [done|]. cbn [fmap list_fmap concat]. rewrite length_app, zsum_cons, Nat2Z.inj_add.
  change (list_fmap _ _ put_tlv l) with (put_tlv <$> l). rewrite IH. destruct (put_tlv_ok t Ht) as (body & -> & Hb).
  unfold tlv_size. rewrite length_app, be_length. lia.
Qed.

Lemma oxm_put_length m : match_sound m → Z.of_nat (length (oxm_put_match m)) = match_length m.
Proof.
  intros [[_ _ ->] Hok _ _ _]. unfold oxm_put_match. rewrite put_length; [by rewrite (wire_perm m)|]. by rewrite (wire_perm m).
Qed.

Lemma size_pos l : Forall oxm_ok l → l = [] ∧ zsum (tlv_size <$> l) = 0 ∨ 4 < zsum (tlv_size <$> l).
Proof.
  induction 1 as [|t l Ht _ IH]; [by left|]. right. cbn [fmap list_fmap]. rewrite zsum_cons.
  destruct (header_ok _ (ox_known _ Ht)) as (_ & Hp & _). change (list_fmap _ _ tlv_size l) with (tlv_size <$> l). unfold tlv_size at 1. lia.
Qed.

Lemma match_pack_length m : match_sound m → Z.of_nat (length (ofl_structs_match_pack m)) = match_length m + 4.
Proof.
  intros Hm. unfold ofl_structs_match_pack. pose proof (oxm_put_length m Hm). destruct (truthy (match_length m)) eqn:E.
  - rewrite !length_app, !be_length. lia.
  - unfold truthy in E. rewrite length_app, !be_length. lia.
Qed.

(** The fields are pulled in the order they were put, each in front of those before. *)
Definition unpacked (m : ofl_match) : ofl_match := Match (match_length m) (rev (wire_order m)).

Lemma unpacked_equiv m : match_wf m → match_equiv (unpacked m) m.
Proof.
  intros Hm. assert (rev (wire_order m) ≡ₚ match_fields m) as Hp by (by rewrite <- Permutation_rev, wire_perm).
  unfold match_equiv; cbn [match_length match_fields unpacked]. split_and!; [done|done|]. rewrite Hp. apply Hm.
Qed.

Lemma match_unpack m pre post len :
  match_sound m → ofl_structs_match_unpack (pre ++ ofl_structs_match_pack m ++ post) (length pre) len =
    Val (unpacked m, u64 (len - ROUND_UP (match_length m + 4))).
Proof.
  intros Hm. pose proof Hm as [Hwf Hok _ _ Hlen]. pose proof (oxm_put_length m Hm) as Hput. pose proof (match_wf_length _ Hwf) as Hsum.
  assert (0 <= match_length m) as Hpos by lia. unfold ofl_structs_match_unpack.
  destruct (size_pos _ Hok) as [[Hnil Hz]|Hbig].
  - assert (match_length m = 0) as Hl by lia. unfold ofl_structs_match_pack, unpacked. rewrite Hl. cbn [truthy Z.eqb negb].
    read 1. cbn [Z.eqb Pos.eqb]. read 4. replace (wire_order m) with (@nil ofl_match_tlv); [done|].
    unfold wire_order, tlvs_of. by rewrite Hnil.
  - assert (truthy (match_length m) = true) as Ht by (unfold truthy; lia). unfold ofl_structs_match_pack. rewrite Ht, Hput.
    set (oxm := oxm_put_match m). read 1. cbn [Z.eqb Pos.eqb].
    rewrite (get_at _ _ _ _ _ (match_length m + 4)); [|reflexivity|unfold fits; lia|lia].
    cbn [mbind res_bind]. rewrite (proj2 (Z.ltb_lt _ _)) by lia. replace (match_length m + 4 - 4) with (match_length m) by lia.
    rewrite (get_bytes_at _ _ _ _ _ oxm); [| |unfold oxm; lia|lia].
    2: { change (drop 4 _) with oxm. apply take_ge. unfold oxm. lia. }
    cbn [mbind res_bind]. unfold oxm. rewrite pull_put by done. cbn [mbind res_bind]. by rewrite fold_put_fields, app_nil_r.
Qed.

#[global] Instance oxm_ok_dec t : Decision (oxm_ok t).
Proof.
  destruct (decide (tlv_header t ∈ (of_header <$> all_fields) ∧ tlv_header t ∉ [OXM_OF_IN_PHY_PORT; OXM_HEADER_W 0x8000 37 3] ∧
    bytes (tlv_value t) ∧ Z.of_nat (length (tlv_value t)) = OXM_LENGTH (tlv_header t) ∧
    (OXM_HASMASK (tlv_header t) = true → tlv_header t = OXM_HEADER_W 0x8000 39 2 ∨
       zip_with Z.land (take (Z.to_nat (OXM_LENGTH (tlv_header t) / 2)) (tlv_value t)) (drop (Z.to_nat (OXM_LENGTH (tlv_header t) / 2)) (tlv_value t)) =
         take (Z.to_nat (OXM_LENGTH (tlv_header t) / 2)) (tlv_value t)) ∧
    (OXM_FIELD (tlv_header t) = 6 → rd16 (tlv_value t) <= OFPVID_PRESENT + VLAN_VID_MAX) ∧
    (OXM_FIELD (tlv_header t) = 8 → Z.land (rd8 (tlv_value t)) 0xc0 = 0))) as [(?&?&?&?&?&?&?)|Hn].
  - left. by split.
  - right. intros []. apply Hn. by split_and!.
Defined.

#[global] Instance pcp_ok_dec m t : Decision (pcp_ok m t).
Proof. unfold pcp_ok. destruct (tlvs_of OXM_OF_VLAN_VID m); apply _. Defined.

#[global] Instance pre_ok_dec m t : Decision (pre_ok m t).
Proof. unfold pre_ok. destruct (oxm_field_lookup (tlv_header t)); apply _. Defined.

#[global] Instance match_sound_dec m : Decision (match_sound m).
Proof.
  destruct (decide (match_wf m ∧ Forall oxm_ok (match_fields m) ∧
    Forall (pre_ok m) (match_fields m) ∧
    Forall (pcp_ok m) (match_fields m) ∧ match_length m < 2 ^ 16 - 11)) as [(?&?&?&?&?)|Hn].
  - left. by split.
  - right. intros []. apply Hn. by split_and!.
Defined.

(** C27: a match on the wire.  A match whose fields are known, hold values the protocol
    allows and have their prerequisites (the two fields that the code mistreats left out),
    is packed by [ofl_structs_match_pack] and [oxm_put_match] into its length and four
    bytes; [ofl_structs_match_unpack] and [oxm_pull_match] get the same fields and length
    back from the message, wherever it stands and whatever follows it: the prerequisites are
    put before the fields that need them, each value and mask comes back in host order, and
    only the order of the hash map may differ. *)
Theorem match_roundtrip (m : ofl_match) (pre post : list Z) (len : Z) (H : match_sound m) :
  Z.of_nat (length (ofl_structs_match_pack m)) = match_length m + 4 ∧
  ∃ m', ofl_structs_match_unpack (pre ++ ofl_structs_match_pack m ++ post) (length pre) len =
    Val (m', u64 (len - ROUND_UP (match_length m + 4))) ∧ match_equiv m' m.
Proof. split; [by apply match_pack_length|]. eexists. split; [by apply match_unpack|apply unpacked_equiv, H]. Qed.

(** HTTP over TCP to a network, on port 3 and VLAN 7. *)
Definition ex_http : ofl_match :=
  fold_left put [Tlv (OXM_HEADER 0x8000 14 2) [80; 0]; Tlv (OXM_HEADER_W 0x8000 12 4) [10; 0; 0; 0; 255; 0; 0; 0];
    Tlv OXM_OF_IP_PROTO [6]; Tlv OXM_OF_VLAN_PCP [5]; Tlv OXM_OF_VLAN_VID [7; 16]; Tlv OXM_OF_ETH_TYPE [0; 8];
    Tlv OXM_OF_IN_PORT [3; 0; 0; 0]] ofl_structs_match_init.

Lemma match_roundtrip_witness :
  ∃ m', ofl_structs_match_unpack ([0; 1; 2] ++ ofl_structs_match_pack ex_http ++ [9; 9]) 3 100 = Val (m', 44) ∧ match_equiv m' ex_http.
Proof.
  destruct (match_roundtrip ex_http [0; 1; 2] [9; 9] 100) as (_ & m' & E & Hm').
  - apply (bool_decide_unpack _). vm_compute. exact I.
  - exists m'. split; [exact E|exact Hm'].
Defined.
