(* ===== verification/StatsWire.v ===== *)
(** The wire format of ports, queues, statistics and descriptions, the elements of
    multipart messages: oflib/ofl-structs-pack.c, ofl-structs-unpack.c and ofl-structs.c.
    The conventions are those of Wire. *)

From S2P Require Import Prelude Memory OpenFlow Oxm Group Meter Wire OxmWire.

(** [malloc]: as many bytes as are asked for, with any content. *)
Class Malloc := { fresh : nat → list Z; fresh_length : ∀ n, length (fresh n) = n; fresh_bytes : ∀ n, bytes (fresh n) }.

(** * Strings *)

(** The bytes in front of the first NUL. *)
Fixpoint cstring (bs : list Z) : option (list Z) :=
  match bs with
  | [] => None
  | c :: bs => if c =? 0 then Some [] else cons c <$> cstring bs
  end.

Definition get_string (buf : list Z) (p : nat) : res (list Z) :=
  match cstring (drop p buf) with Some s => Val s | None => Undef end.

(** What [strncpy] makes of a string of [s] and a NUL. *)
Definition strncpy (n : nat) (s : list Z) : list Z := take n (s ++ zeros n).

(** * Elements of a fixed size *)

(** The loops over [n] elements of [size] bytes. *)
Fixpoint unpack_fixed {A : Type} (unpack : nat → Z → res (A * Z)) (size : nat) (n : nat) (p : nat) (len : Z) : res (list A * Z) :=
  match n with
  | O => Val ([], len)
  | S n =>
    '(a, len) ← unpack p len;
    '(rest, len) ← unpack_fixed unpack size n (p + size) len;
    Val (a :: rest, len)
  end.

(** [data_len / sizeof(...)], in the functions that count them. *)
Definition count_fixed (size data_len : Z) : nat := Z.to_nat (data_len / size).

Definition ofl_utils_count_ofp_ports : Z → nat := count_fixed 64.
Definition ofl_utils_count_ofp_table_stats : Z → nat := count_fixed 24.
Definition ofl_utils_count_ofp_port_stats : Z → nat := count_fixed 112.
Definition ofl_utils_count_ofp_queue_stats : Z → nat := count_fixed 40.
Definition ofl_utils_count_ofp_bucket_counters : Z → nat := count_fixed 16.
(** A loop that takes 16 bytes at a time. *)
Definition ofl_utils_count_ofp_meter_band_stats : Z → nat := count_fixed 16.

(** ** Ports *)

Record ofl_port := OflPort {
  op_port_no : Z; op_hw_addr : list Z; op_name : list Z; op_config : Z; op_state : Z; op_curr : Z;
  op_advertised : Z; op_supported : Z; op_peer : Z; op_curr_speed : Z; op_max_speed : Z }.

Definition bad_port (port_no : Z) : bool := (port_no =? 0) || ((OFPP_MAX <? port_no) && negb (port_no =? OFPP_LOCAL)).

(** The name is copied up to its NUL, wherever that is. *)
Definition ofl_structs_port_unpack (buf : list Z) (p : nat) (len : Z) : res (ofl_port * Z) :=
  if len <? 64 then Err ACTION_BRC_BAD_LEN
  else
    port_no ← get 4 buf p;
    if bad_port port_no then Err ACTION_BRC_BAD_LEN
    else
      hw_addr ← get_bytes buf (p + 8) 6; name ← get_string buf (p + 16);
      config ← get 4 buf (p + 32); state ← get 4 buf (p + 36); curr ← get 4 buf (p + 40); advertised ← get 4 buf (p + 44);
      supported ← get 4 buf (p + 48); peer ← get 4 buf (p + 52); curr_speed ← get 4 buf (p + 56); max_speed ← get 4 buf (p + 60);
      Val (OflPort port_no hw_addr name config state curr advertised supported peer curr_speed max_speed, len - 64).

Definition ofl_structs_port_pack (s : ofl_port) : option (list Z) :=
  Some (be 4 (op_port_no s) ++ zeros 4 ++ op_hw_addr s ++ zeros 2 ++ strncpy 16 (op_name s) ++ be 4 (op_config s) ++ be 4 (op_state s) ++
        be 4 (op_curr s) ++ be 4 (op_advertised s) ++ be 4 (op_supported s) ++ be 4 (op_peer s) ++ be 4 (op_curr_speed s) ++ be 4 (op_max_speed s)).

(** ** Tables, ports, queues, buckets, bands *)

Record ofl_table_stats := TableStats { ts_table_id : Z; ts_active_count : Z; ts_lookup_count : Z; ts_matched_count : Z }.

Definition ofl_structs_table_stats_unpack (buf : list Z) (p : nat) (len : Z) : res (ofl_table_stats * Z) :=
  if len <? 24 then Err ACTION_BRC_BAD_LEN
  else
    table_id ← get 1 buf p;
    if table_id =? 0xff then Err ACTION_BRC_BAD_LEN
    else
      active_count ← get 4 buf (p + 4); lookup_count ← get 8 buf (p + 8); matched_count ← get 8 buf (p + 16);
      Val (TableStats table_id active_count lookup_count matched_count, len - 24).

Definition ofl_structs_table_stats_pack (s : ofl_table_stats) : option (list Z) :=
  Some (be 1 (ts_table_id s) ++ zeros 3 ++ be 4 (ts_active_count s) ++ be 8 (ts_lookup_count s) ++ be 8 (ts_matched_count s)).

(** The counters from rx_packets to collisions are a list of twelve. *)
Record ofl_port_stats := OflPortStats { ops_port_no : Z; ops_counters : list Z; ops_duration_sec : Z; ops_duration_nsec : Z }.

Fixpoint get_counters (n : nat) (buf : list Z) (p : nat) : res (list Z) :=
  match n with O => Val [] | S n => c ← get 8 buf p; rest ← get_counters n buf (p + 8); Val (c :: rest) end.

Definition ofl_structs_port_stats_unpack (buf : list Z) (p : nat) (len : Z) : res (ofl_port_stats * Z) :=
  if len <? 112 then Err ACTION_BRC_BAD_LEN
  else
    port_no ← get 4 buf p;
    if bad_port port_no then Err ACTION_BRC_BAD_LEN
    else
      counters ← get_counters 12 buf (p + 8); duration_sec ← get 4 buf (p + 104); duration_nsec ← get 4 buf (p + 108);
      Val (OflPortStats port_no counters duration_sec duration_nsec, len - 112).

Definition ofl_structs_port_stats_pack (s : ofl_port_stats) : option (list Z) :=
  Some (be 4 (ops_port_no s) ++ zeros 4 ++ concat (be 8 <$> ops_counters s) ++ be 4 (ops_duration_sec s) ++ be 4 (ops_duration_nsec s)).

Record ofl_queue_stats := OflQueueStats {
  oqs_port_no : Z; oqs_queue_id : Z; oqs_tx_bytes : Z; oqs_tx_packets : Z; oqs_tx_errors : Z; oqs_duration_sec : Z; oqs_duration_nsec : Z }.

(** The local port has no queues here. *)
Definition ofl_structs_queue_stats_unpack (buf : list Z) (p : nat) (len : Z) : res (ofl_queue_stats * Z) :=
  if len <? 40 then Err OFPBRC_BAD_LEN
  else
    port_no ← get 4 buf p;
    if (port_no =? 0) || (OFPP_MAX <? port_no) then Err ACTION_BRC_BAD_LEN
    else
      queue_id ← get 4 buf (p + 4); tx_bytes ← get 8 buf (p + 8); tx_packets ← get 8 buf (p + 16); tx_errors ← get 8 buf (p + 24);
      duration_sec ← get 4 buf (p + 32); duration_nsec ← get 4 buf (p + 36);
      Val (OflQueueStats port_no queue_id tx_bytes tx_packets tx_errors duration_sec duration_nsec, len - 40).

Definition ofl_structs_queue_stats_pack (s : ofl_queue_stats) : option (list Z) :=
  Some (be 4 (oqs_port_no s) ++ be 4 (oqs_queue_id s) ++ be 8 (oqs_tx_bytes s) ++ be 8 (oqs_tx_packets s) ++ be 8 (oqs_tx_errors s) ++
        be 4 (oqs_duration_sec s) ++ be 4 (oqs_duration_nsec s)).

Record ofl_bucket_counter := BucketCounter { bc_packet_count : Z; bc_byte_count : Z }.

Definition ofl_structs_bucket_counter_unpack (buf : list Z) (p : nat) (len : Z) : res (ofl_bucket_counter * Z) :=
  if len <? 16 then Err OFPBRC_BAD_LEN
  else packet_count ← get 8 buf p; byte_count ← get 8 buf (p + 8); Val (BucketCounter packet_count byte_count, len - 16).

Definition ofl_structs_bucket_counter_pack (s : ofl_bucket_counter) : option (list Z) := Some (be 8 (bc_packet_count s) ++ be 8 (bc_byte_count s)).

(** The two counters of a band; [last_fill] and [tokens] are not on the wire, and not set. *)
Record band_counter := BandCounter { bs_packet_band_count : Z; bs_byte_band_count : Z }.

Definition ofl_structs_meter_band_stats_unpack (buf : list Z) (p : nat) (len : Z) : res (band_counter * Z) :=
  if len <? 16 then Err OFPBRC_BAD_LEN
  else packet_count ← get 8 buf p; byte_count ← get 8 buf (p + 8); Val (BandCounter packet_count byte_count, len - 16).

Definition ofl_structs_pack_band_stats (s : band_counter) : option (list Z) := Some (be 8 (bs_packet_band_count s) ++ be 8 (bs_byte_band_count s)).

(** * Groups and meters *)

Record ofl_group_stats := OflGroupStats {
  ogs_group_id : Z; ogs_ref_count : Z; ogs_packet_count : Z; ogs_byte_count : Z; ogs_duration_sec : Z; ogs_duration_nsec : Z;
  ogs_counters : list ofl_bucket_counter }.

Definition ofl_utils_count_ofp_group_stats (buf : list Z) (p : nat) (data_len : Z) : res nat :=
  count_loop 40 40 0 OFPBRC_BAD_LEN (turns data_len) buf p data_len.

(** Its length is at least 40 here: counting has checked it. *)
Definition ofl_structs_group_stats_unpack (buf : list Z) (p : nat) (len : Z) : res (ofl_group_stats * Z) :=
  if len <? 40 then Err OFPBRC_BAD_LEN
  else
    l ← get 2 buf p;
    if len <? l then Err OFPBRC_BAD_LEN
    else
      group_id ← get 4 buf (p + 4);
      if OFPG_MAX <? group_id then Err ACTION_BRC_BAD_LEN
      else
        ref_count ← get 4 buf (p + 8); packet_count ← get 8 buf (p + 16); byte_count ← get 8 buf (p + 24);
        duration_sec ← get 4 buf (p + 32); duration_nsec ← get 4 buf (p + 36);
        '(counters, slen) ← unpack_fixed (ofl_structs_bucket_counter_unpack buf) 16 (ofl_utils_count_ofp_bucket_counters (l - 40)) (p + 40) (l - 40);
        if negb (slen =? 0) then Err OFPBRC_BAD_LEN
        else Val (OflGroupStats group_id ref_count packet_count byte_count duration_sec duration_nsec counters, len - l).

Definition ofl_structs_group_stats_ofp_len (s : ofl_group_stats) : Z := 40 + 16 * Z.of_nat (length (ogs_counters s)).
Definition ofl_structs_group_stats_ofp_total_len (l : list ofl_group_stats) : Z := zsum (ofl_structs_group_stats_ofp_len <$> l).

Definition ofl_structs_group_stats_pack (s : ofl_group_stats) : option (list Z) :=
  bs ← pack_all ofl_structs_bucket_counter_pack (ogs_counters s);
  Some (be 2 (ofl_structs_group_stats_ofp_len s) ++ zeros 2 ++ be 4 (ogs_group_id s) ++ be 4 (ogs_ref_count s) ++ zeros 4 ++
        be 8 (ogs_packet_count s) ++ be 8 (ogs_byte_count s) ++ be 4 (ogs_duration_sec s) ++ be 4 (ogs_duration_nsec s) ++ bs).

Record ofl_group_desc_stats := GroupDesc { gd_type : Z; gd_group_id : Z; gd_buckets : list ofl_bucket }.

Definition ofl_utils_count_ofp_group_desc_stats (buf : list Z) (p : nat) (data_len : Z) : res nat :=
  count_loop 8 8 0 OFPBRC_BAD_LEN (turns data_len) buf p data_len.

Definition ofl_structs_group_desc_stats_unpack (buf : list Z) (p : nat) (len : Z) : res (ofl_group_desc_stats * Z) :=
  if len <? 8 then Err OFPBRC_BAD_LEN
  else
    l ← get 2 buf p;
    if len <? l then Err OFPBRC_BAD_LEN
    else
      group_id ← get 4 buf (p + 4);
      if OFPG_MAX <? group_id then Err OFPBRC_BAD_LEN
      else
        type ← get 1 buf (p + 2);
        n ← ofl_utils_count_ofp_buckets buf (p + 8) (l - 8);
        '(buckets, dlen) ← unpack_loop (ofl_structs_bucket_unpack buf type) 0 n buf (p + 8) (l - 8);
        if negb (dlen =? 0) then Err OFPBRC_BAD_LEN else Val (GroupDesc type group_id buckets, len - l).

Definition ofl_structs_group_desc_stats_ofp_len (s : ofl_group_desc_stats) : Z := 8 + ofl_structs_buckets_ofp_total_len (gd_buckets s).
Definition ofl_structs_group_desc_stats_ofp_total_len (l : list ofl_group_desc_stats) : Z := zsum (ofl_structs_group_desc_stats_ofp_len <$> l).

Definition ofl_structs_group_desc_stats_pack (s : ofl_group_desc_stats) : option (list Z) :=
  bs ← pack_all ofl_structs_bucket_pack (gd_buckets s);
  Some (be 2 (ofl_structs_group_desc_stats_ofp_len s) ++ be 1 (gd_type s) ++ zeros 1 ++ be 4 (gd_group_id s) ++ bs).

(** [ms_len] is the length that was received; packing does not use it. *)
Record ofl_meter_stats := OflMeterStats {
  oms_meter_id : Z; oms_len : Z; oms_flow_count : Z; oms_packet_in_count : Z; oms_byte_in_count : Z; oms_duration_sec : Z; oms_duration_nsec : Z;
  oms_band_stats : list band_counter }.

Definition ofl_utils_count_ofp_meter_stats (buf : list Z) (p : nat) (data_len : Z) : res nat :=
  count_loop 40 40 4 OFPBRC_BAD_LEN (turns data_len) buf p data_len.

Definition ofl_structs_meter_stats_unpack (buf : list Z) (p : nat) (len : Z) : res (ofl_meter_stats * Z) :=
  if len <? 40 then Err OFPBRC_BAD_LEN
  else
    l ← get 2 buf (p + 4);
    if len <? l then Err OFPBRC_BAD_LEN
    else
      meter_id ← get 4 buf p; flow_count ← get 4 buf (p + 12); packet_in_count ← get 8 buf (p + 16); byte_in_count ← get 8 buf (p + 24);
      duration_sec ← get 4 buf (p + 32); duration_nsec ← get 4 buf (p + 36);
      '(bands, slen) ← unpack_fixed (ofl_structs_meter_band_stats_unpack buf) 16 (ofl_utils_count_ofp_meter_band_stats (l - 40)) (p + 40) (l - 40);
      if negb (slen =? 0) then Err OFPBRC_BAD_LEN
      else Val (OflMeterStats meter_id l flow_count packet_in_count byte_in_count duration_sec duration_nsec bands, len - l).

Definition ofl_structs_meter_stats_ofp_len (s : ofl_meter_stats) : Z := 40 + 16 * Z.of_nat (length (oms_band_stats s)).
Definition ofl_structs_meter_stats_ofp_total_len (l : list ofl_meter_stats) : Z := zsum (ofl_structs_meter_stats_ofp_len <$> l).

Definition ofl_structs_meter_stats_pack (s : ofl_meter_stats) : option (list Z) :=
  bs ← pack_all ofl_structs_pack_band_stats (oms_band_stats s);
  Some (be 4 (oms_meter_id s) ++ be 2 (ofl_structs_meter_stats_ofp_len s) ++ zeros 6 ++ be 4 (oms_flow_count s) ++ be 8 (oms_packet_in_count s) ++
        be 8 (oms_byte_in_count s) ++ be 4 (oms_duration_sec s) ++ be 4 (oms_duration_nsec s) ++ bs).

Record ofl_meter_config := MeterConfig { mc_length : Z; mc_flags : Z; mc_meter_id : Z; mc_bands : list ofl_meter_band }.

Definition ofl_utils_count_ofp_meter_config (buf : list Z) (p : nat) (data_len : Z) : res nat :=
  count_loop 8 8 0 OFPBRC_BAD_LEN (turns data_len) buf p data_len.

Definition ofl_structs_meter_config_unpack (buf : list Z) (p : nat) (len : Z) : res (ofl_meter_config * Z) :=
  if len <? 8 then Err OFPBRC_BAD_LEN
  else
    l ← get 2 buf p;
    if len <? l then Err OFPBRC_BAD_LEN
    else
      meter_id ← get 4 buf (p + 4); flags ← get 2 buf (p + 2);
      n ← ofl_utils_count_ofp_meter_bands buf (p + 8) (l - 8);
      '(bands, slen) ← unpack_loop (ofl_structs_meter_band_unpack buf) 2 n buf (p + 8) (l - 8);
      if negb (slen =? 0) then Err OFPBRC_BAD_LEN else Val (MeterConfig l flags meter_id bands, len - l).

Definition ofl_structs_meter_conf_ofp_len (s : ofl_meter_config) : Z := 8 + ofl_structs_meter_bands_ofp_total_len (mc_bands s).
Definition ofl_structs_meter_conf_ofp_total_len (l : list ofl_meter_config) : Z := zsum (ofl_structs_meter_conf_ofp_len <$> l).

Definition ofl_structs_meter_conf_pack (s : ofl_meter_config) : option (list Z) :=
  bs ← pack_all ofl_structs_meter_band_pack (mc_bands s);
  Some (be 2 (ofl_structs_meter_conf_ofp_len s) ++ be 2 (mc_flags s) ++ be 4 (mc_meter_id s) ++ bs).

(** * Flows *)

Record ofl_flow_stats := OflFlowStats {
  ofs_table_id : Z; ofs_duration_sec : Z; ofs_duration_nsec : Z; ofs_priority : Z; ofs_idle_timeout : Z; ofs_hard_timeout : Z;
  ofs_flags : Z; ofs_cookie : Z; ofs_packet_count : Z; ofs_byte_count : Z; ofs_match : ofl_match; ofs_instructions : list ofl_instruction }.

Definition ofl_utils_count_ofp_flow_stats (buf : list Z) (p : nat) (data_len : Z) : res nat :=
  count_loop 56 56 0 OFPBRC_BAD_LEN (turns data_len) buf p data_len.

Definition BAD_TABLE_ID : Z := ofl_error OFPET_BAD_REQUEST 9.

(** The match at [p] of a structure that starts at [start], and the instructions behind it;
    [len] is what is left of the structure. *)
Definition unpack_match_instructions (buf : list Z) (start p : nat) (len : Z) : res (ofl_match * list ofl_instruction * Z) :=
  '(m, len) ← ofl_structs_match_unpack buf p len;
  let q := (start + Z.to_nat (ROUND_UP (Z.of_nat (p - start) + 4 + match_length m)))%nat in
  n ← ofl_utils_count_ofp_instructions buf q len;
  '(instructions, len) ← unpack_loop (ofl_structs_instructions_unpack buf) 2 n buf q len;
  Val (m, instructions, len).

Definition ofl_structs_flow_stats_unpack (buf : list Z) (p : nat) (len : Z) : res (ofl_flow_stats * Z) :=
  mlen ← get 2 buf (p + 50);
  if len <? 48 + ROUND_UP mlen then Err OFPBRC_BAD_LEN
  else
    l ← get 2 buf p;
    if len <? l then Err OFPBRC_BAD_LEN
    else
      table_id ← get 1 buf (p + 2);
      if PIPELINE_TABLES <=? table_id then Err BAD_TABLE_ID
      else
        duration_sec ← get 4 buf (p + 4); duration_nsec ← get 4 buf (p + 8); priority ← get 2 buf (p + 12);
        idle_timeout ← get 2 buf (p + 14); hard_timeout ← get 2 buf (p + 16); flags ← get 2 buf (p + 18);
        cookie ← get 8 buf (p + 24); packet_count ← get 8 buf (p + 32); byte_count ← get 8 buf (p + 40);
        '(m, instructions, slen) ← unpack_match_instructions buf p (p + 48) (u64 (l - 48));
        if negb (slen =? 0) then Err OFPBRC_BAD_LEN
        else Val (OflFlowStats table_id duration_sec duration_nsec priority idle_timeout hard_timeout flags cookie packet_count byte_count m instructions,
                  len - l).

Definition ofl_structs_flow_stats_ofp_len (s : ofl_flow_stats) : Z :=
  ROUND_UP (52 + match_length (ofs_match s)) + ofl_structs_instructions_ofp_total_len (ofs_instructions s).
Definition ofl_structs_flow_stats_ofp_total_len (l : list ofl_flow_stats) : Z := zsum (ofl_structs_flow_stats_ofp_len <$> l).

(** * Queues *)

(** The data of an experimenter property is a pointer into the message; the rest of it is not
    set. *)
Inductive ofl_queue_prop := PropMinRate (rate : Z) | PropMaxRate (rate : Z) | PropExperimenter.

(** A property that could not be unpacked leaves an unset pointer: [None]. *)
Record ofl_packet_queue := PacketQueue { pq_queue_id : Z; pq_properties : list (option ofl_queue_prop) }.

Definition ofl_structs_queue_prop_unpack (buf : list Z) (p : nat) (len : Z) : res (ofl_queue_prop * Z) :=
  if len <? 8 then Err OFPBAC_BAD_LEN
  else
    l ← get 2 buf (p + 2);
    if len <? l then Err OFPBAC_BAD_LEN
    else
      t ← get 2 buf p;
      if (t =? 1) || (t =? 2) then
        if len <? 16 then Err ACTION_BRC_BAD_LEN
        else rate ← get 2 buf (p + 8); Val (if t =? 1 then PropMinRate rate else PropMaxRate rate, len - 16)
      else if t =? 0xffff then if len <? 16 then Err ACTION_BRC_BAD_LEN else Val (PropExperimenter, len - 16)
      else Err ACTION_BRC_BAD_LEN.

Definition ofl_utils_count_ofp_queue_props (buf : list Z) (p : nat) (data_len : Z) : res nat :=
  count_loop 8 8 2 OFPBRC_BAD_LEN (turns data_len) buf p data_len.
Definition ofl_utils_count_ofp_packet_queues (buf : list Z) (p : nat) (data_len : Z) : res nat :=
  count_loop 16 16 8 OFPBRC_BAD_LEN (turns data_len) buf p data_len.

(** The loop over the properties, which does not look at their errors. *)
Fixpoint unpack_props (n : nat) (buf : list Z) (p : nat) (len : Z) : res (list (option ofl_queue_prop) * Z) :=
  match n with
  | O => Val ([], len)
  | S n =>
    '(prop, len) ← match ofl_structs_queue_prop_unpack buf p len with
                   | Err _ => Val (None, len)
                   | Val (prop, len) => Val (Some prop, len)
                   | Undef => Undef
                   | Hang => Hang
                   end;
    l ← get 2 buf (p + 2);
    '(rest, len) ← unpack_props n buf (p + Z.to_nat l) len;
    Val (prop :: rest, len)
  end.

(** The properties are counted in all of the rest of the message, not in the queue. *)
Definition ofl_structs_packet_queue_unpack (buf : list Z) (p : nat) (len : Z) : res (ofl_packet_queue * Z) :=
  l ← get 2 buf (p + 8);
  if len <? l then Err ACTION_BRC_BAD_LEN
  else
    let len := u64 (len - 16) in
    queue_id ← get 4 buf p;
    n ← ofl_utils_count_ofp_queue_props buf (p + 16) len;
    '(properties, len) ← unpack_props n buf (p + 16) len;
    Val (PacketQueue queue_id properties, len).

Definition ofl_structs_queue_prop_ofp_len (q : ofl_queue_prop) : Z := 16.
(** Packing follows the pointers to the properties. *)
Definition queue_props (q : ofl_packet_queue) : option (list ofl_queue_prop) := mapM id (pq_properties q).
Definition ofl_structs_queue_prop_ofp_total_len (l : list ofl_queue_prop) : Z := zsum (ofl_structs_queue_prop_ofp_len <$> l).

(** * Table features *)

(** The structures of the properties, with their type and length and the identifiers they
    list: instruction types, table numbers, the types and lengths of actions, OXM headers. *)
Inductive ofl_table_feature_prop :=
  | FeatInstructions (type length : Z) (ids : list Z)
  | FeatNextTables (type length : Z) (ids : list Z)
  | FeatActions (type length : Z) (ids : list (Z * Z))
  | FeatOxm (type length : Z) (ids : list Z).

Record ofl_table_features := TableFeatures {
  tf_length : Z; tf_table_id : Z; tf_name : list Z; tf_metadata_match : Z; tf_metadata_write : Z; tf_config : Z; tf_max_entries : Z;
  tf_properties : list ofl_table_feature_prop }.

Definition TABLE_FEATURES_BAD_LEN : Z := ofl_error 13 3.

(** [data_len] is unsigned and may wrap around when the padding of the last property is
    missing. *)
Fixpoint count_features_loop (fuel : nat) (buf : list Z) (p : nat) (data_len : Z) : res nat :=
  if data_len <? 4 then Val 0%nat
  else match fuel with
       | O => Hang
       | S fuel =>
         l ← get 2 buf (p + 2);
         if (data_len <? l) || (l <? 4) then Err TABLE_FEATURES_BAD_LEN
         else n ← count_features_loop fuel buf (p + Z.to_nat (ROUND_UP l)) (u64 (data_len - ROUND_UP l)); Val (S n)
       end.

(** A turn takes eight bytes or more of the message. *)
Definition ofl_utils_count_ofp_table_features_properties (buf : list Z) (p : nat) (data_len : Z) : res nat :=
  count_features_loop (S (length buf)) buf p data_len.
Definition ofl_utils_count_ofp_table_features (buf : list Z) (p : nat) (data_len : Z) : res nat :=
  count_loop 64 64 0 TABLE_FEATURES_BAD_LEN (turns data_len) buf p data_len.

(** [n] types with the lengths that lead from one to the next, and [n] numbers. *)
Fixpoint get_types (n : nat) (buf : list Z) (p : nat) : res (list (Z * Z)) :=
  match n with
  | O => Val []
  | S n => t ← get 2 buf p; l ← get 2 buf (p + 2); rest ← get_types n buf (p + Z.to_nat l); Val ((t, l) :: rest)
  end.
Fixpoint get_numbers (n : nat) (buf : list Z) (p : nat) : res (list Z) :=
  match n with O => Val [] | S n => x ← get 4 buf p; rest ← get_numbers n buf (p + 4); Val (x :: rest) end.

(** [memcpy] of no bytes reads nothing. *)
Definition copy_bytes (buf : list Z) (p n : nat) : res (list Z) := if (n =? 0)%nat then Val [] else get_bytes buf p n.

Definition ofl_structs_table_properties_unpack (buf : list Z) (p : nat) (len : Z) : res (ofl_table_feature_prop * Z) :=
  if len <? 4 then Err TABLE_FEATURES_BAD_LEN
  else
    plen ← get 2 buf (p + 2);
    if len <? plen then Err TABLE_FEATURES_BAD_LEN
    else
      t ← get 2 buf p;
      prop ←
        (if bool_decide (t ∈ [0; 1]) then
           if plen <? 4 then Err TABLE_FEATURES_BAD_LEN
           else n ← ofl_utils_count_ofp_instructions buf (p + 4) (plen - 4);
                ids ← get_types n buf (p + 4); Val (FeatInstructions t plen (fst <$> ids))
         else if bool_decide (t ∈ [2; 3]) then
           if plen <? 4 then Err TABLE_FEATURES_BAD_LEN
           else ids ← copy_bytes buf (p + 4) (Z.to_nat (plen - 4)); Val (FeatNextTables t plen ids)
         else if bool_decide (t ∈ [4; 5; 6; 7]) then
           if plen <? 4 then Err TABLE_FEATURES_BAD_LEN
           else n ← ofl_utils_count_ofp_actions buf (p + 4) (plen - 4);
                ids ← get_types n buf (p + 4); Val (FeatActions t plen ids)
         else if bool_decide (t ∈ [8; 10; 12; 13; 14; 15]) then
           if plen <? 4 then Err TABLE_FEATURES_BAD_LEN
           else ids ← get_numbers (Z.to_nat ((plen - 4) / 4)) buf (p + 4); Val (FeatOxm t plen ids)
         else Err (ofl_error 13 2));
      Val (prop, len - plen).

(** The properties behind the header; [plen] loses the lengths of the properties, [prop]
    moves on by the padded ones. *)
Fixpoint unpack_features (n : nat) (buf : list Z) (p : nat) (len : Z) : res (list ofl_table_feature_prop * Z) :=
  match n with
  | O => Val ([], len)
  | S n =>
    '(prop, len) ← ofl_structs_table_properties_unpack buf p len;
    l ← get 2 buf (p + 2);
    '(rest, len) ← unpack_features n buf (p + Z.to_nat (ROUND_UP l)) len;
    Val (prop :: rest, len)
  end.

(** [strncpy] from a field of [n] bytes, with or without a NUL. *)
Fixpoint until_nul (bs : list Z) : list Z := match bs with [] => [] | c :: bs => if c =? 0 then [] else c :: until_nul bs end.

Definition ofl_structs_table_features_unpack (buf : list Z) (p : nat) (len : Z) : res (ofl_table_features * Z) :=
  if len <? 64 then Err TABLE_FEATURES_BAD_LEN
  else
    l ← get 2 buf p;
    if len <? l then Err OFPBAC_BAD_LEN
    else
      table_id ← get 1 buf (p + 2); name ← get_bytes buf (p + 8) 32;
      metadata_match ← get 8 buf (p + 40); metadata_write ← get 8 buf (p + 48); config ← get 4 buf (p + 56); max_entries ← get 4 buf (p + 60);
      n ← ofl_utils_count_ofp_table_features_properties buf (p + 64) (l - 64);
      '(properties, _) ← unpack_features n buf (p + 64) (l - 64);
      Val (TableFeatures l table_id (strncpy 32 (until_nul name)) metadata_match metadata_write config max_entries properties, len - l).

Definition prop_length (f : ofl_table_feature_prop) : Z :=
  match f with FeatInstructions _ l _ | FeatNextTables _ l _ | FeatActions _ l _ | FeatOxm _ l _ => l end.

(** The sum of the lengths that the properties claim; [sum_check] is for a warning. *)
Definition ofl_structs_table_features_properties_ofp_total_len (l : list ofl_table_feature_prop) : Z := zsum ((λ f, ROUND_UP (prop_length f)) <$> l).
Definition ofl_structs_table_features_ofp_len (f : ofl_table_features) : Z := 64 + ofl_structs_table_features_properties_ofp_total_len (tf_properties f).
Definition ofl_structs_table_features_ofp_total_len (l : list ofl_table_features) : Z := zsum (ofl_structs_table_features_ofp_len <$> l).

Section pack.
  Context `{M : Malloc}.

(** The match and the padding up to the next multiple of eight, which is never set; [n] bytes
    are in front of the match. *)
Definition pack_match (n : Z) (m : ofl_match) : list Z :=
  ofl_structs_match_pack m ++ fresh (Z.to_nat (ROUND_UP (n + 4 + match_length m) - (n + 4 + match_length m))).

Definition ofl_structs_flow_stats_pack (s : ofl_flow_stats) : option (list Z) :=
  bs ← pack_all ofl_structs_instructions_pack (ofs_instructions s);
  Some (be 2 (ofl_structs_flow_stats_ofp_len s) ++ be 1 (ofs_table_id s) ++ zeros 1 ++ be 4 (ofs_duration_sec s) ++ be 4 (ofs_duration_nsec s) ++
        be 2 (ofs_priority s) ++ be 2 (ofs_idle_timeout s) ++ be 2 (ofs_hard_timeout s) ++ be 2 (ofs_flags s) ++ zeros 4 ++ be 8 (ofs_cookie s) ++
        be 8 (ofs_packet_count s) ++ be 8 (ofs_byte_count s) ++ pack_match 48 (ofs_match s) ++ bs).

Definition ofl_structs_queue_prop_pack (q : ofl_queue_prop) : option (list Z) :=
  Some match q with
       | PropMinRate rate => be 2 1 ++ be 2 16 ++ zeros 4 ++ be 2 rate ++ zeros 6
       | PropMaxRate rate => be 2 2 ++ be 2 16 ++ zeros 4 ++ be 2 rate ++ zeros 6
       | PropExperimenter => be 2 0xffff ++ be 2 16 ++ zeros 4 ++ fresh 4 ++ zeros 4
       end.

(** Neither the port nor the last four bytes of padding are set. *)
Definition ofl_structs_packet_queue_pack (q : ofl_packet_queue) : option (list Z) :=
  props ← queue_props q;
  bs ← pack_all ofl_structs_queue_prop_pack props;
  Some (be 4 (pq_queue_id q) ++ fresh 4 ++ be 2 (16 + ofl_structs_queue_prop_ofp_total_len props) ++ zeros 2 ++ fresh 4 ++ bs).

(** The bytes of a property up to the next multiple of eight: [ids] behind its header, zeros,
    and what is left is never set.  [None] when they do not fit. *)
Definition pack_prop (type length : Z) (ids : list Z) : option (list Z) :=
  let bs := be 2 type ++ be 2 length ++ ids ++ zeros (Z.to_nat (ROUND_UP length - length)) in
  if Z.of_nat (List.length bs) <=? ROUND_UP length then Some (bs ++ fresh (Z.to_nat (ROUND_UP length) - List.length bs)) else None.

(** [sizeof(struct ofp_instruction) - 4] bytes, which is none, are copied for an instruction.
    Without a callback for experimenter instructions an error code is returned for the
    length. *)
Definition ofl_structs_table_properties_pack (f : ofl_table_feature_prop) : option (list Z) :=
  match f with
  | FeatInstructions t l ids => if bool_decide (0xffff ∈ ids) then None else pack_prop t l []
  | FeatNextTables t l ids => pack_prop t l ids
  | FeatActions t l ids =>
    pack_prop t l (concat ((λ '(t, l), if t =? 0xffff then le_bytes 4 t ++ le_bytes 2 l ++ fresh 2 else be 2 t ++ be 2 l) <$> ids))
  | FeatOxm t l ids => pack_prop t l (concat (be 4 <$> ids))
  end.

Definition ofl_structs_table_features_pack (f : ofl_table_features) : option (list Z) :=
  bs ← pack_all ofl_structs_table_properties_pack (tf_properties f);
  Some (be 2 (ofl_structs_table_features_ofp_len f) ++ be 1 (tf_table_id f) ++ zeros 5 ++ strncpy 32 (until_nul (take 32 (tf_name f))) ++
        be 8 (tf_metadata_match f) ++ be 8 (tf_metadata_write f) ++ be 4 (tf_config f) ++ be 4 (tf_max_entries f) ++ bs).

End pack.
