(* ===== verification/StatsWireCorrect.v ===== *)
(** The elements of multipart messages come back from the wire. *)

From S2P Require Import Prelude Memory OpenFlow Oxm Group Meter Wire WireCorrect OxmWire OxmWireCorrect StatsWire.

(** * Strings *)

(** A string that fits into [n] bytes with its NUL. *)
Definition string_ok (n : nat) (s : list Z) : Prop := Forall (λ c, c ≠ 0) s ∧ (length s < n)%nat.

Lemma cstring_app s rest : Forall (λ c, c ≠ 0) s → cstring (s ++ 0 :: rest) = Some s.
Proof. induction 1 as [|c s Hc _ IH]; [done|]. cbn. rewrite (proj2 (Z.eqb_neq _ _) Hc), IH. done. Qed.

Lemma strncpy_split n s : (length s <= n)%nat → strncpy n s = s ++ zeros (n - length s).
Proof.
  intros Hl. unfold strncpy, zeros. rewrite take_app_ge, take_replicate by lia. f_equal. f_equal. lia.
Qed.

Lemma strncpy_length n s : length (strncpy n s) = n.
Proof. unfold strncpy, zeros. rewrite length_take, length_app, length_replicate. lia. Qed.

Lemma get_string_at pre body head s n tail post k :
  string_ok n s → body = head ++ strncpy n s ++ tail → length head = k → get_string (pre ++ body ++ post) (length pre + k) = Val s.
Proof.
  intros [Hs Hl] -> <-. unfold get_string. rewrite strncpy_split by lia. destruct (n - length s)%nat as [|z] eqn:E; [lia|].
  rewrite <- !app_assoc, (app_assoc pre), <- length_app, drop_app_length. cbn [zeros replicate app]. by rewrite cstring_app.
Qed.

(** * Elements of a fixed size *)

Class FixedCodec {A : Type} (pack : A → option (list Z)) (unpack : list Z → nat → Z → res (A * Z)) (size : nat) (ok : A → Prop) : Prop := {
  fixed_pack : ∀ a, ok a → ∃ bs, pack a = Some bs ∧ length bs = size;
  fixed_unpack : ∀ a bs pre post len, ok a → pack a = Some bs → Z.of_nat size <= len →
    unpack (pre ++ bs ++ post) (length pre) len = Val (a, len - Z.of_nat size) }.

Section fixed.
  Context {A : Type} (pack : A → option (list Z)) (unpack : list Z → nat → Z → res (A * Z)) (size : nat) (ok : A → Prop).
  Context `{HC : !FixedCodec pack unpack size ok}.

Lemma fixed_all l : Forall ok l → ∃ bs, pack_all pack l = Some bs ∧ length bs = (size * length l)%nat.
Proof using HC.
  induction 1 as [|a l Ha _ (rest & IH & Hr)]; [exists []; cbn; split; [done|lia]|]. destruct (fixed_pack a Ha) as (bs & E & Hb).
  rewrite pack_all_cons, E. cbn [mbind option_bind]. rewrite IH. eexists; split; [done|]. rewrite length_app. cbn. lia.
Qed.

Lemma fixed_loop l bs pre post len :
  Forall ok l → pack_all pack l = Some bs → Z.of_nat (length bs) <= len →
  unpack_fixed (unpack (pre ++ bs ++ post)) size (length l) (length pre) len = Val (l, len - Z.of_nat (length bs)).
Proof using HC.
  intros Hl. revert bs pre len. induction Hl as [|a l Ha Hl IH]; intros bs pre len Hp Hlen.
  { injection Hp as <-. cbn. by rewrite Z.sub_0_r. }
  rewrite pack_all_cons in Hp. destruct (fixed_pack a Ha) as (b & Eb & Lb). rewrite Eb in Hp. cbn [mbind option_bind] in Hp.
  destruct (fixed_all l Hl) as (rest & Er & Lr). rewrite Er in Hp. injection Hp as <-. rewrite length_app in Hlen.
  cbn [unpack_fixed length]. rewrite <- app_assoc. rewrite (fixed_unpack a b pre (rest ++ post)) by (done || lia). cbn [mbind res_bind].
  rewrite (app_assoc pre). replace (length pre + size)%nat with (length (pre ++ b)) by (rewrite length_app; lia).
  rewrite IH by (done || lia). cbn [mbind res_bind]. do 2 f_equal. rewrite length_app. lia.
Qed.

(** Counting and unpacking what fills the rest of a message or of a structure. *)
Lemma fixed_unpack_all l bs pre post :
  (0 < size)%nat → Forall ok l → pack_all pack l = Some bs →
  unpack_fixed (unpack (pre ++ bs ++ post)) size (count_fixed (Z.of_nat size) (Z.of_nat (length bs))) (length pre) (Z.of_nat (length bs)) = Val (l, 0).
Proof using HC.
  intros Hs Hl Hp. destruct (fixed_all l Hl) as (bs' & E & Hlen). rewrite Hp in E. injection E as <-.
  unfold count_fixed. replace (Z.of_nat (length bs) / Z.of_nat size) with (Z.of_nat (length l)).
  2: { rewrite Hlen, Nat2Z.inj_mul, Z.mul_comm, Z.div_mul; lia. }
  rewrite Nat2Z.id, fixed_loop by (done || lia). by rewrite Z.sub_diag.
Qed.
End fixed.

Definition port_no_ok (port_no : Z) : Prop := 0 < port_no <= OFPP_MAX ∨ port_no = OFPP_LOCAL.

Lemma port_no_good port_no : port_no_ok port_no → bad_port port_no = false ∧ fits 32 port_no.
Proof. unfold port_no_ok, bad_port, fits, OFPP_MAX, OFPP_LOCAL. intros [H| ->]; [|done]. split; lia. Qed.

Record port_desc_ok (s : ofl_port) : Prop := {
  pd_port_no : port_no_ok (op_port_no s); pd_hw_addr : length (op_hw_addr s) = 6%nat; pd_name : string_ok 16 (op_name s);
  pd_config : fits 32 (op_config s); pd_state : fits 32 (op_state s); pd_curr : fits 32 (op_curr s); pd_advertised : fits 32 (op_advertised s);
  pd_supported : fits 32 (op_supported s); pd_peer : fits 32 (op_peer s); pd_curr_speed : fits 32 (op_curr_speed s); pd_max_speed : fits 32 (op_max_speed s) }.

#[global] Instance port_codec : FixedCodec ofl_structs_port_pack ofl_structs_port_unpack 64 port_desc_ok.
Proof.
  split.
  - intros s []. eexists; split; [reflexivity|]. rewrite !length_app, !be_length, strncpy_length. unfold zeros. rewrite !length_replicate. lia.
  - intros s bs pre post len [H1 H2 H3 H4 H5 H6 H7 H8 H9 H10 H11] Hp Hlen. apply some_inj in Hp as <-. unfold ofl_structs_port_unpack.
    destruct (port_no_good _ H1) as [Hgood Hfit]. rewrite (proj2 (Z.ltb_ge _ _)) by lia.
    destruct s as [no hw name cf st cu ad su pe cs mx]. cbn [op_port_no op_hw_addr op_name op_config op_state op_curr op_advertised op_supported op_peer op_curr_speed op_max_speed] in *.
    destruct hw as [|a [|b [|c [|d [|e [|f [|? ?]]]]]]]; try discriminate H2.
    read no. rewrite Hgood. rewrite (get_bytes_at _ _ _ _ _ [a; b; c; d; e; f]) by (done || lia). cbn [mbind res_bind].
    erewrite (get_string_at pre _ (be 4 no ++ zeros 4 ++ [a; b; c; d; e; f] ++ zeros 2) name 16 _ post); [|done|reflexivity|done]. cbn [mbind res_bind].
    pose proof (strncpy_length 16 name) as Hs. remember (strncpy 16 name) as nm eqn:En. clear En.
    do 16 (destruct nm as [|? nm]; [discriminate|]). destruct nm; [|discriminate].
    read cf. read st. read cu. read ad. read su. read pe. read cs. read mx. done.
Qed.

Definition table_stats_ok (s : ofl_table_stats) : Prop :=
  0 <= ts_table_id s < 0xff ∧ fits 32 (ts_active_count s) ∧ fits 64 (ts_lookup_count s) ∧ fits 64 (ts_matched_count s).

#[global] Instance table_stats_codec : FixedCodec ofl_structs_table_stats_pack ofl_structs_table_stats_unpack 24 table_stats_ok.
Proof.
  split.
  - intros s _. by eexists.
  - intros [id ac lo ma] bs pre post len (H1 & H2 & H3 & H4) Hp Hlen. apply some_inj in Hp as <-. cbn [ts_table_id ts_active_count ts_lookup_count ts_matched_count] in *.
    unfold ofl_structs_table_stats_unpack. rewrite (proj2 (Z.ltb_ge _ _)) by lia. assert (fits 8 id) by (unfold fits; lia).
    read id. rewrite (proj2 (Z.eqb_neq _ _)) by lia. read ac. read lo. read ma. done.
Qed.

Lemma get_counters_at pre cs body head tail post k :
  Forall (fits 64) cs → body = head ++ concat (be 8 <$> cs) ++ tail → length head = k →
  get_counters (length cs) (pre ++ body ++ post) (length pre + k) = Val cs.
Proof.
  intros Hc. revert head k. induction Hc as [|c cs Hc _ IH]; intros head k -> Hk; [done|]. cbn [get_counters length].
  rewrite (get_at _ _ _ _ _ c); [| |done|lia].
  2: { rewrite drop_app_length' by done. change (concat (be 8 <$> c :: cs)) with (be 8 c ++ concat (be 8 <$> cs)).
       rewrite <- app_assoc, take_app_length'; [done|by rewrite be_length]. }
  cbn [mbind res_bind]. rewrite <- Nat.add_assoc. rewrite (IH (head ++ be 8 c)); [done| |rewrite length_app, be_length; lia].
  change (concat (be 8 <$> c :: cs)) with (be 8 c ++ concat (be 8 <$> cs)). by rewrite <- !app_assoc.
Qed.

Record port_stats_ok (s : ofl_port_stats) : Prop := {
  pso_port_no : port_no_ok (ops_port_no s); pso_num : length (ops_counters s) = 12%nat; pso_counters : Forall (fits 64) (ops_counters s);
  pso_sec : fits 32 (ops_duration_sec s); pso_nsec : fits 32 (ops_duration_nsec s) }.

#[global] Instance port_stats_codec : FixedCodec ofl_structs_port_stats_pack ofl_structs_port_stats_unpack 112 port_stats_ok.
Proof.
  assert (∀ cs, length (concat (be 8 <$> cs)) = (8 * length cs)%nat) as Hcat.
  { induction cs as [|c cs IH]; [done|]. change (concat (be 8 <$> c :: cs)) with (be 8 c ++ concat (be 8 <$> cs)).
    rewrite length_app, be_length, IH. cbn [length]. lia. }
  split.
  - intros s [_ Hn _ _ _]. eexists; split; [done|]. rewrite !length_app, !be_length, Hcat, Hn. done.
  - intros [no cs sec nsec] bs pre post len [H1 H2 H3 H4 H5] Hp Hlen. apply some_inj in Hp as <-. cbn [ops_port_no ops_counters ops_duration_sec ops_duration_nsec] in *.
    unfold ofl_structs_port_stats_unpack. destruct (port_no_good _ H1) as [Hgood Hfit]. rewrite (proj2 (Z.ltb_ge _ _)) by lia.
    read no. rewrite Hgood.
    pose proof (get_counters_at pre cs (be 4 no ++ zeros 4 ++ concat (be 8 <$> cs) ++ be 4 sec ++ be 4 nsec) (be 4 no ++ zeros 4) (be 4 sec ++ be 4 nsec) post 8 H3 eq_refl eq_refl) as Hg.
    rewrite H2 in Hg. rewrite Hg.
    cbn [mbind res_bind]. assert (∀ r, drop 104 (be 4 no ++ zeros 4 ++ concat (be 8 <$> cs) ++ r) = r) as Hdrop.
    { intros r. rewrite !app_assoc, drop_app_length'; [done|]. rewrite !length_app, Hcat, H2. done. }
    rewrite (get_at _ _ _ 104 _ sec); [|by rewrite Hdrop|done|lia]. cbn [mbind res_bind].
    rewrite (get_at _ _ _ 108 _ nsec); [|change 108%nat with (104 + 4)%nat; by rewrite <- drop_drop, Hdrop|done|lia]. done.
Qed.

Definition queue_stats_ok (s : ofl_queue_stats) : Prop :=
  0 < oqs_port_no s <= OFPP_MAX ∧ fits 32 (oqs_queue_id s) ∧ fits 64 (oqs_tx_bytes s) ∧ fits 64 (oqs_tx_packets s) ∧ fits 64 (oqs_tx_errors s) ∧
  fits 32 (oqs_duration_sec s) ∧ fits 32 (oqs_duration_nsec s).

#[global] Instance queue_stats_codec : FixedCodec ofl_structs_queue_stats_pack ofl_structs_queue_stats_unpack 40 queue_stats_ok.
Proof.
  split.
  - intros s _. by eexists.
  - intros [no id tb tp te sec nsec] bs pre post len (H1 & H2 & H3 & H4 & H5 & H6 & H7) Hp Hlen. apply some_inj in Hp as <-.
    cbn [oqs_port_no oqs_queue_id oqs_tx_bytes oqs_tx_packets oqs_tx_errors oqs_duration_sec oqs_duration_nsec] in *.
    unfold ofl_structs_queue_stats_unpack. rewrite (proj2 (Z.ltb_ge _ _)) by lia. assert (fits 32 no) by (unfold fits, OFPP_MAX in *; lia).
    read no. rewrite (proj2 (Z.eqb_neq _ _)), (proj2 (Z.ltb_ge _ _)) by lia. cbn [orb]. read id. read tb. read tp. read te. read sec. read nsec. done.
Qed.

Definition counter_ok (s : ofl_bucket_counter) : Prop := fits 64 (bc_packet_count s) ∧ fits 64 (bc_byte_count s).

#[global] Instance counter_codec : FixedCodec ofl_structs_bucket_counter_pack ofl_structs_bucket_counter_unpack 16 counter_ok.
Proof.
  split.
  - intros s _. by eexists.
  - intros [x y] bs pre post len (H1 & H2) Hp Hlen. apply some_inj in Hp as <-. cbn [bc_packet_count bc_byte_count] in *.
    unfold ofl_structs_bucket_counter_unpack. rewrite (proj2 (Z.ltb_ge _ _)) by lia. read x. read y. done.
Qed.

Definition band_counter_ok (s : band_counter) : Prop := fits 64 (bs_packet_band_count s) ∧ fits 64 (bs_byte_band_count s).

#[global] Instance band_counter_codec : FixedCodec ofl_structs_pack_band_stats ofl_structs_meter_band_stats_unpack 16 band_counter_ok.
Proof.
  split.
  - intros s _. by eexists.
  - intros [x y] bs pre post len (H1 & H2) Hp Hlen. apply some_inj in Hp as <-. cbn [bs_packet_band_count bs_byte_band_count] in *.
    unfold ofl_structs_meter_band_stats_unpack. rewrite (proj2 (Z.ltb_ge _ _)) by lia. read x. read y. done.
Qed.

(** * Structures with elements behind their headers *)

Lemma fixed_behind {A : Type} (pack : A → option (list Z)) unpack size ok `{!FixedCodec pack unpack size ok} l bs body head pre post k n :
  (0 < size)%nat → Forall ok l → pack_all pack l = Some bs → body = head ++ bs → length head = k → n = Z.of_nat (length bs) →
  unpack_fixed (unpack (pre ++ body ++ post)) size (count_fixed (Z.of_nat size) n) (length pre + k) n = Val (l, 0).
Proof.
  intros Hs Hl Hp -> <- ->. rewrite <- app_assoc, (app_assoc pre), <- length_app. by eapply fixed_unpack_all.
Qed.

Lemma count_behind {A : Type} (pack : A → option (list Z)) unpack off least ok norm `{!Codec pack unpack off least ok norm} room chk e l bs body head pre post k n :
  Forall ok l → pack_all pack l = Some bs → 0 < room <= least → chk <= least → body = head ++ bs → length head = k → n = Z.of_nat (length bs) →
  count_loop room chk off e (turns n) (pre ++ body ++ post) (length pre + k) n = Val (length l).
Proof.
  intros Hl Hp Hr Hchk -> <- ->. rewrite <- app_assoc, (app_assoc pre), <- length_app. unfold turns. rewrite Nat2Z.id.
  rewrite <- (Z.add_0_r (Z.of_nat (length bs))) at 1. apply (count_roundtrip pack unpack off least ok); done || lia.
Qed.

Lemma loop_behind {A : Type} (pack : A → option (list Z)) unpack off least ok norm `{!Codec pack unpack off least ok norm} l bs body head pre post k n :
  Forall ok l → pack_all pack l = Some bs → body = head ++ bs → length head = k → n = Z.of_nat (length bs) →
  unpack_loop (unpack (pre ++ body ++ post)) off (length l) (pre ++ body ++ post) (length pre + k) n = Val (norm <$> l, 0).
Proof.
  intros Hl Hp -> <- ->. rewrite <- app_assoc, (app_assoc pre), <- length_app. erewrite loop_norm by (done || lia). by rewrite Z.sub_diag.
Qed.

Lemma fixed_len {A : Type} (pack : A → option (list Z)) unpack size ok `{!FixedCodec pack unpack size ok} l bs :
  Forall ok l → pack_all pack l = Some bs → Z.of_nat (length bs) = Z.of_nat size * Z.of_nat (length l).
Proof. intros Hl Hp. destruct (fixed_all pack unpack size ok l Hl) as (bs' & E & Hlen). rewrite Hp in E. injection E as <-. lia. Qed.

Record group_stats_ok (s : ofl_group_stats) : Prop := {
  gso_id : 0 <= ogs_group_id s <= OFPG_MAX; gso_ref : fits 32 (ogs_ref_count s); gso_packets : fits 64 (ogs_packet_count s);
  gso_bytes : fits 64 (ogs_byte_count s); gso_sec : fits 32 (ogs_duration_sec s); gso_nsec : fits 32 (ogs_duration_nsec s);
  gso_counters : Forall counter_ok (ogs_counters s); gso_len : fits 16 (ofl_structs_group_stats_ofp_len s) }.

Lemma group_stats_pack s : group_stats_ok s → ∃ bs, pack_all ofl_structs_bucket_counter_pack (ogs_counters s) = Some bs ∧
  Z.of_nat (length bs) = ofl_structs_group_stats_ofp_len s - 40 ∧
  ∃ all, ofl_structs_group_stats_pack s = Some all ∧ Z.of_nat (length all) = ofl_structs_group_stats_ofp_len s.
Proof.
  intros [_ _ _ _ _ _ Hc _]. destruct (fixed_all _ _ _ _ _ Hc) as (bs & E & Hl). exists bs. split; [done|].
  unfold ofl_structs_group_stats_pack, ofl_structs_group_stats_ofp_len. rewrite E. split; [lia|]. eexists; split; [done|].
  rewrite !length_app, !be_length. unfold zeros. rewrite !length_replicate. lia.
Qed.

#[global] Instance group_stats_codec : Codec ofl_structs_group_stats_pack ofl_structs_group_stats_unpack 0 40 group_stats_ok (λ s, s).
Proof.
  split.
  - intros s Hs. destruct (group_stats_pack s Hs) as (? & _ & _ & all & -> & _). by eexists.
  - intros s all pre post len Hs Hp Hlen. destruct (group_stats_pack s Hs) as (bs & E & Hb & all' & Hp' & Hall). rewrite Hp in Hp'. injection Hp' as <-.
    rewrite Hall in *. destruct Hs as [H1 H2 H3 H4 H5 H6 H7 H8]. unfold ofl_structs_group_stats_pack in Hp. rewrite E in Hp. apply some_inj in Hp as <-.
    assert (fits 32 (ogs_group_id s)) by (unfold fits, OFPG_MAX in *; lia).
    unfold ofl_structs_group_stats_unpack. rewrite (proj2 (Z.ltb_ge _ _)) by lia. read (ofl_structs_group_stats_ofp_len s).
    rewrite (proj2 (Z.ltb_ge _ _)) by lia. read (ogs_group_id s). rewrite (proj2 (Z.ltb_ge _ _)) by lia.
    read (ogs_ref_count s). read (ogs_packet_count s). read (ogs_byte_count s). read (ogs_duration_sec s). read (ogs_duration_nsec s).
    unfold ofl_utils_count_ofp_bucket_counters. change 16 with (Z.of_nat 16).
    rewrite (fixed_behind ofl_structs_bucket_counter_pack ofl_structs_bucket_counter_unpack 16 counter_ok (ogs_counters s) bs _
      (be 2 (ofl_structs_group_stats_ofp_len s) ++ zeros 2 ++ be 4 (ogs_group_id s) ++ be 4 (ogs_ref_count s) ++ zeros 4 ++
       be 8 (ogs_packet_count s) ++ be 8 (ogs_byte_count s) ++ be 4 (ogs_duration_sec s) ++ be 4 (ogs_duration_nsec s))) by (done || lia).
    cbn [mbind res_bind Z.eqb negb]. by destruct s.
  - intros s all pre post Hs Hp. destruct (group_stats_pack s Hs) as (bs & E & Hb & all' & Hp' & Hall). rewrite Hp in Hp'. injection Hp' as <-.
    rewrite Hall. destruct Hs as [_ _ _ _ _ _ _ H8]. split; [|lia]. unfold ofl_structs_group_stats_pack in Hp. rewrite E in Hp. apply some_inj in Hp as <-.
    apply get_at; [done|done|lia].
Qed.

Definition group_desc_ok (s : ofl_group_desc_stats) : Prop :=
  fits 8 (gd_type s) ∧ 0 <= gd_group_id s <= OFPG_MAX ∧ Forall (bucket_ok (gd_type s)) (gd_buckets s) ∧ fits 16 (ofl_structs_group_desc_stats_ofp_len s).

Lemma buckets_len gtype l bs :
  Forall (bucket_ok gtype) l → pack_all ofl_structs_bucket_pack l = Some bs → Z.of_nat (length bs) = ofl_structs_buckets_ofp_total_len l.
Proof.
  intros Hl. revert bs. induction Hl as [|b l Hb _ IH]; intros bs Hp; [apply some_inj in Hp as <-; done|].
  rewrite pack_all_cons in Hp. destruct (bucket_pack gtype b Hb) as (ab & Ea & Eb & La). rewrite Eb in Hp. cbn [mbind option_bind] in Hp.
  destruct (pack_all ofl_structs_bucket_pack l) as [rest|]; [|done]. apply some_inj in Hp as <-. specialize (IH rest eq_refl).
  unfold ofl_structs_buckets_ofp_total_len in *. cbn [fmap list_fmap]. rewrite zsum_cons. change (list_fmap _ _ ofl_structs_buckets_ofp_len l) with (ofl_structs_buckets_ofp_len <$> l).
  rewrite length_app, Nat2Z.inj_add, IH. f_equal. unfold ofl_structs_buckets_ofp_len.
  destruct Hb as (_ & _ & _ & _ & Ha & _). destruct (actions_len _ _ Ha Ea) as [_ Hm]. rewrite (Z.add_mod 16), Hm by lia. cbn [Z.eqb Z.add Z.modulo].
  rewrite !length_app, !be_length. unfold zeros. rewrite !length_replicate. change ((16 mod 8 + 0) mod 8 =? 0) with true. lia.
Qed.

Lemma group_desc_pack s : group_desc_ok s → ∃ bs, pack_all ofl_structs_bucket_pack (gd_buckets s) = Some bs ∧
  Z.of_nat (length bs) = ofl_structs_group_desc_stats_ofp_len s - 8 ∧
  ofl_structs_group_desc_stats_pack s =
    Some (be 2 (ofl_structs_group_desc_stats_ofp_len s) ++ be 1 (gd_type s) ++ zeros 1 ++ be 4 (gd_group_id s) ++ bs) ∧
  Z.of_nat (length (be 2 (ofl_structs_group_desc_stats_ofp_len s) ++ be 1 (gd_type s) ++ zeros 1 ++ be 4 (gd_group_id s) ++ bs)) =
    ofl_structs_group_desc_stats_ofp_len s.
Proof.
  intros (_ & _ & Hb & _). destruct (pack_all_some ofl_structs_bucket_pack _ _ _ _ _ Hb) as [bs E]. exists bs.
  pose proof (buckets_len _ _ _ Hb E) as Hl. unfold ofl_structs_group_desc_stats_pack, ofl_structs_group_desc_stats_ofp_len. rewrite E.
  split_and!; [done|lia|done|]. rewrite !length_app, !be_length. unfold zeros. rewrite !length_replicate. lia.
Qed.

#[global] Instance group_desc_codec : Codec ofl_structs_group_desc_stats_pack ofl_structs_group_desc_stats_unpack 0 8 group_desc_ok (λ s, s).
Proof.
  split.
  - intros s Hs. destruct (group_desc_pack s Hs) as (? & _ & _ & -> & _). by eexists.
  - intros s all pre post len Hs Hp Hlen. destruct (group_desc_pack s Hs) as (bs & E & Hb & Hp' & Hall). rewrite Hp' in Hp. apply some_inj in Hp as <-.
    rewrite Hall in *. destruct Hs as (H1 & H2 & H3 & H4). assert (fits 32 (gd_group_id s)) by (unfold fits, OFPG_MAX in *; lia).
    unfold ofl_structs_group_desc_stats_unpack. rewrite (proj2 (Z.ltb_ge _ _)) by lia. read (ofl_structs_group_desc_stats_ofp_len s).
    rewrite (proj2 (Z.ltb_ge _ _)) by lia. read (gd_group_id s). rewrite (proj2 (Z.ltb_ge _ _)) by lia. read (gd_type s).
    unfold ofl_utils_count_ofp_buckets.
    rewrite (count_behind ofl_structs_bucket_pack _ 0 16 _ _ 16 16 OFPBRC_BAD_LEN (gd_buckets s) bs _
      (be 2 (ofl_structs_group_desc_stats_ofp_len s) ++ be 1 (gd_type s) ++ zeros 1 ++ be 4 (gd_group_id s))) by (done || lia).
    cbn [mbind res_bind].
    rewrite (loop_behind ofl_structs_bucket_pack (λ buf, ofl_structs_bucket_unpack buf (gd_type s)) 0 16 _ _ (gd_buckets s) bs _
      (be 2 (ofl_structs_group_desc_stats_ofp_len s) ++ be 1 (gd_type s) ++ zeros 1 ++ be 4 (gd_group_id s))) by (done || lia).
    cbn [mbind res_bind Z.eqb negb]. rewrite list_fmap_id. by destruct s.
  - intros s all pre post Hs Hp. destruct (group_desc_pack s Hs) as (bs & E & Hb & Hp' & Hall). rewrite Hp' in Hp. apply some_inj in Hp as <-.
    rewrite Hall. destruct Hs as (_ & _ & _ & H4). split; [|lia]. apply get_at; [done|done|lia].
Qed.

Record meter_stats_ok (s : ofl_meter_stats) : Prop := {
  mso_id : fits 32 (oms_meter_id s); mso_flow : fits 32 (oms_flow_count s); mso_packets : fits 64 (oms_packet_in_count s);
  mso_bytes : fits 64 (oms_byte_in_count s); mso_sec : fits 32 (oms_duration_sec s); mso_nsec : fits 32 (oms_duration_nsec s);
  mso_bands : Forall band_counter_ok (oms_band_stats s); mso_fits : fits 16 (oms_len s); mso_len : oms_len s = ofl_structs_meter_stats_ofp_len s }.

Lemma meter_stats_pack s : meter_stats_ok s → ∃ bs, pack_all ofl_structs_pack_band_stats (oms_band_stats s) = Some bs ∧
  Z.of_nat (length bs) = oms_len s - 40 ∧ ∃ all, ofl_structs_meter_stats_pack s = Some all ∧ Z.of_nat (length all) = oms_len s.
Proof.
  intros [_ _ _ _ _ _ Hc _ ->]. destruct (fixed_all _ _ _ _ _ Hc) as (bs & E & Hl). exists bs. split; [done|].
  unfold ofl_structs_meter_stats_pack, ofl_structs_meter_stats_ofp_len. rewrite E. split; [lia|]. eexists; split; [done|].
  rewrite !length_app, !be_length. unfold zeros. rewrite !length_replicate. lia.
Qed.

#[global] Instance meter_stats_codec : Codec ofl_structs_meter_stats_pack ofl_structs_meter_stats_unpack 4 40 meter_stats_ok (λ s, s).
Proof.
  split.
  - intros s Hs. destruct (meter_stats_pack s Hs) as (? & _ & _ & all & -> & _). by eexists.
  - intros s all pre post len Hs Hp Hlen. destruct (meter_stats_pack s Hs) as (bs & E & Hb & all' & Hp' & Hall). rewrite Hp in Hp'. injection Hp' as <-.
    rewrite Hall in *. destruct Hs as [H1 H2 H3 H4 H5 H6 H7 H8 H9]. unfold ofl_structs_meter_stats_pack in Hp. rewrite E, <- H9 in Hp. apply some_inj in Hp as <-.
    assert (40 <= oms_len s) by (rewrite H9; unfold ofl_structs_meter_stats_ofp_len; lia).
    unfold ofl_structs_meter_stats_unpack. rewrite (proj2 (Z.ltb_ge _ _)) by lia. read (oms_len s).
    rewrite (proj2 (Z.ltb_ge _ _)) by lia. read (oms_meter_id s). read (oms_flow_count s). read (oms_packet_in_count s). read (oms_byte_in_count s).
    read (oms_duration_sec s). read (oms_duration_nsec s).
    unfold ofl_utils_count_ofp_meter_band_stats. change 16 with (Z.of_nat 16).
    rewrite (fixed_behind ofl_structs_pack_band_stats ofl_structs_meter_band_stats_unpack 16 band_counter_ok (oms_band_stats s) bs _
      (be 4 (oms_meter_id s) ++ be 2 (oms_len s) ++ zeros 6 ++ be 4 (oms_flow_count s) ++ be 8 (oms_packet_in_count s) ++
       be 8 (oms_byte_in_count s) ++ be 4 (oms_duration_sec s) ++ be 4 (oms_duration_nsec s))) by (done || lia).
    cbn [mbind res_bind Z.eqb negb]. by destruct s.
  - intros s all pre post Hs Hp. destruct (meter_stats_pack s Hs) as (bs & E & Hb & all' & Hp' & Hall). rewrite Hp in Hp'. injection Hp' as <-.
    rewrite Hall. destruct Hs as [_ _ _ _ _ _ _ H8 H9]. split; [|rewrite H9; unfold ofl_structs_meter_stats_ofp_len; lia].
    unfold ofl_structs_meter_stats_pack in Hp. rewrite E, <- H9 in Hp. apply some_inj in Hp as <-. apply get_at; [done|done|lia].
Qed.

Definition meter_config_ok (s : ofl_meter_config) : Prop :=
  fits 16 (mc_flags s) ∧ fits 32 (mc_meter_id s) ∧ Forall band_ok (mc_bands s) ∧ fits 16 (mc_length s) ∧ mc_length s = ofl_structs_meter_conf_ofp_len s.

Lemma bands_len l bs : pack_all ofl_structs_meter_band_pack l = Some bs → Z.of_nat (length bs) = ofl_structs_meter_bands_ofp_total_len l.
Proof.
  revert bs. induction l as [|b l IH]; intros bs Hp; [apply some_inj in Hp as <-; done|].
  rewrite pack_all_cons in Hp. cbn [ofl_structs_meter_band_pack mbind option_bind] in Hp.
  destruct (pack_all ofl_structs_meter_band_pack l) as [rest|]; [|done]. apply some_inj in Hp as <-. specialize (IH rest eq_refl).
  change (ofl_structs_meter_bands_ofp_total_len (b :: l)) with (16 + ofl_structs_meter_bands_ofp_total_len l).
  rewrite length_app, Nat2Z.inj_add, IH. f_equal. by destruct b.
Qed.

Lemma meter_config_pack s : meter_config_ok s → ∃ bs, pack_all ofl_structs_meter_band_pack (mc_bands s) = Some bs ∧
  Z.of_nat (length bs) = mc_length s - 8 ∧
  ofl_structs_meter_conf_pack s = Some (be 2 (mc_length s) ++ be 2 (mc_flags s) ++ be 4 (mc_meter_id s) ++ bs) ∧
  Z.of_nat (length (be 2 (mc_length s) ++ be 2 (mc_flags s) ++ be 4 (mc_meter_id s) ++ bs)) = mc_length s.
Proof.
  intros (_ & _ & Hb & _ & Hl). destruct (pack_all_some ofl_structs_meter_band_pack _ _ _ _ _ Hb) as [bs E]. exists bs.
  pose proof (bands_len _ _ E) as Hlen. unfold ofl_structs_meter_conf_pack. rewrite E, <- Hl. unfold ofl_structs_meter_conf_ofp_len in Hl.
  split_and!; [done|lia|done|]. rewrite !length_app, !be_length. lia.
Qed.

#[global] Instance meter_config_codec : Codec ofl_structs_meter_conf_pack ofl_structs_meter_config_unpack 0 8 meter_config_ok (λ s, s).
Proof.
  split.
  - intros s Hs. destruct (meter_config_pack s Hs) as (? & _ & _ & -> & _). by eexists.
  - intros s all pre post len Hs Hp Hlen. destruct (meter_config_pack s Hs) as (bs & E & Hb & Hp' & Hall). rewrite Hp' in Hp. apply some_inj in Hp as <-.
    rewrite Hall in *. destruct Hs as (H1 & H2 & H3 & H4 & H5).
    unfold ofl_structs_meter_config_unpack. rewrite (proj2 (Z.ltb_ge _ _)) by lia. read (mc_length s).
    rewrite (proj2 (Z.ltb_ge _ _)) by lia. read (mc_meter_id s). read (mc_flags s).
    unfold ofl_utils_count_ofp_meter_bands.
    rewrite (count_behind ofl_structs_meter_band_pack ofl_structs_meter_band_unpack 2 12 band_ok _ 12 12 OFPBRC_BAD_LEN (mc_bands s) bs _
      (be 2 (mc_length s) ++ be 2 (mc_flags s) ++ be 4 (mc_meter_id s))) by (done || lia).
    cbn [mbind res_bind].
    rewrite (loop_behind ofl_structs_meter_band_pack ofl_structs_meter_band_unpack 2 12 band_ok _ (mc_bands s) bs _
      (be 2 (mc_length s) ++ be 2 (mc_flags s) ++ be 4 (mc_meter_id s))) by (done || lia).
    cbn [mbind res_bind Z.eqb negb]. rewrite list_fmap_id. by destruct s.
  - intros s all pre post Hs Hp. destruct (meter_config_pack s Hs) as (bs & E & Hb & Hp' & Hall). rewrite Hp' in Hp. apply some_inj in Hp as <-.
    rewrite Hall. destruct Hs as (_ & _ & _ & H4 & _). split; [|lia]. apply get_at; [done|done|lia].
Qed.

(** * Flows *)

Lemma instructions_len l bs :
  Forall instruction_ok l → pack_all ofl_structs_instructions_pack l = Some bs → Z.of_nat (length bs) = ofl_structs_instructions_ofp_total_len l.
Proof.
  intros Hl. revert bs. induction Hl as [|i l Hi _ IH]; intros bs Hp; [apply some_inj in Hp as <-; done|].
  rewrite pack_all_cons in Hp. destruct (ofl_structs_instructions_pack i) as [b|] eqn:Eb; [|done]. cbn [mbind option_bind] in Hp.
  destruct (pack_all ofl_structs_instructions_pack l) as [rest|]; [|done]. apply some_inj in Hp as <-.
  destruct (instruction_len i b Hi Eb) as [E _]. change (ofl_structs_instructions_ofp_total_len (i :: l)) with
    (ofl_structs_instructions_ofp_len i + ofl_structs_instructions_ofp_total_len l). rewrite length_app, Nat2Z.inj_add, (IH rest eq_refl), E. done.
Qed.

Lemma round_up_add a b : a mod 8 = 0 → ROUND_UP (a + b) = a + ROUND_UP b.
Proof. unfold ROUND_UP. Z.div_mod_to_equations. lia. Qed.

Section flows.
  Context `{M : Malloc}.

Lemma pack_match_length n m : match_sound m → 0 <= n → Z.of_nat (length (pack_match n m)) = ROUND_UP (n + 4 + match_length m) - n.
Proof using.
  intros Hm Hn. unfold pack_match. rewrite length_app, Nat2Z.inj_add, match_pack_length, fresh_length by done.
  pose proof (round_up_bound (n + 4 + match_length m)). lia.
Qed.

Lemma match_instructions_ok k m is_ bs body head tail pre post len :
  Z.of_nat k mod 8 = 0 → match_sound m → Forall instruction_ok is_ → pack_all ofl_structs_instructions_pack is_ = Some bs →
  body = head ++ pack_match (Z.of_nat k) m ++ bs ++ tail → length head = k →
  len = ROUND_UP (Z.of_nat k + 4 + match_length m) - Z.of_nat k + Z.of_nat (length bs) → len < 2 ^ 64 →
  unpack_match_instructions (pre ++ body ++ post) (length pre) (length pre + k) len = Val (unpacked m, is_, 0).
Proof using.
  intros Hk Hm Hi Hp -> Hh -> Hlen. unfold unpack_match_instructions.
  pose proof (pack_match_length (Z.of_nat k) m Hm ltac:(lia)) as Lm. unfold pack_match in Lm |- *. set (pad := fresh _) in *.
  assert (0 <= match_length m) by (rewrite <- (oxm_put_length m Hm); lia).
  replace (pre ++ (head ++ (ofl_structs_match_pack m ++ pad) ++ bs ++ tail) ++ post) with
    ((pre ++ head) ++ ofl_structs_match_pack m ++ (pad ++ bs ++ tail ++ post)) by (by rewrite <- !app_assoc).
  rewrite <- Hh at 1. rewrite <- length_app, match_unpack by done. cbn [mbind res_bind match_length unpacked].
  assert (ROUND_UP (Z.of_nat k + 4 + match_length m) = Z.of_nat k + ROUND_UP (match_length m + 4)) as Er
    by (rewrite <- Z.add_assoc, (Z.add_comm 4); by apply round_up_add).
  rewrite Er in Hlen, Lm |- *.
  assert (fits 64 (Z.of_nat (length bs))) by (pose proof (round_up_bound (match_length m + 4)); unfold fits; lia).
  replace (u64 _) with (Z.of_nat (length bs)).
  2: { unfold u64. rewrite wrap_small; [lia|]. replace (_ - _) with (Z.of_nat (length bs)) by lia. done. }
  replace (length pre + Z.to_nat _)%nat with (length (pre ++ head) + length (ofl_structs_match_pack m ++ pad))%nat.
  2: { rewrite !length_app in Lm |- *. replace (length pre + k - length pre)%nat with k by lia.
       rewrite Er, (length_app (ofl_structs_match_pack m)). lia. }
  replace (ofl_structs_match_pack m ++ pad ++ bs ++ tail ++ post) with (((ofl_structs_match_pack m ++ pad) ++ bs) ++ tail ++ post) by (by rewrite <- !app_assoc).
  unfold ofl_utils_count_ofp_instructions.
  rewrite (count_behind ofl_structs_instructions_pack ofl_structs_instructions_unpack 2 8 instruction_ok _ 5 0 OFPBRC_BAD_LEN is_ bs _
    (ofl_structs_match_pack m ++ pad)) by (done || lia). cbn [mbind res_bind].
  rewrite (loop_behind ofl_structs_instructions_pack ofl_structs_instructions_unpack 2 8 instruction_ok _ is_ bs _ (ofl_structs_match_pack m ++ pad)) by done.
  cbn [mbind res_bind]. by rewrite list_fmap_id.
Qed.

Record flow_stats_ok (s : ofl_flow_stats) : Prop := {
  fso_table : 0 <= ofs_table_id s < PIPELINE_TABLES; fso_sec : fits 32 (ofs_duration_sec s); fso_nsec : fits 32 (ofs_duration_nsec s);
  fso_priority : fits 16 (ofs_priority s); fso_idle : fits 16 (ofs_idle_timeout s); fso_hard : fits 16 (ofs_hard_timeout s);
  fso_flags : fits 16 (ofs_flags s); fso_cookie : fits 64 (ofs_cookie s); fso_packets : fits 64 (ofs_packet_count s);
  fso_bytes : fits 64 (ofs_byte_count s); fso_match : match_sound (ofs_match s); fso_inst : Forall instruction_ok (ofs_instructions s);
  fso_len : ofl_structs_flow_stats_ofp_len s < 2 ^ 16 }.

Definition flow_stats_unpacked (s : ofl_flow_stats) : ofl_flow_stats :=
  OflFlowStats (ofs_table_id s) (ofs_duration_sec s) (ofs_duration_nsec s) (ofs_priority s) (ofs_idle_timeout s) (ofs_hard_timeout s)
    (ofs_flags s) (ofs_cookie s) (ofs_packet_count s) (ofs_byte_count s) (unpacked (ofs_match s)) (ofs_instructions s).

Definition flow_stats_head (s : ofl_flow_stats) : list Z :=
  be 2 (ofl_structs_flow_stats_ofp_len s) ++ be 1 (ofs_table_id s) ++ zeros 1 ++ be 4 (ofs_duration_sec s) ++ be 4 (ofs_duration_nsec s) ++
  be 2 (ofs_priority s) ++ be 2 (ofs_idle_timeout s) ++ be 2 (ofs_hard_timeout s) ++ be 2 (ofs_flags s) ++ zeros 4 ++ be 8 (ofs_cookie s) ++
  be 8 (ofs_packet_count s) ++ be 8 (ofs_byte_count s).

Lemma match_pack_head m : match_sound m → ∃ rest, ofl_structs_match_pack m = be 2 1 ++ be 2 (match_length m + 4) ++ rest.
Proof using.
  intros Hm. unfold ofl_structs_match_pack. destruct (truthy (match_length m)) eqn:E.
  - rewrite (oxm_put_length m Hm). by eexists.
  - exists []. unfold truthy in E. replace (match_length m) with 0 by lia. by rewrite app_nil_r.
Qed.

Lemma flow_stats_pack s : flow_stats_ok s → ∃ bs rest, pack_all ofl_structs_instructions_pack (ofs_instructions s) = Some bs ∧
  ofl_structs_flow_stats_pack s = Some (flow_stats_head s ++ pack_match 48 (ofs_match s) ++ bs) ∧
  flow_stats_head s ++ pack_match 48 (ofs_match s) ++ bs = flow_stats_head s ++ be 2 1 ++ be 2 (match_length (ofs_match s) + 4) ++ rest ∧
  Z.of_nat (length (flow_stats_head s ++ pack_match 48 (ofs_match s) ++ bs)) = ofl_structs_flow_stats_ofp_len s ∧
  Z.of_nat (length bs) = ofl_structs_flow_stats_ofp_len s - ROUND_UP (52 + match_length (ofs_match s)) ∧ 0 <= match_length (ofs_match s).
Proof using.
  intros [_ _ _ _ _ _ _ _ _ _ Hm Hi _]. destruct (pack_all_some ofl_structs_instructions_pack _ _ _ _ _ Hi) as [bs E].
  pose proof (instructions_len _ _ Hi E) as Hl. destruct (match_pack_head _ Hm) as [rest Er].
  assert (0 <= match_length (ofs_match s)) by (rewrite <- (oxm_put_length _ Hm); lia).
  exists bs, (rest ++ fresh (Z.to_nat (ROUND_UP (48 + 4 + match_length (ofs_match s)) - (48 + 4 + match_length (ofs_match s)))) ++ bs).
  unfold ofl_structs_flow_stats_pack, ofl_structs_flow_stats_ofp_len in *. rewrite E. split_and!; [done|done| | |lia|done].
  - unfold pack_match. rewrite Er. by rewrite <- !app_assoc.
  - rewrite !length_app, (Nat2Z.inj_add (length (flow_stats_head s))), Nat2Z.inj_add, pack_match_length by (done || lia).
    change (Z.of_nat (length (flow_stats_head s))) with 48. change (48 + 4) with 52. lia.
Qed.

#[global] Instance flow_stats_codec : Codec ofl_structs_flow_stats_pack ofl_structs_flow_stats_unpack 0 56 flow_stats_ok flow_stats_unpacked.
Proof using.
  split.
  - intros s Hs. destruct (flow_stats_pack s Hs) as (? & ? & _ & -> & _). by eexists.
  - intros s all pre post len Hs Hp Hlen. destruct (flow_stats_pack s Hs) as (bs & rest & E & Hp' & Er & Hall & Hb & H0). rewrite Hp' in Hp. apply some_inj in Hp as <-.
    rewrite Hall in Hlen |- *. destruct Hs as [H1 H2 H3 H4 H5 H6 H7 H8 H9 H10 Hm Hi Hf]. pose proof (ms_length _ Hm) as Hml.
    assert (fits 8 (ofs_table_id s)) by (unfold fits, PIPELINE_TABLES in *; lia).
    pose proof (round_up_bound (52 + match_length (ofs_match s))).
    assert (fits 16 (ofl_structs_flow_stats_ofp_len s)) by (unfold fits; lia).
    unfold ofl_structs_flow_stats_unpack. assert (ROUND_UP (52 + match_length (ofs_match s)) = 48 + ROUND_UP (match_length (ofs_match s) + 4)) as Eup.
    { replace (52 + match_length (ofs_match s)) with (48 + (match_length (ofs_match s) + 4)) by lia. by apply round_up_add. }
    rewrite (get_at _ _ _ 50 _ (match_length (ofs_match s) + 4)); [|rewrite Er; reflexivity|unfold fits; lia|lia]. cbn [mbind res_bind].
    rewrite (proj2 (Z.ltb_ge _ _)) by lia.
    read (ofl_structs_flow_stats_ofp_len s). rewrite (proj2 (Z.ltb_ge _ _)) by lia.
    read (ofs_table_id s). rewrite (proj2 (Z.leb_gt _ _)) by lia. read (ofs_duration_sec s). read (ofs_duration_nsec s). read (ofs_priority s).
    read (ofs_idle_timeout s). read (ofs_hard_timeout s). read (ofs_flags s). read (ofs_cookie s). read (ofs_packet_count s). read (ofs_byte_count s).
    rewrite (match_instructions_ok 48 (ofs_match s) (ofs_instructions s) bs _ (flow_stats_head s) []);
      [|done|done|done|done|by rewrite app_nil_r|done| |unfold u64; pose proof (wrap_fits 64 (ofl_structs_flow_stats_ofp_len s - 48) ltac:(lia)) as [_ Hw]; exact Hw].
    2: { unfold u64. change (Z.of_nat 48) with 48. change (48 + 4) with 52. rewrite wrap_small by (unfold fits; lia). lia. }
    cbn [mbind res_bind Z.eqb negb]. done.
  - intros s all pre post Hs Hp. destruct (flow_stats_pack s Hs) as (bs & rest & E & Hp' & Er & Hall & Hb & H0). rewrite Hp' in Hp. apply some_inj in Hp as <-.
    rewrite Hall. destruct Hs as [_ _ _ _ _ _ _ _ _ _ _ _ Hf]. pose proof (round_up_bound (52 + match_length (ofs_match s))) as [Hr Hm8].
    split; [|revert Hr Hm8 Hb; generalize (ROUND_UP (52 + match_length (ofs_match s))); intros z; Z.div_mod_to_equations; lia].
    apply get_at; [done|unfold fits; lia|lia].
Qed.
End flows.
