(* ===== verification/Experimenter.v ===== *)
(** Experimenter messages: oflib-exp/ofl-exp.c, ofl-exp-openflow.c and ofl-exp-nicira.c, the
    callbacks that the datapath gives to the OpenFlow library.  The conventions are those of
    Wire. *)

From S2P Require Import Prelude Memory OpenFlow Wire OxmWire StatsWire.

Definition OPENFLOW_VENDOR_ID := 0x26e1.
Definition NX_VENDOR_ID := 0x2320.
Definition OFP_EXT_QUEUE_MODIFY := 0.
Definition OFP_EXT_QUEUE_DELETE := 1.
Definition OFP_EXT_SET_DESC := 2.
Definition NXT_ROLE_REQUEST := 10.
Definition NXT_ROLE_REPLY := 11.
Definition BAD_EXPERIMENTER : Z := ofl_error OFPET_BAD_REQUEST 3.

(** [struct ofl_exp_openflow_msg_queue], [ofl_exp_openflow_msg_set_dp_desc] and
    [ofl_exp_nicira_msg_role]. *)
Inductive ofl_msg_experimenter :=
  | ExpQueue (type port_id : Z) (queue : ofl_packet_queue)
  | ExpSetDpDesc (dp_desc : list Z)
  | ExpRole (type role : Z).

Definition ofl_exp_openflow_msg_unpack (buf : list Z) (len : Z) : res (ofl_msg_experimenter * Z) :=
  if len <? 16 then Err OFPBRC_BAD_LEN
  else
    vendor ← get 4 buf 8;
    if vendor =? OPENFLOW_VENDOR_ID then
      subtype ← get 4 buf 12;
      if (subtype =? OFP_EXT_QUEUE_MODIFY) || (subtype =? OFP_EXT_QUEUE_DELETE) then
        if len <? 24 then Err OFPBRC_BAD_LEN
        else
          port_id ← get 4 buf 16;
          '(queue, len) ← ofl_structs_packet_queue_unpack buf 24 (len - 24);
          Val (ExpQueue subtype port_id queue, len)
      else if subtype =? OFP_EXT_SET_DESC then
        if len <? 272 then Err OFPBRC_BAD_LEN
        else dp_desc ← get_string buf 16; Val (ExpSetDpDesc dp_desc, len - 272)
      else Err BAD_EXPERIMENTER
    else Err BAD_EXPERIMENTER.

Definition ofl_exp_nicira_msg_unpack (buf : list Z) (len : Z) : res (ofl_msg_experimenter * Z) :=
  if len <? 16 then Err OFPBRC_BAD_LEN
  else
    vendor ← get 4 buf 8;
    if vendor =? NX_VENDOR_ID then
      subtype ← get 4 buf 12;
      if (subtype =? NXT_ROLE_REQUEST) || (subtype =? NXT_ROLE_REPLY) then
        if len <? 20 then Err OFPBRC_BAD_LEN
        else role ← get 4 buf 16; Val (ExpRole subtype role, len - 20)
      else Err BAD_EXPERIMENTER
    else Err BAD_EXPERIMENTER.

Definition ofl_exp_msg_unpack (buf : list Z) (len : Z) : res (ofl_msg_experimenter * Z) :=
  if len <? 16 then Err OFPBRC_BAD_LEN
  else
    experimenter ← get 4 buf 8;
    if experimenter =? OPENFLOW_VENDOR_ID then ofl_exp_openflow_msg_unpack buf len
    else if experimenter =? NX_VENDOR_ID then ofl_exp_nicira_msg_unpack buf len
    else Err BAD_EXPERIMENTER.

(** ** Packing: the length of the buffer, and what is behind the header in it *)

Section pack.
  Context `{M : Malloc}.

(** [None] for an unset property of a queue. *)
Definition ofl_exp_openflow_msg_pack (m : ofl_msg_experimenter) : option (Z * list Z) :=
  match m with
  | ExpQueue type port_id queue =>
    if (type =? OFP_EXT_QUEUE_MODIFY) || (type =? OFP_EXT_QUEUE_DELETE) then
      body ← ofl_structs_packet_queue_pack queue;
      Some (24 + 16 + 16 * Z.of_nat (length (pq_properties queue)),
            be 4 OPENFLOW_VENDOR_ID ++ be 4 type ++ be 4 port_id ++ fresh 4 ++ body)
    else None
  | ExpSetDpDesc dp_desc => Some (272, be 4 OPENFLOW_VENDOR_ID ++ be 4 OFP_EXT_SET_DESC ++ strncpy 256 dp_desc)
  | ExpRole _ _ => None
  end.

Definition ofl_exp_nicira_msg_pack (m : ofl_msg_experimenter) : option (Z * list Z) :=
  match m with
  | ExpRole type role =>
    if (type =? NXT_ROLE_REQUEST) || (type =? NXT_ROLE_REPLY)
    then Some (20, be 4 NX_VENDOR_ID ++ be 4 type ++ be 4 role) else None
  | _ => None
  end.

Definition ofl_exp_msg_pack (m : ofl_msg_experimenter) : option (Z * list Z) :=
  match m with
  | ExpRole _ _ => ofl_exp_nicira_msg_pack m
  | _ => ofl_exp_openflow_msg_pack m
  end.
End pack.
