(* ===== verification/TcpPath.v ===== *)
(** TCP-Path: [pipeline_tcp_path] of udatapath/pipeline.c with the path request
    frames of udatapath/dp_ports.c ([encapsulate_path_request_tcp],
    [desencapsulate_path_request_tcp], [switch_track_tcp],
    [select_packet_tcp_path], [dst_is_neighbor]).

    The first SYN of a connection is turned into a path request: the frame with a
    broadcast destination and IP protocol 253, followed by a trailer of 14 bytes
    (opcode, the real destination, the id of the switch, a sequence number and a
    hop counter).  Path requests are flooded; each switch binds the connection to
    the port of the first copy and destroys the others.

    Frames are byte lists.  Decoding is done by the NetBee library: it is the
    parameter [parse].  [TCP_PATH] is the compile-time switch (0: ARP-Path only,
    1: all connections, 2: large ones only); recovery is off in this
    configuration.  An operation returns [None] when the C code would follow a
    NULL pointer or leave the frame. *)

From S2P Require Import Prelude Memory OpenFlow LinkedList MacTable TcpTable ArpPath.

Definition TCP_TIME := 10.
Definition TCP_SYN := 2.
Definition TCP_ACK := 16.
Definition IP_TYPE_TCP := 6.
Definition IP_TYPE_PATH := 253.
Definition PUERTO_ELEFANTE := 30000.
Definition OFPPS_LIVE := 4.
Definition OFPXMT_OFB_TCP_SRC := 13.
Definition OFPXMT_OFB_TCP_DST := 14.

(** The fields of the TCP and path headers that the handler reads, in memory order. *)
Record tcp_header := TcpHeader { tcp_src : Z; tcp_dst : Z; tcp_ctl : Z }.
Record path_header := PathHeader { path_tcp_src : Z; path_tcp_dst : Z }.

(** What decoding finds; [hd_ip] is the offset of the IPv4 header. *)
Record headers := Headers {
  hd_ip : option nat;
  hd_tcp : option tcp_header;
  hd_path : option path_header;
  hd_repair : bool;
  hd_match : ofl_match }.

Record frame := TFrame { tf_data : list Z; tf_in_port : Z; tf_hd : headers }.

Inductive tcp_out := TOutput (port : Z) (data : list Z) | TDestroy.

Definition TCP_FLAGS (ctl : Z) : Z := Z.land (bswap16 ctl) 0x3f.

Definition eth_dst (data : list Z) : list Z := take 6 data.
Definition eth_src (data : list Z) : list Z := take 6 (drop 6 data).

(** Reading [n] bytes that start [back] bytes from the end. *)
Definition read_back (back n : nat) (data : list Z) : option (list Z) :=
  if (back <=? length data)%nat then Some (take n (drop (length data - back) data)) else None.

(** The real destination, in the trailer. *)
Definition trailer_mac (data : list Z) : option (list Z) := read_back 13 6 data.

Definition dst_mac (f : frame) : option (list Z) :=
  match hd_path (tf_hd f) with
  | Some _ => trailer_mac (tf_data f)
  | None => if hd_repair (tf_hd f) then read_back 38 6 (tf_data f) else Some (eth_dst (tf_data f))
  end.

Definition dst_is_neighbor (mac_port : mac_to_port) (f : frame) : option Z :=
  mac ← dst_mac f; mac_vecino mac_port mac.

Definition Found_date_in_pkt (header busqueda : Z) (f : frame) : Z :=
  match oxm_match_lookup header (hd_match (tf_hd f)) with
  | Some fl => if OXM_FIELD (tlv_header fl) =? busqueda then rd16 (tlv_value fl) else -1
  | None => -1
  end.

Section tcp_path.
  Context (parse : list Z → headers).

Definition reparse (f : frame) (data : list Z) : frame := TFrame data (tf_in_port f) (parse data).

(** The trailer of a new path request. *)
Definition path_trailer (dp_id secuence : Z) (mac_dst : list Z) : list Z :=
  [1] ++ mac_dst ++ le_bytes 2 (u16 (Z.lor (Z.shiftr dp_id 8) (Z.shiftl dp_id 8))) ++
  le_bytes 4 (bswap32 secuence) ++ [1].

Definition encapsulate_path_request_tcp (dp_id secuence : Z) (f : frame) : option (frame * Z) :=
  match hd_path (tf_hd f), hd_tcp (tf_hd f) with
  | None, Some tcp =>
    if (length (tf_data f) <? 93)%nat && (TCP_FLAGS (tcp_ctl tcp) =? TCP_SYN) then
      ip ← hd_ip (tf_hd f);
      let trailer := path_trailer dp_id secuence (eth_dst (tf_data f)) in
      let data := set_bytes 0 (replicate 6 0xff) (tf_data f) in
      let data := set_bytes (ip + 9) [IP_TYPE_PATH] data in
      Some (reparse f (data ++ trailer), u32 (secuence + 1))
    else Some (f, secuence)
  | _, _ => Some (f, secuence)
  end.

(** Two sizes of SYN lose four bytes of their options. *)
Definition nyapa (data : list Z) : list Z :=
  if (length data =? 86)%nat then set_bytes (length data - 10) (replicate 4 0) data
  else if (length data =? 74)%nat then set_bytes (length data - 8) (replicate 4 0) data
  else data.

Definition desencapsulate_path_request_tcp (f : frame) (op : Z) : option frame :=
  _ ← hd_path (tf_hd f);
  data ← (if op =? 1 then mac ← trailer_mac (tf_data f); Some (set_bytes 0 mac (tf_data f)) else Some (tf_data f));
  ip ← hd_ip (tf_hd f);
  let data := set_bytes (ip + 9) [IP_TYPE_TCP] data in
  let data := take (length data - 14) data in
  Some (TFrame (nyapa data) (tf_in_port f) (parse data)).

(** One more hop. *)
Definition switch_track_tcp (f : frame) : option frame :=
  c ← read_back 1 1 (tf_data f);
  let data := take (length (tf_data f) - 1) (tf_data f) ++ [u8 (rd8 c + 1)] in
  Some (reparse f data).

Definition select_packet_tcp_path (now : Z) (tcp_table : table_tcp) (f : frame) :
    option (table_tcp * option frame) :=
  op ← read_back 14 1 (tf_data f);
  f ← desencapsulate_path_request_tcp f (rd8 op);
  tcp ← hd_tcp (tf_hd f);
  let k := (eth_src (tf_data f), eth_dst (tf_data f), tcp_src tcp, tcp_dst tcp) in
  puerto_mac ← table_tcp_found_port_in tcp_table k;
  if puerto_mac =? -1 then Some (table_tcp_add tcp_table now k (tf_in_port f) TCP_TIME, Some f)
  else if puerto_mac =? tf_in_port f then Some (tcp_table, Some f)
  else Some (tcp_table, None).

(** Whether the connection is handled by TCP-Path. *)
Definition entrar_tcp (TCP_PATH : Z) (f : frame) (tcp : tcp_header) : option bool :=
  if TCP_PATH =? 1 then Some true
  else if TCP_PATH =? 2 then
    ip ← hd_ip (tf_hd f);
    tos ← tf_data f !! (ip + 1)%nat;
    Some (if negb (tos =? 0) then true
          else if TCP_FLAGS (tcp_ctl tcp) =? TCP_SYN + TCP_ACK then
            PUERTO_ELEFANTE <? Found_date_in_pkt OXM_OF_TCP_SRC OFPXMT_OFB_TCP_SRC f
          else if TCP_FLAGS (tcp_ctl tcp) =? TCP_SYN then
            PUERTO_ELEFANTE <? Found_date_in_pkt OXM_OF_TCP_DST OFPXMT_OFB_TCP_DST f
          else false)
  else Some false.

Record path_state := PathState {
  ps_mac_port : mac_to_port;
  ps_tcp_table : table_tcp;
  ps_secuence : Z }.

(** How the first half of the handler ends: the frame to send and the port chosen
    for it; or the frame is gone; or it is not for TCP-Path. *)
Inductive path_step := PathSend (f : frame) (puerto_mac : Z) | PathGone | PathOther.

Definition tcp_key_of (f : frame) (tcp : tcp_header) : cmp_table_tcp :=
  (eth_src (tf_data f), eth_dst (tf_data f), tcp_src tcp, tcp_dst tcp).

(** A SYN. *)
Definition tcp_path_syn (dp_id now : Z) (s : path_state) (f : frame) (tcp : tcp_header) :
    option (path_state * path_step) :=
  let k := tcp_key_of f tcp in
  puerto_mac ← table_tcp_found_port_in (ps_tcp_table s) k;
  t ← (if puerto_mac =? -1 then Some (Some (table_tcp_add (ps_tcp_table s) now k (tf_in_port f) TCP_TIME))
       else if puerto_mac =? tf_in_port f then
         '(t, _) ← table_tcp_update_time (ps_tcp_table s) now k TCP_TIME; Some (Some t)
       else Some None);
  match t with
  | None => Some (s, PathGone)
  | Some t =>
    v ← dst_is_neighbor (ps_mac_port s) f;
    if v =? 0 then
      '(f, seq) ← encapsulate_path_request_tcp dp_id (ps_secuence s) f;
      Some (PathState (ps_mac_port s) t seq, PathSend f puerto_mac)
    else
      '(m, puerto_mac) ← mac_to_port_found_port (ps_mac_port s) now (eth_dst (tf_data f));
      Some (PathState m t (ps_secuence s), PathSend f puerto_mac)
  end.

(** A path request. *)
Definition tcp_path_request (now : Z) (s : path_state) (f : frame) (path : path_header) :
    option (path_state * path_step) :=
  mac ← trailer_mac (tf_data f);
  let k := (eth_src (tf_data f), mac, path_tcp_src path, path_tcp_dst path) in
  puerto_mac ← table_tcp_found_port_in (ps_tcp_table s) k;
  if (puerto_mac =? -1) || (puerto_mac =? tf_in_port f) then
    v ← dst_is_neighbor (ps_mac_port s) f;
    if v =? 0 then
      t ← (if puerto_mac =? -1 then Some (table_tcp_add (ps_tcp_table s) now k (tf_in_port f) TCP_TIME)
           else '(t, _) ← table_tcp_update_time (ps_tcp_table s) now k TCP_TIME; Some t);
      f ← switch_track_tcp f;
      Some (PathState (ps_mac_port s) t (ps_secuence s), PathSend f puerto_mac)
    else
      '(t, r) ← select_packet_tcp_path now (ps_tcp_table s) f;
      match r with
      | None => Some (PathState (ps_mac_port s) t (ps_secuence s), PathGone)
      | Some f =>
        '(m, puerto_mac) ← mac_to_port_found_port (ps_mac_port s) now (eth_dst (tf_data f));
        Some (PathState m t (ps_secuence s), PathSend f puerto_mac)
      end
  else Some (s, PathGone).

Definition tcp_path_classify (TCP_PATH dp_id now : Z) (s : path_state) (f : frame) :
    option (path_state * path_step) :=
  match hd_tcp (tf_hd f), hd_path (tf_hd f) with
  | Some tcp, _ =>
    enter ← entrar_tcp TCP_PATH f tcp;
    if negb enter then Some (s, PathOther)
    else if TCP_FLAGS (tcp_ctl tcp) =? TCP_SYN + TCP_ACK then
      '(t, p) ← table_tcp_update_port (ps_tcp_table s) now (tcp_key_of f tcp) (tf_in_port f) TCP_TIME;
      Some (PathState (ps_mac_port s) t (ps_secuence s), PathSend f p)
    else if TCP_FLAGS (tcp_ctl tcp) =? TCP_SYN then tcp_path_syn dp_id now s f tcp
    else
      '(t, p) ← table_tcp_found_port (ps_tcp_table s) (tcp_key_of f tcp);
      Some (PathState (ps_mac_port s) t (ps_secuence s), PathSend f p)
  | None, Some path => tcp_path_request now s f path
  | None, None => Some (s, PathSend f (-1))
  end.

(** The handler; the last component is what it returns (2: try ARP-Path). *)
Definition pipeline_tcp_path (TCP_PATH dp_id now : Z) (port_state : Z → option Z) (s : path_state) (f : frame) :
    option (path_state * list tcp_out * Z) :=
  '(s, step) ← tcp_path_classify TCP_PATH dp_id now s f;
  match step with
  | PathOther => Some (s, [], 2)
  | PathGone => Some (s, [TDestroy], 0)
  | PathSend f puerto_mac =>
    '(m, _) ← mac_to_port_time_refresh (ps_mac_port s) now (eth_src (tf_data f)) LT_TIME;
    if eth_addr_is_broadcast (eth_dst (tf_data f)) || eth_addr_is_multicast (eth_dst (tf_data f)) then
      Some (PathState m (ps_tcp_table s) (ps_secuence s), [TOutput OFPP_RANDOM (tf_data f); TDestroy], 1)
    else if 0 <? puerto_mac then
      state ← port_state puerto_mac;
      if state =? OFPPS_LIVE then
        t ← match hd_tcp (tf_hd f) with
            | Some tcp => '(t, _) ← table_tcp_update_time (ps_tcp_table s) now (inverso (tcp_key_of f tcp)) TCP_TIME; Some t
            | None => Some (ps_tcp_table s)
            end;
        Some (PathState m t (ps_secuence s), [TOutput puerto_mac (tf_data f); TDestroy], 1)
      else Some (PathState m (ps_tcp_table s) (ps_secuence s), [], 1)
    else Some (PathState m (ps_tcp_table s) (ps_secuence s), [], 1)
  end.
End tcp_path.

(** * Byte lemmas *)

Lemma read_back_app back n x y :
  length y = back → read_back back n (x ++ y) = Some (take n y).
Proof.
  intros <-. unfold read_back. rewrite length_app. destruct (Nat.leb_spec (length y) (length x + length y)); [|lia].
  replace (length x + length y - length y)%nat with (length x) by lia. by rewrite drop_app_length.
Qed.

Section path_request.
  Context (parse : list Z → headers).

(** A path request on its way: the body, 13 bytes of trailer that no switch
    changes, and the hop counter. *)
Lemma track_hop f x c :
  tf_data f = x ++ [c] →
  ∃ f', switch_track_tcp parse f = Some f' ∧ tf_data f' = x ++ [u8 (c + 1)] ∧ tf_in_port f' = tf_in_port f ∧
        tf_hd f' = parse (x ++ [u8 (c + 1)]).
Proof.
  intros Hd. unfold switch_track_tcp. rewrite Hd, read_back_app by done. cbn [mbind option_bind].
  eexists. split; [done|]. rewrite length_app. simpl length. replace (length x + 1 - 1)%nat with (length x) by lia.
  rewrite take_app_length. replace (rd8 (take 1 [c])) with c by (unfold rd8; cbn [take le_read]; rewrite Z.shiftl_0_l; lia). done.
Qed.

Fixpoint hops (n : nat) (f : frame) : option frame :=
  match n with O => Some f | S n => f ← switch_track_tcp parse f; hops n f end.

Lemma hops_spec n f x c :
  tf_data f = x ++ [c] → tf_hd f = parse (tf_data f) →
  ∃ f' c', hops n f = Some f' ∧ tf_data f' = x ++ [c'] ∧ tf_hd f' = parse (tf_data f').
Proof.
  revert f c. induction n as [|n IH]; intros f c Hd Hh; cbn [hops]; [by exists f, c|].
  destruct (track_hop f x c Hd) as (f1 & -> & Hd1 & _ & Hh1). cbn [mbind option_bind].
  eapply IH; [exact Hd1|]. by rewrite Hh1, Hd1.
Qed.

Lemma trailer_eq dp_id seq mac :
  ∃ rest, length rest = 6%nat ∧ path_trailer dp_id seq mac = ([1] ++ mac ++ rest) ++ [1].
Proof.
  exists (le_bytes 2 (u16 (Z.lor (Z.shiftr dp_id 8) (Z.shiftl dp_id 8))) ++ le_bytes 4 (bswap32 seq)).
  split; [done|]. unfold path_trailer. by rewrite <- !app_assoc.
Qed.

(** Taking the path header off again undoes what putting it on did to the frame. *)
Lemma restore_body ip data :
  (6 <= ip)%nat → (ip + 9 < length data)%nat → data !! (ip + 9)%nat = Some IP_TYPE_TCP →
  set_bytes (ip + 9) [IP_TYPE_TCP]
    (set_bytes 0 (eth_dst data) (set_bytes (ip + 9) [IP_TYPE_PATH] (set_bytes 0 (replicate 6 0xff) data))) = data.
Proof.
  intros Hip Hlen Hp. assert (length (eth_dst data) = 6%nat) as Hl by (unfold eth_dst; rewrite length_take; lia).
  set (d1 := set_bytes 0 (replicate 6 0xff) data).
  assert (length d1 = length data) as L1 by (apply length_set_bytes; simpl; lia).
  set (d2 := set_bytes (ip + 9) [IP_TYPE_PATH] d1).
  assert (length d2 = length data) as L2 by (unfold d2; rewrite length_set_bytes; [done|cbn [length]; lia]).
  set (d3 := set_bytes 0 (eth_dst data) d2).
  assert (length d3 = length data) as L3 by (unfold d3; rewrite length_set_bytes; [done|rewrite Hl; lia]).
  apply list_eq. intros i. rewrite lookup_set_bytes by (cbn [length]; lia). cbn [length]. case_decide.
  { replace (i - (ip + 9))%nat with 0%nat by lia. replace i with (ip + 9)%nat by lia. by rewrite Hp. }
  unfold d3. rewrite lookup_set_bytes, Hl by lia. case_decide.
  { unfold eth_dst. rewrite lookup_take_lt by lia. f_equal. lia. }
  unfold d2. rewrite lookup_set_bytes by (cbn [length]; lia). rewrite decide_False by (cbn [length]; lia).
  unfold d1. rewrite lookup_set_bytes by (simpl; lia). rewrite decide_False by (simpl; lia). done.
Qed.
End path_request.

(** A path request carries the SYN unharmed.  A SYN of less than 93 bytes is
    turned into a frame to the broadcast address that names the real destination;
    after any number of hops, taking the path header off gives back the SYN, byte
    by byte (except for the four bytes of options that frames of 74 and 86 bytes
    lose), for any decoder that finds the IP header of the request where it was
    and recognises the request as such. *)
Theorem path_request_roundtrip parse dp_id seq f tcp ip n :
  hd_path (tf_hd f) = None → hd_tcp (tf_hd f) = Some tcp → TCP_FLAGS (tcp_ctl tcp) = TCP_SYN →
  (length (tf_data f) < 93)%nat → hd_ip (tf_hd f) = Some ip → (6 <= ip)%nat → (ip + 9 < length (tf_data f))%nat →
  tf_data f !! (ip + 9)%nat = Some IP_TYPE_TCP →
  (∀ data, length data = (length (tf_data f) + 14)%nat → data !! (ip + 9)%nat = Some IP_TYPE_PATH →
     hd_ip (parse data) = Some ip ∧ is_Some (hd_path (parse data))) →
  ∃ f1 f2 f3, encapsulate_path_request_tcp parse dp_id seq f = Some (f1, u32 (seq + 1)) ∧
    eth_addr_is_broadcast (eth_dst (tf_data f1)) = true ∧
    hops parse n f1 = Some f2 ∧ trailer_mac (tf_data f2) = Some (eth_dst (tf_data f)) ∧
    desencapsulate_path_request_tcp parse f2 1 = Some f3 ∧
    tf_data f3 = nyapa (tf_data f) ∧ tf_hd f3 = parse (tf_data f).
Proof.
  intros Hpath Htcp Hflags Hlen Hip Hip6 Hipl Hproto Hparse. set (data := tf_data f) in *.
  assert (length (eth_dst data) = 6%nat) as Hl by (unfold eth_dst; rewrite length_take; lia).
  unfold encapsulate_path_request_tcp. rewrite Hpath, Htcp, Hflags, Hip. fold data.
  rewrite (proj2 (Nat.ltb_lt _ _)) by done. cbn [andb Z.eqb TCP_SYN Pos.eqb mbind option_bind].
  set (body := set_bytes (ip + 9) [IP_TYPE_PATH] (set_bytes 0 (replicate 6 0xff) data)).
  assert (length (set_bytes 0 (replicate 6 0xff) data) = length data) as Hl1 by (apply length_set_bytes; simpl; lia).
  assert (length body = length data) as Hlb by (unfold body; rewrite length_set_bytes; [done|cbn [length]; lia]).
  destruct (trailer_eq dp_id seq (eth_dst data)) as (rest & Hrest & ->).
  destruct (hops_spec parse n (reparse parse f (body ++ ([1] ++ eth_dst data ++ rest) ++ [1]))
    (body ++ [1] ++ eth_dst data ++ rest) 1) as (f2 & c & Hhops & Hd2 & Hh2).
  { cbn [reparse tf_data]. by rewrite <- !app_assoc. }
  { done. }
  assert (trailer_mac (tf_data f2) = Some (eth_dst data)) as Hmac.
  { rewrite Hd2. unfold trailer_mac.
    replace ((body ++ [1] ++ eth_dst data ++ rest) ++ [c]) with ((body ++ [1]) ++ (eth_dst data ++ rest ++ [c]))
      by (by rewrite <- !app_assoc).
    rewrite read_back_app by (rewrite !length_app; simpl; lia). by rewrite <- Hl, take_app_length. }
  assert (body !! (ip + 9)%nat = Some IP_TYPE_PATH) as Hbp.
  { unfold body. rewrite lookup_set_bytes by (cbn [length]; lia). rewrite decide_True by (cbn [length]; lia).
    by replace (ip + 9 - (ip + 9))%nat with 0%nat by lia. }
  destruct (Hparse (tf_data f2)) as [Hip2 [path Hpath2]].
  { rewrite Hd2, !length_app. simpl. lia. }
  { rewrite Hd2, <- app_assoc, lookup_app_l by lia. done. }
  eexists _, f2, _. split; [done|]. split; [|split; [exact Hhops|split; [exact Hmac|]]].
  - cbn [reparse tf_data]. unfold eth_dst. rewrite take_app_le by lia. unfold body.
    assert (take 6 (set_bytes (ip + 9) [IP_TYPE_PATH] (set_bytes 0 (replicate 6 0xff) data)) = replicate 6 0xff) as ->.
    { unfold set_bytes at 1. rewrite take_app_le by (rewrite length_take; lia). rewrite take_take, Nat.min_l by lia. done. }
    done.
  - unfold desencapsulate_path_request_tcp. rewrite Hh2, Hpath2, Hip2. cbn [mbind option_bind Z.eqb Pos.eqb].
    rewrite Hmac. cbn [mbind option_bind]. split; [done|]. cbn [tf_data tf_hd].
    assert (take (length (set_bytes (ip + 9) [IP_TYPE_TCP] (set_bytes 0 (eth_dst data) (tf_data f2))) - 14)
      (set_bytes (ip + 9) [IP_TYPE_TCP] (set_bytes 0 (eth_dst data) (tf_data f2))) = data) as ->; [|done].
    assert (length (set_bytes 0 (eth_dst data) body) = length data) as Hlb2 by (rewrite length_set_bytes; [done|lia]).
    rewrite Hd2, <- (app_assoc body), !set_bytes_app by (cbn [length]; lia).
    unfold body. rewrite restore_body by done. rewrite !length_app. cbn [length].
    replace (length data + _ - 14)%nat with (length data) by (rewrite ?length_app; cbn [length]; lia).
    apply take_app_length.
Qed.

(** A decoder for IPv4 without options directly after Ethernet. *)
Definition ex_parse (data : list Z) : headers :=
  let field off := rd16 (take 2 (drop off data)) in
  Headers (Some 14%nat)
    (if decide (data !! 23%nat = Some IP_TYPE_TCP) then Some (TcpHeader (field 34%nat) (field 36%nat) (field 46%nat)) else None)
    (if decide (data !! 23%nat = Some IP_TYPE_PATH) then Some (PathHeader (field 34%nat) (field 36%nat)) else None)
    false (Match 0 []).

(** A TCP segment of 74 bytes. *)
Definition ex_segment (dst src sport dport flags port : Z) : frame :=
  let data := [0; 0; 0; 0; 0; dst; 0; 0; 0; 0; 0; src; 8; 0] ++ <[9%nat := IP_TYPE_TCP]> (replicate 20 5) ++
    [0; sport; 0; dport] ++ replicate 9 0 ++ [flags] ++ replicate 26 7 in
  TFrame data port (ex_parse data).
Definition ex_syn (dst src port : Z) : frame := ex_segment dst src 9 80 TCP_SYN port.

Lemma path_request_roundtrip_witness :
  ∃ f1 f2 f3, encapsulate_path_request_tcp ex_parse 7 41 (ex_syn 2 1 3) = Some (f1, 42) ∧ hops ex_parse 5 f1 = Some f2 ∧
    desencapsulate_path_request_tcp ex_parse f2 1 = Some f3 ∧ tf_data f3 = nyapa (tf_data (ex_syn 2 1 3)).
Proof.
  destruct (path_request_roundtrip ex_parse 7 41 (ex_syn 2 1 3) (TcpHeader 0x900 0x5000 0x200) 14 5)
    as (f1 & f2 & f3 & H1 & _ & H2 & _ & H3 & H4 & _); try done; [simpl; lia..| |].
  - intros data _ Hp. unfold ex_parse. cbn [hd_ip hd_path]. split; [done|]. rewrite decide_True by done. by eexists.
  - by exists f1, f2, f3.
Defined.

(** * The binding of a connection *)

(** The connections of a table with the ports they came from. *)
Definition bindings (es : list tcp_entry) : list (cmp_table_tcp * Z) := (λ e, (tcp_key e, te_port_in e)) <$> es.

Lemma bindings_update f P es :
  (∀ e, tcp_key (f e) = tcp_key e ∧ te_port_in (f e) = te_port_in e) → bindings (update_spec f P es) = bindings es.
Proof.
  intros Hf. unfold update_spec. destruct (find_first P es) as [[[pre e] post]|] eqn:E; [|done].
  apply find_first_split in E as (-> & _). unfold bindings. rewrite !fmap_app, !fmap_cons. by destruct (Hf e) as [-> ->].
Qed.

Lemma key_bindings es : (bindings es).*1 = tcp_key <$> es.
Proof. unfold bindings. by rewrite <- list_fmap_compose. Qed.

(** Ports read from the tables are 0 or -1 where there is none, and otherwise [E]: ports that exist. *)
Definition none_or (E : Z → Prop) (p : Z) : Prop := 0 < p → E p.
Definition ports_in (E : Z → Prop) (e : tcp_entry) : Prop := none_or E (te_port_in e) ∧ none_or E (te_port_out e).

Lemma update_forall {A} (Q : A → Prop) f P (es : list A) : (∀ e, Q e → Q (f e)) → Forall Q es → Forall Q (update_spec f P es).
Proof.
  intros Hf H. unfold update_spec. destruct (find_first P es) as [[[pre e] post]|] eqn:E; [|done].
  apply find_first_split in E as (-> & _). rewrite !list.Forall_app, !list.Forall_cons in *. naive_solver.
Qed.

Lemma found_forall Q now Mac es : Forall Q es → Forall Q (found_spec now Mac es).1.
Proof.
  intros H. unfold found_spec. destruct (find_first _ es) as [[[pre e] post]|] eqn:E; [|done].
  apply find_first_split in E as (-> & _). cbn [fst]. case_match; [|done]. rewrite !list.Forall_app, !list.Forall_cons, !list.Forall_app in *. tauto.
Qed.

Lemma found_port_in E now Mac es : Forall (λ e, none_or E (me_port_in e)) es → none_or E (found_spec now Mac es).2.
Proof.
  intros H. unfold found_spec. destruct (find_first _ es) as [[[pre e] post]|] eqn:Ef; [|by intros ?].
  apply find_first_split in Ef as (-> & _). rewrite list.Forall_app, list.Forall_cons in H. cbn [snd]. tauto.
Qed.

Lemma found_in_ref t es k :
  tcp_repr t es → NoDup (bindings es).*1 →
  ∃ r, table_tcp_found_port_in t k = Some r ∧
    match decide (k ∈ (bindings es).*1) with left _ => (k, r) ∈ bindings es | right _ => r = -1 end.
Proof.
  intros Hr Hnd. unfold table_tcp_found_port_in.
  destruct (tcp_update_first t es (is_key k) (λ e, e) Hr) as ([[? [[a nd]|]] ?] & -> & Hs); cbn [mbind option_bind].
  - destruct Hs as [(pre & post & E) _]. apply find_first_split in E as (-> & Hk & _).
    unfold is_key in Hk. apply bool_decide_eq_true in Hk. eexists. split; [done|].
    assert ((k, te_port_in (nd_entry nd)) ∈ bindings (pre ++ nd_entry nd :: post)) as Hin.
    { unfold bindings. rewrite fmap_app, fmap_cons, Hk. set_solver. }
    rewrite decide_True; [done|]. apply list_elem_of_fmap. by exists (k, te_port_in (nd_entry nd)).
  - eexists. split; [done|]. apply find_first_none in Hs. rewrite decide_False; [done|].
    rewrite key_bindings. intros (e & -> & He)%list_elem_of_fmap. rewrite list.Forall_forall in Hs.
    specialize (Hs e He). unfold is_key in Hs. by apply bool_decide_eq_false in Hs.
Qed.

Lemma update_time_ref E t es now k time :
  tcp_repr t es → Forall (ports_in E) es →
  ∃ t' r es', table_tcp_update_time t now k time = Some (t', r) ∧ tcp_repr t' es' ∧ bindings es' = bindings es ∧ Forall (ports_in E) es'.
Proof.
  intros Hr HE. unfold table_tcp_update_time.
  destruct (tcp_update_first t es (is_conn k) (λ e, tcp_set_time e (tcp_expiry now time)) Hr)
    as ([[? [[a nd]|]] ?] & -> & Hs); cbn [mbind option_bind].
  - destruct Hs as [_ Hs]. eexists _, _, _. split; [done|]. split; [done|]. split; [by apply bindings_update|by apply update_forall].
  - by eexists _, _, es.
Qed.

(** A SYN+ACK answers with the port of the SYN. *)
Lemma update_port_ref E t es now k port time :
  tcp_repr t es → NoDup (bindings es).*1 → Forall (ports_in E) es → none_or E (u16 port) →
  ∃ t' r es', table_tcp_update_port t now k port time = Some (t', r) ∧ tcp_repr t' es' ∧ bindings es' = bindings es ∧
    Forall (ports_in E) es' ∧ none_or E r ∧
    match decide (inverso k ∈ (bindings es).*1) with left _ => (inverso k, r) ∈ bindings es | right _ => r = 0 end.
Proof.
  intros Hr Hnd HE Hport. unfold table_tcp_update_port.
  destruct (tcp_update_first t es (is_key (inverso k)) (λ e, tcp_set_out e (u16 port) (tcp_expiry now time)) Hr)
    as ([[? [[a nd]|]] ?] & -> & Hs); cbn [mbind option_bind].
  - destruct Hs as [(pre & post & Ef) Hs]. eexists _, _, _. split; [done|]. split; [done|].
    split; [by apply bindings_update|]. split; [apply update_forall; [|done]; by intros e [? _]|].
    apply find_first_split in Ef as (-> & Hk & _). split; [rewrite list.Forall_app, list.Forall_cons in HE; apply HE|].
    unfold is_key in Hk. apply bool_decide_eq_true in Hk.
    assert ((inverso k, te_port_in (nd_entry nd)) ∈ bindings (pre ++ nd_entry nd :: post)) as Hin.
    { unfold bindings. rewrite fmap_app, fmap_cons, Hk. set_solver. }
    rewrite decide_True; [done|]. apply list_elem_of_fmap. by exists (inverso k, te_port_in (nd_entry nd)).
  - eexists _, _, es. split_and!; [done..|by intros ?|]. apply find_first_none in Hs. rewrite decide_False; [done|].
    rewrite key_bindings. intros (e & Hke & He)%list_elem_of_fmap. rewrite list.Forall_forall in Hs.
    specialize (Hs e He). unfold is_key in Hs. by apply bool_decide_eq_false in Hs.
Qed.

Lemma found_ref E t es k :
  tcp_repr t es → Forall (ports_in E) es →
  ∃ t' r es', table_tcp_found_port t k = Some (t', r) ∧ tcp_repr t' es' ∧ bindings es' ≡ₚ bindings es ∧ Forall (ports_in E) es' ∧ none_or E r.
Proof.
  intros Hr HE. destruct (tcp_found_repr t es k Hr) as (t' & es' & -> & Hr' & Hp). eexists _, _, es'.
  split; [done|]. split; [done|]. split; [unfold bindings; by rewrite Hp|]. split; [by rewrite Hp|].
  destruct (find_first _ es) as [[[pre e] post]|] eqn:Ef; [|by intros ?]. apply find_first_split in Ef as (-> & _).
  rewrite list.Forall_app, list.Forall_cons in HE. unfold conn_port. case_match; apply HE.
Qed.

Lemma tcp_bind_ref E t es now k port time :
  tcp_repr t es → Forall (ports_in E) es → none_or E (u16 port) →
  ∃ es', tcp_repr (table_tcp_add t now k port time) es' ∧ bindings es' = (k, u16 port) :: bindings es ∧ Forall (ports_in E) es'.
Proof.
  intros Hr HE Hp. eexists. split; [by apply tcp_add_repr|]. split.
  - unfold bindings. rewrite fmap_cons. f_equal. by destruct k as [[[? ?] ?] ?].
  - apply list.Forall_cons. split; [split; [done|by intros ?]|done].
Qed.

Lemma binding_unique (l : list (cmp_table_tcp * Z)) k p q : NoDup l.*1 → (k, p) ∈ l → (k, q) ∈ l → p = q.
Proof.
  induction l as [|[k' r] l IH]; [set_solver|]. rewrite fmap_cons. intros [Hk Hnd]%list.NoDup_cons.
  assert (∀ x, (k', x) ∈ l → False) as Hno by (intros x Hx; apply Hk, list_elem_of_fmap; by exists (k', x)).
  rewrite !elem_of_cons. intros [Hp|Hp] [Hq|Hq]; simplify_eq; [done|naive_solver|naive_solver|by apply IH].
Qed.

Section bound.
  Context (E : Z → Prop).

(** The table binds exactly the connections [l], and the ports it names exist. *)
Definition bound (t : table_tcp) (l : list (cmp_table_tcp * Z)) : Prop :=
  NoDup l.*1 ∧ Forall (λ b, 0 <= b.2) l ∧ ∃ es, tcp_repr t es ∧ bindings es ≡ₚ l ∧ Forall (ports_in E) es.

Lemma bound_in t l k :
  bound t l → ∃ r, table_tcp_found_port_in t k = Some r ∧ none_or E r ∧ (((k, r) ∈ l ∧ 0 <= r) ∨ (k ∉ l.*1 ∧ r = -1)).
Proof using.
  intros (Hnd & Hpos & es & Hr & Hl & HE). destruct (found_in_ref t es k Hr) as (r & -> & Hd); [by rewrite Hl|].
  exists r. split; [done|]. rewrite list.Forall_forall in Hpos. destruct (decide _) as [Hk|Hk].
  - apply list_elem_of_fmap in Hd as He. destruct He as (e & [= -> ->] & He). rewrite list.Forall_forall in HE.
    split; [by apply HE|]. left. rewrite Hl in Hd. split; [done|by apply (Hpos (_, _) Hd)].
  - subst r. split; [by intros ?|]. right. by rewrite <- Hl.
Qed.

Lemma bound_time t l now k time : bound t l → ∃ t' r, table_tcp_update_time t now k time = Some (t', r) ∧ bound t' l.
Proof using.
  intros (Hnd & Hpos & es & Hr & Hl & HE). destruct (update_time_ref E t es now k time Hr HE) as (t' & r & es' & -> & Hr' & Hb & HE').
  exists t', r. split; [done|]. split; [done|]. split; [done|]. exists es'. by rewrite Hb.
Qed.

Lemma bound_port t l now k port time :
  bound t l → none_or E (u16 port) →
  ∃ t' r, table_tcp_update_port t now k port time = Some (t', r) ∧ bound t' l ∧ none_or E r ∧ ∀ p, (inverso k, p) ∈ l → r = p.
Proof using.
  intros (Hnd & Hpos & es & Hr & Hl & HE) Hport.
  destruct (update_port_ref E t es now k port time Hr) as (t' & r & es' & -> & Hr' & Hb & HE' & Hx & Hd); [by rewrite Hl|done..|].
  exists t', r. split; [done|]. split; [|split; [done|]].
  - split; [done|]. split; [done|]. exists es'. by rewrite Hb.
  - intros p Hp. destruct (decide _) as [Hk|Hk].
    + rewrite Hl in Hd. by apply (binding_unique l (inverso k)).
    + destruct Hk. rewrite Hl. apply list_elem_of_fmap. by exists (inverso k, p).
Qed.

Lemma bound_found t l k : bound t l → ∃ t' r, table_tcp_found_port t k = Some (t', r) ∧ bound t' l ∧ none_or E r.
Proof using.
  intros (Hnd & Hpos & es & Hr & Hl & HE). destruct (found_ref E t es k Hr HE) as (t' & r & es' & -> & Hr' & Hb & HE' & Hx).
  exists t', r. split; [done|]. split; [|done]. split; [done|]. split; [done|]. exists es'. by rewrite Hb.
Qed.

Lemma bound_add t l now k port time :
  bound t l → k ∉ l.*1 → none_or E (u16 port) → bound (table_tcp_add t now k port time) ((k, u16 port) :: l).
Proof using.
  intros (Hnd & Hpos & es & Hr & Hl & HE) Hk Hport. destruct (tcp_bind_ref E t es now k port time Hr HE Hport) as (es' & Hr' & Hb & HE').
  split; [by rewrite fmap_cons; constructor|]. split.
  - constructor; [|done]. cbn [snd]. unfold u16. apply Z.mod_pos_bound. lia.
  - exists es'. by rewrite Hb, Hl.
Qed.
End bound.

(** * The first copy wins *)

(** What decoding gives for frames of the data plane: a TCP segment or a path
    request has an IPv4 header, trailers are within the frame, and a path request
    without its path header is a TCP segment.  The frame came by a port that exists. *)
Record frame_ok (E : Z → Prop) (parse : list Z → headers) (f : frame) : Prop := {
  fo_port : fits 16 (tf_in_port f);
  fo_exists : E (tf_in_port f);
  fo_tcp : is_Some (hd_tcp (tf_hd f)) → ∃ ip, hd_ip (tf_hd f) = Some ip ∧ (ip + 1 < length (tf_data f))%nat;
  fo_path : is_Some (hd_path (tf_hd f)) → is_Some (hd_ip (tf_hd f)) ∧ (14 <= length (tf_data f))%nat;
  fo_repair : hd_repair (tf_hd f) = true → (38 <= length (tf_data f))%nat;
  fo_strip : ∀ op f', desencapsulate_path_request_tcp parse f op = Some f' → is_Some (hd_tcp (tf_hd f')) }.

(** The connection a SYN or a path request asks a path for. *)
Definition request_key (TCP_PATH : Z) (f : frame) : option cmp_table_tcp :=
  match hd_tcp (tf_hd f), hd_path (tf_hd f) with
  | Some tcp, _ =>
    enter ← entrar_tcp TCP_PATH f tcp;
    if enter && (TCP_FLAGS (tcp_ctl tcp) =? TCP_SYN) then Some (tcp_key_of f tcp) else None
  | None, Some path =>
    mac ← trailer_mac (tf_data f); Some (eth_src (tf_data f), mac, path_tcp_src path, path_tcp_dst path)
  | None, None => None
  end.

(** The connection a SYN+ACK answers. *)
Definition reply_key (TCP_PATH : Z) (f : frame) : option cmp_table_tcp :=
  tcp ← hd_tcp (tf_hd f);
  enter ← entrar_tcp TCP_PATH f tcp;
  if enter && (TCP_FLAGS (tcp_ctl tcp) =? TCP_SYN + TCP_ACK) then Some (inverso (tcp_key_of f tcp)) else None.

Section first_copy.
  Context (E : Z → Prop) (parse : list Z → headers).

Lemma read_back_some back n data : (back <= length data)%nat → is_Some (read_back back n data).
Proof. intros H. unfold read_back. rewrite (proj2 (Nat.leb_le _ _)) by done. by eexists. Qed.

Lemma vecino_some m mes Mac : repr true m mes → is_Some (mac_vecino m Mac).
Proof.
  intros Hr. unfold mac_vecino.
  destruct (update_first m mes (mac_is Mac) (λ e, e) Hr) as ([[? ?] ?] & -> & _). by eexists.
Qed.

Lemma neighbor_some f m mes : frame_ok E parse f → repr true m mes → is_Some (dst_is_neighbor m f).
Proof.
  intros Hf Hr. unfold dst_is_neighbor.
  assert (is_Some (dst_mac f)) as [mac Hmac]; [|rewrite Hmac; by apply (vecino_some m mes)].
  unfold dst_mac. destruct (hd_path (tf_hd f)) eqn:Hp.
  - apply read_back_some. destruct (fo_path _ _ _ Hf) as [_ Hl]; [by rewrite Hp|lia].
  - destruct (hd_repair (tf_hd f)) eqn:Hrep; [|by eexists]. apply read_back_some. by apply (fo_repair _ _ _ Hf).
Qed.

Lemma entrar_some TCP_PATH f tcp :
  frame_ok E parse f → hd_tcp (tf_hd f) = Some tcp → is_Some (entrar_tcp TCP_PATH f tcp).
Proof.
  intros Hf Ht. unfold entrar_tcp. destruct (_ =? 1); [by eexists|]. destruct (_ =? 2); [|by eexists].
  destruct (fo_tcp _ _ _ Hf) as (ip & -> & Hl); [by rewrite Ht|]. cbn [mbind option_bind].
  destruct (lookup_lt_is_Some_2 _ _ Hl) as [tos ->]. by eexists.
Qed.

Lemma encapsulate_some dp_id seq f : frame_ok E parse f → is_Some (encapsulate_path_request_tcp parse dp_id seq f).
Proof.
  intros Hf. unfold encapsulate_path_request_tcp. destruct (hd_path _); [by eexists|].
  destruct (hd_tcp (tf_hd f)) as [tcp|] eqn:Ht; [|by eexists]. destruct (_ && _); [|by eexists].
  destruct (fo_tcp _ _ _ Hf) as (ip & -> & _); [by rewrite Ht|]. by eexists.
Qed.

Lemma strip_some f op :
  frame_ok E parse f → is_Some (hd_path (tf_hd f)) →
  ∃ f' tcp, desencapsulate_path_request_tcp parse f op = Some f' ∧ hd_tcp (tf_hd f') = Some tcp ∧ tf_in_port f' = tf_in_port f.
Proof.
  intros Hf Hp. destruct (fo_path _ _ _ Hf Hp) as [[ip Hip] Hl]. destruct Hp as [path Hp].
  assert (is_Some (desencapsulate_path_request_tcp parse f op)) as [f' Hs].
  { unfold desencapsulate_path_request_tcp. rewrite Hp, Hip. cbn [mbind option_bind]. destruct (_ =? 1).
    - destruct (read_back_some 13 6 (tf_data f)) as [mac Hm]; [lia|]. unfold trailer_mac. rewrite Hm. by eexists.
    - by eexists. }
  destruct (fo_strip _ _ _ Hf op f' Hs) as [tcp Ht]. exists f', tcp. split_and!; [done..|].
  unfold desencapsulate_path_request_tcp in Hs. destruct (hd_path _); [|done]. cbn [mbind option_bind] in Hs.
  destruct (if op =? 1 then _ else _) as [data|]; [|done]. cbn [mbind option_bind] in Hs. destruct (hd_ip _); [|done]. by injection Hs as <-.
Qed.

(** A table of addresses that names ports that exist. *)
Definition macs_ok (m : mac_to_port) (mes : list mac_entry) : Prop := repr true m mes ∧ Forall (λ e, none_or E (me_port_in e)) mes.

(** The state of the handler: the tables are well formed, [l] is bound, and the ports in the tables exist. *)
Definition path_ok (s : path_state) (l : list (cmp_table_tcp * Z)) : Prop :=
  bound E (ps_tcp_table s) l ∧ ∃ mes, macs_ok (ps_mac_port s) mes.

(** What the first half of the handler promises about the connections of [l]. *)
Definition step_ok (f : frame) (req rep : option cmp_table_tcp) (nb : option Z) (l l' : list (cmp_table_tcp * Z))
    (step : path_step) : Prop :=
  l ⊆ l' ∧
  (∀ f' q, step = PathSend f' q → none_or E q) ∧
  (∀ k p, req = Some k → (k, p) ∈ l → tf_in_port f ≠ p → step = PathGone) ∧
  (∀ k p, rep = Some k → (k, p) ∈ l → step = PathSend f p) ∧
  (∀ k, req = Some k → k ∉ l.*1 → nb = Some 0 → (k, tf_in_port f) ∈ l').

Lemma key_in k p (l : list (cmp_table_tcp * Z)) : (k, p) ∈ l → k ∈ l.*1.
Proof. intros H. apply list_elem_of_fmap. by exists (k, p). Qed.

(** A request for a connection that is bound (to [r]) or is being bound. *)
Lemma request_bound f k nb l l' r step :
  NoDup l.*1 → l ⊆ l' → (k, r) ∈ l → (∀ f' q, step = PathSend f' q → none_or E q) → (tf_in_port f ≠ r → step = PathGone) →
  step_ok f (Some k) None nb l l' step.
Proof.
  intros Hnd Hl Hr Hx Hg. split_and!; [done..| |done|].
  - intros k' p [= <-] Hp Hin. apply Hg. by rewrite (binding_unique l k r p).
  - intros k' [= <-] Hk. destruct Hk. by eapply key_in.
Qed.

Lemma request_new f k nb l l' step :
  k ∉ l.*1 → l ⊆ l' → (∀ f' q, step = PathSend f' q → none_or E q) → (nb = Some 0 → (k, tf_in_port f) ∈ l') →
  step_ok f (Some k) None nb l l' step.
Proof.
  intros Hk Hl Hx Hb. split_and!; [done..| |done|].
  - intros k' p [= <-] Hp. destruct Hk. by eapply key_in.
  - by intros k' [= <-] _ ?; auto.
Qed.

Lemma found_some m mes now Mac : macs_ok m mes → ∃ m' r mes', mac_to_port_found_port m now Mac = Some (m', r) ∧ macs_ok m' mes' ∧ none_or E r.
Proof.
  intros [Hr HE]. destruct (found_refines m mes now Mac Hr) as (m' & -> & Hr'). eexists _, _, _. split; [done|]. split; [split; [done|by apply found_forall]|].
  by apply found_port_in.
Qed.

Lemma in_port_u16 f : frame_ok E parse f → u16 (tf_in_port f) = tf_in_port f.
Proof. intros Hf. apply wrap_small, Hf. Qed.

Lemma in_port_exists f : frame_ok E parse f → none_or E (u16 (tf_in_port f)).
Proof. intros Hf _. rewrite in_port_u16 by done. apply Hf. Qed.

Lemma sends_port f p : none_or E p → ∀ f' q, PathSend f p = PathSend f' q → none_or E q.
Proof. by intros H f' q [= _ <-]. Qed.

(** After the table has been dealt with, a SYN goes to the neighbour or is flooded. *)
Lemma syn_rest dp_id now s f t l' puerto_mac mes :
  frame_ok E parse f → macs_ok (ps_mac_port s) mes → bound E t l' → none_or E puerto_mac →
  ∃ s' f' p, none_or E p ∧ (v ← dst_is_neighbor (ps_mac_port s) f;
    if v =? 0 then
      '(f, seq) ← encapsulate_path_request_tcp parse dp_id (ps_secuence s) f;
      Some (PathState (ps_mac_port s) t seq, PathSend f puerto_mac)
    else
      '(m, puerto_mac) ← mac_to_port_found_port (ps_mac_port s) now (eth_dst (tf_data f));
      Some (PathState m t (ps_secuence s), PathSend f puerto_mac)) = Some (s', PathSend f' p) ∧ path_ok s' l'.
Proof.
  intros Hf Hm Hb Hp. destruct (neighbor_some f _ mes Hf (proj1 Hm)) as [v ->]. cbn [mbind option_bind]. destruct (v =? 0).
  - destruct (encapsulate_some dp_id (ps_secuence s) f Hf) as [[f' q] ->]. cbn [mbind option_bind].
    eexists _, _, _. split; [exact Hp|]. split; [done|]. split; [done|by exists mes].
  - destruct (found_some (ps_mac_port s) mes now (eth_dst (tf_data f)) Hm) as (m' & r & mes' & -> & Hm' & Hr).
    cbn [mbind option_bind]. eexists _, _, _. split; [exact Hr|]. split; [done|]. split; [done|by exists mes'].
Qed.

Lemma syn_step dp_id now s l f tcp :
  path_ok s l → frame_ok E parse f →
  ∃ s' step l', tcp_path_syn parse dp_id now s f tcp = Some (s', step) ∧ path_ok s' l' ∧
    step_ok f (Some (tcp_key_of f tcp)) None (dst_is_neighbor (ps_mac_port s) f) l l' step.
Proof.
  intros [Hb [mes Hm]] Hf. unfold tcp_path_syn.
  destruct (bound_in E _ l (tcp_key_of f tcp) Hb) as (r & -> & Hx & [[Hr Hpos]|[Hk ->]]); cbn [mbind option_bind].
  - rewrite (proj2 (Z.eqb_neq r (-1))) by lia. destruct (Z.eqb_spec r (tf_in_port f)) as [->|Hne].
    + destruct (bound_time E _ l now (tcp_key_of f tcp) TCP_TIME Hb) as (t' & u & -> & Hb'). cbn [mbind option_bind].
      destruct (syn_rest dp_id now s f t' l (tf_in_port f) mes Hf Hm Hb' Hx) as (s' & f' & p & Hxp & Hs & Hok).
      eexists s', _, l. split; [exact Hs|]. split; [done|].
      apply request_bound with (r := tf_in_port f); [apply Hb|done|done|by apply sends_port|done].
    + cbn [mbind option_bind]. exists s, PathGone, l. split; [done|]. split; [by split; [|exists mes]|].
      by apply request_bound with (r := r); [apply Hb|..].
  - cbn [Z.eqb Pos.eqb mbind option_bind].
    pose proof (bound_add E _ l now (tcp_key_of f tcp) (tf_in_port f) TCP_TIME Hb Hk (in_port_exists f Hf)) as Hb'.
    destruct (syn_rest dp_id now s f _ _ (-1) mes Hf Hm Hb' Hx) as (s' & f' & p & Hxp & Hs & Hok).
    eexists s', _, _. split; [exact Hs|]. split; [done|]. rewrite in_port_u16 by done.
    apply request_new; [done|set_solver|by apply sends_port|set_solver].
Qed.

(** The switch next to the destination takes the path header off. *)
Lemma select_step now t l f :
  bound E t l → frame_ok E parse f → is_Some (hd_path (tf_hd f)) →
  ∃ t' r l', select_packet_tcp_path parse now t f = Some (t', r) ∧ bound E t' l' ∧ l ⊆ l'.
Proof.
  intros Hb Hf Hp. unfold select_packet_tcp_path.
  destruct (read_back_some 14 1 (tf_data f)) as [op ->]; [by apply (fo_path _ _ _ Hf)|]. cbn [mbind option_bind].
  destruct (strip_some f (rd8 op) Hf Hp) as (f' & tcp & -> & Ht & Hin). cbn [mbind option_bind]. rewrite Ht. cbn [mbind option_bind].
  destruct (bound_in E t l (eth_src (tf_data f'), eth_dst (tf_data f'), tcp_src tcp, tcp_dst tcp) Hb)
    as (r & -> & _ & [[Hr Hpos]|[Hk ->]]); cbn [mbind option_bind].
  - rewrite (proj2 (Z.eqb_neq r (-1))) by lia. destruct (_ =? _); by eexists _, _, l.
  - eexists _, _, _. split; [done|]. split; [apply bound_add; [done|done|rewrite Hin; by apply in_port_exists]|set_solver].
Qed.

Lemma track_some f : (1 <= length (tf_data f))%nat → is_Some (switch_track_tcp parse f).
Proof. intros H. unfold switch_track_tcp. destruct (read_back_some 1 1 (tf_data f) H) as [c ->]. by eexists. Qed.

(** The rest of a path request that is the first one or came from the bound port. *)
Lemma request_rest now s f t l l' puerto_mac mes v :
  frame_ok E parse f → is_Some (hd_path (tf_hd f)) → macs_ok (ps_mac_port s) mes → bound E (ps_tcp_table s) l →
  bound E t l' → l ⊆ l' → none_or E puerto_mac →
  ∃ s' step l'', (if v =? 0 then
      f ← switch_track_tcp parse f;
      Some (PathState (ps_mac_port s) t (ps_secuence s), PathSend f puerto_mac)
    else
      '(t, r) ← select_packet_tcp_path parse now (ps_tcp_table s) f;
      match r with
      | None => Some (PathState (ps_mac_port s) t (ps_secuence s), PathGone)
      | Some f =>
        '(m, puerto_mac) ← mac_to_port_found_port (ps_mac_port s) now (eth_dst (tf_data f));
        Some (PathState m t (ps_secuence s), PathSend f puerto_mac)
      end) = Some (s', step) ∧ path_ok s' l'' ∧ l ⊆ l'' ∧ (v = 0 → l'' = l') ∧ ∀ f' q, step = PathSend f' q → none_or E q.
Proof.
  intros Hf Hp Hm Hb Hb' Hl Hx. destruct (Z.eqb_spec v 0) as [->|Hv].
  - destruct (fo_path _ _ _ Hf Hp) as [_ Hlen]. destruct (track_some f) as [f' ->]; [lia|]. cbn [mbind option_bind].
    eexists _, _, l'. split; [done|]. split; [by split; [|exists mes]|]. split_and!; [done|done|by apply sends_port].
  - destruct (select_step now _ l f Hb Hf Hp) as (t' & [f'|] & l2 & -> & Hb2 & Hl2); cbn [mbind option_bind].
    + destruct (found_some (ps_mac_port s) mes now (eth_dst (tf_data f')) Hm) as (m' & r & mes' & -> & Hm' & Hr).
      cbn [mbind option_bind]. eexists _, _, l2. split; [done|]. split; [by split; [|exists mes']|]. split_and!; [done|done|by apply sends_port].
    + eexists _, _, l2. split; [done|]. split; [by split; [|exists mes]|done].
Qed.

Lemma request_step now s l f path mac :
  path_ok s l → frame_ok E parse f → hd_path (tf_hd f) = Some path → trailer_mac (tf_data f) = Some mac →
  ∃ s' step l', tcp_path_request parse now s f path = Some (s', step) ∧ path_ok s' l' ∧
    step_ok f (Some (eth_src (tf_data f), mac, path_tcp_src path, path_tcp_dst path)) None
      (dst_is_neighbor (ps_mac_port s) f) l l' step.
Proof.
  intros [Hb [mes Hm]] Hf Hp Hmac. unfold tcp_path_request. rewrite Hmac. cbn [mbind option_bind].
  set (k := (eth_src (tf_data f), mac, path_tcp_src path, path_tcp_dst path)).
  assert (is_Some (hd_path (tf_hd f))) as Hp' by by rewrite Hp.
  destruct (neighbor_some f _ mes Hf (proj1 Hm)) as [v Hv]. rewrite Hv.
  destruct (bound_in E _ l k Hb) as (r & -> & Hx & [[Hr Hpos]|[Hk ->]]); cbn [mbind option_bind].
  - rewrite (proj2 (Z.eqb_neq r (-1))) by lia. cbn [orb]. destruct (Z.eqb_spec r (tf_in_port f)) as [->|Hne].
    + destruct (bound_time E _ l now k TCP_TIME Hb) as (t' & u & -> & Hb'). cbn [mbind option_bind].
      destruct (request_rest now s f t' l l (tf_in_port f) mes v Hf Hp' Hm Hb Hb') as (s' & step & l2 & Hs & Hok & Hl & _ & Hq); [done|done|].
      exists s', step, l2. split; [exact Hs|]. split; [done|]. by apply request_bound with (r := tf_in_port f); [apply Hb|..].
    + exists s, PathGone, l. split; [done|]. split; [by split; [|exists mes]|].
      by apply request_bound with (r := r); [apply Hb|..].
  - cbn [Z.eqb Pos.eqb orb mbind option_bind].
    pose proof (bound_add E _ l now k (tf_in_port f) TCP_TIME Hb Hk (in_port_exists f Hf)) as Hb'.
    destruct (request_rest now s f _ l _ (-1) mes v Hf Hp' Hm Hb Hb') as (s' & step & l2 & Hs & Hok & Hl & He & Hq); [set_solver|done|].
    exists s', step, l2. split; [exact Hs|]. split; [done|].
    apply request_new; [done|done|done|]. intros [= ->]. rewrite He, in_port_u16 by done. set_solver.
Qed.

Lemma step_ok_none f nb l step : (∀ f' q, step = PathSend f' q → none_or E q) → step_ok f None None nb l l step.
Proof. intros Hx. split_and!; [done|done|by intros ??..]. Qed.

Lemma classify_step TCP_PATH dp_id now s l f :
  path_ok s l → frame_ok E parse f →
  ∃ s' step l', tcp_path_classify parse TCP_PATH dp_id now s f = Some (s', step) ∧ path_ok s' l' ∧
    step_ok f (request_key TCP_PATH f) (reply_key TCP_PATH f) (dst_is_neighbor (ps_mac_port s) f) l l' step.
Proof.
  intros Hok Hf. pose proof Hok as [Hb [mes Hm]]. unfold tcp_path_classify, request_key, reply_key.
  destruct (hd_tcp (tf_hd f)) as [tcp|] eqn:Ht; [|destruct (hd_path (tf_hd f)) as [path|] eqn:Hp]; cbn [mbind option_bind].
  - destruct (entrar_some TCP_PATH f tcp Hf Ht) as [enter ->]. cbn [mbind option_bind].
    destruct enter; cbn [negb andb]; [|exists s, PathOther, l; split_and!; [done..|by apply step_ok_none]].
    destruct (Z.eqb_spec (TCP_FLAGS (tcp_ctl tcp)) (TCP_SYN + TCP_ACK)) as [Hsa|_].
    { destruct (bound_port E _ l now (tcp_key_of f tcp) (tf_in_port f) TCP_TIME Hb (in_port_exists f Hf)) as (t' & r & -> & Hb' & Hx & Hport).
      cbn [mbind option_bind]. rewrite Hsa. eexists _, _, l. split; [done|]. split; [by split; [|exists mes]|].
      split_and!; [done|by apply sends_port|by intros ??| |by intros ??]. intros k p [= <-] Hp. by rewrite (Hport p Hp). }
    destruct (_ =? TCP_SYN); [by apply syn_step|].
    destruct (bound_found E _ l (tcp_key_of f tcp) Hb) as (t' & r & -> & Hb' & Hx). cbn [mbind option_bind].
    eexists _, _, l. split; [done|]. split; [by split; [|exists mes]|by apply step_ok_none, sends_port].
  - destruct (read_back_some 13 6 (tf_data f)) as [mac Hmac]; [destruct (fo_path _ _ _ Hf) as [_ ?]; [by rewrite Hp|lia]|].
    unfold trailer_mac at 1. rewrite Hmac. cbn [mbind option_bind]. by apply request_step.
  - exists s, (PathSend f (-1)), l. split_and!; [done..|]. apply step_ok_none, sends_port. by intros ?.
Qed.

Definition is_unicast (f : frame) : bool :=
  negb (eth_addr_is_broadcast (eth_dst (tf_data f)) || eth_addr_is_multicast (eth_dst (tf_data f))).

(** What the switch promises about one frame once connection [k] is bound to [p]. *)
Definition tcp_obeys (TCP_PATH : Z) (port_state : Z → option Z) (k : cmp_table_tcp) (p : Z) (f : frame)
    (out : list tcp_out) : Prop :=
  (request_key TCP_PATH f = Some k → tf_in_port f ≠ p → out = [TDestroy]) ∧
  (reply_key TCP_PATH f = Some k → is_unicast f = true → 0 < p → port_state p = Some OFPPS_LIVE →
     out = [TOutput p (tf_data f); TDestroy]).

Lemma pipeline_step TCP_PATH dp_id now port_state s l f :
  (∀ p, E p → is_Some (port_state p)) → path_ok s l → frame_ok E parse f →
  ∃ s' out r l', pipeline_tcp_path parse TCP_PATH dp_id now port_state s f = Some (s', out, r) ∧ path_ok s' l' ∧
    l ⊆ l' ∧ (∀ k p, (k, p) ∈ l → tcp_obeys TCP_PATH port_state k p f out) ∧
    (∀ k, request_key TCP_PATH f = Some k → k ∉ l.*1 → dst_is_neighbor (ps_mac_port s) f = Some 0 →
       (k, tf_in_port f) ∈ l').
Proof.
  intros Hports Hok Hf. unfold pipeline_tcp_path.
  destruct (classify_step TCP_PATH dp_id now s l f Hok Hf) as (s1 & step & l' & -> & [Hb [mes [Hm Hme]]] & Hl & Hx & Hreq & Hrep & Hnew).
  cbn [mbind option_bind]. destruct step as [f' q| |].
  - destruct (refresh_ref _ mes now (eth_src (tf_data f')) LT_TIME Hm) as (m & u & -> & Hm'). cbn [mbind option_bind].
    assert (Forall (λ e, none_or E (me_port_in e)) (refresh_spec now (eth_src (tf_data f')) LT_TIME mes)) as Hme'.
    { apply update_forall; [|done]. intros e He. unfold raise_time. by case_match. }
    assert (∀ k p, (k, p) ∈ l → request_key TCP_PATH f = Some k → tf_in_port f ≠ p → False) as Hno
      by (intros k p Hk Hr Hne; by specialize (Hreq k p Hr Hk Hne)).
    assert (∀ k p, (k, p) ∈ l → reply_key TCP_PATH f = Some k → f' = f ∧ q = p) as Hyes
      by (intros k p Hk Hr; by specialize (Hrep k p Hr Hk) as [= -> ->]).
    destruct (_ || _) eqn:Hbc.
    { eexists _, _, _, l'. split; [done|]. split; [by split; [|eexists; split]|]. split_and!; [done| |done]. intros k p Hk.
      split; [by intros; destruct (Hno k p)|]. intros Hr Hu. destruct (Hyes k p Hk Hr) as [-> _].
      unfold is_unicast in Hu. by rewrite Hbc in Hu. }
    destruct (Z.ltb_spec 0 q) as [Hq|Hq].
    2:{ eexists _, _, _, l'. split; [done|]. split; [by split; [|eexists; split]|]. split_and!; [done| |done]. intros k p Hk.
      split; [by intros; destruct (Hno k p)|]. intros Hr _ Hp. destruct (Hyes k p Hk Hr) as [_ ->]. lia. }
    destruct (Hports q (Hx _ _ eq_refl Hq)) as [state Hst]. rewrite Hst. cbn [mbind option_bind]. destruct (Z.eqb_spec state OFPPS_LIVE) as [->|Hd].
    + assert (∃ t, match hd_tcp (tf_hd f') with
          | Some tcp => '(t, _) ← table_tcp_update_time (ps_tcp_table s1) now (inverso (tcp_key_of f' tcp)) TCP_TIME; Some t
          | None => Some (ps_tcp_table s1) end = Some t ∧ bound E t l') as (t & -> & Hbt).
      { destruct (hd_tcp _) as [tcp|]; [|by eexists].
        destruct (bound_time E _ l' now (inverso (tcp_key_of f' tcp)) TCP_TIME Hb) as (t' & w & -> & Hb'). by eexists. }
      cbn [mbind option_bind]. eexists _, _, _, l'. split; [done|]. split; [by split; [|eexists; split]|]. split_and!; [done| |done].
      intros k p Hk. split; [by intros; destruct (Hno k p)|]. intros Hr _ _ _. by destruct (Hyes k p Hk Hr) as [-> ->].
    + eexists _, _, _, l'. split; [done|]. split; [by split; [|eexists; split]|]. split_and!; [done| |done]. intros k p Hk.
      split; [by intros; destruct (Hno k p)|]. intros Hr _ _ Hlive. destruct (Hyes k p Hk Hr) as [_ ->]. congruence.
  - eexists _, _, _, l'. split; [done|]. split; [by split; [|exists mes]|]. split_and!; [done| |done]. intros k p Hk.
    split; [done|]. intros Hr. by specialize (Hrep k p Hr Hk).
  - eexists _, _, _, l'. split; [done|]. split; [by split; [|exists mes]|]. split_and!; [done| |done]. intros k p Hk.
    split; [intros Hr Hne; by specialize (Hreq k p Hr Hk Hne)|intros Hr; by specialize (Hrep k p Hr Hk)].
Qed.

(** A sequence of frames with their times. *)
Fixpoint tcp_run (TCP_PATH dp_id : Z) (port_state : Z → option Z) (s : path_state) (evs : list (Z * frame)) :
    option (path_state * list (list tcp_out)) :=
  match evs with
  | [] => Some (s, [])
  | (now, f) :: evs =>
    '(s, out, _) ← pipeline_tcp_path parse TCP_PATH dp_id now port_state s f;
    '(s, outs) ← tcp_run TCP_PATH dp_id port_state s evs;
    Some (s, out :: outs)
  end.

Lemma run_bound TCP_PATH dp_id port_state s l k p evs :
  (∀ p, E p → is_Some (port_state p)) → path_ok s l → (k, p) ∈ l → Forall (λ ev, frame_ok E parse ev.2) evs →
  ∃ s' outs, tcp_run TCP_PATH dp_id port_state s evs = Some (s', outs) ∧
    Forall2 (λ ev out, tcp_obeys TCP_PATH port_state k p ev.2 out) evs outs.
Proof.
  intros Hports Hok Hk Hev. revert s l Hok Hk. induction Hev as [|[now f] evs Hf _ IH]; intros s l Hok Hk.
  { by exists s, []. }
  cbn [tcp_run]. destruct (pipeline_step TCP_PATH dp_id now port_state s l f Hports Hok Hf)
    as (s1 & out & r & l' & -> & Hok' & Hl & Hobey & _). cbn [mbind option_bind].
  destruct (IH s1 l' Hok') as (s' & outs & -> & Hall); [set_solver|]. cbn [mbind option_bind].
  exists s', (out :: outs). split; [done|]. constructor; [by apply Hobey|done].
Qed.
End first_copy.

(** C4: the first copy of a path request wins.  Let the ports named in the tables, and those
    by which frames come, be ports of the switch (whose state can be read; that of a number no port
    has is behind a null pointer).  When a SYN or a path request asks
    for a connection that is not bound yet, for a host that is not a neighbour, the
    handler returns and binds the connection to the port of that frame.  From then
    on, for any frames in any order that decode as frames of the data plane do ([frame_ok]; until the table is
    aged), the handler always returns, looks up the state of no other ports, destroys every request for the connection that
    comes by another port, and sends the SYN+ACK back by the bound port if that is live. *)
Theorem tcp_path_first_copy_wins parse TCP_PATH dp_id port_state s l now f k evs
    (Hs : path_ok (λ p, is_Some (port_state p)) s l) (Hf : frame_ok (λ p, is_Some (port_state p)) parse f)
    (Hev : Forall (λ ev, frame_ok (λ p, is_Some (port_state p)) parse ev.2) evs)
    (Hreq : request_key TCP_PATH f = Some k) (Hk : k ∉ l.*1) (Hnb : dst_is_neighbor (ps_mac_port s) f = Some 0) :
  ∃ s' out r s'' outs, pipeline_tcp_path parse TCP_PATH dp_id now port_state s f = Some (s', out, r) ∧
    table_tcp_found_port_in (ps_tcp_table s') k = Some (tf_in_port f) ∧
    tcp_run parse TCP_PATH dp_id port_state s' evs = Some (s'', outs) ∧
    Forall2 (λ ev out, tcp_obeys TCP_PATH port_state k (tf_in_port f) ev.2 out) evs outs.
Proof.
  set (E := λ p, is_Some (port_state p)) in *. assert (Hports : ∀ p, E p → is_Some (port_state p)) by done.
  destruct (pipeline_step E parse TCP_PATH dp_id now port_state s l f Hports Hs Hf)
    as (s1 & out & r & l' & E1 & Hok' & _ & _ & Hnew).
  specialize (Hnew k Hreq Hk Hnb). destruct (run_bound E parse TCP_PATH dp_id port_state s1 l' k _ evs Hports Hok' Hnew Hev)
    as (s2 & outs & Hrun & Hall). exists s1, out, r, s2, outs. split_and!; [done| |done..].
  destruct (bound_in E _ l' k (proj1 Hok')) as (q & -> & _ & [[Hq _]|[Hno _]]); [|by destruct Hno; eapply key_in].
  by rewrite (binding_unique l' k q (tf_in_port f) (proj1 (proj1 Hok')) Hq Hnew).
Qed.

Definition ex_state : path_state := PathState mac_to_port_new table_tcp_new 41.


(** The path request for the connection of [ex_syn], on another port. *)
Definition ex_request (port : Z) : frame :=
  let data := set_bytes 23 [IP_TYPE_PATH] (set_bytes 0 (replicate 6 0xff) (tf_data (ex_syn 2 1 port))) ++
    path_trailer 9 1 [0; 0; 0; 0; 0; 2] in
  TFrame data port (ex_parse data).

(** A switch with the ports 1 to 8. *)
Definition ex_ports (p : Z) : option Z := if (1 <=? p) && (p <=? 8) then Some OFPPS_LIVE else None.

Lemma tcp_path_first_copy_witness :
  ∃ s s' out1 out2, tcp_run ex_parse 1 7 ex_ports ex_state [(5, ex_syn 2 1 3)] = Some (s, out1) ∧
    tcp_run ex_parse 1 7 ex_ports s [(6, ex_request 4); (7, ex_segment 1 2 80 9 (TCP_SYN + TCP_ACK) 8)] =
      Some (s', out2) ∧
    out2 = [[TDestroy]; [TOutput 3 (tf_data (ex_segment 1 2 80 9 (TCP_SYN + TCP_ACK) 8)); TDestroy]].
Proof.
  destruct (tcp_path_first_copy_wins ex_parse 1 7 ex_ports ex_state [] 5 (ex_syn 2 1 3)
    ([0; 0; 0; 0; 0; 1], [0; 0; 0; 0; 0; 2], 0x900, 0x5000)
    [(6, ex_request 4); (7, ex_segment 1 2 80 9 (TCP_SYN + TCP_ACK) 8)])
    as (s' & out & r & s'' & outs & Hs & _ & Hrun & Hall).
  - split; [|exists []; split; [apply mac_new_repr|done]]. split; [apply NoDup_nil_2|]. split; [done|]. exists [].
    split_and!; [apply table_tcp_new_repr|done..].
  - split; [done|by eexists|intros _; exists 14%nat; split; [done|simpl; lia]|by intros [? ?]|done|done].
  - constructor; [|constructor; [|done]]; split; try done.
    + by intros [? ?].
    + intros _. split; [by eexists|simpl; lia].
    + intros op f'. unfold desencapsulate_path_request_tcp. destruct (op =? 1); intros [= <-]; vm_compute; by eexists.
    + intros _; exists 14%nat; split; [done|simpl; lia].
    + by intros [? ?].
  - done.
  - apply not_elem_of_nil.
  - done.
  - exists s', s'', [out], outs. split; [by cbn [tcp_run]; rewrite Hs|]. split; [exact Hrun|].
    inversion Hall as [|? o1 ? ? [H1 _] Hall1]; subst. inversion Hall1 as [|? o2 ? ? [_ H2] Hall2]; subst.
    inversion Hall2; subst. rewrite H1, H2; try done.
Defined.
