(* ===== verification/FlowTable.v ===== *)
(** Flow entries and flow tables: udatapath/flow_entry.c and
    udatapath/flow_table.c.

    Entries live on a heap shared by all tables ([dp_flows], from pointers to
    entries); a table has three lists of pointers: the entries in order of
    priority, those with a hard timeout in order of their deadline, and those with
    an idle timeout.  Entries and the groups and meters they use refer to each
    other, so the operations act on a [datapath] that holds the group and the
    meter table as well.  The flow removed messages sent are appended to
    [dp_sent].  An operation returns [None] when the C code would follow a
    pointer to a freed entry, or would leave two entries as owners of one array of
    instructions ([modify_loop]).  An entry is the only owner of its match and its
    instructions, so that freeing it frees them with it. *)

From S2P Require Import Prelude OpenFlow MatchStd Buffers Group Meter.

Definition FLOW_TABLE_MAX_ENTRIES := 4096.
Definition OFPFF_SEND_FLOW_REM := 1.
Definition OFPFF_CHECK_OVERLAP := 2.
Definition OFPFF_RESET_COUNTS := 4.
Definition OFPFF_NO_PKT_COUNTS := 8.
Definition OFPFF_NO_BYT_COUNTS := 16.
Definition OFPRR_IDLE_TIMEOUT := 0.
Definition OFPRR_HARD_TIMEOUT := 1.
Definition OFPRR_DELETE := 2.
Definition OFPRR_GROUP_DELETE := 3.
Definition OFPRR_METER_DELETE := 4.

Inductive flow_mod_command :=
  | OFPFC_ADD | OFPFC_MODIFY | OFPFC_MODIFY_STRICT | OFPFC_DELETE | OFPFC_DELETE_STRICT
  | OFPFC_other (command : Z).

Record ofl_msg_flow_mod := FlowMod {
  fm_cookie : Z;
  fm_cookie_mask : Z;
  fm_table_id : Z;
  fm_command : flow_mod_command;
  fm_idle_timeout : Z;
  fm_hard_timeout : Z;
  fm_priority : Z;
  fm_buffer_id : Z;
  fm_out_port : Z;
  fm_out_group : Z;
  fm_flags : Z;
  fm_match : ofl_match;
  fm_instructions : list ofl_instruction }.

(** [struct flow_entry] with its statistics. *)
Record flow_entry := FlowEntry {
  fe_table_id : Z;
  fe_priority : Z;
  fe_idle_timeout : Z;
  fe_hard_timeout : Z;
  fe_flags : Z;
  fe_cookie : Z;
  fe_no_pkt_count : bool;
  fe_no_byt_count : bool;
  fe_packet_count : Z;
  fe_byte_count : Z;
  fe_match : ofl_match;
  fe_instructions : list ofl_instruction;
  fe_created : Z;
  fe_remove_at : Z;
  fe_last_used : Z;
  fe_send_removed : bool;
  fe_group_refs : list Z;
  fe_meter_refs : list Z }.

Record flow_table := FlowTable {
  match_entries : list positive;
  hard_entries : list positive;
  idle_entries : list positive;
  active_count : Z;
  lookup_count : Z;
  matched_count : Z }.

Record datapath := Datapath {
  dp_flows : gmap positive flow_entry;
  dp_groups : group_table;
  dp_meters : meter_table;
  dp_sent : list (flow_entry * Z) }.

Definition set_flows (dp : datapath) (flows : gmap positive flow_entry) : datapath :=
  Datapath flows (dp_groups dp) (dp_meters dp) (dp_sent dp).
Definition set_groups (dp : datapath) (groups : gmap Z group_entry) : datapath :=
  Datapath (dp_flows dp) (GroupTable groups (gt_entries_num (dp_groups dp)) (gt_buckets_num (dp_groups dp)))
    (dp_meters dp) (dp_sent dp).
Definition set_meters (dp : datapath) (meters : gmap Z meter_entry) : datapath :=
  Datapath (dp_flows dp) (dp_groups dp)
    (MeterTable meters (mt_entries_num (dp_meters dp)) (mt_bands_num (dp_meters dp))) (dp_sent dp).

(** * Entries *)

Definition actions_of (i : ofl_instruction) : list ofl_action :=
  match i with InstApplyActions l | InstWriteActions l => l | _ => [] end.

Definition flow_entry_has_out_port (entry : flow_entry) (port : Z) : bool :=
  existsb (λ i, dp_actions_list_has_out_port (actions_of i) port) (fe_instructions entry).

Definition flow_entry_has_out_group (entry : flow_entry) (group : Z) : bool :=
  existsb (λ i, dp_actions_list_has_out_group (actions_of i) group) (fe_instructions entry).

Definition flow_entry_matches (entry : flow_entry) (mod_ : ofl_msg_flow_mod) (strict check_cookie : bool) : bool :=
  if check_cookie &&
     negb (Z.land (fe_cookie entry) (fm_cookie_mask mod_) =? Z.land (fm_cookie mod_) (fm_cookie_mask mod_))
  then false
  else if strict then (fe_priority entry =? fm_priority mod_) && match_std_strict (fm_match mod_) (fe_match entry)
  else match_std_nonstrict (fm_match mod_) (fe_match entry).

Definition out_filter (entry : flow_entry) (out_port out_group : Z) : bool :=
  ((out_port =? OFPP_ANY) || flow_entry_has_out_port entry out_port) &&
  ((out_group =? OFPG_ANY) || flow_entry_has_out_group entry out_group).

Definition flow_entry_overlaps (entry : flow_entry) (mod_ : ofl_msg_flow_mod) : bool :=
  (fe_priority entry =? fm_priority mod_) && out_filter entry (fm_out_port mod_) (fm_out_group mod_) &&
  match_std_overlap (fe_match entry) (fm_match mod_).

(** The groups and the meters the instructions name, each once, in order. *)
Definition add_ref (refs : list Z) (id : Z) : list Z :=
  if bool_decide (id ∈ refs) then refs else refs ++ [id].

Definition collect_group_refs (refs : list Z) (insts : list ofl_instruction) : list Z :=
  foldl (λ refs a, match a with ActGroup g => add_ref refs g | _ => refs end) refs (insts ≫= actions_of).

Definition collect_meter_refs (refs : list Z) (insts : list ofl_instruction) : list Z :=
  foldl (λ refs i, match i with InstMeter m => add_ref refs m | _ => refs end) refs insts.

Definition set_group_refs (e : flow_entry) (refs : list Z) : flow_entry :=
  FlowEntry (fe_table_id e) (fe_priority e) (fe_idle_timeout e) (fe_hard_timeout e) (fe_flags e) (fe_cookie e)
    (fe_no_pkt_count e) (fe_no_byt_count e) (fe_packet_count e) (fe_byte_count e) (fe_match e) (fe_instructions e)
    (fe_created e) (fe_remove_at e) (fe_last_used e) (fe_send_removed e) refs (fe_meter_refs e).
Definition set_meter_refs (e : flow_entry) (refs : list Z) : flow_entry :=
  FlowEntry (fe_table_id e) (fe_priority e) (fe_idle_timeout e) (fe_hard_timeout e) (fe_flags e) (fe_cookie e)
    (fe_no_pkt_count e) (fe_no_byt_count e) (fe_packet_count e) (fe_byte_count e) (fe_match e) (fe_instructions e)
    (fe_created e) (fe_remove_at e) (fe_last_used e) (fe_send_removed e) (fe_group_refs e) refs.
Definition set_instructions (e : flow_entry) (insts : list ofl_instruction) : flow_entry :=
  FlowEntry (fe_table_id e) (fe_priority e) (fe_idle_timeout e) (fe_hard_timeout e) (fe_flags e) (fe_cookie e)
    (fe_no_pkt_count e) (fe_no_byt_count e) (fe_packet_count e) (fe_byte_count e) (fe_match e) insts
    (fe_created e) (fe_remove_at e) (fe_last_used e) (fe_send_removed e) (fe_group_refs e) (fe_meter_refs e).
Definition set_counts (e : flow_entry) (packets bytes last_used : Z) : flow_entry :=
  FlowEntry (fe_table_id e) (fe_priority e) (fe_idle_timeout e) (fe_hard_timeout e) (fe_flags e) (fe_cookie e)
    (fe_no_pkt_count e) (fe_no_byt_count e) packets bytes (fe_match e) (fe_instructions e)
    (fe_created e) (fe_remove_at e) last_used (fe_send_removed e) (fe_group_refs e) (fe_meter_refs e).

(** Groups that do not exist are passed over with a warning. *)
Definition init_group_refs (dp : datapath) (p : positive) (entry : flow_entry) : datapath * flow_entry :=
  let entry := set_group_refs entry (collect_group_refs (fe_group_refs entry) (fe_instructions entry)) in
  let groups := foldl (λ gs g, alter (λ ge, group_entry_add_flow_ref ge p) g gs)
                  (gt_entries (dp_groups dp)) (fe_group_refs entry) in
  (set_groups dp groups, entry).

Definition del_group_refs (dp : datapath) (p : positive) (entry : flow_entry) : datapath * flow_entry :=
  let groups := foldl (λ gs g, alter (λ ge, group_entry_del_flow_ref ge p) g gs)
                  (gt_entries (dp_groups dp)) (fe_group_refs entry) in
  (set_groups dp groups, set_group_refs entry []).

Definition init_meter_refs (dp : datapath) (p : positive) (entry : flow_entry) : datapath * flow_entry :=
  let entry := set_meter_refs entry (collect_meter_refs (fe_meter_refs entry) (fe_instructions entry)) in
  let meters := foldl (λ ms m, alter (λ me, meter_entry_add_flow_ref me p) m ms)
                  (mt_entries (dp_meters dp)) (fe_meter_refs entry) in
  (set_meters dp meters, entry).

Definition del_meter_refs (dp : datapath) (p : positive) (entry : flow_entry) : datapath * flow_entry :=
  let meters := foldl (λ ms m, alter (λ me, meter_entry_del_flow_ref me p) m ms)
                  (mt_entries (dp_meters dp)) (fe_meter_refs entry) in
  (set_meters dp meters, set_meter_refs entry []).

(** The old array is freed, and [insts] is the entry's own from here on ([modify_loop]). *)
Definition flow_entry_replace_instructions (dp : datapath) (p : positive) (entry : flow_entry)
    (insts : list ofl_instruction) : datapath * flow_entry :=
  let '(dp, entry) := del_group_refs dp p entry in
  init_group_refs dp p (set_instructions entry insts).

Definition flow_entry_modify_stats (entry : flow_entry) (mod_ : ofl_msg_flow_mod) : flow_entry :=
  if truthy (Z.land (fm_flags mod_) OFPFF_RESET_COUNTS) then
    set_counts entry (if fe_no_pkt_count entry then fe_packet_count entry else 0)
      (if fe_no_byt_count entry then fe_byte_count entry else 0) (fe_last_used entry)
  else entry.

Definition new_flow_entry (now : Z) (mod_ : ofl_msg_flow_mod) : flow_entry :=
  let no_pkt := truthy (Z.land (fm_flags mod_) OFPFF_NO_PKT_COUNTS) in
  let no_byt := truthy (Z.land (fm_flags mod_) OFPFF_NO_BYT_COUNTS) in
  FlowEntry (fm_table_id mod_) (fm_priority mod_) (fm_idle_timeout mod_) (fm_hard_timeout mod_) (fm_flags mod_)
    (fm_cookie mod_) no_pkt no_byt
    (if no_pkt then 0xffffffffffffffff else 0) (if no_byt then 0xffffffffffffffff else 0)
    (fm_match mod_) (fm_instructions mod_) now
    (if fm_hard_timeout mod_ =? 0 then 0 else u64 (now + fm_hard_timeout mod_ * 1000)) now
    (truthy (Z.land (fm_flags mod_) OFPFF_SEND_FLOW_REM)) [] [].

(** The entry is allocated at an address no other entry has. *)
Definition flow_entry_create (now : Z) (dp : datapath) (mod_ : ofl_msg_flow_mod) : datapath * positive :=
  let p := fresh (dom (dp_flows dp)) in
  let entry := new_flow_entry now mod_ in
  let '(dp, entry) := init_group_refs dp p entry in
  let '(dp, entry) := init_meter_refs dp p entry in
  (set_flows dp (<[p := entry]> (dp_flows dp)), p).

(** The match and the instructions have no other owner and go with the entry. *)
Definition flow_entry_destroy (dp : datapath) (p : positive) (entry : flow_entry) : datapath :=
  let '(dp, entry) := del_group_refs dp p entry in
  let '(dp, entry) := del_meter_refs dp p entry in
  set_flows dp (delete p (dp_flows dp)).

Definition list_remove (p : positive) (l : list positive) : list positive := filter (λ q, q ≠ p) l.

Definition flow_entry_remove (dp : datapath) (table : flow_table) (p : positive) (entry : flow_entry) (reason : Z) :
    datapath * flow_table :=
  let dp := if fe_send_removed entry
            then Datapath (dp_flows dp) (dp_groups dp) (dp_meters dp) (dp_sent dp ++ [(entry, reason)]) else dp in
  let table := FlowTable (list_remove p (match_entries table)) (list_remove p (hard_entries table))
                 (list_remove p (idle_entries table)) (u32 (active_count table - 1)) (lookup_count table)
                 (matched_count table) in
  (flow_entry_destroy dp p entry, table).

Definition idle_expired (now : Z) (entry : flow_entry) : bool :=
  negb (fe_idle_timeout entry =? 0) && (u64 (fe_last_used entry + fe_idle_timeout entry * 1000) <? now).

Definition hard_expired (now : Z) (entry : flow_entry) : bool :=
  negb (fe_remove_at entry =? 0) && (fe_remove_at entry <? now).

Definition flow_entry_idle_timeout (now : Z) (dp : datapath) (table : flow_table) (p : positive) (entry : flow_entry) :
    datapath * flow_table * bool :=
  if idle_expired now entry then (flow_entry_remove dp table p entry OFPRR_IDLE_TIMEOUT, true) else (dp, table, false).

Definition flow_entry_hard_timeout (now : Z) (dp : datapath) (table : flow_table) (p : positive) (entry : flow_entry) :
    datapath * flow_table * bool :=
  if hard_expired now entry then (flow_entry_remove dp table p entry OFPRR_HARD_TIMEOUT, true) else (dp, table, false).

(** * Tables *)

Definition flow_table_create : flow_table := FlowTable [] [] [] 0 0 0.

(** Before the first entry with a later deadline. *)
Fixpoint insert_hard (flows : gmap positive flow_entry) (p : positive) (remove_at : Z) (l : list positive) :
    option (list positive) :=
  match l with
  | [] => Some [p]
  | q :: l =>
    match flows !! q with
    | None => None
    | Some e => if remove_at <? fe_remove_at e then Some (p :: q :: l)
                else cons q <$> insert_hard flows p remove_at l
    end
  end.

Definition add_to_timeout_lists (flows : gmap positive flow_entry) (table : flow_table) (p : positive)
    (entry : flow_entry) : option flow_table :=
  let idle := if 0 <? fe_idle_timeout entry then idle_entries table ++ [p] else idle_entries table in
  hard ← (if 0 <? fe_remove_at entry then insert_hard flows p (fe_remove_at entry) (hard_entries table)
          else Some (hard_entries table));
  Some (FlowTable (match_entries table) hard idle (active_count table) (lookup_count table) (matched_count table)).

(** How the scan of [flow_table_add] ends: an entry overlaps, an entry is equal
    and is replaced, or the place for the new entry is found. *)
Inductive add_place := AddOverlap | AddReplace (before : list positive) (p : positive) (after : list positive)
  | AddInsert (before after : list positive).

Fixpoint add_scan (flows : gmap positive flow_entry) (mod_ : ofl_msg_flow_mod) (check_overlap : bool)
    (before l : list positive) : option add_place :=
  match l with
  | [] => Some (AddInsert before [])
  | q :: l =>
    match flows !! q with
    | None => None
    | Some entry =>
      if check_overlap && flow_entry_overlaps entry mod_ then Some AddOverlap
      else if flow_entry_matches entry mod_ true false then Some (AddReplace before q l)
      else if fe_priority entry <? fm_priority mod_ then Some (AddInsert before (q :: l))
      else add_scan flows mod_ check_overlap (before ++ [q]) l
    end
  end.

Definition flow_table_add (now : Z) (dp : datapath) (table : flow_table) (mod_ : ofl_msg_flow_mod)
    (check_overlap : bool) : option (datapath * flow_table * Z) :=
  place ← add_scan (dp_flows dp) mod_ check_overlap [] (match_entries table);
  match place with
  | AddOverlap => Some (dp, table, ofl_error OFPET_FLOW_MOD_FAILED 3)
  | AddReplace before q after =>
    let '(dp, p) := flow_entry_create now dp mod_ in
    old ← dp_flows dp !! q;
    let table := FlowTable (before ++ p :: after) (list_remove q (hard_entries table))
                   (list_remove q (idle_entries table)) (active_count table) (lookup_count table)
                   (matched_count table) in
    let dp := flow_entry_destroy dp q old in
    new_entry ← dp_flows dp !! p;
    table ← add_to_timeout_lists (dp_flows dp) table p new_entry;
    Some (dp, table, 0)
  | AddInsert before after =>
    if active_count table =? FLOW_TABLE_MAX_ENTRIES then Some (dp, table, ofl_error OFPET_FLOW_MOD_FAILED 1)
    else
      let '(dp, p) := flow_entry_create now dp mod_ in
      let table := FlowTable (before ++ p :: after) (hard_entries table) (idle_entries table)
                     (u32 (active_count table + 1)) (lookup_count table) (matched_count table) in
      new_entry ← dp_flows dp !! p;
      table ← add_to_timeout_lists (dp_flows dp) table p new_entry;
      Some (dp, table, 0)
  end.

(** Goes through [l]; [insts_kept] tells whether an entry has taken the message's array
    of instructions.  The code hands the same array to every entry that is selected, and
    frees an entry's array with the entry (and when it is replaced): from the second
    selected entry on two entries own one array, which will be freed twice, and the model
    ends there with [None].  So the array of an entry of the model is that entry's own, and
    keeping it in the entry by value loses nothing. *)
Fixpoint modify_loop (dp : datapath) (mod_ : ofl_msg_flow_mod) (strict insts_kept : bool) (l : list positive) :
    option datapath :=
  match l with
  | [] => Some dp
  | p :: l =>
    match dp_flows dp !! p with
    | None => None
    | Some entry =>
      if flow_entry_matches entry mod_ strict true then
        if insts_kept then None else
        let '(dp, entry) := flow_entry_replace_instructions dp p entry (fm_instructions mod_) in
        modify_loop (set_flows dp (<[p := flow_entry_modify_stats entry mod_]> (dp_flows dp))) mod_ strict true l
      else modify_loop dp mod_ strict insts_kept l
    end
  end.

Definition flow_table_modify (dp : datapath) (table : flow_table) (mod_ : ofl_msg_flow_mod) (strict : bool) :
    option (datapath * flow_table * Z) :=
  dp ← modify_loop dp mod_ strict false (match_entries table); Some (dp, table, 0).

(** The condition under which a flow_mod delete removes an entry. *)
Definition delete_selects (mod_ : ofl_msg_flow_mod) (strict : bool) (entry : flow_entry) : bool :=
  out_filter entry (fm_out_port mod_) (fm_out_group mod_) && flow_entry_matches entry mod_ strict true.

(** Goes through [l], removing the entries that [sel] selects. *)
Fixpoint remove_loop (sel : flow_entry → bool) (reason : Z) (dp : datapath) (table : flow_table) (l : list positive) :
    option (datapath * flow_table) :=
  match l with
  | [] => Some (dp, table)
  | p :: l =>
    match dp_flows dp !! p with
    | None => None
    | Some entry =>
      if sel entry then let '(dp, table) := flow_entry_remove dp table p entry reason in
                        remove_loop sel reason dp table l
      else remove_loop sel reason dp table l
    end
  end.

Definition flow_table_delete (dp : datapath) (table : flow_table) (mod_ : ofl_msg_flow_mod) (strict : bool) :
    option (datapath * flow_table * Z) :=
  r ← remove_loop (delete_selects mod_ strict) OFPRR_DELETE dp table (match_entries table); Some (r, 0).

Definition flow_table_flow_mod (now : Z) (dp : datapath) (table : flow_table) (mod_ : ofl_msg_flow_mod) :
    option (datapath * flow_table * Z) :=
  match fm_command mod_ with
  | OFPFC_ADD => flow_table_add now dp table mod_ (truthy (Z.land (fm_flags mod_) OFPFF_CHECK_OVERLAP))
  | OFPFC_MODIFY => flow_table_modify dp table mod_ false
  | OFPFC_MODIFY_STRICT => flow_table_modify dp table mod_ true
  | OFPFC_DELETE => flow_table_delete dp table mod_ false
  | OFPFC_DELETE_STRICT => flow_table_delete dp table mod_ true
  | OFPFC_other _ => Some (dp, table, ofl_error OFPET_FLOW_MOD_FAILED 6)
  end.

(** Stops at the first entry that has not expired. *)
Fixpoint hard_timeout_loop (now : Z) (dp : datapath) (table : flow_table) (l : list positive) :
    option (datapath * flow_table) :=
  match l with
  | [] => Some (dp, table)
  | p :: l =>
    match dp_flows dp !! p with
    | None => None
    | Some entry =>
      let '(dp, table, timeout) := flow_entry_hard_timeout now dp table p entry in
      if timeout then hard_timeout_loop now dp table l else Some (dp, table)
    end
  end.

Fixpoint idle_timeout_loop (now : Z) (dp : datapath) (table : flow_table) (l : list positive) :
    option (datapath * flow_table) :=
  match l with
  | [] => Some (dp, table)
  | p :: l =>
    match dp_flows dp !! p with
    | None => None
    | Some entry =>
      let '(dp, table, _) := flow_entry_idle_timeout now dp table p entry in
      idle_timeout_loop now dp table l
    end
  end.

Definition flow_table_timeout (now : Z) (dp : datapath) (table : flow_table) : option (datapath * flow_table) :=
  r ← hard_timeout_loop now dp table (hard_entries table);
  idle_timeout_loop now r.1 r.2 (idle_entries r.2).

Section lookup.
  Context (parse : list Z → option (ofl_match * protocols_std)).

(** The first entry whose match the packet satisfies; matching may decode the
    packet's headers. *)
Fixpoint lookup_scan (flows : gmap positive flow_entry) (data : list Z) (in_port : Z) (h : packet_handle_std)
    (l : list positive) : option (packet_handle_std * option (positive * flow_entry)) :=
  match l with
  | [] => Some (h, None)
  | p :: l =>
    match flows !! p with
    | None => None
    | Some entry =>
      let '(h, ok) := packet_handle_std_match parse data in_port h (fe_match entry) in
      if ok then Some (h, Some (p, entry)) else lookup_scan flows data in_port h l
    end
  end.

Definition count_packet (now size : Z) (e : flow_entry) : flow_entry :=
  set_counts e (if fe_no_pkt_count e then fe_packet_count e else u64 (fe_packet_count e + 1))
    (if fe_no_byt_count e then fe_byte_count e else u64 (fe_byte_count e + size)) now.

Definition flow_table_lookup (now : Z) (dp : datapath) (table : flow_table) (data : list Z) (in_port : Z)
    (h : packet_handle_std) : option (datapath * flow_table * packet_handle_std * option positive) :=
  let table := FlowTable (match_entries table) (hard_entries table) (idle_entries table) (active_count table)
                 (u64 (lookup_count table + 1)) (matched_count table) in
  '(h, found) ← lookup_scan (dp_flows dp) data in_port h (match_entries table);
  match found with
  | None => Some (dp, table, h, None)
  | Some (p, entry) =>
    let dp := set_flows dp (<[p := count_packet now (Z.of_nat (length data)) entry]> (dp_flows dp)) in
    let table := FlowTable (match_entries table) (hard_entries table) (idle_entries table) (active_count table)
                   (lookup_count table) (u64 (matched_count table + 1)) in
    Some (dp, table, h, Some p)
  end.
End lookup.

(** [flow_table_aggregate_stats]: packets, bytes and flows. *)
Fixpoint flow_table_aggregate_stats (flows : gmap positive flow_entry) (out_port out_group : Z)
    (l : list positive) (acc : Z * Z * Z) : option (Z * Z * Z) :=
  match l with
  | [] => Some acc
  | p :: l =>
    match flows !! p with
    | None => None
    | Some e =>
      let '(packets, bytes, count) := acc in
      flow_table_aggregate_stats flows out_port out_group l
        (if out_filter e out_port out_group then
           (if fe_no_pkt_count e then packets else u64 (packets + fe_packet_count e),
            if fe_no_byt_count e then bytes else u64 (bytes + fe_byte_count e),
            u32 (count + 1))
         else acc)
    end
  end.

(** * The table invariant *)

Definition fld (f : flow_entry → Z) (flows : gmap positive flow_entry) (p : positive) : Z :=
  match flows !! p with Some e => f e | None => 0 end.

Definition by_priority (flows : gmap positive flow_entry) (p q : positive) : Prop :=
  fld fe_priority flows q <= fld fe_priority flows p.
Definition by_deadline (flows : gmap positive flow_entry) (p q : positive) : Prop :=
  fld fe_remove_at flows p <= fld fe_remove_at flows q.

Record table_ok (flows : gmap positive flow_entry) (t : flow_table) : Prop := {
  to_nodup : NoDup (match_entries t);
  to_live : ∀ p, p ∈ match_entries t → is_Some (flows !! p);
  to_sorted : StronglySorted (by_priority flows) (match_entries t);
  to_count : active_count t = Z.of_nat (length (match_entries t));
  to_max : active_count t <= FLOW_TABLE_MAX_ENTRIES;
  to_hard_nodup : NoDup (hard_entries t);
  to_hard : ∀ p, p ∈ hard_entries t ↔ p ∈ match_entries t ∧ 0 < fld fe_remove_at flows p;
  to_hard_sorted : StronglySorted (by_deadline flows) (hard_entries t);
  to_idle_nodup : NoDup (idle_entries t);
  to_idle : ∀ p, p ∈ idle_entries t ↔ p ∈ match_entries t ∧ 0 < fld fe_idle_timeout flows p }.

(** ** Lemmas on sorted lists *)

Section sorted.
  Context {A : Type} (R : A → A → Prop).

Lemma ssorted_app l k :
  StronglySorted R (l ++ k) ↔ StronglySorted R l ∧ StronglySorted R k ∧ ∀ x y, x ∈ l → y ∈ k → R x y.
Proof.
  induction l as [|a l IH]; simpl.
  - split; [intros H; split_and!; [constructor|done|set_solver]|tauto].
  - split.
    + inversion_clear 1 as [|?? Hs Hf]. apply IH in Hs as (H1 & H2 & H3). apply Forall_app in Hf as [Hf1 Hf2].
      split_and!; [by constructor|done|]. intros x y [->|Hx]%elem_of_cons Hy; [|by apply H3].
      rewrite list.Forall_forall in Hf2. by apply Hf2.
    + intros (H1 & H2 & H3). inversion_clear H1 as [|?? Hs Hf]. constructor.
      * apply IH. split_and!; [done|done|]. intros x y Hx. apply H3. set_solver.
      * apply Forall_app. split; [done|]. apply list.Forall_forall. intros y Hy. apply H3; set_solver.
Qed.

Lemma ssorted_filter (P : A → Prop) `{!∀ x, Decision (P x)} l : StronglySorted R l → StronglySorted R (filter P l).
Proof.
  induction 1 as [|a l Hs IH Hf]; [constructor|]. rewrite filter_cons. case_decide; [|done]. constructor; [done|].
  apply list.Forall_forall. intros x [_ Hx]%list_elem_of_filter. rewrite list.Forall_forall in Hf. by apply Hf.
Qed.

Lemma ssorted_ext (R' : A → A → Prop) l :
  (∀ x y, x ∈ l → y ∈ l → R x y → R' x y) → StronglySorted R l → StronglySorted R' l.
Proof.
  intros HR. induction 1 as [|a l Hs IH Hf]; [constructor|]. constructor.
  - apply IH. intros x y Hx Hy. apply HR; set_solver.
  - rewrite list.Forall_forall in *. intros x Hx. apply HR; [set_solver..|by apply Hf].
Qed.
End sorted.

Lemma fld_insert_ne f flows p q e : p ≠ q → fld f (<[p := e]> flows) q = fld f flows q.
Proof. intros H. unfold fld. by rewrite lookup_insert_ne. Qed.

Lemma fld_insert f flows p e : fld f (<[p := e]> flows) p = f e.
Proof. unfold fld. by rewrite lookup_insert_eq. Qed.

Lemma fld_delete_ne f flows p q : p ≠ q → fld f (delete p flows) q = fld f flows q.
Proof. intros H. unfold fld. by rewrite lookup_delete_ne. Qed.

(** ** The invariant depends on three fields only *)

Lemma table_ok_ext flows flows' t t' :
  table_ok flows t →
  match_entries t' = match_entries t → hard_entries t' = hard_entries t → idle_entries t' = idle_entries t →
  active_count t' = active_count t →
  (∀ p, p ∈ match_entries t → is_Some (flows' !! p) ∧ fld fe_priority flows' p = fld fe_priority flows p ∧
     fld fe_remove_at flows' p = fld fe_remove_at flows p ∧ fld fe_idle_timeout flows' p = fld fe_idle_timeout flows p) →
  table_ok flows' t'.
Proof.
  intros [] Em Eh Ei Ea Hf. split; rewrite ?Em, ?Eh, ?Ei, ?Ea; try done.
  - intros p Hp. by apply Hf.
  - eapply ssorted_ext; [|done]. intros x y Hx Hy. unfold by_priority.
    destruct (Hf x Hx) as (_ & -> & _). by destruct (Hf y Hy) as (_ & -> & _).
  - intros p. rewrite to_hard0. split; intros [Hp H]; (split; [done|]); destruct (Hf p Hp) as (_ & _ & E & _); lia.
  - eapply ssorted_ext; [|done]. intros x y Hx%to_hard0 Hy%to_hard0. unfold by_deadline.
    destruct (Hf x (proj1 Hx)) as (_ & _ & -> & _). by destruct (Hf y (proj1 Hy)) as (_ & _ & -> & _).
  - intros p. rewrite to_idle0. split; intros [Hp H]; (split; [done|]); destruct (Hf p Hp) as (_ & _ & _ & E); lia.
Qed.

(** ** Taking an entry out *)

Lemma elem_list_remove p l q : q ∈ list_remove p l ↔ q ∈ l ∧ q ≠ p.
Proof. unfold list_remove. rewrite list_elem_of_filter. tauto. Qed.

Lemma list_remove_length p l : NoDup l → p ∈ l → length l = S (length (list_remove p l)).
Proof.
  unfold list_remove. induction 1 as [|x l Hx Hnd IH]; intros Hp; [set_solver|]. rewrite filter_cons.
  case_decide as E; simpl.
  - f_equal. apply IH. set_solver.
  - assert (x = p) as -> by (destruct (decide (x = p)); [done|exfalso; auto]). f_equal. clear IH Hp Hnd E.
    induction l as [|y l IH]; [done|]. rewrite filter_cons, decide_True by set_solver. simpl. f_equal. apply IH. set_solver.
Qed.

Definition take_out (t : flow_table) (p : positive) (count : Z) : flow_table :=
  FlowTable (list_remove p (match_entries t)) (list_remove p (hard_entries t)) (list_remove p (idle_entries t))
    count (lookup_count t) (matched_count t).

Lemma table_ok_take_out flows t p :
  table_ok flows t → p ∈ match_entries t → table_ok (delete p flows) (take_out t p (active_count t - 1)).
Proof.
  intros [] Hp. split; cbn [take_out match_entries hard_entries idle_entries active_count].
  - by apply list.NoDup_filter.
  - intros q [Hq Hne]%elem_list_remove. rewrite lookup_delete_ne by done. by apply to_live0.
  - eapply ssorted_ext; [|by apply ssorted_filter, to_sorted0].
    intros x y [_ Hx]%elem_list_remove [_ Hy]%elem_list_remove. unfold by_priority. by rewrite !fld_delete_ne.
  - rewrite to_count0, (list_remove_length p (match_entries t)) by done. lia.
  - lia.
  - by apply list.NoDup_filter.
  - intros q. rewrite !elem_list_remove, to_hard0. split.
    + intros [[? ?] ?]. by rewrite fld_delete_ne.
    + intros [[? ?] Hpos]. rewrite fld_delete_ne in Hpos by done. done.
  - eapply ssorted_ext; [|by apply ssorted_filter, to_hard_sorted0].
    intros x y [_ Hx]%elem_list_remove [_ Hy]%elem_list_remove. unfold by_deadline. by rewrite !fld_delete_ne.
  - by apply list.NoDup_filter.
  - intros q. rewrite !elem_list_remove, to_idle0. split.
    + intros [[? ?] ?]. by rewrite fld_delete_ne.
    + intros [[? ?] Hpos]. rewrite fld_delete_ne in Hpos by done. done.
Qed.

Lemma destroy_flows dp p e : dp_flows (flow_entry_destroy dp p e) = delete p (dp_flows dp).
Proof. done. Qed.

Lemma remove_result dp t p e reason :
  table_ok (dp_flows dp) t → p ∈ match_entries t →
  dp_flows (flow_entry_remove dp t p e reason).1 = delete p (dp_flows dp) ∧
  (flow_entry_remove dp t p e reason).2 = take_out t p (active_count t - 1) ∧
  dp_sent (flow_entry_remove dp t p e reason).1 = dp_sent dp ++ (if fe_send_removed e then [(e, reason)] else []).
Proof.
  intros Hok Hp. unfold flow_entry_remove. cbn [fst snd]. rewrite destroy_flows. split_and!.
  - by destruct (fe_send_removed e).
  - unfold take_out. f_equal. unfold u32. apply wrap_small. pose proof (to_count _ _ Hok). pose proof (to_max _ _ Hok).
    assert (0 < length (match_entries t))%nat by (destruct (match_entries t); [set_solver|simpl; lia]).
    unfold fits, FLOW_TABLE_MAX_ENTRIES in *. lia.
  - destruct (fe_send_removed e); [done|]. by rewrite app_nil_r.
Qed.

(** ** Removing the entries that are selected *)

Definition selected (sel : flow_entry → bool) (flows : gmap positive flow_entry) (p : positive) : bool :=
  match flows !! p with Some e => sel e | None => false end.

(** The messages for the selected entries of [l]. *)
Definition removed_msgs (sel : flow_entry → bool) (reason : Z) (flows : gmap positive flow_entry) (l : list positive) :
    list (flow_entry * Z) :=
  p ← l; match flows !! p with
         | Some e => if sel e && fe_send_removed e then [(e, reason)] else []
         | None => []
         end.

Lemma selected_delete_ne sel flows p q : p ≠ q → selected sel (delete p flows) q = selected sel flows q.
Proof. intros H. unfold selected. by rewrite lookup_delete_ne. Qed.

Lemma removed_msgs_delete sel reason flows p l :
  p ∉ l → removed_msgs sel reason (delete p flows) l = removed_msgs sel reason flows l.
Proof.
  intros Hp. induction l as [|q l IH]; [done|]. unfold removed_msgs in *. cbn.
  rewrite lookup_delete_ne by set_solver. f_equal. apply IH. set_solver.
Qed.

Definition gone (sel : flow_entry → bool) (flows : gmap positive flow_entry) (l : list positive) (q : positive) : Prop :=
  q ∈ l ∧ selected sel flows q = true.

#[global] Instance gone_dec sel flows l q : Decision (gone sel flows l q).
Proof. unfold gone. apply _. Defined.

Lemma filter_list_remove (P : positive → Prop) `{!∀ x, Decision (P x)} (Q : positive → Prop) `{!∀ x, Decision (Q x)} p l :
  (∀ q, Q q ↔ P q ∧ q ≠ p) → filter P (list_remove p l) = filter Q l.
Proof.
  intros HQ. unfold list_remove. rewrite list_filter_filter. apply list_filter_iff. intros q. by rewrite HQ.
Qed.

Lemma filter_all (P : positive → Prop) `{!∀ x, Decision (P x)} (l : list positive) : (∀ q, q ∈ l → P q) → filter P l = l.
Proof.
  induction l as [|q l IH]; intros HP; [done|]. rewrite filter_cons_True by (apply HP; set_solver).
  f_equal. apply IH. set_solver.
Qed.

Record removal (sel : flow_entry → bool) (reason : Z) (l : list positive)
    (dp : datapath) (t : flow_table) (dp' : datapath) (t' : flow_table) : Prop := {
  rm_ok : table_ok (dp_flows dp') t';
  rm_match : match_entries t' = filter (λ q, ¬ gone sel (dp_flows dp) l q) (match_entries t);
  rm_idle : idle_entries t' = filter (λ q, ¬ gone sel (dp_flows dp) l q) (idle_entries t);
  rm_flows : ∀ q, dp_flows dp' !! q = if decide (gone sel (dp_flows dp) l q) then None else dp_flows dp !! q;
  rm_sent : dp_sent dp' = dp_sent dp ++ removed_msgs sel reason (dp_flows dp) l }.

Lemma removal_nil sel reason dp t : table_ok (dp_flows dp) t → removal sel reason [] dp t dp t.
Proof.
  intros Hok. assert (∀ q, ¬ gone sel (dp_flows dp) [] q) as Hno by (intros q [? _]; set_solver).
  split; [done|by rewrite filter_all|by rewrite filter_all| |by rewrite app_nil_r].
  intros q. by rewrite decide_False.
Qed.

Lemma removal_skip sel reason p l dp t dp' t' :
  selected sel (dp_flows dp) p = false → removal sel reason l dp t dp' t' → removal sel reason (p :: l) dp t dp' t'.
Proof.
  intros Hs [Hok Hm Hi Hf Hsent].
  assert (∀ q, gone sel (dp_flows dp) (p :: l) q ↔ gone sel (dp_flows dp) l q) as Hg.
  { intros q. unfold gone. rewrite elem_of_cons. split; [intros [[->|?] ?]; [congruence|done]|tauto]. }
  split; [done|..].
  - rewrite Hm. apply list_filter_iff. intros q. by rewrite Hg.
  - rewrite Hi. apply list_filter_iff. intros q. by rewrite Hg.
  - intros q. rewrite Hf. apply decide_ext. by rewrite Hg.
  - rewrite Hsent. f_equal. unfold removed_msgs. simpl. unfold selected in Hs.
    destruct (dp_flows dp !! p); [by rewrite Hs|done].
Qed.

Lemma removal_take sel reason p e l dp t dp' t' :
  table_ok (dp_flows dp) t → p ∈ match_entries t → p ∉ l → dp_flows dp !! p = Some e → sel e = true →
  removal sel reason l (flow_entry_remove dp t p e reason).1 (flow_entry_remove dp t p e reason).2 dp' t' →
  removal sel reason (p :: l) dp t dp' t'.
Proof.
  intros Hok Hp Hpl He Hs. destruct (remove_result dp t p e reason Hok Hp) as (Efl & Et & Es).
  destruct (flow_entry_remove dp t p e reason) as [dp1 t1]. simpl in Efl, Et, Es. subst t1. cbn [fst snd].
  intros [Hok' Hm Hi Hf Hsent]. rewrite Efl in *.
  assert (∀ q, gone sel (dp_flows dp) (p :: l) q ↔ gone sel (delete p (dp_flows dp)) l q ∨ q = p) as Hg.
  { intros q. unfold gone. rewrite elem_of_cons. destruct (decide (p = q)) as [<-|Hne].
    - unfold selected at 1. rewrite He, Hs. tauto.
    - rewrite selected_delete_ne by done. naive_solver. }
  split; [done|..].
  - rewrite Hm. simpl. apply filter_list_remove. intros q. rewrite Hg. tauto.
  - rewrite Hi. simpl. apply filter_list_remove. intros q. rewrite Hg. tauto.
  - intros q. rewrite Hf. destruct (decide (p = q)) as [<-|Hne].
    + rewrite lookup_delete_eq, (decide_True (P := gone _ _ (p :: l) p)) by (apply Hg; auto). by case_decide.
    + rewrite lookup_delete_ne by done. apply decide_ext. rewrite Hg. naive_solver.
  - rewrite Hsent, removed_msgs_delete, Es, <- app_assoc by done. f_equal. unfold removed_msgs. cbn. rewrite He, Hs. done.
Qed.

Lemma remove_loop_spec sel reason dp t l :
  table_ok (dp_flows dp) t → NoDup l → (∀ p, p ∈ l → p ∈ match_entries t) →
  ∃ dp' t', remove_loop sel reason dp t l = Some (dp', t') ∧ removal sel reason l dp t dp' t'.
Proof.
  revert dp t. induction l as [|p l IH]; intros dp t Hok Hnd Hl; cbn [remove_loop].
  { eexists _, _. split; [done|by apply removal_nil]. }
  apply list.NoDup_cons in Hnd as [Hpl Hnd]. destruct (to_live _ _ Hok p) as [e He]; [set_solver|]. rewrite He.
  destruct (sel e) eqn:Hs.
  - destruct (remove_result dp t p e reason Hok ltac:(set_solver)) as (Efl & Et & _).
    destruct (flow_entry_remove dp t p e reason) as [dp1 t1] eqn:Er. simpl in Efl, Et. subst t1.
    destruct (IH dp1 (take_out t p (active_count t - 1))) as (dp' & t' & E' & Hr).
    + rewrite Efl. apply table_ok_take_out; [done|set_solver].
    + done.
    + intros q Hq. simpl. apply elem_list_remove. split; [set_solver|]. intros ->. done.
    + exists dp', t'. split; [done|]. eapply removal_take; [done|set_solver|done|done|done|]. by rewrite Er.
  - destruct (IH dp t Hok Hnd) as (dp' & t' & E' & Hr); [set_solver|].
    exists dp', t'. split; [done|]. apply removal_skip; [|done]. unfold selected. by rewrite He.
Qed.

Lemma idle_timeout_loop_eq now dp t l :
  idle_timeout_loop now dp t l = remove_loop (idle_expired now) OFPRR_IDLE_TIMEOUT dp t l.
Proof.
  revert dp t. induction l as [|p l IH]; intros dp t; [done|]. cbn [idle_timeout_loop remove_loop].
  destruct (dp_flows dp !! p) as [e|]; [|done]. unfold flow_entry_idle_timeout. destruct (idle_expired now e); [|apply IH].
  destruct (flow_entry_remove dp t p e OFPRR_IDLE_TIMEOUT). apply IH.
Qed.

(** Stopping early loses nothing when no later entry is selected. *)
Lemma remove_loop_none sel reason dp t l :
  (∀ p, p ∈ l → ∃ e, dp_flows dp !! p = Some e ∧ sel e = false) → remove_loop sel reason dp t l = Some (dp, t).
Proof.
  induction l as [|p l IH]; intros H; [done|]. simpl. destruct (H p ltac:(set_solver)) as (e & -> & ->). apply IH. set_solver.
Qed.

Lemma hard_timeout_loop_eq now dp t l :
  table_ok (dp_flows dp) t → NoDup l → (∀ p, p ∈ l → p ∈ hard_entries t) →
  StronglySorted (by_deadline (dp_flows dp)) l →
  hard_timeout_loop now dp t l = remove_loop (hard_expired now) OFPRR_HARD_TIMEOUT dp t l.
Proof.
  revert dp t. induction l as [|p l IH]; intros dp t Hok Hnd Hl Hs; [done|].
  cbn [hard_timeout_loop remove_loop].
  destruct (dp_flows dp !! p) as [e|] eqn:He; [|done]. unfold flow_entry_hard_timeout.
  apply list.NoDup_cons in Hnd as [Hpl Hnd]. inversion_clear Hs as [|?? Hs' Hf].
  destruct (hard_expired now e) eqn:Hx.
  - assert (p ∈ match_entries t) as Hp by (apply (to_hard _ _ Hok); set_solver).
    destruct (remove_result dp t p e OFPRR_HARD_TIMEOUT Hok Hp) as (Efl & Et & _).
    destruct (flow_entry_remove dp t p e OFPRR_HARD_TIMEOUT) as [dp1 t1]. simpl in Efl, Et. subst t1.
    apply IH; rewrite ?Efl; [by apply table_ok_take_out|done| |].
    + intros q Hq. simpl. apply elem_list_remove. split; [set_solver|]. intros ->. done.
    + eapply ssorted_ext; [|done]. intros x y Hx' Hy'. unfold by_deadline.
      rewrite !fld_delete_ne by (intros ->; done). done.
  - symmetry. apply remove_loop_none. intros q Hq. rewrite list.Forall_forall in Hf. specialize (Hf q Hq).
    destruct (proj1 (to_hard _ _ Hok q)) as [Hqm Hpos]; [set_solver|]. destruct (to_live _ _ Hok q Hqm) as [eq Heq].
    destruct (proj1 (to_hard _ _ Hok p)) as [_ Hpos0]; [set_solver|].
    exists eq. split; [done|]. unfold by_deadline, fld in *. rewrite He in *. rewrite Heq in *. unfold hard_expired in *.
    destruct (Z.eqb_spec (fe_remove_at e) 0); [lia|]. simpl in Hx. apply Z.ltb_ge in Hx.
    rewrite andb_comm. destruct (Z.ltb_spec (fe_remove_at eq) now); [lia|done].
Qed.

(** * Properties: removal *)

(** C23: a flow_mod delete takes out exactly the entries that it selects (by out
    port, out group, cookie and match), keeps the order and the contents of the
    others and the table's invariant, and sends a flow removed message, in order,
    for each deleted entry that asked for one. *)
Theorem flow_table_delete_exact dp t mod_ strict :
  table_ok (dp_flows dp) t →
  ∃ dp' t', flow_table_delete dp t mod_ strict = Some (dp', t', 0) ∧ table_ok (dp_flows dp') t' ∧
    match_entries t' = filter (λ q, selected (delete_selects mod_ strict) (dp_flows dp) q = false) (match_entries t) ∧
    (∀ q, q ∈ match_entries t' ∨ q ∉ match_entries t → dp_flows dp' !! q = dp_flows dp !! q) ∧
    dp_sent dp' = dp_sent dp ++ removed_msgs (delete_selects mod_ strict) OFPRR_DELETE (dp_flows dp) (match_entries t).
Proof.
  intros Hok. unfold flow_table_delete.
  destruct (remove_loop_spec (delete_selects mod_ strict) OFPRR_DELETE dp t (match_entries t) Hok (to_nodup _ _ Hok))
    as (dp' & t' & -> & [Hok' Hm _ Hf Hs]); [done|].
  assert (match_entries t' = filter (λ q, selected (delete_selects mod_ strict) (dp_flows dp) q = false) (match_entries t)) as Hm'.
  { rewrite Hm. assert (∀ l : list positive, (∀ q, q ∈ l → q ∈ match_entries t) →
      filter (λ q, ¬ gone (delete_selects mod_ strict) (dp_flows dp) (match_entries t) q) l =
      filter (λ q, selected (delete_selects mod_ strict) (dp_flows dp) q = false) l) as H; [|by apply H].
    induction l as [|q l IH]; intros Hl; [done|]. rewrite !filter_cons, IH by set_solver.
    apply decide_ext. unfold gone. rewrite <- not_true_iff_false. split; [|tauto].
    intros Hn Hsel. apply Hn. split; [set_solver|done]. }
  eexists _, _. split; [done|]. split_and!; [done|done| |done].
  intros q Hq. rewrite Hf, decide_False; [done|]. intros [Hin Hsel].
  destruct Hq as [Hq|Hq]; [|done]. rewrite Hm', list_elem_of_filter in Hq. destruct Hq. congruence.
Qed.

(** The timeouts are unsigned. *)
Definition unsigned_timeouts (flows : gmap positive flow_entry) : Prop :=
  ∀ p e, flows !! p = Some e → 0 <= fe_idle_timeout e ∧ 0 <= fe_remove_at e.

Definition expired (now : Z) (e : flow_entry) : bool := hard_expired now e || idle_expired now e.

Lemma hard_listed flows t now q :
  table_ok flows t → unsigned_timeouts flows → q ∈ match_entries t → selected (hard_expired now) flows q = true →
  q ∈ hard_entries t.
Proof.
  intros Hok Hu Hq Hs. apply (to_hard _ _ Hok). split; [done|]. unfold selected, fld, hard_expired in *.
  destruct (flows !! q) as [e|] eqn:E; [|done]. destruct (Hu _ _ E). destruct (Z.eqb_spec (fe_remove_at e) 0); [done|lia].
Qed.

Lemma idle_listed flows t now q :
  table_ok flows t → unsigned_timeouts flows → q ∈ match_entries t → selected (idle_expired now) flows q = true →
  q ∈ idle_entries t.
Proof.
  intros Hok Hu Hq Hs. apply (to_idle _ _ Hok). split; [done|]. unfold selected, fld, idle_expired in *.
  destruct (flows !! q) as [e|] eqn:E; [|done]. destruct (Hu _ _ E). destruct (Z.eqb_spec (fe_idle_timeout e) 0); [done|lia].
Qed.

(** C22: the periodic timeout takes out exactly the entries whose hard deadline has
    passed or that have been idle too long, although the scan of the hard timeouts
    stops at the first entry that has not expired; all others stay as they are, in
    order, and the table's invariant holds. *)
Theorem flow_table_timeout_exact now dp t :
  table_ok (dp_flows dp) t → unsigned_timeouts (dp_flows dp) →
  ∃ dp' t', flow_table_timeout now dp t = Some (dp', t') ∧ table_ok (dp_flows dp') t' ∧
    (∀ q, q ∈ match_entries t' ↔ q ∈ match_entries t ∧ selected (expired now) (dp_flows dp) q = false) ∧
    match_entries t' `sublist_of` match_entries t ∧
    (∀ q, q ∈ match_entries t' ∨ q ∉ match_entries t → dp_flows dp' !! q = dp_flows dp !! q).
Proof.
  intros Hok Hu. unfold flow_table_timeout.
  rewrite hard_timeout_loop_eq by (apply Hok || done).
  destruct (remove_loop_spec (hard_expired now) OFPRR_HARD_TIMEOUT dp t (hard_entries t) Hok (to_hard_nodup _ _ Hok))
    as (dp1 & t1 & -> & [Hok1 Hm1 Hi1 Hf1 _]); [intros p Hp; by apply (to_hard _ _ Hok)|].
  cbn. rewrite idle_timeout_loop_eq.
  destruct (remove_loop_spec (idle_expired now) OFPRR_IDLE_TIMEOUT dp1 t1 (idle_entries t1) Hok1 (to_idle_nodup _ _ Hok1))
    as (dp2 & t2 & -> & [Hok2 Hm2 _ Hf2 _]); [intros p Hp; by apply (to_idle _ _ Hok1)|].
  exists dp2, t2. split; [done|]. split; [done|].
  assert (∀ q, q ∈ match_entries t1 → dp_flows dp1 !! q = dp_flows dp !! q) as Hsame.
  { intros q Hq. rewrite Hm1, list_elem_of_filter in Hq. rewrite Hf1, decide_False; [done|]. tauto. }
  assert (∀ q, q ∈ match_entries t2 ↔ q ∈ match_entries t ∧ selected (expired now) (dp_flows dp) q = false) as Hin.
  { intros q. rewrite Hm2, list_elem_of_filter, Hm1, list_elem_of_filter. unfold gone.
    assert (selected (expired now) (dp_flows dp) q =
      selected (hard_expired now) (dp_flows dp) q || selected (idle_expired now) (dp_flows dp) q) as ->.
    { unfold selected, expired. by destruct (dp_flows dp !! q). }
    rewrite orb_false_iff. split.
    - intros (Hni & Hnh & Hq). split; [done|].
      assert (selected (hard_expired now) (dp_flows dp) q = false) as Hh.
      { apply not_true_iff_false. intros Hs. apply Hnh. split; [by eapply hard_listed|done]. }
      split; [done|]. apply not_true_iff_false. intros Hs. apply Hni.
      assert (q ∈ match_entries t1) as Hq1 by (rewrite Hm1, list_elem_of_filter; done).
      split; [|unfold selected in *; by rewrite Hsame].
      rewrite Hi1, list_elem_of_filter. split; [done|]. by eapply idle_listed.
    - intros (Hq & Hh & Hi).
      assert (¬ (q ∈ hard_entries t ∧ selected (hard_expired now) (dp_flows dp) q = true)) as Hnh by (intros [_ ?]; congruence).
      assert (q ∈ match_entries t1) as Hq1 by (rewrite Hm1, list_elem_of_filter; done).
      split; [|done]. intros [_ Hs]. unfold selected in *. rewrite Hsame in Hs by done. congruence. }
  split_and!; [done|rewrite Hm2, Hm1; etrans; apply sublist_filter|].
  intros q [Hq|Hq].
  - rewrite Hm2, list_elem_of_filter in Hq. destruct Hq as [Hg Hq]. rewrite Hf2, decide_False by done. by apply Hsame.
  - rewrite Hf2, decide_False, Hf1, decide_False; [done|..].
    + intros [?%(to_hard _ _ Hok) _]. tauto.
    + intros [Hi _]. rewrite Hi1, list_elem_of_filter in Hi. destruct Hi as [_ ?%(to_idle _ _ Hok)]. tauto.
Qed.

(** * Lookup *)

Lemma validate_again parse data in_port h :
  packet_handle_std_validate parse data in_port (packet_handle_std_validate parse data in_port h) =
  packet_handle_std_validate parse data in_port h.
Proof.
  unfold packet_handle_std_validate at 2 3. destruct (ph_valid h) eqn:Hv.
  - unfold packet_handle_std_validate. by rewrite Hv.
  - unfold packet_handle_std_validate. destruct (parse data) as [[fm proto]|]; done.
Qed.

Lemma match_again parse data in_port h m m' :
  packet_handle_std_match parse data in_port (packet_handle_std_match parse data in_port h m).1 m' =
  packet_handle_std_match parse data in_port h m'.
Proof. unfold packet_handle_std_match. cbn [fst]. by rewrite validate_again. Qed.

(** The handle after any match attempt. *)
Definition decoded (parse : list Z → option (ofl_match * protocols_std)) (data : list Z) (in_port : Z)
    (h : packet_handle_std) : packet_handle_std := packet_handle_std_validate parse data in_port h.

Definition satisfies (parse : list Z → option (ofl_match * protocols_std)) (data : list Z) (in_port : Z)
    (h : packet_handle_std) (e : flow_entry) : bool :=
  (packet_handle_std_match parse data in_port h (fe_match e)).2.

Lemma lookup_scan_spec parse flows data in_port h l :
  (∀ p, p ∈ l → is_Some (flows !! p)) →
  ∃ r, lookup_scan parse flows data in_port h l =
         Some (match l with [] => h | _ => decoded parse data in_port h end, r) ∧
    fst <$> r = head (filter (λ p, selected (satisfies parse data in_port h) flows p = true) l) ∧
    (∀ p e, r = Some (p, e) → flows !! p = Some e).
Proof.
  revert h. induction l as [|p l IH]; intros h Hl; cbn [lookup_scan]; [by exists None|].
  destruct (Hl p) as [e He]; [set_solver|]. rewrite He, filter_cons.
  assert (selected (satisfies parse data in_port h) flows p = satisfies parse data in_port h e) as ->
    by (unfold selected; by rewrite He).
  assert (satisfies parse data in_port h e = (packet_handle_std_match parse data in_port h (fe_match e)).2) as Hsat by done.
  pose proof (λ m', match_again parse data in_port h (fe_match e) m') as Hag.
  assert ((packet_handle_std_match parse data in_port h (fe_match e)).1 = decoded parse data in_port h) as Hd by done.
  destruct (packet_handle_std_match parse data in_port h (fe_match e)) as [h1 b]. cbn [fst snd] in Hag, Hd, Hsat. subst h1.
  destruct b.
  - exists (Some (p, e)). rewrite decide_True by done. split_and!; [done|done|]. by intros ?? [= <- <-].
  - rewrite decide_False by congruence. destruct (IH (decoded parse data in_port h)) as (r & -> & Hr & Hf); [set_solver|].
    exists r. split_and!; [|rewrite Hr|done].
    + destruct l; [done|]. f_equal. f_equal. apply (f_equal fst (Hag ofl_structs_match_init)).
    + f_equal. apply list_filter_iff. intros q. unfold selected, satisfies.
      destruct (flows !! q) as [e'|]; [|done]. by rewrite (Hag (fe_match e')).
Qed.

(** C18: a lookup finds, among all entries of the table whose match the packet
    satisfies, one of the highest priority, and counts the packet on it (unless the
    entry has counting switched off); it finds none only if none is satisfied.  The
    table's invariant holds afterwards. *)
Theorem flow_table_lookup_best parse now dp t data in_port h :
  table_ok (dp_flows dp) t →
  let sat := satisfies parse data in_port h in
  ∃ dp' t' h' r, flow_table_lookup parse now dp t data in_port h = Some (dp', t', h', r) ∧
    table_ok (dp_flows dp') t' ∧ lookup_count t' = u64 (lookup_count t + 1) ∧
    match r with
    | None => dp' = dp ∧ matched_count t' = matched_count t ∧
              ∀ q, q ∈ match_entries t → selected sat (dp_flows dp) q = false
    | Some p => ∃ e, p ∈ match_entries t ∧ dp_flows dp !! p = Some e ∧ sat e = true ∧
                matched_count t' = u64 (matched_count t + 1) ∧
                dp_flows dp' = <[p := count_packet now (Z.of_nat (length data)) e]> (dp_flows dp) ∧
                ∀ q e', q ∈ match_entries t → dp_flows dp !! q = Some e' → sat e' = true →
                        fe_priority e' <= fe_priority e
    end.
Proof.
  intros Hok sat. unfold flow_table_lookup. cbn [match_entries].
  destruct (lookup_scan_spec parse (dp_flows dp) data in_port h (match_entries t) (to_live _ _ Hok)) as (r & -> & Hr & Hf).
  cbn. fold sat in Hr. destruct r as [[p e]|].
  - specialize (Hf _ _ eq_refl). eexists _, _, _, (Some p). split; [done|]. split; [|split; [done|]].
    + eapply table_ok_ext; [done..|]. intros q Hq. cbn [dp_flows set_flows].
      destruct (decide (p = q)) as [<-|Hne].
      * rewrite lookup_insert_eq, !fld_insert. unfold fld. rewrite Hf. split_and!; [by eexists|done..].
      * rewrite lookup_insert_ne, !fld_insert_ne by done. split_and!; [by apply (to_live _ _ Hok)|done..].
    + exists e. cbn in Hr. symmetry in Hr.
      pose proof (ssorted_filter _ (λ p, selected sat (dp_flows dp) p = true) _ (to_sorted _ _ Hok)) as Hs.
      assert (p ∈ filter (λ p, selected sat (dp_flows dp) p = true) (match_entries t)) as Hp.
      { destruct (filter _ _); [done|]. injection Hr as ->. set_solver. }
      apply list_elem_of_filter in Hp as [Hsel Hp]. unfold selected in Hsel. rewrite Hf in Hsel.
      split_and!; [done|done|done|done|done|]. intros q e' Hq He' Hsat.
      assert (q ∈ filter (λ p, selected sat (dp_flows dp) p = true) (match_entries t)) as Hqf.
      { apply list_elem_of_filter. unfold selected. by rewrite He'. }
      destruct (filter _ _) as [|x l]; [done|]. injection Hr as ->. apply elem_of_cons in Hqf as [->|Hqf]; [naive_solver|].
      inversion_clear Hs as [|?? _ Hall]. rewrite list.Forall_forall in Hall. specialize (Hall q Hqf).
      unfold by_priority, fld in Hall. by rewrite Hf, He' in Hall.
  - eexists _, _, _, None. split; [done|]. split; [by eapply table_ok_ext; [done..|]; intros q Hq; split; [apply (to_live _ _ Hok)|]|].
    split; [done|]. split; [done|]. split; [done|]. intros q Hq. apply not_true_iff_false. intros Hs.
    assert (q ∈ filter (λ p, selected sat (dp_flows dp) p = true) (match_entries t)) as Hqf by (by apply list_elem_of_filter).
    cbn in Hr. destruct (filter _ _); [set_solver|done].
Qed.

(** * Adding an entry *)

Lemma insert_hard_spec flows p at_ l :
  (∀ q, q ∈ l → is_Some (flows !! q)) → StronglySorted (by_deadline flows) l →
  ∃ before after, insert_hard flows p at_ l = Some (before ++ p :: after) ∧ l = before ++ after ∧
    (∀ q, q ∈ before → fld fe_remove_at flows q <= at_) ∧ (∀ q, q ∈ after → at_ <= fld fe_remove_at flows q).
Proof.
  intros Hl Hs. induction Hs as [|q l Hs IH Hf]; cbn [insert_hard].
  { exists [], []. split_and!; [done|done|set_solver|set_solver]. }
  destruct (Hl q) as [e He]; [set_solver|]. rewrite He.
  assert (fld fe_remove_at flows q = fe_remove_at e) as Hfe by (unfold fld; by rewrite He).
  destruct (Z.ltb_spec at_ (fe_remove_at e)).
  - exists [], (q :: l). split_and!; [done|done|set_solver|]. intros x [->|Hx]%elem_of_cons; [lia|].
    rewrite list.Forall_forall in Hf. specialize (Hf x Hx). unfold by_deadline in Hf. lia.
  - destruct IH as (b & a & -> & -> & Hb & Ha); [set_solver|]. exists (q :: b), a. split_and!; [done|done| |done].
    intros x [->|Hx]%elem_of_cons; [lia|by apply Hb].
Qed.

Lemma ssorted_insert {A} (R R' : A → A → Prop) before p after :
  StronglySorted R (before ++ after) → p ∉ before ++ after →
  (∀ x y, x ≠ p → y ≠ p → R x y → R' x y) → (∀ q, q ∈ before → R' q p) → (∀ q, q ∈ after → R' p q) →
  StronglySorted R' (before ++ p :: after).
Proof.
  intros Hs Hp HR Hb Ha.
  assert (StronglySorted R' (before ++ after)) as Hs'.
  { eapply ssorted_ext; [|done]. intros x y Hx Hy. apply HR; intros ->; done. }
  apply ssorted_app in Hs' as (H1 & H2 & H3). apply ssorted_app. split_and!; [done| |].
  - constructor; [done|by apply list.Forall_forall].
  - intros x y Hx [->|Hy]%elem_of_cons; [by apply Hb|by apply H3].
Qed.

(** A new entry at its place in the order, and in the timeout lists. *)
Lemma table_ok_insert flows t p e before after count :
  table_ok flows t → match_entries t = before ++ after → flows !! p = None →
  (∀ q, q ∈ before → fe_priority e <= fld fe_priority flows q) →
  (∀ q, q ∈ after → fld fe_priority flows q <= fe_priority e) →
  count = active_count t + 1 → count <= FLOW_TABLE_MAX_ENTRIES →
  ∃ t', add_to_timeout_lists (<[p := e]> flows)
          (FlowTable (before ++ p :: after) (hard_entries t) (idle_entries t) count (lookup_count t) (matched_count t)) p e =
        Some t' ∧ table_ok (<[p := e]> flows) t' ∧ match_entries t' = before ++ p :: after.
Proof.
  intros Hok Hm Hp Hb Ha Hc Hmax. pose proof Hok as [Hnd Hlive Hs Hcnt Hcm Hhnd Hh Hhs Hind Hi].
  assert (p ∉ match_entries t) as Hpm by (intros [? ?]%Hlive; congruence).
  assert (p ∉ hard_entries t) as Hph by (intros [? _]%Hh; done).
  assert (p ∉ idle_entries t) as Hpi by (intros [? _]%Hi; done).
  assert (∀ q, q ∈ before ++ p :: after ↔ q = p ∨ q ∈ match_entries t) as Hin by (rewrite Hm; set_solver).
  assert (∀ f q, q ≠ p → fld f (<[p := e]> flows) q = fld f flows q) as Hfld by (intros; by apply fld_insert_ne).
  assert (∃ hard, (if 0 <? fe_remove_at e then insert_hard (<[p := e]> flows) p (fe_remove_at e) (hard_entries t)
                   else Some (hard_entries t)) = Some hard ∧ NoDup hard ∧
            (∀ q, q ∈ hard ↔ (q = p ∧ 0 < fe_remove_at e) ∨ q ∈ hard_entries t) ∧
            StronglySorted (by_deadline (<[p := e]> flows)) hard) as (hard & Ehard & Hn' & Hin' & Hs').
  { assert (StronglySorted (by_deadline (<[p := e]> flows)) (hard_entries t)) as Hss.
    { eapply ssorted_ext; [|done]. intros x y Hx Hy. unfold by_deadline. rewrite !Hfld by (intros ->; done). done. }
    destruct (Z.ltb_spec 0 (fe_remove_at e)).
    - destruct (insert_hard_spec (<[p := e]> flows) p (fe_remove_at e) (hard_entries t)) as (b & a & E & Hba & Hb' & Ha').
      + intros q Hq. rewrite lookup_insert_ne by (intros <-; done). apply Hlive. by apply Hh.
      + done.
      + exists (b ++ p :: a). split; [done|]. rewrite Hba in *. split_and!.
        * rewrite <- Permutation_middle. by constructor.
        * set_solver.
        * eapply ssorted_insert; [done|done|done| |]; intros q Hq; unfold by_deadline; rewrite fld_insert; auto.
    - exists (hard_entries t). split_and!; [done|done| |done]. intros q. split; [auto|intros [[_ ?]|?]; [lia|done]]. }
  unfold add_to_timeout_lists. cbn [hard_entries idle_entries match_entries active_count lookup_count matched_count].
  rewrite Ehard. cbn. eexists. split; [done|]. split; [|done].
  split; cbn [match_entries hard_entries idle_entries active_count].
  - rewrite <- Permutation_middle. constructor; by rewrite <- Hm.
  - intros q [->|Hq]%Hin; [rewrite lookup_insert_eq; by eexists|].
    rewrite lookup_insert_ne by (intros <-; done). by apply Hlive.
  - eapply ssorted_insert; [rewrite <- Hm; done|by rewrite <- Hm| | |].
    + intros x y Hx Hy. unfold by_priority. by rewrite !Hfld.
    + intros q Hq. unfold by_priority. rewrite fld_insert, Hfld by (intros ->; rewrite Hm in Hpm; set_solver). by apply Hb.
    + intros q Hq. unfold by_priority. rewrite fld_insert, Hfld by (intros ->; rewrite Hm in Hpm; set_solver). by apply Ha.
  - rewrite Hm in Hcnt. rewrite length_app in *. simpl. lia.
  - done.
  - done.
  - intros q. rewrite Hin', Hin, Hh. destruct (decide (q = p)) as [->|Hne]; [rewrite fld_insert; naive_solver|].
    rewrite Hfld by done. naive_solver.
  - done.
  - destruct (0 <? fe_idle_timeout e); [|done]. apply list.NoDup_app. split_and!; [done|set_solver|apply NoDup_singleton].
  - intros q. rewrite Hin. destruct (decide (q = p)) as [->|Hne].
    + rewrite fld_insert. destruct (Z.ltb_spec 0 (fe_idle_timeout e)); [set_solver|].
      split; [intros ?; done|]. intros [_ ?]. lia.
    + rewrite Hfld by done. destruct (0 <? fe_idle_timeout e); [rewrite elem_of_app, list_elem_of_singleton|]; rewrite Hi; naive_solver.
Qed.

Lemma add_scan_spec flows mod_ co before l :
  (∀ q, q ∈ l → is_Some (flows !! q)) → StronglySorted (by_priority flows) l →
  ∃ place, add_scan flows mod_ co before l = Some place ∧
    match place with
    | AddOverlap => co = true ∧ ∃ q, q ∈ l ∧ selected (λ e, flow_entry_overlaps e mod_) flows q = true
    | AddReplace b q a => ∃ b' e, b = before ++ b' ∧ l = b' ++ q :: a ∧ flows !! q = Some e ∧
                          flow_entry_matches e mod_ true false = true
    | AddInsert b a => ∃ b', b = before ++ b' ∧ l = b' ++ a ∧
        (∀ q, q ∈ b' → fm_priority mod_ <= fld fe_priority flows q) ∧
        (∀ q, q ∈ a → fld fe_priority flows q < fm_priority mod_) ∧
        (∀ q, q ∈ l → selected (λ e, flow_entry_matches e mod_ true false) flows q = false) ∧
        (co = true → ∀ q, q ∈ l → selected (λ e, flow_entry_overlaps e mod_) flows q = false)
    end.
Proof.
  intros Hl Hs. revert before. induction Hs as [|q l Hs IH Hf]; intros before; cbn [add_scan].
  { eexists. split; [done|]. exists []. rewrite app_nil_r. split_and!; set_solver. }
  destruct (Hl q) as [e He]; [set_solver|]. rewrite He.
  assert (fld fe_priority flows q = fe_priority e) as Hfe by (unfold fld; by rewrite He).
  assert (∀ f : flow_entry → bool, selected f flows q = f e) as Hsel by (intros; unfold selected; by rewrite He).
  destruct (co && flow_entry_overlaps e mod_) eqn:Eo.
  { apply andb_true_iff in Eo as [-> Eo]. eexists. split; [done|]. split; [done|]. exists q. rewrite Hsel. split; [set_solver|done]. }
  destruct (flow_entry_matches e mod_ true false) eqn:Em.
  { eexists. split; [done|]. exists [], e. by rewrite app_nil_r. }
  destruct (Z.ltb_spec (fe_priority e) (fm_priority mod_)) as [Hlt|Hge].
  - assert (∀ x, x ∈ q :: l → fld fe_priority flows x < fm_priority mod_) as Hall.
    { intros x [->|Hx]%elem_of_cons; [lia|]. rewrite list.Forall_forall in Hf. specialize (Hf x Hx). unfold by_priority in Hf. lia. }
    eexists. split; [done|]. exists []. rewrite app_nil_r. split_and!; [done|done|set_solver|done| |].
    + intros x Hx. specialize (Hall x Hx). unfold selected, fld in *. destruct (flows !! x) as [ex|]; [|done].
      unfold flow_entry_matches. simpl. destruct (Z.eqb_spec (fe_priority ex) (fm_priority mod_)); [lia|done].
    + intros _ x Hx. specialize (Hall x Hx). unfold selected, fld in *. destruct (flows !! x) as [ex|]; [|done].
      unfold flow_entry_overlaps. destruct (Z.eqb_spec (fe_priority ex) (fm_priority mod_)); [lia|done].
  - destruct (IH ltac:(set_solver) (before ++ [q])) as (place & -> & Hp). exists place. split; [done|].
    destruct place as [|b x a|b a].
    + destruct Hp as [Hco (x & Hx & Hsx)]. split; [done|]. exists x. split; [set_solver|done].
    + destruct Hp as (b' & ex & -> & -> & Hx & Hmx). exists (q :: b'), ex. by rewrite <- app_assoc.
    + destruct Hp as (b' & -> & -> & Hb & Ha & Hns & Hno). exists (q :: b'). rewrite <- app_assoc.
      split_and!; [done|done| |done| |].
      * intros x [->|Hx]%elem_of_cons; [lia|by apply Hb].
      * intros x [->|Hx]%elem_of_cons; [by rewrite Hsel|by apply Hns].
      * intros Hco x [->|Hx]%elem_of_cons; [|by apply Hno]. rewrite Hsel, Hco in *. done.
Qed.

(** The entry a flow_mod installs, whatever it refers to. *)
Definition installs (now : Z) (mod_ : ofl_msg_flow_mod) (e : flow_entry) : Prop :=
  set_meter_refs (set_group_refs e []) [] = new_flow_entry now mod_.

Lemma create_result now dp mod_ :
  ∃ dp' p e, flow_entry_create now dp mod_ = (dp', p) ∧ dp_flows dp !! p = None ∧
    dp_flows dp' = <[p := e]> (dp_flows dp) ∧ dp_sent dp' = dp_sent dp ∧ installs now mod_ e.
Proof.
  unfold flow_entry_create. eexists _, _, _. split; [done|]. cbn [dp_flows dp_sent set_flows set_meters set_groups].
  split; [|split; [done|split; [done|]]].
  - apply not_elem_of_dom, is_fresh.
  - unfold installs. done.
Qed.

Lemma installs_fields now mod_ e :
  installs now mod_ e → fe_priority e = fm_priority mod_ ∧ fe_match e = fm_match mod_.
Proof.
  intros H. split.
  - change (fe_priority e) with (fe_priority (set_meter_refs (set_group_refs e []) [])). by rewrite H.
  - change (fe_match e) with (fe_match (set_meter_refs (set_group_refs e []) [])). by rewrite H.
Qed.

(** Where the new entry went: behind all entries of at least its priority, when
    no entry equals it; else in the place of the entry that equals it. *)
Definition placed (flows : gmap positive flow_entry) (mod_ : ofl_msg_flow_mod) (l before after : list positive) : Prop :=
  (l = before ++ after ∧
   (∀ q, q ∈ before → fm_priority mod_ <= fld fe_priority flows q) ∧
   (∀ q, q ∈ after → fld fe_priority flows q < fm_priority mod_) ∧
   (∀ q, q ∈ l → selected (λ e, flow_entry_matches e mod_ true false) flows q = false)) ∨
  ∃ q e, l = before ++ q :: after ∧ flows !! q = Some e ∧ fe_priority e = fm_priority mod_ ∧
         match_std_strict (fm_match mod_) (fe_match e) = true.

Lemma list_remove_middle (p : positive) b a : p ∉ b → p ∉ a → list_remove p (b ++ p :: a) = b ++ a.
Proof.
  intros Hb Ha. unfold list_remove. rewrite list.filter_app, filter_cons_False by naive_solver.
  rewrite !filter_all; [done|intros q Hq ->; done..].
Qed.

Lemma flow_table_add_lemma now dp t mod_ co :
  table_ok (dp_flows dp) t →
  ∃ dp' t' err, flow_table_add now dp t mod_ co = Some (dp', t', err) ∧ table_ok (dp_flows dp') t' ∧
    (err ≠ 0 → dp' = dp ∧ t' = t ∧
       (co = true ∧ (∃ q, q ∈ match_entries t ∧ selected (λ e, flow_entry_overlaps e mod_) (dp_flows dp) q = true) ∨
        active_count t = FLOW_TABLE_MAX_ENTRIES)) ∧
    (err = 0 → ∃ before p after e, match_entries t' = before ++ p :: after ∧ dp_flows dp !! p = None ∧
       dp_flows dp' !! p = Some e ∧ installs now mod_ e ∧ placed (dp_flows dp) mod_ (match_entries t) before after ∧
       dp_sent dp' = dp_sent dp ∧
       (∀ q, q ∈ match_entries t → q ∉ match_entries t' → dp_flows dp' !! q = None) ∧
       ∀ q, q ≠ p → q ∉ match_entries t ∨ q ∈ match_entries t' → dp_flows dp' !! q = dp_flows dp !! q).
Proof.
  intros Hok. unfold flow_table_add.
  destruct (add_scan_spec (dp_flows dp) mod_ co [] (match_entries t) (to_live _ _ Hok) (to_sorted _ _ Hok))
    as (place & -> & Hpl). cbn [mbind option_bind]. destruct place as [|b q a|b a].
  - destruct Hpl as [Hco Hq]. eexists _, _, _. split; [done|]. split; [done|]. split; [auto|]. intros Herr. by vm_compute in Herr.
  - destruct Hpl as (b' & eq & -> & Hl & Hq & Hm). cbn [app] in *.
    unfold flow_entry_matches in Hm. apply andb_true_iff in Hm as [Hpr%Z.eqb_eq Hst].
    destruct (create_result now dp mod_) as (dp1 & p & e & -> & Hp & Hfl & Hse & Hins).
    destruct (installs_fields _ _ _ Hins) as [Hep _].
    assert (q ≠ p) as Hqp by congruence. rewrite Hfl, lookup_insert_ne, Hq by done. cbn [mbind option_bind].
    rewrite destroy_flows, Hfl, lookup_delete_ne, lookup_insert_eq by done. cbn [mbind option_bind].
    pose proof (to_nodup _ _ Hok) as Hnd. rewrite Hl in Hnd.
    apply list.NoDup_app in Hnd as (Hnd1 & Hd & [Hqa Hnd2]%list.NoDup_cons).
    assert (q ∉ b') as Hqb by (intros ?; eapply Hd; [done|set_solver]).
    pose proof (to_sorted _ _ Hok) as Hs. rewrite Hl in Hs. apply ssorted_app in Hs as (_ & Hs2 & Hs3).
    inversion_clear Hs2 as [|?? _ Hsq]. rewrite list.Forall_forall in Hsq. unfold by_priority in *.
    assert (fld fe_priority (dp_flows dp) q = fm_priority mod_) as Hfq by (unfold fld; by rewrite Hq).
    destruct (table_ok_insert (delete q (dp_flows dp)) (take_out t q (active_count t - 1)) p e b' a (active_count t))
      as (t' & Eadd & Hok' & Hm').
    + apply table_ok_take_out; [done|]. rewrite Hl. set_solver.
    + cbn. rewrite Hl. by apply list_remove_middle.
    + rewrite lookup_delete_ne by done. done.
    + intros x Hx. rewrite fld_delete_ne by (intros <-; done). rewrite Hep, <- Hfq. apply Hs3; set_solver.
    + intros x Hx. rewrite fld_delete_ne by (intros <-; done). rewrite Hep, <- Hfq. by apply Hsq.
    + cbn. lia.
    + apply Hok.
    + rewrite delete_insert_ne by done. cbn [take_out hard_entries idle_entries lookup_count matched_count] in Eadd.
      rewrite Eadd. cbn [mbind option_bind]. eexists _, _, _. split; [done|].
      rewrite destroy_flows, Hfl, delete_insert_ne by done.
      split; [done|]. split; [done|]. intros _. exists b', p, a, e.
      split_and!; [done|done|by rewrite lookup_insert_eq|done|right; exists q, eq; done|done| |].
      { intros x Hx Hx'. assert (x = q) as -> by (rewrite Hm' in Hx'; rewrite Hl in Hx; set_solver).
        by rewrite lookup_insert_ne, lookup_delete_eq. }
      intros x Hxp Hx. rewrite lookup_insert_ne by done. apply lookup_delete_ne. intros <-.
      rewrite Hm', Hl in Hx. set_solver.
  - destruct Hpl as (b' & -> & Hl & Hb & Ha & Hns & Hno). cbn [app].
    destruct (Z.eqb_spec (active_count t) FLOW_TABLE_MAX_ENTRIES) as [Hfull|Hfull].
    { eexists _, _, _. split; [done|]. split; [done|]. split; [auto|]. intros Herr. by vm_compute in Herr. }
    destruct (create_result now dp mod_) as (dp1 & p & e & -> & Hp & Hfl & Hse & Hins).
    destruct (installs_fields _ _ _ Hins) as [Hep _]. rewrite Hfl, lookup_insert_eq. cbn [mbind option_bind].
    pose proof (to_max _ _ Hok). pose proof (to_count _ _ Hok).
    assert (u32 (active_count t + 1) = active_count t + 1) as ->.
    { unfold u32. apply wrap_small. unfold fits, FLOW_TABLE_MAX_ENTRIES in *. lia. }
    destruct (table_ok_insert (dp_flows dp) t p e b' a (active_count t + 1)) as (t' & -> & Hok' & Hm');
      [done|done|done|by rewrite Hep|intros x Hx; specialize (Ha x Hx); lia|done|lia|].
    cbn [mbind option_bind]. eexists _, _, _. split; [done|]. rewrite Hfl. split; [done|]. split; [done|].
    intros _. exists b', p, a, e. split_and!; [done|done|by rewrite lookup_insert_eq|done|left; done|done| |].
    { intros x Hx Hx'. destruct Hx'. rewrite Hm'. rewrite Hl in Hx. set_solver. }
    intros x Hxp Hx. by rewrite lookup_insert_ne.
Qed.

(** * Modifying entries *)

Definition modified (mod_ : ofl_msg_flow_mod) (e : flow_entry) : flow_entry :=
  flow_entry_modify_stats
    (set_group_refs (set_instructions e (fm_instructions mod_)) (collect_group_refs [] (fm_instructions mod_))) mod_.

Lemma modified_keeps mod_ e :
  fe_priority (modified mod_ e) = fe_priority e ∧ fe_remove_at (modified mod_ e) = fe_remove_at e ∧
  fe_idle_timeout (modified mod_ e) = fe_idle_timeout e.
Proof. unfold modified, flow_entry_modify_stats. by case_match. Qed.

(** The entries among [l] that a flow_mod modify selects. *)
Definition modifies (mod_ : ofl_msg_flow_mod) (strict : bool) (flows : gmap positive flow_entry) (l : list positive) : list positive :=
  filter (λ q, selected (λ e, flow_entry_matches e mod_ strict true) flows q = true) l.

Lemma modifies_insert mod_ strict flows p e l : p ∉ l → modifies mod_ strict (<[p := e]> flows) l = modifies mod_ strict flows l.
Proof.
  induction l as [|q l IH]; intros Hp; [done|]. apply not_elem_of_cons in Hp as [Hne Hp]. unfold modifies in *. rewrite !filter_cons, IH by done.
  assert (selected (λ e, flow_entry_matches e mod_ strict true) (<[p:=e]> flows) q = selected (λ e, flow_entry_matches e mod_ strict true) flows q)
    as -> by (unfold selected; by rewrite lookup_insert_ne). done.
Qed.

Lemma modifies_cons mod_ strict flows p e l : flows !! p = Some e →
  modifies mod_ strict flows (p :: l) =
    (if flow_entry_matches e mod_ strict true then [p] else []) ++ modifies mod_ strict flows l.
Proof.
  intros He. unfold modifies. rewrite filter_cons.
  assert (selected (λ e, flow_entry_matches e mod_ strict true) flows p = flow_entry_matches e mod_ strict true) as -> by (unfold selected; by rewrite He).
  by destruct (flow_entry_matches e mod_ strict true).
Qed.

Lemma modify_loop_spec dp mod_ strict (kept : bool) l :
  (∀ q, q ∈ l → is_Some (dp_flows dp !! q)) → NoDup l → ((if kept then 1 else 0) + length (modifies mod_ strict (dp_flows dp) l) <= 1)%nat →
  ∃ dp', modify_loop dp mod_ strict kept l = Some dp' ∧ dp_sent dp' = dp_sent dp ∧
    ∀ q, dp_flows dp' !! q =
      if decide (q ∈ l ∧ selected (λ e, flow_entry_matches e mod_ strict true) (dp_flows dp) q = true)
      then modified mod_ <$> dp_flows dp !! q else dp_flows dp !! q.
Proof.
  revert dp kept. induction l as [|p l IH]; intros dp kept Hl Hnd Hn; cbn [modify_loop].
  { exists dp. split_and!; [done|done|]. intros q. rewrite decide_False by set_solver. done. }
  apply list.NoDup_cons in Hnd as [Hp Hnd]. destruct (Hl p) as [e He]; [set_solver|]. rewrite He.
  rewrite (modifies_cons _ _ _ _ _ _ He), length_app in Hn.
  assert (selected (λ e, flow_entry_matches e mod_ strict true) (dp_flows dp) p = flow_entry_matches e mod_ strict true) as Hsel
    by (unfold selected; by rewrite He).
  destruct (flow_entry_matches e mod_ strict true) eqn:Em; cbn [length] in Hn.
  - destruct kept; [lia|]. cbn [flow_entry_replace_instructions del_group_refs init_group_refs fst snd].
    match goal with |- context [modify_loop ?d _ _ _ _] => destruct (IH d true) as (dp' & -> & Hs & Hf) end.
    + intros q Hq. cbn [dp_flows set_flows set_groups]. rewrite lookup_insert_ne by (intros <-; done). apply Hl. set_solver.
    + done.
    + cbn [dp_flows set_flows set_groups]. rewrite modifies_insert by done. lia.
    + exists dp'. split; [done|]. split; [by rewrite Hs|]. intros q. rewrite Hf. cbn [dp_flows set_flows set_groups].
      destruct (decide (p = q)) as [<-|Hne].
      * rewrite decide_False by tauto. rewrite decide_True by (split; [set_solver|done]). by rewrite lookup_insert_eq, He.
      * rewrite lookup_insert_ne by done. apply decide_ext. unfold selected. rewrite lookup_insert_ne by done. set_solver.
  - destruct (IH dp kept) as (dp' & -> & Hs & Hf); [set_solver|done|lia|]. exists dp'. split_and!; [done|done|].
    intros q. rewrite Hf. apply decide_ext. rewrite elem_of_cons. split; [tauto|]. intros [[->|?] ?]; [congruence|done].
Qed.

Lemma modify_loop_shares dp mod_ strict (kept : bool) l :
  NoDup l → (1 < (if kept then 1 else 0) + length (modifies mod_ strict (dp_flows dp) l))%nat → modify_loop dp mod_ strict kept l = None.
Proof.
  revert dp kept. induction l as [|p l IH]; intros dp kept Hnd Hn; [by destruct kept; cbn in Hn; lia|]. cbn [modify_loop].
  apply list.NoDup_cons in Hnd as [Hp Hnd]. destruct (dp_flows dp !! p) as [e|] eqn:He; [|done].
  rewrite (modifies_cons _ _ _ _ _ _ He), length_app in Hn. destruct (flow_entry_matches e mod_ strict true); [|by apply IH].
  destruct kept; [done|]. apply IH; [done|]. cbn [dp_flows set_flows set_groups]. rewrite modifies_insert by done. cbn [length] in Hn. lia.
Qed.

(** * Properties *)

(** C19: adding a flow replaces the entry with the same priority and the same match
    where there is one, in its place; otherwise the new entry goes behind all
    entries of at least its priority.  It is refused, and nothing changes, only if
    an overlap was to be checked for and there is one, or if the table is full.
    A replaced entry is freed; no other entry of this or another table changes. *)
Theorem flow_table_add_placed now dp t mod_ co :
  table_ok (dp_flows dp) t →
  ∃ dp' t' err, flow_table_add now dp t mod_ co = Some (dp', t', err) ∧ table_ok (dp_flows dp') t' ∧
    (err ≠ 0 → dp' = dp ∧ t' = t ∧
       (co = true ∧ (∃ q, q ∈ match_entries t ∧ selected (λ e, flow_entry_overlaps e mod_) (dp_flows dp) q = true) ∨
        active_count t = FLOW_TABLE_MAX_ENTRIES)) ∧
    (err = 0 → ∃ before p after e, match_entries t' = before ++ p :: after ∧ dp_flows dp !! p = None ∧
       dp_flows dp' !! p = Some e ∧ installs now mod_ e ∧ placed (dp_flows dp) mod_ (match_entries t) before after ∧
       dp_sent dp' = dp_sent dp ∧
       (∀ q, q ∈ match_entries t → q ∉ match_entries t' → dp_flows dp' !! q = None) ∧
       ∀ q, q ≠ p → q ∉ match_entries t ∨ q ∈ match_entries t' → dp_flows dp' !! q = dp_flows dp !! q).
Proof. apply flow_table_add_lemma. Qed.

(** A flow_mod modify that selects at most one entry gives exactly that entry the new
    instructions (and resets its counters if asked to); nothing else about it and no other
    entry changes.  One that selects two entries makes them share an array. *)
Theorem flow_table_modify_exact dp t mod_ strict (Hok : table_ok (dp_flows dp) t) :
  ((length (modifies mod_ strict (dp_flows dp) (match_entries t)) <= 1)%nat →
   ∃ dp', flow_table_modify dp t mod_ strict = Some (dp', t, 0) ∧ table_ok (dp_flows dp') t ∧ dp_sent dp' = dp_sent dp ∧
    ∀ q, dp_flows dp' !! q =
      if decide (q ∈ match_entries t ∧ selected (λ e, flow_entry_matches e mod_ strict true) (dp_flows dp) q = true)
      then modified mod_ <$> dp_flows dp !! q else dp_flows dp !! q) ∧
  ((1 < length (modifies mod_ strict (dp_flows dp) (match_entries t)))%nat → flow_table_modify dp t mod_ strict = None).
Proof.
  unfold flow_table_modify. split; intros Hn; [|by rewrite modify_loop_shares by (done || apply Hok)].
  destruct (modify_loop_spec dp mod_ strict false (match_entries t) (to_live _ _ Hok) (to_nodup _ _ Hok)) as (dp' & -> & Hs & Hf); [done|].
  exists dp'. split; [done|]. split; [|done]. eapply table_ok_ext; [done..|]. intros q Hq.
  destruct (to_live _ _ Hok q Hq) as [e He]. unfold fld. rewrite Hf, He.
  case_decide; [|by split_and!]. cbn [fmap option_fmap option_map]. destruct (modified_keeps mod_ e) as (-> & -> & ->). by split_and!.
Qed.

(** ** A table with two flows *)

Definition flow_to (port priority idle hard : Z) (fields : list ofl_match_tlv) : ofl_msg_flow_mod :=
  FlowMod 0 0 0 OFPFC_ADD idle hard priority NO_BUFFER OFPP_ANY OFPG_ANY OFPFF_SEND_FLOW_REM
    (Match 0 fields) [InstApplyActions [ActOutput port 0]].

Definition no_flows : datapath := Datapath ∅ group_table_create (meter_table_create 0) [].

Definition after_add (r : option (datapath * flow_table * Z)) : datapath * flow_table :=
  match r with Some (dp, t, _) => (dp, t) | None => (no_flows, flow_table_create) end.

Definition one_flow : datapath * flow_table :=
  after_add (flow_table_add 0 no_flows flow_table_create (flow_to 1 10 0 5 [Tlv OXM_OF_IN_PORT [1; 0; 0; 0]]) true).
Definition two_flows : datapath * flow_table :=
  after_add (flow_table_add 0 one_flow.1 one_flow.2 (flow_to 2 20 30 0 []) false).

Lemma empty_table_ok flows : table_ok flows flow_table_create.
Proof. split; cbn; first [by apply NoDup_nil_2|by constructor|done|set_solver]. Qed.

Lemma after_add_ok now dp t mod_ co :
  table_ok (dp_flows dp) t →
  table_ok (dp_flows (after_add (flow_table_add now dp t mod_ co)).1) (after_add (flow_table_add now dp t mod_ co)).2.
Proof.
  intros Hok. destruct (flow_table_add_lemma now dp t mod_ co Hok) as (dp' & t' & err & -> & Hok' & _). done.
Qed.

Lemma two_flows_ok : table_ok (dp_flows two_flows.1) two_flows.2.
Proof. apply after_add_ok, after_add_ok, empty_table_ok. Qed.

Lemma flow_table_delete_exact_witness :
  ∃ dp' t', flow_table_delete two_flows.1 two_flows.2 (flow_to 1 0 0 0 []) false = Some (dp', t', 0) ∧
    table_ok (dp_flows dp') t' ∧ match_entries t' = [].
Proof.
  destruct (flow_table_delete_exact two_flows.1 two_flows.2 (flow_to 1 0 0 0 []) false two_flows_ok)
    as (dp' & t' & E & Hok & Hm & _).
  exists dp', t'. split; [done|]. split; [done|]. rewrite Hm. by vm_compute.
Defined.

Lemma flow_table_timeout_exact_witness :
  ∃ dp' t', flow_table_timeout 6000 two_flows.1 two_flows.2 = Some (dp', t') ∧ table_ok (dp_flows dp') t'.
Proof.
  destruct (flow_table_timeout_exact 6000 two_flows.1 two_flows.2 two_flows_ok) as (dp' & t' & E & Hok & _).
  - change (map_Forall (λ _ e, 0 <= fe_idle_timeout e ∧ 0 <= fe_remove_at e) (dp_flows two_flows.1)).
    eapply bool_decide_eq_true_1. by vm_compute.
  - by exists dp', t'.
Defined.

Lemma flow_table_lookup_best_witness :
  ∃ dp' t' h' p, flow_table_lookup (λ _, Some (Match 0 [], protocol_reset)) 7 two_flows.1 two_flows.2
    [0; 1; 2] 1 (Handle protocol_reset (Match 0 []) false None) = Some (dp', t', h', Some p) ∧
    table_ok (dp_flows dp') t'.
Proof.
  destruct (flow_table_lookup_best (λ _, Some (Match 0 [], protocol_reset)) 7 two_flows.1 two_flows.2
    [0; 1; 2] 1 (Handle protocol_reset (Match 0 []) false None) two_flows_ok)
    as (dp' & t' & h' & r & E & Hok & _ & Hr).
  destruct r as [p|]; [by exists dp', t', h', p|].
  destruct Hr as (_ & _ & Hr). exfalso. specialize (Hr 2%positive ltac:(vm_compute; set_solver)). by vm_compute in Hr.
Defined.

Lemma flow_table_add_placed_witness :
  ∃ dp' t' err, flow_table_add 0 two_flows.1 two_flows.2 (flow_to 3 20 0 0 []) false = Some (dp', t', err) ∧
    table_ok (dp_flows dp') t'.
Proof.
  destruct (flow_table_add_placed 0 two_flows.1 two_flows.2 (flow_to 3 20 0 0 []) false two_flows_ok)
    as (dp' & t' & err & E & Hok & _). by exists dp', t', err.
Defined.

Lemma flow_table_modify_exact_witness :
  (∃ dp', flow_table_modify two_flows.1 two_flows.2 (flow_to 3 20 0 0 []) true = Some (dp', two_flows.2, 0)) ∧
  flow_table_modify two_flows.1 two_flows.2 (flow_to 3 20 0 0 []) false = None.
Proof.
  split.
  - destruct (flow_table_modify_exact two_flows.1 two_flows.2 (flow_to 3 20 0 0 []) true two_flows_ok) as [H _].
    destruct H as (dp' & E & _); [by vm_compute; lia|]. by exists dp'.
  - apply (flow_table_modify_exact two_flows.1 two_flows.2 (flow_to 3 20 0 0 []) false two_flows_ok). vm_compute. lia.
Defined.
