(* ===== verification/Features.v ===== *)
(** The features of the flow tables: OFPMP_TABLE_FEATURES requests and TABLE_MOD messages of
    udatapath/pipeline.c, with the reassembly of requests in fragments
    ([ofl_msg_merge_multipart_request_table_features] of oflib/ofl-messages.c).

    A table here is its features and whether it is disabled.  What a remote has sent of a
    request so far, [mp_req_msg] and [mp_req_xid], is an option; [None] of the operations is
    undefined behaviour. *)

From S2P Require Import Prelude OpenFlow StatsWire FlowTable.

Definition OFPMPF_REQ_MORE := 1.
Definition OFPMPF_REPLY_MORE := 1.
Definition TABLES : nat := 64.
Definition OFPTFFC_BAD_TABLE : Z := ofl_error 13 0.
Definition OFPTFFC_BAD_ARGUMENT : Z := ofl_error 13 4.
Definition MULTIPART_BUFFER_OVERFLOW : Z := ofl_error OFPET_BAD_REQUEST 13.

Record table := Table { t_features : ofl_table_features; t_disabled : bool }.

(** [pending]: the transaction id and the tables of the fragments so far. *)
Record features_state := FeaturesState { fs_tables : list table; fs_pending : option (Z * list ofl_table_features) }.

(** * TABLE_MOD *)

Definition set_tf_config (f : ofl_table_features) (config : Z) : ofl_table_features :=
  TableFeatures (tf_length f) (tf_table_id f) (tf_name f) (tf_metadata_match f) (tf_metadata_write f) config (tf_max_entries f) (tf_properties f).
Definition set_t_config (config : Z) (t : table) : table := Table (set_tf_config (t_features t) config) (t_disabled t).

(** The new tables and the error. *)
Definition pipeline_handle_table_mod (slave : bool) (tables : list table) (table_id config : Z) : option (list table * Z) :=
  if slave then Some (tables, ofl_error OFPET_BAD_REQUEST 10)
  else if table_id =? 0xff then Some (set_t_config config <$> tables, 0)
  else t ← tables !! Z.to_nat table_id; Some (<[Z.to_nat table_id := set_t_config config t]> tables, 0).

(** * Requests *)

(** The tables are copied, and whether this was the last fragment.  [realloc] leaves no NULL
    pointer when there are tables. *)
Definition ofl_msg_merge_multipart_request_table_features (orig : list ofl_table_features) (flags : Z) (merge : list ofl_table_features) :
    list ofl_table_features * bool :=
  (orig ++ merge, Z.land flags OFPMPF_REQ_MORE =? 0).

(** The check of all tables of a complete request.  [last_table_id] is never set to another
    value than 0. *)
Fixpoint check_features (l : list ofl_table_features) : Z :=
  match l with
  | [] => 0
  | f :: l =>
    if tf_table_id f <? 0 then OFPTFFC_BAD_TABLE
    else if FLOW_TABLE_MAX_ENTRIES <? tf_max_entries f then OFPTFFC_BAD_ARGUMENT
    else check_features l
  end.

Definition disable (t : table) : table := Table (t_features t) true.

(** Each table of the request replaces that of the switch and is enabled. *)
Fixpoint replace_features (tables : list table) (l : list ofl_table_features) : option (list table) :=
  match l with
  | [] => Some tables
  | f :: l =>
    _ ← tables !! Z.to_nat (tf_table_id f);
    replace_features (<[Z.to_nat (tf_table_id f) := Table f false]> tables) l
  end.

(** What a complete request does to the tables; [None] for the NULL pointer. *)
Definition change_features (tables : list table) (body : option (list ofl_table_features)) : option (list table * Z) :=
  match body with
  | None => Some (tables, 0)
  | Some l =>
    let error := check_features l in
    if truthy error then Some (tables, error)
    else tables ← replace_features (disable <$> tables) l; Some (tables, 0)
  end.

(** ** Replies *)

(** The next table that is not disabled, at or behind [id], in [n] turns. *)
Fixpoint skip_disabled (n : nat) (tables : list table) (id : nat) : nat :=
  match n with
  | O => id
  | S n =>
    match tables !! id with
    | Some t => if t_disabled t then skip_disabled n tables (S id) else id
    | None => id
    end
  end.

(** At most [n] tables, and the id to go on with. *)
Fixpoint segment (n : nat) (tables : list table) (id : nat) : list ofl_table_features * nat :=
  match n with
  | O => ([], id)
  | S n =>
    let id := skip_disabled TABLES tables id in
    match tables !! id with
    | Some t => let '(l, next) := segment n tables (S id) in (t_features t :: l, next)
    | None => ([], id)
    end
  end.

(** The replies, flags and tables, from table [id] on.  Every turn but the last has eight
    tables, so that [TABLES] turns are enough. *)
Fixpoint replies (fuel : nat) (tables : list table) (id : nat) : option (list (Z * list ofl_table_features)) :=
  match fuel with
  | O => None
  | S fuel =>
    let '(l, next) := segment 8 tables id in
    let reply := (if (next =? TABLES)%nat then 0 else OFPMPF_REPLY_MORE, l) in
    if (next <? TABLES)%nat then rest ← replies fuel tables next; Some (reply :: rest)
    else Some [reply]
  end.

(** ** The handler *)

(** The error of a complete request in fragments makes the caller free the last fragment,
    whose [properties] went with the copy that was freed here. *)
Definition double_free (pending : option (Z * list ofl_table_features)) (error : Z) (l : list ofl_table_features) : bool :=
  bool_decide (is_Some pending) && truthy error && (0 <? length l)%nat.

(** The new state, and the replies or an error.  A fragment that is not the last has no
    replies. *)
Definition pipeline_handle_stats_request_table_features_request (s : features_state) (xid flags : Z) (body : option (list ofl_table_features)) :
    option (features_state * (list (Z * list ofl_table_features) + Z)) :=
  let l := default [] body in
  if existsb (λ f, Z.of_nat TABLES <=? tf_table_id f) l then Some (s, inr OFPTFFC_BAD_TABLE)
  else
    let finish body :=
      '(tables, error) ← change_features (fs_tables s) body;
      if double_free (fs_pending s) error l then None
      else if truthy error then Some (FeaturesState tables None, inr error)
      else rs ← replies TABLES tables 0; Some (FeaturesState tables None, inl rs) in
    match fs_pending s with
    | Some (xid', orig) =>
      if negb (xid =? xid') then Some (s, inr MULTIPART_BUFFER_OVERFLOW)
      else
        let '(merged, nomore) := ofl_msg_merge_multipart_request_table_features orig flags l in
        if negb nomore then Some (FeaturesState (fs_tables s) (Some (xid', merged)), inl [])
        else finish (if (length merged =? 0)%nat then None else Some merged)
    | None =>
      if truthy (Z.land flags OFPMPF_REQ_MORE) then
        Some (FeaturesState (fs_tables s) (Some (xid, (ofl_msg_merge_multipart_request_table_features [] flags l).1)), inl [])
      else finish body
    end.

(** * The replies *)

Definition enabled_features (l : list table) : list ofl_table_features := t_features <$> base.filter (λ t, t_disabled t = false) l.

(** Every reply has at most eight tables, and all but the last say that more follow. *)
Fixpoint well_flagged (rs : list (Z * list ofl_table_features)) : Prop :=
  match rs with
  | [] => False
  | [(flags, l)] => flags = 0 ∧ (length l <= 8)%nat
  | (flags, l) :: rs => flags = OFPMPF_REPLY_MORE ∧ (length l <= 8)%nat ∧ well_flagged rs
  end.

Lemma enabled_cons t l : enabled_features (t :: l) = (if t_disabled t then [] else [t_features t]) ++ enabled_features l.
Proof. unfold enabled_features. rewrite filter_cons. case_decide as E; destruct (t_disabled t); by try discriminate E. Qed.

Lemma skip_ok n tables id : (length tables <= id + n)%nat → (id <= length tables)%nat →
  let id' := skip_disabled n tables id in
  (id <= id' <= length tables)%nat ∧ enabled_features (drop id tables) = enabled_features (drop id' tables) ∧
  (∀ t, tables !! id' = Some t → t_disabled t = false).
Proof.
  revert id. induction n as [|n IH]; intros id Hn Hid; cbn.
  - split_and!; [lia|lia|done|]. intros t Ht%lookup_lt_Some. lia.
  - destruct (tables !! id) as [t|] eqn:Et; [|split_and!; [lia|lia|done|]; intros; congruence].
    destruct (t_disabled t) eqn:Ed; [|split_and!; [lia|lia|done|]; intros; congruence].
    pose proof (lookup_lt_Some _ _ _ Et). destruct (IH (S id)) as (H1 & H2 & H3); [lia|lia|]. split_and!; [lia|lia| |done].
    rewrite (drop_S tables t id Et), enabled_cons, Ed. exact H2.
Qed.

Lemma segment_ok n tables id :
  length tables = TABLES → (id <= TABLES)%nat →
  let '(l, next) := segment n tables id in
  (id + length l <= next <= TABLES)%nat ∧ (length l <= n)%nat ∧ enabled_features (drop id tables) = l ++ enabled_features (drop next tables) ∧
  (length l = n ∨ next = TABLES).
Proof.
  intros Hl. revert id. induction n as [|n IH]; intros id Hid; cbn [segment].
  { split_and!; [cbn [length]; lia|lia|done|done|by left]. }
  destruct (skip_ok TABLES tables id) as (H1 & H2 & H3); [lia|lia|]. set (id' := skip_disabled TABLES tables id) in *.
  destruct (tables !! id') as [t|] eqn:Et.
  - pose proof (lookup_lt_Some _ _ _ Et). specialize (IH (S id')). destruct (segment n tables (S id')) as [l next]. destruct IH as (A & B & C & D); [lia|].
    split_and!; [cbn [length]; lia|lia|cbn [length]; lia| |destruct D; [left; cbn [length]; lia|by right]].
    rewrite H2, (drop_S tables t id' Et), enabled_cons, (H3 t eq_refl), C. done.
  - apply lookup_ge_None in Et. split_and!; [cbn [length]; lia|lia|cbn [length]; lia|exact H2|right; lia].
Qed.

Lemma replies_ok fuel tables id :
  length tables = TABLES → (id <= TABLES)%nat → (TABLES < fuel * 8 + id)%nat →
  ∃ rs, replies fuel tables id = Some rs ∧ concat (snd <$> rs) = enabled_features (drop id tables) ∧ well_flagged rs.
Proof.
  intros Hl. revert id. induction fuel as [|fuel IH]; intros id Hid Hf; [lia|]. cbn [replies].
  pose proof (segment_ok 8 tables id Hl Hid) as Hs. destruct (segment 8 tables id) as [l next]. destruct Hs as (H1 & H2 & H3 & H4).
  destruct (Nat.ltb_spec next TABLES) as [Hlt|Hge].
  - assert (length l = 8%nat) as E8 by (destruct H4; lia).
    destruct (IH next) as (rs & -> & Hc & Hw); [lia|lia|]. rewrite (proj2 (Nat.eqb_neq _ _)) by lia. cbn [mbind option_bind].
    eexists. split; [done|]. split; [cbn; by rewrite Hc, H3|]. destruct rs as [|[f l'] rs]; [done|]. by split_and!; [|lia|].
  - assert (next = TABLES) as -> by lia. rewrite Nat.eqb_refl. eexists. split; [done|]. cbn. rewrite app_nil_r. split; [|done].
    rewrite H3, (drop_ge tables) by lia. cbn. by rewrite app_nil_r.
Qed.

(** The reply to a request for table features.  The replies end, they list the features
    of exactly the enabled tables, each once and in the order of their numbers, at most eight in
    a reply, and every reply but the last announces another one. *)
Theorem features_replies_exact (tables : list table) (Hl : length tables = TABLES) :
  ∃ rs, replies TABLES tables 0 = Some rs ∧ concat (snd <$> rs) = enabled_features tables ∧ well_flagged rs.
Proof. destruct (replies_ok TABLES tables 0) as (rs & E & Hc & Hw); [done|lia|unfold TABLES; lia|]. exists rs. by rewrite drop_0 in Hc. Qed.

(** * Requests in fragments *)

(** All fragments of a request with one transaction id, the last one with its own flag. *)
Fixpoint send_fragments (s : features_state) (xid : Z) (frags : list (option (list ofl_table_features))) (last : option (list ofl_table_features)) :
    option (features_state * (list (Z * list ofl_table_features) + Z)) :=
  match frags with
  | [] => pipeline_handle_stats_request_table_features_request s xid 0 last
  | body :: frags =>
    '(s, r) ← pipeline_handle_stats_request_table_features_request s xid OFPMPF_REQ_MORE body;
    match r with
    | inl [] => send_fragments s xid frags last
    | _ => Some (s, r)
    end
  end.

Definition known (l : list ofl_table_features) : Prop := Forall (λ f, 0 <= tf_table_id f < Z.of_nat TABLES) l.

Lemma known_test l : known l → existsb (λ f, Z.of_nat TABLES <=? tf_table_id f) l = false.
Proof. induction 1 as [|f l Hf _ IH]; [done|]. cbn [existsb]. rewrite IH, (proj2 (Z.leb_gt _ _)) by lia. done. Qed.

Lemma features_replaced tables l : length tables = TABLES → known l → ∃ tables', replace_features tables l = Some tables' ∧ length tables' = TABLES.
Proof.
  intros Hl Hk. revert tables Hl. induction Hk as [|f l Hf _ IH]; intros tables Hl; [by exists tables|]. cbn [replace_features].
  destruct (lookup_lt_is_Some_2 tables (Z.to_nat (tf_table_id f))) as [t ->]; [lia|]. cbn [mbind option_bind]. apply IH. by rewrite length_insert.
Qed.

(** The body of the whole request. *)
Definition whole (l : list ofl_table_features) : option (list ofl_table_features) := if (length l =? 0)%nat then None else Some l.

Lemma whole_default l : default [] (whole l) = l.
Proof. by destruct l. Qed.

Lemma fragments_pending tables xid orig frags last :
  known orig → Forall (λ b, known (default [] b)) frags → known (default [] last) →
  let l := orig ++ concat (default [] <$> frags) ++ default [] last in
  check_features l = 0 ∨ default [] last = [] →
  send_fragments (FeaturesState tables (Some (xid, orig))) xid frags last =
    pipeline_handle_stats_request_table_features_request (FeaturesState tables None) xid 0 (whole l).
Proof.
  intros Ho Hf Hl. revert orig Ho. induction Hf as [|b frags Hb _ IH]; intros orig Ho l Hc.
  - cbn [fmap list_fmap concat app] in l. cbn [send_fragments]. unfold pipeline_handle_stats_request_table_features_request.
    rewrite whole_default, known_test, known_test by (done || apply Forall_app_2; done). cbn [fs_pending fs_tables]. rewrite Z.eqb_refl. cbn [negb].
    unfold ofl_msg_merge_multipart_request_table_features. change (Z.land 0 OFPMPF_REQ_MORE) with 0. cbn [Z.eqb negb truthy].
    change (if (length (orig ++ default [] last) =? 0)%nat then None else Some (orig ++ default [] last)) with (whole l).
    assert (∀ error, truthy error = true → (check_features l = 0 ∨ default [] last = []) → (change_features tables (whole l) ≫= λ '(_, e), Some e) = Some error →
      (0 <? length (default [] last))%nat = false) as Hnd.
    { intros error Ht [Hz|Hn] He; [|by rewrite Hn]. exfalso. unfold change_features, whole in He. destruct (length l =? 0)%nat; [by injection He as <-|].
      rewrite Hz in He. cbn in He. destruct (replace_features _ _); [|done]. cbn in He. by injection He as <-. }
    destruct (change_features tables (whole l)) as [[tables' error]|] eqn:E; [|done]. cbn [mbind option_bind].
    assert (double_free (Some (xid, orig)) error (default [] last) = false) as ->.
    { unfold double_free. rewrite bool_decide_true by done. cbn [andb]. destruct (truthy error) eqn:Et; [|done]. cbn [andb]. by eapply Hnd. }
    assert (double_free None error l = false) as -> by done. done.
  - cbn [send_fragments]. unfold pipeline_handle_stats_request_table_features_request at 1. rewrite known_test by done. cbn [fs_pending fs_tables].
    rewrite Z.eqb_refl. unfold ofl_msg_merge_multipart_request_table_features. change (Z.land OFPMPF_REQ_MORE OFPMPF_REQ_MORE =? 0) with false. cbn [negb mbind option_bind].
    rewrite (IH (orig ++ default [] b)); [|by apply Forall_app_2|].
    + f_equal. f_equal. unfold l. cbn [fmap list_fmap concat]. by rewrite <- !app_assoc.
    + unfold l in Hc. cbn [fmap list_fmap concat] in Hc. by rewrite <- !app_assoc in Hc |- *.
Qed.

(** Requests in fragments.  A request for table features that comes in any number of
    fragments with one transaction id has the effect and the replies of the same request in one
    message, whatever the sizes of the fragments, and no reply is sent before the last one;
    for a request that is refused this holds when its last fragment is empty (otherwise the last
    fragment is freed twice). *)
Theorem fragments_reassemble (s : features_state) (xid : Z) (first : option (list ofl_table_features)) (frags : list (option (list ofl_table_features)))
    (last : option (list ofl_table_features)) (Hp : fs_pending s = None) (Hk : Forall (λ b, known (default [] b)) (first :: frags))
    (Hl : known (default [] last))
    (Hc : check_features (concat (default [] <$> first :: frags) ++ default [] last) = 0 ∨ default [] last = []) :
  send_fragments s xid (first :: frags) last =
    pipeline_handle_stats_request_table_features_request s xid 0 (whole (concat (default [] <$> first :: frags) ++ default [] last)).
Proof.
  destruct s as [tables pending]. cbn in Hp. subst pending. inversion Hk as [|? ? H1 H2]; subst. cbn [send_fragments].
  unfold pipeline_handle_stats_request_table_features_request at 1. rewrite known_test by done. cbn [fs_pending fs_tables].
  change (truthy (Z.land OFPMPF_REQ_MORE OFPMPF_REQ_MORE)) with true. cbn [mbind option_bind ofl_msg_merge_multipart_request_table_features fst app].
  cbn [fmap list_fmap concat] in Hc |- *. rewrite <- app_assoc in Hc |- *. by apply fragments_pending.
Qed.

(** ** Examples *)

Definition ex_features (id entries : Z) : ofl_table_features := TableFeatures 64 id [] 0 0 0 entries [].
Definition ex_tables : list table := (λ i, Table (ex_features (Z.of_nat i) 4096) false) <$> seq 0 64.

(** Tables 0 to 9 keep on: eight of them in a first reply, two in a second one. *)
Lemma features_replies_witness :
  ∃ rs, replies TABLES (take 10 ex_tables ++ (disable <$> drop 10 ex_tables)) 0 = Some rs ∧
    concat (snd <$> rs) = t_features <$> take 10 ex_tables ∧ well_flagged rs.
Proof.
  destruct (features_replies_exact (take 10 ex_tables ++ (disable <$> drop 10 ex_tables))) as (rs & E & Hc & Hw); [reflexivity|].
  exists rs. split; [exact E|]. split; [rewrite Hc; reflexivity|exact Hw].
Defined.

Lemma fragments_reassemble_witness :
  send_fragments (FeaturesState ex_tables None) 7 [Some [ex_features 3 100]; None] (Some [ex_features 5 200]) =
    pipeline_handle_stats_request_table_features_request (FeaturesState ex_tables None) 7 0 (Some [ex_features 3 100; ex_features 5 200]).
Proof.
  apply (fragments_reassemble (FeaturesState ex_tables None) 7 (Some [ex_features 3 100]) [None] (Some [ex_features 5 200])).
  - reflexivity.
  - repeat constructor; discriminate.
  - repeat constructor; discriminate.
  - left. reflexivity.
Defined.

(** A request in two fragments whose second one asks for too many entries. *)
Example refused_fragment_freed_twice :
  send_fragments (FeaturesState ex_tables None) 7 [Some [ex_features 3 100]] (Some [ex_features 5 5000]) = None.
Proof. reflexivity. Qed.

(** A body of less than 64 bytes disables every table. *)
Example short_body_disables :
  (λ r, existsb (λ t, negb (t_disabled t)) (fs_tables r.1)) <$>
    pipeline_handle_stats_request_table_features_request (FeaturesState ex_tables None) 7 0 (Some []) = Some false.
Proof. reflexivity. Qed.
