(* ===== verification/Messages.v ===== *)
(** OpenFlow messages: oflib/ofl-messages-pack.c ([ofl_msg_pack]), ofl-messages-unpack.c
    ([ofl_msg_unpack]) and the structures of ofl-messages.h.

    The conventions are those of Wire: a message is the list of its bytes, reading behind its
    end is [Undef], errors are the values of [ofl_error].  [xid] is returned with a message.
    Experimenter messages go to the callbacks of [dp_exp], which are arguments. *)

From S2P Require Import Prelude Memory OpenFlow Oxm Group Meter Ports Controllers FlowTable Wire OxmWire StatsWire Experimenter.

(** * The structures *)

(** [struct ofl_desc]: buffers that hold strings. *)
Record ofl_msg_reply_desc := ReplyDesc {
  rd_mfr_desc : list Z; rd_hw_desc : list Z; rd_sw_desc : list Z; rd_serial_num : list Z; rd_dp_desc : list Z }.

Record ofl_msg_packet_in := OflPacketIn {
  pi_buffer_id : Z; pi_total_len : Z; pi_reason : Z; pi_table_id : Z; pi_cookie : Z; pi_match : ofl_match; pi_data : list Z }.

Record ofl_msg_packet_out := OflPacketOut { po_buffer_id : Z; po_in_port : Z; po_actions : list ofl_action; po_data : list Z }.

Record ofl_msg_multipart_request_flow := RequestFlow {
  rf_table_id : Z; rf_out_port : Z; rf_out_group : Z; rf_cookie : Z; rf_cookie_mask : Z; rf_match : ofl_match }.

(** [None] for the NULL pointer of a request for table features without a body. *)
Inductive multipart_request :=
  | ReqEmpty
  | ReqFlow (r : ofl_msg_multipart_request_flow)
  | ReqPort (port_no : Z)
  | ReqQueue (port_no queue_id : Z)
  | ReqGroup (group_id : Z)
  | ReqMeter (meter_id : Z)
  | ReqTableFeatures (tables : option (list ofl_table_features)).

Inductive multipart_reply :=
  | RepDesc (d : ofl_msg_reply_desc)
  | RepFlow (stats : list ofl_flow_stats)
  | RepAggregate (packet_count byte_count flow_count : Z)
  | RepTable (stats : list ofl_table_stats)
  | RepTableFeatures (tables : list ofl_table_features)
  | RepPort (stats : list ofl_port_stats)
  | RepQueue (stats : list ofl_queue_stats)
  | RepGroup (stats : list ofl_group_stats)
  | RepGroupDesc (stats : list ofl_group_desc_stats)
  | RepGroupFeatures (types capabilities : Z) (max_groups actions : list Z)
  | RepMeter (stats : list ofl_meter_stats)
  | RepMeterConfig (stats : list ofl_meter_config)
  | RepMeterFeatures (max_meter band_types capabilities max_bands max_color : Z)
  | RepPortDesc (stats : list ofl_port).

(** [type] where several messages share a structure. *)
Inductive ofl_msg :=
  | MsgHeader (type : Z)
  | MsgError (type code : Z) (data : list Z)
  | MsgEcho (type : Z) (data : list Z)
  | MsgExperimenter (m : ofl_msg_experimenter)
  | MsgFeaturesReply (datapath_id n_buffers n_tables auxiliary_id capabilities : Z)
  | MsgGetConfigReply (flags miss_send_len : Z)
  | MsgSetConfig (flags miss_send_len : Z)
  | MsgPacketIn (m : ofl_msg_packet_in)
  | MsgFlowRemoved (stats : ofl_flow_stats) (reason : Z)
  | MsgPortStatus (reason : Z) (desc : ofl_port)
  | MsgPacketOut (m : ofl_msg_packet_out)
  | MsgFlowMod (m : ofl_msg_flow_mod)
  | MsgGroupMod (m : ofl_msg_group_mod)
  | MsgPortMod (m : ofl_msg_port_mod)
  | MsgTableMod (table_id config : Z)
  | MsgMultipartRequest (type flags : Z) (body : multipart_request)
  | MsgMultipartReply (type flags : Z) (body : multipart_reply)
  | MsgQueueGetConfigRequest (port : Z)
  | MsgQueueGetConfigReply (port : Z) (queues : list ofl_packet_queue)
  | MsgRole (type role generation_id : Z)
  | MsgAsync (type : Z) (config : ofl_async_config)
  | MsgMeterMod (m : ofl_msg_meter_mod).

(** The numbers of commands. *)
Definition flow_command (c : Z) : flow_mod_command :=
  if c =? 0 then OFPFC_ADD else if c =? 1 then OFPFC_MODIFY else if c =? 2 then OFPFC_MODIFY_STRICT
  else if c =? 3 then OFPFC_DELETE else if c =? 4 then OFPFC_DELETE_STRICT else OFPFC_other c.
Definition flow_command_no (c : flow_mod_command) : Z :=
  match c with
  | OFPFC_ADD => 0 | OFPFC_MODIFY => 1 | OFPFC_MODIFY_STRICT => 2 | OFPFC_DELETE => 3 | OFPFC_DELETE_STRICT => 4 | OFPFC_other c => c
  end.
Definition group_command_of (c : Z) : group_command :=
  if c =? 0 then OFPGC_ADD else if c =? 1 then OFPGC_MODIFY else if c =? 2 then OFPGC_DELETE else OFPGC_other c.
Definition group_command_no (c : group_command) : Z :=
  match c with OFPGC_ADD => 0 | OFPGC_MODIFY => 1 | OFPGC_DELETE => 2 | OFPGC_other c => c end.
Definition meter_command_of (c : Z) : meter_command :=
  if c =? 0 then OFPMC_ADD else if c =? 1 then OFPMC_MODIFY else if c =? 2 then OFPMC_DELETE else OFPMC_other c.
Definition meter_command_no (c : meter_command) : Z :=
  match c with OFPMC_ADD => 0 | OFPMC_MODIFY => 1 | OFPMC_DELETE => 2 | OFPMC_other c => c end.

(** * Unpacking *)

Definition OFP_VERSION := 4.
Definition OFL_ERROR := 0xffffffff.
Definition OFPM_MAX := 0xffff0000.
Definition OFPTT_ALL := 0xff.
Definition BAD_REQUEST (code : Z) : Z := ofl_error OFPET_BAD_REQUEST code.

(** What follows [p], [len] bytes. *)
Definition get_data (buf : list Z) (p : nat) (len : Z) : res (list Z) := copy_bytes buf p (Z.to_nat len).

Definition ofl_msg_unpack_error (buf : list Z) (len : Z) : res (ofl_msg * Z) :=
  if len <? 12 then Err OFL_ERROR
  else type ← get 2 buf 8; code ← get 2 buf 10; data ← get_data buf 12 (len - 12); Val (MsgError type code data, 0).

Definition ofl_msg_unpack_echo (buf : list Z) (t len : Z) : res (ofl_msg * Z) :=
  data ← get_data buf 8 (len - 8); Val (MsgEcho t data, 0).

Definition ofl_msg_unpack_role_request (buf : list Z) (t len : Z) : res (ofl_msg * Z) :=
  if len <? 24 then Err OFPBRC_BAD_LEN
  else role ← get 4 buf 8; generation_id ← get 8 buf 16; Val (MsgRole t role generation_id, len - 24).

(** A short message is only logged. *)
Definition ofl_msg_unpack_features_reply (buf : list Z) (len : Z) : res (ofl_msg * Z) :=
  datapath_id ← get 8 buf 8; n_buffers ← get 4 buf 16; n_tables ← get 1 buf 20; auxiliary_id ← get 1 buf 21; capabilities ← get 4 buf 24;
  Val (MsgFeaturesReply datapath_id n_buffers n_tables auxiliary_id capabilities, u64 (len - 32)).

Definition ofl_msg_unpack_get_config_reply (buf : list Z) (len : Z) : res (ofl_msg * Z) :=
  if len <? 12 then Err OFPBRC_BAD_LEN
  else miss_send_len ← get 2 buf 10; flags ← get 2 buf 8; Val (MsgGetConfigReply flags miss_send_len, len - 12).

Definition ofl_msg_unpack_set_config (buf : list Z) (len : Z) : res (ofl_msg * Z) :=
  if len <? 12 then Err OFPBRC_BAD_LEN
  else miss_send_len ← get 2 buf 10; flags ← get 2 buf 8; Val (MsgSetConfig flags miss_send_len, len - 12).

Definition ofl_msg_unpack_async_config (buf : list Z) (t len : Z) : res (ofl_msg * Z) :=
  if len <? 32 then Err OFPBRC_BAD_LEN
  else
    p0 ← get 4 buf 8; s0 ← get 4 buf 16; f0 ← get 4 buf 24;
    p1 ← get 4 buf 12; s1 ← get 4 buf 20; f1 ← get 4 buf 28;
    Val (MsgAsync t (AsyncConfig (p0, p1) (s0, s1) (f0, f1)), len - 32).

(** The fields of a match in front of the one that is bad. *)
Fixpoint pulled_before (fuel : nat) (m : ofl_match) (p : list Z) : ofl_match :=
  let header := oxm_entry_ok p in
  if header =? 0 then m
  else match fuel with
       | O => m
       | S fuel =>
         match pull_entry m header p with
         | Val m => pulled_before fuel m (drop (4 + Z.to_nat (OXM_LENGTH header)) p)
         | _ => m
         end
       end.

(** An error in the match is not looked at: the message has the match with the fields pulled
    before it.  There is none when its type is unknown. *)
Definition unpack_match_anyway (buf : list Z) (p : nat) (len : Z) : res (ofl_match * Z) :=
  match ofl_structs_match_unpack buf p len with
  | Err _ =>
    t ← get 2 buf p; length ← get 2 buf (p + 2);
    if t =? 1 then
      b ← get_bytes buf (p + 4) (Z.to_nat (length - 4));
      Val (Match (length - 4) (match_fields (pulled_before (List.length b) ofl_structs_match_init b)), u64 (len - ROUND_UP length))
    else Undef
  | r => r
  end.

Definition ofl_msg_unpack_packet_in (buf : list Z) (len : Z) : res (ofl_msg * Z) :=
  if len <? 32 then Err OFPBRC_BAD_LEN
  else
    table_id ← get 1 buf 15;
    if table_id =? PIPELINE_TABLES then Err BAD_TABLE_ID
    else
      buffer_id ← get 4 buf 8; total_len ← get 2 buf 12; reason ← get 1 buf 14; cookie ← get 8 buf 16;
      '(m, len) ← unpack_match_anyway buf 24 (len - 24);
      let len := u64 (len - 2) in
      data ← get_data buf (Z.to_nat (ROUND_UP (28 + match_length m)) + 2) len;
      Val (MsgPacketIn (OflPacketIn buffer_id total_len reason table_id cookie m data), 0).

Definition ofl_msg_unpack_flow_removed (buf : list Z) (len : Z) : res (ofl_msg * Z) :=
  if len <? 48 then Err OFL_ERROR
  else
    table_id ← get 1 buf 19;
    if PIPELINE_TABLES <=? table_id then Err BAD_TABLE_ID
    else
      reason ← get 1 buf 18; duration_sec ← get 4 buf 20; duration_nsec ← get 4 buf 24; priority ← get 2 buf 16; idle_timeout ← get 2 buf 28;
      cookie ← get 8 buf 8; packet_count ← get 8 buf 32; byte_count ← get 8 buf 40;
      '(m, len) ← ofl_structs_match_unpack buf 48 (len - 48);
      Val (MsgFlowRemoved (OflFlowStats table_id duration_sec duration_nsec priority idle_timeout 0 0 cookie packet_count byte_count m []) reason, len).

Definition ofl_msg_unpack_port_status (buf : list Z) (len : Z) : res (ofl_msg * Z) :=
  if len <? 80 then Err OFPBRC_BAD_LEN
  else reason ← get 1 buf 8; '(desc, len) ← ofl_structs_port_unpack buf 16 (len - 16); Val (MsgPortStatus reason desc, len).

(** When an action is bad its message is freed, and the loop goes on with it. *)
Definition ofl_msg_unpack_packet_out (buf : list Z) (len : Z) : res (ofl_msg * Z) :=
  if len <? 24 then Err OFPBRC_BAD_LEN
  else
    buffer_id ← get 4 buf 8; actions_len ← get 2 buf 16;
    if negb (buffer_id =? 0xffffffff) && negb (len =? 24 + actions_len) then Err OFPBRC_BAD_LEN
    else
      let len := len - 24 in
      in_port ← get 4 buf 12;
      if len <? actions_len then Err OFPBRC_BAD_LEN
      else
        n ← ofl_utils_count_ofp_actions buf 24 actions_len;
        '(actions, len) ← match unpack_loop (ofl_actions_unpack buf) 2 n buf 24 len with Err _ => Undef | r => r end;
        data ← get_data buf (24 + Z.to_nat actions_len) len;
        Val (MsgPacketOut (OflPacketOut buffer_id in_port actions data), 0).

(** The test of the command in the check of the table holds for every command. *)
Definition ofl_msg_unpack_flow_mod (buf : list Z) (len : Z) : res (ofl_msg * Z) :=
  if len <? 48 then Err OFPBRC_BAD_LEN
  else
    table_id ← get 1 buf 24; command ← get 1 buf 25;
    if (PIPELINE_TABLES <=? table_id) && ((negb (command =? 3) || negb (command =? 4)) && negb (table_id =? OFPTT_ALL)) then Err BAD_TABLE_ID
    else
      cookie ← get 8 buf 8; cookie_mask ← get 8 buf 16; idle_timeout ← get 2 buf 26; hard_timeout ← get 2 buf 28; priority ← get 2 buf 30;
      buffer_id ← get 4 buf 32; out_port ← get 4 buf 36; out_group ← get 4 buf 40; flags ← get 2 buf 44;
      '(m, instructions, len) ← unpack_match_instructions buf 0 48 (len - 48);
      Val (MsgFlowMod (FlowMod cookie cookie_mask table_id (flow_command command) idle_timeout hard_timeout priority buffer_id out_port out_group
                         flags m instructions), len).

(** [ntohs] turns the byte of the type around. *)
Definition ofl_msg_unpack_group_mod (buf : list Z) (len : Z) : res (ofl_msg * Z) :=
  if len <? 16 then Err OFPBRC_BAD_LEN
  else
    let len := len - 16 in
    command ← get 2 buf 8; type ← get 1 buf 10; group_id ← get 4 buf 12;
    if 2 <? command then Err (BAD_REQUEST 11)
    else if (3 <? bswap16 type) && (bswap16 type <? 128) then Err (BAD_REQUEST 10)
    else if (OFPG_MAX <? group_id) && negb ((command =? 2) && (group_id =? OFPG_ALL)) then Err (ofl_error OFPET_GROUP_MOD_FAILED 1)
    else
      n ← ofl_utils_count_ofp_buckets buf 16 len;
      if (command =? 2) && (0 <? n)%nat then Err (ofl_error OFPET_GROUP_MOD_FAILED 1)
      else if (type =? OFPGT_INDIRECT) && negb (n =? 1)%nat then Err (ofl_error OFPET_GROUP_MOD_FAILED 1)
      else
        '(buckets, len) ← unpack_loop (ofl_structs_bucket_unpack buf type) 0 n buf 16 len;
        Val (MsgGroupMod (GroupMod (group_command_of command) type group_id buckets), len).

Definition ofl_msg_unpack_meter_mod (buf : list Z) (len : Z) : res (ofl_msg * Z) :=
  if len <? 16 then Err OFPBRC_BAD_LEN
  else
    let len := len - 16 in
    command ← get 2 buf 8; flags ← get 2 buf 10; meter_id ← get 4 buf 12;
    if 2 <? command then Err (BAD_REQUEST 4)
    else if 1 <? Z.shiftr flags 3 then Err (BAD_REQUEST 5)
    else if (OFPM_MAX <? meter_id) && negb ((command =? 2) && (meter_id =? OFPM_ALL)) then Err (ofl_error OFPET_METER_MOD_FAILED 2)
    else
      n ← ofl_utils_count_ofp_meter_bands buf 16 len;
      '(bands, len) ← unpack_loop (ofl_structs_meter_band_unpack buf) 2 n buf 16 len;
      Val (MsgMeterMod (MeterMod (meter_command_of command) flags meter_id bands), len).

Definition ofl_msg_unpack_port_mod (buf : list Z) (len : Z) : res (ofl_msg * Z) :=
  if len <? 40 then Err OFPBRC_BAD_LEN
  else
    port_no ← get 4 buf 8; hw_addr ← get_bytes buf 16 6; config ← get 4 buf 24; mask ← get 4 buf 28; advertise ← get 4 buf 32;
    Val (MsgPortMod (PortMod port_no hw_addr config mask advertise), len - 40).

Definition ofl_msg_unpack_table_mod (buf : list Z) (len : Z) : res (ofl_msg * Z) :=
  if len <? 16 then Err OFPBRC_BAD_LEN
  else
    table_id ← get 1 buf 8;
    if PIPELINE_TABLES <=? table_id then Err BAD_TABLE_ID
    else config ← get 4 buf 12; Val (MsgTableMod table_id config, len - 16).

(** ** Multipart messages *)

Definition ofl_msg_unpack_multipart_request_flow (buf : list Z) (len : Z) : res (multipart_request * Z) :=
  if len <? 32 then Err OFPBRC_BAD_LEN
  else
    table_id ← get 1 buf 16;
    if negb (table_id =? OFPTT_ALL) && (PIPELINE_TABLES <=? table_id) then Err BAD_TABLE_ID
    else
      out_port ← get 4 buf 20; out_group ← get 4 buf 24; cookie ← get 8 buf 32; cookie_mask ← get 8 buf 40;
      '(m, len) ← ofl_structs_match_unpack buf 48 (len - 32);
      Val (ReqFlow (RequestFlow table_id out_port out_group cookie cookie_mask m), len).

Definition bad_stats_port (port_no : Z) : bool := (port_no =? 0) || ((OFPP_MAX <? port_no) && negb (port_no =? OFPP_ANY)).

Definition ofl_msg_unpack_multipart_request_port (buf : list Z) (len : Z) : res (multipart_request * Z) :=
  if len <? 8 then Err OFPBRC_BAD_LEN
  else port_no ← get 4 buf 16; if bad_stats_port port_no then Err OFPBRC_BAD_LEN else Val (ReqPort port_no, len - 8).

Definition ofl_msg_unpack_multipart_request_queue (buf : list Z) (len : Z) : res (multipart_request * Z) :=
  if len <? 8 then Err OFPBRC_BAD_LEN
  else
    port_no ← get 4 buf 16;
    if bad_stats_port port_no then Err OFPBRC_BAD_LEN else queue_id ← get 4 buf 20; Val (ReqQueue port_no queue_id, len - 8).

Definition ofl_msg_unpack_multipart_request_group (buf : list Z) (len : Z) : res (multipart_request * Z) :=
  if len <? 8 then Err OFPBRC_BAD_LEN else group_id ← get 4 buf 16; Val (ReqGroup group_id, len - 8).

Definition ofl_msg_unpack_meter_multipart_request (buf : list Z) (len : Z) : res (multipart_request * Z) :=
  if len <? 8 then Err OFPBRC_BAD_LEN else meter_id ← get 4 buf 16; Val (ReqMeter meter_id, len - 8).

(** The tables at [p] of the message. *)
Definition unpack_tables (buf : list Z) (p : nat) (len : Z) : res (list ofl_table_features * Z) :=
  n ← ofl_utils_count_ofp_table_features buf p len;
  unpack_loop (ofl_structs_table_features_unpack buf) 0 n buf p len.

Definition ofl_msg_unpack_multipart_request_table_features (buf : list Z) (len : Z) : res (multipart_request * Z) :=
  if len =? 0 then Val (ReqTableFeatures None, len)
  else '(tables, len) ← unpack_tables buf 16 len; Val (ReqTableFeatures (Some tables), len).

(** [len], a copy of the pointer, is moved instead of [*len] for a request without a body. *)
Definition ofl_msg_unpack_multipart_request (buf : list Z) (len : Z) : res (ofl_msg * Z) :=
  if len <? 16 then Err OFPBRC_BAD_LEN
  else
    let len := len - 16 in
    type ← get 2 buf 8;
    '(body, len) ←
      (if bool_decide (type ∈ [0; 3; 7; 8; 11; 13]) then Val (ReqEmpty, len)
       else if bool_decide (type ∈ [1; 2]) then ofl_msg_unpack_multipart_request_flow buf len
       else if type =? 12 then ofl_msg_unpack_multipart_request_table_features buf len
       else if type =? 4 then ofl_msg_unpack_multipart_request_port buf len
       else if type =? 5 then ofl_msg_unpack_multipart_request_queue buf len
       else if type =? 6 then ofl_msg_unpack_multipart_request_group buf len
       else if bool_decide (type ∈ [9; 10]) then ofl_msg_unpack_meter_multipart_request buf len
       else Err (BAD_REQUEST 2));
    flags ← get 2 buf 10;
    Val (MsgMultipartRequest type flags body, len).

Definition DESC_STR_LEN : nat := 256.

(** The strings are copied up to their NULs, with them. *)
Definition ofl_msg_unpack_reply_desc (buf : list Z) (len : Z) : res (multipart_reply * Z) :=
  if len <? 1056 then Err OFPBRC_BAD_LEN
  else
    mfr ← get_string buf 16; hw ← get_string buf 272; sw ← get_string buf 528; serial ← get_string buf 784; dp ← get_string buf 816;
    Val (RepDesc (ReplyDesc (mfr ++ [0]) (hw ++ [0]) (sw ++ [0]) (serial ++ [0]) (dp ++ [0])), len - 1056).

Definition ofl_msg_unpack_multipart_reply_flow (buf : list Z) (len : Z) : res (multipart_reply * Z) :=
  n ← ofl_utils_count_ofp_flow_stats buf 16 len;
  '(stats, len) ← unpack_loop (ofl_structs_flow_stats_unpack buf) 0 n buf 16 len; Val (RepFlow stats, len).

Definition ofl_msg_unpack_multipart_reply_aggregate (buf : list Z) (len : Z) : res (multipart_reply * Z) :=
  if len <? 24 then Err OFPBRC_BAD_LEN
  else packet_count ← get 8 buf 16; byte_count ← get 8 buf 24; flow_count ← get 4 buf 32; Val (RepAggregate packet_count byte_count flow_count, len - 24).

Definition ofl_msg_unpack_multipart_reply_table (buf : list Z) (len : Z) : res (multipart_reply * Z) :=
  '(stats, len) ← unpack_fixed (ofl_structs_table_stats_unpack buf) 24 (ofl_utils_count_ofp_table_stats len) 16 len; Val (RepTable stats, len).
Definition ofl_msg_unpack_multipart_reply_port (buf : list Z) (len : Z) : res (multipart_reply * Z) :=
  '(stats, len) ← unpack_fixed (ofl_structs_port_stats_unpack buf) 112 (ofl_utils_count_ofp_port_stats len) 16 len; Val (RepPort stats, len).
Definition ofl_msg_unpack_multipart_reply_queue (buf : list Z) (len : Z) : res (multipart_reply * Z) :=
  '(stats, len) ← unpack_fixed (ofl_structs_queue_stats_unpack buf) 40 (ofl_utils_count_ofp_queue_stats len) 16 len; Val (RepQueue stats, len).
Definition ofl_msg_unpack_multipart_reply_port_desc (buf : list Z) (len : Z) : res (multipart_reply * Z) :=
  '(stats, len) ← unpack_fixed (ofl_structs_port_unpack buf) 64 (ofl_utils_count_ofp_ports len) 16 len; Val (RepPortDesc stats, len).

Definition ofl_msg_unpack_multipart_reply_group (buf : list Z) (len : Z) : res (multipart_reply * Z) :=
  n ← ofl_utils_count_ofp_group_stats buf 16 len;
  '(stats, len) ← unpack_loop (ofl_structs_group_stats_unpack buf) 0 n buf 16 len; Val (RepGroup stats, len).
Definition ofl_msg_unpack_multipart_reply_group_desc (buf : list Z) (len : Z) : res (multipart_reply * Z) :=
  n ← ofl_utils_count_ofp_group_desc_stats buf 16 len;
  '(stats, len) ← unpack_loop (ofl_structs_group_desc_stats_unpack buf) 0 n buf 16 len; Val (RepGroupDesc stats, len).
Definition ofl_msg_unpack_multipart_reply_meter_stats (buf : list Z) (len : Z) : res (multipart_reply * Z) :=
  n ← ofl_utils_count_ofp_meter_stats buf 16 len;
  '(stats, len) ← unpack_loop (ofl_structs_meter_stats_unpack buf) 4 n buf 16 len; Val (RepMeter stats, len).
Definition ofl_msg_unpack_multipart_reply_meter_config (buf : list Z) (len : Z) : res (multipart_reply * Z) :=
  n ← ofl_utils_count_ofp_meter_config buf 16 len;
  '(stats, len) ← unpack_loop (ofl_structs_meter_config_unpack buf) 0 n buf 16 len; Val (RepMeterConfig stats, len).
Definition ofl_msg_unpack_multipart_reply_table_features (buf : list Z) (len : Z) : res (multipart_reply * Z) :=
  '(tables, len) ← unpack_tables buf 16 len; Val (RepTableFeatures tables, len).

Definition ofl_msg_unpack_multipart_reply_group_features (buf : list Z) (len : Z) : res (multipart_reply * Z) :=
  if len <? 40 then Err OFPBRC_BAD_LEN
  else
    types ← get 4 buf 16; capabilities ← get 4 buf 20; max_groups ← get_numbers 4 buf 24; actions ← get_numbers 4 buf 40;
    Val (RepGroupFeatures types capabilities max_groups actions, len - 40).

Definition ofl_msg_unpack_multipart_reply_meter_features (buf : list Z) (len : Z) : res (multipart_reply * Z) :=
  if len <? 16 then Err OFPBRC_BAD_LEN
  else
    max_meter ← get 4 buf 16; band_types ← get 4 buf 20; capabilities ← get 4 buf 24; max_bands ← get 1 buf 28; max_color ← get 1 buf 29;
    Val (RepMeterFeatures max_meter band_types capabilities max_bands max_color, len - 16).

(** The switch over the types of replies. *)
Definition unpack_reply (buf : list Z) (type len : Z) : res (multipart_reply * Z) :=
  if type =? 0 then ofl_msg_unpack_reply_desc buf len
  else if type =? 1 then ofl_msg_unpack_multipart_reply_flow buf len
  else if type =? 2 then ofl_msg_unpack_multipart_reply_aggregate buf len
  else if type =? 3 then ofl_msg_unpack_multipart_reply_table buf len
  else if type =? 12 then ofl_msg_unpack_multipart_reply_table_features buf len
  else if type =? 4 then ofl_msg_unpack_multipart_reply_port buf len
  else if type =? 5 then ofl_msg_unpack_multipart_reply_queue buf len
  else if type =? 6 then ofl_msg_unpack_multipart_reply_group buf len
  else if type =? 7 then ofl_msg_unpack_multipart_reply_group_desc buf len
  else if type =? 8 then ofl_msg_unpack_multipart_reply_group_features buf len
  else if type =? 9 then ofl_msg_unpack_multipart_reply_meter_stats buf len
  else if type =? 10 then ofl_msg_unpack_multipart_reply_meter_config buf len
  else if type =? 11 then ofl_msg_unpack_multipart_reply_meter_features buf len
  else if type =? 13 then ofl_msg_unpack_multipart_reply_port_desc buf len
  else Err (BAD_REQUEST 2).

Definition ofl_msg_unpack_multipart_reply (buf : list Z) (len : Z) : res (ofl_msg * Z) :=
  if len <? 16 then Err OFPBRC_BAD_LEN
  else
    let len := len - 16 in
    type ← get 2 buf 8;
    '(body, len) ← unpack_reply buf type len;
    flags ← get 2 buf 10;
    Val (MsgMultipartReply type flags body, len).

(** ** Queues *)

(** The length is compared with that of another structure, eight bytes. *)
Definition ofl_msg_unpack_queue_get_config_request (buf : list Z) (len : Z) : res (ofl_msg * Z) :=
  if len <? 8 then Err OFPBRC_BAD_LEN
  else
    port ← get 4 buf 8;
    if (port =? 0) || (OFPP_ANY <? port) then Err (ofl_error OFPET_QUEUE_OP_FAILED 0)
    else Val (MsgQueueGetConfigRequest port, u64 (len - 16)).

Definition ofl_msg_unpack_queue_get_config_reply (buf : list Z) (len : Z) : res (ofl_msg * Z) :=
  if len <? 16 then Err OFPBRC_BAD_LEN
  else
    let len := len - 16 in
    port ← get 4 buf 8;
    n ← ofl_utils_count_ofp_packet_queues buf 16 len;
    '(queues, len) ← unpack_loop (ofl_structs_packet_queue_unpack buf) 8 n buf 16 len;
    Val (MsgQueueGetConfigReply port queues, len).

(** ** Any message *)

Definition ofl_msg_unpack_empty (t len : Z) : res (ofl_msg * Z) := Val (MsgHeader t, len - 8).

Definition OFPT_EXPERIMENTER := 4.

(** The switch over the types. *)
Definition unpack_body (exp_unpack : list Z → Z → res (ofl_msg_experimenter * Z)) (buf : list Z) (t len : Z) : res (ofl_msg * Z) :=
  if bool_decide (t ∈ [0; 5; 7; 20; 21; 26]) then ofl_msg_unpack_empty t len
  else if t =? 1 then ofl_msg_unpack_error buf len
  else if bool_decide (t ∈ [2; 3]) then ofl_msg_unpack_echo buf t len
  else if t =? OFPT_EXPERIMENTER then '(m, len) ← exp_unpack buf len; Val (MsgExperimenter m, len)
  else if t =? 6 then ofl_msg_unpack_features_reply buf len
  else if t =? 8 then ofl_msg_unpack_get_config_reply buf len
  else if t =? 9 then ofl_msg_unpack_set_config buf len
  else if t =? 10 then ofl_msg_unpack_packet_in buf len
  else if t =? 11 then ofl_msg_unpack_flow_removed buf len
  else if t =? 12 then ofl_msg_unpack_port_status buf len
  else if t =? 13 then ofl_msg_unpack_packet_out buf len
  else if t =? 14 then ofl_msg_unpack_flow_mod buf len
  else if t =? 15 then ofl_msg_unpack_group_mod buf len
  else if t =? 16 then ofl_msg_unpack_port_mod buf len
  else if t =? 17 then ofl_msg_unpack_table_mod buf len
  else if t =? 18 then ofl_msg_unpack_multipart_request buf len
  else if t =? 19 then ofl_msg_unpack_multipart_reply buf len
  else if t =? 22 then ofl_msg_unpack_queue_get_config_request buf len
  else if t =? 23 then ofl_msg_unpack_queue_get_config_reply buf len
  else if bool_decide (t ∈ [24; 25]) then ofl_msg_unpack_role_request buf t len
  else if bool_decide (t ∈ [27; 28]) then ofl_msg_unpack_async_config buf t len
  else if t =? 29 then ofl_msg_unpack_meter_mod buf len
  else Err (BAD_REQUEST 10).

(** The transaction id and the message.  Bytes that are left over are only logged. *)
Definition ofl_msg_unpack (exp_unpack : list Z → Z → res (ofl_msg_experimenter * Z)) (buf : list Z) : res (Z * ofl_msg) :=
  let len := Z.of_nat (length buf) in
  if len <? 8 then Err OFPBRC_BAD_LEN
  else
    version ← get 1 buf 0;
    if negb (version =? OFP_VERSION) then Err (ofl_error 0 0)
    else
      xid ← get 4 buf 4; length ← get 2 buf 2;
      if negb (len =? length) then Err OFPBRC_BAD_LEN
      else t ← get 1 buf 1; '(msg, _) ← unpack_body exp_unpack buf t len; Val (xid, msg).

(** * Packing *)

(** A function that packs a message returns [*buf_len] and what is behind the header in the
    buffer; [None]: bytes are read that are not there, or an error is returned. *)

Definition ofl_structs_packet_queue_ofp_len (q : ofl_packet_queue) : Z := 16 + 16 * Z.of_nat (length (pq_properties q)).
Definition ofl_structs_packet_queue_ofp_total_len (l : list ofl_packet_queue) : Z := zsum (ofl_structs_packet_queue_ofp_len <$> l).

Section pack.
  Context `{M : Malloc}.

Definition ofl_msg_pack_empty : option (Z * list Z) := Some (8, []).

Definition ofl_msg_pack_error (type code : Z) (data : list Z) : option (Z * list Z) :=
  Some (12 + Z.of_nat (length data), be 2 type ++ be 2 code ++ data).

Definition ofl_msg_pack_echo (data : list Z) : option (Z * list Z) := Some (8 + Z.of_nat (length data), data).

Definition ofl_msg_pack_role_request (role generation_id : Z) : option (Z * list Z) := Some (24, be 4 role ++ zeros 4 ++ be 8 generation_id).

Definition ofl_msg_pack_features_reply (datapath_id n_buffers n_tables auxiliary_id capabilities : Z) : option (Z * list Z) :=
  Some (32, be 8 datapath_id ++ be 4 n_buffers ++ be 1 n_tables ++ be 1 auxiliary_id ++ zeros 2 ++ be 4 capabilities ++ zeros 4).

Definition ofl_msg_pack_get_config_reply (flags miss_send_len : Z) : option (Z * list Z) := Some (12, be 2 flags ++ be 2 miss_send_len).
Definition ofl_msg_pack_set_config (flags miss_send_len : Z) : option (Z * list Z) := Some (12, be 2 flags ++ be 2 miss_send_len).

(** Two bytes of padding, and the frame. *)
Definition ofl_msg_pack_packet_in (m : ofl_msg_packet_in) : option (Z * list Z) :=
  Some (ROUND_UP (28 + match_length (pi_match m)) + 2 + Z.of_nat (length (pi_data m)),
        be 4 (pi_buffer_id m) ++ be 2 (pi_total_len m) ++ be 1 (pi_reason m) ++ be 1 (pi_table_id m) ++ be 8 (pi_cookie m) ++
        pack_match 24 (pi_match m) ++ zeros 2 ++ pi_data m).

(** The hard timeout is not set. *)
Definition ofl_msg_pack_flow_removed (s : ofl_flow_stats) (reason : Z) : option (Z * list Z) :=
  Some (ROUND_UP (52 + match_length (ofs_match s)),
        be 8 (ofs_cookie s) ++ be 2 (ofs_priority s) ++ be 1 reason ++ be 1 (ofs_table_id s) ++ be 4 (ofs_duration_sec s) ++
        be 4 (ofs_duration_nsec s) ++ be 2 (ofs_idle_timeout s) ++ fresh 2 ++ be 8 (ofs_packet_count s) ++ be 8 (ofs_byte_count s) ++
        pack_match 48 (ofs_match s)).

Definition ofl_msg_pack_port_status (reason : Z) (desc : ofl_port) : option (Z * list Z) :=
  bs ← ofl_structs_port_pack desc; Some (80, be 1 reason ++ zeros 7 ++ bs).

(** The value of a set-field action and its padding go to offset 8 of the message, over the
    sixteen bytes [fixed] in front of the actions, instead of to offset 8 of the action. *)
Definition pack_out_action (fixed : list Z) (a : ofl_action) : option (list Z * list Z) :=
  match a with
  | ActSetField f =>
    value ← swap_value (tlv_header f) (tlv_value f);
    let n := OXM_LENGTH (tlv_header f) in
    let over := value ++ zeros (Z.to_nat (ROUND_UP n - n)) in
    Some (over ++ drop (length over) fixed, be 2 25 ++ be 2 (8 + ROUND_UP n) ++ be 4 (tlv_header f) ++ fresh (Z.to_nat (ROUND_UP n)))
  | _ => bs ← ofl_actions_pack a; Some (fixed, bs)
  end.

Fixpoint pack_out_actions (fixed : list Z) (l : list ofl_action) : option (list Z * list Z) :=
  match l with
  | [] => Some (fixed, [])
  | a :: l => '(fixed, bs) ← pack_out_action fixed a; '(fixed, rest) ← pack_out_actions fixed l; Some (fixed, bs ++ rest)
  end.

Definition ofl_msg_pack_packet_out (m : ofl_msg_packet_out) : option (Z * list Z) :=
  let act_len := ofl_actions_ofp_total_len (po_actions m) in
  '(fixed, bs) ← pack_out_actions (be 4 (po_buffer_id m) ++ be 4 (po_in_port m) ++ be 2 act_len ++ zeros 6) (po_actions m);
  Some (24 + act_len + Z.of_nat (length (po_data m)), fixed ++ bs ++ po_data m).

Definition ofl_msg_pack_flow_mod (m : ofl_msg_flow_mod) : option (Z * list Z) :=
  bs ← pack_all ofl_structs_instructions_pack (fm_instructions m);
  Some (ROUND_UP (52 + match_length (fm_match m)) + ofl_structs_instructions_ofp_total_len (fm_instructions m),
        be 8 (fm_cookie m) ++ be 8 (fm_cookie_mask m) ++ be 1 (fm_table_id m) ++ be 1 (flow_command_no (fm_command m)) ++
        be 2 (fm_idle_timeout m) ++ be 2 (fm_hard_timeout m) ++ be 2 (fm_priority m) ++ be 4 (fm_buffer_id m) ++ be 4 (fm_out_port m) ++
        be 4 (fm_out_group m) ++ be 2 (fm_flags m) ++ zeros 2 ++ pack_match 48 (fm_match m) ++ bs).

Definition ofl_msg_pack_group_mod (m : ofl_msg_group_mod) : option (Z * list Z) :=
  bs ← pack_all ofl_structs_bucket_pack (gm_buckets m);
  Some (16 + ofl_structs_buckets_ofp_total_len (gm_buckets m),
        be 2 (group_command_no (gm_command m)) ++ be 1 (gm_type m) ++ zeros 1 ++ be 4 (gm_group_id m) ++ bs).

Definition ofl_msg_pack_port_mod (m : ofl_msg_port_mod) : option (Z * list Z) :=
  Some (40, be 4 (pm_port_no m) ++ zeros 4 ++ pm_hw_addr m ++ zeros 2 ++ be 4 (pm_config m) ++ be 4 (pm_mask m) ++ be 4 (pm_advertise m) ++ zeros 4).

Definition ofl_msg_pack_table_mod (table_id config : Z) : option (Z * list Z) := Some (16, be 1 table_id ++ zeros 3 ++ be 4 config).

Definition ofl_msg_pack_meter_mod (m : ofl_msg_meter_mod) : option (Z * list Z) :=
  bs ← pack_all ofl_structs_meter_band_pack (mm_bands m);
  Some (16 + ofl_structs_meter_bands_ofp_total_len (mm_bands m),
        be 2 (meter_command_no (mm_command m)) ++ be 2 (mm_flags m) ++ be 4 (mm_meter_id m) ++ bs).

Definition ofl_msg_pack_async_config (c : ofl_async_config) : option (Z * list Z) :=
  let '(p0, p1) := packet_in_mask c in
  let '(s0, s1) := port_status_mask c in
  let '(f0, f1) := flow_removed_mask c in
  Some (32, be 4 p0 ++ be 4 p1 ++ be 4 s0 ++ be 4 s1 ++ be 4 f0 ++ be 4 f1).

(** ** Multipart messages *)

(** Here what is behind the multipart header, sixteen bytes with that of the message. *)

Definition ofl_msg_pack_multipart_request_empty : option (Z * list Z) := Some (16, []).

(** The length has the TLVs behind a structure that ends with eight bytes for a match; they are
    written behind the four bytes of its type and length, so that the last four bytes are not set. *)
Definition ofl_msg_pack_multipart_request_flow (r : ofl_msg_multipart_request_flow) : option (Z * list Z) :=
  Some (16 + 40 + match_length (rf_match r),
        be 1 (rf_table_id r) ++ zeros 3 ++ be 4 (rf_out_port r) ++ be 4 (rf_out_group r) ++ zeros 4 ++ be 8 (rf_cookie r) ++
        be 8 (rf_cookie_mask r) ++ ofl_structs_match_pack (rf_match r) ++ fresh 4).

Definition ofl_msg_pack_multipart_request_port (port_no : Z) : option (Z * list Z) := Some (16 + 8, be 4 port_no ++ zeros 4).
Definition ofl_msg_pack_multipart_request_queue (port_no queue_id : Z) : option (Z * list Z) := Some (16 + 8, be 4 port_no ++ be 4 queue_id).
Definition ofl_msg_pack_multipart_request_group (group_id : Z) : option (Z * list Z) := Some (16 + 8, be 4 group_id ++ zeros 4).
Definition ofl_msg_pack_meter_multipart_request (meter_id : Z) : option (Z * list Z) := Some (16 + 8, be 4 meter_id ++ zeros 4).

Definition ofl_msg_pack_multipart_request_table_features (tables : option (list ofl_table_features)) : option (Z * list Z) :=
  let tables := default [] tables in
  bs ← pack_all ofl_structs_table_features_pack tables; Some (16 + ofl_structs_table_features_ofp_total_len tables, bs).

(** The header of a multipart message and its body. *)
Definition behind_header (type flags : Z) (p : option (Z * list Z)) : option (Z * list Z) :=
  '(len, body) ← p; Some (len, be 2 type ++ be 2 flags ++ zeros 4 ++ body).

Definition ofl_msg_pack_multipart_request (type flags : Z) (r : multipart_request) : option (Z * list Z) :=
  behind_header type flags
    (match r with
     | ReqEmpty => if bool_decide (type ∈ [0; 3; 7; 8; 11; 13]) then ofl_msg_pack_multipart_request_empty else None
     | ReqFlow r => if bool_decide (type ∈ [1; 2]) then ofl_msg_pack_multipart_request_flow r else None
     | ReqPort port_no => if type =? 4 then ofl_msg_pack_multipart_request_port port_no else None
     | ReqQueue port_no queue_id => if type =? 5 then ofl_msg_pack_multipart_request_queue port_no queue_id else None
     | ReqGroup group_id => if type =? 6 then ofl_msg_pack_multipart_request_group group_id else None
     | ReqMeter meter_id => if bool_decide (type ∈ [9; 10]) then ofl_msg_pack_meter_multipart_request meter_id else None
     | ReqTableFeatures tables => if type =? 12 then ofl_msg_pack_multipart_request_table_features tables else None
     end).

(** [memcpy] of [n] bytes of a buffer. *)
Definition copied (n : nat) (bs : list Z) : option (list Z) := if (n <=? length bs)%nat then Some (take n bs) else None.

Definition ofl_msg_pack_multipart_reply_desc (d : ofl_msg_reply_desc) : option (Z * list Z) :=
  mfr ← copied DESC_STR_LEN (rd_mfr_desc d); hw ← copied DESC_STR_LEN (rd_hw_desc d); sw ← copied DESC_STR_LEN (rd_sw_desc d);
  serial ← copied 32 (rd_serial_num d); dp ← copied DESC_STR_LEN (rd_dp_desc d);
  Some (16 + 1056, mfr ++ hw ++ sw ++ serial ++ dp).

Definition ofl_msg_pack_multipart_reply_flow (l : list ofl_flow_stats) : option (Z * list Z) :=
  bs ← pack_all ofl_structs_flow_stats_pack l; Some (16 + ofl_structs_flow_stats_ofp_total_len l, bs).
Definition ofl_msg_pack_multipart_reply_aggregate (packet_count byte_count flow_count : Z) : option (Z * list Z) :=
  Some (16 + 24, be 8 packet_count ++ be 8 byte_count ++ be 4 flow_count ++ zeros 4).
Definition ofl_msg_pack_multipart_reply_table (l : list ofl_table_stats) : option (Z * list Z) :=
  bs ← pack_all ofl_structs_table_stats_pack l; Some (16 + Z.of_nat (length l) * 24, bs).
Definition ofl_msg_pack_multipart_reply_port (l : list ofl_port_stats) : option (Z * list Z) :=
  bs ← pack_all ofl_structs_port_stats_pack l; Some (16 + Z.of_nat (length l) * 112, bs).
Definition ofl_msg_pack_multipart_reply_queue (l : list ofl_queue_stats) : option (Z * list Z) :=
  bs ← pack_all ofl_structs_queue_stats_pack l; Some (16 + Z.of_nat (length l) * 40, bs).
Definition ofl_msg_pack_multipart_reply_group (l : list ofl_group_stats) : option (Z * list Z) :=
  bs ← pack_all ofl_structs_group_stats_pack l; Some (16 + ofl_structs_group_stats_ofp_total_len l, bs).
Definition ofl_msg_pack_multipart_reply_group_desc (l : list ofl_group_desc_stats) : option (Z * list Z) :=
  bs ← pack_all ofl_structs_group_desc_stats_pack l; Some (16 + ofl_structs_group_desc_stats_ofp_total_len l, bs).
Definition ofl_msg_pack_multipart_reply_group_features (types capabilities : Z) (max_groups actions : list Z) : option (Z * list Z) :=
  Some (16 + 40, be 4 types ++ be 4 capabilities ++ concat (be 4 <$> max_groups) ++ concat (be 4 <$> actions)).
Definition ofl_msg_pack_multipart_reply_table_features (tables : list ofl_table_features) : option (Z * list Z) :=
  bs ← pack_all ofl_structs_table_features_pack tables; Some (16 + ofl_structs_table_features_ofp_total_len tables, bs).
Definition ofl_msg_pack_multipart_reply_meter_stats (l : list ofl_meter_stats) : option (Z * list Z) :=
  bs ← pack_all ofl_structs_meter_stats_pack l; Some (16 + ofl_structs_meter_stats_ofp_total_len l, bs).
Definition ofl_msg_pack_multipart_reply_meter_conf (l : list ofl_meter_config) : option (Z * list Z) :=
  bs ← pack_all ofl_structs_meter_conf_pack l; Some (16 + ofl_structs_meter_conf_ofp_total_len l, bs).
Definition ofl_msg_pack_multipart_reply_meter_features (max_meter band_types capabilities max_bands max_color : Z) : option (Z * list Z) :=
  Some (16 + 16, be 4 max_meter ++ be 4 band_types ++ be 4 capabilities ++ be 1 max_bands ++ be 1 max_color ++ zeros 2).
Definition ofl_msg_pack_multipart_reply_port_status_desc (l : list ofl_port) : option (Z * list Z) :=
  bs ← pack_all ofl_structs_port_pack l; Some (16 + Z.of_nat (length l) * 64, bs).

Definition reply_type (r : multipart_reply) : Z :=
  match r with
  | RepDesc _ => 0 | RepFlow _ => 1 | RepAggregate _ _ _ => 2 | RepTable _ => 3 | RepPort _ => 4 | RepQueue _ => 5 | RepGroup _ => 6
  | RepGroupDesc _ => 7 | RepGroupFeatures _ _ _ _ => 8 | RepMeter _ => 9 | RepMeterConfig _ => 10 | RepMeterFeatures _ _ _ _ _ => 11
  | RepTableFeatures _ => 12 | RepPortDesc _ => 13
  end.

(** The switch over the types of replies; another type than that of the structure would have
    the structure taken for another one. *)
Definition pack_reply (r : multipart_reply) : option (Z * list Z) :=
  match r with
  | RepDesc d => ofl_msg_pack_multipart_reply_desc d
  | RepFlow l => ofl_msg_pack_multipart_reply_flow l
  | RepAggregate packet_count byte_count flow_count => ofl_msg_pack_multipart_reply_aggregate packet_count byte_count flow_count
  | RepTable l => ofl_msg_pack_multipart_reply_table l
  | RepTableFeatures tables => ofl_msg_pack_multipart_reply_table_features tables
  | RepPort l => ofl_msg_pack_multipart_reply_port l
  | RepQueue l => ofl_msg_pack_multipart_reply_queue l
  | RepGroup l => ofl_msg_pack_multipart_reply_group l
  | RepGroupDesc l => ofl_msg_pack_multipart_reply_group_desc l
  | RepGroupFeatures types capabilities max_groups actions =>
    ofl_msg_pack_multipart_reply_group_features types capabilities max_groups actions
  | RepMeter l => ofl_msg_pack_multipart_reply_meter_stats l
  | RepMeterConfig l => ofl_msg_pack_multipart_reply_meter_conf l
  | RepMeterFeatures max_meter band_types capabilities max_bands max_color =>
    ofl_msg_pack_multipart_reply_meter_features max_meter band_types capabilities max_bands max_color
  | RepPortDesc l => ofl_msg_pack_multipart_reply_port_status_desc l
  end.

Definition ofl_msg_pack_multipart_reply (type flags : Z) (r : multipart_reply) : option (Z * list Z) :=
  if negb (type =? reply_type r) then None else behind_header type flags (pack_reply r).

Definition ofl_msg_pack_queue_get_config_request (port : Z) : option (Z * list Z) := Some (16, be 4 port ++ zeros 4).
Definition ofl_msg_pack_queue_get_config_reply (port : Z) (queues : list ofl_packet_queue) : option (Z * list Z) :=
  bs ← pack_all ofl_structs_packet_queue_pack queues; Some (16 + ofl_structs_packet_queue_ofp_total_len queues, be 4 port ++ zeros 4 ++ bs).

(** The type of a message: [msg->type]. *)
Definition msg_type (m : ofl_msg) : Z :=
  match m with
  | MsgHeader t | MsgEcho t _ | MsgRole t _ _ | MsgAsync t _ => t
  | MsgError _ _ _ => 1 | MsgExperimenter _ => OFPT_EXPERIMENTER | MsgFeaturesReply _ _ _ _ _ => 6 | MsgGetConfigReply _ _ => 8
  | MsgSetConfig _ _ => 9 | MsgPacketIn _ => 10 | MsgFlowRemoved _ _ => 11 | MsgPortStatus _ _ => 12 | MsgPacketOut _ => 13
  | MsgFlowMod _ => 14 | MsgGroupMod _ => 15 | MsgPortMod _ => 16 | MsgTableMod _ _ => 17 | MsgMultipartRequest _ _ _ => 18
  | MsgMultipartReply _ _ _ => 19 | MsgQueueGetConfigRequest _ => 22 | MsgQueueGetConfigReply _ _ => 23 | MsgMeterMod _ => 29
  end.

(** The switch over the types. *)
Definition pack_body (exp_pack : ofl_msg_experimenter → option (Z * list Z)) (m : ofl_msg) : option (Z * list Z) :=
  match m with
  | MsgHeader t => if bool_decide (t ∈ [0; 5; 7; 20; 21; 26]) then ofl_msg_pack_empty else None
  | MsgError type code data => ofl_msg_pack_error type code data
  | MsgEcho t data => if bool_decide (t ∈ [2; 3]) then ofl_msg_pack_echo data else None
  | MsgExperimenter m => exp_pack m
  | MsgFeaturesReply datapath_id n_buffers n_tables auxiliary_id capabilities =>
    ofl_msg_pack_features_reply datapath_id n_buffers n_tables auxiliary_id capabilities
  | MsgGetConfigReply flags miss_send_len => ofl_msg_pack_get_config_reply flags miss_send_len
  | MsgSetConfig flags miss_send_len => ofl_msg_pack_set_config flags miss_send_len
  | MsgPacketIn m => ofl_msg_pack_packet_in m
  | MsgFlowRemoved stats reason => ofl_msg_pack_flow_removed stats reason
  | MsgPortStatus reason desc => ofl_msg_pack_port_status reason desc
  | MsgPacketOut m => ofl_msg_pack_packet_out m
  | MsgFlowMod m => ofl_msg_pack_flow_mod m
  | MsgGroupMod m => ofl_msg_pack_group_mod m
  | MsgPortMod m => ofl_msg_pack_port_mod m
  | MsgTableMod table_id config => ofl_msg_pack_table_mod table_id config
  | MsgMultipartRequest type flags r => ofl_msg_pack_multipart_request type flags r
  | MsgMultipartReply type flags r => ofl_msg_pack_multipart_reply type flags r
  | MsgQueueGetConfigRequest port => ofl_msg_pack_queue_get_config_request port
  | MsgQueueGetConfigReply port queues => ofl_msg_pack_queue_get_config_reply port queues
  | MsgRole t role generation_id => if bool_decide (t ∈ [24; 25]) then ofl_msg_pack_role_request role generation_id else None
  | MsgAsync t config => if bool_decide (t ∈ [27; 28]) then ofl_msg_pack_async_config config else None
  | MsgMeterMod m => ofl_msg_pack_meter_mod m
  end.

Definition ofl_msg_pack (exp_pack : ofl_msg_experimenter → option (Z * list Z)) (m : ofl_msg) (xid : Z) : option (list Z) :=
  '(buf_len, body) ← pack_body exp_pack m;
  Some (be 1 OFP_VERSION ++ be 1 (msg_type m) ++ be 2 buf_len ++ be 4 xid ++ body).

End pack.
