(* ===== verification/MessagesCorrect.v ===== *)
(** OpenFlow messages come back from the wire, and what becomes of messages that nobody
    packed. *)

From S2P Require Import Prelude Memory OpenFlow Oxm Group Meter Ports Controllers FlowTable Wire WireCorrect OxmWire OxmWireCorrect.
From S2P Require Import StatsWire Experimenter StatsWireCorrect Messages.

(** * Reading at a fixed offset *)

Lemma get_lit w bs o v : take w (drop o bs) = be w v → fits (8 * Z.of_nat w) v → (0 < w)%nat → get w bs o = Val v.
Proof. intros. rewrite <- (app_nil_r bs). by apply (get_at [] bs [] o w v). Qed.

(** Reading a field of the message. *)
Ltac fetch v :=
  lazymatch goal with
  | |- mbind _ (get ?w ?bs ?o) = _ => rewrite (get_lit w bs o v)
  | |- mbind _ (mbind _ (get ?w ?bs ?o)) = _ => rewrite (get_lit w bs o v)
  | |- context [mbind _ (get ?w ?bs ?o)] => rewrite (get_lit w bs o v)
  end; [cbn [mbind res_bind]|first [reflexivity | done | lia | by vm_compute]..].

(** * Elements that fill the rest of a message *)

Lemma elements_at {A : Type} (pack : A → option (list Z)) unpack off least ok norm `{!Codec pack unpack off least ok norm} room chk e l bs head k n :
  Forall ok l → pack_all pack l = Some bs → 0 < room <= least → chk <= least → length head = k → n = Z.of_nat (length bs) →
  count_loop room chk off e (turns n) (head ++ bs) k n = Val (length l) ∧
  unpack_loop (unpack (head ++ bs)) off (length l) (head ++ bs) k n = Val (norm <$> l, 0).
Proof.
  intros Hl Hp Hr Hc Hk Hn. split.
  - rewrite <- (app_nil_r (head ++ bs)). by apply (count_behind pack unpack off least ok norm room chk e l bs (head ++ bs) head [] []).
  - rewrite <- (app_nil_r (head ++ bs)). by apply (loop_behind pack unpack off least ok norm l bs (head ++ bs) head [] []).
Qed.

Lemma fixed_at {A : Type} (pack : A → option (list Z)) unpack size ok `{!FixedCodec pack unpack size ok} l bs head k n :
  (0 < size)%nat → Forall ok l → pack_all pack l = Some bs → length head = k → n = Z.of_nat (length bs) →
  unpack_fixed (unpack (head ++ bs)) size (count_fixed (Z.of_nat size) n) k n = Val (l, 0).
Proof.
  intros Hs Hl Hp Hk Hn. rewrite <- (app_nil_r (head ++ bs)). by apply (fixed_behind pack unpack size ok l bs (head ++ bs) head [] []).
Qed.

(** * The messages the round trip is for *)

Definition empty_types : list Z := [0; 5; 7; 20; 21; 26].

Record packet_in_ok (m : ofl_msg_packet_in) : Prop := {
  pio_buffer : fits 32 (pi_buffer_id m); pio_total : fits 16 (pi_total_len m); pio_reason : fits 8 (pi_reason m); pio_table : fits 8 (pi_table_id m);
  pio_known : pi_table_id m ≠ PIPELINE_TABLES; pio_cookie : fits 64 (pi_cookie m); pio_match : match_sound (pi_match m) }.

(** What of the statistics is on the wire. *)
Record removed_ok (s : ofl_flow_stats) : Prop := {
  rmo_table : 0 <= ofs_table_id s < PIPELINE_TABLES; rmo_sec : fits 32 (ofs_duration_sec s); rmo_nsec : fits 32 (ofs_duration_nsec s);
  rmo_priority : fits 16 (ofs_priority s); rmo_idle : fits 16 (ofs_idle_timeout s); rmo_cookie : fits 64 (ofs_cookie s);
  rmo_packets : fits 64 (ofs_packet_count s); rmo_bytes : fits 64 (ofs_byte_count s); rmo_match : match_sound (ofs_match s) }.

Definition no_set_field (a : ofl_action) : Prop := match a with ActSetField _ => False | _ => True end.

(** A packet that is in a buffer is not sent again; set-field actions are not packed. *)
Record packet_out_ok (m : ofl_msg_packet_out) : Prop := {
  poo_buffer : fits 32 (po_buffer_id m); poo_port : fits 32 (po_in_port m); poo_actions : Forall action_ok (po_actions m);
  poo_set_field : Forall no_set_field (po_actions m); poo_data : po_buffer_id m = 0xffffffff ∨ po_data m = [] }.

Definition table_ok (table_id : Z) : Prop := 0 <= table_id < PIPELINE_TABLES ∨ table_id = OFPTT_ALL.

Record flow_mod_ok (m : ofl_msg_flow_mod) : Prop := {
  fmo_cookie : fits 64 (fm_cookie m); fmo_mask : fits 64 (fm_cookie_mask m); fmo_table : table_ok (fm_table_id m);
  fmo_command : flow_command (flow_command_no (fm_command m)) = fm_command m; fmo_command_no : fits 8 (flow_command_no (fm_command m));
  fmo_idle : fits 16 (fm_idle_timeout m); fmo_hard : fits 16 (fm_hard_timeout m); fmo_priority : fits 16 (fm_priority m);
  fmo_buffer : fits 32 (fm_buffer_id m); fmo_port : fits 32 (fm_out_port m); fmo_group : fits 32 (fm_out_group m); fmo_flags : fits 16 (fm_flags m);
  fmo_match : match_sound (fm_match m); fmo_inst : Forall instruction_ok (fm_instructions m) }.

(** A delete has no buckets, an indirect group has one. *)
Record group_mod_ok (m : ofl_msg_group_mod) : Prop := {
  gmo_type : fits 8 (gm_type m);
  gmo_command : gm_command m = OFPGC_ADD ∨ gm_command m = OFPGC_MODIFY ∨ gm_command m = OFPGC_DELETE ∧ gm_buckets m = [];
  gmo_id : 0 <= gm_group_id m <= OFPG_MAX ∨ gm_command m = OFPGC_DELETE ∧ gm_group_id m = OFPG_ALL;
  gmo_indirect : gm_type m = OFPGT_INDIRECT → length (gm_buckets m) = 1%nat;
  gmo_buckets : Forall (bucket_ok (gm_type m)) (gm_buckets m) }.

Record meter_mod_ok (m : ofl_msg_meter_mod) : Prop := {
  mmo_command : mm_command m = OFPMC_ADD ∨ mm_command m = OFPMC_MODIFY ∨ mm_command m = OFPMC_DELETE;
  mmo_flags : 0 <= mm_flags m < 16;
  mmo_id : 0 <= mm_meter_id m <= OFPM_MAX ∨ mm_command m = OFPMC_DELETE ∧ mm_meter_id m = OFPM_ALL;
  mmo_bands : Forall band_ok (mm_bands m) }.

Definition stats_port_ok (port_no : Z) : Prop := 0 < port_no <= OFPP_MAX ∨ port_no = OFPP_ANY.

Definition pair_ok (p : Z * Z) : Prop := fits 32 p.1 ∧ fits 32 p.2.

(** A buffer of at least [n] bytes that holds a string. *)
Definition desc_ok (n : nat) (bs : list Z) : Prop := (n <= length bs)%nat ∧ is_Some (cstring (take n bs)).

Definition request_ok (type : Z) (r : multipart_request) : Prop :=
  match r with
  | ReqEmpty => type ∈ [0; 3; 7; 8; 11; 13]
  | ReqFlow r => (type = 1 ∨ type = 2) ∧ table_ok (rf_table_id r) ∧ fits 32 (rf_out_port r) ∧ fits 32 (rf_out_group r) ∧ fits 64 (rf_cookie r) ∧
    fits 64 (rf_cookie_mask r) ∧ match_sound (rf_match r)
  | ReqPort port_no => type = 4 ∧ stats_port_ok port_no
  | ReqQueue port_no queue_id => type = 5 ∧ stats_port_ok port_no ∧ fits 32 queue_id
  | ReqGroup group_id => type = 6 ∧ fits 32 group_id
  | ReqMeter meter_id => (type = 9 ∨ type = 10) ∧ fits 32 meter_id
  | ReqTableFeatures tables => type = 12 ∧ tables = None
  end.

Definition reply_ok (r : multipart_reply) : Prop :=
  match r with
  | RepDesc d => desc_ok DESC_STR_LEN (rd_mfr_desc d) ∧ desc_ok DESC_STR_LEN (rd_hw_desc d) ∧ desc_ok DESC_STR_LEN (rd_sw_desc d) ∧
    desc_ok 32 (rd_serial_num d) ∧ desc_ok DESC_STR_LEN (rd_dp_desc d)
  | RepFlow l => Forall flow_stats_ok l
  | RepAggregate packet_count byte_count flow_count => fits 64 packet_count ∧ fits 64 byte_count ∧ fits 32 flow_count
  | RepTable l => Forall table_stats_ok l
  | RepTableFeatures _ => False
  | RepPort l => Forall port_stats_ok l
  | RepQueue l => Forall queue_stats_ok l
  | RepGroup l => Forall group_stats_ok l
  | RepGroupDesc l => Forall group_desc_ok l
  | RepGroupFeatures types capabilities max_groups actions => fits 32 types ∧ fits 32 capabilities ∧ length max_groups = 4%nat ∧
    Forall (fits 32) max_groups ∧ length actions = 4%nat ∧ Forall (fits 32) actions
  | RepMeter l => Forall meter_stats_ok l
  | RepMeterConfig l => Forall meter_config_ok l
  | RepMeterFeatures max_meter band_types capabilities max_bands max_color => fits 32 max_meter ∧ fits 32 band_types ∧ fits 32 capabilities ∧
    fits 8 max_bands ∧ fits 8 max_color
  | RepPortDesc l => Forall port_desc_ok l
  end.

Definition rate_ok (p : option ofl_queue_prop) : Prop :=
  match p with Some (PropMinRate rate) | Some (PropMaxRate rate) => fits 16 rate | _ => False end.
Definition queue_ok (q : ofl_packet_queue) : Prop := fits 32 (pq_queue_id q) ∧ Forall rate_ok (pq_properties q).

(** Of queues at most one comes back. *)
Definition msg_ok (m : ofl_msg) : Prop :=
  match m with
  | MsgHeader t => t ∈ empty_types
  | MsgError type code data => fits 16 type ∧ fits 16 code
  | MsgEcho t data => t = 2 ∨ t = 3
  | MsgExperimenter _ => False
  | MsgFeaturesReply datapath_id n_buffers n_tables auxiliary_id capabilities => fits 64 datapath_id ∧ fits 32 n_buffers ∧ fits 8 n_tables ∧
    fits 8 auxiliary_id ∧ fits 32 capabilities
  | MsgGetConfigReply flags miss_send_len | MsgSetConfig flags miss_send_len => fits 16 flags ∧ fits 16 miss_send_len
  | MsgPacketIn m => packet_in_ok m
  | MsgFlowRemoved stats reason => removed_ok stats ∧ fits 8 reason
  | MsgPortStatus reason desc => fits 8 reason ∧ port_desc_ok desc
  | MsgPacketOut m => packet_out_ok m
  | MsgFlowMod m => flow_mod_ok m
  | MsgGroupMod m => group_mod_ok m
  | MsgPortMod m => fits 32 (pm_port_no m) ∧ length (pm_hw_addr m) = 6%nat ∧ fits 32 (pm_config m) ∧ fits 32 (pm_mask m) ∧ fits 32 (pm_advertise m)
  | MsgTableMod table_id config => 0 <= table_id < PIPELINE_TABLES ∧ fits 32 config
  | MsgMultipartRequest type flags r => request_ok type r ∧ fits 16 flags
  | MsgMultipartReply type flags r => type = reply_type r ∧ reply_ok r ∧ fits 16 flags
  | MsgQueueGetConfigRequest port => 0 < port <= OFPP_ANY
  | MsgQueueGetConfigReply port queues => fits 32 port ∧ (length queues <= 1)%nat ∧ Forall queue_ok queues
  | MsgRole t role generation_id => (t = 24 ∨ t = 25) ∧ fits 32 role ∧ fits 64 generation_id
  | MsgAsync t config => (t = 27 ∨ t = 28) ∧ pair_ok (packet_in_mask config) ∧ pair_ok (port_status_mask config) ∧ pair_ok (flow_removed_mask config)
  | MsgMeterMod m => meter_mod_ok m
  end.

(** What comes back: the fields of matches in another order, strings without what is behind
    their NULs, and of removed flows what is on the wire. *)
Definition trimmed (n : nat) (bs : list Z) : list Z := default [] (cstring (take n bs)) ++ [0].
Definition removed_unpacked (s : ofl_flow_stats) : ofl_flow_stats :=
  OflFlowStats (ofs_table_id s) (ofs_duration_sec s) (ofs_duration_nsec s) (ofs_priority s) (ofs_idle_timeout s) 0 0 (ofs_cookie s)
    (ofs_packet_count s) (ofs_byte_count s) (unpacked (ofs_match s)) [].
Definition request_unpacked (r : multipart_request) : multipart_request :=
  match r with
  | ReqFlow r => ReqFlow (RequestFlow (rf_table_id r) (rf_out_port r) (rf_out_group r) (rf_cookie r) (rf_cookie_mask r) (unpacked (rf_match r)))
  | r => r
  end.
Definition reply_unpacked (r : multipart_reply) : multipart_reply :=
  match r with
  | RepDesc d => RepDesc (ReplyDesc (trimmed DESC_STR_LEN (rd_mfr_desc d)) (trimmed DESC_STR_LEN (rd_hw_desc d)) (trimmed DESC_STR_LEN (rd_sw_desc d))
      (trimmed 32 (rd_serial_num d)) (trimmed DESC_STR_LEN (rd_dp_desc d)))
  | RepFlow l => RepFlow (flow_stats_unpacked <$> l)
  | r => r
  end.
Definition msg_unpacked (m : ofl_msg) : ofl_msg :=
  match m with
  | MsgPacketIn m => MsgPacketIn (OflPacketIn (pi_buffer_id m) (pi_total_len m) (pi_reason m) (pi_table_id m) (pi_cookie m) (unpacked (pi_match m)) (pi_data m))
  | MsgFlowRemoved stats reason => MsgFlowRemoved (removed_unpacked stats) reason
  | MsgFlowMod m => MsgFlowMod (FlowMod (fm_cookie m) (fm_cookie_mask m) (fm_table_id m) (fm_command m) (fm_idle_timeout m) (fm_hard_timeout m)
      (fm_priority m) (fm_buffer_id m) (fm_out_port m) (fm_out_group m) (fm_flags m) (unpacked (fm_match m)) (fm_instructions m))
  | MsgMultipartRequest type flags r => MsgMultipartRequest type flags (request_unpacked r)
  | MsgMultipartReply type flags r => MsgMultipartReply type flags (reply_unpacked r)
  | m => m
  end.

(** * One message after the other *)

Lemma round_up_least n : 0 <= n → 8 <= ROUND_UP (n + 4).
Proof. unfold ROUND_UP. Z.div_mod_to_equations. lia. Qed.

Section messages.
  Context `{M : Malloc} (exp_pack : ofl_msg_experimenter → option (Z * list Z)) (exp_unpack : list Z → Z → res (ofl_msg_experimenter * Z)).

(** The message is packed, the length is that of the bytes, and behind any header they are
    unpacked. *)
Definition comes_back (m : ofl_msg) : Prop :=
  ∃ body, pack_body exp_pack m = Some (8 + Z.of_nat (length body), body) ∧
    (8 + Z.of_nat (length body) < 2 ^ 16 →
     ∀ a b c d e f g h, ∃ rest,
       unpack_body exp_unpack ([a; b; c; d; e; f; g; h] ++ body) (msg_type m) (8 + Z.of_nat (length body)) = Val (msg_unpacked m, rest)).

Lemma back_intro m n body :
  pack_body exp_pack m = Some (n, body) → n = 8 + Z.of_nat (length body) →
  (n < 2 ^ 16 → ∀ a b c d e f g h, ∃ rest, unpack_body exp_unpack ([a; b; c; d; e; f; g; h] ++ body) (msg_type m) n = Val (msg_unpacked m, rest)) →
  comes_back m.
Proof using. intros Hp -> Hu. by exists body. Qed.

Lemma empty_back t : t ∈ empty_types → comes_back (MsgHeader t).
Proof using.
  intros Ht. exists []. cbn [pack_body msg_type msg_unpacked]. unfold unpack_body. fold empty_types. rewrite !bool_decide_true by done.
  split; [done|]. intros. by eexists.
Qed.

(** The bytes behind a header of fixed length. *)
Lemma get_data_at head data k n : length head = k → n = Z.of_nat (length data) → get_data (head ++ data) k n = Val data.
Proof using.
  intros <- ->. unfold get_data, copy_bytes. rewrite Nat2Z.id. destruct data as [|x data]; [done|]. cbn [length Nat.eqb].
  rewrite <- (app_nil_r (x :: data)) at 1. rewrite <- (Nat.add_0_r (length head)). apply get_bytes_at; [|done|lia].
  rewrite drop_0. by rewrite take_ge by done.
Qed.

Lemma error_back type code data : fits 16 type → fits 16 code → comes_back (MsgError type code data).
Proof using.
  intros H1 H2. exists (be 2 type ++ be 2 code ++ data). cbn [pack_body msg_type msg_unpacked]. rewrite !length_app, !be_length.
  split; [unfold ofl_msg_pack_error; do 2 f_equal; lia|]. intros Hlen a b c d e f g h. exists 0. change (unpack_body _ ?buf 1 ?len) with (ofl_msg_unpack_error buf len).
  unfold ofl_msg_unpack_error. rewrite (proj2 (Z.ltb_ge _ _)) by lia. fetch type. fetch code.
  rewrite (get_data_at ([a; b; c; d; e; f; g; h] ++ be 2 type ++ be 2 code) data 12) by (done || lia). done.
Qed.

Lemma echo_back t data : t = 2 ∨ t = 3 → comes_back (MsgEcho t data).
Proof using.
  intros Ht. exists data. split; [by destruct Ht; subst|]. intros Hlen a b c d e f g h. exists 0.
  assert (unpack_body exp_unpack ([a; b; c; d; e; f; g; h] ++ data) (msg_type (MsgEcho t data)) (8 + Z.of_nat (length data)) =
    ofl_msg_unpack_echo ([a; b; c; d; e; f; g; h] ++ data) t (8 + Z.of_nat (length data))) as -> by (by destruct Ht; subst).
  unfold ofl_msg_unpack_echo. rewrite (get_data_at [a; b; c; d; e; f; g; h] data 8) by (done || lia). done.
Qed.

(** Messages of a fixed layout. *)
Ltac fixed_layout :=
  eapply back_intro; [cbn [pack_body]; try rewrite bool_decide_true by (destruct_or?; subst; set_solver); reflexivity|done|intros _ a b c d e f g h; eexists].

Lemma fixed_back m :
  match m with
  | MsgFeaturesReply _ _ _ _ _ | MsgGetConfigReply _ _ | MsgSetConfig _ _ | MsgTableMod _ _ | MsgQueueGetConfigRequest _ | MsgRole _ _ _ | MsgAsync _ _ => True
  | _ => False
  end → msg_ok m → comes_back m.
Proof using.
  intros Hm Hok. destruct m as [| | | |dpid nb nt aux cap|fl ms|fl ms| | | | | | | |tid cf| | |port| |t role gen|t cfg|]; try contradiction; cbn [msg_ok] in Hok.
  - destruct Hok as (H1 & H2 & H3 & H4 & H5). fixed_layout.
    change (unpack_body _ ?buf _ ?len) with (ofl_msg_unpack_features_reply buf len). unfold ofl_msg_unpack_features_reply.
    fetch dpid. fetch nb. fetch nt. fetch aux. fetch cap. done.
  - destruct Hok as [H1 H2]. fixed_layout. change (unpack_body _ ?buf _ ?len) with (ofl_msg_unpack_get_config_reply buf len).
    unfold ofl_msg_unpack_get_config_reply. change (_ <? 12) with false. cbn match. fetch ms. fetch fl. done.
  - destruct Hok as [H1 H2]. fixed_layout. change (unpack_body _ ?buf _ ?len) with (ofl_msg_unpack_set_config buf len).
    unfold ofl_msg_unpack_set_config. change (_ <? 12) with false. cbn match. fetch ms. fetch fl. done.
  - destruct Hok as [H1 H2]. fixed_layout. change (unpack_body _ ?buf _ ?len) with (ofl_msg_unpack_table_mod buf len).
    unfold ofl_msg_unpack_table_mod. change (_ <? 16) with false. cbn match. assert (fits 8 tid) by (unfold fits, PIPELINE_TABLES in *; lia).
    fetch tid. rewrite (proj2 (Z.leb_gt _ _)) by lia. fetch cf. done.
  - fixed_layout. change (unpack_body _ ?buf _ ?len) with (ofl_msg_unpack_queue_get_config_request buf len).
    unfold ofl_msg_unpack_queue_get_config_request. change (_ <? 8) with false. cbn match. assert (fits 32 port) by (unfold fits, OFPP_ANY in *; lia).
    fetch port. rewrite (proj2 (Z.eqb_neq _ _)), (proj2 (Z.ltb_ge _ _)) by lia. done.
  - destruct Hok as (Ht & H1 & H2). fixed_layout.
    assert (∀ buf len, unpack_body exp_unpack buf (msg_type (MsgRole t role gen)) len = ofl_msg_unpack_role_request buf t len) as -> by (by destruct Ht; subst).
    unfold ofl_msg_unpack_role_request. change (_ <? 24) with false. cbn match. fetch role. fetch gen. done.
  - destruct Hok as (Ht & H1 & H2 & H3). destruct cfg as [[p0 p1] [s0 s1] [f0 f1]]. destruct H1, H2, H3. fixed_layout.
    assert (∀ buf len, unpack_body exp_unpack buf (msg_type (MsgAsync t (AsyncConfig (p0, p1) (s0, s1) (f0, f1)))) len = ofl_msg_unpack_async_config buf t len) as ->
      by (by destruct Ht; subst).
    unfold ofl_msg_unpack_async_config. change (_ <? 32) with false. cbn match. fetch p0. fetch s0. fetch f0. fetch p1. fetch s1. fetch f1. done.
Qed.

Lemma port_status_back reason desc : fits 8 reason → port_desc_ok desc → comes_back (MsgPortStatus reason desc).
Proof using.
  intros H1 H2. destruct (fixed_pack (unpack := ofl_structs_port_unpack) desc H2) as (bs & E & Hl).
  eapply back_intro; [cbn [pack_body]; unfold ofl_msg_pack_port_status; rewrite E; reflexivity|rewrite !length_app, Hl; done|].
  intros _ a b c d e f g h. eexists. change (unpack_body _ ?buf _ ?len) with (ofl_msg_unpack_port_status buf len).
  unfold ofl_msg_unpack_port_status. cbn [Z.ltb Z.compare Pos.compare Pos.compare_cont]. fetch reason.
  assert (Z.of_nat 64 <= 64) as H64 by done.
  pose proof (fixed_unpack desc bs ([a; b; c; d; e; f; g; h] ++ be 1 reason ++ zeros 7) [] 64 H2 E H64) as Hu. rewrite app_nil_r in Hu.
  change (length ([a; b; c; d; e; f; g; h] ++ be 1 reason ++ zeros 7)) with 16%nat in Hu. rewrite <- !app_assoc in Hu.
  change (80 - 16) with 64. rewrite Hu. done.
Qed.

Lemma port_mod_back m :
  fits 32 (pm_port_no m) → length (pm_hw_addr m) = 6%nat → fits 32 (pm_config m) → fits 32 (pm_mask m) → fits 32 (pm_advertise m) → comes_back (MsgPortMod m).
Proof using.
  destruct m as [no hw cf ma ad]. cbn. intros H1 H2 H3 H4 H5. destruct hw as [|u [|v [|w [|x [|y [|z [|? ?]]]]]]]; try discriminate H2. fixed_layout.
  change (unpack_body _ ?buf _ ?len) with (ofl_msg_unpack_port_mod buf len). unfold ofl_msg_unpack_port_mod.
  change (_ <? 40) with false. cbn match. fetch no.
  pose proof (get_bytes_at [] ([a; b; c; d; e; f; g; h] ++ be 4 no ++ zeros 4 ++ [u; v; w; x; y; z] ++ zeros 2 ++ be 4 cf ++ be 4 ma ++ be 4 ad ++ zeros 4) []
    16 6 [u; v; w; x; y; z] eq_refl eq_refl ltac:(lia)) as Hg. rewrite app_nil_r in Hg.
  cbn [pm_port_no pm_hw_addr pm_config pm_mask pm_advertise]. cbn [app length Nat.add] in Hg |- *. rewrite Hg. cbn [mbind res_bind].
  fetch cf. fetch ma. fetch ad. done.
Qed.

Lemma match_at m head post k len :
  match_sound m → length head = k → ofl_structs_match_unpack (head ++ ofl_structs_match_pack m ++ post) k len =
    Val (unpacked m, u64 (len - ROUND_UP (match_length m + 4))).
Proof using. intros Hm <-. by apply match_unpack. Qed.

Lemma packed_match_at j m head post k len :
  match_sound m → length head = k → ofl_structs_match_unpack (head ++ pack_match j m ++ post) k len =
    Val (unpacked m, u64 (len - ROUND_UP (match_length m + 4))).
Proof using. intros Hm Hk. unfold pack_match. rewrite <- app_assoc. by apply match_at. Qed.

Lemma match_nonneg m : match_sound m → 0 <= match_length m.
Proof using. intros Hm. rewrite <- (oxm_put_length m Hm). lia. Qed.

Lemma round_up_behind k n : k mod 8 = 0 → ROUND_UP (k + 4 + n) = k + ROUND_UP (n + 4).
Proof using. intros Hk. replace (k + 4 + n) with (k + (n + 4)) by lia. by apply round_up_add. Qed.

Lemma packet_in_back m : packet_in_ok m → comes_back (MsgPacketIn m).
Proof using.
  intros [H1 H2 H3 H4 H5 H6 Hm]. pose proof (match_nonneg _ Hm) as H0. pose proof (pack_match_length 24 _ Hm ltac:(lia)) as Hl.
  pose proof (round_up_behind 24 (match_length (pi_match m)) eq_refl) as Er. change (24 + 4) with 28 in *.
  eapply back_intro; [reflexivity|rewrite !length_app, !be_length; change (length (zeros 2)) with 2%nat; lia|].
  intros Hlen a b c d e f g h. exists 0. change (unpack_body _ ?buf _ ?len) with (ofl_msg_unpack_packet_in buf len).
  pose proof (round_up_least _ H0) as Hb. unfold ofl_msg_unpack_packet_in. rewrite (proj2 (Z.ltb_ge _ _)) by lia.
  fetch (pi_table_id m). rewrite (proj2 (Z.eqb_neq _ _)) by done. fetch (pi_buffer_id m). fetch (pi_total_len m). fetch (pi_reason m). fetch (pi_cookie m).
  set (head := [a; b; c; d; e; f; g; h] ++ be 4 (pi_buffer_id m) ++ be 2 (pi_total_len m) ++ be 1 (pi_reason m) ++ be 1 (pi_table_id m) ++ be 8 (pi_cookie m)).
  change ([a; b; c; d; e; f; g; h] ++ _) with (head ++ pack_match 24 (pi_match m) ++ zeros 2 ++ pi_data m).
  unfold unpack_match_anyway. rewrite packed_match_at by done. cbn [mbind res_bind match_length unpacked].
  rewrite (app_assoc head), (app_assoc (head ++ _)), get_data_at; [done| |].
  - rewrite !length_app. change (length (zeros 2)) with 2%nat. change (length head) with 24%nat. lia.
  - unfold u64. rewrite (wrap_small 64); unfold fits; [|rewrite wrap_small; unfold fits; lia]. rewrite wrap_small; [lia|unfold fits; lia].
Qed.

Lemma flow_removed_back s reason : removed_ok s → fits 8 reason → comes_back (MsgFlowRemoved s reason).
Proof using.
  intros [H1 H2 H3 H4 H5 H6 H7 H8 Hm] H9. pose proof (match_nonneg _ Hm) as H0. pose proof (pack_match_length 48 _ Hm ltac:(lia)) as Hl.
  pose proof (round_up_behind 48 (match_length (ofs_match s)) eq_refl) as Er. change (48 + 4) with 52 in *. pose proof (round_up_least _ H0) as Hb.
  pose proof (fresh_length 2) as Hf. assert (fits 8 (ofs_table_id s)) by (unfold fits, PIPELINE_TABLES in *; lia).
  eapply back_intro; [reflexivity|rewrite !length_app, !be_length; lia|].
  intros Hlen a b c d e f g h. eexists. change (unpack_body _ ?buf _ ?len) with (ofl_msg_unpack_flow_removed buf len).
  destruct (fresh 2) as [|x [|y [|? ?]]] eqn:Ef; try discriminate Hf.
  unfold ofl_msg_unpack_flow_removed. rewrite (proj2 (Z.ltb_ge _ _)) by lia. fetch (ofs_table_id s). rewrite (proj2 (Z.leb_gt _ _)) by lia.
  fetch reason. fetch (ofs_duration_sec s). fetch (ofs_duration_nsec s). fetch (ofs_priority s). fetch (ofs_idle_timeout s). fetch (ofs_cookie s).
  fetch (ofs_packet_count s). fetch (ofs_byte_count s).
  set (head := [a; b; c; d; e; f; g; h] ++ be 8 (ofs_cookie s) ++ be 2 (ofs_priority s) ++ be 1 reason ++ be 1 (ofs_table_id s) ++ be 4 (ofs_duration_sec s) ++
    be 4 (ofs_duration_nsec s) ++ be 2 (ofs_idle_timeout s) ++ [x; y] ++ be 8 (ofs_packet_count s) ++ be 8 (ofs_byte_count s)).
  change ([a; b; c; d; e; f; g; h] ++ _) with (head ++ pack_match 48 (ofs_match s)). rewrite <- (app_nil_r (pack_match _ _)), packed_match_at by done.
  reflexivity.
Qed.

Lemma out_actions_same fixed l bs :
  Forall no_set_field l → pack_all ofl_actions_pack l = Some bs → pack_out_actions fixed l = Some (fixed, bs).
Proof using.
  intros Hl. revert bs. induction Hl as [|x l Hx _ IH]; intros bs Hp; [by apply some_inj in Hp as <-|].
  rewrite pack_all_cons in Hp. destruct (ofl_actions_pack x) as [b|] eqn:Eb; [|done]. cbn [mbind option_bind] in Hp.
  destruct (pack_all ofl_actions_pack l) as [rest|]; [|done]. apply some_inj in Hp as <-. cbn [pack_out_actions].
  assert (pack_out_action fixed x = Some (fixed, b)) as ->.
  { unfold pack_out_action. destruct x; try (by rewrite Eb). done. }
  cbn [mbind option_bind]. by rewrite (IH rest eq_refl).
Qed.

Lemma packet_out_back m : packet_out_ok m → comes_back (MsgPacketOut m).
Proof using.
  intros [H1 H2 Ha Hs Hd]. destruct (pack_actions_some _ Ha) as [bs E]. destruct (actions_len _ _ Ha E) as [El _].
  eapply back_intro; [cbn [pack_body]; unfold ofl_msg_pack_packet_out; rewrite (out_actions_same _ _ bs) by done; reflexivity|rewrite !length_app, !be_length; cbn; lia|].
  intros Hlen a b c d e f g h. exists 0. change (unpack_body _ ?buf _ ?len) with (ofl_msg_unpack_packet_out buf len).
  set (n := ofl_actions_ofp_total_len (po_actions m)) in *. assert (fits 16 n) by (unfold fits; lia).
  rewrite <- !app_assoc. unfold ofl_msg_unpack_packet_out. rewrite (proj2 (Z.ltb_ge _ _)) by lia. fetch (po_buffer_id m). fetch n.
  assert (negb (po_buffer_id m =? 0xffffffff) && negb (24 + n + Z.of_nat (length (po_data m)) =? 24 + n) = false) as ->.
  { destruct Hd as [-> | ->]; [done|]. cbn [length]. rewrite Z.add_0_r, Z.eqb_refl. by rewrite andb_false_r. }
  fetch (po_in_port m). rewrite (proj2 (Z.ltb_ge _ _)) by lia.
  set (head := [a; b; c; d; e; f; g; h] ++ be 4 (po_buffer_id m) ++ be 4 (po_in_port m) ++ be 2 n ++ zeros 6).
  change ([a; b; c; d; e; f; g; h] ++ _) with (head ++ bs ++ po_data m). unfold ofl_utils_count_ofp_actions. change 24%nat with (length head).
  unfold turns. rewrite <- El. rewrite Nat2Z.id. rewrite <- (Z.add_0_r (Z.of_nat (length bs))) at 1.
  rewrite (count_roundtrip ofl_actions_pack ofl_actions_unpack 2 4 action_ok 4 4 OFPBAC_BAD_LEN (po_actions m) bs) by (done || lia). cbn [mbind res_bind].
  rewrite (loop_roundtrip ofl_actions_pack ofl_actions_unpack 2 4 action_ok (po_actions m) bs) by (done || lia). cbn [mbind res_bind].
  rewrite app_assoc, get_data_at; [by destruct m|rewrite length_app; lia|lia].
Qed.

Lemma flow_mod_back m : flow_mod_ok m → comes_back (MsgFlowMod m).
Proof using.
  intros [H1 H2 H3 H4 H5 H6 H7 H8 H9 H10 H11 H12 Hm Hi]. destruct (pack_all_some ofl_structs_instructions_pack _ _ _ _ _ Hi) as [bs E].
  pose proof (instructions_len _ _ Hi E) as El. pose proof (match_nonneg _ Hm) as H0. pose proof (pack_match_length 48 _ Hm ltac:(lia)) as Hl.
  pose proof (round_up_behind 48 (match_length (fm_match m)) eq_refl) as Er. change (48 + 4) with 52 in *. pose proof (round_up_least _ H0) as Hb.
  eapply back_intro; [cbn [pack_body]; unfold ofl_msg_pack_flow_mod; rewrite E; reflexivity|rewrite !length_app, !be_length; change (length (zeros 2)) with 2%nat; lia|].
  intros Hlen a b c d e f g h. exists 0. change (unpack_body _ ?buf _ ?len) with (ofl_msg_unpack_flow_mod buf len).
  assert (fits 8 (fm_table_id m)) by (unfold table_ok, fits, PIPELINE_TABLES, OFPTT_ALL in *; lia).
  unfold ofl_msg_unpack_flow_mod. rewrite (proj2 (Z.ltb_ge _ _)) by lia. fetch (fm_table_id m). fetch (flow_command_no (fm_command m)).
  assert ((PIPELINE_TABLES <=? fm_table_id m) && ((negb (flow_command_no (fm_command m) =? 3) || negb (flow_command_no (fm_command m) =? 4)) && negb (fm_table_id m =? OFPTT_ALL)) = false) as ->.
  { destruct H3 as [H3| ->]; [|by rewrite !andb_false_r]. by rewrite (proj2 (Z.leb_gt _ _)) by lia. }
  fetch (fm_cookie m). fetch (fm_cookie_mask m). fetch (fm_idle_timeout m). fetch (fm_hard_timeout m). fetch (fm_priority m). fetch (fm_buffer_id m).
  fetch (fm_out_port m). fetch (fm_out_group m). fetch (fm_flags m).
  set (head := [a; b; c; d; e; f; g; h] ++ be 8 (fm_cookie m) ++ be 8 (fm_cookie_mask m) ++ be 1 (fm_table_id m) ++ be 1 (flow_command_no (fm_command m)) ++
        be 2 (fm_idle_timeout m) ++ be 2 (fm_hard_timeout m) ++ be 2 (fm_priority m) ++ be 4 (fm_buffer_id m) ++ be 4 (fm_out_port m) ++
        be 4 (fm_out_group m) ++ be 2 (fm_flags m) ++ zeros 2).
  change ([a; b; c; d; e; f; g; h] ++ _) with (head ++ pack_match 48 (fm_match m) ++ bs).
  pose proof (match_instructions_ok 48 (fm_match m) (fm_instructions m) bs (head ++ pack_match 48 (fm_match m) ++ bs) head [] [] []
    (ROUND_UP (52 + match_length (fm_match m)) + ofl_structs_instructions_ofp_total_len (fm_instructions m) - 48)) as Hu.
  rewrite !app_nil_r in Hu. rewrite <- El in Hu at 2. cbn [app length Nat.add] in Hu. rewrite Hu; [|done..| |].
  - cbn [mbind res_bind msg_unpacked]. by rewrite H4.
  - change (Z.of_nat 48 + 4) with 52. change (Z.of_nat 48) with 48. lia.
  - lia.
Qed.

Lemma bswap_type t : fits 8 t → (3 <? bswap16 t) && (bswap16 t <? 128) = false.
Proof using.
  intros Ht. apply negb_true_iff. apply (forallb_range 256 (λ t, negb ((3 <? bswap16 t) && (bswap16 t <? 128)))); [by vm_compute|].
  unfold fits in Ht. lia.
Qed.

Lemma group_mod_back m : group_mod_ok m → comes_back (MsgGroupMod m).
Proof using.
  intros [H1 H2 H3 H4 Hb]. destruct (pack_all_some ofl_structs_bucket_pack _ _ _ _ _ Hb) as [bs E]. pose proof (buckets_len _ _ _ Hb E) as El.
  eapply back_intro; [cbn [pack_body]; unfold ofl_msg_pack_group_mod; rewrite E; reflexivity|rewrite !length_app, !be_length; change (length (zeros 1)) with 1%nat; lia|].
  intros Hlen a b c d e f g h. exists 0. change (unpack_body _ ?buf _ ?len) with (ofl_msg_unpack_group_mod buf len).
  assert (fits 32 (gm_group_id m)) by (unfold fits, OFPG_MAX, OFPG_ALL in *; lia).
  assert (group_command_of (group_command_no (gm_command m)) = gm_command m ∧ 0 <= group_command_no (gm_command m) <= 2 ∧
    (group_command_no (gm_command m) = 2 → gm_buckets m = []) ∧ (gm_command m = OFPGC_DELETE → group_command_no (gm_command m) = 2)) as (Hc & Hn & Hdel & Hdel').
  { destruct H2 as [-> |[-> |[-> ?]]]; done. }
  assert (fits 16 (group_command_no (gm_command m))) by (unfold fits; lia).
  unfold ofl_msg_unpack_group_mod. rewrite (proj2 (Z.ltb_ge _ _)) by lia. fetch (group_command_no (gm_command m)). fetch (gm_type m). fetch (gm_group_id m).
  rewrite (proj2 (Z.ltb_ge _ _)) by lia. rewrite bswap_type by done.
  assert ((OFPG_MAX <? gm_group_id m) && negb ((group_command_no (gm_command m) =? 2) && (gm_group_id m =? OFPG_ALL)) = false) as ->.
  { destruct H3 as [H3|[H3 ->]]; [by rewrite (proj2 (Z.ltb_ge _ _)) by lia|]. by rewrite (Hdel' H3). }
  set (head := [a; b; c; d; e; f; g; h] ++ be 2 (group_command_no (gm_command m)) ++ be 1 (gm_type m) ++ zeros 1 ++ be 4 (gm_group_id m)).
  change ([a; b; c; d; e; f; g; h] ++ _) with (head ++ bs). unfold ofl_utils_count_ofp_buckets.
  destruct (elements_at ofl_structs_bucket_pack (λ buf, ofl_structs_bucket_unpack buf (gm_type m)) 0 16 (bucket_ok (gm_type m)) _ 16 16 OFPBRC_BAD_LEN
    (gm_buckets m) bs head 16 (16 + ofl_structs_buckets_ofp_total_len (gm_buckets m) - 16)) as [-> Hloop]; [done|done|lia|lia|done|lia|].
  cbn [mbind res_bind].
  assert ((group_command_no (gm_command m) =? 2) && (0 <? length (gm_buckets m))%nat = false) as ->.
  { destruct (Z.eqb_spec (group_command_no (gm_command m)) 2) as [Hd|]; [|done]. by rewrite (Hdel Hd). }
  assert ((gm_type m =? OFPGT_INDIRECT) && negb (length (gm_buckets m) =? 1)%nat = false) as ->.
  { destruct (Z.eqb_spec (gm_type m) OFPGT_INDIRECT) as [Hd|]; [|done]. by rewrite (H4 Hd). }
  rewrite Hloop. cbn [mbind res_bind]. rewrite list_fmap_id, Hc. by destruct m.
Qed.

Lemma meter_mod_back m : meter_mod_ok m → comes_back (MsgMeterMod m).
Proof using.
  intros [H2 H1 H3 Hb]. destruct (pack_all_some ofl_structs_meter_band_pack _ _ _ _ _ Hb) as [bs E]. pose proof (bands_len _ _ E) as El.
  eapply back_intro; [cbn [pack_body]; unfold ofl_msg_pack_meter_mod; rewrite E; reflexivity|rewrite !length_app, !be_length; lia|].
  intros Hlen a b c d e f g h. exists 0. change (unpack_body _ ?buf _ ?len) with (ofl_msg_unpack_meter_mod buf len).
  assert (fits 32 (mm_meter_id m)) by (unfold fits, OFPM_MAX, OFPM_ALL in *; lia).
  assert (meter_command_of (meter_command_no (mm_command m)) = mm_command m ∧ 0 <= meter_command_no (mm_command m) <= 2 ∧
    (mm_command m = OFPMC_DELETE → meter_command_no (mm_command m) = 2)) as (Hc & Hn & Hdel).
  { destruct H2 as [-> |[-> | ->]]; done. }
  assert (fits 16 (meter_command_no (mm_command m))) by (unfold fits; lia). assert (fits 16 (mm_flags m)) by (unfold fits; lia).
  unfold ofl_msg_unpack_meter_mod. rewrite (proj2 (Z.ltb_ge _ _)) by lia. fetch (meter_command_no (mm_command m)). fetch (mm_flags m). fetch (mm_meter_id m).
  rewrite (proj2 (Z.ltb_ge _ _)) by lia. rewrite (proj2 (Z.ltb_ge 1 _)) by (rewrite Z.shiftr_div_pow2 by lia; change (2 ^ 3) with 8; Z.div_mod_to_equations; lia).
  assert ((OFPM_MAX <? mm_meter_id m) && negb ((meter_command_no (mm_command m) =? 2) && (mm_meter_id m =? OFPM_ALL)) = false) as ->.
  { destruct H3 as [H3|[H3 ->]]; [by rewrite (proj2 (Z.ltb_ge _ _)) by lia|]. by rewrite (Hdel H3). }
  set (head := [a; b; c; d; e; f; g; h] ++ be 2 (meter_command_no (mm_command m)) ++ be 2 (mm_flags m) ++ be 4 (mm_meter_id m)).
  change ([a; b; c; d; e; f; g; h] ++ _) with (head ++ bs). unfold ofl_utils_count_ofp_meter_bands.
  destruct (elements_at ofl_structs_meter_band_pack ofl_structs_meter_band_unpack 2 12 band_ok _ 12 12 OFPBRC_BAD_LEN
    (mm_bands m) bs head 16 (16 + ofl_structs_meter_bands_ofp_total_len (mm_bands m) - 16)) as [-> Hloop]; [done|done|lia|lia|done|lia|].
  cbn [mbind res_bind]. rewrite Hloop. cbn [mbind res_bind]. rewrite list_fmap_id, Hc. by destruct m.
Qed.

(** ** Multipart messages *)

Lemma stats_port_good port_no : stats_port_ok port_no → bad_stats_port port_no = false ∧ fits 32 port_no.
Proof using. unfold stats_port_ok, bad_stats_port, fits, OFPP_MAX, OFPP_ANY. intros [H| ->]; [|done]. split; lia. Qed.

(** Up to the body of a request of a known type. *)
Ltac request t fl :=
  eapply back_intro; [reflexivity|done|]; intros _ a b c d e f g h; eexists;
  change (unpack_body _ ?buf _ ?len) with (ofl_msg_unpack_multipart_request buf len);
  unfold ofl_msg_unpack_multipart_request; change (_ <? 16) with false; cbn match; fetch t;
  repeat match goal with |- context [bool_decide (?x ∈ ?l)] => let v := eval vm_compute in (bool_decide (x ∈ l)) in change (bool_decide (x ∈ l)) with v end;
  cbn [Z.eqb Pos.eqb Z.add Z.sub Z.opp Z.ltb Z.compare].

Lemma fixed_request_back type flags r :
  match r with ReqFlow _ => False | _ => True end → request_ok type r → fits 16 flags → comes_back (MsgMultipartRequest type flags r).
Proof using.
  intros Hr Hok Hf. destruct r as [|?|port_no|port_no queue_id|group_id|meter_id|tables]; [|done|..]; cbn [request_ok] in Hok.
  - assert (type = 0 ∨ type = 3 ∨ type = 7 ∨ type = 8 ∨ type = 11 ∨ type = 13) as Ht by set_solver.
    destruct Ht as [-> |[-> |[-> |[-> |[-> | ->]]]]];
      [request 0 flags|request 3 flags|request 7 flags|request 8 flags|request 11 flags|request 13 flags]; cbn [mbind res_bind]; fetch flags; done.
  - destruct Hok as [-> Hp]. destruct (stats_port_good _ Hp) as [Hg Hp']. request 4 flags.
    unfold ofl_msg_unpack_multipart_request_port. change (_ <? 8) with false; cbn [mbind res_bind].   fetch port_no. rewrite Hg. cbn [mbind res_bind]. fetch flags. done.
  - destruct Hok as (-> & Hp & Hq). destruct (stats_port_good _ Hp) as [Hg Hp']. request 5 flags.
    unfold ofl_msg_unpack_multipart_request_queue. change (_ <? 8) with false; cbn [mbind res_bind]. fetch port_no. rewrite Hg. fetch queue_id. fetch flags. done.
  - destruct Hok as [-> Hp]. request 6 flags. unfold ofl_msg_unpack_multipart_request_group. change (_ <? 8) with false; cbn [mbind res_bind]. fetch group_id. fetch flags. done.
  - destruct Hok as [Ht Hp].
    destruct Ht as [-> | ->]; [request 9 flags|request 10 flags]; unfold ofl_msg_unpack_meter_multipart_request; change (_ <? 8) with false; cbn [mbind res_bind]; fetch meter_id; fetch flags; done.
  - destruct Hok as [-> ->]. request 12 flags. cbn [mbind res_bind]. fetch flags. done.
Qed.

Lemma flow_request_back type flags r : request_ok type (ReqFlow r) → fits 16 flags → comes_back (MsgMultipartRequest type flags (ReqFlow r)).
Proof using.
  intros (Ht & H1 & H2 & H3 & H4 & H5 & Hm) Hf. pose proof (match_nonneg _ Hm) as H0. pose proof (match_pack_length _ Hm) as Hl. pose proof (fresh_length 4) as H4'.
  assert (bool_decide (type ∈ [1; 2]) = true) as Hty by (destruct Ht; by subst).
  eapply back_intro; [cbn [pack_body]; unfold ofl_msg_pack_multipart_request; rewrite Hty; reflexivity|rewrite !length_app, !be_length, H4'; cbn; lia|].
  intros Hlen a b c d e f g h. eexists. change (unpack_body _ ?buf _ ?len) with (ofl_msg_unpack_multipart_request buf len).
  assert (fits 8 (rf_table_id r)) by (unfold table_ok, fits, PIPELINE_TABLES, OFPTT_ALL in *; lia). assert (fits 16 type) by (unfold fits; lia).
  unfold ofl_msg_unpack_multipart_request. rewrite (proj2 (Z.ltb_ge _ _)) by lia. fetch type. rewrite Hty.
  rewrite bool_decide_false by (destruct Ht; subst; set_solver). unfold ofl_msg_unpack_multipart_request_flow. rewrite (proj2 (Z.ltb_ge _ _)) by lia.
  fetch (rf_table_id r). assert (negb (rf_table_id r =? OFPTT_ALL) && (PIPELINE_TABLES <=? rf_table_id r) = false) as ->.
  { destruct H1 as [H1| ->]; [|done]. rewrite (proj2 (Z.leb_gt _ _)) by lia. by rewrite andb_false_r. }
  fetch (rf_out_port r). fetch (rf_out_group r). fetch (rf_cookie r). fetch (rf_cookie_mask r).
  set (head := [a; b; c; d; e; f; g; h] ++ (be 2 type ++ be 2 flags ++ zeros 4) ++ be 1 (rf_table_id r) ++ zeros 3 ++ be 4 (rf_out_port r) ++
    be 4 (rf_out_group r) ++ zeros 4 ++ be 8 (rf_cookie r) ++ be 8 (rf_cookie_mask r)).
  change ([a; b; c; d; e; f; g; h] ++ _) with (head ++ ofl_structs_match_pack (rf_match r) ++ fresh 4). rewrite match_at by done. cbn [mbind res_bind].
  fetch flags. reflexivity.
Qed.

Lemma reply_intro flags r n body :
  pack_reply r = Some (n, body) → n = 16 + Z.of_nat (length body) → fits 16 flags →
  (n < 2 ^ 16 → ∀ head, length head = 16%nat → unpack_reply (head ++ body) (reply_type r) (Z.of_nat (length body)) = Val (reply_unpacked r, 0)) →
  comes_back (MsgMultipartReply (reply_type r) flags r).
Proof using.
  intros Hp Hn Hf Hu. assert (fits 16 (reply_type r)) by (by destruct r).
  eapply back_intro; [cbn [pack_body]; unfold ofl_msg_pack_multipart_reply; rewrite Z.eqb_refl, Hp; reflexivity|rewrite !length_app, !be_length; cbn; lia|].
  intros Hlen a b c d e f g h. exists 0. change (unpack_body _ ?buf _ ?len) with (ofl_msg_unpack_multipart_reply buf len).
  unfold ofl_msg_unpack_multipart_reply. rewrite (proj2 (Z.ltb_ge _ _)) by lia. fetch (reply_type r).
  rewrite Hn, Z.add_simpl_l, !app_assoc, Hu by done. cbn [mbind res_bind]. fetch flags. done.
Qed.

(** What elements of any length fill. *)
Lemma total_len {A : Type} (pack : A → option (list Z)) (len : A → Z) (ok : A → Prop) l bs :
  (∀ a b, ok a → pack a = Some b → Z.of_nat (length b) = len a) → Forall ok l → pack_all pack l = Some bs → Z.of_nat (length bs) = zsum (len <$> l).
Proof using.
  intros Hlen Hl. revert bs. induction Hl as [|a l Ha _ IH]; intros bs Hp; [by apply some_inj in Hp as <-|].
  rewrite pack_all_cons in Hp. destruct (pack a) as [b|] eqn:Eb; [|done]. cbn [mbind option_bind] in Hp.
  destruct (pack_all pack l) as [rest|]; [|done]. apply some_inj in Hp as <-.
  change (zsum (len <$> a :: l)) with (len a + zsum (len <$> l)). rewrite length_app, Nat2Z.inj_add, (Hlen a b), (IH rest) by done. done.
Qed.

(** Replies that list elements of a fixed size. *)
Lemma fixed_reply_back flags r {A : Type} (pack : A → option (list Z)) unpack size ok `{!FixedCodec pack unpack size ok} l (con : list A → multipart_reply) :
  r = con l → reply_unpacked r = r → (0 < size)%nat → Forall ok l → fits 16 flags →
  (∀ bs, pack_all pack l = Some bs → pack_reply r = Some (16 + Z.of_nat (length l) * Z.of_nat size, bs)) →
  (∀ buf len, unpack_reply buf (reply_type r) len =
    ('(stats, len) ← unpack_fixed (unpack buf) size (count_fixed (Z.of_nat size) len) 16 len; Val (con stats, len))) →
  comes_back (MsgMultipartReply (reply_type r) flags r).
Proof using.
  intros Hr Hsame Hs Hl Hf Hp Hu. destruct (fixed_all pack unpack size ok l Hl) as (bs & E & Hlen).
  eapply reply_intro; [by apply Hp|rewrite Hlen; lia|done|]. intros _ head Hh. rewrite Hu.
  rewrite (fixed_at pack unpack size ok l bs head 16) by done. cbn [mbind res_bind]. by rewrite Hsame, Hr.
Qed.

(** Replies that list elements with their lengths. *)
Lemma codec_reply_back flags r {A : Type} (pack : A → option (list Z)) unpack off least ok norm `{!Codec pack unpack off least ok norm} room
    (len : A → Z) l (con : list A → multipart_reply) :
  reply_unpacked r = con (norm <$> l) → 0 < room <= least → Forall ok l → fits 16 flags →
  (∀ a b, ok a → pack a = Some b → Z.of_nat (length b) = len a) →
  (∀ bs, pack_all pack l = Some bs → pack_reply r = Some (16 + zsum (len <$> l), bs)) →
  (∀ buf len, unpack_reply buf (reply_type r) len =
    (n ← count_loop room room off OFPBRC_BAD_LEN (turns len) buf 16 len;
     '(stats, len) ← unpack_loop (unpack buf) off n buf 16 len; Val (con stats, len))) →
  comes_back (MsgMultipartReply (reply_type r) flags r).
Proof using.
  intros Hr Hs Hl Hf Hlen Hp Hu. destruct (pack_all_some pack unpack off least ok l Hl) as [bs E].
  eapply reply_intro; [by apply Hp|rewrite <- (total_len pack len ok l bs) by done; done|done|]. intros _ head Hh. rewrite Hu.
  destruct (elements_at pack unpack off least ok norm room room OFPBRC_BAD_LEN l bs head 16 (Z.of_nat (length bs))) as [-> Hloop]; [done..|lia|done|done|].
  cbn [mbind res_bind]. rewrite Hloop. cbn [mbind res_bind]. by rewrite Hr.
Qed.

Lemma list_reply_back flags r :
  match r with
  | RepTable _ | RepPort _ | RepQueue _ | RepPortDesc _ | RepFlow _ | RepGroup _ | RepGroupDesc _ | RepMeter _ | RepMeterConfig _ => True
  | _ => False
  end → reply_ok r → fits 16 flags → comes_back (MsgMultipartReply (reply_type r) flags r).
Proof using.
  intros Hr Hok Hf. destruct r as [|l| |l| |l|l|l|l| |l|l| |l]; try contradiction; cbn [reply_ok] in Hok.
  - apply (codec_reply_back flags _ ofl_structs_flow_stats_pack ofl_structs_flow_stats_unpack 0 56 flow_stats_ok flow_stats_unpacked 56
      ofl_structs_flow_stats_ofp_len l RepFlow); [done|lia|done|done| |by intros bs E; cbn; unfold ofl_msg_pack_multipart_reply_flow; rewrite E|done].
    intros s b Hs E. destruct (flow_stats_pack s Hs) as (? & ? & _ & E' & _ & Hl & _). rewrite E in E'. apply some_inj in E' as ->. done.
  - apply (fixed_reply_back flags _ ofl_structs_table_stats_pack ofl_structs_table_stats_unpack 24 table_stats_ok l RepTable); [done|done|lia|done|done| |done].
    intros bs E. cbn. unfold ofl_msg_pack_multipart_reply_table. by rewrite E.
  - apply (fixed_reply_back flags _ ofl_structs_port_stats_pack ofl_structs_port_stats_unpack 112 port_stats_ok l RepPort); [done|done|lia|done|done| |done].
    intros bs E. cbn. unfold ofl_msg_pack_multipart_reply_port. by rewrite E.
  - apply (fixed_reply_back flags _ ofl_structs_queue_stats_pack ofl_structs_queue_stats_unpack 40 queue_stats_ok l RepQueue); [done|done|lia|done|done| |done].
    intros bs E. cbn. unfold ofl_msg_pack_multipart_reply_queue. by rewrite E.
  - apply (codec_reply_back flags _ ofl_structs_group_stats_pack ofl_structs_group_stats_unpack 0 40 group_stats_ok _ 40
      ofl_structs_group_stats_ofp_len l RepGroup); [by rewrite list_fmap_id|lia|done|done| |by intros bs E; cbn; unfold ofl_msg_pack_multipart_reply_group; rewrite E|done].
    intros s b Hs E. destruct (group_stats_pack s Hs) as (? & _ & _ & ? & E' & Hl). rewrite E in E'. apply some_inj in E' as ->. done.
  - apply (codec_reply_back flags _ ofl_structs_group_desc_stats_pack ofl_structs_group_desc_stats_unpack 0 8 group_desc_ok _ 8
      ofl_structs_group_desc_stats_ofp_len l RepGroupDesc); [by rewrite list_fmap_id|lia|done|done| |by intros bs E; cbn; unfold ofl_msg_pack_multipart_reply_group_desc; rewrite E|done].
    intros s b Hs E. destruct (group_desc_pack s Hs) as (? & _ & _ & E' & Hl). rewrite E in E'. apply some_inj in E' as ->. done.
  - apply (codec_reply_back flags _ ofl_structs_meter_stats_pack ofl_structs_meter_stats_unpack 4 40 meter_stats_ok _ 40
      ofl_structs_meter_stats_ofp_len l RepMeter); [by rewrite list_fmap_id|lia|done|done| |by intros bs E; cbn; unfold ofl_msg_pack_multipart_reply_meter_stats; rewrite E|done].
    intros s b Hs E. destruct (meter_stats_pack s Hs) as (? & _ & _ & ? & E' & Hl). rewrite E in E'. apply some_inj in E' as ->. destruct Hs. congruence.
  - apply (codec_reply_back flags _ ofl_structs_meter_conf_pack ofl_structs_meter_config_unpack 0 8 meter_config_ok _ 8
      ofl_structs_meter_conf_ofp_len l RepMeterConfig); [by rewrite list_fmap_id|lia|done|done| |by intros bs E; cbn; unfold ofl_msg_pack_multipart_reply_meter_conf; rewrite E|done].
    intros s b Hs E. destruct (meter_config_pack s Hs) as (? & _ & _ & E' & Hl). rewrite E in E'. apply some_inj in E' as ->. destruct Hs as (_ & _ & _ & _ & <-). done.
  - apply (fixed_reply_back flags _ ofl_structs_port_pack ofl_structs_port_unpack 64 port_desc_ok l RepPortDesc); [done|done|lia|done|done| |done].
    intros bs E. cbn. unfold ofl_msg_pack_multipart_reply_port_status_desc. by rewrite E.
Qed.

Lemma cstring_front s bs post : cstring bs = Some s → cstring (bs ++ post) = Some s.
Proof using.
  revert s. induction bs as [|c bs IH]; intros s E; [done|]. cbn in E |- *. destruct (c =? 0); [done|].
  destruct (cstring bs) as [s'|]; [|done]. by rewrite (IH s' eq_refl).
Qed.

Lemma desc_string n bs buf head post k :
  desc_ok n bs → buf = head ++ take n bs ++ post → length head = k → get_string buf k = Val (default [] (cstring (take n bs))).
Proof using.
  intros [_ [s Hs]] -> <-. unfold get_string. rewrite drop_app_length, (cstring_front s) by done. by rewrite Hs.
Qed.

Lemma copied_ok n bs : desc_ok n bs → copied n bs = Some (take n bs) ∧ length (take n bs) = n.
Proof using. intros [Hn _]. unfold copied. rewrite (proj2 (Nat.leb_le _ _)) by done. split; [done|]. rewrite length_take. lia. Qed.

Lemma desc_reply_back flags d : reply_ok (RepDesc d) → fits 16 flags → comes_back (MsgMultipartReply 0 flags (RepDesc d)).
Proof using.
  intros (H1 & H2 & H3 & H4 & H5) Hf.
  destruct (copied_ok _ _ H1) as [E1 L1], (copied_ok _ _ H2) as [E2 L2], (copied_ok _ _ H3) as [E3 L3], (copied_ok _ _ H4) as [E4 L4], (copied_ok _ _ H5) as [E5 L5].
  apply (reply_intro flags (RepDesc d) (16 + 1056) (take DESC_STR_LEN (rd_mfr_desc d) ++ take DESC_STR_LEN (rd_hw_desc d) ++
    take DESC_STR_LEN (rd_sw_desc d) ++ take 32 (rd_serial_num d) ++ take DESC_STR_LEN (rd_dp_desc d))); [| |done|].
  - unfold pack_reply, ofl_msg_pack_multipart_reply_desc. by rewrite E1, E2, E3, E4, E5.
  - rewrite !length_app, L1, L2, L3, L4, L5. done.
  - intros _ head Hh. change (unpack_reply ?buf _ ?len) with (ofl_msg_unpack_reply_desc buf len). unfold ofl_msg_unpack_reply_desc.
    assert (∀ n, Z.of_nat (length (take DESC_STR_LEN (rd_mfr_desc d) ++ take DESC_STR_LEN (rd_hw_desc d) ++ take DESC_STR_LEN (rd_sw_desc d) ++
      take 32 (rd_serial_num d) ++ take DESC_STR_LEN (rd_dp_desc d))) - n = 1056 - n) as -> by (intros; rewrite !length_app, L1, L2, L3, L4, L5; done).
    rewrite (proj2 (Z.ltb_ge _ _)) by (rewrite !length_app, L1, L2, L3, L4, L5; done).
    rewrite (desc_string _ _ _ head _ 16 H1 eq_refl Hh). cbn [mbind res_bind].
    rewrite (app_assoc head), (desc_string _ _ _ _ _ 272 H2 eq_refl) by (rewrite length_app, L1, Hh; done). cbn [mbind res_bind].
    rewrite (app_assoc (head ++ _)), (desc_string _ _ _ _ _ 528 H3 eq_refl) by (rewrite !length_app, L1, L2, Hh; done). cbn [mbind res_bind].
    rewrite (app_assoc ((head ++ _) ++ _)), (desc_string _ _ _ _ _ 784 H4 eq_refl) by (rewrite !length_app, L1, L2, L3, Hh; done). cbn [mbind res_bind].
    rewrite (app_assoc (((head ++ _) ++ _) ++ _)), <- (app_nil_r (take DESC_STR_LEN (rd_dp_desc d))) at 1.
    rewrite (desc_string _ _ _ _ [] 816 H5 eq_refl) by (rewrite !length_app, L1, L2, L3, L4, Hh; done). done.
Qed.

Lemma get_numbers_at xs head tail k :
  Forall (fits 32) xs → length head = k → get_numbers (length xs) (head ++ concat (be 4 <$> xs) ++ tail) k = Val xs.
Proof using.
  intros Hx. revert head k. induction Hx as [|x xs Hx _ IH]; intros head k Hk; [done|]. cbn [get_numbers length].
  change (concat (be 4 <$> x :: xs)) with (be 4 x ++ concat (be 4 <$> xs)). rewrite <- app_assoc.
  rewrite (get_lit 4 _ k x); [| |done|lia].
  2: { rewrite drop_app_length' by done. rewrite take_app_length'; [done|by rewrite be_length]. }
  cbn [mbind res_bind]. rewrite app_assoc, IH; [done|]. rewrite length_app, be_length. lia.
Qed.

Lemma fixed_multipart_back flags r :
  match r with RepAggregate _ _ _ | RepGroupFeatures _ _ _ _ | RepMeterFeatures _ _ _ _ _ => True | _ => False end →
  reply_ok r → fits 16 flags → comes_back (MsgMultipartReply (reply_type r) flags r).
Proof using.
  intros Hr Hok Hf. destruct r as [| |pc bc fc| | | | | | |ty cap mg ac| | |mx bt cap mb mc|]; try contradiction; cbn [reply_ok] in Hok.
  - destruct Hok as (H1 & H2 & H3). eapply reply_intro; [reflexivity|done|done|]. intros _ head Hh. do 16 (destruct head as [|? head]; [discriminate|]). destruct head; [|discriminate].
    change (unpack_reply ?buf _ ?len) with (ofl_msg_unpack_multipart_reply_aggregate buf len). unfold ofl_msg_unpack_multipart_reply_aggregate.
    change (_ <? 24) with false. cbn match. fetch pc. fetch bc. fetch fc. done.
  - destruct Hok as (H1 & H2 & L1 & H3 & L2 & H4).
    destruct mg as [|g0 [|g1 [|g2 [|g3 [|? ?]]]]]; try discriminate L1. destruct ac as [|a0 [|a1 [|a2 [|a3 [|? ?]]]]]; try discriminate L2.
    eapply reply_intro; [reflexivity|done|done|]. intros _ head Hh. do 16 (destruct head as [|? head]; [discriminate|]). destruct head; [|discriminate].
    change (unpack_reply ?buf _ ?len) with (ofl_msg_unpack_multipart_reply_group_features buf len). unfold ofl_msg_unpack_multipart_reply_group_features.
    change (_ <? 40) with false. cbn match. fetch ty. fetch cap.
    pose proof (get_numbers_at [g0; g1; g2; g3] ([z; z0; z1; z2; z3; z4; z5; z6; z7; z8; z9; z10; z11; z12; z13; z14] ++ be 4 ty ++ be 4 cap)
      (concat (be 4 <$> [a0; a1; a2; a3])) 24 H3 eq_refl) as Hg. rewrite <- !app_assoc in Hg. change (length [g0; g1; g2; g3]) with 4%nat in Hg. rewrite Hg. clear Hg. cbn [mbind res_bind].
    pose proof (get_numbers_at [a0; a1; a2; a3] ([z; z0; z1; z2; z3; z4; z5; z6; z7; z8; z9; z10; z11; z12; z13; z14] ++ be 4 ty ++ be 4 cap ++ concat (be 4 <$> [g0; g1; g2; g3]))
      [] 40 H4 eq_refl) as Hg. rewrite <- !app_assoc, app_nil_r in Hg. change (length [a0; a1; a2; a3]) with 4%nat in Hg. rewrite Hg. done.
  - destruct Hok as (H1 & H2 & H3 & H4 & H5). eapply reply_intro; [reflexivity|done|done|]. intros _ head Hh. do 16 (destruct head as [|? head]; [discriminate|]). destruct head; [|discriminate].
    change (unpack_reply ?buf _ ?len) with (ofl_msg_unpack_multipart_reply_meter_features buf len). unfold ofl_msg_unpack_multipart_reply_meter_features.
    change (_ <? 16) with false. cbn match. fetch mx. fetch bt. fetch cap. fetch mb. fetch mc. done.
Qed.

(** ** Queues *)

Definition prop_ok (q : ofl_queue_prop) : Prop := rate_ok (Some q).

#[local] Instance prop_codec : Codec ofl_structs_queue_prop_pack ofl_structs_queue_prop_unpack 2 8 prop_ok (λ q, q).
Proof using.
  split.
  - intros q _. by eexists.
  - intros q bs pre post len Hq Hp Hlen. apply some_inj in Hp as <-. unfold ofl_structs_queue_prop_unpack.
    destruct q as [rate|rate|]; [| |done]; cbn [length app be] in Hlen; (rewrite (proj2 (Z.ltb_ge _ _)) by (revert Hlen; cbn; lia)); read 16;
      (rewrite (proj2 (Z.ltb_ge _ _)) by (revert Hlen; cbn; lia)); [read 1|read 2]; cbn [Z.eqb Pos.eqb orb]; by read rate.
  - intros q bs pre post Hq Hp. apply some_inj in Hp as <-. destruct q as [rate|rate|]; [| |done]; (split; [by read 16|by cbn]).
Qed.

Lemma props_unpack l bs pre post len :
  Forall prop_ok l → pack_all ofl_structs_queue_prop_pack l = Some bs → Z.of_nat (length bs) <= len →
  unpack_props (length l) (pre ++ bs ++ post) (length pre) len = Val (Some <$> l, len - Z.of_nat (length bs)).
Proof using.
  intros Hl. revert bs pre len. induction Hl as [|q l Hq _ IH]; intros bs pre len Hp Hlen.
  { injection Hp as <-. cbn. by rewrite Z.sub_0_r. }
  rewrite pack_all_cons in Hp. destruct (ofl_structs_queue_prop_pack q) as [b|] eqn:Eb; [|done]. cbn [mbind option_bind] in Hp.
  destruct (pack_all ofl_structs_queue_prop_pack l) as [rest|] eqn:Er; [|done]. apply some_inj in Hp as <-. rewrite length_app in Hlen.
  cbn [unpack_props length]. rewrite <- app_assoc. rewrite (codec_unpack q b pre (rest ++ post)) by (done || lia). cbn [mbind res_bind].
  destruct (codec_length q b pre (rest ++ post) Hq Eb) as [-> _]. cbn [mbind res_bind]. rewrite Nat2Z.id.
  rewrite <- length_app, (app_assoc pre), IH by (done || lia). cbn [mbind res_bind]. do 2 f_equal. rewrite length_app. lia.
Qed.

Lemma queue_props_ok q : Forall rate_ok (pq_properties q) → ∃ l, queue_props q = Some l ∧ pq_properties q = Some <$> l ∧ Forall prop_ok l.
Proof using.
  unfold queue_props. induction 1 as [|p l Hp _ (ps & IH & E & Hps)]; [by exists []|]. destruct p as [p|]; [|done].
  exists (p :: ps). cbn. rewrite IH. cbn. split_and!; [done|by rewrite E|by constructor].
Qed.

Lemma props_len l bs : Forall prop_ok l → pack_all ofl_structs_queue_prop_pack l = Some bs → Z.of_nat (length bs) = ofl_structs_queue_prop_ofp_total_len l.
Proof using.
  apply total_len. intros q b Hq E. apply some_inj in E as <-. by destruct q.
Qed.

Lemma queue_len q all : queue_ok q → ofl_structs_packet_queue_pack q = Some all → Z.of_nat (length all) = ofl_structs_packet_queue_ofp_len q.
Proof using.
  intros [_ Hr] Hp. destruct (queue_props_ok q Hr) as (l & El & Eq & Hl). unfold ofl_structs_packet_queue_pack in Hp. rewrite El in Hp. cbn [mbind option_bind] in Hp.
  destruct (pack_all ofl_structs_queue_prop_pack l) as [bs|] eqn:E; [|done]. cbn [mbind option_bind] in Hp. apply some_inj in Hp as <-.
  pose proof (props_len l bs Hl E) as Lb. rewrite !length_app, !be_length, fresh_length. unfold ofl_structs_packet_queue_ofp_len. rewrite Eq, length_fmap.
  assert (ofl_structs_queue_prop_ofp_total_len l = 16 * Z.of_nat (length l)) as En; [|cbn; lia]. clear. unfold ofl_structs_queue_prop_ofp_total_len.
  induction l as [|a l IH]; [done|]. change (zsum (ofl_structs_queue_prop_ofp_len <$> a :: l)) with (16 + zsum (ofl_structs_queue_prop_ofp_len <$> l)). cbn [length]. lia.
Qed.

Lemma queue_back q head all k :
  queue_ok q → ofl_structs_packet_queue_pack q = Some all → length head = k → Z.of_nat (length all) < 2 ^ 16 →
  ofl_structs_packet_queue_unpack (head ++ all) k (Z.of_nat (length all)) = Val (q, 0) ∧ get 2 (head ++ all) (k + 8) = Val (Z.of_nat (length all)).
Proof using.
  intros [Hid Hr] Hp <- Hlen. destruct (queue_props_ok q Hr) as (l & El & Eq & Hl). unfold ofl_structs_packet_queue_pack in Hp. rewrite El in Hp. cbn [mbind option_bind] in Hp.
  destruct (pack_all_some ofl_structs_queue_prop_pack _ _ _ _ _ Hl) as [bs E]. rewrite E in Hp. cbn [mbind option_bind] in Hp. apply some_inj in Hp as <-.
  pose proof (props_len l bs Hl E) as Lb. pose proof (fresh_length 4) as Hf. set (n := ofl_structs_queue_prop_ofp_total_len l) in *.
  destruct (fresh 4) as [|x [|y [|z [|w [|? ?]]]]]; try discriminate Hf. clear Hf.
  set (h16 := be 4 (pq_queue_id q) ++ [x; y; z; w] ++ be 2 (16 + n) ++ zeros 2 ++ [x; y; z; w]).
  change (be 4 (pq_queue_id q) ++ _) with (h16 ++ bs) in Hlen |- *. rewrite length_app in Hlen |- *. change (length h16) with 16%nat in Hlen |- *.
  assert (fits 16 (16 + n)) by (unfold fits; lia).
  assert (get 2 (head ++ h16 ++ bs) (length head + 8) = Val (16 + n)) as Hg.
  { rewrite <- (app_nil_r (h16 ++ bs)). apply get_at; [done|done|lia]. }
  assert (get 4 (head ++ h16 ++ bs) (length head) = Val (pq_queue_id q)) as Hg4.
  { rewrite <- (app_nil_r (h16 ++ bs)). apply get_first; [done|done|lia]. }
  split; [|rewrite Hg; f_equal; lia].
  unfold ofl_structs_packet_queue_unpack. rewrite Hg. cbn [mbind res_bind]. rewrite (proj2 (Z.ltb_ge _ _)) by lia. rewrite Hg4. cbn [mbind res_bind].
  unfold u64. rewrite wrap_small by (unfold fits; lia). unfold ofl_utils_count_ofp_queue_props. rewrite app_assoc.
  destruct (elements_at ofl_structs_queue_prop_pack ofl_structs_queue_prop_unpack 2 8 prop_ok _ 8 8 OFPBRC_BAD_LEN l bs (head ++ h16) (length head + 16)
    (Z.of_nat (16 + length bs) - 16)) as [-> _]; [done|done|lia|lia|by rewrite length_app|lia|]. cbn [mbind res_bind].
  pose proof (props_unpack l bs (head ++ h16) [] (Z.of_nat (16 + length bs) - 16) Hl E ltac:(lia)) as Hu. rewrite app_nil_r, length_app in Hu.
  change (length h16) with 16%nat in Hu. rewrite Hu. cbn [mbind res_bind]. rewrite <- Eq. destruct q. do 2 f_equal. lia.
Qed.

Lemma queues_back port queues : fits 32 port → (length queues <= 1)%nat → Forall queue_ok queues → comes_back (MsgQueueGetConfigReply port queues).
Proof using.
  intros Hport Hn Hq. destruct queues as [|q [|? ?]]; [| |cbn in Hn; lia].
  { eapply back_intro; [reflexivity|done|]. intros _ a b c d e f g h. eexists.
    change (unpack_body _ ?buf _ ?len) with (ofl_msg_unpack_queue_get_config_reply buf len). unfold ofl_msg_unpack_queue_get_config_reply.
    change (_ <? 16) with false. cbn match. fetch port. done. }
  inversion Hq as [|? ? Hq1 _]; subst. assert (is_Some (ofl_structs_packet_queue_pack q)) as [all E].
  { destruct Hq1 as [_ Hr]. destruct (queue_props_ok q Hr) as (l & El & _ & Hl). unfold ofl_structs_packet_queue_pack. rewrite El. cbn [mbind option_bind].
    destruct (pack_all_some ofl_structs_queue_prop_pack _ _ _ _ _ Hl) as [bs ->]. by eexists. }
  assert (pack_all ofl_structs_packet_queue_pack [q] = Some all) as Ep by (rewrite pack_all_cons, E; cbn; by rewrite app_nil_r).
  assert (∀ head, length head = 16%nat → Z.of_nat (length all) < 2 ^ 16 → _) as Hu by exact (λ head, queue_back q head all 16 Hq1 E).
  exists (be 4 port ++ zeros 4 ++ all). rewrite !length_app, be_length. change (length (zeros 4)) with 4%nat. split.
  - cbn [pack_body]. unfold ofl_msg_pack_queue_get_config_reply. rewrite Ep. cbn [mbind option_bind]. do 2 f_equal.
    change (ofl_structs_packet_queue_ofp_total_len [q]) with (ofl_structs_packet_queue_ofp_len q + 0). rewrite <- (queue_len q all Hq1 E). lia.
  - intros Hlen a b c d e f g h. eexists. destruct (Hu ([a; b; c; d; e; f; g; h] ++ be 4 port ++ zeros 4) eq_refl ltac:(lia)) as [Hun Hg]. pose proof (queue_len q all Hq1 E) as Hl.
    change (unpack_body _ ?buf _ ?len) with (ofl_msg_unpack_queue_get_config_reply buf len). unfold ofl_msg_unpack_queue_get_config_reply.
    rewrite (proj2 (Z.ltb_ge _ _)) by lia. fetch port. rewrite <- !app_assoc in Hun, Hg. unfold ofl_utils_count_ofp_packet_queues, turns.
    set (buf := [a; b; c; d; e; f; g; h] ++ be 4 port ++ zeros 4 ++ all) in *.
    replace (8 + Z.of_nat (4 + (4 + length all)) - 16) with (Z.of_nat (length all)) by lia. assert (16 <= Z.of_nat (length all)) by (rewrite Hl; unfold ofl_structs_packet_queue_ofp_len; lia).
    cbn [count_loop]. rewrite (proj2 (Z.ltb_ge _ 16)) by lia. rewrite Hg. cbn [mbind res_bind]. rewrite Z.ltb_irrefl, (proj2 (Z.ltb_ge _ 16)) by lia. cbn [orb].
    rewrite Z.sub_diag. assert (∀ fuel p, count_loop 16 16 8 OFPBRC_BAD_LEN fuel buf p 0 = Val 0%nat) as -> by (by intros []).
    cbn [mbind res_bind unpack_loop]. rewrite Hun. cbn [mbind res_bind]. rewrite Hg. done.
Qed.

(** * Any message *)

Lemma body_back m : msg_ok m → comes_back m.
Proof using.
  intros Hm. destruct m; try (by apply fixed_back).
  - by apply empty_back.
  - destruct Hm. by apply error_back.
  - by apply echo_back.
  - by apply packet_in_back.
  - destruct Hm. by apply flow_removed_back.
  - destruct Hm. by apply port_status_back.
  - by apply packet_out_back.
  - by apply flow_mod_back.
  - by apply group_mod_back.
  - destruct Hm as (?&?&?&?&?). by apply port_mod_back.
  - destruct Hm as [Hr Hf]. destruct body; try (by apply fixed_request_back). by apply flow_request_back.
  - destruct Hm as (-> & Hr & Hf). destruct body; try (by apply list_reply_back); try (by apply fixed_multipart_back); by apply desc_reply_back.
  - destruct Hm as (?&?&?). by apply queues_back.
  - by apply meter_mod_back.
Qed.

Lemma msg_type_fits m : msg_ok m → fits 8 (msg_type m).
Proof using.
  destruct m; cbn; try done.
  - unfold empty_types. intros Hm. assert (type = 0 ∨ type = 5 ∨ type = 7 ∨ type = 20 ∨ type = 21 ∨ type = 26) by set_solver. unfold fits. lia.
  - intros [-> | ->]; done.
  - intros [[-> | ->] _]; done.
  - intros [[-> | ->] _]; done.
Qed.
End messages.

Lemma msg_back `{M : Malloc} exp_pack exp_unpack m xid :
  msg_ok m → fits 32 xid →
  ∃ bs body, ofl_msg_pack exp_pack m xid = Some bs ∧ pack_body exp_pack m = Some (Z.of_nat (length bs), body) ∧
    (Z.of_nat (length bs) < 2 ^ 16 → ofl_msg_unpack exp_unpack bs = Val (xid, msg_unpacked m)).
Proof.
  intros H Hx. destruct (body_back exp_pack exp_unpack m H) as (body & Hp & Hu). pose proof (msg_type_fits m H) as Ht. unfold ofl_msg_pack. rewrite Hp. cbn [mbind option_bind].
  eexists _, body. split; [reflexivity|]. rewrite !length_app, !be_length. split; [do 2 f_equal; lia|]. intros Hlen.
  set (n := 8 + Z.of_nat (length body)) in *. assert (fits 16 n) by (unfold fits; lia).
  unfold ofl_msg_unpack. rewrite !length_app, !be_length. replace (Z.of_nat _) with n by lia.
  rewrite (proj2 (Z.ltb_ge _ _)) by lia. fetch OFP_VERSION. cbn [Z.eqb Pos.eqb negb OFP_VERSION]. fetch xid. fetch n. rewrite Z.eqb_refl. cbn [negb].
  fetch (msg_type m). rewrite !app_assoc. pose proof (eq_refl : length (((be 1 OFP_VERSION ++ be 1 (msg_type m)) ++ be 2 n) ++ be 4 xid) = 8%nat) as Hh.
  destruct (((be 1 OFP_VERSION ++ be 1 (msg_type m)) ++ be 2 n) ++ be 4 xid) as [|a [|b [|c [|d [|e [|f [|g [|h [|? ?]]]]]]]]]; try discriminate Hh.
  destruct (Hu (proj2 H0) a b c d e f g h) as [rest ->]. done.
Qed.

(** C11: OpenFlow messages survive the wire.  A message whose fields fit
    their widths ([msg_ok]) is packed; the length the packing functions
    computed for the buffer is the number of bytes they write and the length in the header;
    and when that fits sixteen bits, unpacking the bytes gives the same transaction id and the message
    [msg_unpacked m].  Left out are experimenter messages, table features (requests with tables and replies), packet-outs
    with set-field actions ([packet_out_set_field] shows one that does not come back) and queue configurations with two or
    more queues ([two_queues_rejected]).  What comes back is the message itself, except that the fields of its matches are in
    the order of the wire, that the strings of a switch description are cut at their NULs, and that of a
    FLOW_REMOVED the hard timeout is 0 (packing leaves its two bytes unset, and unpacking does not read them), and the flags
    and instructions, which the message does not carry, are gone. *)
Theorem msg_roundtrip `{M : Malloc} (exp_pack : ofl_msg_experimenter → option (Z * list Z)) (exp_unpack : list Z → Z → res (ofl_msg_experimenter * Z)) (m : ofl_msg) (xid : Z)
    (H : msg_ok m) (Hx : fits 32 xid) :
  ∃ bs body, ofl_msg_pack exp_pack m xid = Some bs ∧ pack_body exp_pack m = Some (Z.of_nat (length bs), body) ∧
    (Z.of_nat (length bs) < 2 ^ 16 → ofl_msg_unpack exp_unpack bs = Val (xid, msg_unpacked m)).
Proof. by apply msg_back. Qed.

(** A [malloc] that returns zeros. *)
Lemma zeros_bytes n : bytes (zeros n).
Proof. induction n; constructor; [done|done]. Qed.

#[local] Instance zero_malloc : Malloc := {| fresh := zeros; fresh_length n := length_replicate n 0; fresh_bytes := zeros_bytes |}.

Definition ex_flow_mod : ofl_msg :=
  MsgFlowMod (FlowMod 1 0 0 OFPFC_ADD 60 0 0x8000 0xffffffff OFPP_ANY 0xffffffff 0 ex_http [InstApplyActions [ActOutput 2 0]; InstGotoTable 1]).

Lemma ex_flow_mod_ok : msg_ok ex_flow_mod.
Proof.
  cbn. split; try done.
  - left. done.
  - apply (bool_decide_unpack _). vm_compute. exact I.
  - repeat constructor; cbn; try lia; try done.
Qed.

Lemma msg_roundtrip_witness :
  msg_ok ex_flow_mod ∧ fits 32 7 ∧
  ∃ bs body, ofl_msg_pack (λ _, None) ex_flow_mod 7 = Some bs ∧ pack_body (λ _, None) ex_flow_mod = Some (Z.of_nat (length bs), body) ∧
    (Z.of_nat (length bs) < 2 ^ 16 → ofl_msg_unpack (λ _ _, Undef) bs = Val (7, msg_unpacked ex_flow_mod)).
Proof.
  split; [exact ex_flow_mod_ok|]. split; [done|]. apply (msg_roundtrip (λ _, None) (λ _ _, Undef) ex_flow_mod 7); [exact ex_flow_mod_ok|done].
Defined.
