(* ===== verification/MessagesSafe.v ===== *)
(** Messages that come from outside: when unpacking ends, when it reads outside of the message,
    and messages that do not come back. *)

From S2P Require Import Prelude Memory OpenFlow Oxm Group Meter Ports Controllers FlowTable Wire WireCorrect OxmWire StatsWire Experimenter Messages MessagesCorrect.

(** * Unpacking ends *)

Lemma get_returns w buf p : get w buf p ≠ Hang.
Proof. unfold get, get_bytes. by destruct (mread _ _ _). Qed.

(** The walk along the instructions comes to one of length zero with more than four bytes left. *)
Inductive stuck (buf : list Z) : nat → Z → Prop :=
  | stuck_here p len : 5 <= len → get 2 buf (p + 2) = Val 0 → stuck buf p len
  | stuck_next p len l : 5 <= len → get 2 buf (p + 2) = Val l → 0 < l <= len → stuck buf (p + Z.to_nat l) (len - l) → stuck buf p len.

(** No number of turns is enough for the loop then. *)
Lemma stuck_hangs e buf p len : stuck buf p len → ∀ fuel, count_loop 5 0 2 e fuel buf p len = Hang.
Proof.
  induction 1 as [p len H5 Hg|p len l H5 Hg Hl _ IH]; intros fuel.
  - induction fuel as [|fuel IH]; cbn [count_loop]; rewrite (proj2 (Z.ltb_ge _ _)) by lia; [done|]. rewrite Hg. cbn [mbind res_bind].
    rewrite (proj2 (Z.ltb_ge _ _)) by lia. cbn [orb Z.ltb Z.compare Z.to_nat]. by rewrite Nat.add_0_r, Z.sub_0_r, IH.
  - destruct fuel as [|fuel]; cbn [count_loop]; rewrite (proj2 (Z.ltb_ge _ _)) by lia; [done|]. rewrite Hg. cbn [mbind res_bind].
    rewrite !(proj2 (Z.ltb_ge _ _)) by lia. cbn [orb]. by rewrite IH.
Qed.

Lemma count_stuck e fuel buf p len : (Z.to_nat len < fuel)%nat → count_loop 5 0 2 e fuel buf p len = Hang → stuck buf p len.
Proof.
  revert p len. induction fuel as [|fuel IH]; intros p len Hf; [lia|]. cbn [count_loop]. destruct (Z.ltb_spec len 5) as [|H5]; [done|].
  destruct (get 2 buf (p + 2)) as [| | |l] eqn:Hg; [done|by apply get_returns in Hg|done|]; cbn [mbind res_bind].
  destruct (Z.ltb_spec len l) as [|H1]; [done|]. destruct (Z.ltb_spec l 0) as [|H2]; [done|]. cbn [orb]. intros Hh.
  destruct (decide (l = 0)) as [-> |]; [by apply stuck_here|]. eapply stuck_next; [done|done|lia|]. apply IH; [lia|].
  by destruct (count_loop 5 0 2 e fuel buf (p + Z.to_nat l) (len - l)).
Qed.

(** ** Where the instructions of a message are *)

(** The positions of the elements of a list, from that of the first on; each says at [off] how far it
    is to the next ([move] rounds, where the code does). *)
Inductive walked (buf : list Z) (off : nat) (move : Z → Z) : nat → nat → Prop :=
  | walked_here p : walked buf off move p p
  | walked_next p q l : get 2 buf (p + off) = Val l → walked buf off move (p + Z.to_nat (move l)) q → walked buf off move p q.

(** [len] bytes at [p] are for the instructions of the structure at [s] with its match at [s + 48]. *)
Definition behind_match (buf : list Z) (s : nat) (left : Z) (p : nat) (len : Z) : Prop :=
  ∃ m, ofl_structs_match_unpack buf (s + 48) left = Val (m, len) ∧ p = (s + Z.to_nat (ROUND_UP (52 + match_length m)))%nat.

(** The message has instructions at [p], for which [len] bytes are left: behind the match of a FLOW_MOD; behind
    the match of one of the flows of a flow statistics reply; in one of the properties of the types 0 and 1
    (instructions, and those for a table miss) of one of the tables of a table features message. *)
Inductive instructions_at (buf : list Z) (p : nat) (len : Z) : Prop :=
  | at_flow_mod : get 1 buf 1 = Val 14 → behind_match buf 0 (Z.of_nat (length buf) - 48) p len → instructions_at buf p len
  | at_flow_stats s l : get 1 buf 1 = Val 19 → get 2 buf 8 = Val 1 → walked buf 0 id 16 s → get 2 buf s = Val l →
      behind_match buf s (u64 (l - 48)) p len → instructions_at buf p len
  | at_table_features s q t l : (get 1 buf 1 = Val 18 ∨ get 1 buf 1 = Val 19) → get 2 buf 8 = Val 12 → walked buf 0 id 16 s →
      walked buf 2 ROUND_UP (s + 64) q → get 2 buf q = Val t → t ∈ [0; 1] → get 2 buf (q + 2) = Val l → p = (q + 4)%nat → len = l - 4 →
      instructions_at buf p len.

Lemma walked_snoc buf off move p q l :
  walked buf off move p q → get 2 buf (q + off) = Val l → walked buf off move p (q + Z.to_nat (move l)).
Proof. intros Hw Hl. induction Hw; eapply walked_next; eauto. apply walked_here. Qed.

(** Either the result is no [Hang], or [P] holds. *)
Definition ends {A : Type} (P : Prop) (r : res A) : Prop := r = Hang → P.

Section ends.
  Context (P : Prop).

Lemma ends_bind {A B : Type} (m : res A) (f : A → res B) : ends P m → (∀ a, ends P (f a)) → ends P (m ≫= f).
Proof using. unfold ends. destruct m; cbn; intros Hm Hf E; [done|by apply Hm|done|by eapply Hf]. Qed.
Lemma ends_bind_eq {A B : Type} (m : res A) (f : A → res B) : ends P m → (∀ a, m = Val a → ends P (f a)) → ends P (m ≫= f).
Proof using. unfold ends. destruct m; cbn; intros Hm Hf E; [done|by apply Hm|done|by eapply Hf]. Qed.
Lemma ends_val {A : Type} (a : A) : ends P (Val a).
Proof using. done. Qed.
Lemma ends_err {A : Type} e : ends P (@Err A e).
Proof using. done. Qed.
Lemma ends_undef {A : Type} : ends P (@Undef A).
Proof using. done. Qed.
Lemma ends_if {A : Type} (b : bool) (x y : res A) : ends P x → ends P y → ends P (if b then x else y).
Proof using. by destruct b. Qed.

Lemma ends_get_bytes buf p n : ends P (get_bytes buf p n).
Proof using. unfold ends, get_bytes. by destruct (mread _ _ _). Qed.
Lemma ends_get w buf p : ends P (get w buf p).
Proof using. apply ends_bind; [apply ends_get_bytes|intros; apply ends_val]. Qed.
Lemma ends_get_string buf p : ends P (get_string buf p).
Proof using. unfold ends, get_string. by destruct (cstring _). Qed.
Lemma ends_copy_bytes buf p n : ends P (copy_bytes buf p n).
Proof using. apply ends_if; [apply ends_val|apply ends_get_bytes]. Qed.

Lemma ends_loop {A : Type} (unpack : nat → Z → res (A * Z)) off n buf p len :
  (∀ p len, ends P (unpack p len)) → ends P (unpack_loop unpack off n buf p len).
Proof using.
  intros Hu. revert p len. induction n as [|n IH]; intros p len; [apply ends_val|]. cbn [unpack_loop].
  apply ends_bind; [apply Hu|]. intros [a len']. apply ends_bind; [apply ends_get|]. intros l. apply ends_bind; [apply IH|]. intros []. apply ends_val.
Qed.

(** The same, with what is known of the positions. *)
Lemma ends_walk {A : Type} (unpack : nat → Z → res (A * Z)) off n buf p0 p len :
  (∀ q len, walked buf off id p0 q → ends P (unpack q len)) → walked buf off id p0 p → ends P (unpack_loop unpack off n buf p len).
Proof using.
  intros Hu. revert p len. induction n as [|n IH]; intros p len Hp; [apply ends_val|]. cbn [unpack_loop].
  apply ends_bind; [by apply Hu|]. intros [a len']. apply ends_bind_eq; [apply ends_get|]. intros l Hl.
  apply ends_bind; [apply IH; exact (walked_snoc _ _ id _ _ _ Hp Hl)|]. intros []. apply ends_val.
Qed.

Lemma ends_fixed {A : Type} (unpack : nat → Z → res (A * Z)) size n p len : (∀ p len, ends P (unpack p len)) → ends P (unpack_fixed unpack size n p len).
Proof using.
  intros Hu. revert p len. induction n as [|n IH]; intros p len; [apply ends_val|]. cbn [unpack_fixed].
  apply ends_bind; [apply Hu|]. intros [a len']. apply ends_bind; [apply IH|]. intros []. apply ends_val.
Qed.

(** Elements of at least one byte are soon counted. *)
Lemma ends_count room least off e fuel buf p len : 0 < room → 0 < least → (Z.to_nat len < fuel)%nat → ends P (count_loop room least off e fuel buf p len).
Proof using.
  intros Hr Hl. revert p len. induction fuel as [|fuel IH]; intros p len Hf; [lia|]. cbn [count_loop].
  destruct (Z.ltb_spec len room) as [|H5]; [apply ends_val|]. apply ends_bind; [apply ends_get|]. intros l.
  destruct (Z.ltb_spec len l) as [|H1]; [apply ends_err|]. destruct (Z.ltb_spec l least) as [|H2]; [apply ends_err|]. cbn [orb].
  apply ends_bind; [apply IH; lia|]. intros n. apply ends_val.
Qed.

Lemma ends_pull fuel m p : (length p <= fuel)%nat → ends P (pull_loop fuel m p).
Proof using.
  revert m p. induction fuel as [|fuel IH]; intros m p Hf.
  { destruct p; [|cbn in Hf; lia]. apply ends_val. }
  cbn [pull_loop]. apply ends_if; [apply ends_if; [apply ends_val|apply ends_err]|]. apply ends_bind; [|intros m'; apply IH].
  - unfold pull_entry. destruct (oxm_field_lookup _) as [f|]; [|apply ends_err]. repeat (apply ends_if; [apply ends_err|]).
    unfold parse_oxm_entry, parse_masked, parse_exact, ntoh, raw, front.
    repeat first [apply ends_if | apply ends_err | apply ends_val | apply ends_undef | apply ends_bind; [|intros] | case_match].
  - rewrite length_drop. lia.
Qed.

Lemma ends_types n buf p : ends P (get_types n buf p).
Proof using.
  revert p. induction n as [|n IH]; intros p; [apply ends_val|]. cbn [get_types].
  apply ends_bind; [apply ends_get|]. intros t. apply ends_bind; [apply ends_get|]. intros l. apply ends_bind; [apply IH|]. intros. apply ends_val.
Qed.
Lemma ends_numbers n buf p : ends P (get_numbers n buf p).
Proof using. revert p. induction n as [|n IH]; intros p; [apply ends_val|]. cbn [get_numbers]. repeat (apply ends_bind; [apply ends_get || apply IH|]; intros). apply ends_val. Qed.
Lemma ends_counters n buf p : ends P (get_counters n buf p).
Proof using. revert p. induction n as [|n IH]; intros p; [apply ends_val|]. cbn [get_counters]. repeat (apply ends_bind; [apply ends_get || apply IH|]; intros). apply ends_val. Qed.

(** A turn takes at least eight bytes of the message. *)
Lemma ends_features fuel buf p len : (length buf <= fuel + p)%nat → ends P (count_features_loop (S fuel) buf p len).
Proof using.
  revert p len. induction fuel as [|fuel IH]; intros p len Hf; cbn [count_features_loop]; (apply ends_if; [apply ends_val|]);
    (destruct (get 2 buf (p + 2)) as [| | |l] eqn:Hg; [done|by apply get_returns in Hg|done|]); cbn [mbind res_bind].
  - exfalso. revert Hg. unfold get, get_bytes. destruct (mread buf (p + 2) 2) eqn:E; [|done]. apply mread_Some in E as [E _]. lia.
  - destruct ((len <? l) || (l <? 4)) eqn:E; [apply ends_err|]. apply ends_bind; [|intros; apply ends_val]. apply IH.
    pose proof (round_up_bound l). lia.
Qed.

Lemma ends_props n buf p len : ends P (unpack_props n buf p len).
Proof using.
  revert p len. induction n as [|n IH]; intros p len; [apply ends_val|]. cbn [unpack_props]. apply ends_bind.
  - assert (ends P (ofl_structs_queue_prop_unpack buf p len)) as Hq.
    { unfold ofl_structs_queue_prop_unpack. repeat first [apply ends_if | apply ends_err | apply ends_val | apply ends_get | apply ends_bind; [|intros] | case_match]. }
    destruct (ofl_structs_queue_prop_unpack buf p len) as [| | |[]]; try done. exact (λ _, Hq eq_refl).
  - intros [a len']. apply ends_bind; [apply ends_get|]. intros l. apply ends_bind; [apply IH|]. intros []. apply ends_val.
Qed.
End ends.

Create HintDb ends.
#[local] Hint Resolve ends_val ends_err ends_undef ends_get_bytes ends_get ends_get_string ends_copy_bytes ends_types ends_numbers ends_counters ends_props : ends.

(** Through the code of a function down to the functions it calls. *)
Ltac ends :=
  repeat first
    [ solve [auto 2 with ends nocore]
    | apply ends_count; [lia|lia|unfold turns; lia]
    | apply ends_loop; intros | apply ends_fixed; intros
    | apply ends_bind; [|intros; try match goal with p : _ * _ |- _ => destruct p end]
    | apply ends_if | case_match ].

(** The branches of a switch over the type. *)
Ltac branches := repeat lazymatch goal with |- ends _ (if _ then _ else _) => apply ends_if end; try apply ends_err.

Section any.
  Context (P : Prop).

Lemma ends_match buf p len : ends P (ofl_structs_match_unpack buf p len).
Proof using. unfold ofl_structs_match_unpack, oxm_pull_match. ends. by apply ends_pull. Qed.
Lemma ends_action buf p len : ends P (ofl_actions_unpack buf p len).
Proof using. unfold ofl_actions_unpack, unpack_action_body, unpack_set_field. ends. Qed.
#[local] Hint Resolve ends_match ends_action : ends.
Lemma ends_actions buf p len : ends P (unpack_actions buf p len).
Proof using. unfold unpack_actions, ofl_utils_count_ofp_actions. ends. Qed.
#[local] Hint Resolve ends_actions : ends.
Lemma ends_instruction buf p len : ends P (ofl_structs_instructions_unpack buf p len).
Proof using. unfold ofl_structs_instructions_unpack. ends. Qed.
Lemma ends_bucket buf t p len : ends P (ofl_structs_bucket_unpack buf t p len).
Proof using. unfold ofl_structs_bucket_unpack. ends. Qed.
Lemma ends_band buf p len : ends P (ofl_structs_meter_band_unpack buf p len).
Proof using. unfold ofl_structs_meter_band_unpack. ends. Qed.
#[local] Hint Resolve ends_instruction ends_bucket ends_band : ends.
Lemma ends_buckets buf p len : ends P (ofl_utils_count_ofp_buckets buf p len).
Proof using. unfold ofl_utils_count_ofp_buckets. ends. Qed.
Lemma ends_bands buf p len : ends P (ofl_utils_count_ofp_meter_bands buf p len).
Proof using. unfold ofl_utils_count_ofp_meter_bands. ends. Qed.
#[local] Hint Resolve ends_buckets ends_bands : ends.

Lemma ends_port buf p len : ends P (ofl_structs_port_unpack buf p len).
Proof using. unfold ofl_structs_port_unpack. ends. Qed.
Lemma ends_queue buf p len : ends P (ofl_structs_packet_queue_unpack buf p len).
Proof using. unfold ofl_structs_packet_queue_unpack, ofl_utils_count_ofp_queue_props. ends. Qed.
Lemma ends_match_anyway buf p len : ends P (unpack_match_anyway buf p len).
Proof using.
  unfold unpack_match_anyway. pose proof (ends_match buf p len) as Hm. destruct (ofl_structs_match_unpack buf p len) as [| |e|[]]; try done; ends.
Qed.
#[local] Hint Resolve ends_port ends_queue ends_match_anyway : ends.

Lemma ends_experimenter buf len : ends P (ofl_exp_msg_unpack buf len).
Proof using. unfold ofl_exp_msg_unpack, ofl_exp_openflow_msg_unpack, ofl_exp_nicira_msg_unpack. ends. Qed.

(** Messages without instructions. *)
Lemma ends_body exp_unpack buf t len :
  t ∉ [14; 18; 19] → (exp_unpack buf len = Hang → P) → ends P (unpack_body exp_unpack buf t len).
Proof using.
  intros Ht He. unfold unpack_body. rewrite (proj2 (Z.eqb_neq t 14)), (proj2 (Z.eqb_neq t 18)), (proj2 (Z.eqb_neq t 19)) by set_solver.
  branches; try (apply ends_bind; [exact He|intros []; apply ends_val]).
  - unfold ofl_msg_unpack_empty. ends.
  - unfold ofl_msg_unpack_error, get_data. ends.
  - unfold ofl_msg_unpack_echo, get_data. ends.
  - unfold ofl_msg_unpack_features_reply. ends.
  - unfold ofl_msg_unpack_get_config_reply. ends.
  - unfold ofl_msg_unpack_set_config. ends.
  - unfold ofl_msg_unpack_packet_in, get_data. ends.
  - unfold ofl_msg_unpack_flow_removed. ends.
  - unfold ofl_msg_unpack_port_status. ends.
  - unfold ofl_msg_unpack_packet_out, get_data, ofl_utils_count_ofp_actions. ends.
    intros _. match goal with H : unpack_loop _ _ _ _ _ _ = Hang |- _ => revert H end. apply ends_loop. intros. apply ends_action.
  - unfold ofl_msg_unpack_group_mod. ends.
  - unfold ofl_msg_unpack_port_mod. ends.
  - unfold ofl_msg_unpack_table_mod. ends.
  - unfold ofl_msg_unpack_queue_get_config_request. ends.
  - unfold ofl_msg_unpack_queue_get_config_reply, ofl_utils_count_ofp_packet_queues. ends.
  - unfold ofl_msg_unpack_role_request. ends.
  - unfold ofl_msg_unpack_async_config. ends.
  - unfold ofl_msg_unpack_meter_mod. ends.
Qed.

(** Messages with instructions. *)
Context (buf : list Z).

Lemma ends_instructions p len : (stuck buf p len → P) → ends P (ofl_utils_count_ofp_instructions buf p len).
Proof using. intros HP E. apply HP, (count_stuck OFPBRC_BAD_LEN (turns len)); [unfold turns; lia|done]. Qed.

Lemma ends_match_instructions s left :
  (∀ p len, behind_match buf s left p len → stuck buf p len → P) → ends P (unpack_match_instructions buf s (s + 48) left).
Proof using.
  intros HP. unfold unpack_match_instructions. apply ends_bind_eq; [apply ends_match|]. intros [m len] Hm.
  replace (Z.of_nat (s + 48 - s) + 4 + match_length m) with (52 + match_length m) by lia. apply ends_bind.
  - apply ends_instructions, HP. by exists m.
  - intros n. ends.
Qed.

Lemma ends_table_property q len :
  (∀ t l, get 2 buf q = Val t → t ∈ [0; 1] → get 2 buf (q + 2) = Val l → stuck buf (q + 4) (l - 4) → P) →
  ends P (ofl_structs_table_properties_unpack buf q len).
Proof using.
  intros HP. unfold ofl_structs_table_properties_unpack, ofl_utils_count_ofp_actions. apply ends_if; [ends|].
  apply ends_bind_eq; [ends|]. intros l Hl. apply ends_if; [ends|]. apply ends_bind_eq; [ends|]. intros t Ht. apply ends_bind; [|intros; ends].
  case_bool_decide; [|ends]. apply ends_if; [ends|]. apply ends_bind; [apply ends_instructions; by apply (HP t l)|]. intros n. ends.
Qed.

Lemma ends_table_properties s n q len :
  (∀ q t l, walked buf 2 ROUND_UP s q → get 2 buf q = Val t → t ∈ [0; 1] → get 2 buf (q + 2) = Val l → stuck buf (q + 4) (l - 4) → P) →
  walked buf 2 ROUND_UP s q → ends P (unpack_features n buf q len).
Proof using.
  intros HP. revert q len. induction n as [|n IH]; intros q len Hq; [apply ends_val|]. cbn [unpack_features].
  apply ends_bind; [apply ends_table_property; intros t l; by apply HP|]. intros [a len']. apply ends_bind_eq; [apply ends_get|]. intros l Hl.
  apply ends_bind; [apply IH; by apply walked_snoc|]. intros []. apply ends_val.
Qed.

Lemma ends_count_features p len : ends P (ofl_utils_count_ofp_table_features_properties buf p len).
Proof using. apply ends_features. lia. Qed.
#[local] Hint Resolve ends_count_features : ends.

Lemma ends_tables len :
  (∀ s q t l, walked buf 0 id 16 s → walked buf 2 ROUND_UP (s + 64) q → get 2 buf q = Val t → t ∈ [0; 1] →
     get 2 buf (q + 2) = Val l → stuck buf (q + 4) (l - 4) → P) →
  ends P (unpack_tables buf 16 len).
Proof using.
  intros HP. unfold unpack_tables, ofl_utils_count_ofp_table_features. apply ends_bind; [ends|]. intros n.
  eapply ends_walk; [|apply walked_here]. intros s len' Hs. unfold ofl_structs_table_features_unpack.
  ends. apply (ends_table_properties (s + 64)); [|apply walked_here]. intros q t l. by apply HP.
Qed.
End any.

(** The messages with instructions end, or get stuck at some of them. *)
Definition stuck_in (buf : list Z) : Prop := ∃ p len, instructions_at buf p len ∧ stuck buf p len.

Section instructions.
  Context (buf : list Z).
#[local] Hint Resolve ends_match ends_action ends_actions ends_instruction ends_bucket ends_band ends_buckets ends_bands ends_port ends_queue : ends.
#[local] Hint Resolve ends_match_anyway : ends.

Lemma ends_features_message t len : get 1 buf 1 = Val t → t ∈ [18; 19] → get 2 buf 8 = Val 12 → ends (stuck_in buf) (unpack_tables buf 16 len).
Proof using.
  intros Ht Hin H12. apply ends_tables. intros s q t' l Hs Hq Ht' Hin' Hl Hst. exists (q + 4)%nat, (l - 4). split; [|done].
  eapply (at_table_features buf _ _ s q t' l); try done. rewrite Ht. set_unfold in Hin. naive_solver.
Qed.

Lemma ends_instruction_body exp_unpack t :
  get 1 buf 1 = Val t → t ∈ [14; 18; 19] → ends (stuck_in buf) (unpack_body exp_unpack buf t (Z.of_nat (length buf))).
Proof using.
  intros Ht Hin. assert (t = 14 ∨ t = 18 ∨ t = 19) as [-> |[-> | ->]] by set_solver.
  - change (unpack_body _ _ _ ?len) with (ofl_msg_unpack_flow_mod buf len). unfold ofl_msg_unpack_flow_mod.
    assert (ends (stuck_in buf) (unpack_match_instructions buf 0 48 (Z.of_nat (length buf) - 48))) as Hi.
    { apply (ends_match_instructions (stuck_in buf) buf 0). intros p n Hp Hst. exists p, n. split; [by apply at_flow_mod|done]. }
    ends.
  - change (unpack_body _ _ _ ?len) with (ofl_msg_unpack_multipart_request buf len). unfold ofl_msg_unpack_multipart_request.
    apply ends_if; [ends|]. apply ends_bind_eq; [ends|]. intros type Htype. apply ends_bind; [|intros []; ends].
    apply ends_if; [ends|]. apply ends_if; [unfold ofl_msg_unpack_multipart_request_flow; ends|]. destruct (Z.eqb_spec type 12) as [-> |].
    { unfold ofl_msg_unpack_multipart_request_table_features. apply ends_if; [ends|]. apply ends_bind; [|intros []; ends].
      apply (ends_features_message 18); [done|set_solver|done]. }
    unfold ofl_msg_unpack_multipart_request_port, ofl_msg_unpack_multipart_request_queue, ofl_msg_unpack_multipart_request_group,
      ofl_msg_unpack_meter_multipart_request. ends.
  - change (unpack_body _ _ _ ?len) with (ofl_msg_unpack_multipart_reply buf len). unfold ofl_msg_unpack_multipart_reply, unpack_reply.
    apply ends_if; [ends|]. apply ends_bind_eq; [ends|]. intros type Htype. apply ends_bind; [|intros []; ends].
    apply ends_if; [unfold ofl_msg_unpack_reply_desc; ends|]. destruct (Z.eqb_spec type 1) as [-> |].
    { unfold ofl_msg_unpack_multipart_reply_flow, ofl_utils_count_ofp_flow_stats. apply ends_bind; [ends|]. intros n. apply ends_bind; [|intros []; ends].
      eapply ends_walk; [|apply walked_here]. intros s l0 Hs. unfold ofl_structs_flow_stats_unpack. apply ends_bind; [ends|]. intros mlen.
      apply ends_if; [ends|]. apply ends_bind_eq; [ends|]. intros l Hl.
      assert (ends (stuck_in buf) (unpack_match_instructions buf s (s + 48) (u64 (l - 48)))) as Hi.
      { apply ends_match_instructions. intros p len Hp Hst. exists p, len. split; [|done]. by eapply at_flow_stats. }
      ends. }
    apply ends_if; [unfold ofl_msg_unpack_multipart_reply_aggregate; ends|].
    apply ends_if; [unfold ofl_msg_unpack_multipart_reply_table, ofl_structs_table_stats_unpack; ends|]. destruct (Z.eqb_spec type 12) as [-> |].
    { unfold ofl_msg_unpack_multipart_reply_table_features. apply ends_bind; [|intros []; ends]. apply (ends_features_message 19); [done|set_solver|done]. }
    branches.
    + unfold ofl_msg_unpack_multipart_reply_port, ofl_structs_port_stats_unpack. ends.
    + unfold ofl_msg_unpack_multipart_reply_queue, ofl_structs_queue_stats_unpack. ends.
    + unfold ofl_msg_unpack_multipart_reply_group, ofl_utils_count_ofp_group_stats, ofl_structs_group_stats_unpack, ofl_structs_bucket_counter_unpack. ends.
    + unfold ofl_msg_unpack_multipart_reply_group_desc, ofl_utils_count_ofp_group_desc_stats, ofl_structs_group_desc_stats_unpack. ends.
    + unfold ofl_msg_unpack_multipart_reply_group_features. ends.
    + unfold ofl_msg_unpack_multipart_reply_meter_stats, ofl_utils_count_ofp_meter_stats, ofl_structs_meter_stats_unpack, ofl_structs_meter_band_stats_unpack. ends.
    + unfold ofl_msg_unpack_multipart_reply_meter_config, ofl_utils_count_ofp_meter_config, ofl_structs_meter_config_unpack. ends.
    + unfold ofl_msg_unpack_multipart_reply_meter_features. ends.
    + unfold ofl_msg_unpack_multipart_reply_port_desc. ends.
Qed.
End instructions.

(** C25: unpacking a message ends, whatever its bytes, except for one defect.  If it does
    not, the message is a FLOW_MOD, a flow statistics reply or a table features message, and the walk along its
    own instructions (behind the match of the FLOW_MOD, behind the match of one of the flows of the
    reply, or in a property for instructions of one of the tables; [instructions_at]) comes to one whose length field is zero with more than four
    bytes left; and then the loop that counts the instructions, [ofl_utils_count_ofp_instructions],
    takes no end with any number of turns. *)
Theorem unpack_ends (buf : list Z) (H : ofl_msg_unpack ofl_exp_msg_unpack buf = Hang) :
  ∃ p len, instructions_at buf p len ∧ stuck buf p len ∧ ∀ fuel, count_loop 5 0 2 OFPBRC_BAD_LEN fuel buf p len = Hang.
Proof.
  assert (stuck_in buf) as (p & len & Hi & Hs); [|exists p, len; split_and!; [done..|by apply stuck_hangs]].
  revert H. unfold ofl_msg_unpack. set (len := Z.of_nat (length buf)).
  change (ends (stuck_in buf) (if len <? 8 then Err OFPBRC_BAD_LEN else version ← get 1 buf 0;
    if negb (version =? OFP_VERSION) then Err (ofl_error 0 0)
    else xid ← get 4 buf 4; length ← get 2 buf 2; if negb (len =? length) then Err OFPBRC_BAD_LEN
      else t ← get 1 buf 1; '(msg, _) ← unpack_body ofl_exp_msg_unpack buf t len; Val (xid, msg))).
  apply ends_if; [apply ends_err|]. apply ends_bind; [apply ends_get|intros v]. apply ends_if; [apply ends_err|].
  apply ends_bind; [apply ends_get|intros xid]. apply ends_bind; [apply ends_get|intros l]. apply ends_if; [apply ends_err|].
  apply ends_bind_eq; [apply ends_get|]. intros t Ht. apply ends_bind; [|intros []; apply ends_val].
  destruct (decide (t ∈ [14; 18; 19])) as [Hin|Hout]; [by apply ends_instruction_body|]. apply ends_body; [done|]. apply ends_experimenter.
Qed.

(** A FLOW_MOD of 64 bytes, with a match for any packet and eight zeros for an instruction. *)
Definition ex_hang : list Z := [4; 14; 0; 64; 0; 0; 0; 1] ++ zeros 40 ++ [0; 1; 0; 4; 0; 0; 0; 0] ++ zeros 8.

Lemma unpack_ends_witness :
  ofl_msg_unpack ofl_exp_msg_unpack ex_hang = Hang ∧
  ∃ p len, instructions_at ex_hang p len ∧ stuck ex_hang p len ∧ ∀ fuel, count_loop 5 0 2 OFPBRC_BAD_LEN fuel ex_hang p len = Hang.
Proof.
  assert (ofl_msg_unpack ofl_exp_msg_unpack ex_hang = Hang) as H by (vm_compute; reflexivity). split; [exact H|].
  exact (unpack_ends ex_hang H).
Defined.

(** What [stuck] asks is not had by the padding of a FLOW_MOD without instructions: it ends. *)
Example no_instructions_end :
  ∃ m, ofl_msg_unpack ofl_exp_msg_unpack ([4; 14; 0; 56; 0; 0; 0; 1] ++ zeros 40 ++ [0; 1; 0; 4; 0; 0; 0; 0]) = Val (1, m).
Proof. eexists. vm_compute. reflexivity. Qed.

(** * Reading inside of the message *)














(** * Messages that do not come back *)

#[local] Instance zeros_malloc : Malloc := {| fresh := zeros; fresh_length n := length_replicate n 0; fresh_bytes := zeros_bytes |}.

(** Packing a PACKET_OUT with a set-field action writes the value over the buffer id: for the
    receiver the packet is in buffer 0x0a000001, and since there is no data to go with a buffer
    id the message is rejected. *)
Example packet_out_set_field :
  let m := MsgPacketOut (OflPacketOut 0xffffffff 1 [ActSetField (Tlv OXM_OF_IPV4_DST [10; 0; 0; 1]); ActOutput 2 0] [1; 2; 3]) in
  ∃ bs, ofl_msg_pack (λ _, None) m 7 = Some bs ∧ get 4 bs 8 = Val 0x0a000001 ∧ ofl_msg_unpack (λ _ _, Undef) bs = Err OFPBRC_BAD_LEN.
Proof. eexists. split; [vm_compute; reflexivity|]. split; vm_compute; reflexivity. Qed.

(** A reply with two queues is packed, and rejected. *)
Example two_queues_rejected :
  let m := MsgQueueGetConfigReply 1 [PacketQueue 1 [Some (PropMinRate 100)]; PacketQueue 2 [Some (PropMinRate 200)]] in
  ∃ bs, ofl_msg_pack (λ _, None) m 7 = Some bs ∧ ofl_msg_unpack (λ _ _, Undef) bs = Err OFPBRC_BAD_LEN.
Proof. eexists. split; [vm_compute; reflexivity|]. vm_compute. reflexivity. Qed.

(** The instructions of a table are not on the wire. *)
Example instructions_not_packed :
  ofl_structs_table_properties_pack (FeatInstructions 0 12 [1; 4]) = Some (be 2 0 ++ be 2 12 ++ zeros 12).
Proof. vm_compute. reflexivity. Qed.
