(* ===== verification/Pipeline.v ===== *)
(** The controller's view of the switch: flow_mod, group_mod and meter_mod messages
    and the periodic timeout, over all flow tables (udatapath/pipeline.c,
    udatapath/dp_actions.c, and how group_entry.c and meter_entry.c remove the flows
    that refer to a deleted group or meter).

    All tables share the heap of flow entries; entries, groups and meters refer to
    each other by pointers and ids.  The invariant [pipeline_ok] says that these
    references are right, and every operation returns (follows no pointer to a freed
    entry) and keeps it. *)

From S2P Require Import Prelude OpenFlow MatchStd Buffers Group GroupTable Meter FlowTable Oxm.

Definition PIPELINE_TABLES : nat := 64.
Definition OFPET_BAD_INSTRUCTION := 3.

Record pipeline := Pipeline { pl_dp : datapath; pl_tables : list flow_table }.

(** * Instructions *)

Definition inst_compare (i1 i2 : ofl_instruction) : Z :=
  let t1 := inst_type i1 in let t2 := inst_type i2 in
  if ((t1 =? 4) && (t2 =? 5)) || ((t1 =? 5) && (t2 =? 4)) then (if t2 <? t1 then 1 else 0)
  else (if t1 <? t2 then 1 else 0).

(** [qsort] with [inst_compare], which never gives a negative result, so that the C standard
    does not say what the sort does.  This is the merge sort of glibc, which asks for a left and
    a right element whether the comparison is greater than 0, and nothing else; that
    question is consistent ([inst_compare_rank]), and every merge that asks it gives the one stable
    arrangement by rank, which is this one ([sort_instructions_correct]): [i] stays before [j]
    unless the comparison says that it is greater. *)
Fixpoint inst_insert (i : ofl_instruction) (l : list ofl_instruction) : list ofl_instruction :=
  match l with
  | [] => [i]
  | j :: l => if 0 <? inst_compare i j then j :: inst_insert i l else i :: j :: l
  end.
Definition sort_instructions (l : list ofl_instruction) : list ofl_instruction := foldr inst_insert [] l.

(** The fields that set-field actions change need their prerequisites in the match.
    A field that is not known would be a NULL pointer. *)
Fixpoint dp_actions_check_set_field_req (m : ofl_match) (actions : list ofl_action) : option Z :=
  match actions with
  | [] => Some 0
  | ActSetField tlv :: rest =>
    f ← oxm_field_lookup (tlv_header tlv);
    if (match_length m =? 0) && negb ((of_dl_type f).1 =? 0) then Some (ofl_error OFPET_BAD_ACTION 10)
    else if negb (oxm_prereqs_ok f m) then Some (ofl_error OFPET_BAD_ACTION 10)
    else dp_actions_check_set_field_req m rest
  | _ :: rest => dp_actions_check_set_field_req m rest
  end.

Definition validate_actions (port_exists : Z → bool) (groups : group_table) (mod_ : ofl_msg_flow_mod)
    (actions : list ofl_action) : option Z :=
  let error := dp_actions_validate port_exists groups actions in
  if negb (error =? 0) then Some error
  else dp_actions_check_set_field_req (fm_match mod_) actions.

Fixpoint validate_instructions (port_exists : Z → bool) (groups : group_table) (mod_ : ofl_msg_flow_mod)
    (insts : list ofl_instruction) : option Z :=
  match insts with
  | [] => Some 0
  | i :: rest =>
    error ← match i with
            | InstApplyActions actions | InstWriteActions actions => validate_actions port_exists groups mod_ actions
            | _ => Some 0
            end;
    if negb (error =? 0) then Some error
    else if (fm_table_id mod_ =? Z.of_nat PIPELINE_TABLES - 1) && (inst_type i =? 1)
    then Some (ofl_error OFPET_BAD_INSTRUCTION 1)
    else validate_instructions port_exists groups mod_ rest
  end.

(** * flow_mod *)

(** The message with its instructions sorted. *)
Definition set_fm_instructions (mod_ : ofl_msg_flow_mod) (insts : list ofl_instruction) : ofl_msg_flow_mod :=
  FlowMod (fm_cookie mod_) (fm_cookie_mask mod_) (fm_table_id mod_) (fm_command mod_) (fm_idle_timeout mod_)
    (fm_hard_timeout mod_) (fm_priority mod_) (fm_buffer_id mod_) (fm_out_port mod_) (fm_out_group mod_)
    (fm_flags mod_) (fm_match mod_) insts.

(** All tables in turn, up to the first error. *)
Fixpoint flow_mod_tables (now : Z) (mod_ : ofl_msg_flow_mod) (dp : datapath) (tables : list flow_table) :
    option (datapath * list flow_table * Z) :=
  match tables with
  | [] => Some (dp, [], 0)
  | t :: ts =>
    '(dp, t, error) ← flow_table_flow_mod now dp t mod_;
    if negb (error =? 0) then Some (dp, t :: ts, error)
    else '(dp, ts, error) ← flow_mod_tables now mod_ dp ts; Some (dp, t :: ts, error)
  end.

Definition is_delete (c : flow_mod_command) : bool :=
  match c with OFPFC_DELETE | OFPFC_DELETE_STRICT => true | _ => false end.
Definition runs_buffer (c : flow_mod_command) : bool :=
  match c with OFPFC_ADD | OFPFC_MODIFY | OFPFC_MODIFY_STRICT => true | _ => false end.

(** The last component is the buffered packet that is to be run through the tables. *)
Definition pipeline_handle_flow_mod (port_exists : Z → bool) (slave : bool) (now : Z) (pl : pipeline)
    (msg : ofl_msg_flow_mod) : option (pipeline * Z * option Z) :=
  if slave then Some (pl, ofl_error OFPET_BAD_REQUEST 10, None)
  else
    let msg := set_fm_instructions msg (sort_instructions (fm_instructions msg)) in
    error ← validate_instructions port_exists (dp_groups (pl_dp pl)) msg (fm_instructions msg);
    if negb (error =? 0) then Some (pl, error, None)
    else if fm_table_id msg =? 0xff then
      if is_delete (fm_command msg) then
        '(dp, tables, error) ← flow_mod_tables now msg (pl_dp pl) (pl_tables pl);
        Some (Pipeline dp tables, error, None)
      else Some (pl, ofl_error OFPET_FLOW_MOD_FAILED 2, None)
    else
      let i := Z.to_nat (fm_table_id msg) in
      t ← pl_tables pl !! i;
      '(dp, t, error) ← flow_table_flow_mod now (pl_dp pl) t msg;
      Some (Pipeline dp (<[i := t]> (pl_tables pl)), error,
            if (error =? 0) && runs_buffer (fm_command msg) && negb (fm_buffer_id msg =? NO_BUFFER)
            then Some (fm_buffer_id msg) else None).

(** * Timeouts *)

Fixpoint timeout_tables (now : Z) (dp : datapath) (tables : list flow_table) : option (datapath * list flow_table) :=
  match tables with
  | [] => Some (dp, [])
  | t :: ts => '(dp, t) ← flow_table_timeout now dp t; '(dp, ts) ← timeout_tables now dp ts; Some (dp, t :: ts)
  end.

Definition pipeline_timeout (now : Z) (pl : pipeline) : option pipeline :=
  '(dp, tables) ← timeout_tables now (pl_dp pl) (pl_tables pl); Some (Pipeline dp tables).

(** * Deleting groups and meters *)

(** A flow entry is removed from the table it is in. *)
Definition remove_flow (reason : Z) (pl : pipeline) (p : positive) : option pipeline :=
  entry ← dp_flows (pl_dp pl) !! p;
  let i := Z.to_nat (fe_table_id entry) in
  t ← pl_tables pl !! i;
  let '(dp, t) := flow_entry_remove (pl_dp pl) t p entry reason in
  Some (Pipeline dp (<[i := t]> (pl_tables pl))).

Fixpoint remove_flows (reason : Z) (pl : pipeline) (refs : list positive) : option pipeline :=
  match refs with
  | [] => Some pl
  | p :: refs => pl ← remove_flow reason pl p; remove_flows reason pl refs
  end.

(** [group_entry_destroy], [meter_entry_destroy]: the flows that refer to the entry
    go with it. *)
Definition group_entry_destroy (pl : pipeline) (refs : list positive) : option pipeline :=
  remove_flows OFPRR_GROUP_DELETE pl refs.
Definition meter_entry_destroy (pl : pipeline) (refs : list positive) : option pipeline :=
  remove_flows OFPRR_METER_DELETE pl refs.

Definition with_groups (pl : pipeline) (groups : group_table) : pipeline :=
  Pipeline (Datapath (dp_flows (pl_dp pl)) groups (dp_meters (pl_dp pl)) (dp_sent (pl_dp pl))) (pl_tables pl).
Definition with_meters (pl : pipeline) (meters : meter_table) : pipeline :=
  Pipeline (Datapath (dp_flows (pl_dp pl)) (dp_groups (pl_dp pl)) meters (dp_sent (pl_dp pl))) (pl_tables pl).

(** A message that deletes all entries of a table destroys them one after another, and with each
    the flows that refer to it, while all of them stay in the hash map; removing a flow
    searches the map for the groups and meters it names.  With one entry this is fine, and so it
    is when no flow is removed.  Otherwise there is a layout of the map in which the search for
    a later entry walks over an earlier one that is freed already (same bucket), and the
    model does not carry the message out. *)
Definition walks_freed {A} (all : bool) (entries : gmap Z A) (refs : list positive) : bool :=
  all && (1 <? Z.of_nat (size entries)) && bool_decide (refs ≠ []).

(** A group_mod with the flows it removes. *)
Definition handle_group_mod (port_exists : Z → bool) (slave : bool) (pl : pipeline) (mod_ : ofl_msg_group_mod) :
    option (pipeline * Z) :=
  '(groups, error, refs) ← group_table_handle_group_mod port_exists slave (dp_groups (pl_dp pl)) mod_;
  if walks_freed (gm_group_id mod_ =? OFPG_ALL) (gt_entries (dp_groups (pl_dp pl))) refs then None else
  pl ← group_entry_destroy (with_groups pl groups) refs;
  Some (pl, error).

Definition handle_meter_mod (now : Z) (slave : bool) (pl : pipeline) (mod_ : ofl_msg_meter_mod) :
    option (pipeline * Z) :=
  let '(meters, error, refs) := meter_table_handle_meter_mod now slave (dp_meters (pl_dp pl)) mod_ in
  if walks_freed (mm_meter_id mod_ =? OFPM_ALL) (mt_entries (dp_meters (pl_dp pl))) refs then None else
  pl ← meter_entry_destroy (with_meters pl meters) refs;
  Some (pl, error).

(** * The invariant *)

(** The order in which a table executes the instructions of an entry. *)
Definition inst_rank (i : ofl_instruction) : Z :=
  match i with
  | InstExperimenter _ => 0
  | InstMeter _ => 1
  | InstApplyActions _ => 2
  | InstClearActions => 3
  | InstWriteActions _ => 4
  | InstWriteMetadata _ _ => 5
  | InstGotoTable _ => 6
  end.

Definition in_order (insts : list ofl_instruction) : Prop :=
  StronglySorted (λ i j, inst_rank i <= inst_rank j) insts.

(** Group references, with the flows [pend] whose removal is under way. *)
Record links_ok (pend : list positive) (dp : datapath) : Prop := {
  ro_group : ∀ g ge p, gt_entries (dp_groups dp) !! g = Some ge → p ∈ ge_flow_refs ge →
    ∃ e, dp_flows dp !! p = Some e ∧ g ∈ fe_group_refs e;
  ro_group_nodup : ∀ g ge, gt_entries (dp_groups dp) !! g = Some ge → NoDup (ge_flow_refs ge);
  ro_exists : ∀ p e g, dp_flows dp !! p = Some e → p ∉ pend → g ∈ fe_group_refs e → g <= OFPG_MAX →
    ∃ ge, gt_entries (dp_groups dp) !! g = Some ge ∧ p ∈ ge_flow_refs ge;
  ro_named : ∀ p e, dp_flows dp !! p = Some e → fe_group_refs e = collect_group_refs [] (fe_instructions e);
  ro_meter : ∀ m me p, mt_entries (dp_meters dp) !! m = Some me → p ∈ me_flow_refs me →
    ∃ e, dp_flows dp !! p = Some e ∧ m ∈ fe_meter_refs e;
  ro_meter_nodup : ∀ m me, mt_entries (dp_meters dp) !! m = Some me → NoDup (me_flow_refs me);
  ro_meters : ∀ p e, dp_flows dp !! p = Some e → NoDup (fe_meter_refs e);
  ro_order : ∀ p e, dp_flows dp !! p = Some e → in_order (fe_instructions e) }.

Record dp_ok (pend : list positive) (dp : datapath) : Prop := {
  do_groups : group_table_ok (dp_groups dp);
  do_meters : meter_table_ok (dp_meters dp);
  do_refs : links_ok pend dp;
  do_times : unsigned_timeouts (dp_flows dp) }.

(** Each entry of the heap is in exactly one table, the one it names. *)
Record pipeline_ok (pend : list positive) (pl : pipeline) : Prop := {
  po_dp : dp_ok pend (pl_dp pl);
  po_len : length (pl_tables pl) = PIPELINE_TABLES;
  po_table : ∀ i t, pl_tables pl !! i = Some t → table_ok (dp_flows (pl_dp pl)) t;
  po_in : ∀ i t p, pl_tables pl !! i = Some t →
    p ∈ match_entries t ↔ ∃ e, dp_flows (pl_dp pl) !! p = Some e ∧ fe_table_id e = Z.of_nat i;
  po_id : ∀ p e, dp_flows (pl_dp pl) !! p = Some e → 0 <= fe_table_id e < Z.of_nat PIPELINE_TABLES }.

(** * References: lemmas *)

Lemma lookup_fold_alter {A} (f : A → A) l (m : gmap Z A) k :
  NoDup l → foldl (λ m g, alter f g m) m l !! k = if decide (k ∈ l) then f <$> m !! k else m !! k.
Proof.
  intros Hnd. revert m. induction Hnd as [|x l Hx Hnd IH]; intros m; cbn [foldl].
  { by rewrite decide_False by set_solver. }
  rewrite IH. destruct (decide (k = x)) as [->|Hne].
  - rewrite decide_False, decide_True by set_solver. by rewrite lookup_alter_eq.
  - rewrite lookup_alter_ne by done. apply decide_ext. set_solver.
Qed.

Lemma add_ref_nodup refs id : NoDup refs → NoDup (add_ref refs id).
Proof.
  intros H. unfold add_ref. case_bool_decide; [done|]. apply list.NoDup_app. split_and!; [done|set_solver|apply NoDup_singleton].
Qed.

Lemma collect_group_nodup refs insts : NoDup refs → NoDup (collect_group_refs refs insts).
Proof.
  unfold collect_group_refs. generalize (insts ≫= actions_of). intros l. revert refs.
  induction l as [|a l IH]; intros refs H; [done|]. cbn [foldl]. apply IH. destruct a; try done. by apply add_ref_nodup.
Qed.

Lemma collect_meter_nodup refs insts : NoDup refs → NoDup (collect_meter_refs refs insts).
Proof.
  unfold collect_meter_refs. revert refs. induction insts as [|i l IH]; intros refs H; [done|]. cbn [foldl].
  apply IH. destruct i; try done. by apply add_ref_nodup.
Qed.

Lemma collect_group_elem refs insts g :
  g ∈ collect_group_refs refs insts ↔ g ∈ refs ∨ ActGroup g ∈ insts ≫= actions_of.
Proof.
  unfold collect_group_refs. generalize (insts ≫= actions_of). intros l. revert refs.
  induction l as [|a l IH]; intros refs; [set_solver|]. cbn [foldl]. rewrite IH, elem_of_cons.
  destruct a; try (split; [tauto|intros [?|[[=]|?]]; tauto]). unfold add_ref. case_bool_decide; set_solver.
Qed.

(** ** The group and meter tables do not depend on the flow references *)

Lemma group_alter_ok m n b f g :
  (∀ e, ge_group_id (f e) = ge_group_id e ∧ ge_buckets (f e) = ge_buckets e) →
  group_table_ok (GroupTable m n b) → group_table_ok (GroupTable (alter f g m) n b).
Proof.
  intros Hf Hok. destruct (m !! g) as [e|] eqn:He.
  2:{ rewrite alter_id' by done. done. }
  assert (∀ x y, edge (GroupTable (alter f g m) n b) x y ↔ edge (GroupTable m n b) x y) as Hedge.
  { intros x y. unfold edge, group_table_find. cbn [gt_entries]. destruct (decide (g = x)) as [<-|Hne].
    - rewrite lookup_alter_eq, He. cbn. split.
      + intros (e' & [= <-] & Hin). exists e. split; [done|]. by rewrite <- (proj2 (Hf e)).
      + intros (e' & [= <-] & Hin). exists (f e). split; [done|]. by rewrite (proj2 (Hf e)).
    - by rewrite lookup_alter_ne. }
  destruct Hok as [Hid Href Hlf Hn Hb Hmax]. cbn [gt_entries gt_entries_num gt_buckets_num] in *.
  split; cbn [gt_entries gt_entries_num gt_buckets_num].
  - intros id e'. destruct (decide (g = id)) as [<-|Hne]; [|rewrite lookup_alter_ne by done; apply Hid].
    rewrite lookup_alter_eq, He. intros [= <-]. rewrite (proj1 (Hf e)). by apply Hid.
  - intros x y Hxy Hy. apply Hedge in Hxy. destruct (Href x y Hxy Hy) as [e' He']. apply elem_of_dom. rewrite dom_alter_L.
    apply elem_of_dom. by exists e'.
  - intros x Hx. apply (Hlf x). revert Hx. generalize x at 2 4. intros z Hx. induction Hx as [y z Hy|y w z Hy _ IH].
    + apply tc_once. by apply Hedge.
    + eapply tc_l; [by apply Hedge|done].
  - by rewrite Hn, <- !size_dom, dom_alter_L.
  - rewrite Hb, (buckets_of_delete m g e He), (buckets_of_delete (alter f g m) g (f e)).
    + by rewrite delete_alter_eq, (proj2 (Hf e)).
    + by rewrite lookup_alter_eq, He.
  - done.
Qed.

Lemma meter_alter_ok m n b f g :
  (∀ e, me_meter_id (f e) = me_meter_id e ∧ me_bands (f e) = me_bands e ∧ me_band_stats (f e) = me_band_stats e) →
  meter_table_ok (MeterTable m n b) → meter_table_ok (MeterTable (alter f g m) n b).
Proof.
  intros Hf [Hid Hn Hb Hmax]. cbn [mt_entries mt_entries_num mt_bands_num] in *. destruct (m !! g) as [e|] eqn:He.
  2:{ rewrite alter_id' by done. done. }
  split; cbn [mt_entries mt_entries_num mt_bands_num].
  - intros id e'. destruct (decide (g = id)) as [<-|Hne]; [|rewrite lookup_alter_ne by done; apply Hid].
    rewrite lookup_alter_eq, He. intros [= <-]. destruct (Hf e) as (E1 & E2 & E3). destruct (Hid g e He) as [H1 H2].
    unfold meter_ok in *. by rewrite E1, E2, E3.
  - by rewrite Hn, <- !size_dom, dom_alter_L.
  - rewrite Hb, (bands_of_delete m g e He), (bands_of_delete (alter f g m) g (f e)).
    + destruct (Hf e) as (_ & E2 & _). by rewrite delete_alter_eq, E2.
    + by rewrite lookup_alter_eq, He.
  - done.
Qed.

Lemma group_eta t : GroupTable (gt_entries t) (gt_entries_num t) (gt_buckets_num t) = t.
Proof. by destruct t. Qed.
Lemma meter_eta t : MeterTable (mt_entries t) (mt_entries_num t) (mt_bands_num t) = t.
Proof. by destruct t. Qed.

Lemma group_fold_ok f l m n b :
  (∀ e, ge_group_id (f e) = ge_group_id e ∧ ge_buckets (f e) = ge_buckets e) →
  group_table_ok (GroupTable m n b) → group_table_ok (GroupTable (foldl (λ gs g, alter f g gs) m l) n b).
Proof. intros Hf. revert m. induction l as [|g l IH]; intros m Hok; [done|]. cbn [foldl]. apply IH. by apply group_alter_ok. Qed.

Lemma meter_fold_ok f l m n b :
  (∀ e, me_meter_id (f e) = me_meter_id e ∧ me_bands (f e) = me_bands e ∧ me_band_stats (f e) = me_band_stats e) →
  meter_table_ok (MeterTable m n b) → meter_table_ok (MeterTable (foldl (λ gs g, alter f g gs) m l) n b).
Proof. intros Hf. revert m. induction l as [|g l IH]; intros m Hok; [done|]. cbn [foldl]. apply IH. by apply meter_alter_ok. Qed.

Lemma fold_alter_some {A} (f : A → A) l (m : gmap Z A) k a' :
  NoDup l → foldl (λ m g, alter f g m) m l !! k = Some a' ↔
    ∃ a, m !! k = Some a ∧ a' = if decide (k ∈ l) then f a else a.
Proof.
  intros Hnd. rewrite lookup_fold_alter by done. case_decide.
  - rewrite fmap_Some. naive_solver.
  - naive_solver.
Qed.

(** ** Adding and deleting one reference *)

Lemma group_add_elem ge p q : q ∈ ge_flow_refs (group_entry_add_flow_ref ge p) ↔ q ∈ ge_flow_refs ge ∨ q = p.
Proof.
  unfold group_entry_add_flow_ref, has_flow_ref. case_bool_decide; cbn [set_refs ge_flow_refs]; [naive_solver|set_solver].
Qed.

Lemma group_add_nodup ge p : NoDup (ge_flow_refs ge) → NoDup (ge_flow_refs (group_entry_add_flow_ref ge p)).
Proof.
  intros H. unfold group_entry_add_flow_ref, has_flow_ref. case_bool_decide; [done|]. cbn [set_refs ge_flow_refs].
  apply list.NoDup_app. split_and!; [done|set_solver|apply NoDup_singleton].
Qed.

Lemma group_del_elem ge p q : q ∈ ge_flow_refs (group_entry_del_flow_ref ge p) ↔ q ∈ ge_flow_refs ge ∧ q ≠ p.
Proof. cbn [group_entry_del_flow_ref set_refs ge_flow_refs]. rewrite list_elem_of_filter. tauto. Qed.

Lemma group_del_nodup ge p : NoDup (ge_flow_refs ge) → NoDup (ge_flow_refs (group_entry_del_flow_ref ge p)).
Proof. apply list.NoDup_filter. Qed.

Lemma meter_add_elem me p q : q ∈ me_flow_refs (meter_entry_add_flow_ref me p) ↔ q ∈ me_flow_refs me ∨ q = p.
Proof.
  unfold meter_entry_add_flow_ref, meter_has_flow_ref. case_bool_decide; cbn [set_flow_refs me_flow_refs]; [naive_solver|set_solver].
Qed.

Lemma meter_add_nodup me p : NoDup (me_flow_refs me) → NoDup (me_flow_refs (meter_entry_add_flow_ref me p)).
Proof.
  intros H. unfold meter_entry_add_flow_ref, meter_has_flow_ref. case_bool_decide; [done|]. cbn [set_flow_refs me_flow_refs].
  apply list.NoDup_app. split_and!; [done|set_solver|apply NoDup_singleton].
Qed.

Lemma meter_del_elem me p q : q ∈ me_flow_refs (meter_entry_del_flow_ref me p) ↔ q ∈ me_flow_refs me ∧ q ≠ p.
Proof. cbn [meter_entry_del_flow_ref set_flow_refs me_flow_refs]. rewrite list_elem_of_filter. tauto. Qed.

Lemma meter_del_nodup me p : NoDup (me_flow_refs me) → NoDup (me_flow_refs (meter_entry_del_flow_ref me p)).
Proof. apply list.NoDup_filter. Qed.

(** The groups after the references of [p] have been deleted from those of [l]. *)
Lemma groups_del (m : gmap Z group_entry) l p g ge' :
  NoDup l → foldl (λ gs g, alter (λ ge, group_entry_del_flow_ref ge p) g gs) m l !! g = Some ge' →
  ∃ ge, m !! g = Some ge ∧ (∀ q, q ∈ ge_flow_refs ge' ↔ q ∈ ge_flow_refs ge ∧ ¬ (q = p ∧ g ∈ l)) ∧
    (NoDup (ge_flow_refs ge) → NoDup (ge_flow_refs ge')).
Proof.
  intros Hl (ge & Hge & ->)%fold_alter_some; [|done]. exists ge. split; [done|]. case_decide.
  - split; [intros q; rewrite group_del_elem; tauto|apply group_del_nodup].
  - split; [intros q; tauto|done].
Qed.

Lemma meters_del (m : gmap Z meter_entry) l p g me' :
  NoDup l → foldl (λ ms g, alter (λ me, meter_entry_del_flow_ref me p) g ms) m l !! g = Some me' →
  ∃ me, m !! g = Some me ∧ (∀ q, q ∈ me_flow_refs me' ↔ q ∈ me_flow_refs me ∧ ¬ (q = p ∧ g ∈ l)) ∧
    (NoDup (me_flow_refs me) → NoDup (me_flow_refs me')).
Proof.
  intros Hl (me & Hme & ->)%fold_alter_some; [|done]. exists me. split; [done|]. case_decide.
  - split; [intros q; rewrite meter_del_elem; tauto|apply meter_del_nodup].
  - split; [intros q; tauto|done].
Qed.

(** ** Destroying an entry *)

Lemma destroy_links pend dp p e :
  links_ok pend dp → dp_flows dp !! p = Some e → links_ok pend (flow_entry_destroy dp p e).
Proof.
  intros Hok He. pose proof Hok as [Hg Hgn Hex Hnm Hm Hmn Hms Hord].
  assert (NoDup (fe_group_refs e)) as Hnd by (rewrite (Hnm p e He); by apply collect_group_nodup, NoDup_nil_2).
  pose proof (Hms p e He) as Hmd.
  split; cbn [flow_entry_destroy del_group_refs del_meter_refs set_groups set_meters set_flows set_group_refs fe_meter_refs
    dp_flows dp_groups dp_meters gt_entries mt_entries].
  - intros g ge' q Hge' Hq. destruct (groups_del _ _ _ _ _ Hnd Hge') as (ge & Hge & Hin & _).
    apply Hin in Hq. destruct Hq as [Hq1 Hnp]. destruct (Hg g ge q Hge Hq1) as (eq & Heq & Hgq). exists eq. split; [|done].
    rewrite lookup_delete_ne; [done|]. intros <-. apply Hnp. rewrite He in Heq. by injection Heq as <-.
  - intros g ge' Hge'. destruct (groups_del _ _ _ _ _ Hnd Hge') as (ge & Hge & _ & Hn). by apply Hn, (Hgn g).
  - intros q eq g Hq Hpend Hgq Hmax. destruct (decide (p = q)) as [<-|Hne]; [by rewrite lookup_delete_eq in Hq|].
    rewrite lookup_delete_ne in Hq by done. destruct (Hex q eq g Hq Hpend Hgq Hmax) as (ge & Hge & Hin).
    eexists. split; [apply fold_alter_some; [done|]; by exists ge|]. case_decide; [|done]. by apply group_del_elem.
  - intros q eq Hq. destruct (decide (p = q)) as [<-|Hne]; [by rewrite lookup_delete_eq in Hq|].
    rewrite lookup_delete_ne in Hq by done. by eapply Hnm.
  - intros m me' q Hme' Hq. destruct (meters_del _ _ _ _ _ Hmd Hme') as (me & Hme & Hin & _).
    apply Hin in Hq. destruct Hq as [Hq1 Hnp]. destruct (Hm m me q Hme Hq1) as (eq & Heq & Hmq). exists eq. split; [|done].
    rewrite lookup_delete_ne; [done|]. intros <-. apply Hnp. rewrite He in Heq. by injection Heq as <-.
  - intros m me' Hme'. destruct (meters_del _ _ _ _ _ Hmd Hme') as (me & Hme & _ & Hn). by apply Hn, (Hmn m).
  - intros q eq Hq. destruct (decide (p = q)) as [<-|Hne]; [by rewrite lookup_delete_eq in Hq|].
    rewrite lookup_delete_ne in Hq by done. by eapply Hms.
  - intros q eq [_ Hq]%lookup_delete_Some. by eapply Hord.
Qed.

Lemma destroy_dp_ok pend dp p e :
  dp_ok pend dp → dp_flows dp !! p = Some e → dp_ok pend (flow_entry_destroy dp p e).
Proof.
  intros [Hg Hm Hl Ht] He. split.
  - apply group_fold_ok; [done|]. by rewrite group_eta.
  - apply meter_fold_ok; [done|]. by rewrite meter_eta.
  - by apply destroy_links.
  - intros q eq. rewrite destroy_flows. intros [_ Hq]%lookup_delete_Some. by eapply Ht.
Qed.

(** ** Creating an entry and replacing its instructions *)

(** The instructions are in order and the groups that they name exist. *)
Definition insts_ok (dp : datapath) (insts : list ofl_instruction) : Prop :=
  in_order insts ∧ ∀ g, ActGroup g ∈ insts ≫= actions_of → g <= OFPG_MAX → is_Some (gt_entries (dp_groups dp) !! g).

Lemma groups_add (m : gmap Z group_entry) l p g ge' :
  NoDup l → foldl (λ gs g, alter (λ ge, group_entry_add_flow_ref ge p) g gs) m l !! g = Some ge' →
  ∃ ge, m !! g = Some ge ∧ (∀ q, q ∈ ge_flow_refs ge' ↔ q ∈ ge_flow_refs ge ∨ (q = p ∧ g ∈ l)) ∧
    (NoDup (ge_flow_refs ge) → NoDup (ge_flow_refs ge')).
Proof.
  intros Hl (ge & Hge & ->)%fold_alter_some; [|done]. exists ge. split; [done|]. case_decide.
  - split; [intros q; rewrite group_add_elem; tauto|apply group_add_nodup].
  - split; [intros q; tauto|done].
Qed.

Lemma meters_add (m : gmap Z meter_entry) l p g me' :
  NoDup l → foldl (λ ms g, alter (λ me, meter_entry_add_flow_ref me p) g ms) m l !! g = Some me' →
  ∃ me, m !! g = Some me ∧ (∀ q, q ∈ me_flow_refs me' ↔ q ∈ me_flow_refs me ∨ (q = p ∧ g ∈ l)) ∧
    (NoDup (me_flow_refs me) → NoDup (me_flow_refs me')).
Proof.
  intros Hl (me & Hme & ->)%fold_alter_some; [|done]. exists me. split; [done|]. case_decide.
  - split; [intros q; rewrite meter_add_elem; tauto|apply meter_add_nodup].
  - split; [intros q; tauto|done].
Qed.

(** A new entry [e] at the free address [p], entered with the groups and the meters
    it names. *)
Lemma enter_links pend dp p e groups meters :
  links_ok pend dp → dp_flows dp !! p = None →
  fe_group_refs e = collect_group_refs [] (fe_instructions e) → NoDup (fe_meter_refs e) →
  insts_ok dp (fe_instructions e) →
  groups = foldl (λ gs g, alter (λ ge, group_entry_add_flow_ref ge p) g gs) (gt_entries (dp_groups dp)) (fe_group_refs e) →
  meters = foldl (λ ms m, alter (λ me, meter_entry_add_flow_ref me p) m ms) (mt_entries (dp_meters dp)) (fe_meter_refs e) →
  links_ok pend (set_flows (set_meters (set_groups dp groups) meters) (<[p := e]> (dp_flows dp))).
Proof.
  intros [Hg Hgn Hex Hnm Hm Hmn Hms Hord] Hp Hgr Hmr [Hsort Hk] -> ->.
  assert (NoDup (fe_group_refs e)) as Hnd by (rewrite Hgr; by apply collect_group_nodup, NoDup_nil_2).
  split; cbn [set_groups set_meters set_flows dp_flows dp_groups dp_meters gt_entries mt_entries].
  - intros g ge' q Hge' Hq. destruct (groups_add _ _ _ _ _ Hnd Hge') as (ge & Hge & Hin & _).
    apply Hin in Hq. destruct Hq as [Hq1|[-> Hgl]]; [|exists e; by rewrite lookup_insert_eq].
    destruct (Hg g ge q Hge Hq1) as (eq & Heq & Hgq). exists eq. split; [|done]. rewrite lookup_insert_ne; [done|congruence].
  - intros g ge' Hge'. destruct (groups_add _ _ _ _ _ Hnd Hge') as (ge & Hge & _ & Hn). by apply Hn, (Hgn g).
  - intros q eq g Hq Hpend Hgq Hmax. apply lookup_insert_Some in Hq as [[<- <-]|[Hne Hq]].
    + destruct (Hk g) as [ge Hge]; [|done|].
      { rewrite Hgr, collect_group_elem in Hgq. destruct Hgq; [set_solver|done]. }
      eexists. split; [apply fold_alter_some; [done|]; by exists ge|]. rewrite decide_True by done. apply group_add_elem. by right.
    + destruct (Hex q eq g Hq Hpend Hgq Hmax) as (ge & Hge & Hin).
      eexists. split; [apply fold_alter_some; [done|]; by exists ge|]. case_decide; [|done]. apply group_add_elem. by left.
  - intros q eq [[<- <-]|[_ Hq]]%lookup_insert_Some; [done|by eapply Hnm].
  - intros m me' q Hme' Hq. destruct (meters_add _ _ _ _ _ Hmr Hme') as (me & Hme & Hin & _).
    apply Hin in Hq. destruct Hq as [Hq1|[-> Hml]]; [|exists e; by rewrite lookup_insert_eq].
    destruct (Hm m me q Hme Hq1) as (eq & Heq & Hmq). exists eq. split; [|done]. rewrite lookup_insert_ne; [done|congruence].
  - intros m me' Hme'. destruct (meters_add _ _ _ _ _ Hmr Hme') as (me & Hme & _ & Hn). by apply Hn, (Hmn m).
  - intros q eq [[<- <-]|[_ Hq]]%lookup_insert_Some; [done|by eapply Hms].
  - intros q eq [[<- <-]|[_ Hq]]%lookup_insert_Some; [done|by eapply Hord].
Qed.

Definition times_ok (e : flow_entry) : Prop := 0 <= fe_idle_timeout e ∧ 0 <= fe_remove_at e.

Lemma new_entry_times now mod_ : 0 <= fm_idle_timeout mod_ → times_ok (new_flow_entry now mod_).
Proof.
  intros H. split; [done|]. cbn [new_flow_entry fe_remove_at]. destruct (_ =? 0); [done|]. apply Z.mod_pos_bound. lia.
Qed.

Lemma create_ok_dp pend now dp mod_ :
  dp_ok pend dp → 0 <= fm_idle_timeout mod_ → insts_ok dp (fm_instructions mod_) →
  dp_ok pend (flow_entry_create now dp mod_).1.
Proof.
  intros [Hg Hm Hl Ht] Hi Hk.
  assert (dp_flows dp !! fresh (dom (dp_flows dp)) = None) as Hp by apply not_elem_of_dom, is_fresh.
  split.
  - apply group_fold_ok; [intros e; unfold group_entry_add_flow_ref; by case_match|]. by rewrite group_eta.
  - apply meter_fold_ok; [intros e; unfold meter_entry_add_flow_ref; by case_match|]. by rewrite meter_eta.
  - set (e := set_meter_refs (set_group_refs (new_flow_entry now mod_) (collect_group_refs [] (fm_instructions mod_)))
              (collect_meter_refs [] (fm_instructions mod_))).
    refine (enter_links pend dp (fresh (dom (dp_flows dp))) e _ _ Hl Hp eq_refl _ Hk eq_refl eq_refl).
    by apply collect_meter_nodup, NoDup_nil_2.
  - intros q e. cbn [flow_entry_create init_group_refs init_meter_refs set_flows dp_flows fst].
    intros [[_ <-]|[_ Hq]]%lookup_insert_Some; [|by eapply Ht]. by apply new_entry_times.
Qed.

(** An entry whose instructions are replaced: its group references are made anew, its
    meter references stay. *)
Lemma replace_links pend dp p e insts stats :
  links_ok pend dp → dp_flows dp !! p = Some e → insts_ok dp insts →
  (∀ e', fe_group_refs (stats e') = fe_group_refs e' ∧ fe_instructions (stats e') = fe_instructions e' ∧
         fe_meter_refs (stats e') = fe_meter_refs e') →
  let r := flow_entry_replace_instructions dp p e insts in
  links_ok pend (set_flows r.1 (<[p := stats r.2]> (dp_flows dp))).
Proof.
  intros [Hg Hgn Hex Hnm Hm Hmn Hms Hord] He [Hsort Hk] Hst.
  assert (NoDup (fe_group_refs e)) as Hnd by (rewrite (Hnm p e He); by apply collect_group_nodup, NoDup_nil_2).
  set (new := collect_group_refs [] insts).
  assert (NoDup new) as Hnd' by by apply collect_group_nodup, NoDup_nil_2.
  set (e' := set_group_refs (set_instructions (set_group_refs e []) insts) new).
  destruct (Hst e') as (Eg & Ei & Em).
  cbn [flow_entry_replace_instructions del_group_refs init_group_refs fst snd set_group_refs set_instructions
       fe_group_refs fe_instructions]. fold new. fold e'.
  split; cbn [set_groups set_flows dp_flows dp_groups dp_meters gt_entries].
  - intros g ge' q Hge' Hq. destruct (groups_add _ _ _ _ _ Hnd' Hge') as (ge1 & Hge1 & Hin1 & _).
    destruct (groups_del _ _ _ _ _ Hnd Hge1) as (ge & Hge & Hin & _). rewrite Hin1, Hin in Hq.
    destruct Hq as [[Hq Hnp]|[-> Hgn']].
    + destruct (Hg g ge q Hge Hq) as (eq & Heq & Hgq). exists eq. split; [|done]. rewrite lookup_insert_ne; [done|].
      intros <-. apply Hnp. rewrite He in Heq. by injection Heq as <-.
    + exists (stats e'). rewrite lookup_insert_eq, Eg. split; [done|exact Hgn'].
  - intros g ge' Hge'. destruct (groups_add _ _ _ _ _ Hnd' Hge') as (ge1 & Hge1 & _ & Hn1).
    destruct (groups_del _ _ _ _ _ Hnd Hge1) as (ge & Hge & _ & Hn). by apply Hn1, Hn, (Hgn g).
  - intros q eq g Hq Hpend Hgq Hmax. apply lookup_insert_Some in Hq as [[<- <-]|[Hne Hq]].
    + rewrite Eg in Hgq. cbn [e' set_group_refs fe_group_refs] in Hgq. destruct (Hk g) as [ge Hge]; [|done|].
      { unfold new in Hgq. rewrite collect_group_elem in Hgq. destruct Hgq; [set_solver|done]. }
      eexists. split; [apply fold_alter_some; [done|]; eexists; split; [apply fold_alter_some; [done|]; by exists ge|done]|].
      rewrite (decide_True (P := g ∈ new)) by done. apply group_add_elem. by right.
    + destruct (Hex q eq g Hq Hpend Hgq Hmax) as (ge & Hge & Hin).
      eexists. split; [apply fold_alter_some; [done|]; eexists; split; [apply fold_alter_some; [done|]; by exists ge|done]|].
      assert (q ∈ ge_flow_refs (if decide (g ∈ fe_group_refs e) then group_entry_del_flow_ref ge p else ge)) as Hd
        by (case_decide; [by apply group_del_elem|done]).
      destruct (decide (g ∈ new)); [|done]. apply group_add_elem. by left.
  - intros q eq [[<- <-]|[_ Hq]]%lookup_insert_Some; [by rewrite Eg, Ei|by eapply Hnm].
  - intros m me q Hme Hq. destruct (Hm m me q Hme Hq) as (eq & Heq & Hmq). destruct (decide (p = q)) as [<-|Hne].
    + exists (stats e'). rewrite lookup_insert_eq, Em. split; [done|]. rewrite He in Heq. by injection Heq as <-.
    + exists eq. by rewrite lookup_insert_ne.
  - done.
  - intros q eq [[<- <-]|[_ Hq]]%lookup_insert_Some; [rewrite Em; by apply (Hms p e)|by eapply Hms].
  - intros q eq [[<- <-]|[_ Hq]]%lookup_insert_Some; [by rewrite Ei|by eapply Hord].
Qed.

Lemma replace_ok pend dp p e mod_ :
  dp_ok pend dp → dp_flows dp !! p = Some e → insts_ok dp (fm_instructions mod_) →
  let r := flow_entry_replace_instructions dp p e (fm_instructions mod_) in
  dp_ok pend (set_flows r.1 (<[p := flow_entry_modify_stats r.2 mod_]> (dp_flows dp))).
Proof.
  intros [Hg Hm Hl Ht] He Hk. split.
  - apply group_fold_ok; [intros ge; unfold group_entry_add_flow_ref; by case_match|].
    cbn [del_group_refs set_groups dp_groups gt_entries]. apply group_fold_ok; [done|].
    exact (eq_ind_r group_table_ok Hg (group_eta (dp_groups dp))).
  - done.
  - apply (replace_links pend dp p e (fm_instructions mod_) (λ e, flow_entry_modify_stats e mod_)); [done..|].
    intros e'. unfold flow_entry_modify_stats. by case_match.
  - intros q eq. cbn [set_flows dp_flows]. intros [[<- <-]|[_ Hq]]%lookup_insert_Some; [|by eapply Ht].
    destruct (Ht p e He). unfold flow_entry_modify_stats. by case_match.
Qed.

(** ** Loops over a table *)

Lemma sent_ok pend dp sent :
  dp_ok pend dp → dp_ok pend (Datapath (dp_flows dp) (dp_groups dp) (dp_meters dp) sent).
Proof. intros [Hg Hm [] Ht]. by split; [done..|split|]. Qed.

Lemma remove_ok pend dp t p e reason :
  dp_ok pend dp → dp_flows dp !! p = Some e → dp_ok pend (flow_entry_remove dp t p e reason).1.
Proof.
  intros Hok He. cbn [flow_entry_remove fst]. destruct (fe_send_removed e); apply destroy_dp_ok; try done. by apply sent_ok.
Qed.

Lemma remove_loop_ok pend sel reason dp t l dp' t' :
  dp_ok pend dp → remove_loop sel reason dp t l = Some (dp', t') → dp_ok pend dp'.
Proof.
  revert dp t. induction l as [|p l IH]; intros dp t Hok; cbn [remove_loop]; [by intros [= <- <-]|].
  destruct (dp_flows dp !! p) as [e|] eqn:He; [|done]. destruct (sel e); [|by apply IH].
  pose proof (remove_ok pend dp t p e reason Hok He) as Hok'.
  destruct (flow_entry_remove dp t p e reason) as [dp1 t1]. by apply IH.
Qed.

Lemma modify_loop_ok pend dp mod_ strict kept l dp' :
  dp_ok pend dp → insts_ok dp (fm_instructions mod_) → modify_loop dp mod_ strict kept l = Some dp' → dp_ok pend dp'.
Proof.
  revert dp kept. induction l as [|p l IH]; intros dp kept Hok Hk; cbn [modify_loop]; [by intros [= <-]|].
  destruct (dp_flows dp !! p) as [e|] eqn:He; [|done]. destruct (flow_entry_matches e mod_ strict true); [|by apply IH].
  destruct kept; [done|].
  pose proof (replace_ok pend dp p e mod_ Hok He Hk) as Hok'. cbn in Hok'.
  assert (NoDup (fe_group_refs e)) as Hnd
    by (rewrite (ro_named _ _ (do_refs _ _ Hok) p e He); by apply collect_group_nodup, NoDup_nil_2).
  apply IH; [exact Hok'|]. split; [apply Hk|]. intros g Hg Hmax. destruct (proj2 Hk g Hg Hmax) as [ge Hge].
  eexists. apply fold_alter_some; [by apply collect_group_nodup, NoDup_nil_2|].
  eexists. split; [|done]. apply fold_alter_some; [done|]. by exists ge.
Qed.

Lemma flow_table_add_ok pend now dp t mod_ co dp' t' err :
  dp_ok pend dp → 0 <= fm_idle_timeout mod_ → insts_ok dp (fm_instructions mod_) →
  flow_table_add now dp t mod_ co = Some (dp', t', err) → dp_ok pend dp'.
Proof.
  intros Hok Hi Hk. unfold flow_table_add. destruct (add_scan _ _ _ _ _) as [place|]; [|done]. cbn [mbind option_bind].
  pose proof (create_ok_dp pend now dp mod_ Hok Hi Hk) as Hok1. destruct place as [|b q a|b a].
  - by intros [= <- <- <-].
  - destruct (flow_entry_create now dp mod_) as [dp1 p]. cbn [fst] in Hok1.
    destruct (dp_flows dp1 !! q) as [old|] eqn:Hq; [|done]. cbn [mbind option_bind].
    destruct (_ !! p); [|done]. cbn [mbind option_bind]. destruct (add_to_timeout_lists _ _ _ _); [|done].
    intros [= <- <- <-]. by apply destroy_dp_ok.
  - destruct (_ =? _); [by intros [= <- <- <-]|]. destruct (flow_entry_create now dp mod_) as [dp1 p]. cbn [fst] in Hok1.
    destruct (_ !! p); [|done]. cbn [mbind option_bind]. destruct (add_to_timeout_lists _ _ _ _); [|done].
    by intros [= <- <- <-].
Qed.

Lemma flow_mod_dp_ok pend now dp t mod_ dp' t' err :
  dp_ok pend dp → 0 <= fm_idle_timeout mod_ → insts_ok dp (fm_instructions mod_) →
  flow_table_flow_mod now dp t mod_ = Some (dp', t', err) → dp_ok pend dp'.
Proof.
  intros Hok Hi Hk. unfold flow_table_flow_mod, flow_table_modify, flow_table_delete. destruct (fm_command mod_).
  - by apply flow_table_add_ok.
  - destruct (modify_loop _ _ _ _ _) as [dp1|] eqn:E; [|done]. intros [= <- <- <-]. by eapply modify_loop_ok.
  - destruct (modify_loop _ _ _ _ _) as [dp1|] eqn:E; [|done]. intros [= <- <- <-]. by eapply modify_loop_ok.
  - destruct (remove_loop _ _ _ _ _) as [[dp1 t1]|] eqn:E; [|done]. intros [= <- <- <-]. by eapply remove_loop_ok.
  - destruct (remove_loop _ _ _ _ _) as [[dp1 t1]|] eqn:E; [|done]. intros [= <- <- <-]. by eapply remove_loop_ok.
  - by intros [= <- <- <-].
Qed.

(** ** A change of one table *)

Record table_step (i : Z) (dp : datapath) (t : flow_table) (dp' : datapath) (t' : flow_table) : Prop := {
  ts_ok : table_ok (dp_flows dp') t';
  ts_other : ∀ q, q ∉ match_entries t → q ∉ match_entries t' → dp_flows dp' !! q = dp_flows dp !! q;
  ts_in : ∀ q, q ∈ match_entries t' → (q ∈ match_entries t ∨ dp_flows dp !! q = None) ∧
    ∃ e, dp_flows dp' !! q = Some e ∧ fe_table_id e = i;
  ts_gone : ∀ q, q ∈ match_entries t → q ∉ match_entries t' → dp_flows dp' !! q = None }.

Definition table_at (i : Z) (flows : gmap positive flow_entry) (t : flow_table) : Prop :=
  ∀ q, q ∈ match_entries t → ∃ e, flows !! q = Some e ∧ fe_table_id e = i.

Lemma table_step_refl i dp t : table_ok (dp_flows dp) t → table_at i (dp_flows dp) t → table_step i dp t dp t.
Proof. intros Hok Hat. split; [done|done| |done]. intros q Hq. split; [by left|by apply Hat]. Qed.

Lemma table_step_trans i dp t dp1 t1 dp2 t2 :
  table_step i dp t dp1 t1 → table_step i dp1 t1 dp2 t2 → table_step i dp t dp2 t2.
Proof.
  intros [_ Ho1 Hi1 Hg1] [Hok Ho2 Hi2 Hg2]. split; [done|..].
  - intros q Hq Hq2. destruct (decide (q ∈ match_entries t1)) as [Hq1|Hq1].
    + destruct (Hi1 q Hq1) as [[?|Hn] _]; [done|]. by rewrite Hn, (Hg2 q Hq1 Hq2).
    + by rewrite Ho2, Ho1.
  - intros q Hq2. destruct (Hi2 q Hq2) as [[Hq1|Hn] He]; (split; [|done]); [by apply Hi1|].
    destruct (decide (q ∈ match_entries t)) as [|Hq]; [by left|right]. rewrite <- (Ho1 q); [done|done|].
    intros Hq1. destruct (Hi1 q Hq1) as (_ & e & He' & _). congruence.
  - intros q Hq Hq2. destruct (decide (q ∈ match_entries t1)) as [Hq1|Hq1]; [by apply Hg2|]. rewrite Ho2 by done. by apply Hg1.
Qed.

Lemma pipeline_ok_step pend dp ts i t dp' t' :
  pipeline_ok pend (Pipeline dp ts) → ts !! i = Some t → table_step (Z.of_nat i) dp t dp' t' → dp_ok pend dp' →
  pipeline_ok pend (Pipeline dp' (<[i := t']> ts)).
Proof.
  intros [_ Hlen Hts Hin Hid] Ht [Hok Hoth Hnew Hgone] Hdp. cbn [pl_dp pl_tables] in *.
  assert (i < length ts)%nat as Hi by (by eapply lookup_lt_Some).
  assert (∀ j tj q, j ≠ i → ts !! j = Some tj → q ∈ match_entries tj → q ∉ match_entries t ∧ q ∉ match_entries t') as Hfar.
  { intros j tj q Hne Hj Hq. apply (Hin j tj q Hj) in Hq as (e & He & Hej).
    assert (q ∉ match_entries t) as Hqt. { intros (e' & He' & Hei)%(Hin i t q Ht). assert (e' = e) as -> by congruence. lia. }
    split; [done|]. intros Hq'. destruct (Hnew q Hq') as [[?|?] _]; [done|congruence]. }
  split; cbn [pl_dp pl_tables]; [done|by rewrite length_insert| | |].
  - intros j tj. destruct (decide (i = j)) as [<-|Hne]; [rewrite list_lookup_insert_eq by done; by intros [= <-]|].
    rewrite list_lookup_insert_ne by done. intros Hj. eapply table_ok_ext; [by apply (Hts j)|done..|]. intros q Hq.
    destruct (Hfar j tj q) as [H1 H2]; [done..|]. unfold fld. rewrite (Hoth q H1 H2). split; [|done].
    by apply (to_live _ _ (Hts j tj Hj)).
  - intros j tj q. destruct (decide (i = j)) as [<-|Hne].
    + rewrite list_lookup_insert_eq by done. intros [= <-]. split; [intros Hq; by apply Hnew|].
      intros (e & He & Hei). destruct (decide (q ∈ match_entries t')) as [|Hq']; [done|].
      destruct (decide (q ∈ match_entries t)) as [Hq|Hq]; [by rewrite Hgone in He|].
      rewrite Hoth in He by done. destruct Hq. apply (Hin i t q Ht). by exists e.
    + rewrite list_lookup_insert_ne by done. intros Hj. split.
      * intros Hq. destruct (Hfar j tj q) as [H1 H2]; [done..|]. rewrite Hoth by done. by apply (Hin j tj q Hj).
      * intros (e & He & Hej). apply (Hin j tj q Hj). exists e. split; [|done].
        destruct (decide (q ∈ match_entries t')) as [Hq'|Hq'].
        { destruct (Hnew q Hq') as (_ & e' & He' & Hei). assert (e' = e) as -> by congruence. lia. }
        destruct (decide (q ∈ match_entries t)) as [Hq|Hq]; [by rewrite Hgone in He|]. by rewrite <- Hoth.
  - intros q e He. destruct (decide (q ∈ match_entries t')) as [Hq'|Hq'].
    { destruct (Hnew q Hq') as (_ & e' & He' & Hei). assert (e' = e) as -> by congruence. lia. }
    destruct (decide (q ∈ match_entries t)) as [Hq|Hq]; [by rewrite Hgone in He|]. rewrite Hoth in He by done. by eapply Hid.
Qed.

Lemma pipeline_at pend pl i t : pipeline_ok pend pl → pl_tables pl !! i = Some t → table_at (Z.of_nat i) (dp_flows (pl_dp pl)) t.
Proof. intros Hok Ht q Hq. by apply (po_in _ _ Hok i t q Ht). Qed.

(** ** The operations change one table *)

Lemma removal_step i sel reason dp t l dp' t' :
  removal sel reason l dp t dp' t' → (∀ p, p ∈ l → p ∈ match_entries t) → table_at i (dp_flows dp) t →
  table_step i dp t dp' t'.
Proof.
  intros [Hok Hm _ Hf _] Hl Hat. split; [done|..].
  - intros q Hq _. rewrite Hf, decide_False; [done|]. intros [?%Hl _]. done.
  - intros q Hq. rewrite Hm, list_elem_of_filter in Hq. destruct Hq as [Hg Hq]. split; [by left|].
    rewrite Hf, decide_False by done. by apply Hat.
  - intros q Hq Hq'. rewrite Hf, decide_True; [done|]. rewrite Hm, list_elem_of_filter in Hq'.
    destruct (decide (gone sel (dp_flows dp) l q)); [done|tauto].
Qed.

Lemma delete_step i dp t mod_ strict :
  table_ok (dp_flows dp) t → table_at i (dp_flows dp) t →
  ∃ dp' t', flow_table_delete dp t mod_ strict = Some (dp', t', 0) ∧ table_step i dp t dp' t'.
Proof.
  intros Hok Hat. unfold flow_table_delete.
  destruct (remove_loop_spec (delete_selects mod_ strict) OFPRR_DELETE dp t (match_entries t) Hok (to_nodup _ _ Hok))
    as (dp' & t' & -> & Hr); [done|]. exists dp', t'. split; [done|]. by eapply removal_step.
Qed.

(** A flow_mod modify that selects two entries of the table. *)
Definition shares (mod_ : ofl_msg_flow_mod) (flows : gmap positive flow_entry) (t : flow_table) : Prop :=
  ∃ strict, fm_command mod_ = (if strict : bool then OFPFC_MODIFY_STRICT else OFPFC_MODIFY) ∧
    (1 < length (modifies mod_ strict flows (match_entries t)))%nat.

Lemma modify_step i dp t mod_ strict :
  table_ok (dp_flows dp) t → table_at i (dp_flows dp) t →
  (∃ dp', flow_table_modify dp t mod_ strict = Some (dp', t, 0) ∧ table_step i dp t dp' t) ∨
  flow_table_modify dp t mod_ strict = None ∧ (1 < length (modifies mod_ strict (dp_flows dp) (match_entries t)))%nat.
Proof.
  intros Hok Hat. destruct (decide (1 < length (modifies mod_ strict (dp_flows dp) (match_entries t)))%nat) as [Hn|Hn].
  { right. split; [|done]. unfold flow_table_modify. by rewrite modify_loop_shares by (done || apply Hok). }
  left. unfold flow_table_modify.
  destruct (modify_loop_spec dp mod_ strict false (match_entries t) (to_live _ _ Hok) (to_nodup _ _ Hok)) as (dp' & -> & _ & Hf); [cbn; lia|].
  exists dp'. split; [done|].
  assert (∀ q e, dp_flows dp !! q = Some e → ∃ e', dp_flows dp' !! q = Some e' ∧ (e' = e ∨ e' = modified mod_ e)) as Hq.
  { intros q e He. rewrite Hf, He. case_decide; [by exists (modified mod_ e); auto|by exists e; auto]. }
  assert (∀ e, fe_table_id (modified mod_ e) = fe_table_id e) as Htid by (intros e; unfold modified, flow_entry_modify_stats; by case_match).
  split; [|intros q H1 _; rewrite Hf, decide_False by tauto; done| |done].
  - eapply table_ok_ext; [done..|]. intros q H1. destruct (to_live _ _ Hok q H1) as [e He].
    destruct (Hq q e He) as (e' & He' & Hor). unfold fld. rewrite He, He'. split; [done|].
    destruct (modified_keeps mod_ e) as (E1 & E2 & E3). destruct Hor as [-> | ->]; [done|]. by rewrite E1, E2, E3.
  - intros q H1. split; [by left|]. destruct (Hat q H1) as (e & He & Hei). destruct (Hq q e He) as (e' & He' & [-> | ->]);
      (eexists; split; [done|]); [done|by rewrite Htid].
Qed.

Lemma add_step i now dp t mod_ co :
  table_ok (dp_flows dp) t → table_at i (dp_flows dp) t → fm_table_id mod_ = i →
  ∃ dp' t' err, flow_table_add now dp t mod_ co = Some (dp', t', err) ∧ table_step i dp t dp' t' ∧
    (err ≠ 0 → dp' = dp ∧ t' = t).
Proof.
  intros Hok Hat Hi. destruct (flow_table_add_lemma now dp t mod_ co Hok) as (dp' & t' & err & -> & Hok' & Herr & Hadd).
  exists dp', t', err. split; [done|]. split; [|naive_solver]. destruct (decide (err = 0)) as [He|He].
  2:{ destruct (Herr He) as (-> & -> & _). by apply table_step_refl. }
  destruct (Hadd He) as (b & p & a & e & Hm & Hp & Hep & Hins & Hpl & _ & Hgone & Hsame).
  assert (∀ q, q ∈ match_entries t' → q = p ∨ q ∈ match_entries t) as Hsub.
  { intros q. rewrite Hm. destruct Hpl as [(-> & _)|(x & ex & -> & _)]; set_solver. }
  split; [done| | |done].
  - intros q Hq Hq'. apply Hsame; [|by left]. intros ->. rewrite Hm in Hq'. set_solver.
  - intros q Hq. destruct (decide (q = p)) as [->|Hne].
    + split; [by right|]. exists e. split; [done|]. rewrite <- Hi.
      change (fe_table_id e) with (fe_table_id (set_meter_refs (set_group_refs e []) [])). by rewrite Hins.
    + destruct (Hsub q Hq) as [|Hqt]; [done|]. split; [by left|]. rewrite Hsame by auto. by apply Hat.
Qed.

Lemma timeout_step i now dp t :
  table_ok (dp_flows dp) t → table_at i (dp_flows dp) t →
  ∃ dp' t', flow_table_timeout now dp t = Some (dp', t') ∧ table_step i dp t dp' t' ∧
    ∀ pend, dp_ok pend dp → dp_ok pend dp'.
Proof.
  intros Hok Hat. unfold flow_table_timeout. rewrite hard_timeout_loop_eq by (apply Hok || done).
  destruct (remove_loop_spec (hard_expired now) OFPRR_HARD_TIMEOUT dp t (hard_entries t) Hok (to_hard_nodup _ _ Hok))
    as (dp1 & t1 & E1 & Hr1); [intros p Hp; by apply (to_hard _ _ Hok)|]. rewrite E1. cbn.
  assert (table_step i dp t dp1 t1) as Hs1. { eapply removal_step; [done| |done]. intros p Hp. by apply (to_hard _ _ Hok). }
  assert (table_ok (dp_flows dp1) t1) as Hok1 by apply Hs1. rewrite idle_timeout_loop_eq.
  destruct (remove_loop_spec (idle_expired now) OFPRR_IDLE_TIMEOUT dp1 t1 (idle_entries t1) Hok1 (to_idle_nodup _ _ Hok1))
    as (dp2 & t2 & E2 & Hr2); [intros p Hp; by apply (to_idle _ _ Hok1)|]. exists dp2, t2. split; [done|]. split.
  - eapply table_step_trans; [done|]. eapply removal_step; [done| |].
    + intros p Hp. by apply (to_idle _ _ Hok1).
    + intros q Hq. by apply (ts_in _ _ _ _ _ Hs1).
  - intros pend Hdp. eapply remove_loop_ok; [|done]. by eapply remove_loop_ok.
Qed.

(** * Messages *)

(** What unpacking a flow_mod message guarantees. *)
Definition table_range (table_id : Z) : Prop := 0 <= table_id < Z.of_nat PIPELINE_TABLES ∨ table_id = 0xff.

Record flow_mod_ok (mod_ : ofl_msg_flow_mod) : Prop := {
  fmo_table : table_range (fm_table_id mod_);
  fmo_idle : 0 <= fm_idle_timeout mod_ }.

(** A set-field action with a header that no field has.  Unpacking lets it pass, and the check
    of its prerequisites follows the null pointer that the search for the field gives. *)
Definition unknown_field (mod_ : ofl_msg_flow_mod) : Prop :=
  ∃ tlv, ActSetField tlv ∈ fm_instructions mod_ ≫= actions_of ∧ oxm_field_lookup (tlv_header tlv) = None.

Lemma inst_insert_perm i l : inst_insert i l ≡ₚ i :: l.
Proof. induction l as [|j l IH]; [done|]. simpl. case_match; [|done]. rewrite IH. apply Permutation_swap. Qed.

Lemma sort_perm l : sort_instructions l ≡ₚ l.
Proof. induction l as [|i l IH]; [done|]. cbn [sort_instructions foldr]. rewrite inst_insert_perm. by f_equiv. Qed.

Lemma inst_compare_rank i j : (0 <? inst_compare i j) = (inst_rank j <? inst_rank i).
Proof. by destruct i, j. Qed.

Lemma inst_insert_in_order i l : in_order l → in_order (inst_insert i l).
Proof.
  induction 1 as [|j l Hs IH Hall]; [repeat constructor|]. cbn [inst_insert]. rewrite inst_compare_rank.
  destruct (Z.ltb_spec (inst_rank j) (inst_rank i)).
  - constructor; [done|]. rewrite inst_insert_perm. constructor; [lia|done].
  - constructor; [by constructor|]. constructor; [done|]. eapply Forall_impl; [|exact Hall]. intros x Hx. simpl in *. lia.
Qed.

Lemma sort_in_order l : in_order (sort_instructions l).
Proof. induction l as [|i l IH]; [constructor|]. by apply inst_insert_in_order. Qed.

Lemma inst_insert_stable r i l :
  in_order l → filter (λ j, inst_rank j = r) (inst_insert i l) = filter (λ j, inst_rank j = r) (i :: l).
Proof.
  induction 1 as [|j l Hs IH Hall]; [done|]. cbn [inst_insert]. rewrite inst_compare_rank.
  destruct (Z.ltb_spec (inst_rank j) (inst_rank i)) as [Hlt|]; [|done]. rewrite filter_cons, IH, !filter_cons.
  case_decide; case_decide; try done. lia.
Qed.

Lemma sort_stable r l : filter (λ j, inst_rank j = r) (sort_instructions l) = filter (λ j, inst_rank j = r) l.
Proof.
  induction l as [|i l IH]; [done|]. cbn [sort_instructions foldr]. rewrite inst_insert_stable by apply sort_in_order.
  rewrite !filter_cons. fold (sort_instructions l). by rewrite IH.
Qed.

Lemma sort_actions l a : a ∈ sort_instructions l ≫= actions_of ↔ a ∈ l ≫= actions_of.
Proof. by rewrite sort_perm. Qed.

Lemma known_fields mod_ :
  unknown_field mod_ ∨ ∀ tlv, ActSetField tlv ∈ fm_instructions mod_ ≫= actions_of → is_Some (oxm_field_lookup (tlv_header tlv)).
Proof.
  set (l := fm_instructions mod_ ≫= actions_of). unfold unknown_field. fold l. induction l as [|a l IH]; [right; set_solver|].
  destruct IH as [(tlv & H1 & H2)|IH]; [left; exists tlv; split; [set_solver|done]|].
  assert ((∃ tlv, a = ActSetField tlv ∧ oxm_field_lookup (tlv_header tlv) = None) ∨
    ∀ tlv, a = ActSetField tlv → is_Some (oxm_field_lookup (tlv_header tlv))) as [(tlv & -> & H)|H].
  { destruct a as [| | | | | | | | | | | | |tlv| | |]; try (right; congruence). destruct (oxm_field_lookup (tlv_header tlv)) eqn:E; [right|left; eauto]. intros ? [= <-]. by eexists. }
  - left. exists tlv. split; [set_solver|done].
  - right. intros tlv [E|Hin]%elem_of_cons; [by apply H|by apply IH].
Qed.

Lemma set_field_req_some m actions :
  (∀ tlv, ActSetField tlv ∈ actions → is_Some (oxm_field_lookup (tlv_header tlv))) →
  is_Some (dp_actions_check_set_field_req m actions).
Proof.
  induction actions as [|a actions IH]; intros Hf; [by eexists|].
  assert (is_Some (dp_actions_check_set_field_req m actions)) as Hrest by (apply IH; set_solver).
  destruct a as [| | | | | | | | | | | | |tlv| | |]; try done. cbn [dp_actions_check_set_field_req].
  destruct (Hf tlv) as [f ->]; [set_solver|]. cbn [mbind option_bind]. case_match; [by eexists|]. case_match; [by eexists|done].
Qed.

Lemma validate_actions_some port_exists groups mod_ actions :
  (∀ tlv, ActSetField tlv ∈ actions → is_Some (oxm_field_lookup (tlv_header tlv))) →
  ∃ r, validate_actions port_exists groups mod_ actions = Some r ∧
    (r = 0 → dp_actions_validate port_exists groups actions = 0).
Proof.
  intros Hf. unfold validate_actions. destruct (Z.eqb_spec (dp_actions_validate port_exists groups actions) 0) as [Hv|Hv]; cbn [negb].
  - destruct (set_field_req_some (fm_match mod_) actions Hf) as [r Hr]. by exists r.
  - by eexists.
Qed.

Lemma validate_instructions_some port_exists groups mod_ insts :
  (∀ tlv, ActSetField tlv ∈ insts ≫= actions_of → is_Some (oxm_field_lookup (tlv_header tlv))) →
  ∃ r, validate_instructions port_exists groups mod_ insts = Some r ∧
    (r = 0 → ∀ i, i ∈ insts → dp_actions_validate port_exists groups (actions_of i) = 0).
Proof.
  induction insts as [|i insts IH]; intros Hf; cbn [validate_instructions].
  { exists 0. split; [done|]. set_solver. }
  rewrite bind_cons in Hf.
  destruct IH as (r & Hr & H0); [set_solver|].
  assert (∃ r1, match i with
    | InstApplyActions actions | InstWriteActions actions => validate_actions port_exists groups mod_ actions
    | _ => Some 0 end = Some r1 ∧ (r1 = 0 → dp_actions_validate port_exists groups (actions_of i) = 0)) as (r1 & -> & H1).
  { destruct i; try (by exists 0); apply validate_actions_some; cbn [actions_of] in Hf; set_solver. }
  cbn [mbind option_bind]. destruct (Z.eqb_spec r1 0) as [Hz|Hz]; cbn [negb]; [|by eexists].
  case_match; [eexists; split; [done|]; intros E; by vm_compute in E|]. exists r. split; [done|].
  intros -> j [->|Hj]%elem_of_cons; [by apply H1|by apply H0].
Qed.

Lemma validate_instructions_zero port_exists groups mod_ insts r :
  validate_instructions port_exists groups mod_ insts = Some r → r = 0 →
  ∀ i, i ∈ insts → dp_actions_validate port_exists groups (actions_of i) = 0.
Proof.
  revert r. induction insts as [|i insts IH]; intros r E Hr; [by intros ? ?%not_elem_of_nil|]. cbn [validate_instructions] in E.
  destruct (match i with InstApplyActions actions | InstWriteActions actions => validate_actions port_exists groups mod_ actions | _ => Some 0 end)
    as [r1|] eqn:E1; [|done]. cbn [mbind option_bind] in E. destruct (Z.eqb_spec r1 0) as [Hz|Hz]; cbn [negb] in E; [|by injection E as <-].
  assert (dp_actions_validate port_exists groups (actions_of i) = 0) as Hi.
  { destruct i; try done; cbn [actions_of]; unfold validate_actions in E1;
      destruct (Z.eqb_spec (dp_actions_validate port_exists groups actions) 0) as [|Hv]; cbn [negb] in E1; try done; congruence. }
  case_match; [injection E as <-; by vm_compute in Hr|]. intros j [->|Hj]%elem_of_cons; [done|]. by eapply IH.
Qed.

(** * The operations keep the invariant *)

Lemma middle_step pend dp before t after dp' t' :
  pipeline_ok pend (Pipeline dp (before ++ t :: after)) →
  table_step (Z.of_nat (length before)) dp t dp' t' → dp_ok pend dp' →
  pipeline_ok pend (Pipeline dp' (before ++ t' :: after)).
Proof.
  intros Hok Hs Hdp. replace (before ++ t' :: after) with (<[length before := t']> (before ++ t :: after)).
  - by eapply pipeline_ok_step; [|by apply list_lookup_middle|..].
  - by rewrite insert_app_r_alt, Nat.sub_diag by lia.
Qed.

Lemma middle_ok pend dp before t after :
  pipeline_ok pend (Pipeline dp (before ++ t :: after)) →
  table_ok (dp_flows dp) t ∧ table_at (Z.of_nat (length before)) (dp_flows dp) t.
Proof.
  intros Hok. assert ((before ++ t :: after) !! length before = Some t) as Ht by (by apply list_lookup_middle).
  split; [by eapply (po_table _ _ Hok)|]. by eapply (pipeline_at pend (Pipeline dp (before ++ t :: after))).
Qed.

Lemma timeout_tables_ok pend now before dp ts :
  pipeline_ok pend (Pipeline dp (before ++ ts)) →
  ∃ dp' ts', timeout_tables now dp ts = Some (dp', ts') ∧ pipeline_ok pend (Pipeline dp' (before ++ ts')).
Proof.
  revert before dp. induction ts as [|t ts IH]; intros before dp Hok; cbn [timeout_tables]; [by exists dp, []|].
  destruct (middle_ok _ _ _ _ _ Hok) as [Ht Hat].
  destruct (timeout_step _ now dp t Ht Hat) as (dp1 & t1 & -> & Hs & Hdp). cbn [mbind option_bind].
  destruct (IH (before ++ [t1]) dp1) as (dp' & ts' & -> & Hok').
  { rewrite <- app_assoc. eapply middle_step; [done..|]. apply Hdp, (po_dp _ _ Hok). }
  exists dp', (t1 :: ts'). split; [done|]. by rewrite <- app_assoc in Hok'.
Qed.

Lemma delete_tables_ok pend now mod_ before dp ts :
  is_delete (fm_command mod_) = true → pipeline_ok pend (Pipeline dp (before ++ ts)) →
  ∃ dp' ts', flow_mod_tables now mod_ dp ts = Some (dp', ts', 0) ∧ pipeline_ok pend (Pipeline dp' (before ++ ts')).
Proof.
  intros Hd. revert before dp. induction ts as [|t ts IH]; intros before dp Hok; cbn [flow_mod_tables]; [by exists dp, []|].
  destruct (middle_ok _ _ _ _ _ Hok) as [Ht Hat].
  assert (∃ dp1 t1, flow_table_flow_mod now dp t mod_ = Some (dp1, t1, 0) ∧
    table_step (Z.of_nat (length before)) dp t dp1 t1 ∧ dp_ok pend dp1) as (dp1 & t1 & -> & Hs & Hdp).
  { assert (∃ strict, flow_table_flow_mod now dp t mod_ = flow_table_delete dp t mod_ strict) as [strict ->].
    { unfold flow_table_flow_mod. destruct (fm_command mod_); try done; by eexists. }
    destruct (delete_step _ dp t mod_ strict Ht Hat) as (dp1 & t1 & E & Hs). exists dp1, t1. split_and!; [done|done|].
    unfold flow_table_delete in E. destruct (remove_loop _ _ _ _ _) as [[? ?]|] eqn:Er; [|done]. injection E as <- <-.
    eapply remove_loop_ok; [|done]. apply (po_dp _ _ Hok). }
  cbn [mbind option_bind Z.eqb negb]. destruct (IH (before ++ [t1]) dp1) as (dp' & ts' & -> & Hok').
  { rewrite <- app_assoc. by eapply middle_step. }
  exists dp', (t1 :: ts'). split; [done|]. by rewrite <- app_assoc in Hok'.
Qed.

Lemma flow_mod_step i now dp t mod_ :
  table_ok (dp_flows dp) t → table_at i (dp_flows dp) t → fm_table_id mod_ = i →
  (∃ dp' t' err, flow_table_flow_mod now dp t mod_ = Some (dp', t', err) ∧ table_step i dp t dp' t' ∧
    (err ≠ 0 → dp' = dp ∧ t' = t)) ∨
  flow_table_flow_mod now dp t mod_ = None ∧ shares mod_ (dp_flows dp) t.
Proof.
  intros Hok Hat Hi. unfold flow_table_flow_mod, shares. destruct (fm_command mod_).
  - left. by apply add_step.
  - destruct (modify_step i dp t mod_ false Hok Hat) as [(dp' & -> & Hs)|[-> Hs]]; [left; by exists dp', t, 0|right; split; [done|by exists false]].
  - destruct (modify_step i dp t mod_ true Hok Hat) as [(dp' & -> & Hs)|[-> Hs]]; [left; by exists dp', t, 0|right; split; [done|by exists true]].
  - left. destruct (delete_step i dp t mod_ false Hok Hat) as (dp' & t' & -> & Hs). by exists dp', t', 0.
  - left. destruct (delete_step i dp t mod_ true Hok Hat) as (dp' & t' & -> & Hs). by exists dp', t', 0.
  - left. eexists dp, t, _. split; [done|]. split; [by apply table_step_refl|done].
Qed.

Lemma pipeline_eta pl : Pipeline (pl_dp pl) (pl_tables pl) = pl.
Proof. by destruct pl. Qed.

(** What a flow_mod that is not carried out does wrong. *)
Definition flow_misuse (pl : pipeline) (msg : ofl_msg_flow_mod) : Prop :=
  unknown_field msg ∨ ∃ t, pl_tables pl !! Z.to_nat (fm_table_id msg) = Some t ∧ shares msg (dp_flows (pl_dp pl)) t.

(** A flow_mod whose validation returns. *)
Lemma flow_mod_validated pend port_exists slave now pl msg r :
  pipeline_ok pend pl → flow_mod_ok msg →
  (let m := set_fm_instructions msg (sort_instructions (fm_instructions msg)) in
   validate_instructions port_exists (dp_groups (pl_dp pl)) m (fm_instructions m) = Some r) →
  (∃ pl' err run, pipeline_handle_flow_mod port_exists slave now pl msg = Some (pl', err, run) ∧
    pipeline_ok pend pl' ∧ (err ≠ 0 → pl' = pl)) ∨
  pipeline_handle_flow_mod port_exists slave now pl msg = None ∧ slave = false ∧ flow_misuse pl msg.
Proof.
  intros Hok [Htab Hidle] Hv. unfold pipeline_handle_flow_mod. destruct slave; [left; by eexists _, _, _|].
  set (m := set_fm_instructions msg (sort_instructions (fm_instructions msg))) in *. rewrite Hv.
  pose proof (validate_instructions_zero _ _ _ _ _ Hv) as H0. cbn [mbind option_bind]. destruct (Z.eqb_spec r 0) as [Hr|Hr]; cbn [negb]; [|left; by eexists _, _, _].
  assert (insts_ok (pl_dp pl) (fm_instructions m)) as Hk.
  { split; [apply sort_in_order|]. intros g (i & Hg & Hi)%list_elem_of_bind Hmax. eapply validate_group; [by apply (H0 Hr i)|done..]. }
  change (fm_table_id m) with (fm_table_id msg). change (fm_command m) with (fm_command msg).
  destruct (Z.eqb_spec (fm_table_id msg) 0xff) as [Hall|Hone].
  - left. destruct (is_delete (fm_command msg)) eqn:Hd; [|by eexists _, _, _].
    destruct (delete_tables_ok pend now m [] (pl_dp pl) (pl_tables pl)) as (dp' & ts' & -> & Hok').
    + done.
    + by rewrite app_nil_l, pipeline_eta.
    + by eexists _, _, _.
  - destruct Htab as [Htab|]; [|done].
    destruct (lookup_lt_is_Some_2 (pl_tables pl) (Z.to_nat (fm_table_id msg))) as [t Ht]; [rewrite (po_len _ _ Hok); lia|].
    rewrite Ht. cbn [mbind option_bind].
    destruct (flow_mod_step (Z.of_nat (Z.to_nat (fm_table_id msg))) now (pl_dp pl) t m) as [(dp' & t' & err & E & Hs & Herr)|[E Hs]].
    + by eapply (po_table _ _ Hok).
    + by eapply pipeline_at.
    + change (fm_table_id m) with (fm_table_id msg). lia.
    + left. rewrite E. cbn [mbind option_bind]. eexists _, _, _. split; [done|]. split.
      * eapply pipeline_ok_step; [by rewrite pipeline_eta|done|done|]. apply (flow_mod_dp_ok pend now (pl_dp pl) t m dp' t' err); [apply Hok|exact Hidle|exact Hk|exact E].
      * intros He. destruct (Herr He) as [-> ->]. rewrite list_insert_id by done. apply pipeline_eta.
    + right. rewrite E. split_and!; [done..|]. right. by exists t.
Qed.

Lemma handle_flow_mod_ok pend port_exists slave now pl msg :
  pipeline_ok pend pl → flow_mod_ok msg →
  (∃ pl' err run, pipeline_handle_flow_mod port_exists slave now pl msg = Some (pl', err, run) ∧
    pipeline_ok pend pl' ∧ (err ≠ 0 → pl' = pl)) ∨
  pipeline_handle_flow_mod port_exists slave now pl msg = None ∧ slave = false ∧ flow_misuse pl msg.
Proof.
  intros Hok Hmsg. set (m := set_fm_instructions msg (sort_instructions (fm_instructions msg))).
  destruct (validate_instructions port_exists (dp_groups (pl_dp pl)) m (fm_instructions m)) as [r|] eqn:Hv; [by eapply flow_mod_validated|].
  destruct slave; [left; by eexists _, _, _|]. right. split; [unfold pipeline_handle_flow_mod; fold m; by rewrite Hv|]. split; [done|]. left.
  destruct (known_fields msg) as [|Hf]; [done|]. exfalso.
  destruct (validate_instructions_some port_exists (dp_groups (pl_dp pl)) m (fm_instructions m)) as (r & Hr & _); [|congruence].
  intros tlv Htlv. apply Hf. exact (proj1 (sort_actions (fm_instructions msg) _) Htlv).
Qed.

Lemma flow_mod_kept pend port_exists slave now pl msg pl' err run :
  pipeline_ok pend pl → flow_mod_ok msg →
  pipeline_handle_flow_mod port_exists slave now pl msg = Some (pl', err, run) → pipeline_ok pend pl' ∧ (err ≠ 0 → pl' = pl).
Proof.
  intros Hok Hmsg E. destruct (handle_flow_mod_ok pend port_exists slave now pl msg Hok Hmsg) as [(pl1 & err1 & run1 & E1 & H)|[E1 _]]; [|congruence].
  rewrite E in E1. by injection E1 as <- <- <-.
Qed.

(** ** Removing the flows of a deleted group or meter *)

Lemma remove_flow_ok pend reason pl p :
  pipeline_ok pend pl → is_Some (dp_flows (pl_dp pl) !! p) →
  ∃ pl', remove_flow reason pl p = Some pl' ∧ pipeline_ok pend pl' ∧
    dp_flows (pl_dp pl') = delete p (dp_flows (pl_dp pl)).
Proof.
  intros Hok [e He]. unfold remove_flow. rewrite He. cbn [mbind option_bind]. pose proof (po_id _ _ Hok p e He) as Hid.
  destruct (lookup_lt_is_Some_2 (pl_tables pl) (Z.to_nat (fe_table_id e))) as [t Ht]; [rewrite (po_len _ _ Hok); lia|].
  rewrite Ht. cbn [mbind option_bind]. pose proof (po_table _ _ Hok _ t Ht) as Htok.
  assert (p ∈ match_entries t) as Hp. { apply (po_in _ _ Hok _ t p Ht). exists e. split; [done|]. lia. }
  destruct (remove_result (pl_dp pl) t p e reason Htok Hp) as (Ef & Et & _).
  destruct (remove_loop_spec (λ _, true) reason (pl_dp pl) t [p] Htok) as (dp' & t' & E & Hr);
    [apply NoDup_singleton|set_solver|].
  pose proof (remove_ok pend (pl_dp pl) t p e reason (po_dp _ _ Hok) He) as Hdp.
  cbn [remove_loop] in E. rewrite He in E. destruct (flow_entry_remove (pl_dp pl) t p e reason) as [dp1 t1].
  injection E as <- <-. cbn [fst] in *. eexists. split; [done|]. split; [|done].
  eapply pipeline_ok_step; [by rewrite pipeline_eta|done| |done].
  eapply removal_step; [done|set_solver|by eapply pipeline_at].
Qed.

Lemma remove_flows_ok pend reason refs pl :
  pipeline_ok pend pl → NoDup refs → (∀ p, p ∈ refs → is_Some (dp_flows (pl_dp pl) !! p)) →
  ∃ pl', remove_flows reason pl refs = Some pl' ∧ pipeline_ok pend pl' ∧
    ∀ p, dp_flows (pl_dp pl') !! p = if decide (p ∈ refs) then None else dp_flows (pl_dp pl) !! p.
Proof.
  revert pl. induction refs as [|p refs IH]; intros pl Hok Hnd Hl; cbn [remove_flows].
  { exists pl. split_and!; [done..|]. intros p. by rewrite decide_False by set_solver. }
  apply list.NoDup_cons in Hnd as [Hp Hnd]. destruct (remove_flow_ok pend reason pl p Hok) as (pl1 & -> & Hok1 & Hf1); [set_solver|].
  cbn [mbind option_bind]. destruct (IH pl1 Hok1 Hnd) as (pl' & E & Hok' & Hf').
  { intros q Hq. rewrite Hf1, lookup_delete_ne by (intros <-; done). apply Hl. set_solver. }
  exists pl'. split_and!; [done..|]. intros q. rewrite Hf', Hf1. destruct (decide (p = q)) as [<-|Hne].
  - rewrite lookup_delete_eq, (decide_True (P := p ∈ p :: refs)) by set_solver. by case_decide.
  - rewrite lookup_delete_ne by done. apply decide_ext. set_solver.
Qed.

Lemma pend_done pend pl :
  pipeline_ok pend pl → (∀ p, p ∈ pend → dp_flows (pl_dp pl) !! p = None) → pipeline_ok [] pl.
Proof.
  intros [[Hg Hm [] Ht] ????] Hp. split; [|done..]. split; [done..| |done]. split; [done..| |done|done|done|done|done].
  intros p e g He _. apply (ro_exists0 p e g He). intros Hin. by rewrite Hp in He.
Qed.

(** ** Group messages *)

(** What a group_mod does to the flow references: [refs] are the flows to remove. *)
Record groups_change (old new : gmap Z group_entry) (refs : list positive) : Prop := {
  gc_new : ∀ g ge, new !! g = Some ge →
    ge_flow_refs ge = [] ∨ ∃ ge0, old !! g = Some ge0 ∧ ge_flow_refs ge = ge_flow_refs ge0;
  gc_kept : ∀ g ge0, old !! g = Some ge0 →
    (∃ ge, new !! g = Some ge ∧ ge_flow_refs ge = ge_flow_refs ge0) ∨ ∀ p, p ∈ ge_flow_refs ge0 → p ∈ refs;
  gc_live : ∀ p, p ∈ refs → ∃ g ge0, old !! g = Some ge0 ∧ p ∈ ge_flow_refs ge0 }.

Lemma groups_change_id old : groups_change old old [].
Proof. split; [naive_solver|naive_solver|set_solver]. Qed.

Lemma group_mod_change port_exists slave table mod_ t err refs :
  group_table_handle_group_mod port_exists slave table mod_ = Some (t, err, refs) →
  groups_change (gt_entries table) (gt_entries t) refs ∧
  (refs = [] ∨ (gm_group_id mod_ ≠ OFPG_ALL ∧ ∃ g ge, gt_entries table !! g = Some ge ∧ refs = ge_flow_refs ge) ∨
    gm_group_id mod_ = OFPG_ALL ∧ gm_command mod_ = OFPGC_DELETE ∧ refs = map_to_list (gt_entries table) ≫= λ ge, ge_flow_refs ge.2).
Proof.
  pose proof (groups_change_id (gt_entries table)) as Hid. unfold group_table_handle_group_mod.
  destruct slave; [by intros [= <- <- <-]; auto|]. case_match; [by intros [= <- <- <-]; auto|]. destruct (gm_command mod_) eqn:Hcmd.
  - unfold group_table_add. case_bool_decide as Hs; [by intros [= <- <- <-]; auto|].
    destruct (gt_entries_num table =? GROUP_TABLE_MAX_ENTRIES); [by intros [= <- <- <-]; auto|].
    destruct (GROUP_TABLE_MAX_BUCKETS <? _); intros [= <- <- <-]; [by auto|]. split; [|by auto].
    apply eq_None_not_Some in Hs. split; cbn [gt_entries]; [| |set_solver].
    + intros g ge [[_ <-]|[_ Hg]]%lookup_insert_Some; [by left|right; by exists ge].
    + intros g ge Hg. left. exists ge. rewrite lookup_insert_ne by congruence. done.
  - unfold group_table_modify, group_table_find. destruct (gt_entries table !! gm_group_id mod_) as [e|] eqn:He; [|by intros [= <- <- <-]; auto].
    destruct (GROUP_TABLE_MAX_BUCKETS <? _); [by intros [= <- <- <-]; auto|]. destruct (is_loop_free table mod_) as [[|]|]; cbn [mbind option_bind negb];
      intros [= <- <- <-]; [|by auto]. split; [|by auto]. split; cbn [gt_entries]; [| |set_solver].
    + intros g ge [[<- <-]|[_ Hg]]%lookup_insert_Some; right; [by exists e|by exists ge].
    + intros g ge Hg. left. destruct (decide (gm_group_id mod_ = g)) as [<-|Hne].
      * rewrite lookup_insert_eq. rewrite He in Hg. injection Hg as <-. by eexists.
      * rewrite lookup_insert_ne by done. by exists ge.
  - unfold group_table_delete, group_table_find. destruct (Z.eqb_spec (gm_group_id mod_) OFPG_ALL) as [Hall|Hall].
    { intros [= <- <- <-]. split; [|by right; right]. split; cbn [gt_entries group_table_create].
      - intros g ge. by rewrite lookup_empty.
      - intros g ge Hg. right. intros p Hp. apply list_elem_of_bind. exists (g, ge). split; [done|by apply elem_of_map_to_list].
      - intros p ([g ge] & Hp & Hg%elem_of_map_to_list)%list_elem_of_bind. by exists g, ge. }
    destruct (gt_entries table !! gm_group_id mod_) as [e|] eqn:He; [|by intros [= <- <- <-]; auto].
    destruct (existsb _ _); intros [= <- <- <-]; [by auto|]. split; [|right; left; split; [done|by eexists _, _]].
    split; cbn [gt_entries].
    + intros g ge [_ Hg]%lookup_delete_Some. right. by exists ge.
    + intros g ge Hg. destruct (decide (gm_group_id mod_ = g)) as [<-|Hne].
      * right. rewrite He in Hg. by injection Hg as <-.
      * left. exists ge. by rewrite lookup_delete_ne.
    + intros p Hp. by exists (gm_group_id mod_), e.
  - by intros [= <- <- <-]; auto.
Qed.

Lemma with_groups_ok pl groups refs :
  pipeline_ok [] pl → group_table_ok groups → groups_change (gt_entries (dp_groups (pl_dp pl))) (gt_entries groups) refs →
  pipeline_ok refs (with_groups pl groups).
Proof.
  intros [[Hg Hm [Rg Rgn Rex Rnm Rm Rmn Rms Rord] Ht] Hlen Htab Hin Hid] Hok [Hnew Hkept _].
  split; [|done..]. split; [done|done| |done]. split; cbn [with_groups pl_dp dp_groups dp_flows dp_meters]; try done.
  - intros g ge p Hge Hp. destruct (Hnew g ge Hge) as [Hnil|(ge0 & H0 & E)]; [rewrite Hnil in Hp; set_solver|].
    rewrite E in Hp. by apply (Rg g ge0).
  - intros g ge Hge. destruct (Hnew g ge Hge) as [->|(ge0 & H0 & ->)]; [apply NoDup_nil_2|by apply (Rgn g)].
  - intros p e g He Hp Hge Hmax. destruct (Rex p e g He) as (ge0 & H0 & Hin0); [set_solver|done..|].
    destruct (Hkept g ge0 H0) as [(ge & H1 & E)|Hrefs]; [|by destruct Hp; apply Hrefs]. exists ge. by rewrite E.
Qed.

(** The flows of at most one entry. *)
Lemma single_refs {A} (f : A → list positive) (m : gmap Z A) :
  (size m <= 1)%nat → (map_to_list m ≫= λ x, f x.2) = [] ∨ ∃ k x, m !! k = Some x ∧ (map_to_list m ≫= λ x, f x.2) = f x.
Proof.
  rewrite <- length_map_to_list. destruct (map_to_list m) as [|[k x] [|y l]] eqn:E; cbn [length]; [by left|intros _; right|lia].
  exists k, x. split; [apply elem_of_map_to_list; rewrite E; set_solver|]. cbn. apply app_nil_r.
Qed.

Lemma walks_freed_refs {A} (f : A → list positive) (m : gmap Z A) all refs :
  walks_freed all m refs = false →
  refs = [] ∨ (all = false ∧ ∃ k x, m !! k = Some x ∧ refs = f x) ∨ all = true ∧ refs = (map_to_list m ≫= λ x, f x.2) →
  refs = [] ∨ ∃ k x, m !! k = Some x ∧ refs = f x.
Proof.
  intros Hw [?|[[_ ?]|[-> E]]]; [by auto..|]. destruct (decide (refs = [])) as [|Hne]; [by left|]. unfold walks_freed in Hw.
  rewrite bool_decide_true, andb_true_r in Hw by done. cbn [andb] in Hw. apply Z.ltb_ge in Hw. rewrite E. apply single_refs. lia.
Qed.

(** When an entry of a table of several has flows, and the message deletes all entries. *)
Definition deletes_used {A} (f : A → list positive) (all : bool) (m : gmap Z A) : Prop :=
  all = true ∧ (1 < size m)%nat ∧ ∃ k x, m !! k = Some x ∧ f x ≠ [].

Lemma walks_freed_used {A} (f : A → list positive) (m : gmap Z A) all refs :
  walks_freed all m refs = true → (∀ p, p ∈ refs → ∃ k x, m !! k = Some x ∧ p ∈ f x) → deletes_used f all m.
Proof.
  unfold walks_freed. rewrite !andb_true_iff, Z.ltb_lt, bool_decide_eq_true. intros [[-> Hs] Hne] Hin. split; [done|]. split; [lia|].
  destruct refs as [|p refs]; [done|]. destruct (Hin p) as (k & x & Hk & Hp); [set_solver|]. exists k, x. split; [done|]. intros E. rewrite E in Hp. set_solver.
Qed.

Lemma handle_group_mod_ok port_exists slave pl mod_ :
  pipeline_ok [] pl → group_mod_ok mod_ →
  (∃ pl' err, handle_group_mod port_exists slave pl mod_ = Some (pl', err) ∧ pipeline_ok [] pl' ∧ (err ≠ 0 → pl' = pl)) ∨
  handle_group_mod port_exists slave pl mod_ = None ∧ slave = false ∧ gm_command mod_ = OFPGC_DELETE ∧
    deletes_used ge_flow_refs (gm_group_id mod_ =? OFPG_ALL) (gt_entries (dp_groups (pl_dp pl))).
Proof.
  intros Hok Hmod. destruct slave.
  { left. exists pl, (ofl_error OFPET_BAD_REQUEST 10). split; [|done]. unfold handle_group_mod, walks_freed. cbn. rewrite andb_false_r. by destruct pl as [[] ?]. }
  unfold handle_group_mod. pose proof (po_dp _ _ Hok) as [Hg _ Hl _].
  destruct (group_mod_handled port_exists false (dp_groups (pl_dp pl)) mod_ Hg Hmod) as (t & err & refs & E & Hg' & Herr).
  rewrite E. cbn [mbind option_bind]. destruct (group_mod_change _ _ _ _ _ _ _ E) as [Hc Hone].
  destruct (walks_freed _ _ refs) eqn:Hw.
  { right. split_and!; [done..| |eapply walks_freed_used; [exact Hw|apply Hc]]. unfold walks_freed in Hw.
    rewrite !andb_true_iff, Z.eqb_eq, bool_decide_eq_true in Hw. naive_solver. }
  left. pose proof (with_groups_ok pl t refs Hok Hg' Hc) as Hok1.
  assert (NoDup refs) as Hnd.
  { destruct (walks_freed_refs ge_flow_refs _ _ _ Hw) as [->|(g & ge & Hge & ->)]; [|apply NoDup_nil_2|by apply (ro_group_nodup _ _ Hl g)].
    rewrite Z.eqb_neq, Z.eqb_eq. naive_solver. }
  destruct (remove_flows_ok refs OFPRR_GROUP_DELETE refs (with_groups pl t) Hok1 Hnd) as (pl' & Er & Hok' & Hf).
  { intros p Hp. destruct (gc_live _ _ _ Hc p Hp) as (g & ge0 & H0 & Hin). destruct (ro_group _ _ Hl g ge0 p H0 Hin) as (e & He & _).
    by exists e. }
  unfold group_entry_destroy. rewrite Er. cbn [mbind option_bind]. exists pl', err. split; [done|]. split.
  - apply (pend_done refs); [done|]. intros p Hp. by rewrite Hf, decide_True.
  - intros He. destruct (Herr He) as [-> ->]. injection Er as <-. by destruct pl as [[] ?].
Qed.

(** ** Meter messages *)

Record meters_change (old new : gmap Z meter_entry) (refs : list positive) : Prop := {
  mc_new : ∀ m me, new !! m = Some me →
    me_flow_refs me = [] ∨ ∃ me0, old !! m = Some me0 ∧ me_flow_refs me = me_flow_refs me0;
  mc_live : ∀ p, p ∈ refs → ∃ m me0, old !! m = Some me0 ∧ p ∈ me_flow_refs me0 }.

Lemma meters_change_id old : meters_change old old [].
Proof. split; [naive_solver|set_solver]. Qed.

Lemma meter_mod_change now slave table mod_ t err refs :
  meter_table_handle_meter_mod now slave table mod_ = (t, err, refs) →
  meters_change (mt_entries table) (mt_entries t) refs ∧
  (refs = [] ∨ (mm_meter_id mod_ ≠ OFPM_ALL ∧ ∃ m me, mt_entries table !! m = Some me ∧ refs = me_flow_refs me) ∨
    mm_meter_id mod_ = OFPM_ALL ∧ mm_command mod_ = OFPMC_DELETE ∧ refs = map_to_list (mt_entries table) ≫= λ me, me_flow_refs me.2).
Proof.
  pose proof (meters_change_id (mt_entries table)) as Hid. unfold meter_table_handle_meter_mod.
  destruct slave; [by intros [= <- <- <-]; auto|]. destruct (mm_command mod_) eqn:Hcmd.
  - unfold meter_table_add. case_bool_decide as Hs; [by intros [= <- <- <-]; auto|].
    destruct (mt_entries_num table =? DEFAULT_MAX_METER); [by intros [= <- <- <-]; auto|].
    destruct (METER_TABLE_MAX_BANDS <? _); intros [= <- <- <-]; [by auto|]. split; [|by auto]. split; cbn [mt_entries]; [|set_solver].
    intros m me [[_ <-]|[_ Hm]]%lookup_insert_Some; [by left|right; by exists me].
  - unfold meter_table_modify, meter_table_find. destruct (mt_entries table !! mm_meter_id mod_) as [e|] eqn:He; [|by intros [= <- <- <-]; auto].
    destruct (METER_TABLE_MAX_BANDS <? _); intros [= <- <- <-]; [by auto|]. split; [|by auto]. split; cbn [mt_entries]; [|set_solver].
    intros m me [[<- <-]|[_ Hm]]%lookup_insert_Some; right; [by exists e|by exists me].
  - unfold meter_table_delete, meter_table_find. destruct (Z.eqb_spec (mm_meter_id mod_) OFPM_ALL) as [Hall|Hall].
    { intros [= <- <- <-]. split; [|by right; right]. split; cbn [mt_entries meter_table_create].
      - intros m me. by rewrite lookup_empty.
      - intros p ([m me] & Hp & Hm%elem_of_map_to_list)%list_elem_of_bind. by exists m, me. }
    destruct (mt_entries table !! mm_meter_id mod_) as [e|] eqn:He; intros [= <- <- <-]; [|by auto].
    split; [|right; left; split; [done|by eexists _, _]]. split; cbn [mt_entries].
    + intros m me [_ Hm]%lookup_delete_Some. right. by exists me.
    + intros p Hp. by exists (mm_meter_id mod_), e.
  - by intros [= <- <- <-]; auto.
Qed.

Lemma meter_mod_handled now slave table mod_ t err refs :
  meter_table_ok table → Z.of_nat (length (mm_bands mod_)) < 2 ^ 16 →
  meter_table_handle_meter_mod now slave table mod_ = (t, err, refs) →
  meter_table_ok t ∧ (err ≠ 0 → t = table ∧ refs = []).
Proof.
  intros Hok Hlen. unfold meter_table_handle_meter_mod. destruct slave; [by intros [= <- <- <-]|]. destruct (mm_command mod_).
  - pose proof (meter_add_ok now table mod_ Hok Hlen). destruct (meter_table_add now table mod_). intros [= <- <- <-]. naive_solver.
  - pose proof (meter_modify_ok now table mod_ Hok Hlen). destruct (meter_table_modify now table mod_). intros [= <- <- <-]. naive_solver.
  - pose proof (meter_delete_ok table mod_ Hok) as Hd. destruct (meter_table_delete table mod_) as [[t1 e1] r1]. intros [= <- <- <-].
    naive_solver.
  - by intros [= <- <- <-].
Qed.

Lemma with_meters_ok pl meters refs :
  pipeline_ok [] pl → meter_table_ok meters → meters_change (mt_entries (dp_meters (pl_dp pl))) (mt_entries meters) refs →
  pipeline_ok [] (with_meters pl meters).
Proof.
  intros [[Hg Hm [Rg Rgn Rex Rnm Rm Rmn Rms Rord] Ht] Hlen Htab Hin Hid] Hok [Hnew _].
  split; [|done..]. split; [done|done| |done]. split; cbn [with_meters pl_dp dp_groups dp_flows dp_meters]; try done.
  - intros m me p Hme Hp. destruct (Hnew m me Hme) as [Hnil|(me0 & H0 & E)]; [rewrite Hnil in Hp; set_solver|].
    rewrite E in Hp. by apply (Rm m me0).
  - intros m me Hme. destruct (Hnew m me Hme) as [->|(me0 & H0 & ->)]; [apply NoDup_nil_2|by apply (Rmn m)].
Qed.

Lemma handle_meter_mod_ok now slave pl mod_ :
  pipeline_ok [] pl → Z.of_nat (length (mm_bands mod_)) < 2 ^ 16 →
  (∃ pl' err, handle_meter_mod now slave pl mod_ = Some (pl', err) ∧ pipeline_ok [] pl' ∧ (err ≠ 0 → pl' = pl)) ∨
  handle_meter_mod now slave pl mod_ = None ∧ slave = false ∧ mm_command mod_ = OFPMC_DELETE ∧
    deletes_used me_flow_refs (mm_meter_id mod_ =? OFPM_ALL) (mt_entries (dp_meters (pl_dp pl))).
Proof.
  intros Hok Hlen. destruct slave.
  { left. exists pl, (ofl_error OFPET_BAD_REQUEST 10). split; [|done]. unfold handle_meter_mod, walks_freed. cbn. rewrite andb_false_r. by destruct pl as [[] ?]. }
  unfold handle_meter_mod. pose proof (po_dp _ _ Hok) as [_ Hm Hl _].
  destruct (meter_table_handle_meter_mod now false (dp_meters (pl_dp pl)) mod_) as [[t err] refs] eqn:E.
  destruct (meter_mod_handled _ _ _ _ _ _ _ Hm Hlen E) as [Hm' Herr].
  destruct (meter_mod_change _ _ _ _ _ _ _ E) as [Hc Hone]. destruct (walks_freed _ _ refs) eqn:Hw.
  { right. split_and!; [done..| |eapply walks_freed_used; [exact Hw|apply Hc]]. unfold walks_freed in Hw.
    rewrite !andb_true_iff, Z.eqb_eq, bool_decide_eq_true in Hw. naive_solver. }
  left. pose proof (with_meters_ok pl t refs Hok Hm' Hc) as Hok1.
  assert (NoDup refs) as Hnd.
  { destruct (walks_freed_refs me_flow_refs _ _ _ Hw) as [->|(m & me & Hme & ->)]; [|apply NoDup_nil_2|by apply (ro_meter_nodup _ _ Hl m)].
    rewrite Z.eqb_neq, Z.eqb_eq. naive_solver. }
  destruct (remove_flows_ok [] OFPRR_METER_DELETE refs (with_meters pl t) Hok1 Hnd) as (pl' & Er & Hok' & Hf).
  { intros p Hp. destruct (mc_live _ _ _ Hc p Hp) as (m & me0 & H0 & Hin). destruct (ro_meter _ _ Hl m me0 p H0 Hin) as (e & He & _).
    by exists e. }
  unfold meter_entry_destroy. rewrite Er. cbn [mbind option_bind]. exists pl', err. split_and!; [done..|].
  intros He. destruct (Herr He) as [-> ->]. injection Er as <-. by destruct pl as [[] ?].
Qed.

(** ** Lookups count packets only *)

Lemma count_links pend dp p e e' :
  dp_ok pend dp → dp_flows dp !! p = Some e →
  fe_group_refs e' = fe_group_refs e → fe_instructions e' = fe_instructions e → fe_meter_refs e' = fe_meter_refs e → times_ok e' →
  dp_ok pend (set_flows dp (<[p := e']> (dp_flows dp))).
Proof.
  intros [Hg Hm [Rg Rgn Rex Rnm Rm Rmn Rms Rord] Ht] He E1 E2 E3 Htime.
  assert (∀ q x, dp_flows dp !! q = Some x → ∃ y, <[p := e']> (dp_flows dp) !! q = Some y ∧
    fe_group_refs y = fe_group_refs x ∧ fe_meter_refs y = fe_meter_refs x) as Hup.
  { intros q x Hx. destruct (decide (p = q)) as [<-|Hne]; [|exists x; by rewrite lookup_insert_ne].
    exists e'. rewrite lookup_insert_eq. rewrite He in Hx. by injection Hx as <-. }
  split; [done|done| |].
  - split; cbn [set_flows dp_flows dp_groups dp_meters]; try done.
    + intros g ge q Hge Hq. destruct (Rg g ge q Hge Hq) as (x & Hx & Hin). destruct (Hup q x Hx) as (y & Hy & Ey & _).
      exists y. by rewrite Ey.
    + intros q x g Hx Hp Hgx. apply lookup_insert_Some in Hx as [[<- <-]|[_ Hx]]; [|by apply (Rex q x)].
      rewrite E1 in Hgx. by apply (Rex p e).
    + intros q x [[<- <-]|[_ Hx]]%lookup_insert_Some; [rewrite E1, E2; by apply (Rnm p)|by apply (Rnm q)].
    + intros m me q Hme Hq. destruct (Rm m me q Hme Hq) as (x & Hx & Hin). destruct (Hup q x Hx) as (y & Hy & _ & Ey).
      exists y. by rewrite Ey.
    + intros q x [[<- <-]|[_ Hx]]%lookup_insert_Some; [rewrite E3; by apply (Rms p)|by apply (Rms q)].
    + intros q x [[<- <-]|[_ Hx]]%lookup_insert_Some; [rewrite E2; by apply (Rord p)|by apply (Rord q)].
  - intros q x. cbn [set_flows dp_flows]. intros [[<- <-]|[_ Hx]]%lookup_insert_Some; [done|by apply (Ht q)].
Qed.

Lemma lookup_step parse pend i now dp t data in_port h :
  table_ok (dp_flows dp) t → table_at i (dp_flows dp) t → dp_ok pend dp →
  ∃ dp' t' h' r, flow_table_lookup parse now dp t data in_port h = Some (dp', t', h', r) ∧
    table_step i dp t dp' t' ∧ dp_ok pend dp'.
Proof.
  intros Hok Hat Hdp. unfold flow_table_lookup. cbn [match_entries].
  destruct (lookup_scan_spec parse (dp_flows dp) data in_port h (match_entries t) (to_live _ _ Hok)) as (r & -> & Hr & He).
  cbn [mbind option_bind]. destruct r as [[p e]|].
  - specialize (He p e eq_refl). eexists _, _, _, _. split; [done|]. split.
    + assert (p ∈ match_entries t) as Hp. { cbn in Hr. symmetry in Hr. apply head_Some_elem_of, list_elem_of_filter in Hr. tauto. }
      split; cbn [set_flows dp_flows match_entries]; [|intros q Hq _; by rewrite lookup_insert_ne by (intros <-; done)| |done].
      * eapply table_ok_ext; [done..|]. intros q Hq. unfold fld. destruct (decide (p = q)) as [<-|Hne].
        -- rewrite lookup_insert_eq, He. by split_and!.
        -- rewrite lookup_insert_ne by done. split_and!; try done. by apply (to_live _ _ Hok).
      * intros q Hq. split; [by left|]. destruct (Hat q Hq) as (x & Hx & Hi). destruct (decide (p = q)) as [<-|Hne].
        -- rewrite lookup_insert_eq. eexists. split; [done|]. rewrite He in Hx. by injection Hx as <-.
        -- exists x. by rewrite lookup_insert_ne.
    + eapply count_links; try done. apply (do_times _ _ Hdp p e He).
  - eexists _, _, _, _. split; [done|]. split; [|done]. split; [|done|intros q Hq; split; [by left|by apply Hat]|done].
    eapply table_ok_ext; [done..|]. intros q Hq. split_and!; try done. by apply (to_live _ _ Hok).
Qed.

(** * Everything that happens to the tables *)

Definition pipeline_create : pipeline :=
  Pipeline (Datapath ∅ group_table_create (meter_table_create 0) []) (replicate PIPELINE_TABLES flow_table_create).

Inductive event :=
  | EvFlowMod (slave : bool) (now : Z) (msg : ofl_msg_flow_mod)
  | EvGroupMod (slave : bool) (msg : ofl_msg_group_mod)
  | EvMeterMod (slave : bool) (now : Z) (msg : ofl_msg_meter_mod)
  | EvTimeout (now : Z)
  | EvLookup (now : Z) (table : nat) (data : list Z) (in_port : Z) (h : packet_handle_std).

Section events.
  Context (parse : list Z → option (ofl_match * protocols_std)) (port_exists : Z → bool).

Definition pl_step (pl : pipeline) (ev : event) : option (pipeline * Z) :=
  match ev with
  | EvFlowMod slave now msg => '(pl, err, _) ← pipeline_handle_flow_mod port_exists slave now pl msg; Some (pl, err)
  | EvGroupMod slave msg => handle_group_mod port_exists slave pl msg
  | EvMeterMod slave now msg => handle_meter_mod now slave pl msg
  | EvTimeout now => pl ← pipeline_timeout now pl; Some (pl, 0)
  | EvLookup now i data in_port h =>
    t ← pl_tables pl !! i;
    '(dp, t, _, _) ← flow_table_lookup parse now (pl_dp pl) t data in_port h;
    Some (Pipeline dp (<[i := t]> (pl_tables pl)), 0)
  end.

Definition event_ok (ev : event) : Prop :=
  match ev with
  | EvFlowMod _ _ msg => flow_mod_ok msg
  | EvGroupMod _ msg => group_mod_ok msg
  | EvMeterMod _ _ msg => Z.of_nat (length (mm_bands msg)) < 2 ^ 16
  | EvTimeout _ => True
  | EvLookup _ i _ _ _ => (i < PIPELINE_TABLES)%nat
  end.

Fixpoint pl_run (pl : pipeline) (evs : list event) : option pipeline :=
  match evs with
  | [] => Some pl
  | ev :: evs => '(pl, _) ← pl_step pl ev; pl_run pl evs
  end.

(** The messages that the code carries out wrongly: a flow_mod with a set-field action for
    an unknown field, a modify of two flows, a deletion of all of several groups or meters
    when flows use them. *)
Definition misuse (pl : pipeline) (ev : event) : Prop :=
  match ev with
  | EvFlowMod slave _ msg => slave = false ∧ flow_misuse pl msg
  | EvGroupMod slave msg =>
    slave = false ∧ gm_command msg = OFPGC_DELETE ∧ deletes_used ge_flow_refs (gm_group_id msg =? OFPG_ALL) (gt_entries (dp_groups (pl_dp pl)))
  | EvMeterMod slave _ msg =>
    slave = false ∧ mm_command msg = OFPMC_DELETE ∧ deletes_used me_flow_refs (mm_meter_id msg =? OFPM_ALL) (mt_entries (dp_meters (pl_dp pl)))
  | EvTimeout _ | EvLookup _ _ _ _ _ => False
  end.

Lemma pl_step_ok pl ev :
  pipeline_ok [] pl → event_ok ev →
  (∃ pl' err, pl_step pl ev = Some (pl', err) ∧ pipeline_ok [] pl' ∧ (err ≠ 0 → pl' = pl)) ∨ pl_step pl ev = None ∧ misuse pl ev.
Proof.
  intros Hok Hev. destruct ev as [slave now msg|slave msg|slave now msg|now|now i data in_port h]; cbn [pl_step event_ok misuse] in *.
  - destruct (handle_flow_mod_ok [] port_exists slave now pl msg Hok Hev) as [(pl' & err & run & -> & H)|[-> H]]; [left; by exists pl', err|by right].
  - by apply handle_group_mod_ok.
  - by apply handle_meter_mod_ok.
  - left. unfold pipeline_timeout. destruct (timeout_tables_ok [] now [] (pl_dp pl) (pl_tables pl)) as (dp' & ts' & -> & Hok').
    { by rewrite app_nil_l, pipeline_eta. }
    by eexists _, 0.
  - left. destruct (lookup_lt_is_Some_2 (pl_tables pl) i) as [t Ht]; [by rewrite (po_len _ _ Hok)|]. rewrite Ht. cbn [mbind option_bind].
    destruct (lookup_step parse [] (Z.of_nat i) now (pl_dp pl) t data in_port h) as (dp' & t' & h' & r & -> & Hs & Hdp).
    + by eapply (po_table _ _ Hok).
    + by eapply pipeline_at.
    + apply Hok.
    + cbn [mbind option_bind]. eexists _, 0. split; [done|]. split; [|done].
      eapply pipeline_ok_step; [by rewrite pipeline_eta|done..].
Qed.

Lemma pipeline_create_ok : pipeline_ok [] pipeline_create.
Proof.
  assert (∀ i t, replicate PIPELINE_TABLES flow_table_create !! i = Some t → t = flow_table_create) as Ht.
  { intros i t [? _]%lookup_replicate. done. }
  split; cbn [pipeline_create pl_dp pl_tables dp_flows].
  - split; [apply GroupTable.create_ok|apply empty_meter_table_ok| |intros p e; cbn [dp_flows]; by rewrite lookup_empty].
    split; cbn [dp_groups dp_meters dp_flows group_table_create meter_table_create gt_entries mt_entries]; intros *; by rewrite ?lookup_empty.
  - by rewrite length_replicate.
  - intros i t ->%Ht. apply empty_table_ok.
  - intros i t p ->%Ht. cbn. split; [set_solver|]. intros (e & He & _). by rewrite lookup_empty in He.
  - intros p e. by rewrite lookup_empty.
Qed.

(** A run goes on to the first misuse. *)
Lemma pl_run_ok pl evs :
  pipeline_ok [] pl → Forall event_ok evs →
  ∃ before rest pl', evs = before ++ rest ∧ pl_run pl before = Some pl' ∧ pipeline_ok [] pl' ∧
    (rest = [] ∨ ∃ ev after, rest = ev :: after ∧ misuse pl' ev ∧ pl_step pl' ev = None ∧ pl_run pl evs = None).
Proof.
  intros Hok Hevs. revert pl Hok. induction Hevs as [|ev evs Hev _ IH]; intros pl Hok; [exists [], [], pl; auto|].
  cbn [pl_run]. destruct (pl_step_ok pl ev Hok Hev) as [(pl1 & err & E & Hok1 & _)|[E Hm]].
  - destruct (IH pl1 Hok1) as (before & rest & pl' & -> & Hrun & Hok' & Hr). exists (ev :: before), rest, pl'. cbn [pl_run]. rewrite E. by split_and!.
  - exists [], (ev :: evs), pl. split_and!; [done..|]. right. exists ev, evs. by rewrite E.
Qed.

Lemma pl_run_kept pl evs pl' : pipeline_ok [] pl → Forall event_ok evs → pl_run pl evs = Some pl' → pipeline_ok [] pl'.
Proof.
  intros Hok Hevs E. destruct (pl_run_ok pl evs Hok Hevs) as (before & rest & pl1 & -> & Hrun & Hok1 & [-> |(ev & after & _ & _ & _ & Hn)]); [|congruence].
  rewrite app_nil_r in E. by rewrite Hrun in E; injection E as <-.
Qed.
End events.

(** C10: for any sequence of flow_mod, group_mod and meter_mod messages, timeouts and
    packet lookups from the start of the switch, with the table numbers and lengths that
    unpacking lets through, every operation returns, until the first that the code carries out
    wrongly, and only these: a set-field action with an unknown header (a null pointer is
    followed), a modify that selects two flows (they share an array), the deletion of all of
    several groups or meters that flows use (freed nodes are searched).  At every point up to
    there: every flow entry is in exactly one table, the one it names; flows and groups refer to
    each other consistently, so that no group of a flow is missing and no group or meter points
    to a freed flow; no group chain is circular or dangling; the instructions of
    every flow are in execution order.  A message that is answered with an error
    changes nothing. *)
Theorem pipeline_safe parse port_exists evs (He : Forall event_ok evs) :
  ∃ before rest pl, evs = before ++ rest ∧ pl_run parse port_exists pipeline_create before = Some pl ∧ pipeline_ok [] pl ∧
    (rest = [] ∨ ∃ ev after, rest = ev :: after ∧ misuse pl ev ∧ pl_step parse port_exists pl ev = None) ∧
    ∀ ev, event_ok ev → ¬ misuse pl ev →
      ∃ pl' err, pl_step parse port_exists pl ev = Some (pl', err) ∧ pipeline_ok [] pl' ∧ (err ≠ 0 → pl' = pl).
Proof.
  destruct (pl_run_ok parse port_exists pipeline_create evs pipeline_create_ok He) as (before & rest & pl & -> & Hrun & Hok & Hr).
  exists before, rest, pl. split_and!; [done..|naive_solver|]. intros ev Hev Hm.
  by destruct (pl_step_ok parse port_exists pl ev Hok Hev) as [H|[_ H]].
Qed.

(** A group, a flow that uses it, and the deletion of the group. *)
Definition ex_group : ofl_msg_group_mod := group_leaf 1.
Definition ex_flow : ofl_msg_flow_mod :=
  FlowMod 0 0 3 OFPFC_ADD 0 0 10 NO_BUFFER OFPP_ANY OFPG_ANY OFPFF_SEND_FLOW_REM (Match 0 [])
    [InstGotoTable 5; InstApplyActions [ActGroup 1]].
Definition ex_group_delete : ofl_msg_group_mod :=
  GroupMod OFPGC_DELETE 0 1 [].
Definition ex_events : list event :=
  [EvGroupMod false ex_group; EvFlowMod false 0 ex_flow; EvGroupMod false ex_group_delete].

Lemma pipeline_safe_witness :
  ∃ pl, pl_run (λ _, None) (λ _, true) pipeline_create ex_events = Some pl ∧ pipeline_ok [] pl ∧ dp_flows (pl_dp pl) = ∅ ∧
    length (dp_sent (pl_dp pl)) = 1%nat.
Proof.
  destruct (pipeline_safe (λ _, None) (λ _, true) ex_events) as (before & rest & pl & E & Hrun & Hok & Hr & _).
  - constructor; [|constructor; [|constructor; [|done]]].
    + split; [by left|done].
    + split; [by left|done].
    + split; [by right|done].
  - assert (is_Some (pl_run (λ _, None) (λ _, true) pipeline_create ex_events)) as [pl1 Hall] by (vm_compute; by eexists).
    assert (rest = []) as ->.
    { destruct Hr as [|(ev & after & -> & _ & Hn)]; [done|]. exfalso. rewrite E in Hall. clear E Hok. revert Hrun Hall.
      generalize pipeline_create. induction before as [|ev' before IH]; intros pl0 Hrun; cbn [app pl_run] in *.
      - injection Hrun as ->. by rewrite Hn.
      - destruct (pl_step _ _ pl0 ev') as [[pl2 ?]|]; [|done]. by apply IH. }
    rewrite app_nil_r in E. subst before. exists pl. split; [done|]. split; [done|]. vm_compute in Hrun. injection Hrun as <-. done.
Defined.

(** A flow_mod stores its instructions in execution order (meter, apply, clear,
    write, metadata, goto), with the instructions of one kind in the order they came
    in. *)
Theorem sort_instructions_correct l :
  sort_instructions l ≡ₚ l ∧ in_order (sort_instructions l) ∧
  ∀ r, filter (λ i, inst_rank i = r) (sort_instructions l) = filter (λ i, inst_rank i = r) l.
Proof. split_and!; [apply sort_perm|apply sort_in_order|intros r; apply sort_stable]. Qed.
