(* ===== verification/Stats.v ===== *)
(** Statistics and descriptions for the controllers: the handlers of multipart requests in
    udatapath/pipeline.c, flow_table.c, group_table.c and meter_table.c, with the bodies of
    the replies they send.

    A reply carries an array of pointers with a length of its own; [None] is undefined
    behaviour: a store or a load outside of the array, or a pointer to a freed entry.  Hash
    maps are walked in the order of [map_to_list].  Group entries never set the time they were
    created at: [created] is what [xmalloc] left there. *)

From S2P Require Import Prelude OpenFlow MatchStd Buffers Oxm Group GroupTable Meter Ports FlowTable StatsWire Messages Pipeline.

(** * Flows *)

(** [flow_entry_update] and [entry->stats]. *)
Definition flow_entry_update (now : Z) (e : flow_entry) : ofl_flow_stats :=
  OflFlowStats (fe_table_id e) (duration_sec now (fe_created e)) (duration_nsec now (fe_created e)) (fe_priority e) (fe_idle_timeout e)
    (fe_hard_timeout e) (fe_flags e) (fe_cookie e) (fe_packet_count e) (fe_byte_count e) (fe_match e) (fe_instructions e).

Definition flow_wanted (r : ofl_msg_multipart_request_flow) (e : flow_entry) : bool :=
  out_filter e (rf_out_port r) (rf_out_group r) && match_std_nonstrict (rf_match r) (fe_match e).

(** [stats], [stats_size] and [stats_num]: an array that is doubled when it is full. *)
Record stats_array := StatsArray { sa_size : nat; sa_stats : list ofl_flow_stats }.

Definition push_stats (a : stats_array) (s : ofl_flow_stats) : option stats_array :=
  let size := if (sa_size a =? length (sa_stats a))%nat then (sa_size a * 2)%nat else sa_size a in
  if (length (sa_stats a) <? size)%nat then Some (StatsArray size (sa_stats a ++ [s])) else None.

Fixpoint flow_table_stats (now : Z) (flows : gmap positive flow_entry) (r : ofl_msg_multipart_request_flow) (l : list positive) (a : stats_array) :
    option stats_array :=
  match l with
  | [] => Some a
  | p :: l =>
    e ← flows !! p;
    a ← (if flow_wanted r e then push_stats a (flow_entry_update now e) else Some a);
    flow_table_stats now flows r l a
  end.

Fixpoint tables_stats (now : Z) (flows : gmap positive flow_entry) (r : ofl_msg_multipart_request_flow) (ts : list flow_table) (a : stats_array) :
    option stats_array :=
  match ts with
  | [] => Some a
  | t :: ts => a ← flow_table_stats now flows r (match_entries t) a; tables_stats now flows r ts a
  end.

Definition pipeline_handle_stats_request_flow (now : Z) (pl : pipeline) (r : ofl_msg_multipart_request_flow) : option multipart_reply :=
  let flows := dp_flows (pl_dp pl) in
  a ← (if rf_table_id r =? 0xff then tables_stats now flows r (pl_tables pl) (StatsArray 1 [])
       else t ← pl_tables pl !! Z.to_nat (rf_table_id r); flow_table_stats now flows r (match_entries t) (StatsArray 1 []));
  Some (RepFlow (sa_stats a)).

Fixpoint tables_aggregate (flows : gmap positive flow_entry) (r : ofl_msg_multipart_request_flow) (ts : list flow_table) (acc : Z * Z * Z) :
    option (Z * Z * Z) :=
  match ts with
  | [] => Some acc
  | t :: ts => acc ← flow_table_aggregate_stats flows (rf_out_port r) (rf_out_group r) (match_entries t) acc; tables_aggregate flows r ts acc
  end.

Definition pipeline_handle_stats_request_aggregate (pl : pipeline) (r : ofl_msg_multipart_request_flow) : option multipart_reply :=
  let flows := dp_flows (pl_dp pl) in
  '(packets, bytes, count) ←
    (if rf_table_id r =? 0xff then tables_aggregate flows r (pl_tables pl) (0, 0, 0)
     else t ← pl_tables pl !! Z.to_nat (rf_table_id r);
          flow_table_aggregate_stats flows (rf_out_port r) (rf_out_group r) (match_entries t) (0, 0, 0));
  Some (RepAggregate packets bytes count).

Definition table_stats (i : nat) (t : flow_table) : ofl_table_stats := TableStats (Z.of_nat i) (active_count t) (lookup_count t) (matched_count t).

Definition pipeline_handle_stats_request_table (pl : pipeline) : multipart_reply := RepTable (imap table_stats (take PIPELINE_TABLES (pl_tables pl))).

(** * Arrays of a given length *)

(** The elements are stored into an array of [alloc] pointers, and [num] of them are read. *)
Definition fill {A : Type} (alloc num : Z) (l : list A) : option (list A) :=
  if (Z.of_nat (length l) <=? alloc) && (num <=? Z.of_nat (length l)) then Some (take (Z.to_nat num) l) else None.

Definition in_reply {A : Type} (r : reply A) : option (list A) := fill (stats_num r) (stats_num r) (stats r).

(** * Groups *)

Definition OFPGMFC_UNKNOWN_GROUP : Z := ofl_error OFPET_GROUP_MOD_FAILED 8.

(** [group_entry_update] and [entry->stats]. *)
Definition group_entry_update (now created : Z) (e : group_entry) : ofl_group_stats :=
  OflGroupStats (ge_group_id e) (ge_ref_count e) (ge_packet_count e) (ge_byte_count e) (duration_sec now created) (duration_nsec now created)
    ((λ '(packets, bytes), BucketCounter packets bytes) <$> ge_counters e).

Definition all_entries {A : Type} (m : gmap Z A) : list A := snd <$> map_to_list m.

Definition group_table_handle_stats_request_group (now : Z) (created : Z → Z) (table : group_table) (group_id : Z) : option (multipart_reply + Z) :=
  let update e := group_entry_update now (created (ge_group_id e)) e in
  if group_id =? OFPG_ALL then
    l ← fill (gt_entries_num table) (gt_entries_num table) (update <$> all_entries (gt_entries table)); Some (inl (RepGroup l))
  else match gt_entries table !! group_id with
       | Some e => Some (inl (RepGroup [update e]))
       | None => Some (inr OFPGMFC_UNKNOWN_GROUP)
       end.

Definition group_desc (e : group_entry) : ofl_group_desc_stats := GroupDesc (ge_type e) (ge_group_id e) (ge_buckets e).

Definition group_table_handle_stats_request_group_desc (table : group_table) : option multipart_reply :=
  l ← fill (gt_entries_num table) (gt_entries_num table) (group_desc <$> all_entries (gt_entries table)); Some (RepGroupDesc l).

(** The numbers of the group types, not their bits. *)
Definition DP_SUPPORTED_GROUPS : Z := Z.lor 0 (Z.lor 1 (Z.lor 2 3)).
Definition DP_SUPPORTED_GROUP_CAPABILITIES : Z := 1.
(** [(n << type)] for the [n]-th type of the list. *)
Definition DP_SUPPORTED_ACTIONS : Z :=
  foldr Z.lor 0 (zip_with Z.shiftl (seqZ 1 13) [0; 11; 12; 15; 16; 17; 18; 19; 20; 21; 22; 23; 24]).

Definition group_table_handle_stats_request_group_features : multipart_reply :=
  RepGroupFeatures DP_SUPPORTED_GROUPS DP_SUPPORTED_GROUP_CAPABILITIES (replicate 4 255) (replicate 4 DP_SUPPORTED_ACTIONS).

(** * Meters *)

Definition OFPMMFC_UNKNOWN_METER : Z := ofl_error OFPET_METER_MOD_FAILED 3.

(** [meter_entry_update] and [entry->stats]; the length is set when it is packed. *)
Definition meter_entry_update (now : Z) (e : meter_entry) : ofl_meter_stats :=
  let bands := (λ s, BandCounter (packet_band_count s) (byte_band_count s)) <$> me_band_stats e in
  OflMeterStats (me_meter_id e) (40 + 16 * Z.of_nat (length bands)) (me_flow_count e) (me_packet_in_count e) (me_byte_in_count e)
    (duration_sec now (me_created e)) (duration_nsec now (me_created e)) bands.

Definition meter_table_handle_stats_request_meter (now : Z) (table : meter_table) (meter_id : Z) : option (multipart_reply + Z) :=
  if meter_id =? OFPM_ALL then
    l ← fill (mt_entries_num table) (mt_entries_num table) (meter_entry_update now <$> all_entries (mt_entries table)); Some (inl (RepMeter l))
  else match mt_entries table !! meter_id with
       | Some e => Some (inl (RepMeter [meter_entry_update now e]))
       | None => Some (inr OFPMMFC_UNKNOWN_METER)
       end.

Definition meter_config_of (e : meter_entry) : ofl_meter_config :=
  MeterConfig (8 + 16 * Z.of_nat (length (me_bands e))) (me_flags e) (me_meter_id e) (me_bands e).

(** The reply has as many elements as there are meters, also when one was asked for and the
    array holds one. *)
Definition meter_table_handle_stats_request_meter_conf (table : meter_table) (meter_id : Z) : option (multipart_reply + Z) :=
  if meter_id =? OFPM_ALL then
    l ← fill (mt_entries_num table) (mt_entries_num table) (meter_config_of <$> all_entries (mt_entries table)); Some (inl (RepMeterConfig l))
  else match mt_entries table !! meter_id with
       | Some e => l ← fill 1 (mt_entries_num table) [meter_config_of e]; Some (inl (RepMeterConfig l))
       | None => Some (inr OFPMMFC_UNKNOWN_METER)
       end.

(** OFPMF_KBPS, OFPMF_BURST and OFPMF_STATS. *)
Definition meter_table_handle_features_request : multipart_reply := RepMeterFeatures 256 1 (Z.lor 1 (Z.lor 4 8)) 16 8.

(** * Ports *)

(** The counters of errors stay 0. *)
Definition ofl_port_stats_of (s : port_stats) : ofl_port_stats :=
  OflPortStats (ps_port_no s) [ps_rx_packets s; ps_tx_packets s; ps_rx_bytes s; ps_tx_bytes s; 0; ps_tx_dropped s; 0; 0; 0; 0; 0; 0]
    (ps_duration_sec s) (ps_duration_nsec s).
Definition ofl_queue_stats_of (s : queue_stats) : ofl_queue_stats :=
  OflQueueStats (qs_port_no s) (qs_queue_id s) (qs_tx_bytes s) (qs_tx_packets s) 0 (qs_duration_sec s) (qs_duration_nsec s).

(** * Correctness *)

(** The entries a request names, in the order of the tables and of their priorities. *)
Definition entries_asked (pl : pipeline) (table_id : Z) : list positive :=
  if table_id =? 0xff then pl_tables pl ≫= match_entries else default [] (match_entries <$> pl_tables pl !! Z.to_nat table_id).

Definition wanted_stats (now : Z) (flows : gmap positive flow_entry) (r : ofl_msg_multipart_request_flow) (p : positive) : option ofl_flow_stats :=
  e ← flows !! p; if flow_wanted r e then Some (flow_entry_update now e) else None.

Definition array_ok (a : stats_array) : Prop := (0 < sa_size a)%nat ∧ (length (sa_stats a) <= sa_size a)%nat.

Lemma flow_table_stats_ok now flows r l a :
  array_ok a → Forall (λ p, is_Some (flows !! p)) l →
  ∃ a', flow_table_stats now flows r l a = Some a' ∧ array_ok a' ∧ sa_stats a' = sa_stats a ++ omap (wanted_stats now flows r) l.
Proof.
  intros Ha Hl. revert a Ha. induction Hl as [|p l [e He] _ IH]; intros a Ha; [exists a; by rewrite app_nil_r|]. cbn [flow_table_stats omap list_omap].
  unfold wanted_stats at 1. rewrite He. cbn [mbind option_bind]. destruct (flow_wanted r e); [|cbn; by apply IH].
  destruct a as [size st]. destruct Ha as [H1 H2]. cbn in H1, H2. unfold push_stats. cbn [sa_size sa_stats].
  set (size' := if (size =? length st)%nat then (size * 2)%nat else size).
  assert (length st < size')%nat as Hs by (unfold size'; destruct (Nat.eqb_spec size (length st)); lia).
  rewrite (proj2 (Nat.ltb_lt _ _)) by done. cbn [mbind option_bind].
  destruct (IH (StatsArray size' (st ++ [flow_entry_update now e]))) as (a' & E & Ha' & Hst); [split; cbn; rewrite ?length_app; cbn; lia|].
  exists a'. split_and!; [done..|]. rewrite Hst. cbn. by rewrite <- app_assoc.
Qed.

Lemma tables_stats_ok now flows r ts a :
  array_ok a → Forall (λ t, Forall (λ p, is_Some (flows !! p)) (match_entries t)) ts →
  ∃ a', tables_stats now flows r ts a = Some a' ∧ sa_stats a' = sa_stats a ++ omap (wanted_stats now flows r) (ts ≫= match_entries).
Proof.
  intros Ha Hl. revert a Ha. induction Hl as [|t ts Ht _ IH]; intros a Ha; [exists a; cbn; by rewrite app_nil_r|]. cbn [tables_stats].
  destruct (flow_table_stats_ok now flows r (match_entries t) a Ha Ht) as (a1 & -> & Ha1 & E1). cbn [mbind option_bind].
  destruct (IH a1 Ha1) as (a2 & -> & E2). exists a2. split; [done|]. rewrite E2, E1, bind_cons, omap_app. by rewrite app_assoc.
Qed.

Lemma entries_alive pl i t : pipeline_ok [] pl → pl_tables pl !! i = Some t → Forall (λ p, is_Some (dp_flows (pl_dp pl) !! p)) (match_entries t).
Proof. intros Hok Ht. apply list.Forall_forall. intros p Hp. apply (po_in _ _ Hok i t p Ht) in Hp as (e & He & _). by eexists. Qed.

Definition table_id_ok (table_id : Z) : Prop := table_id = 0xff ∨ 0 <= table_id < Z.of_nat PIPELINE_TABLES.

(** Flow statistics.  A request for the statistics of flows is answered with exactly the
    entries of the table it names (of all tables for 0xff) that pass its filters (output port,
    output group, match), in the order of the tables and of the priorities, with their counters
    and their age; the array that is doubled as it fills up never overflows, and no pointer to a
    freed entry is followed. *)
Theorem flow_stats_exact (now : Z) (pl : pipeline) (r : ofl_msg_multipart_request_flow) (Hok : pipeline_ok [] pl) (Ht : table_id_ok (rf_table_id r)) :
  pipeline_handle_stats_request_flow now pl r = Some (RepFlow (omap (wanted_stats now (dp_flows (pl_dp pl)) r) (entries_asked pl (rf_table_id r)))).
Proof.
  unfold pipeline_handle_stats_request_flow, entries_asked. assert (array_ok (StatsArray 1 [])) as Ha by (split; cbn; lia).
  destruct (Z.eqb_spec (rf_table_id r) 0xff) as [_|Hne].
  - destruct (tables_stats_ok now (dp_flows (pl_dp pl)) r (pl_tables pl) _ Ha) as (a & -> & E); [|cbn; by rewrite E].
    apply list.Forall_forall. intros t (i & Hi)%list_elem_of_lookup_1. by eapply entries_alive.
  - destruct (lookup_lt_is_Some_2 (pl_tables pl) (Z.to_nat (rf_table_id r))) as [t Et]; [rewrite (po_len _ _ Hok); destruct Ht; lia|]. rewrite Et. cbn [mbind option_bind fmap option_fmap option_map default].
    destruct (flow_table_stats_ok now (dp_flows (pl_dp pl)) r (match_entries t) _ Ha (entries_alive _ _ _ Hok Et)) as (a & -> & _ & E). cbn. by rewrite E.
Qed.

(** *** Example: a group, two flows of table 0, one of table 1, and two meters. *)

Definition ex_parse (f : list Z) : option (ofl_match * protocols_std) := None.

Definition ex_flow (table_id priority port : Z) : event :=
  EvFlowMod false 0 (FlowMod 0 0 table_id OFPFC_ADD 0 0 priority NO_BUFFER OFPP_ANY OFPG_ANY 0 (Match 0 []) [InstApplyActions [ActOutput port 0]]).

Definition ex_events : list event :=
  [ EvGroupMod false (GroupMod OFPGC_ADD OFPGT_ALL 1 [Bucket 0 OFPP_ANY OFPG_ANY [ActOutput 2 0]]);
    EvMeterMod false 0 (MeterMod OFPMC_ADD 1 1 [BandDrop 100 10]); EvMeterMod false 0 (MeterMod OFPMC_ADD 1 2 [BandDrop 200 10]);
    ex_flow 0 10 1; ex_flow 0 20 2; ex_flow 1 10 1 ].

Definition ex_pipeline : pipeline := default pipeline_create (pl_run ex_parse (λ _, true) pipeline_create ex_events).

Lemma ex_pipeline_ok : pipeline_ok [] ex_pipeline.
Proof.
  apply (pl_run_kept ex_parse (λ _, true) pipeline_create ex_events _ pipeline_create_ok).
  - repeat (apply list.Forall_cons; split; [first [split; [by left|done]|split; cbn; [by left|lia]|cbn; lia]|]). by constructor.
  - vm_compute. reflexivity.
Qed.

(** All flows that output to port 1, in table [table_id]. *)
Definition ex_request (table_id : Z) : ofl_msg_multipart_request_flow := RequestFlow table_id 1 OFPG_ANY 0 0 (Match 0 []).

Lemma flow_stats_witness :
  pipeline_handle_stats_request_flow 5000 ex_pipeline (ex_request 0xff) =
    Some (RepFlow (omap (wanted_stats 5000 (dp_flows (pl_dp ex_pipeline)) (ex_request 0xff)) (entries_asked ex_pipeline 0xff))) ∧
  ((λ p, (ofs_table_id p, ofs_priority p)) <$> omap (wanted_stats 5000 (dp_flows (pl_dp ex_pipeline)) (ex_request 0xff)) (entries_asked ex_pipeline 0xff)) =
    [(0, 10); (1, 10)].
Proof.
  split; [|vm_compute; reflexivity]. apply (flow_stats_exact 5000 ex_pipeline (ex_request 0xff)); [exact ex_pipeline_ok|by left].
Defined.

(** What an entry adds to an aggregate; the match of the request has no part in it. *)
Definition aggregate_of (flows : gmap positive flow_entry) (r : ofl_msg_multipart_request_flow) (p : positive) : Z * Z * Z :=
  match flows !! p with
  | Some e =>
    if out_filter e (rf_out_port r) (rf_out_group r)
    then (if fe_no_pkt_count e then 0 else fe_packet_count e, if fe_no_byt_count e then 0 else fe_byte_count e, 1) else (0, 0, 0)
  | None => (0, 0, 0)
  end.

Definition sum_of (f : Z * Z * Z → Z) (flows : gmap positive flow_entry) (r : ofl_msg_multipart_request_flow) (l : list positive) : Z :=
  zsum ((λ p, f (aggregate_of flows r p)) <$> l).

Lemma sum_of_cons f flows r p l : sum_of f flows r (p :: l) = f (aggregate_of flows r p) + sum_of f flows r l.
Proof. done. Qed.

Definition added (flows : gmap positive flow_entry) (r : ofl_msg_multipart_request_flow) (l : list positive) (acc : Z * Z * Z) : Z * Z * Z :=
  (u64 (acc.1.1 + sum_of (λ s, s.1.1) flows r l), u64 (acc.1.2 + sum_of (λ s, s.1.2) flows r l), u32 (acc.2 + sum_of snd flows r l)).

Definition acc_ok (acc : Z * Z * Z) : Prop := fits 64 acc.1.1 ∧ fits 64 acc.1.2 ∧ fits 32 acc.2.

Lemma added_nil flows r acc : acc_ok acc → added flows r [] acc = acc.
Proof. destruct acc as [[a b] c]. intros (H1 & H2 & H3). unfold added, sum_of, u64, u32. cbn in *. by rewrite !Z.add_0_r, !wrap_small by done. Qed.

Lemma added_ok flows r l acc : acc_ok (added flows r l acc).
Proof. split_and!; apply wrap_fits; lia. Qed.

Lemma u_add w a b : 0 <= w → wrap w (wrap w a + b) = wrap w (a + b).
Proof. intros Hw. unfold wrap. by rewrite Z.add_mod_idemp_l by (apply Z.pow_nonzero; lia). Qed.

Lemma added_app flows r l1 l2 acc : added flows r l2 (added flows r l1 acc) = added flows r (l1 ++ l2) acc.
Proof.
  unfold added, u64, u32, sum_of. cbn. rewrite !u_add by lia. rewrite !fmap_app, !zsum_app, !Z.add_assoc. done.
Qed.

Lemma aggregate_ok flows r l acc :
  acc_ok acc → Forall (λ p, is_Some (flows !! p)) l →
  flow_table_aggregate_stats flows (rf_out_port r) (rf_out_group r) l acc = Some (added flows r l acc).
Proof.
  intros Ha Hl. revert acc Ha. induction Hl as [|p l [e He] _ IH]; intros acc Ha; [cbn; by rewrite added_nil|].
  cbn [flow_table_aggregate_stats]. rewrite He. destruct acc as [[a b] c].
  change (p :: l) with ([p] ++ l). rewrite <- added_app.
  assert (added flows r [p] (a, b, c) = (if out_filter e (rf_out_port r) (rf_out_group r) then
    (if fe_no_pkt_count e then a else u64 (a + fe_packet_count e), if fe_no_byt_count e then b else u64 (b + fe_byte_count e), u32 (c + 1)) else (a, b, c))) as E.
  { unfold added, sum_of, aggregate_of. cbn. rewrite He. destruct Ha as (H1 & H2 & H3). cbn in *. unfold u64, u32 in *.
    destruct (out_filter _ _ _), (fe_no_pkt_count e), (fe_no_byt_count e); cbn; rewrite ?Z.add_0_r, ?(wrap_small 64 a), ?(wrap_small 64 b), ?(wrap_small 32 c) by done; done. }
  rewrite <- E. apply IH, added_ok.
Qed.

Lemma tables_aggregate_ok flows r ts acc :
  acc_ok acc → Forall (λ t, Forall (λ p, is_Some (flows !! p)) (match_entries t)) ts →
  tables_aggregate flows r ts acc = Some (added flows r (ts ≫= match_entries) acc).
Proof.
  intros Ha Hl. revert acc Ha. induction Hl as [|t ts Ht _ IH]; intros acc Ha; [cbn; by rewrite added_nil|]. cbn [tables_aggregate].
  rewrite aggregate_ok by done. cbn [mbind option_bind]. rewrite IH by apply added_ok. by rewrite bind_cons, added_app.
Qed.

(** Aggregate statistics.  The reply is the number of the entries of the table named (of
    all for 0xff) that pass the filters for the output port and group, and the sums of their
    counters, modulo their widths; entries that do not count packets or bytes add none.  The
    match of the request is not looked at. *)
Theorem aggregate_exact (pl : pipeline) (r : ofl_msg_multipart_request_flow) (Hok : pipeline_ok [] pl) (Ht : table_id_ok (rf_table_id r)) :
  pipeline_handle_stats_request_aggregate pl r =
    Some (RepAggregate (u64 (sum_of (λ s, s.1.1) (dp_flows (pl_dp pl)) r (entries_asked pl (rf_table_id r))))
                       (u64 (sum_of (λ s, s.1.2) (dp_flows (pl_dp pl)) r (entries_asked pl (rf_table_id r))))
                       (u32 (sum_of snd (dp_flows (pl_dp pl)) r (entries_asked pl (rf_table_id r))))).
Proof.
  unfold pipeline_handle_stats_request_aggregate, entries_asked. assert (acc_ok (0, 0, 0)) as Ha by done.
  destruct (Z.eqb_spec (rf_table_id r) 0xff) as [_|Hne].
  - rewrite tables_aggregate_ok; [done|done|]. apply list.Forall_forall. intros t (i & Hi)%list_elem_of_lookup_1. by eapply entries_alive.
  - destruct (lookup_lt_is_Some_2 (pl_tables pl) (Z.to_nat (rf_table_id r))) as [t Et]; [rewrite (po_len _ _ Hok); destruct Ht; lia|]. rewrite Et. cbn [mbind option_bind fmap option_fmap option_map default].
    rewrite aggregate_ok; [done|done|by eapply entries_alive].
Qed.

Lemma aggregate_witness :
  pipeline_handle_stats_request_aggregate ex_pipeline (ex_request 0xff) = Some (RepAggregate 0 0 2).
Proof.
  rewrite (aggregate_exact ex_pipeline (ex_request 0xff)); [vm_compute; reflexivity|exact ex_pipeline_ok|by left].
Defined.

(** ** Groups and meters *)

Lemma fill_all {A B : Type} (m : gmap Z A) (f : A → B) n : n = Z.of_nat (size m) → fill n n (f <$> all_entries m) = Some (f <$> all_entries m).
Proof.
  intros ->. unfold fill, all_entries. rewrite !length_fmap, length_map_to_list. rewrite (proj2 (Z.leb_le _ _)) by lia. cbn [andb].
  rewrite Nat2Z.id, take_ge; [done|]. by rewrite !length_fmap, length_map_to_list.
Qed.

Lemma all_entries_spec {A : Type} (m : gmap Z A) (id : A → Z) :
  (∀ k e, m !! k = Some e → id e = k) → NoDup (id <$> all_entries m) ∧ ∀ e, e ∈ all_entries m ↔ m !! id e = Some e.
Proof.
  intros Hid. assert (id <$> all_entries m = (map_to_list m).*1) as E.
  { unfold all_entries. rewrite <- list_fmap_compose. apply list_fmap_ext. intros i [k e] Hi. cbn. apply Hid. apply elem_of_map_to_list. by eapply list_elem_of_lookup_2. }
  split; [rewrite E; apply NoDup_fst_map_to_list|]. intros e. unfold all_entries. rewrite list_elem_of_fmap. split.
  - intros ([k e'] & -> & Hin). apply elem_of_map_to_list in Hin. cbn. by rewrite (Hid k e').
  - intros He. exists (id e, e). by rewrite elem_of_map_to_list.
Qed.

(** Statistics of groups and meters.  For all groups or meters, each one is in the reply
    exactly once; for one that does not exist an error is returned, for one that does its own
    statistics are.  The configuration of one meter among several is the exception: the reply is
    read outside of its array. *)
Theorem group_meter_stats_exact (now : Z) (created : Z → Z) (groups : group_table) (meters : meter_table) (id : Z)
    (Hg : group_table_ok groups) (Hm : meter_table_ok meters) :
  (∃ l, group_table_handle_stats_request_group now created groups OFPG_ALL = Some (inl (RepGroup l)) ∧
     NoDup (ogs_group_id <$> l) ∧
     ∀ s, s ∈ l ↔ ∃ e, gt_entries groups !! ge_group_id e = Some e ∧ s = group_entry_update now (created (ge_group_id e)) e) ∧
  (∃ l, meter_table_handle_stats_request_meter_conf meters OFPM_ALL = Some (inl (RepMeterConfig l)) ∧
     NoDup (mc_meter_id <$> l) ∧ ∀ s, s ∈ l ↔ ∃ e, mt_entries meters !! me_meter_id e = Some e ∧ s = meter_config_of e) ∧
  (id ≠ OFPG_ALL → group_table_handle_stats_request_group now created groups id =
     Some match gt_entries groups !! id with
          | Some e => inl (RepGroup [group_entry_update now (created id) e]) | None => inr OFPGMFC_UNKNOWN_GROUP
          end) ∧
  (id ≠ OFPM_ALL → meter_table_handle_stats_request_meter_conf meters id =
     match mt_entries meters !! id with
     | Some e => if decide (size (mt_entries meters) = 1%nat) then Some (inl (RepMeterConfig [meter_config_of e])) else None
     | None => Some (inr OFPMMFC_UNKNOWN_METER)
     end).
Proof.
  destruct (all_entries_spec (gt_entries groups) ge_group_id (gto_id _ Hg)) as [Gnd Gin].
  destruct (all_entries_spec (mt_entries meters) me_meter_id (λ k e H, proj1 (mto_entry _ Hm k e H))) as [Mnd Min].
  split_and!.
  - unfold group_table_handle_stats_request_group. rewrite Z.eqb_refl, fill_all by apply Hg. eexists. split; [done|]. split.
    + rewrite <- list_fmap_compose. exact Gnd.
    + intros s. rewrite list_elem_of_fmap. setoid_rewrite Gin. naive_solver.
  - unfold meter_table_handle_stats_request_meter_conf. rewrite Z.eqb_refl, fill_all by apply Hm. eexists. split; [done|]. split.
    + rewrite <- list_fmap_compose. exact Mnd.
    + intros s. rewrite list_elem_of_fmap. setoid_rewrite Min. naive_solver.
  - intros Hne. unfold group_table_handle_stats_request_group. rewrite (proj2 (Z.eqb_neq _ _)) by done.
    destruct (gt_entries groups !! id) as [e|] eqn:E; [|done]. by rewrite (gto_id _ Hg id e E).
  - intros Hne. unfold meter_table_handle_stats_request_meter_conf. rewrite (proj2 (Z.eqb_neq _ _)) by done.
    destruct (mt_entries meters !! id) as [e|] eqn:E; [|done]. assert (size (mt_entries meters) ≠ 0%nat) as Hs.
    { intros Hz. apply map_size_empty_inv in Hz. by rewrite Hz in E. }
    unfold fill. rewrite (mto_entries _ Hm). cbn [length]. case_decide as Hd.
    + rewrite Hd. done.
    + change (Z.of_nat 1) with 1. rewrite (proj2 (Z.leb_gt (Z.of_nat (size (mt_entries meters))) 1)) by lia. done.
Qed.

(** Of two meters, the configuration of one cannot be asked for; that of all can. *)
Lemma group_meter_stats_witness :
  group_table_handle_stats_request_group 5000 (λ _, 0) (dp_groups (pl_dp ex_pipeline)) 7 = Some (inr OFPGMFC_UNKNOWN_GROUP) ∧
  meter_table_handle_stats_request_meter_conf (dp_meters (pl_dp ex_pipeline)) 2 = None ∧
  ∃ l, meter_table_handle_stats_request_meter_conf (dp_meters (pl_dp ex_pipeline)) OFPM_ALL = Some (inl (RepMeterConfig l)) ∧
    NoDup (mc_meter_id <$> l).
Proof.
  pose proof (po_dp _ _ ex_pipeline_ok) as Hdp.
  destruct (group_meter_stats_exact 5000 (λ _, 0) (dp_groups (pl_dp ex_pipeline)) (dp_meters (pl_dp ex_pipeline)) 7
              (do_groups _ _ Hdp) (do_meters _ _ Hdp)) as (_ & (l & Hl & Hnd & _) & H1 & _).
  destruct (group_meter_stats_exact 5000 (λ _, 0) (dp_groups (pl_dp ex_pipeline)) (dp_meters (pl_dp ex_pipeline)) 2
              (do_groups _ _ Hdp) (do_meters _ _ Hdp)) as (_ & _ & _ & H2).
  split; [|split; [|exists l; split; [exact Hl|exact Hnd]]].
  - rewrite H1; [vm_compute; reflexivity|]. vm_compute. discriminate.
  - rewrite H2; [vm_compute; reflexivity|]. vm_compute. discriminate.
Defined.
