(* ===== verification/Execute.v ===== *)
(** Running a packet through the switch: udatapath/pipeline.c ([is_table_miss],
    [send_packet_to_controller], [pipeline_process_packet], [execute_entry]),
    dp_actions.c ([dp_execute_action_list], [dp_actions_output_port]), action_set.c
    ([action_set_execute]), group_entry.c ([execute_all] to [group_entry_execute]),
    group_table.c ([group_table_execute]), meter_entry.c ([meter_entry_apply] on a packet)
    and dp_control.c ([handle_control_packet_out]).

    Packets are passed as pointers into the heap of the packet buffers, so that freeing,
    sharing with a buffer and leaking are visible.  The functions call each other; each
    is a definition over the ones it calls, and fuel ties the two cycles (groups that
    refer to groups, tables that go to tables).  Fuel running out is a value of its own,
    [NoFuel], different from undefined behaviour, [Undef]. *)

From S2P Require Import Prelude Memory Ofpbuf Csum OpenFlow MatchStd ActionSet Buffers PacketActions LinkedList MacTable.
From S2P Require Import Group GroupTable Meter FlowTable Ports Pipeline.

(** * Outcomes *)

Inductive outcome (A : Type) := Done (a : A) | Undef | NoFuel.
Arguments Done {A} _.
Arguments Undef {A}.
Arguments NoFuel {A}.

#[global] Instance outcome_ret : MRet outcome := λ A a, Done a.
#[global] Instance outcome_bind : MBind outcome := λ A B f m,
  match m with Done a => f a | Undef => Undef | NoFuel => NoFuel end.

Definition lift {A} (o : option A) : outcome A := match o with Some a => Done a | None => Undef end.

(** * The state of the switch *)

Definition OFPCML_NO_BUFFER := 0xffff.
Definition OFPR_NO_MATCH := 0.
Definition OFPR_ACTION := 1.
Definition OFPR_INVALID_TTL := 2.
Definition NO_COOKIE := 0xffffffffffffffff.

Record packet_in := PacketIn {
  pi_buffer_id : Z;
  pi_total_len : Z;
  pi_reason : Z;
  pi_table_id : Z;
  pi_cookie : Z;
  pi_data : list Z;
  pi_match : ofl_match }.

(** [sw_sent] and [sw_packet_ins] collect what left the switch, oldest first;
    [sw_rand] counts the calls of [rand]. *)
Record switch := Switch {
  sw_pl : pipeline;
  sw_bufs : dp_buffers;
  sw_ports : dp_ports;
  sw_sent : list tx;
  sw_packet_ins : list packet_in;
  sw_rand : nat }.

Definition set_pl (sw : switch) (pl : pipeline) : switch :=
  Switch pl (sw_bufs sw) (sw_ports sw) (sw_sent sw) (sw_packet_ins sw) (sw_rand sw).
Definition set_bufs (sw : switch) (b : dp_buffers) : switch :=
  Switch (sw_pl sw) b (sw_ports sw) (sw_sent sw) (sw_packet_ins sw) (sw_rand sw).
Definition set_ports (sw : switch) (p : dp_ports) (out : list tx) (rand : nat) : switch :=
  Switch (sw_pl sw) (sw_bufs sw) p (sw_sent sw ++ out) (sw_packet_ins sw) rand.
Definition send_message (sw : switch) (msg : packet_in) : switch :=
  Switch (sw_pl sw) (sw_bufs sw) (sw_ports sw) (sw_sent sw) (sw_packet_ins sw ++ [msg]) (sw_rand sw).
Definition groups_of (sw : switch) : group_table := dp_groups (pl_dp (sw_pl sw)).
Definition set_group_entries (sw : switch) (m : gmap Z group_entry) : switch :=
  set_pl sw (Pipeline (set_groups (pl_dp (sw_pl sw)) m) (pl_tables (sw_pl sw))).

(** Following a packet pointer; updating and allocating a packet. *)
Definition get (sw : switch) (ptr : positive) : outcome packet := lift (heap (sw_bufs sw) !! ptr).
Definition put (sw : switch) (ptr : positive) (pkt : packet) : switch :=
  set_bufs sw (DpBuffers (buffer_idx (sw_bufs sw)) (buffers (sw_bufs sw)) (<[ptr := pkt]> (heap (sw_bufs sw)))).
Definition alloc (sw : switch) (pkt : packet) : switch * positive :=
  let ptr := fresh (dom (heap (sw_bufs sw)) : gset positive) in (put sw ptr pkt, ptr).
Definition destroy (now : Z) (sw : switch) (ptr : positive) : outcome switch :=
  b ← lift (packet_destroy (sw_bufs sw) now ptr); mret (set_bufs sw b).

(** What stays the same while a packet is processed: the clocks (milliseconds, and the
    cached second count), the configuration, the random numbers, the neighbours and the
    broadcast orders.  The devices' answers depend on how many frames were sent. *)
Record world := World {
  w_msec : Z;
  w_now : Z;
  w_id : Z;
  w_miss_send_len : Z;
  w_netdev : nat → netdev;
  w_rand : nat → nat;
  w_neighbors : mac_to_port;
  w_Matriz_bc : list (list Z) }.

Definition device (w : world) (sw : switch) : netdev := w_netdev w (length (sw_sent sw)).

Definition set_action_set (p : packet) (set : action_set) : packet :=
  Packet (pk_buffer p) (pk_in_port p) set (pk_packet_out p) (pk_out_group p)
    (pk_out_port p) (pk_out_port_max_len p) (pk_out_queue p) (pk_table_id p) (pk_buffer_id p) (pk_handle_std p).
Definition set_table_id (p : packet) (id : Z) : packet :=
  Packet (pk_buffer p) (pk_in_port p) (pk_action_set p) (pk_packet_out p) (pk_out_group p)
    (pk_out_port p) (pk_out_port_max_len p) (pk_out_queue p) id (pk_buffer_id p) (pk_handle_std p).
Definition set_table_miss (h : packet_handle_std) (b : bool) : packet_handle_std :=
  Handle (ph_proto h) (ph_match h) (ph_valid h) (Some b).
Definition set_match (h : packet_handle_std) (m : ofl_match) : packet_handle_std :=
  Handle (ph_proto h) m (ph_valid h) (ph_table_miss h).

(** [pkt->out_group = OFPG_ANY], and the three resets of an output. *)
Definition reset_group (p : packet) : packet := set_out_group p OFPG_ANY.
Definition reset_port (p : packet) : packet := set_out_queue (set_out_port p OFPP_ANY 0) 0.

Definition count_bucket (b : nat) (size : Z) (e : group_entry) : group_entry :=
  GroupEntry (ge_type e) (ge_group_id e) (ge_buckets e) (ge_ref_count e)
    (u64 (ge_packet_count e + 1)) (u64 (ge_byte_count e + size))
    (alter (λ c, (u64 (c.1 + 1), u64 (c.2 + size))) b (ge_counters e)) (ge_data e) (ge_flow_refs e).
Definition set_wrr (e : group_entry) (d : group_entry_wrr_data) : group_entry :=
  GroupEntry (ge_type e) (ge_group_id e) (ge_buckets e) (ge_ref_count e) (ge_packet_count e) (ge_byte_count e)
    (ge_counters e) (Some d) (ge_flow_refs e).

Definition is_table_miss (entry : flow_entry) : bool :=
  (fe_priority entry =? 0) && (match_length (fe_match entry) <=? 4).

Section execute.
  Context `{Malloc}.
  Context (parse : list Z → option (ofl_match * protocols_std)).
  Context (w : world).

(** * Output *)

Definition size_of (pkt : packet) : Z := Z.of_nat (ob_size (pk_buffer pkt)).

(** A packet_in message for the packet [ptr]: saved in a buffer first, unless whole
    packets are to be sent. *)
Definition packet_in_for (sw : switch) (ptr : positive) (reason table_id cookie max_len : Z) : outcome switch :=
  pkt ← get sw ptr;
  sw ← (if w_miss_send_len w =? OFPCML_NO_BUFFER then mret sw
        else '(b, _) ← lift (dp_buffers_save (sw_bufs sw) (w_now w) ptr); mret (set_bufs sw b));
  pkt ← get sw ptr;
  let '(buffer_id, data_length) :=
    if w_miss_send_len w =? OFPCML_NO_BUFFER then (NO_BUFFER, size_of pkt)
    else (pk_buffer_id pkt, Z.min max_len (size_of pkt)) in
  let pkt := validate parse pkt in
  mret (send_message (put sw ptr pkt)
          (PacketIn buffer_id (size_of pkt) reason table_id cookie
             (take (Z.to_nat data_length) (contents (pk_buffer pkt))) (ph_match (pk_handle_std pkt)))).

(** The flag of a handle whose packet met no flow entry was never written. *)
Definition table_miss (h : packet_handle_std) : bool := default (truthy (malloc_byte 0)) (ph_table_miss h).

Definition ports_output (sw : switch) (pkt : packet) (port queue : Z) : switch :=
  let '(p, out) := dp_ports_output (device w sw) (sw_ports sw) (contents (pk_buffer pkt)) port queue in
  set_ports sw p out (sw_rand sw).

Section output.
  Context (pipeline_process_packet : switch → positive → outcome switch).

Definition dp_actions_output_port (sw : switch) (ptr : positive) (out_port out_queue max_len cookie : Z) : outcome switch :=
  pkt ← get sw ptr;
  if out_port =? OFPP_TABLE then
    if pk_packet_out pkt then
      pkt_copy ← lift (packet_clone parse pkt);
      let '(sw, copy) := alloc sw (set_packet_out pkt_copy false) in
      pipeline_process_packet sw copy
    else mret sw
  else if out_port =? OFPP_IN_PORT then mret (ports_output sw pkt (pk_in_port pkt) 0)
  else if out_port =? OFPP_CONTROLLER then
    packet_in_for sw ptr (if table_miss (pk_handle_std pkt) then OFPR_NO_MATCH else OFPR_ACTION)
      (pk_table_id pkt) cookie max_len
  else if (out_port =? OFPP_FLOOD) || (out_port =? OFPP_ALL) then
    let '(p, out) := dp_ports_output_all (device w sw) (sw_ports sw) (contents (pk_buffer pkt)) (pk_in_port pkt)
                       (out_port =? OFPP_FLOOD) in
    mret (set_ports sw p out (sw_rand sw))
  else if out_port =? OFPP_RANDOM then
    '(p, out) ← lift (dp_ports_output_random (device w sw) (sw_ports sw) (w_id w) (w_neighbors w) (w_Matriz_bc w)
                        (w_rand w (sw_rand sw) mod 16) (contents (pk_buffer pkt)) (pk_in_port pkt) false);
    mret (set_ports sw p out (S (sw_rand sw)))
  else if pk_in_port pkt =? out_port then mret sw
  else mret (ports_output sw pkt out_port out_queue).

(** * Groups *)

Section group.
  Context (group_table_execute : switch → positive → Z → outcome switch).

Definition act (sw : switch) (ptr : positive) (action : ofl_action) : outcome switch :=
  pkt ← get sw ptr; pkt ← lift (dp_execute_action parse pkt action); mret (put sw ptr pkt).

Fixpoint acts (sw : switch) (ptr : positive) (actions : list ofl_action) : outcome switch :=
  match actions with
  | [] => mret sw
  | a :: actions => sw ← act sw ptr a; acts sw ptr actions
  end.

Definition action_set_execute (sw : switch) (ptr : positive) (cookie : Z) : outcome switch :=
  pkt ← get sw ptr;
  sw ← acts sw ptr (ae_action <$> pk_action_set pkt);
  pkt ← get sw ptr;
  let pkt := set_action_set pkt (action_set_clear_actions (pk_action_set pkt)) in
  if negb (pk_out_group pkt =? OFPG_ANY) then
    group_table_execute (put sw ptr (reset_group pkt)) ptr (pk_out_group pkt)
  else if negb (pk_out_port pkt =? OFPP_ANY) then
    sw ← dp_actions_output_port (put sw ptr (reset_port pkt)) ptr
           (pk_out_port pkt) (pk_out_queue pkt) (pk_out_port_max_len pkt) cookie;
    destroy (w_now w) sw ptr
  else destroy (w_now w) (put sw ptr pkt) ptr.

(** Writing bucket [b] of the group to the packet's action set, counting, executing. *)
Definition execute_bucket (sw : switch) (ptr : positive) (group_id : Z) (b : nat) : outcome switch :=
  pkt ← get sw ptr;
  entry ← lift (group_table_find (groups_of sw) group_id);
  bucket ← lift (ge_buckets entry !! b);
  _ ← lift (ge_counters entry !! b);
  let pkt := set_action_set pkt (action_set_write_actions (pk_action_set pkt) (b_actions bucket)) in
  let sw := set_group_entries (put sw ptr pkt) (<[group_id := count_bucket b (size_of pkt) entry]> (gt_entries (groups_of sw))) in
  action_set_execute sw ptr NO_COOKIE.

Fixpoint execute_all_loop (sw : switch) (ptr : positive) (group_id : Z) (bs : list nat) : outcome switch :=
  match bs with
  | [] => destroy (w_now w) sw ptr
  | b :: bs =>
    pkt ← get sw ptr;
    p ← lift (packet_clone parse pkt);
    let '(sw, copy) := alloc sw p in
    sw ← execute_bucket sw copy group_id b;
    execute_all_loop sw ptr group_id bs
  end.

Definition execute_all (sw : switch) (ptr : positive) (group_id : Z) (entry : group_entry) : outcome switch :=
  execute_all_loop sw ptr group_id (seq 0 (length (ge_buckets entry))).

Definition execute_select (sw : switch) (ptr : positive) (group_id : Z) (entry : group_entry) : outcome switch :=
  match ge_buckets entry with
  | [] => destroy (w_now w) sw ptr
  | _ =>
    d ← lift (ge_data entry);
    let '(d, b) := select_from_select_group (ge_buckets entry) d in
    let sw := set_group_entries sw (<[group_id := set_wrr entry d]> (gt_entries (groups_of sw))) in
    if b =? -1 then destroy (w_now w) sw ptr else execute_bucket sw ptr group_id (Z.to_nat b)
  end.

Definition execute_indirect (sw : switch) (ptr : positive) (group_id : Z) (entry : group_entry) : outcome switch :=
  match ge_buckets entry with
  | [] => destroy (w_now w) sw ptr
  | _ => execute_bucket sw ptr group_id 0
  end.

(** The configuration and state of a port, through its [conf] pointer. *)
Definition port_conf (sw : switch) (no : Z) : option (Z * Z) :=
  p ← dp_ports_lookup (sw_ports sw) no; _ ← sp_netdev p; Some (sp_config p, sp_state p).

Definition execute_ff (sw : switch) (ptr : positive) (group_id : Z) (entry : group_entry) : outcome switch :=
  b ← lift (select_from_ff_group (port_conf sw) (ge_buckets entry) 0);
  if b =? -1 then destroy (w_now w) sw ptr else execute_bucket sw ptr group_id (Z.to_nat b).

Definition group_entry_execute (sw : switch) (ptr : positive) (group_id : Z) (entry : group_entry) : outcome switch :=
  if ge_type entry =? OFPGT_ALL then execute_all sw ptr group_id entry
  else if ge_type entry =? OFPGT_SELECT then execute_select sw ptr group_id entry
  else if ge_type entry =? OFPGT_INDIRECT then execute_indirect sw ptr group_id entry
  else if ge_type entry =? OFPGT_FF then execute_ff sw ptr group_id entry
  else destroy (w_now w) sw ptr.
End group.

(** The packet of a group that does not exist is forgotten. *)
Fixpoint group_table_execute (g : nat) (sw : switch) (ptr : positive) (group_id : Z) : outcome switch :=
  match g with
  | O => NoFuel
  | S g => match group_table_find (groups_of sw) group_id with
           | None => mret sw
           | Some entry => group_entry_execute (group_table_execute g) sw ptr group_id entry
           end
  end.

(** * Action lists and instructions *)

Fixpoint dp_execute_action_list (g : nat) (sw : switch) (ptr : positive) (actions : list ofl_action) (cookie : Z) :
    outcome switch :=
  match actions with
  | [] => mret sw
  | a :: actions =>
    sw ← act sw ptr a;
    pkt ← get sw ptr;
    sw ← (if negb (pk_out_group pkt =? OFPG_ANY) then
            let pkt' := reset_group pkt in
            clone ← lift (packet_clone parse pkt');
            let '(sw, copy) := alloc (put sw ptr pkt') clone in
            group_table_execute g sw copy (pk_out_group pkt)
          else if negb (pk_out_port pkt =? OFPP_ANY) then
            dp_actions_output_port (put sw ptr (reset_port pkt)) ptr
              (pk_out_port pkt) (pk_out_queue pkt) (pk_out_port_max_len pkt) cookie
          else mret sw);
    dp_execute_action_list g sw ptr actions cookie
  end.

(** The IP header a meter may remark, and its write-back. *)
Definition ip_header_of (pkt : packet) : outcome ip_header :=
  let b := pk_buffer pkt in
  match ptr pkt pr_ipv4, ptr pkt pr_ipv6 with
  | Some p, _ =>
    ver ← lift (ld 1 (ob_mem b) p); tos ← lift (ld 1 (ob_mem b) (p + o_ip_tos)); csum ← lift (ld 2 (ob_mem b) (p + o_ip_csum));
    mret (Ipv4 ver tos csum)
  | None, Some p => v ← lift (ld 4 (ob_mem b) p); mret (Ipv6 (bswap32 v))
  | None, None => mret NoIp
  end.

Definition write_ip_header (pkt : packet) (h : ip_header) : outcome packet :=
  let b := pk_buffer pkt in
  match h, ptr pkt pr_ipv4, ptr pkt pr_ipv6 with
  | Ipv4 _ tos csum, Some p, _ =>
    mem ← lift (st 2 (ob_mem b) (p + o_ip_csum) csum); mem ← lift (st 1 mem (p + o_ip_tos) tos);
    mret (set_buffer pkt (set_mem b mem))
  | Ipv6 v, _, Some p => mem ← lift (st 4 (ob_mem b) p (bswap32 v)); mret (set_buffer pkt (set_mem b mem))
  | _, _, _ => mret pkt
  end.

(** Whether the meter's choice for this packet is a DSCP remark band. *)
Definition remarks (entry : meter_entry) (size : Z) : bool :=
  match me_bands entry !! Z.to_nat (choose_band entry size).2 with
  | Some (BandDscpRemark _ _ _) => negb ((choose_band entry size).2 =? -1)
  | _ => false
  end.

(** A meter instruction; the packet is gone when the result has no pointer. *)
Definition apply_meter (sw : switch) (ptr : positive) (meter_id : Z) : outcome (switch * option positive) :=
  let meters := dp_meters (pl_dp (sw_pl sw)) in
  match meter_table_find meters meter_id with
  | None => mret (sw, Some ptr)
  | Some entry =>
    pkt ← get sw ptr;
    let size := size_of pkt in
    pkt ← (if remarks entry size then mret (validate parse pkt) else mret pkt);
    let parsed := ph_valid (pk_handle_std pkt) in
    h ← (if remarks entry size && parsed then ip_header_of pkt else mret NoIp);
    let '(meters, r) := meter_table_apply meters meter_id size parsed h in
    let sw := set_pl sw (Pipeline (set_meters (pl_dp (sw_pl sw)) (mt_entries meters)) (pl_tables (sw_pl sw))) in
    match r with
    | None => sw ← destroy (w_now w) sw ptr; mret (sw, None)
    | Some h =>
      pkt ← (if remarks entry size && parsed then
               pkt ← write_ip_header pkt h; mret (set_handle pkt (set_valid (pk_handle_std pkt) false))
             else mret pkt);
      mret (put sw ptr pkt, Some ptr)
    end
  end.

(** The loop over the instructions of an entry: the state, the packet (if it is still
    there) and the next table. *)
Fixpoint execute_entry (g : nat) (sw : switch) (ptr : option positive) (cookie : Z) (next_table : option Z)
    (insts : list ofl_instruction) : outcome (switch * option positive * option Z) :=
  match insts, ptr with
  | [], _ | _, None => mret (sw, ptr, next_table)
  | inst :: insts, Some p =>
    match inst with
    | InstGotoTable table_id => execute_entry g sw ptr cookie (Some table_id) insts
    | InstWriteMetadata metadata mask =>
      pkt ← get sw p;
      let pkt := validate parse pkt in
      let m := ph_match (pk_handle_std pkt) in
      let v := Z.lor (Z.land (get64 OXM_OF_METADATA m) (unot 64 mask)) (Z.land metadata mask) in
      execute_entry g (put sw p (set_handle pkt (set_match (pk_handle_std pkt) (match_set64 OXM_OF_METADATA v m))))
        ptr cookie next_table insts
    | InstWriteActions actions =>
      pkt ← get sw p;
      execute_entry g (put sw p (set_action_set pkt (action_set_write_actions (pk_action_set pkt) actions)))
        ptr cookie next_table insts
    | InstApplyActions actions =>
      sw ← dp_execute_action_list g sw p actions cookie;
      execute_entry g sw ptr cookie next_table insts
    | InstClearActions =>
      pkt ← get sw p;
      execute_entry g (put sw p (set_action_set pkt (action_set_clear_actions (pk_action_set pkt))))
        ptr cookie next_table insts
    | InstMeter meter_id =>
      '(sw, ptr) ← apply_meter sw p meter_id;
      execute_entry g sw ptr cookie next_table insts
    | InstExperimenter _ => execute_entry g sw ptr cookie next_table insts
    end
  end.

(** * The pipeline *)

(** How a turn of the table loop ends: on to another table; the packet is gone or its action
    set was executed; or no entry matched. *)
Inductive table_end := TableGoto (i : Z) | TableDone | TableMiss.

(** The lookup in a table and the execution of the entry. *)
Definition try_table (g : nat) (sw : switch) (ptr : positive) (i : Z) : outcome (switch * table_end) :=
  pkt ← get sw ptr;
  let pl := sw_pl sw in
  table ← lift (pl_tables pl !! Z.to_nat i);
  '(dp, table, h, found) ← lift (flow_table_lookup parse (w_msec w) (pl_dp pl) table
                                   (contents (pk_buffer pkt)) (pk_in_port pkt) (pk_handle_std pkt));
  let sw := set_pl sw (Pipeline dp (<[Z.to_nat i := table]> (pl_tables pl))) in
  let pkt := set_handle (set_table_id pkt i) h in
  match found with
  | None => mret (put sw ptr pkt, TableMiss)
  | Some e =>
    entry ← lift (dp_flows dp !! e);
    let sw := put sw ptr (set_handle pkt (set_table_miss h (is_table_miss entry))) in
    '(sw, p, next) ← execute_entry g sw (Some ptr) (fe_cookie entry) None (fe_instructions entry);
    match p, next with
    | None, _ => mret (sw, TableDone)
    | Some p, None => sw ← action_set_execute (group_table_execute g) sw p NO_COOKIE; mret (sw, TableDone)
    | Some p, Some i => mret (sw, TableGoto i)
    end
  end.

(** One turn of the loop of [pipeline_process_packet]: the state and the next table.  A
    packet that matches nothing is destroyed. *)
Definition process_table (g : nat) (sw : switch) (ptr : positive) (i : Z) : outcome (switch * option Z) :=
  '(sw, e) ← try_table g sw ptr i;
  match e with
  | TableGoto i => mret (sw, Some i)
  | TableDone => mret (sw, None)
  | TableMiss => sw ← destroy (w_now w) sw ptr; mret (sw, None)
  end.

Fixpoint table_loop (g t : nat) (sw : switch) (ptr : positive) (i : Z) : outcome switch :=
  match t with
  | O => NoFuel
  | S t => '(sw, next) ← process_table g sw ptr i;
           match next with None => mret sw | Some i => table_loop g t sw ptr i end
  end.

(** The message is sent, then the match inside the packet's handle is passed to [free]:
    that is not the address of an allocated block. *)
Definition send_packet_to_controller (sw : switch) (ptr : positive) (table_id reason : Z) : outcome switch :=
  _ ← packet_in_for sw ptr reason table_id NO_COOKIE (w_miss_send_len w);
  Undef.

Definition process_packet (g t : nat) (sw : switch) (ptr : positive) : outcome switch :=
  pkt ← get sw ptr;
  '(h, ok) ← lift (packet_handle_std_is_ttl_valid parse (contents (pk_buffer pkt)) (pk_in_port pkt) (pk_handle_std pkt));
  let sw := put sw ptr (set_handle pkt h) in
  if negb ok then sw ← send_packet_to_controller sw ptr 0 OFPR_INVALID_TTL; destroy (w_now w) sw ptr
  else table_loop g t sw ptr 0.
End output.

(** [d] bounds the nesting of resubmissions by OFPP_TABLE. *)
Fixpoint pipeline_process_packet (d g t : nat) (sw : switch) (ptr : positive) : outcome switch :=
  match d with
  | O => NoFuel
  | S d => process_packet (pipeline_process_packet d g t) g t sw ptr
  end.

(** * PACKET_OUT requests *)

(** [port_exists] of the validation is [dp_ports_lookup(...) != NULL]. *)
Definition handle_control_packet_out (d g t : nat) (sw : switch) (slave : bool) (buffer_id in_port : Z) (data : list Z)
    (actions : list ofl_action) : outcome (switch * Z) :=
  if slave then mret (sw, ofl_error OFPET_BAD_REQUEST 10)
  else
    let error := dp_actions_validate (λ no, bool_decide (is_Some (dp_ports_lookup (sw_ports sw) no))) (groups_of sw) actions in
    if truthy error then mret (sw, error)
    else if buffer_id =? NO_BUFFER then
      match data with
      | [] => mret (sw, ofl_error OFPET_BAD_REQUEST 12)
      | _ =>
        let '(sw, ptr) := alloc sw (packet_create parse in_port (Ofpbuf data 0 (length data)) true) in
        sw ← dp_execute_action_list (pipeline_process_packet d g t) g sw ptr actions NO_COOKIE;
        sw ← destroy (w_now w) sw ptr; mret (sw, 0)
      end
    else
      '(b, r) ← lift (dp_buffers_retrieve (sw_bufs sw) buffer_id);
      match r with
      | None => mret (set_bufs sw b, ofl_error OFPET_BAD_REQUEST 7)
      | Some ptr =>
        sw ← dp_execute_action_list (pipeline_process_packet d g t) g (set_bufs sw b) ptr actions NO_COOKIE;
        sw ← destroy (w_now w) sw ptr; mret (sw, 0)
      end.
End execute.
