(* ===== verification/Ownership.v ===== *)
(** Ownership of packets while they are processed.

    [heap_ok own sw] says who owns what: the packets of [own] belong to the calls under
    way, every other packet on the heap is waiting in a buffer, and the buffers are
    consistent.  Each operation that creates, shares, keeps or frees a packet is shown to
    move between such states; a packet that is freed twice, used after it was freed, or
    forgotten has no place in one. *)

From S2P Require Import Prelude Memory Ofpbuf Csum OpenFlow MatchStd ActionSet Buffers PacketActions LinkedList MacTable.
From S2P Require Import Group GroupTable Meter FlowTable Ports PortsCorrect Pipeline Execute.

(** * Packets in order *)

(** Headers lie inside the frame. *)
Definition inside (off : option nat) (len size : nat) : Prop := ∀ k, off = Some k → (k + len <= size)%nat.

Record proto_in (pr : protocols_std) (size : nat) : Prop := {
  in_mpls : inside (pr_mpls pr) 4 size;
  in_ipv4 : inside (pr_ipv4 pr) 20 size;
  in_ipv6 : inside (pr_ipv6 pr) 40 size }.

Record packet_wf (pkt : packet) : Prop := {
  pw_buffer : ofpbuf_wf (pk_buffer pkt);
  pw_proto : ph_valid (pk_handle_std pkt) = true → proto_in (ph_proto (pk_handle_std pkt)) (ob_size (pk_buffer pkt)) }.

Section ownership.
  Context `{Malloc}.
  Context (parse : list Z → option (ofl_match * protocols_std)).
  Context (parse_ok : ∀ data m pr, parse data = Some (m, pr) → proto_in pr (length data)).
  Context (now : Z).

Lemma validate_in data in_port h :
  (ph_valid h = true → proto_in (ph_proto h) (length data)) →
  let h' := packet_handle_std_validate parse data in_port h in
  ph_valid h' = true → proto_in (ph_proto h') (length data).
Proof using parse_ok.
  intros Hh; unfold packet_handle_std_validate. case_match eqn:E; [auto|].
  destruct (parse data) as [[m pr]|] eqn:Ep; cbn; [|done]. intros _. by eapply parse_ok.
Qed.

Lemma validate_wf pkt : packet_wf pkt → packet_wf (validate parse pkt).
Proof using parse_ok.
  intros [Hb Hp]; split; [done|]. unfold validate; cbn [pk_handle_std set_handle pk_buffer].
  rewrite <- (contents_length _ Hb) in Hp |- *. by apply validate_in.
Qed.

Lemma clone_wf pkt :
  packet_wf pkt → ∃ c, packet_clone parse pkt = Some c ∧ packet_wf c ∧ pk_buffer_id c = NO_BUFFER ∧
    pk_action_set c = [] ∧ pk_out_group c = OFPG_ANY ∧ pk_out_port c = OFPP_ANY ∧ pk_packet_out c = pk_packet_out pkt.
Proof using parse_ok.
  intros [Hb _]; unfold packet_clone, ofpbuf_clone. destruct (clone_parts (contents (pk_buffer pkt))) as [tail ->].
  cbn [mbind option_bind]. eexists; split; [done|]. split_and!; try done.
  split; [apply parts_wf|]. cbn [pk_handle_std pk_buffer]. rewrite parts_contents.
  replace (ob_size _) with (length (contents (pk_buffer pkt))) by done.
  apply validate_in. done.
Qed.

(** * Who owns the packets *)

Definition kept (dpb : dp_buffers) (pkt : packet) : Prop :=
  pk_buffer_id pkt = NO_BUFFER ∨ dp_buffers_is_alive dpb now (pk_buffer_id pkt) = true.

Record heap_ok (own : gmap positive packet) (dpb : dp_buffers) : Prop := {
  ho_inv : buf_inv dpb;
  ho_own : ∀ q pk, own !! q = Some pk → heap dpb !! q = Some pk ∧ packet_wf pk ∧ kept dpb pk;
  ho_rest : ∀ q pk, heap dpb !! q = Some pk → own !! q = Some pk ∨ pk_buffer_id pk ≠ NO_BUFFER }.

Lemma get_ok own dpb q pk : heap_ok own dpb → own !! q = Some pk → heap dpb !! q = Some pk ∧ packet_wf pk.
Proof using. intros Ho Hq; destruct (ho_own _ _ Ho _ _ Hq) as (? & ? & _); done. Qed.

Definition write (dpb : dp_buffers) (q : positive) (pk : packet) : dp_buffers :=
  DpBuffers (buffer_idx dpb) (buffers dpb) (<[q := pk]> (heap dpb)).

(** Changing an owned packet. *)
Lemma write_ok own dpb q pk pk' :
  heap_ok (<[q := pk]> own) dpb → packet_wf pk' → pk_buffer_id pk' = pk_buffer_id pk →
  heap_ok (<[q := pk']> own) (write dpb q pk').
Proof using.
  intros [Hi Ho Hr] Hw Hid. destruct (Ho q pk) as (Hq & _ & Hk); [by rewrite lookup_insert_eq|].
  assert (Hs : ∀ r, q ≠ r → own !! r = <[q := pk]> own !! r) by (intros; by rewrite lookup_insert_ne).
  split; cbn.
  - destruct Hi as [Hl Hc Hsl Hp]. split; cbn; [done|done| |].
    + intros i p r Hb Hpk. destruct (Hsl i p r Hb Hpk) as (pk0 & Hr0 & Hid0).
      destruct (decide (q = r)) as [->|]; [|rewrite lookup_insert_ne by done; eauto].
      rewrite lookup_insert_eq. eexists; split; [done|]. congruence.
    + intros r pk0. destruct (decide (q = r)) as [->|]; [rewrite lookup_insert_eq|rewrite lookup_insert_ne by done; eauto].
      intros [= <-]. rewrite Hid. eauto.
  - intros r pk0. destruct (decide (q = r)) as [->|]; [rewrite !lookup_insert_eq|rewrite !lookup_insert_ne by done].
    + intros [= <-]. split_and!; [done..|]. unfold kept; rewrite Hid; exact Hk.
    + rewrite Hs by done. intros Hx; destruct (Ho r pk0 Hx) as (? & ? & ?); done.
  - intros r pk0. destruct (decide (q = r)) as [->|]; [rewrite !lookup_insert_eq; by left|rewrite !lookup_insert_ne by done].
    rewrite Hs by done. apply Hr.
Qed.

(** A new packet. *)
Lemma alloc_ok own dpb q pk :
  heap_ok own dpb → heap dpb !! q = None → packet_wf pk → pk_buffer_id pk = NO_BUFFER →
  own !! q = None ∧ heap_ok (<[q := pk]> own) (write dpb q pk).
Proof using.
  intros [Hi Ho Hr] Hq Hw Hid. assert (Hn : own !! q = None).
  { destruct (own !! q) as [pk0|] eqn:E; [|done]. destruct (Ho q pk0 E) as [? _]; congruence. }
  split; [done|]. split; cbn.
  - destruct Hi as [Hl Hc Hsl Hp]. split; cbn; [done|done| |].
    + intros i p r Hb Hpk. destruct (Hsl i p r Hb Hpk) as (pk0 & Hr0 & Hid0).
      destruct (decide (q = r)) as [->|]; [congruence|rewrite lookup_insert_ne by done; eauto].
    + intros r pk0. destruct (decide (q = r)) as [->|]; [rewrite lookup_insert_eq|rewrite lookup_insert_ne by done; eauto].
      intros [= <-]; done.
  - intros r pk0. destruct (decide (q = r)) as [->|]; [rewrite !lookup_insert_eq|rewrite !lookup_insert_ne by done].
    + intros [= <-]. split_and!; [done..|by left].
    + intros Hx; destruct (Ho r pk0 Hx) as (? & ? & ?); done.
  - intros r pk0. destruct (decide (q = r)) as [->|]; [rewrite !lookup_insert_eq; by left|rewrite !lookup_insert_ne by done; apply Hr].
Qed.

(** Freeing a packet, or leaving it to its buffer. *)
Lemma destroy_owned own dpb q pk :
  heap_ok (<[q := pk]> own) dpb → own !! q = None → ∃ dpb', packet_destroy dpb now q = Some dpb' ∧ heap_ok own dpb'.
Proof using.
  intros [Hi Ho Hr] Hn. destruct (Ho q pk) as (Hq & Hw & Hk); [by rewrite lookup_insert_eq|].
  assert (Hs : ∀ r, q ≠ r → own !! r = <[q := pk]> own !! r) by (intros; by rewrite lookup_insert_ne).
  assert (Hne : ∀ r pk0, own !! r = Some pk0 → q ≠ r) by (intros r pk0 ? ->; congruence).
  unfold packet_destroy; rewrite Hq. destruct Hk as [Hk|Hk].
  - rewrite Hk; cbn. eexists; split; [done|]. split; cbn.
    + destruct Hi as [Hl Hc Hsl Hp]. split; cbn; [done|done| |].
      * intros i p r Hb Hpk. destruct (Hsl i p r Hb Hpk) as (pk0 & Hr0 & Hid0).
        destruct (decide (q = r)) as [->|]; [|rewrite lookup_delete_ne by done; eauto].
        assert (pk0 = pk) as -> by congruence. destruct (Hc i p Hb) as [Hg|[_ ?]]; [|congruence].
        exfalso. apply (make_id_no_buffer i (pb_cookie p)); [|done|congruence].
        apply lookup_lt_Some in Hb. by rewrite Hl in Hb.
      * intros r pk0 [Hqr Hx]%lookup_delete_Some. eauto.
    + intros r pk0 Hx. rewrite lookup_delete_ne by eauto. rewrite Hs in Hx by eauto. destruct (Ho r pk0 Hx) as (? & ? & ?); done.
    + intros r pk0 [Hqr Hx]%lookup_delete_Some. rewrite Hs by done. auto.
  - assert (Hid : pk_buffer_id pk ≠ NO_BUFFER ∨ pk_buffer_id pk = NO_BUFFER) by lia. 
    destruct Hid as [Hid|Hid].
    + replace (pk_buffer_id pk =? NO_BUFFER) with false by lia. rewrite Hk; cbn. eexists; split; [done|]. split; [done| |].
      * intros r pk0 Hx. rewrite Hs in Hx by eauto. auto.
      * intros r pk0 Hx. destruct (decide (q = r)) as [->|]; [right; congruence|]. rewrite Hs by done. auto.
    + (* excluded: an unbuffered identifier is not alive *)
      exfalso. unfold dp_buffers_is_alive in Hk. case_match eqn:Hb; [|done]. apply andb_true_iff in Hk as [Hc _].
      apply Z.eqb_eq in Hc. rewrite Hid in Hc. change (cookie_of NO_BUFFER) with (2 ^ 24 - 1) in Hc.
      destruct (bi_cookie _ Hi _ _ Hb) as [Hg|[Hg _]]; unfold good_cookie in *; lia.
Qed.

(** What a save does to the heap. *)
Lemma save_heap dpb q pk dpb' id :
  buf_inv dpb → heap dpb !! q = Some pk → kept dpb pk → dp_buffers_save dpb now q = Some (dpb', id) →
  (∃ id', heap dpb' !! q = Some (set_buffer_id pk id') ∧ (id' = NO_BUFFER ∨ id' = id)) ∧
  (∀ r, r ≠ q → heap dpb' !! r = heap dpb !! r ∨
     (heap dpb' !! r = None ∧ ∃ i p, buffers dpb !! i = Some p ∧ pb_pkt p = Some r ∧ pb_timeout p <= now)).
Proof using.
  intros Hi Hq Hk. unfold dp_buffers_save; rewrite Hq.
  destruct (Z.eqb_spec (pk_buffer_id pk) NO_BUFFER) as [Hno|Hno]; cbn [negb andb].
  2: { destruct Hk as [?|Ha]; [done|]. rewrite Ha. intros [= <- <-]. split; [|auto].
       exists (pk_buffer_id pk). rewrite Hq. split; [by destruct pk|auto]. }
  set (i := Z.to_nat _). cbn [buffers]. destruct (buffers dpb !! i) as [p|] eqn:Hp; [|done].
  assert (Hpk : set_buffer_id pk NO_BUFFER = pk) by (destruct pk; cbn in *; by subst).
  destruct (pb_pkt p) as [r|] eqn:Hr.
  - destruct (Z.ltb_spec now (pb_timeout p)) as [|Hge].
    { intros [= <- <-]; cbn. split; [|auto]. exists NO_BUFFER. by rewrite Hpk, Hq; auto. }
    cbn. destruct (bi_slot _ Hi _ _ _ Hp Hr) as (rk & Hrk & Hid). rewrite Hrk; cbn.
    assert (Hne : r ≠ q). { intros ->. destruct (slot_id _ _ _ _ Hi Hp Hr). congruence. }
    unfold packet_destroy; cbn. rewrite lookup_insert_eq; cbn. rewrite lookup_delete_ne, lookup_insert_ne, Hq by done.
    intros [= <- <-]; cbn. split.
    + eexists; rewrite lookup_insert_eq. eauto.
    + intros r' Hr'. rewrite lookup_insert_ne by done. destruct (decide (r = r')) as [<-|].
      * right. rewrite lookup_delete_eq. eauto 6.
      * left. by rewrite lookup_delete_ne, lookup_insert_ne.
  - cbn. rewrite Hq. intros [= <- <-]; cbn. split.
    + eexists; rewrite lookup_insert_eq. eauto.
    + intros r' Hr'. by rewrite lookup_insert_ne; auto.
Qed.

Lemma alive_held dpb q pk :
  buf_inv dpb → heap dpb !! q = Some pk → pk_buffer_id pk ≠ NO_BUFFER →
  dp_buffers_is_alive dpb now (pk_buffer_id pk) = true → ∃ t, held dpb (pk_buffer_id pk) q t ∧ now < t.
Proof using.
  intros Hi Hq Hno Ha. destruct (bi_pkt _ Hi _ _ Hq Hno) as (i & p & Hp & Hpq & Hid).
  pose proof (slot_lt _ _ _ Hi Hp). rewrite Hid, alive_slot in Ha by done. exists (pb_timeout p).
  unfold held. rewrite Hid, slot_make, cookie_make, Hp, <- Hpq by done. destruct p. split; [done|by apply Z.ltb_lt in Ha].
Qed.

Lemma held_alive dpb id q t : held dpb id q t → now < t → dp_buffers_is_alive dpb now id = true.
Proof using. unfold held, dp_buffers_is_alive. intros -> Ht; cbn. rewrite Z.eqb_refl. by apply Z.ltb_lt. Qed.

(** Saving an owned packet: its buffer shares it, an expired packet may go. *)
Lemma save_owned own dpb q pk :
  heap_ok (<[q := pk]> own) dpb →
  ∃ dpb' id id', dp_buffers_save dpb now q = Some (dpb', id) ∧ heap_ok (<[q := set_buffer_id pk id']> own) dpb'.
Proof using.
  intros [Hi Ho Hr]. destruct (Ho q pk) as (Hq & Hw & Hk); [by rewrite lookup_insert_eq|].
  destruct (save_ok dpb now q Hi) as (dpb' & id & Hs & [Hi' Hheld] & Hid); [by exists pk|].
  destruct (save_heap dpb q pk dpb' id Hi Hq Hk Hs) as [(id' & Hq' & Hid') Hrest].
  exists dpb', id, id'. split; [done|].
  assert (Hfar : ∀ r pk0, r ≠ q → own !! r = Some pk0 → heap dpb' !! r = Some pk0 ∧ packet_wf pk0 ∧ kept dpb' pk0).
  { intros r pk0 Hne Hx. destruct (Ho r pk0) as (Hh & Hw0 & Hk0); [by rewrite lookup_insert_ne|].
    assert (Hk' : kept dpb' pk0 ∧ ∀ i p, buffers dpb !! i = Some p → pb_pkt p = Some r → now < pb_timeout p).
    { split.
      - destruct Hk0 as [?|Ha]; [by left|]. destruct (decide (pk_buffer_id pk0 = NO_BUFFER)) as [|Hn]; [by left|right].
        destruct (alive_held dpb r pk0 Hi Hh Hn Ha) as (t & Hd & Ht). eapply held_alive; [by eapply Hheld|done].
      - intros i p Hp Hpr. destruct (bi_slot _ Hi _ _ _ Hp Hpr) as (pk1 & Hh1 & Hid1).
        assert (pk1 = pk0) as -> by congruence. destruct (slot_id _ _ _ _ Hi Hp Hpr) as [_ Hn].
        destruct Hk0 as [?|Ha]; [congruence|]. rewrite Hid1, alive_slot in Ha by done. by apply Z.ltb_lt. }
    destruct Hk' as [Hk' Hlate]. split_and!; [|done..].
    destruct (Hrest r Hne) as [->|(_ & i & p & Hp & Hpr & Ht)]; [done|]. specialize (Hlate i p Hp Hpr). lia. }
  split; [done| |].
  - intros r pk0. destruct (decide (q = r)) as [<-|]; [rewrite lookup_insert_eq|rewrite lookup_insert_ne by done; by apply Hfar].
    intros [= <-]. split_and!; [done|by destruct Hw; split|]. destruct Hid' as [->| ->]; [by left|].
    destruct (decide (id = NO_BUFFER)) as [->|Hn]; [by left|right]. destruct (Hid Hn) as (t & Hd & Ht). by eapply held_alive.
  - intros r pk0 Hx. destruct (decide (q = r)) as [<-|Hne]; [rewrite lookup_insert_eq; left; congruence|].
    rewrite lookup_insert_ne by done. destruct (Hrest r ltac:(done)) as [E|[E _]]; rewrite Hx in E; [|done].
    symmetry in E. destruct (Hr r pk0 E) as [Hl|]; [left|by right]. by rewrite lookup_insert_ne in Hl by done.
Qed.
End ownership.
