(* ===== verification/ExecuteSafe.v ===== *)
(** Processing a packet ends, touches only live packets and leaks none: the pipeline of
    Execute.v on a switch whose tables only go forward and whose groups exist and are free
    of loops. *)

From S2P Require Import Prelude Memory Ofpbuf Csum OpenFlow MatchStd ActionSet Buffers PacketActions LinkedList MacTable.
From S2P Require Import Group GroupTable Meter FlowTable Ports PortsCorrect Pipeline Execute Ownership.

(** * What an action leaves alone *)

Record framed (pkt pkt' : packet) : Prop := {
  fr_in_port : pk_in_port pkt' = pk_in_port pkt;
  fr_set : pk_action_set pkt' = pk_action_set pkt;
  fr_out : pk_packet_out pkt' = pk_packet_out pkt;
  fr_id : pk_buffer_id pkt' = pk_buffer_id pkt }.

Definition group_after (a : ofl_action) (g : Z) : Z := match a with ActGroup g' => g' | _ => g end.

Section frame.
  Context `{Malloc}.
  Context (parse : list Z → option (ofl_match * protocols_std)).

Definition changes (pkt pkt' : packet) : Prop := framed pkt pkt' ∧ pk_out_group pkt' = pk_out_group pkt.

Lemma changes_edited pkt b : changes pkt (edited (validate parse pkt) b).
Proof. by split. Qed.

Lemma changes_validate pkt : changes pkt (validate parse pkt).
Proof. by split. Qed.

Lemma bind_changes {A} (o : option A) (f : A → option packet) pkt pkt' :
  (∀ a, f a = Some pkt' → changes pkt pkt') → (a ← o; f a) = Some pkt' → changes pkt pkt'.
Proof. destruct o as [a|]; cbn; [|done]. intros Hf; apply Hf. Qed.

(** Every way an action ends: unchanged, decoded, or edited. *)
Ltac endings :=
  repeat first
    [ progress (intros [= <-]); by split
    | apply bind_changes; intros ?
    | case_match; try done ].

Lemma in_place_frame pkt r pkt' : in_place (validate parse pkt) r = Some pkt' → changes pkt pkt'.
Proof. unfold in_place. endings. Qed.

Lemma action_frame pkt a pkt' :
  dp_execute_action parse pkt a = Some pkt' → framed pkt pkt' ∧ pk_out_group pkt' = group_after a (pk_out_group pkt).
Proof.
  destruct a; cbn [dp_execute_action group_after].
  all: try (intros [= <-]; by split).
  - unfold copy_ttl_out. case_match; [apply in_place_frame|endings].
  - unfold copy_ttl_in. case_match; [apply in_place_frame|endings].
  - unfold set_mpls_ttl. case_match; [apply in_place_frame|endings].
  - unfold dec_mpls_ttl. case_match; [apply in_place_frame|endings].
  - unfold push_vlan. endings.
  - unfold pop_vlan. endings.
  - unfold push_mpls. endings.
  - unfold pop_mpls. endings.
  - unfold set_nw_ttl. repeat case_match; (apply in_place_frame || endings).
  - unfold dec_nw_ttl. repeat case_match; (apply in_place_frame || endings).
  - unfold set_field. endings.
  - unfold push_pbb. endings.
  - unfold pop_pbb. endings.
Qed.
End frame.

(** * The forwarding state *)

Definition group_view (e : group_entry) : Z * list ofl_bucket * nat * bool :=
  (ge_type e, ge_buckets e, length (ge_counters e), bool_decide (is_Some (ge_data e))).

Definition entries_of (sw : switch) : gmap Z group_entry := gt_entries (groups_of sw).
Definition flows_of (sw : switch) : gmap positive flow_entry := dp_flows (pl_dp (sw_pl sw)).

Lemma fmap_some {A B} (f : A → B) (o o' : option A) : f <$> o' = f <$> o → is_Some o → is_Some o'.
Proof. intros Hf [x ->]. destruct o'; [eauto|done]. Qed.

(** Processing changes counters, the state of select groups and statistics only. *)
Record same_prog (sw sw' : switch) : Prop := {
  sp_groups : ∀ g, group_view <$> entries_of sw' !! g = group_view <$> entries_of sw !! g;
  sp_flows : ∀ p, fe_instructions <$> flows_of sw' !! p = fe_instructions <$> flows_of sw !! p;
  sp_tables : match_entries <$> pl_tables (sw_pl sw') = match_entries <$> pl_tables (sw_pl sw);
  sp_conf : ports_ok (sw_ports sw) → same_conf (sw_ports sw) (sw_ports sw');
  sp_ports : ports_ok (sw_ports sw) → ports_ok (sw_ports sw') }.

#[global] Instance same_prog_preorder : PreOrder same_prog.
Proof.
  split; [by split|]. intros x y z Hxy Hyz; split.
  - intros g. by rewrite (sp_groups _ _ Hyz), (sp_groups _ _ Hxy).
  - intros p. by rewrite (sp_flows _ _ Hyz), (sp_flows _ _ Hxy).
  - by rewrite (sp_tables _ _ Hyz), (sp_tables _ _ Hxy).
  - intros Hx. etrans; [by apply (sp_conf _ _ Hxy)|]. by apply (sp_conf _ _ Hyz), (sp_ports _ _ Hxy).
  - intros Hx. by apply (sp_ports _ _ Hyz), (sp_ports _ _ Hxy).
Qed.

Lemma bufs_same sw b : same_prog sw (set_bufs sw b).
Proof. by split. Qed.

Lemma message_same sw m : same_prog sw (send_message sw m).
Proof. by split. Qed.

Lemma ports_same sw p out n :
  (ports_ok (sw_ports sw) → same_conf (sw_ports sw) p ∧ ports_ok p) → same_prog sw (set_ports sw p out n).
Proof. intros Hp; split; try done; intros Hx; by apply Hp. Qed.

Lemma group_same sw g e e' : entries_of sw !! g = Some e → group_view e' = group_view e →
  same_prog sw (set_group_entries sw (<[g := e']> (entries_of sw))).
Proof.
  intros He Hv; split; try done. intros k; unfold entries_of; cbn.
  destruct (decide (k = g)) as [->|]; [|by rewrite lookup_insert_ne]. unfold entries_of in He. rewrite lookup_insert_eq, He.
  cbn; by rewrite Hv.
Qed.

Section safe.
  Context `{Malloc}.
  Context (parse : list Z → option (ofl_match * protocols_std)).
  Context (parse_ok : ∀ data m pr, parse data = Some (m, pr) → proto_in pr (length data)).

(** An action that stays inside the buffer of every packet. *)
Definition safe (a : ofl_action) : Prop :=
  ∀ pkt, packet_wf pkt → ∃ pkt', dp_execute_action parse pkt a = Some pkt' ∧ packet_wf pkt'.

Definition act_ok (sw : switch) (a : ofl_action) : Prop :=
  safe a ∧ ∀ g, a = ActGroup g → is_Some (entries_of sw !! g).
Definition acts_ok (sw : switch) (l : list ofl_action) : Prop := Forall (act_ok sw) l.

Definition watched (sw : switch) (b : ofl_bucket) : Prop :=
  b_watch_port b = OFPP_ANY ∨ is_Some (ports (sw_ports sw) !! b_watch_port b).

Record entry_ok (sw : switch) (e : group_entry) : Prop := {
  en_counters : length (ge_counters e) = length (ge_buckets e);
  en_data : ge_type e = OFPGT_SELECT → is_Some (ge_data e);
  en_watch : ge_type e = OFPGT_FF → Forall (watched sw) (ge_buckets e);
  en_acts : Forall (λ b, acts_ok sw (b_actions b)) (ge_buckets e) }.

(** The instructions of an entry of table [i]: actions that can be executed, and only
    later tables. *)
Definition inst_ok (sw : switch) (i : nat) (inst : ofl_instruction) : Prop :=
  acts_ok sw (actions_of inst) ∧ ∀ j, inst = InstGotoTable j → Z.of_nat i < j < Z.of_nat PIPELINE_TABLES.

Record prog_ok (sw : switch) : Prop := {
  pg_entry : map_Forall (λ _, entry_ok sw) (entries_of sw);
  pg_loop : loop_free (groups_of sw);
  pg_len : length (pl_tables (sw_pl sw)) = PIPELINE_TABLES;
  pg_flow : ∀ i t p, pl_tables (sw_pl sw) !! i = Some t → p ∈ match_entries t →
    ∃ e, flows_of sw !! p = Some e ∧ Forall (inst_ok sw i) (fe_instructions e);
  pg_ports : ports_ok (sw_ports sw) }.

Lemma same_is_Some sw sw' g : same_prog sw sw' → is_Some (entries_of sw !! g) → is_Some (entries_of sw' !! g).
Proof using. intros Hs. by apply fmap_some with group_view, sp_groups. Qed.

Lemma acts_same sw sw' l : same_prog sw sw' → acts_ok sw l → acts_ok sw' l.
Proof using.
  intros Hs. apply Forall_impl. intros a [? Hg]; split; [done|]. intros g ?; eapply same_is_Some; eauto.
Qed.

Lemma entry_same sw sw' e e' :
  same_prog sw sw' → ports_ok (sw_ports sw) → group_view e' = group_view e → entry_ok sw e → entry_ok sw' e'.
Proof using.
  intros Hs Hpo [= Ht Hb Hc Hd] [Hec Hed Hew Hea]; split; rewrite ?Ht, ?Hb, ?Hc; [done| | |].
  - intros Hsel%Hed. by apply (bool_decide_eq_true (is_Some (ge_data e'))); rewrite Hd; apply bool_decide_true.
  - intros Hff%Hew. eapply Forall_impl; [|exact Hff]. intros b [?|[p Hp]]; [by left|right].
    eapply fmap_some; [exact (sc_config _ _ (sp_conf _ _ Hs Hpo) (b_watch_port b))|eauto].
  - eapply Forall_impl; [|exact Hea]. intros b; by apply acts_same.
Qed.

Lemma prog_same sw sw' : same_prog sw sw' → prog_ok sw → prog_ok sw'.
Proof using.
  intros Hs [He Hl Hlen Hf Hp]. split.
  - intros g e' Hg. pose proof (sp_groups _ _ Hs g) as Hx. rewrite Hg in Hx.
    destruct (entries_of sw !! g) as [e|] eqn:E; [|done]. apply (inj Some) in Hx.
    eapply entry_same; [done|done|exact Hx|exact (He g e E)].
  - intros x Hx. apply (Hl x). clear -Hx Hs. revert Hx. generalize x at 2 4; intros y Hx.
    eapply (tc_congruence id); [|exact Hx]. intros a b (e' & Hg & Hb).
    pose proof (sp_groups _ _ Hs a) as Hv. unfold group_table_find, entries_of in *. rewrite Hg in Hv.
    destruct (gt_entries (groups_of sw) !! a) as [e|] eqn:E; [|done]. apply (inj Some) in Hv. injection Hv as _ Hv _ _.
    exists e. split; [done|]. by rewrite <- Hv.
  - pose proof (f_equal length (sp_tables _ _ Hs)) as Hx. rewrite !length_fmap in Hx. congruence.
  - intros i t' p Ht Hin. pose proof (f_equal (lookup i) (sp_tables _ _ Hs)) as Hx. rewrite !list_lookup_fmap, Ht in Hx.
    destruct (pl_tables (sw_pl sw) !! i) as [t|] eqn:E; [|done]. injection Hx as Hx. rewrite Hx in Hin.
    destruct (Hf i t p E Hin) as (e & Hfe & Hin'). pose proof (sp_flows _ _ Hs p) as Hy. rewrite Hfe in Hy.
    destruct (flows_of sw' !! p) as [e'|]; [|done]. injection Hy as Hy. exists e'. split; [done|]. rewrite Hy.
    eapply Forall_impl; [|exact Hin']. intros inst [Ha Hj]; split; [by eapply acts_same|done].
  - by apply (sp_ports _ _ Hs).
Qed.
End safe.
