(* ===== verification/ExecuteRun.v ===== *)
(** Every function of Execute.v, from a packet's output to the whole pipeline, carried out
    on a well-formed switch: it ends, and who owns which packet is known at its end. *)

From S2P Require Import Prelude Memory Ofpbuf Csum OpenFlow MatchStd ActionSet Buffers PacketActions LinkedList MacTable.
From S2P Require Import Group GroupTable Meter FlowTable Ports PortsCorrect Pipeline Execute Ownership ExecuteSafe.

(** The entries of an action set come from the actions written to it. *)
Lemma written_from set actions :
  Forall (λ e, ae_action e ∈ (ae_action <$> set) ∨ ae_action e ∈ actions) (action_set_write_actions set actions).
Proof.
  unfold action_set_write_actions; revert set; induction actions as [|a l IH]; intros set; cbn [foldl].
  - apply list.Forall_forall; intros e He. left. by apply list_elem_of_fmap_2.
  - eapply Forall_impl; [|apply IH]. cbn. intros e [(x & Hx & Hin)%list_elem_of_fmap|He]; [|right; set_solver].
    apply elem_of_scan in Hin as [->|Hin]; [right; rewrite Hx; cbn; set_solver|left]. rewrite Hx. by apply list_elem_of_fmap_2.
Qed.

Lemma select_range guard buckets d :
  let '(d', b) := select_loop guard buckets d in b = -1 ∨ (Z.to_nat b < length buckets)%nat.
Proof.
  revert d; induction guard as [|guard IH]; intros d; cbn [select_loop]; [by left|].
  destruct (buckets !! _) as [b|] eqn:E; [|by left]. destruct (_ <=? _); [right; by eapply lookup_lt_Some|apply IH].
Qed.

Section run.
  Context `{Malloc}.
  Context (parse : list Z → option (ofl_match * protocols_std)).
  Context (parse_ok : ∀ data m pr, parse data = Some (m, pr) → proto_in pr (length data)).
  Context (w : world).
  Context (resubmit : switch → positive → outcome switch).

(** The neighbours are a list, and each row of the matrix is an order of the ports. *)
Definition world_ok (sw : switch) : Prop :=
  (∃ nes, repr true (w_neighbors w) nes) ∧
  ∀ k : nat, (k < 16)%nat → ∃ row, w_Matriz_bc w !! k = Some row ∧ row ≡ₚ seqZ 0 (ports_num (sw_ports sw)).

Record ready (own : gmap positive packet) (sw : switch) : Prop := {
  rd_heap : heap_ok (w_now w) own (sw_bufs sw);
  rd_prog : prog_ok parse sw;
  rd_world : world_ok sw }.

Lemma ready_same own own' sw sw' :
  ready own sw → same_prog sw sw' → heap_ok (w_now w) own' (sw_bufs sw') → ready own' sw'.
Proof using.
  intros [_ Hp [Hn Hw]] Hs Hh. split; [done|by eapply prog_same|]. split; [done|].
  by rewrite (sc_num _ _ (sp_conf _ _ Hs (pg_ports _ _ Hp))).
Qed.

Definition runs (own : gmap positive packet) (sw : switch) (r : outcome switch) : Prop :=
  ∃ sw', r = Done sw' ∧ ready own sw' ∧ same_prog sw sw'.

Lemma runs_trans own sw sw' r : same_prog sw sw' → runs own sw' r → runs own sw r.
Proof using. intros Hs (sw2 & -> & ? & ?). exists sw2. split_and!; [done..|by etrans]. Qed.

Lemma get_done own sw q pk : ready own sw → own !! q = Some pk → get sw q = Done pk ∧ packet_wf pk.
Proof using. intros Hr Hq. destruct (get_ok _ _ _ _ _ (rd_heap _ _ Hr) Hq) as [Hh ?]. unfold get. by rewrite Hh. Qed.

Lemma put_ready own sw q pk pk' :
  ready (<[q := pk]> own) sw → packet_wf pk' → pk_buffer_id pk' = pk_buffer_id pk → ready (<[q := pk']> own) (put sw q pk').
Proof using.
  intros Hr Hw Hid. eapply ready_same; [exact Hr|apply bufs_same|]. by eapply write_ok; [apply Hr|..].
Qed.

Lemma put_same sw q pk : same_prog sw (put sw q pk).
Proof using. apply bufs_same. Qed.

Lemma alloc_ready own sw pk :
  ready own sw → packet_wf pk → pk_buffer_id pk = NO_BUFFER →
  ∃ sw' q, alloc sw pk = (sw', q) ∧ own !! q = None ∧ ready (<[q := pk]> own) sw' ∧ same_prog sw sw'.
Proof using.
  intros Hr Hw Hid. unfold alloc. set (q := fresh _).
  assert (Hq : heap (sw_bufs sw) !! q = None) by (apply not_elem_of_dom, is_fresh).
  destruct (alloc_ok _ own _ q pk (rd_heap _ _ Hr) Hq Hw Hid) as [Hn Ho].
  eexists _, q. split_and!; [done..| |apply bufs_same]. eapply ready_same; [exact Hr|apply bufs_same|exact Ho].
Qed.

Lemma destroy_runs own sw q pk :
  ready (<[q := pk]> own) sw → own !! q = None → runs own sw (destroy (w_now w) sw q).
Proof using.
  intros Hr Hn. destruct (destroy_owned _ _ _ _ _ (rd_heap _ _ Hr) Hn) as (b & Hd & Ho).
  unfold destroy. rewrite Hd; cbn. eexists; split_and!; [done| |apply bufs_same].
  eapply ready_same; [exact Hr|apply bufs_same|exact Ho].
Qed.

(** * Output *)

(** The fields an output leaves to its caller. *)
Record like (pkt pkt' : packet) : Prop := {
  lk_set : pk_action_set pkt' = pk_action_set pkt;
  lk_out : pk_packet_out pkt' = pk_packet_out pkt;
  lk_group : pk_out_group pkt' = pk_out_group pkt;
  lk_port : pk_out_port pkt' = pk_out_port pkt }.

Lemma packet_in_runs own sw q pk reason table_id cookie max_len :
  ready (<[q := pk]> own) sw →
  ∃ sw' pk', packet_in_for parse w sw q reason table_id cookie max_len = Done sw' ∧
    ready (<[q := pk']> own) sw' ∧ same_prog sw sw' ∧ like pk pk'.
Proof using parse_ok.
  intros Hr. unfold packet_in_for. destruct (get_done _ _ q pk Hr (lookup_insert_eq _ _ _)) as [-> Hw]; cbn.
  assert (Hsave : ∃ sw1 pk1,
    (if w_miss_send_len w =? OFPCML_NO_BUFFER then mret sw
     else '(b, _) ← lift (dp_buffers_save (sw_bufs sw) (w_now w) q); mret (set_bufs sw b)) = Done sw1 ∧
    ready (<[q := pk1]> own) sw1 ∧ same_prog sw sw1 ∧ like pk pk1).
  { case_match; [by exists sw, pk|].
    destruct (save_owned _ _ _ _ _ (rd_heap _ _ Hr)) as (b & id & id' & Hs & Ho). rewrite Hs; cbn.
    exists (set_bufs sw b), (set_buffer_id pk id'). split_and!; [done| |apply bufs_same|done]. eapply ready_same; [exact Hr|apply bufs_same|exact Ho]. }
  destruct Hsave as (sw1 & pk1 & -> & Hr1 & Hs1 & Hl1); cbn.
  destruct (get_done _ _ q pk1 Hr1 (lookup_insert_eq _ _ _)) as [-> Hw1]; cbn.
  case_match. eexists _, (validate parse pk1). split_and!; [done| | |by destruct Hl1].
  - eapply (ready_same _ _ (put sw1 q (validate parse pk1))); [|apply message_same|].
    all: by eapply put_ready; [exact Hr1|apply validate_wf|].
  - etrans; [exact Hs1|]. etrans; [apply put_same|apply message_same].
Qed.

Lemma ports_output_same sw pk port queue : same_prog sw (ports_output w sw pk port queue).
Proof using.
  unfold ports_output. destruct (dp_ports_output _ _ _ _ _) as [p out] eqn:E. apply ports_same. intros Hp.
  pose proof (output_same (device w sw) _ (contents (pk_buffer pk)) port queue Hp) as H1.
  pose proof (output_ok (device w sw) _ (contents (pk_buffer pk)) port queue Hp) as H2. by rewrite E in H1, H2.
Qed.

Lemma ports_output_bufs sw pk port queue : sw_bufs (ports_output w sw pk port queue) = sw_bufs sw.
Proof using. unfold ports_output. by case_match. Qed.

Lemma output_runs own sw q pk port queue max_len cookie :
  ready (<[q := pk]> own) sw → pk_packet_out pk = false →
  ∃ sw' pk', dp_actions_output_port parse w resubmit sw q port queue max_len cookie = Done sw' ∧
    ready (<[q := pk']> own) sw' ∧ same_prog sw sw' ∧ like pk pk'.
Proof using parse_ok.
  intros Hr Hout. unfold dp_actions_output_port. destruct (get_done _ _ q pk Hr (lookup_insert_eq _ _ _)) as [-> Hw].
  cbn [mbind outcome_bind].
  rewrite Hout.
  assert (Hdev : ∀ sw', same_prog sw sw' → sw_bufs sw' = sw_bufs sw → ∃ sw2 pk', Done sw' = Done sw2 ∧
            ready (<[q := pk']> own) sw2 ∧ same_prog sw sw2 ∧ like pk pk').
  { intros sw' Hs Hb. exists sw', pk. split_and!; [done| |done|done]. eapply ready_same; [exact Hr|done|]. rewrite Hb. apply Hr. }
  pose proof (pg_ports _ _ (rd_prog _ _ Hr)) as Hpo.
  case_match; [by apply Hdev|]. case_match; [apply Hdev; [apply ports_output_same|apply ports_output_bufs]|].
  case_match; [by apply packet_in_runs|]. case_match.
  { pose proof (output_all_facts (device w sw) (sw_ports sw) (contents (pk_buffer pk)) (pk_in_port pk) (port =? OFPP_FLOOD) Hpo) as Hf.
    destruct (dp_ports_output_all _ _ _ _ _) as [p out]. destruct Hf as (? & ? & _). apply Hdev; [|done]. by apply ports_same. }
  case_match; [|case_match; [by apply Hdev|apply Hdev; [apply ports_output_same|apply ports_output_bufs]]].
  destruct (rd_world _ _ Hr) as [[nes Hnes] Hrows].
  destruct (Hrows (w_rand w (sw_rand sw) mod 16)%nat) as (row & Hrow & Hperm); [by apply Nat.mod_upper_bound|].
  destruct (random_facts (device w sw) (sw_ports sw) (w_id w) (w_neighbors w) nes (w_Matriz_bc w) _ row
              (contents (pk_buffer pk)) (pk_in_port pk) false Hpo Hnes Hrow Hperm) as (p & out & -> & Hp' & Hc & _); cbn.
  apply Hdev; [|done]. by apply ports_same.
Qed.

(** * Actions *)

Lemma act_runs own sw q pk a :
  ready (<[q := pk]> own) sw → safe parse a →
  ∃ sw' pk', act parse sw q a = Done sw' ∧ ready (<[q := pk']> own) sw' ∧ same_prog sw sw' ∧ framed pk pk' ∧
    pk_out_group pk' = group_after a (pk_out_group pk).
Proof using.
  intros Hr Ha. destruct (get_done _ _ q pk Hr (lookup_insert_eq _ _ _)) as [Hg Hw].
  destruct (Ha pk Hw) as (pk' & He & Hw'). destruct (action_frame _ _ _ _ He) as [Hf Hgr].
  unfold act. rewrite Hg; cbn. rewrite He; cbn. exists (put sw q pk'), pk'.
  split_and!; [done| |apply put_same|done|done]. eapply put_ready; [exact Hr|done|apply Hf].
Qed.

Lemma framed_trans p1 p2 p3 : framed p1 p2 → framed p2 p3 → framed p1 p3.
Proof using. intros [] []; split; congruence. Qed.

Lemma acts_runs own sw q pk l :
  ready (<[q := pk]> own) sw → Forall (safe parse) l →
  ∃ sw' pk', acts parse sw q l = Done sw' ∧ ready (<[q := pk']> own) sw' ∧ same_prog sw sw' ∧ framed pk pk' ∧
    (pk_out_group pk' = pk_out_group pk ∨ ActGroup (pk_out_group pk') ∈ l).
Proof using.
  revert sw pk; induction l as [|a l IH]; intros sw pk Hr Hl; cbn [acts].
  { exists sw, pk. split_and!; try done. by left. }
  apply list.Forall_cons in Hl as [Ha Hl]. destruct (act_runs own sw q pk a Hr Ha) as (sw1 & pk1 & -> & Hr1 & Hs1 & Hf1 & Hg1); cbn.
  destruct (IH sw1 pk1 Hr1 Hl) as (sw2 & pk2 & -> & Hr2 & Hs2 & Hf2 & Hg2).
  exists sw2, pk2. split_and!; [done|done|by etrans|by eapply framed_trans|].
  destruct Hg2 as [->|?]; [|right; by apply list_elem_of_further]. rewrite Hg1.
  destruct a; cbn; (by left) || (right; apply list_elem_of_here).
Qed.

(** * Groups *)

(** [rec] executes group [g], on states that differ from [sw0] in counters only. *)
Definition group_spec (sw0 : switch) (rec : switch → positive → Z → outcome switch) (g : Z) : Prop :=
  ∀ own sw q pk, same_prog sw0 sw → ready (<[q := pk]> own) sw → own !! q = None → pk_packet_out pk = false →
    pk_action_set pk = [] → pk_out_group pk = OFPG_ANY → is_Some (entries_of sw !! g) → runs own sw (rec sw q g).

Lemma acts_safe sw l : acts_ok parse sw l → Forall (safe parse) l.
Proof using. apply Forall_impl. by intros a []. Qed.

Lemma set_execute_runs sw0 rec own sw q pk cookie :
  same_prog sw0 sw → ready (<[q := pk]> own) sw → own !! q = None → pk_packet_out pk = false → pk_out_group pk = OFPG_ANY →
  acts_ok parse sw (ae_action <$> pk_action_set pk) →
  (∀ g, ActGroup g ∈ (ae_action <$> pk_action_set pk) → group_spec sw0 rec g) →
  runs own sw (action_set_execute parse w resubmit rec sw q cookie).
Proof using parse_ok.
  intros H0 Hr Hn Hout Hgr Ha Hrec. unfold action_set_execute.
  destruct (get_done _ _ q pk Hr (lookup_insert_eq _ _ _)) as [-> Hw]; cbn [mbind outcome_bind].
  destruct (acts_runs own sw q pk _ Hr (acts_safe _ _ Ha)) as (sw1 & pk1 & -> & Hr1 & Hs1 & Hf1 & Hg1); cbn [mbind outcome_bind].
  destruct (get_done _ _ q pk1 Hr1 (lookup_insert_eq _ _ _)) as [-> Hw1]; cbn [mbind outcome_bind].
  assert (Hput : ∀ pk', packet_wf pk' → pk_buffer_id pk' = pk_buffer_id pk1 → ready (<[q := pk']> own) (put sw1 q pk'))
    by (intros; by eapply put_ready).
  assert (Hsp : ∀ pk', same_prog sw (put sw1 q pk')) by (intros; etrans; [exact Hs1|apply put_same]).
  cbn [pk_out_group pk_out_port set_action_set]. case_match eqn:Eg; [|case_match].
  - destruct Hg1 as [Hg1|Hg1]; [rewrite Hg1, Hgr in Eg; by rewrite Z.eqb_refl in Eg|].
    eapply runs_trans; [apply Hsp|]. eapply (Hrec _ Hg1); [by etrans|apply Hput; [by destruct Hw1|done]|done| |done|done|].
    + cbn. by rewrite (fr_out _ _ Hf1).
    + eapply same_is_Some; [apply Hsp|]. unfold acts_ok in Ha. rewrite list.Forall_forall in Ha. by eapply (Ha _ Hg1).
  - edestruct (output_runs own (put sw1 q (reset_port (set_action_set pk1 (action_set_clear_actions (pk_action_set pk1)))))) as
      (sw2 & pk2 & E & Hr2 & Hs2 & _); [apply Hput; [by destruct Hw1|done]|cbn; by rewrite (fr_out _ _ Hf1)|].
    rewrite E; cbn [mbind outcome_bind]. eapply runs_trans; [|by eapply destroy_runs]. etrans; [apply Hsp|exact Hs2].
  - eapply runs_trans; [apply Hsp|]. eapply destroy_runs; [apply Hput; [by destruct Hw1|done]|done].
Qed.

Lemma bucket_runs sw0 rec own sw q pk gid e b bucket :
  same_prog sw0 sw → ready (<[q := pk]> own) sw → own !! q = None → pk_packet_out pk = false →
  pk_action_set pk = [] → pk_out_group pk = OFPG_ANY →
  entries_of sw !! gid = Some e → ge_buckets e !! b = Some bucket →
  (∀ g, ActGroup g ∈ b_actions bucket → group_spec sw0 rec g) →
  runs own sw (execute_bucket parse w resubmit rec sw q gid b).
Proof using parse_ok.
  intros H0 Hr Hn Hout Hset Hgr He Hb Hrec. pose proof (pg_entry _ _ (rd_prog _ _ Hr) _ _ He) as Hen.
  unfold execute_bucket, group_table_find, entries_of in *.
  destruct (get_done _ _ q pk Hr (lookup_insert_eq _ _ _)) as [-> Hw]; cbn [mbind outcome_bind].
  rewrite He; cbn [lift mbind outcome_bind]. rewrite Hb; cbn [lift mbind outcome_bind].
  destruct (lookup_lt_is_Some_2 (ge_counters e) b) as [c Hc].
  { rewrite (en_counters _ _ _ Hen). by eapply lookup_lt_Some. }
  rewrite Hc; cbn [lift mbind outcome_bind]. rewrite Hset.
  set (pk1 := set_action_set pk _). set (sw1 := put sw q pk1).
  assert (Hr1 : ready (<[q := pk1]> own) sw1) by (eapply put_ready; [exact Hr|by destruct Hw|done]).
  set (sw2 := set_group_entries sw1 _).
  assert (Hs2 : same_prog sw1 sw2).
  { eapply group_same; [exact He|]. unfold group_view; cbn. by rewrite length_alter. }
  assert (Hs : same_prog sw sw2) by (etrans; [apply put_same|exact Hs2]).
  assert (Hfrom : Forall (λ a, a ∈ b_actions bucket) (ae_action <$> pk_action_set pk1)).
  { apply list.Forall_fmap. eapply Forall_impl; [|apply (written_from [] (b_actions bucket))].
    intros en [?%not_elem_of_nil|?]; done. }
  eapply runs_trans; [exact Hs|]. eapply (set_execute_runs sw0); [by etrans|eapply ready_same; [exact Hr1|done|apply Hr1]|done..| |].
  - eapply acts_same; [exact Hs|]. pose proof (en_acts _ _ _ Hen) as Hea. rewrite list.Forall_forall in Hea.
    specialize (Hea bucket (list_elem_of_lookup_2 _ _ _ Hb)). unfold acts_ok in *. rewrite list.Forall_forall in Hea, Hfrom |- *. auto.
  - intros g Hg. apply Hrec. rewrite list.Forall_forall in Hfrom. auto.
Qed.

Lemma same_entry sw sw' g e :
  same_prog sw sw' → entries_of sw !! g = Some e → ∃ e', entries_of sw' !! g = Some e' ∧ group_view e' = group_view e.
Proof using.
  intros Hs He. pose proof (sp_groups _ _ Hs g) as Hg. rewrite He in Hg.
  destruct (entries_of sw' !! g) as [e'|]; [|done]. apply (inj Some) in Hg. eauto.
Qed.

(** The groups that the entry's buckets name can be executed. *)
Definition buckets_rec (sw0 : switch) (rec : switch → positive → Z → outcome switch) (e : group_entry) : Prop :=
  ∀ b bucket g, ge_buckets e !! b = Some bucket → ActGroup g ∈ b_actions bucket → group_spec sw0 rec g.

Lemma all_loop_runs sw0 rec own sw q pk gid e bs :
  same_prog sw0 sw → ready (<[q := pk]> own) sw → own !! q = None → pk_packet_out pk = false →
  entries_of sw !! gid = Some e → Forall (λ b, (b < length (ge_buckets e))%nat) bs → buckets_rec sw0 rec e →
  runs own sw (execute_all_loop parse w resubmit rec sw q gid bs).
Proof using parse_ok.
  intros H0 Hr Hn Hout He Hbs Hrec. revert sw e H0 Hr He Hbs Hrec.
  induction bs as [|b bs IH]; intros sw e H0 Hr He Hbs Hrec; cbn [execute_all_loop]; [by eapply destroy_runs|].
  apply list.Forall_cons in Hbs as [Hb Hbs].
  destruct (get_done _ _ q pk Hr (lookup_insert_eq _ _ _)) as [-> Hw]; cbn [mbind outcome_bind].
  destruct (clone_wf parse parse_ok pk Hw) as (c & Hc & Hcw & Hcid & Hcs & Hcg & Hcp & Hco). rewrite Hc; cbn [lift mbind outcome_bind].
  destruct (alloc_ready _ sw c Hr Hcw Hcid) as (sw1 & q' & -> & Hn' & Hr1 & Hs1).
  destruct (lookup_lt_is_Some_2 _ _ Hb) as [bucket Hbu]. destruct (same_entry _ _ _ _ Hs1 He) as (e1 & He1 & [= Ht1 Hb1 _ _]).
  destruct (bucket_runs sw0 rec (<[q := pk]> own) sw1 q' c gid e1 b bucket) as (sw2 & -> & Hr2 & Hs2);
    [by etrans|done..|congruence|done|done|done|by rewrite Hb1|intros g Hg; exact (Hrec b bucket g Hbu Hg)|].
  cbn [mbind outcome_bind]. eapply runs_trans; [by etrans|].
  destruct (same_entry _ _ _ _ Hs2 He1) as (e2 & He2 & [= Ht2 Hb2 _ _]).
  eapply IH; [by etrans; [|etrans]|done|exact He2|by rewrite Hb2, Hb1|]. unfold buckets_rec. by rewrite Hb2, Hb1.
Qed.

Lemma ff_runs sw bs i :
  ports_ok (sw_ports sw) → Forall (watched sw) bs → 0 <= i →
  ∃ b, select_from_ff_group (port_conf sw) bs i = Some b ∧ (b = -1 ∨ (i <= b ∧ (Z.to_nat (b - i) < length bs)%nat)).
Proof using.
  intros Hpo Hw; revert i; induction bs as [|b bs IH]; intros i Hi; cbn [select_from_ff_group]; [by eexists; eauto|].
  apply list.Forall_cons in Hw as [Hb Hw]. 
  assert (Halive : is_Some (bucket_is_alive (port_conf sw) b)).
  { unfold bucket_is_alive. case_match eqn:E; [by eexists|]. destruct Hb as [Hb|[p Hp]]; [lia|].
    unfold port_conf. rewrite lookup_exact, Hp by done. cbn. destruct (po_netdev _ _ (po_at _ _ _ Hpo Hp)) as [ea ->]. by eexists. }
  destruct Halive as [[] ->]; [exists i; split; [done|right; cbn; lia]|].
  destruct (IH Hw (i + 1)) as (r & -> & Hr); [lia|]. exists r. split; [done|]. destruct Hr as [|[? ?]]; [by left|right]. cbn; lia.
Qed.

Lemma entry_runs sw0 rec own sw q pk gid e :
  same_prog sw0 sw → ready (<[q := pk]> own) sw → own !! q = None → pk_packet_out pk = false →
  pk_action_set pk = [] → pk_out_group pk = OFPG_ANY →
  entries_of sw !! gid = Some e → buckets_rec sw0 rec e →
  runs own sw (group_entry_execute parse w resubmit rec sw q gid e).
Proof using parse_ok.
  intros H0 Hr Hn Hout Hset Hgr He Hrec. pose proof (pg_entry _ _ (rd_prog _ _ Hr) _ _ He) as Hen.
  assert (Hdrop : runs own sw (destroy (w_now w) sw q)) by (by eapply destroy_runs).
  assert (Hbucket : ∀ b : nat, (b < length (ge_buckets e))%nat → runs own sw (execute_bucket parse w resubmit rec sw q gid b)).
  { intros b [bucket Hb]%lookup_lt_is_Some_2. eapply bucket_runs; [done..|exact He|exact Hb|]. intros g Hg. exact (Hrec b bucket g Hb Hg). }
  unfold group_entry_execute. case_match eqn:Ha; [|case_match eqn:Hsel; [|case_match eqn:Hi; [|case_match eqn:Hff; [|done]]]].
  - eapply all_loop_runs; [done..|exact He| |done]. apply list.Forall_forall. intros b Hb%elem_of_seq. lia.
  - unfold execute_select. destruct (ge_buckets e) as [|b0 bs] eqn:Eb; [done|].
    destruct (en_data _ _ _ Hen) as [d Hd]; [lia|]. rewrite Hd; cbn [lift mbind outcome_bind].
    pose proof (select_range (length (b0 :: bs)) (b0 :: bs) d) as Hsr. unfold select_from_select_group.
    destruct (select_loop _ _ _) as [d' b]. set (sw1 := set_group_entries sw _).
    assert (Hs1 : same_prog sw sw1).
    { eapply group_same; [exact He|]. unfold group_view; cbn. by rewrite Hd, !bool_decide_true by eauto. }
    assert (Hr1 : ready (<[q := pk]> own) sw1) by (eapply ready_same; [exact Hr|done|apply Hr]).
    eapply runs_trans; [exact Hs1|]. case_match; [by eapply destroy_runs|].
    destruct Hsr as [|Hlt]; [lia|]. destruct (lookup_lt_is_Some_2 _ _ Hlt) as [bucket Hb].
    eapply (bucket_runs sw0 rec own sw1 q pk gid (set_wrr e d') _ bucket); [by etrans|done..| | |].
    + unfold sw1, entries_of; cbn. by rewrite lookup_insert_eq.
    + cbn. by rewrite Eb.
    + intros g Hg. eapply Hrec; [|exact Hg]. by rewrite Eb.
  - unfold execute_indirect. destruct (ge_buckets e); [done|]. apply Hbucket. cbn; lia.
  - unfold execute_ff. destruct (ff_runs sw (ge_buckets e) 0) as (b & -> & Hb);
      [apply (pg_ports _ _ (rd_prog _ _ Hr))|apply (en_watch _ _ _ Hen); lia|done|].
    cbn [lift mbind outcome_bind]. case_match; [done|]. destruct Hb as [|[? Hb]]; [lia|]. apply Hbucket. by rewrite Z.sub_0_r in Hb.
Qed.

(** Fuel: one unit for each group that is not among those being executed. *)
Lemma group_runs sw0 n g anc :
  prog_ok parse sw0 → NoDup anc → Forall (λ a, is_Some (entries_of sw0 !! a) ∧ tc (edge (groups_of sw0)) a g) anc →
  is_Some (entries_of sw0 !! g) → (size (entries_of sw0) <= length anc + n)%nat →
  group_spec sw0 (group_table_execute parse w resubmit n) g.
Proof using parse_ok.
  intros Hp0. revert g anc; induction n as [|n IH]; intros g anc Hnd Hanc Hg Hsz own sw q pk H0 Hr Hn Hout Hset Hgr He.
  - exfalso. assert (Hin : g ∉ anc).
    { intros Ha. rewrite list.Forall_forall in Hanc. destruct (Hanc g Ha) as [_ Hc]. by eapply (pg_loop _ _ Hp0). }
    assert (Hsub : (list_to_set (g :: anc) : gset Z) ⊆ dom (entries_of sw0)).
    { intros x Hx%elem_of_list_to_set. apply elem_of_dom. rewrite list.Forall_forall in Hanc.
      apply elem_of_cons in Hx as [->|Hx]; [done|by apply Hanc]. }
    apply subseteq_size in Hsub. rewrite size_list_to_set, size_dom in Hsub by (by constructor). cbn in Hsub. lia.
  - cbn [group_table_execute]. unfold group_table_find. change (gt_entries (groups_of sw)) with (entries_of sw).
    destruct He as [e He]. rewrite He. eapply entry_runs; [done..|exact He|].
    intros b bucket g' Hb Hg'.
    destruct (entries_of sw0 !! g) as [e0|] eqn:He0; [|by destruct Hg].
    destruct (same_entry _ _ _ _ H0 He0) as (e1 & He1 & [= Ht1 Hb1 _ _]). assert (e1 = e) as -> by congruence.
    assert (Hedge : edge (groups_of sw0) g g').
    { exists e0. split; [exact He0|]. apply list_elem_of_bind. exists bucket. split.
      - apply list_elem_of_omap. by exists (ActGroup g').
      - rewrite <- Hb1. by eapply list_elem_of_lookup_2. }
    apply (IH g' (g :: anc)).
    + constructor; [|done]. intros Ha. rewrite list.Forall_forall in Hanc. destruct (Hanc g Ha) as [_ Hc]. by eapply (pg_loop _ _ Hp0).
    + constructor; [split; [by eexists|by apply tc_once]|]. eapply Forall_impl; [|exact Hanc]. intros a [? ?]; split; [done|].
      by eapply tc_r.
    + pose proof (en_acts _ _ _ (pg_entry _ _ Hp0 _ _ He0)) as Hea. rewrite list.Forall_forall in Hea.
      specialize (Hea bucket). rewrite <- Hb1 in Hea. specialize (Hea (list_elem_of_lookup_2 _ _ _ Hb)).
      unfold acts_ok in Hea. rewrite list.Forall_forall in Hea. by apply (Hea _ Hg').
    + cbn; lia.
Qed.

(** * Meters *)

Lemma ip_header_runs pkt : packet_wf pkt → ph_valid (pk_handle_std pkt) = true → ∃ h, ip_header_of pkt = Done h.
Proof using.
  intros [Hb Hp] Hv. specialize (Hp Hv). unfold ofpbuf_wf in Hb. unfold ip_header_of, ptr.
  destruct (pr_ipv4 _) as [k|] eqn:E4; cbn [fmap option_fmap option_map].
  - pose proof (in_ipv4 _ _ Hp k E4). unfold o_ip_tos, o_ip_csum.
    destruct (ld_in 1 (ob_mem (pk_buffer pkt)) (ob_data (pk_buffer pkt) + k)) as [? ->]; [lia|].
    destruct (ld_in 1 (ob_mem (pk_buffer pkt)) (ob_data (pk_buffer pkt) + k + 1)) as [? ->]; [lia|].
    destruct (ld_in 2 (ob_mem (pk_buffer pkt)) (ob_data (pk_buffer pkt) + k + 10)) as [? ->]; [lia|]. by eexists.
  - destruct (pr_ipv6 _) as [k|] eqn:E6; cbn [fmap option_fmap option_map]; [|by eexists].
    pose proof (in_ipv6 _ _ Hp k E6). destruct (ld_in 4 (ob_mem (pk_buffer pkt)) (ob_data (pk_buffer pkt) + k)) as [? ->]; [lia|].
    by eexists.
Qed.

Lemma write_header_runs pkt h :
  packet_wf pkt → ph_valid (pk_handle_std pkt) = true →
  ∃ mem, write_ip_header pkt h = Done (set_buffer pkt (set_mem (pk_buffer pkt) mem)) ∧
    length mem = length (ob_mem (pk_buffer pkt)).
Proof using.
  intros [Hb Hp] Hv. specialize (Hp Hv). unfold ofpbuf_wf in Hb. unfold write_ip_header, ptr.
  assert (Hsame : ∃ mem, mret pkt = Done (set_buffer pkt (set_mem (pk_buffer pkt) mem)) ∧ length mem = length (ob_mem (pk_buffer pkt))).
  { exists (ob_mem (pk_buffer pkt)). split; [|done]. by destruct pkt as [[]]. }
  destruct h; [done| |].
  - destruct (pr_ipv4 _) as [k|] eqn:E4; cbn [fmap option_fmap option_map]; [|done].
    pose proof (in_ipv4 _ _ Hp k E4). unfold o_ip_tos, o_ip_csum.
    destruct (st_in 2 (ob_mem (pk_buffer pkt)) (ob_data (pk_buffer pkt) + k + 10) ip_csum) as (m1 & -> & Hm1); [lia|]; cbn.
    destruct (st_in 1 m1 (ob_data (pk_buffer pkt) + k + 1) ip_tos) as (m2 & -> & Hm2); [lia|]; cbn. exists m2. split; [done|congruence].
  - destruct (pr_ipv6 (ph_proto (pk_handle_std pkt))) as [k|] eqn:E6;
      [|by destruct (pr_ipv4 (ph_proto (pk_handle_std pkt)))].
    pose proof (in_ipv6 _ _ Hp k E6).
    destruct (st_in 4 (ob_mem (pk_buffer pkt)) (ob_data (pk_buffer pkt) + k) (bswap32 ipv6_ver_tc_fl)) as (m1 & Hst & Hm1); [lia|].
    exists m1. destruct (pr_ipv4 (ph_proto (pk_handle_std pkt))); cbn; by rewrite Hst.
Qed.

Lemma meter_same sw m : same_prog sw (set_pl sw (Pipeline (set_meters (pl_dp (sw_pl sw)) m) (pl_tables (sw_pl sw)))).
Proof using. by split. Qed.

(** * Instructions *)

Section entry.
  Context (sw0 : switch) (g : nat).
  Context (prog0 : prog_ok parse sw0).
  Context (fuel_ok : (size (entries_of sw0) <= g)%nat).

Lemma group_fuel gid : is_Some (entries_of sw0 !! gid) → group_spec sw0 (group_table_execute parse w resubmit g) gid.
Proof using parse_ok prog0 fuel_ok. intros Hg. apply (group_runs sw0 g gid []); [done|constructor|constructor|done|done]. Qed.

Lemma same_back sw gid : same_prog sw0 sw → is_Some (entries_of sw !! gid) → is_Some (entries_of sw0 !! gid).
Proof using. intros Hs. by apply fmap_some with group_view; symmetry; apply sp_groups. Qed.

(** A packet on its way through the tables. *)
Record walks (own : gmap positive packet) (sw : switch) (q : positive) (pk : packet) : Prop := {
  wk_same : same_prog sw0 sw;
  wk_ready : ready (<[q := pk]> own) sw;
  wk_out : pk_packet_out pk = false;
  wk_group : pk_out_group pk = OFPG_ANY;
  wk_set : acts_ok parse sw (ae_action <$> pk_action_set pk) }.

Lemma walks_step own sw sw' q pk pk' :
  walks own sw q pk → same_prog sw sw' → ready (<[q := pk']> own) sw' → pk_packet_out pk' = pk_packet_out pk →
  pk_out_group pk' = OFPG_ANY → acts_ok parse sw (ae_action <$> pk_action_set pk') → walks own sw' q pk'.
Proof using. intros [] Hs Hr Ho Hg Ha. split; [by etrans|done|congruence|done|by eapply acts_same]. Qed.

Lemma walks_put own sw q pk pk' :
  walks own sw q pk → packet_wf pk' → pk_buffer_id pk' = pk_buffer_id pk → pk_packet_out pk' = pk_packet_out pk →
  pk_out_group pk' = OFPG_ANY → acts_ok parse sw (ae_action <$> pk_action_set pk') → walks own (put sw q pk') q pk'.
Proof using. intros Hw ?????. eapply walks_step; [done|apply put_same|by eapply put_ready; [apply Hw|..]|done..]. Qed.

Lemma list_runs own sw q pk l cookie :
  walks own sw q pk → acts_ok parse sw l →
  ∃ sw' pk', dp_execute_action_list parse w resubmit g sw q l cookie = Done sw' ∧ walks own sw' q pk' ∧ same_prog sw sw'.
Proof using parse_ok prog0 fuel_ok.
  revert sw pk; induction l as [|a l IH]; intros sw pk Hw Hl; cbn [dp_execute_action_list]; [by exists sw, pk|].
  apply list.Forall_cons in Hl as [[Ha Hag] Hl].
  destruct (act_runs own sw q pk a (wk_ready _ _ _ _ Hw) Ha) as (sw1 & pk1 & -> & Hr1 & Hs1 & Hf1 & Hg1); cbn [mbind outcome_bind].
  destruct (get_done _ _ q pk1 Hr1 (lookup_insert_eq _ _ _)) as [-> Hw1]; cbn [mbind outcome_bind].
  assert (Hstep : ∃ sw2 pk2,
    (if negb (pk_out_group pk1 =? OFPG_ANY) then
       clone ← lift (packet_clone parse (reset_group pk1));
       let '(sw, copy) := alloc (put sw1 q (reset_group pk1)) clone in
       group_table_execute parse w resubmit g sw copy (pk_out_group pk1)
     else if negb (pk_out_port pk1 =? OFPP_ANY) then
       dp_actions_output_port parse w resubmit (put sw1 q (reset_port pk1)) q
         (pk_out_port pk1) (pk_out_queue pk1) (pk_out_port_max_len pk1) cookie
     else mret sw1) = Done sw2 ∧ walks own sw2 q pk2 ∧ same_prog sw sw2).
  { assert (Hset1 : acts_ok parse sw (ae_action <$> pk_action_set pk1)) by (rewrite (fr_set _ _ Hf1); apply Hw).
    case_match eqn:Eg; [|case_match].
    - assert (Hput : walks own (put sw1 q (reset_group pk1)) q (reset_group pk1)).
      { eapply walks_step; [exact Hw|etrans; [exact Hs1|apply put_same]| |cbn; apply Hf1|done|done].
        eapply put_ready; [exact Hr1|by destruct Hw1|done]. }
      assert (Hrw : packet_wf (reset_group pk1)) by (by destruct Hw1).
      destruct (clone_wf parse parse_ok _ Hrw) as (c & -> & Hcw & Hcid & Hcs & Hcg & Hcp & Hco); cbn [lift mbind outcome_bind].
      destruct (alloc_ready _ _ c (wk_ready _ _ _ _ Hput) Hcw Hcid) as (sw2 & q' & -> & Hn' & Hr2 & Hs2).
      assert (Hex : is_Some (entries_of sw !! pk_out_group pk1)).
      { rewrite Hg1, (wk_group _ _ _ _ Hw) in Eg |- *. destruct a; cbn in *; try done. by apply Hag. }
      assert (Hs02 : same_prog sw0 sw2) by (etrans; [apply Hput|exact Hs2]).
      assert (Hs : same_prog sw sw2) by (etrans; [exact Hs1|etrans; [apply put_same|exact Hs2]]).
      edestruct (group_fuel (pk_out_group pk1)) as (sw3 & E3 & Hr3 & Hs3);
        [by eapply same_back; [apply Hw|]|exact Hs02|exact Hr2|done|..].
      { rewrite Hco. cbn. rewrite (fr_out _ _ Hf1). apply Hw. }
      { done. } { done. } { by eapply same_is_Some. }
      exists sw3, (reset_group pk1). split_and!; [exact E3| |by etrans].
      eapply walks_step; [exact Hput|by etrans|exact Hr3|done|done|]. apply Hput.
    - edestruct (output_runs own (put sw1 q (reset_port pk1))) as (sw2 & pk2 & E & Hr2 & Hs2 & Hlk);
        [eapply put_ready; [exact Hr1|by destruct Hw1|done]|cbn; rewrite (fr_out _ _ Hf1); apply Hw|].
      exists sw2, pk2. rewrite E. assert (Hs : same_prog sw sw2) by (etrans; [exact Hs1|etrans; [apply put_same|exact Hs2]]).
      split_and!; [done| |done]. eapply walks_step; [exact Hw|done|done| | |].
      + rewrite (lk_out _ _ Hlk). cbn. apply Hf1.
      + rewrite (lk_group _ _ Hlk). cbn. by apply negb_false_iff, Z.eqb_eq in Eg.
      + by rewrite (lk_set _ _ Hlk).
    - exists sw1, pk1. split_and!; [done| |done]. eapply walks_step; [exact Hw|done|done|apply Hf1| |done].
      by apply negb_false_iff, Z.eqb_eq in Eg. }
  destruct Hstep as (sw2 & pk2 & E & Hw2 & Hs2). cbn zeta. rewrite E; cbn [mbind outcome_bind].
  destruct (IH sw2 pk2 Hw2) as (sw3 & pk3 & -> & Hw3 & Hs3); [by eapply acts_same|].
  exists sw3, pk3. split_and!; [done..|by etrans].
Qed.

Lemma meter_runs own sw q pk id :
  walks own sw q pk → own !! q = None →
  ∃ sw' r, apply_meter parse w sw q id = Done (sw', r) ∧ same_prog sw sw' ∧
    match r with None => ready own sw' | Some q' => q' = q ∧ ∃ pk', walks own sw' q pk' end.
Proof using parse_ok.
  intros Hw Hn. unfold apply_meter. destruct (meter_table_find _ id) as [me|]; [|by exists sw, (Some q); split_and!; [..|exists pk]].
  destruct (get_done _ _ q pk (wk_ready _ _ _ _ Hw) (lookup_insert_eq _ _ _)) as [-> Hwf]; cbn [mbind outcome_bind].
  set (rm := remarks me _). set (pk1 := if rm then validate parse pk else pk).
  assert (Hpk1 : (if rm then mret (validate parse pk) else mret pk) = Done pk1) by (by destruct rm).
  rewrite Hpk1; cbn [mbind outcome_bind].
  assert (Hw1 : packet_wf pk1) by (unfold pk1; destruct rm; [by apply validate_wf|done]).
  assert (Hk1 : like pk pk1 ∧ pk_buffer_id pk1 = pk_buffer_id pk) by (unfold pk1; by destruct rm).
  destruct Hk1 as [Hlk Hid].
  assert (Hh : ∃ h, (if rm && ph_valid (pk_handle_std pk1) then ip_header_of pk1 else mret NoIp) = Done h).
  { clearbody pk1. destruct rm; cbn [andb]; [|by eexists]. destruct (ph_valid (pk_handle_std pk1)) eqn:Hv; [by apply ip_header_runs|by eexists]. }
  destruct Hh as [h ->]; cbn [mbind outcome_bind].
  destruct (meter_table_apply _ _ _ _ _) as [meters r]. set (sw1 := set_pl sw _).
  assert (Hs1 : same_prog sw sw1) by apply meter_same.
  assert (Hr1 : ready (<[q := pk]> own) sw1) by (eapply ready_same; [apply Hw|done|apply Hw]).
  destruct r as [h'|].
  - assert (Hpk2 : ∃ pk2, (if rm && ph_valid (pk_handle_std pk1) then
        pkt ← write_ip_header pk1 h'; mret (set_handle pkt (set_valid (pk_handle_std pkt) false)) else mret pk1) = Done pk2 ∧
        packet_wf pk2 ∧ like pk1 pk2 ∧ pk_buffer_id pk2 = pk_buffer_id pk1).
    { destruct (rm && ph_valid (pk_handle_std pk1)) eqn:Hc; [|by exists pk1].
      apply andb_true_iff in Hc as [_ Hv]. destruct (write_header_runs pk1 h' Hw1 Hv) as (mem & -> & Hm); cbn [mbind outcome_bind].
      eexists; split_and!; [done| |done|done]. destruct Hw1 as [Hb _]. split; [|done]. unfold ofpbuf_wf in *; cbn; by rewrite Hm. }
    destruct Hpk2 as (pk2 & -> & Hw2 & Hlk2 & Hid2); cbn [mbind outcome_bind].
    eexists _, (Some q). split_and!; [done|etrans; [exact Hs1|apply put_same]|done|]. exists pk2.
    eapply walks_step; [exact Hw|etrans; [exact Hs1|apply put_same]|eapply put_ready; [exact Hr1|done|congruence]| | |].
    + by rewrite (lk_out _ _ Hlk2), (lk_out _ _ Hlk).
    + rewrite (lk_group _ _ Hlk2), (lk_group _ _ Hlk). apply Hw.
    + rewrite (lk_set _ _ Hlk2), (lk_set _ _ Hlk). apply Hw.
  - destruct (destroy_runs own sw1 q pk Hr1 Hn) as (sw2 & -> & Hr2 & Hs2); cbn [mbind outcome_bind].
    exists sw2, None. split_and!; [done|by etrans|done].
Qed.

(** ** The instructions of an entry *)

Definition after_entry (own : gmap positive packet) (sw : switch) (q : positive) (p : option positive) : Prop :=
  match p with None => ready own sw | Some q' => q' = q ∧ ∃ pk, walks own sw q pk end.

Lemma insts_runs own sw q pk cookie next i insts :
  walks own sw q pk → own !! q = None → Forall (inst_ok parse sw i) insts →
  ∃ sw' p next', execute_entry parse w resubmit g sw (Some q) cookie next insts = Done (sw', p, next') ∧
    same_prog sw sw' ∧ after_entry own sw' q p ∧
    (next' = next ∨ ∃ j, next' = Some j ∧ Z.of_nat i < j < Z.of_nat PIPELINE_TABLES).
Proof using parse_ok prog0 fuel_ok.
  intros Hw Hn Hin. revert sw pk next Hw Hin; induction insts as [|inst insts IH]; intros sw pk next Hw Hin; cbn [execute_entry].
  { exists sw, (Some q), next. split_and!; [done|done|by split; [|exists pk]|by left]. }
  apply list.Forall_cons in Hin as [[Ha Hgo] Hin].
  assert (Hnext : ∀ sw' pk' next', walks own sw' q pk' → same_prog sw sw' →
    (next' = next ∨ ∃ j, next' = Some j ∧ Z.of_nat i < j < Z.of_nat PIPELINE_TABLES) →
    ∃ sw2 p next2, execute_entry parse w resubmit g sw' (Some q) cookie next' insts = Done (sw2, p, next2) ∧
      same_prog sw sw2 ∧ after_entry own sw2 q p ∧
      (next2 = next ∨ ∃ j, next2 = Some j ∧ Z.of_nat i < j < Z.of_nat PIPELINE_TABLES)).
  { intros sw' pk' next' Hw' Hs Hnx. destruct (IH sw' pk' next' Hw') as (sw2 & p & n2 & -> & Hs2 & Hp & Hn2).
    { eapply Forall_impl; [|exact Hin]. intros x [Hx ?]; split; [by eapply acts_same|done]. }
    exists sw2, p, n2. split_and!; [done|by etrans|done|]. destruct Hn2 as [->|?]; auto. }
  destruct (get_done _ _ q pk (wk_ready _ _ _ _ Hw) (lookup_insert_eq _ _ _)) as [Hget Hwf].
  destruct inst as [j|md mask|l|l| |m|x]; cbn [actions_of] in Ha.
  - eapply Hnext; [exact Hw|done|]. right. exists j. split; [done|by apply Hgo].
  - rewrite Hget; cbn [mbind outcome_bind]. eapply Hnext; [|apply put_same|by left].
    eapply walks_put; [exact Hw| |done|done|apply Hw|apply Hw]. by destruct (validate_wf parse parse_ok pk Hwf).
  - rewrite Hget; cbn [mbind outcome_bind]. eapply Hnext; [|apply put_same|by left].
    eapply walks_put; [exact Hw|by destruct Hwf|done|done|apply Hw|]. cbn.
    apply list.Forall_forall. intros a (e & -> & He)%list_elem_of_fmap.
    pose proof (written_from (pk_action_set pk) l) as Hwr. rewrite list.Forall_forall in Hwr.
    pose proof (wk_set _ _ _ _ Hw) as Hset. unfold acts_ok in *. rewrite list.Forall_forall in Ha, Hset.
    destruct (Hwr e He) as [?|?]; auto.
  - destruct (list_runs own sw q pk l cookie Hw Ha) as (sw1 & pk1 & -> & Hw1 & Hs1); cbn [mbind outcome_bind].
    eapply Hnext; [exact Hw1|done|by left].
  - rewrite Hget; cbn [mbind outcome_bind]. eapply Hnext; [|apply put_same|by left].
    eapply walks_put; [exact Hw|by destruct Hwf|done|done|apply Hw|constructor].
  - destruct (meter_runs own sw q pk m Hw Hn) as (sw1 & r & -> & Hs1 & Hr1); cbn [mbind outcome_bind].
    destruct r as [q'|].
    + destruct Hr1 as [-> (pk1 & Hw1)]. eapply Hnext; [exact Hw1|done|by left].
    + exists sw1, None, next. destruct insts; (split_and!; [done|done|done|by left]).
  - eapply Hnext; [exact Hw|done|by left].
Qed.

(** ** The tables *)

Lemma scan_runs flows data in_port h l :
  (ph_valid h = true → proto_in (ph_proto h) (length data)) → Forall (λ p, is_Some (flows !! p)) l →
  ∃ h' r, lookup_scan parse flows data in_port h l = Some (h', r) ∧
    (ph_valid h' = true → proto_in (ph_proto h') (length data)) ∧
    (∀ p e, r = Some (p, e) → p ∈ l ∧ flows !! p = Some e).
Proof using parse_ok.
  revert h; induction l as [|p l IH]; intros h Hh Hl; cbn [lookup_scan].
  { exists h, None. by split_and!. }
  apply list.Forall_cons in Hl as [[e He] Hl]. rewrite He. unfold packet_handle_std_match.
  pose proof (validate_in parse parse_ok data in_port h Hh) as Hv. cbv zeta in Hv |- *.
  set (h1 := packet_handle_std_validate _ _ _ _) in *. destruct (if ph_valid h1 then _ else _).
  - exists h1, (Some (p, e)). split_and!; [done|done|]. intros ? ? [= <- <-]. split; [apply list_elem_of_here|done].
  - destruct (IH h1 Hv Hl) as (h' & r & -> & ? & Hr). exists h', r. split_and!; [done|done|].
    intros p' e' [? ?]%Hr. split; [by apply list_elem_of_further|done].
Qed.

Lemma lookup_runs own sw q pk i :
  walks own sw q pk → (i < PIPELINE_TABLES)%nat →
  ∃ t dp t' h found,
    pl_tables (sw_pl sw) !! i = Some t ∧
    flow_table_lookup parse (w_msec w) (pl_dp (sw_pl sw)) t (contents (pk_buffer pk)) (pk_in_port pk) (pk_handle_std pk)
      = Some (dp, t', h, found) ∧
    packet_wf (set_handle pk h) ∧
    same_prog sw (set_pl sw (Pipeline dp (<[i := t']> (pl_tables (sw_pl sw))))) ∧
    (∀ p, found = Some p → ∃ e, dp_flows dp !! p = Some e ∧ Forall (inst_ok parse sw i) (fe_instructions e)).
Proof using parse_ok.
  intros Hw Hi. pose proof (rd_prog _ _ (wk_ready _ _ _ _ Hw)) as Hp.
  destruct (get_done _ _ q pk (wk_ready _ _ _ _ Hw) (lookup_insert_eq _ _ _)) as [_ [Hb Hpr]].
  destruct (lookup_lt_is_Some_2 (pl_tables (sw_pl sw)) i) as [t Ht]; [by rewrite (pg_len _ _ Hp)|].
  rewrite <- (contents_length _ Hb) in Hpr. exists t. unfold flow_table_lookup; cbn [match_entries].
  destruct (scan_runs (dp_flows (pl_dp (sw_pl sw))) (contents (pk_buffer pk)) (pk_in_port pk) (pk_handle_std pk) (match_entries t) Hpr)
    as (h & r & -> & Hh & Hr).
  { apply list.Forall_forall. intros p Hin. destruct (pg_flow _ _ Hp i t p Ht Hin) as (e & He & _). by eexists. }
  assert (Hwh : packet_wf (set_handle pk h)) by (split; [done|]; cbn; by rewrite <- (contents_length _ Hb)).
  assert (Htab : ∀ t', match_entries t' = match_entries t →
    match_entries <$> <[i := t']> (pl_tables (sw_pl sw)) = match_entries <$> pl_tables (sw_pl sw)).
  { intros t' Ht'. rewrite list_fmap_insert, Ht'. apply list_insert_id. by rewrite list_lookup_fmap, Ht. }
  cbn [mbind option_bind]. destruct r as [[p e]|]; eexists _, _, _, _; (split_and!; [done|done|done| |]).
  - destruct (Hr p e eq_refl) as [Hin He]. split; cbn; try done; [|by apply Htab].
    intros k. unfold flows_of; cbn. destruct (decide (k = p)) as [->|]; [|by rewrite lookup_insert_ne]. by rewrite lookup_insert_eq, He.
  - intros p' [= <-]. destruct (Hr p e eq_refl) as [Hin He]. cbn. rewrite lookup_insert_eq. eexists; split; [done|]. cbn.
    destruct (pg_flow _ _ Hp i t p Ht Hin) as (e' & He' & Hins). unfold flows_of in He'. by assert (e' = e) as <- by congruence.
  - split; cbn; try done. by apply Htab.
  - done.
Qed.

Lemma try_runs own sw q pk i :
  walks own sw q pk → own !! q = None → 0 <= i < Z.of_nat PIPELINE_TABLES →
  ∃ sw' e, try_table parse w resubmit g sw q i = Done (sw', e) ∧ same_prog sw sw' ∧
    match e with
    | TableGoto j => i < j < Z.of_nat PIPELINE_TABLES ∧ ∃ pk', walks own sw' q pk'
    | TableDone => ready own sw'
    | TableMiss => ∃ pk', walks own sw' q pk'
    end.
Proof using parse_ok prog0 fuel_ok.
  intros Hw Hn Hi. unfold try_table.
  destruct (get_done _ _ q pk (wk_ready _ _ _ _ Hw) (lookup_insert_eq _ _ _)) as [-> _]; cbn [mbind outcome_bind].
  destruct (lookup_runs own sw q pk (Z.to_nat i) Hw) as (t & dp & t' & h & found & -> & Hlk & Hwf & Hs1 & Hf); [lia|].
  cbn [lift mbind outcome_bind]. rewrite Hlk; cbn [lift mbind outcome_bind]. set (sw1 := set_pl sw _) in *.
  assert (Hput : ∀ h', packet_wf (set_handle (set_table_id pk i) h') →
    walks own (put sw1 q (set_handle (set_table_id pk i) h')) q (set_handle (set_table_id pk i) h')).
  { intros h' Hw'. eapply walks_step; [exact Hw|etrans; [exact Hs1|apply put_same]| |done|apply Hw|apply Hw].
    eapply put_ready; [eapply ready_same; [apply Hw|done|apply Hw]|done|done]. }
  assert (Hwt : ∀ m, packet_wf (set_handle (set_table_id pk i) (set_table_miss h m))) by (intros m; by destruct Hwf).
  assert (Hsp : ∀ pk', same_prog sw (put sw1 q pk')) by (intros; etrans; [exact Hs1|apply put_same]).
  destruct found as [p|].
  - destruct (Hf p eq_refl) as (e & -> & Hins); cbn [lift mbind outcome_bind].
    edestruct (insts_runs own) as (sw2 & r & nx & E & Hs2 & Hp2 & Hnx);
      [exact (Hput _ (Hwt (is_table_miss e)))|exact Hn| |]; [|rewrite E; cbn [mbind outcome_bind]].
    { eapply Forall_impl; [|exact Hins]. intros inst [Ha ?]; split; [|done]. eapply acts_same; [|exact Ha]. apply Hsp. }
    assert (Hs : same_prog sw sw2) by (etrans; [apply Hsp|exact Hs2]).
    destruct r as [q'|]; [|exists sw2, TableDone; by split_and!]. destruct Hp2 as [-> (pk2 & Hw2)]. destruct nx as [j|].
    + destruct Hnx as [|(? & [= <-] & ?)]; [done|]. exists sw2, (TableGoto j). split; [done|]. split; [done|]. split; [lia|by eexists].
    + destruct Hw2 as [H0 Hr2 Ho2 Hg2 Ha2].
      destruct (set_execute_runs sw0 (group_table_execute parse w resubmit g) own sw2 q pk2 NO_COOKIE H0 Hr2 Hn Ho2 Hg2 Ha2)
        as (sw3 & -> & Hr3 & Hs3).
      { intros g' Hg'. apply group_fuel. eapply same_back; [exact H0|]. unfold acts_ok in Ha2. rewrite list.Forall_forall in Ha2.
        by apply (Ha2 _ Hg'). }
      exists sw3, TableDone. split_and!; [done|by etrans|done].
  - exists (put sw1 q (set_handle (set_table_id pk i) h)), TableMiss. split_and!; [done|apply Hsp|].
    eexists. apply Hput. by destruct Hwf.
Qed.

Lemma table_runs own sw q pk i :
  walks own sw q pk → own !! q = None → 0 <= i < Z.of_nat PIPELINE_TABLES →
  ∃ sw' next, process_table parse w resubmit g sw q i = Done (sw', next) ∧ same_prog sw sw' ∧
    match next with None => ready own sw' | Some j => i < j < Z.of_nat PIPELINE_TABLES ∧ ∃ pk', walks own sw' q pk' end.
Proof using parse_ok prog0 fuel_ok.
  intros Hw Hn Hi. unfold process_table. destruct (try_runs own sw q pk i Hw Hn Hi) as (sw1 & e & -> & Hs1 & He).
  cbn [mbind outcome_bind]. destruct e as [j| |]; [by exists sw1, (Some j)|by exists sw1, None|].
  destruct He as [pk1 Hw1]. edestruct (destroy_runs own) as (sw2 & E & Hr2 & Hs2); [apply Hw1|done|].
  rewrite E; cbn [mbind outcome_bind]. exists sw2, None. split_and!; [done|by etrans|done].
Qed.

Lemma loop_runs own t sw q pk i :
  walks own sw q pk → own !! q = None → 0 <= i < Z.of_nat PIPELINE_TABLES → Z.of_nat PIPELINE_TABLES <= i + Z.of_nat t →
  runs own sw (table_loop parse w resubmit g t sw q i).
Proof using parse_ok prog0 fuel_ok.
  revert sw pk i; induction t as [|t IH]; intros sw pk i Hw Hn Hi Ht; [lia|]. cbn [table_loop].
  destruct (table_runs own sw q pk i Hw Hn Hi) as (sw1 & next & -> & Hs1 & Hnx); cbn [mbind outcome_bind].
  destruct next as [j|]; [|by exists sw1]. destruct Hnx as [Hj (pk1 & Hw1)].
  eapply runs_trans; [exact Hs1|]. eapply IH; [exact Hw1|done|lia|lia].
Qed.
End entry.
End run.
