(* ===== verification/Processing.v ===== *)
(** The theorems about packet processing: it ends and leaks nothing when tables go
    forward; it never ends when a flow goes to its own table. *)

From S2P Require Import Prelude Memory Ofpbuf Csum OpenFlow MatchStd ActionSet Buffers PacketActions PushPop LinkedList MacTable.
From S2P Require Import Group GroupTable Meter FlowTable Ports PortsCorrect Pipeline Execute Ownership ExecuteSafe ExecuteRun.

(** * Actions that stay inside the buffer *)

Definition quiet (a : ofl_action) : bool :=
  match a with
  | ActOutput _ _ | ActSetQueue _ | ActGroup _ | ActExperimenter _
  | ActSetMplsTtl _ | ActDecMplsTtl | ActSetNwTtl _ | ActDecNwTtl => true
  | _ => false
  end.

Section quiet.
  Context `{Malloc}.
  Context (parse : list Z → option (ofl_match * protocols_std)).
  Context (parse_ok : ∀ data m pr, parse data = Some (m, pr) → proto_in pr (length data)).

Lemma validate_proto pkt : packet_wf pkt → proto_in (ph_proto (pk_handle_std (validate parse pkt))) (ob_size (pk_buffer pkt)).
Proof using parse_ok.
  intros [Hb Hp]. unfold validate, packet_handle_std_validate; cbn. case_match eqn:Hv; [auto|].
  rewrite <- (contents_length _ Hb). destruct (parse _) as [[m pr]|] eqn:E; cbn; [by eapply parse_ok|].
  split; intros k [=].
Qed.

Lemma in_place_safe pkt r :
  packet_wf pkt → (∃ mem, r = Some mem ∧ length mem = length (ob_mem (pk_buffer pkt))) →
  ∃ pkt', in_place (validate parse pkt) r = Some pkt' ∧ packet_wf pkt'.
Proof using parse_ok.
  intros Hw (mem & -> & Hm). eexists; split; [done|]. destruct (validate_wf parse parse_ok pkt Hw) as [Hb Hp].
  split; [|exact Hp]. unfold ofpbuf_wf in *; cbn in *; lia.
Qed.

Lemma ipv4_ttl_in mem p v : (p + 20 <= length mem)%nat → ∃ mem', set_ipv4_ttl mem p v = Some mem' ∧ length mem' = length mem.
Proof using.
  intros Hp. unfold set_ipv4_ttl, o_ip_proto, o_ip_ttl, o_ip_csum.
  destruct (ld_in 1 mem (p + 9)) as [x ->]; [lia|]. destruct (ld_in 1 mem (p + 8)) as [y ->]; [lia|].
  destruct (ld_in 2 mem (p + 10)) as [z ->]; [lia|]. cbn.
  destruct (st_in 2 mem (p + 10) (Csum.recalc_csum16 z (htons (x + Z.shiftl y 8)) (htons (x + Z.shiftl v 8)))) as (m1 & -> & H1); [lia|].
  cbn. destruct (st_in 1 m1 (p + 8) v) as (m2 & -> & H2); [lia|]. exists m2. split; [done|congruence].
Qed.

(** What [ptr] gives lies in the block, with the bytes of its header. *)
Lemma ptr_in pkt h len p :
  ofpbuf_wf (pk_buffer pkt) → inside (h (ph_proto (pk_handle_std (validate parse pkt)))) len (ob_size (pk_buffer pkt)) →
  ptr (validate parse pkt) h = Some p → (p + len <= length (ob_mem (pk_buffer pkt)))%nat.
Proof using.
  unfold ofpbuf_wf, ptr, inside. intros Hb Hi Hp. destruct (h _) as [k|]; [|done]. cbn in Hp. injection Hp as <-.
  specialize (Hi k eq_refl). lia.
Qed.

Lemma quiet_safe a : quiet a = true → safe parse a.
Proof using parse_ok.
  intros Hq pkt Hw. pose proof (validate_wf parse parse_ok pkt Hw) as Hv. pose proof (validate_proto pkt Hw) as [Hm H4 H6].
  pose proof (pw_buffer _ Hw) as Hb.
  destruct a; try done; cbn [dp_execute_action]; try (eexists; split; [done|by destruct Hw]).
  - unfold set_mpls_ttl. destruct (ptr (validate parse pkt) pr_mpls) as [p|] eqn:E; [|by eexists].
    pose proof (ptr_in pkt _ _ _ Hb Hm E). apply in_place_safe; [done|]. unfold set_mpls_bits. rewrite E; cbn [mbind option_bind].
    destruct (ld_in 4 (ob_mem (pk_buffer pkt)) p) as [x Hx]; [lia|]. cbn in Hx |- *. rewrite Hx; cbn. apply st_in; lia.
  - unfold dec_mpls_ttl. destruct (ptr (validate parse pkt) pr_mpls) as [p|] eqn:E; [|by eexists].
    pose proof (ptr_in pkt _ _ _ Hb Hm E). apply in_place_safe; [done|].
    destruct (ld_in 4 (ob_mem (pk_buffer pkt)) p) as [x Hx]; [lia|]. cbn in Hx |- *. rewrite Hx; cbn. apply st_in; lia.
  - unfold set_nw_ttl. destruct (ptr (validate parse pkt) pr_ipv4) as [p|] eqn:E.
    { pose proof (ptr_in pkt _ _ _ Hb H4 E). apply in_place_safe; [done|]. by apply ipv4_ttl_in. }
    destruct (ptr (validate parse pkt) pr_ipv6) as [p|] eqn:E'; [|by eexists].
    pose proof (ptr_in pkt _ _ _ Hb H6 E'). apply in_place_safe; [done|]. apply st_in. unfold o_ipv6_hop_limit. cbn; lia.
  - unfold dec_nw_ttl. destruct (ptr (validate parse pkt) pr_ipv4) as [p|] eqn:E.
    { pose proof (ptr_in pkt _ _ _ Hb H4 E). apply in_place_safe; [done|]. unfold o_ip_ttl.
      destruct (ld_in 1 (ob_mem (pk_buffer pkt)) (p + 8)) as [x Hx]; [lia|]. cbn in Hx |- *. rewrite Hx; cbn.
      case_match; [by apply ipv4_ttl_in|by eexists]. }
    destruct (ptr (validate parse pkt) pr_ipv6) as [p|] eqn:E'; [|by eexists].
    pose proof (ptr_in pkt _ _ _ Hb H6 E'). apply in_place_safe; [done|]. unfold o_ipv6_hop_limit.
    destruct (ld_in 1 (ob_mem (pk_buffer pkt)) (p + 7)) as [x Hx]; [lia|]. cbn in Hx |- *. rewrite Hx; cbn.
    case_match; [apply st_in; lia|by eexists].
Qed.
End quiet.

(** * Programs that only go forward *)

Section forward.
  Context `{Malloc}.
  Context (parse : list Z → option (ofl_match * protocols_std)).

(** An action that is safe on every packet and names no reserved group. *)
Definition fine (a : ofl_action) : Prop := safe parse a ∧ ∀ g, a = ActGroup g → g <= OFPG_MAX.

Record group_fine (sw : switch) (e : group_entry) : Prop := {
  gf_counters : length (ge_counters e) = length (ge_buckets e);
  gf_data : ge_type e = OFPGT_SELECT → is_Some (ge_data e);
  gf_watch : ge_type e = OFPGT_FF → Forall (watched sw) (ge_buckets e);
  gf_acts : Forall (λ b, Forall fine (b_actions b)) (ge_buckets e) }.

Definition flow_fine (e : flow_entry) : Prop :=
  Forall (λ inst, Forall fine (actions_of inst) ∧
            ∀ j, inst = InstGotoTable j → fe_table_id e < j < Z.of_nat PIPELINE_TABLES) (fe_instructions e).

Definition forward (sw : switch) : Prop :=
  map_Forall (λ _, flow_fine) (flows_of sw) ∧ map_Forall (λ _, group_fine sw) (entries_of sw).

(** With the invariant of the tables, such a program can be executed. *)
Lemma forward_prog sw : pipeline_ok [] (sw_pl sw) → ports_ok (sw_ports sw) → forward sw → prog_ok parse sw.
Proof using.
  intros Hpl Hpo [Hff Hfg]. pose proof (po_dp _ _ Hpl) as Hdp. split; [| |apply Hpl| |done].
  - intros g e He. destruct (Hfg g e He) as [Hc Hd Hw Ha]. split; [done..|].
    rewrite list.Forall_forall in Ha. apply list.Forall_forall. intros b Hb. specialize (Ha b Hb).
    rewrite list.Forall_forall in Ha. apply list.Forall_forall. intros a Hin. destruct (Ha a Hin) as [Hs Hg]. split; [done|].
    intros g' ->. apply (gto_refs _ (do_groups _ _ Hdp) g); [|by apply Hg].
    exists e. split; [exact He|]. apply list_elem_of_bind. exists b. split; [|done]. apply list_elem_of_omap. by exists (ActGroup g').
  - apply (do_groups _ _ Hdp).
  - intros i t p Ht Hin. apply (po_in _ _ Hpl i t p Ht) in Hin as (e & He & Hi). exists e. split; [done|].
    pose proof (Hff p e He) as Hins. unfold flow_fine in Hins. rewrite list.Forall_forall in Hins |- *. intros inst Hinst.
    destruct (Hins inst Hinst) as [Ha Hj]. rewrite Hi in Hj. split; [|done].
    rewrite list.Forall_forall in Ha. apply list.Forall_forall. intros a Hain. destruct (Ha a Hain) as [Hs Hg]. split; [done|].
    intros g' ->. destruct (ro_exists _ _ (do_refs _ _ Hdp) p e g') as (ge & Hge & _); [done|apply not_elem_of_nil| |by apply Hg|by eexists].
    rewrite (ro_named _ _ (do_refs _ _ Hdp) p e He). apply collect_group_elem. right. apply list_elem_of_bind. by exists inst.
Qed.
End forward.

Lemma ttl_handle parse data in_port h h' b :
  packet_handle_std_is_ttl_valid parse data in_port h = Some (h', b) → h' = packet_handle_std_validate parse data in_port h.
Proof.
  unfold packet_handle_std_is_ttl_valid. generalize (packet_handle_std_validate parse data in_port h); intros hv. cbv zeta.
  destruct (match pr_mpls (ph_proto hv) with Some _ => _ | None => _ end) as [[]|]; cbn; [|by intros [= <- _]|done].
  destruct (pr_ipv4 (ph_proto hv)) as [k|]; [|by intros [= <- _]]. destruct (ld 1 data (k + 8)); cbn; [|done]. by intros [= <- _].
Qed.

(** * Theorems *)

(** C5: processing a packet ends and owns its memory.  The conditions: the tables satisfy the invariant
    the controller's messages maintain ([pipeline_ok]) and the ports theirs; every goto of a flow goes to a
    later table ([goto_own_table_loops] shows that this is needed) and every action of a flow or bucket can be executed on
    any well-formed packet ([forward]); a bucket of a fast failover group watches no port or one
    that exists, and a group has a counter for each bucket; the neighbours are a list and the 16 rows of the flooding matrix are orders of the
    ports ([world_ok]); decoding finds its headers inside the frame; and the packet has a valid TTL, an empty action set and no group.
    Then [pipeline_process_packet] ends with a result, within 64 turns of the table loop and with groups
    nested at most as deep as there are groups.  It never uses a freed packet, frees none
    twice and leaks none: afterwards the packet is gone or is kept by the buffer it was
    saved in, and so is every copy made on the way, while the packets of the callers
    ([own]) are untouched.  The program the packet ran is as before. *)
Theorem pipeline_process_safe `{Malloc} (parse : list Z → option (ofl_match * protocols_std))
    (parse_ok : ∀ data m pr, parse data = Some (m, pr) → proto_in pr (length data))
    (w : world) (sw : switch) (own : gmap positive packet) (q : positive) (pk : packet) (h : packet_handle_std)
    (d g t : nat)
    (Hpl : pipeline_ok [] (sw_pl sw)) (Hports : ports_ok (sw_ports sw)) (Hforward : forward parse sw)
    (Hworld : world_ok w sw)
    (Hheap : heap_ok (w_now w) (<[q := pk]> own) (sw_bufs sw)) (Hown : own !! q = None)
    (Hnew : pk_packet_out pk = false ∧ pk_action_set pk = [] ∧ pk_out_group pk = OFPG_ANY)
    (Httl : packet_handle_std_is_ttl_valid parse (contents (pk_buffer pk)) (pk_in_port pk) (pk_handle_std pk) = Some (h, true))
    (Hd : (1 <= d)%nat) (Hg : (size (entries_of sw) <= g)%nat) (Ht : (PIPELINE_TABLES <= t)%nat) :
  ∃ sw', pipeline_process_packet parse w d g t sw q = Done sw' ∧
    heap_ok (w_now w) own (sw_bufs sw') ∧ prog_ok parse sw' ∧ same_prog sw sw'.
Proof.
  destruct d as [|d]; [lia|]. cbn [pipeline_process_packet]. unfold process_packet. destruct Hnew as (Ho & Hs & Hgr).
  assert (Hprog : prog_ok parse sw) by (by apply forward_prog).
  assert (Hr : ready parse w (<[q := pk]> own) sw) by (by split).
  destruct (get_done parse w _ _ q pk Hr (lookup_insert_eq _ _ _)) as [-> Hw]; cbn [mbind outcome_bind].
  rewrite Httl; cbn [lift mbind outcome_bind negb].
  assert (Hh : h = packet_handle_std_validate parse (contents (pk_buffer pk)) (pk_in_port pk) (pk_handle_std pk)).
  { by eapply ttl_handle. }
  subst h. change (set_handle pk _) with (validate parse pk).
  pose proof (validate_wf parse parse_ok pk Hw) as Hw'.
  edestruct (loop_runs parse parse_ok w (pipeline_process_packet parse w d g t) sw g Hprog Hg own t (put sw q (validate parse pk)) q
    (validate parse pk) 0) as (sw' & E & Hr' & Hs'); [|done|unfold PIPELINE_TABLES; lia|lia|].
  - split; [apply put_same|by eapply put_ready|done|done|]. cbn. rewrite Hs. constructor.
  - exists sw'. split; [exact E|]. split_and!; [apply Hr'|apply Hr'|]. etrans; [apply put_same|exact Hs'].
Qed.

(** ** An example switch *)

Definition ex_parse (f : list Z) : option (ofl_match * protocols_std) :=
  if (length f <? 34)%nat then None
  else Some (Match 0 [], Proto (Some 0%nat) None None None None None
               (if be16 f 12 =? 0x0800 then Some 14%nat else None) None None None None None None None None None).

Lemma ex_parse_ok data m pr : ex_parse data = Some (m, pr) → proto_in pr (length data).
Proof.
  unfold ex_parse. destruct (Nat.ltb_spec (length data) 34); [done|]. intros [= <- <-]. split; intros k; cbn; [done| |done].
  case_match; intros [= <-]. lia.
Qed.

#[local] Instance ex_malloc : Malloc := λ _, 0xCC.

(** Table 0 sends a copy to the controller and goes on; table 1 writes group 1, which
    copies the packet to ports 2 and 1. *)
Definition ex_msgs : list event :=
  [ EvGroupMod false (GroupMod OFPGC_ADD OFPGT_ALL 1 [Bucket 0 OFPP_ANY OFPG_ANY [ActOutput 2 0; ActDecNwTtl];
                                                       Bucket 0 OFPP_ANY OFPG_ANY [ActOutput 1 0]]);
    EvFlowMod false 0 (FlowMod 0 0 0 OFPFC_ADD 0 0 10 NO_BUFFER OFPP_ANY OFPG_ANY 0 (Match 0 [])
      [InstGotoTable 1; InstApplyActions [ActOutput OFPP_CONTROLLER 128; ActDecNwTtl]]);
    EvFlowMod false 0 (FlowMod 0 0 1 OFPFC_ADD 0 0 10 NO_BUFFER OFPP_ANY OFPG_ANY 0 (Match 0 [])
      [InstWriteActions [ActGroup 1]]) ].

Definition ex_run_pipeline : pipeline := default pipeline_create (pl_run ex_parse (λ _, true) pipeline_create ex_msgs).

Lemma ex_run_pipeline_ok : pipeline_ok [] ex_run_pipeline.
Proof.
  apply (pl_run_kept ex_parse (λ _, true) pipeline_create ex_msgs _ pipeline_create_ok).
  - constructor; [|constructor; [|constructor; [|constructor]]]; (split; [by left|done]).
  - vm_compute. reflexivity.
Qed.

Definition ex_pkt : packet := packet_create ex_parse 3 (parts [] ex_ipv4 []) false.
Definition ex_world : world :=
  World 0 10 1000 128 (λ _, ex_nd) (λ _, 0%nat) mac_to_port_new (replicate 16 [0; 1; 2; 3]).
(** The ports of the frames sent, in order. *)
Definition sent_ports (sw : switch) : list Z := (λ x, x.1.1) <$> sw_sent sw.

Definition ex_switch : switch := Switch ex_run_pipeline (dp_buffers_create {[ 1%positive := ex_pkt ]}) ex_dp [] [] 0.

(** Checks of a program, by evaluation. *)
Definition fineb (a : ofl_action) : bool := quiet a && match a with ActGroup g => g <=? OFPG_MAX | _ => true end.
Definition flowb (e : flow_entry) : bool :=
  forallb (λ inst, forallb fineb (actions_of inst) &&
             match inst with InstGotoTable j => (fe_table_id e <? j) && (j <? Z.of_nat PIPELINE_TABLES) | _ => true end)
    (fe_instructions e).
Definition groupb (e : group_entry) : bool :=
  (length (ge_counters e) =? length (ge_buckets e))%nat && (ge_type e =? OFPGT_ALL) &&
  forallb (λ b, forallb fineb (b_actions b)) (ge_buckets e).

Lemma fineb_fine l : forallb fineb l = true → Forall (fine ex_parse) l.
Proof.
  rewrite forallb_forall. intros Hl. apply list.Forall_forall. intros a Ha. apply list_elem_of_In in Ha.
  specialize (Hl a Ha). apply andb_true_iff in Hl as [Hq Hg].
  split; [by apply (quiet_safe ex_parse ex_parse_ok)|]. intros g ->. lia.
Qed.

Lemma ex_forward : forward ex_parse ex_switch.
Proof.
  split.
  - assert (map_Forall (λ _ e, flowb e = true) (flows_of ex_switch)) as Hc by (apply (bool_decide_unpack _); vm_compute; exact I).
    intros p e He. specialize (Hc p e He). unfold flowb in Hc. rewrite forallb_forall in Hc.
    apply list.Forall_forall. intros inst Hi. apply list_elem_of_In in Hi. specialize (Hc inst Hi).
    apply andb_true_iff in Hc as [Ha Hj]. split; [by apply fineb_fine|]. intros j ->. lia.
  - assert (map_Forall (λ _ e, groupb e = true) (entries_of ex_switch)) as Hc by (apply (bool_decide_unpack _); vm_compute; exact I).
    intros g e He. specialize (Hc g e He). unfold groupb in Hc. apply andb_true_iff in Hc as [Hc Ha].
    apply andb_true_iff in Hc as [Hc Ht]. apply Nat.eqb_eq in Hc. apply Z.eqb_eq in Ht.
    split; [done|by rewrite Ht|by rewrite Ht|]. rewrite forallb_forall in Ha. apply list.Forall_forall. intros b Hb.
    apply fineb_fine, Ha. by apply list_elem_of_In.
Qed.

Lemma ex_heap_ok : heap_ok 10 {[ 1%positive := ex_pkt ]} (sw_bufs ex_switch).
Proof.
  split.
  - apply create_inv. by apply map_Forall_singleton.
  - intros q pk [<- <-]%lookup_singleton_Some. split; [apply lookup_singleton_eq|]. split; [|by left].
    split; [unfold ofpbuf_wf; vm_compute; lia|]. intros _. split; intros k; vm_compute; intros [=]; subst; lia.
  - intros q pk Hq. by left.
Qed.

Lemma pipeline_process_witness :
  ∃ sw', pipeline_process_packet ex_parse ex_world 1 1 64 ex_switch 1 = Done sw' ∧
    heap_ok 10 ∅ (sw_bufs sw') ∧ sent_ports sw' = [2; 1] ∧ length (sw_packet_ins sw') = 1%nat.
Proof.
  edestruct (pipeline_process_safe ex_parse ex_parse_ok ex_world ex_switch ∅ 1 ex_pkt) with (d := 1%nat) (g := 1%nat) (t := 64%nat)
    as (sw' & E & Hh & _).
  - exact ex_run_pipeline_ok.
  - exact ex_dp_ok.
  - exact ex_forward.
  - split; [exists []; exact mac_new_repr|]. intros k Hk. exists [0; 1; 2; 3]. split; [by apply lookup_replicate_2|].
    apply (bool_decide_unpack _); vm_compute; exact I.
  - exact ex_heap_ok.
  - reflexivity.
  - by vm_compute.
  - vm_compute. reflexivity.
  - lia.
  - vm_compute. lia.
  - unfold PIPELINE_TABLES; lia.
  - exists sw'. split; [exact E|]. split; [exact Hh|]. vm_compute in E. injection E as <-. by vm_compute.
Defined.

(** * Tables that go to themselves *)

(** The first entry of table [i] takes every packet and goes to table [i]. *)
Record stuck (data : list Z) (sw : switch) (q : positive) (i : nat) : Prop := {
  sk_packet : ∃ pk, heap (sw_bufs sw) !! q = Some pk ∧ contents (pk_buffer pk) = data;
  sk_table : ∃ t p rest e, pl_tables (sw_pl sw) !! i = Some t ∧ match_entries t = p :: rest ∧ flows_of sw !! p = Some e ∧
    match_length (fe_match e) = 0 ∧ fe_instructions e = [InstGotoTable (Z.of_nat i)] }.

Section stuck.
  Context `{Malloc}.
  Context (parse : list Z → option (ofl_match * protocols_std)).
  Context (data : list Z) (decodes : is_Some (parse data)).
  Context (w : world) (resubmit : switch → positive → outcome switch) (g : nat).

Lemma stuck_step sw q i :
  stuck data sw q i → ∃ sw', process_table parse w resubmit g sw q (Z.of_nat i) = Done (sw', Some (Z.of_nat i)) ∧ stuck data sw' q i.
Proof using decodes.
  intros [(pk & Hpk & Hdata) (t & p & rest & e & Ht & Hm & He & Hl & Hi)]. unfold process_table, try_table, get. rewrite Hpk; cbn [lift mbind outcome_bind].
  rewrite Nat2Z.id, Ht; cbn [lift mbind outcome_bind]. unfold flow_table_lookup; cbn [match_entries]. rewrite Hm; cbn [lookup_scan].
  unfold flows_of in He. rewrite He. unfold packet_handle_std_match.
  set (h := packet_handle_std_validate _ _ _ _). assert (Hv : ph_valid h = true).
  { unfold h, packet_handle_std_validate. case_match; [done|]. rewrite Hdata. destruct decodes as [[m pr] ->]. done. }
  rewrite Hv. unfold packet_match. rewrite Hl; cbn [Z.eqb lift mbind option_bind outcome_bind dp_flows set_flows].
  rewrite lookup_insert_eq; cbn [lift mbind outcome_bind]. cbn [fe_instructions count_packet set_counts]. rewrite Hi.
  cbn [execute_entry mbind outcome_bind mret outcome_ret]. eexists; split; [done|]. split.
  - eexists. cbn. rewrite lookup_insert_eq. split; [done|exact Hdata].
  - eexists _, p, rest, _. split_and!.
    + cbn. rewrite list_lookup_insert_eq; [done|by eapply lookup_lt_Some].
    + cbn. reflexivity.
    + unfold flows_of; cbn. by rewrite lookup_insert_eq.
    + exact Hl.
    + exact Hi.
Qed.

Lemma stuck_loops t sw q i : stuck data sw q i → table_loop parse w resubmit g t sw q (Z.of_nat i) = NoFuel.
Proof using decodes.
  revert sw; induction t as [|t IH]; intros sw Hs; cbn [table_loop]; [done|].
  destruct (stuck_step sw q i Hs) as (sw' & -> & Hs'). cbn [mbind outcome_bind]. by apply IH.
Qed.
End stuck.

(** The flow of table 0 that goes to table 0. *)
Definition loop_msg : ofl_msg_flow_mod :=
  FlowMod 0 0 0 OFPFC_ADD 0 0 10 NO_BUFFER OFPP_ANY OFPG_ANY 0 (Match 0 []) [InstGotoTable 0].

(** GOTO_TABLE is not checked to go forward.  The switch accepts a flow of table 0 that
    goes to table 0 (only the last table's GOTO is refused), and from then on every packet
    that reaches the table and can be decoded keeps [pipeline_process_packet] in its loop
    for ever: no number of turns is enough. *)
Theorem goto_own_table_loops `{Malloc} (parse : list Z → option (ofl_match * protocols_std)) (w : world)
    (port_exists : Z → bool) (bufs : dp_buffers) (dp : dp_ports) (q : positive) (pk : packet) (h : packet_handle_std) (d g t : nat)
    (Hpk : heap bufs !! q = Some pk) (Hdecodes : is_Some (parse (contents (pk_buffer pk))))
    (Httl : packet_handle_std_is_ttl_valid parse (contents (pk_buffer pk)) (pk_in_port pk) (pk_handle_std pk) = Some (h, true)) :
  ∃ pl, pl_step parse port_exists pipeline_create (EvFlowMod false 0 loop_msg) = Some (pl, 0) ∧
    pipeline_process_packet parse w d g t (Switch pl bufs dp [] [] 0) q = NoFuel.
Proof.
  eexists; split; [vm_compute; reflexivity|]. destruct d as [|d]; [done|]. cbn [pipeline_process_packet].
  unfold process_packet, get. cbn [sw_bufs]. rewrite Hpk; cbn [lift mbind outcome_bind]. rewrite Httl; cbn [lift mbind outcome_bind negb].
  apply (stuck_loops parse _ Hdecodes w _ g t _ q 0). split.
  - eexists. cbn. by rewrite lookup_insert_eq.
  - eexists _, 1%positive, [], _. split_and!; vm_compute; reflexivity.
Qed.

Lemma goto_own_table_witness :
  ∃ pl, pl_step ex_parse (λ _, true) pipeline_create (EvFlowMod false 0 loop_msg) = Some (pl, 0) ∧
    pipeline_process_packet ex_parse ex_world 1 1 1000 (Switch pl (sw_bufs ex_switch) ex_dp [] [] 0) 1 = NoFuel.
Proof.
  eapply (goto_own_table_loops ex_parse ex_world (λ _, true) (sw_bufs ex_switch) ex_dp 1 ex_pkt).
  - apply lookup_singleton_eq.
  - vm_compute. by eexists.
  - vm_compute. reflexivity.
Defined.
