(* ===== verification/Forwarding.v ===== *)
(** From a received frame to the frames sent: [pipeline_process_Uah] of udatapath/pipeline.c
    with [process_buffer] and [dp_ports_run] of dp_ports.c, [packet_hello_create] and
    [packet_hello_send] of packet.c, and the turn of the main loop of udatapath.c.

    The flow tables of Execute.v come first; what they leave goes to TCP-Path and ARP-Path
    (TcpPath.v, ArpPath.v), whose tables are part of the state ([node]).  The handlers of
    those files say what is to be sent; here it is sent, through [dp_actions_output_port],
    and packets are destroyed or stay on the heap as in the code.  [TCP_PATH] is a parameter;
    [recuperacion] and [controlador] are 0, as built. *)

From S2P Require Import Prelude Memory Ofpbuf Csum OpenFlow MatchStd ActionSet Buffers PacketActions LinkedList MacTable TcpTable.
From S2P Require Import ArpPath Group GroupTable Meter FlowTable Ports PortsCorrect TcpPath Pipeline Execute.

(** The tables of udatapath.c: [mac_port], [tcp_table], [neighbor_table], and the counter
    [secuence_path_generic]. *)
Record node := Nd {
  nd_sw : switch;
  nd_mac_port : mac_to_port;
  nd_tcp_table : table_tcp;
  nd_neighbors : mac_to_port;
  nd_secuence : Z }.

Definition with_sw (nd : node) (sw : switch) : node :=
  Nd sw (nd_mac_port nd) (nd_tcp_table nd) (nd_neighbors nd) (nd_secuence nd).
Definition with_mac (nd : node) (m : mac_to_port) : node :=
  Nd (nd_sw nd) m (nd_tcp_table nd) (nd_neighbors nd) (nd_secuence nd).
Definition with_neighbors (nd : node) (n : mac_to_port) : node :=
  Nd (nd_sw nd) (nd_mac_port nd) (nd_tcp_table nd) n (nd_secuence nd).
Definition with_paths (nd : node) (s : path_state) : node :=
  Nd (nd_sw nd) (ps_mac_port s) (ps_tcp_table s) (nd_neighbors nd) (ps_secuence s).

Definition TIME_RECOVERY := 1.
(** Ethernet types as they are in memory. *)
Definition ETH_HELLO := 39030.
Definition ETH_HELLO_CTR := 30360.
Definition ETH_IPV6 := 56710.

(** ** What the handlers read of a packet *)

Definition bytes_at (n : nat) (data : list Z) (off : nat) : option (list Z) :=
  if (off + n <=? length data)%nat then Some (take n (drop off data)) else None.

Definition o_tcp_ctl : nat := 12.

(** [proto->eth->eth_type] and [proto->eth->eth_src]. *)
Definition eth_type_of (pkt : packet) : option Z :=
  eth ← pr_eth (ph_proto (pk_handle_std pkt)); ld 2 (contents (pk_buffer pkt)) (eth + o_eth_type).
Definition eth_src_of (pkt : packet) : option (list Z) :=
  eth ← pr_eth (ph_proto (pk_handle_std pkt)); bytes_at 6 (contents (pk_buffer pkt)) (eth + o_eth_src).

(** The fields ARP-Path reads, through the pointers of [handle_std->proto]. *)
Definition arp_frame_of (pkt : packet) : option arp_frame :=
  let data := contents (pk_buffer pkt) in
  let pr := ph_proto (pk_handle_std pkt) in
  eth ← pr_eth pr;
  dst ← bytes_at 6 data (eth + o_eth_dst);
  src ← eth_src_of pkt;
  type ← eth_type_of pkt;
  arp ← match pr_arp pr with
        | Some a => op ← ld 2 data (a + o_ar_op); Some (Some op)
        | None => Some None
        end;
  Some (Frame (pk_in_port pkt) dst src type arp (bool_decide (is_Some (pr_arppath pr)))).

(** The headers TCP-Path reads. *)
Definition headers_of (pr : protocols_std) (m : ofl_match) (data : list Z) : option headers :=
  tcp ← match pr_tcp pr with
        | Some k => s ← ld 2 data k; d ← ld 2 data (k + 2); c ← ld 2 data (k + o_tcp_ctl); Some (Some (TcpHeader s d c))
        | None => Some None
        end;
  path ← match pr_path pr with
         | Some k => s ← ld 2 data k; d ← ld 2 data (k + 2); Some (Some (PathHeader s d))
         | None => Some None
         end;
  Some (Headers (pr_ipv4 pr) tcp path (bool_decide (is_Some (pr_arppath_repair pr))) m).

Definition no_headers : headers := Headers None None None false ofl_structs_match_init.

(** The packet now holds [data]. *)
Definition set_data (b : ofpbuf) (data : list Z) : ofpbuf :=
  Ofpbuf (take (ob_data b) (ob_mem b) ++ data ++ drop (ob_data b + length data) (ob_mem b)) (ob_data b) (length data).

Section forwarding.
  Context `{Malloc}.
  Context (parse : list Z → option (ofl_match * protocols_std)).
  Context (TCP_PATH : Z) (w : world) (d g t : nat).

(** The world with the neighbours as they are now. *)
Definition world_at (nd : node) : world :=
  World (w_msec w) (w_now w) (w_id w) (w_miss_send_len w) (w_netdev w) (w_rand w) (nd_neighbors nd) (w_Matriz_bc w).

(** A packet resubmitted by OFPP_TABLE goes to [pipeline_process_packet]. *)
Definition resubmit (nd : node) : switch → positive → outcome switch :=
  pipeline_process_packet parse (world_at nd) d g t.

(** [dp_actions_output_port(pkt, port, pkt->out_queue, pkt->out_port_max_len, 0xff..ff)] *)
Definition output (nd : node) (sw : switch) (ptr : positive) (port : Z) : outcome switch :=
  pkt ← get sw ptr;
  dp_actions_output_port parse (world_at nd) (resubmit nd) sw ptr port (pk_out_queue pkt) (pk_out_port_max_len pkt) NO_COOKIE.

(** ** What the handlers ask for *)

Definition arp_out_run (nd : node) (ptr : positive) (o : arp_out) : outcome node :=
  match o with
  | AOutput port => sw ← output nd (nd_sw nd) ptr port; mret (with_sw nd sw)
  | ADestroy => sw ← destroy (w_now w) (nd_sw nd) ptr; mret (with_sw nd sw)
  end.

Fixpoint arp_outs_run (nd : node) (ptr : positive) (os : list arp_out) : outcome node :=
  match os with [] => mret nd | o :: os => nd ← arp_out_run nd ptr o; arp_outs_run nd ptr os end.

(** The bytes sent are written into the packet and decoded again if they are new. *)
Definition tcp_out_run (nd : node) (ptr : positive) (o : tcp_out) : outcome node :=
  match o with
  | TOutput port data =>
    pkt ← get (nd_sw nd) ptr;
    let pkt' := if bool_decide (contents (pk_buffer pkt) = data) then pkt
                else validate parse (edited pkt (set_data (pk_buffer pkt) data)) in
    sw ← output nd (put (nd_sw nd) ptr pkt') ptr port; mret (with_sw nd sw)
  | TDestroy => sw ← destroy (w_now w) (nd_sw nd) ptr; mret (with_sw nd sw)
  end.

Fixpoint tcp_outs_run (nd : node) (ptr : positive) (os : list tcp_out) : outcome node :=
  match os with [] => mret nd | o :: os => nd ← tcp_out_run nd ptr o; tcp_outs_run nd ptr os end.

(** ** ARP-Path and TCP-Path on a packet *)

Definition uah_arp_path (nd : node) (ptr : positive) : outcome node :=
  pkt ← get (nd_sw nd) ptr;
  f ← lift (arp_frame_of pkt);
  '(m, os) ← lift (pipeline_arp_path (w_msec w) (nd_neighbors nd) (nd_mac_port nd) f);
  arp_outs_run (with_mac nd m) ptr os.

Definition frame_of (pkt : packet) : option frame :=
  hd ← headers_of (ph_proto (pk_handle_std pkt)) (ph_match (pk_handle_std pkt)) (contents (pk_buffer pkt));
  Some (TFrame (contents (pk_buffer pkt)) (pk_in_port pkt) hd).

Definition parse_headers (data : list Z) : headers :=
  match parse data with Some (m, pr) => default no_headers (headers_of pr m data) | None => no_headers end.

(** [dp->ports[no].conf->state]: [conf] is NULL where no port was added. *)
Definition port_state (sw : switch) (no : Z) : option Z :=
  let p := port_at (sw_ports sw) no in if sp_used p then Some (sp_state p) else None.

(** The state, and whether ARP-Path is to be tried. *)
Definition uah_tcp_path (nd : node) (ptr : positive) : outcome (node * bool) :=
  pkt ← get (nd_sw nd) ptr;
  f ← lift (frame_of pkt);
  '(s, os, r) ← lift (pipeline_tcp_path parse_headers TCP_PATH (w_id w) (w_msec w) (port_state (nd_sw nd))
                        (PathState (nd_mac_port nd) (nd_tcp_table nd) (nd_secuence nd)) f);
  nd ← tcp_outs_run (with_paths nd s) ptr os;
  mret (nd, r =? 2).

(** ** The handler *)

(** A hello of a neighbour switch: refreshed, or added with the last byte of the frame. *)
Definition hello_received (nd : node) (src : list Z) (in_port : Z) (data : list Z) : option node :=
  '(n, p) ← mac_to_port_found_port (nd_neighbors nd) (w_msec w) src;
  if negb (p =? -1) then
    '(n, _) ← mac_to_port_update n (w_msec w) src in_port TIME_RECOVERY; Some (with_neighbors nd n)
  else
    position ← list.last data;
    n ← mac_to_port_add_hello n (w_msec w) src position in_port TIME_RECOVERY;
    Some (with_neighbors nd n).

(** The loop over the tables: [true] when the packet was taken care of. *)
Fixpoint uah_loop (turns : nat) (nd : node) (ptr : positive) (i : Z) : outcome (node * bool) :=
  match turns with
  | O => NoFuel
  | S turns =>
    '(sw, e) ← try_table parse (world_at nd) (resubmit nd) g (nd_sw nd) ptr i;
    match e with
    | TableGoto i => uah_loop turns (with_sw nd sw) ptr i
    | TableDone => mret (with_sw nd sw, true)
    | TableMiss => mret (with_sw nd sw, false)
    end
  end.

(** After the tables. *)
Definition uah_paths (nd : node) (ptr : positive) : outcome node :=
  pkt ← get (nd_sw nd) ptr;
  type ← lift (eth_type_of pkt);
  let pr := ph_proto (pk_handle_std pkt) in
  if type =? ETH_IPV6 then sw ← destroy (w_now w) (nd_sw nd) ptr; mret (with_sw nd sw)
  else if TCP_PATH =? 0 then uah_arp_path nd ptr
  else if bool_decide (is_Some (pr_tcp pr) ∨ is_Some (pr_path pr)) then
    '(nd, other) ← uah_tcp_path nd ptr;
    if (other : bool) then uah_arp_path nd ptr else mret nd
  else uah_arp_path nd ptr.

Definition pipeline_process_Uah (nd : node) (ptr : positive) : outcome node :=
  pkt ← get (nd_sw nd) ptr;
  let data := contents (pk_buffer pkt) in
  '(h, ok) ← lift (packet_handle_std_is_ttl_valid parse data (pk_in_port pkt) (pk_handle_std pkt));
  let nd := with_sw nd (put (nd_sw nd) ptr (set_handle pkt h)) in
  if negb ok then
    sw ← send_packet_to_controller parse (world_at nd) (nd_sw nd) ptr 0 OFPR_INVALID_TTL;
    sw ← destroy (w_now w) sw ptr; mret (with_sw nd sw)
  else
    type ← lift (eth_type_of (set_handle pkt h));
    if (type =? ETH_HELLO_CTR) || (type =? ETH_HELLO) then
      src ← lift (eth_src_of (set_handle pkt h));
      nd ← lift (hello_received nd src (pk_in_port pkt) data);
      sw ← destroy (w_now w) (nd_sw nd) ptr; mret (with_sw nd sw)
    else
      '(nd, done) ← uah_loop t nd ptr 0;
      if (done : bool) then mret nd else uah_paths nd ptr.

(** ** Receiving *)

(** The buffer of a received frame has 130 bytes of headroom. *)
Definition rx_buffer (frame : list Z) (tail : nat) : ofpbuf := Ofpbuf (xmalloc 130 ++ frame ++ xmalloc tail) 130 (length frame).

(** [process_buffer], without the test of the port's configuration. *)
Definition process_frame (nd : node) (in_port : Z) (frame : list Z) (tail : nat) : outcome node :=
  let '(sw, ptr) := alloc (nd_sw nd) (packet_create parse in_port (rx_buffer frame tail) false) in
  pipeline_process_Uah (with_sw nd sw) ptr.
End forwarding.
