(* ===== verification/Hello.v ===== *)
(** Neighbour discovery and the turns of the switch: [packet_hello_create], [packet_hello_send]
    of udatapath/packet.c, the receiving loop [dp_ports_run] of dp_ports.c on the whole state,
    and the turn of the main loop of udatapath.c without the controllers (Datapath.v adds them).

    A hello carries the address of port 1 and, as its last byte, the layer of the switch
    (core, aggregation, top of rack), which [dp_ports_output_random] uses to keep broadcasts
    from going down and up again. *)

From S2P Require Import Prelude Memory Ofpbuf Csum OpenFlow MatchStd ActionSet Buffers PacketActions LinkedList MacTable TcpTable.
From S2P Require Import ArpPath Group GroupTable Meter FlowTable Ports PortsCorrect TcpPath Pipeline Execute Forwarding.

Definition PORT_AGR := 2.

Definition TIME_SEND := 10.
Definition TIME_ARP := 10.
Definition TIME_TCP_DELETE := 10.

(** The layer of a switch, by its identifier. *)
Definition posicion (dp_id : Z) : Z :=
  if dp_id <? 100 then PORT_TOR
  else if (100 <=? dp_id) && (dp_id <? 1000) then PORT_AGR
  else if 1000 <=? dp_id then PORT_CORE else 1.

Section hello.
  Context `{Malloc}.
  Context (parse : list Z → option (ofl_match * protocols_std)).

(** [hw_addr] is the address of port 1, [Total] the 45 bytes of the array of that name,
    which is not initialised. *)
Definition packet_hello_create (dp_id : Z) (hw_addr Total : list Z) (in_port : Z) (packet_out : bool) : option packet :=
  buf ← ofpbuf_put (ofpbuf_new 46) (replicate 6 0xff);
  buf ← ofpbuf_put buf hw_addr;
  buf ← ofpbuf_put buf [0x76; 0x98];
  buf ← ofpbuf_put buf Total;
  buf ← ofpbuf_put buf [posicion dp_id];
  let pkt := packet_create parse in_port buf packet_out in
  Some (validate parse (set_handle pkt (set_valid (pk_handle_std pkt) false))).

Section turn.
  Context (TCP_PATH : Z) (w : world) (d g t : nat).

(** [ptr] is [pkt_hello_propio_aoss]. *)
Definition packet_hello_send (nd : node) (ptr : positive) : outcome node :=
  sw ← output parse w d g t nd (nd_sw nd) ptr OFPP_FLOOD; mret (with_sw nd sw).

(** * Receiving from all ports *)

Definition with_ports (nd : node) (p : dp_ports) : node :=
  let sw := nd_sw nd in
  with_sw nd (Switch (sw_pl sw) (sw_bufs sw) p (sw_sent sw) (sw_packet_ins sw) (sw_rand sw)).

(** [pipeline_process] of the receiving loop: the state is that of the ports too. *)
Definition process_on (tail : nat) (x : outcome node) (dp : dp_ports) (in_port : Z) (frame : list Z) : outcome node * dp_ports :=
  let x := nd ← x; process_frame parse TCP_PATH w d g t (with_ports nd dp) in_port frame tail in
  (x, match x with Done nd => sw_ports (nd_sw nd) | _ => dp end).

Definition ports_run (tail : nat) (nd : node) : outcome node :=
  let '(x, dp) := dp_ports_run (device w (nd_sw nd)) (process_on tail) (mret nd) (sw_ports (nd_sw nd)) in
  nd ← x; mret (with_ports nd dp).

(** * Timers *)

(** At the start of [dp_run], when the second has changed. *)
Definition run_timeouts (nd : node) : option node :=
  let sw := nd_sw nd in
  let pl := sw_pl sw in
  let dp := pl_dp pl in
  let pl := Pipeline (Datapath (dp_flows dp) (dp_groups dp) (meter_table_add_tokens (w_msec w) (dp_meters dp)) (dp_sent dp))
              (pl_tables pl) in
  pl ← pipeline_timeout (w_msec w) pl; Some (with_sw nd (set_pl sw pl)).

(** What the main loop keeps besides: the hello packet, [dp->last_timeout] and three times. *)
Record timers := Timers {
  tm_hello : positive;
  tm_last_timeout : Z;
  tm_sendtime : Z;
  tm_arptime : Z;
  tm_tcptime : Z }.

Definition due (now since secs : Z) : bool := secs * 1000 <? u64 (now - since).

(** The timers of the main loop, after [poll_block]. *)
Definition run_timers (nd : node) (tm : timers) : outcome (node * timers) :=
  let now := w_msec w in
  '(nd, send) ← (if due now (tm_sendtime tm) TIME_SEND then nd ← packet_hello_send nd (tm_hello tm); mret (nd, now)
                 else mret (nd, tm_sendtime tm));
  '(nd, arp) ← (if due now (tm_arptime tm) TIME_ARP then
                  m ← lift (mac_to_port_delete_timeout (nd_mac_port nd) now); mret (with_mac nd m, now)
                else mret (nd, tm_arptime tm));
  '(nd, tcp) ← (if due now (tm_tcptime tm) TIME_TCP_DELETE then
                  t ← lift (table_tcp_delete_timeout (nd_tcp_table nd) now);
                  mret (Nd (nd_sw nd) (nd_mac_port nd) t (nd_neighbors nd) (nd_secuence nd), now)
                else mret (nd, tm_tcptime tm));
  mret (nd, Timers (tm_hello tm) (tm_last_timeout tm) send arp tcp).

(** [dp_run] up to the controllers. *)
Definition dp_run_frames (tail : nat) (nd : node) (tm : timers) : outcome (node * timers) :=
  nd ← (if w_now w =? tm_last_timeout tm then mret nd else lift (run_timeouts nd));
  nd ← ports_run tail nd;
  mret (nd, Timers (tm_hello tm) (w_now w) (tm_sendtime tm) (tm_arptime tm) (tm_tcptime tm)).
End turn.
End hello.
