(* ===== verification/Repair.v ===== *)
(** Path repair: what the switch does with [recuperacion] 1 (and RECOVERY_DIST 1) in
    udatapath/pipeline.c and packet.c.  The constant is 0 in the source; here it is an argument, so
    that the same definitions are the switch as built and the switch with repair.

    A switch that cannot forward a unicast frame, because its destination is unknown or the port
    that leads to it is not live, floods a repair request (type 0x7797) with the two addresses, at
    most one in a second for a destination, as it means to.  Other switches flood requests on.  The
    switch the destination is attached to floods a reply (type 0x7798) with the lost address as
    its sender, from which the others learn where it is.

    The handlers are given over the tables, as lists of what is to be done with the packet, and
    then carried out on the heap of packets, as in Forwarding.v. *)

From S2P Require Import Prelude Memory Ofpbuf Csum OpenFlow MatchStd ActionSet Buffers PacketActions LinkedList MacTable TcpTable.
From S2P Require Import ArpPath Group GroupTable Meter FlowTable Ports PortsCorrect TcpPath Pipeline Execute Forwarding.

(** [eth_type] of requests and replies, as read from memory. *)
Definition ETH_REPAIR := 38775.
Definition ETH_REPAIR_REPLY := 39031.

Record repair_tables := RTables {
  rt_mac_port : mac_to_port;
  rt_recovery : mac_to_port;
  rt_puerto_no_disponible : Z }.

(** What happens to the packet: it holds other bytes, is sent, is destroyed; and
    [send_packet_recovery] for a packet with these addresses and bytes. *)
Inductive repair_out :=
  | RData (data : list Z)
  | ROutput (port : Z)
  | RSend (opcion : Z) (src dst data : list Z)
  | RDestroy.

(** * The frames *)

(** [hw_addr] is the address of port 1, [Total] the 32 bytes of the array of that name, which
    is not initialised. *)
Definition recovery_bytes (hw_addr Total src dst data : list Z) (opcion : Z) : option (list (list Z)) :=
  if opcion =? 1 then Some [replicate 6 0xff; hw_addr; [0x77; 0x97]; [0x01; 0x00]; src; dst; Total]
  else
    Mac_origen ← read_back 38 6 data;
    Mac_dst ← read_back 44 6 data;
    Some [replicate 6 0xff; Mac_origen; [0x77; 0x98]; [0x02; 0x00]; Mac_origen; Mac_dst; Total].

Fixpoint put_all `{Malloc} (buf : ofpbuf) (parts : list (list Z)) : option ofpbuf :=
  match parts with [] => Some buf | p :: parts => buf ← ofpbuf_put buf p; put_all buf parts end.

(** What is written into the headers of the handle is lost when it is validated again. *)
Definition packet_recovery_create `{Malloc} (parse : list Z → option (ofl_match * protocols_std)) (hw_addr Total src dst data : list Z)
    (opcion in_port : Z) (packet_out : bool) : option packet :=
  parts ← recovery_bytes hw_addr Total src dst data opcion;
  buf ← put_all (ofpbuf_new 14) parts;
  let pkt := packet_create parse in_port buf packet_out in
  Some (validate parse (set_handle pkt (set_valid (pk_handle_std pkt) false))).

(** * The handlers *)

Section handlers.
  Context (recuperacion now : Z) (port_state : Z → option Z).

(** The destination is out of reach; [dead] is the port that leads to it. *)
Definition ask_repair (s : repair_tables) (src dst data : list Z) (in_port : Z) (dead : option Z) :
    option (repair_tables * list repair_out) :=
  let flag := if rt_puerto_no_disponible s =? 0 then 1 else rt_puerto_no_disponible s in
  c ← mac_to_port_check_timeout (rt_recovery s) now dst;
  if negb (c =? 0) then
    r ← mac_to_port_add (rt_recovery s) now dst in_port TIME_RECOVERY;
    m ← match dead with
        | Some out_port => mac_to_port_delete_port (rt_mac_port s) out_port
        | None => Some (rt_mac_port s)
        end;
    Some (RTables m r flag, [RSend 1 src dst data])
  else Some (RTables (rt_mac_port s) (rt_recovery s) flag, []).

(** [ports[no].conf->state == OFPPS_LIVE] *)
Definition port_live (no : Z) : option bool := state ← port_state no; Some (state =? OFPPS_LIVE).

Definition repair_send_unicast (s : repair_tables) (src dst data : list Z) (in_port out_port : Z) :
    option (repair_tables * list repair_out) :=
  if negb (out_port =? -1) then
    live ← (if recuperacion =? 0 then Some true else port_live out_port);
    if (live : bool) then
      let flag := if (recuperacion =? 1) && (rt_puerto_no_disponible s =? 1) then 2 else rt_puerto_no_disponible s in
      '(m, _) ← mac_to_port_time_refresh (rt_mac_port s) now dst LT_TIME;
      Some (RTables m (rt_recovery s) flag, [ROutput out_port])
    else if recuperacion =? 1 then ask_repair s src dst data in_port (Some out_port)
    else Some (s, [])
  else if recuperacion =? 1 then ask_repair s src dst data in_port None
  else Some (s, []).

Definition with_macs (s : repair_tables) (m : mac_to_port) : repair_tables := RTables m (rt_recovery s) (rt_puerto_no_disponible s).

(** [pipeline_arp_path]: as in ArpPath.v up to the sending of unicast frames. *)
Definition repair_arp_path (neighbor_table : mac_to_port) (s : repair_tables) (f : arp_frame) (data : list Z) :
    option (repair_tables * list repair_out) :=
  '(m, puerto_mac) ← mac_to_port_found_port (rt_mac_port s) now (fr_eth_src f);
  if eth_addr_is_broadcast (fr_eth_dst f) || eth_addr_is_multicast (fr_eth_dst f) then
    if puerto_mac =? -1 then
      vecino ← is_neighbor neighbor_table (fr_in_port f);
      Some (with_macs s (mac_to_port_add_arp_table m now (fr_eth_src f) (fr_in_port f) BT_TIME vecino), [ROutput OFPP_RANDOM])
    else if puerto_mac =? fr_in_port f then
      '(m, _) ← mac_to_port_time_refresh m now (fr_eth_src f) BT_TIME;
      Some (with_macs s m, [ROutput OFPP_RANDOM])
    else
      c ← mac_to_port_check_timeout m now (fr_eth_src f);
      if negb (c =? 0) then
        '(m, _) ← mac_to_port_update m now (fr_eth_src f) (fr_in_port f) BT_TIME;
        Some (with_macs s m, [ROutput OFPP_RANDOM])
      else Some (with_macs s m, [RDestroy])
  else
    m ← (if (fr_eth_type f =? 1544) || fr_arppath f then
           match fr_arp f with
           | Some _ => if is_arp_reply (fr_arp f) then learn_unicast now neighbor_table m f puerto_mac else Some m
           | None => if fr_arppath f then learn_unicast now neighbor_table m f puerto_mac else Some m
           end
         else Some m);
    '(m, puerto_mac) ← mac_to_port_found_port m now (fr_eth_dst f);
    repair_send_unicast (with_macs s m) (fr_eth_src f) (fr_eth_dst f) data (fr_in_port f) puerto_mac.

(** A reply: the sender is learned, unless the entry could not be changed; the frame is flooded.
    A request: flooded on, or answered. *)
Definition apply_recovery (neighbor_table mac_port : mac_to_port) (f : frame) (type : Z) : option (mac_to_port * list repair_out) :=
  let src := eth_src (tf_data f) in
  if type =? 2 then
    '(m, puerto_mac) ← mac_to_port_found_port mac_port now src;
    if puerto_mac =? -1 then
      vecino ← is_neighbor neighbor_table (tf_in_port f);
      Some (mac_to_port_add_arp_table m now src (tf_in_port f) TIME_RECOVERY vecino, [ROutput OFPP_RANDOM; RDestroy])
    else
      '(m, puerto_mac) ← mac_to_port_update m now src (tf_in_port f) TIME_RECOVERY;
      if puerto_mac =? 1 then Some (m, [RDestroy]) else Some (m, [ROutput OFPP_RANDOM; RDestroy])
  else
    v ← dst_is_neighbor mac_port f;
    if v =? 0 then Some (mac_port, [ROutput OFPP_RANDOM; RDestroy])
    else Some (mac_port, [RSend 2 src (eth_dst (tf_data f)) (tf_data f); RDestroy]).

Section tcp.
  Context (parse_headers : list Z → headers).

(** [op] is the opcode of the path header.  [port_dst] is 0: it is never set. *)
Definition recovery_tcp_path (s : repair_tables) (tcp_table : table_tcp) (f : frame) (op puerto_mac : Z) :
    option (repair_tables * table_tcp * list repair_out) :=
  '(f, data) ← match hd_path (tf_hd f) with
               | Some _ => f ← desencapsulate_path_request_tcp parse_headers f op; Some (f, [RData (tf_data f)])
               | None => Some (f, [])
               end;
  tcp ← hd_tcp (tf_hd f);
  let src := eth_src (tf_data f) in
  let dst := eth_dst (tf_data f) in
  let live no := l ← port_live no; Some (l || (recuperacion =? 0)) in
  '(m, out_port) ← mac_to_port_found_port (rt_mac_port s) now dst;
  let s := with_macs s m in
  usable ← (if out_port =? -1 then Some false else l ← live out_port; Some (l && negb (puerto_mac =? out_port)));
  if (usable : bool) then
    '(s, os) ← repair_send_unicast s src dst (tf_data f) (tf_in_port f) out_port;
    Some (s, tcp_table, data ++ os)
  else
    v ← mac_vecino (rt_mac_port s) src;
    if v =? 1 then
      '(s, os) ← repair_send_unicast s src dst (tf_data f) (tf_in_port f) out_port;
      Some (s, tcp_table, data ++ os)
    else
      '(t, out_port) ← table_tcp_found_port tcp_table (src, dst, tcp_src tcp, 0);
      l ← (if out_port =? -1 then Some false else live out_port);
      Some (s, t, data ++ if (l : bool) then [ROutput out_port; RDestroy] else []).

(** What [pipeline_tcp_path] does with the frame when it is to leave by a port that is not there. *)
Definition repair_unsent (s : repair_tables) (tcp_table : table_tcp) (f : frame) (op puerto_mac : Z) :
    option (repair_tables * table_tcp * list repair_out * Z) :=
  if recuperacion =? 1 then
    '(s, t, os) ← recovery_tcp_path s tcp_table f op puerto_mac; Some (s, t, os ++ [RDestroy], 0)
  else Some (s, tcp_table, [], 1).

(** The handler: as in TcpPath.v up to the port that is not there. *)
Definition repair_tcp_path (TCP_PATH dp_id secuence : Z) (s : repair_tables) (tcp_table : table_tcp) (f : frame) (op : Z) :
    option (repair_tables * table_tcp * Z * list repair_out * Z) :=
  '(ps, step) ← tcp_path_classify parse_headers TCP_PATH dp_id now (PathState (rt_mac_port s) tcp_table secuence) f;
  let t := ps_tcp_table ps in
  let seq := ps_secuence ps in
  match step with
  | PathOther => Some (with_macs s (ps_mac_port ps), t, seq, [], 2)
  | PathGone => Some (with_macs s (ps_mac_port ps), t, seq, [RDestroy], 0)
  | PathSend f puerto_mac =>
    '(m, _) ← mac_to_port_time_refresh (ps_mac_port ps) now (eth_src (tf_data f)) LT_TIME;
    let s := with_macs s m in
    if eth_addr_is_broadcast (eth_dst (tf_data f)) || eth_addr_is_multicast (eth_dst (tf_data f)) then
      Some (s, t, seq, [RData (tf_data f); ROutput OFPP_RANDOM; RDestroy], 1)
    else
      live ← (if 0 <? puerto_mac then port_live puerto_mac else Some false);
      if (live : bool) then
        t ← match hd_tcp (tf_hd f) with
            | Some tcp => '(t, _) ← table_tcp_update_time t now (inverso (tcp_key_of f tcp)) TCP_TIME; Some t
            | None => Some t
            end;
        Some (s, t, seq, [RData (tf_data f); ROutput puerto_mac; RDestroy], 1)
      else
        '(s, t, os, r) ← repair_unsent s t f op puerto_mac;
        Some (s, t, seq, os, r)
  end.
End tcp.
End handlers.

(** * On the heap of packets *)

Record repair_node := RNode {
  rn_node : node;
  rn_recovery : mac_to_port;
  rn_puerto_no_disponible : Z }.

Definition tables_at (x : repair_node) : repair_tables := RTables (nd_mac_port (rn_node x)) (rn_recovery x) (rn_puerto_no_disponible x).
Definition set_tables (x : repair_node) (s : repair_tables) : repair_node :=
  RNode (with_mac (rn_node x) (rt_mac_port s)) (rt_recovery s) (rt_puerto_no_disponible s).
Definition set_node (x : repair_node) (nd : node) : repair_node := RNode nd (rn_recovery x) (rn_puerto_no_disponible x).

Section repair.
  Context `{Malloc}.
  Context (parse : list Z → option (ofl_match * protocols_std)).
  Context (recuperacion TCP_PATH : Z) (hw_addr Total : list Z) (w : world) (d g t : nat).

Definition send_packet_recovery (nd : node) (src dst data : list Z) (opcion : Z) : outcome node :=
  pkt ← lift (packet_recovery_create parse hw_addr Total src dst data opcion 0 true);
  let '(sw, ptr) := alloc (nd_sw nd) pkt in
  sw ← output parse w d g t nd sw ptr OFPP_FLOOD;
  sw ← destroy (w_now w) sw ptr; mret (with_sw nd sw).

Definition repair_out_run (nd : node) (ptr : positive) (o : repair_out) : outcome node :=
  match o with
  | RData data =>
    pkt ← get (nd_sw nd) ptr;
    let pkt' := if bool_decide (contents (pk_buffer pkt) = data) then pkt
                else validate parse (edited pkt (set_data (pk_buffer pkt) data)) in
    mret (with_sw nd (put (nd_sw nd) ptr pkt'))
  | ROutput port => sw ← output parse w d g t nd (nd_sw nd) ptr port; mret (with_sw nd sw)
  | RSend opcion src dst data => send_packet_recovery nd src dst data opcion
  | RDestroy => sw ← destroy (w_now w) (nd_sw nd) ptr; mret (with_sw nd sw)
  end.

Fixpoint repair_outs_run (nd : node) (ptr : positive) (os : list repair_out) : outcome node :=
  match os with [] => mret nd | o :: os => nd ← repair_out_run nd ptr o; repair_outs_run nd ptr os end.

(** A handler has answered with new tables and outputs. *)
Definition carry_out (x : repair_node) (ptr : positive) (s : repair_tables) (os : list repair_out) : outcome repair_node :=
  let x := set_tables x s in nd ← repair_outs_run (rn_node x) ptr os; mret (set_node x nd).

Definition uah_repair_arp (x : repair_node) (ptr : positive) : outcome repair_node :=
  pkt ← get (nd_sw (rn_node x)) ptr;
  f ← lift (arp_frame_of pkt);
  '(s, os) ← lift (repair_arp_path recuperacion (w_msec w) (port_state (nd_sw (rn_node x))) (nd_neighbors (rn_node x)) (tables_at x) f
                     (contents (pk_buffer pkt)));
  carry_out x ptr s os.

Definition set_tcp (x : repair_node) (t : table_tcp) (secuence : Z) : repair_node :=
  let nd := rn_node x in set_node x (Nd (nd_sw nd) (nd_mac_port nd) t (nd_neighbors nd) secuence).

(** [proto->path->op], 20 bytes into the header; not read without one. *)
Definition path_op (pkt : packet) : option Z :=
  match pr_path (ph_proto (pk_handle_std pkt)) with Some k => ld 1 (contents (pk_buffer pkt)) (k + 20) | None => Some 0 end.

(** The two calls of [recovery_tcp_path] before TCP-Path: when a segment comes in by the port that the
    table has for its other direction. *)
Definition repair_before (x : repair_node) (ptr : positive) (ports : headers → option (Z * Z)) : outcome repair_node :=
  pkt ← get (nd_sw (rn_node x)) ptr;
  f ← lift (frame_of pkt);
  match ports (tf_hd f) with
  | None => mret x
  | Some (sport, dport) =>
    '(tb, p) ← lift (table_tcp_found_port (nd_tcp_table (rn_node x)) (eth_dst (tf_data f), eth_src (tf_data f), dport, sport));
    let x := set_tcp x tb (nd_secuence (rn_node x)) in
    if p =? tf_in_port f then
      op ← lift (path_op pkt);
      '(s, tb, os) ← lift (recovery_tcp_path recuperacion (w_msec w) (port_state (nd_sw (rn_node x))) (parse_headers parse) (tables_at x)
                            (nd_tcp_table (rn_node x)) f op (tf_in_port f));
      carry_out (set_tcp x tb (nd_secuence (rn_node x))) ptr s os
    else mret x
  end.

Definition tcp_ports (h : headers) : option (Z * Z) := (λ tcp, (tcp_src tcp, tcp_dst tcp)) <$> hd_tcp h.
Definition path_ports (h : headers) : option (Z * Z) := (λ path, (path_tcp_src path, path_tcp_dst path)) <$> hd_path h.

Definition uah_repair_tcp (x : repair_node) (ptr : positive) : outcome (repair_node * bool) :=
  x ← (if recuperacion =? 1 then x ← repair_before x ptr tcp_ports; repair_before x ptr path_ports else mret x);
  pkt ← get (nd_sw (rn_node x)) ptr;
  f ← lift (frame_of pkt);
  op ← lift (if recuperacion =? 1 then path_op pkt else Some 0);
  '(s, tb, seq, os, r) ← lift (repair_tcp_path recuperacion (w_msec w) (port_state (nd_sw (rn_node x))) (parse_headers parse) TCP_PATH (w_id w)
                            (nd_secuence (rn_node x)) (tables_at x) (nd_tcp_table (rn_node x)) f op);
  x ← carry_out (set_tcp x tb seq) ptr s os;
  mret (x, r =? 2).

(** The loop over the tables: a flow that matches ends the measured time of a repair. *)
Fixpoint repair_loop (turns : nat) (x : repair_node) (ptr : positive) (i : Z) : outcome (repair_node * bool) :=
  match turns with
  | O => NoFuel
  | S turns =>
    let nd := rn_node x in
    '(sw, e) ← try_table parse (world_at w nd) (resubmit parse w d g t nd) g (nd_sw nd) ptr i;
    let x := set_node x (with_sw nd sw) in
    let flag := if (recuperacion =? 1) && (rn_puerto_no_disponible x =? 1) then 2 else rn_puerto_no_disponible x in
    match e with
    | TableGoto i => repair_loop turns (RNode (rn_node x) (rn_recovery x) flag) ptr i
    | TableDone => mret (RNode (rn_node x) (rn_recovery x) flag, true)
    | TableMiss => mret (x, false)
    end
  end.

Definition repair_paths (x : repair_node) (ptr : positive) : outcome repair_node :=
  pkt ← get (nd_sw (rn_node x)) ptr;
  type ← lift (eth_type_of pkt);
  let pr := ph_proto (pk_handle_std pkt) in
  if type =? ETH_IPV6 then sw ← destroy (w_now w) (nd_sw (rn_node x)) ptr; mret (set_node x (with_sw (rn_node x) sw))
  else if TCP_PATH =? 0 then uah_repair_arp x ptr
  else if bool_decide (is_Some (pr_tcp pr) ∨ is_Some (pr_path pr)) then
    '(x, other) ← uah_repair_tcp x ptr;
    if (other : bool) then uah_repair_arp x ptr else mret x
  else uah_repair_arp x ptr.

(** Requests and replies of an unknown sender, before the tables. *)
Definition repair_frame (x : repair_node) (ptr : positive) (pkt : packet) (type : Z) : outcome (repair_node * bool) :=
  if (recuperacion =? 1) && ((type =? ETH_REPAIR) || (type =? ETH_REPAIR_REPLY)) then
    src ← lift (eth_src_of pkt);
    c ← lift (mac_to_port_check_timeout (nd_mac_port (rn_node x)) (w_msec w) src);
    if negb (c =? 0) then
      f ← lift (frame_of pkt);
      '(m, os) ← lift (apply_recovery (w_msec w) (nd_neighbors (rn_node x)) (nd_mac_port (rn_node x)) f (if type =? ETH_REPAIR then 1 else 2));
      nd ← repair_outs_run (with_mac (rn_node x) m) ptr os;
      mret (set_node x nd, true)
    else mret (x, false)
  else mret (x, false).

(** [pipeline_process_Uah] *)
Definition process_repair (x : repair_node) (ptr : positive) : outcome repair_node :=
  let nd := rn_node x in
  pkt ← get (nd_sw nd) ptr;
  let data := contents (pk_buffer pkt) in
  '(h, ok) ← lift (packet_handle_std_is_ttl_valid parse data (pk_in_port pkt) (pk_handle_std pkt));
  let nd := with_sw nd (put (nd_sw nd) ptr (set_handle pkt h)) in
  if negb ok then
    sw ← send_packet_to_controller parse (world_at w nd) (nd_sw nd) ptr 0 OFPR_INVALID_TTL;
    sw ← destroy (w_now w) sw ptr; mret (set_node x (with_sw nd sw))
  else
    type ← lift (eth_type_of (set_handle pkt h));
    if (type =? ETH_HELLO_CTR) || (type =? ETH_HELLO) then
      src ← lift (eth_src_of (set_handle pkt h));
      nd ← lift (hello_received w nd src (pk_in_port pkt) data);
      sw ← destroy (w_now w) (nd_sw nd) ptr; mret (set_node x (with_sw nd sw))
    else
      '(x, handled) ← repair_frame (set_node x nd) ptr (set_handle pkt h) type;
      if (handled : bool) then mret x
      else
        '(x, taken) ← repair_loop t x ptr 0;
        if (taken : bool) then mret x else repair_paths x ptr.
End repair.
