(* ===== verification/MessagesRange.v ===== *)
(** What the handlers may rely on: the ranges that [ofl_msg_unpack] guarantees for the members
    of the messages it makes of bytes (oflib/ofl-messages-unpack.c). *)

From S2P Require Import Prelude Memory OpenFlow Oxm Group GroupTable Meter Ports Controllers FlowTable Wire OxmWire StatsWire Experimenter Features Messages Pipeline.

(** The table, group and meter numbers, the numbers of elements and the widths. *)
Definition unpacked_ok (m : ofl_msg) : Prop :=
  match m with
  | MsgFlowMod m => table_range (fm_table_id m) ∧ 0 <= fm_idle_timeout m
  | MsgGroupMod m => GroupTable.group_mod_ok m
  | MsgMeterMod m => Z.of_nat (length (mm_bands m)) < 2 ^ 16
  | MsgTableMod table_id _ => 0 <= table_id < Z.of_nat Pipeline.PIPELINE_TABLES
  | MsgMultipartRequest _ _ (ReqTableFeatures (Some l)) => Forall (λ f, 0 <= tf_table_id f) l
  | MsgMultipartRequest _ _ (ReqFlow r) => table_range (rf_table_id r)
  | MsgRole _ _ generation_id => fits 64 generation_id
  | MsgExperimenter (ExpQueue _ _ queue) => 0 <= pq_queue_id queue
  | _ => True
  end.

(** If there is a value, it is as it should be. *)
Definition holds {A} (P : A → Prop) (r : res A) : Prop := ∀ a, r = Val a → P a.

Lemma holds_val {A} (P : A → Prop) a : P a → holds P (Val a).
Proof. by intros ? ? [= <-]. Qed.
Lemma holds_err {A} (P : A → Prop) e : holds P (Err e).
Proof. done. Qed.
Lemma holds_undef {A} (P : A → Prop) : holds P Undef.
Proof. done. Qed.
Lemma holds_bind {A B} (P : A → Prop) (Q : B → Prop) (r : res A) (f : A → res B) : holds P r → (∀ a, P a → holds Q (f a)) → holds Q (r ≫= f).
Proof. intros Hr Hf b. destruct r; [done|done|done|]. apply Hf. by apply Hr. Qed.
Lemma holds_any {A B} (Q : B → Prop) (r : res A) (f : A → res B) : (∀ a, r = Val a → holds Q (f a)) → holds Q (r ≫= f).
Proof. intros Hf b. destruct r; [done|done|done|]. by apply Hf. Qed.
Lemma holds_if {A} (P : A → Prop) (b : bool) (r1 r2 : res A) : (b = true → holds P r1) → (b = false → holds P r2) → holds P (if b then r1 else r2).
Proof. destruct b; auto. Qed.

(** Walks through the branches of an unpacking function down to its values. *)
Ltac walk :=
  repeat match goal with
    | |- holds _ (Err _) => apply holds_err
    | |- holds _ Undef => apply holds_undef
    | |- holds _ (Val _) => apply holds_val
    | |- holds _ (if ?b then _ else _) => apply holds_if; intros _
    | |- holds _ (_ ≫= _) => apply holds_any; intros ? _
    | |- holds _ (match ?x with (_, _) => _ end) => destruct x
    end.

(** * Counting *)

(** An element takes at least [least] bytes. *)
Lemma count_least room least off e fuel buf p len n :
  0 < least → count_loop room least off e fuel buf p len = Val n → n = 0%nat ∨ Z.of_nat n * least <= len.
Proof.
  intros Hl. revert p len n. induction fuel as [|fuel IH]; intros p len n; cbn [count_loop]; (destruct (len <? room); [intros [= <-]; by left|]); [done|].
  destruct (get 2 buf (p + off)) as [| | |l]; try done. cbn [mbind res_bind]. destruct ((len <? l) || (l <? least)) eqn:Eb; [done|].
  apply orb_false_iff in Eb as [E1%Z.ltb_ge E2%Z.ltb_ge]. destruct (count_loop _ _ _ _ _ _ _ (len - l)) as [| | |k] eqn:Ek; try done.
  intros [= <-]. right. destruct (IH _ _ _ Ek) as [->|Hk]; lia.
Qed.

Lemma loop_length {A} (unpack : nat → Z → res (A * Z)) off n buf p len l rest :
  unpack_loop unpack off n buf p len = Val (l, rest) → length l = n.
Proof.
  revert p len l rest. induction n as [|n IH]; intros p len l rest; cbn [unpack_loop]; [by intros [= <- _]|].
  destruct (unpack p len) as [| | |[a len']]; try done. cbn [mbind res_bind]. destruct (get 2 buf (p + off)) as [| | |k]; try done. cbn [mbind res_bind].
  destruct (unpack_loop unpack off n buf (p + Z.to_nat k) len') as [| | |[l' r']] eqn:E; try done. intros [= <- _]. cbn. f_equal. by eapply IH.
Qed.

Lemma loop_forall {A} (P : A → Prop) (unpack : nat → Z → res (A * Z)) off n buf p len :
  (∀ p len, holds (λ r, P r.1) (unpack p len)) → holds (λ r, Forall P r.1) (unpack_loop unpack off n buf p len).
Proof.
  intros HP. revert p len. induction n as [|n IH]; intros p len; cbn [unpack_loop]; [by apply holds_val|].
  eapply holds_bind; [apply HP|]. intros [a len'] Ha. apply holds_any. intros k _. eapply holds_bind; [apply IH|]. intros [l r] Hl. apply holds_val. by constructor.
Qed.

Section bytes.
  Context (buf : list Z) (Hb : bytes buf).

Lemma get_fits w p : holds (fits (8 * Z.of_nat w)) (get w buf p).
Proof using Hb.
  unfold get, get_bytes. destruct (mread buf p w) as [bs|] eqn:E; [|apply holds_undef]. cbn [mbind res_bind]. apply holds_val.
  apply mread_Some in E as [Hl ->]. unfold be_read, fits.
  assert (length (rev (take w (drop p buf))) = w) as El by (rewrite length_rev, length_take, length_drop; lia).
  assert (bytes (rev (take w (drop p buf)))) as Hr by (apply Forall_rev, Forall_take, Forall_drop, Hb).
  pose proof (le_read_bound _ Hr) as Hx. by rewrite El in Hx.
Qed.

Lemma get_small w p m : 8 * Z.of_nat w = m → holds (fits m) (get w buf p).
Proof using Hb. intros <-. apply get_fits. Qed.

(** ** Messages *)

Lemma table_one x : fits 8 x → x < 64 ∨ x = 0xff → table_range x.
Proof using. unfold fits, table_range, Pipeline.PIPELINE_TABLES. intros H1 [|]; [left; lia|by right]. Qed.

Lemma flow_mod_range len : holds (λ r, unpacked_ok r.1) (ofl_msg_unpack_flow_mod buf len).
Proof using Hb.
  unfold ofl_msg_unpack_flow_mod. apply holds_if; intros _; [apply holds_err|].
  eapply holds_bind; [by apply (get_small 1 _ 8)|]. intros table_id Ht. apply holds_any. intros command _.
  apply holds_if; intros Hc; [apply holds_err|]. do 2 (apply holds_any; intros ? _).
  eapply holds_bind; [by apply (get_small 2 _ 16)|]. intros idle Hi. walk. cbn [unpacked_ok fst fm_table_id fm_idle_timeout].
  split; [|apply Hi]. apply table_one; [done|]. unfold Wire.PIPELINE_TABLES, OFPTT_ALL in Hc. destruct (Z.eqb_spec table_id 255); [by right|left].
  destruct (Z.leb_spec 64 table_id); [|lia]. exfalso. destruct (Z.eqb_spec command 3), (Z.eqb_spec command 4); subst; try done; cbn in Hc; done.
Qed.

Lemma group_mod_range len : len < 2 ^ 16 → holds (λ r, unpacked_ok r.1) (ofl_msg_unpack_group_mod buf len).
Proof using Hb.
  intros Hlen. unfold ofl_msg_unpack_group_mod. apply holds_if; intros _; [apply holds_err|]. apply holds_any. intros command _. apply holds_any. intros type _.
  apply holds_any. intros group_id _. apply holds_if; intros _; [apply holds_err|]. apply holds_if; intros _; [apply holds_err|].
  apply holds_if; intros Hg; [apply holds_err|]. apply holds_any. intros n Hn. do 2 (apply holds_if; intros _; [apply holds_err|]).
  apply holds_any. intros [buckets rest] Hl. apply holds_val. cbn [unpacked_ok fst]. split; cbn [gm_group_id gm_command gm_buckets].
  - destruct (Z.ltb_spec OFPG_MAX group_id); [|by left]. cbn [andb] in Hg. apply negb_false_iff, andb_true_iff in Hg as [Hc _].
    apply Z.eqb_eq in Hc as ->. by right.
  - rewrite (loop_length _ _ _ _ _ _ _ _ Hl). apply count_least in Hn as [->|Hn]; [done|lia|lia].
Qed.

Lemma meter_mod_range len : len < 2 ^ 16 → holds (λ r, unpacked_ok r.1) (ofl_msg_unpack_meter_mod buf len).
Proof using.
  intros Hlen. unfold ofl_msg_unpack_meter_mod. apply holds_if; intros _; [apply holds_err|]. do 3 (apply holds_any; intros ? _).
  do 3 (apply holds_if; intros _; [apply holds_err|]). apply holds_any. intros n Hn. apply holds_any. intros [bands rest] Hl. apply holds_val.
  cbn [unpacked_ok fst mm_bands]. rewrite (loop_length _ _ _ _ _ _ _ _ Hl). apply count_least in Hn as [->|Hn]; [done|lia|lia].
Qed.

Lemma table_mod_range len : holds (λ r, unpacked_ok r.1) (ofl_msg_unpack_table_mod buf len).
Proof using Hb.
  unfold ofl_msg_unpack_table_mod. apply holds_if; intros _; [apply holds_err|]. eapply holds_bind; [by apply (get_small 1 _ 8)|]. intros table_id Ht.
  apply holds_if; intros Hc; [apply holds_err|]. apply holds_any. intros config _. apply holds_val. apply Z.leb_gt in Hc.
  cbn [unpacked_ok fst]. unfold Wire.PIPELINE_TABLES in Hc. unfold Pipeline.PIPELINE_TABLES. unfold fits in Ht. lia.
Qed.

Lemma role_range t len : holds (λ r, unpacked_ok r.1) (ofl_msg_unpack_role_request buf t len).
Proof using Hb.
  unfold ofl_msg_unpack_role_request. apply holds_if; intros _; [apply holds_err|]. apply holds_any. intros role _.
  eapply holds_bind; [by apply (get_small 8 _ 64)|]. intros gen Hg. by apply holds_val.
Qed.

Lemma features_range p len : holds (λ r, 0 <= tf_table_id r.1) (ofl_structs_table_features_unpack buf p len).
Proof using Hb.
  unfold ofl_structs_table_features_unpack. apply holds_if; intros _; [apply holds_err|]. apply holds_any. intros l _.
  apply holds_if; intros _; [apply holds_err|]. eapply holds_bind; [by apply (get_small 1 _ 8)|]. intros table_id Ht. walk. apply Ht.
Qed.

Lemma request_range len : holds (λ r, unpacked_ok r.1) (ofl_msg_unpack_multipart_request buf len).
Proof using Hb.
  unfold ofl_msg_unpack_multipart_request. apply holds_if; intros _; [apply holds_err|]. apply holds_any. intros type _.
  eapply (holds_bind (λ r, unpacked_ok (MsgMultipartRequest type 0 r.1))).
  - apply holds_if; intros _; [by apply holds_val|]. apply holds_if; intros _.
    { unfold ofl_msg_unpack_multipart_request_flow. apply holds_if; intros _; [apply holds_err|].
      eapply holds_bind; [by apply (get_small 1 _ 8)|]. intros table_id Ht. apply holds_if; intros Hc; [apply holds_err|]. walk.
      apply table_one; [done|]. cbn [rf_table_id]. unfold OFPTT_ALL, Wire.PIPELINE_TABLES in Hc.
      destruct (Z.eqb_spec table_id 255); [by right|left]. cbn [negb andb] in Hc. by apply Z.leb_gt. }
    apply holds_if; intros _.
    { unfold ofl_msg_unpack_multipart_request_table_features. apply holds_if; intros _; [by apply holds_val|]. unfold unpack_tables.
      apply (holds_bind (λ r, Forall (λ f, 0 <= tf_table_id f) r.1)); [|intros [l r] Hl; by apply holds_val].
      apply holds_any. intros n _. apply loop_forall. apply features_range. }
    unfold ofl_msg_unpack_multipart_request_port, ofl_msg_unpack_multipart_request_queue, ofl_msg_unpack_multipart_request_group,
      ofl_msg_unpack_meter_multipart_request. walk; done.
  - intros [body rest] Hr. walk. exact Hr.
Qed.

Lemma experimenter_range len : holds (λ r, unpacked_ok (MsgExperimenter r.1)) (ofl_exp_msg_unpack buf len).
Proof using Hb.
  unfold ofl_exp_msg_unpack. apply holds_if; intros _; [apply holds_err|]. apply holds_any. intros v _. apply holds_if; intros _.
  - unfold ofl_exp_openflow_msg_unpack. apply holds_if; intros _; [apply holds_err|]. apply holds_any. intros v' _.
    apply holds_if; intros _; [|apply holds_err]. apply holds_any. intros sub _. apply holds_if; intros _.
    + apply holds_if; intros _; [apply holds_err|]. apply holds_any. intros port _.
      apply (holds_bind (λ r, 0 <= pq_queue_id r.1)); [|intros [q r] Hq; by apply holds_val]. unfold ofl_structs_packet_queue_unpack.
      apply holds_any. intros l _. apply holds_if; intros _; [apply holds_err|]. eapply holds_bind; [by apply (get_small 4 _ 32)|]. intros id Hid.
      walk. apply Hid.
    + walk; done.
  - apply holds_if; intros _; [|apply holds_err]. unfold ofl_exp_nicira_msg_unpack. walk; done.
Qed.

(** Whatever bytes arrive, the message made of them is in range. *)
Lemma unpack_range : holds (λ r, unpacked_ok r.2) (ofl_msg_unpack ofl_exp_msg_unpack buf).
Proof using Hb.
  unfold ofl_msg_unpack. apply holds_if; intros _; [apply holds_err|]. apply holds_any. intros version _. apply holds_if; intros _; [apply holds_err|].
  apply holds_any. intros xid _. eapply holds_bind; [by apply (get_small 2 _ 16)|]. intros l Hl. apply holds_if; intros El; [apply holds_err|].
  apply negb_false_iff, Z.eqb_eq in El. apply holds_any. intros t _. set (len := Z.of_nat (length buf)) in *. assert (len < 2 ^ 16) as Hlen by (destruct Hl; lia).
  apply (holds_bind (λ r, unpacked_ok r.1)); [|intros [m r] Hm; by apply holds_val]. unfold unpack_body.
  repeat match goal with |- holds _ (if _ then _ else _) => apply holds_if; intros _ end; try (by apply flow_mod_range); try (by apply group_mod_range); try (by apply meter_mod_range);
    try (by apply table_mod_range); try (by apply role_range); try (by apply request_range); try apply holds_err.
  all: try (apply (holds_bind (λ r, unpacked_ok (MsgExperimenter r.1))); [apply experimenter_range|intros [m r] Hm; by apply holds_val]).
  - by apply holds_val.
  - unfold ofl_msg_unpack_error. walk; done.
  - unfold ofl_msg_unpack_echo. walk; done.
  - unfold ofl_msg_unpack_features_reply. walk; done.
  - unfold ofl_msg_unpack_get_config_reply. walk; done.
  - unfold ofl_msg_unpack_set_config. walk; done.
  - unfold ofl_msg_unpack_packet_in. walk; done.
  - unfold ofl_msg_unpack_flow_removed. walk; done.
  - unfold ofl_msg_unpack_port_status. walk; done.
  - unfold ofl_msg_unpack_packet_out. walk; done.
  - unfold ofl_msg_unpack_port_mod. walk; done.
  - unfold ofl_msg_unpack_multipart_reply. walk; done.
  - unfold ofl_msg_unpack_queue_get_config_request. walk; done.
  - unfold ofl_msg_unpack_queue_get_config_reply. walk; done.
  - unfold ofl_msg_unpack_async_config. walk; done.
Qed.
End bytes.
