(* ===== verification/ExecuteKeeps.v ===== *)
(** Executing keeps the switch intact, whatever the flows, groups, actions and packets are.

    ExecuteRun.v shows that well-behaved programs run through; here nothing is asked of
    them, and the statement is that an execution that returns leaves the tables, flows, groups,
    meters and ports as the invariants of Pipeline.v and Ports.v want them: it changes
    counters, token buckets and round-robin positions only. *)

From S2P Require Import Prelude Memory Ofpbuf OpenFlow MatchStd ActionSet Buffers PacketActions LinkedList MacTable.
From S2P Require Import Group GroupTable Meter FlowTable Ports PortsCorrect Pipeline Execute ExecuteSafe.

(** The invariants; when [L] is a list, it is that of the ports. *)
Record switch_ok_at (L : option (list Z)) (sw : switch) : Prop := {
  so_pipeline : pipeline_ok [] (sw_pl sw);
  so_ports : ports_ok (sw_ports sw);
  so_list : ∀ l, L = Some l → port_list (sw_ports sw) = l }.
Arguments so_pipeline {L} sw _.
Arguments so_ports {L} sw _.
Arguments so_list {L} sw _.

Abbreviation switch_ok := (switch_ok_at None).

(** If there is a result, it is as it should be. *)
Definition gives {A} (P : A → Prop) (r : outcome A) : Prop := ∀ a, r = Done a → P a.

Lemma gives_ret {A} (P : A → Prop) (a : A) : P a → gives P (mret a).
Proof. by intros Ha ? [= <-]. Qed.
Lemma gives_undef {A} (P : A → Prop) : gives P Undef.
Proof. by intros ?. Qed.
Lemma gives_bind {A B} (P : A → Prop) (Q : B → Prop) (r : outcome A) (f : A → outcome B) :
  gives P r → (∀ a, P a → gives Q (f a)) → gives Q (r ≫= f).
Proof. intros Hr Hf b. destruct r as [a| |]; [|done|done]. cbn. apply Hf. by apply Hr. Qed.
(** A step whose result does not matter. *)
Lemma gives_any {A B} (Q : B → Prop) (r : outcome A) (f : A → outcome B) : (∀ a, r = Done a → gives Q (f a)) → gives Q (r ≫= f).
Proof. intros Hf b. destruct r as [a| |]; [|done|done]. cbn. by apply Hf. Qed.
Lemma gives_if {A} (P : A → Prop) (b : bool) (r1 r2 : outcome A) : gives P r1 → gives P r2 → gives P (if b then r1 else r2).
Proof. by destruct b. Qed.

Create HintDb gives.
#[global] Hint Resolve gives_ret gives_undef : gives.

(** * Groups and meters *)

(** Changing what only the execution of a group looks at. *)
Lemma group_alter_pipeline pend pl f g :
  (∀ e, ge_group_id (f e) = ge_group_id e ∧ ge_buckets (f e) = ge_buckets e ∧ ge_flow_refs (f e) = ge_flow_refs e) →
  pipeline_ok pend pl →
  pipeline_ok pend (Pipeline (set_groups (pl_dp pl) (alter f g (gt_entries (dp_groups (pl_dp pl))))) (pl_tables pl)).
Proof.
  intros Hf [[Hg Hm [Rg Rgn Rex Rnm Rm Rmn Rms Rord] Ht] Hlen Htab Hin Hid]. split; try done. split; try done; cbn [set_groups dp_groups].
  - rewrite <- (group_eta (dp_groups (pl_dp pl))) in Hg. apply group_alter_ok; [|done]. intros e. destruct (Hf e) as (? & ? & _). done.
  - split; cbn [pl_dp set_groups dp_groups dp_flows gt_entries]; try done.
    + intros k e p [[<- (e0 & He0 & ->)]|[_ He]]%lookup_alter_Some; [|by apply Rg]. rewrite (proj2 (proj2 (Hf e0))). by apply Rg.
    + intros k e [[<- (e0 & He0 & ->)]|[_ He]]%lookup_alter_Some; [|by apply (Rgn k)]. rewrite (proj2 (proj2 (Hf e0))). by apply (Rgn g).
    + intros p e k Hp Hpend Hk Hmax. destruct (Rex p e k Hp Hpend Hk Hmax) as (ge & Hge & Hpin). destruct (decide (g = k)) as [<-|Hne].
      * exists (f ge). rewrite lookup_alter_eq, Hge. split; [done|]. by rewrite (proj2 (proj2 (Hf ge))).
      * exists ge. by rewrite lookup_alter_ne.
Qed.

Lemma set_entry_ok L sw f g e :
  (∀ e, ge_group_id (f e) = ge_group_id e ∧ ge_buckets (f e) = ge_buckets e ∧ ge_flow_refs (f e) = ge_flow_refs e) →
  gt_entries (groups_of sw) !! g = Some e → switch_ok_at L sw → switch_ok_at L (set_group_entries sw (<[g := f e]> (gt_entries (groups_of sw)))).
Proof.
  intros Hf He [Hpl Hp Hl]. split; [|done..]. assert (<[g := f e]> (gt_entries (groups_of sw)) = alter f g (gt_entries (groups_of sw))) as ->.
  { apply map_eq. intros k. destruct (decide (g = k)) as [<-|Hne]; [by rewrite lookup_insert_eq, lookup_alter_eq, He|].
    by rewrite lookup_insert_ne, lookup_alter_ne. }
  by apply group_alter_pipeline.
Qed.

Lemma apply_refs e size parsed h :
  meter_ok e → me_flow_refs (meter_entry_apply e size parsed h).1 = me_flow_refs e.
Proof. intros Hok. destruct (meter_apply_cases e size parsed h Hok) as [[_ ->]|(k & b & _ & _ & _ & _ & ->)]; done. Qed.

Lemma meter_apply_pipeline pl id size parsed h :
  pipeline_ok [] pl →
  pipeline_ok [] (Pipeline (set_meters (pl_dp pl) (mt_entries (meter_table_apply (dp_meters (pl_dp pl)) id size parsed h).1)) (pl_tables pl)).
Proof.
  intros [[Hg Hm [Rg Rgn Rex Rnm Rm Rmn Rms Rord] Ht] Hlen Htab Hin Hid]. split; try done.
  pose proof (meter_apply_ok _ id size parsed h Hm) as Hm'. unfold meter_table_apply, meter_table_find in *.
  destruct (mt_entries (dp_meters (pl_dp pl)) !! id) as [e|] eqn:He.
  2: { cbn [fst pl_dp]. assert (set_meters (pl_dp pl) (mt_entries (dp_meters (pl_dp pl))) = pl_dp pl) as -> by (by destruct (pl_dp pl) as [? ? [? ? ?] ?]).
       by split. }
  pose proof (apply_refs e size parsed h (proj2 (mto_entry _ Hm _ _ He))) as Er.
  destruct (meter_entry_apply e size parsed h) as [e' r]. cbn [fst] in *. split; try done.
  assert (∀ k x, <[id := e']> (mt_entries (dp_meters (pl_dp pl))) !! k = Some x →
    ∃ y, mt_entries (dp_meters (pl_dp pl)) !! k = Some y ∧ me_flow_refs x = me_flow_refs y) as Hback.
  { intros k x [[<- <-]|[_ Hx]]%lookup_insert_Some; [by exists e|by exists x]. }
  split; cbn [pl_dp set_meters dp_meters dp_flows mt_entries]; try done.
  - intros k x p (y & Hy & E)%Hback. rewrite E. by apply Rm.
  - intros k x (y & Hy & E)%Hback. rewrite E. by apply (Rmn k).
Qed.

Section keeps.
  Context `{Malloc}.
  Context (parse : list Z → option (ofl_match * protocols_std)) (w : world) (L : option (list Z)).

(** * Steps that leave tables and ports alone *)

Lemma bufs_ok sw b : switch_ok_at L sw → switch_ok_at L (set_bufs sw b).
Proof using. by intros []. Qed.
Lemma put_ok sw q pk : switch_ok_at L sw → switch_ok_at L (put sw q pk).
Proof using. by intros []. Qed.
Lemma alloc_kept sw pk : switch_ok_at L sw → switch_ok_at L (alloc sw pk).1.
Proof using. by intros []. Qed.
Lemma message_ok sw m : switch_ok_at L sw → switch_ok_at L (send_message sw m).
Proof using. by intros []. Qed.
Lemma destroy_gives now sw q : switch_ok_at L sw → gives (switch_ok_at L) (destroy now sw q).
Proof using. intros Hok. unfold destroy. apply gives_any. intros b _. by apply gives_ret, bufs_ok. Qed.
#[local] Hint Resolve bufs_ok put_ok message_ok destroy_gives : gives.

Lemma packet_in_gives sw q reason table_id cookie max_len : switch_ok_at L sw → gives (switch_ok_at L) (packet_in_for parse w sw q reason table_id cookie max_len).
Proof using.
  intros Hok. unfold packet_in_for. apply gives_any. intros pk _. apply (gives_bind (switch_ok_at L)).
  - apply gives_if; [auto with gives|]. apply gives_any. intros [b r] _. auto with gives.
  - intros sw' Hok'. apply gives_any. intros pk' _. case_match. auto with gives.
Qed.

Lemma random_ports nd dp id nt Matriz_bc k buffer in_port flood dp' out :
  ports_ok dp → dp_ports_output_random nd dp id nt Matriz_bc k buffer in_port flood = Some (dp', out) → ports_ok dp' ∧ port_list dp' = port_list dp.
Proof using.
  intros Hok E. unfold dp_ports_output_random in E. destruct (tipo_switch_port nt in_port) as [entrada|]; [|done]. cbn [mbind option_bind] in E.
  destruct (Matriz_bc !! k) as [row|]; [|done]. cbn [mbind option_bind] in E. destruct (_ <? _); [done|].
  revert E. generalize (take (Z.to_nat (ports_num dp)) row). intros l E.
  revert dp dp' out Hok E. induction l as [|p l IH]; intros dp dp' out Hok E; [by injection E as <- _|]. cbn [output_random_loop] in E.
  destruct (_ || _); [by eapply IH|]. destruct (flood && bool_decide _); [done|]. destruct (flood && truthy _); [by eapply IH|].
  destruct (tipo_switch_port nt p) as [salida|]; [|done]. cbn [mbind option_bind] in E.
  pose proof (output_ok nd dp buffer p 0 Hok) as Ho. pose proof (sc_list _ _ (output_same nd dp buffer p 0 Hok)) as Hs. destruct (layer_forwards id entrada salida).
  - destruct (dp_ports_output nd dp buffer p 0) as [dp1 o1]. destruct (output_random_loop _ _ _ _ _ _ _ _ _) as [[dp2 o2]|] eqn:E2; [|done].
    cbn in E. injection E as <- _. cbn [fst] in Ho, Hs. destruct (IH _ _ _ Ho E2) as [H1 H2]. split; [done|congruence].
  - destruct (output_random_loop _ _ _ _ _ _ _ _ _) as [[dp2 o2]|] eqn:E2; [|done]. cbn in E. injection E as <- _. eapply IH; [exact Hok|exact E2].
Qed.

(** * The functions that call each other *)

Section output.
  Context (resubmit : switch → positive → outcome switch).
  Context (resubmit_ok : ∀ sw q, switch_ok_at L sw → gives (switch_ok_at L) (resubmit sw q)).

Lemma output_gives sw q port queue max_len cookie :
  switch_ok_at L sw → gives (switch_ok_at L) (dp_actions_output_port parse w resubmit sw q port queue max_len cookie).
Proof using resubmit_ok.
  intros Hok. pose proof Hok as [Hpl Hp Hl].
  assert (Hdev : ∀ p out n, ports_ok p → port_list p = port_list (sw_ports sw) → switch_ok_at L (set_ports sw p out n)).
  { intros p out n Hok' E. split; [done..|]. intros l El. cbn. rewrite E. by apply Hl. }
  assert (Hout : ∀ pk no qu, switch_ok_at L (ports_output w sw pk no qu)).
  { intros pk no qu. unfold ports_output. pose proof (output_ok (device w sw) _ (contents (pk_buffer pk)) no qu Hp) as Ho.
    pose proof (sc_list _ _ (output_same (device w sw) _ (contents (pk_buffer pk)) no qu Hp)) as Hc.
    destruct (dp_ports_output _ _ _ _ _) as [p out]. by apply Hdev. }
  unfold dp_actions_output_port. apply gives_any. intros pk _. repeat apply gives_if; try (by apply gives_ret).
  - apply gives_any. intros copy _. pose proof (alloc_kept sw (set_packet_out copy false) Hok) as Ha. destruct (alloc _ _). by apply resubmit_ok.
  - by apply packet_in_gives.
  - pose proof (output_all_facts (device w sw) (sw_ports sw) (contents (pk_buffer pk)) (pk_in_port pk) (port =? OFPP_FLOOD) Hp) as Hf.
    destruct (dp_ports_output_all _ _ _ _ _) as [p out]. destruct Hf as (Hok' & Hc & _). apply gives_ret, Hdev; [done|apply Hc].
  - apply gives_any. intros [p out] E. destruct (dp_ports_output_random _ _ _ _ _ _ _ _ _) as [[p' out']|] eqn:Er; [|done].
    injection E as <- <-. apply random_ports in Er as [Hok' Hc]; [|done]. apply gives_ret. by apply Hdev.
Qed.
#[local] Hint Resolve output_gives : gives.

Section group.
  Context (run_group : switch → positive → Z → outcome switch).
  Context (run_group_ok : ∀ sw q g, switch_ok_at L sw → gives (switch_ok_at L) (run_group sw q g)).

Lemma act_gives sw q a : switch_ok_at L sw → gives (switch_ok_at L) (act parse sw q a).
Proof using. intros Hok. unfold act. do 2 (apply gives_any; intros ? _). auto with gives. Qed.

Lemma acts_gives sw q l : switch_ok_at L sw → gives (switch_ok_at L) (acts parse sw q l).
Proof using.
  revert sw. induction l as [|a l IH]; intros sw Hok; cbn [acts]; [auto with gives|]. apply (gives_bind (switch_ok_at L)); [by apply act_gives|done].
Qed.

Lemma set_gives sw q cookie : switch_ok_at L sw → gives (switch_ok_at L) (action_set_execute parse w resubmit run_group sw q cookie).
Proof using resubmit_ok run_group_ok.
  intros Hok. unfold action_set_execute. apply gives_any. intros pk _. apply (gives_bind (switch_ok_at L)); [by apply acts_gives|]. intros sw1 Hok1.
  apply gives_any. intros pk1 _. repeat apply gives_if; [auto with gives| |auto with gives].
  apply (gives_bind (switch_ok_at L)); auto with gives.
Qed.

Lemma bucket_gives sw q g b : switch_ok_at L sw → gives (switch_ok_at L) (execute_bucket parse w resubmit run_group sw q g b).
Proof using resubmit_ok run_group_ok.
  intros Hok. unfold execute_bucket. apply gives_any. intros pk _. apply gives_any. intros e He. do 2 (apply gives_any; intros ? _).
  apply set_gives. unfold group_table_find in He. destruct (gt_entries (groups_of sw) !! g) as [e'|] eqn:E; [|done]. injection He as <-.
  apply (set_entry_ok L (put sw q _) (count_bucket b _) g e'); [done|exact E|by apply put_ok].
Qed.

Lemma all_gives bs sw q g : switch_ok_at L sw → gives (switch_ok_at L) (execute_all_loop parse w resubmit run_group sw q g bs).
Proof using resubmit_ok run_group_ok.
  revert sw. induction bs as [|b bs IH]; intros sw Hok; cbn [execute_all_loop]; [auto with gives|].
  apply gives_any. intros pk _. apply gives_any. intros p _. pose proof (alloc_kept sw p Hok) as Ha. destruct (alloc sw p) as [sw1 copy].
  apply (gives_bind (switch_ok_at L)); [by apply bucket_gives|done].
Qed.

Lemma entry_gives sw q g e :
  switch_ok_at L sw → gt_entries (groups_of sw) !! g = Some e → gives (switch_ok_at L) (group_entry_execute parse w resubmit run_group sw q g e).
Proof using resubmit_ok run_group_ok.
  intros Hok He. unfold group_entry_execute. repeat apply gives_if; [by apply all_gives| | | |auto with gives].
  - unfold execute_select. destruct (ge_buckets e) as [|bk bks] eqn:Eb; [auto with gives|]. rewrite <- Eb. apply gives_any. intros d _.
    destruct (select_from_select_group (ge_buckets e) d) as [d' b]. pose proof (set_entry_ok L sw (λ e, set_wrr e d') g e) as Hs.
    apply gives_if; [apply destroy_gives|apply bucket_gives]; by apply Hs.
  - unfold execute_indirect. destruct (ge_buckets e); [auto with gives|by apply bucket_gives].
  - unfold execute_ff. apply gives_any. intros b _. apply gives_if; [auto with gives|by apply bucket_gives].
Qed.
End group.

Lemma groups_gives n sw q g : switch_ok_at L sw → gives (switch_ok_at L) (group_table_execute parse w resubmit n sw q g).
Proof using resubmit_ok.
  revert sw q g. induction n as [|n IH]; intros sw q g Hok; cbn [group_table_execute]; [done|].
  destruct (group_table_find (groups_of sw) g) as [e|] eqn:E; [|auto with gives]. by apply entry_gives.
Qed.
#[local] Hint Resolve groups_gives : gives.

Lemma list_gives n l sw q cookie : switch_ok_at L sw → gives (switch_ok_at L) (dp_execute_action_list parse w resubmit n sw q l cookie).
Proof using resubmit_ok.
  revert sw. induction l as [|a l IH]; intros sw Hok; cbn [dp_execute_action_list]; [auto with gives|].
  apply (gives_bind (switch_ok_at L)); [by apply act_gives|]. intros sw1 Hok1. apply gives_any. intros pk _.
  apply (gives_bind (switch_ok_at L)); [|done]. repeat apply gives_if; auto with gives.
  apply gives_any. intros clone _. pose proof (alloc_kept _ clone (put_ok sw1 q (reset_group pk) Hok1)) as Ha.
  destruct (alloc _ _) as [sw2 copy]. auto with gives.
Qed.

Lemma meter_gives sw q id : switch_ok_at L sw → gives (λ r, switch_ok_at L r.1) (apply_meter parse w sw q id).
Proof using.
  intros Hok. unfold apply_meter. destruct (meter_table_find _ _) as [e|]; [|by apply gives_ret]. do 3 (apply gives_any; intros ? _).
  pose proof (meter_apply_pipeline (sw_pl sw) id (size_of a) (ph_valid (pk_handle_std a0)) a1 (so_pipeline _ Hok)) as Hm.
  destruct (meter_table_apply _ _ _ _ _) as [meters r]. assert (switch_ok_at L (set_pl sw (Pipeline (set_meters (pl_dp (sw_pl sw)) (mt_entries meters)) (pl_tables (sw_pl sw))))) as Hok1.
  { split; [exact Hm|apply Hok|apply Hok]. }
  destruct r as [h|].
  - apply gives_any. intros pk _. by apply gives_ret, put_ok.
  - apply (gives_bind (switch_ok_at L)); [by apply destroy_gives|]. intros sw2 Hok2. by apply gives_ret.
Qed.

Lemma insts_gives n insts sw q cookie next : switch_ok_at L sw → gives (λ r, switch_ok_at L r.1.1) (execute_entry parse w resubmit n sw q cookie next insts).
Proof using resubmit_ok.
  revert sw q next. induction insts as [|i insts IH]; intros sw q next Hok; cbn [execute_entry]; [by apply gives_ret|].
  destruct q as [q|]; [|by apply gives_ret]. destruct i; try (by apply IH).
  - apply gives_any. intros pk _. by apply IH, put_ok.
  - apply gives_any. intros pk _. by apply IH, put_ok.
  - apply (gives_bind (switch_ok_at L)); [by apply list_gives|]. intros sw1 Hok1. by apply IH.
  - apply gives_any. intros pk _. by apply IH, put_ok.
  - apply (gives_bind (λ r, switch_ok_at L r.1)); [by apply meter_gives|]. intros [sw1 q1] Hok1. by apply IH.
Qed.

Lemma lookup_pipeline pl i t data in_port h dp t' h' r :
  pipeline_ok [] pl → pl_tables pl !! i = Some t → flow_table_lookup parse (w_msec w) (pl_dp pl) t data in_port h = Some (dp, t', h', r) →
  pipeline_ok [] (Pipeline dp (<[i := t']> (pl_tables pl))).
Proof using.
  intros Hok Ht E. destruct (lookup_step parse [] (Z.of_nat i) (w_msec w) (pl_dp pl) t data in_port h) as (dp1 & t1 & h1 & r1 & E1 & Hs & Hdp);
    [by eapply (po_table _ _ Hok)|by eapply pipeline_at|apply Hok|]. rewrite E in E1. injection E1 as <- <- <- <-.
  eapply pipeline_ok_step; [by rewrite pipeline_eta|done|done|done].
Qed.

Lemma try_gives n sw q i : switch_ok_at L sw → gives (λ r, switch_ok_at L r.1) (try_table parse w resubmit n sw q i).
Proof using resubmit_ok.
  intros Hok. unfold try_table. apply gives_any. intros pk _. apply gives_any. intros t Et. apply gives_any. intros [[[dp t'] h] found] El.
  assert (switch_ok_at L (set_pl sw (Pipeline dp (<[Z.to_nat i := t']> (pl_tables (sw_pl sw)))))) as Hok1.
  { split; [|apply Hok|apply Hok]. destruct (pl_tables (sw_pl sw) !! Z.to_nat i) as [t0|] eqn:E0; [|done]. injection Et as ->.
    destruct (flow_table_lookup _ _ _ _ _ _ _) as [x|] eqn:E1; [|done]. injection El as ->. eapply lookup_pipeline; [apply Hok|done|exact E1]. }
  destruct found as [e|].
  - apply gives_any. intros entry _. apply (gives_bind (λ r, switch_ok_at L r.1.1)); [by apply insts_gives, put_ok|]. intros [[sw2 p] next] Hok2. cbn in Hok2.
    destruct p as [p|]; [|by apply gives_ret]. destruct next as [next|]; [by apply gives_ret|].
    apply (gives_bind (switch_ok_at L)); [|intros; by apply gives_ret]. apply set_gives; [|done]. intros. by apply groups_gives.
  - by apply gives_ret, put_ok.
Qed.

Lemma table_gives n sw q i : switch_ok_at L sw → gives (λ r, switch_ok_at L r.1) (process_table parse w resubmit n sw q i).
Proof using resubmit_ok.
  intros Hok. apply (gives_bind (λ r, switch_ok_at L r.1)); [by apply try_gives|]. intros [sw1 [j| |]] Hok1; try by apply gives_ret.
  apply (gives_bind (switch_ok_at L)); [by apply destroy_gives|]. intros; by apply gives_ret.
Qed.

Lemma loop_gives n m sw q i : switch_ok_at L sw → gives (switch_ok_at L) (table_loop parse w resubmit n m sw q i).
Proof using resubmit_ok.
  revert sw i. induction m as [|m IH]; intros sw i Hok; cbn [table_loop]; [done|].
  apply (gives_bind (λ r, switch_ok_at L r.1)); [by apply table_gives|]. intros [sw1 next] Hok1. cbn in Hok1. destruct next; [by apply IH|by apply gives_ret].
Qed.
End output.

Lemma process_gives d n m sw q : switch_ok_at L sw → gives (switch_ok_at L) (pipeline_process_packet parse w d n m sw q).
Proof using.
  revert sw q. induction d as [|d IH]; intros sw q Hok; cbn [pipeline_process_packet]; [done|]. unfold process_packet.
  apply gives_any. intros pk _. apply gives_any. intros [h ok] _. apply gives_if; [|by apply loop_gives, put_ok].
  apply (gives_bind (λ _, False)); [|done]. unfold send_packet_to_controller. apply gives_any. intros _ _. apply gives_undef.
Qed.

Lemma packet_out_gives d n m sw slave buffer_id in_port data actions :
  switch_ok_at L sw → gives (λ r, switch_ok_at L r.1) (handle_control_packet_out parse w d n m sw slave buffer_id in_port data actions).
Proof using.
  intros Hok. assert (Hrun : ∀ sw q, switch_ok_at L sw → gives (λ r, switch_ok_at L r.1)
    (sw ← dp_execute_action_list parse w (pipeline_process_packet parse w d n m) n sw q actions NO_COOKIE; sw ← destroy (w_now w) sw q; mret (sw, 0))).
  { intros sw1 q Hok1. apply (gives_bind (switch_ok_at L)); [apply list_gives; [|done]; intros; by apply process_gives|]. intros sw2 Hok2.
    apply (gives_bind (switch_ok_at L)); [by apply destroy_gives|]. intros; by apply gives_ret. }
  unfold handle_control_packet_out. repeat apply gives_if; try (by apply gives_ret).
  - destruct data as [|x data]; [by apply gives_ret|]. pose proof (alloc_kept sw (packet_create parse in_port (Ofpbuf (x :: data) 0 (length (x :: data))) true) Hok) as Ha.
    destruct (alloc _ _) as [sw1 q]. by apply Hrun.
  - apply gives_any. intros [b r] _. destruct r as [q|]; [by apply Hrun, bufs_ok|by apply gives_ret, bufs_ok].
Qed.
End keeps.
