(* ===== verification/ForwardingCorrect.v ===== *)
(** Theorems about Forwarding.v: what a switch without flows does with a frame, from the
    bytes received to the bytes sent; the lock of ARP-Path seen from outside; hello frames
    between switches; and the invariants under any traffic. *)

From S2P Require Import Prelude Memory Ofpbuf Csum OpenFlow MatchStd ActionSet Buffers PacketActions LinkedList MacTable TcpTable.
From S2P Require Import ArpPath Group GroupTable Meter FlowTable Ports PortsCorrect TcpPath Pipeline Execute ExecuteSafe ExecuteRun Processing ExecuteKeeps Forwarding.

(** ** Ports in the table *)

(** The ports of the entries have 16 bits. *)
Definition ports16 (es : list mac_entry) : Prop := Forall (λ e, fits 16 (me_port_in e)) es.

Lemma fits_u16 x : fits 16 (u16 x).
Proof. unfold fits, u16, wrap. apply Z.mod_pos_bound. lia. Qed.
#[local] Hint Resolve fits_u16 : core.

Lemma ports16_update f P es : (∀ e, fits 16 (me_port_in e) → fits 16 (me_port_in (f e))) → ports16 es → ports16 (update_spec f P es).
Proof.
  intros Hf He. unfold update_spec. destruct (find_first P es) as [[[pre e] post]|] eqn:E; [|done].
  apply find_first_split in E as [-> _]. unfold ports16 in *. rewrite list.Forall_app, list.Forall_cons in He |- *. naive_solver.
Qed.

Lemma ports16_found now Mac es : ports16 es → ports16 (found_spec now Mac es).1 ∧
  ((found_spec now Mac es).2 = -1 ∨ fits 16 (found_spec now Mac es).2).
Proof.
  unfold found_spec. intros He. destruct (find_first _ es) as [[[pre e] post]|] eqn:E; [|split; [done|by left]].
  apply find_first_split in E as [-> _]. unfold ports16 in He |- *. rewrite list.Forall_app, list.Forall_cons in He.
  destruct He as (H1 & H2 & H3). split; [|by right]. cbn. case_match.
  - rewrite list.Forall_cons, list.Forall_app. done.
  - by rewrite list.Forall_app, list.Forall_cons.
Qed.

Lemma raise_port e m : me_port_in (raise_time e m) = me_port_in e.
Proof. unfold raise_time. by case_match. Qed.

Lemma ports16_refresh now Mac time es : ports16 es → ports16 (refresh_spec now Mac time es).
Proof. apply ports16_update. intros e. by rewrite raise_port. Qed.
Lemma ports16_move now Mac port time es : ports16 es → ports16 (move_spec now Mac port time es).
Proof. apply ports16_update. intros e _. rewrite raise_port. apply fits_u16. Qed.

(** What the handler may ask for. *)
Definition small_out (o : arp_out) : Prop :=
  match o with AOutput port => port = OFPP_RANDOM ∨ fits 16 port | ADestroy => True end.

Lemma arp_spec_ports now nes es f :
  ports16 es → ports16 (arp_spec now nes es f).1 ∧ Forall small_out (arp_spec now nes es f).2.
Proof.
  intros He. unfold arp_spec. destruct (found_spec now (fr_eth_src f) es) as [es1 port] eqn:E1.
  pose proof (ports16_found now (fr_eth_src f) es He) as [He1 _]. rewrite E1 in He1; cbn in He1.
  assert (Hl : ∀ time, ports16 (learn_entry now nes f time :: es1)) by (intros; constructor; [apply fits_u16|done]).
  assert (HR : Forall small_out [AOutput OFPP_RANDOM]) by (constructor; [by left|done]).
  destruct (is_bcast f).
  - repeat case_match; cbn; split; auto using ports16_refresh, ports16_move. repeat constructor.
  - set (es2 := if learns f then _ else _).
    assert (He2 : ports16 es2).
    { subst es2. unfold learn_spec. repeat case_match; auto using ports16_refresh, ports16_move. }
    destruct (found_spec now (fr_eth_dst f) es2) as [es3 out] eqn:E3.
    pose proof (ports16_found now (fr_eth_dst f) es2 He2) as [He3 Ho]. rewrite E3 in He3, Ho; cbn in He3, Ho.
    unfold unicast_spec. destruct (Z.eqb_spec out (-1)); [by split|]. cbn. split; [by apply ports16_refresh|].
    constructor; [|done]. right. by destruct Ho.
Qed.

(** ** Frames that no flow takes *)

(** The tables of addresses are lists, the ports are in order and there is a broadcast order
    for each of the 16 draws. *)
Record plain (M : list (list Z)) (nd : node) (es nes : list mac_entry) : Prop := {
  pn_ports : ports_ok (sw_ports (nd_sw nd));
  pn_mac : repr true (nd_mac_port nd) es;
  pn_mac16 : ports16 es;
  pn_neighbors : repr true (nd_neighbors nd) nes;
  pn_rows : ∀ k : nat, (k < 16)%nat → ∃ row, M !! k = Some row ∧ row ≡ₚ seqZ 0 (ports_num (sw_ports (nd_sw nd))) }.

(** The frames handed to devices for an output, by the state before it. *)
Definition emitted (w : world) (sw : switch) (nes : list mac_entry) (in_port : Z) (frame : list Z) (o : arp_out) : list tx :=
  match o with
  | ADestroy => []
  | AOutput port =>
    if port =? OFPP_RANDOM then
      (λ no, (no, 0, frame)) <$> base.filter (λ no, (random_dest (sw_ports sw) (w_id w) nes in_port false no && up (sw_ports sw) no) = true)
        (default [] (w_Matriz_bc w !! (w_rand w (sw_rand sw) mod 16)%nat))
    else if (in_port =? port) || negb (up (sw_ports sw) port) then [] else [(port, 0, frame)]
  end.

(** What an output changes: the counters of the ports, the frames sent, the random numbers. *)
Record emits (sw sw' : switch) (out : list tx) : Prop := {
  em_pl : sw_pl sw' = sw_pl sw;
  em_bufs : sw_bufs sw' = sw_bufs sw;
  em_ports : ports_ok (sw_ports sw');
  em_conf : same_conf (sw_ports sw) (sw_ports sw');
  em_sent : sw_sent sw' = sw_sent sw ++ out;
  em_ins : sw_packet_ins sw' = sw_packet_ins sw }.

(** The flows of the first table. *)
Definition first_flows (sw : switch) : option (list positive) := match_entries <$> head (pl_tables (sw_pl sw)).

(** Two states with the same flows. *)
Record same_flows (sw sw' : switch) : Prop := {
  sf_dp : pl_dp (sw_pl sw') = pl_dp (sw_pl sw);
  sf_first : first_flows sw' = first_flows sw }.

#[global] Instance same_flows_preorder : PreOrder same_flows.
Proof. split; [by split|]. intros ??? [] []; split; congruence. Qed.

Section plain.
  Context `{Malloc} (parse : list Z → option (ofl_match * protocols_std)).
  Context (w : world) (d g t : nat).

Lemma output_emits nd es nes ptr pkt port :
  plain (w_Matriz_bc w) nd es nes → heap (sw_bufs (nd_sw nd)) !! ptr = Some pkt → pk_out_queue pkt = 0 → small_out (AOutput port) →
  ∃ sw', output parse w d g t nd (nd_sw nd) ptr port = Done sw' ∧
    emits (nd_sw nd) sw' (emitted w (nd_sw nd) nes (pk_in_port pkt) (contents (pk_buffer pkt)) (AOutput port)).
Proof using.
  intros Hp Hq H0 Hs. pose proof (pn_ports _ _ _ _ Hp) as Hpo. set (sw := nd_sw nd) in *.
  unfold output, dp_actions_output_port, get. rewrite Hq; cbn [lift mbind outcome_bind]. rewrite H0.
  cbn [small_out] in Hs. cbn [emitted].
  destruct (Z.eqb_spec port OFPP_RANDOM) as [->|Hne].
  - cbn [Z.eqb OFPP_RANDOM OFPP_TABLE OFPP_IN_PORT OFPP_CONTROLLER OFPP_FLOOD OFPP_ALL Pos.eqb orb].
    destruct (pn_rows _ _ _ _ Hp (w_rand w (sw_rand sw) mod 16)%nat) as (row & Hrow & Hperm); [by apply Nat.mod_upper_bound|].
    destruct (random_facts (device (world_at w nd) sw) (sw_ports sw) (w_id w) (nd_neighbors nd) nes (w_Matriz_bc w) _ row
              (contents (pk_buffer pkt)) (pk_in_port pkt) false Hpo (pn_neighbors _ _ _ _ Hp) Hrow Hperm) as (p & out & E & Hp' & Hc & -> & _).
    cbn [world_at w_id w_neighbors w_Matriz_bc w_rand]. rewrite E; cbn [lift mbind outcome_bind]. eexists; split; [done|].
    rewrite Hrow; cbn [default from_option id]. by split.
  - destruct Hs as [|Hs]; [done|]. unfold fits in Hs. change (2 ^ 16) with 65536 in Hs.
    replace (port =? OFPP_TABLE) with false by (unfold OFPP_TABLE; lia).
    replace (port =? OFPP_IN_PORT) with false by (unfold OFPP_IN_PORT; lia).
    replace (port =? OFPP_CONTROLLER) with false by (unfold OFPP_CONTROLLER; lia).
    replace (port =? OFPP_FLOOD) with false by (unfold OFPP_FLOOD; lia).
    replace (port =? OFPP_ALL) with false by (unfold OFPP_ALL; lia).
    replace (port =? OFPP_RANDOM) with false by lia. cbn [orb].
    destruct (pk_in_port pkt =? port); cbn [orb]; [exists sw; split; [done|]; split; try done; by rewrite app_nil_r|].
    unfold ports_output. pose proof (output_ok (device (world_at w nd) sw) (sw_ports sw) (contents (pk_buffer pkt)) port 0 Hpo) as H1.
    pose proof (output_same (device (world_at w nd) sw) (sw_ports sw) (contents (pk_buffer pkt)) port 0 Hpo) as H2.
    pose proof (output_eq (device (world_at w nd) sw) (sw_ports sw) (contents (pk_buffer pkt)) port Hpo) as E.
    destruct (dp_ports_output _ _ _ _ _) as [p out]. eexists; split; [done|].
    destruct (up (sw_ports sw) port); injection E as -> ->; cbn [negb]; by split.
Qed.

(** A frame that can be decoded, whose TTL is not used up, and which is neither a hello nor
    IPv6; [f] are the fields ARP-Path reads. *)
Record ordinary (in_port : Z) (frame : list Z) (f : arp_frame) : Prop := {
  or_parse : is_Some (parse frame);
  or_ttl : ∃ h, packet_handle_std_is_ttl_valid parse frame in_port (packet_handle_std_create parse frame in_port) = Some (h, true);
  or_fields : arp_frame_of (packet_create parse in_port (Ofpbuf frame 0 (length frame)) false) = Some f;
  or_type : fr_eth_type f ∉ [ETH_HELLO; ETH_HELLO_CTR; ETH_IPV6] }.

(** No flow of the first table matches. *)
Definition unmatched (sw : switch) (in_port : Z) (frame : list Z) : Prop :=
  ∃ l, first_flows sw = Some l ∧
    Forall (λ p, ∃ e, dp_flows (pl_dp (sw_pl sw)) !! p = Some e ∧
      packet_match (fe_match e) (ph_match (packet_handle_std_create parse frame in_port)) = false) l.

Lemma unmatched_same sw sw' in_port frame : same_flows sw sw' → unmatched sw in_port frame → unmatched sw' in_port frame.
Proof using. intros [E1 E2] (l & Hl & Hf). exists l. by rewrite E2, E1. Qed.

Lemma rx_contents frame tail : contents (rx_buffer frame tail) = frame.
Proof using. exact (parts_contents (xmalloc 130) frame (xmalloc tail)). Qed.

Lemma whole_contents frame : contents (Ofpbuf frame 0 (length frame)) = frame.
Proof using. unfold contents; cbn. apply firstn_all. Qed.

(** The packet made of a received frame. *)
Lemma created_packet_ok in_port frame f tail :
  ordinary in_port frame f →
  let pkt := packet_create parse in_port (rx_buffer frame tail) false in
  arp_frame_of pkt = Some f ∧ arp_frame_of (set_table_id pkt 0) = Some f ∧ ph_valid (pk_handle_std pkt) = true ∧
  packet_handle_std_is_ttl_valid parse frame in_port (pk_handle_std pkt) = Some (pk_handle_std pkt, true).
Proof using.
  intros [[[m pr] Hp] [h Ht] Hf _]. cbv zeta.
  assert (Hsame : ∀ b1 b2 p, contents b1 = contents b2 → arp_frame_of (set_buffer p b1) = arp_frame_of (set_buffer p b2)).
  { intros b1 b2 p E. unfold arp_frame_of, eth_src_of, eth_type_of. cbn [pk_buffer pk_handle_std pk_in_port set_buffer]. by rewrite E. }
  assert (H1 : arp_frame_of (packet_create parse in_port (rx_buffer frame tail) false) = Some f).
  { rewrite <- Hf. unfold packet_create. rewrite rx_contents, whole_contents.
    apply (Hsame _ _ (Packet (Ofpbuf [] 0 0) in_port action_set_create false OFPG_ANY OFPP_ANY 0 0 0 NO_BUFFER
                        (packet_handle_std_create parse frame in_port))).
    by rewrite rx_contents, whole_contents. }
  split; [done|]. split; [exact H1|]. cbn [packet_create pk_handle_std]. rewrite rx_contents. split.
  { unfold packet_handle_std_create, packet_handle_std_validate; cbn [ph_valid]. by rewrite Hp. }
  rewrite Ht. do 2 f_equal. rewrite (ttl_handle _ _ _ _ _ _ Ht). unfold packet_handle_std_create, packet_handle_std_validate; cbn [ph_valid]. by rewrite Hp.
Qed.

(** The lookup in the first table. *)
Definition missed (sw : switch) (ptr : positive) (pkt : packet) (t0 : flow_table) (ts : list flow_table) : switch :=
  put (set_pl sw (Pipeline (pl_dp (sw_pl sw)) (FlowTable (match_entries t0) (hard_entries t0) (idle_entries t0) (active_count t0)
                    (u64 (lookup_count t0 + 1)) (matched_count t0) :: ts))) ptr (set_table_id pkt 0).

Lemma set_handle_id pkt : set_handle pkt (pk_handle_std pkt) = pkt.
Proof using. by destruct pkt. Qed.

Lemma scan_misses flows data in_port h l :
  ph_valid h = true → Forall (λ p, ∃ e, flows !! p = Some e ∧ packet_match (fe_match e) (ph_match h) = false) l →
  lookup_scan parse flows data in_port h l = Some (h, None).
Proof using.
  intros Hv. induction 1 as [|p l (e & He & Hm) _ IH]; [done|]. cbn [lookup_scan]. rewrite He. unfold packet_handle_std_match, packet_handle_std_validate.
  by rewrite Hv, Hv, Hm.
Qed.

Lemma loop_misses n nd ptr pkt t0 ts :
  pl_tables (sw_pl (nd_sw nd)) = t0 :: ts → heap (sw_bufs (nd_sw nd)) !! ptr = Some pkt →
  ph_valid (pk_handle_std pkt) = true →
  Forall (λ p, ∃ e, dp_flows (pl_dp (sw_pl (nd_sw nd))) !! p = Some e ∧ packet_match (fe_match e) (ph_match (pk_handle_std pkt)) = false) (match_entries t0) →
  (0 < n)%nat →
  uah_loop parse w d g t n nd ptr 0 = Done (with_sw nd (missed (nd_sw nd) ptr pkt t0 ts), false).
Proof using.
  intros Ht Hq Hv Hl Hpos. destruct n as [|n]; [lia|]. cbn [uah_loop]. unfold try_table, get. rewrite Hq; cbn [lift mbind outcome_bind].
  change (Z.to_nat 0) with 0%nat. rewrite Ht. cbn [lookup list_lookup lift mbind outcome_bind]. unfold flow_table_lookup. cbn [match_entries].
  rewrite scan_misses by done. cbn [mbind option_bind lift outcome_bind mret outcome_ret insert list_insert]. done.
Qed.

(** What happens on the heap: a copy that is dropped is freed, every other frame stays. *)
Record leaves (dpb dpb' : dp_buffers) (os : list arp_out) : Prop := {
  lv_ring : buffers dpb' = buffers dpb ∧ buffer_idx dpb' = buffer_idx dpb;
  lv_freed : ADestroy ∈ os → heap dpb' = heap dpb;
  lv_kept : ADestroy ∉ os → ∃ q pk, heap dpb !! q = None ∧ heap dpb' = <[q := pk]> (heap dpb) ∧ pk_buffer_id pk = NO_BUFFER }.

Lemma spec_outs now nes es f : (arp_spec now nes es f).2 = [ADestroy] ∨ (arp_spec now nes es f).2 = [] ∨ ∃ p, (arp_spec now nes es f).2 = [AOutput p].
Proof using. unfold arp_spec, unicast_spec. repeat case_match; cbn; eauto. Qed.

Lemma frame_type pkt f : arp_frame_of pkt = Some f → eth_type_of pkt = Some (fr_eth_type f).
Proof using. unfold arp_frame_of. intros E. by simplify_option_eq. Qed.

(** The outputs of the handler for the packet [q]. *)
Lemma outs_step nd es nes q pk dpb os in_port frame :
  plain (w_Matriz_bc w) nd es nes → heap (sw_bufs (nd_sw nd)) = <[q := pk]> (heap dpb) → heap dpb !! q = None →
  buffers (sw_bufs (nd_sw nd)) = buffers dpb → buffer_idx (sw_bufs (nd_sw nd)) = buffer_idx dpb →
  pk_in_port pk = in_port ∧ contents (pk_buffer pk) = frame ∧ pk_buffer_id pk = NO_BUFFER ∧ pk_out_queue pk = 0 →
  Forall small_out os → os = [ADestroy] ∨ os = [] ∨ (∃ p, os = [AOutput p]) →
  ∃ nd', arp_outs_run parse w d g t nd q os = Done nd' ∧ plain (w_Matriz_bc w) nd' es nes ∧
    sw_sent (nd_sw nd') = sw_sent (nd_sw nd) ++ os ≫= emitted w (nd_sw nd) nes in_port frame ∧
    sw_packet_ins (nd_sw nd') = sw_packet_ins (nd_sw nd) ∧ leaves dpb (sw_bufs (nd_sw nd')) os ∧
    same_conf (sw_ports (nd_sw nd)) (sw_ports (nd_sw nd')) ∧ sw_pl (nd_sw nd') = sw_pl (nd_sw nd).
Proof using.
  intros Hp Hh Hq Hb Hi (<- & <- & Hid & Hqu) Hsm Hos. pose proof Hp as [Hpo Hmac H16 Hnb Hrows].
  assert (Hkeep : ∀ dpb', sw_bufs (nd_sw nd) = dpb' → ADestroy ∉ os → leaves dpb dpb' os).
  { intros dpb' <- Hno. split; [done| |]; [done|]. intros _. by exists q, pk. }
  destruct Hos as [->|[->|[p ->]]]; cbn [arp_outs_run arp_out_run].
  - unfold destroy, packet_destroy. rewrite Hh, lookup_insert_eq, Hid, Z.eqb_refl; cbn [negb andb lift mbind outcome_bind mret outcome_ret].
    eexists; split; [done|]. split; [by split|]. split; [by rewrite app_nil_r|]. split; [done|].
    split; [|done]. split; cbn; [done|intros _; rewrite Hh; by apply delete_insert_id|]. intros []. by apply list_elem_of_here.
  - exists nd. split_and!; [done|done|by rewrite app_nil_r|done| |done|done]. apply Hkeep; [done|apply not_elem_of_nil].
  - apply list.Forall_cons in Hsm as [Hs _]. destruct (output_emits nd es nes q pk p) as (sw' & -> & [Epl Ebufs Eports Econf Esent Eins]); [done|by rewrite Hh, lookup_insert_eq|done|done|].
    cbn [mbind outcome_bind mret outcome_ret]. eexists; split; [done|]. cbn [nd_sw with_sw]. split_and!; [|by rewrite Esent; cbn; rewrite app_nil_r|done| |done|done].
    + split; cbn [nd_sw with_sw nd_mac_port nd_neighbors]; [done|done|done|done|]. by rewrite (sc_num _ _ Econf).
    + rewrite Ebufs. apply Hkeep; [done|]. apply not_elem_of_cons; split; [done|apply not_elem_of_nil].
Qed.

Lemma arp_step nd es nes in_port frame f tail :
  plain (w_Matriz_bc w) nd es nes → ordinary in_port frame f → unmatched (nd_sw nd) in_port frame → (0 < t)%nat →
  ∃ nd', process_frame parse 0 w d g t nd in_port frame tail = Done nd' ∧
    plain (w_Matriz_bc w) nd' (arp_spec (w_msec w) nes es f).1 nes ∧
    sw_sent (nd_sw nd') = sw_sent (nd_sw nd) ++ (arp_spec (w_msec w) nes es f).2 ≫= emitted w (nd_sw nd) nes in_port frame ∧
    sw_packet_ins (nd_sw nd') = sw_packet_ins (nd_sw nd) ∧
    leaves (sw_bufs (nd_sw nd)) (sw_bufs (nd_sw nd')) (arp_spec (w_msec w) nes es f).2 ∧
    same_conf (sw_ports (nd_sw nd)) (sw_ports (nd_sw nd')) ∧ same_flows (nd_sw nd) (nd_sw nd').
Proof using.
  intros Hp Ho (l & Hfl & Hmatch) Ht. unfold process_frame, alloc. set (pkt := packet_create parse in_port (rx_buffer frame tail) false).
  set (q := fresh (dom (heap (sw_bufs (nd_sw nd))))).
  assert (Hq : heap (sw_bufs (nd_sw nd)) !! q = None) by (apply not_elem_of_dom, is_fresh).
  destruct (created_packet_ok in_port frame f tail Ho) as (Hf1 & Hf2 & Hv & Httl). fold pkt in Hf1, Hf2, Hv, Httl.
  assert (Hc : contents (pk_buffer pkt) = frame) by apply rx_contents.
  assert (Hh : pk_handle_std pkt = packet_handle_std_create parse frame in_port) by (unfold pkt, packet_create; cbn [pk_handle_std]; by rewrite rx_contents).
  rewrite <- Hh in Hmatch. unfold first_flows in Hfl. destruct (pl_tables (sw_pl (nd_sw nd))) as [|t0 ts] eqn:Htab; [done|]. injection Hfl as <-.
  assert (Hfacts : pk_in_port pkt = in_port ∧ pk_buffer_id pkt = NO_BUFFER ∧ pk_out_queue pkt = 0) by done.
  clear Hh. clearbody pkt. destruct Hfacts as (Hin & Hid & Hqu).
  unfold pipeline_process_Uah, get. cbn [nd_sw with_sw put set_bufs sw_bufs heap]. rewrite lookup_insert_eq; cbn [lift mbind outcome_bind].
  rewrite Hc, Hin, Httl; cbn [lift mbind outcome_bind negb]. rewrite set_handle_id.
  destruct Hp as [Hpo Hmac H16 Hnb Hrows].
  pose proof (frame_type pkt f Hf1) as Hty.
  rewrite Hty; cbn [lift mbind outcome_bind].
  pose proof (or_type _ _ _ Ho) as Hnt. rewrite !not_elem_of_cons in Hnt. destruct Hnt as (Hn1 & Hn2 & Hn3 & _).
  replace ((fr_eth_type f =? ETH_HELLO_CTR) || (fr_eth_type f =? ETH_HELLO)) with false by lia.
  set (nd1 := with_sw _ _). erewrite (loop_misses t nd1 q pkt t0 ts); [|done|unfold nd1; cbn; by rewrite lookup_insert_eq|done|done|done].
  cbn [mbind outcome_bind]. set (nd2 := with_sw nd1 _). set (pk2 := set_table_id pkt 0) in *.
  assert (Hq2 : heap (sw_bufs (nd_sw nd2)) = <[q := pk2]> (heap (sw_bufs (nd_sw nd)))) by (unfold nd2, missed, nd1; cbn; by rewrite !insert_insert_eq).
  unfold uah_paths, uah_arp_path, get. rewrite Hq2, lookup_insert_eq; cbn [lift mbind outcome_bind].
  rewrite (frame_type _ _ Hf2); cbn [lift mbind outcome_bind]. replace (fr_eth_type f =? ETH_IPV6) with false by lia.
  rewrite Z.eqb_refl, Hf2; cbn [lift mbind outcome_bind].
  destruct (arp_ref (nd_neighbors nd2) nes (nd_mac_port nd2) es (w_msec w) f Hnb Hmac) as (m & -> & Hm). cbn [lift mbind outcome_bind].
  destruct (arp_spec_ports (w_msec w) nes es f H16) as [Hp16 Hsm].
  destruct (outs_step (with_mac nd2 m) (arp_spec (w_msec w) nes es f).1 nes q pk2 (sw_bufs (nd_sw nd)) (arp_spec (w_msec w) nes es f).2 in_port frame)
    as (nd' & E & Hp' & Hs & Hi & Hl & Hcf & Epl); [by split|exact Hq2|done|done|done|by split_and!|done|apply spec_outs|].
  exists nd'. split_and!; [done..|]. split; [by rewrite Epl|]. unfold first_flows. rewrite Epl, Htab. done.
Qed.
End plain.

(** * The lock of ARP-Path, seen from outside *)

(** A frame that arrives: what surrounds it, the port, the bytes, spare room of the buffer. *)
Record arrival := Arrival { a_world : world; a_port : Z; a_frame : list Z; a_tail : nat }.

Section run.
  Context `{Malloc} (parse : list Z → option (ofl_match * protocols_std)) (d g t : nat).

(** The frames sent for each frame received. *)
Fixpoint frames_run (nd : node) (evs : list arrival) : outcome (node * list (list tx)) :=
  match evs with
  | [] => mret (nd, [])
  | ev :: evs =>
    nd1 ← process_frame parse 0 (a_world ev) d g t nd (a_port ev) (a_frame ev) (a_tail ev);
    '(nd2, outs) ← frames_run nd1 evs;
    mret (nd2, drop (length (sw_sent (nd_sw nd))) (sw_sent (nd_sw nd1)) :: outs)
  end.

(** While [s] is locked to port [p]. *)
Definition arrives (sw : switch) (M : list (list Z)) (T : Z) (ev : arrival) : Prop :=
  w_Matriz_bc (a_world ev) = M ∧ fits 64 (w_msec (a_world ev)) ∧ w_msec (a_world ev) < T ∧
  unmatched parse sw (a_port ev) (a_frame ev) ∧ ∃ f, ordinary parse (a_port ev) (a_frame ev) f.

(** Broadcasts of [s] from another port are not sent; unicast frames to [s] leave by [p]
    only. *)
Definition obeyed (dp : dp_ports) (s : list Z) (p : Z) (ev : arrival) (out : list tx) : Prop :=
  ∀ f, ordinary parse (a_port ev) (a_frame ev) f →
    (fr_eth_src f = s → is_bcast f = true → a_port ev ≠ p → out = []) ∧
    (fr_eth_dst f = s → is_bcast f = false →
       out = if (a_port ev =? p) || negb (up dp p) then [] else [(p, 0, a_frame ev)]).

Lemma ordinary_port in_port frame f : ordinary parse in_port frame f → ArpPath.fr_in_port f = in_port.
Proof using. intros [_ _ E _]. unfold arp_frame_of in E. by simplify_option_eq. Qed.

Lemma ordinary_same in_port frame f f' : ordinary parse in_port frame f → ordinary parse in_port frame f' → f' = f.
Proof using. intros [_ _ E _] [_ _ E' _]. congruence. Qed.

Lemma frames_locked sw M nes T s p dp evs nd es :
  plain M nd es nes → locked T s p es → fits 16 p → same_conf dp (sw_ports (nd_sw nd)) → (0 < t)%nat → Forall (arrives sw M T) evs → same_flows sw (nd_sw nd) →
  ∃ nd' outs, frames_run nd evs = Done (nd', outs) ∧ Forall2 (obeyed dp s p) evs outs.
Proof using.
  intros Hp Hl H16 Hc Ht Hev. revert nd es Hp Hl Hc. induction Hev as [|ev evs (<- & H64 & HT & Hu & f & Ho) _ IH]; intros nd es Hp Hl Hc Hsf.
  { by exists nd, []. }
  cbn [frames_run].
  destruct (arp_step parse (a_world ev) d g t nd es nes (a_port ev) (a_frame ev) f (a_tail ev) Hp Ho (unmatched_same _ _ _ _ _ Hsf Hu) Ht)
    as (nd1 & -> & Hp1 & Hs & _ & _ & Hc1 & Hf1).
  destruct (locked_step T s p (w_msec (a_world ev)) H64 HT ltac:(unfold fits in H16; lia) nes es f Hl) as (Hl1 & Ho1 & Ho2).
  cbn [mbind outcome_bind]. destruct (IH nd1 _ Hp1 Hl1) as (nd' & outs & -> & Hf); [by etrans|by etrans|].
  cbn [mbind outcome_bind mret outcome_ret]. eexists nd', _. split; [done|]. constructor; [|done].
  rewrite Hs, drop_app_length. intros f' Hf'. assert (f' = f) as -> by (by eapply ordinary_same). clear Hf'. split.
  - intros Hsrc Hb Hne. rewrite Ho1; [done..|]. by rewrite (ordinary_port _ _ _ Ho).
  - intros Hd Hb. rewrite Ho2 by done. cbn [mbind list_bind emitted]. rewrite app_nil_r.
    replace (p =? OFPP_RANDOM) with false by (unfold fits in H16; unfold OFPP_RANDOM; lia). by rewrite (same_up _ _ p Hc).
Qed.
End run.

(** * Theorems *)

(** C9: a frame that no flow takes, from bytes to bytes, with TCP-Path off.  Let the switch be [plain]: the ports
    well formed, both tables of addresses lists whose ports fit 16 bits, and each of the 16 rows of the flooding
    matrix an order of the ports.  For every frame that is [ordinary] (it decodes, has TTL
    left, is neither a hello nor IPv6) and matches no flow of the first table, [process_buffer] returns, without
    undefined behaviour and within one turn of the table loop, and the switch is plain again.  The table of addresses becomes
    what the abstract ARP-Path handler [arp_spec] makes of it, exactly the frames [emitted] for
    its outputs are handed to devices, unchanged, and no message goes to the controller.  On the
    heap a dropped copy is freed; every other frame, sent or not, stays there for ever: nobody
    has a pointer to it any more and it is in no buffer. *)
Theorem switch_forwards_exact `{Malloc} (parse : list Z → option (ofl_match * protocols_std)) (w : world) (d g t : nat)
    (nd : node) (es nes : list mac_entry) (in_port : Z) (frame : list Z) (f : arp_frame) (tail : nat)
    (Hp : plain (w_Matriz_bc w) nd es nes) (Ho : ordinary parse in_port frame f)
    (Hu : unmatched parse (nd_sw nd) in_port frame) (Ht : (0 < t)%nat) :
  ∃ nd', process_frame parse 0 w d g t nd in_port frame tail = Done nd' ∧
    plain (w_Matriz_bc w) nd' (arp_spec (w_msec w) nes es f).1 nes ∧
    sw_sent (nd_sw nd') = sw_sent (nd_sw nd) ++ (arp_spec (w_msec w) nes es f).2 ≫= emitted w (nd_sw nd) nes in_port frame ∧
    sw_packet_ins (nd_sw nd') = sw_packet_ins (nd_sw nd) ∧
    leaves (sw_bufs (nd_sw nd)) (sw_bufs (nd_sw nd')) (arp_spec (w_msec w) nes es f).2.
Proof.
  destruct (arp_step parse w d g t nd es nes in_port frame f tail Hp Ho Hu Ht) as (nd' & E & Hp' & Hs & Hi & Hl & _). by exists nd'.
Qed.

(** C8: the first port wins, for a whole switch with TCP-Path off.  Let a switch that is [plain] receive a broadcast frame
    of an address [s] that the table does not know, and then, in the next 15 seconds (the time of a lock) and without the tables being
    aged or a hello handled in between, any frames that are [ordinary] (they decode, have TTL left, are neither
    hellos nor IPv6) and match no flow of the first table.  The switch processes them all, sends no other copy of a broadcast of [s]
    that comes from another port, and sends unicast frames to [s], unchanged, out of the port of the first
    and no other (or not at all if they came from it or the port is down). *)
Theorem switch_first_port_wins `{Malloc} (parse : list Z → option (ofl_match * protocols_std)) (d g t : nat) (M : list (list Z))
    (nd : node) (es nes : list mac_entry) (ev : arrival) (f : arp_frame) (evs : list arrival)
    (Hp : plain M nd es nes) (Hw : w_Matriz_bc (a_world ev) = M) (Ho : ordinary parse (a_port ev) (a_frame ev) f)
    (Hu : unmatched parse (nd_sw nd) (a_port ev) (a_frame ev)) (Hb : is_bcast f = true) (Hnew : first_of (fr_eth_src f) es = None) (Ht : (0 < t)%nat)
    (H64 : fits 64 (w_msec (a_world ev) + BT_TIME * 1000))
    (Hevs : Forall (arrives parse (nd_sw nd) M (w_msec (a_world ev) + BT_TIME * 1000)) evs) :
  ∃ nd' outs, frames_run parse d g t nd (ev :: evs) =
      Done (nd', emitted (a_world ev) (nd_sw nd) nes (a_port ev) (a_frame ev) (AOutput OFPP_RANDOM) :: outs) ∧
    Forall2 (obeyed parse (sw_ports (nd_sw nd)) (fr_eth_src f) (u16 (a_port ev))) evs outs.
Proof.
  subst M. cbn [frames_run].
  destruct (arp_step parse (a_world ev) d g t nd es nes (a_port ev) (a_frame ev) f (a_tail ev) Hp Ho Hu Ht)
    as (nd1 & -> & Hp1 & Hs & _ & _ & Hc1 & Hf1).
  destruct (first_broadcast nes es (w_msec (a_world ev)) f Hnew Hb H64) as [Hl Hout]. rewrite (ordinary_port _ _ _ _ Ho) in Hl.
  cbn [mbind outcome_bind]. destruct (frames_locked parse d g t (nd_sw nd) _ nes _ _ _ (sw_ports (nd_sw nd)) evs nd1 _ Hp1 Hl) as (nd' & outs & -> & Hf);
    [apply fits_u16|done|done|done|done|].
  cbn [mbind outcome_bind mret outcome_ret]. exists nd', outs. split; [|done].
  rewrite Hs, drop_app_length, Hout. cbn [mbind list_bind]. by rewrite app_nil_r.
Qed.

(** ** An example *)

#[local] Instance ex_malloc : Malloc := λ _, 0xCC.

Definition ex_node : node :=
  Nd (Switch pipeline_create (dp_buffers_create ∅) ex_dp [] [] 0) mac_to_port_new table_tcp_new mac_to_port_new 0.
(** An ARP frame from [src] to [dst]. *)
Definition ex_frame (dst src : list Z) : list Z := dst ++ src ++ [8; 6] ++ replicate 30 0.
Definition ex_all : list Z := [0xff; 0xff; 0xff; 0xff; 0xff; 0xff].
Definition ex_host (n : Z) : list Z := [0; 0; 0; 0; 0; n].
Definition ex_fields (in_port : Z) (dst src : list Z) : arp_frame := Frame in_port dst src 1544 None false.
Definition ex_arrival (port : Z) (dst src : list Z) : arrival := Arrival ex_world port (ex_frame dst src) 100.

Lemma ex_plain : plain (w_Matriz_bc ex_world) ex_node [] [].
Proof.
  split; [|exact mac_new_repr|constructor|exact mac_new_repr|].
  - exact ex_dp_ok.
  - intros k Hk. exists [0; 1; 2; 3]. split; [by apply lookup_replicate_2|]. apply (bool_decide_unpack _); vm_compute; exact I.
Qed.

Lemma ex_ordinary port dst src :
  length dst = 6%nat → length src = 6%nat → ordinary ex_parse port (ex_frame dst src) (ex_fields port dst src).
Proof.
  intros Hd Hs. do 7 (destruct dst; try discriminate Hd). do 7 (destruct src; try discriminate Hs).
  split; [by eexists|by eexists|done|]. by apply (bool_decide_unpack _).
Qed.

Lemma switch_forwards_witness :
  ∃ nd', process_frame ex_parse 0 ex_world 1 1 64 ex_node 1 (ex_frame ex_all (ex_host 7)) 100 = Done nd' ∧
    sw_sent (nd_sw nd') = [(2, 0, ex_frame ex_all (ex_host 7))].
Proof.
  destruct (switch_forwards_exact ex_parse ex_world 1 1 64 ex_node [] [] 1 (ex_frame ex_all (ex_host 7)) (ex_fields 1 ex_all (ex_host 7)) 100)
    as (nd' & E & _ & Hs & _); [exact ex_plain|by apply ex_ordinary|exists []; by split|lia|].
  exists nd'. split; [exact E|]. rewrite Hs. vm_compute. reflexivity.
Defined.

Lemma switch_first_port_witness :
  ∃ nd' out, frames_run ex_parse 1 1 64 ex_node
      [ex_arrival 1 ex_all (ex_host 7); ex_arrival 2 ex_all (ex_host 7); ex_arrival 2 (ex_host 7) (ex_host 8)] =
    Done (nd', [out; []; [(1, 0, ex_frame (ex_host 7) (ex_host 8))]]).
Proof.
  destruct (switch_first_port_wins ex_parse 1 1 64 (w_Matriz_bc ex_world) ex_node [] [] (ex_arrival 1 ex_all (ex_host 7))
              (ex_fields 1 ex_all (ex_host 7)) [ex_arrival 2 ex_all (ex_host 7); ex_arrival 2 (ex_host 7) (ex_host 8)])
    as (nd' & outs & E & Hf).
  - exact ex_plain.
  - reflexivity.
  - by apply ex_ordinary.
  - exists []. by split.
  - reflexivity.
  - reflexivity.
  - lia.
  - vm_compute. by split.
  - constructor; [|constructor; [|constructor]].
    all: split; [reflexivity|]; split; [vm_compute; by split|]; split; [vm_compute; reflexivity|].
    all: split; [exists []; by split|]; eexists; by apply ex_ordinary.
  - exists nd'. eexists. inversion Hf as [|? out1 ? ? H1 Hf1]; subst. inversion Hf1 as [|? out2 ? ? H2 Hf2]; subst. inversion Hf2; subst.
    destruct (H1 (ex_fields 2 ex_all (ex_host 7))) as [H1' _]; [by apply ex_ordinary|].
    destruct (H2 (ex_fields 2 (ex_host 7) (ex_host 8))) as [_ H2']; [by apply ex_ordinary|].
    rewrite H1' in E by done. rewrite H2' in E by done. exact E.
Defined.
