(* ===== verification/HelloCorrect.v ===== *)
(** Theorems about Hello.v: what a neighbour learns from a hello, that the table of
    neighbours grows with every hello of a switch that is not a core switch, and that the
    ageing of addresses stops the switch when it knows exactly one address. *)

From S2P Require Import Prelude Memory Ofpbuf Csum OpenFlow MatchStd ActionSet Buffers PacketActions LinkedList MacTable TcpTable.
From S2P Require Import ArpPath Group GroupTable Meter FlowTable Ports PortsCorrect TcpPath Pipeline Execute ExecuteSafe ExecuteRun Processing.
From S2P Require Import ExecuteKeeps Forwarding Hello ForwardingCorrect.

Definition hello_frame (dp_id : Z) (hw_addr Total : list Z) : list Z :=
  replicate 6 0xff ++ hw_addr ++ [0x76; 0x98] ++ Total ++ [posicion dp_id].

(** The table of neighbours after a hello. *)
Definition hello_spec (now : Z) (src : list Z) (in_port position : Z) (nes : list mac_entry) : list mac_entry :=
  let '(nes, p) := found_spec now src nes in
  if negb (p =? -1) then move_spec now src in_port TIME_RECOVERY nes
  else nes ++ [MacEntry src (u16 in_port) position (expiry now TIME_RECOVERY)].

Lemma hello_ref w nd nes src in_port data position :
  repr true (nd_neighbors nd) nes → list.last data = Some position →
  ∃ n, hello_received w nd src in_port data = Some (with_neighbors nd n) ∧ repr true n (hello_spec (w_msec w) src in_port position nes).
Proof.
  intros Hr Hl. unfold hello_received, hello_spec. destruct (found_refines _ _ (w_msec w) src Hr) as (n1 & E & Hr1).
  destruct (found_spec (w_msec w) src nes) as [nes1 p] eqn:Es. rewrite E; cbn [mbind option_bind fst snd] in *. destruct (negb (p =? -1)).
  - destruct (update_ref n1 nes1 (w_msec w) src in_port TIME_RECOVERY Hr1) as (n2 & r & -> & Hr2). cbn [mbind option_bind]. by exists n2.
  - rewrite Hl; cbn [mbind option_bind]. unfold mac_to_port_add_hello. edestruct (add_tail_refines n1) as (n2 & -> & Hr2); [done|].
    cbn [mbind option_bind]. by exists n2.
Qed.

(** * Receiving a hello *)

(** A hello decodes: the parser finds the Ethernet header at the start and neither MPLS nor IPv4. *)
Definition decodes_hello (parse : list Z → option (ofl_match * protocols_std)) (frame : list Z) : Prop :=
  ∃ m pr, parse frame = Some (m, pr) ∧ pr_eth pr = Some 0%nat ∧ pr_mpls pr = None ∧ pr_ipv4 pr = None.

Section hello.
  Context `{Malloc} (parse : list Z → option (ofl_match * protocols_std)).

Lemma hello_created dp_id hw_addr Total in_port packet_out :
  ∃ pkt, packet_hello_create parse dp_id hw_addr Total in_port packet_out = Some pkt ∧
    contents (pk_buffer pkt) = hello_frame dp_id hw_addr Total ∧ pk_in_port pkt = in_port ∧ pk_out_queue pkt = 0.
Proof using.
  unfold packet_hello_create. rewrite new_parts.
  do 5 (edestruct (put_parts []) as [? ->]; cbn [mbind option_bind]). eexists; split; [done|].
  unfold validate; cbn [pk_buffer set_handle packet_create]. rewrite parts_contents, <- !app_assoc. done.
Qed.

Context (TCP_PATH : Z) (w : world) (d g t : nat).

Lemma hello_length dp_id hw_addr Total : length hw_addr = 6%nat →
  bytes_at 6 (hello_frame dp_id hw_addr Total) 6 = Some hw_addr ∧ ld 2 (hello_frame dp_id hw_addr Total) 12 = Some ETH_HELLO ∧
  list.last (hello_frame dp_id hw_addr Total) = Some (posicion dp_id).
Proof using.
  intros Hw. do 7 (destruct hw_addr; try discriminate Hw). split_and!.
  - unfold bytes_at. case_match eqn:E; [done|]. apply Nat.leb_gt in E. unfold hello_frame in E. rewrite !length_app in E. cbn in E. lia.
  - done.
  - unfold hello_frame. by rewrite !app_assoc, last_snoc.
Qed.

(** What a hello leaves alone. *)
Record quiet_step (nd nd' : node) : Prop := {
  qs_mac : nd_mac_port nd' = nd_mac_port nd;
  qs_tcp : nd_tcp_table nd' = nd_tcp_table nd;
  qs_pl : sw_pl (nd_sw nd') = sw_pl (nd_sw nd);
  qs_ports : sw_ports (nd_sw nd') = sw_ports (nd_sw nd);
  qs_sent : sw_sent (nd_sw nd') = sw_sent (nd_sw nd);
  qs_bufs : sw_bufs (nd_sw nd') = sw_bufs (nd_sw nd) }.

Lemma hello_step nd nes in_port dp_id hw_addr Total tail :
  repr true (nd_neighbors nd) nes → length hw_addr = 6%nat → decodes_hello parse (hello_frame dp_id hw_addr Total) →
  ∃ nd', process_frame parse TCP_PATH w d g t nd in_port (hello_frame dp_id hw_addr Total) tail = Done nd' ∧
    repr true (nd_neighbors nd') (hello_spec (w_msec w) hw_addr in_port (posicion dp_id) nes) ∧ quiet_step nd nd'.
Proof using.
  intros Hr Hw (m & pr & Hparse & Heth & Hmpls & Hip). set (frame := hello_frame dp_id hw_addr Total) in *.
  destruct (hello_length dp_id hw_addr Total Hw) as (Hsrc & Hty & Hlast). fold frame in Hsrc, Hty, Hlast.
  unfold process_frame, alloc. set (pkt := packet_create parse in_port (rx_buffer frame tail) false).
  set (q := fresh (dom (heap (sw_bufs (nd_sw nd))))).
  assert (Hq : heap (sw_bufs (nd_sw nd)) !! q = None) by (apply not_elem_of_dom, is_fresh).
  assert (Hc : contents (pk_buffer pkt) = frame) by apply rx_contents.
  assert (Hfacts : pk_in_port pkt = in_port ∧ pk_buffer_id pkt = NO_BUFFER) by done.
  assert (Hh : ∃ mt, pk_handle_std pkt = Handle pr mt true None).
  { unfold pkt, packet_create; cbn [pk_handle_std]. rewrite rx_contents. unfold packet_handle_std_create, packet_handle_std_validate; cbn [ph_valid].
    rewrite Hparse. by eexists. }
  destruct Hh as [mt Hh]. clearbody pkt. destruct Hfacts as [Hin Hid].
  unfold pipeline_process_Uah, get. cbn [nd_sw with_sw put set_bufs sw_bufs heap]. rewrite lookup_insert_eq; cbn [lift mbind outcome_bind].
  rewrite Hc, Hin. unfold packet_handle_std_is_ttl_valid, packet_handle_std_validate; rewrite Hh; cbn [ph_valid ph_proto]; rewrite Hmpls, Hip.
  cbn [mbind option_bind lift outcome_bind negb]. unfold eth_type_of, eth_src_of. cbn [pk_handle_std set_handle ph_proto pk_buffer].
  rewrite Heth; cbn [mbind option_bind]. rewrite Hc. change (0 + o_eth_type)%nat with 12%nat. change (0 + o_eth_src)%nat with 6%nat.
  rewrite Hty; cbn [lift mbind outcome_bind]. rewrite Z.eqb_refl, orb_true_r, Hsrc; cbn [lift mbind outcome_bind].
  edestruct (hello_ref w) with (in_port := in_port) as (n & -> & Hn); [exact Hr|exact Hlast|]. cbn [lift mbind outcome_bind].
  unfold destroy, packet_destroy. cbn [with_neighbors nd_sw with_sw put set_bufs sw_bufs heap]. rewrite lookup_insert_eq.
  cbn [pk_buffer_id set_handle]. rewrite Hid, Z.eqb_refl; cbn [negb andb lift mbind outcome_bind mret outcome_ret].
  eexists; split; [done|]. split; [exact Hn|]. split; try done. cbn. rewrite insert_insert_eq, delete_insert_id by done.
  by destruct (sw_bufs (nd_sw nd)).
Qed.
End hello.

(** * The table of neighbours *)

(** Every entry of [src] is out of date at [T], and is not one of a core switch. *)
Definition outdated (src : list Z) (T : Z) (nes : list mac_entry) : Prop :=
  Forall (λ e, me_mac e = src → me_vecino e ≠ 1 ∧ me_time_entry e <= T) nes.

Lemma outdated_step src T now in_port position nes :
  outdated src T nes → T <= now → fits 64 (now + TIME_RECOVERY * 1000) → position ≠ 1 → fits 64 now →
  hello_spec now src in_port position nes = nes ++ [MacEntry src (u16 in_port) position (expiry now TIME_RECOVERY)] ∧
  outdated src (now + TIME_RECOVERY * 1000) (hello_spec now src in_port position nes).
Proof.
  intros Ho HT H64 Hpos Hnow. assert (E : found_spec now src nes = (nes, -1)).
  { unfold found_spec. assert (find_first (usable (u64 now) src) nes = None) as ->; [|done]. apply find_first_none.
    eapply Forall_impl; [|exact Ho]. intros e He. unfold usable, mac_is. case_bool_decide as Hm; [|done].
    destruct (He Hm) as [H1 H2]. unfold u64. rewrite wrap_small by done. cbn [andb].
    apply orb_false_iff. split; [apply Z.ltb_ge; lia|by apply Z.eqb_neq]. }
  unfold hello_spec. rewrite E; cbn [Z.eqb negb]. split; [done|]. apply Forall_app. split.
  - eapply Forall_impl; [|exact Ho]. intros e He Hm. destruct (He Hm). split; [done|]. unfold TIME_RECOVERY. lia.
  - constructor; [|done]. intros _. split; [done|]. cbn. unfold expiry, u64. by rewrite wrap_small.
Qed.

Section neighbors.
  Context `{Malloc} (parse : list Z → option (ofl_match * protocols_std)) (TCP_PATH : Z) (d g t : nat).

(** The same neighbour is heard on a port, once in each of the worlds. *)
Fixpoint hellos (nd : node) (in_port : Z) (frame : list Z) (tail : nat) (ws : list world) : outcome node :=
  match ws with
  | [] => mret nd
  | w :: ws => nd ← process_frame parse TCP_PATH w d g t nd in_port frame tail; hellos nd in_port frame tail ws
  end.

(** Each hello comes at least [TIME_RECOVERY] seconds after the one before. *)
Fixpoint spaced (T : Z) (ws : list world) : Prop :=
  match ws with
  | [] => True
  | w :: ws => T <= w_msec w ∧ fits 64 (w_msec w) ∧ fits 64 (w_msec w + TIME_RECOVERY * 1000) ∧ spaced (w_msec w + TIME_RECOVERY * 1000) ws
  end.

Lemma hellos_grow T ws nd nes in_port dp_id hw_addr Total tail :
  repr true (nd_neighbors nd) nes → outdated hw_addr T nes → length hw_addr = 6%nat → decodes_hello parse (hello_frame dp_id hw_addr Total) →
  dp_id < 1000 → spaced T ws →
  ∃ nd' nes', hellos nd in_port (hello_frame dp_id hw_addr Total) tail ws = Done nd' ∧ repr true (nd_neighbors nd') (nes ++ nes') ∧
    length nes' = length ws ∧ Forall (λ e, me_mac e = hw_addr ∧ me_port_in e = u16 in_port) nes'.
Proof using.
  intros Hr Ho Hw Hd Hid. revert T nd nes Hr Ho. induction ws as [|w ws IH]; intros T nd nes Hr Ho Hs.
  { exists nd, []. by rewrite app_nil_r. }
  destruct Hs as (HT & Hn & H64 & Hs). cbn [hellos].
  destruct (hello_step parse TCP_PATH w d g t nd nes in_port dp_id hw_addr Total tail Hr Hw Hd) as (nd1 & -> & Hr1 & _). cbn [mbind outcome_bind].
  assert (Hpos : posicion dp_id ≠ 1).
  { unfold posicion, PORT_TOR, PORT_AGR. destruct (Z.ltb_spec dp_id 100); [done|]. replace ((100 <=? dp_id) && (dp_id <? 1000)) with true by lia. done. }
  destruct (outdated_step hw_addr T (w_msec w) in_port (posicion dp_id) nes Ho HT H64 Hpos Hn) as [E Ho1]. rewrite E in Hr1, Ho1.
  destruct (IH _ nd1 _ Hr1 Ho1 Hs) as (nd' & nes' & -> & Hr' & Hl & Hf). rewrite <- app_assoc in Hr'.
  eexists nd', _. split; [done|]. split; [exact Hr'|]. split; [cbn; by rewrite Hl|by constructor].
Qed.
End neighbors.

(** Hello frames.  [packet_hello_create] builds the frame: broadcast, from the address of port 1, of
    type 0x7698, with 45 bytes of stack memory that were never written, and the layer of the
    switch as its last byte.  [packet_hello_send] hands it to every device that is up and may
    be flooded.  A switch that receives it puts the sender into its table of neighbours with the
    layer and the port, or refreshes it, frees the packet, sends nothing and changes
    nothing else. *)
Theorem hello_exchange `{Malloc} (parse : list Z → option (ofl_match * protocols_std)) (TCP_PATH : Z) (w w' : world) (d g t : nat)
    (dp_id : Z) (hw_addr Total : list Z) (nd1 nd2 : node) (nes : list mac_entry) (ptr : positive) (pkt : packet) (in_port : Z) (tail : nat)
    (Hw : length hw_addr = 6%nat) (Hd : decodes_hello parse (hello_frame dp_id hw_addr Total))
    (Hcreate : packet_hello_create parse dp_id hw_addr Total 0 true = Some pkt) (Hptr : heap (sw_bufs (nd_sw nd1)) !! ptr = Some pkt)
    (Hports : ports_ok (sw_ports (nd_sw nd1))) (Hn : repr true (nd_neighbors nd2) nes) :
  (∃ nd', packet_hello_send parse w d g t nd1 ptr = Done nd' ∧
    sw_sent (nd_sw nd') = sw_sent (nd_sw nd1) ++ ((λ no, (no, 0, hello_frame dp_id hw_addr Total)) <$>
      base.filter (λ no, up (sw_ports (nd_sw nd1)) no = true)
        (base.filter (λ no, no ≠ 0 ∧ (true && no_fwd (sw_ports (nd_sw nd1)) no) = false) (port_list (sw_ports (nd_sw nd1)))))) ∧
  (∃ nd', process_frame parse TCP_PATH w' d g t nd2 in_port (hello_frame dp_id hw_addr Total) tail = Done nd' ∧
    repr true (nd_neighbors nd') (hello_spec (w_msec w') hw_addr in_port (posicion dp_id) nes) ∧ quiet_step nd2 nd').
Proof.
  split; [|by apply hello_step]. destruct (hello_created parse dp_id hw_addr Total 0 true) as (pkt' & E & Hc & Hin & Hq).
  rewrite Hcreate in E. injection E as <-. unfold packet_hello_send, output, get. rewrite Hptr; cbn [lift mbind outcome_bind]. rewrite Hq.
  unfold dp_actions_output_port, get. rewrite Hptr; cbn [lift mbind outcome_bind]. change (OFPP_FLOOD =? OFPP_TABLE) with false.
  change (OFPP_FLOOD =? OFPP_IN_PORT) with false. change (OFPP_FLOOD =? OFPP_CONTROLLER) with false. rewrite Z.eqb_refl; cbn [orb]. rewrite Hc, Hin.
  pose proof (output_all_facts (device (world_at w nd1) (nd_sw nd1)) (sw_ports (nd_sw nd1)) (hello_frame dp_id hw_addr Total) 0 true Hports) as Hf.
  destruct (dp_ports_output_all _ _ _ _ _) as [p out]. destruct Hf as (_ & _ & _ & ->). by eexists.
Qed.

(** The table of neighbours grows for ever.  A switch whose identifier is below 1000 (not a core switch)
    sends its hello every [TIME_SEND] = 10 seconds, but the entry made of it lasts only
    [TIME_RECOVERY] = 1 second, and the entry is looked for among those that still last: each hello
    adds one more entry for the same neighbour on the same port, and nothing ever ages this table.
    After [n] hellos there are [n] entries, all of which every broadcast walks through. *)
Theorem neighbor_table_grows `{Malloc} (parse : list Z → option (ofl_match * protocols_std)) (TCP_PATH : Z) (d g t : nat)
    (ws : list world) (nd : node) (in_port dp_id : Z) (hw_addr Total : list Z) (tail : nat) (nes : list mac_entry)
    (Hn : repr true (nd_neighbors nd) nes) (Hnew : hw_addr ∉ me_mac <$> nes) (Hw : length hw_addr = 6%nat)
    (Hd : decodes_hello parse (hello_frame dp_id hw_addr Total)) (Hid : dp_id < 1000) (Hs : spaced 0 ws) :
  ∃ nd' nes', hellos parse TCP_PATH d g t nd in_port (hello_frame dp_id hw_addr Total) tail ws = Done nd' ∧
    repr true (nd_neighbors nd') (nes ++ nes') ∧ length nes' = length ws ∧
    Forall (λ e, me_mac e = hw_addr ∧ me_port_in e = u16 in_port) nes'.
Proof.
  apply (hellos_grow parse TCP_PATH d g t 0); try done. apply list.Forall_forall. intros e He Hm. destruct Hnew. apply list_elem_of_fmap. by exists e.
Qed.

(** * Ageing *)

(** The turn returns, and the table of addresses is aged. *)
Definition aged_turn (now : Z) (es : list mac_entry) (r : outcome (node * timers)) : Prop :=
  ∃ nd' tm' es', r = Done (nd', tm') ∧ delete_timeout_spec (u64 now) es = Some es' ∧ repr true (nd_mac_port nd') es' ∧ tm_arptime tm' = now.

(** One known address stops the switch.  When the 10 seconds of [TIME_ARP] are over, the main loop ages
    the table of addresses.  If the table has exactly one entry, expired or not, the loop follows
    a NULL pointer: the turn does not return, whatever the other timers do.  Otherwise, with the hello
    packet in place and no TCP connections, the turn returns and the table is aged as [delete_timeout_spec]
    says. *)
Theorem ageing_stops_switch `{Malloc} (parse : list Z → option (ofl_match * protocols_std)) (w : world) (d g t : nat)
    (nd : node) (tm : timers) (es : list mac_entry) (pkt : packet)
    (Hm : repr true (nd_mac_port nd) es) (Ht : nd_tcp_table nd = table_tcp_new) (Hports : ports_ok (sw_ports (nd_sw nd)))
    (Hptr : heap (sw_bufs (nd_sw nd)) !! tm_hello tm = Some pkt) (Hdue : due (w_msec w) (tm_arptime tm) TIME_ARP = true) :
  (length es = 1%nat → run_timers parse w d g t nd tm = Undef) ∧
  (length es ≠ 1%nat → aged_turn (w_msec w) es (run_timers parse w d g t nd tm)).
Proof.
  unfold run_timers. rewrite Hdue.
  assert (Hsend : ∃ nd1 s, (if due (w_msec w) (tm_sendtime tm) TIME_SEND then nd ← packet_hello_send parse w d g t nd (tm_hello tm); mret (nd, w_msec w)
                  else mret (nd, tm_sendtime tm)) = Done (nd1, s) ∧ nd_mac_port nd1 = nd_mac_port nd ∧ nd_tcp_table nd1 = nd_tcp_table nd).
  { destruct (due _ (tm_sendtime tm) _); [|by eexists _, _]. unfold packet_hello_send, output, dp_actions_output_port, get. rewrite Hptr.
    cbn [lift mbind outcome_bind]. change (OFPP_FLOOD =? OFPP_TABLE) with false. change (OFPP_FLOOD =? OFPP_IN_PORT) with false.
    change (OFPP_FLOOD =? OFPP_CONTROLLER) with false. rewrite Z.eqb_refl; cbn [orb]. destruct (dp_ports_output_all _ _ _ _ _) as [p out]. by eexists _, _. }
  destruct Hsend as (nd1 & s & -> & E1 & E2). cbn [mbind outcome_bind]. rewrite E1.
  pose proof (delete_timeout_ref _ _ (w_msec w) Hm) as Ha.
  assert (Htcp : ∀ m : mac_to_port, ∃ nd2 s2, (if due (w_msec w) (tm_tcptime tm) TIME_TCP_DELETE then
      t ← lift (table_tcp_delete_timeout (nd_tcp_table (with_mac nd1 m)) (w_msec w));
      mret (Nd (nd_sw (with_mac nd1 m)) (nd_mac_port (with_mac nd1 m)) t (nd_neighbors (with_mac nd1 m)) (nd_secuence (with_mac nd1 m)), w_msec w)
    else mret (with_mac nd1 m, tm_tcptime tm)) = Done (nd2, s2) ∧ nd_mac_port nd2 = m).
  { intros m. destruct (due (w_msec w) (tm_tcptime tm) TIME_TCP_DELETE); [|by exists (with_mac nd1 m), (tm_tcptime tm)]. cbn [with_mac nd_tcp_table]. rewrite E2, Ht.
    change (table_tcp_delete_timeout table_tcp_new (w_msec w)) with (Some table_tcp_new). cbn [lift mbind outcome_bind].
    eexists _, _. split; [reflexivity|done]. }
  destruct es as [|e [|e2 es]]; cbn [delete_timeout_spec] in Ha; [|by split; [intros _; rewrite Ha|]|].
  all: split; [done|intros _]; destruct Ha as (m & -> & Hr); cbn [lift mbind outcome_bind mret outcome_ret]; destruct (Htcp m) as (nd2 & s2 & E & <-).
  all: cbn [mbind outcome_bind mret outcome_ret] in E; rewrite E; cbn [mbind outcome_bind]; unfold aged_turn; eexists _, _, _; split_and!; [done|done|exact Hr|done].
Qed.

(** ** Examples *)

#[local] Instance ex_malloc : Malloc := λ _, 0xCC.

Definition ex_total : list Z := replicate 45 0xCC.
Definition ex_hello_frame (dp_id : Z) : list Z := hello_frame dp_id (ex_host 9) ex_total.

Lemma ex_decodes dp_id : decodes_hello ex_parse (ex_hello_frame dp_id).
Proof. by eexists _, _. Qed.

Definition ex_hello (dp_id : Z) : packet :=
  default (packet_create ex_parse 0 (Ofpbuf [] 0 0) true) (packet_hello_create ex_parse dp_id (ex_host 9) ex_total 0 true).
(** A switch with its hello packet. *)
Definition ex_sender (dp_id : Z) (m : mac_to_port) : node :=
  Nd (Switch pipeline_create (dp_buffers_create {[ 1%positive := ex_hello dp_id ]}) ex_dp [] [] 0) m table_tcp_new mac_to_port_new 0.
Definition ex_world_at (msec : Z) : world :=
  World msec (msec / 1000) 1000 128 (λ _, ex_nd) (λ _, 0%nat) mac_to_port_new (replicate 16 [0; 1; 2; 3]).

Lemma hello_exchange_witness :
  ∃ nd1 nd2, packet_hello_send ex_parse ex_world 1 1 64 (ex_sender 150 mac_to_port_new) 1 = Done nd1 ∧
    sw_sent (nd_sw nd1) = [(1, 0, ex_hello_frame 150); (2, 0, ex_hello_frame 150); (OFPP_LOCAL, 0, ex_hello_frame 150)] ∧
    process_frame ex_parse 0 ex_world 1 1 64 ex_node 2 (ex_hello_frame 150) 100 = Done nd2 ∧
    repr true (nd_neighbors nd2) [MacEntry (ex_host 9) 2 PORT_AGR 1000].
Proof.
  destruct (hello_exchange ex_parse 0 ex_world ex_world 1 1 64 150 (ex_host 9) ex_total (ex_sender 150 mac_to_port_new) ex_node [] 1 (ex_hello 150) 2 100)
    as [(nd1 & E1 & H1) (nd2 & E2 & H2 & _)].
  - reflexivity.
  - exact (ex_decodes 150).
  - reflexivity.
  - reflexivity.
  - exact ex_dp_ok.
  - exact mac_new_repr.
  - exists nd1, nd2. split; [exact E1|]. split; [rewrite H1; vm_compute; reflexivity|]. split; [exact E2|]. exact H2.
Defined.

Lemma neighbor_table_grows_witness :
  ∃ nd' nes, hellos ex_parse 0 1 1 64 ex_node 2 (ex_hello_frame 7) 100 [ex_world_at 0; ex_world_at 10001; ex_world_at 20002] = Done nd' ∧
    repr true (nd_neighbors nd') nes ∧ length nes = 3%nat.
Proof.
  destruct (neighbor_table_grows ex_parse 0 1 1 64 [ex_world_at 0; ex_world_at 10001; ex_world_at 20002] ex_node 2 7 (ex_host 9) ex_total 100 [])
    as (nd' & nes & E & Hr & Hl & _).
  - exact mac_new_repr.
  - apply not_elem_of_nil.
  - reflexivity.
  - exact (ex_decodes 7).
  - lia.
  - vm_compute. repeat split; discriminate.
  - exists nd', nes. split; [exact E|]. split; [exact Hr|exact Hl].
Defined.

(** The table after one broadcast. *)
Definition ex_one : mac_to_port := mac_to_port_add_arp_table mac_to_port_new 0 (ex_host 7) 1 15 0.

Lemma ex_one_repr : repr true ex_one [MacEntry (ex_host 7) 1 0 15000].
Proof. exact (add_head_refines _ _ (ex_host 7) 1 15 0 0 mac_new_repr). Qed.

Lemma ageing_stops_switch_witness :
  run_timers ex_parse (ex_world_at 10001) 1 1 64 (ex_sender 150 ex_one) (Timers 1 0 0 0 0) = Undef.
Proof.
  refine (proj1 (ageing_stops_switch ex_parse (ex_world_at 10001) 1 1 64 (ex_sender 150 ex_one) (Timers 1 0 0 0 0) [_] (ex_hello 150) ex_one_repr _ _ _ _) eq_refl).
  - reflexivity.
  - exact ex_dp_ok.
  - reflexivity.
  - reflexivity.
Defined.
