(* ===== verification/RepairCorrect.v ===== *)
(** Theorems about Repair.v: with [recuperacion] 0 the handlers are those of ArpPath.v, TcpPath.v and
    Forwarding.v; how many requests are sent; a request and its reply; requests in networks with loops. *)

From S2P Require Import Prelude Memory Ofpbuf Csum OpenFlow MatchStd ActionSet Buffers PacketActions LinkedList MacTable TcpTable.
From S2P Require Import ArpPath Group GroupTable Meter FlowTable Ports PortsCorrect Network TcpPath Pipeline Execute Forwarding Repair.

(** * The switch as built *)

Definition of_arp (o : arp_out) : repair_out := match o with AOutput port => ROutput port | ADestroy => RDestroy end.
Definition of_tcp (o : tcp_out) : list repair_out :=
  match o with TOutput port data => [RData data; ROutput port] | TDestroy => [RDestroy] end.

(** A result of the switch as built, with the tables of repair as they were. *)
Definition lifted (r : mac_to_port) (fl : Z) (o : outcome node) : outcome repair_node := nd ← o; mret (RNode nd r fl).

Definition arp_result (s : repair_tables) (x : option (mac_to_port * list arp_out)) : option (repair_tables * list repair_out) :=
  '(m, os) ← x; Some (with_macs s m, map of_arp os).
Definition tcp_result (s : repair_tables) (x : option (path_state * list tcp_out * Z)) :
    option (repair_tables * table_tcp * Z * list repair_out * Z) :=
  '(p, os, r) ← x; Some (with_macs s (ps_mac_port p), ps_tcp_table p, ps_secuence p, flat_map of_tcp os, r).

Section off.
  Context (now : Z) (ps : Z → option Z).

Lemma send_off s src dst data in_port out_port :
  repair_send_unicast 0 now ps s src dst data in_port out_port =
  arp_result s (arp_path_send_unicast now (rt_mac_port s) dst out_port).
Proof using.
  unfold repair_send_unicast, arp_path_send_unicast. destruct (out_port =? -1); cbn [negb]; [by destruct s|].
  cbn [Z.eqb mbind option_bind andb]. by destruct (mac_to_port_time_refresh _ _ _ _) as [[m ?]|].
Qed.

Lemma arp_off nt s f data :
  repair_arp_path 0 now ps nt s f data =
  arp_result s (pipeline_arp_path now nt (rt_mac_port s) f).
Proof using.
  unfold repair_arp_path, pipeline_arp_path.
  destruct (mac_to_port_found_port _ _ _) as [[m p]|]; [cbn [mbind option_bind]|done].
  destruct (_ || _).
  - destruct (p =? -1); [by destruct (is_neighbor _ _)|].
    destruct (p =? fr_in_port f); [by destruct (mac_to_port_time_refresh _ _ _ _) as [[??]|]|].
    destruct (mac_to_port_check_timeout _ _ _) as [c|]; [cbn [mbind option_bind]|done].
    destruct (negb _); [by destruct (mac_to_port_update _ _ _ _ _) as [[??]|]|done].
  - destruct (if (fr_eth_type f =? 1544) || fr_arppath f then _ else _) as [m'|]; [cbn [mbind option_bind]|done].
    destruct (mac_to_port_found_port m' _ _) as [[m2 out]|]; [cbn [mbind option_bind]|done].
    rewrite send_off. cbn [with_macs rt_mac_port]. by destruct (arp_path_send_unicast _ _ _ _) as [[??]|].
Qed.

Lemma tcp_off ph TCP_PATH dp_id seq s t f op :
  repair_tcp_path 0 now ps ph TCP_PATH dp_id seq s t f op =
  tcp_result s (pipeline_tcp_path ph TCP_PATH dp_id now ps (PathState (rt_mac_port s) t seq) f).
Proof using.
  unfold repair_tcp_path, pipeline_tcp_path.
  destruct (tcp_path_classify _ _ _ _ _ _) as [[p [g pm| |]]|]; cbn [mbind option_bind]; [|done..].
  destruct (mac_to_port_time_refresh _ _ _ _) as [[m ?]|]; [cbn [mbind option_bind]|done].
  destruct (eth_addr_is_broadcast _ || _); [done|].
  destruct (0 <? pm); [|done]. unfold port_live. destruct (ps pm) as [st|]; [cbn [mbind option_bind]|done].
  destruct (st =? OFPPS_LIVE); [|done].
  destruct (hd_tcp (tf_hd g)) as [tcp|]; [|done]. by destruct (table_tcp_update_time _ _ _ _) as [[??]|].
Qed.
End off.

Section off_heap.
  Context `{Malloc} (parse : list Z → option (ofl_match * protocols_std)).
  Context (TCP_PATH : Z) (hw_addr Total : list Z) (w : world) (d g t : nat).

Lemma arp_outs_off os nd ptr :
  repair_outs_run parse hw_addr Total w d g t nd ptr (map of_arp os) = arp_outs_run parse w d g t nd ptr os.
Proof using.
  revert nd. induction os as [|o os IH]; intros nd; [done|]. cbn [map repair_outs_run arp_outs_run].
  destruct o; cbn [of_arp repair_out_run arp_out_run].
  - destruct (output _ _ _ _ _ _ _ _ _); cbn [mbind outcome_bind mret outcome_ret]; [apply IH|done..].
  - destruct (destroy _ _ _); cbn [mbind outcome_bind mret outcome_ret]; [apply IH|done..].
Qed.

Lemma tcp_outs_off os nd ptr :
  repair_outs_run parse hw_addr Total w d g t nd ptr (flat_map of_tcp os) = tcp_outs_run parse w d g t nd ptr os.
Proof using.
  revert nd. induction os as [|o os IH]; intros nd; [done|].
  destruct o; cbn [flat_map of_tcp app repair_outs_run repair_out_run tcp_outs_run tcp_out_run].
  - destruct (get _ _) as [pkt| |]; cbn [mbind outcome_bind mret outcome_ret]; [|done..].
    set (sw := put _ _ _). change (nd_sw (with_sw nd sw)) with sw.
    change (output parse w d g t (with_sw nd sw)) with (output parse w d g t nd).
    destruct (output _ _ _ _ _ _ _ _ _); cbn [mbind outcome_bind mret outcome_ret]; [apply IH|done..].
  - destruct (destroy _ _ _); cbn [mbind outcome_bind mret outcome_ret]; [apply IH|done..].
Qed.

Lemma uah_arp_off nd r fl ptr :
  uah_repair_arp parse 0 hw_addr Total w d g t (RNode nd r fl) ptr = lifted r fl (uah_arp_path parse w d g t nd ptr).
Proof using.
  unfold uah_repair_arp, uah_arp_path, lifted. cbn [rn_node].
  destruct (get _ _) as [pkt| |]; cbn [mbind outcome_bind]; [|done..].
  destruct (lift (arp_frame_of pkt)) as [f| |]; cbn [mbind outcome_bind]; [|done..].
  rewrite arp_off. cbn [tables_at rt_mac_port rn_node]. destruct (pipeline_arp_path _ _ _ _) as [[m os]|]; [|done].
  cbn [arp_result mbind option_bind lift outcome_bind]. unfold carry_out. cbn [set_tables with_macs rn_node rt_mac_port].
  rewrite arp_outs_off.
  by destruct (arp_outs_run _ _ _ _ _ _ _ _).
Qed.

Lemma uah_tcp_off nd r fl ptr :
  uah_repair_tcp parse 0 TCP_PATH hw_addr Total w d g t (RNode nd r fl) ptr =
  ('(nd, b) ← uah_tcp_path parse TCP_PATH w d g t nd ptr; mret (RNode nd r fl, b)).
Proof using.
  unfold uah_repair_tcp, uah_tcp_path. cbn [Z.eqb mret outcome_ret mbind outcome_bind rn_node].
  destruct (get _ _) as [pkt| |]; cbn [mbind outcome_bind]; [|done..].
  destruct (lift (frame_of pkt)) as [f| |]; cbn [mbind outcome_bind lift]; [|done..].
  rewrite tcp_off. cbn [tables_at rt_mac_port rn_node]. destruct (pipeline_tcp_path _ _ _ _ _ _ _) as [[[s os] b]|]; [|done].
  cbn [tcp_result mbind option_bind lift outcome_bind]. unfold carry_out.
  change (rn_node (set_tables _ _)) with (with_paths nd s). rewrite tcp_outs_off.
  by destruct (tcp_outs_run _ _ _ _ _ _ _ _).
Qed.

Lemma loop_off turns nd r fl ptr i :
  repair_loop parse 0 w d g t turns (RNode nd r fl) ptr i =
  ('(nd, b) ← uah_loop parse w d g t turns nd ptr i; mret (RNode nd r fl, b)).
Proof using.
  revert nd i. induction turns as [|turns IH]; intros nd i; [done|]. cbn [repair_loop uah_loop rn_node].
  destruct (try_table _ _ _ _ _ _ _) as [[sw e]| |]; cbn [mbind outcome_bind]; [|done..].
  destruct e; cbn [mret outcome_ret mbind outcome_bind]; [apply IH|done..].
Qed.
End off_heap.

(** * Asking for repair *)

(** A frame for a destination that cannot be reached: its port is unknown, or not live. *)
Record lost := Lost { lo_now : Z; lo_src : list Z; lo_data : list Z; lo_in_port : Z; lo_out : Z }.

Definition unreachable (ps : Z → option Z) (l : lost) : Prop := lo_out l = -1 ∨ (lo_out l ≠ -1 ∧ port_live ps (lo_out l) = Some false).

Fixpoint lost_run (ps : Z → option Z) (dst : list Z) (s : repair_tables) (ls : list lost) : option (repair_tables * list (list repair_out)) :=
  match ls with
  | [] => Some (s, [])
  | l :: ls =>
    '(s, os) ← repair_send_unicast 1 (lo_now l) ps s (lo_src l) dst (lo_data l) (lo_in_port l) (lo_out l);
    '(s, rest) ← lost_run ps dst s ls;
    Some (s, os :: rest)
  end.

(** A frame asks when the first entry of its destination has expired. *)
Definition asks (t0 : Z) (l : lost) : bool := t0 + TIME_RECOVERY * 1000 <? lo_now l.
Definition request (dst : list Z) (l : lost) : repair_out := RSend 1 (lo_src l) dst (lo_data l).
Definition asked (dst : list Z) (l : lost) : mac_entry := MacEntry dst (u16 (lo_in_port l)) 0 (expiry (lo_now l) TIME_RECOVERY).

Section asking.
  Context (ps : Z → option Z) (dst : list Z).

Lemma lost_step s es res l :
  repr true (rt_mac_port s) es → repr true (rt_recovery s) res → unreachable ps l →
  ∃ s' es', repair_send_unicast 1 (lo_now l) ps s (lo_src l) dst (lo_data l) (lo_in_port l) (lo_out l) =
      Some (s', if check_spec (lo_now l) dst res =? 0 then [] else [request dst l]) ∧
    repr true (rt_mac_port s') es' ∧ repr true (rt_recovery s') (if check_spec (lo_now l) dst res =? 0 then res else res ++ [asked dst l]).
Proof using.
  intros Hm Hr Hu.
  assert (Hask : ∀ dead, ∃ s' es', ask_repair (lo_now l) s (lo_src l) dst (lo_data l) (lo_in_port l) dead =
      Some (s', if check_spec (lo_now l) dst res =? 0 then [] else [request dst l]) ∧
    repr true (rt_mac_port s') es' ∧ repr true (rt_recovery s') (if check_spec (lo_now l) dst res =? 0 then res else res ++ [asked dst l])).
  { intros dead. unfold ask_repair. rewrite (check_ref _ _ _ _ Hr); cbn [mbind option_bind].
    destruct (check_spec _ _ _ =? 0); cbn [negb]; [by eexists _, es|].
    destruct (add_tail_refines (rt_recovery s) res (asked dst l) Hr) as (r & Er & Hr').
    change (mac_to_port_add (rt_recovery s) (lo_now l) dst (lo_in_port l) TIME_RECOVERY) with (add_tail (rt_recovery s) (asked dst l)).
    rewrite Er; cbn [mbind option_bind]. destruct dead as [p|]; [|by eexists _, es].
    destruct (delete_port_ref _ _ p Hm) as (m & -> & Hm'). by eexists _, _. }
  unfold repair_send_unicast. destruct Hu as [->|[Hn Hl]]; [apply Hask|].
  replace (negb (lo_out l =? -1)) with true by lia. cbn [Z.eqb]. rewrite Hl. apply Hask.
Qed.

Lemma check_first now res e : first_of dst res = Some e → check_spec now dst res = if stale (u64 now) e then 1 else 0.
Proof using. unfold first_of, check_spec. destruct (find_first _ _) as [[[??]?]|]; [|done]. by intros [= ->]. Qed.

Lemma asked_stale l0 l : fits 64 (lo_now l) → fits 64 (lo_now l0 + TIME_RECOVERY * 1000) → stale (u64 (lo_now l)) (asked dst l0) = asks (lo_now l0) l.
Proof using.
  intros H1 H2. unfold stale, asks, asked, expiry, u64; cbn [me_time_entry me_vecino]. rewrite !wrap_small by done.
  by rewrite andb_true_r.
Qed.

Lemma lost_runs l0 ls s es res :
  repr true (rt_mac_port s) es → repr true (rt_recovery s) res → first_of dst res = Some (asked dst l0) →
  fits 64 (lo_now l0 + TIME_RECOVERY * 1000) → Forall (λ l, unreachable ps l ∧ fits 64 (lo_now l)) ls →
  ∃ s', lost_run ps dst s ls = Some (s', (λ l, if asks (lo_now l0) l then [request dst l] else []) <$> ls) ∧
    repr true (rt_recovery s') (res ++ (asked dst <$> base.filter (λ l, asks (lo_now l0) l = true) ls)).
Proof using.
  intros Hm Hr Hf H64 Hls; revert s es res Hm Hr Hf; induction Hls as [|l ls [Hu Hl] _ IH]; intros s es res Hm Hr Hf.
  { exists s. split; [done|]. by rewrite app_nil_r. }
  destruct (lost_step s es res l Hm Hr Hu) as (s1 & es1 & E & Hm1 & Hr1).
  rewrite (check_first _ _ _ Hf), (asked_stale l0 l Hl H64) in E, Hr1. cbn [lost_run]. rewrite E; cbn [mbind option_bind].
  destruct (asks (lo_now l0) l) eqn:Ea; cbn [Z.eqb] in *.
  - destruct (IH s1 es1 _ Hm1 Hr1) as (s' & -> & Hr'); [by rewrite first_app, Hf|]. exists s'. rewrite fmap_cons, Ea. split; [done|].
    rewrite filter_cons_True by done. by rewrite fmap_cons, cons_middle, app_assoc.
  - destruct (IH s1 es1 _ Hm1 Hr1 Hf) as (s' & -> & Hr'). exists s'. rewrite fmap_cons, Ea. split; [done|].
    by rewrite filter_cons_False by (by rewrite Ea).
Qed.
End asking.

(** * Requests and replies *)

Definition request_bytes (hw_addr src dst Total : list Z) : list Z :=
  replicate 6 0xff ++ hw_addr ++ [0x77; 0x97] ++ [0x01; 0x00] ++ src ++ dst ++ Total.
Definition reply_bytes (src dst Total : list Z) : list Z :=
  replicate 6 0xff ++ dst ++ [0x77; 0x98] ++ [0x02; 0x00] ++ dst ++ src ++ Total.

Lemma request_read hw src dst Total : length src = 6%nat → length dst = 6%nat → length Total = 32%nat →
  read_back 38 6 (request_bytes hw src dst Total) = Some dst ∧ read_back 44 6 (request_bytes hw src dst Total) = Some src.
Proof.
  intros Hs Hd Ht. unfold request_bytes. split.
  - rewrite !app_assoc, <- app_assoc. rewrite read_back_app by (rewrite length_app; lia). by rewrite take_app_length' by lia.
  - rewrite !app_assoc, <- app_assoc, <- app_assoc. rewrite read_back_app by (rewrite !length_app; lia). by rewrite take_app_length' by lia.
Qed.

Lemma put_all_parts `{Malloc} ps c tail : ∃ tail', put_all (parts [] c tail) ps = Some (parts [] (c ++ concat ps) tail').
Proof.
  revert c tail. induction ps as [|p ps IH]; intros c tail; cbn [put_all concat]; [rewrite app_nil_r; by eexists|].
  destruct (put_parts [] c tail p) as [tail1 ->]. cbn [mbind option_bind]. destruct (IH (c ++ p) tail1) as [tail2 ->].
  exists tail2. by rewrite app_assoc.
Qed.

Lemma recovery_created `{Malloc} parse hw Total src dst data opcion in_port packet_out ps :
  recovery_bytes hw Total src dst data opcion = Some ps →
  ∃ pkt, packet_recovery_create parse hw Total src dst data opcion in_port packet_out = Some pkt ∧
    contents (pk_buffer pkt) = concat ps ∧ pk_in_port pkt = in_port ∧ pk_out_queue pkt = 0.
Proof.
  intros E. unfold packet_recovery_create. rewrite E; cbn [mbind option_bind]. rewrite new_parts.
  destruct (put_all_parts ps [] (xmalloc 14)) as [tail ->]. cbn [mbind option_bind app]. eexists; split; [done|].
  unfold validate; cbn [pk_buffer set_handle packet_create]. by rewrite parts_contents.
Qed.

Definition neighbour_mark (Mac : list Z) (es : list mac_entry) : Z :=
  match first_of Mac es with Some e => me_vecino e | None => 0 end.

Lemma vecino_mark t es Mac : repr true t es → mac_vecino t Mac = Some (neighbour_mark Mac es).
Proof.
  intros Hr. unfold mac_vecino, neighbour_mark, first_of.
  destruct (update_first t es (mac_is Mac) (λ e, e) Hr) as ([[ant [[a nd]|]] pos] & -> & Hs); cbn [mbind option_bind].
  - by destruct Hs as [(pre & post & ->) _].
  - by rewrite Hs.
Qed.

Lemma unknown_found now s es : first_of s es = None → found_spec now s es = (es, -1).
Proof.
  unfold first_of, found_spec. destruct (find_first (mac_is s) es) as [[[? ?] ?]|] eqn:E; [done|intros _].
  apply find_first_none in E. rewrite (proj2 (find_first_none _ _)); [done|].
  eapply Forall_impl; [|exact E]. intros e He. unfold usable. by rewrite He.
Qed.

(** A request is answered where its destination is a neighbour, and flooded on elsewhere; the table does not change. *)
Lemma request_handled now nt m es f dst :
  repr true m es → dst_mac f = Some dst →
  apply_recovery now nt m f 1 =
    Some (m, (if neighbour_mark dst es =? 0 then ROutput OFPP_RANDOM else RSend 2 (eth_src (tf_data f)) (eth_dst (tf_data f)) (tf_data f)) :: [RDestroy]).
Proof.
  intros Hr Hd. unfold apply_recovery, dst_is_neighbor. cbn [Z.eqb]. rewrite Hd; cbn [mbind option_bind].
  rewrite (vecino_mark _ _ _ Hr); cbn [mbind option_bind]. by destruct (_ =? 0).
Qed.

(** The sender of a reply is learned. *)
Lemma reply_handled now nt nes m es f :
  repr true nt nes → repr true m es → first_of (eth_src (tf_data f)) es = None →
  ∃ m', apply_recovery now nt m f 2 = Some (m', [ROutput OFPP_RANDOM; RDestroy]) ∧
    repr true m' (MacEntry (eth_src (tf_data f)) (u16 (tf_in_port f)) (is_neighbor_spec nes (tf_in_port f)) (expiry now TIME_RECOVERY) :: es).
Proof.
  intros Hn Hr Hf. unfold apply_recovery. cbn [Z.eqb Pos.eqb].
  destruct (found_refines m es now (eth_src (tf_data f)) Hr) as (m1 & -> & Hr1). rewrite (unknown_found _ _ _ Hf) in *; cbn [mbind option_bind fst snd] in *.
  change (-1 =? -1) with true. cbv iota. rewrite (is_neighbor_ref _ _ _ Hn); cbn [mbind option_bind].
  eexists; split; [done|]. by apply add_head_refines.
Qed.

Lemma learned_found now now' Mac p v es m :
  repr true m (MacEntry Mac p v (expiry now TIME_RECOVERY) :: es) → 0 <= p → fits 64 now' → now' < now + TIME_RECOVERY * 1000 → fits 64 (now + TIME_RECOVERY * 1000) →
  ∃ m', mac_to_port_found_port m now' Mac = Some (m', p) ∧ repr true m' (MacEntry Mac p v (expiry now TIME_RECOVERY) :: es).
Proof.
  intros Hr Hp Hn' Hle Hf. destruct (found_refines m _ now' Mac Hr) as (m' & E & Hr'). unfold found_spec in E, Hr'. cbn [find_first] in E, Hr'.
  assert (Hu : usable (u64 now') Mac (MacEntry Mac p v (expiry now TIME_RECOVERY)) = true).
  { unfold usable, mac_is, expiry, u64; cbn [me_mac me_time_entry me_vecino]. rewrite !wrap_small by done. rewrite bool_decide_true by done. cbn. lia. }
  rewrite Hu in E, Hr'. by exists m'.
Qed.

(** * Requests in a network

    The network of Network.v, with the copies of one request on the wire. *)

Section storm.
  Context (link : positive → Z → option (positive * Z)).
  (** The request: what ARP-Path reads of it, its bytes and headers; the destination it is about. *)
  Context (f : arp_frame) (buffer : list Z) (hd : headers) (dst : list Z).

(** A switch receives the request on port [p]: its new state, and the ports it sends copies to. *)
Definition request_receive (now : Z) (rand : nat) (nd : netdev) (st : sw_node) (p : Z) : option (sw_node * list Z) :=
  c ← mac_to_port_check_timeout (n_table st) now (fr_eth_src f);
  if negb (c =? 0) then
    '(m, os) ← apply_recovery now (n_neighbors st) (n_table st) (TFrame buffer p hd) 1;
    match os with
    | ROutput _ :: _ =>
      '(dp, txs) ← dp_ports_output_random nd (n_ports st) (n_id st) (n_neighbors st) (n_matrix st) (rand mod 16) buffer p false;
      Some (SwNode (n_id st) m (n_neighbors st) dp (n_matrix st), sent_to txs)
    | _ => Some (SwNode (n_id st) m (n_neighbors st) (n_ports st) (n_matrix st), [])
    end
  else receive f buffer now rand nd st p.

(** Copy number [i] is delivered; how many were. *)
Definition request_step (s : net) (ev : Z * nat * nat * netdev) : option (net * nat) :=
  let '(now, i, rand, nd) := ev in
  match wire s !! i with
  | None => Some (s, 0%nat)
  | Some (n, p) =>
    st ← net_nodes s !! n;
    '(st, outs) ← request_receive now rand nd st p;
    Some (Net (<[n := st]> (net_nodes s)) (delete i (wire s) ++ omap (link n) outs), 1%nat)
  end.

Fixpoint request_run (s : net) (evs : list (Z * nat * nat * netdev)) : option (net * nat) :=
  match evs with
  | [] => Some (s, 0%nat)
  | ev :: evs => '(s, k) ← request_step s ev; '(s, k') ← request_run s evs; Some (s, (k + k')%nat)
  end.

(** A switch that does not know who asks, and that the lost host is not attached to. *)
Definition stranger (st : sw_node) : Prop :=
  ∃ es, node_ok st es ∧ first_of (fr_eth_src f) es = None ∧ neighbour_mark dst es = 0.

(** From a port the request comes in by, at least [k] links lead on. *)
Definition leads_on (k : nat) (nodes : gmap positive sw_node) (x : positive * Z) : Prop :=
  ∃ st qs, nodes !! x.1 = Some st ∧ NoDup qs ∧ length qs = k ∧ Forall (λ q, floods st x.2 q ∧ is_Some (link x.1 q)) qs.

Record storm_ok (k : nat) (s : net) : Prop := {
  st_nodes : map_Forall (λ _, stranger) (net_nodes s);
  st_wire : Forall (λ x, ∃ n q, link n q = Some x) (wire s);
  st_on : ∀ n q x, link n q = Some x → leads_on k (net_nodes s) x }.

Context (Hdst : ∀ p, dst_mac (TFrame buffer p hd) = Some dst).

Lemma request_floods now rand nd st p :
  stranger st →
  ∃ st' outs, request_receive now rand nd st p = Some (st', outs) ∧ stranger st' ∧ n_table st' = n_table st ∧ same_node st st' ∧
    NoDup outs ∧ ∀ q, floods st p q → q ∈ outs.
Proof using Hdst.
  intros (es & Hok & Hf & Hv). unfold request_receive. rewrite (check_ref _ _ _ _ (ok_table _ _ Hok)).
  unfold check_spec. unfold first_of in Hf. destruct (find_first _ es) as [[[??]?]|] eqn:Ef; [done|]. cbn [mbind option_bind Z.eqb negb].
  rewrite (request_handled _ _ _ es _ dst (ok_table _ _ Hok) (Hdst p)), Hv. cbn [mbind option_bind Z.eqb].
  destruct (ok_neighbors _ _ Hok) as [nes Hnes].
  destruct (ok_matrix _ _ Hok (rand mod 16)%nat) as (row & Hrow & Hperm); [by apply Nat.mod_upper_bound|].
  destruct (random_facts nd (n_ports st) (n_id st) (n_neighbors st) nes (n_matrix st) _ row buffer p false
              (ok_ports _ _ Hok) Hnes Hrow Hperm) as (dp' & txs & -> & Hpo & Hc & -> & Hnd & Hval); cbn [mbind option_bind].
  set (outs := base.filter _ row).
  assert (Houts : sent_to ((λ no, (no, 0, buffer)) <$> outs) = outs).
  { unfold sent_to. rewrite <- list_fmap_compose. rewrite <- (list_fmap_id outs) at 2. done. }
  rewrite Houts. assert (Hsame : same_node st (SwNode (n_id st) (n_table st) (n_neighbors st) dp' (n_matrix st))) by done.
  eexists _, outs. split_and!; [done| |done|done|by apply filter_nodup|].
  - exists es. split_and!; [|unfold first_of; by rewrite Ef|done]. eapply node_same; [exact Hok|done|]. apply Hok.
  - intros q Hq. destruct (floods_dest st es nes p q Hok Hnes Hq). apply list_elem_of_filter. split; [done|by apply Hval].
Qed.

Lemma floods_kept st st' p q : same_node st st' → floods st p q → floods st' p q.
Proof using.
  intros (Eid & En & _ & _ & Hc) (Hr & Hne & Hu & Hid). unfold floods. by rewrite (sc_num _ _ Hc), (same_up _ _ q Hc), Eid, En.
Qed.

Lemma onward_count n outs qs :
  NoDup qs → Forall (λ q, q ∈ outs ∧ is_Some (link n q)) qs → (length qs <= length (omap (link n) outs))%nat.
Proof using.
  intros Hnd Hq. transitivity (length (base.filter (λ q, is_Some (link n q)) outs)).
  - apply (submseteq_length (A := Z)), NoDup_submseteq; [done|]. intros q Hin.
    rewrite list.Forall_forall in Hq. destruct (Hq q Hin). by apply list_elem_of_filter.
  - clear. induction outs as [|q outs IH]; [done|]. rewrite filter_cons. cbn [omap list_omap].
    destruct (link n q) as [y|] eqn:E.
    + rewrite decide_True by (by exists y). apply le_n_S. exact IH.
    + rewrite decide_False by (by intros [? ?]). exact IH.
Qed.

Lemma storm_step k s ev :
  storm_ok k s →
  ∃ s' n, request_step s ev = Some (s', n) ∧ storm_ok k s' ∧ n_table <$> net_nodes s' = n_table <$> net_nodes s ∧
    (length (wire s) + k * n <= length (wire s') + n)%nat ∧ (n = 0 → wire s !! ev.1.1.2 = None)%nat.
Proof using Hdst.
  intros Hs. destruct ev as [[[now i] rand] nd]. cbn [request_step fst snd].
  destruct (wire s !! i) as [[n p]|] eqn:Ei; [|eexists s, 0%nat; split_and!; [done|done|done|lia|done]].
  pose proof (st_wire _ _ Hs) as Hw. rewrite list.Forall_forall in Hw.
  destruct (Hw (n, p) (list_elem_of_lookup_2 _ _ _ Ei)) as (n0 & q0 & Hl0).
  destruct (st_on _ _ Hs _ _ _ Hl0) as (st & qs & Hst & Hnd & Hlen & Hqs). cbn [fst snd] in *. rewrite Hst; cbn [mbind option_bind].
  destruct (request_floods now rand nd st p (st_nodes _ _ Hs _ _ Hst)) as (st' & outs & -> & Hst' & Ht & Hsame & _ & Hout). cbn [mbind option_bind].
  eexists _, 1%nat. split_and!; [done| | | |done].
  - split; cbn [net_nodes wire].
    + apply map_Forall_insert_2; [done|apply Hs].
    + apply list.Forall_app. split.
      * pose proof (st_wire _ _ Hs) as Hall. rewrite (delete_Permutation (wire s) i _ Ei), list.Forall_cons in Hall. apply Hall.
      * apply list.Forall_forall. intros x (q & Hq & E)%list_elem_of_omap. by exists n, q.
    + intros m q x Hl. destruct (st_on _ _ Hs _ _ _ Hl) as (sx & qx & Hsx & Hx1 & Hx2 & Hx3). unfold leads_on.
      destruct (decide (x.1 = n)) as [En|En].
      * rewrite En, lookup_insert_eq in *. rewrite Hst in Hsx. injection Hsx as <-. exists st', qx. split_and!; [done|done|done|].
        eapply Forall_impl; [|exact Hx3]. intros y [Hy ?]. split; [by eapply floods_kept|done].
      * rewrite lookup_insert_ne by done. by exists sx, qx.
  - cbn [net_nodes]. rewrite fmap_insert, Ht. apply insert_id. by rewrite lookup_fmap, Hst.
  - cbn [wire]. rewrite length_app, length_delete by (by eexists).
    pose proof (onward_count n outs qs Hnd) as Hc. apply lookup_lt_Some in Ei.
    assert (length qs <= length (omap (link n) outs))%nat; [|lia]. apply Hc.
    eapply Forall_impl; [|exact Hqs]. intros q [Hf Hk]. split; [by apply Hout|done].
Qed.
Lemma storm_runs k s evs :
  storm_ok k s →
  ∃ s' n, request_run s evs = Some (s', n) ∧ storm_ok k s' ∧ n_table <$> net_nodes s' = n_table <$> net_nodes s ∧
    (length (wire s) + k * n <= length (wire s') + n)%nat ∧
    ((1 <= k)%nat → wire s ≠ [] → Forall (λ ev, ev.1.1.2 = 0%nat) evs → n = length evs).
Proof using Hdst.
  revert s. induction evs as [|ev evs IH]; intros s Hs; cbn [request_run].
  { eexists s, 0%nat. split_and!; [done|done|done|lia|done]. }
  destruct (storm_step k s ev Hs) as (s1 & n1 & E1 & Hs1 & Ht1 & Hw1 & Hz). rewrite E1; cbn [mbind option_bind].
  assert (Hn1 : (n1 <= 1)%nat).
  { destruct ev as [[[now i] rand] nd]. cbn [request_step] in E1. destruct (wire s !! i) as [[n p]|]; [|by injection E1 as _ <-; lia].
    destruct (net_nodes s !! n); [cbn [mbind option_bind] in E1|done]. destruct (request_receive _ _ _ _ _) as [[??]|]; [|done].
    cbn [mbind option_bind] in E1. injection E1 as _ <-. lia. }
  destruct (IH s1 Hs1) as (s' & n2 & -> & Hs' & Ht2 & Hw2 & Hall); cbn [mbind option_bind].
  eexists s', (n1 + n2)%nat. split_and!; [done|done|by rewrite Ht2|lia|].
  intros Hk Hne [He Hevs]%list.Forall_cons. rewrite He in Hz.
  assert (n1 = 1%nat) as ->.
  { destruct n1 as [|[|]]; [|done|lia]. specialize (Hz eq_refl). by destruct (wire s). }
  cbn [length]. rewrite Hall; [lia|done| |done].
  intros E. rewrite E in Hw1. destruct (wire s); [done|]. cbn in Hw1. lia.
Qed.
End storm.

(** * Theorems *)

(** Without repair the switch is the one of Forwarding.v.  With [recuperacion] 0, as in the source,
    [pipeline_process_Uah] written out with everything [recuperacion] guards does, for every packet and
    state and with TCP-Path on or off, exactly what [pipeline_process_Uah] of Forwarding.v does
    (ARP-Path and TCP-Path included), and leaves the tables of repair alone. *)
Theorem recuperacion_off `{Malloc} (parse : list Z → option (ofl_match * protocols_std)) (TCP_PATH : Z) (hw_addr Total : list Z)
    (w : world) (d g t : nat) (nd : node) (r : mac_to_port) (fl : Z) (ptr : positive) :
  process_repair parse 0 TCP_PATH hw_addr Total w d g t (RNode nd r fl) ptr =
    lifted r fl (pipeline_process_Uah parse TCP_PATH w d g t nd ptr).
Proof.
  unfold process_repair, pipeline_process_Uah, lifted. cbn [rn_node].
  destruct (get _ _) as [pkt| |]; cbn [mbind outcome_bind]; [|done..].
  destruct (packet_handle_std_is_ttl_valid _ _ _ _) as [[h ok]|]; cbn [lift mbind outcome_bind]; [|done].
  set (nd1 := with_sw nd _). destruct (negb ok).
  { destruct (send_packet_to_controller _ _ _ _ _ _) as [sw| |]; cbn [mbind outcome_bind]; [|done..]. by destruct (destroy _ _ _). }
  destruct (eth_type_of _) as [type|]; cbn [lift mbind outcome_bind]; [|done].
  destruct (_ || _).
  { destruct (eth_src_of _) as [src|]; cbn [lift mbind outcome_bind]; [|done].
    destruct (hello_received _ _ _ _ _) as [nd2|]; cbn [lift mbind outcome_bind]; [|done]. by destruct (destroy _ _ _). }
  unfold repair_frame. cbn [Z.eqb andb mret outcome_ret mbind outcome_bind]. change (set_node (RNode nd r fl) nd1) with (RNode nd1 r fl).
  rewrite loop_off. destruct (uah_loop _ _ _ _ _ _ _ _ _) as [[nd2 []]| |]; cbn [mbind outcome_bind mret outcome_ret]; [done| |done..].
  unfold repair_paths, uah_paths. cbn [rn_node].
  destruct (get _ _) as [pk| |]; cbn [mbind outcome_bind]; [|done..].
  destruct (eth_type_of pk) as [ty|]; cbn [lift mbind outcome_bind]; [|done].
  destruct (ty =? ETH_IPV6); [by destruct (destroy _ _ _)|]. destruct (TCP_PATH =? 0); [by rewrite uah_arp_off|].
  destruct (bool_decide _); [|by rewrite uah_arp_off]. rewrite uah_tcp_off.
  destruct (uah_tcp_path _ _ _ _ _ _ _ _) as [[nd3 []]| |]; cbn [mbind outcome_bind mret outcome_ret]; [by rewrite uah_arp_off|done..].
Qed.

(** How many repair requests are sent.  With repair on, let a frame for a destination no request was sent
    for yet be lost, and then any frames for it (its port unknown or not live).  The first sends a request,
    and for [TIME_RECOVERY] = 1 second no other does; but from then on every lost frame sends one, however
    many there are: each adds another entry to the table, and only the first entry is ever looked at. *)
Theorem repair_requests_exact (ps : Z → option Z) (dst : list Z) (s : repair_tables) (es res : list mac_entry) (l0 : lost) (ls : list lost)
    (Hm : repr true (rt_mac_port s) es) (Hr : repr true (rt_recovery s) res) (Hnew : first_of dst res = None)
    (H64 : fits 64 (lo_now l0 + TIME_RECOVERY * 1000)) (Hu : unreachable ps l0) (Hls : Forall (λ l, unreachable ps l ∧ fits 64 (lo_now l)) ls) :
  ∃ s', lost_run ps dst s (l0 :: ls) = Some (s', [request dst l0] :: ((λ l, if asks (lo_now l0) l then [request dst l] else []) <$> ls)) ∧
    repr true (rt_recovery s') (res ++ asked dst l0 :: (asked dst <$> base.filter (λ l, asks (lo_now l0) l = true) ls)).
Proof.
  destruct (lost_step ps dst s es res l0 Hm Hr Hu) as (s1 & es1 & E & Hm1 & Hr1).
  assert (Hc : check_spec (lo_now l0) dst res = 2) by (unfold first_of in Hnew; unfold check_spec; by destruct (find_first _ _) as [[[??]?]|]).
  rewrite Hc in E, Hr1. cbn [Z.eqb] in E, Hr1. cbn [lost_run]. rewrite E; cbn [mbind option_bind].
  destruct (lost_runs ps dst l0 ls s1 es1 _ Hm1 Hr1) as (s' & -> & Hr'); [|done|done|].
  - rewrite first_app, Hnew, first_cons. by rewrite (proj2 (mac_is_eq _ _)).
  - exists s'. split; [done|]. by rewrite <- app_assoc in Hr'.
Qed.

(** A repair request and its reply.  The request of a switch with address [hw] for a frame from [src] to
    [dst] is, as a frame of 60 bytes, built of these, and the switch that [dst] is attached to (it has the mark of a
    host) answers it: the reply has the lost address as its sender, and the addresses in the other order.  A switch that
    does not know [dst] and receives the reply on a port floods it on and binds [dst] to the port, and finds
    it there for the next second. *)
Theorem repair_exchange `{Malloc} (parse : list Z → option (ofl_match * protocols_std)) (hw src dst Total Total' data : list Z)
    (now now' p p' : Z) (hd hd' : headers) (nt1 nt2 m1 m2 : mac_to_port) (nes es1 es2 : list mac_entry)
    (Hhw : length hw = 6%nat) (Hsrc : length src = 6%nat) (Hdst : length dst = 6%nat) (HT : length Total = 32%nat)
    (Hpath : hd_path hd = None) (Hrepair : hd_repair hd = true) (Hm1 : repr true m1 es1) (Hhost : neighbour_mark dst es1 = 1)
    (Hnt : repr true nt2 nes) (Hm2 : repr true m2 es2) (Hnew : first_of dst es2 = None)
    (Hnow : fits 64 (now + TIME_RECOVERY * 1000)) (Hnow' : now <= now' < now + TIME_RECOVERY * 1000) (H0 : 0 <= now) :
  (∃ pkt, packet_recovery_create parse hw Total src dst data 1 0 true = Some pkt ∧
     contents (pk_buffer pkt) = request_bytes hw src dst Total ∧ length (contents (pk_buffer pkt)) = 60%nat) ∧
  apply_recovery now nt1 m1 (TFrame (request_bytes hw src dst Total) p hd) 1 =
    Some (m1, [RSend 2 hw (replicate 6 0xff) (request_bytes hw src dst Total); RDestroy]) ∧
  (∃ pkt, packet_recovery_create parse hw Total' hw (replicate 6 0xff) (request_bytes hw src dst Total) 2 0 true = Some pkt ∧
     contents (pk_buffer pkt) = reply_bytes src dst Total') ∧
  ∃ m2', apply_recovery now nt2 m2 (TFrame (reply_bytes src dst Total') p' hd') 2 = Some (m2', [ROutput OFPP_RANDOM; RDestroy]) ∧
    ∃ m3, mac_to_port_found_port m2' now' dst = Some (m3, u16 p').
Proof.
  destruct (request_read hw src dst Total Hsrc Hdst HT) as [R1 R2]. split_and!.
  - destruct (recovery_created parse hw Total src dst data 1 0 true _ eq_refl) as (pkt & -> & E & _). exists pkt. split; [done|].
    rewrite E. cbn [concat]. rewrite app_nil_r. split; [done|]. rewrite !length_app, Hhw, Hsrc, Hdst, HT. done.
  - rewrite (request_handled _ _ _ es1 _ dst Hm1) by (unfold dst_mac; cbn [tf_hd tf_data]; by rewrite Hpath, Hrepair).
    rewrite Hhost. cbn [Z.eqb tf_data]. do 7 (destruct hw; try discriminate Hhw). done.
  - destruct (recovery_created parse hw Total' hw (replicate 6 0xff) (request_bytes hw src dst Total) 2 0 true
      [replicate 6 0xff; dst; [0x77; 0x98]; [0x02; 0x00]; dst; src; Total']) as (pkt & -> & E & _).
    + unfold recovery_bytes. cbn [Z.eqb Pos.eqb]. by rewrite R1, R2.
    + exists pkt. split; [done|]. rewrite E. cbn [concat]. by rewrite app_nil_r.
  - assert (Es : eth_src (reply_bytes src dst Total') = dst) by (do 7 (destruct dst; try discriminate Hdst); done).
    destruct (reply_handled now nt2 nes m2 es2 (TFrame (reply_bytes src dst Total') p' hd') Hnt Hm2) as (m2' & E & Hr); cbn [tf_data tf_in_port] in *.
    { by rewrite Es. }
    rewrite Es in Hr. exists m2'. split; [exact E|].
    destruct (learned_found now now' dst _ _ es2 m2' Hr) as (m3 & -> & _); [|unfold fits in *; lia|lia|done|by eexists].
    unfold u16, wrap. apply Z.mod_pos_bound. lia.
Qed.

(** C40: repair requests never stop in a network without dead ends.  Path repair is on ([recuperacion] is 1; in the switch as built it is 0).
    No switch knows who asks, and the lost host is attached to none ([stranger]); each end of a link has [k] other ports
    over which its switch floods on and that have a link themselves ([leads_on]: there are no dead ends).  The switches then
    flood every copy of a request on, and learn nothing of it: however copies are delivered, in any order and at any time,
    none of the address tables changes and each delivery
    puts at least [k] copies on the wire for the one taken.  With [k] 1 there is always one left to be
    delivered next, and with [k] 2 they become more and more. *)
Theorem request_storm (link : positive → Z → option (positive * Z)) (f : arp_frame) (buffer : list Z) (hd : headers) (dst : list Z)
    (k : nat) (s : net) (evs : list (Z * nat * nat * netdev))
    (Hdst : ∀ p, dst_mac (TFrame buffer p hd) = Some dst) (Hs : storm_ok link f dst k s) :
  ∃ s' n, request_run link f buffer hd s evs = Some (s', n) ∧ n_table <$> net_nodes s' = n_table <$> net_nodes s ∧
    (length (wire s) + k * n <= length (wire s') + n)%nat ∧
    ((1 <= k)%nat → wire s ≠ [] → Forall (λ ev, ev.1.1.2 = 0%nat) evs → n = length evs).
Proof. destruct (storm_runs link f buffer hd dst Hdst k s evs Hs) as (s' & n & E & _ & Ht & Hw & Hn). by exists s', n. Qed.

(** * Examples *)

#[local] Instance ex_malloc : Malloc := λ _, 0xCC.

Definition ex_mac (n : Z) : list Z := [2; 0; 0; 0; 0; n].
Definition ex_lost (now : Z) : lost := Lost now (ex_mac 1) [] 3 (-1).

(** Four frames are lost: after the first second each of them asks. *)
Lemma repair_requests_witness :
  ∃ s', lost_run (λ _, None) (ex_mac 9) (RTables mac_to_port_new mac_to_port_new 0) (ex_lost <$> [0; 500; 1500; 1501]) =
    Some (s', [[RSend 1 (ex_mac 1) (ex_mac 9) []]; []; [RSend 1 (ex_mac 1) (ex_mac 9) []]; [RSend 1 (ex_mac 1) (ex_mac 9) []]]).
Proof.
  destruct (repair_requests_exact (λ _, None) (ex_mac 9) (RTables mac_to_port_new mac_to_port_new 0) [] [] (ex_lost 0) (ex_lost <$> [500; 1500; 1501])
    mac_new_repr mac_new_repr eq_refl) as (s' & E & _).
  - split; vm_compute; [discriminate|reflexivity].
  - by left.
  - repeat (apply list.Forall_cons; split; [split; [by left|split; vm_compute; [discriminate|reflexivity]]|]). by apply list.Forall_nil.
  - exists s'. exact E.
Defined.

Definition ex_request : list Z := request_bytes (ex_mac 5) (ex_mac 1) (ex_mac 9) (replicate 32 0).
Definition ex_request_hd : headers := Headers None None None true ofl_structs_match_init.

Lemma ex_host_repr : repr true (mac_to_port_add_arp_table mac_to_port_new 0 (ex_mac 9) 2 20 1) [MacEntry (ex_mac 9) 2 1 20000].
Proof. apply (add_head_refines mac_to_port_new []). exact mac_new_repr. Qed.

Lemma repair_exchange_witness :
  ∃ m m', apply_recovery 1000 mac_to_port_new mac_to_port_new (TFrame (reply_bytes (ex_mac 1) (ex_mac 9) (replicate 32 7)) 4 ex_request_hd) 2 =
      Some (m, [ROutput OFPP_RANDOM; RDestroy]) ∧ mac_to_port_found_port m 1999 (ex_mac 9) = Some (m', 4).
Proof.
  destruct (repair_exchange (λ _, None) (ex_mac 5) (ex_mac 1) (ex_mac 9) (replicate 32 0) (replicate 32 7) [] 1000 1999 1 4 ex_request_hd ex_request_hd
    mac_to_port_new mac_to_port_new _ mac_to_port_new [] _ [] eq_refl eq_refl eq_refl eq_refl eq_refl eq_refl ex_host_repr eq_refl mac_new_repr mac_new_repr eq_refl)
    as (_ & _ & _ & m & E & m' & F).
  - split; vm_compute; [discriminate|reflexivity].
  - vm_compute. split; [discriminate|reflexivity].
  - vm_compute. discriminate.
  - exists m, m'. split; [exact E|exact F].
Defined.

(** The triangle of Network.v, in which broadcasts of hosts die out after five deliveries; switch 1 has asked. *)
Definition ex_asked : net := Net tri_nodes [(2%positive, 1); (3%positive, 2)].
Definition ex_request_frame : arp_frame := Frame 0 (replicate 6 0xff) (ex_mac 5) ETH_REPAIR None false.

Lemma ex_storm : storm_ok tri_link ex_request_frame (ex_mac 9) 1 ex_asked.
Proof.
  assert (Hn : ∀ id, stranger ex_request_frame (ex_mac 9) (tri_node id)).
  { intros id. exists []. split_and!; [|done|done]. split; [exact mac_new_repr|exists []; exact mac_new_repr|exact tri_dp_ok|].
    intros k Hk. exists [0; 1; 2; 3]. split; [by apply lookup_replicate|]. vm_compute. reflexivity. }
  split.
  - do 2 (apply map_Forall_insert_2; [apply Hn|]). apply map_Forall_singleton, Hn.
  - apply list.Forall_cons; split; [by exists 1%positive, 1|]. apply list.Forall_cons; split; [by exists 1%positive, 2|by apply list.Forall_nil].
  - assert (Hf : ∀ id p q, 1000 <= id → (p = 1 ∧ q = 2) ∨ (p = 2 ∧ q = 1) → floods (tri_node id) p q).
    { intros id p q Hid Hpq. destruct (Hn id) as (es & Hok & _).
      destruct Hpq as [[-> ->]|[-> ->]]; (apply (floods_top _ es); [exact Hok|by vm_compute|done|by vm_compute|exact Hid]). }
    intros n q x H%tri_link_cases. unfold leads_on. set_unfold in H.
    destruct H as [H|[H|[H|[H|[H|[H|[]]]]]]]; injection H as -> -> ->; cbn [fst snd].
    all: eexists _, [_]; split; [reflexivity|split; [apply NoDup_singleton|split; [done|apply list.Forall_cons; split; [|by apply list.Forall_nil]]]].
    all: split; [apply Hf; [lia|first [by left|by right]]|by eexists].
Qed.

Definition ex_deliveries : list (Z * nat * nat * netdev) := (λ k, (1000 + Z.of_nat k, 0%nat, k, ex_nd)) <$> seq 0 1000.

(** A thousand deliveries later there are still copies under way. *)
Lemma request_storm_witness :
  ∃ s', request_run tri_link ex_request_frame ex_request ex_request_hd ex_asked ex_deliveries = Some (s', 1000%nat) ∧ (2 <= length (wire s'))%nat.
Proof.
  destruct (request_storm tri_link ex_request_frame ex_request ex_request_hd (ex_mac 9) 1 ex_asked ex_deliveries (λ p, eq_refl) ex_storm) as (s' & n & E & _ & Hw & Hn).
  assert (n = 1000%nat) as ->.
  { rewrite Hn; [done|lia|done|]. apply list.Forall_forall. intros x (k & -> & _)%list_elem_of_fmap. done. }
  exists s'. split; [exact E|]. change (length (wire ex_asked)) with 2%nat in Hw. lia.
Defined.
