(* ===== verification/Control.v ===== *)
(** The control messages of the switch: udatapath/dp_control.c ([handle_control_msg] and the
    handlers below it), udatapath/dp_exp.c, and what [remote_rconn_run] of datapath.c does
    with a message (unpack it, handle it, answer with an error).

    This is where the parts meet: bytes come in by a connection (Controllers.v), are unpacked
    (Messages.v), change the tables, groups, meters, buffers and ports (Pipeline.v, Features.v,
    Ports.v, Execute.v) or are answered from them (Stats.v), and the answers are packed and
    handed to the connection.  Messages that a handler has for all controllers are sent behind
    it, in their order; no handler has such messages and an answer.  [Undef] is undefined
    behaviour, of packing and of a send that fails too. *)

From S2P Require Import Prelude Memory Ofpbuf OpenFlow MatchStd Oxm Buffers Group GroupTable Meter Ports Rconn Controllers.
From S2P Require Import Wire OxmWire StatsWire Experimenter FlowTable Features Messages Pipeline Stats Execute.

Definition OFPT_BARRIER_REQUEST := 20.
Definition OFPT_BARRIER_REPLY := 21.
Definition OFPT_FEATURES_REQUEST := 5.
Definition OFPT_GET_CONFIG_REQUEST := 7.
Definition OFPT_ROLE_REQUEST := 24.
Definition OFPT_ROLE_REPLY := 25.
Definition OFPT_GET_ASYNC_REQUEST := 26.
Definition OFPT_GET_ASYNC_REPLY := 27.
Definition OFPT_SET_ASYNC := 28.
Definition OFPC_FRAG_NORMAL := 0.
Definition OFPC_FRAG_DROP := 1.
Definition OFPC_FRAG_MASK := 3.
Definition OFPPR_MODIFY := 2.
Definition BAD_TYPE : Z := ofl_error OFPET_BAD_REQUEST 1.
Definition BAD_MULTIPART : Z := ofl_error OFPET_BAD_REQUEST 2.
Definition IS_SLAVE : Z := ofl_error OFPET_BAD_REQUEST 10.

(** OFPC_FLOW_STATS, OFPC_TABLE_STATS, OFPC_PORT_STATS, OFPC_GROUP_STATS, OFPC_QUEUE_STATS. *)
Definition DP_SUPPORTED_CAPABILITIES : Z := Z.lor 1 (Z.lor 2 (Z.lor 4 (Z.lor 8 64))).

Definition ofl_error_type (error : Z) : Z := Z.shiftr (Z.land error 0x7fff0000) 16.
Definition ofl_error_code (error : Z) : Z := Z.land error 0x0000ffff.

(** * The state *)

(** [ds_tables] are the features of the tables, [ds_pending] what remotes have sent of
    requests in fragments; [ds_flags] and [ds_miss_send_len] are [dp->config]. *)
Record dp_state := DpState {
  ds_sw : switch;
  ds_tables : list table;
  ds_pending : gmap positive (Z * list ofl_table_features);
  ds_flags : Z;
  ds_miss_send_len : Z;
  ds_desc : ofl_msg_reply_desc }.

Definition set_sw (s : dp_state) (sw : switch) : dp_state :=
  DpState sw (ds_tables s) (ds_pending s) (ds_flags s) (ds_miss_send_len s) (ds_desc s).
Definition set_tables (s : dp_state) (tables : list table) : dp_state :=
  DpState (ds_sw s) tables (ds_pending s) (ds_flags s) (ds_miss_send_len s) (ds_desc s).
Definition set_pending (s : dp_state) (pending : gmap positive (Z * list ofl_table_features)) : dp_state :=
  DpState (ds_sw s) (ds_tables s) pending (ds_flags s) (ds_miss_send_len s) (ds_desc s).
Definition set_config (s : dp_state) (flags miss_send_len : Z) : dp_state :=
  DpState (ds_sw s) (ds_tables s) (ds_pending s) flags miss_send_len (ds_desc s).
Definition set_desc (s : dp_state) (d : ofl_msg_reply_desc) : dp_state :=
  DpState (ds_sw s) (ds_tables s) (ds_pending s) (ds_flags s) (ds_miss_send_len s) d.

(** [struct sender]. *)
Record sender := Sender { s_remote : positive; s_conn_id : Z; s_xid : Z }.

Section control.
  Context `{Ofpbuf.Malloc} `{M : StatsWire.Malloc} (parse : list Z → option (ofl_match * protocols_std)).
  (** What stays the same during a turn; the answers of the connections; the creation times
      of groups, which are never set; what the devices report of the ports; fuel. *)
  Context (w : world) (V : vconn) (created : Z → Z) (port_facts : Z → ofl_port) (d g t : nat).

Definition now : Z := w_now w.
Definition msec : Z := w_msec w.

(** The configuration is part of the state. *)
Definition world_of (s : dp_state) : world :=
  World (w_msec w) (w_now w) (w_id w) (ds_miss_send_len s) (w_netdev w) (w_rand w) (w_neighbors w) (w_Matriz_bc w).

(** [dp_send_message], packing included. *)
Definition send (c : ctl) (m : ofl_msg) (to : option sender) : outcome ctl :=
  data ← lift (ofl_msg_pack ofl_exp_msg_pack m (default 0 (s_xid <$> to)));
  '(c, _) ← lift (dp_send_message now V c data ((λ s, (s_remote s, s_conn_id s)) <$> to));
  mret c.

Fixpoint send_all (c : ctl) (l : list ofl_msg) (to : option sender) : outcome ctl :=
  match l with [] => mret c | m :: l => c ← send c m to; send_all c l to end.

(** * Messages to all controllers *)

Definition flow_removed_msg (x : flow_entry * Z) : ofl_msg := MsgFlowRemoved (flow_entry_update msec x.1) x.2.
Definition packet_in_msg (p : packet_in) : ofl_msg :=
  MsgPacketIn (OflPacketIn (Execute.pi_buffer_id p) (Execute.pi_total_len p) (Execute.pi_reason p) (Execute.pi_table_id p)
                 (Execute.pi_cookie p) (Execute.pi_match p) (Execute.pi_data p)).

(** What a handler has added to the flow removed messages and to the packet-ins. *)
Definition news (sw sw' : switch) : list ofl_msg :=
  (flow_removed_msg <$> drop (length (dp_sent (pl_dp (sw_pl sw)))) (dp_sent (pl_dp (sw_pl sw')))) ++
  (packet_in_msg <$> drop (length (sw_packet_ins sw)) (sw_packet_ins sw')).

(** [p->conf]. *)
Definition conf_of (p : sw_port) : ofl_port :=
  let f := port_facts (sp_port_no p) in
  OflPort (sp_port_no p) (default [] (sp_netdev p)) (op_name f) (sp_config p) (sp_state p) (op_curr f) (op_advertised f) (op_supported f)
    (op_peer f) (op_curr_speed f) (op_max_speed f).

(** * Handlers *)

(** A handler gives the new states and an error; with an error it has not kept the message,
    which the caller frees. *)
Definition result : Type := outcome (dp_state * ctl * Z).

Definition refuse (s : dp_state) (c : ctl) (error : Z) : result := mret (s, c, error).
Definition answer (s : dp_state) (c : ctl) (m : ofl_msg) (to : sender) : result := c ← send c m (Some to); mret (s, c, 0).

(** After a handler that works on the switch. *)
Definition finish (s : dp_state) (c : ctl) (r : outcome (switch * Z)) : result :=
  '(sw, error) ← r; c ← send_all c (news (ds_sw s) sw) None; mret (set_sw s sw, c, error).

Definition is_slave (c : ctl) (to : sender) : outcome bool :=
  r ← lift (c_remotes c !! s_remote to); mret (r_role r =? OFPCR_ROLE_SLAVE).

Definition handle_control_barrier_request (s : dp_state) (c : ctl) (to : sender) : result := answer s c (MsgHeader OFPT_BARRIER_REPLY) to.
Definition handle_control_get_config_request (s : dp_state) (c : ctl) (to : sender) : result :=
  answer s c (MsgGetConfigReply (ds_flags s) (ds_miss_send_len s)) to.
Definition handle_control_echo_reply (s : dp_state) (c : ctl) : result := mret (s, c, 0).
Definition handle_control_echo_request (s : dp_state) (c : ctl) (data : list Z) (to : sender) : result := answer s c (MsgEcho OFPT_ECHO_REPLY data) to.

Definition handle_control_features_request (s : dp_state) (c : ctl) (to : sender) : result :=
  answer s c (MsgFeaturesReply (w_id w) (Z.of_nat (dp_buffers_size (sw_bufs (ds_sw s)))) (Z.of_nat PIPELINE_TABLES) (s_conn_id to)
                DP_SUPPORTED_CAPABILITIES) to.

Definition handle_control_set_config (s : dp_state) (c : ctl) (flags miss_send_len : Z) : result :=
  let flags := Z.land flags OFPC_FRAG_MASK in
  let flags := if negb (Z.land flags OFPC_FRAG_MASK =? OFPC_FRAG_NORMAL) && negb (Z.land flags OFPC_FRAG_MASK =? OFPC_FRAG_DROP)
               then Z.lor (Z.land flags (unot 16 OFPC_FRAG_MASK)) OFPC_FRAG_DROP else flags in
  mret (set_config s flags miss_send_len, c, 0).

Definition port_exists (sw : switch) (no : Z) : bool := bool_decide (is_Some (dp_ports_lookup (sw_ports sw) no)).

(** [pipeline_handle_flow_mod], with the buffered packet it runs. *)
Definition handle_flow_mod (s : dp_state) (slave : bool) (m : ofl_msg_flow_mod) : outcome (switch * Z) :=
  let sw := ds_sw s in
  '(pl, error, run) ← lift (pipeline_handle_flow_mod (port_exists sw) slave msec (sw_pl sw) m);
  let sw := set_pl sw pl in
  match run with
  | None => mret (sw, error)
  | Some buffer_id =>
    '(b, r) ← lift (dp_buffers_retrieve (sw_bufs sw) buffer_id);
    let sw := set_bufs sw b in
    match r with
    | Some ptr => sw ← pipeline_process_packet parse (world_of s) d g t sw ptr; mret (sw, error)
    | None => mret (sw, error)
    end
  end.

Definition handle_port_mod (s : dp_state) (c : ctl) (slave : bool) (m : ofl_msg_port_mod) : result :=
  '(ports, error, changed) ← lift (dp_ports_handle_port_mod (sw_ports (ds_sw s)) m slave);
  c ← send_all c ((λ p, MsgPortStatus OFPPR_MODIFY (conf_of p)) <$> changed) None;
  mret (set_sw s (set_ports (ds_sw s) ports [] (sw_rand (ds_sw s))), c, error).

Definition ofl_packet_queue_of (x : Z * Z) : ofl_packet_queue := PacketQueue x.1 [Some (PropMinRate x.2)].

(** The request for an unknown port is freed here, and again by the caller. *)
Definition handle_queue_get_config (s : dp_state) (c : ctl) (port : Z) (to : sender) : result :=
  r ← lift (dp_ports_handle_queue_get_config_request (sw_ports (ds_sw s)) port);
  match r with
  | inl r => l ← lift (in_reply r); answer s c (MsgQueueGetConfigReply port (ofl_packet_queue_of <$> l)) to
  | inr _ => Undef
  end.

(** ** Multipart requests *)

Definition multipart (s : dp_state) (c : ctl) (type : Z) (r : outcome (multipart_reply + Z)) (to : sender) : result :=
  r ← r; match r with inl body => answer s c (MsgMultipartReply type 0 body) to | inr error => refuse s c error end.

Definition handle_table_features (s : dp_state) (c : ctl) (flags : Z) (body : option (list ofl_table_features)) (to : sender) : result :=
  let pending := ds_pending s !! s_remote to in
  '(f, r) ← lift (pipeline_handle_stats_request_table_features_request (FeaturesState (ds_tables s) pending) (s_xid to) flags body);
  let s := set_pending (set_tables s (fs_tables f)) (partial_alter (λ _, fs_pending f) (s_remote to) (ds_pending s)) in
  match r with
  | inr error => refuse s c error
  | inl rs => c ← send_all c ((λ '(flags, l), MsgMultipartReply 12 flags (RepTableFeatures l)) <$> rs) (Some to); mret (s, c, 0)
  end.

Definition handle_control_stats_request_desc (s : dp_state) (c : ctl) (to : sender) : result := answer s c (MsgMultipartReply 0 0 (RepDesc (ds_desc s))) to.

(** The structure of a request goes with its type; [dp_exp_stats] knows no experimenter. *)
Definition handle_control_stats_request (s : dp_state) (c : ctl) (type flags : Z) (body : multipart_request) (to : sender) : result :=
  let sw := ds_sw s in
  let groups := dp_groups (pl_dp (sw_pl sw)) in
  let meters := dp_meters (pl_dp (sw_pl sw)) in
  let reply r := multipart s c type (r ← r; mret (inl r)) to in
  match type, body with
  | 0, ReqEmpty => handle_control_stats_request_desc s c to
  | 1, ReqFlow r => reply (lift (pipeline_handle_stats_request_flow msec (sw_pl sw) r))
  | 2, ReqFlow r => reply (lift (pipeline_handle_stats_request_aggregate (sw_pl sw) r))
  | 3, ReqEmpty => reply (mret (pipeline_handle_stats_request_table (sw_pl sw)))
  | 12, ReqTableFeatures tables => handle_table_features s c flags tables to
  | 4, ReqPort port_no =>
    reply (l ← lift (in_reply (dp_ports_handle_stats_request_port msec (sw_ports sw) port_no)); mret (RepPort (ofl_port_stats_of <$> l)))
  | 5, ReqQueue port_no queue_id =>
    reply (l ← lift (in_reply (dp_ports_handle_stats_request_queue msec (sw_ports sw) port_no queue_id)); mret (RepQueue (ofl_queue_stats_of <$> l)))
  | 6, ReqGroup group_id => multipart s c type (lift (group_table_handle_stats_request_group msec created groups group_id)) to
  | 7, ReqEmpty => reply (lift (group_table_handle_stats_request_group_desc groups))
  | 8, ReqEmpty => reply (mret group_table_handle_stats_request_group_features)
  | 9, ReqMeter meter_id => multipart s c type (lift (meter_table_handle_stats_request_meter msec meters meter_id)) to
  | 10, ReqMeter meter_id => multipart s c type (lift (meter_table_handle_stats_request_meter_conf meters meter_id)) to
  | 11, ReqEmpty => reply (mret meter_table_handle_features_request)
  | 13, ReqEmpty => reply (l ← lift (in_reply (dp_ports_handle_port_desc_request (sw_ports sw))); mret (RepPortDesc (conf_of <$> l)))
  | _, _ => refuse s c (if type =? 0xffff then BAD_EXPERIMENTER else BAD_MULTIPART)
  end.

(** ** Experimenter messages *)

(** The rate of the first property; both kinds of rate have it in the same place. *)
Definition queue_rate (q : ofl_packet_queue) : option Z :=
  match pq_properties q with
  | Some (PropMinRate rate) :: _ | Some (PropMaxRate rate) :: _ => Some rate
  | _ => None
  end.

(** Whether [dp_ports_handle_queue_modify] looks at the first property: not when the port is
    not in use, and it does not follow the pointer when the queue cannot be added. *)
Definition reads_rate (ports : dp_ports) (port_id : Z) (queue : ofl_packet_queue) : bool :=
  match dp_ports_lookup ports port_id with
  | Some p =>
    sp_used p && negb (bool_decide (dp_ports_lookup_queue p (pq_queue_id queue) = None) &&
      match port_add_queue msec p (pq_queue_id queue) 0 with inl _ => false | inr _ => true end && (0 <? length (pq_properties queue))%nat)
  | None => false
  end.

Definition dp_exp_message (s : dp_state) (c : ctl) (m : ofl_msg_experimenter) : result :=
  let sw := ds_sw s in
  let ports := sw_ports sw in
  let back '(ports, error) := mret (set_sw s (set_ports sw ports [] (sw_rand sw)), c, error) in
  match m with
  | ExpQueue type port_id queue =>
    if type =? OFP_EXT_QUEUE_MODIFY then
      match queue_rate queue with
      | Some rate => back (dp_ports_handle_queue_modify (device w sw) msec ports port_id (pq_queue_id queue) rate)
      | None => if reads_rate ports port_id queue then Undef
                else back (dp_ports_handle_queue_modify (device w sw) msec ports port_id (pq_queue_id queue) 0)
      end
    else if type =? OFP_EXT_QUEUE_DELETE then back (dp_ports_handle_queue_delete ports port_id (pq_queue_id queue))
    else refuse s c BAD_EXPERIMENTER
  | ExpSetDpDesc dp_desc =>
    let desc := <[(DESC_STR_LEN - 1)%nat := 0]> (strncpy DESC_STR_LEN dp_desc) in
    let o := ds_desc s in
    mret (set_desc s (ReplyDesc (rd_mfr_desc o) (rd_hw_desc o) (rd_sw_desc o) (rd_serial_num o) desc), c, 0)
  | ExpRole _ _ => refuse s c BAD_EXPERIMENTER
  end.

(** ** The dispatch *)

Definition handle_control_msg (s : dp_state) (c : ctl) (to : sender) (m : ofl_msg) : result :=
  let sw := ds_sw s in
  match m with
  | MsgHeader type =>
    if (type =? 0) || (type =? OFPT_BARRIER_REPLY) then mret (s, c, 0)
    else if type =? OFPT_BARRIER_REQUEST then handle_control_barrier_request s c to
    else if type =? OFPT_FEATURES_REQUEST then handle_control_features_request s c to
    else if type =? OFPT_GET_CONFIG_REQUEST then handle_control_get_config_request s c to
    else if type =? OFPT_GET_ASYNC_REQUEST then
      r ← lift (c_remotes c !! s_remote to); answer s c (MsgAsync OFPT_GET_ASYNC_REPLY (r_config r)) to
    else refuse s c BAD_TYPE
  | MsgSetConfig flags miss_send_len => handle_control_set_config s c flags miss_send_len
  | MsgPacketOut m =>
    slave ← is_slave c to;
    finish s c (handle_control_packet_out parse (world_of s) d g t sw slave (po_buffer_id m) (po_in_port m) (po_data m) (po_actions m))
  | MsgFlowMod m => slave ← is_slave c to; finish s c (handle_flow_mod s slave m)
  | MsgGroupMod m =>
    slave ← is_slave c to;
    finish s c ('(pl, error) ← lift (handle_group_mod (port_exists sw) slave (sw_pl sw) m); mret (set_pl sw pl, error))
  | MsgMeterMod m =>
    slave ← is_slave c to;
    finish s c ('(pl, error) ← lift (handle_meter_mod msec slave (sw_pl sw) m); mret (set_pl sw pl, error))
  | MsgPortMod m => slave ← is_slave c to; handle_port_mod s c slave m
  | MsgTableMod table_id config =>
    slave ← is_slave c to;
    '(tables, error) ← lift (pipeline_handle_table_mod slave (ds_tables s) table_id config); mret (set_tables s tables, c, error)
  | MsgMultipartRequest type flags body => handle_control_stats_request s c type flags body to
  | MsgEcho type data => if type =? OFPT_ECHO_REQUEST then handle_control_echo_request s c data to else handle_control_echo_reply s c
  | MsgQueueGetConfigRequest port => handle_queue_get_config s c port to
  | MsgRole type role generation_id =>
    if type =? OFPT_ROLE_REQUEST then
      '(c, r) ← lift (dp_handle_role_request c (s_remote to) role generation_id);
      match r with
      | inl (role, generation_id) => answer s c (MsgRole OFPT_ROLE_REPLY role generation_id) to
      | inr error => refuse s c error
      end
    else refuse s c BAD_TYPE
  | MsgAsync type config =>
    if type =? OFPT_SET_ASYNC then c ← lift (dp_handle_async_request c (s_remote to) config); mret (s, c, 0) else refuse s c BAD_TYPE
  | MsgExperimenter m => dp_exp_message s c m
  | _ => refuse s c BAD_TYPE
  end.

(** * A message from a connection *)

(** [sender.xid] is 0 until [ofl_msg_unpack] has seen a header of its version. *)
Definition xid_of (buf : list Z) : Z :=
  if Z.of_nat (length buf) <? 8 then 0
  else match Wire.get 1 buf 0, Wire.get 4 buf 4 with
       | Val version, Val xid => if version =? OFP_VERSION then xid else 0
       | _, _ => 0
       end.

Definition error_msg (error : Z) (data : list Z) : ofl_msg := MsgError (ofl_error_type error) (ofl_error_code error) data.

(** The body of the loop of [remote_rconn_run]. *)
Definition handle_buffer (s : dp_state) (c : ctl) (id : positive) (conn_id : Z) (data : list Z) : outcome (dp_state * ctl) :=
  let to := Sender id conn_id (xid_of data) in
  '(s, c, error) ← match ofl_msg_unpack ofl_exp_msg_unpack data with
                   | Val (_, m) => handle_control_msg s c to m
                   | Err error => mret (s, c, error)
                   | Wire.Undef => Undef
                   | Hang => NoFuel
                   end;
  if truthy error then c ← send c (error_msg error data) (Some to); mret (s, c) else mret (s, c).

(** The switch, for the loop over the controllers: [remote_destroy] frees [mp_req_msg]. *)
Definition control : handler dp_state :=
  Handler (λ s c id conn_id b, match handle_buffer s c id conn_id (m_body b) with Done x => Some x | _ => None end)
    (λ s id, set_pending s (delete id (ds_pending s))).
End control.
