(* ===== verification/Datapath.v ===== *)
(** The turn of the main loop, whole: [dp_run] of udatapath/datapath.c and the endless loop of
    [udatapath_cmd] in udatapath.c.

    A turn ages flows and refills meters when the second has changed, takes at most one frame
    from each port and runs it through tables and path protocols, talks to every
    controller, accepts new ones, and then sends hellos and ages the path tables when their
    time has come.  Forwarding.v, Hello.v and Control.v model the parts; here they share one
    state, and the messages that frames and timeouts cause go to the controllers. *)

From S2P Require Import Prelude Memory Ofpbuf Csum OpenFlow MatchStd ActionSet Buffers PacketActions LinkedList MacTable TcpTable.
From S2P Require Import ArpPath Group GroupTable Meter FlowTable Ports PortsCorrect TcpPath Rconn Controllers Oxm Wire OxmWire StatsWire.
From S2P Require Import Experimenter Features Messages Pipeline Stats Execute Forwarding Hello Control.

(** The datapath with the tables of udatapath.c and the timers of the main loop. *)
Record whole := Whole {
  wh_state : dp_state;
  wh_mac_port : mac_to_port;
  wh_tcp_table : table_tcp;
  wh_neighbors : mac_to_port;
  wh_secuence : Z;
  wh_timers : timers }.

Definition node_of (wh : whole) : node :=
  Nd (ds_sw (wh_state wh)) (wh_mac_port wh) (wh_tcp_table wh) (wh_neighbors wh) (wh_secuence wh).
Definition whole_of (s : dp_state) (nd : node) (tm : timers) : whole :=
  Whole (set_sw s (nd_sw nd)) (nd_mac_port nd) (nd_tcp_table nd) (nd_neighbors nd) (nd_secuence nd) tm.

(** What surrounds a turn: the world during [dp_run] and after [poll_block], the
    connections, the seed of transaction ids, the listeners' answers, spare room in the
    receive buffer. *)
Record turn := Turn {
  tu_world : world;
  tu_after : world;
  tu_vconn : vconn;
  tu_xid : Z;
  tu_accept : positive → Rconn.answer;
  tu_tail : nat }.

Section datapath.
  Context `{Ofpbuf.Malloc} `{StatsWire.Malloc} (parse : list Z → option (ofl_match * protocols_std)).
  Context (TCP_PATH : Z) (created : Z → Z) (port_facts : Z → ofl_port) (d g t : nat).

Abbreviation state := (list (positive * option positive) * whole * ctl)%type.

(** The timeouts and frames of a turn, then what its messages from the controllers ask.  The messages
    that timeouts and frames cause are handed to the connections after the last frame, in their order
    (those of the timeouts first): the code hands each over at once, which only moves the moment at which the
    network is asked to take it, and the network answers as it likes ([tu_vconn]). *)
Definition dp_run (tu : turn) (x : state) : outcome state :=
  let '(ls, wh, c) := x in
  let s := wh_state wh in
  let w := tu_world tu in
  '(nd, tm) ← dp_run_frames parse TCP_PATH (world_of w s) d g t (tu_tail tu) (node_of wh) (wh_timers wh);
  c ← send_all w (tu_vconn tu) c (news w (ds_sw s) (nd_sw nd)) None;
  '(ls, s, c) ← lift (dp_run_controllers (w_now w) (tu_vconn tu) (tu_xid tu)
                        (control parse w (tu_vconn tu) created port_facts d g t) (tu_accept tu) ls (set_sw s (nd_sw nd)) c);
  mret (ls, Whole s (nd_mac_port nd) (nd_tcp_table nd) (nd_neighbors nd) (nd_secuence nd) tm, c).

(** One turn of [for (;;)]. *)
Definition main_turn (tu : turn) (x : state) : outcome state :=
  '(ls, wh, c) ← dp_run tu x;
  let s := wh_state wh in
  '(nd, tm) ← run_timers parse (world_of (tu_after tu) s) d g t (node_of wh) (wh_timers wh);
  mret (ls, whole_of s nd tm, c).

Fixpoint main_loop (tus : list turn) (x : state) : outcome state :=
  match tus with [] => mret x | tu :: tus => x ← main_turn tu x; main_loop tus x end.
End datapath.
