(* ===== verification/Startup.v ===== *)
(** How a switch starts: [dp_new] of udatapath/datapath.c, and the features with which
    [flow_table_create] of udatapath/flow_table.c makes its tables.

    Memory that is never set is a parameter: [unset] for the length in a table's features. *)

From S2P Require Import Prelude Memory Ofpbuf OpenFlow MatchStd Oxm Buffers Group GroupTable Meter Ports Controllers.
From S2P Require Import Wire StatsWire FlowTable Features Messages Pipeline Execute Control.
From Stdlib Require Import Ascii String.
Local Open Scope Z_scope.
Local Open Scope list_scope.

Definition text (s : string) : list Z := (λ c, Z.of_N (N_of_ascii c)) <$> list_ascii_of_string s.

(** * The features of a table *)

Definition oxm_ids : list Z :=
  [OXM_OF_IN_PORT; OXM_OF_IN_PHY_PORT; OXM_OF_METADATA; OXM_OF_ETH_DST; OXM_OF_ETH_SRC; OXM_OF_ETH_TYPE; OXM_OF_VLAN_VID; OXM_OF_VLAN_PCP;
   OXM_OF_IP_DSCP; OXM_OF_IP_ECN; OXM_OF_IP_PROTO; OXM_OF_IPV4_SRC; OXM_OF_IPV4_DST; OXM_OF_TCP_SRC; OXM_OF_TCP_DST; OXM_OF_UDP_SRC;
   OXM_OF_UDP_DST; OXM_OF_SCTP_SRC; OXM_OF_SCTP_DST; OXM_OF_ICMPV4_TYPE; OXM_OF_ICMPV4_CODE; OXM_OF_ARP_OP; OXM_OF_ARP_SPA; OXM_OF_ARP_TPA;
   OXM_OF_ARP_SHA; OXM_OF_ARP_THA; OXM_OF_IPV6_SRC; OXM_OF_IPV6_DST; OXM_OF_IPV6_FLABEL; OXM_OF_ICMPV6_TYPE; OXM_OF_ICMPV6_CODE;
   OXM_OF_IPV6_ND_TARGET; OXM_OF_IPV6_ND_SLL; OXM_OF_IPV6_ND_TLL; OXM_OF_MPLS_LABEL; OXM_OF_MPLS_TC; OXM_OF_MPLS_BOS; OXM_OF_PBB_ISID;
   OXM_OF_TUNNEL_ID; OXM_OF_IPV6_EXTHDR; OXM_OF_PATH_TCP_DST; OXM_OF_PATH_TCP_SRC; OXM_OF_PATH_MAC_DST; OXM_OF_PATH_OP; OXM_OF_PATH_ID_SWITCH;
   OXM_OF_PATH_SECUENCE; OXM_OF_PATH_SALTOS].

Definition wildcarded : list Z :=
  [OXM_OF_METADATA; OXM_OF_ETH_DST; OXM_OF_ETH_SRC; OXM_OF_VLAN_VID; OXM_OF_IPV4_SRC; OXM_OF_IPV4_DST; OXM_OF_ARP_SPA; OXM_OF_ARP_TPA;
   OXM_OF_ARP_SHA; OXM_OF_ARP_THA; OXM_OF_IPV6_SRC; OXM_OF_IPV6_DST; OXM_OF_IPV6_FLABEL; OXM_OF_PBB_ISID; OXM_OF_TUNNEL_ID; OXM_OF_IPV6_EXTHDR].

(** GOTO_TABLE, WRITE_METADATA, WRITE_ACTIONS, APPLY_ACTIONS, CLEAR_ACTIONS, METER. *)
Definition instructions : list Z := [1; 2; 3; 4; 5; 6].

(** OUTPUT, COPY_TTL_OUT, COPY_TTL_IN, SET_MPLS_TTL, DEC_MPLS_TTL, PUSH_VLAN, POP_VLAN,
    PUSH_MPLS, POP_MPLS, SET_QUEUE, GROUP, SET_NW_TTL, DEC_NW_TTL, SET_FIELD, PUSH_PBB, POP_PBB. *)
Definition actions : list (Z * Z) := (λ type, (type, 4)) <$> [0; 11; 12; 15; 16; 17; 18; 19; 20; 21; 22; 23; 24; 25; 26; 27].

Definition OFPTFPT_MATCH := 8.
Definition OFPTFPT_WILDCARDS := 10.
Definition OFPTFPT_APPLY_SETFIELD_MISS := 15.
Definition TABLE_FEATURES_NUM : nat := 14.
Definition OFPTC_DEPRECATED_MASK := 3.
Definition OFP_DEFAULT_MISS_SEND_LEN := 128.
Definition NETDEV_MAX_QUEUES := 8.

(** There is no callback for experimenter instructions, and the error code is returned for
    the length.  Another instruction adds [sizeof(struct ofp_instruction) - 4], which is 0. *)
Definition ofl_structs_table_features_properties_ofp_len (f : ofl_table_feature_prop) : Z :=
  match f with
  | FeatInstructions _ _ ids => if bool_decide (0xffff ∈ ids) then ofl_error OFPET_BAD_INSTRUCTION 1 else 4 + Z.of_nat (List.length ids) * 0
  | FeatNextTables _ _ ids => 4 + Z.of_nat (List.length ids)
  | FeatActions _ _ ids => 4 + zsum ((λ '(t, _), if t =? 0xffff then 8 else 4) <$> ids)
  | FeatOxm _ _ ids => 4 + Z.of_nat (List.length ids) * 4
  end.

Definition set_length (f : ofl_table_feature_prop) : ofl_table_feature_prop :=
  let l := ofl_structs_table_features_properties_ofp_len f in
  match f with
  | FeatInstructions t _ ids => FeatInstructions t l ids
  | FeatNextTables t _ ids => FeatNextTables t l ids
  | FeatActions t _ ids => FeatActions t l ids
  | FeatOxm t _ ids => FeatOxm t l ids
  end.

(** [None] for the types that set no pointer. *)
Definition flow_table_create_property (type : Z) : option ofl_table_feature_prop :=
  if bool_decide (type ∈ [0; 1]) then Some (set_length (FeatInstructions type 0 instructions))
  else if bool_decide (type ∈ [2; 3]) then Some (set_length (FeatNextTables type 0 (Z.of_nat <$> seq 0 PIPELINE_TABLES)))
  else if bool_decide (type ∈ [6; 7; 4; 5]) then Some (set_length (FeatActions type 0 actions))
  else if bool_decide (type ∈ [8; 14; 15; 12; 13]) then Some (set_length (FeatOxm type 0 oxm_ids))
  else if type =? OFPTFPT_WILDCARDS then Some (set_length (FeatOxm type 0 wildcarded))
  else None.

(** The loop over the types; the body moves [type] on behind OFPTFPT_MATCH and
    OFPTFPT_WILDCARDS.  Sixteen turns are enough for the sixteen types. *)
Fixpoint features_loop (fuel : nat) (type : Z) : option (list ofl_table_feature_prop) :=
  if OFPTFPT_APPLY_SETFIELD_MISS <? type then Some []
  else match fuel with
       | O => None
       | S fuel =>
         prop ← flow_table_create_property type;
         let type := if (type =? OFPTFPT_MATCH) || (type =? OFPTFPT_WILDCARDS) then type + 1 else type in
         rest ← features_loop fuel (type + 1); Some (prop :: rest)
       end.

(** [None] for [abort]. *)
Definition flow_table_features : option (list ofl_table_feature_prop) :=
  l ← features_loop 16 0; if (List.length l =? TABLE_FEATURES_NUM)%nat then Some l else None.

(** [%u] of a number below 100. *)
Definition put_number (n : Z) : list Z := if n <? 10 then [48 + n] else [48 + n / 10; 48 + n mod 10].

Section startup.
  Context (unset : Z).

Definition table_with (table_id : Z) (properties : list ofl_table_feature_prop) : table :=
  Table (TableFeatures unset table_id (text "table_" ++ put_number table_id ++ [0]) (2 ^ 64 - 1) (2 ^ 64 - 1) OFPTC_DEPRECATED_MASK
           FLOW_TABLE_MAX_ENTRIES properties) false.
Definition table_create (table_id : Z) : option table := table_with table_id <$> flow_table_features.

(** The loop of [pipeline_create]. *)
Definition tables_create : option (list table) := mapM (λ i, table_create (Z.of_nat i)) (seq 0 PIPELINE_TABLES).

(** * The datapath *)

Definition MFR_DESC : list Z := text "Stanford University, Ericsson Research and CPqD Research".
Definition HW_DESC : list Z := text "OpenFlow 1.3 Reference Userspace Switch".
Definition DP_DESC : list Z := text "OpenFlow 1.3 Reference Userspace Switch Datapath".
Definition SERIAL_NUM : list Z := text "1".
Definition SERIAL_NUM_LEN : nat := 32.

(** [strncpy] into a new buffer, and the NUL at its end. *)
Definition described (n : nat) (s : list Z) : list Z := <[(n - 1)%nat := 0]> (strncpy n s).

(** [SW_DESC] is the date and time of the build.  The description of the datapath is not
    empty, so that the host name is never used. *)
Definition dp_new (SW_DESC : list Z) : option dp_state :=
  tables ← tables_create;
  Some (DpState (Switch pipeline_create (dp_buffers_create ∅) (no_ports NETDEV_MAX_QUEUES) [] [] 0) tables ∅ OFPC_FRAG_NORMAL OFP_DEFAULT_MISS_SEND_LEN
          (ReplyDesc (described DESC_STR_LEN MFR_DESC) (described DESC_STR_LEN HW_DESC) (described DESC_STR_LEN SW_DESC)
             (described SERIAL_NUM_LEN SERIAL_NUM) (described DESC_STR_LEN DP_DESC))).

(** ** The tables *)

Lemma tables_made : ∃ tables, tables_create = Some tables ∧ List.length tables = TABLES ∧
  ∀ i t, tables !! i = Some t → t_disabled t = false ∧ tf_table_id (t_features t) = Z.of_nat i ∧ List.length (tf_properties (t_features t)) = TABLE_FEATURES_NUM.
Proof using.
  unfold tables_create, table_create. destruct flow_table_features as [l|] eqn:E; [|vm_compute in E; discriminate E].
  assert (List.length l = TABLE_FEATURES_NUM) as Hl.
  { unfold flow_table_features in E. destruct (features_loop 16 0) as [l'|]; [|done]. cbn [mbind option_bind] in E.
    destruct (Nat.eqb_spec (List.length l') TABLE_FEATURES_NUM); [by injection E as <-|done]. }
  set (f := λ i : nat, table_with (Z.of_nat i) l). exists (f <$> seq 0 PIPELINE_TABLES). split.
  - apply mapM_Some. generalize (seq 0 PIPELINE_TABLES). intros k. induction k; constructor; done.
  - split; [by rewrite length_fmap, length_seq|]. intros i t Ht. rewrite list_lookup_fmap in Ht. apply fmap_Some in Ht as (j & [-> _]%lookup_seq & ->).
    unfold f, table_with. cbn [t_disabled t_features tf_table_id tf_properties]. split_and!; [reflexivity|reflexivity|exact Hl].
Qed.
End startup.
