(* ===== verification/ControlCorrect.v ===== *)
(** The control messages are handled right: whatever bytes the controllers send, a handler that
    returns leaves the switch and the connections as their invariants want them; what a slave
    may change; what an echo request is answered with. *)

From S2P Require Import Prelude Memory Ofpbuf OpenFlow MatchStd Oxm Buffers Group GroupTable Meter Ports PortsCorrect Rconn RconnCorrect MacTable.
From S2P Require Import Controllers ControllersCorrect Wire WireCorrect OxmWire StatsWire Experimenter FlowTable Features Messages MessagesCorrect Pipeline Stats Execute.
From S2P Require Import ExecuteKeeps MessagesRange Control Startup.

(** * The state *)

Record state_ok (s : dp_state) : Prop := {
  st_switch : switch_ok (ds_sw s);
  st_tables : length (ds_tables s) = TABLES;
  st_pending : map_Forall (λ _ p, known p.2) (ds_pending s);
  st_desc : length (rd_dp_desc (ds_desc s)) = DESC_STR_LEN }.

(** ** Sending *)

(** The messages that are sent to all controllers. *)
Definition async (m : ofl_msg) : Prop :=
  match m with MsgPacketIn _ | MsgFlowRemoved _ _ | MsgPortStatus _ _ => True | _ => False end.

Lemma to_remote_same now V c data conn_id id c' r :
  send_openflow_buffer_to_remote now V c data conn_id id = Some (c', r) → is_Some (c_remotes c !! id) ∧ same_remotes c c'.
Proof.
  unfold send_openflow_buffer_to_remote. intros E. destruct (c_remotes c !! id) as [x|] eqn:Ex; [|done]. split; [done|].
  destruct (to_msg data) as [m|]; [|done]. cbn [mbind option_bind] in E.
  assert (Hs : ∀ rc aux w', has_aux (Remote rc aux (r_role x) (r_config x)) = has_aux x →
    same_remotes c (Ctl (c_order c) (<[id := Remote rc aux (r_role x) (r_config x)]> (c_remotes c)) (c_generation_id c) w')).
  { intros rc aux w' Ha. split; [done|]. intros d. cbn. destruct (decide (d = id)) as [->|]; [|by rewrite lookup_insert_ne].
    rewrite lookup_insert_eq, Ex. change (Some (has_aux (Remote rc aux (r_role x) (r_config x))) = Some (has_aux x)). by rewrite Ha. }
  unfold has_aux in Hs. destruct (r_rconn_aux x) as [aux|]; [destruct (_ && rconn_is_connected aux)|];
    destruct (rconn_send_with_limit _ _ _ _ _ _ _) as [[[? ?] ?]|]; try done; cbn [mbind option_bind] in E; injection E as <- _; by apply Hs.
Qed.

Lemma last_same now V c data conn_id (prev : option positive) c' :
  match prev with Some p => '(c, _) ← send_openflow_buffer_to_remote now V c data conn_id p; Some c | None => Some c end = Some c' → same_remotes c c'.
Proof.
  destruct prev as [p|]; [|by intros [= <-]]. destruct (send_openflow_buffer_to_remote _ _ _ _ _ _) as [[c1 r]|] eqn:E; [|done].
  intros [= <-]. by eapply to_remote_same.
Qed.

Lemma broadcast_same now V data conn_id l c prev c' p : broadcast_loop now V c data conn_id prev l = Some (c', p) → same_remotes c c'.
Proof.
  revert c prev. induction l as [|id l IH]; intros c prev E; cbn [broadcast_loop] in E; [by injection E as <- _|].
  destruct (c_remotes c !! id) as [r|]; [|done]. cbn [mbind option_bind] in E. destruct (async_enabled r data) as [[]|]; [|by eapply IH|done].
  cbn [mbind option_bind] in E. destruct (match prev with Some _ => _ | None => _ end) as [c1|] eqn:E1; [|done]. cbn [mbind option_bind] in E.
  apply last_same in E1. etrans; [exact E1|by eapply IH].
Qed.

(** ** Table features *)

Lemma known_found l : Forall (λ f, 0 <= tf_table_id f) l → existsb (λ f, Z.of_nat TABLES <=? tf_table_id f) l = false → known l.
Proof.
  intros Hl E. unfold known. induction Hl as [|f l Hf _ IH]; [done|]. cbn [existsb] in E. apply orb_false_iff in E as [E1%Z.leb_gt E2]. constructor; [lia|auto].
Qed.

Definition request_ok (body : option (list ofl_table_features)) : Prop := Forall (λ f, 0 <= tf_table_id f) (default [] body).

Lemma change_length tables body tables' error :
  length tables = TABLES → known (default [] body) → change_features tables body = Some (tables', error) → length tables' = TABLES.
Proof.
  intros Hl Hk. unfold change_features. destruct body as [l|]; [|by intros [= <- _]]. destruct (truthy _); [by intros [= <- _]|].
  destruct (features_replaced (disable <$> tables) l) as (t' & -> & Hl'); [by rewrite length_fmap|done|]. cbn [mbind option_bind]. by intros [= <- _].
Qed.

Definition features_ok (f : features_state) : Prop :=
  length (fs_tables f) = TABLES ∧ ∀ p, fs_pending f = Some p → known p.2.

Lemma features_kept f xid flags body f' r :
  features_ok f → request_ok body → pipeline_handle_stats_request_table_features_request f xid flags body = Some (f', r) → features_ok f'.
Proof.
  intros [Hl Hp] Hb. unfold pipeline_handle_stats_request_table_features_request. destruct (existsb _ _) eqn:Ek; [by intros [= <- _]|].
  pose proof (known_found _ Hb Ek) as Hk.
  assert (Hfin : ∀ body', known (default [] body') →
    ('(tables, error) ← change_features (fs_tables f) body';
     if double_free (fs_pending f) error (default [] body) then None
     else if truthy error then Some (FeaturesState tables None, inr error)
     else rs ← replies TABLES tables 0; Some (FeaturesState tables None, inl rs)) = Some (f', r) → features_ok f').
  { intros body' Hk'. destruct (change_features _ _) as [[tables error]|] eqn:Ec; [|done]. cbn [mbind option_bind]. apply change_length in Ec; [|done..].
    destruct (double_free _ _ _); [done|]. destruct (truthy error); [by intros [= <- _]|]. destruct (replies _ _ _); [|done]. by intros [= <- _]. }
  destruct (fs_pending f) as [[xid' orig]|] eqn:Ep.
  - specialize (Hp _ eq_refl). destruct (negb _); [intros [= <- _]; split; [done|]; rewrite Ep; by intros ? [= <-]|].
    cbn [ofl_msg_merge_multipart_request_table_features]. assert (known (orig ++ default [] body)) as Hm by (by apply Forall_app_2).
    destruct (negb _); [intros [= <- _]; split; [done|]; by intros ? [= <-]|]. apply Hfin. destruct (_ =? _)%nat; [by apply list.Forall_nil|exact Hm].
  - destruct (truthy _); [|by apply Hfin]. intros [= <- _]. split; [done|]. by intros ? [= <-].
Qed.

(** Sending replies and asynchronous messages. *)
Lemma message_sent now V c data to c' e :
  ctl_ok now c → headed data → (to = None → data_ok data) → dp_send_message now V c data to = Some (c', e) →
  ctl_ok now c' ∧ same_remotes c c' ∧ same_ctl c c'.
Proof.
  intros Hok Hh Hd E. destruct to as [[id conn]|].
  - unfold dp_send_message in E. destruct (data !! 1%nat) as [t|]; [|done]. cbn [mbind option_bind fmap option_fmap option_map send_openflow_buffer fst snd] in E.
    destruct (send_openflow_buffer_to_remote _ _ _ _ _ _) as [[c1 r]|] eqn:E1; [|done]. cbn [mbind option_bind] in E. destruct (truthy r); [done|].
    injection E as <- _. destruct (to_remote_same _ _ _ _ _ _ _ _ E1) as [Hs Hsame].
    destruct (send_remote_ok now V c data (conn_of t (Some conn)) id Hok Hh Hs) as (c2 & r2 & E2 & Hok2 & Hc2). rewrite E1 in E2. injection E2 as <- <-. done.
  - specialize (Hd eq_refl). destruct (lookup_lt_is_Some_2 data 1) as [t Ht]; [unfold data_ok in Hd; lia|].
    destruct (broadcast_all now V c data t Hok Hd Ht) as (c2 & E2 & _ & Hok2 & Hc2). rewrite E2 in E. injection E as <- <-. split; [done|]. split; [|done].
    unfold dp_send_message in E2. rewrite Ht in E2. cbn [mbind option_bind fmap option_fmap option_map send_openflow_buffer] in E2.
    destruct (broadcast_loop _ _ _ _ _ _ _) as [[c1 p]|] eqn:E1; [|done]. cbn [mbind option_bind] in E2.
    destruct (match p with Some _ => _ | None => _ end) as [c3|] eqn:E3; [|done]. cbn in E2. injection E2 as <-.
    etrans; [by eapply broadcast_same|by eapply last_same].
Qed.

Section correct.
  Context `{Ofpbuf.Malloc} `{M : StatsWire.Malloc} (parse : list Z → option (ofl_match * protocols_std)).
  Context (w : world) (V : vconn) (created : Z → Z) (port_facts : Z → ofl_port) (d g t : nat).

Lemma pack_headed m xid data : ofl_msg_pack ofl_exp_msg_pack m xid = Some data → headed data ∧ (async m → data_ok data).
Proof using.
  unfold ofl_msg_pack. destruct (pack_body ofl_exp_msg_pack m) as [[len body]|] eqn:E; [|done]. cbn [mbind option_bind]. intros <-%some_inj.
  unfold headed, data_ok. rewrite !length_app, !be_length. split; [lia|]. intros Ha.
  destruct m; try done; cbn [pack_body] in E.
  - apply some_inj, pair_eq in E as [<- <-]. rewrite !length_app, !be_length. lia.
  - apply some_inj, pair_eq in E as [<- <-]. rewrite !length_app, !be_length. lia.
  - unfold ofl_msg_pack_port_status in E. destruct (ofl_structs_port_pack desc) as [bs|] eqn:Ep; [|done]. apply some_inj, pair_eq in E as [<- <-].
    unfold ofl_structs_port_pack in Ep. apply some_inj in Ep as <-. rewrite !length_app, !be_length. cbn [length zeros replicate]. lia.
Qed.

Definition conn_kept (c c' : ctl) : Prop := ctl_ok (w_now w) c' ∧ same_remotes c c'.

Lemma send_gives c m to : ctl_ok (w_now w) c → (to = None → async m) → gives (λ c', conn_kept c c' ∧ same_ctl c c') (send w V c m to).
Proof using.
  intros Hok Ha. unfold send. apply gives_any. intros data E. apply gives_any. intros [c' e] E'. apply gives_ret.
  destruct (ofl_msg_pack _ _ _) as [x|] eqn:Ep; [|done]. injection E as <-. destruct (dp_send_message _ _ _ _ _) as [y|] eqn:Es; [|done]. injection E' as ->.
  destruct (pack_headed _ _ _ Ep) as [Hh Hd]. eapply message_sent in Es as (? & ? & ?); [by split|done|done|]. destruct to; [done|]. intros _. by apply Hd, Ha.
Qed.

Lemma sends_gives l c to : ctl_ok (w_now w) c → (to = None → Forall async l) → gives (conn_kept c) (send_all w V c l to).
Proof using.
  revert c. induction l as [|m l IH]; intros c Hok Ha; cbn [send_all]; [by apply gives_ret; split|].
  eapply gives_bind; [apply send_gives; [done|]|].
  - intros ->. by apply list.Forall_cons in Ha as [? _].
  - intros c1 [[Hok1 Hs1] _]. intros c2 E. destruct (IH c1 Hok1) with (a := c2) as [Hok2 Hs2]; [|done|split; [done|by etrans]].
    intros ->. by apply list.Forall_cons in Ha as [_ ?].
Qed.

(** * Messages that arrive *)

Lemma xid_back m xid bs : ofl_msg_pack ofl_exp_msg_pack m xid = Some bs → fits 32 xid → xid_of bs = xid.
Proof using.
  intros E Hx. unfold ofl_msg_pack in E. destruct (pack_body ofl_exp_msg_pack m) as [[n body]|]; [|done]. cbn [mbind option_bind] in E. apply some_inj in E as <-.
  unfold xid_of. rewrite !length_app, !be_length, (proj2 (Z.ltb_ge _ _)) by lia. by rewrite (get_lit 1 _ 0 OFP_VERSION), (get_lit 4 _ 4 xid) by first [reflexivity|exact Hx|lia|done].
Qed.

(** What a controller has packed is handled as the message it was. *)
Lemma buffer_of_msg s c id conn_id m xid :
  msg_ok m → fits 32 xid →
  ∃ bs, ofl_msg_pack ofl_exp_msg_pack m xid = Some bs ∧
    (Z.of_nat (length bs) < 2 ^ 16 →
     handle_buffer parse w V created port_facts d g t s c id conn_id bs =
     ('(s, c, error) ← handle_control_msg parse w V created port_facts d g t s c (Sender id conn_id xid) (msg_unpacked m);
      if truthy error then c ← send w V c (error_msg error bs) (Some (Sender id conn_id xid)); mret (s, c) else mret (s, c))).
Proof using.
  intros Hm Hx. destruct (msg_back ofl_exp_msg_pack ofl_exp_msg_unpack m xid Hm Hx) as (bs & body & Hp & _ & Hu). exists bs. split; [done|]. intros Hl.
  unfold handle_buffer. by rewrite (Hu Hl), (xid_back _ _ _ Hp Hx).
Qed.

(** * Handlers *)

(** A result that keeps the invariants. *)
Definition kept (c : ctl) (r : dp_state * ctl * Z) : Prop := state_ok r.1.1 ∧ conn_kept c r.1.2.

Section handlers.
  Context (s : dp_state) (c : ctl) (Hs : state_ok s) (Hc : ctl_ok (w_now w) c).

Lemma conn_kept_refl : conn_kept c c.
Proof using Hc. by split. Qed.

Lemma refuse_gives error : gives (kept c) (refuse s c error).
Proof using Hs Hc. apply gives_ret. split; [done|apply conn_kept_refl]. Qed.

Lemma answer_gives m to : gives (kept c) (answer w V s c m to).
Proof using Hs Hc. unfold answer. eapply gives_bind; [by apply send_gives|]. intros c' [Hc' _]. by apply gives_ret. Qed.

Lemma set_sw_ok sw : switch_ok sw → state_ok (set_sw s sw).
Proof using Hs. destruct Hs. by split. Qed.

Lemma news_async sw sw' : Forall async (news w sw sw').
Proof using. unfold news. apply Forall_app_2; apply list.Forall_forall; intros m (x & -> & _)%list_elem_of_fmap; done. Qed.

Lemma finish_gives r : gives (λ x, switch_ok x.1) r → gives (kept c) (finish w V s c r).
Proof using Hs Hc.
  intros Hr. unfold finish. eapply gives_bind; [exact Hr|]. intros [sw error] Hsw. eapply gives_bind; [apply sends_gives; [done|]|].
  - intros _. apply news_async.
  - intros c' Hc'. apply gives_ret. split; [by apply set_sw_ok|done].
Qed.

Lemma lift_done {A} (r : option A) a : lift r = Done a → r = Some a.
Proof using. destruct r; [|done]. by intros [= ->]. Qed.

Lemma flow_mod_gives slave m : table_range (fm_table_id m) → 0 <= fm_idle_timeout m → gives (λ x, switch_ok x.1) (handle_flow_mod parse w d g t s slave m).
Proof using Hs.
  intros Ht Hi. unfold handle_flow_mod. apply gives_any. intros [[pl error] run] E%lift_done.
  eapply flow_mod_kept in E as [Hpl _]; [|apply (st_switch _ Hs)|by split].
  assert (switch_ok (set_pl (ds_sw s) pl)) as Hsw by (split; [done|apply (st_switch _ Hs)|done]).
  destruct run as [id|]; [|by apply gives_ret]. apply gives_any. intros [b r] _. destruct r as [ptr|]; [|by apply gives_ret, bufs_ok].
  eapply gives_bind; [by apply process_gives, bufs_ok|]. intros sw Hsw'. by apply gives_ret.
Qed.

Lemma port_mod_gives slave m : gives (kept c) (handle_port_mod w V port_facts s c slave m).
Proof using Hs Hc.
  unfold handle_port_mod. destruct (port_mod_ok (sw_ports (ds_sw s)) m slave) as (p & e & out & -> & Hp & _); [apply (st_switch _ Hs)|].
  apply gives_any. intros ? [= <-]. eapply gives_bind; [apply sends_gives; [done|]|].
  - intros _. apply list.Forall_forall. intros x (y & -> & _)%list_elem_of_fmap. done.
  - intros c' Hc'. apply gives_ret. split; [|done]. apply set_sw_ok. split; [apply (st_switch _ Hs)|done|done].
Qed.

Lemma features_gives flags body to : request_ok body → gives (kept c) (handle_table_features w V s c flags body to).
Proof using Hs Hc.
  intros Hb. unfold handle_table_features. apply gives_any. intros [f r] E%lift_done.
  eapply features_kept in E as [Hl Hp]; [|split; [apply Hs|]|done].
  2: { intros p Hx. by apply (st_pending _ Hs (s_remote to)). }
  set (s' := set_pending _ _). assert (state_ok s') as Hs'.
  { split; [apply Hs|done| |apply Hs]. intros k p. cbn. destruct (decide (k = s_remote to)) as [->|Hne].
    - rewrite lookup_partial_alter_eq. apply Hp.
    - rewrite lookup_partial_alter_ne by done. apply (st_pending _ Hs). }
  destruct r as [rs|error]; [|apply gives_ret; split; [done|by apply conn_kept_refl]].
  eapply gives_bind; [by apply sends_gives|]. intros c' Hc'. by apply gives_ret.
Qed.

Lemma multipart_gives type r to : gives (kept c) (multipart w V s c type r to).
Proof using Hs Hc. unfold multipart. apply gives_any. intros [body|error] _; [apply answer_gives|apply refuse_gives]. Qed.

Lemma stats_gives type flags body to : unpacked_ok (MsgMultipartRequest type flags body) →
  gives (kept c) (handle_control_stats_request w V created port_facts s c type flags body to).
Proof using Hs Hc.
  intros Hu. unfold handle_control_stats_request.
  repeat case_match; try apply refuse_gives; try apply multipart_gives; try apply answer_gives. apply features_gives. destruct tables; [exact Hu|by apply list.Forall_nil].
Qed.

Lemma experimenter_gives m : unpacked_ok (MsgExperimenter m) → gives (kept c) (dp_exp_message w s c m).
Proof using Hs Hc.
  intros Hu. assert (Hback : ∀ r : dp_ports * Z, ports_ok r.1 →
    gives (kept c) (let '(ports, error) := r in mret (set_sw s (set_ports (ds_sw s) ports [] (sw_rand (ds_sw s))), c, error))).
  { intros [p e] Hp. apply gives_ret. split; [|by apply conn_kept_refl]. apply set_sw_ok. split; [apply (st_switch _ Hs)|done|done]. }
  pose proof (so_ports _ (st_switch _ Hs)) as Hp. destruct m as [type port_id queue|desc|? ?]; cbn [dp_exp_message]; [| |apply refuse_gives].
  - cbn in Hu. destruct (type =? _); [destruct (queue_rate queue) as [rate|]; [|destruct (reads_rate _ _ _ _); [apply gives_undef|]]; apply Hback; by apply queue_modify_ok|].
    destruct (type =? _); [apply Hback; by apply queue_delete_ok|apply refuse_gives].
  - apply gives_ret. split; [|by apply conn_kept_refl]. destruct Hs. split; try done. cbn [fst set_desc ds_desc rd_dp_desc].
    rewrite length_insert. unfold strncpy. rewrite length_take, length_app. unfold zeros. rewrite length_replicate. lia.
Qed.

(** ** Roles and asynchronous messages *)

Lemma role_kept id r msg_role generation_id c' res : c_remotes c !! id = Some r → role_answered c id r msg_role generation_id c' res → same_remotes c c'.
Proof using.
  intros Hr. destruct res as [[role gen]|err]; [|by intros [-> _]]. intros (Eo & _ & Er & _). split; [done|]. intros k. rewrite Er.
  by destruct (c_remotes c !! k).
Qed.

Lemma role_gives to msg_role generation_id : fits 64 generation_id →
  gives (kept c) ('(c, r) ← lift (dp_handle_role_request c (s_remote to) msg_role generation_id);
                  match r with
                  | inl (role, generation_id) => answer w V s c (MsgRole OFPT_ROLE_REPLY role generation_id) to
                  | inr error => refuse s c error
                  end).
Proof using Hs Hc.
  intros Hg. apply gives_any. intros [c' r] E%lift_done. destruct (c_remotes c !! s_remote to) as [x|] eqn:Ex.
  2: { unfold dp_handle_role_request in E. by rewrite Ex in E. }
  destruct (role_request_spec _ c (s_remote to) x msg_role generation_id Hc Ex Hg) as (c1 & r1 & E1 & Hc1 & Ha). rewrite E in E1. injection E1 as <- <-.
  pose proof (role_kept _ _ _ _ _ _ Ex Ha) as Hk. destruct r as [[role gen]|error]; [|by apply gives_ret].
  unfold answer. eapply gives_bind; [by apply send_gives|]. intros c2 [[Hc2 Hk2] _]. apply gives_ret. split; [done|]. split; [done|by etrans].
Qed.

Lemma async_gives to config : gives (kept c) (c ← lift (dp_handle_async_request c (s_remote to) config); mret (s, c, 0)).
Proof using Hs Hc.
  apply gives_any. intros c' E%lift_done. apply gives_ret. split; [done|]. unfold dp_handle_async_request in E.
  destruct (c_remotes c !! s_remote to) as [r|] eqn:Er; [|done]. injection E as <-. split.
  - pose proof (co_remote _ _ Hc _ _ Er) as []. by eapply set_remote_ok.
  - split; [done|]. intros k. cbn. destruct (decide (k = s_remote to)) as [->|]; [by rewrite lookup_insert_eq, Er|by rewrite lookup_insert_ne].
Qed.

(** ** The dispatch *)

Lemma msg_gives to m : unpacked_ok m → gives (kept c) (handle_control_msg parse w V created port_facts d g t s c to m).
Proof using Hs Hc.
  intros Hu. pose proof (st_switch _ Hs) as Hsw. pose proof (refuse_gives 0) as Hid. unfold refuse in Hid.
  assert (Hslave : ∀ f : bool → result, (∀ b, gives (kept c) (f b)) → gives (kept c) (slave ← is_slave c to; f slave)).
  { intros f Hf. apply gives_any. intros b _. apply Hf. }
  destruct m; cbn [handle_control_msg]; try apply refuse_gives; try (apply Hslave; intros slave; try apply finish_gives).
  - repeat apply gives_if; try done; try apply answer_gives; try apply refuse_gives. apply gives_any. intros r _. apply answer_gives.
  - apply gives_if; [apply answer_gives|done].
  - by apply experimenter_gives.
  - apply gives_ret. split; [by destruct Hs|by apply conn_kept_refl].
  - by apply packet_out_gives.
  - destruct Hu. by apply flow_mod_gives.
  - apply gives_any. intros [pl error] E%lift_done. apply gives_ret.
    destruct (handle_group_mod_ok (port_exists (ds_sw s)) slave _ _ (so_pipeline _ Hsw) Hu) as [(pl' & e' & E' & Hpl & _)|[E' _]]; rewrite E in E'; [|done].
    injection E' as <- <-.
    by split; [|apply Hsw|].
  - apply port_mod_gives.
  - apply gives_any. intros [tables error] E%lift_done. apply gives_ret. split; [|by apply conn_kept_refl]. destruct Hs. split; try done. cbn.
    unfold pipeline_handle_table_mod in E. destruct slave; [by injection E as <- _|]. destruct (_ =? 255); [injection E as <- _; by rewrite length_fmap|].
    destruct (_ !! _); [|done]. injection E as <- _. by rewrite length_insert.
  - by apply stats_gives.
  - apply gives_any. intros r _. destruct r as [r|err]; [|apply gives_undef]. apply gives_any. intros l _. apply answer_gives.
  - apply gives_if; [by apply role_gives|apply refuse_gives].
  - apply gives_if; [apply async_gives|apply refuse_gives].
  - apply gives_any. intros [pl error] E%lift_done. apply gives_ret.
    destruct (handle_meter_mod_ok (msec w) slave _ _ (so_pipeline _ Hsw) Hu) as [(pl' & e' & E' & Hpl & _)|[E' _]]; rewrite E in E'; [|done].
    injection E' as <- <-.
    by split; [|apply Hsw|].
Qed.
End handlers.

Lemma buffer_gives s c id conn_id data : state_ok s → ctl_ok (w_now w) c → bytes data →
  gives (λ r, state_ok r.1 ∧ conn_kept c r.2) (handle_buffer parse w V created port_facts d g t s c id conn_id data).
Proof using.
  intros Hs Hc Hb. unfold handle_buffer. apply (gives_bind (kept c)).
  - destruct (ofl_msg_unpack ofl_exp_msg_unpack data) as [| |error|[n m]] eqn:E; try done; [by apply refuse_gives|].
    apply msg_gives; [done|done|]. exact (unpack_range data Hb _ E).
  - intros [[s1 c1] error] [Hs1 [Hc1 Hk1]]. apply gives_if; [|by apply gives_ret]. eapply gives_bind; [by apply send_gives|].
    intros c2 [[Hc2 Hk2] _]. apply gives_ret. split; [done|]. split; [done|by etrans].
Qed.
End correct.

(** The switch keeps what the loop over the controllers relies on. *)
#[global] Instance control_ok `{Ofpbuf.Malloc} `{StatsWire.Malloc} parse w V created port_facts d g t :
  HandlerOk (w_now w) (control parse w V created port_facts d g t) state_ok.
Proof.
  split.
  - intros s c id conn_id b s' c' Hs Hc _ Hb E. cbn [h_message control] in E.
    destruct (handle_buffer _ _ _ _ _ _ _ _ _ _ _ _ _) as [x| |] eqn:Ex; [|done..]. injection E as ->.
    by eapply buffer_gives in Ex as [? [? ?]].
  - intros s id [H1 H2 H3 H4]. split; try done. by apply map_Forall_delete.
Qed.

(** * Slaves *)

(** Messages with a test for slaves; messages that change the switch without one. *)
Definition guarded (m : ofl_msg) : Prop :=
  match m with MsgPacketOut _ | MsgFlowMod _ | MsgGroupMod _ | MsgMeterMod _ | MsgPortMod _ | MsgTableMod _ _ => True | _ => False end.
Definition unguarded (m : ofl_msg) : Prop :=
  match m with MsgSetConfig _ _ | MsgMultipartRequest _ _ (ReqTableFeatures _) | MsgExperimenter _ => True | _ => False end.

Section slaves.
  Context `{Ofpbuf.Malloc} `{M : StatsWire.Malloc} (parse : list Z → option (ofl_match * protocols_std)).
  Context (w : world) (V : vconn) (created : Z → Z) (port_facts : Z → ofl_port) (d g t : nat).
  Context (s : dp_state) (c : ctl) (to : sender).

Definition unchanged (x : dp_state * ctl * Z) : Prop := x.1.1 = s.

Lemma answer_unchanged c' m : gives unchanged (answer w V s c' m to).
Proof using. unfold answer. apply gives_any. intros c1 _. by apply gives_ret. Qed.

Lemma multipart_unchanged type r : gives unchanged (multipart w V s c type r to).
Proof using. unfold multipart. apply gives_any. intros [b|e] _; [apply answer_unchanged|by apply gives_ret]. Qed.

Lemma pipeline_same pl : with_groups pl (dp_groups (pl_dp pl)) = pl ∧ with_meters pl (dp_meters (pl_dp pl)) = pl.
Proof using. by destruct pl as [[] ?]. Qed.

Lemma switch_same : set_sw s (set_pl (ds_sw s) (sw_pl (ds_sw s))) = s ∧
  set_sw s (set_ports (ds_sw s) (sw_ports (ds_sw s)) [] (sw_rand (ds_sw s))) = s.
Proof using. destruct s as [[] ? ? ? ? ?]. unfold set_sw, set_pl, set_ports. cbn. by rewrite app_nil_r. Qed.

Lemma no_news sw pl : dp_sent (pl_dp pl) = dp_sent (pl_dp (sw_pl sw)) → news w sw (set_pl sw pl) = [].
Proof using. intros E. unfold news. cbn. by rewrite E, !drop_all. Qed.

Lemma guarded_refused m r :
  c_remotes c !! s_remote to = Some r → r_role r = OFPCR_ROLE_SLAVE → guarded m →
  handle_control_msg parse w V created port_facts d g t s c to m = Done (s, c, IS_SLAVE).
Proof using.
  intros Hr Hrole Hg. destruct (pipeline_same (sw_pl (ds_sw s))) as [Eg Em]. destruct switch_same as [Es Ep].
  assert (is_slave c to = Done true) as Hsl by (unfold is_slave; rewrite Hr; cbn; by rewrite Hrole).
  assert (Hfin : finish w V s c (mret (set_pl (ds_sw s) (sw_pl (ds_sw s)), IS_SLAVE)) = Done (s, c, IS_SLAVE)).
  { unfold finish. cbn [mbind outcome_bind mret outcome_ret]. rewrite no_news by done. cbn [send_all mbind outcome_bind mret outcome_ret]. by rewrite Es. }
  destruct m; try done; cbn [handle_control_msg]; rewrite Hsl; cbn [mbind outcome_bind].
  - unfold handle_control_packet_out. unfold finish in *. cbn [mbind outcome_bind mret outcome_ret]. rewrite <- Hfin. by destruct (ds_sw s).
  - exact Hfin.
  - unfold handle_group_mod, walks_freed. cbn. rewrite andb_false_r, Eg. exact Hfin.
  - unfold handle_port_mod. cbn. by rewrite Ep.
  - cbn. unfold set_tables. by destruct s.
  - unfold handle_meter_mod, walks_freed. cbn. rewrite andb_false_r, Em. exact Hfin.
Qed.

Lemma other_unchanged m : ¬ guarded m → ¬ unguarded m → gives unchanged (handle_control_msg parse w V created port_facts d g t s c to m).
Proof using.
  intros Hg Hu. assert (Hid : ∀ e, gives unchanged (refuse s c e)) by (intros; by apply gives_ret). pose proof (Hid 0) as H0. unfold refuse in H0.
  destruct m; try (by destruct Hg); try (by destruct Hu); cbn [handle_control_msg]; try apply Hid.
  - repeat apply gives_if; try done; try apply answer_unchanged. apply gives_any. intros r _. apply answer_unchanged.
  - apply gives_if; [apply answer_unchanged|done].
  - unfold handle_control_stats_request. repeat case_match; try apply Hid; try apply multipart_unchanged; try apply answer_unchanged. by destruct Hu.
  - apply gives_any. intros [r|e] _; [|apply gives_undef]. apply gives_any. intros l _. apply answer_unchanged.
  - apply gives_if; [|apply Hid]. apply gives_any. intros [c' r] _. destruct r as [[a b]|e]; [apply answer_unchanged|by apply gives_ret].
  - apply gives_if; [|apply Hid]. apply gives_any. intros c' _. by apply gives_ret.
Qed.
End slaves.

(** * The theorems *)

Lemma dp_new_ok unset SW_DESC : ∃ s, dp_new unset SW_DESC = Some s ∧ state_ok s.
Proof.
  destruct (tables_made unset) as (tables & E & Hl & _). unfold dp_new. rewrite E. cbn [mbind option_bind]. eexists. split; [reflexivity|].
  split; cbn [ds_sw ds_tables ds_pending ds_desc rd_dp_desc]; [|exact Hl|apply map_Forall_empty|].
  - split; [exact pipeline_create_ok|apply no_ports_ok|done].
  - unfold described, strncpy, zeros. rewrite length_insert, length_take, length_app, length_replicate. lia.
Qed.

(** ** Messages that make the code misbehave *)

(** The same handler, but a message that would make it misbehave is dropped. *)
Definition lenient {X} (H : handler X) : handler X :=
  Handler (λ x c id conn_id b, Some (default (x, c) (h_message H x c id conn_id b))) (h_forget H).

#[global] Instance lenient_ok {X} now (H : handler X) I `{!HandlerOk now H I} : HandlerOk now (lenient H) I.
Proof.
  destruct HandlerOk0 as [Hm Hf]. split; [|exact Hf]. intros x c id conn_id b x' c' Hx Hc Hconn Hb E. cbn in E. injection E as E.
  destruct (h_message H x c id conn_id b) as [r|] eqn:Eh; cbn in E; [|by injection E as <- <-]. subst r. by eapply Hm.
Qed.

(** Where nothing misbehaves the two are the same. *)
Lemma bind_mono {A B} (x y : option A) (f g : A → option B) b :
  (∀ a, x = Some a → y = Some a) → (∀ a, f a = Some b → g a = Some b) → x ≫= f = Some b → y ≫= g = Some b.
Proof. intros Hx Hf E. destruct x as [a|]; [|done]. rewrite (Hx a eq_refl). by apply Hf. Qed.

Section lenient.
  Context {X : Type} (now : Z) (V : vconn) (xid : Z) (H : handler X).

Lemma recv_loop_lenient n x c id conn_id r : recv_loop now V H n x c id conn_id = Some r → recv_loop now V (lenient H) n x c id conn_id = Some r.
Proof using.
  revert x c. induction n as [|n IH]; intros x c; [done|]. cbn [recv_loop]. apply bind_mono; [done|]. intros [c' [b|]]; [|done].
  apply bind_mono; [|intros [x1 c1]; apply IH]. intros a Ea. cbn. by rewrite Ea.
Qed.

Lemma rconn_run_lenient x c id conn_id r :
  remote_rconn_run now V xid H x c id conn_id = Some r → remote_rconn_run now V xid (lenient H) x c id conn_id = Some r.
Proof using. unfold remote_rconn_run. apply bind_mono; [done|]. intros c'. apply recv_loop_lenient. Qed.

Lemma remote_run_lenient x c id r : remote_run now V xid H x c id = Some r → remote_run now V xid (lenient H) x c id = Some r.
Proof using.
  unfold remote_run. apply bind_mono; [apply rconn_run_lenient|]. intros [x1 c1]. apply bind_mono; [done|]. intros rm.
  destruct (negb _); [done|]. destruct (r_rconn_aux rm) as [aux|]; [|done]. destruct (rconn_is_alive aux); [apply rconn_run_lenient|done].
Qed.

Lemma remotes_lenient l x c r : remotes_loop now V xid H x c l = Some r → remotes_loop now V xid (lenient H) x c l = Some r.
Proof using.
  revert x c. induction l as [|id l IH]; intros x c; [done|]. cbn [remotes_loop]. apply bind_mono; [intros ?; apply remote_run_lenient|]. intros [x1 c1]. apply IH.
Qed.
End lenient.

Lemma steps_lenient {X} (H : Z → vconn → handler X) es s r :
  dp_steps H es s = Some r → dp_steps (λ now V, lenient (H now V)) es s = Some r.
Proof.
  revert s. induction es as [|e es IH]; intros s; [done|]. cbn [dp_steps]. apply bind_mono; [|exact IH]. intros a.
  destruct s as [[ls x] c], e as [now V xid A|now V data]; [|done]. cbn [dp_step]. unfold dp_run_controllers.
  apply bind_mono; [intros ?; apply remotes_lenient|done].
Qed.

(** C7: the switch survives its controllers.  From a state that satisfies the invariants, such
    as the first one, take any sequence of turns of the main loop and of messages to all
    controllers, with connections that come, go and carry any bytes.  If the switch gets
    through it, the new state satisfies the invariants: the tables, flows, groups, meters,
    references and ports are consistent, there are 64 tables, pending requests name tables that
    exist, and the connections have their roles, queues and counters right.  Nothing but a
    message in whose own handling the code misbehaves can stop it: without these messages
    every turn is carried out, and where there are none this is the run of the switch.  Among these messages are a
    modify that selects two flows (which would share one array of instructions from then on), the deletion of all of several groups or
    meters that flows use (freed nodes are searched), a set-field action with an unknown header, and bytes whose unpacking does not end. *)
Theorem control_invariant `{Ofpbuf.Malloc} `{StatsWire.Malloc} (parse : list Z → option (ofl_match * protocols_std)) (W : Z → world)
    (created : Z → Z) (port_facts : Z → ofl_port) (d g k : nat) (es : list dp_event) (ls : list (positive * option positive)) (s : dp_state) (c : ctl) (t : Z)
    (HW : ∀ now, w_now (W now) = now) (Hs : state_ok s) (Hc : ctl_ok t c) (He : events_ok t es) :
  ∃ ls' s' c' t', dp_steps (λ now V, lenient (control parse (W now) V created port_facts d g k)) es (ls, s, c) = Some (ls', s', c') ∧
    state_ok s' ∧ ctl_ok t' c' ∧ ls' ⊆ ls ∧
    ∀ r, dp_steps (λ now V, control parse (W now) V created port_facts d g k) es (ls, s, c) = Some r → r = (ls', s', c').
Proof.
  destruct (dp_steps_ok (λ now V, lenient (control parse (W now) V created port_facts d g k)) state_ok) with (es := es) (t := t) (ls := ls) (x := s) (c := c)
    as [(ls' & s' & c' & t' & E & Hs' & Hc' & Hl)|(now & V & s' & c' & id & conn_id & b & _ & _ & _ & _ & E)]; [|done|done|done| |done].
  - intros now V. apply lenient_ok. pose proof (control_ok parse (W now) V created port_facts d g k) as Hk. by rewrite HW in Hk.
  - exists ls', s', c', t'. split_and!; [done..|]. intros r Er%steps_lenient. rewrite E in Er. by injection Er as <-.
Qed.

(** C28: what a slave can do.  Packet-outs and messages that modify flows, groups, meters, ports
    or tables are answered with the error IS_SLAVE and change nothing; every other message of a slave
    leaves the switch as it is, except that table features, the configuration and experimenter messages
    are not protected: a slave's SET_CONFIG takes effect. *)
Theorem slave_read_only `{Ofpbuf.Malloc} `{StatsWire.Malloc} (parse : list Z → option (ofl_match * protocols_std)) (w : world) (V : vconn)
    (created : Z → Z) (port_facts : Z → ofl_port) (d g k : nat) (s : dp_state) (c : ctl) (to : sender) (r : remote)
    (Hr : c_remotes c !! s_remote to = Some r) (Hrole : r_role r = OFPCR_ROLE_SLAVE) :
  (∀ m, guarded m → handle_control_msg parse w V created port_facts d g k s c to m = Done (s, c, IS_SLAVE)) ∧
  (∀ m s' c' error, ¬ unguarded m → handle_control_msg parse w V created port_facts d g k s c to m = Done (s', c', error) → s' = s) ∧
  (∀ flags len, ∃ s', handle_control_msg parse w V created port_facts d g k s c to (MsgSetConfig flags len) = Done (s', c, 0) ∧ ds_miss_send_len s' = len).
Proof.
  split; [intros m; by eapply guarded_refused|]. split; [|intros flags len; by eexists].
  intros m s' c' error Hu E. assert (guarded m ∨ ¬ guarded m) as [Hg|Hg] by (destruct m; cbn; auto).
  - erewrite guarded_refused in E by done. by injection E as <- _ _.
  - exact (other_unchanged parse w V created port_facts d g k s c to m Hg Hu _ E).
Qed.

(** Echo requests, from bytes to bytes.  The bytes of an echo request with any data are
    answered with one message: the same bytes with the type of a reply, so the same length,
    transaction id and data, by the connection the request came by.  The switch does not change. *)
Theorem echo_exact `{Ofpbuf.Malloc} `{StatsWire.Malloc} (parse : list Z → option (ofl_match * protocols_std)) (w : world) (V : vconn)
    (created : Z → Z) (port_facts : Z → ofl_port) (d g k : nat) (s : dp_state) (c : ctl) (id : positive) (conn_id xid : Z) (data : list Z)
    (Hl : 8 + Z.of_nat (length data) < 2 ^ 16) (Hx : fits 32 xid) :
  handle_buffer parse w V created port_facts d g k s c id conn_id
    (be 1 OFP_VERSION ++ be 1 OFPT_ECHO_REQUEST ++ be 2 (8 + Z.of_nat (length data)) ++ be 4 xid ++ data) =
  ('(c, _) ← lift (dp_send_message (w_now w) V c
                     (be 1 OFP_VERSION ++ be 1 OFPT_ECHO_REPLY ++ be 2 (8 + Z.of_nat (length data)) ++ be 4 xid ++ data) (Some (id, conn_id)));
   mret (s, c)).
Proof.
  destruct (buffer_of_msg parse w V created port_facts d g k s c id conn_id (MsgEcho OFPT_ECHO_REQUEST data) xid) as (bs & E & Hb); [by left|done|].
  unfold ofl_msg_pack in E. cbn [pack_body mbind option_bind msg_type] in E. rewrite bool_decide_true in E by set_solver.
  apply some_inj in E. subst bs. rewrite Hb by (rewrite !length_app, !be_length; lia). cbn [msg_unpacked handle_control_msg].
  change (OFPT_ECHO_REQUEST =? OFPT_ECHO_REQUEST) with true. unfold handle_control_echo_request, answer, send, now. cbn [fmap option_fmap option_map default from_option s_xid s_remote s_conn_id].
  unfold ofl_msg_pack. cbn [pack_body mbind option_bind msg_type]. rewrite (bool_decide_true (OFPT_ECHO_REPLY ∈ _)) by set_solver.
  cbn [ofl_msg_pack_echo mbind option_bind lift outcome_bind Datatypes.id]. destruct (dp_send_message _ _ _ _ _) as [[c' e]|]; reflexivity.
Qed.

(** * Examples to evaluate *)

#[local] Instance ex_memory : Ofpbuf.Malloc := λ _, 0xCC.
#[local] Instance ex_blocks : StatsWire.Malloc := {| fresh := zeros; fresh_length n := length_replicate n 0; fresh_bytes := zeros_bytes |}.

Definition ex_no_device : netdev := Netdev (λ _, None) (λ _, None) (λ _, None) (λ _, true) (λ _, true) (λ _ _ _, true) (λ _ _ _, true) (λ _ _ _, true).
Definition ex_world_at (now : Z) : world := World (1000 * now) now 1 128 (λ _, ex_no_device) (λ _, 0%nat) mac_to_port_new [].
Definition ex_facts (no : Z) : ofl_port := OflPort no [0; 0; 0; 0; 0; 0] [] 0 0 0 0 0 0 0 0.

Definition ex_request_bytes : list Z := be 1 OFP_VERSION ++ be 1 OFPT_ECHO_REQUEST ++ be 2 (8 + Z.of_nat (length [1; 2; 3])) ++ be 4 7 ++ [1; 2; 3].
(** Every second call finds an echo request. *)
Definition ex_echoes : vconn :=
  Vconn (λ _, true) (λ _, true) (λ _, Ok) (λ _, Ok) (λ _, Ok)
    (λ k, if Nat.even k then inl (Msg OFPT_ECHO_REQUEST 7 None ex_request_bytes) else inr Again).

Definition ex_turns : list dp_event := [EvRun 10 ex_echoes 1 (λ _, Ok); EvRun 11 ex_echoes 2 (λ _, Again); EvRun 11 ex_echoes 3 (λ _, Again)].
Definition ex_handler (now : Z) (V : vconn) : handler dp_state :=
  control (λ _, None) (ex_world_at now) V (λ _, 0) ex_facts 1 1 64.

Lemma ex_turns_ok : events_ok 10 ex_turns.
Proof.
  assert (net_bytes ex_echoes) as Hb.
  { intros k b. cbn. destruct (Nat.even k); [|done]. intros [= <-]. apply (bool_decide_unpack _). vm_compute. exact I. }
  unfold ex_turns. cbn [events_ok]. unfold UINT_MAX. split_and!; (exact Hb || lia || done).
Qed.

Lemma control_invariant_witness :
  ∃ s, dp_new 0 [] = Some s ∧
    ∃ ls' s' c' t', dp_steps (λ now V, lenient (ex_handler now V)) ex_turns ([(1%positive, None)], s, no_remotes) = Some (ls', s', c') ∧
      state_ok s' ∧ ctl_ok t' c' ∧ ls' ⊆ [(1%positive, None)] ∧
      ∀ r, dp_steps ex_handler ex_turns ([(1%positive, None)], s, no_remotes) = Some r → r = (ls', s', c').
Proof.
  destruct (dp_new_ok 0 []) as (s & E & Hs). exists s. split; [exact E|].
  apply (control_invariant (λ _, None) ex_world_at (λ _, 0) ex_facts 1 1 64 ex_turns [(1%positive, None)] s no_remotes 10).
  - reflexivity.
  - exact Hs.
  - apply no_remotes_ok; [lia|unfold UINT_MAX; lia].
  - exact ex_turns_ok.
Defined.

Definition ex_slave : ctl := set_role ex_ctl ex_main OFPCR_ROLE_SLAVE.
Definition ex_sender : sender := Sender ex_main MAIN_CONNECTION 7.

Lemma slave_read_only_witness :
  ∃ s r, dp_new 0 [] = Some s ∧ c_remotes ex_slave !! ex_main = Some r ∧ r_role r = OFPCR_ROLE_SLAVE ∧
    handle_control_msg (λ _, None) (ex_world_at 10) ex_echoes (λ _, 0) ex_facts 1 1 64 s ex_slave ex_sender (MsgTableMod 3 0) = Done (s, ex_slave, IS_SLAVE).
Proof.
  destruct (dp_new_ok 0 []) as (s & E & _). destruct ex_main_some as [r Hr].
  assert (c_remotes ex_slave !! ex_main = Some (with_role r OFPCR_ROLE_SLAVE)) as Hs.
  { unfold ex_slave. rewrite set_role_lookup, Hr, bool_decide_true by reflexivity. reflexivity. }
  exists s, (with_role r OFPCR_ROLE_SLAVE). split; [exact E|]. split; [exact Hs|]. split; [reflexivity|].
  destruct (slave_read_only (λ _, None) (ex_world_at 10) ex_echoes (λ _, 0) ex_facts 1 1 64 s ex_slave ex_sender _ Hs eq_refl) as [Hg _].
  apply Hg. exact I.
Defined.

Definition ex_reply_bytes : list Z := be 1 OFP_VERSION ++ be 1 OFPT_ECHO_REPLY ++ be 2 (8 + Z.of_nat (length [1; 2; 3])) ++ be 4 7 ++ [1; 2; 3].

Lemma sent_zero now V c data to c' e : dp_send_message now V c data to = Some (c', e) → e = 0.
Proof.
  unfold dp_send_message. destruct (data !! _); [|done]. cbn [mbind option_bind]. destruct (send_openflow_buffer _ _ _ _ _ _) as [[? ?]|]; [|done].
  cbn [mbind option_bind]. destruct (truthy _); [done|]. by intros [= _ <-].
Qed.

Lemma ex_reply_sent : ∃ c', dp_send_message (w_now (ex_world_at 10)) ex_echoes ex_ctl ex_reply_bytes (Some (ex_main, MAIN_CONNECTION)) = Some (c', 0).
Proof.
  assert (match dp_send_message (w_now (ex_world_at 10)) ex_echoes ex_ctl ex_reply_bytes (Some (ex_main, MAIN_CONNECTION)) with Some _ => true | None => false end = true) as H
    by (vm_compute; reflexivity).
  destruct (dp_send_message _ _ _ _ _) as [[c' e]|] eqn:E; [|discriminate H]. exists c'. by rewrite (sent_zero _ _ _ _ _ _ _ E).
Qed.

Lemma echo_exact_witness :
  ∃ s c', dp_new 0 [] = Some s ∧
    handle_buffer (λ _, None) (ex_world_at 10) ex_echoes (λ _, 0) ex_facts 1 1 64 s ex_ctl ex_main MAIN_CONNECTION ex_request_bytes = Done (s, c').
Proof.
  destruct (dp_new_ok 0 []) as (s & E & _). assert (8 + Z.of_nat (length [1; 2; 3]) < 2 ^ 16) as Hl by (vm_compute; reflexivity).
  assert (fits 32 7) as Hx by (unfold fits; lia).
  destruct ex_reply_sent as [c' Hc]. exists s, c'. split; [exact E|].
  rewrite (echo_exact (λ _, None) (ex_world_at 10) ex_echoes (λ _, 0) ex_facts 1 1 64 s ex_ctl ex_main MAIN_CONNECTION 7 [1; 2; 3] Hl Hx).
  unfold ex_reply_bytes in Hc. rewrite Hc. reflexivity.
Defined.
