(* ===== verification/DatapathCorrect.v ===== *)
(** The invariants of the whole switch, through any traffic: whatever frames the devices
    deliver and whatever bytes the controllers send, every turn of the main loop that
    returns leaves tables, flows, groups, meters, ports, connections and path tables consistent. *)

From S2P Require Import Prelude Memory Ofpbuf Csum OpenFlow MatchStd ActionSet Buffers PacketActions LinkedList MacTable TcpTable.
From S2P Require Import ArpPath Group GroupTable Meter FlowTable Ports PortsCorrect TcpPath Rconn RconnCorrect Controllers ControllersCorrect.
From S2P Require Import Oxm Wire OxmWire StatsWire Experimenter Features Messages MessagesCorrect Pipeline Stats Execute ExecuteKeeps Forwarding Hello Control.
From S2P Require Import Startup ControlCorrect Processing ForwardingCorrect HelloCorrect Datapath.

(** The switch is in order, the path tables are lists, and TCP-Path is off. *)
Record node_ok (L : option (list Z)) (nd : node) : Prop := {
  no_switch : switch_ok_at L (nd_sw nd);
  no_mac : ∃ es, repr true (nd_mac_port nd) es;
  no_neighbors : ∃ nes, repr true (nd_neighbors nd) nes;
  no_tcp : nd_tcp_table nd = table_tcp_new }.

Section frames.
  Context `{Ofpbuf.Malloc} (parse : list Z → option (ofl_match * protocols_std)) (w : world) (d g t : nat) (L : option (list Z)).

Lemma with_sw_ok nd sw : switch_ok_at L sw → node_ok L nd → node_ok L (with_sw nd sw).
Proof using. by intros Hs [_ ? ? ?]. Qed.

(** Ending with a step of the switch. *)
Lemma sw_gives nd r : node_ok L nd → gives (switch_ok_at L) r → gives (node_ok L) (sw ← r; mret (with_sw nd sw)).
Proof using. intros Hn Hr. eapply gives_bind; [exact Hr|]. intros sw Hs. by apply gives_ret, with_sw_ok. Qed.

Lemma send_out_gives nd sw q port : switch_ok_at L sw → gives (switch_ok_at L) (output parse w d g t nd sw q port).
Proof using.
  intros Hs. unfold output. apply gives_any. intros pkt _. apply output_gives; [|done]. intros. by apply process_gives.
Qed.

Lemma arp_outs_gives os nd q : node_ok L nd → gives (node_ok L) (arp_outs_run parse w d g t nd q os).
Proof using.
  revert nd. induction os as [|o os IH]; intros nd Hn; cbn [arp_outs_run]; [by apply gives_ret|].
  eapply gives_bind; [|intros nd1 Hn1; by apply IH]. destruct o as [port|]; cbn [arp_out_run]; (apply sw_gives; [done|]).
  - apply send_out_gives, Hn.
  - apply destroy_gives, Hn.
Qed.

Lemma arp_path_gives nd q : node_ok L nd → gives (node_ok L) (uah_arp_path parse w d g t nd q).
Proof using.
  intros Hn. unfold uah_arp_path. apply gives_any. intros pkt _. apply gives_any. intros f _. apply gives_any. intros [m os] E.
  apply arp_outs_gives. destruct Hn as [Hs [es Hm] [nes Hnb] Ht]. destruct (arp_ref _ _ _ _ (w_msec w) f Hnb Hm) as (m' & E' & Hm').
  rewrite E' in E. injection E as <- <-. split; [done|by eexists|by eexists|done].
Qed.

Lemma hello_gives nd src in_port data nd' : node_ok L nd → hello_received w nd src in_port data = Some nd' → node_ok L nd'.
Proof using.
  intros [Hs Hm [nes Hnb] Ht] E. unfold hello_received in E. destruct (found_refines _ _ (w_msec w) src Hnb) as (n1 & E1 & Hn1).
  rewrite E1 in E; cbn [mbind option_bind] in E. destruct (negb _).
  - destruct (update_ref n1 _ (w_msec w) src in_port TIME_RECOVERY Hn1) as (n2 & r & E2 & Hn2). rewrite E2 in E. injection E as <-.
    split; [done|done|by eexists|done].
  - destruct (list.last data) as [p|]; [|done]. cbn [mbind option_bind] in E. unfold mac_to_port_add_hello in E.
    edestruct (add_tail_refines n1) as (n2 & E2 & Hn2); [done|]. rewrite E2 in E. injection E as <-. split; [done|done|by eexists|done].
Qed.

Lemma loop_uah_gives n nd q i : node_ok L nd → gives (λ r, node_ok L r.1) (uah_loop parse w d g t n nd q i).
Proof using.
  revert nd i. induction n as [|n IH]; intros nd i Hn; cbn [uah_loop]; [done|].
  apply (gives_bind (λ r, switch_ok_at L r.1)); [apply try_gives; [intros; by apply process_gives|apply Hn]|].
  intros [sw [j| |]] Hs; [by apply IH, with_sw_ok|by apply gives_ret, with_sw_ok..].
Qed.

Lemma uah_gives nd q : node_ok L nd → gives (node_ok L) (pipeline_process_Uah parse 0 w d g t nd q).
Proof using.
  intros Hn. unfold pipeline_process_Uah. apply gives_any. intros pkt _. apply gives_any. intros [h ok] _.
  assert (Hn1 : node_ok L (with_sw nd (put (nd_sw nd) q (set_handle pkt h)))) by (by apply with_sw_ok, Hn; apply put_ok, Hn).
  apply gives_if.
  - apply (gives_bind (λ _, False)); [|done]. unfold send_packet_to_controller. apply gives_any. intros _ _. apply gives_undef.
  - apply gives_any. intros type _. apply gives_if.
    + apply gives_any. intros src _. apply gives_any. intros nd2 E. destruct (hello_received _ _ _ _ _) as [x|] eqn:Eh; [|done]. injection E as ->.
      apply hello_gives in Eh; [|done]. apply sw_gives; [done|]. apply destroy_gives, Eh.
    + eapply gives_bind; [by apply loop_uah_gives|]. intros [nd2 done_] Hn2. cbn in Hn2. apply gives_if; [by apply gives_ret|].
      unfold uah_paths. apply gives_any. intros pkt2 _. apply gives_any. intros type2 _. apply gives_if.
      * apply sw_gives; [done|]. apply destroy_gives, Hn2.
      * cbn [Z.eqb]. by apply arp_path_gives.
Qed.

Lemma frame_gives nd in_port frame tail : node_ok L nd → gives (node_ok L) (process_frame parse 0 w d g t nd in_port frame tail).
Proof using.
  intros Hn. unfold process_frame. pose proof (alloc_kept L (nd_sw nd) (packet_create parse in_port (rx_buffer frame tail) false) (no_switch _ _ Hn)) as Ha.
  destruct (alloc _ _) as [sw q]. by apply uah_gives, with_sw_ok.
Qed.
End frames.

Section turn.
  Context `{Ofpbuf.Malloc} (parse : list Z → option (ofl_match * protocols_std)) (w : world) (d g t : nat).

(** * Receiving *)

Lemma with_ports_ok l nd p : ports_ok p → port_list p = l → node_ok (Some l) nd → node_ok (Some l) (with_ports nd p).
Proof using. intros Hp Hl [[Hpl _ _] ? ? ?]. split; [|done..]. split; [done|done|]. by intros ? [= <-]. Qed.

(** The state of the loop over the ports. *)
Definition run_ok (l : list Z) (s : outcome node * dp_ports) : Prop :=
  gives (node_ok (Some l)) s.1 ∧ ports_ok s.2 ∧ port_list s.2 = l.

Lemma process_on_ok l tail x dp in_port frame :
  run_ok l (x, dp) → run_ok l (process_on parse 0 w d g t tail x dp in_port frame).
Proof using.
  intros (Hx & Hp & Hl). unfold process_on. cbn in Hx, Hp, Hl.
  assert (Hg : gives (node_ok (Some l)) (nd ← x; process_frame parse 0 w d g t (with_ports nd dp) in_port frame tail)).
  { eapply gives_bind; [exact Hx|]. intros nd Hn. by apply frame_gives, with_ports_ok. }
  split; [exact Hg|]. cbn. destruct (x ≫= _) as [nd| |]; [|done..]. destruct (Hg nd eq_refl) as [[_ Hp' Hl'] _ _ _]. by split; [|apply Hl'].
Qed.

Lemma run_port_ok l nd tail s no : no ∈ l → run_ok l s → run_ok l (run_port nd (process_on parse 0 w d g t tail) s no).
Proof using.
  destruct s as [x dp]. intros Hin (Hx & Hp & Hl). unfold run_port. cbn in Hx, Hp, Hl.
  assert (Hno : is_Some (ports dp !! no)) by (apply (ok_listed dp Hp); by rewrite Hl). destruct Hno as [p Hno].
  unfold port_at. rewrite Hno; cbn [default from_option id]. destruct (check_link_ok nd no p (po_at dp no p Hp Hno)) as [Hok _].
  assert (Hset : ∀ p', port_ok no p' → run_ok l (x, set_port_at dp no p')).
  { intros p' Hp'. split; [done|]. split; [by eapply set_port_ok|done]. }
  destruct (nd_recv nd no) as [b|]; [|by apply Hset]. unfold process_buffer.
  assert (Hrx : port_ok no (set_rx (check_link nd no p) (u64 (sp_rx_packets (check_link nd no p) + 1))
                 (u64 (sp_rx_bytes (check_link nd no p) + Z.of_nat (length b))))) by (destruct Hok; by split).
  destruct (truthy _); [by apply Hset|]. by apply process_on_ok, Hset.
Qed.

Lemma ports_run_gives L tail nd : node_ok L nd → gives (node_ok None) (ports_run parse 0 w d g t tail nd).
Proof using.
  intros Hn. unfold ports_run, dp_ports_run. set (l := port_list (sw_ports (nd_sw nd))).
  assert (Hn0 : node_ok (Some l) nd) by (destruct Hn as [[? ? ?] ? ? ?]; split; [split; [done|done|by intros ? [= <-]]|done..]).
  assert (Hrun : run_ok l (fold_left (run_port (device w (nd_sw nd)) (process_on parse 0 w d g t tail)) l (mret nd, sw_ports (nd_sw nd)))).
  { assert (Hs : run_ok l (mret nd, sw_ports (nd_sw nd))) by (split; [by apply gives_ret|split; [apply Hn|done]]).
    assert (Hsub : Forall (λ no, no ∈ l) l) by (by apply list.Forall_forall). revert Hsub Hs.
    generalize (mret nd : outcome node, sw_ports (nd_sw nd)). generalize l at 2 5. intros l' s Hsub. revert s.
    induction Hsub as [|no l' Hin _ IH]; intros s Hs; cbn [fold_left]; [done|]. by apply IH, run_port_ok. }
  destruct (fold_left _ _ _) as [x dp]. destruct Hrun as (Hx & Hp & Hl). eapply gives_bind; [exact Hx|].
  intros nd1 [[Hpl _ _] ? ? ?]. apply gives_ret. split; [|done..]. by split.
Qed.

(** * Timers *)

Lemma refill_refs now e : me_flow_refs (refill_bucket now e) = me_flow_refs e ∧ me_meter_id (refill_bucket now e) = me_meter_id e.
Proof using. done. Qed.

Lemma add_tokens_ok now pl : pipeline_ok [] pl →
  pipeline_ok [] (Pipeline (Datapath (dp_flows (pl_dp pl)) (dp_groups (pl_dp pl)) (meter_table_add_tokens now (dp_meters (pl_dp pl))) (dp_sent (pl_dp pl)))
                    (pl_tables pl)).
Proof using.
  intros [[Hg Hm [Rg Rgn Rex Rnm Rm Rmn Rms Rord] Ht] Hlen Htab Hin Hid]. split; try done.
  split; cbn [pl_dp dp_groups dp_meters dp_flows]; try done.
  - destruct Hm as [He Hn Hb Hmax]. split; cbn [meter_table_add_tokens mt_entries mt_entries_num mt_bands_num]; [|by rewrite map_size_fmap|by rewrite bands_of_fmap|done].
    intros i e. rewrite lookup_fmap_Some. intros (e0 & <- & H0). destruct (He _ _ H0). split; [done|by apply meter_ok_refill].
  - split; cbn [dp_groups dp_meters dp_flows meter_table_add_tokens mt_entries]; try done.
    + intros k e p. rewrite lookup_fmap_Some. intros (e0 & <- & H0) Hp. by apply (Rm k e0 p).
    + intros k e. rewrite lookup_fmap_Some. intros (e0 & <- & H0). by apply (Rmn k e0).
Qed.

Lemma timeouts_ok nd nd' : node_ok None nd → run_timeouts w nd = Some nd' → node_ok None nd'.
Proof using.
  intros [[Hpl Hp _] Hm Hnb Ht] E. unfold run_timeouts in E. pose proof (add_tokens_ok (w_msec w) _ Hpl) as Hpl1.
  set (pl1 := Pipeline _ _) in *. clearbody pl1.
  destruct (timeout_tables_ok [] (w_msec w) [] (pl_dp pl1) (pl_tables pl1)) as (dp' & ts' & E' & Hok); [by rewrite app_nil_l, pipeline_eta|].
  unfold pipeline_timeout in E. rewrite E' in E. injection E as <-. split; [|done..]. by split.
Qed.

Lemma timers_gives nd tm : node_ok None nd → gives (λ r, node_ok None r.1) (run_timers parse w d g t nd tm).
Proof using.
  intros Hn. unfold run_timers. apply (gives_bind (λ r, node_ok None r.1)).
  { apply gives_if; [|by apply gives_ret]. apply (gives_bind (node_ok None)); [|intros; by apply gives_ret].
    unfold packet_hello_send. apply sw_gives; [done|]. apply send_out_gives, Hn. }
  intros [nd1 s] Hn1; cbn in Hn1. apply (gives_bind (λ r, node_ok None r.1)).
  { apply gives_if; [|by apply gives_ret]. apply gives_any. intros m E. apply gives_ret. destruct Hn1 as [Hs [es Hes] Hnb Ht]. split; [done| |done|done].
    pose proof (delete_timeout_ref _ _ (w_msec w) Hes) as Ha. destruct (delete_timeout_spec _ _) as [es'|]; [|by rewrite Ha in E].
    destruct Ha as (m' & E' & Hm'). rewrite E' in E. injection E as <-. by eexists. }
  intros [nd2 a] Hn2; cbn in Hn2. apply (gives_bind (λ r, node_ok None r.1)); [|intros [nd3 b] Hn3; by apply gives_ret].
  apply gives_if; [|by apply gives_ret]. apply gives_any. intros x E. apply gives_ret. destruct Hn2 as [Hs Hm Hnb Ht]. split; [done..|].
  rewrite Ht in E. change (table_tcp_delete_timeout table_tcp_new (w_msec w)) with (Some table_tcp_new) in E. by injection E as <-.
Qed.

Lemma run_frames_gives tail nd tm : node_ok None nd → gives (λ r, node_ok None r.1) (dp_run_frames parse 0 w d g t tail nd tm).
Proof using.
  intros Hn. unfold dp_run_frames. apply (gives_bind (node_ok None)).
  - apply gives_if; [by apply gives_ret|]. intros nd1 E. destruct (run_timeouts w nd) as [x|] eqn:Er; [|done]. injection E as <-. by eapply timeouts_ok.
  - intros nd1 Hn1. eapply gives_bind; [by apply (ports_run_gives None)|]. intros nd2 Hn2. by apply gives_ret.
Qed.
End turn.

(** * The main loop *)

(** Switch, connections and path tables are in order at the time [now]. *)
Record whole_ok (now : Z) (x : list (positive * option positive) * whole * ctl) : Prop := {
  who_state : state_ok (wh_state x.1.2);
  who_ctl : ctl_ok now x.2;
  who_mac : ∃ es, repr true (wh_mac_port x.1.2) es;
  who_neighbors : ∃ nes, repr true (wh_neighbors x.1.2) nes;
  who_tcp : wh_tcp_table x.1.2 = table_tcp_new }.

(** Time does not go back, and connections deliver bytes. *)
Fixpoint turns_ok (t : Z) (tus : list turn) : Prop :=
  match tus with
  | [] => True
  | tu :: tus => t <= w_now (tu_world tu) ∧ w_now (tu_world tu) + 60 < UINT_MAX ∧ net_bytes (tu_vconn tu) ∧ turns_ok (w_now (tu_world tu)) tus
  end.

Section main.
  Context `{Ofpbuf.Malloc} `{StatsWire.Malloc} (parse : list Z → option (ofl_match * protocols_std)) (created : Z → Z) (port_facts : Z → ofl_port).
  Context (d g t : nat).

Lemma node_state s nd : state_ok s → node_ok None nd → state_ok (set_sw s (nd_sw nd)).
Proof using. intros [_ ? ? ?] Hn. split; [apply Hn|done..]. Qed.

(** The turn of the controllers: what it returns is right, since the turn that drops what
    cannot be handled returns the same. *)
Lemma controllers_gives w V xid A ls s c :
  net_bytes V → state_ok s → ctl_ok (w_now w) c →
  gives (λ r : list (positive * option positive) * dp_state * ctl, state_ok r.1.2 ∧ ctl_ok (w_now w) r.2 ∧ r.1.1 ⊆ ls)
    (lift (dp_run_controllers (w_now w) V xid (control parse w V created port_facts d g t) A ls s c)).
Proof using.
  intros HV Hs Hc r E%lift_done.
  assert (E' : dp_run_controllers (w_now w) V xid (lenient (control parse w V created port_facts d g t)) A ls s c = Some r).
  { revert E. unfold dp_run_controllers. apply bind_mono; [intros ?; apply remotes_lenient|done]. }
  destruct (dp_run_ok (w_now w) V xid (lenient (control parse w V created port_facts d g t)) state_ok A ls s c HV Hs Hc)
    as [(r' & Er & Hok)|(s' & c' & id & conn_id & b & _ & _ & _ & _ & E2)]; [|done].
  rewrite E' in Er. by injection Er as <-.
Qed.

Lemma whole_node now x : whole_ok now x → node_ok None (node_of x.1.2).
Proof using. intros [Hs _ ? ? ?]. split; [apply Hs|done..]. Qed.

Lemma turn_gives tu x now :
  whole_ok now x → turns_ok now [tu] →
  gives (λ x', whole_ok (w_now (tu_world tu)) x' ∧ x'.1.1 ⊆ x.1.1) (main_turn parse 0 created port_facts d g t tu x).
Proof using.
  intros Hx (Ht & Hmax & HV & _). pose proof (whole_node _ _ Hx) as Hn. destruct x as [[ls wh] c], Hx as [Hs Hc _ _ _]. cbn [fst snd] in *.
  assert (Hc1 : ctl_ok (w_now (tu_world tu)) c) by (by eapply ctl_ok_later).
  unfold main_turn. apply (gives_bind (λ x', whole_ok (w_now (tu_world tu)) x' ∧ x'.1.1 ⊆ ls)).
  - unfold dp_run. eapply gives_bind; [by apply run_frames_gives|]. intros [nd tm] Hn1; cbn [fst] in Hn1.
    eapply gives_bind; [apply sends_gives; [done|intros _; apply news_async]|]. intros c1 [Hc2 _].
    eapply gives_bind; [apply controllers_gives; [done|by apply node_state|done]|]. intros [[ls2 s2] c2] (Hs2 & Hc3 & Hls).
    apply gives_ret. destruct Hn1. by split.
  - intros [[ls2 wh2] c2] [Hx2 Hls]. eapply gives_bind; [apply timers_gives, (whole_node _ _ Hx2)|].
    intros [nd tm] Hn2; cbn [fst] in Hn2. apply gives_ret. destruct Hx2 as [Hs2 Hc2 _ _ _]. split; [|done]. destruct Hn2 as [Hsw ? ? ?].
    split; [destruct Hs2; by split|done..].
Qed.
End main.

(** C6: the whole switch, through any traffic.  The devices deliver whatever frames they like and the
    controllers send whatever bytes they like; flows time out, meters refill, hellos are sent
    and path tables age when their time has come.  With TCP-Path off, from a consistent state such as the first and with
    a clock that goes up by less than the counters hold ([turns_ok]), however many turns of the
    main loop have returned, the flow tables, groups, meters and ports still agree with each other and
    with the datapath's indexes, both path tables are well-formed lists, and each connection has its
    role, queue and counters right; no listener has been added.  That a turn returns is not part of it: a turn in which
    the code misbehaves (a packet that loops, a modify of two flows, which then share one array of instructions, the deletion
    of all of several groups or meters that flows use, an unknown set-field header, a message that cannot be sent) gives no state,
    and the run ends there. *)
Theorem main_loop_invariant `{Ofpbuf.Malloc} `{StatsWire.Malloc} (parse : list Z → option (ofl_match * protocols_std)) (created : Z → Z)
    (port_facts : Z → ofl_port) (d g k : nat) (tus : list turn) (x x' : list (positive * option positive) * whole * ctl) (t : Z)
    (Hx : whole_ok t x) (Ht : turns_ok t tus) (E : main_loop parse 0 created port_facts d g k tus x = Done x') :
  ∃ t', t <= t' ∧ whole_ok t' x' ∧ x'.1.1 ⊆ x.1.1.
Proof.
  revert t x Hx Ht E. induction tus as [|tu tus IH]; intros t x Hx Ht E.
  - injection E as <-. by exists t.
  - cbn [main_loop] in E. destruct Ht as (H1 & H2 & H3 & Ht). pose proof (turn_gives parse created port_facts d g k tu x t Hx) as Hg.
    destruct (main_turn _ _ _ _ _ _ _ _ _) as [x1| |]; [|done..]. destruct (Hg ltac:(done) x1 eq_refl) as [Hx1 Hl1].
    destruct (IH _ x1 Hx1 Ht E) as (t' & Hle & Hx' & Hl'). exists t'. split_and!; [lia|done|by etrans].
Qed.

(** ** An example: two turns in which a broadcast and a hello are sent, and a controller's echo answered *)

#[local] Instance ex_stack : Ofpbuf.Malloc := λ _, 0xCC.
#[local] Instance ex_heap : StatsWire.Malloc := {| fresh := zeros; fresh_length n := length_replicate n 0; fresh_bytes := zeros_bytes |}.

(** Port 1 delivers a broadcast. *)
Definition ex_device : netdev :=
  Netdev (nd_open ex_nd) (nd_link_state ex_nd) (λ no, if no =? 1 then Some (ex_frame ex_all (ex_host 7)) else None)
    (nd_set_flags ex_nd) (nd_setup_slicing ex_nd) (nd_send ex_nd) (nd_change_class ex_nd) (nd_setup_class ex_nd).
Definition ex_world_of (msec : Z) : world :=
  World msec (msec / 1000) 1000 128 (λ _, ex_device) (λ _, 0%nat) mac_to_port_new (replicate 16 [0; 1; 2; 3]).
Definition ex_turn (msec : Z) (answer : Rconn.answer) : turn :=
  Turn (ex_world_of msec) (ex_world_of (msec + 1)) ex_echoes 1 (λ _, answer) 100.
Definition ex_whole (s : dp_state) : list (positive * option positive) * whole * ctl :=
  ([(1%positive, None)], Whole (set_sw s (nd_sw (ex_sender 150 mac_to_port_new))) mac_to_port_new table_tcp_new mac_to_port_new 0
                           (Timers 1 0 0 5000 5000), no_remotes).

(** What the two turns send: the broadcast, the hello, and the broadcast again. *)
Definition ex_sends : list tx :=
  [(2, 0, ex_frame ex_all (ex_host 7)); (1, 0, ex_hello_frame 150); (2, 0, ex_hello_frame 150); (OFPP_LOCAL, 0, ex_hello_frame 150);
   (2, 0, ex_frame ex_all (ex_host 7))].
Definition ex_turns_taken : list turn := [ex_turn 10001 Rconn.Ok; ex_turn 10501 Rconn.Again].
Abbreviation ex_loop s := (main_loop Processing.ex_parse 0 (λ _, 0) ex_facts 1 1 64 ex_turns_taken (ex_whole s)).

Lemma ex_loop_runs s : dp_new 0 [] = Some s → ∃ x', ex_loop s = Done x' ∧ sw_sent (ds_sw (wh_state x'.1.2)) = ex_sends.
Proof.
  intros E.
  assert (match dp_new 0 [] with Some s => match ex_loop s with Done x' => bool_decide (sw_sent (ds_sw (wh_state x'.1.2)) = ex_sends) | _ => false end
          | None => false end = true) as Hb by (vm_compute; reflexivity).
  rewrite E in Hb. destruct (ex_loop s) as [x'| |]; [|discriminate Hb..]. apply bool_decide_eq_true in Hb. exists x'. split; [reflexivity|exact Hb].
Qed.

Lemma ex_whole_ok s : state_ok s → whole_ok 10 (ex_whole s).
Proof.
  intros Hs. split; cbn [ex_whole fst snd wh_state wh_mac_port wh_neighbors wh_tcp_table]; [|apply no_remotes_ok; [lia|unfold UINT_MAX; lia]| | |reflexivity].
  - destruct Hs as [_ ? ? ?]. split; [split; [exact pipeline_create_ok|exact ex_dp_ok|done]|done..].
  - exists []. exact mac_new_repr.
  - exists []. exact mac_new_repr.
Qed.

Lemma ex_taken_ok : turns_ok 10 ex_turns_taken.
Proof.
  destruct ex_turns_ok as (_ & _ & Hb & _). unfold ex_turns_taken. cbn [turns_ok]. change (w_now (tu_world (ex_turn 10001 Rconn.Ok))) with 10.
  change (w_now (tu_world (ex_turn 10501 Rconn.Again))) with 10. unfold UINT_MAX. split_and!; (exact Hb || lia || done).
Qed.

Lemma main_loop_invariant_witness :
  ∃ s x' t', dp_new 0 [] = Some s ∧ ex_loop s = Done x' ∧ sw_sent (ds_sw (wh_state x'.1.2)) = ex_sends ∧ 10 <= t' ∧ whole_ok t' x'.
Proof.
  destruct (dp_new_ok 0 []) as (s & E & Hs). destruct (ex_loop_runs s E) as (x' & Ex & Hx).
  destruct (main_loop_invariant Processing.ex_parse (λ _, 0) ex_facts 1 1 64 ex_turns_taken (ex_whole s) x' 10 (ex_whole_ok s Hs) ex_taken_ok Ex)
    as (t' & Ht & Hok & _).
  exists s, x', t'. split; [exact E|]. split; [exact Ex|]. split; [exact Hx|]. split; [exact Ht|exact Hok].
Defined.
